(* ===== verification/_CoqProject ===== *)
-Q . S2P
Prelude.v
GoStrings.v
Regex.v
Model.v
GoTime.v
Classification.v
EnvFailure.v
GateFleet.v
GateStore.v
GateRegister.v
SoakDB.v
GateFault.v
GateVerdict.v
GateLifecycle.v
LtxCoverage.v
WalFrames.v
WalReference.v
LoadSupervisor.v
NoProgress.v
WorkerStore.v
Provisioning.v
WorkerManager.v
Rollout.v
Scorecard.v
LifecyclePolicy.v
Lifecycle.v
Alerts.v
S3FaultProxy.v
WorkerErrors.v
RestoreOutput.v
RestorePlan.v
WalReset.v
LitestreamProcess.v
LitestreamConfig.v
Verifier.v
VerifierProofs.v
ManyDB.v
ManyDBProofs.v
VolumeGC.v
VolumeGCProofs.v
Deploy.v
DeployProofs.v
Replacement.v
HoldProofs.v
PRPoller.v
PRPollerProofs.v
Webhook.v
WebhookProofs.v
UpgradeLane.v
UpgradeLaneProofs.v
VFSCheck.v
VFSCheckProofs.v
