(* ===== verification/Prelude.v ===== *)
(** A verification development of litestream-soak, the soak-test harness of
    Litestream: a control plane that provisions workers, registers release
    gates and decides from the workers' reports whether a release candidate
    regresses, and workers that load a SQLite database, replicate it with
    Litestream and verify what was replicated.

    * The program's parts and where they are modelled

    The control plane ([src/internal/orchestrator], [src/internal/model],
    [src/internal/reporting]) keeps workers, deployments, verifications, events
    and gates in SQLite tables.  A worker reports verifications and events; the
    text of a failure is classified; the classification and the event history
    decide which failures are the environment's and which the candidate's; the
    gate evaluation combines them into a verdict.  A worker
    ([src/internal/worker]) supervises a load generator, runs Litestream, reads
    the WAL and the replica's LTX files, watches the disk, and in cycles pauses
    the load, restores the replica and compares it with the database.

    - [Prelude]: records, machine integers, time, binary64, results and the list
      lemmas every file uses.  [GoStrings], [Regex], [GoTime]: the parts of Go's
      [strings], [strconv], [regexp] and [time] the sources use.
    - [Model]: the records of [model/types.go], [reporting/types.go],
      [workload/config.go] and [model/rc_gates.go] with their predicates.
    - [Classification]: [reporting/classification.go].  [EnvFailure]:
      [orchestrator/inference.go] and [envfailure.go], the policy that tells
      environmental failures from the candidate's, and its three consumers.
    - [GateFleet]: the gate's worker tables, source names and scenario tables of
      [orchestrator/rc_gate.go].  [GateStore]: the table of [model/rc_gates.go],
      one operation per query.  [GateRegister]: [RegisterRCGate], the
      provisioning guard, the fleet of a gate source and the pinning of builds.
    - [SoakDB]: the queries of [model/workers.go], [deployments.go],
      [events.go], [event_queries.go] and [verifications.go] that the gate
      reads.  [GateFault]: the fault rules (crash loops, full disks, stale
      workers, planned restarts).  [GateVerdict]: sides, modes, scenarios and
      the verdict, [buildRCGateResults].  [GateLifecycle]: [evaluateRCGate] and
      the ledger, as a state machine over the gate table.
    - [LtxCoverage]: [worker/ltx_coverage.go].  [WalFrames]:
      [worker/wal_frames.go]; [WalReference]: the file format, written down again and apart from
      that code, and the agreement of the two.  [LoadSupervisor]: [worker/load_supervisor.go].
      [NoProgress]: [worker/no_progress.go] and [disk_full_recovery.go].
      [S3FaultProxy]: the fault proxy and request meter of
      [worker/s3_fault_proxy.go].  [WalReset]: the WAL reset check of
      [worker/walreset_check.go], a cycle against an environment that answers
      every call to SQLite, Litestream, the replica, the load and the clock.
      [LitestreamProcess]: starting, stopping, killing and watching the
      Litestream process ([worker/litestream_manager.go], [walreset_check.go]) as
      a transition system.
      [LitestreamConfig]: the paths, replica URLs and configuration file of that
      process and the cleanup of stale state ([worker/config.go],
      [worker/litestream_manager.go]).
    - [WorkerErrors]: the errors the worker tells apart.  [RestoreOutput]: what is
      kept of a restore's output ([worker/restore_evidence.go], [log_incidents.go]).
      [RestorePlan]: restore modes, the marker of a latest restore, the target of a
      timestamp restore and the capacity check ([worker/restore_mode.go],
      [restore_capacity.go]).  [Verifier]: the verification cycle of one and of many
      databases ([worker/verifier.go], [verifier_deadlines.go],
      [verification_boundary.go], [verifier_manydb.go], the comparison of
      [logical.go]) against an environment that answers for SQLite, Litestream, the
      restore command, the contexts and the clock, as a function of the calls so far;
      [VerifierProofs]: its theorems.  [ManyDB]: the load of a worker with many databases
      ([worker/manydb.go], the active set of [config.go]): population, the dispatcher, the
      tracker of changed databases with its file, the writers and the verifier's
      acknowledgements as a transition system; [ManyDBProofs]: its theorems.
    - [WorkerStore]: the worker table, one operation per statement of
      [model/workers.go], and the staleness check of [orchestrator/expiry.go].
      [Provisioning]: the attempt table of [model/provisioning.go], the driver
      and the crash recovery of [orchestrator/provisioning.go], volume forks and
      machine creation of [manager.go] and [dormancy.go], against the platform
      interface of that file.  [WorkerManager]: stopping, destroying and holding
      workers and tearing a source down ([manager.go], [evidence_hold.go],
      [lifecycle.go], [expiry.go], [dormancy.go]).  [Replacement]: creating, replacing and rolling
      a worker, resuming dormant ones and recovering pending ones, and the fleet a source is to have
      ([manager.go], [dormancy.go], [fleet.go], [workload.go]), with the deployments of [Deploy];
      [HoldProofs]: evidence holds against all of these.
    - [Rollout]: rollout status, counters and guidance of
      [builders_deployment.go].  [Scorecard]: scorecards and comparisons of that
      file, run eligibility and comparison of [reliability.go], the archive
      listing.  [LifecyclePolicy]: the success, known-bad, maximum-age and
      dormancy policies of [lifecycle.go] and [dormancy.go].  [Lifecycle]: the
      evaluations that act on them.  [Alerts]: [model/alerts.go],
      [orchestrator/alerts.go] and the dormant-fleet condition.
    - [VolumeGC]: the collector of stale worker volumes
      ([orchestrator/volume_inventory.go], [evidence_hold.go], [model/volume_gc.go]) against an
      environment that answers for the platform, the database, the clock and the worker
      locks as a function of the calls so far; [VolumeGCProofs]: its theorems.
      [Deploy]: the validation and the table of deployments and their rollouts
      ([orchestrator/deploy.go], [model/deployments.go]) as a transition system with
      restarts; [DeployProofs]: its theorems.
      [PRPoller]: the poller of upstream pull requests ([orchestrator/pr_state_poller.go]) against
      an environment that answers for GitHub, the clock and the database; [PRPollerProofs]: its theorems.
      [Webhook]: GitHub's deliveries and the retirement of a source they start
      ([orchestrator/webhook.go], [archiveAndDestroyTerminalPRSource]); [WebhookProofs]: its theorems.
    - [UpgradeLane]: the upgrade lane of a worker and the purge of its replica's snapshot level
      ([worker/upgrade_lane.go], [worker/replica_l9_purge.go], [worker/atomic_write.go]), a program of calls
      that may be killed before any of them, over a state file whose replacements may be
      lost; [UpgradeLaneProofs]: its theorems.
    - [VFSCheck]: the snapshot and read checks of the VFS reader and its sessions
      ([worker/vfs_check.go], [worker/vfs_reader.go]) against an environment that answers for the
      shell, Litestream, the primary and the clock; [VFSCheckProofs]: its theorems.

    A Go struct is a [Record] with the struct's field names behind a prefix, an
    enumeration an [Inductive] or the string the code compares, a function a
    [Definition] of the same name; a method that mutates its receiver returns
    the new state; a function returning an error returns [result]; a map is a
    [gmap], and a loop that ranges over one takes its order from the interface
    [RangeOrder] of [Scorecard], so that what is proved holds for every order.

    * What the theorems show

    - The gate's verdict: a pass implies a clean, covered candidate for every
      scored scenario and mode ([pass_sound]); a mode that fails on the
      candidate and passes on a covered baseline fails the gate
      ([regression_fails]).  The fault rules count or forgive every crash, each
      planned restart once ([crash_accounting]), give the fault of every branch
      ([fault_reason]) and excuse only faults before Litestream started
      ([excused_only_before_start]).
    - The gate's life: the table's invariant under every interleaving of
      registrations, pins and evaluations ([gate_invariant]); a closed gate
      never changes ([closed_forever], [ledger_frozen]); past its deadlines a
      gate closes in two evaluations ([gate_closes]); a pinned build is never
      replaced ([pin_write_once]).
    - Registration and provisioning: what an accepted gate satisfies
      ([registered_gate_sound]), when its scenarios all have workers
      ([registered_gate_scores_its_fleet]), when registering again is idempotent
      ([register_again]), that the guard lets only a gate's own fleet through, inside its
      window and on its pinned build ([provisioning_in_window]), and that on that build
      it lets through the workers the fleet lists ([fleet_is_provisionable]).
    - Classification and environmental failures: consistency and validity of
      computed classifications, and agreement of the policy's consumers.
    - Worker: the coverage check is equivalent to the set-theoretic definition
      of a hole ([coverage_failed_iff], [coverage_passed_iff]); the WAL walk reads the
      header and the longest valid checksum chain of the file format and inverts it
      ([walk_is_reference], [wal_written_is_read]); the supervisor runs one load
      generator, honours pauses and loses no wakeup under every interleaving;
      the disk-pressure detector reports only real stalls, once each, and one
      recovery outcome.
    - The fault proxy injects the faults of its schedule within its bounds
      ([fault_schedule_is_reference], [proxy_bounds]), counts every request
      ([meter_is_exact]) and recognises a failed multipart completion however the
      response is cut ([completion_scan_is_reference]).  The WAL reset check gives
      back everything it takes ([cycle_restores_world]), ends
      ([cycle_terminates]), confirms the shape of the stale frames exactly when it
      is there ([shape_confirmed_iff]), reaches a verdict only on it
      ([verdict_rests_on_shape]), tells errors that are evidence from others
      ([conclusive_error_iff]) and reports a failure the gate counts
      ([failed_cycle_is_reproduction]).
    - The Litestream process: at most one runs under every interleaving of
      stops, kills, restarts and exits ([one_litestream]), a stop that succeeded
      ended the process it was asked to stop ([stop_is_owned]), and a planned exit
      never ends the worker ([planned_exit_never_cancels]).  A restart with the
      same configuration keeps Litestream's local state ([restart_keeps_state]),
      except with a list of databases ([list_restart_loses_state]).
    - The verifier: a cycle passes only on the whole chain of sync, boundary under
      the writer lock with the load paused, restore, integrity check and comparison,
      and an error never passes ([cycle_verdict]); the load runs again when it returns
      ([load_is_resumed]); it returns, within a bounded number of rounds of its polls, while
      the contexts end in time ([cycle_returns]); the status of a failure
      and the deadlines are exact ([failure_status_exact], [deadlines_saturate]).  The
      evidence of a restore does not depend on how its output was cut
      ([restore_output_is_reference]); the restore modes rotate ([modes_rotate]), the
      marker of a cycle is kept unless the clock steps back ([marker_retention],
      [backward_clock_loses_marker]), a timestamp target separates the boundary from
      what follows ([timestamp_target_separates]), and a restore starts only with room
      for it ([restore_capacity_checked], [wal_readers_agree]).
    - Many databases: in every interleaving of writers, verifier, failed saves and
      restarts, a row that no verification has seen keeps its database in the written set,
      also after a restart, and keeps a batch from passing ([no_write_lost]), unless a
      writer's stat of the database fails ([stat_failure_loses_the_write]); the rows of a database
      stay within its limit ([rows_within_limit]).
    - Workers: the table stays well formed ([worker_table_wf]); a worker's own
      reports never bring a stopped, failed or dormant one back
      ([reports_never_resurrect]); a crash loop goes stale
      ([crash_loop_goes_stale]).  Across crashes and restarts an attempt creates
      at most one volume and one machine ([one_creation_per_attempt],
      [recovery_never_recreates]) and the driver ends ([driver_terminates]).  An
      evidence hold survives everything but its release and a deleted row, also replacement,
      resumption, recovery and fleet reconciliation ([hold_honoured]), and a teardown
      accounts for every worker ([teardown_accounts]).
    - Deployments: what a stable rollout, an additive scorecard and a good
      comparison say ([stable_sound], [scorecard_adds_up],
      [good_verdict_sound]), independently of map order
      ([comparison_order_independent], [dominant_is_strict_maximum]).  Workers
      are torn down only after a clean soak that is proved twice
      ([success_teardown_is_guarded]) and paused only on corroborated evidence
      ([known_bad_is_corroborated], [dormancy_candidate_iff],
      [evidence_windows_end]).
      A recorded rollout is marked as handled only by a rollout of its own generation that
      was superseded or did everything ([rollout_never_lost]), a restart resumes what is left
      ([restart_resumes_all]), and a version recorded again after a newer one is never
      rolled out ([earlier_version_is_never_rolled_out]).
      A pull request's source is retired by the poller only on a dated, complete and
      unambiguous answer that it is closed ([retired_only_when_confirmed],
      [duplicate_members_rejected]), although an age that overflows passes as fresh
      ([age_overflow_is_fresh]), and by a delivery only when it is signed
      ([webhook_actions_authorised]); a retirement ends within three attempts, with
      every worker stopped or the failure recorded ([retirement_accounted]).
    - Upgrade lane: across kills and restarts the base build never follows the candidate,
      which starts only on a replica whose purge was listed as empty and recorded, and only
      the worker's own snapshots are removed, before that ([upgrade_lane_safe]); a
      state whose replacement was not synced is acted on all the same
      ([unsynced_state_is_acted_on]), and a removal may name another object than the one
      listed ([cleaned_key_names_another_object], [listing_collapses_spaces]).
    - VFS reader: a verdict rests on the reads of one held transaction, or on the answers at
      a boundary, of a hydrated session that caught up ([vfs_snapshot_verdict],
      [vfs_read_verdict]); a kept session has no transaction open and nothing unread
      ([vfs_sessions_left_clean]); its log is read in pieces as in one scan
      ([hydration_is_one_scan]).
    - Volumes: a destroy request is made only for a stale unattached worker volume whose
      owners are locked and not held, after the attempt was saved
      ([volume_requests_guarded]), and is repeated only after its backoff, across restarts
      ([volume_requests_spaced]).
    - Alerts: the table's invariant ([alert_table_wf]) and the agreement of the
      dormant-fleet condition with the fleet ([dormant_alert_tracks_fleet]).
    - Theorems that exhibit behaviour the code does not intend (a gate that
      passes without scoring anything, a lost warm-up, a classification its own
      validator rejects, a stopped process left behind, ...) are stated on
      concrete inputs and traces.

    * Bounds and fuel

    Three loops over a text take the length of the text as fuel, which is proved
    enough ([parse_loop_enough], [find_all_enough], [replace_all_enough]): the units
    of [time.ParseDuration] and the successive matches of a pattern, found or
    replaced.  The kept tail of a restore's output makes room within its own length
    ([makeRoom_fits]), and the frame loop of the capacity check takes the length of
    the file, each round taking a frame.  The
    provisioning driver takes six steps at most ([driver_terminates]), machine
    creation is tried five times as in the code, and the growing evidence
    windows are given four and five rounds, enough for the code's cap of a
    thousand rows ([evidence_windows_end]).  The two loops of the WAL reset
    check that wait for a deadline take fuel, enough when it exceeds the polls
    until the deadline ([cycle_terminates]); those of a verification cycle (the sync
    retries and the attempts at the write lock) do too ([cycle_returns]).  Pruning a database
    takes the number of its rows as fuel, each full batch removing some, and running out of it
    is an error that the pruned rows exclude ([pruneLoop_spec]); a rollout that runs
    alone takes eight steps at most ([restart_resumes_all]).  The scan of a JSON body takes
    twice its tokens, enough for any value ([scan_spec]), and a retirement the code's three attempts.  Every other recursion is structural: on the lists, strings and event histories,
    on the number of frame slots of a WAL file (the file's size over its frame
    size) and on regular-expression syntax; the transition systems are
    inductive relations or functions from an action and a state to the next state, run over
    lists of actions of any length.  [int64], [uint64] and [uint32]
    arithmetic wraps ([wrap_int], [wrap_uint]), [time.Sub] saturates, and
    floating point is IEEE-754 binary64.  The limits of the code (event and
    verification history lengths, 120-byte signatures, backoff) are the code's.

    * What is not modelled

    Failures of SQLite itself and of other I/O, unless the code branches on
    them; JSON decoding and SQLite's [julianday], which are the interface
    [Decoders] of [SoakDB] with an instance for the witnesses; the answers of
    the platform and the outcome of writing an archive, which are arguments; the
    timers that call the evaluations; HTTP handlers other than the webhook, pages, metrics, the Fly
    client, the SQL workloads, the offline tools; the follow check a cycle
    may run after its own, whose results are answers of its environment, and the reading
    of a logical snapshot, which is SQL.  Non-ASCII case folding and Unicode spaces are
    outside [GoStrings].  [slices.SortFunc] is not stable in Go and is a stable
    sort here; the theorems about its results do not depend on the order of
    equal keys.

    The parts left out are those whose behaviour is the library's or a text: the
    exposition of metrics ([orchestrator/metrics.go]), guidance texts and pages, the parsing of
    a worker's environment ([worker/config.go] beyond the paths, replica URLs and active set),
    debug snapshots, profiles and log shipping, the follow check, the SQL behind the checks and
    the workload generators, the periodic reconciler of [fleet.go] (what it does to each source is
    [Replacement]'s; in [Deploy] the outcome of those steps is an answer of the environment), the
    shared cache of volume listings, the observation of running deployments, and the stand-alone tools under
    [cmd]. *)
From stdpp Require Export base gmap list strings pretty.
From Stdlib Require Export ZArith Lia.
From Stdlib Require Import Ascii SpecFloat.

(** * Record update

    [r <| f := v |>] is the record [r] with field [f] replaced, and
    [r <| f ::= g |>] applies [g] to it.  A record type opts in with a
    [Settable] instance, its eta expansion. *)

Class Settable (R : Type) := eta_of : R -> R.
Class Setter {R T : Type} (proj : R -> T) := set_field : (T -> T) -> R -> R.

Ltac derive_setter :=
  match goal with
  | |- @Setter ?R ?T ?p =>
      let body := eval cbv [eta_of] in (eta_of (R := R)) in
      let body := eval hnf in body in
      let abstracted := eval pattern p in body in
      match abstracted with
      | ?ctx _ => exact (fun g r => ctx (fun r0 => g (p r0)) r)
      end
  end.

#[export] Hint Extern 1 (Setter _) => derive_setter : typeclass_instances.

Declare Scope go_scope.
Delimit Scope go_scope with go.
Open Scope go_scope.

Notation "r <| p := v |>" :=
  (set_field (proj := p) (fun _ => v) r) (at level 1, left associativity) : go_scope.
Notation "r <| p ::= g |>" :=
  (set_field (proj := p) g r) (at level 1, left associativity) : go_scope.

Infix "=s" := String.eqb (at level 70, no associativity) : go_scope.

(** * Machine integers

    A w-bit integer is a [Z] kept in range by the operations below. *)

Definition wrap_uint (w z : Z) : Z := (z mod 2 ^ w)%Z.
Definition wrap_int (w z : Z) : Z := ((z + 2 ^ (w - 1)) mod 2 ^ w - 2 ^ (w - 1))%Z.
Definition uint32 (z : Z) : Z := wrap_uint 32 z.
Definition uint64 (z : Z) : Z := wrap_uint 64 z.
Definition int64 (z : Z) : Z := wrap_int 64 z.
Definition max_uint64 : Z := (2 ^ 64 - 1)%Z.
Definition max_int64 : Z := (2 ^ 63 - 1)%Z.
Definition min_int64 : Z := (- 2 ^ 63)%Z.

Lemma wrap_uint_small w z : (0 <= z < 2 ^ w)%Z -> wrap_uint w z = z.
Proof. intros H. by apply Z.mod_small. Qed.

Lemma wrap_uint_range w z : (0 <= w)%Z -> (0 <= wrap_uint w z < 2 ^ w)%Z.
Proof. intros H. apply Z.mod_pos_bound. lia. Qed.

Lemma wrap_int_small w z :
  (0 < w)%Z -> (- 2 ^ (w - 1) <= z < 2 ^ (w - 1))%Z -> wrap_int w z = z.
Proof.
  intros Hw Hz. unfold wrap_int.
  assert (2 ^ w = 2 * 2 ^ (w - 1))%Z as E.
  { rewrite <- Z.pow_succ_r by lia. f_equal. lia. }
  rewrite Z.mod_small; lia.
Qed.

Lemma int64_small z : (min_int64 <= z <= max_int64)%Z -> int64 z = z.
Proof. unfold min_int64, max_int64. intros H. apply wrap_int_small; lia. Qed.

Lemma uint64_small z : (0 <= z <= max_uint64)%Z -> uint64 z = z.
Proof. unfold max_uint64. intros H. apply wrap_uint_small. lia. Qed.

(** [autorewrite with machine] drops the conversions that do not wrap. *)
Create Rewrite HintDb machine.
#[export] Hint Rewrite int64_small uint64_small using lia : machine.

(** * Time

    [time.Time] is the number of nanoseconds since Go's zero time
    (0001-01-01 UTC), so [IsZero] compares with 0 and [Truncate] rounds down
    to a multiple of the duration as Go does.  [time.Duration] is an [int64]
    count of nanoseconds, and [Sub] saturates. *)

Abbreviation time := Z.
Abbreviation duration := Z.

Definition Nanosecond : duration := 1%Z.
Definition Millisecond : duration := 1000000%Z.
Definition Second : duration := 1000000000%Z.
Definition Minute : duration := (60 * Second)%Z.
Definition Hour : duration := (60 * Minute)%Z.

Definition IsZero (t : time) : bool := (t =? 0)%Z.
Definition Before (a b : time) : bool := (a <? b)%Z.
Definition After (a b : time) : bool := (b <? a)%Z.
Definition time_Add (t : time) (d : duration) : time := (t + d)%Z.
Definition time_Sub (a b : time) : duration :=
  Z.max min_int64 (Z.min max_int64 (a - b)).
Definition Truncate (t : time) (d : duration) : time :=
  if (d <=? 0)%Z then t else (t - t mod d)%Z.

(** * Floating point

    [float64] is IEEE-754 binary64, computed by the Standard Library's
    executable specification. *)

Abbreviation float64 := spec_float.
Definition f64_prec : Z := 53.
Definition f64_emax : Z := 1024.
Definition f64_of_Z (z : Z) : float64 := binary_normalize f64_prec f64_emax z 0 false.
Definition f64_div (a b : float64) : float64 := SFdiv f64_prec f64_emax a b.
Definition f64_mul (a b : float64) : float64 := SFmul f64_prec f64_emax a b.
Definition f64_add (a b : float64) : float64 := SFadd f64_prec f64_emax a b.
Definition f64_ltb (a b : float64) : bool := SFltb a b.
Definition f64_leb (a b : float64) : bool := SFleb a b.
Definition f64_zero : float64 := f64_of_Z 0.

(** [Duration.Seconds]: whole seconds plus the fractional part over 1e9. *)
Definition Seconds (d : duration) : float64 :=
  f64_add (f64_of_Z (Z.quot d Second))
          (f64_div (f64_of_Z (Z.rem d Second)) (f64_of_Z 1000000000)).

(** * Results

    A Go function returning [(T, error)] returns [result E T]. *)

Inductive result (E A : Type) : Type :=
| Ok (a : A)
| Err (e : E).
Arguments Ok {E A} a.
Arguments Err {E A} e.

Definition rbind {E A B} (r : result E A) (k : A -> result E B) : result E B :=
  match r with Ok a => k a | Err e => Err e end.
Notation "'let!' x := c 'in' k" :=
  (rbind c (fun x => k)) (at level 10, x name, c at level 100, k at level 200) : go_scope.
Notation "'let*' p := c 'in' k" :=
  (rbind c (fun v => match v with p => k end))
    (at level 10, p pattern, c at level 100, k at level 200) : go_scope.

(** * Lists *)

(** The defining equations as rewriting lemmas: rewriting with them keeps the
    kernel from unfolding the step function under a fold. *)
Lemma fold_left_cons {A B} (f : A -> B -> A) x l a : fold_left f (x :: l) a = fold_left f l (f a x).
Proof. done. Qed.

Lemma filter_cons_if {A} (f : A -> bool) x l :
  List.filter f (x :: l) = if f x then x :: List.filter f l else List.filter f l.
Proof. done. Qed.
