(* ===== verification/GoStrings.v ===== *)
(** The functions of Go's [strings] package the program uses, on ASCII text.

    A Go string is a [string] of bytes.  [ToLower], [TrimSpace] and
    [EqualFold] are Go's restricted to ASCII: on the texts the program
    classifies (log lines, SHAs, identifiers) they agree with Go's Unicode
    versions. *)
From S2P Require Import Prelude.
From Stdlib Require Import Ascii.

(** * Characters *)

Definition char_in (lo hi : ascii) (c : ascii) : bool :=
  ((N_of_ascii lo <=? N_of_ascii c) && (N_of_ascii c <=? N_of_ascii hi))%N.
Definition is_digit (c : ascii) : bool := char_in "0" "9" c.
Definition is_lower (c : ascii) : bool := char_in "a" "z" c.
Definition is_upper (c : ascii) : bool := char_in "A" "Z" c.
Definition is_alnum (c : ascii) : bool := is_digit c || is_lower c || is_upper c.
Definition lower_char (c : ascii) : ascii :=
  if is_upper c then ascii_of_N (N_of_ascii c + 32) else c.

(** [unicode.IsSpace] on ASCII. *)
Definition is_space (c : ascii) : bool :=
  match c with
  | "009" | "010" | "011" | "012" | "013" | " " => true
  | _ => false
  end%char.

Definition newline : ascii := "010"%char.

(** * Whole strings *)

Fixpoint str_map (f : ascii -> ascii) (s : string) : string :=
  match s with
  | EmptyString => EmptyString
  | String c t => String (f c) (str_map f t)
  end.

Definition ToLower (s : string) : string := str_map lower_char s.
Definition EqualFold (a b : string) : bool := ToLower a =s ToLower b.
Definition str_len (s : string) : Z := Z.of_nat (String.length s).

Fixpoint Contains (s sub : string) : bool :=
  String.prefix sub s ||
  match s with
  | EmptyString => false
  | String _ t => Contains t sub
  end.

Definition HasPrefix (s p : string) : bool := String.prefix p s.

Fixpoint HasSuffix (s p : string) : bool :=
  (s =s p) ||
  match s with
  | EmptyString => false
  | String _ t => HasSuffix t p
  end.

(** [s[:n]] and [s[n:]] for an [n] within the length. *)
Fixpoint str_take (n : nat) (s : string) : string :=
  match n, s with
  | S n, String c t => String c (str_take n t)
  | _, _ => EmptyString
  end.

Fixpoint str_drop (n : nat) (s : string) : string :=
  match n, s with
  | S n, String _ t => str_drop n t
  | _, _ => s
  end.

Definition TrimPrefix (s p : string) : string :=
  if HasPrefix s p then str_drop (String.length p) s else s.

Definition CutSuffix (s p : string) : string * bool :=
  if HasSuffix s p
  then (str_take (String.length s - String.length p) s, true)
  else (s, false).

(** * Trimming *)

Fixpoint trim_left (f : ascii -> bool) (s : string) : string :=
  match s with
  | EmptyString => EmptyString
  | String c t => if f c then trim_left f t else s
  end.

Fixpoint trim_right (f : ascii -> bool) (s : string) : string :=
  match s with
  | EmptyString => EmptyString
  | String c t =>
      match trim_right f t with
      | EmptyString => if f c then EmptyString else String c EmptyString
      | t' => String c t'
      end
  end.

Definition TrimSpace (s : string) : string := trim_right is_space (trim_left is_space s).

Fixpoint str_mem (c : ascii) (cutset : string) : bool :=
  match cutset with
  | EmptyString => false
  | String d t => Ascii.eqb c d || str_mem c t
  end.

Definition Trim (s cutset : string) : string :=
  trim_right (fun c => str_mem c cutset) (trim_left (fun c => str_mem c cutset) s).
Definition TrimRight (s cutset : string) : string :=
  trim_right (fun c => str_mem c cutset) s.

(** * Splitting and joining on a one-byte separator *)

Fixpoint Split (sep : ascii) (s : string) : list string :=
  match s with
  | EmptyString => [EmptyString]
  | String c t =>
      if Ascii.eqb c sep then EmptyString :: Split sep t
      else match Split sep t with
           | [] => [String c EmptyString]
           | h :: r => String c h :: r
           end
  end.

Fixpoint Join (parts : list string) (sep : string) : string :=
  match parts with
  | [] => EmptyString
  | [p] => p
  | p :: rest => p +:+ sep +:+ Join rest sep
  end.

(** [strings.Cut] at the first separator: before, after, found. *)
Fixpoint Cut (sep : ascii) (s : string) : string * string * bool :=
  match s with
  | EmptyString => (EmptyString, EmptyString, false)
  | String c t =>
      if Ascii.eqb c sep then (EmptyString, t, true)
      else let '(b, a, ok) := Cut sep t in (String c b, a, ok)
  end.

(** [strings.ReplaceAll(s, c, "")] for a one-byte [c]. *)
Fixpoint remove_char (d : ascii) (s : string) : string :=
  match s with
  | EmptyString => EmptyString
  | String c t => if Ascii.eqb c d then remove_char d t else String c (remove_char d t)
  end.

(** [strings.LastIndex]: the offset of the last occurrence. *)
Fixpoint LastIndex (s sub : string) : option nat :=
  match s with
  | EmptyString => if String.prefix sub s then Some 0 else None
  | String _ t =>
      match LastIndex t sub with
      | Some i => Some (S i)
      | None => if String.prefix sub s then Some 0 else None
      end
  end.

(** [slices.Contains] on strings. *)
Fixpoint slices_Contains (l : list string) (s : string) : bool :=
  match l with
  | [] => false
  | x :: r => (x =s s) || slices_Contains r s
  end.

(** [strconv.Atoi]: the value and whether parsing succeeded.  On overflow Go
    returns the nearest representable value together with the error. *)
Definition digit_val (c : ascii) : Z := (Z.of_N (N_of_ascii c) - 48)%Z.

Fixpoint parse_digits (acc : Z) (s : string) : option Z :=
  match s with
  | EmptyString => Some acc
  | String c t => if is_digit c then parse_digits (10 * acc + digit_val c)%Z t else None
  end.

Definition Atoi (s : string) : Z * bool :=
  let '(neg, body) :=
    match s with
    | String "-" t => (true, t)
    | String "+" t => (false, t)
    | _ => (false, s)
    end%char in
  if body =s "" then (0%Z, false)
  else match parse_digits 0 body with
       | None => (0%Z, false)
       | Some n =>
           let v := if neg : bool then (- n)%Z else n in
           if (max_int64 <? v)%Z then (max_int64, false)
           else if (v <? min_int64)%Z then (min_int64, false)
           else (v, true)
       end.

(** * Lemmas *)

Lemma eqs_refl s : (s =s s) = true.
Proof. apply String.eqb_refl. Qed.

Lemma eqs_true a b : (a =s b) = true <-> a = b.
Proof. apply String.eqb_eq. Qed.

Lemma eqs_false a b : (a =s b) = false <-> a <> b.
Proof. apply String.eqb_neq. Qed.

Lemma eqs_spec a b : reflect (a = b) (a =s b).
Proof. apply String.eqb_spec. Qed.

Lemma slices_Contains_In l s : slices_Contains l s = true <-> In s l.
Proof.
  induction l as [|x r IH]; simpl; [split; [done|tauto]|].
  rewrite orb_true_iff, eqs_true, IH. done.
Qed.

Lemma slices_Contains_false l s : slices_Contains l s = false <-> ~ In s l.
Proof. rewrite <- slices_Contains_In. by destruct (slices_Contains l s). Qed.

Lemma append_nil_r s : s +:+ "" = s.
Proof. induction s as [|c s IH]; [done|]. change (String c (s +:+ "") = String c s). by rewrite IH. Qed.

Lemma append_assoc a b c : (a +:+ b) +:+ c = a +:+ (b +:+ c).
Proof.
  induction a as [|x a IH]; [done|].
  change (String x ((a +:+ b) +:+ c) = String x (a +:+ (b +:+ c))). by rewrite IH.
Qed.

Lemma append_cons c a b : String c a +:+ b = String c (a +:+ b).
Proof. done. Qed.

Lemma append_nil_l a : "" +:+ a = a.
Proof. done. Qed.

Lemma length_append a b : String.length (a +:+ b) = String.length a + String.length b.
Proof.
  induction a as [|x a IH]; [done|]. rewrite append_cons. simpl. by rewrite IH.
Qed.

Lemma HasPrefix_app p s : HasPrefix (p +:+ s) p = true.
Proof.
  unfold HasPrefix. induction p as [|c p IH]; [by destruct s|].
  rewrite append_cons. simpl. by destruct (ascii_dec c c).
Qed.

Lemma HasPrefix_spec s p : HasPrefix s p = true <-> exists t, s = p +:+ t.
Proof.
  split; [|intros [t ->]; apply HasPrefix_app].
  unfold HasPrefix. revert s. induction p as [|c p IH]; intros s H; [by exists s|].
  destruct s as [|d s]; [done|]. simpl in H.
  destruct (ascii_dec c d) as [->|]; [|done].
  destruct (IH s H) as [t ->]. by exists t.
Qed.

Lemma Contains_app_mid a sub b : Contains (a +:+ sub +:+ b) sub = true.
Proof.
  induction a as [|c a IH].
  - rewrite append_nil_l. pose proof (HasPrefix_app sub b) as H. unfold HasPrefix in H.
    destruct (sub +:+ b); simpl in *; by rewrite H.
  - rewrite append_cons. simpl. by rewrite IH, orb_true_r.
Qed.

Lemma Contains_spec s sub :
  Contains s sub = true <-> exists a b, s = a +:+ sub +:+ b.
Proof.
  split; [|intros (a & b & ->); apply Contains_app_mid].
  assert (String.prefix sub s = true -> exists b, s = sub +:+ b) as Hp
    by apply HasPrefix_spec.
  induction s as [|c s IH]; intros H; simpl in H.
  - rewrite orb_false_r in H. destruct (Hp H) as [b E]. by exists "", b.
  - apply orb_true_iff in H as [H|H].
    + destruct (Hp H) as [b E]. by exists "", b.
    + destruct IH as (a & b & E); [apply HasPrefix_spec|done|].
      exists (String c a), b. by rewrite E, append_cons.
Qed.

Lemma Contains_mono s sub a b : Contains s sub = true -> Contains (a +:+ s +:+ b) sub = true.
Proof.
  rewrite !Contains_spec. intros (x & y & ->).
  exists (a +:+ x), (y +:+ b). by rewrite !append_assoc.
Qed.

(** Trimming. *)

Definition head_char (s : string) : option ascii :=
  match s with EmptyString => None | String c _ => Some c end.

Lemma trim_left_head f s c : head_char (trim_left f s) = Some c -> f c = false.
Proof.
  induction s as [|d s IH]; simpl; [done|]. destruct (f d) eqn:E; [done|].
  simpl. intros [= <-]. done.
Qed.

Lemma trim_left_idem f s : trim_left f (trim_left f s) = trim_left f s.
Proof.
  induction s as [|d s IH]; simpl; [done|]. destruct (f d) eqn:E; [done|].
  simpl. by rewrite E.
Qed.

Lemma trim_right_idem f s : trim_right f (trim_right f s) = trim_right f s.
Proof.
  induction s as [|d s IH]; simpl; [done|].
  destruct (trim_right f s) as [|e t] eqn:E.
  - destruct (f d) eqn:F; simpl; [done|]. by rewrite F.
  - cbn [trim_right]. cbn [trim_right] in IH. rewrite IH. done.
Qed.

Lemma trim_right_head f s c :
  head_char s = Some c -> f c = false -> head_char (trim_right f s) = Some c.
Proof.
  destruct s as [|d s]; simpl; [done|]. intros [= ->] F.
  destruct (trim_right f s); simpl; [by rewrite F|done].
Qed.

Lemma trim_left_fix f s : (forall c, head_char s = Some c -> f c = false) -> trim_left f s = s.
Proof. destruct s as [|d s]; simpl; [done|]. intros H. by rewrite (H d). Qed.

Lemma trim_left_right_fix f s : trim_left f (trim_right f (trim_left f s)) = trim_right f (trim_left f s).
Proof.
  apply trim_left_fix. intros c Hc.
  destruct (trim_left f s) as [|d t] eqn:E; simpl in Hc; [done|].
  assert (f d = false) as Fd by (apply (trim_left_head f s); by rewrite E).
  destruct (trim_right f t); simpl in Hc; [rewrite Fd in Hc|]; simpl in Hc; congruence.
Qed.

Lemma TrimSpace_idem s : TrimSpace (TrimSpace s) = TrimSpace s.
Proof. unfold TrimSpace. rewrite trim_left_right_fix. apply trim_right_idem. Qed.

Lemma Trim_idem s cut : Trim (Trim s cut) cut = Trim s cut.
Proof. unfold Trim. rewrite trim_left_right_fix. apply trim_right_idem. Qed.

(** Splitting. *)

Lemma Split_nonempty sep s : Split sep s <> [].
Proof. destruct s as [|c s]; simpl; [done|]. destruct (Ascii.eqb c sep); [done|]. by destruct (Split sep s). Qed.

Lemma Join_cons_nonempty p l sep : l <> [] -> Join (p :: l) sep = p +:+ sep +:+ Join l sep.
Proof. by destruct l. Qed.

Lemma Join_Split sep s : Join (Split sep s) (String sep "") = s.
Proof.
  induction s as [|c s IH]; [done|]. simpl Split.
  destruct (Ascii.eqb_spec c sep) as [->|Hne].
  - rewrite Join_cons_nonempty by apply Split_nonempty. rewrite IH. done.
  - destruct (Split sep s) as [|h r] eqn:E; [by destruct (Split_nonempty sep s)|].
    destruct r as [|h' r]; simpl in *; by rewrite <- IH.
Qed.

Fixpoint char_in_str (c : ascii) (s : string) : bool :=
  match s with
  | EmptyString => false
  | String d t => Ascii.eqb d c || char_in_str c t
  end.

Lemma Split_parts_clean sep s p : In p (Split sep s) -> char_in_str sep p = false.
Proof.
  revert p. induction s as [|c s IH]; intros p; simpl; [by intros [<-|[]]|].
  destruct (Ascii.eqb_spec c sep) as [->|Hne].
  - intros [<-|H]; [done|by apply IH].
  - destruct (Split sep s) as [|h r] eqn:E; [by destruct (Split_nonempty sep s)|].
    intros [<-|H]; [|apply IH; by right].
    simpl. destruct (Ascii.eqb_spec c sep); [done|]. simpl. apply IH. by left.
Qed.

Lemma Split_clean sep s : char_in_str sep s = false -> Split sep s = [s].
Proof.
  induction s as [|c s IH]; simpl; [done|].
  destruct (Ascii.eqb_spec c sep); [done|]. simpl. intros H. by rewrite IH.
Qed.

Lemma Split_app_sep sep a b :
  char_in_str sep a = false -> Split sep (a +:+ String sep b) = a :: Split sep b.
Proof.
  induction a as [|c a IH].
  - intros _. rewrite append_nil_l. simpl. by rewrite Ascii.eqb_refl.
  - rewrite append_cons. simpl. destruct (Ascii.eqb_spec c sep); [done|]. simpl.
    intros H. by rewrite IH.
Qed.

Lemma char_in_str_app c a b : char_in_str c (a +:+ b) = char_in_str c a || char_in_str c b.
Proof.
  induction a as [|d a IH]; [done|]. rewrite append_cons. simpl. by rewrite IH, orb_assoc.
Qed.

(** * Cutting *)

Lemma HasSuffix_app a p : HasSuffix (a +:+ p) p = true.
Proof.
  induction a as [|c a IH]; [|rewrite append_cons; simpl; by rewrite IH, orb_true_r].
  rewrite append_nil_l. assert (forall s, HasSuffix s p = (s =s p) || match s with "" => false | String _ t => HasSuffix t p end) as ->
    by (intros []; done). by rewrite eqs_refl.
Qed.

Lemma str_take_app a b : str_take (String.length a) (a +:+ b) = a.
Proof. induction a as [|c a IH]; [by destruct b|]. rewrite append_cons. simpl. by rewrite IH. Qed.

Lemma CutSuffix_app a p : CutSuffix (a +:+ p) p = (a, true).
Proof.
  unfold CutSuffix. rewrite HasSuffix_app, length_append.
  replace (String.length a + String.length p - String.length p) with (String.length a) by lia. by rewrite str_take_app.
Qed.

Lemma Cut_app sep a b : char_in_str sep a = false -> Cut sep (a +:+ String sep b) = (a, b, true).
Proof.
  induction a as [|c a IH]; intros H; simpl in H.
  - rewrite append_nil_l. simpl. by rewrite Ascii.eqb_refl.
  - rewrite append_cons. simpl. apply orb_false_iff in H as [H1 H2]. rewrite H1. by rewrite (IH H2).
Qed.

Lemma str_drop_length n s : String.length (str_drop n s) = String.length s - n.
Proof. revert s. induction n as [|n IH]; intros [|c s]; simpl; auto. Qed.
