(* ===== verification/Regex.v ===== *)
(** Regular expressions as Go's [regexp] package runs them.

    Patterns are data, matched by a backtracking matcher that follows the
    leftmost-first preference of [regexp].  [rmatch] is the declarative
    semantics; [bt_sound] and [bt_complete] relate the two, so a theorem
    about a [MatchString] guard can be proved on the relation. *)
From S2P Require Import Prelude GoStrings.
From Stdlib Require Import Ascii.

Inductive re : Type :=
| REps
| RChar (f : ascii -> bool)
| RSeq (a b : re)
| RAlt (a b : re)
| RStar (a : re)
| RWordB
| REnd
| RCap (i : nat) (a : re)
| RLazy (a : re).

(** A position in the text: the byte before it, the text left, and the
    captured groups so far. *)
Record rstate := RState { rprev : option ascii; rrest : string; rcaps : list (nat * string) }.

Definition is_word (c : ascii) : bool := is_alnum c || Ascii.eqb c "_".
Definition opt_word (o : option ascii) : bool := match o with Some c => is_word c | None => false end.
Definition at_word_boundary (s : rstate) : bool :=
  xorb (opt_word (rprev s)) (opt_word (head_char (rrest s))).

(** The text consumed between two positions of the same string. *)
Definition consumed (s s' : rstate) : string :=
  str_take (String.length (rrest s) - String.length (rrest s')) (rrest s).

Definition capture (i : nat) (s s' : rstate) : rstate :=
  RState (rprev s') (rrest s') ((i, consumed s s') :: rcaps s').

Fixpoint bt (r : re) : (rstate -> option rstate) -> rstate -> option rstate :=
  match r with
  | REps => fun k s => k s
  | RChar f => fun k s =>
      match rrest s with
      | EmptyString => None
      | String c t => if f c then k (RState (Some c) t (rcaps s)) else None
      end
  | RSeq a b => fun k => bt a (bt b k)
  | RAlt a b => fun k s =>
      match bt a k s with Some x => Some x | None => bt b k s end
  | RStar a => fun k s0 =>
      (fix loop (n : nat) (s : rstate) : option rstate :=
         match n with
         | O => k s
         | S n =>
             match bt a (fun s' =>
                     if String.length (rrest s') <? String.length (rrest s)
                     then loop n s' else None) s with
             | Some x => Some x
             | None => k s
             end
         end) (String.length (rrest s0)) s0
  | RWordB => fun k s => if at_word_boundary s then k s else None
  | REnd => fun k s => if rrest s =s "" then k s else None
  | RCap i a => fun k s => bt a (fun s' => k (capture i s s')) s
  | RLazy a => fun k s0 =>
      (fix loop (n : nat) (s : rstate) : option rstate :=
         match k s with
         | Some x => Some x
         | None =>
             match n with
             | O => None
             | S n => bt a (fun s' => if String.length (rrest s') <? String.length (rrest s) then loop n s' else None) s
             end
         end) (String.length (rrest s0)) s0
  end.

(** [^re] at a position, then unanchored search from the left. *)
Definition match_here (r : re) (s : rstate) : option rstate := bt r Some s.

Fixpoint search (r : re) (prev : option ascii) (text : string) : option (string * rstate) :=
  match match_here r (RState prev text []) with
  | Some s' => Some (text, s')
  | None =>
      match text with
      | EmptyString => None
      | String c t => search r (Some c) t
      end
  end.

(** [MatchString] of an unanchored pattern, and of one that starts with [^]. *)
Definition MatchString (r : re) (text : string) : bool :=
  match search r None text with Some _ => true | None => false end.
Definition MatchAnchored (r : re) (text : string) : bool :=
  match match_here r (RState None text []) with Some _ => true | None => false end.

Definition group (i : nat) (caps : list (nat * string)) : option string :=
  snd <$> List.find (fun p => fst p =? i) caps.

(** [FindStringSubmatch]: the groups of the leftmost match. *)
Definition FindSubmatch (r : re) (text : string) : option (list (nat * string)) :=
  (fun p => rcaps (snd p)) <$> search r None text.

(** [FindAllStringSubmatch]: successive non-overlapping matches.  An empty
    match advances by one byte, as in Go; [fuel] is the text length. *)
Fixpoint find_all (fuel : nat) (r : re) (prev : option ascii) (text : string)
  : list (list (nat * string)) :=
  match fuel with
  | O => []
  | S fuel =>
      match search r prev text with
      | None => []
      | Some (from, s') =>
          if String.length (rrest s') <? String.length from
          then rcaps s' :: find_all fuel r (rprev s') (rrest s')
          else match from with
               | EmptyString => [rcaps s']
               | String c t => rcaps s' :: find_all fuel r (Some c) t
               end
      end
  end.
Definition FindAllSubmatch (r : re) (text : string) : list (list (nat * string)) :=
  find_all (S (String.length text)) r None text.

(** [ReplaceAllString]: every match of a pattern that never matches the empty
    text replaced by a text built from its groups; [fuel] is the text length. *)
Fixpoint replace_all (fuel : nat) (r : re) (repl : list (nat * string) -> string) (prev : option ascii) (text : string) : string :=
  match fuel with
  | O => text
  | S fuel =>
      match search r prev text with
      | None => text
      | Some (from, s') =>
          str_take (String.length text - String.length from) text +:+ repl (rcaps s') +:+
          (if String.length (rrest s') <? String.length from then replace_all fuel r repl (rprev s') (rrest s') else from)
      end
  end.
Definition ReplaceAllString (r : re) (repl : list (nat * string) -> string) (text : string) : string :=
  replace_all (S (String.length text)) r repl None text.

(** * Pattern building blocks *)

Definition RPlus (a : re) : re := RSeq a (RStar a).
Definition ROpt (a : re) : re := RAlt a REps.
Fixpoint RLit (s : string) : re :=
  match s with
  | EmptyString => REps
  | String c t => RSeq (RChar (Ascii.eqb c)) (RLit t)
  end.
(** A literal under the [(?i)] flag. *)
Fixpoint RLitI (s : string) : re :=
  match s with
  | EmptyString => REps
  | String c t => RSeq (RChar (fun d => Ascii.eqb (lower_char c) (lower_char d))) (RLitI t)
  end.
Fixpoint RRep (n : nat) (a : re) : re :=
  match n with O => REps | S n => RSeq a (RRep n a) end.
(** [a{lo,lo+extra}]: the greedy bounded repetition. *)
Fixpoint RUpTo (extra : nat) (a : re) : re :=
  match extra with O => REps | S n => ROpt (RSeq a (RUpTo n a)) end.
Fixpoint RAny (l : list re) : re :=
  match l with
  | [] => RChar (fun _ => false)
  | [a] => a
  | a :: r => RAlt a (RAny r)
  end.
(** Perl's [\s] in RE2 syntax: no vertical tab. *)
Definition re_space (c : ascii) : bool :=
  match c with "009" | "010" | "012" | "013" | " " => true | _ => false end%char.

(** * Declarative semantics *)

Inductive rmatch : re -> rstate -> rstate -> Prop :=
| m_eps s : rmatch REps s s
| m_char f p c t caps : f c = true ->
    rmatch (RChar f) (RState p (String c t) caps) (RState (Some c) t caps)
| m_seq a b s1 s2 s3 : rmatch a s1 s2 -> rmatch b s2 s3 -> rmatch (RSeq a b) s1 s3
| m_alt_l a b s s' : rmatch a s s' -> rmatch (RAlt a b) s s'
| m_alt_r a b s s' : rmatch b s s' -> rmatch (RAlt a b) s s'
| m_star_nil a s : rmatch (RStar a) s s
| m_star_cons a s1 s2 s3 :
    String.length (rrest s2) < String.length (rrest s1) ->
    rmatch a s1 s2 -> rmatch (RStar a) s2 s3 -> rmatch (RStar a) s1 s3
| m_wordb s : at_word_boundary s = true -> rmatch RWordB s s
| m_end s : rrest s = "" -> rmatch REnd s s
| m_cap i a s s' : rmatch a s s' -> rmatch (RCap i a) s (capture i s s')
| m_lazy a s s' : rmatch (RStar a) s s' -> rmatch (RLazy a) s s'.

#[export] Hint Constructors rmatch : core.

Lemma bt_sound r k s x : bt r k s = Some x -> exists s', rmatch r s s' /\ k s' = Some x.
Proof.
  revert k s x. induction r as [|f|a IHa b IHb|a IHa b IHb|a IHa| | |i a IHa|a IHa];
    intros k s x; simpl.
  - eauto.
  - destruct s as [p [|c t] caps]; simpl; [done|]. destruct (f c) eqn:F; [|done]. eauto.
  - intros H. apply IHa in H as (s1 & H1 & H2). apply IHb in H2 as (s2 & H2 & H3). eauto.
  - destruct (bt a k s) eqn:E.
    + intros [= <-]. apply IHa in E as (s' & ? & ?). eauto.
    + intros H. apply IHb in H as (s' & ? & ?). eauto.
  - generalize (String.length (rrest s)). intros n. revert s.
    induction n as [|n IHn]; intros s; [eauto|].
    destruct (bt a _ s) eqn:E; [|eauto].
    intros [= <-]. apply IHa in E as (s1 & H1 & H2).
    destruct (Nat.ltb_spec (String.length (rrest s1)) (String.length (rrest s))); [|done].
    apply IHn in H2 as (s2 & ? & ?). eauto.
  - destruct (at_word_boundary s) eqn:E; [|done]. eauto.
  - destruct (eqs_spec (rrest s) ""); [|done]. eauto.
  - intros H. apply IHa in H as (s' & ? & ?). eauto.
  - generalize (String.length (rrest s)). intros n. revert s.
    induction n as [|n IHn]; intros s; (destruct (k s) eqn:Ek; [intros [= <-]; eauto|]); [done|].
    intros E. apply IHa in E as (s1 & H1 & H2).
    destruct (Nat.ltb_spec (String.length (rrest s1)) (String.length (rrest s))); [|done].
    apply IHn in H2 as (s2 & H2 & ?). inversion H2; subst. eauto.
Qed.

Lemma rmatch_shrinks r s s' : rmatch r s s' -> String.length (rrest s') <= String.length (rrest s).
Proof. induction 1; simpl in *; lia. Qed.

Lemma bt_complete r k s s' : rmatch r s s' -> k s' <> None -> bt r k s <> None.
Proof.
  intros H. revert k. revert s s' H.
  induction r as [|f|a IHa b IHb|a IHa b IHb|a IHa| | |i a IHa|a IHa]; intros s s' H k Hk;
    simpl.
  - by inversion H; subst.
  - inversion H as [|? ? c t caps Hf| | | | | | | | |]; subst. simpl. by rewrite Hf.
  - inversion H; subst. eauto.
  - destruct (bt a k s) eqn:E; [done|]. inversion H; subst; [|eauto].
    exfalso. by eapply IHa; eauto.
  - assert (forall n, String.length (rrest s) <= n ->
      (fix loop n s := match n with
         | O => k s
         | S n => match bt a (fun s1 => if String.length (rrest s1) <? String.length (rrest s)
                                        then loop n s1 else None) s with
                  | Some x => Some x | None => k s end end) n s <> None) as Hn; [|by apply Hn].
    remember (RStar a) as ra eqn:Era.
    induction H as [| | | | |? s0|? s1 s2 s3 Hlen Ha _ Hr IHr| | | |]; try discriminate.
    + injection Era as ->. intros n _. destruct n; [done|]. by destruct (bt a _ s0).
    + injection Era as ->. intros n Hle. destruct n as [|n]; [lia|].
      destruct (bt a _ s1) eqn:E; [done|]. exfalso. revert E. eapply IHa; [exact Ha|].
      cbv beta. destruct (Nat.ltb_spec (String.length (rrest s2)) (String.length (rrest s1)));
        [|lia]. apply IHr; [done|done|lia].
  - inversion H; subst. by destruct (at_word_boundary s').
  - inversion H as [| | | | | | | |? E| |]; subst. by rewrite E.
  - inversion H; subst. eapply IHa; [done|]. done.
  - inversion H as [| | | | | | | | | |? ? ? Hs]; subst. generalize (le_n (String.length (rrest s))).
    generalize (String.length (rrest s)) at 2 3. clear H. remember (RStar a) as ra eqn:Era.
    induction Hs as [| | | | |? s0|? s1 s2 s3 Hlen Ha _ Hr IHr| | | |]; try discriminate; injection Era as ->; intros n Hle.
    + destruct n; by destruct (k s0).
    + destruct n as [|n]; destruct (k s1) eqn:Ek; try done; [lia|]. eapply IHa; [exact Ha|].
      cbv beta. destruct (Nat.ltb_spec (String.length (rrest s2)) (String.length (rrest s1))); [|lia]. apply IHr; [done|done|lia].
Qed.

Lemma match_here_iff r s : (exists x, match_here r s = Some x) <-> exists s', rmatch r s s'.
Proof.
  split.
  - intros [x H]. apply bt_sound in H as (s' & ? & _). eauto.
  - intros [s' H]. destruct (match_here r s) eqn:E; [eauto|].
    exfalso. by apply (bt_complete r Some s s' H).
Qed.

Lemma MatchAnchored_iff r text :
  MatchAnchored r text = true <-> exists s', rmatch r (RState None text []) s'.
Proof.
  rewrite <- match_here_iff. unfold MatchAnchored.
  destruct (match_here r _); split; eauto; try done. by intros [x ?].
Qed.

(** * Matches of the building blocks

    [eats r u]: from any position, [r] can consume exactly [u]. *)

Definition eats (r : re) (u : string) : Prop :=
  forall p t caps, exists p', rmatch r (RState p (u +:+ t) caps) (RState p' t caps).

Fixpoint all_chars (f : ascii -> bool) (s : string) : bool :=
  match s with EmptyString => true | String c t => f c && all_chars f t end.

Lemma eats_eps : eats REps "".
Proof. intros p t caps. exists p. constructor. Qed.

Lemma eats_char f c : f c = true -> eats (RChar f) (String c "").
Proof. intros H p t caps. exists (Some c). by constructor. Qed.

Lemma eats_seq a b u v : eats a u -> eats b v -> eats (RSeq a b) (u +:+ v).
Proof.
  intros Ha Hb p t caps. rewrite append_assoc.
  destruct (Ha p (v +:+ t) caps) as [p1 H1]. destruct (Hb p1 t caps) as [p2 H2]. eauto.
Qed.

Lemma eats_alt_l a b u : eats a u -> eats (RAlt a b) u.
Proof. intros H p t caps. destruct (H p t caps). eauto. Qed.

Lemma eats_alt_r a b u : eats b u -> eats (RAlt a b) u.
Proof. intros H p t caps. destruct (H p t caps). eauto. Qed.

Lemma eats_opt_nil a : eats (ROpt a) "".
Proof. apply eats_alt_r, eats_eps. Qed.

Lemma eats_lit s : eats (RLit s) s.
Proof.
  induction s as [|c s IH]; [apply eats_eps|].
  apply (eats_seq _ _ (String c "") s); [|done]. apply eats_char, Ascii.eqb_refl.
Qed.

Lemma eats_rep f n u : all_chars f u = true -> String.length u = n -> eats (RRep n (RChar f)) u.
Proof.
  revert n. induction u as [|c u IH]; intros [|n]; simpl; try done; [intros; apply eats_eps|].
  intros [Hc Hu]%andb_prop [= Hn]. apply (eats_seq _ _ (String c "") u); [by apply eats_char|by apply IH].
Qed.

Lemma eats_upto f n u : all_chars f u = true -> String.length u <= n -> eats (RUpTo n (RChar f)) u.
Proof.
  revert n. induction u as [|c u IH]; intros n; simpl.
  - intros _ _. destruct n; [apply eats_eps|apply eats_opt_nil].
  - intros [Hc Hu]%andb_prop Hn. destruct n as [|n]; [lia|].
    apply eats_alt_l, (eats_seq _ _ (String c "") u); [by apply eats_char|apply IH; [done|lia]].
Qed.

Lemma eats_end_match r u : eats r u -> MatchAnchored (RSeq r REnd) u = true.
Proof.
  intros H. apply MatchAnchored_iff. destruct (H None "" []) as [p' Hm]. rewrite append_nil_r in Hm.
  eexists. econstructor; [exact Hm|]. by constructor.
Qed.

(** A text matching [^f{n}$] is n characters of the class. *)
Lemma rep_end_inv f n text :
  MatchAnchored (RSeq (RRep n (RChar f)) REnd) text = true ->
  String.length text = n /\ all_chars f text = true.
Proof.
  rewrite MatchAnchored_iff. intros [s' H]. inversion H as [| |a b s1 s2 s3 Hr He| | | | | | | |]; subst.
  inversion He as [| | | | | | | |s Hs| |]; subst. clear H He.
  revert text Hr. generalize (@None ascii), (@nil (nat * string)).
  induction n as [|n IH]; simpl; intros p caps text Hr; inversion Hr; subst; [by simpl in Hs; subst|].
  match goal with H : rmatch (RChar f) _ _ |- _ => inversion H; subst end. simpl.
  match goal with H : rmatch (RRep n _) _ _ |- _ => apply IH in H as [-> ->] end.
  by rewrite andb_true_r.
Qed.

(** A text matching [^f{1,n+1}$] is between one and n+1 characters of the class. *)
Lemma upto_end_inv f n text :
  MatchAnchored (RSeq (RSeq (RChar f) (RUpTo n (RChar f))) REnd) text = true ->
  (1 <= String.length text <= S n) /\ all_chars f text = true.
Proof.
  rewrite MatchAnchored_iff. intros [s' H]. inversion H as [| |a b s1 s2 s3 Hr He| | | | | | | |]; subst.
  inversion He as [| | | | | | | |s Hs| |]; subst. inversion Hr as [| |? ? ? ? ? Hc Hu| | | | | | | |]; subst.
  inversion Hc as [|? ? c t ? Hf| | | | | | | | |]; subst. simpl. rewrite Hf. simpl.
  enough (String.length t <= n /\ all_chars f t = true) by (split; [lia|tauto]).
  clear H He Hr Hc Hf. revert t Hu. generalize (Some c), (@nil (nat * string)).
  induction n as [|n IH]; simpl; intros p caps t Hu.
  - inversion Hu; subst. simpl in Hs. subst. simpl. split; [lia|done].
  - inversion Hu as [| | |? ? ? ? Hl|? ? ? ? Hl| | | | | |]; subst; [|inversion Hl; subst; simpl in Hs; subst; simpl; split; [lia|done]].
    inversion Hl as [| |? ? ? ? ? Hc Hr| | | | | | | |]; subst. inversion Hc; subst. simpl.
    apply IH in Hr as [? ->]. rewrite andb_true_r. split; [lia|done].
Qed.

(** * Character classes of whole strings *)

Lemma all_chars_app f a b : all_chars f (a +:+ b) = all_chars f a && all_chars f b.
Proof. induction a as [|c a IH]; [done|]. rewrite append_cons. simpl. by rewrite IH, andb_assoc. Qed.

Lemma all_chars_impl f g s :
  (forall c, f c = true -> g c = true) -> all_chars f s = true -> all_chars g s = true.
Proof. intros H. induction s as [|c s IH]; [done|]. simpl. intros [Hc Hs]%andb_prop. by rewrite H, IH. Qed.

Lemma all_chars_take f n s : all_chars f s = true -> all_chars f (str_take n s) = true.
Proof.
  revert n. induction s as [|c s IH]; intros [|n]; simpl; try done.
  intros [Hc Hs]%andb_prop. by rewrite Hc, IH.
Qed.

Lemma length_str_take n s : String.length (str_take n s) = Nat.min n (String.length s).
Proof. revert n. induction s as [|c s IH]; intros [|n]; simpl; try done. by rewrite IH. Qed.

Definition not_space (c : ascii) : bool := negb (is_space c).

Lemma TrimSpace_clean s : all_chars not_space s = true -> TrimSpace s = s.
Proof.
  intros H. unfold TrimSpace. rewrite trim_left_fix.
  - induction s as [|c s IH]; [done|]. simpl in *. apply andb_prop in H as [Hc Hs].
    rewrite IH by done. destruct s; [|done]. unfold not_space in Hc.
    by apply negb_true_iff in Hc as ->.
  - intros c Hc. destruct s; [done|]. injection Hc as ->. simpl in H.
    apply andb_prop in H as [H _]. by apply negb_true_iff in H.
Qed.

Lemma all_chars_no_char f d s :
  f d = false -> all_chars f s = true -> char_in_str d s = false.
Proof.
  intros Hd. induction s as [|c s IH]; [done|]. simpl. intros [Hc Hs]%andb_prop.
  rewrite IH by done. destruct (Ascii.eqb_spec c d) as [->|E]; [congruence|].
  rewrite orb_false_r. destruct (Ascii.eqb_spec d c); [congruence|done].
Qed.

(** * The fuel of the successive matches *)

Lemma search_suffix r prev text from s' : search r prev text = Some (from, s') -> String.length from <= String.length text.
Proof.
  revert prev. induction text as [|c t IH]; intros prev; simpl; destruct (match_here _ _); try (intros [= <- _]; done).
  - intros ?%IH. lia.
Qed.

Lemma find_all_enough n m r prev text :
  String.length text < n -> String.length text < m -> find_all n r prev text = find_all m r prev text.
Proof.
  revert m prev text. induction n as [|n IH]; intros [|m] prev text Hn Hm; try lia. cbn [find_all].
  destruct (search r prev text) as [[from s']|] eqn:E; [|done]. apply search_suffix in E.
  destruct (Nat.ltb_spec (String.length (rrest s')) (String.length from)); [f_equal; apply IH; lia|].
  destruct from as [|c t]; [done|]. simpl in *. f_equal. apply IH; lia.
Qed.
Lemma replace_all_enough n m r repl prev text :
  String.length text < n -> String.length text < m -> replace_all n r repl prev text = replace_all m r repl prev text.
Proof.
  revert m prev text. induction n as [|n IH]; intros [|m] prev text Hn Hm; try lia. cbn [replace_all].
  destruct (search r prev text) as [[from s']|] eqn:E; [|done]. apply search_suffix in E.
  destruct (Nat.ltb_spec (String.length (rrest s')) (String.length from)); [|done]. do 2 f_equal. apply IH; lia.
Qed.
