(* ===== verification/Model.v ===== *)
(** The data the components share: the records of [internal/model] and
    [internal/reporting], field for field, with their pure methods.

    A text column that holds JSON stays a [string]; the code that decodes it
    takes the decoder as a parameter.  Embedded evidence counters of
    [RuntimePayload] that no modelled code reads are left out. *)
From S2P Require Import Prelude GoStrings.

(** * internal/reporting/types.go *)

Record WorkerIdentity := mkWorkerIdentity {
  id_WorkloadSHA : string;
  id_WorkloadID : string;
  id_DeploymentID : Z;
  id_ValidatorID : string;
  id_WorkerID : string;
  id_Name : string;
  id_Source : string;
  id_GitSHA : string;
  id_LitestreamSHA : string;
  id_RunID : string;
  id_ImageRef : string;
  id_VolumeID : string;
  id_VolumeSizeGB : string;
  id_ProfileName : string;
  id_ProfileConfig : string;
  id_ProfileHash : string;
  id_AppName : string;
  id_MachineID : string;
  id_Region : string;
  id_Scenario : string;
  id_UpgradePhase : string;
  id_ActiveLitestreamSHA : string
}.
#[export] Instance WorkerIdentity_eta : Settable WorkerIdentity :=
    fun r => mkWorkerIdentity (id_WorkloadSHA r) (id_WorkloadID r) (id_DeploymentID r)
    (id_ValidatorID r) (id_WorkerID r) (id_Name r) (id_Source r) (id_GitSHA r) (id_LitestreamSHA
    r) (id_RunID r) (id_ImageRef r) (id_VolumeID r) (id_VolumeSizeGB r) (id_ProfileName r)
    (id_ProfileConfig r) (id_ProfileHash r) (id_AppName r) (id_MachineID r) (id_Region r)
    (id_Scenario r) (id_UpgradePhase r) (id_ActiveLitestreamSHA r).
Definition WorkerIdentity_zero : WorkerIdentity :=
  mkWorkerIdentity "" "" 0%Z "" "" "" "" "" "" "" "" "" "" "" "" "" "" "" "" "" "" "".

Record ProcessObservation := mkProcessObservation {
  po_Status : string;
  po_PID : Z;
  po_StartTicks : string;
  po_CollectedAt : time
}.
#[export] Instance ProcessObservation_eta : Settable ProcessObservation :=
    fun r => mkProcessObservation (po_Status r) (po_PID r) (po_StartTicks r) (po_CollectedAt r).
Definition ProcessObservation_zero : ProcessObservation :=
  mkProcessObservation "" 0%Z "" 0%Z.

Record RuntimePayload := mkRuntimePayload {
  rt_LitestreamProcess : ProcessObservation;
  rt_WorkerProcess : ProcessObservation;
  rt_LocalStateStatus : string;
  rt_LocalStateCollectedAt : time;
  rt_UptimeSeconds : float64;
  rt_StartupPhase : string;
  rt_DataDiskTotalBytes : Z;
  rt_DataDiskUsedBytes : Z;
  rt_DataDiskFreeBytes : Z;
  rt_DataDiskAvailableBytes : Z;
  rt_DataDiskUsedPercent : float64;
  rt_DBSizeBytes : Z;
  rt_WALSizeBytes : Z;
  rt_DBCount : Z;
  rt_DBTotalSizeBytes : Z;
  rt_WALTotalSizeBytes : Z;
  rt_LitestreamDirSizeBytes : Z;
  rt_LitestreamLTXSizeBytes : Z;
  rt_DBTXID : Z;
  rt_ReplicatedTXID : Z;
  rt_DBStatus : string;
  rt_LastSyncAgeSeconds : float64;
  rt_LastSyncAgeP50Seconds : float64;
  rt_LastSyncAgeP95Seconds : float64;
  rt_LastSyncAgeMaxSeconds : float64;
  rt_ReplicationLagP95 : Z;
  rt_ReplicationLagMax : Z;
  rt_ReplicationLagOverThreshold : Z;
  rt_LitestreamMetricsScrapeStatus : string;
  rt_LitestreamMetricsScrapeError : string;
  rt_LitestreamMetricsScrapeAttemptedAt : time;
  rt_LitestreamMetricsScrapeLastSuccessAt : time;
  rt_LitestreamMetricsScrapeConsecutiveFailures : Z;
  rt_LitestreamDiskFullMetricPresent : bool;
  rt_LitestreamDiskFull : bool;
  rt_LitestreamMemStatsMetricsPresent : bool;
  rt_LitestreamRSSBytes : Z;
  rt_LitestreamCPUSecondsTotal : float64;
  rt_LitestreamGoroutines : Z;
  rt_LitestreamFDs : Z;
  rt_WorkerRSSBytes : Z;
  rt_WorkerFDs : Z;
  rt_DiskPressureNoProgress : bool;
  rt_DiskPressureNoProgressSeconds : float64;
  rt_DiskFullSignalObserved : bool;
  rt_DiskFullSignalMessage : string;
  rt_DiskFullRecoveryAttempted : bool;
  rt_DiskFullRecoveryFreedBytes : Z;
  rt_DiskFullRecovered : bool;
  rt_DiskFullRecoverySeconds : float64;
  rt_DiskFullRecoveryWithoutRestart : bool;
  rt_LitestreamUptimeSeconds : float64;
  rt_S3ListRequestsTotal : Z;
  rt_LitestreamHeapInuseBytes : Z;
  rt_LitestreamStackInuseBytes : Z;
  rt_LitestreamAllocBytesTotal : float64;
  rt_LitestreamAllocRateBytesPerSec : float64;
  rt_SnapshotCollectedAt : time;
  rt_LitestreamSnapshotHealthy : bool;
  rt_LitestreamSnapshotError : string
}.
#[export] Instance RuntimePayload_eta : Settable RuntimePayload :=
    fun r => mkRuntimePayload (rt_LitestreamProcess r) (rt_WorkerProcess r) (rt_LocalStateStatus
    r) (rt_LocalStateCollectedAt r) (rt_UptimeSeconds r) (rt_StartupPhase r)
    (rt_DataDiskTotalBytes r) (rt_DataDiskUsedBytes r) (rt_DataDiskFreeBytes r)
    (rt_DataDiskAvailableBytes r) (rt_DataDiskUsedPercent r) (rt_DBSizeBytes r) (rt_WALSizeBytes
    r) (rt_DBCount r) (rt_DBTotalSizeBytes r) (rt_WALTotalSizeBytes r)
    (rt_LitestreamDirSizeBytes r) (rt_LitestreamLTXSizeBytes r) (rt_DBTXID r) (rt_ReplicatedTXID
    r) (rt_DBStatus r) (rt_LastSyncAgeSeconds r) (rt_LastSyncAgeP50Seconds r)
    (rt_LastSyncAgeP95Seconds r) (rt_LastSyncAgeMaxSeconds r) (rt_ReplicationLagP95 r)
    (rt_ReplicationLagMax r) (rt_ReplicationLagOverThreshold r)
    (rt_LitestreamMetricsScrapeStatus r) (rt_LitestreamMetricsScrapeError r)
    (rt_LitestreamMetricsScrapeAttemptedAt r) (rt_LitestreamMetricsScrapeLastSuccessAt r)
    (rt_LitestreamMetricsScrapeConsecutiveFailures r) (rt_LitestreamDiskFullMetricPresent r)
    (rt_LitestreamDiskFull r) (rt_LitestreamMemStatsMetricsPresent r) (rt_LitestreamRSSBytes r)
    (rt_LitestreamCPUSecondsTotal r) (rt_LitestreamGoroutines r) (rt_LitestreamFDs r)
    (rt_WorkerRSSBytes r) (rt_WorkerFDs r) (rt_DiskPressureNoProgress r)
    (rt_DiskPressureNoProgressSeconds r) (rt_DiskFullSignalObserved r) (rt_DiskFullSignalMessage
    r) (rt_DiskFullRecoveryAttempted r) (rt_DiskFullRecoveryFreedBytes r) (rt_DiskFullRecovered
    r) (rt_DiskFullRecoverySeconds r) (rt_DiskFullRecoveryWithoutRestart r)
    (rt_LitestreamUptimeSeconds r) (rt_S3ListRequestsTotal r) (rt_LitestreamHeapInuseBytes r)
    (rt_LitestreamStackInuseBytes r) (rt_LitestreamAllocBytesTotal r)
    (rt_LitestreamAllocRateBytesPerSec r) (rt_SnapshotCollectedAt r)
    (rt_LitestreamSnapshotHealthy r) (rt_LitestreamSnapshotError r).
Definition RuntimePayload_zero : RuntimePayload :=
  mkRuntimePayload ProcessObservation_zero ProcessObservation_zero "" 0%Z f64_zero "" 0%Z 0%Z
    0%Z 0%Z f64_zero 0%Z 0%Z 0%Z 0%Z 0%Z 0%Z 0%Z 0%Z 0%Z "" f64_zero f64_zero f64_zero f64_zero
    0%Z 0%Z 0%Z "" "" 0%Z 0%Z 0%Z false false false 0%Z f64_zero 0%Z 0%Z 0%Z 0%Z false f64_zero
    false "" false 0%Z false f64_zero false f64_zero 0%Z 0%Z 0%Z f64_zero f64_zero 0%Z false "".

Record ObjectStoreFailure := mkObjectStoreFailure {
  os_Operation : string;
  os_HTTPStatus : Z;
  os_APICode : string;
  os_RequestID : string;
  os_Bucket : string;
  os_Prefix : string;
  os_RedactedPrefix : string;
  os_Phase : string
}.
#[export] Instance ObjectStoreFailure_eta : Settable ObjectStoreFailure :=
    fun r => mkObjectStoreFailure (os_Operation r) (os_HTTPStatus r) (os_APICode r)
    (os_RequestID r) (os_Bucket r) (os_Prefix r) (os_RedactedPrefix r) (os_Phase r).
Definition ObjectStoreFailure_zero : ObjectStoreFailure :=
  mkObjectStoreFailure "" 0%Z "" "" "" "" "" "".

Record RestoreFailure := mkRestoreFailure {
  rf_Phase : string
}.
#[export] Instance RestoreFailure_eta : Settable RestoreFailure :=
    fun r => mkRestoreFailure (rf_Phase r).
Definition RestoreFailure_zero : RestoreFailure :=
  mkRestoreFailure "".

Record FailureClassification := mkFailureClassification {
  fc_Stage : string;
  fc_Signature : string;
  fc_ObjectStore : option ObjectStoreFailure;
  fc_Restore : option RestoreFailure;
  fc_RestoreMode : string
}.
#[export] Instance FailureClassification_eta : Settable FailureClassification :=
    fun r => mkFailureClassification (fc_Stage r) (fc_Signature r) (fc_ObjectStore r)
    (fc_Restore r) (fc_RestoreMode r).
Definition FailureClassification_zero : FailureClassification :=
  mkFailureClassification "" "" None None "".

(** * internal/model/types.go *)

Inductive WorkerStatus :=
| WorkerPending | WorkerBuilding | WorkerStarting | WorkerRunning | WorkerDegraded
| WorkerDormant | WorkerProbing | WorkerStopped | WorkerFailed.
#[export] Instance WorkerStatus_eq_dec : EqDecision WorkerStatus.
Proof. solve_decision. Defined.

(** The text stored in the status column. *)
Definition WorkerStatus_string (s : WorkerStatus) : string :=
  match s with
  | WorkerPending => "pending" | WorkerBuilding => "building" | WorkerStarting => "starting"
  | WorkerRunning => "running" | WorkerDegraded => "degraded" | WorkerDormant => "dormant"
  | WorkerProbing => "probing" | WorkerStopped => "stopped" | WorkerFailed => "failed"
  end.

Record Worker := mkWorker {
  w_ID : string;
  w_AppName : string;
  w_Region : string;
  w_FlyMachineID : string;
  w_FlyVolumeID : string;
  w_Name : string;
  w_Status : WorkerStatus;
  w_Source : string;
  w_GitSHA : string;
  w_LitestreamSHA : string;
  w_PRNumber : Z;
  w_ProfileName : string;
  w_ProfileConfig : string;
  w_ExpiresAt : option time;
  w_CreatedAt : time;
  w_UpdatedAt : time;
  w_LastHeartbeatAt : option time;
  w_ErrorMessage : string;
  w_LastRuntimeJSON : string;
  w_LastRuntimeAt : option time;
  w_DormantAt : option time;
  w_DormantReason : string;
  w_DormantSignature : string;
  w_ResumeTrigger : string;
  w_LastProbeAt : option time;
  w_EvidenceHoldAt : option time;
  w_EvidenceHoldReason : string
}.
#[export] Instance Worker_eta : Settable Worker :=
    fun r => mkWorker (w_ID r) (w_AppName r) (w_Region r) (w_FlyMachineID r) (w_FlyVolumeID r)
    (w_Name r) (w_Status r) (w_Source r) (w_GitSHA r) (w_LitestreamSHA r) (w_PRNumber r)
    (w_ProfileName r) (w_ProfileConfig r) (w_ExpiresAt r) (w_CreatedAt r) (w_UpdatedAt r)
    (w_LastHeartbeatAt r) (w_ErrorMessage r) (w_LastRuntimeJSON r) (w_LastRuntimeAt r)
    (w_DormantAt r) (w_DormantReason r) (w_DormantSignature r) (w_ResumeTrigger r)
    (w_LastProbeAt r) (w_EvidenceHoldAt r) (w_EvidenceHoldReason r).
Definition Worker_zero : Worker :=
  mkWorker "" "" "" "" "" "" WorkerPending "" "" "" 0%Z "" "" None 0%Z 0%Z None "" "" None None
    "" "" "" None None "".

Record Verification := mkVerification {
  v_Run : WorkerIdentity;
  v_Attributed : bool;
  v_ID : Z;
  v_WorkerID : string;
  v_StartedAt : time;
  v_CompletedAt : option time;
  v_Status : string;
  v_CheckType : string;
  v_SourceChecksum : string;
  v_RestoredChecksum : string;
  v_Passed : bool;
  v_DurationMS : Z;
  v_ErrorMessage : string;
  v_FailureClassification : option FailureClassification;
  v_RestoreMode : string;
  v_RestoreModeFallback : string
}.
#[export] Instance Verification_eta : Settable Verification :=
    fun r => mkVerification (v_Run r) (v_Attributed r) (v_ID r) (v_WorkerID r) (v_StartedAt r)
    (v_CompletedAt r) (v_Status r) (v_CheckType r) (v_SourceChecksum r) (v_RestoredChecksum r)
    (v_Passed r) (v_DurationMS r) (v_ErrorMessage r) (v_FailureClassification r) (v_RestoreMode
    r) (v_RestoreModeFallback r).
Definition Verification_zero : Verification :=
  mkVerification WorkerIdentity_zero false 0%Z "" 0%Z None "" "" "" "" false 0%Z "" None "" "".

Record VerificationStat := mkVerificationStat {
  vs_ID : Z;
  vs_WorkerID : string;
  vs_Source : string;
  vs_WorkerCreatedAt : time;
  vs_StartedAt : time;
  vs_Status : string;
  vs_CheckType : string;
  vs_Passed : bool;
  vs_DurationMS : Z;
  vs_ErrorMessage : string;
  vs_HasPriorPass : bool;
  vs_FailureClassification : option FailureClassification
}.
#[export] Instance VerificationStat_eta : Settable VerificationStat :=
    fun r => mkVerificationStat (vs_ID r) (vs_WorkerID r) (vs_Source r) (vs_WorkerCreatedAt r)
    (vs_StartedAt r) (vs_Status r) (vs_CheckType r) (vs_Passed r) (vs_DurationMS r)
    (vs_ErrorMessage r) (vs_HasPriorPass r) (vs_FailureClassification r).
Definition VerificationStat_zero : VerificationStat :=
  mkVerificationStat 0%Z "" "" 0%Z 0%Z "" "" false 0%Z "" false None.

Record Deployment := mkDeployment {
  d_WorkloadSHA : string;
  d_ID : Z;
  d_GitSHA : string;
  d_LitestreamSHA : string;
  d_ImageRef : string;
  d_Source : string;
  d_Repository : string;
  d_PRNumber : Z;
  d_Status : string;
  d_StartedAt : time;
  d_CompletedAt : option time;
  d_ErrorMessage : string;
  d_RolloutGeneration : Z
}.
#[export] Instance Deployment_eta : Settable Deployment :=
    fun r => mkDeployment (d_WorkloadSHA r) (d_ID r) (d_GitSHA r) (d_LitestreamSHA r)
    (d_ImageRef r) (d_Source r) (d_Repository r) (d_PRNumber r) (d_Status r) (d_StartedAt r)
    (d_CompletedAt r) (d_ErrorMessage r) (d_RolloutGeneration r).
Definition Deployment_zero : Deployment :=
  mkDeployment "" 0%Z "" "" "" "" "" 0%Z "" 0%Z None "" 0%Z.

Record Event := mkEvent {
  e_ID : Z;
  e_WorkerID : string;
  e_EventType : string;
  e_Message : string;
  e_Details : string;
  e_CreatedAt : time;
  e_Occurrences : Z;
  e_RestoreOutputOccurrences : Z;
  e_CollapsedCount : Z;
  e_CollapsedWindowStart : option time;
  e_CollapsedWindowEnd : option time
}.
#[export] Instance Event_eta : Settable Event :=
    fun r => mkEvent (e_ID r) (e_WorkerID r) (e_EventType r) (e_Message r) (e_Details r)
    (e_CreatedAt r) (e_Occurrences r) (e_RestoreOutputOccurrences r) (e_CollapsedCount r)
    (e_CollapsedWindowStart r) (e_CollapsedWindowEnd r).
Definition Event_zero : Event :=
  mkEvent 0%Z "" "" "" "" 0%Z 0%Z 0%Z 0%Z None None.

Definition EvidenceHeld (w : Worker) : bool :=
  match w_EvidenceHoldAt w with Some _ => true | None => false end.

Definition Aborted (v : Verification) : bool := EqualFold (TrimSpace (v_Status v)) "aborted".
Definition Pending (v : Verification) : bool := EqualFold (TrimSpace (v_Status v)) "pending".
Definition Inconclusive (v : Verification) : bool := Aborted v || Pending v.
Definition Failed (v : Verification) : bool :=
  negb (Inconclusive v) && (negb (v_Passed v) || EqualFold (TrimSpace (v_Status v)) "failed").
Definition Succeeded (v : Verification) : bool :=
  negb (Inconclusive v) && v_Passed v && negb (EqualFold (TrimSpace (v_Status v)) "failed").

(** Every verification is exactly one of inconclusive, failed, succeeded. *)
Lemma verification_trichotomy v :
  (Inconclusive v = true /\ Failed v = false /\ Succeeded v = false) \/
  (Inconclusive v = false /\ Failed v = true /\ Succeeded v = false) \/
  (Inconclusive v = false /\ Failed v = false /\ Succeeded v = true).
Proof.
  unfold Failed, Succeeded. destruct (Inconclusive v), (v_Passed v), (EqualFold _ "failed"); simpl; auto.
Qed.

(** * internal/model/run_identity.go *)

Definition MatchesDeployment (v : Verification) (worker : Worker) (deployment : Deployment) : bool :=
  let run := v_Run v in
  v_Attributed v && (0 <? id_DeploymentID run)%Z && (id_DeploymentID run =? d_ID deployment)%Z &&
  (id_GitSHA run =s d_GitSHA deployment) && (id_LitestreamSHA run =s d_LitestreamSHA deployment) &&
  (id_WorkloadSHA run =s d_WorkloadSHA deployment) &&
  (id_Source run =s d_Source deployment) && (id_WorkerID run =s w_ID worker) &&
  negb (id_MachineID run =s "") &&
  negb (id_RunID run =s "") && negb (id_ProfileHash run =s "") && negb (id_ValidatorID run =s "").

(** * internal/model/rc_gates.go *)

Inductive RCGateStatus := RCGateRunning | RCGateTail | RCGateCompleted | RCGateAborted.
#[export] Instance RCGateStatus_eq_dec : EqDecision RCGateStatus.
Proof. solve_decision. Defined.

Inductive RCGateKind := RCGateKindRC | RCGateKindUpgrade.
#[export] Instance RCGateKind_eq_dec : EqDecision RCGateKind.
Proof. solve_decision. Defined.

Record RCGateResource := mkRCGateResource {
  rr_Source : string;
  rr_WorkerName : string;
  rr_Profile : string;
  rr_Region : string;
  rr_CPUs : Z;
  rr_MemoryMB : Z;
  rr_VolumeGB : Z;
  rr_Tail : bool;
  rr_StartedAt : time;
  rr_ExpiresAt : time
}.
#[export] Instance RCGateResource_eta : Settable RCGateResource :=
    fun r => mkRCGateResource (rr_Source r) (rr_WorkerName r) (rr_Profile r) (rr_Region r)
    (rr_CPUs r) (rr_MemoryMB r) (rr_VolumeGB r) (rr_Tail r) (rr_StartedAt r) (rr_ExpiresAt r).
Definition RCGateResource_zero : RCGateResource :=
  mkRCGateResource "" "" "" "" 0%Z 0%Z 0%Z false 0%Z 0%Z.

Record RCGate := mkRCGate {
  g_ID : Z;
  g_Kind : RCGateKind;
  g_LaneVariant : string;
  g_Repository : string;
  g_CandidateRef : string;
  g_CandidateSource : string;
  g_CandidateSHA : string;
  g_CandidateImageRef : string;
  g_CandidateGitSHA : string;
  g_BaselineSource : string;
  g_BaselineSHA : string;
  g_BaselineImageRef : string;
  g_BaselineGitSHA : string;
  g_Duration : duration;
  g_UpgradeWarmup : duration;
  g_Tail : bool;
  g_Status : RCGateStatus;
  g_StartedAt : time;
  g_ExpiresAt : time;
  g_TailExpiresAt : option time;
  g_ProvisionDeadline : time;
  g_CandidateReadyAt : option time;
  g_BaselineReadyAt : option time;
  g_PairedReadyAt : option time;
  g_CompletedAt : option time;
  g_Profiles : list string;
  g_ObserveProxy : bool;
  g_Resources : list RCGateResource;
  g_Results : string
}.
#[export] Instance RCGate_eta : Settable RCGate :=
    fun r => mkRCGate (g_ID r) (g_Kind r) (g_LaneVariant r) (g_Repository r) (g_CandidateRef r)
    (g_CandidateSource r) (g_CandidateSHA r) (g_CandidateImageRef r) (g_CandidateGitSHA r)
    (g_BaselineSource r) (g_BaselineSHA r) (g_BaselineImageRef r) (g_BaselineGitSHA r)
    (g_Duration r) (g_UpgradeWarmup r) (g_Tail r) (g_Status r) (g_StartedAt r) (g_ExpiresAt r)
    (g_TailExpiresAt r) (g_ProvisionDeadline r) (g_CandidateReadyAt r) (g_BaselineReadyAt r)
    (g_PairedReadyAt r) (g_CompletedAt r) (g_Profiles r) (g_ObserveProxy r) (g_Resources r)
    (g_Results r).
Definition RCGate_zero : RCGate :=
  mkRCGate 0%Z RCGateKindRC "" "" "" "" "" "" "" "" "" "" "" 0%Z 0%Z false RCGateRunning 0%Z 0%Z
    None 0%Z None None None None [] false [] "".

Definition Sources (g : RCGate) : list string := [g_CandidateSource g; g_BaselineSource g].

Definition SelectsProfile (g : RCGate) (profile : string) : bool :=
  match g_Profiles g with
  | [] => true
  | ps => existsb (fun selected => selected =s profile) ps
  end.

Definition LitestreamSHAFor (g : RCGate) (source : string) : string * bool :=
  if source =s g_CandidateSource g then (g_CandidateSHA g, true)
  else if source =s g_BaselineSource g then (g_BaselineSHA g, true)
  else ("", false).

Definition PinnedBuildFor (g : RCGate) (source : string) : string * string :=
  if source =s g_CandidateSource g then (g_CandidateImageRef g, g_CandidateGitSHA g)
  else if source =s g_BaselineSource g then (g_BaselineImageRef g, g_BaselineGitSHA g)
  else ("", "").

Definition ReadyAtFor (g : RCGate) (source : string) : option time :=
  if source =s g_CandidateSource g then g_CandidateReadyAt g
  else if source =s g_BaselineSource g then g_BaselineReadyAt g
  else None.

Definition Closed (g : RCGate) : bool :=
  match g_Status g with RCGateCompleted | RCGateAborted => true | _ => false end.

(** * internal/workload/config.go *)

Record Config := mkConfig {
  c_LoadMode : string;
  c_ReplicaBackend : string;
  c_WriteRate : Z;
  c_Pattern : string;
  c_PayloadSize : Z;
  c_ReadRatio : float64;
  c_Workers : Z;
  c_InitialSize : string;
  c_PopulateIndexRatio : float64;
  c_PopulateStopOnFailure : bool;
  c_MonitorInterval : string;
  c_VerifyInterval : string;
  c_VerifyType : string;
  c_VerifySyncDegradedAfter : string;
  c_VerifySyncTimeout : string;
  c_VerifySourceSnapshotBudget : string;
  c_VerifyRestoreBudget : string;
  c_VerifyIntegrityCheckBudget : string;
  c_VerifyCompareBudget : string;
  c_DiskFullNoProgressWindow : string;
  c_DiskFullRecoveryReserve : Z;
  c_DiskFullRecoveryTimeout : string;
  c_SnapshotInterval : string;
  c_SyncInterval : string;
  c_L1CompactionInterval : string;
  c_L2CompactionInterval : string;
  c_L3CompactionInterval : string;
  c_L0Retention : string;
  c_L0RetentionCheckInterval : string;
  c_S3PartSize : string;
  c_S3Concurrency : Z;
  c_S3FaultProxyEnabled : bool;
  c_S3FaultProxyMode : string;
  c_MeteringWindow : bool;
  c_S3ObserveProxyRequired : bool;
  c_S3FaultProxyListenAddr : string;
  c_S3FaultProxyMinContentLength : Z;
  c_S3FaultProxyResetAfterBytes : Z;
  c_S3FaultProxyFailFirstAttempts : Z;
  c_S3FaultProxyMaxFailures : Z;
  c_S3FaultProxySourceLevel : string;
  c_S3FaultProxyRequireObservedSourceGet : bool;
  c_S3FaultProxyRequireObservedSourceRangeGet : bool;
  c_ReplicaLevelReporting : bool;
  c_ReplayDataset : string;
  c_ReplayDataPath : string;
  c_ReplayDataURL : string;
  c_ReplaySpeed : float64;
  c_ReplayLoop : bool;
  c_NumDatabases : Z;
  c_MaxRowsPerDatabase : Z;
  c_ActivePercent : float64;
  c_ActivePercentSet : bool;
  c_ActiveRotateInterval : string;
  c_ActiveSetSeed : Z;
  c_ConfigMode : string;
  c_VerifySampleSize : Z;
  c_VerifyChangedLimit : Z;
  c_ReplicationLagThreshold : Z;
  c_TruncatePageN : option Z;
  c_PinnedReaderHold : string;
  c_PinnedReaderPause : string;
  c_StressScenarios : string;
  c_StressScenarioPhase : string;
  c_UpgradeLane : bool;
  c_UpgradeWarmup : string;
  c_UpgradePostSnapshotInterval : string;
  c_UpgradeDeleteL9AtSwitch : bool;
  c_FollowCheck : bool;
  c_CompactionProgressCheck : bool;
  c_CompactionL0ObjectBound : Z;
  c_CompactionL1ObjectBound : Z;
  c_LTXCoverageCheck : bool;
  c_VFSReaderCheck : bool;
  c_WALResetCheck : bool;
  c_VolumeSizeGB : Z;
  c_MemoryMB : Z;
  c_CPUs : Z
}.
#[export] Instance Config_eta : Settable Config :=
    fun r => mkConfig (c_LoadMode r) (c_ReplicaBackend r) (c_WriteRate r) (c_Pattern r)
    (c_PayloadSize r) (c_ReadRatio r) (c_Workers r) (c_InitialSize r) (c_PopulateIndexRatio r)
    (c_PopulateStopOnFailure r) (c_MonitorInterval r) (c_VerifyInterval r) (c_VerifyType r)
    (c_VerifySyncDegradedAfter r) (c_VerifySyncTimeout r) (c_VerifySourceSnapshotBudget r)
    (c_VerifyRestoreBudget r) (c_VerifyIntegrityCheckBudget r) (c_VerifyCompareBudget r)
    (c_DiskFullNoProgressWindow r) (c_DiskFullRecoveryReserve r) (c_DiskFullRecoveryTimeout r)
    (c_SnapshotInterval r) (c_SyncInterval r) (c_L1CompactionInterval r) (c_L2CompactionInterval
    r) (c_L3CompactionInterval r) (c_L0Retention r) (c_L0RetentionCheckInterval r) (c_S3PartSize
    r) (c_S3Concurrency r) (c_S3FaultProxyEnabled r) (c_S3FaultProxyMode r) (c_MeteringWindow r)
    (c_S3ObserveProxyRequired r) (c_S3FaultProxyListenAddr r) (c_S3FaultProxyMinContentLength r)
    (c_S3FaultProxyResetAfterBytes r) (c_S3FaultProxyFailFirstAttempts r)
    (c_S3FaultProxyMaxFailures r) (c_S3FaultProxySourceLevel r)
    (c_S3FaultProxyRequireObservedSourceGet r) (c_S3FaultProxyRequireObservedSourceRangeGet r)
    (c_ReplicaLevelReporting r) (c_ReplayDataset r) (c_ReplayDataPath r) (c_ReplayDataURL r)
    (c_ReplaySpeed r) (c_ReplayLoop r) (c_NumDatabases r) (c_MaxRowsPerDatabase r)
    (c_ActivePercent r) (c_ActivePercentSet r) (c_ActiveRotateInterval r) (c_ActiveSetSeed r)
    (c_ConfigMode r) (c_VerifySampleSize r) (c_VerifyChangedLimit r) (c_ReplicationLagThreshold
    r) (c_TruncatePageN r) (c_PinnedReaderHold r) (c_PinnedReaderPause r) (c_StressScenarios r)
    (c_StressScenarioPhase r) (c_UpgradeLane r) (c_UpgradeWarmup r)
    (c_UpgradePostSnapshotInterval r) (c_UpgradeDeleteL9AtSwitch r) (c_FollowCheck r)
    (c_CompactionProgressCheck r) (c_CompactionL0ObjectBound r) (c_CompactionL1ObjectBound r)
    (c_LTXCoverageCheck r) (c_VFSReaderCheck r) (c_WALResetCheck r) (c_VolumeSizeGB r)
    (c_MemoryMB r) (c_CPUs r).
Definition Config_zero : Config :=
  mkConfig "" "" 0%Z "" 0%Z f64_zero 0%Z "" f64_zero false "" "" "" "" "" "" "" "" "" "" 0%Z ""
    "" "" "" "" "" "" "" "" 0%Z false "" false false "" 0%Z 0%Z 0%Z 0%Z "" false false false ""
    "" "" f64_zero false 0%Z 0%Z f64_zero false "" 0%Z "" 0%Z 0%Z 0%Z None "" "" "" "" false ""
    "" false false false 0%Z 0%Z false false false 0%Z 0%Z 0%Z.

(** * internal/orchestrator/fleet.go *)

Record DesiredWorker := mkDesiredWorker {
  dw_WorkerID : string;
  dw_Name : string;
  dw_Source : string;
  dw_GitSHA : string;
  dw_LitestreamSHA : string;
  dw_PRNumber : Z;
  dw_ProfileName : string;
  dw_Region : string;
  dw_VolumeSizeGB : Z;
  dw_Workload : Config
}.
#[export] Instance DesiredWorker_eta : Settable DesiredWorker :=
    fun r => mkDesiredWorker (dw_WorkerID r) (dw_Name r) (dw_Source r) (dw_GitSHA r)
    (dw_LitestreamSHA r) (dw_PRNumber r) (dw_ProfileName r) (dw_Region r) (dw_VolumeSizeGB r)
    (dw_Workload r).
Definition DesiredWorker_zero : DesiredWorker :=
  mkDesiredWorker "" "" "" "" "" 0%Z "" "" 0%Z Config_zero.
