(* ===== verification/GoTime.v ===== *)
(** [time.ParseDuration] and [Duration.String], as the Go standard library
    computes them. *)
From S2P Require Import Prelude GoStrings.
From Stdlib Require Import Ascii SpecFloat.

(** * Parsing *)

Definition two63 : Z := (2 ^ 63)%Z.

(** [leadingInt]: the digits consumed so far, or [None] on overflow. *)
Fixpoint leadingInt (x : Z) (s : string) : option (Z * string) :=
  match s with
  | String c t =>
      if is_digit c then
        if (two63 / 10 <? x)%Z then None
        else let x := (x * 10 + digit_val c)%Z in
             if (two63 <? x)%Z then None else leadingInt x t
      else Some (x, s)
  | EmptyString => Some (x, s)
  end.

(** [leadingFraction]: value, scale and the text left. *)
Fixpoint leadingFraction (x scale : Z) (overflow : bool) (s : string) : Z * Z * string :=
  match s with
  | String c t =>
      if is_digit c then
        if overflow then leadingFraction x scale true t
        else if ((two63 - 1) / 10 <? x)%Z then leadingFraction x scale true t
        else let y := (x * 10 + digit_val c)%Z in
             if (two63 <? y)%Z then leadingFraction x scale true t
             else leadingFraction y (scale * 10)%Z false t
      else (x, scale, s)
  | EmptyString => (x, scale, s)
  end.

Definition unitMap (u : string) : option Z :=
  if u =s "ns" then Some Nanosecond
  else if u =s "us" then Some 1000%Z
  else if (u =s String "194" (String "181" "s")) || (u =s String "206" (String "188" "s")) then Some 1000%Z
  else if u =s "ms" then Some Millisecond
  else if u =s "s" then Some Second
  else if u =s "m" then Some Minute
  else if u =s "h" then Some Hour
  else None.

Fixpoint take_unit (s : string) : string * string :=
  match s with
  | String c t =>
      if Ascii.eqb c "." || is_digit c then ("", s)
      else let '(u, r) := take_unit t in (String c u, r)
  | EmptyString => ("", "")
  end.

(** [uint64(f)] of a non-negative float: truncation. *)
Definition f64_trunc (f : float64) : Z :=
  match f with
  | S754_finite _ m e =>
      (if (0 <=? e)%Z then Z.pos m * 2 ^ e else Z.pos m / 2 ^ (- e))%Z
  | _ => 0%Z
  end.

(** The loop over "number unit" pairs; every pass consumes at least one byte,
    so the length of the text is enough fuel. *)
Fixpoint parse_loop (fuel : nat) (d : Z) (s : string) : option Z :=
  match fuel with
  | O => None
  | S fuel =>
      match s with
      | EmptyString => Some d
      | String c _ =>
          if negb (Ascii.eqb c "." || is_digit c) then None
          else
            match leadingInt 0 s with
            | None => None
            | Some (v, s1) =>
                let pre := negb (String.length s =? String.length s1) in
                let '(f, scale, s2, post) :=
                  match s1 with
                  | String "." t =>
                      let '(f, scale, r) := leadingFraction 0 1 false t in
                      (f, scale, r, negb (String.length t =? String.length r))
                  | _ => (0%Z, 1%Z, s1, false)
                  end in
                if negb pre && negb post then None
                else
                  let '(u, s3) := take_unit s2 in
                  if u =s "" then None
                  else match unitMap u with
                       | None => None
                       | Some unit =>
                           if (two63 / unit <? v)%Z then None
                           else
                             let v := (v * unit)%Z in
                             let v := if (0 <? f)%Z
                                      then (v + f64_trunc (f64_mul (f64_of_Z f)
                                                (f64_div (f64_of_Z unit) (f64_of_Z scale))))%Z
                                      else v in
                             if (two63 <? v)%Z then None
                             else if (two63 <? d + v)%Z then None
                             else parse_loop fuel (d + v)%Z s3
                       end
            end
      end
  end.

Definition ParseDuration (s : string) : option duration :=
  let '(neg, s) :=
    match s with
    | String "-" t => (true, t)
    | String "+" t => (false, t)
    | _ => (false, s)
    end%char in
  if s =s "0" then Some 0%Z
  else if s =s "" then None
  else match parse_loop (S (String.length s)) 0 s with
       | None => None
       | Some d =>
           if neg : bool then Some (- d)%Z
           else if (max_int64 <? d)%Z then None else Some d
       end.

(** * Formatting *)

Definition fmt_int (v : Z) : string := pretty v.

Fixpoint frac_digits (prec : nat) (v : Z) (printing : bool) (acc : string) : string * Z :=
  match prec with
  | O => ((if printing then String "." acc else acc), v)
  | S prec =>
      let digit := (v mod 10)%Z in
      let printing := printing || negb (digit =? 0)%Z in
      let acc := if printing then String (ascii_of_N (Z.to_N (digit + 48))) acc else acc in
      frac_digits prec (v / 10)%Z printing acc
  end.

(** [fmtFrac]: the fraction text in front of [acc] and the integer left. *)
Definition fmtFrac (v : Z) (prec : nat) (acc : string) : string * Z := frac_digits prec v false acc.

Definition DurationString (d : duration) : string :=
  let u := Z.abs d in
  let body :=
    if (u <? Second)%Z then
      if (u =? 0)%Z then "0s"
      else
        let '(prec, suffix) :=
          if (u <? 1000)%Z then (0, "ns")
          else if (u <? Millisecond)%Z then (3, String "194" (String "181" "s"))
          else (6, "ms") in
        let '(acc, v) := fmtFrac u prec suffix in fmt_int v +:+ acc
    else
      let '(acc, u) := fmtFrac u 9 "s" in
      let acc := fmt_int (u mod 60)%Z +:+ acc in
      let u := (u / 60)%Z in
      if (0 <? u)%Z then
        let acc := fmt_int (u mod 60)%Z +:+ "m" +:+ acc in
        let u := (u / 60)%Z in
        if (0 <? u)%Z then fmt_int u +:+ "h" +:+ acc else acc
      else acc in
  if (d <? 0)%Z then "-" +:+ body else body.

Example ParseDuration_72h : ParseDuration "72h" = Some (72 * Hour)%Z.
Proof. reflexivity. Qed.
Example ParseDuration_frac : ParseDuration "1h1.5m" = Some (Hour + 90 * Second)%Z.
Proof. reflexivity. Qed.
Example ParseDuration_bad : ParseDuration "3 days" = None.
Proof. reflexivity. Qed.
Example DurationString_2h : DurationString (2 * Hour) = "2h0m0s".
Proof. reflexivity. Qed.
Example DurationString_frac : DurationString (1500 * Millisecond) = "1.5s".
Proof. reflexivity. Qed.

(** * Calendar

    [t.UTC().Format(time.RFC3339)].  Day 0 is 0001-01-01; the civil date is
    found in 400-year cycles of 146097 days, with March as the first month. *)

Definition pad (width : nat) (z : Z) : string :=
  let s := fmt_int z in
  String.concat "" (List.repeat "0" (width - String.length s)) +:+ s.

(** Year, month and day of a day number. *)
Definition civil (day : Z) : Z * Z * Z :=
  let z := (day + 306)%Z in                    (* days since 0000-03-01 *)
  let era := (z / 146097)%Z in
  let doe := (z mod 146097)%Z in
  let yoe := ((doe - doe / 1460 + doe / 36524 - doe / 146096) / 365)%Z in
  let doy := (doe - (365 * yoe + yoe / 4 - yoe / 100))%Z in
  let mp := ((5 * doy + 2) / 153)%Z in
  let d := (doy - (153 * mp + 2) / 5 + 1)%Z in
  let m := if (mp <? 10)%Z then (mp + 3)%Z else (mp - 9)%Z in
  ((yoe + era * 400 + (if (m <=? 2)%Z then 1 else 0))%Z, m, d).

Definition FormatRFC3339 (t : time) : string :=
  let secs := (t / Second)%Z in
  let '(y, m, d) := civil (secs / 86400)%Z in
  let s := (secs mod 86400)%Z in
  pad 4 y +:+ "-" +:+ pad 2 m +:+ "-" +:+ pad 2 d +:+ "T" +:+
  pad 2 (s / 3600)%Z +:+ ":" +:+ pad 2 (s / 60 mod 60)%Z +:+ ":" +:+ pad 2 (s mod 60)%Z +:+ "Z".

(** [Duration.Round]: half away from zero (away from the int64 bounds). *)
Definition DurationRound (d m : duration) : duration :=
  if (m <=? 0)%Z then d
  else
    let r := Z.rem d m in
    if (d <? 0)%Z then
      if (- r + - r <? m)%Z then (d - r)%Z else (d - r - m)%Z
    else if (r + r <? m)%Z then (d - r)%Z else (d - r + m)%Z.

(** [%.kf] of a finite float: the exact value rounded half to even. *)
Definition FormatFixed (k : nat) (f : float64) : string :=
  let scale := (10 ^ Z.of_nat k)%Z in
  match f with
  | S754_finite neg m e =>
      let scaled :=
        if (0 <=? e)%Z then (Z.pos m * scale * 2 ^ e)%Z
        else
          let den := (2 ^ (- e))%Z in
          let q := (Z.pos m * scale / den)%Z in
          let r := (Z.pos m * scale mod den)%Z in
          if (2 * r <? den)%Z then q
          else if (den <? 2 * r)%Z then (q + 1)%Z
          else if Z.even q then q else (q + 1)%Z in
      (if neg then "-" else "") +:+ fmt_int (scaled / scale)%Z +:+ "." +:+ pad k (scaled mod scale)%Z
  | S754_zero neg => (if neg then "-" else "") +:+ "0." +:+ pad k 0
  | S754_infinity neg => if neg then "-Inf" else "+Inf"
  | S754_nan => "NaN"
  end.
Definition Format1f : float64 -> string := FormatFixed 1.
Definition Format3f : float64 -> string := FormatFixed 3.

Example FormatRFC3339_zero : FormatRFC3339 0 = "0001-01-01T00:00:00Z".
Proof. reflexivity. Qed.
Example FormatRFC3339_epoch :
  FormatRFC3339 (62135596800 * Second + 951827696 * Second) = "2000-02-29T12:34:56Z".
Proof. vm_compute. reflexivity. Qed.
Example Format3f_small : Format3f (f64_div (f64_of_Z 5) (f64_of_Z 100)) = "0.050".
Proof. vm_compute. reflexivity. Qed.
Example Format1f_98 : Format1f (f64_div (f64_of_Z 9876) (f64_of_Z 100)) = "98.8".
Proof. vm_compute. reflexivity. Qed.

(** * The fuel of the duration parser *)

Lemma leadingInt_length x s v r : leadingInt x s = Some (v, r) -> String.length r <= String.length s.
Proof.
  revert x. induction s as [|c t IH]; intros x; simpl; [by intros [= _ <-]|].
  destruct (is_digit c); [|by intros [= _ <-]]. destruct (_ <? x)%Z; [done|]. destruct (_ <? _)%Z; [done|].
  intros ?%IH. lia.
Qed.

Lemma leadingFraction_length x scale o s : String.length (snd (leadingFraction x scale o s)) <= String.length s.
Proof.
  revert x scale o. induction s as [|c t IH]; intros x scale o; simpl; [done|].
  destruct (is_digit c); [|simpl; lia].
  destruct o; [|destruct (_ <? x)%Z; [|destruct (_ <? _)%Z]]; etransitivity; try apply IH; lia.
Qed.

Lemma take_unit_length s u r : take_unit s = (u, r) -> u <> "" -> String.length r < String.length s.
Proof.
  revert u r. induction s as [|c t IH]; intros u r; simpl; [by intros [= <- _]|].
  destruct (_ || _); [by intros [= <- _]|]. destruct (take_unit t) as [u' r'] eqn:E. intros [= <- <-] _.
  destruct (String.eqb_spec u' "") as [->|Hu]; [|specialize (IH u' r' eq_refl Hu); lia].
  destruct t as [|c' t]; simpl in E; [injection E as <-; simpl; lia|].
  destruct (_ || _); [injection E as <-; simpl; lia|]. by destruct (take_unit t).
Qed.

(** More fuel than the text is long changes nothing: the loop never runs out. *)
Lemma parse_loop_enough n m d s :
  String.length s < n -> String.length s < m -> parse_loop n d s = parse_loop m d s.
Proof.
  revert m d s. induction n as [|n IH]; intros [|m] d s Hn Hm; try lia. cbn [parse_loop].
  destruct s as [|c s']; [done|]. set (s := String c s') in *. destruct (negb (Ascii.eqb c "." || is_digit c)); [done|].
  destruct (leadingInt 0 s) as [[v s1]|] eqn:E1; [|done]. apply leadingInt_length in E1.
  set (frac := match s1 with String "." t => _ | _ => _ end).
  assert (String.length (snd (fst frac)) <= String.length s1) as H2.
  { subst frac. destruct s1 as [|c1 t1]; [done|]. destruct c1 as [[] [] [] [] [] [] [] []]; try (simpl; lia).
    pose proof (leadingFraction_length 0 1 false t1). destruct (leadingFraction 0 1 false t1) as [[f sc] r]. simpl in *. lia. }
  destruct frac as [[[f sc] s2] post]. simpl in H2.
  destruct (_ && _); [done|]. destruct (take_unit s2) as [u s3] eqn:E3. destruct (String.eqb_spec u "") as [|Hu]; [done|].
  pose proof (take_unit_length _ _ _ E3 Hu). destruct (unitMap u); [|done].
  repeat (destruct (_ <? _)%Z; try done); apply IH; lia.
Qed.
