(* ===== verification/Classification.v ===== *)
(** Failure classification, [internal/reporting/classification.go]: the
    stage and signature the control plane infers from a verification's error
    text, the object-store details parsed out of it, and the predicates that
    separate harness problems from failures of the build under test. *)
From S2P Require Import Prelude GoStrings Regex Model.
From Stdlib Require Import Ascii.

(** * Constants *)

Definition SignatureRestoreTargetUnavailable := "restore_target_unavailable".
Definition SignatureRestoreS3ListRequestCanceled := "restore_s3_list_request_canceled".
Definition SignatureRestoreS3GetRequestCanceled := "restore_s3_get_request_canceled".
Definition objectStoreAPICodeRequestCanceled := "RequestCanceled".
Definition StageHarnessCapacity := "harness_capacity".
Definition SignatureHarnessCapacityInconclusive := "harness_capacity_inconclusive".
Definition SignatureReplicaLevelReportIncomplete := "replica_level_report_incomplete".
Definition SignatureLTXCoverageHole := "ltx_coverage_hole".
Definition SignatureLTXCoverageFloorUnknown := "ltx_coverage_floor_unknown".
Definition SignatureVFSSnapshotDrift := "vfs_snapshot_drift".
Definition SignatureVFSReadMismatch := "vfs_read_mismatch".
Definition SignatureWALResetRestoreFailed := "walreset_restore_failed".
Definition SignatureWALResetIntegrityFailed := "walreset_integrity_failed".
Definition SignatureWALResetLogicalMismatch := "walreset_logical_mismatch".
Definition walResetFailurePrefix := "wal reset ".
Definition StageHarnessLock := "harness_lock".
Definition SignatureRestoredComparisonLocked := "restored_comparison_locked".
Definition restoredComparisonMarker := "restored comparison:".
Definition soakFixtureSourceUsedPercent : float64 := f64_of_Z 95.
Definition diskTelemetryMaxAge : duration := Minute.

(** * Patterns *)

Definition re_alnum_run : re := RPlus (RChar is_alnum).
Definition re_spaces : re := RStar (RChar re_space).
Definition not_in (cs : string) (c : ascii) : bool := negb (str_mem c cs).
Definition not_space (c : ascii) : bool := negb (re_space c).

Definition s3OperationPattern : re :=
  RSeq (RLitI "operation error S3:") (RSeq re_spaces (RCap 1 re_alnum_run)).
Definition httpStatusPattern : re :=
  RSeq (RLitI "StatusCode:") (RSeq re_spaces (RCap 1 (RPlus (RChar is_digit)))).
Definition apiCodePattern : re :=
  RSeq (RLitI "api error")
    (RSeq (RPlus (RChar re_space)) (RSeq (RCap 1 re_alnum_run) (RLit ":"))).
Definition requestIDPattern : re :=
  RSeq (RLitI "RequestID:")
    (RSeq re_spaces (RCap 1 (RPlus (RChar (fun c => not_in "," c && not_space c))))).
Definition s3URLPattern : re :=
  RSeq (RLit "s3://")
    (RSeq (RCap 1 (RPlus (RChar (fun c => not_in "/" c && not_space c))))
      (RSeq (RLit "/")
        (RCap 2 (RPlus (RChar (fun c => negb (Ascii.eqb c "034") && not_in "'" c && not_space c)))))).
Definition pinnedRestoreTargetLostPattern : re :=
  RSeq (RLitI "restore target ")
    (RSeq (RAlt (RLitI "txid") (RLitI "timestamp"))
      (RSeq (RLitI " ") (RSeq (RPlus (RChar not_space)) (RLitI " is no longer available")))).
Definition restoreOutputDiskFullPattern : re :=
  RSeq (RAny [RLitI "write"; RLitI "open"; RLitI "create"; RLitI "rename"; RLitI "sync"; RLitI "truncate"])
    (RSeq (RLitI " ")
      (RSeq (RStar (RChar (fun c => not_space c && not_in ":" c)))
        (RSeq (RLitI ".restored")
          (RSeq (ROpt (RLitI ".pre"))
            (RSeq (ROpt (RLitI ".tmp"))
              (RSeq (ROpt (RAny [RLitI "-wal"; RLitI "-shm"; RLitI "-journal"]))
                (RLitI ": no space left on device"))))))).
Definition sqliteLockPattern : re :=
  RAny [RLitI "database is locked"; RLitI "database table is locked";
        RSeq RWordB (RSeq (RLitI "sqlite_busy") RWordB);
        RSeq RWordB (RSeq (RLitI "sqlite_locked") RWordB)].
Definition re_quote (q : ascii) : re :=
  RSeq (RChar (Ascii.eqb q))
    (RSeq (RPlus (RChar (fun c => negb (Ascii.eqb c q)))) (RChar (Ascii.eqb q))).
Definition keyValuePattern : re :=
  RSeq RWordB
    (RSeq (RCap 1 (RAny [RLitI "operation"; RLitI "http_status"; RLitI "api_code"; RLitI "request_id";
                         RLitI "bucket"; RLitI "prefix"; RLitI "phase"]))
      (RSeq (RLit "=")
        (RCap 2 (RAny [re_quote "034"; re_quote "'";
                       RPlus (RChar (fun c => not_space c && not_in "," c))])))).

(** * Helpers *)

Fixpoint firstNonEmpty (values : list string) : string :=
  match values with
  | [] => ""
  | v :: rest => let v := TrimSpace v in if v =s "" then firstNonEmpty rest else v
  end.

Definition firstRegexMatch (pattern : re) (text : string) : string :=
  match FindSubmatch pattern text with
  | Some caps => match group 1 caps with Some g => TrimSpace g | None => "" end
  | None => ""
  end.

Definition isDiskCapacityFailure (text : string) : bool :=
  Contains text "no space left on device" || Contains text "database or disk is full" ||
  Contains text "disk is full" || Contains text "enospc" || Contains text "sqlite_full".

Definition IsDiskCapacityMessage (message : string) : bool := isDiskCapacityFailure (ToLower message).

Definition isS3TransportFailure (text : string) : bool :=
  if negb (Contains text "replica sync") && negb (Contains text "replica_sync") then false
  else Contains text "unexpected eof" || Contains text "statuscode: 0" ||
       Contains text "retry quota exceeded" || Contains text "context deadline exceeded".

Definition signatureStagePrefix (stage : string) : string :=
  if stage =s "sync" then "sync" else "restore".

Definition inferRestorePhase (text : string) : string :=
  if Contains text "get ltx time bounds" || Contains text "time bounds" then "TimeBounds"
  else if Contains text "calc restore plan" || Contains text "restore plan" then "CalcRestorePlan"
  else if Contains text "getobject" || Contains text "object fetch" || Contains text "download"
  then "ObjectFetch"
  else if Contains text "read page header" || Contains text "decode" || Contains text "unexpected eof"
  then "Decode"
  else if Contains text "integrity" || Contains text "wrong # of entries in index"
  then "IntegrityCheck"
  else if Contains text "restore" then "Restore"
  else "".

Fixpoint firstMeaningful (lines : list string) : string :=
  match lines with
  | [] => "unknown_failure"
  | line :: rest =>
      let line := TrimSpace line in
      if line =s "" then firstMeaningful rest
      else if (120 <? str_len line)%Z then str_take 120 line else line
  end.
Definition firstMeaningfulLine (msg : string) : string := firstMeaningful (Split newline msg).

Definition restoreReplanFailureSignature (text : string) : string :=
  if Contains text "restore plan retries exhausted" then "restore_plan_retries_exhausted"
  else if Contains text "no matching backup files available" ||
          Contains text "transaction not available" ||
          HasSuffix (Trim text (" ." +:+ String "034" "'")) "cannot recalculate restore plan"
  then SignatureRestoreTargetUnavailable
  else if Contains text "cannot recalculate restore plan" then "restore_plan_recalculation_failed"
  else "".

(** * Stage and signature *)

Definition InferFailureStage (checkType errorMessage : string) : string :=
  let text := ToLower errorMessage in
  if isDiskCapacityFailure text then "disk_capacity"
  else if HasPrefix text walResetFailurePrefix && negb (TrimSpace checkType =s "")
  then TrimSpace checkType
  else if Contains text "wait for sync" || Contains text "sync request" ||
          Contains text "decode sync response" || Contains text "litestream.sock"
  then "sync"
  else if Contains text "no matching backup files available" ||
          Contains text "transaction not available" || Contains text "restore failed" ||
          Contains text "check_type=restore" || Contains text "get ltx time bounds" ||
          Contains text "restore plan" || Contains text "calc restore" ||
          Contains text "read page header" || Contains text "open ltx file" ||
          Contains text "no such key" || Contains text "missing ltx"
  then "restore"
  else if Contains text "integrity check" || Contains text "check_type=integrity_check" ||
          Contains text "wrong # of entries in index"
  then "integrity_check"
  else if Contains text "validation failed" then "validation"
  else if Contains text "decode" || Contains text "unexpected eof" || Contains text "checksum mismatch"
  then "restore"
  else if negb (TrimSpace checkType =s "") then TrimSpace checkType
  else "".

Definition inferFailureSignature (stage text original : string) : string :=
  if isDiskCapacityFailure text then "disk_capacity_full"
  else if HasPrefix text (walResetFailurePrefix +:+ "restore failed") then SignatureWALResetRestoreFailed
  else if HasPrefix text (walResetFailurePrefix +:+ "integrity failed") then SignatureWALResetIntegrityFailed
  else if HasPrefix text (walResetFailurePrefix +:+ "logical mismatch") then SignatureWALResetLogicalMismatch
  else if (stage =s "sync") && isS3TransportFailure text then "s3_transport"
  else if Contains text "latest restore behind boundary" then "latest_restore_behind_boundary"
  else if Contains text "wait for db sync executor" then "litestream_db_sync_executor_timeout"
  else if Contains text "litestream.sock" && Contains text "too many open files"
  then "litestream_sync_fd_exhausted"
  else if Contains text "litestream.sock" && Contains text "connect: connection refused"
  then "litestream_sync_socket_refused"
  else if Contains text "wait for sync" &&
          (Contains text "context deadline exceeded" || Contains text "client.timeout exceeded")
  then "litestream_sync_timeout"
  else if negb (restoreReplanFailureSignature text =s "") then restoreReplanFailureSignature text
  else if Contains text "wrong # of entries in index" then "sqlite_index_mismatch"
  else if Contains text "open ltx file: file does not exist" || Contains text "no such key" ||
          Contains text "missing ltx"
  then signatureStagePrefix stage +:+ "_missing_ltx"
  else if Contains text "read page header" || Contains text "decode" ||
          Contains text "unexpected eof" || Contains text "checksum mismatch"
  then signatureStagePrefix stage +:+ "_decode_error"
  else if Contains text "restore plan" || Contains text "calc restore"
  then signatureStagePrefix stage +:+ "_plan_failed"
  else if Contains text "ltx coverage hole" then SignatureLTXCoverageHole
  else if Contains text "vfs snapshot drift" then SignatureVFSSnapshotDrift
  else if Contains text "vfs read mismatch" then SignatureVFSReadMismatch
  else if Contains text "ltx continuity" then "ltx_continuity"
  else if Contains text "validation failed" then "validation_failed"
  else firstMeaningfulLine original.

Definition objectStoreSignature (stage : string) (failure : ObjectStoreFailure) : string :=
  let prefix := signatureStagePrefix stage in
  let operation := ToLower (os_Operation failure) in
  let apiCode := ToLower (os_APICode failure) in
  let status := os_HTTPStatus failure in
  if (apiCode =s "nosuchbucket") || ((operation =s "listobjectsv2") && (status =? 404)%Z)
  then prefix +:+ "_s3_bucket_missing"
  else if (apiCode =s "slowdown") || (status =? 503)%Z then prefix +:+ "_s3_slowdown"
  else if (operation =s "listobjectsv2") && ((status =? 408)%Z || (apiCode =s "requestcanceled"))
  then prefix +:+ "_s3_list_request_canceled"
  else if (operation =s "getobject") && ((status =? 408)%Z || (apiCode =s "requestcanceled"))
  then prefix +:+ "_s3_get_request_canceled"
  else if (status =? 403)%Z || (apiCode =s "accessdenied") then prefix +:+ "_s3_access_denied"
  else if operation =s "listobjectsv2" then prefix +:+ "_s3_list_failed"
  else if operation =s "getobject" then prefix +:+ "_s3_get_failed"
  else prefix +:+ "_s3_failed".

(** * Object-store details *)

Definition RedactObjectPrefix (prefix : string) : string :=
  let prefix := Trim (TrimSpace prefix) "/" in
  if prefix =s "" then ""
  else let parts := Split "/" prefix in
       if (length parts <=? 2) then prefix
       else default "" (head parts) +:+ "/.../" +:+ default "" (last parts).

Definition applyObjectStoreKeyValue (failure : ObjectStoreFailure) (caps : list (nat * string))
  : ObjectStoreFailure :=
  let key := ToLower (default "" (group 1 caps)) in
  let value := Trim (TrimSpace (default "" (group 2 caps))) (String "034" "'") in
  if key =s "operation" then failure <| os_Operation := firstNonEmpty [value; os_Operation failure] |>
  else if key =s "http_status" then
    let '(status, ok) := Atoi value in
    if ok && (os_HTTPStatus failure =? 0)%Z then failure <| os_HTTPStatus := status |> else failure
  else if key =s "api_code" then failure <| os_APICode := firstNonEmpty [value; os_APICode failure] |>
  else if key =s "request_id" then failure <| os_RequestID := firstNonEmpty [value; os_RequestID failure] |>
  else if key =s "bucket" then failure <| os_Bucket := firstNonEmpty [value; os_Bucket failure] |>
  else if key =s "prefix" then
    let failure := failure <| os_Prefix := firstNonEmpty [Trim value "/"; os_Prefix failure] |> in
    failure <| os_RedactedPrefix := RedactObjectPrefix (os_Prefix failure) |>
  else if key =s "phase" then failure <| os_Phase := firstNonEmpty [value; os_Phase failure] |>
  else failure.

Definition applyObjectStoreKeyValues (failure : ObjectStoreFailure) (errorMessage : string)
  : ObjectStoreFailure :=
  fold_left applyObjectStoreKeyValue (FindAllSubmatch keyValuePattern errorMessage) failure.

Definition ParseObjectStoreFailure (errorMessage : string) : option ObjectStoreFailure :=
  let text := ToLower errorMessage in
  if negb (Contains text "operation error s3") && negb (Contains text "listobjectsv2") &&
     negb (Contains text "getobject") && negb (Contains text "requestcanceled") &&
     negb (Contains text "accessdenied") && negb (Contains text "nosuchbucket") &&
     negb (Contains text "slowdown")
  then None
  else
    let failure := ObjectStoreFailure_zero
      <| os_Operation := firstRegexMatch s3OperationPattern errorMessage |>
      <| os_APICode := firstRegexMatch apiCodePattern errorMessage |>
      <| os_RequestID := firstRegexMatch requestIDPattern errorMessage |>
      <| os_Phase := inferRestorePhase text |> in
    let failure := applyObjectStoreKeyValues failure errorMessage in
    let failure :=
      if os_Operation failure =s "" then
        if Contains text "listobjectsv2" then failure <| os_Operation := "ListObjectsV2" |>
        else if Contains text "getobject" then failure <| os_Operation := "GetObject" |>
        else failure
      else failure in
    let failure :=
      let m := firstRegexMatch httpStatusPattern errorMessage in
      if m =s "" then failure else failure <| os_HTTPStatus := fst (Atoi m) |> in
    let failure :=
      match FindSubmatch s3URLPattern errorMessage with
      | None => failure
      | Some caps =>
          let prefix := Trim (default "" (group 2 caps)) "/" in
          failure <| os_Bucket := default "" (group 1 caps) |>
                  <| os_Prefix := prefix |>
                  <| os_RedactedPrefix := RedactObjectPrefix prefix |>
      end in
    if (os_Operation failure =s "") && (os_HTTPStatus failure =? 0)%Z &&
       (os_APICode failure =s "") && (os_RequestID failure =s "")
    then None else Some failure.

(** * Restore output *)

(** One line of the [RestoreErrorOutput] loop: the lines kept so far and
    whether the final error block has started. *)
Definition restoreErrorStep (st : list string * bool) (raw : string) : list string * bool :=
  let '(lines, finalBlock) := st in
  let continuation := HasPrefix raw " " || HasPrefix raw (String "009" "") in
  let line := TrimSpace raw in
  if line =s "" then st
  else
    let lower := ToLower line in
    if Contains lower "level=debug" || Contains lower "level=info" || Contains lower "level=warn" then st
    else
      let startsError := HasPrefix lower "error:" || Contains lower "level=error" in
      let lines := if startsError || (negb finalBlock && negb continuation) then [] else lines in
      let line := if continuation && (0 <? length lines) then "  " +:+ line else line in
      (lines ++ [line], finalBlock || startsError).

Definition RestoreErrorOutput (output : string) : string :=
  Join (fst (fold_left restoreErrorStep (Split newline output) ([], false))) (String newline "").

(** * Classification *)

Definition Valid (c : option FailureClassification) : bool :=
  match c with
  | None => false
  | Some c =>
      let stage := TrimSpace (fc_Stage c) in
      let signature := TrimSpace (fc_Signature c) in
      if (stage =s "") || (signature =s "") || negb (stage =s fc_Stage c) ||
         negb (signature =s fc_Signature c)
      then false
      else if match fc_ObjectStore c with
              | Some _ => negb (stage =s "sync") && negb (stage =s "restore")
              | None => false end
      then false
      else if match fc_Restore c with Some _ => negb (stage =s "restore") | None => false end
      then false
      else if (signature =s "disk_capacity_full") || (signature =s "soak_fixture_disk_exhausted")
      then (stage =s "disk_capacity") && negb (bool_decide (is_Some (fc_ObjectStore c))) &&
           negb (bool_decide (is_Some (fc_Restore c)))
      else negb (stage =s "disk_capacity")
  end.

Definition RestoredComparisonLocked (errorMessage : string) : bool :=
  match LastIndex (ToLower errorMessage) restoredComparisonMarker with
  | None => false
  | Some index =>
      let detail := ToLower (str_drop (index + String.length restoredComparisonMarker) errorMessage) in
      if Contains detail "mismatch" || Contains detail "missing" then false
      else MatchString sqliteLockPattern detail
  end.

(** The text that is classified: the final error block of a multi-line log. *)
Definition classifiedMessage (errorMessage : string) : string :=
  if Contains errorMessage (String newline "") && Contains (ToLower errorMessage) "level="
  then RestoreErrorOutput errorMessage else errorMessage.

Definition ClassifyVerificationFailure (checkType errorMessage : string) : FailureClassification :=
  let errorMessage := classifiedMessage errorMessage in
  let text := ToLower errorMessage in
  let classification := FailureClassification_zero <| fc_Stage := InferFailureStage checkType errorMessage |> in
  if isDiskCapacityFailure text
  then classification <| fc_Stage := "disk_capacity" |> <| fc_Signature := "disk_capacity_full" |>
  else if RestoredComparisonLocked errorMessage
  then classification <| fc_Stage := StageHarnessLock |>
                      <| fc_Signature := SignatureRestoredComparisonLocked |>
  else
    let objectStore := ParseObjectStoreFailure errorMessage in
    let classification :=
      if bool_decide (is_Some objectStore) &&
         negb (fc_Stage classification =s "sync") && negb (fc_Stage classification =s "restore")
      then classification <| fc_Stage := "restore" |> else classification in
    let s3Transport := (fc_Stage classification =s "sync") && isS3TransportFailure text in
    let classification := classification
      <| fc_Signature := inferFailureSignature (fc_Stage classification) text errorMessage |> in
    let classification :=
      match objectStore with
      | None => classification
      | Some os =>
          let os := os <| os_Phase := firstNonEmpty [os_Phase os; inferRestorePhase text] |> in
          let classification := classification <| fc_ObjectStore := Some os |> in
          if s3Transport then classification <| fc_Signature := "s3_transport" |>
          else
            let signature := objectStoreSignature (fc_Stage classification) os in
            if signature =s "" then classification
            else classification <| fc_Signature := signature |>
      end in
    if fc_Stage classification =s "restore"
    then classification <| fc_Restore := Some (mkRestoreFailure (inferRestorePhase text)) |>
    else classification.

(** * Runtime-aware classification *)

Definition IsManyDBProfile (profileName : string) : bool :=
  let profileName := TrimSpace profileName in
  (profileName =s "sentinel-manydb") || HasPrefix profileName "many-dbs-".

(** The sum and whether it is representable; [int64] operands. *)
Definition sumSourceDataBytes (dbBytes walBytes : Z) : Z * bool :=
  if (dbBytes <? 0)%Z || (walBytes <? 0)%Z || (max_int64 - walBytes <? dbBytes)%Z
  then (0%Z, false)
  else (uint64 (int64 (dbBytes + walBytes)), true).

Definition soakSourceDataBytes (runtime : RuntimePayload) : Z * bool :=
  if negb (rt_DBTotalSizeBytes runtime =? 0)%Z || negb (rt_WALTotalSizeBytes runtime =? 0)%Z
  then sumSourceDataBytes (rt_DBTotalSizeBytes runtime) (rt_WALTotalSizeBytes runtime)
  else sumSourceDataBytes (rt_DBSizeBytes runtime) (rt_WALSizeBytes runtime).

Definition soakFixtureExhaustedDisk (runtime : option RuntimePayload) (observedAt : time) : bool :=
  match runtime with
  | None => false
  | Some runtime =>
      if IsZero observedAt || IsZero (rt_SnapshotCollectedAt runtime) ||
         (rt_DataDiskUsedBytes runtime =? 0)%Z
      then false
      else
        let age := time_Sub observedAt (rt_SnapshotCollectedAt runtime) in
        if (age <? - diskTelemetryMaxAge)%Z || (diskTelemetryMaxAge <? age)%Z then false
        else
          let '(sourceBytes, ok) := soakSourceDataBytes runtime in
          if negb ok || (sourceBytes =? 0)%Z || (rt_DataDiskUsedBytes runtime <? sourceBytes)%Z
          then false
          else f64_leb soakFixtureSourceUsedPercent
                 (f64_mul (f64_div (f64_of_Z sourceBytes) (f64_of_Z (rt_DataDiskUsedBytes runtime)))
                          (f64_of_Z 100))
  end.

Definition ClassifyVerificationFailureWithRuntime (checkType errorMessage profileName : string)
    (runtime : option RuntimePayload) (observedAt : time) : FailureClassification :=
  let classification := ClassifyVerificationFailure checkType errorMessage in
  if negb (IsManyDBProfile profileName) then classification
  else if negb (fc_Signature classification =s "disk_capacity_full") &&
          negb (Contains (ToLower errorMessage) "disk full")
  then classification
  else
    let classification := classification <| fc_Stage := "disk_capacity" |>
                                         <| fc_Signature := "disk_capacity_full" |> in
    if soakFixtureExhaustedDisk runtime observedAt
    then classification <| fc_Signature := "soak_fixture_disk_exhausted" |>
    else classification.

(** * Predicates on messages *)

Definition PinnedRestoreTargetUnavailable (restoreMode errorMessage : string) : bool :=
  if EqualFold (TrimSpace restoreMode) "latest" then false
  else if negb (MatchString pinnedRestoreTargetLostPattern errorMessage) then false
  else
    let classification := ClassifyVerificationFailure "restore_validate" errorMessage in
    (fc_Stage classification =s "restore") &&
    (fc_Signature classification =s SignatureRestoreTargetUnavailable).

Definition RestoreOutputDiskFullPath (message : string) : bool :=
  MatchString restoreOutputDiskFullPattern message.

Definition RestoreOutputDiskFull (errorMessage : string) : bool :=
  if negb (RestoreOutputDiskFullPath errorMessage) then false
  else (InferFailureStage "restore_validate" errorMessage =s "restore") ||
       Contains (ToLower errorMessage) "restore failed".

Definition HarnessCapacityClassification (restoreMode : string) : FailureClassification :=
  FailureClassification_zero <| fc_Stage := StageHarnessCapacity |>
    <| fc_Signature := SignatureHarnessCapacityInconclusive |> <| fc_RestoreMode := restoreMode |>.

Definition RestoredComparisonLockedClassification (restoreMode : string) : FailureClassification :=
  FailureClassification_zero <| fc_Stage := StageHarnessLock |>
    <| fc_Signature := SignatureRestoredComparisonLocked |> <| fc_RestoreMode := restoreMode |>.

Definition RestoreRequestCanceled (errorMessage : string) : bool :=
  let classification := ClassifyVerificationFailure "restore_validate" errorMessage in
  match fc_ObjectStore classification with
  | None => false
  | Some os =>
      if negb (fc_Stage classification =s "restore") then false
      else if negb (fc_Signature classification =s SignatureRestoreS3ListRequestCanceled) &&
              negb (fc_Signature classification =s SignatureRestoreS3GetRequestCanceled)
      then false
      else (os_HTTPStatus os =? 408)%Z &&
           EqualFold (TrimSpace (os_APICode os)) objectStoreAPICodeRequestCanceled
  end.

(** * Properties *)

Ltac split_ifs :=
  repeat match goal with
         | |- context [if ?b then _ else _] => destruct b eqn:?
         end.

Ltac split_ifs_in H :=
  repeat match type of H with
         | context [if ?b then _ else _] => destruct b eqn:?
         end.

Lemma str_take_nonempty n s : s <> "" -> str_take (S n) s <> "".
Proof. by destruct s. Qed.

Lemma firstMeaningfulLine_nonempty msg : firstMeaningfulLine msg <> "".
Proof.
  unfold firstMeaningfulLine. induction (Split newline msg) as [|l ls IH]; simpl; [done|].
  destruct (eqs_spec (TrimSpace l) ""); [done|].
  destruct (120 <? _)%Z; [by apply (str_take_nonempty 119)|done].
Qed.

Lemma append_nonempty a b : a <> "" -> a +:+ b <> "".
Proof. by destruct a. Qed.

Lemma signatureStagePrefix_nonempty stage : signatureStagePrefix stage <> "".
Proof. unfold signatureStagePrefix. by destruct (stage =s "sync"). Qed.

Lemma inferFailureSignature_nonempty stage text original :
  inferFailureSignature stage text original <> "".
Proof.
  unfold inferFailureSignature.
  split_ifs; try done;
    try (by apply append_nonempty, signatureStagePrefix_nonempty);
    try apply firstMeaningfulLine_nonempty.
  match goal with H : negb (?s =s "") = true |- _ =>
    intros E; rewrite E in H; discriminate H end.
Qed.

Lemma objectStoreSignature_nonempty stage failure : objectStoreSignature stage failure <> "".
Proof.
  unfold objectStoreSignature.
  split_ifs; apply append_nonempty, signatureStagePrefix_nonempty.
Qed.

Lemma InferFailureStage_trimmed ct msg :
  TrimSpace (InferFailureStage ct msg) = InferFailureStage ct msg.
Proof. unfold InferFailureStage. split_ifs; try reflexivity; apply TrimSpace_idem. Qed.

(** The classification after the two early returns, with the stage resolved
    against the object-store failure found in the text. *)
Definition resolvedStage (ct msg : string) : string :=
  let stage := InferFailureStage ct msg in
  if bool_decide (is_Some (ParseObjectStoreFailure msg)) &&
     negb (stage =s "sync") && negb (stage =s "restore")
  then "restore" else stage.

(** What [ClassifyVerificationFailure] returns on each of its three exits. *)
Lemma ClassifyVerificationFailure_cases ct msg :
  let c := ClassifyVerificationFailure ct msg in
  let m := classifiedMessage msg in
  (isDiskCapacityFailure (ToLower m) = true /\
   c = mkFailureClassification "disk_capacity" "disk_capacity_full" None None "") \/
  (isDiskCapacityFailure (ToLower m) = false /\ RestoredComparisonLocked m = true /\
   c = mkFailureClassification StageHarnessLock SignatureRestoredComparisonLocked None None "") \/
  (isDiskCapacityFailure (ToLower m) = false /\ RestoredComparisonLocked m = false /\
   fc_Stage c = resolvedStage ct m /\ fc_Signature c <> "" /\
   (is_Some (fc_ObjectStore c) <-> is_Some (ParseObjectStoreFailure m)) /\
   (is_Some (fc_Restore c) <-> resolvedStage ct m = "restore")).
Proof.
  unfold ClassifyVerificationFailure. cbv zeta. set (m := classifiedMessage msg).
  destruct (isDiskCapacityFailure (ToLower m)) eqn:ED; [left; done|].
  destruct (RestoredComparisonLocked m) eqn:EL; [right; left; done|].
  right; right. do 2 (split; [done|]).
  change (fc_Stage FailureClassification_zero <| fc_Stage := InferFailureStage ct m |>)
    with (InferFailureStage ct m).
  unfold resolvedStage.
  destruct (ParseObjectStoreFailure m) as [os|] eqn:EP; cbn [is_Some]; simpl bool_decide.
  - pose proof (objectStoreSignature_nonempty) as Hne.
    destruct (InferFailureStage ct m =s "sync") eqn:E1;
      destruct (InferFailureStage ct m =s "restore") eqn:E2;
      apply eqs_true in E1 || apply eqs_false in E1;
      apply eqs_true in E2 || apply eqs_false in E2;
      try congruence; simpl;
      rewrite ?E1, ?E2; simpl; split_ifs; simpl;
      (split; [done|split; [first [done|apply Hne|apply inferFailureSignature_nonempty]|]]);
      (split; [split; eauto|]); split; try done; try (by eexists); try (by intros [? ?]).
  - simpl. destruct (InferFailureStage ct m =s "restore") eqn:E2; simpl.
    + apply eqs_true in E2. rewrite E2. simpl.
      split; [done|]. split; [apply inferFailureSignature_nonempty|].
      split; [done|]. split; [done|]. by eexists.
    + apply eqs_false in E2. split; [done|]. split; [apply inferFailureSignature_nonempty|].
      split; [done|]. split; [by intros [? ?]|done].
Qed.

Lemma resolvedStage_object ct m :
  is_Some (ParseObjectStoreFailure m) -> resolvedStage ct m = "sync" \/ resolvedStage ct m = "restore".
Proof.
  intros H. unfold resolvedStage. rewrite bool_decide_true by done.
  destruct (eqs_spec (InferFailureStage ct m) "sync"); [by left|].
  destruct (eqs_spec (InferFailureStage ct m) "restore"); [by right|]. by right.
Qed.

Lemma resolvedStage_trimmed ct m : TrimSpace (resolvedStage ct m) = resolvedStage ct m.
Proof. unfold resolvedStage. split_ifs; [done|apply InferFailureStage_trimmed]. Qed.

Lemma classify_stage_trimmed ct msg :
  TrimSpace (fc_Stage (ClassifyVerificationFailure ct msg)) =
  fc_Stage (ClassifyVerificationFailure ct msg).
Proof.
  destruct (ClassifyVerificationFailure_cases ct msg) as [[_ ->]|[(_ & _ & ->)|(_ & _ & -> & _)]];
    [done|done|apply resolvedStage_trimmed].
Qed.

Lemma classify_signature_nonempty ct msg :
  fc_Signature (ClassifyVerificationFailure ct msg) <> "".
Proof.
  by destruct (ClassifyVerificationFailure_cases ct msg) as [[_ ->]|[(_ & _ & ->)|(_ & _ & _ & ? & _)]].
Qed.

Lemma classify_details_stage ct msg :
  let c := ClassifyVerificationFailure ct msg in
  (is_Some (fc_ObjectStore c) -> fc_Stage c = "sync" \/ fc_Stage c = "restore") /\
  (is_Some (fc_Restore c) <-> fc_Stage c = "restore").
Proof.
  intros c. unfold c.
  destruct (ClassifyVerificationFailure_cases ct msg)
    as [[_ ->]|[(_ & _ & ->)|(_ & _ & ES & _ & HO & HR)]].
  - split; [by intros [? ?]|]. split; [by intros [? ?]|done].
  - split; [by intros [? ?]|]. split; [by intros [? ?]|done].
  - rewrite HO, HR, ES. split; [apply resolvedStage_object|done].
Qed.

Lemma classify_disk ct msg :
  IsDiskCapacityMessage (classifiedMessage msg) = true ->
  ClassifyVerificationFailure ct msg =
  mkFailureClassification "disk_capacity" "disk_capacity_full" None None "".
Proof.
  unfold IsDiskCapacityMessage. intros H.
  destruct (ClassifyVerificationFailure_cases ct msg) as [[_ ->]|[(E & _)|(E & _)]];
    [done|congruence|congruence].
Qed.

(** Every classification is internally consistent: object-store details
    appear only on the sync and restore stages, the restore phase appears
    exactly on the restore stage, the signature is never empty, and a message
    that reports a full disk is always [disk_capacity]/[disk_capacity_full]
    with no object-store or restore details attached. *)
Theorem classify_consistent ct msg :
  let c := ClassifyVerificationFailure ct msg in
  (is_Some (fc_ObjectStore c) -> fc_Stage c = "sync" \/ fc_Stage c = "restore") /\
  (is_Some (fc_Restore c) <-> fc_Stage c = "restore") /\
  fc_Signature c <> "" /\
  (IsDiskCapacityMessage (classifiedMessage msg) = true ->
   c = mkFailureClassification "disk_capacity" "disk_capacity_full" None None "").
Proof.
  intros c. destruct (classify_details_stage ct msg) as [HO HR].
  split_and!; [done|done|apply classify_signature_nonempty|apply classify_disk].
Qed.

(** A computed classification survives the store's [Valid] filter exactly
    when its stage is known, its signature carries no surrounding space, and
    the disk-capacity stage and signatures go together. *)
Theorem classify_valid_iff ct msg :
  let c := ClassifyVerificationFailure ct msg in
  Valid (Some c) = true <->
  fc_Stage c <> "" /\ TrimSpace (fc_Signature c) = fc_Signature c /\
  (fc_Stage c = "disk_capacity" <->
   fc_Signature c = "disk_capacity_full" \/ fc_Signature c = "soak_fixture_disk_exhausted").
Proof.
  intros c.
  pose proof (classify_stage_trimmed ct msg) as Ht. pose proof (classify_signature_nonempty ct msg) as Hs.
  destruct (classify_details_stage ct msg) as [HO HR]. fold c in Ht, Hs, HO, HR.
  unfold Valid. rewrite Ht, eqs_refl.
  destruct (eqs_spec (fc_Stage c) "") as [E|Hst]; [simpl; naive_solver|].
  destruct (eqs_spec (TrimSpace (fc_Signature c)) (fc_Signature c)) as [Hsig|Hsig]; simpl.
  2: { rewrite orb_true_r. naive_solver. }
  rewrite Hsig. destruct (eqs_spec (fc_Signature c) ""); [done|]. simpl.
  assert (match fc_ObjectStore c with
          | Some _ => negb (fc_Stage c =s "sync") && negb (fc_Stage c =s "restore")
          | None => false end = false) as ->.
  { destruct (fc_ObjectStore c); [|done]. by destruct HO as [-> | ->]. }
  assert (match fc_Restore c with Some _ => negb (fc_Stage c =s "restore") | None => false end
          = false) as ->.
  { destruct (fc_Restore c); [|done]. by rewrite (proj1 HR). }
  destruct (eqs_spec (fc_Stage c) "disk_capacity") as [Ed|Ed]; simpl.
  - assert (fc_ObjectStore c = None) as ->.
    { destruct (fc_ObjectStore c); [|done]. destruct HO as [E|E]; [done| |]; congruence. }
    assert (fc_Restore c = None) as ->.
    { destruct (fc_Restore c); [|done]. rewrite (proj1 HR) in Ed by done. done. }
    rewrite !bool_decide_false by (by intros [? ?]). simpl.
    destruct (eqs_spec (fc_Signature c) "disk_capacity_full");
      destruct (eqs_spec (fc_Signature c) "soak_fixture_disk_exhausted"); simpl; naive_solver.
  - destruct (eqs_spec (fc_Signature c) "disk_capacity_full");
      destruct (eqs_spec (fc_Signature c) "soak_fixture_disk_exhausted"); simpl; naive_solver.
Qed.

Fixpoint str_repeat (n : nat) (s : string) : string :=
  match n with O => "" | S n => s +:+ str_repeat n s end.

(** The runtime-aware classifier can return a disk classification that
    its own [Valid] check rejects: on a many-database profile a restore
    failure that mentions a full disk keeps the restore details while its
    stage becomes [disk_capacity], so the stored classification is dropped. *)
Theorem runtime_classification_rejected :
  exists msg rt now,
    let c := ClassifyVerificationFailureWithRuntime "restore_validate" msg "sentinel-manydb" (Some rt) now in
    fc_Stage c = "disk_capacity" /\ fc_Signature c = "soak_fixture_disk_exhausted" /\
    Valid (Some c) = false.
Proof.
  exists "restore failed: stage-write ltx file: disk full: write header",
    (RuntimePayload_zero <| rt_SnapshotCollectedAt := 1000%Z |> <| rt_DataDiskUsedBytes := 100%Z |>
       <| rt_DBTotalSizeBytes := 97%Z |>), 1000%Z.
  vm_compute. done.
Qed.

(** A signature cut at 120 bytes is not trimmed again, so a message whose
    120th byte is a space yields a classification that [Valid] rejects. *)
Theorem truncated_signature_rejected :
  exists msg, let c := ClassifyVerificationFailure "restore_validate" msg in
    fc_Stage c = "restore_validate" /\ str_len (fc_Signature c) = 120%Z /\ Valid (Some c) = false.
Proof. exists (str_repeat 119 "x" +:+ " " +:+ "yyyy"). vm_compute. done. Qed.

(** ** Restore output *)

Definition noisyLine (lower : string) : bool :=
  Contains lower "level=debug" || Contains lower "level=info" || Contains lower "level=warn".
Definition errorLine (raw : string) : bool :=
  let lower := ToLower (TrimSpace raw) in
  negb (TrimSpace raw =s "") && negb (noisyLine lower) &&
  (HasPrefix lower "error:" || Contains lower "level=error").

Lemma str_map_app f a b : str_map f (a +:+ b) = str_map f a +:+ str_map f b.
Proof. induction a as [|c a IH]; [done|]. rewrite append_cons. simpl. by rewrite IH. Qed.

Lemma Contains_two_spaces s sub c :
  sub <> "" -> head_char sub = Some c -> c <> " "%char ->
  Contains ("  " +:+ s) sub = Contains s sub.
Proof.
  intros Hne Hc Hsp. destruct sub as [|d sub]; [done|]. injection Hc as ->.
  rewrite !append_cons, append_nil_l. cbn [Contains String.prefix].
  destruct (ascii_dec c " "); [done|]. simpl. by destruct s.
Qed.

Lemma noisyLine_indent l : noisyLine (ToLower ("  " +:+ l)) = noisyLine (ToLower l).
Proof.
  unfold noisyLine, ToLower. rewrite str_map_app. change (str_map lower_char "  ") with "  ".
  by rewrite !(Contains_two_spaces _ _ "l"%char).
Qed.

(** The state of the loop: what every kept line satisfies, and what the first
    kept line is once the final error block has started. *)
Definition restoreOutputInv (st : list string * bool) (seen : bool) : Prop :=
  Forall (fun l => l <> "" /\ noisyLine (ToLower l) = false) (fst st) /\
  snd st = seen /\
  (seen = true -> exists l rest, fst st = l :: rest /\
     (HasPrefix (ToLower l) "error:" || Contains (ToLower l) "level=error") = true).

Lemma restoreErrorStep_inv st raw seen :
  restoreOutputInv st seen -> restoreOutputInv (restoreErrorStep st raw) (seen || errorLine raw).
Proof.
  destruct st as [lines fb]. intros (HF & Hs & Hh). simpl in HF, Hs, Hh. subst fb.
  unfold restoreErrorStep, errorLine. fold (noisyLine (ToLower (TrimSpace raw))).
  destruct (eqs_spec (TrimSpace raw) "") as [E|Hne]; [rewrite orb_false_r; by split_and!|].
  destruct (noisyLine (ToLower (TrimSpace raw))) eqn:EN; [rewrite orb_false_r; by split_and!|].
  simpl. set (se := HasPrefix _ "error:" || Contains _ "level=error").
  set (cont := HasPrefix raw " " || _).
  destruct (se || negb seen && negb cont) eqn:ER; simpl.
  - rewrite andb_false_r. split_and!; simpl; [by repeat constructor|done|].
    intros H. exists (TrimSpace raw), []. split; [done|]. fold se.
    destruct se; [done|]. destruct seen; simpl in *; done.
  - apply orb_false_iff in ER as [Ese ER]. rewrite Ese, !orb_false_r.
    split_and!; simpl; [|done|].
    + apply Forall_app. split; [done|]. repeat constructor.
      * by destruct (cont && _).
      * destruct (cont && _); [by rewrite noisyLine_indent|done].
    + intros ->. destruct Hh as (l & rest & -> & Hl); [done|]. by exists l, (rest ++ [if cont && true then "  " +:+ TrimSpace raw else TrimSpace raw]).
Qed.

Lemma restoreErrorFold_inv lines st seen :
  restoreOutputInv st seen ->
  restoreOutputInv (fold_left restoreErrorStep lines st) (seen || existsb errorLine lines).
Proof.
  revert st seen. induction lines as [|l ls IH]; intros st seen H; simpl.
  - by rewrite orb_false_r.
  - rewrite orb_assoc. by apply IH, restoreErrorStep_inv.
Qed.

(** The restore output that is classified keeps no blank, debug, info or
    warning line, and when the log holds an error line the kept block starts
    with one. *)
Theorem restore_output_lines output :
  exists kept, RestoreErrorOutput output = Join kept (String newline "") /\
    Forall (fun l => l <> "" /\ noisyLine (ToLower l) = false) kept /\
    (existsb errorLine (Split newline output) = true ->
     exists l rest, kept = l :: rest /\
       (HasPrefix (ToLower l) "error:" || Contains (ToLower l) "level=error") = true).
Proof.
  exists (fst (fold_left restoreErrorStep (Split newline output) ([], false))).
  split; [done|].
  destruct (restoreErrorFold_inv (Split newline output) ([], false) false) as (HF & _ & Hh).
  - by split_and!.
  - by split.
Qed.

(** ** Redaction *)

Definition is_slash (c : ascii) : bool := str_mem c "/".

Lemma is_slash_eqb c : is_slash c = Ascii.eqb c "/".
Proof. unfold is_slash. simpl. by rewrite orb_false_r. Qed.

Fixpoint str_forall (f : ascii -> bool) (s : string) : bool :=
  match s with EmptyString => true | String c t => f c && str_forall f t end.

Lemma trim_right_none f s : str_forall (fun c => negb (f c)) s = true -> trim_right f s = s.
Proof.
  induction s as [|c s IH]; simpl; [done|]. intros [Hc Hs]%andb_true_iff.
  rewrite IH by done. apply negb_true_iff in Hc. rewrite Hc. by destruct s.
Qed.

Lemma trim_left_none f s : str_forall (fun c => negb (f c)) s = true -> trim_left f s = s.
Proof. destruct s as [|c s]; simpl; [done|]. intros [Hc _]%andb_true_iff. by destruct (f c). Qed.

Lemma TrimSpace_none s : str_forall (fun c => negb (is_space c)) s = true -> TrimSpace s = s.
Proof. intros H. unfold TrimSpace. rewrite trim_left_none by done. by apply trim_right_none. Qed.

Lemma str_forall_trim_left g f s : str_forall g s = true -> str_forall g (trim_left f s) = true.
Proof.
  induction s as [|c s IH]; simpl; [done|]. intros H. destruct (f c); [|done].
  apply andb_true_iff in H as [_ H]. auto.
Qed.

Lemma str_forall_trim_right g f s : str_forall g s = true -> str_forall g (trim_right f s) = true.
Proof.
  induction s as [|c s IH]; simpl; [done|]. intros [Hc H]%andb_true_iff. specialize (IH H).
  destruct (trim_right f s); [destruct (f c); simpl; by rewrite ?Hc|].
  cbn [str_forall] in *. by rewrite Hc, IH.
Qed.

Lemma str_forall_app g a b : str_forall g (a +:+ b) = str_forall g a && str_forall g b.
Proof. induction a as [|c a IH]; [done|]. rewrite append_cons. simpl. by rewrite IH, andb_assoc. Qed.

Lemma str_forall_Split g sep s p :
  str_forall g s = true -> In p (Split sep s) -> str_forall g p = true.
Proof.
  revert p. induction s as [|c s IH]; intros p; simpl; [by intros _ [<-|[]]|].
  intros [Hc Hs]%andb_true_iff. destruct (Ascii.eqb c sep).
  - intros [<-|H]; [done|by apply IH].
  - destruct (Split sep s) as [|h r]; [by destruct p; intros [<-|[]]; simpl; rewrite ?Hc|].
    intros [<-|H]; [|apply IH; [done|by right]].
    simpl. rewrite Hc. apply IH; [done|by left].
Qed.

Lemma trim_right_app_fix f a l :
  l <> "" -> trim_right f l = l -> trim_right f (a +:+ l) = a +:+ l.
Proof.
  intros Hne Hl. induction a as [|c a IH]; [done|]. rewrite append_cons. simpl. rewrite IH.
  destruct (a +:+ l) eqn:E; [|done]. destruct a; [by rewrite append_nil_l in E|done].
Qed.

Lemma Split_last_nonempty p :
  p <> "" -> trim_right is_slash p = p -> exists q l, Split "/" p = q ++ [l] /\ l <> "".
Proof.
  induction p as [|c p IH]; [done|]. intros _ Ht.
  destruct p as [|d p].
  - simpl in Ht. rewrite is_slash_eqb in Ht. destruct (Ascii.eqb c "/") eqn:E; [done|].
    exists [], (String c ""). cbn [Split]. by rewrite E.
  - change (trim_right is_slash (String c (String d p))) with
      (match trim_right is_slash (String d p) with
       | EmptyString => if is_slash c then EmptyString else String c EmptyString
       | t' => String c t' end) in Ht.
    destruct (trim_right is_slash (String d p)) as [|d' p'] eqn:E.
    { destruct (is_slash c); discriminate Ht. }
    injection Ht as -> ->. destruct IH as (q & l & Hq & Hl); [done|done|].
    change (Split "/" (String c (String d p))) with
      (if Ascii.eqb c "/" then "" :: Split "/" (String d p)
       else match Split "/" (String d p) with [] => [String c ""] | h :: r => String c h :: r end).
    rewrite Hq. destruct (Ascii.eqb c "/"); [by exists ("" :: q), l|].
    destruct q as [|h q]; [by exists [], (String c l)|by exists (String c h :: q), l].
Qed.

Lemma Split_head_nonempty p :
  p <> "" -> trim_left is_slash p = p -> exists h r, Split "/" p = h :: r /\ h <> "".
Proof.
  destruct p as [|c p]; [done|]. intros _. simpl. rewrite is_slash_eqb.
  destruct (Ascii.eqb c "/") eqn:E.
  - intros H. exfalso. assert (String.length (trim_left is_slash p) <= String.length p) as HL.
    { clear. induction p as [|d p IH]; simpl; [lia|]. destruct (is_slash d); simpl; lia. }
    rewrite H in HL. simpl in HL. lia.
  - intros _. destruct (Split "/" p) as [|h r]; [by exists (String c ""), []|by exists (String c h), r].
Qed.

Lemma clean_not_slash s : char_in_str "/" s = false -> str_forall (fun c => negb (is_slash c)) s = true.
Proof.
  induction s as [|c s IH]; [done|]. cbn [char_in_str str_forall]. rewrite is_slash_eqb.
  destruct (Ascii.eqb c "/"); [done|]. simpl. auto.
Qed.

Lemma Trim_slash_fix p : Trim p "/" = trim_right is_slash (trim_left is_slash p).
Proof. done. Qed.

(** A prefix of the redacted form is already redacted. *)
Lemma RedactObjectPrefix_fixed h l :
  h <> "" -> l <> "" -> char_in_str "/" h = false -> char_in_str "/" l = false ->
  str_forall (fun c => negb (is_space c)) h = true ->
  str_forall (fun c => negb (is_space c)) l = true ->
  RedactObjectPrefix (h +:+ "/.../" +:+ l) = h +:+ "/.../" +:+ l.
Proof.
  intros Hh Hl Ch Cl Sh Sl. unfold RedactObjectPrefix.
  rewrite TrimSpace_none by (by rewrite !str_forall_app, Sh, Sl).
  rewrite Trim_slash_fix, trim_left_fix.
  2: { destruct h as [|c h]; [done|]. intros d [= <-]. rewrite is_slash_eqb.
       simpl in Ch. by destruct (Ascii.eqb c "/"). }
  rewrite <- append_assoc, trim_right_app_fix by (try done; by apply trim_right_none, clean_not_slash).
  rewrite append_assoc.
  destruct (eqs_spec (h +:+ "/.../" +:+ l) "") as [E|_]; [by destruct h|].
  change ("/.../" +:+ l) with (String "/" ("..." +:+ String "/" l)).
  rewrite Split_app_sep, Split_app_sep, Split_clean by done. simpl.
  by rewrite append_cons.
Qed.

(** Redacting an object prefix is idempotent: a redacted prefix shown
    again is not changed, for the space-free prefixes the patterns extract. *)
Theorem redact_idempotent prefix :
  str_forall (fun c => negb (is_space c)) prefix = true ->
  RedactObjectPrefix (RedactObjectPrefix prefix) = RedactObjectPrefix prefix.
Proof.
  intros Hs. unfold RedactObjectPrefix at 2 3. rewrite TrimSpace_none by done.
  set (p := Trim prefix "/"). destruct (eqs_spec p "") as [->|Hp]; [done|].
  assert (str_forall (fun c => negb (is_space c)) p = true) as Hsp
    by (unfold p; rewrite Trim_slash_fix; by apply str_forall_trim_right, str_forall_trim_left).
  assert (trim_right is_slash p = p) as Hr by (unfold p; rewrite Trim_slash_fix; apply trim_right_idem).
  assert (trim_left is_slash p = p) as Hl by (unfold p; rewrite Trim_slash_fix; apply trim_left_right_fix).
  destruct (Nat.leb_spec (length (Split "/" p)) 2) as [Hle|Hgt].
  - unfold RedactObjectPrefix. rewrite TrimSpace_none by done.
    rewrite Trim_slash_fix, Hl, Hr. destruct (eqs_spec p ""); [done|].
    by destruct (Nat.leb_spec (length (Split "/" p)) 2); [|lia].
  - destruct (Split_head_nonempty p Hp Hl) as (h & r & Eh & Hh).
    destruct (Split_last_nonempty p Hp Hr) as (q & l & El & Hlast).
    rewrite El, last_snoc, <- El, Eh. simpl.
    apply RedactObjectPrefix_fixed; try done.
    + apply (Split_parts_clean "/" p). rewrite Eh. by left.
    + apply (Split_parts_clean "/" p). rewrite El. apply in_or_app. right. by left.
    + apply (str_forall_Split _ "/" p); [done|]. rewrite Eh. by left.
    + apply (str_forall_Split _ "/" p); [done|]. rewrite El. apply in_or_app. right. by left.
Qed.

Lemma redact_idempotent_witness :
  str_forall (fun c => negb (is_space c)) "/soak/worker-a/vol-1/ltx/" = true /\
  RedactObjectPrefix (RedactObjectPrefix "/soak/worker-a/vol-1/ltx/") = "soak/.../ltx".
Proof.
  split; [reflexivity|]. rewrite (redact_idempotent "/soak/worker-a/vol-1/ltx/"); reflexivity.
Defined.
