(* ===== verification/EnvFailure.v ===== *)
(** Environmental failures: [internal/orchestrator/inference.go] and
    [internal/orchestrator/envfailure.go].

    A transient object-store error on the configured bucket is provider
    weather and not a worker failure, until a streak of them escalates.  Three
    consumers decide this independently: the ingest guard (newest first, one
    verification at a time), the lifecycle checks (oldest first, a whole
    history) and the home page (all workers' statistics at once). *)
From S2P Require Import Prelude GoStrings Model Classification.
From stdpp Require Import sorting.

(** * Inference *)

Record verificationFailure := mkVerificationFailure {
  vf_Stage : string;
  vf_Signature : string;
  vf_Classification : option FailureClassification
}.

Definition classifyFailureMessage (checkType errorMessage : string) : verificationFailure :=
  let classification := ClassifyVerificationFailure checkType errorMessage in
  mkVerificationFailure (fc_Stage classification) (fc_Signature classification) (Some classification).

(** The stored classification is preferred when it is valid. *)
Definition classifyVerification (verification : Verification) : verificationFailure :=
  match v_FailureClassification verification with
  | Some fc =>
      if Valid (Some fc) then mkVerificationFailure (fc_Stage fc) (fc_Signature fc) (Some fc)
      else classifyFailureMessage (v_CheckType verification) (v_ErrorMessage verification)
  | None => classifyFailureMessage (v_CheckType verification) (v_ErrorMessage verification)
  end.

Definition inferFailureStage (v : Verification) : string := vf_Stage (classifyVerification v).
Definition inferVerificationSignature (v : Verification) : string := vf_Signature (classifyVerification v).

Definition failureCategoryActionable := "actionable".
Definition failureCategoryEnvironmental := "environmental".
Definition failureCategoryRampUp := "ramp-up".
Definition failureCategorySoakFixture := "soak-fixture".
Definition failureSeverityBad := "bad".
Definition failureSeverityWarn := "warn".
Definition rampUpFailureDeadline : duration := (90 * Minute)%Z.
Definition s3CorrelationWindow : duration := (4 * Hour)%Z.

Definition inferProbableSubsystem (stage signature : string) : string :=
  let text := ToLower (stage +:+ " " +:+ signature) in
  if Contains text "soak_fixture_disk_exhausted" then "Soak fixture disk consumption"
  else if Contains text "disk_capacity" || Contains text "disk_full"
  then "Disk capacity / restore scratch headroom"
  else if Contains text SignatureRestoredComparisonLocked then "Soak harness or worker runtime"
  else if Contains text "s3_bucket_missing" || Contains text "s3_slowdown"
  then "Object store provider (environmental)"
  else if Contains text "s3_transport" || Contains text "s3-transport" then "S3 transport"
  else if Contains text "db_sync_executor" || Contains text "db sync executor"
  then "Litestream DB sync executor"
  else if Contains text "sync" || Contains text "litestream_sync_socket_refused" ||
          Contains text "litestream_sync_timeout" || Contains text "litestream_sync_fd_exhausted"
  then "Litestream sync/control socket"
  else if Contains text SignatureLTXCoverageHole then "Litestream compaction / retention"
  else if Contains text SignatureVFSSnapshotDrift || Contains text SignatureVFSReadMismatch
  then "Litestream VFS reader"
  else if Contains text "walreset" then "Litestream WAL reset continuity"
  else if Contains text "restore" || Contains text "replica_" || Contains text "ltx"
  then "Replication or restore path"
  else if Contains text "integrity" || Contains text "sqlite_index_mismatch" ||
          Contains text "validation_failed" || Contains text "validation"
  then "Restore correctness / integrity validation"
  else if Contains text "pause load" || Contains text "checkpoint"
  then "Soak harness or worker runtime"
  else "Needs operator triage".

Definition failureCategoryForSignature (signature : string) : string :=
  if signature =s "soak_fixture_disk_exhausted" then failureCategorySoakFixture
  else failureCategoryActionable.

Definition failureSeverityForCategory (category : string) : string :=
  if (category =s failureCategoryEnvironmental) || (category =s failureCategoryRampUp) ||
     (category =s failureCategorySoakFixture)
  then failureSeverityWarn else failureSeverityBad.

Definition activeFailure (verification : Verification) : bool := Failed verification.

Definition verificationFromStat (stat : VerificationStat) : Verification :=
  Verification_zero
    <| v_ID := vs_ID stat |> <| v_WorkerID := vs_WorkerID stat |>
    <| v_StartedAt := vs_StartedAt stat |> <| v_Status := vs_Status stat |>
    <| v_CheckType := vs_CheckType stat |> <| v_Passed := vs_Passed stat |>
    <| v_DurationMS := vs_DurationMS stat |> <| v_ErrorMessage := vs_ErrorMessage stat |>
    <| v_FailureClassification := vs_FailureClassification stat |>.

Definition isRampUpFailureStat (stat : VerificationStat) : bool :=
  if vs_HasPriorPass stat || IsZero (vs_WorkerCreatedAt stat) then false
  else
    let createdAt := vs_WorkerCreatedAt stat in
    negb (Before (vs_StartedAt stat) createdAt) &&
    Before (vs_StartedAt stat) (time_Add createdAt rampUpFailureDeadline).

Definition mainAndNonMainSources (left right : string) : bool :=
  let left := TrimSpace left in
  let right := TrimSpace right in
  ((left =s "main") && negb (right =s "main")) || (negb (left =s "main") && (right =s "main")).

Definition absDuration (d : duration) : duration := if (d <? 0)%Z then int64 (- d) else d.

Definition hasCorrelatedS3TransportFailure (stat : VerificationStat) (stats : list VerificationStat) : bool :=
  if TrimSpace (vs_Source stat) =s "" then false
  else existsb (fun other =>
    if (vs_ID other =? vs_ID stat)%Z || (TrimSpace (vs_Source other) =s "") ||
       (vs_Source stat =s vs_Source other)
    then false
    else if negb (mainAndNonMainSources (vs_Source stat) (vs_Source other)) then false
    else if negb (Failed (verificationFromStat other)) then false
    else if negb (vf_Signature (classifyFailureMessage (vs_CheckType other) (vs_ErrorMessage other))
                  =s "s3_transport")
    then false
    else (absDuration (time_Sub (vs_StartedAt stat) (vs_StartedAt other)) <=? s3CorrelationWindow)%Z)
    stats.

(** * The environmental policy *)

Definition defaultEnvEscalateConsecutive : Z := 2.

Record EnvironmentalFailurePolicy := mkPolicy {
  pol_Bucket : string;
  pol_EscalateAfterConsecutive : Z
}.
#[export] Instance EnvironmentalFailurePolicy_eta : Settable EnvironmentalFailurePolicy :=
  fun r => mkPolicy (pol_Bucket r) (pol_EscalateAfterConsecutive r).

Definition normalized (p : EnvironmentalFailurePolicy) : EnvironmentalFailurePolicy :=
  if (pol_EscalateAfterConsecutive p <=? 0)%Z
  then p <| pol_EscalateAfterConsecutive := defaultEnvEscalateConsecutive |> else p.

Definition isTransientObjectStoreFailure (classification : option FailureClassification)
    (policy : EnvironmentalFailurePolicy) : bool :=
  match classification ≫= fc_ObjectStore with
  | None => false
  | Some failure =>
      let configured := TrimSpace (pol_Bucket policy) in
      if configured =s "" then false
      else
        let bucket := TrimSpace (os_Bucket failure) in
        if negb (bucket =s "") && negb (bucket =s configured) then false
        else
          let operation := ToLower (os_Operation failure) in
          let apiCode := ToLower (os_APICode failure) in
          let status := os_HTTPStatus failure in
          if (apiCode =s "nosuchbucket") || ((operation =s "listobjectsv2") && (status =? 404)%Z)
          then true
          else if (apiCode =s "slowdown") || (status =? 503)%Z then true
          else if (apiCode =s "requestcanceled") || (status =? 408)%Z then true
          else false
  end.

(** * Streaks *)

Definition environmentalStreak := Z.
Definition observe (s : environmentalStreak) : environmentalStreak := (s + 1)%Z.
Definition reset (_ : environmentalStreak) : environmentalStreak := 0%Z.
Definition escalated (s : environmentalStreak) (policy : EnvironmentalFailurePolicy) : bool :=
  (pol_EscalateAfterConsecutive policy <? s)%Z.

(** [sort.Slice] by [StartedAt]. *)
Section SortBy.
Context {A : Type} (key : A -> Z).
Fixpoint insert_by (x : A) (l : list A) : list A :=
  match l with
  | [] => [x]
  | y :: r => if (key y <=? key x)%Z then y :: insert_by x r else x :: l
  end.
Definition sort_by (l : list A) : list A := fold_left (fun acc x => insert_by x acc) l [].
End SortBy.

(** One iteration of the statistics walk. *)
Definition statStep (policy : EnvironmentalFailurePolicy)
    (st : environmentalStreak * gset Z) (stat : VerificationStat) : environmentalStreak * gset Z :=
  let '(streak, ids) := st in
  let verification := verificationFromStat stat in
  if Inconclusive verification then st
  else if negb (Failed verification) then (reset streak, ids)
  else
    let failure := classifyFailureMessage (vs_CheckType stat) (vs_ErrorMessage stat) in
    if negb (isTransientObjectStoreFailure (vf_Classification failure) policy) then (reset streak, ids)
    else
      let streak := observe streak in
      if escalated streak policy then (streak, {[vs_ID stat]} ∪ ids) else (streak, ids).

Definition groupByWorker (stats : list VerificationStat) : gmap string (list VerificationStat) :=
  fold_left (fun m stat => <[vs_WorkerID stat := default [] (m !! vs_WorkerID stat) ++ [stat]]> m) stats ∅.

Definition escalatedEnvironmentalStatIDs (stats : list VerificationStat)
    (policy : EnvironmentalFailurePolicy) : gset Z :=
  map_fold (fun _ workerStats ids =>
      snd (fold_left (statStep policy) (sort_by vs_StartedAt workerStats) (0%Z, ids)))
    ∅ (groupByWorker stats).

(** The ingest-time walk, newest first, one more failure arriving now. *)
Fixpoint streakCount (policy : EnvironmentalFailurePolicy) (previous : list Verification)
    (streak : environmentalStreak) : environmentalStreak :=
  match previous with
  | [] => streak
  | verification :: rest =>
      if Inconclusive verification then streakCount policy rest streak
      else if negb (Failed verification) then streak
      else
        let failure := classifyVerification verification in
        if negb (isTransientObjectStoreFailure (vf_Classification failure) policy) then streak
        else streakCount policy rest (streak + 1)%Z
  end.

Definition environmentalStreakEscalated (previous : list Verification)
    (policy : EnvironmentalFailurePolicy) : bool :=
  escalated (streakCount policy previous 1%Z) policy.

(** One iteration of the lifecycle walk. *)
Definition verificationStep (policy : EnvironmentalFailurePolicy)
    (st : environmentalStreak * gset Z) (verification : Verification) : environmentalStreak * gset Z :=
  let '(streak, ids) := st in
  if Inconclusive verification then st
  else if negb (Failed verification) then (reset streak, ids)
  else
    let failure := classifyVerification verification in
    if negb (isTransientObjectStoreFailure (vf_Classification failure) policy) then (reset streak, ids)
    else
      let streak := observe streak in
      if negb (escalated streak policy) then (streak, {[v_ID verification]} ∪ ids) else (streak, ids).

Definition environmentalVerificationIDs (verifications : list Verification)
    (policy : EnvironmentalFailurePolicy) : gset Z :=
  snd (fold_left (verificationStep policy) (sort_by v_StartedAt verifications) (0%Z, ∅)).

(** [historyLimit] of the ingest guard. *)
Definition environmentalHistoryLimit (policy : EnvironmentalFailurePolicy) : Z :=
  let historyLimit := ((pol_EscalateAfterConsecutive policy + 1) * 5)%Z in
  if (historyLimit <? 50)%Z then 50%Z else historyLimit.

(** The ingest guard; [listVerifications] is the store's newest-first query,
    which may fail. *)
Definition environmentalWithoutEscalation (processPolicy : EnvironmentalFailurePolicy)
    (listVerifications : string -> Z -> option (list Verification))
    (workerID : string) (failure : verificationFailure) : bool :=
  let policy := normalized processPolicy in
  if negb (isTransientObjectStoreFailure (vf_Classification failure) policy) then false
  else match listVerifications workerID (environmentalHistoryLimit policy) with
       | None => false
       | Some previous => negb (environmentalStreakEscalated previous policy)
       end.

(** * The home page's context *)

Record failureClassificationContext := mkContext {
  ctx_category : gmap Z string;
  ctx_sources : gmap string (gmap string time)
}.
#[export] Instance failureClassificationContext_eta : Settable failureClassificationContext :=
  fun r => mkContext (ctx_category r) (ctx_sources r).

Definition addEnvironmentalSource (ctx : failureClassificationContext)
    (signature source : string) (occurredAt : time) : failureClassificationContext :=
  let signature := TrimSpace signature in
  let source := TrimSpace source in
  if (signature =s "") || (source =s "") then ctx
  else
    let sources := default ∅ (ctx_sources ctx !! signature) in
    let sources := if After occurredAt (default 0%Z (sources !! source))
                   then <[source := occurredAt]> sources else sources in
    ctx <| ctx_sources := <[signature := sources]> (ctx_sources ctx) |>.

Definition contextStep (policy : EnvironmentalFailurePolicy) (escalatedIDs : gset Z)
    (stats : list VerificationStat) (ctx : failureClassificationContext) (stat : VerificationStat)
  : failureClassificationContext :=
  let verification := verificationFromStat stat in
  if negb (Failed verification) then ctx
  else
    let failure := classifyVerification verification in
    let category := failureCategoryForSignature (vf_Signature failure) in
    let '(category, ctx) :=
      if category =s failureCategorySoakFixture then (category, ctx)
      else if isTransientObjectStoreFailure (vf_Classification failure) policy &&
              negb (bool_decide (vs_ID stat ∈ escalatedIDs))
      then (failureCategoryEnvironmental,
            addEnvironmentalSource ctx (vf_Signature failure) (vs_Source stat) (vs_StartedAt stat))
      else if (vf_Signature failure =s "s3_transport") && hasCorrelatedS3TransportFailure stat stats
      then (failureCategoryEnvironmental,
            addEnvironmentalSource ctx (vf_Signature failure) (vs_Source stat) (vs_StartedAt stat))
      else if isRampUpFailureStat stat then (failureCategoryRampUp, ctx)
      else (category, ctx) in
    ctx <| ctx_category ::= <[vs_ID stat := category]> |>.

Definition buildFailureClassificationContext (processPolicy : EnvironmentalFailurePolicy)
    (stats : list VerificationStat) : failureClassificationContext :=
  let policy := normalized processPolicy in
  let escalatedIDs := escalatedEnvironmentalStatIDs stats policy in
  fold_left (contextStep policy escalatedIDs stats) stats (mkContext ∅ ∅).

Definition categoryForVerificationID (ctx : failureClassificationContext) (id : Z) : string :=
  let category := default "" (ctx_category ctx !! id) in
  if TrimSpace category =s "" then failureCategoryActionable else category.

(** * Properties *)

(** What one verification does to a streak. *)
Inductive outcome := Neutral | Recovery | Transient.

Definition outcome_of (policy : EnvironmentalFailurePolicy) (v : Verification) : outcome :=
  if Inconclusive v then Neutral
  else if negb (Failed v) then Recovery
  else if isTransientObjectStoreFailure (vf_Classification (classifyVerification v)) policy
  then Transient else Recovery.

(** The length of the leading streak of a newest-first history. *)
Fixpoint leading (policy : EnvironmentalFailurePolicy) (l : list Verification) : Z :=
  match l with
  | [] => 0%Z
  | v :: rest =>
      match outcome_of policy v with
      | Neutral => leading policy rest
      | Recovery => 0%Z
      | Transient => (1 + leading policy rest)%Z
      end
  end.

Lemma streakCount_leading policy l k : streakCount policy l k = (k + leading policy l)%Z.
Proof.
  revert k. induction l as [|v l IH]; intros k; simpl; [lia|]. unfold outcome_of.
  destruct (Inconclusive v); [apply IH|]. destruct (Failed v); simpl; [|lia].
  destruct (isTransientObjectStoreFailure _ _); simpl; [|lia]. rewrite IH. lia.
Qed.

Lemma verificationStep_streak policy st v :
  fst (verificationStep policy st v) =
  match outcome_of policy v with
  | Neutral => fst st | Recovery => 0%Z | Transient => (fst st + 1)%Z end.
Proof.
  destruct st as [k ids]. unfold verificationStep, outcome_of.
  destruct (Inconclusive v); [done|]. destruct (Failed v); [|done].
  destruct (isTransientObjectStoreFailure _ _); [|done]. cbn [negb].
  by destruct (escalated _ _).
Qed.

Lemma fold_streak_leading policy l ids :
  fst (fold_left (verificationStep policy) l (0%Z, ids)) = leading policy (rev l).
Proof.
  induction l as [|v l IH] using rev_ind; [done|].
  rewrite fold_left_app, rev_app_distr. cbn [fold_left rev app leading].
  rewrite verificationStep_streak, IH. destruct (outcome_of policy v); [done|done|lia].
Qed.

Lemma verificationStep_ids policy st v :
  snd (verificationStep policy st v) =
  match outcome_of policy v with
  | Transient =>
      if escalated (fst st + 1)%Z policy then snd st else {[v_ID v]} ∪ snd st
  | _ => snd st end.
Proof.
  destruct st as [k ids]. unfold verificationStep, outcome_of, observe.
  destruct (Inconclusive v); [done|]. destruct (Failed v); [|done].
  destruct (isTransientObjectStoreFailure _ _); [|done]. cbn [negb fst snd].
  by destruct (escalated _ _).
Qed.

Lemma fold_ids_subset policy l st i :
  i ∈ snd (fold_left (verificationStep policy) l st) -> i ∈ snd st \/ In i (map v_ID l).
Proof.
  revert st. induction l as [|v l IH]; intros st; simpl; [auto|].
  intros H. apply IH in H as [H|H]; [|auto].
  rewrite verificationStep_ids in H.
  destruct (outcome_of policy v); [auto|auto|]. destruct (escalated _ _); [auto|]. set_solver.
Qed.

(** Sorting a sorted list changes nothing. *)
Lemma insert_by_last {A} (key : A -> Z) x l :
  Forall (fun y => key y <= key x)%Z l -> insert_by key x l = l ++ [x].
Proof.
  induction 1 as [|y l Hy _ IH]; simpl; [done|].
  destruct (Z.leb_spec (key y) (key x)); [|lia]. by rewrite IH.
Qed.

Lemma sort_by_sorted {A} (key : A -> Z) l :
  StronglySorted (fun a b => key a <= key b)%Z l -> sort_by key l = l.
Proof.
  intros H. unfold sort_by. enough (forall acc, StronglySorted (fun a b => key a <= key b)%Z (acc ++ l) ->
    fold_left (fun acc x => insert_by key x acc) l acc = acc ++ l) as E by (by apply (E [])).
  clear H. induction l as [|x l IH]; intros acc H; simpl; [by rewrite app_nil_r|].
  rewrite insert_by_last.
  - rewrite IH; by rewrite <- app_assoc.
  - clear IH. induction acc as [|y acc IHa]; [done|]. inversion H as [|? ? Hs Hf]; subst.
    constructor; [|by apply IHa]. rewrite Forall_forall in Hf. apply Hf.
    rewrite list_elem_of_In. apply in_or_app. right. by left.
Qed.

(** The ingest guard and the lifecycle walk agree: one more transient
    failure on top of a history escalates at ingest exactly when the
    whole-history walk stops counting it as environmental. *)
Theorem ingest_agrees_with_lifecycle policy hist v :
  StronglySorted (fun a b => v_StartedAt a <= v_StartedAt b)%Z (hist ++ [v]) ->
  ~ In (v_ID v) (map v_ID hist) ->
  outcome_of policy v = Transient ->
  environmentalStreakEscalated (rev hist) policy = true <->
  v_ID v ∉ environmentalVerificationIDs (hist ++ [v]) policy.
Proof.
  intros Hs Hid Ho. unfold environmentalVerificationIDs, environmentalStreakEscalated.
  rewrite sort_by_sorted, fold_left_app by done. cbn [fold_left].
  rewrite verificationStep_ids, Ho, fold_streak_leading, streakCount_leading.
  rewrite (Z.add_comm (leading policy (rev hist)) 1).
  destruct (escalated (1 + leading policy (rev hist))%Z policy); [|set_solver].
  split; [|done]. intros _ Hin. apply fold_ids_subset in Hin as [Hin|Hin]; [set_solver|done].
Qed.

Definition sample_failure (i : Z) : Verification :=
  Verification_zero <| v_ID := i |> <| v_StartedAt := (i * Minute)%Z |> <| v_Status := "failed" |>
    <| v_CheckType := "restore" |>
    <| v_ErrorMessage := "restore failed: operation error S3: GetObject, StatusCode: 503, api error SlowDown: slow" |>.

Definition sample_policy : EnvironmentalFailurePolicy := mkPolicy "soak" 2.

Lemma ingest_agrees_with_lifecycle_witness :
  outcome_of sample_policy (sample_failure 4) = Transient /\
  environmentalStreakEscalated (rev [sample_failure 1; sample_failure 2; sample_failure 3]) sample_policy = true /\
  4%Z ∉ environmentalVerificationIDs
     ([sample_failure 1; sample_failure 2; sample_failure 3] ++ [sample_failure 4]) sample_policy.
Proof.
  split; [reflexivity|]. split; [vm_compute; reflexivity|].
  apply (ingest_agrees_with_lifecycle sample_policy
           [sample_failure 1; sample_failure 2; sample_failure 3] (sample_failure 4)).
  - repeat constructor; vm_compute; discriminate.
  - simpl. intros H. repeat destruct H as [H|H]; discriminate || done.
  - reflexivity.
  - vm_compute. reflexivity.
Defined.

Definition transientCount (policy : EnvironmentalFailurePolicy) (l : list Verification) : Z :=
  Z.of_nat (length (List.filter (fun v => match outcome_of policy v with Transient => true | _ => false end) l)).

Lemma leading_prefix policy a b :
  Forall (fun v => outcome_of policy v <> Recovery) a ->
  leading policy (a ++ b) = (transientCount policy a + leading policy b)%Z.
Proof.
  unfold transientCount. induction 1 as [|v a Hv _ IH]; [done|]. simpl.
  destruct (outcome_of policy v); [done|done|]. simpl length. rewrite IH. lia.
Qed.

Lemma leading_nonneg policy l : (0 <= leading policy l)%Z.
Proof. induction l as [|v l IH]; simpl; [lia|]. destruct (outcome_of policy v); lia. Qed.

(** A persistent provider failure cannot be hidden by interleaved aborted
    checks: once the newest rows the guard reads hold the threshold number of
    transient failures with no recovery in between, the next one pages. *)
Theorem aborts_do_not_hide_streaks policy listVerifications workerID failure a b :
  let p := normalized policy in
  listVerifications workerID (environmentalHistoryLimit p) = Some (a ++ b) ->
  Forall (fun v => outcome_of p v <> Recovery) a ->
  (pol_EscalateAfterConsecutive p <= transientCount p a)%Z ->
  environmentalWithoutEscalation policy listVerifications workerID failure = false.
Proof.
  intros p HL HF HC. unfold environmentalWithoutEscalation. fold p. rewrite HL.
  destruct (isTransientObjectStoreFailure _ p); [|done]. cbn [negb].
  unfold environmentalStreakEscalated, escalated.
  rewrite streakCount_leading, leading_prefix by done.
  pose proof (leading_nonneg p b). apply negb_false_iff, Z.ltb_lt. lia.
Qed.

Definition sample_abort (i : Z) : Verification :=
  (sample_failure i) <| v_Status := "aborted" |>.

Lemma aborts_do_not_hide_streaks_witness :
  environmentalWithoutEscalation sample_policy
    (fun _ _ => Some ([sample_failure 5; sample_abort 4; sample_failure 3] ++ [(sample_failure 2) <| v_Status := "passed" |> <| v_Passed := true |>]))
    "w" (classifyVerification (sample_failure 6)) = false.
Proof.
  apply (aborts_do_not_hide_streaks sample_policy _ "w" _ [sample_failure 5; sample_abort 4; sample_failure 3]
           [(sample_failure 2) <| v_Status := "passed" |> <| v_Passed := true |>]).
  - reflexivity.
  - repeat constructor; vm_compute; discriminate.
  - vm_compute. discriminate.
Defined.

(** A misconfigured or deleted bucket is never treated as provider
    weather: with no configured bucket, or with a failure that names another
    bucket, no failure is transient and every one counts. *)
Theorem bucket_mismatch_never_transient classification policy :
  (TrimSpace (pol_Bucket policy) = "" \/
   exists fc os, classification = Some fc /\ fc_ObjectStore fc = Some os /\
     TrimSpace (os_Bucket os) <> "" /\ TrimSpace (os_Bucket os) <> TrimSpace (pol_Bucket policy)) ->
  isTransientObjectStoreFailure classification policy = false.
Proof.
  intros H. unfold isTransientObjectStoreFailure.
  destruct (classification ≫= fc_ObjectStore) as [os|] eqn:E; [|done].
  destruct H as [-> | (fc & os' & -> & Eo & H1 & H2)]; [done|]. simpl in E. simplify_eq.
  destruct (TrimSpace (pol_Bucket policy) =s ""); [done|].
  apply eqs_false in H1, H2. by rewrite H1, H2.
Qed.

Lemma bucket_mismatch_never_transient_witness :
  isTransientObjectStoreFailure
    (Some (FailureClassification_zero <| fc_ObjectStore := Some (ObjectStoreFailure_zero
       <| os_Bucket := "other" |> <| os_HTTPStatus := 503%Z |>) |>)) sample_policy = false.
Proof.
  apply bucket_mismatch_never_transient. right.
  eexists _, _. split; [reflexivity|]. split; [reflexivity|]. split; vm_compute; discriminate.
Defined.

(** ** The home page *)

Definition stored_stat (i : Z) : VerificationStat :=
  VerificationStat_zero <| vs_ID := i |> <| vs_WorkerID := "w" |> <| vs_Source := "main" |>
    <| vs_StartedAt := (i * Hour)%Z |> <| vs_Status := "failed" |> <| vs_CheckType := "restore" |>
    <| vs_ErrorMessage := "restore failed" |>
    <| vs_FailureClassification := Some (mkFailureClassification "restore" "restore_s3_slowdown"
         (Some (ObjectStoreFailure_zero <| os_HTTPStatus := 503%Z |>)) None "") |>.

(** The home page walk reads the error text and not the stored
    classification, so a streak that the lifecycle walk escalates can stay
    environmental on the home page for ever: here five consecutive failures
    carry a stored 503 classification, the lifecycle walk stops forgiving them
    after the second, and the page still shows every one as environmental. *)
Theorem home_page_ignores_stored_classification :
  let stats := map stored_stat [1; 2; 3; 4; 5]%Z in
  environmentalVerificationIDs (map verificationFromStat stats) (normalized sample_policy) = {[1; 2]}%Z /\
  escalatedEnvironmentalStatIDs stats (normalized sample_policy) = ∅ /\
  map (categoryForVerificationID (buildFailureClassificationContext sample_policy stats)) [1; 2; 3; 4; 5]%Z
  = replicate 5 failureCategoryEnvironmental.
Proof. vm_compute. done. Qed.

(** Statistics whose classification comes from the text alone. *)
Definition textual (stat : VerificationStat) : Prop :=
  Valid (vs_FailureClassification stat) = false.

Lemma textual_classify stat :
  textual stat ->
  classifyVerification (verificationFromStat stat) =
  classifyFailureMessage (vs_CheckType stat) (vs_ErrorMessage stat).
Proof.
  unfold textual, classifyVerification.
  change (v_FailureClassification (verificationFromStat stat)) with (vs_FailureClassification stat).
  destruct (vs_FailureClassification stat) as [fc|]; [|done]. by intros ->.
Qed.

Lemma groupByWorker_single w stats :
  stats <> [] -> Forall (fun s => vs_WorkerID s = w) stats ->
  groupByWorker stats = {[w := stats]}.
Proof.
  induction stats as [|s l IH] using rev_ind; [done|]. intros _ [HF Hs]%Forall_app.
  unfold groupByWorker. rewrite fold_left_app. cbn [fold_left].
  fold (groupByWorker l). apply Forall_cons in Hs as [<- _].
  destruct l as [|s' l]; [done|].
  rewrite IH by done. rewrite lookup_singleton_eq. simpl. by rewrite insert_singleton_eq.
Qed.

Lemma statStep_outcome policy k e s :
  textual s ->
  statStep policy (k, e) s =
  match outcome_of policy (verificationFromStat s) with
  | Neutral => (k, e)
  | Recovery => (0%Z, e)
  | Transient => ((k + 1)%Z, if escalated (k + 1)%Z policy then {[vs_ID s]} ∪ e else e)
  end.
Proof.
  intros Ht. unfold statStep, outcome_of, observe, reset. rewrite (textual_classify s Ht).
  destruct (Inconclusive _); [done|]. destruct (Failed _); cbn [negb]; [|done].
  destruct (isTransientObjectStoreFailure _ _); cbn [negb]; [|done]. by destruct (escalated _ _).
Qed.

Lemma verificationStep_outcome policy k n v :
  verificationStep policy (k, n) v =
  match outcome_of policy v with
  | Neutral => (k, n)
  | Recovery => (0%Z, n)
  | Transient => ((k + 1)%Z, if escalated (k + 1)%Z policy then n else {[v_ID v]} ∪ n)
  end.
Proof.
  unfold verificationStep, outcome_of, observe, reset.
  destruct (Inconclusive _); [done|]. destruct (Failed _); cbn [negb]; [|done].
  destruct (isTransientObjectStoreFailure _ _); cbn [negb]; [|done]. by destruct (escalated _ _).
Qed.

Definition is_transient (policy : EnvironmentalFailurePolicy) (s : VerificationStat) : bool :=
  match outcome_of policy (verificationFromStat s) with Transient => true | _ => false end.

(** The two walks over one worker's statistics split the identifiers of the
    transient failures between them. *)
Lemma walks_partition policy stats k e n i :
  Forall textual stats ->
  i ∈ snd (fold_left (statStep policy) stats (k, e)) ∪
      snd (fold_left (verificationStep policy) (map verificationFromStat stats) (k, n)) <->
  i ∈ e ∪ n \/ In i (map vs_ID (List.filter (is_transient policy) stats)).
Proof.
  intros HF. revert k e n. induction HF as [|s l Ht HF IH]; intros k e n; [simpl; tauto|].
  rewrite map_cons, !fold_left_cons, filter_cons_if. unfold is_transient at 1.
  rewrite (statStep_outcome _ _ _ _ Ht), verificationStep_outcome.
  destruct (outcome_of policy (verificationFromStat s)); [apply IH|apply IH|].
  change (v_ID (verificationFromStat s)) with (vs_ID s). rewrite IH.
  rewrite map_cons. destruct (escalated (k + 1)%Z policy); set_solver.
Qed.

(** For one worker whose failures are classified from their text, every
    transient failure is counted by exactly one of the two walks: it is either
    still environmental for the lifecycle checks or escalated on the home
    page, and nothing else is in either set. *)
Theorem home_and_lifecycle_partition policy w stats i :
  stats <> [] -> Forall (fun s => vs_WorkerID s = w) stats -> Forall textual stats ->
  StronglySorted (fun a b => vs_StartedAt a <= vs_StartedAt b)%Z stats ->
  i ∈ escalatedEnvironmentalStatIDs stats policy ∪
      environmentalVerificationIDs (map verificationFromStat stats) policy <->
  In i (map vs_ID (List.filter (is_transient policy) stats)).
Proof.
  intros Hne Hw Ht Hs. unfold escalatedEnvironmentalStatIDs, environmentalVerificationIDs.
  rewrite (groupByWorker_single w stats Hne Hw), map_fold_singleton.
  rewrite sort_by_sorted by done. rewrite sort_by_sorted.
  - rewrite walks_partition by done. set_solver.
  - clear -Hs. induction Hs as [|s l _ IH Hf]; simpl; constructor; [done|].
    by apply Forall_map.
Qed.

Definition text_stat (i : Z) : VerificationStat :=
  (stored_stat i) <| vs_FailureClassification := None |>
    <| vs_ErrorMessage := "restore failed: operation error S3: GetObject, StatusCode: 503, api error SlowDown: slow" |>.

Lemma home_and_lifecycle_partition_witness :
  3%Z ∈ escalatedEnvironmentalStatIDs (map text_stat [1; 2; 3]%Z) sample_policy ∪
        environmentalVerificationIDs (map verificationFromStat (map text_stat [1; 2; 3]%Z)) sample_policy.
Proof.
  apply (home_and_lifecycle_partition sample_policy "w" (map text_stat [1; 2; 3]%Z) 3%Z).
  - discriminate.
  - repeat constructor.
  - repeat constructor.
  - repeat constructor; vm_compute; discriminate.
  - vm_compute. auto.
Defined.
