(* ===== verification/GateFleet.v ===== *)
(** The release-candidate gate's fleet and scenarios: the constants, source
    names, worker fleets and scenario tables of
    [internal/orchestrator/rc_gate.go] (lines 21 to 796), with the fleet
    helpers of [fleet.go] and [metering_window.go] they call.

    The environment variable [SOAK_METERING_WINDOW_SOURCES] is the argument
    [meteringEnv] of the definitions that read it. *)
From S2P Require Import Prelude GoStrings Regex Model GoTime.
From Stdlib Require Import Ascii.

(** * Constants *)

Definition gateStressProfile := "gate-stress".
Definition gateManyDB500Profile := "gate-manydb-500".
Definition gateLargeDBProfile := "gate-large-db".
Definition gateRemoteProfile := "gate-remote".
Definition gateVFSProfile := "gate-vfs".
Definition gateWALResetProfile := "gate-walreset".
Definition gateUpgradeLaneProfile := "gate-upgrade-lane".
Definition gateUpgradeLaneNoL9Profile := "gate-upgrade-lane-nol9".
Definition gateUpgradeFollowProfile := "gate-upgrade-follow".
Definition upgradeLaneVariantNoL9 := "nol9".
Definition rcGateCandidatePrefix := "rc".
Definition rcGateBaselinePrefix := "rcbase".
Definition upgradeGateCandidatePrefix := "up".
Definition upgradeGateBaselinePrefix := "upbase".
Definition upgradeGateDefaultDuration : duration := (24 * Hour)%Z.
Definition upgradeGateDefaultWarmup : duration := (2 * Hour)%Z.
Definition rcGateMaxDuration : duration := (7 * 24 * Hour)%Z.
Definition rcGateProvisionTimeout : duration := (2 * Hour)%Z.
Definition rcGateStressPhase := "6h".
Definition rcGateUpstreamRepository := "benbjohnson/litestream".
Definition rcGateTailDuration : duration := (7 * 24 * Hour)%Z.
Definition gateRoleCandidate := "candidate".
Definition gateRoleBaseline := "baseline".
Definition gateModeFollow := "follow".
Definition upgradePhasePre := "pre-upgrade".
Definition upgradePhasePost := "post-upgrade".
Definition gateCheckCurrent := "".
Definition gateCheckAny := "*".
Definition gateCheckFollow := "follow".
Definition gateCheckHistorical := "pre-upgrade-restore".
Definition gateCheckCoverage := "coverage".
Definition gateModeCoverage := "coverage".
Definition gateCheckVFS := "vfs".
Definition gateModeVFSSnapshot := "vfs-snapshot".
Definition gateModeVFSRead := "vfs-read".
Definition gateCheckWALReset := "walreset".
Definition gateModeWALReset := "walreset-restore".
Definition gateStandaloneChecks := [gateCheckCoverage; gateCheckVFS; gateCheckWALReset].
Definition gateNonCurrentChecks := [gateCheckFollow; gateCheckHistorical] ++ gateStandaloneChecks.
Definition gateStandaloneModes :=
  [gateModeCoverage; gateModeVFSSnapshot; gateModeVFSRead; gateModeWALReset].
Definition gateVFSModes := [gateModeVFSSnapshot; gateModeVFSRead].
Definition gateOptInProfiles := [gateVFSProfile; gateWALResetProfile].
Definition gateRotatingRestoreModes := ["txid"; "timestamp"; "latest"].

(** [^(rc|rcbase|up|upbase)(-nol9)?-[0-9a-f]{8}(-[0-9a-z]{1,8})?$] *)
Definition is_lower_hex (c : ascii) : bool := is_digit c || char_in "a" "f" c.
Definition is_lower_alnum (c : ascii) : bool := is_digit c || is_lower c.
Definition re_suffix : re := RSeq (RChar is_lower_alnum) (RUpTo 7 (RChar is_lower_alnum)).
Definition gateSourceRe : re :=
  RSeq (RAny [RLit "rc"; RLit "rcbase"; RLit "up"; RLit "upbase"])
    (RSeq (ROpt (RLit "-nol9"))
      (RSeq (RLit "-") (RSeq (RRep 8 (RChar is_lower_hex))
        (RSeq (ROpt (RSeq (RLit "-") re_suffix)) REnd)))).
(** [^[0-9a-z]{1,8}$] *)
Definition gateSourceSuffixRe : re := RSeq re_suffix REnd.
(** [^[0-9a-f]{40}$] *)
Definition fullCommitSHARe : re := RSeq (RRep 40 (RChar is_lower_hex)) REnd.

(** Errors a gate operation returns; the text is the wrapped reason. *)
Inductive gateError :=
| errRCGateInvalid (reason : string)
| errRCGateNotRegistered
| errRCGatePinned
| errRCGateClosed
| ErrRCGateSourceActive
| errStore (reason : string).

(** * Scenarios *)

Record gateSideFilter := mkFilter {
  f_role : string;
  f_profile : string;
  f_phase : string;
  f_checkType : string;
  f_mode : string
}.
#[export] Instance gateSideFilter_eta : Settable gateSideFilter :=
  fun r => mkFilter (f_role r) (f_profile r) (f_phase r) (f_checkType r) (f_mode r).
Definition filter_zero : gateSideFilter := mkFilter "" "" "" "" "".

Record gateScenario := mkScenario {
  s_name : string;
  s_profile : string;
  s_identity : string;
  s_txidOnly : bool;
  s_coverage : bool;
  s_vfs : bool;
  s_walReset : bool;
  s_requiredModes : list string;
  s_candidate : gateSideFilter;
  s_baseline : gateSideFilter
}.
#[export] Instance gateScenario_eta : Settable gateScenario :=
  fun r => mkScenario (s_name r) (s_profile r) (s_identity r) (s_txidOnly r) (s_coverage r)
    (s_vfs r) (s_walReset r) (s_requiredModes r) (s_candidate r) (s_baseline r).
(** A composite literal that names only the scenario and its profile. *)
Definition plainScenario (name profile : string) : gateScenario :=
  mkScenario name profile "" false false false false [] filter_zero filter_zero.

Definition ltxCoverageScenario (base : gateScenario) : gateScenario :=
  base <| s_name := s_name base +:+ "-ltx-coverage" |> <| s_coverage := true |>
    <| s_requiredModes := [gateModeCoverage] |>
    <| s_candidate := (s_candidate base) <| f_checkType := gateCheckCoverage |> |>
    <| s_baseline := (s_baseline base) <| f_checkType := gateCheckCoverage |> |>.

Definition vfsReaderScenario (base : gateScenario) : gateScenario :=
  base <| s_name := s_name base +:+ "-vfs-reader" |> <| s_vfs := true |>
    <| s_requiredModes := gateVFSModes |>
    <| s_candidate := (s_candidate base) <| f_checkType := gateCheckVFS |> |>
    <| s_baseline := (s_baseline base) <| f_checkType := gateCheckVFS |> |>.

Definition walResetScenario (base : gateScenario) : gateScenario :=
  base <| s_name := s_name base +:+ "-wal-reset" |> <| s_walReset := true |>
    <| s_requiredModes := [gateModeWALReset] |>
    <| s_candidate := (s_candidate base) <| f_checkType := gateCheckWALReset |> |>
    <| s_baseline := (s_baseline base) <| f_checkType := gateCheckWALReset |> |>.

Definition overloadScenario : gateScenario :=
  (plainScenario "overload-truncate0" gateStressProfile) <| s_identity := "overload-truncate0" |>.
Definition pinnedScenario : gateScenario :=
  (plainScenario "pinned-reader" gateStressProfile) <| s_identity := "pinned-reader" |>.

Definition rcGateScenarios : list gateScenario :=
  [ overloadScenario; pinnedScenario;
    (plainScenario "manydb-500" gateManyDB500Profile) <| s_txidOnly := true |>;
    plainScenario "large-db" gateLargeDBProfile;
    plainScenario "remote" gateRemoteProfile;
    plainScenario "vfs" gateVFSProfile;
    plainScenario "walreset" gateWALResetProfile;
    ltxCoverageScenario overloadScenario;
    ltxCoverageScenario pinnedScenario;
    ltxCoverageScenario (plainScenario "large-db" gateLargeDBProfile);
    ltxCoverageScenario (plainScenario "remote" gateRemoteProfile);
    ltxCoverageScenario (plainScenario "vfs" gateVFSProfile);
    ltxCoverageScenario (plainScenario "walreset" gateWALResetProfile);
    vfsReaderScenario (plainScenario "vfs" gateVFSProfile);
    walResetScenario (plainScenario "walreset" gateWALResetProfile) ].

Definition candidatePost : gateSideFilter :=
  filter_zero <| f_role := gateRoleCandidate |> <| f_phase := upgradePhasePost |>.
Definition candidatePre : gateSideFilter :=
  filter_zero <| f_role := gateRoleCandidate |> <| f_phase := upgradePhasePre |>.

(** The lane scenarios both upgrade tables share, for one lane profile. *)
Definition laneCurrent (name profile : string) : gateScenario :=
  (plainScenario name profile) <| s_candidate := candidatePost |> <| s_baseline := candidatePre |>.
Definition laneHistorical (name profile : string) : gateScenario :=
  (plainScenario name profile) <| s_requiredModes := ["txid"] |>
    <| s_candidate := candidatePost <| f_checkType := gateCheckHistorical |> |>
    <| s_baseline := candidatePre <| f_mode := "txid" |> |>.
Definition laneFollow (name profile : string) : gateScenario :=
  (plainScenario name profile) <| s_requiredModes := [gateModeFollow] |>
    <| s_candidate := candidatePost <| f_checkType := gateCheckFollow |> |>
    <| s_baseline := filter_zero <| f_role := gateRoleBaseline |>
         <| f_profile := gateUpgradeFollowProfile |> <| f_checkType := gateCheckFollow |> |>.

Definition upgradeGateScenarios : list gateScenario :=
  [ laneCurrent "upgrade-lane" gateUpgradeLaneProfile;
    laneHistorical "upgrade-lane-historical" gateUpgradeLaneProfile;
    laneFollow "upgrade-lane-follow" gateUpgradeLaneProfile;
    (plainScenario "follow-l9" gateUpgradeFollowProfile)
      <| s_requiredModes := gateRotatingRestoreModes ++ [gateModeFollow] |>
      <| s_candidate := filter_zero <| f_role := gateRoleCandidate |> <| f_checkType := gateCheckAny |> |>
      <| s_baseline := filter_zero <| f_role := gateRoleBaseline |> <| f_checkType := gateCheckAny |> |>;
    ltxCoverageScenario (laneCurrent "upgrade-lane" gateUpgradeLaneProfile);
    ltxCoverageScenario ((plainScenario "follow-l9" gateUpgradeFollowProfile)
      <| s_candidate := filter_zero <| f_role := gateRoleCandidate |> |>
      <| s_baseline := filter_zero <| f_role := gateRoleBaseline |> |>) ].

Definition upgradeGateNoL9Scenarios : list gateScenario :=
  [ laneCurrent "upgrade-lane-nol9" gateUpgradeLaneNoL9Profile;
    laneHistorical "upgrade-lane-nol9-historical" gateUpgradeLaneNoL9Profile;
    laneFollow "upgrade-lane-nol9-follow" gateUpgradeLaneNoL9Profile;
    ltxCoverageScenario (laneCurrent "upgrade-lane-nol9" gateUpgradeLaneNoL9Profile) ].

#[export] Instance RCGateKind_eq_dec : EqDecision RCGateKind.
Proof. solve_decision. Defined.
#[export] Instance RCGateStatus_eq_dec : EqDecision RCGateStatus.
Proof. solve_decision. Defined.

Definition isUpgrade (k : RCGateKind) : bool :=
  match k with RCGateKindUpgrade => true | RCGateKindRC => false end.

Definition gateSelectsProfile (gate : RCGate) (profile : string) : bool :=
  match g_Profiles gate with
  | [] => negb (slices_Contains gateOptInProfiles profile)
  | _ => SelectsProfile gate profile
  end.

Definition gateScenariosFor (gate : RCGate) : list gateScenario :=
  if isUpgrade (g_Kind gate) && (g_LaneVariant gate =s upgradeLaneVariantNoL9)
  then upgradeGateNoL9Scenarios
  else if isUpgrade (g_Kind gate) then upgradeGateScenarios
  else rcGateScenarios.

Definition parseLaneVariant (raw : string) (kind : RCGateKind) : result gateError string :=
  let variant := TrimSpace raw in
  if variant =s "" then Ok ""
  else if negb (isUpgrade kind)
  then Err (errRCGateInvalid "lane_variant is only valid for upgrade gates")
  else if variant =s upgradeLaneVariantNoL9 then Ok variant
  else Err (errRCGateInvalid "lane_variant must be empty or nol9").

Definition gateLaneVariantForSource (source : string) : string :=
  match Split "-" (TrimSpace source) with
  | [_; second; _] => if second =s upgradeLaneVariantNoL9 then upgradeLaneVariantNoL9 else ""
  | _ => ""
  end.

Definition sourceFor (f : gateSideFilter) (gate : RCGate) : string :=
  if f_role f =s gateRoleBaseline then g_BaselineSource gate else g_CandidateSource gate.

(** The orchestrator's [firstNonEmpty]: blank values are skipped, the chosen
    one is returned untrimmed. *)
Fixpoint firstNonEmpty (values : list string) : string :=
  match values with
  | [] => ""
  | value :: rest => if negb (TrimSpace value =s "") then value else firstNonEmpty rest
  end.

Definition accepts (f : gateSideFilter) (gate : RCGate) (verification : Verification) : bool :=
  let run := v_Run verification in
  let phaseRejects :=
    if negb (f_phase f =s "") then
      if negb (id_UpgradePhase run =s f_phase f) then true
      else
        let want := if f_phase f =s upgradePhasePre then g_BaselineSHA gate else g_CandidateSHA gate in
        negb (EqualFold (TrimSpace (id_ActiveLitestreamSHA run)) want)
    else false in
  if phaseRejects then false
  else if negb (f_mode f =s "") &&
          negb (firstNonEmpty [TrimSpace (v_RestoreMode verification); "txid"] =s f_mode f)
  then false
  else if f_checkType f =s gateCheckAny
  then negb (slices_Contains gateStandaloneChecks (v_CheckType verification))
  else if f_checkType f =s gateCheckCurrent
  then negb (slices_Contains gateNonCurrentChecks (v_CheckType verification))
  else v_CheckType verification =s f_checkType f.

(** * Sources and fleets *)

Definition isGateSource (source : string) : bool := MatchAnchored gateSourceRe (TrimSpace source).

(** [sha[:8]] is within bounds: callers pass a 40-character SHA. *)
Definition gateSourceName (prefix sha suffix : string) : string :=
  let name := prefix +:+ "-" +:+ str_take 8 sha in
  if negb (suffix =s "") then name +:+ "-" +:+ suffix else name.

Definition gateKindForSource (source : string) : RCGateKind :=
  let '(prefix, _, _) := Cut "-" (TrimSpace source) in
  if (prefix =s upgradeGateCandidatePrefix) || (prefix =s upgradeGateBaselinePrefix)
  then RCGateKindUpgrade else RCGateKindRC.

Definition gateSourcePrefixes (kind : RCGateKind) (laneVariant : string) : string * string :=
  if isUpgrade kind && negb (laneVariant =s "")
  then (upgradeGateCandidatePrefix +:+ "-" +:+ laneVariant, upgradeGateBaselinePrefix +:+ "-" +:+ laneVariant)
  else if isUpgrade kind then (upgradeGateCandidatePrefix, upgradeGateBaselinePrefix)
  else (rcGateCandidatePrefix, rcGateBaselinePrefix).

(** ** fleet.go *)

Record FleetSpec := mkFleetSpec { fs_Workers : list DesiredWorker }.

Definition effectiveAppliedVolumeSize (cfg : Config) : Z :=
  if (0 <? c_VolumeSizeGB cfg)%Z then c_VolumeSizeGB cfg else 10%Z.
Definition effectiveDesiredVolumeSize (desired : DesiredWorker) (cfg : Config) : Z :=
  if (0 <? dw_VolumeSizeGB desired)%Z then dw_VolumeSizeGB desired else effectiveAppliedVolumeSize cfg.
Definition normalizedWorkerRegion (region : string) : string := firstNonEmpty [TrimSpace region; "ord"].

Definition workerNameForSource (source baseName : string) : string :=
  let source := TrimSpace source in
  if (source =s "") || (source =s "main") then baseName
  else if HasPrefix baseName "worker-main-"
  then "worker-" +:+ source +:+ "-" +:+ TrimPrefix baseName "worker-main-"
  else if HasPrefix baseName "worker-"
  then "worker-" +:+ source +:+ "-" +:+ TrimPrefix baseName "worker-"
  else "worker-" +:+ source +:+ "-" +:+ baseName.

(** ** metering_window.go *)

Definition meteringWindowSources (meteringEnv : string) : list string :=
  fold_left (fun sources part =>
      let source := TrimSpace part in
      if (source =s "") || slices_Contains sources source then sources else sources ++ [source])
    (Split "," meteringEnv) [].

Definition meterWorker (w : DesiredWorker) : DesiredWorker :=
  let w := w <| dw_Workload ::= (fun cfg => cfg <| c_MeteringWindow := true |>) |> in
  if c_S3FaultProxyEnabled (dw_Workload w) then w
  else w <| dw_Workload ::= (fun cfg =>
         cfg <| c_S3FaultProxyEnabled := true |> <| c_S3FaultProxyMode := "observe" |>) |>.

Definition withMeteringWindowObserveProxy (meteringEnv : string) (workers : list DesiredWorker)
  : list DesiredWorker :=
  let sources := meteringWindowSources meteringEnv in
  match sources with
  | [] => workers
  | _ => map (fun w => if slices_Contains sources (dw_Source w) then meterWorker w else w) workers
  end.

(** ** The gate workers *)

Definition gateStressWorker : DesiredWorker :=
  DesiredWorker_zero <| dw_Name := "worker-gate-stress" |> <| dw_ProfileName := gateStressProfile |>
    <| dw_Region := "ord" |> <| dw_VolumeSizeGB := 20%Z |>
    <| dw_Workload := Config_zero
        <| c_LoadMode := "synthetic" |> <| c_WriteRate := 600%Z |> <| c_Pattern := "constant" |>
        <| c_PayloadSize := 2048%Z |> <| c_ReadRatio := (f64_div (f64_of_Z 1) (f64_of_Z 10)) |>
        <| c_Workers := 8%Z |> <| c_InitialSize := "50MB" |> <| c_VerifyInterval := "30m" |>
        <| c_VerifyType := "integrity" |> <| c_SnapshotInterval := "10m" |>
        <| c_SyncInterval := "1s" |> <| c_S3PartSize := "16MB" |> <| c_S3Concurrency := 8%Z |>
        <| c_TruncatePageN := (Some 0%Z) |>
        <| c_StressScenarios := "overload-truncate0,pinned-reader" |>
        <| c_StressScenarioPhase := rcGateStressPhase |> <| c_VolumeSizeGB := 20%Z |>
        <| c_MemoryMB := 2048%Z |> <| c_CPUs := 2%Z |> |>.

Definition gateManyDB500Worker : DesiredWorker :=
  DesiredWorker_zero <| dw_Name := "worker-gate-manydb-500" |> <| dw_ProfileName := gateManyDB500Profile |>
    <| dw_Region := "ord" |> <| dw_VolumeSizeGB := 15%Z |>
    <| dw_Workload := Config_zero
        <| c_LoadMode := "many-db" |> <| c_WriteRate := 20%Z |> <| c_Pattern := "constant" |>
        <| c_PayloadSize := 512%Z |> <| c_Workers := 3%Z |> <| c_InitialSize := "5MB" |>
        <| c_VerifyInterval := "30m" |> <| c_VerifyType := "integrity" |>
        <| c_SnapshotInterval := "10m" |> <| c_SyncInterval := "1s" |>
        <| c_NumDatabases := 500%Z |> <| c_ActivePercent := (f64_of_Z 2) |>
        <| c_ActiveRotateInterval := "30m" |> <| c_ActiveSetSeed := 1%Z |>
        <| c_ConfigMode := "dir" |> <| c_VerifySampleSize := 5%Z |>
        <| c_VerifyChangedLimit := 100%Z |> <| c_ReplicationLagThreshold := 0%Z |>
        <| c_VolumeSizeGB := 15%Z |> <| c_MemoryMB := 3072%Z |> <| c_CPUs := 2%Z |> |>.

Definition gateLargeDBWorker : DesiredWorker :=
  DesiredWorker_zero <| dw_Name := "worker-gate-large-db" |> <| dw_ProfileName := gateLargeDBProfile |>
    <| dw_Region := "ord" |> <| dw_VolumeSizeGB := 40%Z |>
    <| dw_Workload := Config_zero
        <| c_LoadMode := "synthetic" |> <| c_WriteRate := 10%Z |> <| c_Pattern := "constant" |>
        <| c_PayloadSize := 1024%Z |> <| c_ReadRatio := (f64_div (f64_of_Z 2) (f64_of_Z 10)) |>
        <| c_Workers := 2%Z |> <| c_InitialSize := "6GB" |>
        <| c_PopulateIndexRatio := (f64_of_Z 1) |> <| c_VerifyInterval := "2h" |>
        <| c_VerifyType := "integrity" |> <| c_VerifySourceSnapshotBudget := "20m" |>
        <| c_VerifyRestoreBudget := "45m" |> <| c_VerifyIntegrityCheckBudget := "20m" |>
        <| c_VerifyCompareBudget := "30m" |> <| c_SnapshotInterval := "6h" |>
        <| c_SyncInterval := "1s" |> <| c_VolumeSizeGB := 40%Z |> <| c_MemoryMB := 4096%Z |>
        <| c_CPUs := 2%Z |> |>.

Definition gateRemoteWorker : DesiredWorker :=
  DesiredWorker_zero <| dw_Name := "worker-gate-remote" |> <| dw_ProfileName := gateRemoteProfile |>
    <| dw_Region := "ams" |> <| dw_VolumeSizeGB := 10%Z |>
    <| dw_Workload := Config_zero
        <| c_LoadMode := "synthetic" |> <| c_WriteRate := 10%Z |> <| c_Pattern := "constant" |>
        <| c_PayloadSize := 1024%Z |> <| c_ReadRatio := (f64_div (f64_of_Z 2) (f64_of_Z 10)) |>
        <| c_Workers := 1%Z |> <| c_InitialSize := "5MB" |> <| c_VerifyInterval := "30m" |>
        <| c_VerifyType := "integrity" |> <| c_SnapshotInterval := "10m" |>
        <| c_SyncInterval := "1s" |> <| c_VolumeSizeGB := 10%Z |> <| c_MemoryMB := 1024%Z |>
        <| c_CPUs := 1%Z |> |>.

Definition gateVFSWorker : DesiredWorker :=
  DesiredWorker_zero <| dw_Name := "worker-gate-vfs" |> <| dw_ProfileName := gateVFSProfile |>
    <| dw_Region := "ord" |> <| dw_VolumeSizeGB := 10%Z |>
    <| dw_Workload := Config_zero
        <| c_LoadMode := "synthetic" |> <| c_WriteRate := 10%Z |> <| c_Pattern := "constant" |>
        <| c_PayloadSize := 1024%Z |> <| c_ReadRatio := (f64_div (f64_of_Z 1) (f64_of_Z 10)) |>
        <| c_Workers := 1%Z |> <| c_InitialSize := "20MB" |> <| c_VerifyInterval := "30m" |>
        <| c_VerifyType := "integrity" |> <| c_SnapshotInterval := "10m" |>
        <| c_SyncInterval := "1s" |> <| c_L1CompactionInterval := "30s" |>
        <| c_L2CompactionInterval := "5m" |> <| c_L3CompactionInterval := "1h" |>
        <| c_L0Retention := "10m" |> <| c_L0RetentionCheckInterval := "1m" |>
        <| c_ReplicaLevelReporting := true |> <| c_VFSReaderCheck := true |>
        <| c_VolumeSizeGB := 10%Z |> <| c_MemoryMB := 2048%Z |> <| c_CPUs := 2%Z |> |>.

Definition gateWALResetWorker : DesiredWorker :=
  DesiredWorker_zero <| dw_Name := "worker-gate-walreset" |> <| dw_ProfileName := gateWALResetProfile |>
    <| dw_Region := "ord" |> <| dw_VolumeSizeGB := 10%Z |>
    <| dw_Workload := Config_zero
        <| c_LoadMode := "synthetic" |> <| c_WriteRate := 10%Z |> <| c_Pattern := "constant" |>
        <| c_PayloadSize := 1024%Z |> <| c_ReadRatio := (f64_div (f64_of_Z 1) (f64_of_Z 10)) |>
        <| c_Workers := 1%Z |> <| c_InitialSize := "20MB" |> <| c_VerifyInterval := "30m" |>
        <| c_VerifyType := "integrity" |> <| c_SnapshotInterval := "8760h" |>
        <| c_SyncInterval := "1s" |> <| c_L1CompactionInterval := "30s" |>
        <| c_L2CompactionInterval := "5m" |> <| c_L3CompactionInterval := "1h" |>
        <| c_L0Retention := "10m" |> <| c_L0RetentionCheckInterval := "1m" |>
        <| c_ReplicaLevelReporting := true |> <| c_WALResetCheck := true |>
        <| c_VolumeSizeGB := 10%Z |> <| c_MemoryMB := 2048%Z |> <| c_CPUs := 2%Z |> |>.

Definition rcGateWorkers : list DesiredWorker :=
  [gateStressWorker; gateManyDB500Worker; gateLargeDBWorker;
   gateRemoteWorker; gateVFSWorker; gateWALResetWorker].

(** The [levels] closure of [upgradeGateWorkers]. *)
Definition upgradeLevels (cfg : Config) : Config :=
  cfg <| c_L1CompactionInterval := "30s" |> <| c_L2CompactionInterval := "5m" |>
    <| c_L3CompactionInterval := "1h" |> <| c_L0Retention := "10m" |>
    <| c_L0RetentionCheckInterval := "1m" |> <| c_ReplicaLevelReporting := true |>
    <| c_FollowCheck := true |> <| c_CompactionProgressCheck := true |>
    <| c_CompactionL0ObjectBound := 2000%Z |> <| c_CompactionL1ObjectBound := 6000%Z |>.

Definition upgradeLaneWorker : DesiredWorker :=
  DesiredWorker_zero <| dw_Name := "worker-gate-upgrade-lane" |> <| dw_ProfileName := gateUpgradeLaneProfile |>
    <| dw_Region := "ord" |> <| dw_VolumeSizeGB := 10%Z |>
    <| dw_Workload := Config_zero
        <| c_LoadMode := "synthetic" |> <| c_WriteRate := 50%Z |> <| c_Pattern := "constant" |>
        <| c_PayloadSize := 1024%Z |> <| c_ReadRatio := (f64_div (f64_of_Z 1) (f64_of_Z 10)) |>
        <| c_Workers := 2%Z |> <| c_InitialSize := "20MB" |> <| c_VerifyInterval := "30m" |>
        <| c_VerifyType := "integrity" |> <| c_SnapshotInterval := "24h" |>
        <| c_SyncInterval := "1s" |> <| c_UpgradeLane := true |>
        <| c_UpgradeWarmup := (DurationString upgradeGateDefaultWarmup) |>
        <| c_UpgradePostSnapshotInterval := "1h" |> <| c_VolumeSizeGB := 10%Z |>
        <| c_MemoryMB := 1024%Z |> <| c_CPUs := 1%Z |> |>.

Definition upgradeFollowWorker : DesiredWorker :=
  DesiredWorker_zero <| dw_Name := "worker-gate-upgrade-follow" |> <| dw_ProfileName := gateUpgradeFollowProfile |>
    <| dw_Region := "ord" |> <| dw_VolumeSizeGB := 10%Z |>
    <| dw_Workload := Config_zero
        <| c_LoadMode := "synthetic" |> <| c_WriteRate := 50%Z |> <| c_Pattern := "constant" |>
        <| c_PayloadSize := 1024%Z |> <| c_ReadRatio := (f64_div (f64_of_Z 1) (f64_of_Z 10)) |>
        <| c_Workers := 2%Z |> <| c_InitialSize := "20MB" |> <| c_VerifyInterval := "30m" |>
        <| c_VerifyType := "integrity" |> <| c_SnapshotInterval := "15m" |>
        <| c_SyncInterval := "1s" |> <| c_VolumeSizeGB := 10%Z |> <| c_MemoryMB := 1024%Z |>
        <| c_CPUs := 1%Z |> |>.

Definition upgradeGateWorkers (source : string) : list DesiredWorker :=
  let lane := upgradeLaneWorker <| dw_Workload ::= upgradeLevels |> in
  let follow := upgradeFollowWorker <| dw_Workload ::= upgradeLevels |> in
  if HasPrefix (TrimSpace source) (upgradeGateBaselinePrefix +:+ "-") then [follow]
  else if gateLaneVariantForSource source =s upgradeLaneVariantNoL9
  then [ lane <| dw_Name := "worker-gate-upgrade-lane-nol9" |>
           <| dw_ProfileName := gateUpgradeLaneNoL9Profile |>
           <| dw_Workload ::= (fun cfg => cfg <| c_UpgradeDeleteL9AtSwitch := true |>) |> ]
  else [lane; follow].

(** The loop body of [GateFleetForSource]. *)
Definition gateWorkerForSource (source gitSHA litestreamSHA : string) (w : DesiredWorker) : DesiredWorker :=
  let name := workerNameForSource source (dw_Name w) in
  w <| dw_Source := source |> <| dw_GitSHA := gitSHA |> <| dw_LitestreamSHA := litestreamSHA |>
    <| dw_Name := name |> <| dw_WorkerID := name |>
    <| dw_Workload ::= (fun cfg => cfg <| c_PopulateStopOnFailure := true |>
         <| c_LTXCoverageCheck := negb (c_LoadMode cfg =s "many-db") |>) |>.

Definition GateFleetForSource (meteringEnv source gitSHA litestreamSHA : string) : FleetSpec :=
  let source := TrimSpace source in
  let workers :=
    if isUpgrade (gateKindForSource source) then upgradeGateWorkers source else rcGateWorkers in
  mkFleetSpec (withMeteringWindowObserveProxy meteringEnv
                 (map (gateWorkerForSource source gitSHA litestreamSHA) workers)).

Definition gateFleetForSource (meteringEnv : string) (gate : RCGate)
  (source gitSHA litestreamSHA : string) : FleetSpec :=
  mkFleetSpec (List.filter (fun desired => gateSelectsProfile gate (dw_ProfileName desired))
                 (fs_Workers (GateFleetForSource meteringEnv source gitSHA litestreamSHA))).

(** The profile an unknown-profile error names is the first in request order;
    the code iterates a Go map there and names an arbitrary one of them. *)
Definition normalizeGateProfiles (meteringEnv : string) (kind : RCGateKind) (laneVariant : string)
  (requested : list string) : result gateError (list string) :=
  let wanted := List.filter (fun p => negb (p =s "")) (map TrimSpace requested) in
  match wanted with
  | [] => Ok []
  | _ =>
      let '(candidatePrefix, baselinePrefix) := gateSourcePrefixes kind laneVariant in
      let fleet := flat_map (fun source => fs_Workers (GateFleetForSource meteringEnv source "" ""))
                     [candidatePrefix +:+ "-00000000"; baselinePrefix +:+ "-00000000"] in
      let selected :=
        fold_left (fun selected desired =>
            if slices_Contains wanted (dw_ProfileName desired) &&
               negb (slices_Contains selected (dw_ProfileName desired))
            then selected ++ [dw_ProfileName desired] else selected) fleet [] in
      match List.find (fun profile => negb (slices_Contains selected profile)) wanted with
      | Some profile => Err (errRCGateInvalid ("profile " +:+ profile +:+ " is not part of the gate fleet"))
      | None => Ok selected
      end
  end.
