(* ===== verification/GateStore.v ===== *)
(** The gate table: [internal/model/rc_gates.go].

    The table is the list of its rows in insertion order with the
    AUTOINCREMENT counter.  A row keeps the columns as they are stored: the
    two durations as whole seconds and the profile list as one text; every
    other column holds the field it is scanned into.  Each operation is one
    SQL statement or transaction and is atomic; storage failures of the
    database itself are not modelled. *)
From stdpp Require Import sorting.
From Stdlib Require Import Ascii.
From S2P Require Import Prelude GoStrings Model GateFleet.

Record rcGateRow := mkRow {
  row_gate : RCGate;               (** the columns stored verbatim *)
  row_duration_seconds : Z;
  row_upgrade_warmup_seconds : Z;
  row_profiles : string
}.
#[export] Instance rcGateRow_eta : Settable rcGateRow :=
  fun r => mkRow (row_gate r) (row_duration_seconds r) (row_upgrade_warmup_seconds r) (row_profiles r).

Record gateTable := mkTable { t_rows : list rcGateRow; t_seq : Z }.
Definition emptyTable : gateTable := mkTable [] 0%Z.

Definition row_id (r : rcGateRow) : Z := g_ID (row_gate r).

(** * Row encoding *)

Definition joinGateProfiles (profiles : list string) : string := Join profiles ",".
Definition splitGateProfiles (raw : string) : list string :=
  List.filter (fun profile => negb (profile =s "")) (map TrimSpace (Split "," raw)).

(** The values [CreateRCGate] inserts. *)
Definition insertRow (gate : RCGate) (id : Z) : rcGateRow :=
  mkRow (gate <| g_ID := id |>) (Z.quot (g_Duration gate) Second) (Z.quot (g_UpgradeWarmup gate) Second)
    (joinGateProfiles (g_Profiles gate)).

(** The row scan of [listRCGates]. *)
Definition scanRow (r : rcGateRow) : RCGate :=
  (row_gate r) <| g_Profiles := splitGateProfiles (row_profiles r) |>
    <| g_Duration := int64 (row_duration_seconds r * Second) |>
    <| g_UpgradeWarmup := int64 (row_upgrade_warmup_seconds r * Second) |>.

(** [rcGateOpenClause] *)
Definition openRow (r : rcGateRow) : bool := negb (Closed (row_gate r)).

Definition hasSource (r : rcGateRow) (source : string) : bool :=
  (g_CandidateSource (row_gate r) =s source) || (g_BaselineSource (row_gate r) =s source).

(** * Operations *)

Definition CreateRCGate (t : gateTable) (gate : RCGate) : result gateError (gateTable * RCGate) :=
  let overlapping := List.filter (fun r => openRow r &&
      (hasSource r (g_CandidateSource gate) || hasSource r (g_BaselineSource gate))) (t_rows t) in
  match overlapping with
  | _ :: _ => Err ErrRCGateSourceActive
  | [] =>
      let id := (t_seq t + 1)%Z in
      Ok (mkTable (t_rows t ++ [insertRow gate id]) id, gate <| g_ID := id |>)
  end.

Definition newest_first (a b : RCGate) : Prop :=
  (g_StartedAt b < g_StartedAt a \/ (g_StartedAt a = g_StartedAt b /\ g_ID b <= g_ID a))%Z.
Definition oldest_first (a b : RCGate) : Prop := newest_first b a.
#[export] Instance newest_first_dec a b : Decision (newest_first a b).
Proof. unfold newest_first. apply _. Defined.
#[export] Instance oldest_first_dec a b : Decision (oldest_first a b) := newest_first_dec b a.

Definition ListRCGates (t : gateTable) : list RCGate := merge_sort newest_first (map scanRow (t_rows t)).

Definition GetRCGate (t : gateTable) (id : Z) : option RCGate :=
  scanRow <$> List.find (fun r => (row_id r =? id)%Z) (t_rows t).

Definition ActiveRCGates (t : gateTable) : list RCGate :=
  merge_sort oldest_first (map scanRow (List.filter openRow (t_rows t))).

(** [ORDER BY id DESC LIMIT 1]: ids grow with insertion. *)
Definition ActiveRCGateForSource (t : gateTable) (source : string) : option RCGate :=
  let source := TrimSpace source in
  scanRow <$> last (List.filter (fun r => openRow r && hasSource r source) (t_rows t)).

Definition updateRows (t : gateTable) (p : rcGateRow -> bool) (g : RCGate -> RCGate) : gateTable :=
  mkTable (map (fun r => if p r then r <| row_gate ::= g |> else r) (t_rows t)) (t_seq t).

Inductive gateSide := SideCandidate | SideBaseline.

(** The [switch source] both [PinRCGateBuild] and [MarkRCGateSideReady] start with. *)
Definition sideOfSource (t : gateTable) (id : Z) (source : string) : result gateError gateSide :=
  match List.find (fun r => (row_id r =? id)%Z) (t_rows t) with
  | None => Err (errStore "sql: no rows in result set")
  | Some r =>
      if source =s g_CandidateSource (row_gate r) then Ok SideCandidate
      else if source =s g_BaselineSource (row_gate r) then Ok SideBaseline
      else Err (errStore "source is not part of rc gate")
  end.

Definition imageOf (side : gateSide) (g : RCGate) : string * string :=
  match side with
  | SideCandidate => (g_CandidateImageRef g, g_CandidateGitSHA g)
  | SideBaseline => (g_BaselineImageRef g, g_BaselineGitSHA g)
  end.
Definition setImage (side : gateSide) (imageRef gitSHA : string) (g : RCGate) : RCGate :=
  match side with
  | SideCandidate => g <| g_CandidateImageRef := imageRef |> <| g_CandidateGitSHA := gitSHA |>
  | SideBaseline => g <| g_BaselineImageRef := imageRef |> <| g_BaselineGitSHA := gitSHA |>
  end.

(** The guarded [UPDATE] of [PinRCGateBuildContext]. *)
Definition pinUpdate (t : gateTable) (side : gateSide) (id : Z) (imageRef gitSHA : string) : gateTable :=
  updateRows t (fun r => (row_id r =? id)%Z && (fst (imageOf side (row_gate r)) =s "") && openRow r)
    (setImage side imageRef gitSHA).

Definition PinRCGateBuild (t : gateTable) (id : Z) (source imageRef gitSHA : string)
  : result gateError (gateTable * (string * string)) :=
  let! side := sideOfSource t id source in
  let t' := pinUpdate t side id imageRef gitSHA in
  match List.find (fun r => (row_id r =? id)%Z) (t_rows t') with
  | None => Err (errStore "sql: no rows in result set")
  | Some r => Ok (t', imageOf side (row_gate r))
  end.

Definition readyOf (side : gateSide) (g : RCGate) : option time :=
  match side with SideCandidate => g_CandidateReadyAt g | SideBaseline => g_BaselineReadyAt g end.
Definition setReady (side : gateSide) (at_ : time) (g : RCGate) : RCGate :=
  match side with
  | SideCandidate => g <| g_CandidateReadyAt := Some at_ |>
  | SideBaseline => g <| g_BaselineReadyAt := Some at_ |>
  end.

Definition MarkRCGateSideReady (t : gateTable) (id : Z) (source : string) (at_ : time)
  : result gateError gateTable :=
  let! side := sideOfSource t id source in
  Ok (updateRows t (fun r => (row_id r =? id)%Z && bool_decide (readyOf side (row_gate r) = None))
        (setReady side at_)).

Definition MarkRCGatePairedReady (t : gateTable) (id : Z) (at_ : time) : gateTable :=
  updateRows t (fun r => (row_id r =? id)%Z && bool_decide (g_PairedReadyAt (row_gate r) = None))
    (fun g => g <| g_PairedReadyAt := Some at_ |>).

Definition UpdateRCGateStatus (t : gateTable) (id : Z) (status : RCGateStatus)
  (completedAt : option time) (results : string) : gateTable :=
  updateRows t (fun r => (row_id r =? id)%Z)
    (fun g => g <| g_Status := status |> <| g_CompletedAt := completedAt |>
                <| g_Results := if results =s "" then g_Results g else results |>).

(** * Well-formed tables *)

(** Ids are positive, increase with insertion and stay below the counter;
    the two sources of a gate differ; open gates share no source. *)
Definition disjointSources (a b : RCGate) : Prop :=
  g_CandidateSource a <> g_CandidateSource b /\ g_CandidateSource a <> g_BaselineSource b /\
  g_BaselineSource a <> g_CandidateSource b /\ g_BaselineSource a <> g_BaselineSource b.

Definition wfTable (t : gateTable) : Prop :=
  StronglySorted (fun a b => row_id a < row_id b)%Z (t_rows t) /\
  Forall (fun r => 0 < row_id r <= t_seq t)%Z (t_rows t) /\
  (0 <= t_seq t)%Z /\
  ForallOrdPairs (fun a b => openRow a = true -> openRow b = true ->
                             disjointSources (row_gate a) (row_gate b)) (t_rows t).

Lemma wf_empty : wfTable emptyTable.
Proof. split_and!; simpl; [apply SSorted_nil|constructor|lia|constructor]. Qed.

Lemma filter_nil_inv {A} (f : A -> bool) l : List.filter f l = [] -> Forall (fun x => f x = false) l.
Proof.
  induction l as [|x l IH]; [constructor|]. rewrite filter_cons_if.
  destruct (f x) eqn:E; [discriminate|]. intros H. constructor; auto.
Qed.

Lemma hasSource_false r s :
  hasSource r s = false <-> g_CandidateSource (row_gate r) <> s /\ g_BaselineSource (row_gate r) <> s.
Proof. unfold hasSource. rewrite orb_false_iff, !eqs_false. done. Qed.

Lemma hasSource_true r s :
  hasSource r s = true <-> g_CandidateSource (row_gate r) = s \/ g_BaselineSource (row_gate r) = s.
Proof. unfold hasSource. rewrite orb_true_iff, !eqs_true. done. Qed.

Lemma ForallOrdPairs_snoc {A} (R : A -> A -> Prop) l x :
  ForallOrdPairs R l -> Forall (fun y => R y x) l -> ForallOrdPairs R (l ++ [x]).
Proof.
  induction 1 as [|a l Ha Hl IH]; intros H; simpl; [repeat constructor|].
  inversion H; subst. constructor; [|auto]. apply Forall_app. auto.
Qed.

Lemma ForallOrdPairs_map {A B} (f : A -> B) (R : A -> A -> Prop) (S : B -> B -> Prop) l :
  (forall x y, R x y -> S (f x) (f y)) -> ForallOrdPairs R l -> ForallOrdPairs S (map f l).
Proof.
  intros HRS. induction 1 as [|a l Ha Hl IH]; simpl; constructor; [|done].
  apply Forall_map. eapply Forall_impl; [exact Ha|]. simpl. auto.
Qed.

Lemma StronglySorted_snoc {A} (R : A -> A -> Prop) l x :
  StronglySorted R l -> Forall (fun y => R y x) l -> StronglySorted R (l ++ [x]).
Proof.
  induction 1 as [|a l Hl IH Ha]; intros H; simpl; [repeat constructor|].
  inversion H; subst. constructor; [auto|]. apply Forall_app. auto.
Qed.

Lemma StronglySorted_map_mono {A B} (f : A -> B) (R : A -> A -> Prop) (S : B -> B -> Prop) l :
  (forall x y, R x y -> S (f x) (f y)) -> StronglySorted R l -> StronglySorted S (map f l).
Proof.
  intros HRS. induction 1 as [|a l Hl IH Ha]; simpl; constructor; [done|].
  apply Forall_map. eapply Forall_impl; [exact Ha|]. simpl. auto.
Qed.

(** [CreateRCGate] keeps the table well formed and hands out a fresh id. *)
Lemma create_wf t gate t' gate' :
  wfTable t -> CreateRCGate t gate = Ok (t', gate') ->
  wfTable t' /\ t_rows t' = t_rows t ++ [insertRow gate (t_seq t + 1)] /\
  gate' = gate <| g_ID := (t_seq t + 1)%Z |>.
Proof.
  intros (Hs & Hb & Hseq & Hd). unfold CreateRCGate.
  destruct (List.filter _ _) eqn:E; [|discriminate]. intros [= <- <-]. split; [|done].
  apply filter_nil_inv in E. repeat split; simpl.
  - apply StronglySorted_snoc; [done|]. eapply Forall_impl; [exact Hb|]. unfold row_id. simpl. lia.
  - apply Forall_app. split; [eapply Forall_impl; [exact Hb|]; simpl; lia|].
    repeat constructor; unfold row_id; simpl; lia.
  - lia.
  - apply ForallOrdPairs_snoc; [done|]. eapply Forall_impl; [exact E|]. simpl.
    intros r Hr Ho _. rewrite Ho in Hr. simpl in Hr. apply orb_false_iff in Hr as [H1 H2].
    apply hasSource_false in H1, H2. unfold disjointSources. simpl. naive_solver.
Qed.

(** A row-wise update that keeps ids and sources and never reopens a row keeps
    the table well formed. *)
Lemma mapRows_wf t f :
  wfTable t ->
  (forall r, In r (t_rows t) -> row_id (f r) = row_id r /\
     g_CandidateSource (row_gate (f r)) = g_CandidateSource (row_gate r) /\
     g_BaselineSource (row_gate (f r)) = g_BaselineSource (row_gate r) /\
     (openRow (f r) = true -> openRow r = true)) ->
  wfTable (mkTable (map f (t_rows t)) (t_seq t)).
Proof.
  intros (Hs & Hb & Hseq & Hd) Hf. unfold wfTable. cbn [t_rows t_seq].
  revert Hs Hb Hd Hf. generalize (t_rows t). intros rows Hs Hb Hd Hf.
  induction rows as [|a rows IH]; [split_and!; simpl; done || constructor|].
  inversion Hs as [|? ? Hs1 Hs2]; inversion Hb as [|? ? Hb1 Hb2]; inversion Hd as [|? ? Hd1 Hd2]; subst.
  destruct IH as (H1' & H2' & _ & H3'); [done..|intros; apply Hf; by right|].
  destruct (Hf a (or_introl eq_refl)) as (Ea & Eca & Eba & Eoa).
  split_and!; simpl; try done.
  - constructor; [done|]. apply Forall_map, List.Forall_forall. intros x Hx. simpl.
    rewrite Ea, (proj1 (Hf x (or_intror Hx))). rewrite List.Forall_forall in Hs2. by apply Hs2.
  - constructor; [|done]. by rewrite Ea.
  - constructor; [|done]. apply Forall_map, List.Forall_forall. intros x Hx Ho Hox.
    destruct (Hf x (or_intror Hx)) as (_ & Ecx & Ebx & Eox).
    rewrite List.Forall_forall in Hd1. unfold disjointSources. rewrite Eca, Eba, Ecx, Ebx. apply Hd1; auto.
Qed.

Lemma updateRows_wf t p g :
  wfTable t ->
  (forall r, In r (t_rows t) -> p r = true ->
     g_ID (g (row_gate r)) = row_id r /\
     g_CandidateSource (g (row_gate r)) = g_CandidateSource (row_gate r) /\
     g_BaselineSource (g (row_gate r)) = g_BaselineSource (row_gate r) /\
     (Closed (row_gate r) = true -> Closed (g (row_gate r)) = true)) ->
  wfTable (updateRows t p g).
Proof.
  intros Hw Hg. apply mapRows_wf; [done|]. intros r Hin. unfold openRow. destruct (p r) eqn:Ep; [|done].
  destruct (Hg r Hin Ep) as (H1 & H2 & H3 & H4). unfold row_id. simpl.
  repeat split; auto. destruct (Closed (row_gate r)); [rewrite H4 by done; done|done].
Qed.

(** * Monotone columns

    What every operation of the file preserves of a row: its identity, the
    registration, and each write-once column once it is set. *)

Definition kept {A} (unset : A -> Prop) (a b : A) : Prop := ~ unset a -> b = a.

Record row_le (r r' : rcGateRow) : Prop := {
  le_id : row_id r' = row_id r;
  le_candidate : g_CandidateSource (row_gate r') = g_CandidateSource (row_gate r);
  le_baseline : g_BaselineSource (row_gate r') = g_BaselineSource (row_gate r);
  le_shas : (g_CandidateSHA (row_gate r'), g_BaselineSHA (row_gate r')) =
            (g_CandidateSHA (row_gate r), g_BaselineSHA (row_gate r));
  le_window : (g_StartedAt (row_gate r'), g_ExpiresAt (row_gate r'), g_TailExpiresAt (row_gate r'),
               g_ProvisionDeadline (row_gate r'), g_Tail (row_gate r')) =
              (g_StartedAt (row_gate r), g_ExpiresAt (row_gate r), g_TailExpiresAt (row_gate r),
               g_ProvisionDeadline (row_gate r), g_Tail (row_gate r));
  le_image : forall side, kept (fun p : string * string => fst p = "")
               (imageOf side (row_gate r)) (imageOf side (row_gate r'));
  le_ready : forall side, kept (eq None) (readyOf side (row_gate r)) (readyOf side (row_gate r'));
  le_paired : kept (eq None) (g_PairedReadyAt (row_gate r)) (g_PairedReadyAt (row_gate r'))
}.

Definition table_le (t t' : gateTable) : Prop :=
  exists l rest, t_rows t' = l ++ rest /\ Forall2 row_le (t_rows t) l.

#[export] Instance row_le_preorder : PreOrder row_le.
Proof.
  split.
  - intros r. by constructor.
  - intros a b c [] []. constructor; try congruence.
    + intros side Hn. rewrite le_image1; [by apply le_image0|]. by rewrite le_image0.
    + intros side Hn. rewrite le_ready1; [by apply le_ready0|]. by rewrite le_ready0.
    + intros Hn. rewrite le_paired1; [by apply le_paired0|]. by rewrite le_paired0.
Qed.

#[export] Instance table_le_preorder : PreOrder table_le.
Proof.
  split.
  - intros t. exists (t_rows t), []. rewrite app_nil_r. split; [done|]. reflexivity.
  - intros a b c (l1 & r1 & E1 & F1) (l2 & r2 & E2 & F2).
    rewrite E1 in F2. apply Forall2_app_inv_l in F2 as (l21 & l22 & F21 & F22 & ->).
    exists l21, (l22 ++ r2). split; [by rewrite E2, <- app_assoc|]. by etrans.
Qed.

Lemma find_le t t' id r :
  table_le t t' -> List.find (fun r => (row_id r =? id)%Z) (t_rows t) = Some r ->
  exists r', List.find (fun r => (row_id r =? id)%Z) (t_rows t') = Some r' /\ row_le r r'.
Proof.
  intros (l & rest & -> & F). revert F. generalize (t_rows t). intros rows F.
  induction F as [|a b rows l Hab F IH]; simpl; [discriminate|].
  rewrite (le_id _ _ Hab). destruct (row_id a =? id)%Z; [|done].
  intros [= ->]. eauto.
Qed.

Lemma updateRows_le t p g :
  (forall r, p r = true -> row_le r (r <| row_gate ::= g |>)) -> table_le t (updateRows t p g).
Proof.
  intros H. exists (t_rows (updateRows t p g)), []. rewrite app_nil_r. split; [done|]. simpl.
  induction (t_rows t) as [|r l IH]; simpl; constructor; [|done].
  destruct (p r) eqn:E; [by apply H|reflexivity].
Qed.

Lemma create_le t gate t' gate' : CreateRCGate t gate = Ok (t', gate') -> table_le t t'.
Proof.
  unfold CreateRCGate. destruct (List.filter _ _); [|discriminate]. intros [= <- <-].
  exists (t_rows t), [insertRow gate (t_seq t + 1)]. split; [done|]. reflexivity.
Qed.

Lemma pinUpdate_le t side id image git : table_le t (pinUpdate t side id image git).
Proof.
  apply updateRows_le. intros r H. apply andb_prop in H as [H _]. apply andb_prop in H as [_ H].
  apply eqs_true in H. constructor; try (by destruct side); destruct side.
  - intros [] Hn; [by destruct Hn|done].
  - intros [] Hn; [done|by destruct Hn].
Qed.

Lemma markSide_le t id source at_ t' : MarkRCGateSideReady t id source at_ = Ok t' -> table_le t t'.
Proof.
  unfold MarkRCGateSideReady. destruct (sideOfSource t id source) as [side|]; [|discriminate].
  intros [= <-]. apply updateRows_le. intros r H.
  apply andb_prop in H as [_ H%bool_decide_eq_true].
  constructor; try (by destruct side); destruct side; intros [] Hn; try done; by destruct Hn.
Qed.

Lemma markPaired_le t id at_ : table_le t (MarkRCGatePairedReady t id at_).
Proof.
  apply updateRows_le. intros r H. apply andb_prop in H as [_ H%bool_decide_eq_true].
  constructor; try done. intros Hn. by destruct Hn.
Qed.

Lemma updateStatus_le t id status at_ results : table_le t (UpdateRCGateStatus t id status at_ results).
Proof. apply updateRows_le. intros r _. by constructor. Qed.

Create HintDb gate_table.
#[export] Hint Resolve create_le pinUpdate_le markSide_le markPaired_le updateStatus_le : gate_table.
#[export] Hint Extern 1 (table_le _ _) => reflexivity : gate_table.

Lemma sideOfSource_le t t' id source side :
  table_le t t' -> sideOfSource t id source = Ok side -> sideOfSource t' id source = Ok side.
Proof.
  unfold sideOfSource. intros Hle. destruct (List.find _ (t_rows t)) as [r|] eqn:E; [|discriminate].
  destruct (find_le _ _ _ _ Hle E) as (r' & -> & H).
  by rewrite (le_candidate _ _ H), (le_baseline _ _ H).
Qed.

(** What a pin returns is what the table then holds. *)
Lemma pin_reads t id source image git t' p :
  PinRCGateBuild t id source image git = Ok (t', p) ->
  table_le t t' /\
  exists side r, sideOfSource t id source = Ok side /\
    List.find (fun r => (row_id r =? id)%Z) (t_rows t') = Some r /\ p = imageOf side (row_gate r).
Proof.
  unfold PinRCGateBuild. destruct (sideOfSource t id source) as [side|] eqn:Es; [|discriminate]. simpl.
  destruct (List.find _ _) as [r|] eqn:Ef; [|discriminate]. intros [= <- <-].
  split; [apply pinUpdate_le|]. eauto 6.
Qed.

(** The build a gate side runs is write-once.  After a pin of a side has
    returned a build, whatever gate operations run in between, every later
    pin of that side of that gate returns the same build and image, whichever
    build it asks for. *)
Theorem pin_write_once t id source image git t1 p t2 image' git' t3 p' :
  PinRCGateBuild t id source image git = Ok (t1, p) -> fst p <> "" ->
  table_le t1 t2 ->
  PinRCGateBuild t2 id source image' git' = Ok (t3, p') -> p' = p.
Proof.
  intros (Hle & side & r & Hs & Hf & ->)%pin_reads Hne H12 (H23 & side' & r3 & Hs' & Hf3 & ->)%pin_reads.
  assert (Ok side = Ok side' :> result gateError gateSide) as [= <-].
  { rewrite <- Hs'. symmetry. eapply sideOfSource_le; [|exact Hs]. by etrans. }
  destruct (find_le t1 t3 _ _ (transitivity H12 H23) Hf) as (r3' & Hf' & Hr).
  rewrite Hf3 in Hf'. injection Hf' as <-. by apply (le_image _ _ Hr).
Qed.

Definition sample_gate : RCGate :=
  RCGate_zero <| g_CandidateSource := "rc-11111111" |> <| g_BaselineSource := "rcbase-22222222" |>
    <| g_CandidateSHA := "c" |> <| g_BaselineSHA := "b" |> <| g_Duration := (72 * Hour)%Z |>
    <| g_ExpiresAt := (100 + 72 * Hour)%Z |> <| g_StartedAt := 100%Z |>
    <| g_ProvisionDeadline := (100 + 2 * Hour)%Z |>.
Definition sample_table : gateTable := mkTable [insertRow sample_gate 1] 1.
Definition sample_pinned : gateTable := pinUpdate sample_table SideCandidate 1 "img1" "git1".

Lemma pin_write_once_witness :
  exists t3 p', PinRCGateBuild (MarkRCGatePairedReady sample_pinned 1 5) 1 "rc-11111111" "img2" "git2" = Ok (t3, p')
    /\ p' = ("img1", "git1").
Proof.
  eexists _, _. split; [vm_compute; reflexivity|].
  eapply (pin_write_once sample_table 1 "rc-11111111" "img1" "git1" sample_pinned ("img1", "git1")
            (MarkRCGatePairedReady sample_pinned 1 5) "img2" "git2").
  - vm_compute. reflexivity.
  - discriminate.
  - apply markPaired_le.
  - vm_compute. reflexivity.
Defined.

(** * Reading back what was stored *)

Definition plainProfile (p : string) : bool :=
  negb (p =s "") && (TrimSpace p =s p) && negb (char_in_str "," p).

Lemma splitGateProfiles_join profiles :
  Forall (fun p => plainProfile p = true) profiles -> splitGateProfiles (joinGateProfiles profiles) = profiles.
Proof.
  unfold splitGateProfiles, joinGateProfiles. induction 1 as [|p l Hp Hl IH]; [done|].
  unfold plainProfile in Hp. apply andb_prop in Hp as [Hp Hc]. apply andb_prop in Hp as [Hn Ht].
  apply eqs_true in Ht. apply negb_true_iff in Hc. destruct l as [|q l'].
  - simpl Join. rewrite Split_clean by done. rewrite map_cons, filter_cons_if, Ht, Hn. done.
  - rewrite Join_cons_nonempty by done. rewrite append_cons, append_nil_l, Split_app_sep by done.
    rewrite map_cons, filter_cons_if, Ht, Hn. by rewrite IH.
Qed.
