(* ===== verification/GateRegister.v ===== *)
(** Gate registration and provisioning permission: [RegisterRCGate],
    [checkRCGateProvisioning], [rcGateFleetForSource] and
    [pinRCGateDeployment] of [internal/orchestrator/rc_gate.go], over the
    gate table of [GateStore].

    [meteringEnv] is the value of [SOAK_METERING_WINDOW_SOURCES]; times are
    UTC throughout, so [now.UTC()] is the identity. *)
From Stdlib Require Import Ascii.
From S2P Require Import Prelude GoStrings Regex Model GoTime GateFleet GateStore.

(** * State *)

Record gateEvent := mkGateEvent {
  ge_Worker : string; ge_Type : string; ge_Message : string; ge_Details : string
}.
Record gateWorld := mkGateWorld { gw_gates : gateTable; gw_events : list gateEvent }.
#[export] Instance gateWorld_eta : Settable gateWorld := fun r => mkGateWorld (gw_gates r) (gw_events r).

Definition RecordEvent (w : gateWorld) (worker type message details : string) : gateWorld :=
  w <| gw_events := gw_events w ++ [mkGateEvent worker type message details] |>.

Record RCGateRequest := mkRequest {
  rq_Kind : string;
  rq_Repository : string;
  rq_CandidateRef : string;
  rq_CandidateSHA : string;
  rq_BaselineSHA : string;
  rq_Duration : string;
  rq_UpgradeWarmup : string;
  rq_LaneVariant : string;
  rq_Tail : bool;
  rq_Profiles : list string;
  rq_SourceSuffix : string;
  rq_ObserveProxy : bool
}.
#[export] Instance RCGateRequest_eta : Settable RCGateRequest :=
  fun r => mkRequest (rq_Kind r) (rq_Repository r) (rq_CandidateRef r) (rq_CandidateSHA r)
    (rq_BaselineSHA r) (rq_Duration r) (rq_UpgradeWarmup r) (rq_LaneVariant r) (rq_Tail r)
    (rq_Profiles r) (rq_SourceSuffix r) (rq_ObserveProxy r).

Definition bool_string (b : bool) : string := if b then "true" else "false".
Definition RCGateKind_string (k : RCGateKind) : string :=
  match k with RCGateKindRC => "rc" | RCGateKindUpgrade => "upgrade" end.

Definition parseRCGateKind (raw : string) : result gateError RCGateKind :=
  let kind := TrimSpace raw in
  if (kind =s "") || (kind =s "rc") then Ok RCGateKindRC
  else if kind =s "upgrade" then Ok RCGateKindUpgrade
  else Err (errRCGateInvalid "kind must be rc or upgrade").

(** * The provisioning window of a profile *)

Definition gateHasProfile (meteringEnv : string) (gate : RCGate) (profile : string) : bool :=
  existsb (fun source =>
      existsb (fun desired => dw_ProfileName desired =s profile)
        (fs_Workers (gateFleetForSource meteringEnv gate source "" ""))) (Sources gate).

Definition rcGateProfileWindow (meteringEnv : string) (gate : RCGate) (profile : string) : bool * time :=
  if negb (gateHasProfile meteringEnv gate profile) then (false, 0%Z)
  else
    let tailProfile :=
      if g_Tail gate && (profile =s gateStressProfile) then g_TailExpiresAt gate else None in
    match g_Status gate, tailProfile with
    | RCGateRunning, Some tailExpiresAt => (true, tailExpiresAt)
    | RCGateRunning, None => (true, g_ExpiresAt gate)
    | RCGateTail, Some tailExpiresAt => (true, tailExpiresAt)
    | _, _ => (false, 0%Z)
    end.

Definition rcGateProfilePermitted (meteringEnv : string) (gate : RCGate) (profile : string) (now : time) : bool :=
  let '(allowed, deadline) := rcGateProfileWindow meteringEnv gate profile in
  if negb allowed || negb (Before now deadline) then false
  else match g_PairedReadyAt gate with
       | Some _ => true
       | None => Before now (g_ProvisionDeadline gate)
       end.

(** * Registration *)

(** The checks on a request up to the source suffix, in order: the kind, the
    two commits, the duration, the warm-up, the lane variant, the profiles
    and the suffix. *)
Record checkedRequest := mkChecked {
  cr_kind : RCGateKind;
  cr_candidateSHA : string;
  cr_baselineSHA : string;
  cr_duration : duration;
  cr_warmup : duration;
  cr_laneVariant : string;
  cr_profiles : list string;
  cr_suffix : string
}.

Definition checkDuration (kind : RCGateKind) (raw : string) : result gateError duration :=
  let text := TrimSpace raw in
  let text := if (text =s "") && isUpgrade kind then DurationString upgradeGateDefaultDuration else text in
  let invalid := errRCGateInvalid
    ("duration must be a positive duration no longer than " +:+ DurationString rcGateMaxDuration) in
  match ParseDuration text with
  | None => Err invalid
  | Some d => if (d <=? 0)%Z || (rcGateMaxDuration <? d)%Z then Err invalid else Ok d
  end.

Definition checkWarmup (kind : RCGateKind) (tail : bool) (raw : string) (gateDuration : duration)
  : result gateError duration :=
  let text := TrimSpace raw in
  if isUpgrade kind then
    if tail then Err (errRCGateInvalid "upgrade gates do not support tail")
    else
      let! warmup :=
        (if text =s "" then Ok upgradeGateDefaultWarmup
         else match ParseDuration text with
              | Some d =>
                  if (d <=? 0)%Z then Err (errRCGateInvalid "upgrade_warmup must be a positive duration")
                  else Ok d
              | None => Err (errRCGateInvalid "upgrade_warmup must be a positive duration")
              end) in
      if (gateDuration <=? warmup)%Z
      then Err (errRCGateInvalid ("upgrade_warmup " +:+ DurationString warmup +:+
                  " must be shorter than duration " +:+ DurationString gateDuration))
      else Ok warmup
  else if negb (text =s "")
  then Err (errRCGateInvalid "upgrade_warmup is only valid for upgrade gates")
  else Ok 0%Z.

Definition checkRequest (meteringEnv : string) (request : RCGateRequest) : result gateError checkedRequest :=
  let! kind := parseRCGateKind (rq_Kind request) in
  if negb (TrimSpace (rq_Repository request) =s rcGateUpstreamRepository)
  then Err (errRCGateInvalid ("repository must be " +:+ rcGateUpstreamRepository))
  else
  let candidateSHA := TrimSpace (rq_CandidateSHA request) in
  let baselineSHA := TrimSpace (rq_BaselineSHA request) in
  if negb (MatchAnchored fullCommitSHARe candidateSHA) || negb (MatchAnchored fullCommitSHARe baselineSHA)
  then Err (errRCGateInvalid "candidate_sha and baseline_sha must be 40-character lowercase hex commit SHAs")
  else if candidateSHA =s baselineSHA
  then Err (errRCGateInvalid "candidate and baseline must be different commits")
  else
  let! gateDuration := checkDuration kind (rq_Duration request) in
  let! warmup := checkWarmup kind (rq_Tail request) (rq_UpgradeWarmup request) gateDuration in
  let! laneVariant := parseLaneVariant (rq_LaneVariant request) kind in
  let! profiles := normalizeGateProfiles meteringEnv kind laneVariant (rq_Profiles request) in
  if rq_Tail request && negb (bool_decide (profiles = [])) && negb (slices_Contains profiles gateStressProfile)
  then Err (errRCGateInvalid ("tail requires the " +:+ gateStressProfile +:+ " profile"))
  else
  let suffix := TrimSpace (rq_SourceSuffix request) in
  if negb (suffix =s "") && negb (MatchAnchored gateSourceSuffixRe suffix)
  then Err (errRCGateInvalid "source_suffix must be 1 to 8 lowercase letters or digits")
  else Ok (mkChecked kind candidateSHA baselineSHA gateDuration warmup laneVariant profiles suffix).

(** The gate literal, before its resources are filled in. *)
Definition newGate (request : RCGateRequest) (c : checkedRequest) (now : time) : RCGate :=
  let '(candidatePrefix, baselinePrefix) := gateSourcePrefixes (cr_kind c) (cr_laneVariant c) in
  RCGate_zero
    <| g_Kind := cr_kind c |> <| g_LaneVariant := cr_laneVariant c |>
    <| g_Repository := TrimSpace (rq_Repository request) |>
    <| g_CandidateRef := TrimSpace (rq_CandidateRef request) |>
    <| g_CandidateSource := gateSourceName candidatePrefix (cr_candidateSHA c) (cr_suffix c) |>
    <| g_CandidateSHA := cr_candidateSHA c |>
    <| g_BaselineSource := gateSourceName baselinePrefix (cr_baselineSHA c) (cr_suffix c) |>
    <| g_BaselineSHA := cr_baselineSHA c |>
    <| g_Duration := cr_duration c |> <| g_UpgradeWarmup := cr_warmup c |>
    <| g_Tail := rq_Tail request |> <| g_Profiles := cr_profiles c |>
    <| g_ObserveProxy := rq_ObserveProxy request |>
    <| g_Status := RCGateRunning |> <| g_StartedAt := now |>
    <| g_ExpiresAt := time_Add now (cr_duration c) |>
    <| g_ProvisionDeadline := time_Add now rcGateProvisionTimeout |>
    <| g_TailExpiresAt := if rq_Tail request then Some (time_Add now rcGateTailDuration) else None |>.

Definition gateResource (meteringEnv : string) (gate : RCGate) (source : string) (desired : DesiredWorker)
  : RCGateResource :=
  mkRCGateResource source (dw_Name desired) (dw_ProfileName desired)
    (normalizedWorkerRegion (dw_Region desired)) (c_CPUs (dw_Workload desired))
    (c_MemoryMB (dw_Workload desired)) (effectiveDesiredVolumeSize desired (dw_Workload desired))
    (g_Tail gate && (dw_ProfileName desired =s gateStressProfile))
    (g_StartedAt gate) (snd (rcGateProfileWindow meteringEnv gate (dw_ProfileName desired))).

Definition gateResources (meteringEnv : string) (gate : RCGate) : list RCGateResource :=
  flat_map (fun source =>
      let '(litestreamSHA, _) := LitestreamSHAFor gate source in
      map (gateResource meteringEnv gate source)
        (fs_Workers (gateFleetForSource meteringEnv gate source "" litestreamSHA))) (Sources gate).

#[export] Instance list_string_eq_dec : EqDecision (list string) := list_eq_dec.

(** The comparison with the gate that already owns the candidate source. *)
Definition sameRegistration (existing gate : RCGate) : bool :=
  bool_decide (g_Kind existing = g_Kind gate) && (g_LaneVariant existing =s g_LaneVariant gate) &&
  (g_Repository existing =s g_Repository gate) && (g_CandidateSHA existing =s g_CandidateSHA gate) &&
  (g_BaselineSHA existing =s g_BaselineSHA gate) && (g_Duration existing =? g_Duration gate)%Z &&
  (g_UpgradeWarmup existing =? g_UpgradeWarmup gate)%Z && eqb (g_Tail existing) (g_Tail gate) &&
  bool_decide (g_Profiles existing = g_Profiles gate) &&
  eqb (g_ObserveProxy existing) (g_ObserveProxy gate).

Definition registeredEvent (w : gateWorld) (gate : RCGate) : gateWorld :=
  RecordEvent w "" "rc_gate_registered"
    ("Registered " +:+ RCGateKind_string (g_Kind gate) +:+ " gate " +:+ g_CandidateSource gate +:+
     " vs " +:+ g_BaselineSource gate +:+ " for " +:+ DurationString (g_Duration gate))
    ("gate_id=" +:+ pretty (g_ID gate) +:+ " tail=" +:+ bool_string (g_Tail gate) +:+
     " upgrade_warmup=" +:+ DurationString (g_UpgradeWarmup gate) +:+
     " lane_variant=" +:+ g_LaneVariant gate +:+
     " profiles=" +:+ firstNonEmpty [Join (g_Profiles gate) ","; "all"] +:+
     " observe_proxy=" +:+ bool_string (g_ObserveProxy gate)).

Definition RegisterRCGate (meteringEnv : string) (w : gateWorld) (request : RCGateRequest) (now : time)
  : result gateError (gateWorld * (RCGate * bool)) :=
  let! c := checkRequest meteringEnv request in
  let gate := newGate request c now in
  let metered := if g_ObserveProxy gate then meteringWindowSources meteringEnv else [] in
  match List.find (slices_Contains metered) (Sources gate) with
  | Some source => Err (errRCGateInvalid ("observe_proxy cannot be combined with metering window source " +:+
      source +:+ ", whose verifications would be excluded from the verdict"))
  | None =>
  let gate := gate <| g_Resources := gateResources meteringEnv gate |> in
  match CreateRCGate (gw_gates w) gate with
  | Ok (gates, gate) => Ok (registeredEvent (w <| gw_gates := gates |>) gate, (gate, true))
  | Err err =>
      match err with
      | ErrRCGateSourceActive =>
          match ActiveRCGateForSource (gw_gates w) (g_CandidateSource gate) with
          | Some existing => if sameRegistration existing gate then Ok (w, (existing, false)) else Err err
          | None => Err err
          end
      | _ => Err err
      end
  end
  end.

(** * Permission to run a worker *)

Definition applyGateWorker (gate : RCGate) (w : DesiredWorker) : DesiredWorker :=
  let w := if c_UpgradeLane (dw_Workload w) && (0 <? g_UpgradeWarmup gate)%Z
           then w <| dw_Workload ::= (fun cfg => cfg <| c_UpgradeWarmup := DurationString (g_UpgradeWarmup gate) |>) |>
           else w in
  let w :=
    if g_ObserveProxy gate then
      let w := if negb (c_S3FaultProxyEnabled (dw_Workload w))
               then w <| dw_Workload ::= (fun cfg =>
                      cfg <| c_S3FaultProxyEnabled := true |> <| c_S3FaultProxyMode := "observe" |>) |>
               else w in
      if c_S3FaultProxyMode (dw_Workload w) =s "observe"
      then w <| dw_Workload ::= (fun cfg => cfg <| c_S3ObserveProxyRequired := true |>) |> else w
    else w in
  fold_left (fun w resource =>
      if (rr_Source resource =s dw_Source w) && (rr_Profile resource =s dw_ProfileName w) &&
         (0 <? rr_VolumeGB resource)%Z
      then w <| dw_VolumeSizeGB := rr_VolumeGB resource |>
             <| dw_Workload ::= (fun cfg => cfg <| c_VolumeSizeGB := rr_VolumeGB resource |>) |>
      else w) (g_Resources gate) w.

Definition applyGateWorkload (gate : RCGate) (spec : FleetSpec) : FleetSpec :=
  mkFleetSpec (map (applyGateWorker gate) (fs_Workers spec)).

Definition checkRCGateProvisioning (meteringEnv : string) (t : gateTable)
  (source profile imageRef litestreamSHA : string) (now : time) : result gateError () :=
  if negb (isGateSource source) then Ok ()
  else
  match ActiveRCGateForSource t source with
  | None => Err errRCGateClosed
  | Some gate =>
      if negb (rcGateProfilePermitted meteringEnv gate profile now) then Err errRCGateClosed
      else
        let '(pinnedImage, _) := PinnedBuildFor gate source in
        let '(pinnedLitestream, _) := LitestreamSHAFor gate source in
        if (pinnedImage =s "") || negb (TrimSpace imageRef =s pinnedImage) ||
           negb (EqualFold (TrimSpace litestreamSHA) pinnedLitestream)
        then Err errRCGatePinned else Ok ()
  end.

Definition rcGateFleetForSource (meteringEnv : string) (t : gateTable)
  (source gitSHA litestreamSHA : string) (now : time) : result gateError FleetSpec :=
  match ActiveRCGateForSource t source with
  | None => Err errRCGateClosed
  | Some gate =>
      let spec := applyGateWorkload gate (gateFleetForSource meteringEnv gate source gitSHA litestreamSHA) in
      Ok (mkFleetSpec (List.filter (fun desired =>
            rcGateProfilePermitted meteringEnv gate (dw_ProfileName desired) now) (fs_Workers spec)))
  end.

(** The table is part of the result on every branch: a refused pin may still
    have run the guarded update. *)
Definition pinRCGateDeployment (t : gateTable) (source gitSHA litestreamSHA imageRef : string) (now : time)
  : gateTable * result gateError string :=
  match ActiveRCGateForSource t source with
  | None => (t, Err errRCGateNotRegistered)
  | Some gate =>
      let '(pinnedSHA, _) := LitestreamSHAFor gate source in
      if negb (EqualFold pinnedSHA (TrimSpace litestreamSHA)) then (t, Err errRCGatePinned)
      else
        let '(currentImage, _) := PinnedBuildFor gate source in
        if (currentImage =s "") &&
           (negb (bool_decide (g_Status gate = RCGateRunning)) || negb (Before now (g_ProvisionDeadline gate)))
        then (t, Err errRCGateClosed)
        else
          match PinRCGateBuild t (g_ID gate) source imageRef gitSHA with
          | Err e => (t, Err e)
          | Ok (t', (pinnedImage, pinnedGit)) =>
              if (pinnedImage =s "") || negb (pinnedGit =s gitSHA) then (t', Err errRCGatePinned)
              else (t', Ok pinnedImage)
          end
  end.

(** * What a checked request guarantees *)

Record requestOk (meteringEnv : string) (request : RCGateRequest) (c : checkedRequest) : Prop := {
  ok_candidate : String.length (cr_candidateSHA c) = 40 /\ all_chars is_lower_hex (cr_candidateSHA c) = true;
  ok_baseline : String.length (cr_baselineSHA c) = 40 /\ all_chars is_lower_hex (cr_baselineSHA c) = true;
  ok_differ : cr_candidateSHA c <> cr_baselineSHA c;
  ok_duration : (0 < cr_duration c <= rcGateMaxDuration)%Z;
  ok_kind :
    (cr_kind c = RCGateKindRC /\ cr_warmup c = 0%Z /\ cr_laneVariant c = "") \/
    (cr_kind c = RCGateKindUpgrade /\ rq_Tail request = false /\
     (0 < cr_warmup c < cr_duration c)%Z /\
     (cr_laneVariant c = "" \/ cr_laneVariant c = upgradeLaneVariantNoL9));
  ok_profiles : normalizeGateProfiles meteringEnv (cr_kind c) (cr_laneVariant c) (rq_Profiles request) =
                Ok (cr_profiles c);
  ok_tail : rq_Tail request = true ->
            cr_profiles c = [] \/ In gateStressProfile (cr_profiles c);
  ok_suffix : cr_suffix c = "" \/
    ((1 <= String.length (cr_suffix c) <= 8) /\ all_chars is_lower_alnum (cr_suffix c) = true)
}.

Lemma rbind_Ok {E A B} (r : result E A) (k : A -> result E B) b :
  rbind r k = Ok b -> exists a, r = Ok a /\ k a = Ok b.
Proof. destruct r; [eauto|discriminate]. Qed.

Lemma checkDuration_Ok kind raw d : checkDuration kind raw = Ok d -> (0 < d <= rcGateMaxDuration)%Z.
Proof.
  unfold checkDuration. destruct (ParseDuration _) as [x|]; [|discriminate].
  destruct (_ || _) eqn:E; [discriminate|]. intros [= <-].
  apply orb_false_iff in E as [?%Z.leb_gt ?%Z.ltb_ge]. lia.
Qed.

Lemma checkWarmup_Ok kind tail raw d w :
  checkWarmup kind tail raw d = Ok w ->
  (kind = RCGateKindRC /\ w = 0%Z) \/ (kind = RCGateKindUpgrade /\ tail = false /\ (0 < w < d)%Z).
Proof.
  unfold checkWarmup. destruct kind; simpl.
  - destruct (negb _); [discriminate|]. intros [= <-]. by left.
  - destruct tail; [discriminate|]. intros (x & Hx & Hk)%rbind_Ok.
    destruct (Z.leb_spec d x); [discriminate|]. injection Hk as <-. right. split_and!; try done.
    destruct (_ =s _); [injection Hx as <-; done|].
    destruct (ParseDuration _) as [y|]; [|discriminate].
    destruct (Z.leb_spec y 0); [discriminate|]. by injection Hx as <-.
Qed.

Lemma parseLaneVariant_Ok raw kind v :
  parseLaneVariant raw kind = Ok v ->
  v = "" \/ (kind = RCGateKindUpgrade /\ v = upgradeLaneVariantNoL9).
Proof.
  unfold parseLaneVariant. destruct (eqs_spec (TrimSpace raw) ""); [intros [= <-]; by left|].
  destruct kind; [discriminate|]. simpl. destruct (eqs_spec (TrimSpace raw) upgradeLaneVariantNoL9); [|discriminate].
  intros [= <-]. by right.
Qed.

Lemma checkRequest_Ok env request c : checkRequest env request = Ok c -> requestOk env request c.
Proof.
  unfold checkRequest. intros (kind & _ & H)%rbind_Ok. revert H.
  destruct (negb (TrimSpace _ =s _)); [discriminate|].
  destruct (negb (MatchAnchored _ _)  || _) eqn:Esha; [discriminate|].
  apply orb_false_iff in Esha as [Ec%negb_false_iff Eb%negb_false_iff].
  apply rep_end_inv in Ec, Eb.
  destruct (eqs_spec (TrimSpace (rq_CandidateSHA request)) (TrimSpace (rq_BaselineSHA request))) as [|Hd];
    [discriminate|].
  intros (d & Hdur%checkDuration_Ok & (w & Hw%checkWarmup_Ok & (v & Hv%parseLaneVariant_Ok &
    (ps & Hps & H)%rbind_Ok)%rbind_Ok)%rbind_Ok)%rbind_Ok. revert H.
  destruct (rq_Tail request && _ && _) eqn:Etail; [discriminate|].
  destruct (negb (TrimSpace _ =s "") && _) eqn:Esuf; [discriminate|].
  intros [= <-]. constructor; simpl; try done.
  - naive_solver.
  - intros Ht. rewrite Ht in Etail. simpl in Etail. apply andb_false_iff in Etail as [E|E].
    + apply negb_false_iff in E. left. by apply bool_decide_eq_true in E.
    + apply negb_false_iff in E. right. by apply slices_Contains_In.
  - destruct (eqs_spec (TrimSpace (rq_SourceSuffix request)) ""); [by left|]. right. simpl in Esuf.
    apply negb_false_iff in Esuf. by apply upto_end_inv in Esuf.
Qed.

(** * Source names *)

Definition gatePrefixes : list string := ["rc"; "rcbase"; "up"; "upbase"; "up-nol9"; "upbase-nol9"].

Definition goodSuffix (suffix : string) : Prop :=
  suffix = "" \/ ((1 <= String.length suffix <= 8) /\ all_chars is_lower_alnum suffix = true).

Lemma lower_hex_not_space c : is_lower_hex c = true -> not_space c = true.
Proof. destruct c as [[] [] [] [] [] [] [] []]; vm_compute; congruence. Qed.
Lemma lower_alnum_not_space c : is_lower_alnum c = true -> not_space c = true.
Proof. destruct c as [[] [] [] [] [] [] [] []]; vm_compute; congruence. Qed.

Lemma eats_re_suffix u :
  (1 <= String.length u <= 8) -> all_chars is_lower_alnum u = true -> eats re_suffix u.
Proof.
  intros Hl Hu. destruct u as [|c u]; simpl in *; [lia|]. apply andb_prop in Hu as [Hc Hu].
  apply (eats_seq _ _ (String c "") u); [by apply eats_char|]. apply eats_upto; [done|lia].
Qed.

Section SourceNames.
Context (prefix sha suffix : string).
Context (Hp : In prefix gatePrefixes) (Hsha : all_chars is_lower_hex sha = true)
        (Hlen : String.length sha = 40) (Hsuf : goodSuffix suffix).

Lemma sourceName_clean : all_chars not_space (gateSourceName prefix sha suffix) = true.
Proof using Hp Hsha Hsuf.
  assert (all_chars not_space prefix = true).
  { clear -Hp. by destruct Hp as [<-|[<-|[<-|[<-|[<-|[<-|[]]]]]]]. }
  assert (all_chars not_space (str_take 8 sha) = true).
  { apply all_chars_take. eapply all_chars_impl; [apply lower_hex_not_space|done]. }
  assert (all_chars not_space suffix = true).
  { destruct Hsuf as [->|[_ ?]]; [done|]. eapply all_chars_impl; [apply lower_alnum_not_space|done]. }
  unfold gateSourceName. destruct (negb _); rewrite !all_chars_app, H, H0, ?H1; reflexivity.
Qed.

Lemma sourceName_trim : TrimSpace (gateSourceName prefix sha suffix) = gateSourceName prefix sha suffix.
Proof using Hp Hsha Hsuf. apply TrimSpace_clean, sourceName_clean. Qed.

Lemma eats_source (lane : string) (head : string) :
  eats (RAny [RLit "rc"; RLit "rcbase"; RLit "up"; RLit "upbase"]) head ->
  eats (ROpt (RLit "-nol9")) lane ->
  MatchAnchored gateSourceRe (gateSourceName (head +:+ lane) sha suffix) = true.
Proof using Hsha Hlen Hsuf.
  intros Hh Hl. set (mid := str_take 8 sha).
  assert (eats (RRep 8 (RChar is_lower_hex)) mid).
  { apply eats_rep; [by apply all_chars_take|]. unfold mid. rewrite length_str_take. lia. }
  assert (exists tail, gateSourceName (head +:+ lane) sha suffix = head +:+ lane +:+ "-" +:+ mid +:+ tail
            /\ eats (ROpt (RSeq (RLit "-") re_suffix)) tail) as (tail & -> & Htail).
  { unfold gateSourceName. destruct Hsuf as [->|[Hl8 Hall]]; simpl negb.
    - exists "". rewrite append_nil_r, append_assoc. split; [done|apply eats_opt_nil].
    - destruct (eqs_spec suffix "") as [->|]; [simpl in Hl8; lia|]. exists ("-" +:+ suffix). simpl negb.
      rewrite !append_assoc. split; [done|]. apply eats_alt_l, eats_seq; [apply eats_lit|by apply eats_re_suffix]. }
  apply MatchAnchored_iff.
  destruct (Hh None (lane +:+ "-" +:+ mid +:+ tail) []) as [p1 H1].
  destruct (Hl p1 ("-" +:+ mid +:+ tail) []) as [p2 H2].
  destruct (eats_lit "-" p2 (mid +:+ tail) []) as [p3 H3].
  destruct (H p3 tail []) as [p4 H4].
  destruct (Htail p4 "" []) as [p5 H5]. rewrite append_nil_r in H5.
  eexists. unfold gateSourceRe. do 5 (econstructor; [eassumption|]). by constructor.
Qed.

Lemma sourceName_recognised : isGateSource (gateSourceName prefix sha suffix) = true.
Proof using Hp Hsha Hlen Hsuf.
  unfold isGateSource. rewrite sourceName_trim.
  assert (exists head lane, prefix = head +:+ lane /\
      eats (RAny [RLit "rc"; RLit "rcbase"; RLit "up"; RLit "upbase"]) head /\
      eats (ROpt (RLit "-nol9")) lane) as (head & lane & -> & Hh & Hl); [|by apply eats_source].
  assert (forall h, In h ["rc"; "rcbase"; "up"; "upbase"] ->
            eats (RAny [RLit "rc"; RLit "rcbase"; RLit "up"; RLit "upbase"]) h) as Hhead.
  { intros h [<-|[<-|[<-|[<-|[]]]]].
    - apply eats_alt_l, eats_lit.
    - apply eats_alt_r, eats_alt_l, eats_lit.
    - apply eats_alt_r, eats_alt_r, eats_alt_l, eats_lit.
    - apply eats_alt_r, eats_alt_r, eats_alt_r, eats_lit. }
  assert (eats (ROpt (RLit "-nol9")) "-nol9") as Hlane by apply eats_alt_l, eats_lit.
  destruct Hp as [<-|[<-|[<-|[<-|[<-|[<-|[]]]]]]];
    [exists "rc", ""|exists "rcbase", ""|exists "up", ""|exists "upbase", ""|exists "up", "-nol9"|exists "upbase", "-nol9"];
    (split; [reflexivity|]); split; try done; try apply eats_opt_nil; apply Hhead; simpl; tauto.
Qed.

Lemma sourceName_kind :
  gateKindForSource (gateSourceName prefix sha suffix) =
  if HasPrefix prefix "up" then RCGateKindUpgrade else RCGateKindRC.
Proof using Hp Hsha Hsuf.
  unfold gateKindForSource. rewrite sourceName_trim. unfold gateSourceName.
  destruct Hp as [<-|[<-|[<-|[<-|[<-|[<-|[]]]]]]]; destruct (negb (suffix =s "")); reflexivity.
Qed.

Lemma sourceName_split base :
  char_in_str "-" base = false ->
  Split "-" (gateSourceName base sha suffix) =
  base :: str_take 8 sha :: (if suffix =s "" then [] else [suffix]).
Proof using Hsha Hsuf.
  intros Hb. unfold gateSourceName.
  assert (char_in_str "-" (str_take 8 sha) = false) as Hc.
  { eapply (all_chars_no_char is_lower_hex); [reflexivity|]. by apply all_chars_take. }
  assert (char_in_str "-" suffix = false) as Hcs.
  { destruct Hsuf as [->|[_ ?]]; [done|]. by eapply (all_chars_no_char is_lower_alnum). }
  destruct (suffix =s ""); simpl negb; cbv iota.
  - rewrite append_cons, append_nil_l, Split_app_sep, Split_clean by done. done.
  - transitivity (Split "-" (base +:+ String "-" (str_take 8 sha +:+ String "-" suffix))).
    + by rewrite !append_assoc.
    + by rewrite !Split_app_sep, Split_clean by done.
Qed.

(** The lane variant is read back from a name without a suffix only. *)
Lemma sourceName_lane :
  gateLaneVariantForSource (gateSourceName prefix sha suffix) =
  if HasSuffix prefix "-nol9" && (suffix =s "") then upgradeLaneVariantNoL9 else "".
Proof using Hp Hsha Hlen Hsuf.
  unfold gateLaneVariantForSource. rewrite sourceName_trim.
  assert ((str_take 8 sha =s upgradeLaneVariantNoL9) = false) as H8.
  { apply eqs_false. intros E%(f_equal String.length). rewrite length_str_take, Hlen in E. done. }
  assert (forall base, char_in_str "-" base = false ->
      Split "-" (gateSourceName (base +:+ "-nol9") sha suffix) =
      base :: "nol9" :: str_take 8 sha :: (if suffix =s "" then [] else [suffix])) as Hnol9.
  { intros base Hb. rewrite <- (sourceName_split "nol9" eq_refl), <- Split_app_sep by done.
    f_equal. unfold gateSourceName. destruct (negb _); by rewrite !append_assoc. }
  assert (In prefix ["rc"; "rcbase"; "up"; "upbase"] ->
      match Split "-" (gateSourceName prefix sha suffix) with
      | [_; second; _] => if second =s upgradeLaneVariantNoL9 then upgradeLaneVariantNoL9 else ""
      | _ => ""
      end = "") as Hplain.
  { intros Hin. rewrite sourceName_split by (destruct Hin as [<-|[<-|[<-|[<-|[]]]]]; done).
    destruct (suffix =s ""); [done|]. by rewrite H8. }
  destruct Hp as [<-|[<-|[<-|[<-|[<-|[<-|[]]]]]]];
    [rewrite Hplain by (simpl; tauto); reflexivity..| |].
  - change "up-nol9" with ("up" +:+ "-nol9") at 1. rewrite Hnol9 by done.
    by destruct (suffix =s "").
  - change "upbase-nol9" with ("upbase" +:+ "-nol9") at 1. rewrite Hnol9 by done.
    by destruct (suffix =s "").
Qed.
End SourceNames.

(** * Registered gates *)

Lemma gatePrefixes_In kind lane :
  lane = "" \/ lane = upgradeLaneVariantNoL9 ->
  In (fst (gateSourcePrefixes kind lane)) gatePrefixes /\ In (snd (gateSourcePrefixes kind lane)) gatePrefixes.
Proof. intros [-> | ->]; destruct kind; vm_compute; tauto. Qed.

Lemma ok_lane env request c :
  requestOk env request c -> cr_laneVariant c = "" \/ cr_laneVariant c = upgradeLaneVariantNoL9.
Proof. intros H. destruct (ok_kind _ _ _ H) as [(_ & _ & ->)|(_ & _ & _ & ?)]; auto. Qed.

(** The gate's names, in the form the source-name lemmas use. *)
Lemma newGate_candidate request c now :
  g_CandidateSource (newGate request c now) =
  gateSourceName (fst (gateSourcePrefixes (cr_kind c) (cr_laneVariant c))) (cr_candidateSHA c) (cr_suffix c).
Proof. unfold newGate. by destruct (gateSourcePrefixes _ _). Qed.
Lemma newGate_baseline request c now :
  g_BaselineSource (newGate request c now) =
  gateSourceName (snd (gateSourcePrefixes (cr_kind c) (cr_laneVariant c))) (cr_baselineSHA c) (cr_suffix c).
Proof. unfold newGate. by destruct (gateSourcePrefixes _ _). Qed.

Record namedGate (gate : RCGate) : Prop := {
  ng_candidate : isGateSource (g_CandidateSource gate) = true;
  ng_baseline : isGateSource (g_BaselineSource gate) = true;
  ng_trim : TrimSpace (g_CandidateSource gate) = g_CandidateSource gate /\
            TrimSpace (g_BaselineSource gate) = g_BaselineSource gate;
  ng_kinds : gateKindForSource (g_CandidateSource gate) = g_Kind gate /\
             gateKindForSource (g_BaselineSource gate) = g_Kind gate;
  ng_differ : g_CandidateSource gate <> g_BaselineSource gate
}.

Lemma newGate_kind request c now : g_Kind (newGate request c now) = cr_kind c.
Proof. unfold newGate. by destruct (gateSourcePrefixes _ _). Qed.

Lemma newGate_fields request c now :
  g_CandidateSHA (newGate request c now) = cr_candidateSHA c /\
  g_BaselineSHA (newGate request c now) = cr_baselineSHA c /\
  g_Status (newGate request c now) = RCGateRunning /\
  g_ExpiresAt (newGate request c now) = time_Add now (cr_duration c) /\
  g_Duration (newGate request c now) = cr_duration c /\
  g_TailExpiresAt (newGate request c now) =
    (if rq_Tail request then Some (time_Add now rcGateTailDuration) else None) /\
  g_Tail (newGate request c now) = rq_Tail request /\
  g_Kind (newGate request c now) = cr_kind c /\
  g_UpgradeWarmup (newGate request c now) = cr_warmup c.
Proof. unfold newGate. destruct (gateSourcePrefixes _ _). repeat (split; [reflexivity|]). reflexivity. Qed.

Lemma sourceName_candidate_baseline kind lane sha1 sha2 suffix1 suffix2 :
  lane = "" \/ lane = upgradeLaneVariantNoL9 ->
  gateSourceName (fst (gateSourcePrefixes kind lane)) sha1 suffix1 <>
  gateSourceName (snd (gateSourcePrefixes kind lane)) sha2 suffix2.
Proof.
  unfold gateSourceName.
  intros [-> | ->]; destruct kind, (negb (suffix1 =s "")), (negb (suffix2 =s "")); discriminate.
Qed.

Lemma newGate_named env request c now : requestOk env request c -> namedGate (newGate request c now).
Proof.
  intros H. destruct (gatePrefixes_In (cr_kind c) _ (ok_lane _ _ _ H)) as [Hc Hb].
  destruct (ok_candidate _ _ _ H) as [Lc Ac], (ok_baseline _ _ _ H) as [Lb Ab].
  pose proof (ok_suffix _ _ _ H) as Hs.
  constructor; rewrite ?newGate_candidate, ?newGate_baseline, ?newGate_kind.
  - by apply sourceName_recognised.
  - by apply sourceName_recognised.
  - split; by apply sourceName_trim.
  - rewrite !sourceName_kind by done.
    destruct (ok_lane _ _ _ H) as [-> | ->]; by destruct (cr_kind c).
  - apply sourceName_candidate_baseline. by eapply ok_lane.
Qed.

Lemma register_created env w request now w' gate :
  RegisterRCGate env w request now = Ok (w', (gate, true)) ->
  exists c t', checkRequest env request = Ok c /\
    let g := (newGate request c now) <| g_Resources := gateResources env (newGate request c now) |> in
    List.find (slices_Contains (if g_ObserveProxy g then meteringWindowSources env else [])) (Sources g) = None /\
    CreateRCGate (gw_gates w) g = Ok (t', gate) /\
    w' = registeredEvent (w <| gw_gates := t' |>) gate.
Proof.
  unfold RegisterRCGate. intros (c & Hc & H)%rbind_Ok. revert H.
  destruct (List.find _ _) eqn:Ef; [discriminate|].
  destruct (CreateRCGate _ _) as [[t' g]|e] eqn:E.
  - intros [= <- <-]. exists c, t'. auto.
  - destruct e; try discriminate. destruct (ActiveRCGateForSource _ _); [|discriminate].
    by destruct (sameRegistration _ _).
Qed.

Lemma create_Ok t gate t' gate' :
  CreateRCGate t gate = Ok (t', gate') ->
  gate' = gate <| g_ID := (t_seq t + 1)%Z |> /\
  t_rows t' = t_rows t ++ [insertRow gate (t_seq t + 1)] /\
  (forall r, In r (t_rows t) -> openRow r = true ->
     hasSource r (g_CandidateSource gate) = false /\ hasSource r (g_BaselineSource gate) = false).
Proof.
  unfold CreateRCGate. destruct (List.filter _ _) eqn:E; [|discriminate]. intros [= <- <-].
  split_and!; try done. intros r Hin Ho. apply filter_nil_inv in E.
  rewrite List.Forall_forall in E. specialize (E r Hin). rewrite Ho in E. simpl in E.
  by apply orb_false_iff in E.
Qed.

(** A gate that [RegisterRCGate] creates is well formed.  Both source
    names are recognised as gate sources, differ, and give the gate's kind
    back; the commits are two different 40-digit hex SHAs; the gate runs for
    its duration, at most seven days; an upgrade gate has a warm-up shorter
    than its duration and no tail; the tail deadline is set exactly when the
    gate has a tail; and no gate that was open already used either source. *)
Theorem registered_gate_sound env w request now w' gate :
  RegisterRCGate env w request now = Ok (w', (gate, true)) ->
  namedGate gate /\
  (MatchAnchored fullCommitSHARe (g_CandidateSHA gate) = true /\
   MatchAnchored fullCommitSHARe (g_BaselineSHA gate) = true /\ g_CandidateSHA gate <> g_BaselineSHA gate) /\
  g_Status gate = RCGateRunning /\
  (g_ExpiresAt gate = now + g_Duration gate /\ 0 < g_Duration gate <= 7 * 24 * Hour)%Z /\
  (g_TailExpiresAt gate = if g_Tail gate then Some (now + 7 * 24 * Hour)%Z else None) /\
  (g_Kind gate = RCGateKindUpgrade -> g_Tail gate = false /\ (0 < g_UpgradeWarmup gate < g_Duration gate)%Z) /\
  (forall r, In r (t_rows (gw_gates w)) -> openRow r = true -> disjointSources (row_gate r) gate).
Proof.
  intros (c & t' & Hok%checkRequest_Ok & _ & Hcr & _)%register_created. apply create_Ok in Hcr as (-> & _ & Hfree).
  pose proof (newGate_named env request c now Hok) as Hn.
  destruct (ok_candidate _ _ _ Hok) as [Lc Ac], (ok_baseline _ _ _ Hok) as [Lb Ab].
  pose proof (ok_duration _ _ _ Hok). pose proof (ok_differ _ _ _ Hok).
  pose proof (ok_kind _ _ _ Hok) as Hk.
  assert (forall r, In r (t_rows (gw_gates w)) -> openRow r = true ->
            disjointSources (row_gate r) (newGate request c now)) as Hdis.
  { intros r Hin Ho. destruct (Hfree r Hin Ho) as [H1%hasSource_false H2%hasSource_false].
    destruct H1, H2. unfold disjointSources. auto. }
  assert (Hn' : namedGate ((newGate request c now) <| g_Resources := gateResources env (newGate request c now) |>
                  <| g_ID := (t_seq (gw_gates w) + 1)%Z |>)) by (destruct Hn; by constructor).
  clear Hfree Hn. split; [exact Hn'|]. clear Hn'.
  pose proof (newGate_fields request c now) as (E1 & E2 & E3 & E4 & E5 & E6 & E7 & E8 & E9).
  split; [|split; [|split; [|split; [|split; [|exact Hdis]]]]].
  - change (MatchAnchored fullCommitSHARe (g_CandidateSHA (newGate request c now)) = true /\
      MatchAnchored fullCommitSHARe (g_BaselineSHA (newGate request c now)) = true /\
      g_CandidateSHA (newGate request c now) <> g_BaselineSHA (newGate request c now)).
    rewrite E1, E2. split_and!; [by apply eats_end_match, eats_rep..|done].
  - exact E3.
  - change (g_ExpiresAt (newGate request c now) = now + g_Duration (newGate request c now) /\
      0 < g_Duration (newGate request c now) <= 7 * 24 * Hour)%Z.
    rewrite E4, E5. split; [reflexivity|]. assumption.
  - change (g_TailExpiresAt (newGate request c now) =
      if g_Tail (newGate request c now) then Some (now + 7 * 24 * Hour)%Z else None).
    rewrite E6, E7. reflexivity.
  - change (g_Kind (newGate request c now) = RCGateKindUpgrade -> g_Tail (newGate request c now) = false /\
      (0 < g_UpgradeWarmup (newGate request c now) < g_Duration (newGate request c now))%Z).
    rewrite E5, E7, E8, E9. intros Hu. destruct Hk as [(? & _)|(_ & Ht & Hw & _)]; [congruence|]. by rewrite Ht.
Qed.

Definition sha_a : string := "aaaaaaaaaaaaaaaaaaaaaaaaaaaaaaaaaaaaaaaa".
Definition sha_b : string := "bbbbbbbbbbbbbbbbbbbbbbbbbbbbbbbbbbbbbbbb".
Definition sample_request : RCGateRequest :=
  mkRequest "rc" "benbjohnson/litestream" "v0.5.1" sha_a sha_b "72h" "" "" false [] "" false.
Definition upgrade_request : RCGateRequest :=
  sample_request <| rq_Kind := "upgrade" |> <| rq_Duration := "24h" |>.
Definition empty_world : gateWorld := mkGateWorld emptyTable [].

Definition registered (env : string) (request : RCGateRequest) : gateWorld * RCGate :=
  match RegisterRCGate env empty_world request 1000 with
  | Ok (w, (gate, _)) => (w, gate)
  | Err _ => (empty_world, RCGate_zero)
  end.

Lemma registered_gate_sound_witness :
  namedGate (snd (registered "" upgrade_request)) /\
  g_CandidateSource (snd (registered "" upgrade_request)) = "up-aaaaaaaa".
Proof.
  split; [|vm_compute; reflexivity].
  apply (registered_gate_sound "" empty_world upgrade_request 1000 (fst (registered "" upgrade_request))).
  vm_compute. reflexivity.
Defined.

(** * What a gate runs and what it scores *)

(** The profiles of a source's fleet, which depend on the source name only. *)
Definition fleetProfiles (source : string) : list string :=
  if isUpgrade (gateKindForSource source) then
    if HasPrefix (TrimSpace source) "upbase-" then [gateUpgradeFollowProfile]
    else if gateLaneVariantForSource source =s upgradeLaneVariantNoL9 then [gateUpgradeLaneNoL9Profile]
    else [gateUpgradeLaneProfile; gateUpgradeFollowProfile]
  else [gateStressProfile; gateManyDB500Profile; gateLargeDBProfile; gateRemoteProfile;
        gateVFSProfile; gateWALResetProfile].

Lemma metering_profiles env workers :
  map dw_ProfileName (withMeteringWindowObserveProxy env workers) = map dw_ProfileName workers.
Proof.
  unfold withMeteringWindowObserveProxy. destruct (meteringWindowSources env); [done|].
  rewrite map_map. apply map_ext. intros w. destruct (slices_Contains _ _); [|done].
  unfold meterWorker. by destruct (c_S3FaultProxyEnabled _).
Qed.

Lemma upgrade_profiles source :
  map dw_ProfileName (upgradeGateWorkers source) =
  if HasPrefix (TrimSpace source) "upbase-" then [gateUpgradeFollowProfile]
  else if gateLaneVariantForSource source =s upgradeLaneVariantNoL9 then [gateUpgradeLaneNoL9Profile]
  else [gateUpgradeLaneProfile; gateUpgradeFollowProfile].
Proof.
  unfold upgradeGateWorkers. change (upgradeGateBaselinePrefix +:+ "-") with "upbase-".
  destruct (HasPrefix _ _); [reflexivity|]. destruct (_ =s _); reflexivity.
Qed.

Lemma fleet_profiles env source git litestream :
  TrimSpace source = source ->
  map dw_ProfileName (fs_Workers (GateFleetForSource env source git litestream)) = fleetProfiles source.
Proof.
  intros Ht. unfold GateFleetForSource, fleetProfiles. simpl fs_Workers. rewrite metering_profiles, Ht, map_map.
  transitivity (map dw_ProfileName
    (if isUpgrade (gateKindForSource source) then upgradeGateWorkers source else rcGateWorkers)).
  - apply map_ext. done.
  - destruct (isUpgrade _); [rewrite upgrade_profiles, Ht; reflexivity|reflexivity].
Qed.

(** A side of a scenario has a worker in the gate's fleet: the worker
    [rcGateSide] will look for. *)
Definition withRole (role : string) (f : gateSideFilter) : gateSideFilter :=
  if f_role f =s "" then f <| f_role := role |> else f.
Definition sideRuns (env : string) (gate : RCGate) (scenario : gateScenario) (f : gateSideFilter) : bool :=
  existsb (fun desired => dw_ProfileName desired =s firstNonEmpty [f_profile f; s_profile scenario])
    (fs_Workers (gateFleetForSource env gate (sourceFor f gate) "" "")).
Definition scoredSidesRun (env : string) (gate : RCGate) : bool :=
  forallb (fun scenario =>
      negb (gateSelectsProfile gate (s_profile scenario)) ||
      (sideRuns env gate scenario (withRole gateRoleCandidate (s_candidate scenario)) &&
       sideRuns env gate scenario (withRole gateRoleBaseline (s_baseline scenario))))
    (gateScenariosFor gate).

Lemma existsb_filter_map {A} (name : A -> string) sel p (l : list A) :
  existsb (fun d => name d =s p) (List.filter (fun d => sel (name d)) l) =
  existsb (fun n => n =s p) (List.filter sel (map name l)).
Proof.
  induction l as [|a l IH]; [done|]. simpl. destruct (sel (name a)); simpl; by rewrite IH.
Qed.

Lemma sideRuns_profiles env gate scenario f :
  TrimSpace (sourceFor f gate) = sourceFor f gate ->
  sideRuns env gate scenario f =
  existsb (fun n => n =s firstNonEmpty [f_profile f; s_profile scenario])
    (List.filter (gateSelectsProfile gate) (fleetProfiles (sourceFor f gate))).
Proof.
  intros Ht. unfold sideRuns, gateFleetForSource. cbn [fs_Workers].
  by rewrite (existsb_filter_map dw_ProfileName), fleet_profiles.
Qed.

(** [scoredSidesRun] on the profile lists of the two sources. *)
Definition listRuns (sel : string -> bool) (cand base : list string) (scenario : gateScenario)
  (f : gateSideFilter) : bool :=
  existsb (fun n => n =s firstNonEmpty [f_profile f; s_profile scenario])
    (List.filter sel (if f_role f =s gateRoleBaseline then base else cand)).
Definition listScored (sel : string -> bool) (cand base : list string) (scenarios : list gateScenario) : bool :=
  forallb (fun scenario => negb (sel (s_profile scenario)) ||
      (listRuns sel cand base scenario (withRole gateRoleCandidate (s_candidate scenario)) &&
       listRuns sel cand base scenario (withRole gateRoleBaseline (s_baseline scenario)))) scenarios.

Lemma scoredSidesRun_lists env gate :
  namedGate gate ->
  scoredSidesRun env gate =
  listScored (gateSelectsProfile gate) (fleetProfiles (g_CandidateSource gate))
    (fleetProfiles (g_BaselineSource gate)) (gateScenariosFor gate).
Proof.
  intros [_ _ [Tc Tb] _ _]. unfold scoredSidesRun, listScored.
  assert (forall l f, existsb f (A := gateScenario) l = existsb f l) as _ by done.
  assert (forall scenario f, sideRuns env gate scenario f =
     listRuns (gateSelectsProfile gate) (fleetProfiles (g_CandidateSource gate))
       (fleetProfiles (g_BaselineSource gate)) scenario f) as E.
  { intros scenario f. rewrite sideRuns_profiles; unfold sourceFor, listRuns; by destruct (f_role f =s _). }
  induction (gateScenariosFor gate) as [|s l IH]; [done|]. cbn [forallb]. by rewrite !E, IH.
Qed.

Definition laneProfileOf (gate : RCGate) : string :=
  if g_LaneVariant gate =s upgradeLaneVariantNoL9 then gateUpgradeLaneNoL9Profile else gateUpgradeLaneProfile.

Lemma rc_listScored sel :
  listScored sel (fleetProfiles "rc-") (fleetProfiles "rcbase-") rcGateScenarios = true.
Proof.
  unfold listScored, listRuns, rcGateScenarios. simpl.
  destruct (sel gateStressProfile) eqn:E1, (sel gateManyDB500Profile) eqn:E2, (sel gateLargeDBProfile) eqn:E3,
    (sel gateRemoteProfile) eqn:E4, (sel gateVFSProfile) eqn:E5, (sel gateWALResetProfile) eqn:E6; reflexivity.
Qed.

Lemma fleetProfiles_name prefix sha suffix :
  In prefix gatePrefixes -> all_chars is_lower_hex sha = true -> String.length sha = 40 -> goodSuffix suffix ->
  fleetProfiles (gateSourceName prefix sha suffix) =
  if HasPrefix prefix "up" then
    if HasPrefix prefix "upbase" then [gateUpgradeFollowProfile]
    else if HasSuffix prefix "-nol9" && (suffix =s "") then [gateUpgradeLaneNoL9Profile]
    else [gateUpgradeLaneProfile; gateUpgradeFollowProfile]
  else fleetProfiles "rc-".
Proof.
  intros Hp Hsha Hlen Hsuf. unfold fleetProfiles at 1.
  rewrite sourceName_kind, sourceName_trim, sourceName_lane by done.
  assert (HasPrefix (gateSourceName prefix sha suffix) "upbase-" = HasPrefix prefix "upbase") as ->.
  { unfold gateSourceName.
    destruct Hp as [<-|[<-|[<-|[<-|[<-|[<-|[]]]]]]]; destruct (negb (suffix =s "")); 
      first [reflexivity | apply HasPrefix_spec; eexists; reflexivity]. }
  destruct (HasPrefix prefix "up"); [|reflexivity].
  destruct (HasPrefix prefix "upbase"); [reflexivity|].
  destruct (HasSuffix prefix "-nol9" && _); reflexivity.
Qed.

Lemma upgrade_listScored sel :
  listScored sel [gateUpgradeLaneProfile; gateUpgradeFollowProfile] [gateUpgradeFollowProfile]
    upgradeGateScenarios = negb (sel gateUpgradeLaneProfile) || sel gateUpgradeFollowProfile.
Proof.
  unfold listScored, listRuns, upgradeGateScenarios. simpl.
  destruct (sel gateUpgradeLaneProfile), (sel gateUpgradeFollowProfile); reflexivity.
Qed.

Lemma nol9_listScored sel :
  listScored sel [gateUpgradeLaneNoL9Profile] [gateUpgradeFollowProfile] upgradeGateNoL9Scenarios =
  negb (sel gateUpgradeLaneNoL9Profile) || sel gateUpgradeFollowProfile.
Proof.
  unfold listScored, listRuns, upgradeGateNoL9Scenarios. simpl.
  destruct (sel gateUpgradeLaneNoL9Profile), (sel gateUpgradeFollowProfile); reflexivity.
Qed.

Lemma nol9_suffix_listScored sel :
  listScored sel [gateUpgradeLaneProfile; gateUpgradeFollowProfile] [gateUpgradeFollowProfile]
    upgradeGateNoL9Scenarios = negb (sel gateUpgradeLaneNoL9Profile).
Proof.
  unfold listScored, listRuns, upgradeGateNoL9Scenarios. simpl.
  destruct (sel gateUpgradeLaneNoL9Profile), (sel gateUpgradeLaneProfile), (sel gateUpgradeFollowProfile);
    reflexivity.
Qed.

Local Arguments listScored : simpl never.

(** Exactly when a registered gate runs what it scores.  Every scenario
    of a release-candidate gate has a worker on both sides.  An upgrade gate
    that scores its lane also needs the follow profile selected, and a gate
    of the no-L9 lane must have been registered without a source suffix: with
    one, the source name is no longer read as a no-L9 source and the fleet
    runs the standard lane that none of the gate's scenarios score. *)
Theorem registered_gate_scores_its_fleet env request c now :
  checkRequest env request = Ok c ->
  let gate := newGate request c now in
  scoredSidesRun env gate = true <->
  (g_Kind gate = RCGateKindUpgrade -> gateSelectsProfile gate (laneProfileOf gate) = true ->
   gateSelectsProfile gate gateUpgradeFollowProfile = true /\
   (g_LaneVariant gate = upgradeLaneVariantNoL9 -> cr_suffix c = "")).
Proof.
  intros Hok%checkRequest_Ok gate. rewrite scoredSidesRun_lists by (by eapply newGate_named).
  assert (g_LaneVariant gate = cr_laneVariant c) as Elane by (unfold gate, newGate; by destruct (gateSourcePrefixes _ _)).
  destruct (gatePrefixes_In (cr_kind c) _ (ok_lane _ _ _ Hok)) as [Hc Hb].
  destruct (ok_candidate _ _ _ Hok), (ok_baseline _ _ _ Hok).
  assert (g_Kind gate = cr_kind c) as Ekind by apply newGate_kind.
  assert (g_CandidateSource gate = _) as Ec by apply newGate_candidate.
  assert (g_BaselineSource gate = _) as Eb by apply newGate_baseline.
  unfold gateScenariosFor, laneProfileOf. rewrite Ec, Eb, Ekind, Elane.
  rewrite !fleetProfiles_name by (done || exact (ok_suffix _ _ _ Hok)).
  generalize (gateSelectsProfile gate) as sel. clearbody gate. clear gate Elane Ekind Ec Eb. intros sel.
  destruct (ok_kind _ _ _ Hok) as [(-> & _ & ->)|(-> & _ & _ & [-> | ->])]; simpl.
  - split; [done|]. intros _. apply (rc_listScored sel).
  - rewrite (upgrade_listScored sel). clear. destruct (sel _), (sel _); simpl; intuition discriminate.
  - destruct (eqs_spec (cr_suffix c) "") as [E|E].
    + rewrite (nol9_listScored sel). clear -E. destruct (sel _), (sel _); simpl; intuition discriminate.
    + rewrite (nol9_suffix_listScored sel). clear -E.
      destruct (sel gateUpgradeLaneNoL9Profile); simpl; [|intuition discriminate].
      split; [discriminate|]. intros H. destruct (H eq_refl eq_refl) as [_ H']. by destruct (E (H' eq_refl)).
Qed.

Definition nol9_suffix_request : RCGateRequest :=
  upgrade_request <| rq_LaneVariant := "nol9" |> <| rq_SourceSuffix := "r2" |>.

Definition checked (env : string) (request : RCGateRequest) : checkedRequest :=
  match checkRequest env request with
  | Ok c => c
  | Err _ => mkChecked RCGateKindRC "" "" 0 0 "" [] ""
  end.

Lemma registered_gate_scores_its_fleet_witness :
  scoredSidesRun "" (newGate nol9_suffix_request (checked "" nol9_suffix_request) 1000) <> true.
Proof.
  intros H. eapply (registered_gate_scores_its_fleet "" nol9_suffix_request) in H;
    [|vm_compute; reflexivity|vm_compute; reflexivity|vm_compute; reflexivity].
  destruct H as [_ H]. specialize (H ltac:(vm_compute; reflexivity)). vm_compute in H. discriminate H.
Defined.

(** * Registering twice *)

Definition wholeSeconds (d : duration) : bool := (Z.rem d Second =? 0)%Z.

Lemma seconds_roundtrip d :
  (0 <= d <= max_int64)%Z -> (int64 (Z.quot d Second * Second) =? d)%Z = wholeSeconds d.
Proof.
  intros Hd. unfold wholeSeconds. pose proof (Z.quot_rem d Second ltac:(done)).
  pose proof (Z.rem_bound_pos d Second ltac:(lia) ltac:(done)).
  assert (Second = 1000000000)%Z as ES by reflexivity.
  rewrite int64_small by (unfold min_int64; lia).
  destruct (Z.eqb_spec (Z.quot d Second * Second) d), (Z.eqb_spec (Z.rem d Second) 0); lia || done.
Qed.

Lemma normalize_plain env kind lane requested ps :
  lane = "" \/ lane = upgradeLaneVariantNoL9 ->
  normalizeGateProfiles env kind lane requested = Ok ps -> Forall (fun p => plainProfile p = true) ps.
Proof.
  intros Hlane. unfold normalizeGateProfiles. destruct (List.filter _ _) as [|w wanted]; [intros [= <-]; done|].
  destruct (gateSourcePrefixes kind lane) as [cp bp] eqn:Ep. set (fleet := flat_map _ _).
  assert (Forall (fun d => plainProfile (dw_ProfileName d) = true) fleet) as Hfleet.
  { assert (Forall (fun p => plainProfile p = true) (map dw_ProfileName fleet)) as H; [|by rewrite Forall_map in H].
    unfold fleet. cbn [flat_map]. rewrite !map_app, !fleet_profiles.
    - destruct Hlane as [-> | ->]; destruct kind; injection Ep as <- <-; repeat constructor.
    - destruct Hlane as [-> | ->]; destruct kind; injection Ep as <- <-; reflexivity.
    - destruct Hlane as [-> | ->]; destruct kind; injection Ep as <- <-; reflexivity. }
  generalize (w :: wanted). clear w wanted Ep. intros wanted.
  assert (forall acc, Forall (fun p => plainProfile p = true) acc ->
     Forall (fun p => plainProfile p = true)
       (fold_left (fun selected desired =>
            if slices_Contains wanted (dw_ProfileName desired) &&
               negb (slices_Contains selected (dw_ProfileName desired))
            then selected ++ [dw_ProfileName desired] else selected) fleet acc)) as Hfold.
  { clear -Hfleet. induction Hfleet as [|d l Hd Hl IH]; intros acc Hacc; [done|].
    rewrite fold_left_cons. apply IH. destruct (_ && _); [|done]. apply Forall_app. auto. }
  destruct (List.find _ _); [discriminate|]. intros [= <-]. apply Hfold. constructor.
Qed.

(** Only the clock distinguishes two gates of the same request. *)
Lemma newGate_now request c now now' :
  Sources (newGate request c now) = Sources (newGate request c now') /\
  g_ObserveProxy (newGate request c now) = g_ObserveProxy (newGate request c now').
Proof. unfold newGate. by destruct (gateSourcePrefixes _ _). Qed.

Lemma sameRegistration_stored env request c now now' id res res' :
  requestOk env request c ->
  sameRegistration (scanRow (insertRow ((newGate request c now) <| g_Resources := res |>) id))
    ((newGate request c now') <| g_Resources := res' |>) =
  wholeSeconds (cr_duration c) && wholeSeconds (cr_warmup c).
Proof.
  intros Hok. pose proof (ok_duration _ _ _ Hok) as Hd. unfold rcGateMaxDuration, Hour, Minute, Second in Hd.
  assert (0 <= cr_warmup c <= max_int64)%Z as Hw.
  { destruct (ok_kind _ _ _ Hok) as [(_ & -> & _)|(_ & _ & ? & _)]; unfold max_int64; lia. }
  assert (0 <= cr_duration c <= max_int64)%Z as Hd' by (unfold max_int64; lia).
  pose proof (normalize_plain _ _ _ _ _ (ok_lane _ _ _ Hok) (ok_profiles _ _ _ Hok)) as Hp.
  unfold sameRegistration, newGate, insertRow, scanRow. destruct (gateSourcePrefixes _ _) as [cp bp]. simpl.
  rewrite !eqs_refl, splitGateProfiles_join, !seconds_roundtrip, !eqb_reflx, !bool_decide_eq_true_2 by done.
  simpl. by rewrite !andb_true_r.
Qed.

(** Registration is idempotent exactly for whole-second durations.
    Registering the same request again while its gate is open returns the
    stored gate and changes nothing when the duration and the warm-up are
    whole seconds; otherwise the stored, truncated durations no longer equal
    the requested ones and the second request is refused. *)
Theorem register_again env w request now w' gate now' :
  RegisterRCGate env w request now = Ok (w', (gate, true)) ->
  if wholeSeconds (g_Duration gate) && wholeSeconds (g_UpgradeWarmup gate)
  then exists stored, RegisterRCGate env w' request now' = Ok (w', (stored, false)) /\ g_ID stored = g_ID gate
  else RegisterRCGate env w' request now' = Err ErrRCGateSourceActive.
Proof.
  intros (c & t' & Hc & Hfind & Hcr & ->)%register_created. pose proof (checkRequest_Ok _ _ _ Hc) as Hok.
  apply create_Ok in Hcr as (-> & Hrows & _).
  pose proof (newGate_fields request c now) as (_ & _ & Est & _ & Edur & _ & _ & _ & Ewarm).
  pose proof (ng_trim _ (newGate_named env request c now Hok)) as [Htrim _].
  destruct (newGate_now request c now now') as [Esrc Eobs].
  set (id := (t_seq (gw_gates w) + 1)%Z) in *.
  set (g := (newGate request c now) <| g_Resources := gateResources env (newGate request c now) |>) in *.
  set (g' := (newGate request c now') <| g_Resources := gateResources env (newGate request c now') |>).
  assert (g_CandidateSource g' = g_CandidateSource g) as Ecand by (injection Esrc; intros; symmetry; assumption).
  assert (openRow (insertRow g id) = true) as Hopen.
  { unfold openRow, Closed. change (g_Status (row_gate (insertRow g id))) with (g_Status (newGate request c now)).
    by rewrite Est. }
  assert (hasSource (insertRow g id) (g_CandidateSource g) = true) as Hhas by (by apply hasSource_true; left).
  assert (CreateRCGate t' g' = Err ErrRCGateSourceActive) as Hcreate.
  { unfold CreateRCGate. rewrite Hrows, List.filter_app. cbn [List.filter].
    rewrite Hopen, Ecand, Hhas. simpl. by destruct (List.filter _ _). }
  assert (ActiveRCGateForSource t' (g_CandidateSource g') = Some (scanRow (insertRow g id))) as Hactive.
  { unfold ActiveRCGateForSource. rewrite Ecand. change (g_CandidateSource g) with (g_CandidateSource (newGate request c now)).
    rewrite Htrim, Hrows, List.filter_app. cbn [List.filter].
    change (g_CandidateSource (newGate request c now)) with (g_CandidateSource g). rewrite Hopen, Hhas. simpl.
    by rewrite last_snoc. }
  assert (RegisterRCGate env (registeredEvent (w <| gw_gates := t' |>) (g <| g_ID := id |>)) request now' =
    if wholeSeconds (cr_duration c) && wholeSeconds (cr_warmup c)
    then Ok (registeredEvent (w <| gw_gates := t' |>) (g <| g_ID := id |>), (scanRow (insertRow g id), false))
    else Err ErrRCGateSourceActive) as Hreg.
  { unfold RegisterRCGate. rewrite Hc. cbn [rbind]. rewrite <- Esrc, <- Eobs.
    change (List.find (slices_Contains (if g_ObserveProxy (newGate request c now) then meteringWindowSources env else []))
      (Sources (newGate request c now)) = None) in Hfind. rewrite Hfind. fold g'.
    change (gw_gates (registeredEvent (w <| gw_gates := t' |>) (g <| g_ID := id |>))) with t'.
    rewrite Hcreate, Hactive. unfold g, g'. by rewrite (sameRegistration_stored env). }
  change (g_Duration (g <| g_ID := id |>)) with (g_Duration (newGate request c now)).
  change (g_UpgradeWarmup (g <| g_ID := id |>)) with (g_UpgradeWarmup (newGate request c now)).
  rewrite Edur, Ewarm, Hreg. destruct (_ && _); [|reflexivity]. eexists. split; [reflexivity|reflexivity].
Qed.

Definition half_second_request : RCGateRequest := sample_request <| rq_Duration := "1h0.5s" |>.

Lemma register_again_witness :
  RegisterRCGate "" (fst (registered "" half_second_request)) half_second_request 2000 = Err ErrRCGateSourceActive.
Proof.
  assert (H : RegisterRCGate "" empty_world half_second_request 1000 =
    Ok (fst (registered "" half_second_request), (snd (registered "" half_second_request), true)))
    by (vm_compute; reflexivity).
  pose proof (register_again "" empty_world half_second_request 1000 _ _ 2000 H) as Hr.
  assert (E : wholeSeconds (g_Duration (snd (registered "" half_second_request))) &&
    wholeSeconds (g_UpgradeWarmup (snd (registered "" half_second_request))) = false) by (vm_compute; reflexivity).
  rewrite E in Hr. exact Hr.
Defined.

(** A sub-second warm-up is accepted and then lost.  An upgrade gate
    registered for an hour with a 500 ms warm-up is stored with a warm-up of
    zero seconds, and the lane worker of its fleet keeps the two-hour default,
    longer than the gate itself. *)
Theorem subsecond_warmup_lost :
  let request := upgrade_request <| rq_Duration := "1h" |> <| rq_UpgradeWarmup := "500ms" |> in
  exists w gate, RegisterRCGate "" empty_world request 1000 = Ok (w, (gate, true)) /\
    g_UpgradeWarmup gate = (500 * Millisecond)%Z /\
    exists spec lane, rcGateFleetForSource "" (gw_gates w) "up-aaaaaaaa" "git" sha_a 1000 = Ok spec /\
      In lane (fs_Workers spec) /\ c_UpgradeLane (dw_Workload lane) = true /\
      c_UpgradeWarmup (dw_Workload lane) = "2h0m0s".
Proof.
  intros request. exists (fst (registered "" request)), (snd (registered "" request)).
  split; [vm_compute; reflexivity|]. split; [vm_compute; reflexivity|].
  eexists _, _. split; [vm_compute; reflexivity|]. split; [left; reflexivity|].
  split; vm_compute; reflexivity.
Qed.

(** * Provisioning *)

Lemma applyGateWorker_profile gate w : dw_ProfileName (applyGateWorker gate w) = dw_ProfileName w.
Proof.
  unfold applyGateWorker.
  set (w0 := if c_UpgradeLane _ && _ then _ else _).
  assert (dw_ProfileName w0 = dw_ProfileName w) as <- by (unfold w0; by destruct (_ && _)).
  set (w1 := if g_ObserveProxy gate then _ else _).
  assert (dw_ProfileName w1 = dw_ProfileName w0) as <-.
  { unfold w1. destruct (g_ObserveProxy gate); [|done].
    destruct (negb _); destruct (_ =s _); reflexivity. }
  generalize (g_Resources gate), w1. clear. intros l. induction l as [|r l IH]; intros w; [done|].
  rewrite fold_left_cons, IH. by destruct (_ && _).
Qed.

(** The fleet and the provisioning guard agree.  Every worker that
    [rcGateFleetForSource] wants for a pinned gate source is one that
    [checkRCGateProvisioning] lets through at the same instant, with the
    pinned image and the gate's Litestream build. *)
Theorem fleet_is_provisionable env t source git litestream now spec desired gate image :
  isGateSource source = true -> TrimSpace image = image -> image <> "" ->
  ActiveRCGateForSource t source = Some gate ->
  fst (PinnedBuildFor gate source) = image -> EqualFold (TrimSpace litestream) (fst (LitestreamSHAFor gate source)) = true ->
  rcGateFleetForSource env t source git litestream now = Ok spec -> In desired (fs_Workers spec) ->
  checkRCGateProvisioning env t source (dw_ProfileName desired) image litestream now = Ok ().
Proof.
  intros Hs Ht Hne Ha Hi Hl Hf Hin. unfold rcGateFleetForSource in Hf. rewrite Ha in Hf. injection Hf as <-.
  apply filter_In in Hin as [_ Hp]. unfold checkRCGateProvisioning. rewrite Hs, Ha, Hp. simpl.
  destruct (PinnedBuildFor gate source) as [i g], (LitestreamSHAFor gate source) as [s b]. simpl in *. subst i.
  by rewrite Ht, eqs_refl, Hl, (proj2 (eqs_false _ _) Hne).
Qed.

Lemma window_inv env gate profile d :
  rcGateProfileWindow env gate profile = (true, d) ->
  gateHasProfile env gate profile = true /\
  ((g_Status gate = RCGateRunning /\ d = g_ExpiresAt gate) \/
   (profile = gateStressProfile /\ g_Tail gate = true /\ g_Status gate <> RCGateCompleted /\
    g_Status gate <> RCGateAborted /\ g_TailExpiresAt gate = Some d)).
Proof.
  unfold rcGateProfileWindow. destruct (gateHasProfile env gate profile); [|discriminate]. intros H.
  split; [done|]. simpl in H. destruct (g_Tail gate); simpl in H.
  - destruct (eqs_spec profile gateStressProfile); [destruct (g_TailExpiresAt gate)|];
      destruct (g_Status gate); try discriminate H; injection H as <-; auto; right; split_and!; done || discriminate.
  - destruct (g_Status gate); try discriminate H; injection H as <-; auto.
Qed.

Lemma permitted_inv env gate profile now :
  rcGateProfilePermitted env gate profile now = true ->
  exists d, rcGateProfileWindow env gate profile = (true, d) /\ (now < d)%Z /\
    (g_PairedReadyAt gate <> None \/ (now < g_ProvisionDeadline gate)%Z).
Proof.
  unfold rcGateProfilePermitted. destruct (rcGateProfileWindow env gate profile) as [[] d]; [|discriminate].
  simpl. destruct (Before now d) eqn:E; [|discriminate]. apply Z.ltb_lt in E. intros H. exists d.
  split_and!; [done|done|]. destruct (g_PairedReadyAt gate); [by left|]. right. by apply Z.ltb_lt.
Qed.

(** C22: A gate worker is provisioned only inside its gate's window and on its
    pinned build: if [checkRCGateProvisioning] lets a gate source through,
    the source has an open gate whose fleet contains the profile, the gate
    is running (or, for the stress profile, in its tail), the deadline of
    that phase has not passed, both sides were ready or the launch deadline
    has not passed either, and the image and Litestream commit are the gate's. *)
Theorem provisioning_in_window env t source profile image litestream now :
  isGateSource source = true ->
  checkRCGateProvisioning env t source profile image litestream now = Ok () ->
  exists gate, ActiveRCGateForSource t source = Some gate /\ gateHasProfile env gate profile = true /\
    ((g_Status gate = RCGateRunning /\ (now < g_ExpiresAt gate)%Z) \/
     (profile = gateStressProfile /\ g_Tail gate = true /\ g_Status gate <> RCGateCompleted /\
      g_Status gate <> RCGateAborted /\
      exists deadline, g_TailExpiresAt gate = Some deadline /\ (now < deadline)%Z)) /\
    (g_PairedReadyAt gate <> None \/ (now < g_ProvisionDeadline gate)%Z) /\
    fst (PinnedBuildFor gate source) <> "" /\ TrimSpace image = fst (PinnedBuildFor gate source) /\
    EqualFold (TrimSpace litestream) (fst (LitestreamSHAFor gate source)) = true.
Proof.
  intros Hs. unfold checkRCGateProvisioning. rewrite Hs. simpl.
  destruct (ActiveRCGateForSource t source) as [gate|] eqn:Ea; [|discriminate].
  destruct (rcGateProfilePermitted env gate profile now) eqn:Ep; [simpl|discriminate].
  destruct (PinnedBuildFor gate source) as [i g] eqn:Ei, (LitestreamSHAFor gate source) as [s b] eqn:El.
  destruct ((i =s "") || _ || _) eqn:E; [discriminate|]. intros _.
  apply orb_false_iff in E as [E1 E3%negb_false_iff]. apply orb_false_iff in E1 as [E1%eqs_false E2%negb_false_iff].
  apply eqs_true in E2. exists gate. rewrite Ei, El. split; [done|].
  apply permitted_inv in Ep as (d & Hw & Hd & Hready). apply window_inv in Hw as [Hhas Hw].
  split; [done|]. split; [|by split_and!].
  destruct Hw as [[? ->]|(? & ? & ? & ? & ?)]; [by left|]. right. by eauto 10.
Qed.

Definition pinned_table : gateTable :=
  fst (pinRCGateDeployment (gw_gates (fst (registered "" sample_request))) "rc-aaaaaaaa" "git" sha_a "img" 2000).
Definition stress_worker : DesiredWorker :=
  applyGateWorker (default RCGate_zero (ActiveRCGateForSource pinned_table "rc-aaaaaaaa"))
    (gateWorkerForSource "rc-aaaaaaaa" "git" sha_a gateStressWorker).

Lemma fleet_is_provisionable_witness :
  checkRCGateProvisioning "" pinned_table "rc-aaaaaaaa" "gate-stress" "img" sha_a 3000 = Ok ().
Proof.
  change "gate-stress" with (dw_ProfileName stress_worker).
  eapply (fleet_is_provisionable "" pinned_table "rc-aaaaaaaa" "git" sha_a 3000 _ stress_worker _ "img");
    [vm_compute; reflexivity|vm_compute; reflexivity|discriminate|vm_compute; reflexivity|vm_compute; reflexivity
    |vm_compute; reflexivity|vm_compute; reflexivity|left; vm_compute; reflexivity].
Defined.

Lemma provisioning_in_window_witness :
  exists gate, ActiveRCGateForSource pinned_table "rc-aaaaaaaa" = Some gate /\ (3000 < g_ProvisionDeadline gate)%Z.
Proof.
  destruct (provisioning_in_window "" pinned_table "rc-aaaaaaaa" "gate-stress" "img" sha_a 3000) as (gate & Hg & _).
  - vm_compute. reflexivity.
  - vm_compute. reflexivity.
  - exists gate. split; [exact Hg|]. vm_compute in Hg. injection Hg as <-. vm_compute. reflexivity.
Defined.
