(* ===== verification/SoakDB.v ===== *)
(** The control plane's tables as the gate reads them: the queries of
    [internal/model] (deployments.go, workers.go, events.go,
    event_queries.go, verifications.go) the gate's verdict is computed from.

    A table is the list of its rows in insertion order.  [ORDER BY ... DESC]
    is a stable sort, so rows that tie keep the table's order.  Stored event
    details are read verbatim (the profile-blob expansion restores exactly
    what was written), and failures of the database itself are not modelled.
    Decoding JSON text and SQLite's [julianday] are the operations of
    [Decoders], a parameter of everything that uses them. *)
From stdpp Require Import sorting.
From S2P Require Import Prelude GoStrings Model.

(** * External functions *)

Class Decoders := {
  (** [json.Unmarshal] into [reporting.RuntimePayload]; [None] on an error. *)
  decodeRuntime : string -> option RuntimePayload;
  (** the [message] field of a platform log line; [None] on an error *)
  decodeLogMessage : string -> option string;
  (** [json.Unmarshal] into [workload.Config]; [None] on an error *)
  decodeConfig : string -> option Config;
  (** the JSON test of [nonMeteringRunClause], on the run's profile config *)
  meteringConfig : string -> bool;
  (** SQLite's [julianday], used to compare timestamps *)
  julianday : time -> Z
}.

(** * Tables *)

Record heartbeatRow := mkHeartbeat { hb_source : string; hb_worker : string; hb_received : time }.

Record soakDB := mkDB {
  db_workers : list Worker;
  db_events : list Event;
  db_verifications : list Verification;
  db_deployments : list Deployment;
  db_heartbeats : list heartbeatRow
}.
#[export] Instance soakDB_eta : Settable soakDB :=
  fun r => mkDB (db_workers r) (db_events r) (db_verifications r) (db_deployments r) (db_heartbeats r).
Definition emptyDB : soakDB := mkDB [] [] [] [] [].

(** Newest first by a timestamp. *)
Definition desc_by {A} (key : A -> Z) (a b : A) : Prop := (key b <= key a)%Z.
#[export] Instance desc_by_dec {A} (key : A -> Z) a b : Decision (desc_by key a b).
Proof. unfold desc_by. apply _. Defined.
Definition order_desc {A} (key : A -> Z) (l : list A) : list A := merge_sort (desc_by key) l.

#[export] Instance desc_by_total {A} (key : A -> Z) : Total (desc_by key).
Proof. intros a b. unfold desc_by. lia. Qed.
#[export] Instance desc_by_trans {A} (key : A -> Z) : Transitive (desc_by key).
Proof. intros a b c. unfold desc_by. lia. Qed.

Lemma order_desc_In {A} (key : A -> Z) l x : In x (order_desc key l) <-> In x l.
Proof.
  unfold order_desc. rewrite <- !list_elem_of_In. apply elem_of_Permutation_proper, merge_sort_Permutation.
Qed.

(** * Queries *)

Definition ListWorkersFiltered (db : soakDB) (status source : string) : list Worker :=
  order_desc w_CreatedAt
    (List.filter (fun w => ((source =s "") || (w_Source w =s source)) &&
                           ((status =s "") || (WorkerStatus_string (w_Status w) =s status))) (db_workers db)).

(** [ORDER BY started_at DESC, id DESC LIMIT 1]. *)
Definition newer_deployment (a b : Deployment) : bool :=
  (d_StartedAt b <? d_StartedAt a)%Z || ((d_StartedAt a =? d_StartedAt b)%Z && (d_ID b <? d_ID a)%Z).
Definition GetDeploymentByVersion (db : soakDB) (source gitSHA litestreamSHA : string) : option Deployment :=
  fold_left (fun best d =>
      if (d_Source d =s source) && (d_GitSHA d =s gitSHA) && (d_LitestreamSHA d =s litestreamSHA)
      then match best with Some b => if newer_deployment d b then Some d else Some b | None => Some d end
      else best) (db_deployments db) None.

Definition latest_deployment (keep : Deployment -> bool) (db : soakDB) : option Deployment :=
  fold_left (fun best d =>
      if keep d
      then match best with Some b => if newer_deployment d b then Some d else Some b | None => Some d end
      else best) (db_deployments db) None.
Definition GetLatestDeployment (db : soakDB) (source : string) : option Deployment :=
  latest_deployment (fun d => (source =s "") || (d_Source d =s source)) db.
Definition GetLatestReadyDeployment (db : soakDB) (source : string) : option Deployment :=
  latest_deployment (fun d => (d_Status d =s "ready") && ((source =s "") || (d_Source d =s source))) db.

(** [builders_deployment.go]: the worker runs the deployment's build. *)
Definition workerMatchesDeployment (worker : Worker) (deployment : Deployment) : bool :=
  if negb (TrimSpace (w_GitSHA worker) =s TrimSpace (d_GitSHA deployment)) then false
  else
    let deploymentLitestreamSHA := TrimSpace (d_LitestreamSHA deployment) in
    if deploymentLitestreamSHA =s "" then true
    else TrimSpace (w_LitestreamSHA worker) =s deploymentLitestreamSHA.

Definition ListWorkerEvents (db : soakDB) (workerID : string) (limit : nat) : list Event :=
  firstn limit (order_desc e_CreatedAt
    (List.filter (fun e => negb (e_WorkerID e =s "") && (e_WorkerID e =s workerID)) (db_events db))).

(** [COUNT(DISTINCT worker_id)] *)
Definition CountWorkersWithEventBetween (db : soakDB) (eventType : string) (start end_ : time) : Z :=
  Z.of_nat (size (list_to_set (map e_WorkerID
    (List.filter (fun e => (e_EventType e =s eventType) && negb (e_WorkerID e =s "") &&
                           (start <=? e_CreatedAt e)%Z && (e_CreatedAt e <=? end_)%Z) (db_events db))) : gset string)).

Section Queries.
Context `{Decoders}.

Definition nonMeteringRun (v : Verification) : bool := negb (meteringConfig (id_ProfileConfig (v_Run v))).

Definition ListVerificationsExcludingMeteringRuns (db : soakDB) (workerID : string) (limit : nat)
  : list Verification :=
  firstn limit (order_desc v_StartedAt
    (List.filter (fun v => (v_WorkerID v =s workerID) && nonMeteringRun v) (db_verifications db))).

Definition FirstHeartbeatAfter (db : soakDB) (source workerID : string) (after : time) : option time :=
  fold_left (fun best row =>
      if (hb_source row =s source) && (hb_worker row =s workerID) &&
         (julianday after <? julianday (hb_received row))%Z
      then match best with
           | Some b => if (julianday (hb_received row) <? julianday b)%Z then Some (hb_received row) else Some b
           | None => Some (hb_received row)
           end
      else best) (db_heartbeats db) None.
End Queries.

(** A decoder for the examples: texts of one shape each. *)
Definition exampleDecoders : Decoders := {|
  decodeRuntime := fun s =>
    if s =s "{full}" then Some (RuntimePayload_zero <| rt_DataDiskUsedPercent := f64_of_Z 99 |>)
    else if s =s "{prestart}"
    then Some (RuntimePayload_zero <| rt_WorkerProcess := ProcessObservation_zero <| po_PID := 7%Z |> |>)
    else None;
  decodeLogMessage := fun s => Some s;
  decodeConfig := fun s => if s =s "{walreset}" then Some (Config_zero <| c_WALResetCheck := true |>) else Some Config_zero;
  meteringConfig := fun s => s =s "{metering}";
  julianday := fun t => t
|}.
