(* ===== verification/GateFault.v ===== *)
(** Worker faults: why a gate side fails without a failed verification.
    [rcGateSideFault] and everything it calls in
    [internal/orchestrator/rc_gate.go], with [parseRuntimeJSON] of
    [builders_worker.go] and [RuntimePayload.Normalize] of
    [internal/reporting/types.go].

    The planned-restart tracker is a mutable object in the code; here its
    state is threaded through the event loop. *)
From Stdlib Require Import Ascii.
From S2P Require Import Prelude GoStrings Regex Model GoTime Classification GateFleet SoakDB.

(** * Constants *)

Definition rcGateVerificationHistory : nat := 2000.
Definition rcGateWorkerEventHistory : nat := 2000.
Definition rcGateReasonDiskExhausted := "disk_exhausted".
Definition rcGateReasonWorkerCrashLoop := "worker_crash_loop".
Definition rcGateReasonWorkerDegraded := "worker_degraded".
Definition rcGateReasonHarnessInconclusive := "harness_inconclusive".
Definition rcGateCrashLoopEvents : Z := 2.
Definition rcGateDiskExhaustedUsedPct : float64 := f64_of_Z 98.
Definition rcGateFlyNotRestartingMarker := "not restarting".
Definition rcGateStaleWorkerMessage := "worker missed heartbeat deadline".
Definition rcGateStaleGrace : duration := (30 * Minute)%Z.
Definition rcGateStaleBurstWorkers : Z := 3.
Definition rcGateStaleBurstWindow : duration := (90 * Second)%Z.
Definition rcGatePlannedRestartWindow : duration := (10 * Minute)%Z.
Definition rcGateDiskFullEventTypes :=
  ["platform_disk_full"; "platform_disk_full_no_progress"; "platform_disk_full_recovery_failed"].
Definition rcGateCrashEventTypes := ["platform_restart"; "platform_oom"; "platform_killed"; "worker_failed"].
Definition rcGatePlannedLifecycleMarkers := ["stress scenario phase ended"; "upgrade warm-up ended"].
Definition rcGatePreStartFailurePrefixes :=
  ["populate:"; "prepare disk-full recovery reserve:"; "write litestream config:"; "start litestream:"].
Definition LegacyRuntimeTelemetryError :=
  "worker telemetry did not include snapshot health metadata; litestream runtime fields may be stale".

(** * Runtime payloads *)

Definition hasSnapshotMetadata (p : RuntimePayload) : bool :=
  negb (IsZero (rt_SnapshotCollectedAt p)) || rt_LitestreamSnapshotHealthy p ||
  negb (TrimSpace (rt_LitestreamSnapshotError p) =s "").

Definition hasLitestreamRuntimeFields (p : RuntimePayload) : bool :=
  if (0 <? rt_DBTXID p)%Z || (0 <? rt_ReplicatedTXID p)%Z || (0 <? rt_DBCount p)%Z ||
     f64_ltb f64_zero (rt_LitestreamUptimeSeconds p)
  then true
  else let status := TrimSpace (rt_DBStatus p) in negb (status =s "") && negb (status =s "unknown").

Definition Normalize (p : RuntimePayload) (observedAt : time) : RuntimePayload :=
  let normalized :=
    if negb (hasSnapshotMetadata p) && hasLitestreamRuntimeFields p
    then p <| rt_LitestreamSnapshotError := LegacyRuntimeTelemetryError |> else p in
  if IsZero (rt_SnapshotCollectedAt normalized) && negb (IsZero observedAt)
  then normalized <| rt_SnapshotCollectedAt := observedAt |> else normalized.

(** * Planned restarts *)

(** [exit code:?\s*(0|143)\b] *)
Definition rcGateCleanExitPattern : re :=
  RSeq (RLit "exit code") (RSeq (ROpt (RLit ":")) (RSeq (RStar (RChar re_space))
    (RSeq (RAlt (RLit "0") (RLit "143")) RWordB))).
Definition rcGateCleanExitMessage (message : string) : bool :=
  MatchString rcGateCleanExitPattern (ToLower message).

Definition rcGateWithinPlannedWindow (at_ moment : time) : bool :=
  let delta := time_Sub at_ moment in
  (- rcGatePlannedRestartWindow <=? delta)%Z && (delta <=? rcGatePlannedRestartWindow)%Z.

Definition rcGatePlannedLifecycleEvent (event : Event) : bool :=
  if negb (e_EventType event =s "worker_failed") then false
  else existsb (Contains (ToLower (e_Message event))) rcGatePlannedLifecycleMarkers.

Record rcGatePlannedRestarts := mkPlanned {
  pl_phase : duration;
  pl_moments : list time;
  pl_forgiven : list time
}.
#[export] Instance rcGatePlannedRestarts_eta : Settable rcGatePlannedRestarts :=
  fun r => mkPlanned (pl_phase r) (pl_moments r) (pl_forgiven r).

Definition time_mem (t : time) (l : list time) : bool := existsb (Z.eqb t) l.

Definition normalize (p : rcGatePlannedRestarts) (at_ : time) : time :=
  if (0 <? pl_phase p)%Z then
    let boundary := Truncate at_ (pl_phase p) in
    if (Z.quot (pl_phase p) 2 <? time_Sub at_ boundary)%Z then time_Add boundary (pl_phase p) else boundary
  else match List.find (rcGateWithinPlannedWindow at_) (pl_moments p) with
       | Some moment => moment
       | None => at_
       end.

(** The loop body of [rcGatePlannedRestartsFor]. *)
Definition plannedStep (planned : rcGatePlannedRestarts) (event : Event) : rcGatePlannedRestarts :=
  if negb (rcGatePlannedLifecycleEvent event) then planned
  else let moment := normalize planned (e_CreatedAt event) in
       if time_mem moment (pl_moments planned) then planned
       else planned <| pl_moments := pl_moments planned ++ [moment] |>.

Definition rcGatePlannedRestartsFor (worker : Worker) (events : list Event) : rcGatePlannedRestarts :=
  let phase :=
    if w_ProfileName worker =s gateStressProfile then
      match ParseDuration rcGateStressPhase with
      | Some phase => if (0 <? phase)%Z then phase else 0%Z
      | None => 0%Z
      end
    else 0%Z in
  fold_left plannedStep
    events (mkPlanned phase [] []).

Definition forgive (p : rcGatePlannedRestarts) (event : Event) : bool * rcGatePlannedRestarts :=
  let moment := normalize p (e_CreatedAt event) in
  if negb (rcGateWithinPlannedWindow (e_CreatedAt event) moment) then (false, p)
  else
    let plannedMoment := time_mem moment (pl_moments p) ||
                         ((0 <? pl_phase p)%Z && rcGateCleanExitMessage (e_Message event)) in
    if negb plannedMoment || time_mem moment (pl_forgiven p) then (false, p)
    else (true, p <| pl_forgiven := pl_forgiven p ++ [moment] |>).

(** * Faults *)

Definition rcGateCurrentlySilent (worker : Worker) (lastStale end_ : time) : bool :=
  let staleSilent :=
    if negb (IsZero lastStale) then (rcGateStaleGrace <=? time_Sub end_ lastStale)%Z else true in
  match w_LastHeartbeatAt worker with
  | Some beat => if After beat lastStale then (rcGateStaleGrace <=? time_Sub end_ beat)%Z else staleSilent
  | None => staleSilent
  end.

Section Faults.
Context `{Decoders}.

Definition parseRuntimeJSON (raw : string) (observedAt : time) : option RuntimePayload :=
  if TrimSpace raw =s "" then None else (fun r => Normalize r observedAt) <$> decodeRuntime raw.

Definition rcGatePlatformLogMessage (details : string) : string := default "" (decodeLogMessage details).

Definition rcGateRestoreCapacityPressure (event : Event) : bool :=
  if negb (e_EventType event =s "platform_disk_full") then false
  else if negb (RestoreOutputDiskFullPath (rcGatePlatformLogMessage (e_Details event))) then false
  else (e_Occurrences event <=? 1)%Z || (e_Occurrences event <=? e_RestoreOutputOccurrences event)%Z.

(** When the worker reported again after the stale event. *)
Definition staleResumedAt (db : soakDB) (worker : Worker) (event : Event) (verificationTimes : list time)
  : option time :=
  let resumed := FirstHeartbeatAfter db (w_Source worker) (w_ID worker) (e_CreatedAt event) in
  let resumed := fold_left (fun resumed at_ =>
      if After at_ (e_CreatedAt event) &&
         match resumed with None => true | Some r => Before at_ r end
      then Some at_ else resumed) verificationTimes resumed in
  match resumed, w_LastHeartbeatAt worker with
  | None, Some beat => if After beat (e_CreatedAt event) then Some beat else None
  | _, _ => resumed
  end.

(** [None] when the event is no fault, otherwise the fault's detail. *)
Definition rcGateStaleFault (db : soakDB) (worker : Worker) (event : Event)
  (verificationTimes : list time) (end_ : time) : option string :=
  let resumed := staleResumedAt db worker event verificationTimes in
  let silence := match resumed with
                 | Some r => time_Sub r (e_CreatedAt event)
                 | None => time_Sub end_ (e_CreatedAt event)
                 end in
  if match resumed with
     | Some _ => (silence <=? rcGateStaleGrace)%Z
     | None => (silence <? rcGateStaleGrace)%Z
     end then None
  else
    let burst := CountWorkersWithEventBetween db "worker_stale"
      (time_Add (e_CreatedAt event) (- rcGateStaleBurstWindow))
      (time_Add (e_CreatedAt event) rcGateStaleBurstWindow) in
    let message := GateFleet.firstNonEmpty [e_Message event; e_EventType event] in
    let message :=
      if (rcGateStaleBurstWorkers <=? burst)%Z
      then message +:+ " (control-plane restart burst of " +:+ pretty burst +:+
           " workers, but this worker did not recover within " +:+ DurationString rcGateStaleGrace +:+ ")"
      else message in
    Some (match resumed with
          | None => message +:+ "; no heartbeat since " +:+ FormatRFC3339 (e_CreatedAt event)
          | Some _ => message +:+ "; heartbeats resumed after " +:+ DurationString (DurationRound silence Minute)
          end).

Record faultScan := mkScan {
  sc_diskDetail : string;
  sc_crashDetail : string;
  sc_staleDetail : string;
  sc_crashes : Z;
  sc_terminalCrash : bool;
  sc_lastStale : time;
  sc_planned : rcGatePlannedRestarts
}.
#[export] Instance faultScan_eta : Settable faultScan :=
  fun r => mkScan (sc_diskDetail r) (sc_crashDetail r) (sc_staleDetail r) (sc_crashes r)
    (sc_terminalCrash r) (sc_lastStale r) (sc_planned r).

Definition terminalRestart (event : Event) : bool :=
  Contains (ToLower (e_Message event)) rcGateFlyNotRestartingMarker.

(** The crash case of the event loop: how many crashes an event adds. *)
Definition crashCount (planned : rcGatePlannedRestarts) (event : Event) : Z * rcGatePlannedRestarts :=
  let count := Z.max 1 (e_Occurrences event) in
  if (e_EventType event =s "platform_restart") && negb (terminalRestart event) then
    let '(forgiven, planned) := forgive planned event in
    ((if forgiven then count - 1 else count)%Z, planned)
  else (count, planned).

Definition faultStep (db : soakDB) (worker : Worker) (verificationTimes : list time) (end_ : time)
  (s : faultScan) (event : Event) : faultScan :=
  if slices_Contains rcGateDiskFullEventTypes (e_EventType event) then
    if rcGateRestoreCapacityPressure event then s
    else s <| sc_diskDetail := GateFleet.firstNonEmpty [e_Message event; e_EventType event] |>
  else if slices_Contains rcGateCrashEventTypes (e_EventType event) then
    if rcGatePlannedLifecycleEvent event then s
    else
      let '(count, planned) := crashCount (sc_planned s) event in
      let s := s <| sc_planned := planned |> in
      if (count =? 0)%Z then s
      else s <| sc_crashes := (sc_crashes s + count)%Z |>
             <| sc_crashDetail := GateFleet.firstNonEmpty [e_Message event; e_EventType event] |>
             <| sc_terminalCrash := sc_terminalCrash s || terminalRestart event |>
  else if e_EventType event =s "worker_stale" then
    let s := if After (e_CreatedAt event) (sc_lastStale s)
             then s <| sc_lastStale := e_CreatedAt event |> else s in
    match rcGateStaleFault db worker event verificationTimes end_ with
    | Some detail => s <| sc_staleDetail := detail |>
    | None => s
    end
  else s.

Definition scanEvents (db : soakDB) (worker : Worker) (events : list Event)
  (verificationTimes : list time) (end_ : time) : faultScan :=
  fold_left (faultStep db worker verificationTimes end_) events
    (mkScan "" "" "" 0 false 0 (rcGatePlannedRestartsFor worker events)).

Definition workerDegraded (worker : Worker) : bool :=
  match w_Status worker with WorkerDegraded | WorkerFailed => true | _ => false end.

(** The decision after the event loop; reason [""] is no fault. *)
Definition rcGateWorkerFault (db : soakDB) (worker : Worker) (events : list Event)
  (verificationTimes : list time) (end_ : time) : string * string :=
  let s := scanEvents db worker events verificationTimes end_ in
  let degraded :=
    if workerDegraded worker && (w_ErrorMessage worker =s rcGateStaleWorkerMessage)
    then rcGateCurrentlySilent worker (sc_lastStale s) end_
    else workerDegraded worker in
  let diskDetail :=
    if (sc_diskDetail s =s "") && degraded && IsDiskCapacityMessage (w_ErrorMessage worker)
    then w_ErrorMessage worker else sc_diskDetail s in
  let crashLoop := (rcGateCrashLoopEvents <=? sc_crashes s)%Z || sc_terminalCrash s in
  let diskDetail :=
    if diskDetail =s "" then
      match parseRuntimeJSON (w_LastRuntimeJSON worker) 0 with
      | Some runtime =>
          if f64_leb rcGateDiskExhaustedUsedPct (rt_DataDiskUsedPercent runtime)
          then "data disk " +:+ Format1f (rt_DataDiskUsedPercent runtime) +:+ "% used" else ""
      | None => ""
      end
    else diskDetail in
  if negb (diskDetail =s "") then (rcGateReasonDiskExhausted, diskDetail)
  else if crashLoop then
    (rcGateReasonWorkerCrashLoop,
     pretty (sc_crashes s) +:+ " crash events in the gate window; last: " +:+ sc_crashDetail s)
  else if degraded then
    if negb (sc_staleDetail s =s "") && (w_ErrorMessage worker =s rcGateStaleWorkerMessage)
    then (rcGateReasonWorkerDegraded, sc_staleDetail s)
    else (rcGateReasonWorkerDegraded,
          GateFleet.firstNonEmpty [w_ErrorMessage worker; WorkerStatus_string (w_Status worker)])
  else if negb (sc_staleDetail s =s "") then (rcGateReasonWorkerDegraded, sc_staleDetail s)
  else ("", "").

Definition preStartPrefix (message : string) : option string :=
  List.find (HasPrefix (TrimSpace message)) rcGatePreStartFailurePrefixes.

Definition rcGatePreStartEvidence (worker : Worker) (events : list Event) : option string :=
  match w_LastRuntimeAt worker with
  | Some _ => None
  | None =>
      match List.find (fun e => (e_EventType e =s "worker_failed") &&
                                bool_decide (preStartPrefix (e_Message e) <> None)) events with
      | Some event =>
          Some ("worker_failed event " +:+
                fst (CutSuffix (default "" (preStartPrefix (e_Message event))) ":"))
      | None =>
          match parseRuntimeJSON (w_LastRuntimeJSON worker) 0 with
          | None => None
          | Some runtime =>
              if rt_LitestreamSnapshotHealthy runtime || negb (po_PID (rt_LitestreamProcess runtime) =? 0)%Z ||
                 f64_ltb f64_zero (rt_LitestreamUptimeSeconds runtime) || (0 <? rt_DBTXID runtime)%Z ||
                 (0 <? rt_ReplicatedTXID runtime)%Z
              then None
              else if negb ((0 <? po_PID (rt_WorkerProcess runtime))%Z || f64_ltb f64_zero (rt_UptimeSeconds runtime) ||
                            negb (TrimSpace (rt_LitestreamSnapshotError runtime) =s ""))
              then None
              else Some ("last heartbeat reported litestream pid 0 with no ipc snapshot" +:+
                         if negb (IsZero (rt_SnapshotCollectedAt runtime))
                         then " at " +:+ FormatRFC3339 (rt_SnapshotCollectedAt runtime) else "")
          end
      end
  end.

Definition rcGateSideFault (db : soakDB) (gate : RCGate) (worker : Worker)
  (verificationTimes : list time) (end_ : time) : string * string :=
  let events := ListWorkerEvents db (w_ID worker) rcGateWorkerEventHistory in
  let windowStart := Truncate (g_StartedAt gate) Second in
  let inWindow := List.filter (fun e => negb (Before (e_CreatedAt e) windowStart || After (e_CreatedAt e) end_)) events in
  let '(reason, detail) := rcGateWorkerFault db worker inWindow verificationTimes end_ in
  if reason =s "" then ("", "")
  else
    match verificationTimes, rcGatePreStartEvidence worker inWindow with
    | [], Some evidence =>
        (rcGateReasonHarnessInconclusive,
         reason +:+ " before litestream started (" +:+ evidence +:+ "): " +:+ detail)
    | _, _ => (reason, detail)
    end.
End Faults.

(** * Planned restarts are forgiven once *)

Lemma time_mem_In t l : time_mem t l = true <-> In t l.
Proof.
  unfold time_mem. rewrite existsb_exists. split.
  - intros (x & Hx & E%Z.eqb_eq). by subst.
  - intros Ht. exists t. split; [done|]. apply Z.eqb_refl.
Qed.

Lemma time_mem_false t l : time_mem t l = false <-> ~ In t l.
Proof. rewrite <- not_true_iff_false, time_mem_In. done. Qed.

Lemma plannedStep_spec p e :
  pl_forgiven (plannedStep p e) = pl_forgiven p /\ pl_phase (plannedStep p e) = pl_phase p /\
  length (pl_moments (plannedStep p e)) <= length (pl_moments p) + (if rcGatePlannedLifecycleEvent e then 1 else 0).
Proof.
  unfold plannedStep. destruct (rcGatePlannedLifecycleEvent e); simpl; [|split_and!; [done..|lia]].
  destruct (time_mem _ _); simpl; rewrite ?length_app; simpl; split_and!; done || lia.
Qed.

(** The planned moments of a worker come from its lifecycle events. *)
Lemma planned_moments_bound worker events :
  let p := rcGatePlannedRestartsFor worker events in
  pl_forgiven p = [] /\
  length (pl_moments p) <= length (List.filter rcGatePlannedLifecycleEvent events) /\
  pl_phase p = if w_ProfileName worker =s gateStressProfile then (6 * Hour)%Z else 0%Z.
Proof.
  unfold rcGatePlannedRestartsFor.
  change (match ParseDuration rcGateStressPhase with
          | Some phase => if (0 <? phase)%Z then phase else 0%Z | None => 0%Z end) with (6 * Hour)%Z.
  generalize (if w_ProfileName worker =s gateStressProfile then (6 * Hour)%Z else 0%Z) as ph. intros ph.
  assert (forall p, pl_forgiven p = [] -> pl_phase p = ph ->
    let p' := fold_left plannedStep events p in
    pl_forgiven p' = [] /\
    length (pl_moments p') <= length (pl_moments p) + length (List.filter rcGatePlannedLifecycleEvent events) /\
    pl_phase p' = ph) as Hgen; [|by apply (Hgen (mkPlanned ph [] []))].
  induction events as [|e events IH]; intros p Hf Hp; [split_and!; [done|simpl; lia|done]|].
  destruct (plannedStep_spec p e) as (H1 & H2 & H3). cbv zeta. rewrite fold_left_cons, filter_cons_if.
  destruct (IH (plannedStep p e)) as (Hfo & Hl & Hphase); [congruence|congruence|].
  split_and!; [exact Hfo| |exact Hphase]. destruct (rcGatePlannedLifecycleEvent e); cbn [length]; lia.
Qed.

(** A tracker that has forgiven each moment at most once, and only planned
    moments when the worker has no phases. *)
Definition fairPlanned (p : rcGatePlannedRestarts) : Prop :=
  NoDup (pl_forgiven p) /\ (pl_phase p = 0%Z -> incl (pl_forgiven p) (pl_moments p)).

Lemma forgive_fair p event ok p' :
  forgive p event = (ok, p') -> fairPlanned p ->
  fairPlanned p' /\ pl_moments p' = pl_moments p /\ pl_phase p' = pl_phase p /\
  length (pl_forgiven p') = length (pl_forgiven p) + (if ok then 1 else 0).
Proof.
  unfold forgive. intros Hf [Hn Hi]. destruct (rcGateWithinPlannedWindow _ _); simpl in Hf;
    [|injection Hf as <- <-; split_and!; try done; lia].
  destruct (time_mem _ (pl_moments p) || _) eqn:Em; simpl in Hf; [|injection Hf as <- <-; split_and!; try done; lia].
  destruct (time_mem _ (pl_forgiven p)) eqn:Ef; [injection Hf as <- <-; split_and!; try done; lia|].
  injection Hf as <- <-. split_and!; simpl; [split; simpl| done|done|rewrite length_app; simpl; lia].
  - apply NoDup_app. split_and!; [done| |apply NoDup_singleton].
    intros x Hx Hx'%list_elem_of_singleton. subst. apply time_mem_false in Ef. by apply Ef, list_elem_of_In.
  - intros Hph. rewrite Hph in Em. simpl in Em. rewrite orb_false_r in Em. apply time_mem_In in Em.
    apply incl_app; [by apply Hi|]. intros x [<-|[]]. done.
Qed.

Section FaultTheorems.
Context `{Decoders}.

Definition countedCrash (e : Event) : bool :=
  negb (slices_Contains rcGateDiskFullEventTypes (e_EventType e)) &&
  slices_Contains rcGateCrashEventTypes (e_EventType e) && negb (rcGatePlannedLifecycleEvent e).

Definition crashOccurrences (events : list Event) : Z :=
  fold_right (fun e n => (Z.max 1 (e_Occurrences e) + n)%Z) 0%Z (List.filter countedCrash events).

Lemma crashCount_fair p e count p' :
  crashCount p e = (count, p') -> fairPlanned p ->
  fairPlanned p' /\ pl_moments p' = pl_moments p /\ pl_phase p' = pl_phase p /\ (0 <= count)%Z /\
  (count + Z.of_nat (length (pl_forgiven p')) = Z.max 1 (e_Occurrences e) + Z.of_nat (length (pl_forgiven p)))%Z.
Proof.
  unfold crashCount. destruct (_ && _); [|intros [= <- <-] Hp; split_and!; try done; lia].
  destruct (forgive p e) as [ok q] eqn:Ef. intros [= <- <-] Hp.
  destruct (forgive_fair _ _ _ _ Ef Hp) as (? & ? & ? & Hl). split_and!; try done; destruct ok; lia.
Qed.

(** One event adds its occurrences to the crash count or to the forgiven restarts. *)
Lemma faultStep_account db worker times end_ s e :
  fairPlanned (sc_planned s) ->
  let s' := faultStep db worker times end_ s e in
  fairPlanned (sc_planned s') /\ pl_moments (sc_planned s') = pl_moments (sc_planned s) /\
  pl_phase (sc_planned s') = pl_phase (sc_planned s) /\
  (sc_crashes s' + Z.of_nat (length (pl_forgiven (sc_planned s'))) =
   sc_crashes s + Z.of_nat (length (pl_forgiven (sc_planned s))) +
   (if countedCrash e then Z.max 1 (e_Occurrences e) else 0))%Z.
Proof.
  intros Hp. unfold faultStep, countedCrash. cbv zeta.
  destruct (slices_Contains rcGateDiskFullEventTypes (e_EventType e)); cbn [negb andb].
  { destruct (rcGateRestoreCapacityPressure e); split_and!; try done; simpl; lia. }
  destruct (slices_Contains rcGateCrashEventTypes (e_EventType e)); cbn [negb andb].
  - destruct (rcGatePlannedLifecycleEvent e); cbn [negb]; [split_and!; try done; lia|].
    destruct (crashCount (sc_planned s) e) as [count p'] eqn:Ec.
    destruct (crashCount_fair _ _ _ _ Ec Hp) as (? & ? & ? & ? & ?).
    destruct (Z.eqb_spec count 0); split_and!; try done; simpl; lia.
  - destruct (e_EventType e =s "worker_stale"); [|split_and!; try done; lia].
    destruct (rcGateStaleFault _ _ _ _ _); destruct (After _ _); split_and!; try done; simpl; lia.
Qed.

Lemma scan_account db worker times end_ events s :
  fairPlanned (sc_planned s) ->
  let s' := fold_left (faultStep db worker times end_) events s in
  fairPlanned (sc_planned s') /\ pl_moments (sc_planned s') = pl_moments (sc_planned s) /\
  pl_phase (sc_planned s') = pl_phase (sc_planned s) /\
  (sc_crashes s' + Z.of_nat (length (pl_forgiven (sc_planned s'))) =
   sc_crashes s + Z.of_nat (length (pl_forgiven (sc_planned s))) + crashOccurrences events)%Z.
Proof.
  revert s. induction events as [|e events IH]; intros s Hp; [simpl; split_and!; try done; unfold crashOccurrences; simpl; lia|].
  rewrite fold_left_cons. destruct (faultStep_account db worker times end_ s e Hp) as (Hp1 & Hm & Hph & Hc).
  destruct (IH _ Hp1) as (? & Hm' & Hph' & Hc'). simpl. split_and!; [done|congruence|congruence|].
  rewrite Hc', Hc. unfold crashOccurrences. rewrite filter_cons_if. destruct (countedCrash e); simpl; lia.
Qed.

(** C23: Every crash is counted or forgiven, and each planned restart is
    forgiven once.  After the event loop the crashes counted and the moments
    forgiven add up to the occurrences of all crash events that are not
    lifecycle reports; no moment is forgiven twice; and on a worker without
    stress phases at most one restart per reported lifecycle event is
    forgiven. *)
Theorem crash_accounting db worker events times end_ :
  let s := scanEvents db worker events times end_ in
  let forgiven := pl_forgiven (sc_planned s) in
  (sc_crashes s + Z.of_nat (length forgiven) = crashOccurrences events)%Z /\
  NoDup forgiven /\
  (w_ProfileName worker <> gateStressProfile ->
   length forgiven <= length (List.filter rcGatePlannedLifecycleEvent events)).
Proof.
  intros s forgiven. pose proof (planned_moments_bound worker events) as (Hf & Hm & Hph).
  assert (fairPlanned (rcGatePlannedRestartsFor worker events)) as Hp.
  { split; rewrite Hf; [constructor|]. intros _ x []. }
  destruct (scan_account db worker times end_ events
    (mkScan "" "" "" 0 false 0 (rcGatePlannedRestartsFor worker events)) Hp) as ([Hn Hi] & Hmom & Hphase & Hc).
  fold (scanEvents db worker events times end_) in *. fold s in Hn, Hi, Hmom, Hphase, Hc. fold forgiven in Hn, Hi, Hc.
  simpl in Hc, Hmom, Hphase. rewrite Hf in Hc. split_and!; [simpl in Hc; lia|done|].
  intros Hne. rewrite (proj2 (eqs_false _ _) Hne) in Hph.
  etrans; [|exact Hm]. rewrite <- Hmom. apply NoDup_incl_length; [by apply NoDup_ListNoDup|].
  apply Hi. by rewrite Hphase.
Qed.

(** * Which fault is reported *)

Lemma IsDiskCapacityMessage_nonempty m : IsDiskCapacityMessage m = true -> m <> "".
Proof. intros Hd ->. vm_compute in Hd. discriminate. Qed.

Lemma firstNonEmpty_type m t : (TrimSpace t =s "") = false -> GateFleet.firstNonEmpty [m; t] <> "".
Proof.
  intros Ht. simpl. destruct (eqs_spec (TrimSpace m) ""); simpl; [rewrite Ht; simpl|].
  - intros ->. discriminate.
  - intros ->. done.
Qed.

(** An event that is evidence of a full disk: a disk-full event that is not
    the verifier running out of room for its own restore. *)
Definition diskFullEvidence (e : Event) : bool :=
  slices_Contains rcGateDiskFullEventTypes (e_EventType e) && negb (rcGateRestoreCapacityPressure e).

Lemma disk_type_trim e :
  slices_Contains rcGateDiskFullEventTypes (e_EventType e) = true -> (TrimSpace (e_EventType e) =s "") = false.
Proof. rewrite slices_Contains_In. intros [<-|[<-|[<-|[]]]]; reflexivity. Qed.

Lemma faultStep_disk db worker times end_ s e :
  sc_diskDetail (faultStep db worker times end_ s e) = "" <-> sc_diskDetail s = "" /\ diskFullEvidence e = false.
Proof.
  unfold faultStep, diskFullEvidence.
  destruct (slices_Contains rcGateDiskFullEventTypes (e_EventType e)) eqn:Et; cbn [negb andb].
  { destruct (rcGateRestoreCapacityPressure e); [naive_solver|].
    simpl sc_diskDetail. apply disk_type_trim in Et.
    pose proof (firstNonEmpty_type (e_Message e) _ Et). split; [done|intros [_ ?]; done]. }
  assert (forall s', sc_diskDetail s' = sc_diskDetail s ->
            sc_diskDetail s' = "" <-> sc_diskDetail s = "" /\ false = false) as Hk by (intros s' ->; naive_solver).
  destruct (slices_Contains rcGateCrashEventTypes (e_EventType e)).
  - destruct (rcGatePlannedLifecycleEvent e); [by apply Hk|].
    destruct (crashCount _ _) as [count p']. destruct (count =? 0)%Z; by apply Hk.
  - destruct (e_EventType e =s "worker_stale"); [|by apply Hk].
    destruct (rcGateStaleFault _ _ _ _ _); destruct (After _ _); by apply Hk.
Qed.

Lemma scan_disk db worker times end_ events s :
  sc_diskDetail (fold_left (faultStep db worker times end_) events s) = "" <->
  sc_diskDetail s = "" /\ existsb diskFullEvidence events = false.
Proof.
  revert s. induction events as [|e events IH]; intros s; [simpl; naive_solver|].
  rewrite fold_left_cons, IH, faultStep_disk. cbn [existsb]. rewrite orb_false_iff. tauto.
Qed.

(** The worker's degraded status as the decision uses it. *)
Definition effectivelyDegraded (worker : Worker) (lastStale end_ : time) : bool :=
  if workerDegraded worker && (w_ErrorMessage worker =s rcGateStaleWorkerMessage)
  then rcGateCurrentlySilent worker lastStale end_ else workerDegraded worker.

Definition diskNearlyFull (worker : Worker) : bool :=
  match parseRuntimeJSON (w_LastRuntimeJSON worker) 0 with
  | Some runtime => f64_leb rcGateDiskExhaustedUsedPct (rt_DataDiskUsedPercent runtime)
  | None => false
  end.

Lemma effectivelyDegraded_fold worker lastStale end_ :
  (if workerDegraded worker && (w_ErrorMessage worker =s rcGateStaleWorkerMessage)
   then rcGateCurrentlySilent worker lastStale end_ else workerDegraded worker) =
  effectivelyDegraded worker lastStale end_.
Proof. reflexivity. Qed.

(** The fault a worker is given, on every branch.  A disk fault is
    reported exactly when the window has a disk-full event that is not the
    verifier's own restore, the worker is degraded with a disk-capacity
    error, or its last sample shows the disk 98% full; otherwise a crash
    loop exactly when two unforgiven crashes or one terminal restart were
    seen; otherwise a degraded worker or a stale period past the grace
    period; and otherwise no fault. *)
Theorem fault_reason db worker events times end_ :
  let s := scanEvents db worker events times end_ in
  let degraded := effectivelyDegraded worker (sc_lastStale s) end_ in
  let disk := existsb diskFullEvidence events ||
              (degraded && IsDiskCapacityMessage (w_ErrorMessage worker)) || diskNearlyFull worker in
  let crash := (2 <=? sc_crashes s)%Z || sc_terminalCrash s in
  fst (rcGateWorkerFault db worker events times end_) =
  if disk then "disk_exhausted" else if crash then "worker_crash_loop"
  else if degraded || negb (sc_staleDetail s =s "") then "worker_degraded" else "".
Proof.
  intros s degraded disk crash. unfold rcGateWorkerFault. cbv zeta. fold s.
  rewrite effectivelyDegraded_fold. fold degraded. change (rcGateCrashLoopEvents <=? sc_crashes s)%Z with (2 <=? sc_crashes s)%Z.
  fold crash.
  pose proof (scan_disk db worker times end_ events
    (mkScan "" "" "" 0 false 0 (rcGatePlannedRestartsFor worker events))) as Hd.
  fold (scanEvents db worker events times end_) in Hd. fold s in Hd. simpl in Hd.
  set (d1 := if (sc_diskDetail s =s "") && degraded && _ then _ else _).
  set (d2 := if d1 =s "" then _ else _).
  assert (d1 = "" <-> existsb diskFullEvidence events = false /\
            degraded && IsDiskCapacityMessage (w_ErrorMessage worker) = false) as H1.
  { unfold d1. clear d1 d2 disk crash. clearbody degraded.
    destruct (eqs_spec (sc_diskDetail s) "") as [E|E]; cbn [andb].
    - destruct (proj1 Hd E) as [_ ->]. destruct degraded; cbn [andb]; [|done].
      destruct (IsDiskCapacityMessage _) eqn:Em; [|done].
      apply IsDiskCapacityMessage_nonempty in Em. split; [done|intros [_ ?]; done].
    - split; [done|]. intros [Hev _]. apply Hd. done. }
  assert ((d2 =s "") = negb disk) as ->.
  { unfold d2, disk, diskNearlyFull.
    destruct (eqs_spec d1 "") as [E|E].
    - apply H1 in E as [-> ->]. simpl. destruct (parseRuntimeJSON _ _); [|done].
      by destruct (f64_leb _ _).
    - rewrite (proj2 (eqs_false _ _) E). symmetry. apply negb_false_iff. apply orb_true_intro. left.
      destruct (existsb diskFullEvidence events); [done|]. simpl.
      destruct (degraded && _); [done|]. destruct E. by apply H1. }
  rewrite negb_involutive. destruct disk, crash, degraded; try reflexivity.
  - by destruct (negb (sc_staleDetail s =s "") && _).
  - by destruct (negb (sc_staleDetail s =s "")).
Qed.

(** Only a fault before Litestream ever started is excused.  The side
    fault is [harness_inconclusive] only when the worker has a fault, no
    verification was observed, the control plane never stored a healthy
    snapshot, and there is pre-start evidence; in every other case the
    worker's own fault is reported unchanged. *)
Theorem excused_only_before_start db gate worker times end_ :
  let events := List.filter (fun e => negb (Before (e_CreatedAt e) (Truncate (g_StartedAt gate) Second) ||
                                            After (e_CreatedAt e) end_))
                  (ListWorkerEvents db (w_ID worker) rcGateWorkerEventHistory) in
  let fault := rcGateWorkerFault db worker events times end_ in
  (fst (rcGateSideFault db gate worker times end_) = rcGateReasonHarnessInconclusive /\
   fst fault <> "" /\ times = [] /\ w_LastRuntimeAt worker = None /\ rcGatePreStartEvidence worker events <> None) \/
  (rcGateSideFault db gate worker times end_ = (if fst fault =s "" then ("", "") else fault) /\
   (fst fault = "" \/ times <> [] \/ rcGatePreStartEvidence worker events = None)).
Proof.
  intros events fault. unfold rcGateSideFault. cbv zeta. fold events. fold fault.
  destruct fault as [reason detail]. simpl. destruct (eqs_spec reason "") as [->|Hne]; [right; auto|].
  destruct times as [|t times]; [|right; auto].
  destruct (rcGatePreStartEvidence worker events) eqn:E; [|right; auto]. left. split_and!; try done.
  unfold rcGatePreStartEvidence in E. by destruct (w_LastRuntimeAt worker).
Qed.
End FaultTheorems.
