(* ===== verification/GateVerdict.v ===== *)
(** The gate's verdict: [rcGateSide], the mode and scenario verdicts,
    [buildRCGateResults] and [buildRCGateLedgerEntry] of
    [internal/orchestrator/rc_gate.go], with [rcGateHeldWorkers] of
    [evidence_hold.go] and [workerReplicaPath] of [manager.go]. *)
From stdpp Require Import sorting.
From Stdlib Require Import Ascii.
From S2P Require Import Prelude GoStrings Regex Model GoTime Classification GateFleet SoakDB GateFault.

(** * Data *)

Definition rcGateVerdictPass := "pass".
Definition rcGateVerdictFail := "fail".
Definition rcGateVerdictIncomplete := "incomplete".
Definition rcGateVerdictRegression := "regression".
Definition rcGateVerdictBothFailing := "both_failing".
Definition rcGateVerdictNoReproduction := "no_reproduction".
Definition rcGateSideMissing := "missing".
Definition rcGateSideNoCoverage := "no_coverage".
Definition rcGateSidePassing := "passing".
Definition rcGateSideFailing := "failing".

Record RCGateSideResult := mkSide {
  sr_Source : string;
  sr_WorkerID : string;
  sr_Status : string;
  sr_Passed : Z;
  sr_Failed : Z;
  sr_Reproduced : Z;
  sr_RotationEnabled : bool;
  sr_Reason : string;
  sr_ReasonDetail : string;
  sr_coverageCheck : bool;
  sr_vfsCheck : bool;
  sr_walResetCheck : bool
}.
#[export] Instance RCGateSideResult_eta : Settable RCGateSideResult :=
  fun r => mkSide (sr_Source r) (sr_WorkerID r) (sr_Status r) (sr_Passed r) (sr_Failed r) (sr_Reproduced r)
    (sr_RotationEnabled r) (sr_Reason r) (sr_ReasonDetail r) (sr_coverageCheck r) (sr_vfsCheck r) (sr_walResetCheck r).
Definition emptySide (source worker : string) : RCGateSideResult :=
  mkSide source worker "" 0 0 0 false "" "" false false false.

Record RCGateModeResult := mkMode {
  mr_Mode : string;
  mr_Candidate : RCGateSideResult;
  mr_Baseline : RCGateSideResult;
  mr_Verdict : string
}.
#[export] Instance RCGateModeResult_eta : Settable RCGateModeResult :=
  fun r => mkMode (mr_Mode r) (mr_Candidate r) (mr_Baseline r) (mr_Verdict r).

Record RCGateScenarioResult := mkScenarioResult {
  sn_Scenario : string;
  sn_Profile : string;
  sn_Candidate : RCGateSideResult;
  sn_Baseline : RCGateSideResult;
  sn_Modes : list RCGateModeResult;
  sn_Verdict : string
}.
#[export] Instance RCGateScenarioResult_eta : Settable RCGateScenarioResult :=
  fun r => mkScenarioResult (sn_Scenario r) (sn_Profile r) (sn_Candidate r) (sn_Baseline r) (sn_Modes r) (sn_Verdict r).

Record RCGateHeldWorker := mkHeld {
  hw_Source : string; hw_WorkerID : string; hw_Name : string; hw_Profile : string;
  hw_FlyMachineID : string; hw_FlyVolumeID : string; hw_ReplicaPath : string;
  hw_EvidenceHoldAt : option time; hw_EvidenceHoldReason : string
}.

Record rcGateResults := mkResults {
  gr_Verdict : string;
  gr_Scenarios : list RCGateScenarioResult;
  gr_HeldWorkers : list RCGateHeldWorker;
  gr_ClosedAt : time
}.

Abbreviation modeMap := (gmap string RCGateSideResult).

(** * Sides *)

Definition rcGateHardFault (reason : string) : bool :=
  negb (reason =s "") && negb (reason =s rcGateReasonHarnessInconclusive).

Definition rcGateSideStatus (side : RCGateSideResult) : string :=
  if (0 <? sr_Failed side)%Z || rcGateHardFault (sr_Reason side) then rcGateSideFailing
  else if (0 <? sr_Passed side)%Z then rcGateSidePassing
  else rcGateSideNoCoverage.

Definition walResetReproduction (v : Verification) : bool :=
  if negb (TrimSpace (v_CheckType v) =s gateCheckWALReset) then false
  else slices_Contains ["walreset_restore_failed"; "walreset_integrity_failed"; "walreset_logical_mismatch"]
         (fc_Signature (ClassifyVerificationFailure (v_CheckType v) (v_ErrorMessage v))).

Definition rcGateOwnsWorker (gate : RCGate) (worker : Worker) : bool :=
  negb (Before (w_CreatedAt worker) (Truncate (g_StartedAt gate) Second)).

Definition modeOf (v : Verification) : string :=
  let mode := TrimSpace (v_RestoreMode v) in if mode =s "" then "txid" else mode.

(** The result of one verification on a side or on one of its modes. *)
Definition scoreVerification (v : Verification) (side : RCGateSideResult) : RCGateSideResult :=
  if Succeeded v then side <| sr_Passed := (sr_Passed side + 1)%Z |>
  else if Failed v then
    let side := side <| sr_Failed := (sr_Failed side + 1)%Z |> in
    if walResetReproduction v then side <| sr_Reproduced := (sr_Reproduced side + 1)%Z |> else side
  else side.

(** The loop body of [rcGateSide] for a verification that passed the window,
    deployment, identity and filter tests. *)
Definition scoreStep (source worker : string) (st : RCGateSideResult * modeMap) (v : Verification)
  : RCGateSideResult * modeMap :=
  let '(side, modes) := st in
  let mode := modeOf v in
  let side :=
    if negb (TrimSpace (v_RestoreMode v) =s "") && negb (slices_Contains gateStandaloneModes mode) &&
       negb (v_RestoreModeFallback v =s "rotation_disabled")
    then side <| sr_RotationEnabled := true |> else side in
  let entry := default (emptySide source worker) (modes !! mode) in
  (scoreVerification v side, <[mode := scoreVerification v entry]> modes).

Definition observedVerification (gate : RCGate) (end_ : time) (worker : Worker) (deployment : Deployment)
  (v : Verification) : bool :=
  negb (Before (v_StartedAt v) (g_StartedAt gate) || After (v_StartedAt v) end_ ||
        negb (MatchesDeployment v worker deployment)).

Definition scoredVerification (gate : RCGate) (scenario : gateScenario) (f : gateSideFilter) (v : Verification) : bool :=
  (id_Scenario (v_Run v) =s s_identity scenario) && accepts f gate v.

Definition applyFault (fault : string * string) (side : RCGateSideResult) : RCGateSideResult :=
  let side := side <| sr_Reason := fst fault |> <| sr_ReasonDetail := snd fault |> in
  side <| sr_Status := rcGateSideStatus side |>.

Section Verdict.
Context `{Decoders}.

Definition ParseConfig (raw : string) : option Config :=
  if TrimSpace raw =s "" then Some Config_zero else decodeConfig raw.

Definition rcGateSide (db : soakDB) (gate : RCGate) (scenario : gateScenario) (f : gateSideFilter)
  (end_ : time) : RCGateSideResult * modeMap :=
  let source := sourceFor f gate in
  let profile := GateFleet.firstNonEmpty [f_profile f; s_profile scenario] in
  let side := (emptySide source "") <| sr_Status := rcGateSideMissing |> in
  let '(pinnedImage, pinnedGit) := PinnedBuildFor gate source in
  let '(pinnedLitestream, _) := LitestreamSHAFor gate source in
  if pinnedImage =s "" then (side, ∅)
  else
  match GetDeploymentByVersion db source pinnedGit pinnedLitestream with
  | None => (side, ∅)
  | Some deployment =>
      if negb (d_ImageRef deployment =s pinnedImage) then (side, ∅)
      else
      match List.find (fun w => (w_ProfileName w =s profile) && rcGateOwnsWorker gate w)
              (ListWorkersFiltered db "" source) with
      | None => (side, ∅)
      | Some worker =>
          let side := side <| sr_WorkerID := w_ID worker |> in
          let side :=
            match ParseConfig (w_ProfileConfig worker) with
            | Some cfg => side <| sr_coverageCheck := c_LTXCoverageCheck cfg |>
                            <| sr_vfsCheck := c_VFSReaderCheck cfg |> <| sr_walResetCheck := c_WALResetCheck cfg |>
            | None => side
            end in
          let observed := List.filter (observedVerification gate end_ worker deployment)
            (ListVerificationsExcludingMeteringRuns db (w_ID worker) rcGateVerificationHistory) in
          let '(side, modes) := fold_left (scoreStep source (w_ID worker))
            (List.filter (scoredVerification gate scenario f) observed) (side, ∅) in
          let fault := rcGateSideFault db gate worker (map v_StartedAt observed) end_ in
          (applyFault fault side, applyFault fault <$> modes)
      end
  end.

(** * Verdicts *)

Definition rcGateScenarioVerdict (candidate baseline : string) : string :=
  let covered status := (status =s rcGateSidePassing) || (status =s rcGateSideFailing) in
  if negb (covered candidate) || negb (covered baseline) then rcGateVerdictIncomplete
  else if (candidate =s rcGateSideFailing) && (baseline =s rcGateSideFailing) then rcGateVerdictBothFailing
  else if candidate =s rcGateSideFailing then rcGateVerdictRegression
  else rcGateVerdictPass.

Definition rcGateRequiredModes (scenario : gateScenario) (candidate baseline : RCGateSideResult) : list string :=
  match s_requiredModes scenario with
  | _ :: _ => s_requiredModes scenario
  | [] => if s_txidOnly scenario || (negb (sr_RotationEnabled candidate) && negb (sr_RotationEnabled baseline))
          then ["txid"] else gateRotatingRestoreModes
  end.

(** A mode's result on one side, or what the side itself says about a mode
    it has no verification of. *)
Definition modeSide (base : RCGateSideResult) (modes : modeMap) (name : string) : RCGateSideResult :=
  match modes !! name with
  | Some mode => mode
  | None =>
      let result := (emptySide (sr_Source base) (sr_WorkerID base))
        <| sr_Reason := sr_Reason base |> <| sr_ReasonDetail := sr_ReasonDetail base |> in
      let result := result <| sr_Status := rcGateSideStatus result |> in
      if sr_Status base =s rcGateSideMissing then result <| sr_Status := rcGateSideMissing |> else result
  end.

(** [slices.Sort] on strings: byte order. *)
Definition string_le (a b : string) : Prop := String.leb a b = true.
#[export] Instance string_le_dec a b : Decision (string_le a b).
Proof. unfold string_le. apply _. Defined.

Definition modeNames (required : list string) (candidateModes baselineModes : modeMap) : list string :=
  merge_sort string_le
    (required ++ List.filter (fun n => negb (slices_Contains required n))
                   (elements (dom candidateModes ∪ dom baselineModes : gset string))).

Definition rcGateModeResults (required : list string) (candidate baseline : RCGateSideResult)
  (candidateModes baselineModes : modeMap) : list RCGateModeResult :=
  map (fun name =>
      let c := modeSide candidate candidateModes name in
      let b := modeSide baseline baselineModes name in
      mkMode name c b (rcGateScenarioVerdict (sr_Status c) (sr_Status b)))
    (modeNames required candidateModes baselineModes).

Definition rcGateModesVerdict (modes : list RCGateModeResult) : string :=
  default rcGateVerdictPass
    (List.find (fun verdict => existsb (fun mode => mr_Verdict mode =s verdict) modes)
       [rcGateVerdictRegression; rcGateVerdictBothFailing; rcGateVerdictIncomplete]).

Definition rcGateWALResetVerdict (verdict : string) (candidate baseline : RCGateSideResult) : string :=
  if negb (verdict =s rcGateVerdictPass) then verdict
  else if (sr_Reproduced baseline =? 0)%Z then rcGateVerdictNoReproduction
  else rcGateVerdictPass.

Definition rcGateCoverageVerdict (verdict : string) (candidate baseline : RCGateSideResult) : string :=
  if (0 <? sr_Failed candidate)%Z && (sr_Failed baseline =? 0)%Z && negb (sr_Status baseline =s rcGateSideFailing)
  then rcGateVerdictRegression else verdict.

Definition rescoreModes (verdict : string -> RCGateSideResult -> RCGateSideResult -> string)
  (modes : list RCGateModeResult) : list RCGateModeResult :=
  map (fun m => m <| mr_Verdict := verdict (mr_Verdict m) (mr_Candidate m) (mr_Baseline m) |>) modes.

Definition defaultRole (role : string) (f : gateSideFilter) : gateSideFilter :=
  if f_role f =s "" then f <| f_role := role |> else f.

(** The body of the scenario loop; [None] when the scenario is skipped. *)
Definition scenarioResult (db : soakDB) (gate : RCGate) (end_ : time) (scenario : gateScenario)
  : option RCGateScenarioResult :=
  if negb (gateSelectsProfile gate (s_profile scenario)) then None
  else
    let '(candidate, candidateModes) := rcGateSide db gate scenario (defaultRole gateRoleCandidate (s_candidate scenario)) end_ in
    let '(baseline, baselineModes) := rcGateSide db gate scenario (defaultRole gateRoleBaseline (s_baseline scenario)) end_ in
    let modes := rcGateModeResults (rcGateRequiredModes scenario candidate baseline)
                   candidate baseline candidateModes baselineModes in
    let verdict := rcGateScenarioVerdict (sr_Status candidate) (sr_Status baseline) in
    let verdict := if negb (verdict =s rcGateVerdictIncomplete) && negb (bool_decide (length modes = 0))
                   then rcGateModesVerdict modes else verdict in
    if (s_coverage scenario && negb (sr_coverageCheck candidate) && negb (sr_coverageCheck baseline)) ||
       (s_vfs scenario && negb (sr_vfsCheck candidate) && negb (sr_vfsCheck baseline)) ||
       (s_walReset scenario && negb (sr_walResetCheck candidate) && negb (sr_walResetCheck baseline))
    then None
    else
      let standalone := s_coverage scenario || s_vfs scenario || s_walReset scenario in
      let modes := if standalone then rescoreModes rcGateCoverageVerdict modes else modes in
      let verdict := if standalone then rcGateCoverageVerdict verdict candidate baseline else verdict in
      let modes := if s_walReset scenario then rescoreModes rcGateWALResetVerdict modes else modes in
      let verdict := if s_walReset scenario then rcGateWALResetVerdict verdict candidate baseline else verdict in
      Some (mkScenarioResult (s_name scenario) (s_profile scenario) candidate baseline modes verdict).

Definition workerReplicaPath (worker : Worker) : string :=
  let base := "soak/" +:+ w_Name worker in
  let volumeID := Trim (TrimSpace (w_FlyVolumeID worker)) "/" in
  if negb (volumeID =s "") then base +:+ "/" +:+ volumeID else base.

Definition rcGateHeldWorkers (db : soakDB) (gate : RCGate) : list RCGateHeldWorker :=
  flat_map (fun source =>
      map (fun w => mkHeld source (w_ID w) (w_Name w) (w_ProfileName w) (w_FlyMachineID w) (w_FlyVolumeID w)
                      (workerReplicaPath w) (w_EvidenceHoldAt w) (w_EvidenceHoldReason w))
        (List.filter (fun w => EvidenceHeld w && rcGateOwnsWorker gate w) (ListWorkersFiltered db "" source)))
    (Sources gate).

Definition failingVerdict (v : string) : bool := (v =s rcGateVerdictRegression) || (v =s rcGateVerdictBothFailing).
Definition openVerdict (v : string) : bool := (v =s rcGateVerdictIncomplete) || (v =s rcGateVerdictNoReproduction).

Definition buildRCGateResults (db : soakDB) (gate : RCGate) (end_ : time) : rcGateResults :=
  let scenarios := omap (scenarioResult db gate end_) (gateScenariosFor gate) in
  let verdict :=
    if existsb (fun r => failingVerdict (sn_Verdict r)) scenarios then rcGateVerdictFail
    else if existsb (fun r => openVerdict (sn_Verdict r)) scenarios then rcGateVerdictIncomplete
    else rcGateVerdictPass in
  mkResults verdict scenarios (rcGateHeldWorkers db gate) end_.
End Verdict.

(** * Scoring *)

Lemma scoreVerification_spec v side :
  let side' := scoreVerification v side in
  sr_Passed side' = (sr_Passed side + (if Succeeded v then 1 else 0))%Z /\
  sr_Failed side' = (sr_Failed side + (if Failed v then 1 else 0))%Z /\
  (sr_Reproduced side <= sr_Reproduced side' <= sr_Reproduced side + (if Failed v then 1 else 0))%Z /\
  sr_Source side' = sr_Source side /\ sr_WorkerID side' = sr_WorkerID side /\
  (sr_coverageCheck side', sr_vfsCheck side', sr_walResetCheck side') =
  (sr_coverageCheck side, sr_vfsCheck side, sr_walResetCheck side).
Proof.
  unfold scoreVerification.
  destruct (verification_trichotomy v) as [(_ & -> & ->)|[(_ & -> & ->)|(_ & -> & ->)]];
    cbv iota; [| destruct (walResetReproduction v)|]; simpl; split_and!; done || lia.
Qed.

(** What the scoring loop keeps: the side's counters are the totals over the
    verifications seen, every mode's counters are at most the side's, and a
    side that failed has a mode that failed. *)
Record scored (vs : list Verification) (side : RCGateSideResult) (modes : modeMap) : Prop := {
  sd_passed : sr_Passed side = Z.of_nat (length (List.filter Succeeded vs));
  sd_failed : sr_Failed side = Z.of_nat (length (List.filter Failed vs));
  sd_reproduced : (0 <= sr_Reproduced side <= sr_Failed side)%Z;
  sd_modes : map_Forall (fun _ e => 0 <= sr_Passed e <= sr_Passed side /\ 0 <= sr_Failed e <= sr_Failed side)%Z modes;
  sd_failed_mode : (0 < sr_Failed side)%Z -> exists m e, modes !! m = Some e /\ (0 < sr_Failed e)%Z
}.

Lemma scoreStep_scored source worker vs side modes v :
  scored vs side modes ->
  scored (vs ++ [v]) (fst (scoreStep source worker (side, modes) v)) (snd (scoreStep source worker (side, modes) v)).
Proof.
  intros [Hp Hf Hr Hm Hfm]. unfold scoreStep.
  set (side1 := if _ && _ && _ then side <| sr_RotationEnabled := true |> else side).
  assert (sr_Passed side1 = sr_Passed side /\ sr_Failed side1 = sr_Failed side /\ sr_Reproduced side1 = sr_Reproduced side)
    as (E1 & E2 & E3) by (unfold side1; by destruct (_ && _ && _)).
  set (entry := default (emptySide source worker) (modes !! modeOf v)).
  destruct (scoreVerification_spec v side1) as (P1 & F1 & R1 & _).
  destruct (scoreVerification_spec v entry) as (P2 & F2 & R2 & _).
  assert (0 <= sr_Passed entry <= sr_Passed side /\ 0 <= sr_Failed entry <= sr_Failed side)%Z as Hentry.
  { unfold entry. destruct (modes !! modeOf v) eqn:El; simpl; [by apply (Hm _ _ El)|lia]. }
  cbv zeta. cbn [fst snd]. constructor.
  - rewrite P1, E1, Hp, List.filter_app, length_app. simpl. destruct (Succeeded v); simpl; lia.
  - rewrite F1, E2, Hf, List.filter_app, length_app. simpl. destruct (Failed v); simpl; lia.
  - rewrite F1, E2. destruct (Failed v); lia.
  - apply map_Forall_insert_2.
    + rewrite P1, P2, F1, F2, E1, E2. destruct (Succeeded v), (Failed v); lia.
    + intros m e He. specialize (Hm m e He). simpl in Hm. rewrite P1, F1, E1, E2.
      destruct (Succeeded v), (Failed v); lia.
  - rewrite F1, E2. intros Hpos. destruct (Failed v) eqn:Ev.
    + exists (modeOf v), (scoreVerification v entry). rewrite lookup_insert_eq. split; [done|]. lia.
    + destruct Hfm as (m & e & Hl & He); [lia|]. destruct (decide (m = modeOf v)) as [->|Hne].
      * exists (modeOf v), (scoreVerification v entry). rewrite lookup_insert_eq. split; [done|].
        unfold entry. rewrite Hl. simpl. unfold entry in F2. rewrite Hl in F2. simpl in F2. lia.
      * exists m, e. rewrite lookup_insert_ne by done. done.
Qed.

Lemma scoreAll_scored source worker vs side :
  sr_Passed side = 0%Z -> sr_Failed side = 0%Z -> sr_Reproduced side = 0%Z ->
  let st := fold_left (scoreStep source worker) vs (side, ∅) in scored vs (fst st) (snd st).
Proof.
  intros H1 H2 H3. rewrite <- (rev_involutive vs). induction (rev vs) as [|v l IH]; simpl.
  - constructor; simpl; try lia; try done.
  - rewrite fold_left_app. cbn [fold_left]. simpl in IH.
    destruct (fold_left (scoreStep source worker) (rev l) (side, ∅)) as [s m]. by apply scoreStep_scored.
Qed.

Lemma status_failing side :
  rcGateSideStatus side = rcGateSideFailing <-> (0 < sr_Failed side)%Z \/ rcGateHardFault (sr_Reason side) = true.
Proof.
  unfold rcGateSideStatus. destruct (Z.ltb_spec 0 (sr_Failed side)); simpl; [naive_solver|].
  destruct (rcGateHardFault (sr_Reason side)); [naive_solver|].
  destruct (0 <? sr_Passed side)%Z; split; try discriminate; intros [?|?]; lia || done.
Qed.

Lemma status_passing side :
  rcGateSideStatus side = rcGateSidePassing <->
  (sr_Failed side <= 0)%Z /\ rcGateHardFault (sr_Reason side) = false /\ (0 < sr_Passed side)%Z.
Proof.
  unfold rcGateSideStatus. destruct (Z.ltb_spec 0 (sr_Failed side)); simpl; [split; [discriminate|lia]|].
  destruct (rcGateHardFault (sr_Reason side)); [split; [discriminate|naive_solver]|].
  destruct (Z.ltb_spec 0 (sr_Passed side)); split; try discriminate; done || lia.
Qed.

Lemma scenarioVerdict_pass c b :
  rcGateScenarioVerdict c b = rcGateVerdictPass <->
  c = rcGateSidePassing /\ (b = rcGateSidePassing \/ b = rcGateSideFailing).
Proof.
  unfold rcGateScenarioVerdict. split.
  - destruct (eqs_spec c rcGateSidePassing) as [->|Hc].
    + destruct (eqs_spec b rcGateSidePassing); [auto|]. destruct (eqs_spec b rcGateSideFailing); [auto|discriminate].
    + destruct (eqs_spec c rcGateSideFailing); [|discriminate].
      destruct ((b =s _) || _); [|discriminate]. destruct (b =s rcGateSideFailing); discriminate.
  - intros [-> [-> | ->]]; reflexivity.
Qed.

Lemma scenarioVerdict_cases c b :
  In (rcGateScenarioVerdict c b)
    [rcGateVerdictPass; rcGateVerdictIncomplete; rcGateVerdictBothFailing; rcGateVerdictRegression].
Proof.
  unfold rcGateScenarioVerdict. cbv zeta.
  destruct (c =s rcGateSidePassing), (c =s rcGateSideFailing), (b =s rcGateSidePassing),
    (b =s rcGateSideFailing); simpl; tauto.
Qed.

Section VerdictTheorems.
Context `{Decoders}.

(** The two shapes a side can have. *)
Inductive sideShape (db : soakDB) (gate : RCGate) (scenario : gateScenario) (f : gateSideFilter) (end_ : time)
  : RCGateSideResult -> modeMap -> Prop :=
| side_missing side : sr_Status side = rcGateSideMissing -> sideShape db gate scenario f end_ side ∅
| side_scored worker deployment vs side modes fault :
    In worker (db_workers db) -> (w_Source worker = sourceFor f gate \/ sourceFor f gate = "") ->
    rcGateOwnsWorker gate worker = true ->
    w_ProfileName worker = GateFleet.firstNonEmpty [f_profile f; s_profile scenario] ->
    In deployment (db_deployments db) ->
    d_LitestreamSHA deployment = fst (LitestreamSHAFor gate (sourceFor f gate)) ->
    d_ImageRef deployment = fst (PinnedBuildFor gate (sourceFor f gate)) ->
    (forall v, In v vs -> In v (db_verifications db) /\
       observedVerification gate end_ worker deployment v = true /\ scoredVerification gate scenario f v = true) ->
    scored vs side modes ->
    sideShape db gate scenario f end_ (applyFault fault side) (applyFault fault <$> modes).

Lemma GetDeploymentByVersion_In db source git litestream d :
  GetDeploymentByVersion db source git litestream = Some d ->
  In d (db_deployments db) /\ d_LitestreamSHA d = litestream.
Proof.
  unfold GetDeploymentByVersion.
  set (P := fun d => In d (db_deployments db) /\ d_LitestreamSHA d = litestream).
  assert (forall l best, (forall x, In x l -> In x (db_deployments db)) -> (forall b, best = Some b -> P b) ->
    forall d, fold_left (fun best d =>
      if (d_Source d =s source) && (d_GitSHA d =s git) && (d_LitestreamSHA d =s litestream)
      then match best with Some b => if newer_deployment d b then Some d else Some b | None => Some d end
      else best) l best = Some d -> P d) as Hgen; [|by apply (Hgen (db_deployments db) None)].
  induction l as [|x l IH]; intros best Hin Hb d'; [apply Hb|]. rewrite fold_left_cons. apply IH.
  - intros y Hy. apply Hin. by right.
  - intros b. destruct (_ && _ && _) eqn:E; [|apply Hb].
    apply andb_prop in E as [_ E%eqs_true].
    assert (P x) by (split; [apply Hin; by left|done]).
    destruct best as [b'|]; [|intros [= <-]; done].
    destruct (newer_deployment x b'); intros [= <-]; [done|by apply Hb].
Qed.

Lemma firstn_In {A} n (l : list A) x : In x (firstn n l) -> In x l.
Proof. intros Hx. rewrite <- (firstn_skipn n l). apply in_or_app. by left. Qed.

Lemma rcGateSide_shape db gate scenario f end_ :
  sideShape db gate scenario f end_ (fst (rcGateSide db gate scenario f end_)) (snd (rcGateSide db gate scenario f end_)).
Proof.
  unfold rcGateSide.
  destruct (PinnedBuildFor gate (sourceFor f gate)) as [image git] eqn:Ei,
           (LitestreamSHAFor gate (sourceFor f gate)) as [litestream known] eqn:El.
  destruct (image =s ""); [by constructor|].
  destruct (GetDeploymentByVersion _ _ _ _) as [deployment|] eqn:Ed; [|by constructor].
  destruct (eqs_spec (d_ImageRef deployment) image) as [Eimg|]; [|by constructor]. cbn [negb].
  destruct (List.find _ _) as [worker|] eqn:Ew; [|by constructor].
  set (side0 := match ParseConfig (w_ProfileConfig worker) with Some _ => _ | None => _ end).
  set (vs := List.filter (scoredVerification gate scenario f) _).
  assert (scored vs (fst (fold_left (scoreStep (sourceFor f gate) (w_ID worker)) vs (side0, ∅)))
                    (snd (fold_left (scoreStep (sourceFor f gate) (w_ID worker)) vs (side0, ∅)))) as Hs
    by (apply scoreAll_scored; unfold side0; by destruct (ParseConfig (w_ProfileConfig worker))).
  destruct (fold_left _ vs (side0, ∅)) as [side modes]. simpl in Hs. cbn [fst snd].
  apply GetDeploymentByVersion_In in Ed as [Hd Hsha].
  apply find_some in Ew as [Hw Hprof]. apply andb_prop in Hprof as [Hprof%eqs_true Howns].
  unfold ListWorkersFiltered in Hw. apply order_desc_In, filter_In in Hw as [Hw Hsrc].
  apply andb_prop in Hsrc as [Hsrc _].
  eapply (side_scored _ _ _ _ _ worker deployment vs); try done.
  - apply orb_prop in Hsrc as [Hsrc|Hsrc]; apply eqs_true in Hsrc; auto.
  - by rewrite El.
  - by rewrite Ei.
  - intros v Hv. apply filter_In in Hv as [Hv Hsc]. apply filter_In in Hv as [Hv Ho].
    split_and!; try done. apply firstn_In, order_desc_In, filter_In in Hv as [Hv _]. done.
Qed.

(** * Modes *)

Lemma requiredModes_nonempty scenario c b : rcGateRequiredModes scenario c b <> [].
Proof. unfold rcGateRequiredModes. destruct (s_requiredModes scenario); [|done]. by destruct (_ || _). Qed.

Lemma modeNames_In required cm bm n :
  In n (modeNames required cm bm) <-> In n required \/ n ∈ dom cm ∪ dom bm.
Proof.
  unfold modeNames. rewrite <- list_elem_of_In, (merge_sort_Permutation string_le), elem_of_app.
  rewrite (list_elem_of_In required n), (list_elem_of_In (List.filter _ _) n), filter_In.
  rewrite <- (list_elem_of_In (elements _) n), elem_of_elements.
  destruct (slices_Contains required n) eqn:E; simpl.
  - apply slices_Contains_In in E. tauto.
  - tauto.
Qed.

(** What a side's status says about each of its modes. *)
Lemma shape_failing db gate scenario f end_ side modes :
  sideShape db gate scenario f end_ side modes -> sr_Status side = rcGateSideFailing ->
  (exists n, n ∈ dom modes /\ sr_Status (modeSide side modes n) = rcGateSideFailing) \/
  (forall n, sr_Status (modeSide side modes n) = rcGateSideFailing).
Proof.
  intros [s Hs|worker deployment vs s m fault _ _ _ _ _ _ _ _ Hsc] Hst; [rewrite Hs in Hst; discriminate|].
  change (rcGateSideStatus (applyFault fault s) = rcGateSideFailing) in Hst.
  apply status_failing in Hst as [Hf|Hf].
  - left. destruct (sd_failed_mode _ _ _ Hsc Hf) as (n & e & Hl & He). exists n. split.
    + rewrite dom_fmap. by apply elem_of_dom_2 in Hl.
    + unfold modeSide. rewrite lookup_fmap, Hl. simpl. apply status_failing. left. done.
  - right. intros n. unfold modeSide. rewrite lookup_fmap.
    destruct (m !! n); cbn [fmap option_fmap option_map].
    + apply status_failing. by right.
    + assert (sr_Status (applyFault fault s) = rcGateSideFailing) as Hst
        by (change (rcGateSideStatus (applyFault fault s) = rcGateSideFailing); apply status_failing; by right).
      rewrite Hst. change (rcGateSideFailing =s rcGateSideMissing) with false. cbv iota.
      apply status_failing. by right.
Qed.

Lemma modesVerdict_pass modes m :
  rcGateModesVerdict modes = rcGateVerdictPass -> In m modes ->
  mr_Verdict m <> rcGateVerdictRegression /\ mr_Verdict m <> rcGateVerdictBothFailing /\
  mr_Verdict m <> rcGateVerdictIncomplete.
Proof.
  unfold rcGateModesVerdict. intros Hv Hm.
  assert (forall verdict, In verdict [rcGateVerdictRegression; rcGateVerdictBothFailing; rcGateVerdictIncomplete] ->
            mr_Verdict m <> verdict) as Hno; [|split_and!; apply Hno; simpl; tauto].
  intros verdict Hin E. destruct (List.find _ _) as [v|] eqn:Ef.
  - apply find_some in Ef as [Hin' _]. simpl in Hv. subst v.
    destruct Hin' as [E'|[E'|[E'|[]]]]; discriminate.
  - apply (find_none _ _ Ef) in Hin. apply not_true_iff_false in Hin. apply Hin, existsb_exists.
    exists m. split; [done|]. by apply eqs_true.
Qed.

Lemma modeResults_pass required c b cm bm n :
  rcGateModesVerdict (rcGateModeResults required c b cm bm) = rcGateVerdictPass ->
  In n required \/ n ∈ dom cm ∪ dom bm ->
  sr_Status (modeSide c cm n) = rcGateSidePassing.
Proof.
  intros Hv Hn. apply (modeNames_In required cm bm) in Hn.
  set (m := mkMode n (modeSide c cm n) (modeSide b bm n)
              (rcGateScenarioVerdict (sr_Status (modeSide c cm n)) (sr_Status (modeSide b bm n)))).
  assert (In m (rcGateModeResults required c b cm bm)) as Hm
    by (apply in_map_iff; by exists n).
  destruct (modesVerdict_pass _ _ Hv Hm) as (H1 & H2 & H3). simpl in H1, H2, H3.
  destruct (scenarioVerdict_cases (sr_Status (modeSide c cm n)) (sr_Status (modeSide b bm n)))
    as [E|[E|[E|[E|[]]]]]; symmetry in E; [|contradiction..].
  by apply scenarioVerdict_pass in E as [? _].
Qed.

(** * Scenarios *)

Lemma coverageVerdict_pass v c b :
  rcGateCoverageVerdict v c b = rcGateVerdictPass -> v = rcGateVerdictPass.
Proof. unfold rcGateCoverageVerdict. by destruct (_ && _ && _). Qed.

Lemma walResetVerdict_pass v c b :
  rcGateWALResetVerdict v c b = rcGateVerdictPass -> v = rcGateVerdictPass /\ sr_Reproduced b <> 0%Z.
Proof.
  unfold rcGateWALResetVerdict. destruct (eqs_spec v rcGateVerdictPass) as [->|]; simpl; [|done].
  destruct (Z.eqb_spec (sr_Reproduced b) 0); [discriminate|done].
Qed.

Lemma rescoreModes_sides verdict modes :
  map (fun m => (mr_Mode m, mr_Candidate m, mr_Baseline m)) (rescoreModes verdict modes) =
  map (fun m => (mr_Mode m, mr_Candidate m, mr_Baseline m)) modes.
Proof. unfold rescoreModes. rewrite map_map. by apply map_ext. Qed.

Definition candidateSide (db : soakDB) (gate : RCGate) (end_ : time) (scenario : gateScenario) :=
  rcGateSide db gate scenario (defaultRole gateRoleCandidate (s_candidate scenario)) end_.
Definition baselineSide (db : soakDB) (gate : RCGate) (end_ : time) (scenario : gateScenario) :=
  rcGateSide db gate scenario (defaultRole gateRoleBaseline (s_baseline scenario)) end_.

(** What a passing scenario result was computed from. *)
Lemma scenarioResult_pass db gate end_ scenario r :
  scenarioResult db gate end_ scenario = Some r -> sn_Verdict r = rcGateVerdictPass ->
  let '(c, cm) := candidateSide db gate end_ scenario in
  let '(b, bm) := baselineSide db gate end_ scenario in
  let modes := rcGateModeResults (rcGateRequiredModes scenario c b) c b cm bm in
  sn_Candidate r = c /\ sn_Baseline r = b /\
  map (fun m => (mr_Mode m, mr_Candidate m, mr_Baseline m)) (sn_Modes r) =
  map (fun m => (mr_Mode m, mr_Candidate m, mr_Baseline m)) modes /\
  rcGateScenarioVerdict (sr_Status c) (sr_Status b) <> rcGateVerdictIncomplete /\
  rcGateModesVerdict modes = rcGateVerdictPass /\
  (s_walReset scenario = true -> sr_Reproduced b <> 0%Z).
Proof.
  unfold scenarioResult. destruct (negb (gateSelectsProfile _ _)); [discriminate|].
  fold (candidateSide db gate end_ scenario). fold (baselineSide db gate end_ scenario).
  destruct (candidateSide db gate end_ scenario) as [c cm], (baselineSide db gate end_ scenario) as [b bm].
  cbv zeta. destruct (_ || _ || _); [discriminate|]. intros [= <-] Hv. cbn [sn_Verdict sn_Candidate sn_Baseline sn_Modes] in *.
  set (modes := rcGateModeResults _ c b cm bm) in *.
  assert (length modes <> 0) as Hlen.
  { unfold modes, rcGateModeResults. rewrite length_map. intros E%length_zero_iff_nil.
    destruct (rcGateRequiredModes scenario c b) as [|n l] eqn:En; [by apply requiredModes_nonempty in En|].
    assert (In n (modeNames (n :: l) cm bm)) as Hin by (apply modeNames_In; left; by left).
    by rewrite E in Hin. }
  split_and!; try done.
  - destruct (s_walReset scenario), (s_coverage scenario || s_vfs scenario || _);
      by rewrite ?rescoreModes_sides.
  - intros E. rewrite E in Hv. simpl in Hv.
    destruct (s_walReset scenario); [apply walResetVerdict_pass in Hv as [Hv _]|];
      (destruct (s_coverage scenario || _ || _); [apply coverageVerdict_pass in Hv|]); discriminate.
  - assert ((if negb (rcGateScenarioVerdict (sr_Status c) (sr_Status b) =s rcGateVerdictIncomplete) &&
                negb (bool_decide (length modes = 0))
             then rcGateModesVerdict modes else rcGateScenarioVerdict (sr_Status c) (sr_Status b)) = rcGateVerdictPass) as Hv0.
    { destruct (s_walReset scenario); [apply walResetVerdict_pass in Hv as [Hv _]|];
        (destruct (s_coverage scenario || _ || _); [by apply coverageVerdict_pass in Hv|done]). }
    rewrite (bool_decide_eq_false_2 _ Hlen) in Hv0. simpl in Hv0. rewrite andb_true_r in Hv0.
    destruct (eqs_spec (rcGateScenarioVerdict (sr_Status c) (sr_Status b)) rcGateVerdictIncomplete) as [E|E]; [|done].
    simpl in Hv0. rewrite E in Hv0. discriminate.
  - intros Hw. rewrite Hw in Hv. by apply walResetVerdict_pass in Hv as [_ ?].
Qed.

(** * The gate's verdict *)

Lemma scenarioResult_verdict db gate end_ scenario r :
  scenarioResult db gate end_ scenario = Some r ->
  In (sn_Verdict r) [rcGateVerdictPass; rcGateVerdictIncomplete; rcGateVerdictBothFailing;
                     rcGateVerdictRegression; rcGateVerdictNoReproduction].
Proof.
  unfold scenarioResult. destruct (negb (gateSelectsProfile _ _)); [discriminate|].
  destruct (rcGateSide _ _ _ _ _) as [c cm], (rcGateSide _ _ _ _ _) as [b bm]. cbv zeta.
  destruct (_ || _ || _); [discriminate|]. intros [= <-]. cbn [sn_Verdict].
  set (modes := rcGateModeResults _ c b cm bm).
  set (v0 := if _ && negb (bool_decide _) then _ else _).
  set (V := [rcGateVerdictPass; _; _; _; _]).
  assert (In v0 V) as H0.
  { assert (In (rcGateScenarioVerdict (sr_Status c) (sr_Status b)) V)
      by (destruct (scenarioVerdict_cases (sr_Status c) (sr_Status b)) as [E|[E|[E|[E|[]]]]]; rewrite <- E; simpl; tauto).
    unfold v0. destruct (_ && _); [|done]. unfold rcGateModesVerdict.
    destruct (List.find _ _) as [v|] eqn:Ef; [|simpl; tauto].
    apply find_some in Ef as [Hin _]. simpl. destruct Hin as [<-|[<-|[<-|[]]]]; simpl; tauto. }
  assert (forall v, In v V -> In (rcGateCoverageVerdict v c b) V) as H1
    by (intros v Hv; unfold rcGateCoverageVerdict; destruct (_ && _ && _); [simpl; tauto|exact Hv]).
  assert (forall v, In v V -> In (rcGateWALResetVerdict v c b) V) as H2
    by (intros v Hv; unfold rcGateWALResetVerdict; destruct (v =s rcGateVerdictPass); simpl;
        [destruct (_ =? _)%Z; simpl; tauto|exact Hv]).
  destruct (s_walReset scenario), (s_coverage scenario || _ || _); auto.
Qed.

Lemma results_pass db gate end_ scenario r :
  gr_Verdict (buildRCGateResults db gate end_) = rcGateVerdictPass ->
  In scenario (gateScenariosFor gate) -> scenarioResult db gate end_ scenario = Some r ->
  sn_Verdict r = rcGateVerdictPass.
Proof.
  unfold buildRCGateResults. cbn [gr_Verdict]. set (rs := omap _ _). intros Hv Hin Hr.
  assert (In r rs) as Hrs
    by (apply list_elem_of_In, list_elem_of_omap; exists scenario; split; [by apply list_elem_of_In|done]).
  destruct (existsb _ rs) eqn:Ef; [discriminate|]. destruct (existsb (fun r => openVerdict _) rs) eqn:Eo; [discriminate|].
  assert (failingVerdict (sn_Verdict r) = false /\ openVerdict (sn_Verdict r) = false) as [Hf Ho].
  { split; apply not_true_iff_false; intros E;
      [apply not_true_iff_false in Ef; apply Ef|apply not_true_iff_false in Eo; apply Eo]; apply existsb_exists; eauto. }
  destruct (scenarioResult_verdict _ _ _ _ _ Hr) as [E|[E|[E|[E|[E|[]]]]]];
    [by rewrite <- E|rewrite <- E in Hf, Ho; discriminate..].
Qed.

(** The verification a covered candidate was covered by. *)
Definition candidateEvidence (db : soakDB) (gate : RCGate) (end_ : time) (scenario : gateScenario)
  (v : Verification) : Prop :=
  let f := defaultRole gateRoleCandidate (s_candidate scenario) in
  In v (db_verifications db) /\ Succeeded v = true /\
  (g_StartedAt gate <= v_StartedAt v <= end_)%Z /\
  id_LitestreamSHA (v_Run v) = fst (LitestreamSHAFor gate (sourceFor f gate)) /\
  scoredVerification gate scenario f v = true.

Lemma observed_facts gate end_ worker deployment v :
  observedVerification gate end_ worker deployment v = true ->
  (g_StartedAt gate <= v_StartedAt v <= end_)%Z /\ id_LitestreamSHA (v_Run v) = d_LitestreamSHA deployment.
Proof.
  unfold observedVerification. intros E%negb_true_iff. apply orb_false_iff in E as [E Em%negb_false_iff].
  apply orb_false_iff in E as [E1%Z.ltb_ge E2%Z.ltb_ge]. split; [lia|].
  unfold MatchesDeployment in Em. repeat (apply andb_prop in Em as [Em ?]). by apply eqs_true.
Qed.

Lemma shape_passing db gate scenario f end_ side modes :
  sideShape db gate scenario f end_ side modes -> sr_Status side = rcGateSidePassing ->
  sr_Failed side = 0%Z /\ rcGateHardFault (sr_Reason side) = false /\
  exists v, In v (db_verifications db) /\ Succeeded v = true /\ (g_StartedAt gate <= v_StartedAt v <= end_)%Z /\
    id_LitestreamSHA (v_Run v) = fst (LitestreamSHAFor gate (sourceFor f gate)) /\
    scoredVerification gate scenario f v = true.
Proof.
  intros [s Hs|worker deployment vs s m fault _ _ _ _ _ Hsha _ Hvs Hsc] Hst; [rewrite Hs in Hst; discriminate|].
  change (rcGateSideStatus (applyFault fault s) = rcGateSidePassing) in Hst.
  apply status_passing in Hst as (Hf & Hh & Hp).
  change (sr_Failed (applyFault fault s)) with (sr_Failed s) in *.
  change (sr_Passed (applyFault fault s)) with (sr_Passed s) in *.
  rewrite (sd_failed _ _ _ Hsc) in Hf |- *. rewrite (sd_passed _ _ _ Hsc) in Hp. split_and!; [lia|done|].
  destruct (List.filter Succeeded vs) as [|v l] eqn:Ev; [simpl in Hp; lia|].
  assert (In v (List.filter Succeeded vs)) as Hv by (rewrite Ev; by left).
  apply filter_In in Hv as [Hv Hok]. destruct (Hvs v Hv) as (Hdb & Hobs & Hscore).
  apply observed_facts in Hobs as [Hwin Hl]. exists v. rewrite Hl, Hsha. done.
Qed.

(** C1: A passing gate passed for a reason.  When the gate's verdict is
    pass, every scenario it scored has a candidate side with no failed
    verification and no hard fault, with at least one successful
    verification of the gate's own build inside the gate window, and with a
    passing result for every required restore mode; and a WAL reset
    scenario passed only against a baseline that reproduced the bug. *)
Theorem pass_sound db gate end_ scenario r :
  gr_Verdict (buildRCGateResults db gate end_) = "pass" ->
  In scenario (gateScenariosFor gate) -> scenarioResult db gate end_ scenario = Some r ->
  sr_Failed (sn_Candidate r) = 0%Z /\ rcGateHardFault (sr_Reason (sn_Candidate r)) = false /\
  (exists v, candidateEvidence db gate end_ scenario v) /\
  (forall mode, In mode (rcGateRequiredModes scenario (sn_Candidate r) (sn_Baseline r)) ->
     exists m, In m (sn_Modes r) /\ mr_Mode m = mode /\ sr_Status (mr_Candidate m) = "passing") /\
  (s_walReset scenario = true -> sr_Reproduced (sn_Baseline r) <> 0%Z).
Proof.
  intros Hv Hin Hr. pose proof (results_pass _ _ _ _ _ Hv Hin Hr) as Hpass.
  pose proof (scenarioResult_pass _ _ _ _ _ Hr Hpass) as H1.
  pose proof (rcGateSide_shape db gate scenario (defaultRole gateRoleCandidate (s_candidate scenario)) end_) as Hshape.
  fold (candidateSide db gate end_ scenario) in Hshape.
  destruct (candidateSide db gate end_ scenario) as [c cm], (baselineSide db gate end_ scenario) as [b bm].
  cbn [fst snd] in Hshape. destruct H1 as (Ec & Eb & Em & Hinc & Hmodes & Hwal). rewrite Ec, Eb.
  assert (sr_Status c = rcGateSidePassing) as Hst.
  { assert (sr_Status c <> rcGateSideFailing) as Hnf.
    { intros Hfail. destruct (shape_failing _ _ _ _ _ _ _ Hshape Hfail) as [(n & Hn & Hs)|Hall].
      - rewrite (modeResults_pass _ _ _ _ _ n Hmodes) in Hs; [discriminate|]. right. set_solver.
      - destruct (rcGateRequiredModes scenario c b) as [|n l] eqn:En; [by apply requiredModes_nonempty in En|].
        specialize (Hall n). rewrite (modeResults_pass _ _ _ _ _ n Hmodes) in Hall; [discriminate|]. left. by left. }
    unfold rcGateScenarioVerdict in Hinc. cbv zeta in Hinc.
    destruct (eqs_spec (sr_Status c) rcGateSidePassing); [done|].
    destruct (eqs_spec (sr_Status c) rcGateSideFailing); [contradiction|]. by destruct Hinc. }
  destruct (shape_passing _ _ _ _ _ _ _ Hshape Hst) as (Hf & Hh & Hev).
  split_and!; [done|done|done| |done].
  intros mode Hmode. pose proof (modeResults_pass _ _ _ _ _ mode Hmodes (or_introl Hmode)) as Hms.
  assert (In (mode, modeSide c cm mode, modeSide b bm mode)
     (map (fun m => (mr_Mode m, mr_Candidate m, mr_Baseline m)) (sn_Modes r))) as Hin'.
  { rewrite Em. unfold rcGateModeResults. rewrite map_map. apply in_map_iff. exists mode. split; [done|].
    apply modeNames_In. by left. }
  apply in_map_iff in Hin' as (m & Hm & Hmin). injection Hm as E1 E2 E3. exists m. by rewrite E2.
Qed.

Lemma mode_failing_side db gate scenario f end_ side modes n :
  sideShape db gate scenario f end_ side modes ->
  sr_Status (modeSide side modes n) = rcGateSideFailing -> sr_Status side = rcGateSideFailing.
Proof.
  intros [s Hs|worker deployment vs s m fault _ _ _ _ _ _ _ _ Hsc].
  - unfold modeSide. rewrite lookup_empty, Hs, eqs_refl. simpl. discriminate.
  - change (sr_Status (applyFault fault s)) with (rcGateSideStatus (applyFault fault s)).
    unfold modeSide. rewrite lookup_fmap. destruct (m !! n) as [e|] eqn:El; cbn [fmap option_fmap option_map].
    + change (sr_Status (applyFault fault e)) with (rcGateSideStatus (applyFault fault e)).
      rewrite !status_failing. destruct (sd_modes _ _ _ Hsc n e El) as [_ He]. simpl. intros [?|?]; [left; lia|by right].
    + destruct (_ =s rcGateSideMissing); [discriminate|]. cbn [sr_Status].
      intros Hst. apply status_failing. right. by apply status_failing in Hst as [?|?].
Qed.

Lemma modesVerdict_regression modes m :
  In m modes -> mr_Verdict m = rcGateVerdictRegression -> rcGateModesVerdict modes = rcGateVerdictRegression.
Proof.
  intros Hm Hv. unfold rcGateModesVerdict. cbn [List.find].
  assert (existsb (fun mode => mr_Verdict mode =s rcGateVerdictRegression) modes = true) as ->; [|done].
  apply existsb_exists. exists m. split; [done|]. by apply eqs_true.
Qed.

(** C2: A regression always fails the gate.  If a scored scenario has a
    restore mode that fails on the candidate and passes on the baseline,
    and the baseline side is covered, the gate's verdict is fail, whatever
    every other scenario says. *)
Theorem regression_fails db gate end_ scenario r m :
  In scenario (gateScenariosFor gate) -> scenarioResult db gate end_ scenario = Some r ->
  In m (sn_Modes r) -> sr_Status (mr_Candidate m) = "failing" -> sr_Status (mr_Baseline m) = "passing" ->
  sr_Status (sn_Baseline r) = "passing" \/ sr_Status (sn_Baseline r) = "failing" ->
  gr_Verdict (buildRCGateResults db gate end_) = "fail".
Proof.
  intros Hin Hr Hm Hmc Hmb Hb.
  enough (sn_Verdict r = rcGateVerdictRegression) as Hv.
  { unfold buildRCGateResults. cbn [gr_Verdict]. set (rs := omap _ _).
    assert (existsb (fun r => failingVerdict (sn_Verdict r)) rs = true) as ->; [|done].
    apply existsb_exists. exists r. rewrite Hv. split; [|done].
    apply list_elem_of_In, list_elem_of_omap. exists scenario. split; [by apply list_elem_of_In|done]. }
  revert Hr. unfold scenarioResult. destruct (negb (gateSelectsProfile _ _)); [discriminate|].
  pose proof (rcGateSide_shape db gate scenario (defaultRole gateRoleCandidate (s_candidate scenario)) end_) as Hshape.
  destruct (rcGateSide db gate scenario (defaultRole gateRoleCandidate (s_candidate scenario)) end_) as [c cm].
  destruct (rcGateSide db gate scenario (defaultRole gateRoleBaseline (s_baseline scenario)) end_) as [b bm].
  cbn [fst snd] in Hshape. cbv zeta. destruct (_ || _ || _); [discriminate|]. intros [= <-].
  cbn [sn_Verdict sn_Modes sn_Candidate sn_Baseline] in *.
  set (modes := rcGateModeResults _ c b cm bm) in *.
  assert (In (mr_Mode m, mr_Candidate m, mr_Baseline m)
            (map (fun m => (mr_Mode m, mr_Candidate m, mr_Baseline m)) modes)) as Hsides.
  { apply (in_map (fun m => (mr_Mode m, mr_Candidate m, mr_Baseline m))) in Hm.
    destruct (s_walReset scenario), (s_coverage scenario || _ || _); rewrite ?rescoreModes_sides in Hm; exact Hm. }
  apply in_map_iff in Hsides as (m0 & E & Hm0). injection E as _ E2 E3.
  assert (Hn := Hm0). apply in_map_iff in Hn as (n & <- & _). cbn [mr_Candidate mr_Baseline] in E2, E3.
  rewrite <- E2 in Hmc. rewrite <- E3 in Hmb.
  assert (sr_Status c = rcGateSideFailing) as Hc by (eapply mode_failing_side; eassumption).
  assert (negb (rcGateScenarioVerdict (sr_Status c) (sr_Status b) =s rcGateVerdictIncomplete) = true) as ->
    by (rewrite Hc; destruct Hb as [-> | ->]; reflexivity).
  rewrite (bool_decide_eq_false_2 (length modes = 0)) by (by destruct modes).
  rewrite (modesVerdict_regression modes _ Hm0) by (cbn [mr_Verdict]; by rewrite Hmc, Hmb). cbn [negb andb].
  assert (rcGateCoverageVerdict rcGateVerdictRegression c b = rcGateVerdictRegression) as Hcov
    by (unfold rcGateCoverageVerdict; by destruct (_ && _ && _)).
  destruct (s_walReset scenario), (s_coverage scenario || _ || _); rewrite ?Hcov; reflexivity.
Qed.
End VerdictTheorems.

(** * Examples *)

Definition remote_gate : RCGate :=
  RCGate_zero <| g_CandidateSource := "rc-11111111" |> <| g_BaselineSource := "rcbase-22222222" |>
    <| g_CandidateSHA := "cand" |> <| g_BaselineSHA := "base" |>
    <| g_CandidateImageRef := "img1" |> <| g_CandidateGitSHA := "git" |>
    <| g_BaselineImageRef := "img2" |> <| g_BaselineGitSHA := "git" |>
    <| g_StartedAt := (10 * Hour)%Z |> <| g_Profiles := ["gate-remote"] |>.

Definition example_deployment (id : Z) (source litestream image : string) : Deployment :=
  Deployment_zero <| d_ID := id |> <| d_Source := source |> <| d_GitSHA := "git" |>
    <| d_LitestreamSHA := litestream |> <| d_ImageRef := image |>.
Definition example_worker (id source profile : string) : Worker :=
  Worker_zero <| w_ID := id |> <| w_Source := source |> <| w_ProfileName := profile |>
    <| w_Status := WorkerRunning |> <| w_CreatedAt := (10 * Hour)%Z |>.
Definition example_verification (id dep : Z) (worker source litestream : string) (passed : bool) : Verification :=
  Verification_zero <| v_ID := id |> <| v_WorkerID := worker |> <| v_Attributed := true |>
    <| v_StartedAt := (11 * Hour)%Z |> <| v_Passed := passed |> <| v_CheckType := "integrity" |>
    <| v_Status := if passed then "passed" else "failed" |>
    <| v_Run := WorkerIdentity_zero <| id_DeploymentID := dep |> <| id_GitSHA := "git" |>
         <| id_LitestreamSHA := litestream |> <| id_Source := source |> <| id_WorkerID := worker |>
         <| id_MachineID := "m" |> <| id_RunID := "run" |> <| id_ProfileHash := "h" |> <| id_ValidatorID := "val" |> |>.

Definition remote_db (candidatePassed : bool) : soakDB :=
  mkDB [example_worker "w1" "rc-11111111" "gate-remote"; example_worker "w2" "rcbase-22222222" "gate-remote"] []
    [example_verification 1 1 "w1" "rc-11111111" "cand" candidatePassed;
     example_verification 2 2 "w2" "rcbase-22222222" "base" true]
    [example_deployment 1 "rc-11111111" "cand" "img1"; example_deployment 2 "rcbase-22222222" "base" "img2"] [].

Definition remote_scenario : gateScenario := plainScenario "remote" gateRemoteProfile.
Definition remote_result (candidatePassed : bool) : RCGateScenarioResult :=
  default (mkScenarioResult "" "" (emptySide "" "") (emptySide "" "") [] "")
    (scenarioResult (H := exampleDecoders) (remote_db candidatePassed) remote_gate (12 * Hour) remote_scenario).

Lemma remote_scenario_In : In remote_scenario (gateScenariosFor remote_gate).
Proof. do 4 right. left. reflexivity. Qed.

Lemma pass_sound_witness :
  sr_Failed (sn_Candidate (remote_result true)) = 0%Z /\
  exists v, candidateEvidence (remote_db true) remote_gate (12 * Hour) remote_scenario v.
Proof.
  destruct (pass_sound (H := exampleDecoders) (remote_db true) remote_gate (12 * Hour) remote_scenario (remote_result true))
    as (H1 & _ & H2 & _).
  - vm_compute. reflexivity.
  - apply remote_scenario_In.
  - vm_compute. reflexivity.
  - split; [exact H1|exact H2].
Defined.

Lemma regression_fails_witness :
  gr_Verdict (buildRCGateResults (H := exampleDecoders) (remote_db false) remote_gate (12 * Hour)) = "fail".
Proof.
  apply (regression_fails (H := exampleDecoders) (remote_db false) remote_gate (12 * Hour) remote_scenario
           (remote_result false) (hd (mkMode "" (emptySide "" "") (emptySide "" "") "") (sn_Modes (remote_result false)))).
  - apply remote_scenario_In.
  - vm_compute. reflexivity.
  - vm_compute. left. reflexivity.
  - vm_compute. reflexivity.
  - vm_compute. reflexivity.
  - left. vm_compute. reflexivity.
Defined.
