(* ===== verification/GateLifecycle.v ===== *)
(** The life of a gate: [evaluateRCGate], [rcGateSideReady],
    [teardownRCGateSources] and [buildRCGateLedgerEntry] of
    [internal/orchestrator/rc_gate.go], and the state machine they drive.

    Tearing a source down archives its evidence and calls the machine
    provider.  Its outcome per source, and the database it leaves behind, are
    the [teardown] argument of the evaluation: every behaviour of the provider
    is one such value.  JSON encoding of the results snapshot is the argument
    [codec]. *)
From Stdlib Require Import Ascii.
From S2P Require Import Prelude GoStrings Regex Model GoTime Classification GateFleet GateStore GateRegister SoakDB GateFault GateVerdict.

(** * Evaluation *)

Inductive teardownOutcome :=
| TornDown                       (** every worker destroyed, kept or held *)
| SourceNotFound                 (** [errSourceNotFound] *)
| DeploymentNotFound (destroyed : bool)  (** [errSourceDeploymentNotFound], then the unarchived destroy *)
| TeardownIncomplete
| TeardownFailed.

Record teardown := mkTeardown {
  td_outcome : string -> (Worker -> bool) -> teardownOutcome;  (** source, which workers to keep *)
  td_db : soakDB
}.

Record codec := mkCodec {
  encodeResults : rcGateResults -> string;
  decodeResults : string -> option rcGateResults
}.

Definition teardownOk (o : teardownOutcome) : bool :=
  match o with
  | TornDown | SourceNotFound | DeploymentNotFound true => true
  | DeploymentNotFound false | TeardownIncomplete | TeardownFailed => false
  end.

Inductive evalError := errTeardown | errMark.

Definition RCGateStatus_string (s : RCGateStatus) : string :=
  match s with
  | RCGateRunning => "running" | RCGateTail => "tail" | RCGateCompleted => "completed" | RCGateAborted => "aborted"
  end.

Section Lifecycle.
Context `{Decoders} (meteringEnv : string) (jsonCodec : codec).

Definition rcGateSideReady (db : soakDB) (gate : RCGate) (source : string) : bool :=
  let '(pinnedImage, pinnedGit) := PinnedBuildFor gate source in
  let '(pinnedLitestream, _) := LitestreamSHAFor gate source in
  if pinnedImage =s "" then false
  else
    let workers := ListWorkersFiltered db "" source in
    forallb (fun desired =>
        existsb (fun worker =>
            (w_ProfileName worker =s dw_ProfileName desired) &&
            match w_Status worker with WorkerRunning => true | _ => false end &&
            (w_GitSHA worker =s pinnedGit) && (w_LitestreamSHA worker =s pinnedLitestream) &&
            rcGateOwnsWorker gate worker) workers)
      (fs_Workers (gateFleetForSource meteringEnv gate source pinnedGit pinnedLitestream)).

Definition teardownRCGateSources (w : gateWorld) (td : teardown) (gate : RCGate) (summary : string)
  (keep : Worker -> bool) (next : RCGateStatus) (now : time) : gateWorld * option evalError :=
  if negb (forallb (fun source => teardownOk (td_outcome td source keep)) (Sources gate)) then (w, Some errTeardown)
  else
    let closing := match next with RCGateCompleted | RCGateAborted => true | _ => false end in
    let completedAt := if closing then Some now else None in
    let results := if closing then encodeResults jsonCodec (buildRCGateResults (td_db td) gate now) else "" in
    let w := w <| gw_gates := UpdateRCGateStatus (gw_gates w) (g_ID gate) next completedAt results |> in
    (RecordEvent w "" ("rc_gate_" +:+ RCGateStatus_string next) summary ("gate_id=" +:+ pretty (g_ID gate)), None).

(** The readiness loop over the two sources: the table, the latest ready
    time and whether both sides are ready. *)
Definition readyStep (db : soakDB) (gate : RCGate) (now : time)
  (st : result gateError (gateTable * option time * bool)) (source : string)
  : result gateError (gateTable * option time * bool) :=
  let* (t, latest, paired) := st in
  let* (t', readyAt) :=
    (match ReadyAtFor gate source with
     | Some at_ => Ok (t, Some at_)
     | None =>
         if rcGateSideReady db gate source
         then let! t' := MarkRCGateSideReady t (g_ID gate) source now in Ok (t', Some now)
         else Ok (t, None)
     end) in
  Ok (match readyAt with
      | None => (t', latest, false)
      | Some r =>
          (t', match latest with
               | None => Some r
               | Some l => if After r l then Some r else latest
               end, paired)
      end).

Definition readySides (db : soakDB) (gate : RCGate) (now : time) (t : gateTable)
  : result gateError (gateTable * option time * bool) :=
  fold_left (readyStep db gate now) (Sources gate) (Ok (t, None, true)).

Definition destroyAll (_ : Worker) : bool := false.
Definition keepStress (worker : Worker) : bool := w_ProfileName worker =s gateStressProfile.

Definition gateSummary (gate : RCGate) (tail : string) : string :=
  "RC gate " +:+ g_CandidateSource gate +:+ " vs " +:+ g_BaselineSource gate +:+ tail.

(** The second switch of [evaluateRCGate]: expiry of a running gate or of a tail. *)
Definition expireGate (w : gateWorld) (td : teardown) (gate : RCGate) (now : time)
  : gateWorld * option evalError :=
  match g_Status gate with
  | RCGateRunning =>
      if Before now (g_ExpiresAt gate) then (w, None)
      else if g_Tail gate then
        teardownRCGateSources w td gate
          (gateSummary gate (" reached its " +:+ DurationString (g_Duration gate) +:+
             " TTL; archiving evidence and destroying gate workers except " +:+ gateStressProfile +:+
             ", which continues its tail.")) keepStress RCGateTail now
      else
        teardownRCGateSources w td gate
          (gateSummary gate (" reached its " +:+ DurationString (g_Duration gate) +:+
             " TTL; archiving evidence and destroying gate workers.")) destroyAll RCGateCompleted now
  | RCGateTail =>
      match g_TailExpiresAt gate with
      | Some deadline =>
          if Before now deadline then (w, None)
          else teardownRCGateSources w td gate
                 (gateSummary gate (" finished its " +:+ DurationString rcGateTailDuration +:+
                    " tail; archiving evidence and destroying remaining gate workers.")) destroyAll RCGateCompleted now
      | None => (w, None)
      end
  | _ => (w, None)
  end.

(** The launch-deadline case of the first switch. *)
Definition abandonGate (w : gateWorld) (td : teardown) (gate : RCGate) (now : time)
  : gateWorld * option evalError :=
  if negb (Before now (g_ProvisionDeadline gate)) || negb (Before now (g_ExpiresAt gate)) then
    teardownRCGateSources w td gate
      (gateSummary gate (" did not have both sides ready before its launch deadline or expiry; " +:+
         "archiving evidence and destroying all gate workers.")) destroyAll RCGateAborted now
  else (w, None).

Definition evaluateRCGate (db : soakDB) (w : gateWorld) (td : teardown) (gate : RCGate) (now : time)
  : gateWorld * option evalError :=
  match g_Status gate, g_PairedReadyAt gate with
  | RCGateRunning, None =>
      match readySides db gate now (gw_gates w) with
      | Err _ => (w, Some errMark)
      | Ok (t, latest, paired) =>
          let w := w <| gw_gates := t |> in
          match (if paired then latest else None) with
          | Some l =>
              if Before l (g_ProvisionDeadline gate) && Before l (g_ExpiresAt gate) then
                expireGate (w <| gw_gates := MarkRCGatePairedReady t (g_ID gate) l |>) td
                  (gate <| g_PairedReadyAt := Some l |>) now
              else abandonGate w td gate now
          | None => abandonGate w td gate now
          end
      end
  | _, _ => expireGate w td gate now
  end.

(** One pass of the loop: every gate that was open when the pass started. *)
Definition evaluateRCGates (db : soakDB) (w : gateWorld) (td : RCGate -> teardown) (now : time) : gateWorld :=
  fold_left (fun w gate => fst (evaluateRCGate db w (td gate) gate now)) (ActiveRCGates (gw_gates w)) w.
End Lifecycle.

(** * The ledger *)

Record RCGateLedgerEntry := mkLedger {
  le_gate : RCGate;
  le_Duration : string;
  le_UpgradeWarmup : string;
  le_TotalMachines : Z;
  le_TotalVolumeGB : Z;
  le_Verdict : string;
  le_Scenarios : list RCGateScenarioResult;
  le_HeldWorkers : list RCGateHeldWorker
}.

Definition sumVolumes (resources : list RCGateResource) : Z :=
  fold_left (fun n r => (n + rr_VolumeGB r)%Z) resources 0%Z.

(** [None] when a stored snapshot does not decode. *)
Definition buildRCGateLedgerEntry `{Decoders} (jsonCodec : codec) (db : soakDB) (gate : RCGate) (now : time)
  : option RCGateLedgerEntry :=
  let entry results :=
    mkLedger gate (DurationString (g_Duration gate))
      (if (0 <? g_UpgradeWarmup gate)%Z then DurationString (g_UpgradeWarmup gate) else "")
      (Z.of_nat (length (g_Resources gate))) (sumVolumes (g_Resources gate))
      (gr_Verdict results) (gr_Scenarios results) (gr_HeldWorkers results) in
  if Closed gate && negb (TrimSpace (g_Results gate) =s "")
  then entry <$> decodeResults jsonCodec (g_Results gate)
  else Some (entry (buildRCGateResults db gate (default now (g_CompletedAt gate)))).

(** What JSON keeps of a result: the unexported check flags are dropped. *)
Definition exportSide (s : RCGateSideResult) : RCGateSideResult :=
  s <| sr_coverageCheck := false |> <| sr_vfsCheck := false |> <| sr_walResetCheck := false |>.
Definition exportMode (m : RCGateModeResult) : RCGateModeResult :=
  m <| mr_Candidate ::= exportSide |> <| mr_Baseline ::= exportSide |>.
Definition exportScenario (s : RCGateScenarioResult) : RCGateScenarioResult :=
  s <| sn_Candidate ::= exportSide |> <| sn_Baseline ::= exportSide |> <| sn_Modes ::= map exportMode |>.
Definition exportResults (r : rcGateResults) : rcGateResults :=
  mkResults (gr_Verdict r) (map exportScenario (gr_Scenarios r)) (gr_HeldWorkers r) (gr_ClosedAt r).

(** * Updates of one row *)

Definition updId (t : gateTable) (id : Z) (f : rcGateRow -> rcGateRow) : gateTable :=
  mkTable (map (fun r => if (row_id r =? id)%Z then f r else r) (t_rows t)) (t_seq t).

Lemma updId_fuse t id f g :
  (forall r, row_id r = id -> row_id (f r) = id) ->
  updId (updId t id f) id g = updId t id (fun r => g (f r)).
Proof.
  intros Hf. unfold updId. simpl. f_equal. rewrite map_map. apply map_ext. intros r.
  destruct (Z.eqb_spec (row_id r) id) as [E|E].
  - by rewrite (Hf r E), Z.eqb_refl.
  - by destruct (Z.eqb_spec (row_id r) id).
Qed.

Lemma updId_id t id : updId t id (fun r => r) = t.
Proof.
  destruct t as [rows seq]. unfold updId. simpl. f_equal. rewrite <- (map_id rows) at 2.
  apply map_ext. intros r. by destruct (row_id r =? id)%Z.
Qed.

Lemma updateRows_updId t id b g :
  updateRows t (fun r => (row_id r =? id)%Z && b r) g =
  updId t id (fun r => if b r then r <| row_gate ::= g |> else r).
Proof. unfold updateRows, updId. f_equal. apply map_ext. intros r. by destruct (row_id r =? id)%Z, (b r). Qed.

Lemma find_row t r :
  wfTable t -> In r (t_rows t) -> List.find (fun r' => (row_id r' =? row_id r)%Z) (t_rows t) = Some r.
Proof.
  intros (Hs & _) Hin. induction Hs as [|a l Hl IH Ha]; [done|]. simpl. destruct Hin as [->|Hin].
  - by rewrite Z.eqb_refl.
  - rewrite List.Forall_forall in Ha. specialize (Ha r Hin). simpl in Ha.
    destruct (Z.eqb_spec (row_id a) (row_id r)); [lia|by apply IH].
Qed.

Lemma same_id t r r' :
  wfTable t -> In r (t_rows t) -> In r' (t_rows t) -> row_id r' = row_id r -> r' = r.
Proof.
  intros Hw Hr Hr' E. pose proof (find_row _ _ Hw Hr) as F. pose proof (find_row _ _ Hw Hr') as F'.
  rewrite E in F'. congruence.
Qed.

(** Readiness marks: everything but the ready columns is unchanged. *)
Record quiet (r r' : rcGateRow) : Prop := {
  q_le : row_le r r';
  q_status : g_Status (row_gate r') = g_Status (row_gate r);
  q_completed : g_CompletedAt (row_gate r') = g_CompletedAt (row_gate r);
  q_paired : g_PairedReadyAt (row_gate r') = g_PairedReadyAt (row_gate r);
  q_results : g_Results (row_gate r') = g_Results (row_gate r)
}.

#[export] Instance quiet_preorder : PreOrder quiet.
Proof.
  split.
  - intros r. by constructor.
  - intros a b c [] []. constructor; [by etrans|congruence..].
Qed.

Definition markRow (side : gateSide) (now : time) (r : rcGateRow) : rcGateRow :=
  if bool_decide (readyOf side (row_gate r) = None) then r <| row_gate ::= setReady side now |> else r.

Lemma markRow_quiet side now r : quiet r (markRow side now r).
Proof.
  unfold markRow. destruct (bool_decide _) eqn:E; [|reflexivity]. apply bool_decide_eq_true in E.
  destruct side; constructor; try done; constructor; try done; intros [] Hn; done || by destruct Hn.
Qed.

Lemma sideOfSource_row t r source :
  wfTable t -> In r (t_rows t) -> In source (Sources (row_gate r)) -> exists side, sideOfSource t (row_id r) source = Ok side.
Proof.
  intros Hw Hr Hs. unfold sideOfSource. rewrite (find_row _ _ Hw Hr).
  destruct (eqs_spec source (g_CandidateSource (row_gate r))); [eauto|].
  destruct (eqs_spec source (g_BaselineSource (row_gate r))); [eauto|].
  destruct Hs as [?|[?|[]]]; congruence.
Qed.

Lemma updId_le t id f : (forall r, row_le r (f r)) -> table_le t (updId t id f).
Proof.
  intros Hf. exists (t_rows (updId t id f)), []. rewrite app_nil_r. split; [done|]. simpl.
  induction (t_rows t) as [|r l IH]; simpl; constructor; [|done].
  destruct (row_id r =? id)%Z; [apply Hf|reflexivity].
Qed.

Section LifecycleTheorems.
Context `{Decoders} (env : string) (jsonCodec : codec).

(** One readiness step on a row of the table it was read from. *)
Lemma readyStep_row db t0 r f now latest paired source :
  wfTable t0 -> In r (t_rows t0) -> (forall r', quiet r' (f r')) -> In source (Sources (row_gate r)) ->
  exists f' latest' paired',
    readyStep env db (scanRow r) now (Ok (updId t0 (row_id r) f, latest, paired)) source =
      Ok (updId t0 (row_id r) f', latest', paired') /\ (forall r', quiet r' (f' r')).
Proof.
  intros Hw Hr Hf Hs. unfold readyStep. cbn [rbind].
  destruct (ReadyAtFor (scanRow r) source) as [at_|]; [cbn [rbind]; eauto 6|].
  destruct (rcGateSideReady env db (scanRow r) source); [|cbn [rbind]; eauto 6].
  destruct (sideOfSource_row t0 r source Hw Hr Hs) as [side Hside].
  assert (MarkRCGateSideReady (updId t0 (row_id r) f) (row_id r) source now =
    Ok (updId t0 (row_id r) (fun r' => markRow side now (f r')))) as Hmark.
  { unfold MarkRCGateSideReady.
    rewrite (sideOfSource_le t0 _ _ _ side) by (done || apply updId_le; intros; apply q_le, Hf). cbn [rbind].
    rewrite updateRows_updId, updId_fuse; [done|]. intros r' <-. apply le_id, q_le, Hf. }
  change (g_ID (scanRow r)) with (row_id r). rewrite Hmark. cbn [rbind].
  eexists _, _, _. split; [reflexivity|]. intros r'. etrans; [apply Hf|apply markRow_quiet].
Qed.

Lemma readySides_row db t r now :
  wfTable t -> In r (t_rows t) ->
  exists f latest paired,
    readySides env db (scanRow r) now t = Ok (updId t (row_id r) f, latest, paired) /\ (forall r', quiet r' (f r')).
Proof.
  intros Hw Hr. unfold readySides. change (Sources (scanRow r)) with (Sources (row_gate r)).
  replace (Ok (t, None, true)) with
    (Ok (updId t (row_id r) (fun r => r), None, true) : result gateError (gateTable * option time * bool))
    by (by rewrite updId_id).
  unfold Sources. rewrite !fold_left_cons.
  destruct (readyStep_row db t r (fun r => r) now None true (g_CandidateSource (row_gate r)))
    as (f1 & l1 & p1 & -> & Hf1); [done|done|reflexivity|by left|].
  destruct (readyStep_row db t r f1 now l1 p1 (g_BaselineSource (row_gate r)))
    as (f2 & l2 & p2 & -> & Hf2); [done|done|done|by right; left|].
  simpl. eauto 6.
Qed.

(** * Transitions of one row *)

(** What one evaluation may do to the row of the gate it evaluates. *)
Record rowTrans (r r' : rcGateRow) : Prop := {
  rt_le : row_le r r';
  rt_paired : g_PairedReadyAt (row_gate r') = g_PairedReadyAt (row_gate r) \/
    (g_Status (row_gate r) = RCGateRunning /\ g_PairedReadyAt (row_gate r) = None /\
     exists l, g_PairedReadyAt (row_gate r') = Some l /\
       (l < g_ProvisionDeadline (row_gate r) /\ l < g_ExpiresAt (row_gate r))%Z);
  rt_status :
    (g_Status (row_gate r') = g_Status (row_gate r) /\ g_CompletedAt (row_gate r') = g_CompletedAt (row_gate r)) \/
    (g_Status (row_gate r) = RCGateRunning /\ g_Status (row_gate r') = RCGateAborted /\
     g_PairedReadyAt (row_gate r') = None /\ g_CompletedAt (row_gate r') <> None) \/
    (g_Status (row_gate r) = RCGateRunning /\ g_Status (row_gate r') = RCGateTail /\
     g_Tail (row_gate r) = true /\ g_PairedReadyAt (row_gate r') <> None /\ g_CompletedAt (row_gate r') = None) \/
    (g_Status (row_gate r) = RCGateRunning /\ g_Status (row_gate r') = RCGateCompleted /\
     g_Tail (row_gate r) = false /\ g_PairedReadyAt (row_gate r') <> None /\ g_CompletedAt (row_gate r') <> None) \/
    (g_Status (row_gate r) = RCGateTail /\ g_Status (row_gate r') = RCGateCompleted /\
     g_CompletedAt (row_gate r') <> None)
}.

Definition closeRow (next : RCGateStatus) (completedAt : option time) (results : string) (r : rcGateRow) : rcGateRow :=
  r <| row_gate ::= (fun g => g <| g_Status := next |> <| g_CompletedAt := completedAt |>
                                <| g_Results := if results =s "" then g_Results g else results |>) |>.
Definition pairRow (l : time) (r : rcGateRow) : rcGateRow :=
  if bool_decide (g_PairedReadyAt (row_gate r) = None)
  then r <| row_gate ::= (fun g => g <| g_PairedReadyAt := Some l |>) |> else r.

Lemma updateStatus_upd t id next completedAt results :
  UpdateRCGateStatus t id next completedAt results = updId t id (closeRow next completedAt results).
Proof. reflexivity. Qed.

Lemma markPaired_upd t id l : MarkRCGatePairedReady t id l = updId t id (pairRow l).
Proof. apply updateRows_updId. Qed.

Lemma closeRow_le next completedAt results r : row_le r (closeRow next completedAt results r).
Proof. by constructor. Qed.

Lemma pairRow_le l r : row_le r (pairRow l r).
Proof.
  unfold pairRow. destruct (bool_decide _) eqn:E; [|reflexivity]. apply bool_decide_eq_true in E.
  constructor; try done. intros Hn. by destruct Hn.
Qed.

(** The status a teardown leaves, when it succeeds. *)
Definition closedBy (next : RCGateStatus) (now : time) (r r' : rcGateRow) : Prop :=
  r' = r \/
  exists results, r' = closeRow next (match next with RCGateCompleted | RCGateAborted => Some now | _ => None end) results r.

Lemma teardown_row w td gate summary keep next now :
  exists f, gw_gates (fst (teardownRCGateSources jsonCodec w td gate summary keep next now)) =
            updId (gw_gates w) (g_ID gate) f /\ forall r, closedBy next now r (f r).
Proof.
  unfold teardownRCGateSources. destruct (negb _).
  - exists (fun r => r). rewrite updId_id. split; [done|]. by left.
  - cbv zeta. simpl. rewrite updateStatus_upd. eexists. split; [reflexivity|]. intros r. right.
    destruct next; eexists; reflexivity.
Qed.

Lemma abandon_row w td gate now :
  exists f, gw_gates (fst (abandonGate jsonCodec w td gate now)) = updId (gw_gates w) (g_ID gate) f /\
            forall r, closedBy RCGateAborted now r (f r).
Proof.
  unfold abandonGate. destruct (_ || _); [apply teardown_row|].
  exists (fun r => r). rewrite updId_id. split; [done|]. by left.
Qed.

Definition expiredTo (gate : RCGate) (now : time) (r r' : rcGateRow) : Prop :=
  r' = r \/
  (g_Status gate = RCGateRunning /\ closedBy (if g_Tail gate then RCGateTail else RCGateCompleted) now r r') \/
  (g_Status gate = RCGateTail /\ closedBy RCGateCompleted now r r').

Lemma expire_row w td gate now :
  exists f, gw_gates (fst (expireGate jsonCodec w td gate now)) = updId (gw_gates w) (g_ID gate) f /\
            forall r, expiredTo gate now r (f r).
Proof.
  assert (exists f, gw_gates w = updId (gw_gates w) (g_ID gate) f /\ forall r, expiredTo gate now r (f r)) as Hid
    by (exists (fun r => r); rewrite updId_id; split; [done|by left]).
  unfold expireGate, expiredTo in *. destruct (g_Status gate) eqn:Est; try exact Hid.
  - destruct (Before now _); [exact Hid|].
    destruct (g_Tail gate); edestruct teardown_row as (f & -> & Hf); exists f; (split; [reflexivity|]); auto.
  - destruct (g_TailExpiresAt gate); [|exact Hid]. destruct (Before now _); [exact Hid|].
    edestruct teardown_row as (f & -> & Hf). exists f. split; [reflexivity|]. auto.
Qed.

(** What [closedBy] does to the columns the invariant talks about. *)
Lemma closedBy_cols next now r r' :
  closedBy next now r r' ->
  row_le r r' /\ g_PairedReadyAt (row_gate r') = g_PairedReadyAt (row_gate r) /\
  ((g_Status (row_gate r') = g_Status (row_gate r) /\ g_CompletedAt (row_gate r') = g_CompletedAt (row_gate r)) \/
   (g_Status (row_gate r') = next /\
    g_CompletedAt (row_gate r') = match next with RCGateCompleted | RCGateAborted => Some now | _ => None end)).
Proof.
  intros [-> |[results ->]]; [split_and!; [reflexivity|done|by left]|].
  split_and!; [apply closeRow_le|done|by right].
Qed.

Lemma pairRow_cols l r :
  g_PairedReadyAt (row_gate r) = None ->
  row_le r (pairRow l r) /\ g_PairedReadyAt (row_gate (pairRow l r)) = Some l /\
  g_Status (row_gate (pairRow l r)) = g_Status (row_gate r) /\
  g_CompletedAt (row_gate (pairRow l r)) = g_CompletedAt (row_gate r).
Proof.
  intros Hn. split; [apply pairRow_le|]. unfold pairRow. rewrite bool_decide_eq_true_2 by done. done.
Qed.

Lemma abandon_trans r r1 r2 now :
  g_Status (row_gate r) = RCGateRunning -> g_PairedReadyAt (row_gate r) = None ->
  quiet r r1 -> closedBy RCGateAborted now r1 r2 -> rowTrans r r2.
Proof.
  intros Hst Hp [Hle Hs Hc Hpa _] (Hle2 & Hp2 & Hcase)%closedBy_cols.
  constructor; [by etrans|left; congruence|].
  destruct Hcase as [[E1 E2]|[E1 E2]]; [left; split; congruence|].
  right. left. split_and!; congruence.
Qed.

Lemma expire_trans r r1 r2 r3 gate now l :
  g_Status (row_gate r) = RCGateRunning -> g_PairedReadyAt (row_gate r) = None ->
  g_Status gate = RCGateRunning -> g_Tail gate = g_Tail (row_gate r) ->
  (l < g_ProvisionDeadline (row_gate r) /\ l < g_ExpiresAt (row_gate r))%Z ->
  quiet r r1 -> r2 = pairRow l r1 -> expiredTo gate now r2 r3 -> rowTrans r r3.
Proof.
  intros Hst Hp Hgs Hgt Hl [Hle Hs Hc Hpa _] -> Hx.
  destruct (pairRow_cols l r1) as (Hle2 & Hp2 & Hs2 & Hc2); [congruence|].
  assert (exists next, closedBy next now (pairRow l r1) r3 /\ next = if g_Tail gate then RCGateTail else RCGateCompleted)
    as (next & (Hle3 & Hp3 & Hcase)%closedBy_cols & Hnext).
  { destruct Hx as [-> |[[_ Hx]|[E _]]]; [|by eauto|congruence]. eexists. split; [by left|done]. }
  constructor; [by etrans; [|etrans]|right; split_and!; [done|done|]; exists l; split; [congruence|done]|].
  destruct Hcase as [[E1 E2]|[E1 E2]]; [left; split; congruence|]. rewrite Hnext, Hgt in E1, E2.
  destruct (g_Tail (row_gate r)); cbv iota in E1, E2.
  - right. right. left. split_and!; congruence.
  - right. right. right. left. split_and!; congruence.
Qed.

Lemma evaluate_row db w td r now :
  wfTable (gw_gates w) -> In r (t_rows (gw_gates w)) -> openRow r = true ->
  exists f, gw_gates (fst (evaluateRCGate env jsonCodec db w td (scanRow r) now)) =
            updId (gw_gates w) (row_id r) f /\ rowTrans r (f r).
Proof.
  intros Hw Hr Hopen. unfold evaluateRCGate.
  change (g_Status (scanRow r)) with (g_Status (row_gate r)).
  change (g_PairedReadyAt (scanRow r)) with (g_PairedReadyAt (row_gate r)).
  assert ((g_Status (row_gate r) = RCGateRunning -> g_PairedReadyAt (row_gate r) = None -> False) ->
    exists f, gw_gates (fst (expireGate jsonCodec w td (scanRow r) now)) = updId (gw_gates w) (row_id r) f /\
              rowTrans r (f r)) as Hexp.
  { intros Hne. destruct (expire_row w td (scanRow r) now) as (f & E & Hf). exists f. split; [exact E|].
    destruct (Hf r) as [-> |[[Es Hc]|[Es Hc]]]; [constructor; [reflexivity|by left|by left]|..];
      apply closedBy_cols in Hc as (Hle & Hp & Hcase); (constructor; [done|by left|]);
      (destruct Hcase as [?|[E1 E2]]; [by left|]); change (g_Status (scanRow r)) with (g_Status (row_gate r)) in Es.
    - change (g_Tail (scanRow r)) with (g_Tail (row_gate r)) in *.
      destruct (g_Tail (row_gate r)); [right; right; left|right; right; right; left]; split_and!; try congruence;
        rewrite Hp; intros Hnone; by apply Hne.
    - right. right. right. right. split_and!; congruence. }
  destruct (g_Status (row_gate r)) eqn:Est.
  1: destruct (g_PairedReadyAt (row_gate r)) as [p|] eqn:Ep.
  2: { destruct (readySides_row db (gw_gates w) r now Hw Hr) as (f0 & latest & paired & -> & Hq). cbv zeta.
    destruct (if paired then latest else None) as [l|].
    2: { destruct (abandon_row (w <| gw_gates := updId (gw_gates w) (row_id r) f0 |>) td (scanRow r) now) as (f & -> & Hf).
      exists (fun r => f (f0 r)). simpl. change (g_ID (scanRow r)) with (row_id r).
      rewrite updId_fuse by (intros ? <-; apply le_id, q_le, Hq). split; [done|]. eapply abandon_trans; eauto. }
    destruct (_ && _) eqn:El.
    2: { destruct (abandon_row (w <| gw_gates := updId (gw_gates w) (row_id r) f0 |>) td (scanRow r) now) as (f & -> & Hf).
      exists (fun r => f (f0 r)). simpl. change (g_ID (scanRow r)) with (row_id r).
      rewrite updId_fuse by (intros ? <-; apply le_id, q_le, Hq). split; [done|]. eapply abandon_trans; eauto. }
    apply andb_prop in El as [El1%Z.ltb_lt El2%Z.ltb_lt].
    edestruct (expire_row) as (f & -> & Hf). exists (fun r => f (pairRow l (f0 r))). simpl.
    change (g_ID (scanRow r)) with (row_id r). rewrite markPaired_upd.
    rewrite updId_fuse by (intros ? <-; apply le_id, pairRow_le).
    rewrite updId_fuse by (intros ? <-; apply le_id, q_le, Hq).
    split; [done|]. eapply (expire_trans r (f0 r) _ _ _ now l); eauto. }
  all: destruct Hexp as (f & -> & Hf); [congruence|]; exists f; by split.
Qed.

(** * The state machine *)

(** Everything that changes the gate table: a registration, a pinned
    deployment, and the evaluation of an open gate. *)
Inductive gateStep : gateWorld -> gateWorld -> Prop :=
| step_register w request now w' gate created :
    RegisterRCGate env w request now = Ok (w', (gate, created)) -> gateStep w w'
| step_pin w source git litestream image now :
    gateStep w (w <| gw_gates := fst (pinRCGateDeployment (gw_gates w) source git litestream image now) |>)
| step_evaluate w db td r now :
    In r (t_rows (gw_gates w)) -> openRow r = true ->
    gateStep w (fst (evaluateRCGate env jsonCodec db w td (scanRow r) now)).

Inductive reachable : gateWorld -> Prop :=
| reach_start : reachable (mkGateWorld emptyTable [])
| reach_step w w' : reachable w -> gateStep w w' -> reachable w'.

Record rowInv (r : rcGateRow) : Prop := {
  inv_tail : is_Some (g_TailExpiresAt (row_gate r)) <-> g_Tail (row_gate r) = true;
  inv_tail_status : g_Status (row_gate r) = RCGateTail -> g_Tail (row_gate r) = true;
  inv_closed : is_Some (g_CompletedAt (row_gate r)) <-> Closed (row_gate r) = true;
  inv_aborted : g_Status (row_gate r) = RCGateAborted -> g_PairedReadyAt (row_gate r) = None;
  inv_finished : g_Status (row_gate r) = RCGateCompleted \/ g_Status (row_gate r) = RCGateTail ->
                 g_PairedReadyAt (row_gate r) <> None;
  inv_paired : forall p, g_PairedReadyAt (row_gate r) = Some p ->
                 (p < g_ProvisionDeadline (row_gate r) /\ p < g_ExpiresAt (row_gate r))%Z
}.

Definition gateInv (t : gateTable) : Prop := wfTable t /\ Forall rowInv (t_rows t).

Lemma rowTrans_inv r r' : rowInv r -> rowTrans r r' -> rowInv r'.
Proof.
  intros [I1 I2 I3 I4 I5 I6] [Hle Hp Hst]. pose proof (le_window _ _ Hle) as Hwin. injection Hwin as _ Hexp Htexp Hprov Htail.
  constructor.
  - by rewrite Htexp, Htail.
  - rewrite Htail. naive_solver congruence.
  - unfold Closed in *. destruct Hst as [[E1 E2]|[(E1 & E2 & _ & E4)|[(E1 & E2 & _ & _ & E4)|[(E1 & E2 & _ & _ & E4)|(E1 & E2 & E4)]]]];
      [by rewrite E1, E2|rewrite E2..].
    + split; [done|]. intros _. by apply not_eq_None_Some.
    + rewrite E4. split; [by intros [? [=]]|done].
    + split; [done|]. intros _. by apply not_eq_None_Some.
    + split; [done|]. intros _. by apply not_eq_None_Some.
  - intros Ha. destruct Hst as [[E1 E2]|[(E1 & E2 & E3 & E4)|[(E1 & E2 & _)|[(E1 & E2 & _)|(E1 & E2 & _)]]]]; try congruence.
    destruct Hp as [E|(E & _)]; [rewrite E; apply I4; congruence|congruence].
  - intros Hf. destruct Hst as [[E1 E2]|[(E1 & E2 & _)|[(E1 & E2 & _ & E3 & _)|[(E1 & E2 & _ & E3 & _)|(E1 & E2 & _)]]]];
      try done; [|destruct Hf; congruence|].
    + rewrite E1 in Hf. destruct Hp as [->|(_ & _ & l & -> & _)]; [auto|done].
    + destruct Hp as [->|(_ & _ & l & -> & _)]; [auto|done].
  - intros p Hpp. rewrite Hexp, Hprov. destruct Hp as [E|(_ & _ & l & E & Hl)]; [rewrite E in Hpp; auto|].
    rewrite E in Hpp. by injection Hpp as <-.
Qed.

Lemma updId_inv t r f :
  gateInv t -> In r (t_rows t) -> openRow r = true -> rowTrans r (f r) -> gateInv (updId t (row_id r) f).
Proof.
  intros [Hw Hi] Hr Ho Ht. split.
  - apply mapRows_wf; [done|]. intros x Hx. destruct (Z.eqb_spec (row_id x) (row_id r)) as [E|]; [|done].
    rewrite (same_id t r x Hw Hr Hx E) in *. destruct (rt_le _ _ Ht). done.
  - unfold updId. cbn [t_rows]. apply Forall_map. rewrite List.Forall_forall in Hi |- *. intros x Hx. simpl.
    destruct (Z.eqb_spec (row_id x) (row_id r)) as [E|]; [|auto].
    rewrite (same_id t r x Hw Hr Hx E). eapply rowTrans_inv; [|exact Ht]. auto.
Qed.

Lemma pin_table t source git litestream image now :
  fst (pinRCGateDeployment t source git litestream image now) = t \/
  exists side id, fst (pinRCGateDeployment t source git litestream image now) = pinUpdate t side id image git.
Proof.
  unfold pinRCGateDeployment. destruct (ActiveRCGateForSource t source) as [gate|]; [|by left].
  destruct (LitestreamSHAFor gate source). destruct (negb (EqualFold _ _)); [by left|].
  destruct (PinnedBuildFor gate source). destruct ((_ =s "") && _); [by left|].
  unfold PinRCGateBuild. destruct (sideOfSource t (g_ID gate) source) as [side|]; [|by left]. cbn [rbind].
  destruct (List.find _ _) as [r|]; [|by left]. right. exists side, (g_ID gate).
  destruct (imageOf side (row_gate r)). by destruct (_ || _).
Qed.

Lemma pinUpdate_inv t side id image git : gateInv t -> gateInv (pinUpdate t side id image git).
Proof.
  intros [Hw Hi]. split; [apply updateRows_wf; [done|]; by destruct side|].
  unfold pinUpdate, updateRows. cbn [t_rows]. apply Forall_map. eapply Forall_impl; [exact Hi|]. intros r Hr. simpl.
  destruct (_ && _ && _); [|done]. destruct Hr. by destruct side; constructor.
Qed.

Lemma newRow_inv request c now id res :
  requestOk env request c -> rowInv (insertRow ((newGate request c now) <| g_Resources := res |>) id).
Proof.
  intros Hok. pose proof (newGate_fields request c now) as (_ & _ & Est & _ & _ & Etexp & Etail & _).
  assert (g_CompletedAt (newGate request c now) = None /\ g_PairedReadyAt (newGate request c now) = None) as [Ec Ep]
    by (unfold newGate; by destruct (gateSourcePrefixes _ _)).
  constructor; unfold insertRow, Closed; simpl row_gate;
    change (g_Status ((newGate request c now) <| g_Resources := res |> <| g_ID := id |>)) with (g_Status (newGate request c now));
    change (g_CompletedAt ((newGate request c now) <| g_Resources := res |> <| g_ID := id |>)) with (g_CompletedAt (newGate request c now));
    change (g_PairedReadyAt ((newGate request c now) <| g_Resources := res |> <| g_ID := id |>)) with (g_PairedReadyAt (newGate request c now));
    change (g_TailExpiresAt ((newGate request c now) <| g_Resources := res |> <| g_ID := id |>)) with (g_TailExpiresAt (newGate request c now));
    change (g_Tail ((newGate request c now) <| g_Resources := res |> <| g_ID := id |>)) with (g_Tail (newGate request c now));
    rewrite ?Est, ?Ec, ?Ep, ?Etexp, ?Etail; try done.
  - destruct (rq_Tail request); split; intros Hx; try done; by destruct Hx as [? [=]].
  - intros [?|?]; done.
Qed.

Lemma register_not_created w request now w' gate :
  RegisterRCGate env w request now = Ok (w', (gate, false)) -> w' = w.
Proof.
  unfold RegisterRCGate. intros (c & _ & Hk)%rbind_Ok. revert Hk. destruct (List.find _ _); [discriminate|].
  destruct (CreateRCGate _ _) as [[t g]|e]; [discriminate|]. destruct e; try discriminate.
  destruct (ActiveRCGateForSource _ _); [|discriminate]. destruct (sameRegistration _ _); [|discriminate]. by intros [= <- _].
Qed.

Lemma gateStep_inv w w' : gateStep w w' -> gateInv (gw_gates w) -> gateInv (gw_gates w').
Proof.
  intros [w0 request now w1 gate [] Hreg|w0 source git litestream image now|w0 db td r now Hr Ho] Hinv.
  - apply register_created in Hreg as (c & t' & Hok%checkRequest_Ok & _ & Hcr & ->).
    destruct Hinv as [Hw Hi]. apply create_wf in Hcr as (Hw' & Hrows & _); [|done]. split; [done|].
    change (Forall rowInv (t_rows t')). rewrite Hrows. apply Forall_app. split; [done|].
    constructor; [by apply newRow_inv|constructor].
  - by apply register_not_created in Hreg as ->.
  - cbn [gw_gates]. change (gateInv (fst (pinRCGateDeployment (gw_gates w0) source git litestream image now))).
    destruct (pin_table (gw_gates w0) source git litestream image now) as [-> |(side & id & ->)]; [done|].
    by apply pinUpdate_inv.
  - destruct (evaluate_row db w0 td r now) as (f & -> & Ht); [apply Hinv|done|done|]. by apply updId_inv.
Qed.

Lemma reachable_inv w : reachable w -> gateInv (gw_gates w).
Proof.
  induction 1; [split; [apply wf_empty|constructor]|]. by eapply gateStep_inv.
Qed.

(** C3: The invariant of the gate table.  However registrations, pins and
    evaluations interleave, ids are unique and increasing, no two open gates
    share a source, a gate is in its tail only if it was registered with
    one, a gate has a completion time exactly when it is closed, an aborted
    gate never had both sides ready, a completed one did, and both sides
    were ready before the launch deadline and before expiry. *)
Theorem gate_invariant w :
  reachable w -> wfTable (gw_gates w) /\ Forall rowInv (t_rows (gw_gates w)).
Proof. apply reachable_inv. Qed.

Lemma gateStep_closed w w' r :
  gateStep w w' -> gateInv (gw_gates w) -> In r (t_rows (gw_gates w)) -> openRow r = false ->
  In r (t_rows (gw_gates w')).
Proof.
  intros [w0 request now w1 gate [] Hreg|w0 source git litestream image now|w0 db td r0 now Hr Ho] Hinv Hin Hcl.
  - apply register_created in Hreg as (c & t' & _ & _ & Hcr & ->).
    apply create_Ok in Hcr as (_ & Hrows & _). change (In r (t_rows t')). rewrite Hrows. apply in_or_app. by left.
  - by apply register_not_created in Hreg as ->.
  - cbn [gw_gates]. change (In r (t_rows (fst (pinRCGateDeployment (gw_gates w0) source git litestream image now)))).
    destruct (pin_table (gw_gates w0) source git litestream image now) as [-> |(side & id & ->)]; [done|].
    unfold pinUpdate, updateRows. cbn [t_rows]. apply in_map_iff. exists r. by rewrite Hcl, andb_false_r.
  - destruct (evaluate_row db w0 td r0 now) as (f & -> & Ht); [apply Hinv|done|done|].
    unfold updId. cbn [t_rows]. apply in_map_iff. exists r. split; [|done].
    destruct (Z.eqb_spec (row_id r) (row_id r0)) as [E|]; [|done].
    rewrite (same_id _ r0 r (proj1 Hinv) Hr Hin E) in Hcl. congruence.
Qed.

Inductive gateSteps : gateWorld -> gateWorld -> Prop :=
| steps_refl w : gateSteps w w
| steps_next w1 w2 w3 : gateStep w1 w2 -> gateSteps w2 w3 -> gateSteps w1 w3.

(** C21: A closed gate never changes again.  Once a gate's row is completed
    or aborted, it is still in the table, unchanged in every column, after
    any further sequence of registrations, pins and evaluations. *)
Theorem closed_forever w w' r :
  reachable w -> gateSteps w w' -> In r (t_rows (gw_gates w)) -> Closed (row_gate r) = true ->
  In r (t_rows (gw_gates w')).
Proof.
  intros Hreach%reachable_inv Hsteps Hin Hcl.
  assert (openRow r = false) as Ho by (unfold openRow; by rewrite Hcl).
  induction Hsteps as [w|w1 w2 w3 Hstep Hsteps IH]; [done|].
  apply IH; [by eapply gateStep_inv|by eapply gateStep_closed].
Qed.

(** * Gates close *)

Definition alwaysTornDown (td : teardown) : Prop := forall source keep, teardownOk (td_outcome td source keep) = true.

Lemma teardown_closes w td gate summary keep next now :
  alwaysTornDown td ->
  exists f, gw_gates (fst (teardownRCGateSources jsonCodec w td gate summary keep next now)) =
            updId (gw_gates w) (g_ID gate) f /\ forall r, g_Status (row_gate (f r)) = next.
Proof.
  intros Hok. unfold teardownRCGateSources.
  assert (forallb (fun source => teardownOk (td_outcome td source keep)) (Sources gate) = true) as ->
    by (apply forallb_forall; intros; apply Hok).
  cbv zeta. simpl. rewrite updateStatus_upd. eexists. split; [reflexivity|]. done.
Qed.

(** The evaluation of the gate with a given id, as the loop's passes do it. *)
Definition evaluateId (db : soakDB) (td : teardown) (now : time) (id : Z) (w : gateWorld) : gateWorld :=
  match List.find (fun r => (row_id r =? id)%Z) (t_rows (gw_gates w)) with
  | Some r => if openRow r then fst (evaluateRCGate env jsonCodec db w td (scanRow r) now) else w
  | None => w
  end.

Lemma expire_progress w td gate now :
  alwaysTornDown td -> (g_ExpiresAt gate <= now)%Z ->
  (forall d, g_TailExpiresAt gate = Some d -> (d <= now)%Z) ->
  g_Status gate = RCGateRunning \/ (g_Status gate = RCGateTail /\ is_Some (g_TailExpiresAt gate)) ->
  exists f, gw_gates (fst (expireGate jsonCodec w td gate now)) = updId (gw_gates w) (g_ID gate) f /\
    forall r, g_Status (row_gate (f r)) = RCGateCompleted \/
              (g_Status gate = RCGateRunning /\ g_Status (row_gate (f r)) = RCGateTail /\ g_Tail gate = true).
Proof.
  intros Hok Hexp Htail Hst. unfold expireGate, Before. destruct Hst as [Hst|[Hst [d Hd]]]; rewrite Hst.
  - destruct (Z.ltb_spec now (g_ExpiresAt gate)); [lia|].
    destruct (g_Tail gate);
      match goal with |- context [teardownRCGateSources _ _ _ _ ?s ?k ?n _] =>
        destruct (teardown_closes w td gate s k n now Hok) as (f & -> & Hf) end; exists f; auto.
  - rewrite Hd. pose proof (Htail d Hd). destruct (Z.ltb_spec now d); [lia|].
    match goal with |- context [teardownRCGateSources _ _ _ _ ?s ?k ?n _] =>
      destruct (teardown_closes w td gate s k n now Hok) as (f & -> & Hf) end. exists f. auto.
Qed.

Lemma abandon_progress w td gate now :
  alwaysTornDown td -> (g_ExpiresAt gate <= now)%Z ->
  exists f, gw_gates (fst (abandonGate jsonCodec w td gate now)) = updId (gw_gates w) (g_ID gate) f /\
    forall r, g_Status (row_gate (f r)) = RCGateAborted.
Proof.
  intros Hok Hexp. unfold abandonGate, Before. destruct (Z.ltb_spec now (g_ExpiresAt gate)); [lia|].
  rewrite orb_true_r. by apply teardown_closes.
Qed.

Lemma evaluate_progress db w td r now :
  wfTable (gw_gates w) -> In r (t_rows (gw_gates w)) -> openRow r = true -> rowInv r -> alwaysTornDown td ->
  (g_ExpiresAt (row_gate r) <= now)%Z -> (forall d, g_TailExpiresAt (row_gate r) = Some d -> (d <= now)%Z) ->
  exists f, gw_gates (fst (evaluateRCGate env jsonCodec db w td (scanRow r) now)) = updId (gw_gates w) (row_id r) f /\
    (Closed (row_gate (f r)) = true \/
     (g_Status (row_gate r) = RCGateRunning /\ g_Status (row_gate (f r)) = RCGateTail)).
Proof.
  intros Hw Hr Ho Hinv Hok Hexp Htail.
  assert (forall w0 gate, g_ID gate = row_id r -> g_ExpiresAt gate = g_ExpiresAt (row_gate r) ->
    g_TailExpiresAt gate = g_TailExpiresAt (row_gate r) -> g_Status gate = g_Status (row_gate r) ->
    exists f, gw_gates (fst (expireGate jsonCodec w0 td gate now)) = updId (gw_gates w0) (row_id r) f /\
      forall r0, Closed (row_gate (f r0)) = true \/
        (g_Status (row_gate r) = RCGateRunning /\ g_Status (row_gate (f r0)) = RCGateTail)) as Hexpire.
  { intros w0 gate Eid Eexp Etail Est. rewrite <- Eid.
    destruct (expire_progress w0 td gate now) as (f & -> & Hf); [done|by rewrite Eexp|by rewrite Etail| |].
    - rewrite Est. unfold openRow, Closed in Ho. destruct (g_Status (row_gate r)) eqn:E; try done; [by left|].
      right. split; [done|]. rewrite Etail. by apply (inv_tail _ Hinv), (inv_tail_status _ Hinv).
    - exists f. split; [done|]. intros r0. rewrite <- Est. unfold Closed.
      destruct (Hf r0) as [->|(? & ? & _)]; auto. }
  unfold evaluateRCGate. change (g_Status (scanRow r)) with (g_Status (row_gate r)).
  change (g_PairedReadyAt (scanRow r)) with (g_PairedReadyAt (row_gate r)).
  destruct (Hexpire w (scanRow r)) as (fe & Ee & Hfe); [done..|].
  destruct (g_Status (row_gate r)) eqn:Est; try (exists fe; split; [exact Ee|apply Hfe]).
  destruct (g_PairedReadyAt (row_gate r)); [exists fe; split; [exact Ee|apply Hfe]|]. clear fe Ee Hfe.
  destruct (readySides_row db (gw_gates w) r now Hw Hr) as (f0 & latest & paired & -> & Hq). cbv zeta.
  assert (forall w0, gw_gates w0 = updId (gw_gates w) (row_id r) f0 ->
    exists f, gw_gates (fst (abandonGate jsonCodec w0 td (scanRow r) now)) = updId (gw_gates w) (row_id r) f /\
              (Closed (row_gate (f r)) = true \/
               (RCGateRunning = RCGateRunning /\ g_Status (row_gate (f r)) = RCGateTail))) as Hab.
  { intros w0 E0. destruct (abandon_progress w0 td (scanRow r) now Hok Hexp) as (f & -> & Hf).
    rewrite E0. change (g_ID (scanRow r)) with (row_id r).
    rewrite updId_fuse by (intros ? <-; apply le_id, q_le, Hq). eexists. split; [reflexivity|]. left. unfold Closed. by rewrite Hf. }
  destruct (if paired then latest else None) as [l|]; [|by apply Hab].
  destruct (_ && _); [|by apply Hab].
  match goal with |- context [expireGate _ ?w0 _ ?g0 _] =>
    destruct (Hexpire w0 g0) as (f & -> & Hf); [done|done|done|exact Est|] end.
  simpl. change (g_ID (scanRow r)) with (row_id r). rewrite markPaired_upd.
  rewrite updId_fuse by (intros ? <-; apply le_id, pairRow_le).
  rewrite updId_fuse by (intros ? <-; apply le_id, q_le, Hq). eexists. split; [reflexivity|]. apply Hf.
Qed.

Lemma find_updId t id f r :
  List.find (fun r => (row_id r =? id)%Z) (t_rows t) = Some r -> (row_id r = id -> row_id (f r) = id) ->
  List.find (fun r => (row_id r =? id)%Z) (t_rows (updId t id f)) = Some (f r).
Proof.
  unfold updId. cbn [t_rows]. intros Hf Hid. induction (t_rows t) as [|a l IH]; [discriminate|]. simpl in *.
  destruct (Z.eqb_spec (row_id a) id) as [E|E].
  - injection Hf as ->. by rewrite (Hid E), Z.eqb_refl.
  - destruct (Z.eqb_spec (row_id a) id); [done|]. by apply IH.
Qed.

Lemma evaluateId_inv db td now id w : gateInv (gw_gates w) -> gateInv (gw_gates (evaluateId db td now id w)).
Proof.
  intros Hinv. unfold evaluateId. destruct (List.find _ _) as [r|] eqn:Ef; [|done]. destruct (openRow r) eqn:Eo; [|done].
  apply find_some in Ef as [Hin _]. eapply gateStep_inv; [by apply step_evaluate|done].
Qed.

(** One evaluation past the deadlines closes the gate or starts its tail. *)
Lemma evaluateId_progress db td now w r :
  gateInv (gw_gates w) -> In r (t_rows (gw_gates w)) -> alwaysTornDown td ->
  (g_ExpiresAt (row_gate r) <= now)%Z -> (forall d, g_TailExpiresAt (row_gate r) = Some d -> (d <= now)%Z) ->
  exists r', List.find (fun x => (row_id x =? row_id r)%Z) (t_rows (gw_gates (evaluateId db td now (row_id r) w))) = Some r' /\
    row_le r r' /\ (Closed (row_gate r') = true \/
                    (g_Status (row_gate r) = RCGateRunning /\ g_Status (row_gate r') = RCGateTail)).
Proof.
  intros Hinv Hin Hok Hexp Htail. pose proof (find_row _ _ (proj1 Hinv) Hin) as Hf.
  unfold evaluateId. rewrite Hf. destruct (openRow r) eqn:Eo.
  - assert (rowInv r) as Hri by (destruct Hinv as [_ Hi]; rewrite List.Forall_forall in Hi; auto).
    destruct (evaluate_progress db w td r now (proj1 Hinv) Hin Eo Hri Hok Hexp Htail) as (f & E & Hst).
    destruct (evaluate_row db w td r now (proj1 Hinv) Hin Eo) as (g & E' & Ht).
    assert (f r = g r) as Efg.
    { rewrite E in E'. injection E' as E'. rewrite map_ext_in_iff in E'. specialize (E' r Hin). simpl in E'.
      by rewrite Z.eqb_refl in E'. }
    exists (f r). rewrite E. split; [|split; [by rewrite Efg; apply rt_le|done]].
    apply find_updId; [done|]. intros _. rewrite Efg. apply le_id, rt_le, Ht.
  - exists r. split_and!; [done|reflexivity|]. left. unfold openRow in Eo. by apply negb_false_iff in Eo.
Qed.

(** C18: Every gate closes.  Once a gate's expiry and its tail deadline, if it
    has one, have passed and its sources can be torn down, two passes of the
    evaluation loop leave it completed or aborted: one pass closes a running
    gate or moves it to its tail, and the next closes the tail. *)
Theorem gate_closes db td now w r :
  reachable w -> In r (t_rows (gw_gates w)) -> alwaysTornDown td ->
  (g_ExpiresAt (row_gate r) <= now)%Z -> (forall d, g_TailExpiresAt (row_gate r) = Some d -> (d <= now)%Z) ->
  exists r', List.find (fun x => (row_id x =? row_id r)%Z)
      (t_rows (gw_gates (evaluateId db td now (row_id r) (evaluateId db td now (row_id r) w)))) = Some r' /\
    Closed (row_gate r') = true.
Proof.
  intros Hinv%reachable_inv Hin Hok Hexp Htail.
  destruct (evaluateId_progress db td now w r Hinv Hin Hok Hexp Htail) as (r1 & Hf1 & Hle & Hst).
  pose proof (evaluateId_inv db td now (row_id r) w Hinv) as Hinv1.
  apply find_some in Hf1 as [Hin1 Hid1%Z.eqb_eq].
  pose proof (le_window _ _ Hle) as Hwin. injection Hwin as _ Hexp1 Htexp1 _ _.
  destruct (evaluateId_progress db td now _ r1 Hinv1 Hin1 Hok) as (r2 & Hf2 & Hle2 & Hst2);
    [by rewrite Hexp1|by rewrite Htexp1|].
  rewrite Hid1 in Hf2. exists r2. split; [done|].
  destruct Hst2 as [?|[Hrun _]]; [done|]. exfalso.
  destruct Hst as [Hc|[_ Ht]]; [unfold Closed in Hc; by rewrite Hrun in Hc|congruence].
Qed.

(** The verdict is frozen when the gate closes.  After a teardown closed
    a gate, the ledger shows for it the verdict computed on the database at
    that moment, whatever database and clock the ledger is later built
    from; the snapshot is only assumed to be a non-blank text that decodes
    to what was encoded. *)
Theorem ledger_frozen w td r summary keep next now db' now' :
  let results := buildRCGateResults (td_db td) (scanRow r) now in
  wfTable (gw_gates w) -> In r (t_rows (gw_gates w)) -> alwaysTornDown td ->
  next = RCGateCompleted \/ next = RCGateAborted ->
  TrimSpace (encodeResults jsonCodec results) <> "" ->
  decodeResults jsonCodec (encodeResults jsonCodec results) = Some (exportResults results) ->
  exists gate entry,
    GetRCGate (gw_gates (fst (teardownRCGateSources jsonCodec w td (scanRow r) summary keep next now))) (row_id r) = Some gate /\
    buildRCGateLedgerEntry jsonCodec db' gate now' = Some entry /\ le_Verdict entry = gr_Verdict results.
Proof.
  intros results Hw Hin Hok Hnext Hne Hrt.
  assert (gw_gates (fst (teardownRCGateSources jsonCodec w td (scanRow r) summary keep next now)) =
    updId (gw_gates w) (row_id r) (closeRow next (Some now) (encodeResults jsonCodec results))) as E.
  { unfold teardownRCGateSources.
    assert (forallb (fun source => teardownOk (td_outcome td source keep)) (Sources (scanRow r)) = true) as ->
      by (apply forallb_forall; intros; apply Hok).
    cbv zeta. simpl. rewrite updateStatus_upd. by destruct Hnext as [-> | ->]. }
  unfold GetRCGate. rewrite E.
  rewrite (find_updId (gw_gates w) (row_id r) _ r (find_row _ _ Hw Hin)) by done. simpl.
  assert ((encodeResults jsonCodec results =s "") = false) as Hne'
    by (apply eqs_false; intros E0; by rewrite E0 in Hne).
  set (gate := scanRow (closeRow next (Some now) (encodeResults jsonCodec results) r)).
  assert (g_Results gate = encodeResults jsonCodec results) as Er
    by (change (g_Results gate) with (if encodeResults jsonCodec results =s "" then g_Results (row_gate r) else encodeResults jsonCodec results); by rewrite Hne').
  assert (Closed gate = true) as Ec by (unfold Closed; change (g_Status gate) with next; by destruct Hnext as [-> | ->]).
  exists gate. unfold buildRCGateLedgerEntry. rewrite Ec, Er, (proj2 (eqs_false _ _) Hne), Hrt. simpl. eauto.
Qed.
End LifecycleTheorems.

(** * Examples *)

Definition example_td (db : soakDB) : teardown := mkTeardown (fun _ _ => TornDown) db.
Definition example_codec (r : rcGateResults) : codec := mkCodec (fun _ => "{}") (fun _ => Some (exportResults r)).
Definition empty_results : rcGateResults := mkResults "" [] [] 0%Z.

Definition registered_world : gateWorld := fst (registered "" sample_request).
Definition registered_row : rcGateRow :=
  hd (insertRow RCGate_zero 0) (t_rows (gw_gates registered_world)).
Definition closed_world : gateWorld :=
  evaluateId (H := exampleDecoders) "" (example_codec empty_results) emptyDB (example_td emptyDB) (1000 * Hour) 1 registered_world.
Definition closed_row : rcGateRow := hd (insertRow RCGate_zero 0) (t_rows (gw_gates closed_world)).

Lemma registered_reachable : reachable (H := exampleDecoders) "" (example_codec empty_results) registered_world.
Proof.
  eapply reach_step; [apply reach_start|].
  apply (step_register (H := exampleDecoders) "" (example_codec empty_results) empty_world sample_request 1000
           registered_world (snd (registered "" sample_request)) true).
  vm_compute. reflexivity.
Qed.

Lemma gate_invariant_witness :
  wfTable (gw_gates registered_world) /\ length (t_rows (gw_gates registered_world)) = 1.
Proof.
  split; [|vm_compute; reflexivity].
  apply (gate_invariant (H := exampleDecoders) "" (example_codec empty_results) registered_world registered_reachable).
Defined.

Lemma registered_row_In : In registered_row (t_rows (gw_gates registered_world)).
Proof. vm_compute. left. reflexivity. Qed.

Lemma closed_reachable : reachable (H := exampleDecoders) "" (example_codec empty_results) closed_world.
Proof.
  eapply reach_step; [apply registered_reachable|]. unfold closed_world, evaluateId.
  replace (List.find _ _) with (Some registered_row) by (vm_compute; reflexivity).
  replace (openRow registered_row) with true by (vm_compute; reflexivity).
  apply step_evaluate; [apply registered_row_In|vm_compute; reflexivity].
Qed.

Definition repinned_world : gateWorld :=
  closed_world <| gw_gates := fst (pinRCGateDeployment (gw_gates closed_world) "rc-aaaaaaaa" "git" sha_a "img" 5) |>.

Lemma closed_forever_witness :
  g_Status (row_gate closed_row) = RCGateAborted /\ In closed_row (t_rows (gw_gates repinned_world)).
Proof.
  split; [vm_compute; reflexivity|].
  refine (closed_forever (H := exampleDecoders) "" (example_codec empty_results) closed_world repinned_world closed_row
            closed_reachable _ _ _).
  - eapply steps_next; [|apply steps_refl]. exact (step_pin (H := exampleDecoders) "" _ closed_world "rc-aaaaaaaa" "git" sha_a "img" 5).
  - vm_compute. left. reflexivity.
  - vm_compute. reflexivity.
Defined.

Lemma gate_closes_witness :
  exists r', List.find (fun x => (row_id x =? row_id registered_row)%Z) (t_rows (gw_gates
    (evaluateId (H := exampleDecoders) "" (example_codec empty_results) emptyDB (example_td emptyDB) (1000 * Hour) (row_id registered_row)
      (evaluateId (H := exampleDecoders) "" (example_codec empty_results) emptyDB (example_td emptyDB) (1000 * Hour) (row_id registered_row)
         registered_world)))) = Some r' /\ Closed (row_gate r') = true.
Proof.
  apply (gate_closes (H := exampleDecoders) "" (example_codec empty_results) emptyDB (example_td emptyDB) (1000 * Hour)
           registered_world registered_row).
  - apply registered_reachable.
  - apply registered_row_In.
  - intros source keep. reflexivity.
  - vm_compute. discriminate.
  - intros d Hd. vm_compute in Hd. discriminate Hd.
Defined.

Definition example_results : rcGateResults :=
  buildRCGateResults (H := exampleDecoders) emptyDB (scanRow registered_row) 9.

Lemma ledger_frozen_witness :
  exists gate entry,
    GetRCGate (gw_gates (fst (teardownRCGateSources (H := exampleDecoders) (example_codec example_results) registered_world
      (example_td emptyDB) (scanRow registered_row) "" destroyAll RCGateAborted 9))) (row_id registered_row) = Some gate /\
    buildRCGateLedgerEntry (H := exampleDecoders) (example_codec example_results) (remote_db true) gate 99 = Some entry /\
    le_Verdict entry = "incomplete".
Proof.
  destruct (ledger_frozen (H := exampleDecoders) (example_codec example_results) registered_world (example_td emptyDB)
    registered_row "" destroyAll RCGateAborted 9 (remote_db true) 99) as (gate & entry & Hg & He & Hv).
  - apply (reachable_inv (H := exampleDecoders) "" (example_codec empty_results)), registered_reachable.
  - apply registered_row_In.
  - intros source keep. reflexivity.
  - by right.
  - discriminate.
  - reflexivity.
  - exists gate, entry. split; [exact Hg|]. split; [exact He|]. rewrite Hv. vm_compute. reflexivity.
Defined.

(** A gate can pass without scoring anything.  An upgrade gate of the
    no-L9 lane limited to the follow profile is registered, none of its
    scenarios is selected, and with an empty database its verdict is pass. *)
Theorem vacuous_pass :
  let request := upgrade_request <| rq_LaneVariant := "nol9" |> <| rq_Profiles := ["gate-upgrade-follow"] |> in
  exists w gate entry, RegisterRCGate "" empty_world request 1000 = Ok (w, (gate, true)) /\
    buildRCGateLedgerEntry (H := exampleDecoders) (example_codec empty_results) emptyDB gate 2000 = Some entry /\
    le_Scenarios entry = [] /\ le_Verdict entry = "pass".
Proof.
  intros request. exists (fst (registered "" request)), (snd (registered "" request)).
  exists (default (mkLedger RCGate_zero "" "" 0 0 "" [] []) (buildRCGateLedgerEntry (H := exampleDecoders)
    (example_codec empty_results) emptyDB (snd (registered "" request)) 2000)).
  split; [vm_compute; reflexivity|]. split; [vm_compute; reflexivity|]. split; vm_compute; reflexivity.
Qed.
