(* ===== verification/LtxCoverage.v ===== *)
(** The L0-L8 coverage check of a replica: [internal/worker/ltx_coverage.go],
    with [parseLTXFilename] of [restore_mode.go] and [formatTXID] of
    [verifier.go].

    A transaction id is a [Z] in the range of [uint64]; sums and differences
    go through [uint64].  The two listings a check takes are its arguments
    (the second is only read when the first shows a hole).  [slices.SortFunc]
    does not order ranges with the same start; the sort here is stable, and what
    is proved of the holes does not depend on that order. *)
From stdpp Require Import sorting.
From Stdlib Require Import Ascii.
From S2P Require Import Prelude GoStrings Model GoTime Classification.

Definition ltxCoverageCheckType := "coverage".
Definition ltxCoverageRestoreMode := "coverage".
Definition ltxCoverageStep := "ltx_coverage".
Definition ltxCoverageMaxLevel : Z := 8.
Definition ltxSnapshotLevel : Z := 9.
Definition ltxCoverageHoleSample : nat := 5.

(** * File names *)

Definition hex_digit (d : Z) : ascii :=
  ascii_of_N (Z.to_N (if (d <? 10)%Z then d + 48 else d + 87)%Z).
Fixpoint hex_digits (n : nat) (z : Z) : string :=
  match n with
  | O => ""
  | S n => hex_digits n (z / 16)%Z +:+ String (hex_digit (z mod 16)) ""
  end.

(** [fmt.Sprintf("%016x", txid)]; sixteen digits hold every uint64. *)
Definition hex16 (txid : Z) : string := hex_digits 16 txid.
Definition formatTXID (txid : Z) : string := if (txid =? 0)%Z then "" else hex16 txid.

Definition hex_val (c : ascii) : option Z :=
  if is_digit c then Some (Z.of_N (N_of_ascii c) - 48)%Z
  else if char_in "a" "f" c then Some (Z.of_N (N_of_ascii c) - 87)%Z
  else if char_in "A" "F" c then Some (Z.of_N (N_of_ascii c) - 55)%Z
  else None.
(** [strconv.ParseUint(s, 16, 64)] on sixteen characters, which cannot overflow. *)
Fixpoint parse_hex (acc : Z) (s : string) : option Z :=
  match s with
  | EmptyString => Some acc
  | String c t => match hex_val c with Some d => parse_hex (acc * 16 + d)%Z t | None => None end
  end.

Definition parseLTXFilename (name : string) : option (Z * Z) :=
  let '(base, ok) := CutSuffix name ".ltx" in
  if negb ok then None
  else
    let '(minText, maxText, ok) := Cut "-" base in
    if negb ok || negb (str_len minText =? 16)%Z || negb (str_len maxText =? 16)%Z then None
    else match parse_hex 0 minText, parse_hex 0 maxText with
         | Some minTXID, Some maxTXID => Some (minTXID, maxTXID)
         | _, _ => None
         end.

(** * Coverage *)

Record txidRange := mkRange { r_min : Z; r_max : Z }.
Definition txidRange_String (r : txidRange) : string := formatTXID (r_min r) +:+ "-" +:+ formatTXID (r_max r).

Record restorePlanCandidate := mkCandidate {
  cd_level : Z; cd_minTXID : Z; cd_maxTXID : Z; cd_sizeBytes : Z; cd_createdAt : string
}.

Record ltxCoverage := mkCoverage {
  cv_files : Z;
  cv_window : txidRange;
  cv_floor : Z;
  cv_floorKnown : bool;
  cv_holes : list txidRange;
  cv_retained : list txidRange
}.
#[export] Instance ltxCoverage_eta : Settable ltxCoverage :=
  fun r => mkCoverage (cv_files r) (cv_window r) (cv_floor r) (cv_floorKnown r) (cv_holes r) (cv_retained r).
Definition coverage_zero : ltxCoverage := mkCoverage 0 (mkRange 0 0) 0 false [] [].

Definition addHole (c : ltxCoverage) (hole : txidRange) : ltxCoverage :=
  if negb (cv_floorKnown c) || (cv_floor c <=? r_min hole)%Z
  then c <| cv_holes := cv_holes c ++ [hole] |>
  else if (r_max hole <? cv_floor c)%Z then c <| cv_retained := cv_retained c ++ [hole] |>
  else c <| cv_retained := cv_retained c ++ [mkRange (r_min hole) (uint64 (cv_floor c - 1))] |>
         <| cv_holes := cv_holes c ++ [mkRange (cv_floor c) (r_max hole)] |>.

(** The first loop: the retention floor from the L9 files. *)
Definition floorStep (c : ltxCoverage) (candidate : restorePlanCandidate) : ltxCoverage :=
  if (cd_level candidate =? ltxSnapshotLevel)%Z &&
     (negb (cv_floorKnown c) || (cd_maxTXID candidate <? cv_floor c)%Z)
  then c <| cv_floor := cd_maxTXID candidate |> <| cv_floorKnown := true |> else c.

Definition coverageFile (candidate : restorePlanCandidate) : bool :=
  negb ((cd_level candidate <? 0)%Z || (ltxCoverageMaxLevel <? cd_level candidate)%Z ||
        (cd_maxTXID candidate <? cd_minTXID candidate)%Z).
Definition candidateRange (c : restorePlanCandidate) : txidRange := mkRange (cd_minTXID c) (cd_maxTXID c).

Definition min_le (a b : txidRange) : Prop := (r_min a <= r_min b)%Z.
#[export] Instance min_le_dec a b : Decision (min_le a b).
Proof. unfold min_le. apply _. Defined.
#[export] Instance min_le_total : Total min_le.
Proof. intros a b. unfold min_le. lia. Qed.
#[export] Instance min_le_trans : Transitive min_le.
Proof. intros a b c. unfold min_le. lia. Qed.

(** The second loop; it stops when the ids are exhausted. *)
Fixpoint sweep (c : ltxCoverage) (coveredTo : Z) (ranges : list txidRange) : ltxCoverage * Z :=
  match ranges with
  | [] => (c, coveredTo)
  | next :: rest =>
      if (coveredTo =? max_uint64)%Z then (c, coveredTo)
      else
        let c := if (uint64 (coveredTo + 1) <? r_min next)%Z
                 then addHole c (mkRange (uint64 (coveredTo + 1)) (uint64 (r_min next - 1))) else c in
        sweep c (Z.max coveredTo (r_max next)) rest
  end.

Definition computeLTXCoverage (candidates : list restorePlanCandidate) : ltxCoverage :=
  let coverage := fold_left floorStep candidates coverage_zero in
  let ranges := map candidateRange (List.filter coverageFile candidates) in
  let coverage := coverage <| cv_files := Z.of_nat (length ranges) |> in
  match merge_sort min_le ranges with
  | [] => coverage
  | first :: rest =>
      let '(coverage, coveredTo) := sweep coverage (r_max first) rest in
      coverage <| cv_window := mkRange (r_min first) coveredTo |>
  end.

Fixpoint intersectTXIDRanges (a : list txidRange) : list txidRange -> list txidRange :=
  match a with
  | [] => fun _ => []
  | x :: a' =>
      fix inner (b : list txidRange) : list txidRange :=
        match b with
        | [] => []
        | y :: b' =>
            let lo := Z.max (r_min x) (r_min y) in
            let hi := Z.min (r_max x) (r_max y) in
            let rest := if (r_max x <? r_max y)%Z then intersectTXIDRanges a' b else inner b' in
            if (lo <=? hi)%Z then mkRange lo hi :: rest else rest
        end
  end.

(** * The check *)

Record replicaLTXListing := mkListing {
  ls_candidates : list restorePlanCandidate; ls_tail : string; ls_complete : bool; ls_err : string
}.

Record ltxCoverageOutcome := mkOutcome {
  oc_first : ltxCoverage;
  oc_second : ltxCoverage;
  oc_relisted : bool;
  oc_confirmed : list txidRange;
  oc_err : string
}.

Definition ltxListingProblem (listing : replicaLTXListing) : string :=
  if negb (ls_err listing =s "") then ls_err listing
  else if negb (ls_complete listing) then "listing incomplete"
  else match ls_candidates listing with [] => "no ltx entries parsed" | _ => "" end.

Definition runLTXCoverageCheck (first second : replicaLTXListing) : ltxCoverageOutcome :=
  if negb (ltxListingProblem first =s "")
  then mkOutcome coverage_zero coverage_zero false [] ("first listing: " +:+ ltxListingProblem first)
  else
    let c1 := computeLTXCoverage (ls_candidates first) in
    match cv_holes c1 with
    | [] => mkOutcome c1 coverage_zero false [] ""
    | _ =>
        if negb (ltxListingProblem second =s "")
        then mkOutcome c1 coverage_zero false [] ("relisting: " +:+ ltxListingProblem second)
        else
          let c2 := computeLTXCoverage (ls_candidates second) in
          mkOutcome c1 c2 true (intersectTXIDRanges (cv_holes c1) (cv_holes c2)) ""
    end.

Definition floorUnknown (o : ltxCoverageOutcome) : bool :=
  negb (bool_decide (length (oc_confirmed o) = 0)) &&
  (negb (cv_floorKnown (oc_first o)) || negb (cv_floorKnown (oc_second o))).

Definition holeError (o : ltxCoverageOutcome) : string :=
  match oc_confirmed o with
  | [] => ""
  | first :: _ => "ltx coverage hole: L0-L8 union missing txids " +:+ formatTXID (r_min first) +:+ "-" +:+
      formatTXID (r_max first) +:+ " (" +:+ pretty (length (oc_confirmed o)) +:+ " holes)"
  end.

Definition floorText (c : ltxCoverage) : string :=
  if negb (cv_floorKnown c) then "retention_floor=unknown" else "retention_floor=" +:+ formatTXID (cv_floor c).

Definition sampleTXIDRanges (ranges : list txidRange) : string :=
  match ranges with
  | [] => ""
  | _ =>
      let names := map txidRange_String (firstn ltxCoverageHoleSample ranges) in
      Join (if ltxCoverageHoleSample <? length ranges
            then names ++ ["+" +:+ pretty (length ranges - ltxCoverageHoleSample) +:+ " more"] else names) ", "
  end.

Definition coverageLine (prefix : string) (c : ltxCoverage) : string :=
  prefix +:+ "files=" +:+ pretty (cv_files c) +:+ " window=" +:+ txidRange_String (cv_window c) +:+ " " +:+ floorText c +:+
  " holes=" +:+ pretty (length (cv_holes c)) +:+ " below_floor=" +:+ pretty (length (cv_retained c)).

Definition summary (o : ltxCoverageOutcome) : string :=
  if (cv_files (oc_first o) =? 0)%Z then "L0-L8 coverage unavailable"
  else
    let confirmed := sampleTXIDRanges (oc_confirmed o) in
    let unconfirmed := sampleTXIDRanges (cv_holes (oc_first o)) in
    let retained := sampleTXIDRanges (cv_retained (oc_first o)) in
    Join ([coverageLine "L0-L8 " (oc_first o)] ++
          (if oc_relisted o
           then [coverageLine "relist " (oc_second o) +:+ " confirmed=" +:+ pretty (length (oc_confirmed o))] else []) ++
          (if negb (confirmed =s "") then ["confirmed holes: " +:+ confirmed]
           else if negb (unconfirmed =s "") then ["unconfirmed holes: " +:+ unconfirmed] else []) ++
          (if negb (retained =s "") then ["below retention floor, not judged: " +:+ retained] else [])) "; ".

(** The fields of [VerificationResult] and of its single step that the check fills in. *)
Record coverageResult := mkCoverageResult {
  cr_StartedAt : time; cr_CompletedAt : time; cr_CheckType : string; cr_RestoreMode : string; cr_DurationMS : Z;
  cr_Status : string; cr_Passed : bool; cr_ErrorMessage : string; cr_Summary : string;
  cr_StepStatus : string; cr_StepError : string; cr_StepOutput : string;
  cr_Inconclusive : option FailureClassification
}.

Definition ltxCoverageResult (o : ltxCoverageOutcome) (startedAt completedAt : time) : coverageResult :=
  let mk := mkCoverageResult startedAt completedAt ltxCoverageCheckType ltxCoverageRestoreMode
              (Z.quot (time_Sub completedAt startedAt) Millisecond) in
  let inconclusive message signature :=
    mk "aborted" false message ("verification inconclusive: " +:+ message) "inconclusive" message (summary o)
      (Some (FailureClassification_zero <| fc_Stage := ltxCoverageStep |> <| fc_Signature := signature |>)) in
  if floorUnknown o
  then inconclusive ("ltx coverage check skipped: no L9 snapshot bounds retention: " +:+ holeError o)
         SignatureLTXCoverageFloorUnknown
  else if negb (oc_err o =s "")
  then inconclusive ("ltx coverage check skipped: replica level report incomplete: " +:+ oc_err o)
         SignatureReplicaLevelReportIncomplete
  else match oc_confirmed o with
       | _ :: _ => mk "failed" false (holeError o) "ltx coverage check failed" "error" (holeError o) (summary o) None
       | [] => mk "passed" true "" "ltx coverage check passed" "ok" "" (summary o) None
       end.

(** * What a hole is

    The reference: a transaction id between the smallest and the largest id of
    the L0-L8 files that none of them covers, and that is not below every L9
    snapshot's end (when there is any snapshot). *)

Definition inRange (t : Z) (r : txidRange) : Prop := (r_min r <= t <= r_max r)%Z.
Definition inRanges (t : Z) (l : list txidRange) : Prop := exists r, In r l /\ inRange t r.

Definition validRange (r : txidRange) : Prop := (0 <= r_min r <= r_max r /\ r_max r <= max_uint64)%Z.
Definition validCandidate (c : restorePlanCandidate) : Prop :=
  (0 <= cd_minTXID c <= max_uint64 /\ 0 <= cd_maxTXID c <= max_uint64)%Z.

Definition coveredBy (cs : list restorePlanCandidate) (t : Z) : Prop :=
  exists c, In c cs /\ coverageFile c = true /\ inRange t (candidateRange c).
Definition snapshot (c : restorePlanCandidate) : bool := (cd_level c =? ltxSnapshotLevel)%Z.

Definition judgedHole (cs : list restorePlanCandidate) (t : Z) : Prop :=
  (exists c, In c cs /\ coverageFile c = true /\ (cd_minTXID c <= t)%Z) /\
  (exists c, In c cs /\ coverageFile c = true /\ (t <= cd_maxTXID c)%Z) /\
  ~ coveredBy cs t /\
  ((forall c, In c cs -> snapshot c = false) \/ exists c, In c cs /\ snapshot c = true /\ (cd_maxTXID c <= t)%Z).

(** * The floor *)

Lemma floor_spec cs c :
  let c' := fold_left floorStep cs c in
  cv_holes c' = cv_holes c /\ cv_retained c' = cv_retained c /\
  (cv_floorKnown c' = cv_floorKnown c || existsb snapshot cs) /\
  (forall t, (cv_floorKnown c' = true /\ cv_floor c' <= t)%Z <->
     (cv_floorKnown c = true /\ cv_floor c <= t)%Z \/ exists x, In x cs /\ snapshot x = true /\ (cd_maxTXID x <= t)%Z).
Proof.
  revert c. induction cs as [|x cs IH]; intros c.
  - cbn. split_and!; try done; [by rewrite orb_false_r|]. intros t. split; [by left|]. by intros [?|(y & [] & _)].
  - cbv zeta. rewrite fold_left_cons. destruct (IH (floorStep c x)) as (Hh & Hr & Hk & Hf).
    assert (cv_holes (floorStep c x) = cv_holes c /\ cv_retained (floorStep c x) = cv_retained c /\
      cv_floorKnown (floorStep c x) = cv_floorKnown c || snapshot x /\
      forall t, (cv_floorKnown (floorStep c x) = true /\ cv_floor (floorStep c x) <= t)%Z <->
        (cv_floorKnown c = true /\ cv_floor c <= t)%Z \/ (snapshot x = true /\ cd_maxTXID x <= t)%Z) as (E1 & E2 & E3 & E4).
    { unfold floorStep, snapshot. destruct (cd_level x =? ltxSnapshotLevel)%Z; cbn [andb].
      - destruct (cv_floorKnown c) eqn:Ek; cbn [negb orb].
        + destruct (Z.ltb_spec (cd_maxTXID x) (cv_floor c)); simpl; rewrite ?Ek; split_and!; try done;
            intros t; intuition lia.
        + simpl. split_and!; try done. intros t. intuition (discriminate || lia).
      - rewrite orb_false_r. split_and!; try done. intros t. intuition discriminate. }
    rewrite Hh, Hr, E1, E2. split_and!; try done; [rewrite Hk, E3; cbn [existsb]; by rewrite orb_assoc|].
    intros t. rewrite (Hf t), (E4 t). split.
    + intros [[?|?]|(y & ? & ?)]; [by left|right; exists x; split; [by left|done]|right; exists y; split; [by right|done]].
    + intros [?|(y & [->|?] & ?)]; [by left; left|by left; right|right; eauto].
Qed.

(** * The sweep *)

Definition gap (c : ltxCoverage) (t : Z) : Prop := inRanges t (cv_holes c) \/ inRanges t (cv_retained c).

Definition sortedRanges (l : list txidRange) : Prop :=
  StronglySorted (fun a b => r_max a < r_min b)%Z l /\ Forall (fun r => r_min r <= r_max r)%Z l.

(** The holes found so far are sorted, at or above a known floor and below the
    position; the retained ones are below the floor. *)
Record sweepInv (c : ltxCoverage) (coveredTo : Z) : Prop := {
  sw_sorted : sortedRanges (cv_holes c);
  sw_below : Forall (fun r => r_max r <= coveredTo)%Z (cv_holes c);
  sw_retained_below : Forall (fun r => r_max r <= coveredTo)%Z (cv_retained c);
  sw_floor : forall t, inRanges t (cv_holes c) -> cv_floorKnown c = true -> (cv_floor c <= t)%Z;
  sw_retained : forall t, inRanges t (cv_retained c) -> cv_floorKnown c = true /\ (t < cv_floor c)%Z
}.

Lemma inRanges_app t a b : inRanges t (a ++ b) <-> inRanges t a \/ inRanges t b.
Proof.
  unfold inRanges. split.
  - intros (r & [?|?]%in_app_or & ?); eauto.
  - intros [(r & ? & ?)|(r & ? & ?)]; exists r; (split; [apply in_or_app; auto|done]).
Qed.

Lemma inRanges_one t r : inRanges t [r] <-> inRange t r.
Proof. unfold inRanges. split; [intros (x & [->|[]] & ?); done|]. intros ?. exists r. split; [by left|done]. Qed.

Lemma sortedRanges_snoc l r :
  sortedRanges l -> (r_min r <= r_max r)%Z -> Forall (fun x => r_max x < r_min r)%Z l -> sortedRanges (l ++ [r]).
Proof.
  intros [Hs Hv] Hr Hl. split; [|apply Forall_app; auto].
  clear Hv. induction Hs as [|a l Hs IH Ha]; simpl; [repeat constructor|].
  inversion Hl; subst. constructor; [auto|]. apply Forall_app. auto.
Qed.

Lemma Forall_snoc {A} (P : A -> Prop) l x : Forall P l -> P x -> Forall P (l ++ [x]).
Proof. intros. apply Forall_app. auto. Qed.

Lemma addHole_spec c coveredTo hole :
  sweepInv c coveredTo -> (coveredTo < r_min hole <= r_max hole)%Z -> (0 <= cv_floor c <= max_uint64)%Z ->
  (0 <= coveredTo)%Z ->
  let c' := addHole c hole in
  sweepInv c' (r_max hole) /\ (forall t, gap c' t <-> gap c t \/ inRange t hole) /\
  cv_floor c' = cv_floor c /\ cv_floorKnown c' = cv_floorKnown c.
Proof.
  intros [Hs Hb Hrb Hf Hr] Hh Hfl Hc. unfold addHole, gap.
  assert (Forall (fun x => r_max x <= r_max hole)%Z (cv_holes c)) by (eapply Forall_impl; [exact Hb|]; simpl; lia).
  assert (Forall (fun x => r_max x <= r_max hole)%Z (cv_retained c)) by (eapply Forall_impl; [exact Hrb|]; simpl; lia).
  assert (Forall (fun x => r_max x < r_min hole)%Z (cv_holes c)) by (eapply Forall_impl; [exact Hb|]; simpl; lia).
  destruct (negb (cv_floorKnown c) || (cv_floor c <=? r_min hole)%Z) eqn:E1; [|destruct (Z.ltb_spec (r_max hole) (cv_floor c))].
  - split_and!; try done.
    + constructor; simpl; try done; [apply sortedRanges_snoc; done || lia|apply Forall_snoc; done || lia|].
      intros t [?|Ht%inRanges_one]%inRanges_app Hk; [auto|]. rewrite Hk in E1. simpl in E1. apply Z.leb_le in E1.
      unfold inRange in Ht. lia.
    + intros t. simpl. rewrite inRanges_app, inRanges_one. tauto.
  - apply orb_false_iff in E1 as [Ek%negb_false_iff _]. split_and!; try done.
    + constructor; simpl; try done; [apply Forall_snoc; done || lia|].
      intros t [?|Ht%inRanges_one]%inRanges_app; [auto|]. unfold inRange in Ht. split; [done|lia].
    + intros t. simpl. rewrite inRanges_app, inRanges_one. tauto.
  - apply orb_false_iff in E1 as [Ek%negb_false_iff E1%Z.leb_gt].
    autorewrite with machine. split_and!; try done.
    + constructor; simpl.
      * apply sortedRanges_snoc; simpl; [done|lia|]. eapply Forall_impl; [exact Hb|]. simpl. lia.
      * apply Forall_snoc; simpl; done || lia.
      * apply Forall_snoc; simpl; done || lia.
      * intros t [?|Ht%inRanges_one]%inRanges_app Hk; [auto|]. unfold inRange in Ht. simpl in Ht. lia.
      * intros t [?|Ht%inRanges_one]%inRanges_app; [auto|]. unfold inRange in Ht. simpl in Ht. split; [done|lia].
    + intros t. simpl. rewrite !inRanges_app, !inRanges_one. unfold inRange. simpl.
      split; [intros [[?|?]|[?|?]]; auto; right; lia|].
      intros [[?|?]|?]; auto. destruct (Z.le_gt_cases (cv_floor c) t); [left; right; lia|right; right; lia].
Qed.

Lemma sweepInv_weaken c a b : sweepInv c a -> (a <= b)%Z -> sweepInv c b.
Proof.
  intros [] Hab. constructor; try done; eapply Forall_impl; try eassumption; simpl; lia.
Qed.

Lemma sweep_spec ranges c coveredTo :
  Forall validRange ranges -> StronglySorted min_le ranges -> sweepInv c coveredTo ->
  (0 <= cv_floor c <= max_uint64)%Z -> (0 <= coveredTo <= max_uint64)%Z ->
  let '(c', e) := sweep c coveredTo ranges in
  sweepInv c' e /\ cv_floor c' = cv_floor c /\ cv_floorKnown c' = cv_floorKnown c /\
  (forall t, gap c' t <->
     gap c t \/ (coveredTo < t)%Z /\ (exists r, In r ranges /\ (t <= r_max r)%Z) /\ ~ inRanges t ranges).
Proof.
  revert c coveredTo. induction ranges as [|next rest IH]; intros c coveredTo Hv Hs Hi Hfl Hct; cbn [sweep].
  { split_and!; try done. intros t. split; [by left|]. intros [?|(_ & (r & [] & _) & _)]. done. }
  inversion Hv as [|? ? [Hn Hnm] Hv']; subst. inversion Hs as [|? ? Hs' Hle]; subst.
  destruct (Z.eqb_spec coveredTo max_uint64) as [->|Hne].
  { split_and!; try done. intros t. split; [by left|]. intros [?|(Ht & (r & Hr & Htr) & _)]; [done|].
    rewrite Forall_forall in Hv. apply list_elem_of_In in Hr. destruct (Hv r Hr). lia. }
  autorewrite with machine.
  set (c1 := if (coveredTo + 1 <? r_min next)%Z then _ else c).
  assert (sweepInv c1 (Z.max coveredTo (r_max next)) /\ cv_floor c1 = cv_floor c /\ cv_floorKnown c1 = cv_floorKnown c /\
    forall t, gap c1 t <-> gap c t \/ (coveredTo < t < r_min next)%Z) as (Hi1 & Hf1 & Hk1 & Hg1).
  { unfold c1. destruct (Z.ltb_spec (coveredTo + 1) (r_min next)).
    - autorewrite with machine.
      destruct (addHole_spec c coveredTo (mkRange (coveredTo + 1) (r_min next - 1))) as (? & Hg & ? & ?);
        simpl; try done || lia.
      split_and!; try done; [eapply sweepInv_weaken; [done|simpl; lia]|].
      intros t. rewrite (Hg t). unfold inRange. simpl. intuition lia.
    - split_and!; try done; [eapply sweepInv_weaken; [done|lia]|]. intros t. intuition lia. }
  clearbody c1. specialize (IH c1 (Z.max coveredTo (r_max next)) Hv' Hs' Hi1 ltac:(lia) ltac:(lia)).
  destruct (sweep c1 _ rest) as [c' e]. destruct IH as (Hi' & Hf' & Hk' & Hg').
  split_and!; try done || congruence.
  intros t. rewrite (Hg' t), (Hg1 t). clear - Hle Hn. rewrite Forall_forall in Hle. split.
  - intros [[?|?]|(? & (r & ? & ?) & Hno)]; [by left|right..].
    + split; [lia|]. split; [exists next; split; [by left|lia]|].
      intros (r & [<-|Hr] & Hin); unfold inRange in Hin; [lia|].
      apply list_elem_of_In, Hle in Hr. unfold min_le in Hr. lia.
    + split; [lia|]. split; [exists r; split; [by right|done]|].
      intros (r' & [<-|Hr] & Hin); [unfold inRange in Hin; lia|]. apply Hno. by exists r'.
  - intros [?|(Ht & (r & Hr & Htr) & Hno)]; [by left; left|].
    destruct (Z.lt_ge_cases t (r_min next)); [left; right; lia|right].
    assert (r_max next < t)%Z.
    { destruct (Z.lt_ge_cases (r_max next) t); [done|]. destruct Hno. exists next. split; [by left|]. unfold inRange. lia. }
    split; [lia|]. split.
    + exists r. split; [|done]. destruct Hr as [->|]; [lia|done].
    + intros (r' & Hr' & ?). apply Hno. exists r'. split; [by right|done].
Qed.

(** * The coverage of one listing *)

Lemma floor_range cs c :
  Forall validCandidate cs -> (0 <= cv_floor c <= max_uint64)%Z ->
  (0 <= cv_floor (fold_left floorStep cs c) <= max_uint64)%Z.
Proof.
  intros Hv. revert c. induction Hv as [|x cs Hx _ IH]; intros c Hc; [done|].
  rewrite fold_left_cons. apply IH. unfold floorStep. destruct (_ && _); simpl; [apply Hx|done].
Qed.

Lemma candidate_ranges_valid cs :
  Forall validCandidate cs -> Forall validRange (map candidateRange (List.filter coverageFile cs)).
Proof.
  intros Hv. apply Forall_forall. intros r Hr%list_elem_of_In%in_map_iff. destruct Hr as (c & <- & [Hc Hf]%filter_In).
  rewrite Forall_forall in Hv. apply list_elem_of_In, Hv in Hc. unfold coverageFile in Hf.
  rewrite negb_true_iff, !orb_false_iff in Hf. destruct Hf as [_ Hf%Z.ltb_ge]. unfold validCandidate in Hc.
  unfold validRange. simpl. lia.
Qed.

Lemma in_candidate_ranges (P : txidRange -> Prop) cs :
  (exists r, In r (map candidateRange (List.filter coverageFile cs)) /\ P r) <->
  (exists c, In c cs /\ coverageFile c = true /\ P (candidateRange c)).
Proof.
  split.
  - intros (r & (c & <- & [? ?]%filter_In)%in_map_iff & ?). eauto.
  - intros (c & ? & ? & ?). exists (candidateRange c). split; [|done]. apply in_map, filter_In. done.
Qed.

Lemma sorted_first l first rest :
  merge_sort min_le l = first :: rest ->
  StronglySorted min_le rest /\ (forall r, In r l <-> r = first \/ In r rest) /\ (forall r, In r rest -> min_le first r).
Proof.
  intros E. pose proof (StronglySorted_merge_sort min_le l) as Hs. pose proof (merge_sort_Permutation min_le l) as Hp.
  rewrite E in Hs, Hp. inversion Hs as [|? ? Hs' Hf]; subst. split_and!; [done| |].
  - intros r. split; [intros Hr; apply (Permutation_in _ (Permutation_sym Hp)) in Hr as [->|?]; auto|].
    intros [->|?]; apply (Permutation_in _ Hp); [by left|by right].
  - rewrite Forall_forall in Hf. intros r Hr%list_elem_of_In. auto.
Qed.

(** What the sweep after the first range calls a gap: inside the window, in no range. *)
Lemma gap_window ranges first rest t :
  (r_min first <= r_max first)%Z -> (forall r, In r ranges <-> r = first \/ In r rest) ->
  (forall r, In r rest -> min_le first r) ->
  ((r_max first < t)%Z /\ (exists r, In r rest /\ (t <= r_max r)%Z) /\ ~ inRanges t rest) <->
  ((exists r, In r ranges /\ (r_min r <= t)%Z) /\ (exists r, In r ranges /\ (t <= r_max r)%Z) /\ ~ inRanges t ranges).
Proof.
  intros Hf1 Hin Hle. split.
  - intros (? & (r & ? & ?) & Hno).
    split; [exists first; split; [apply Hin; auto|lia]|]. split; [exists r; split; [apply Hin; auto|done]|].
    intros (r' & [->|?]%Hin & Ht); [unfold inRange in Ht; lia|]. apply Hno. by exists r'.
  - intros ((r & Hr & ?) & (r' & Hr' & ?) & Hno).
    assert (r_min first <= t)%Z by (apply Hin in Hr as [->|Hr]; [done|]; apply Hle in Hr; unfold min_le in Hr; lia).
    assert (r_max first < t)%Z.
    { destruct (Z.lt_ge_cases (r_max first) t); [done|]. destruct Hno. exists first. split; [apply Hin; auto|].
      unfold inRange. lia. }
    split; [done|]. split; [exists r'; split; [apply Hin in Hr' as [->|?]; [lia|done]|done]|].
    intros (q & ? & ?). apply Hno. exists q. split; [apply Hin; auto|done].
Qed.

Lemma floor_bound cs t :
  let c0 := fold_left floorStep cs coverage_zero in
  (cv_floorKnown c0 = true -> (cv_floor c0 <= t)%Z) <->
  (forall c, In c cs -> snapshot c = false) \/ (exists c, In c cs /\ snapshot c = true /\ (cd_maxTXID c <= t)%Z).
Proof.
  cbv zeta. destruct (floor_spec cs coverage_zero) as (_ & _ & Hk & Hf). specialize (Hf t).
  change (cv_floorKnown coverage_zero) with false in *. cbn [orb] in Hk. rewrite Hk in *. destruct (existsb snapshot cs) eqn:Es.
  - split.
    + intros Hle. right. destruct Hf as [Hf _]. destruct Hf as [[? _]|?]; [auto|done|done].
    + intros [Hno|Hx] _; [|apply Hf; auto]. apply existsb_exists in Es as (x & Hx & Es). by rewrite (Hno x Hx) in Es.
  - split; [intros _; left|intros _; done]. intros c Hc. destruct (snapshot c) eqn:Ec; [|done].
    assert (existsb snapshot cs = true) by (apply existsb_exists; eauto). congruence.
Qed.

Lemma holes_of_gap c e t :
  sweepInv c e -> (inRanges t (cv_holes c) <-> gap c t /\ (cv_floorKnown c = true -> (cv_floor c <= t)%Z)).
Proof.
  intros [_ _ _ Hfo Hre]. split; [intros H; split; [by left|by apply Hfo]|].
  intros [[?|Hr] Hb]; [done|]. destruct (Hre t Hr) as [Hk ?]. specialize (Hb Hk). lia.
Qed.

(** The holes are sorted and disjoint, and hold exactly the uncovered ids that are judged. *)
Lemma coverage_spec cs :
  Forall validCandidate cs ->
  sortedRanges (cv_holes (computeLTXCoverage cs)) /\
  cv_floorKnown (computeLTXCoverage cs) = existsb snapshot cs /\
  forall t, inRanges t (cv_holes (computeLTXCoverage cs)) <-> judgedHole cs t.
Proof.
  intros Hv. unfold computeLTXCoverage. destruct (floor_spec cs coverage_zero) as (Hh & Hr & Hk & _).
  pose proof (floor_range cs coverage_zero Hv ltac:(split; by vm_compute)) as Hfl.
  pose proof (candidate_ranges_valid cs Hv) as Hrv. pose proof (floor_bound cs) as Hb.
  set (c0 := fold_left floorStep cs coverage_zero) in *. cbn [cv_holes cv_retained cv_floorKnown coverage_zero orb] in Hh, Hr, Hk, Hb.
  set (ranges := map candidateRange (List.filter coverageFile cs)) in *.
  destruct (merge_sort min_le ranges) as [|first rest] eqn:E.
  - simpl. rewrite Hh. split_and!; [repeat constructor|done|]. intros t. split; [intros (? & [] & _)|].
    intros ((c & Hc) & _). assert (In (candidateRange c) ranges) as Hin.
    { apply in_map, filter_In. tauto. }
    apply (Permutation_in _ (Permutation_sym (merge_sort_Permutation min_le ranges))) in Hin. by rewrite E in Hin.
  - destruct (sorted_first _ _ _ E) as (Hsr & Hin & Hle). rewrite Forall_forall in Hrv.
    assert (forall r, In r ranges -> validRange r) as Hrv' by (intros; apply Hrv; by apply list_elem_of_In).
    destruct (Hrv' first) as [Hf1 Hf2]; [apply Hin; auto|].
    pose proof (sweep_spec rest (c0 <| cv_files := Z.of_nat (length ranges) |>) (r_max first)) as H.
    specialize (H ltac:(apply Forall_forall; intros r ?%list_elem_of_In; apply Hrv', Hin; auto) Hsr).
    assert (sweepInv (c0 <| cv_files := Z.of_nat (length ranges) |>) (r_max first)) as Hi.
    { constructor; simpl; rewrite ?Hh, ?Hr; try (repeat constructor; done); intros t (? & [] & _). }
    specialize (H Hi ltac:(exact Hfl) ltac:(lia)). clear Hi.
    destruct (sweep _ (r_max first) rest) as [c' e]. destruct H as (Hi & Hc1 & Hc2 & Hg). simpl in Hc1, Hc2.
    split_and!; [apply Hi|simpl; congruence|]. intros t. simpl.
    rewrite (holes_of_gap c' e t Hi), (Hg t), Hc1, Hc2, (Hb t), (gap_window ranges first rest t) by (done || lia).
    unfold judgedHole, coveredBy, gap. simpl. rewrite Hh, Hr.
    rewrite <- (in_candidate_ranges (fun r => (r_min r <= t)%Z)), <- (in_candidate_ranges (fun r => (t <= r_max r)%Z)),
      <- (in_candidate_ranges (inRange t)). fold ranges. fold (inRanges t ranges).
    assert (~ inRanges t []) by (intros (? & [] & _)). tauto.
Qed.

(** * Two listings *)

Lemma intersect_cons x a y b :
  intersectTXIDRanges (x :: a) (y :: b) =
  (if (Z.max (r_min x) (r_min y) <=? Z.min (r_max x) (r_max y))%Z
   then [mkRange (Z.max (r_min x) (r_min y)) (Z.min (r_max x) (r_max y))] else []) ++
  (if (r_max x <? r_max y)%Z then intersectTXIDRanges a (y :: b) else intersectTXIDRanges (x :: a) b).
Proof. simpl. destruct (_ <=? _)%Z, (_ <? _)%Z; reflexivity. Qed.

Lemma inRanges_cons t x l : inRanges t (x :: l) <-> inRange t x \/ inRanges t l.
Proof. change (x :: l) with ([x] ++ l). by rewrite inRanges_app, inRanges_one. Qed.

Lemma sortedRanges_after t x l : sortedRanges (x :: l) -> inRanges t l -> (r_max x < t)%Z.
Proof.
  intros [Hs _] (r & Hr%list_elem_of_In & Ht). inversion Hs as [|? ? _ Hf]; subst. rewrite Forall_forall in Hf.
  apply Hf in Hr. unfold inRange in Ht. lia.
Qed.

Lemma sortedRanges_tail x l : sortedRanges (x :: l) -> sortedRanges l.
Proof. intros [Hs Hv]. inversion Hs; inversion Hv; subst. by split. Qed.

Lemma overlap_spec t x y :
  inRanges t (if (Z.max (r_min x) (r_min y) <=? Z.min (r_max x) (r_max y))%Z
   then [mkRange (Z.max (r_min x) (r_min y)) (Z.min (r_max x) (r_max y))] else []) <-> inRange t x /\ inRange t y.
Proof.
  unfold inRange. destruct (Z.leb_spec (Z.max (r_min x) (r_min y)) (Z.min (r_max x) (r_max y))).
  - rewrite inRanges_one. unfold inRange. simpl. lia.
  - split; [intros (? & [] & _)|lia].
Qed.

Lemma intersect_spec a b t :
  sortedRanges a -> sortedRanges b ->
  (inRanges t (intersectTXIDRanges a b) <-> inRanges t a /\ inRanges t b).
Proof.
  assert (~ inRanges t []) as Hnil by (intros (? & [] & _)).
  intros Ha. revert b. induction a as [|x a IHa]; [simpl; tauto|]. intros b Hb.
  induction b as [|y b IHb]; [simpl; tauto|]. rewrite intersect_cons, inRanges_app, overlap_spec.
  destruct (Z.ltb_spec (r_max x) (r_max y)) as [H|H].
  - rewrite IHa by eauto using sortedRanges_tail. rewrite (inRanges_cons t x a).
    assert (inRange t x -> inRanges t b -> False).
    { intros Hx Hin. pose proof (sortedRanges_after _ _ _ Hb Hin). unfold inRange in Hx. lia. }
    rewrite inRanges_cons. tauto.
  - rewrite IHb by eauto using sortedRanges_tail. rewrite (inRanges_cons t y b).
    assert (inRange t y -> inRanges t a -> False).
    { intros Hy Hin. pose proof (sortedRanges_after _ _ _ Ha Hin). unfold inRange in Hy. lia. }
    rewrite inRanges_cons. tauto.
Qed.

Lemma intersect_nonempty a b : Forall (fun r => r_min r <= r_max r)%Z (intersectTXIDRanges a b).
Proof.
  revert b. induction a as [|x a IHa]; [constructor|]. induction b as [|y b IHb]; [constructor|].
  rewrite intersect_cons. apply Forall_app. split.
  - destruct (Z.leb_spec (Z.max (r_min x) (r_min y)) (Z.min (r_max x) (r_max y))); repeat constructor. simpl. lia.
  - destruct (_ <? _)%Z; auto.
Qed.

Definition usable (l : replicaLTXListing) : Prop := ltxListingProblem l = "" /\ Forall validCandidate (ls_candidates l).
Definition hasSnapshot (l : replicaLTXListing) : bool := existsb snapshot (ls_candidates l).

Lemma empty_iff_no_id l : Forall (fun r => r_min r <= r_max r)%Z l -> (l = [] <-> forall t, ~ inRanges t l).
Proof.
  intros Hv. split; [intros -> t (? & [] & _)|]. intros Hno. destruct l as [|r l]; [done|]. destruct (Hno (r_min r)).
  exists r. split; [by left|]. inversion Hv; subst. unfold inRange. lia.
Qed.

(** The outcome of a check whose first listing is usable. *)
Lemma check_outcome l1 l2 :
  usable l1 ->
  let o := runLTXCoverageCheck l1 l2 in
  (forall t, ~ judgedHole (ls_candidates l1) t) /\ oc_confirmed o = [] /\ oc_err o = "" \/
  (exists t, judgedHole (ls_candidates l1) t) /\
    (ltxListingProblem l2 <> "" /\ oc_confirmed o = [] /\ oc_err o <> "" \/
     ltxListingProblem l2 = "" /\ oc_err o = "" /\ oc_first o = computeLTXCoverage (ls_candidates l1) /\
     oc_second o = computeLTXCoverage (ls_candidates l2) /\
     oc_confirmed o = intersectTXIDRanges (cv_holes (oc_first o)) (cv_holes (oc_second o))).
Proof.
  intros [Hp1 Hv1]. unfold runLTXCoverageCheck. rewrite Hp1. cbn [negb String.eqb].
  destruct (coverage_spec _ Hv1) as ([_ Hs] & _ & Hh).
  destruct (cv_holes (computeLTXCoverage (ls_candidates l1))) as [|h hs] eqn:E.
  - left. split; [|done]. intros t Ht%Hh. by destruct Ht as (? & [] & _).
  - right. split.
    { inversion Hs; subst. exists (r_min h).
      apply Hh. exists h. split; [by left|]. unfold inRange. lia. }
    destruct (String.eqb_spec (ltxListingProblem l2) ""); cbn [negb]; [right|left]; simpl; rewrite ?E; split_and!; done.
Qed.

Lemma status_cases o s e :
  cr_Status (ltxCoverageResult o s e) =
  if floorUnknown o || negb (oc_err o =s "") then "aborted"
  else match oc_confirmed o with _ :: _ => "failed" | [] => "passed" end.
Proof. unfold ltxCoverageResult. destruct (floorUnknown o), (oc_err o =s ""); try done. by destruct (oc_confirmed o). Qed.

Lemma unusable_first_aborts l1 l2 s e :
  ltxListingProblem l1 <> "" -> cr_Status (ltxCoverageResult (runLTXCoverageCheck l1 l2) s e) = "aborted".
Proof. intros H. rewrite status_cases. unfold runLTXCoverageCheck. apply String.eqb_neq in H. by rewrite H. Qed.

Lemma confirmed_spec l1 l2 t :
  Forall validCandidate (ls_candidates l1) -> Forall validCandidate (ls_candidates l2) ->
  (inRanges t (intersectTXIDRanges (cv_holes (computeLTXCoverage (ls_candidates l1)))
                (cv_holes (computeLTXCoverage (ls_candidates l2)))) <->
   judgedHole (ls_candidates l1) t /\ judgedHole (ls_candidates l2) t).
Proof.
  intros (Hs1 & _ & H1)%coverage_spec (Hs2 & _ & H2)%coverage_spec. by rewrite intersect_spec, H1, H2.
Qed.

(** The status of a check whose first listing is usable and shows a hole, and whose relisting can be read. *)
Lemma relisted_status l1 l2 s e :
  usable l1 -> usable l2 -> (exists t, judgedHole (ls_candidates l1) t) ->
  (cr_Status (ltxCoverageResult (runLTXCoverageCheck l1 l2) s e) = "passed" /\
     forall t, ~ (judgedHole (ls_candidates l1) t /\ judgedHole (ls_candidates l2) t)) \/
  (cr_Status (ltxCoverageResult (runLTXCoverageCheck l1 l2) s e) =
     (if hasSnapshot l1 && hasSnapshot l2 then "failed" else "aborted") /\
     exists t, judgedHole (ls_candidates l1) t /\ judgedHole (ls_candidates l2) t).
Proof.
  intros U1 [Hp2 Hv2] Hex. pose proof (proj2 U1) as Hv1.
  destruct (check_outcome l1 l2 U1) as [(Hno & _)|(_ & [(? & _)|(_ & He & H1 & H2 & Hc)])];
    [destruct Hex as [t Ht]; by destruct (Hno t)|done|].
  rewrite status_cases, He. unfold floorUnknown. rewrite Hc, H1, H2.
  destruct (coverage_spec _ Hv1) as (_ & -> & _), (coverage_spec _ Hv2) as (_ & -> & _).
  pose proof (fun t => confirmed_spec l1 l2 t Hv1 Hv2) as Hi. clear He H1 H2 Hc.
  set (inter := intersectTXIDRanges (cv_holes (computeLTXCoverage (ls_candidates l1)))
                  (cv_holes (computeLTXCoverage (ls_candidates l2)))) in *.
  assert (Forall (fun r => r_min r <= r_max r)%Z inter) as Hn by apply intersect_nonempty. clearbody inter.
  destruct inter as [|r rs]; [left|right].
  - split; [done|]. intros t Ht%Hi. by destruct Ht as (? & [] & _).
  - split; [unfold hasSnapshot; by destruct (existsb snapshot (ls_candidates l1)), (existsb snapshot (ls_candidates l2))|].
    exists (r_min r). apply Hi. exists r. split; [by left|]. inversion Hn; subst. unfold inRange. lia.
Qed.

Lemma unusable_relisting_aborts l1 l2 s e :
  usable l1 -> ltxListingProblem l2 <> "" -> (exists t, judgedHole (ls_candidates l1) t) ->
  cr_Status (ltxCoverageResult (runLTXCoverageCheck l1 l2) s e) = "aborted".
Proof.
  intros U1 Hp Hex.
  destruct (check_outcome l1 l2 U1) as [(Hno & _)|(_ & [(_ & Hc & He)|(? & _)])];
    [destruct Hex as [t Ht]; by destruct (Hno t)| |done].
  rewrite status_cases. apply String.eqb_neq in He. rewrite He. by destruct (floorUnknown _).
Qed.

Lemma clean_first_passes l1 l2 s e :
  usable l1 -> (forall t, ~ judgedHole (ls_candidates l1) t) ->
  cr_Status (ltxCoverageResult (runLTXCoverageCheck l1 l2) s e) = "passed".
Proof.
  intros U1 Hno. destruct (check_outcome l1 l2 U1) as [(_ & Hc & He)|([t Ht] & _)]; [|by destruct (Hno t)].
  rewrite status_cases. unfold floorUnknown. by rewrite Hc, He.
Qed.

Lemma judged_hole_dec cs : Forall validCandidate cs -> (exists t, judgedHole cs t) \/ forall t, ~ judgedHole cs t.
Proof.
  intros (Hs & _ & Hh)%coverage_spec. destruct Hs as [_ Hv].
  destruct (cv_holes (computeLTXCoverage cs)) as [|r l]; [right|left].
  - intros t Ht%Hh. by destruct Ht as (? & [] & _).
  - exists (r_min r). apply Hh. exists r. split; [by left|]. inversion Hv; subst. unfold inRange. lia.
Qed.

(** * The verdict of the check *)

(** C32: the coverage check fails a replica exactly when two readable listings
    both list an L9 snapshot and both miss one and the same transaction id: an
    id inside the L0-L8 window that no L0-L8 file covers and that is not below
    every snapshot. *)
Theorem coverage_failed_iff l1 l2 s e :
  Forall validCandidate (ls_candidates l1) -> Forall validCandidate (ls_candidates l2) ->
  cr_Status (ltxCoverageResult (runLTXCoverageCheck l1 l2) s e) = "failed" <->
  ltxListingProblem l1 = "" /\ ltxListingProblem l2 = "" /\ hasSnapshot l1 = true /\ hasSnapshot l2 = true /\
  exists t, judgedHole (ls_candidates l1) t /\ judgedHole (ls_candidates l2) t.
Proof.
  intros Hv1 Hv2. destruct (String.eqb_spec (ltxListingProblem l1) "") as [Hp1|Hp1];
    [|rewrite unusable_first_aborts by done; by intuition].
  destruct (judged_hole_dec _ Hv1) as [Hex|Hno];
    [|rewrite clean_first_passes by (done || by split); split; [done|]; intros (_ & _ & _ & _ & t & Ht & _); by destruct (Hno t)].
  destruct (String.eqb_spec (ltxListingProblem l2) "") as [Hp2|Hp2];
    [|rewrite unusable_relisting_aborts by (done || by split); by intuition].
  destruct (relisted_status l1 l2 s e) as [[-> Hn]|[-> Hx]]; try done; try by split.
  - split; [done|]. intros (_ & _ & _ & _ & t & Ht). by destruct (Hn t).
  - destruct (hasSnapshot l1), (hasSnapshot l2); cbn [andb]; intuition discriminate.
Qed.

(** The check passes exactly when the first listing is readable and every
    id it misses is present in a readable second one. *)
Theorem coverage_passed_iff l1 l2 s e :
  Forall validCandidate (ls_candidates l1) -> Forall validCandidate (ls_candidates l2) ->
  cr_Passed (ltxCoverageResult (runLTXCoverageCheck l1 l2) s e) = true <->
  ltxListingProblem l1 = "" /\
  ((forall t, ~ judgedHole (ls_candidates l1) t) \/
   ltxListingProblem l2 = "" /\ forall t, ~ (judgedHole (ls_candidates l1) t /\ judgedHole (ls_candidates l2) t)).
Proof.
  intros Hv1 Hv2. assert (forall o, cr_Passed (ltxCoverageResult o s e) = true <-> cr_Status (ltxCoverageResult o s e) = "passed") as ->.
  { intros o. unfold ltxCoverageResult. destruct (floorUnknown o), (oc_err o =s ""), (oc_confirmed o); done. }
  destruct (String.eqb_spec (ltxListingProblem l1) "") as [Hp1|Hp1];
    [|rewrite unusable_first_aborts by done; by intuition].
  destruct (judged_hole_dec _ Hv1) as [Hex|Hno]; [|rewrite clean_first_passes by (done || by split); tauto].
  assert (~ forall t, ~ judgedHole (ls_candidates l1) t) by (intros Hno; destruct Hex as [t Ht]; by destruct (Hno t)).
  destruct (String.eqb_spec (ltxListingProblem l2) "") as [Hp2|Hp2];
    [|rewrite unusable_relisting_aborts by (done || by split); by intuition].
  destruct (relisted_status l1 l2 s e) as [[-> Hn]|[-> [t Ht]]]; try done; try by split.
  - tauto.
  - destruct (hasSnapshot l1 && hasSnapshot l2);
    (split; [discriminate|intros (_ & [?|[_ Hn]]); [contradiction|by destruct (Hn t)]]).
Qed.

(** A replica whose L1 file 5-6 is gone while an L9 snapshot ends at 4: the id 5 is missed by both listings. *)
Definition holed_listing : replicaLTXListing :=
  mkListing [mkCandidate 9 1 4 10 ""; mkCandidate 1 1 4 10 ""; mkCandidate 0 7 7 10 ""] "" true "".
Definition healed_listing : replicaLTXListing :=
  mkListing [mkCandidate 9 1 4 10 ""; mkCandidate 1 1 7 10 ""; mkCandidate 0 7 7 10 ""] "" true "".

Lemma holed_valid : Forall validCandidate (ls_candidates holed_listing).
Proof. repeat constructor; by vm_compute. Qed.
Lemma healed_valid : Forall validCandidate (ls_candidates healed_listing).
Proof. repeat constructor; by vm_compute. Qed.

Lemma coverage_failed_iff_witness :
  exists t, judgedHole (ls_candidates holed_listing) t /\ judgedHole (ls_candidates holed_listing) t.
Proof.
  refine (proj2 (proj2 (proj2 (proj2 (proj1 (coverage_failed_iff holed_listing holed_listing 0%Z 0%Z holed_valid holed_valid) _))))).
  vm_compute. reflexivity.
Defined.

Lemma coverage_passed_iff_witness :
  ltxListingProblem holed_listing = "" /\
  ((forall t, ~ judgedHole (ls_candidates holed_listing) t) \/
   ltxListingProblem healed_listing = "" /\
   forall t, ~ (judgedHole (ls_candidates holed_listing) t /\ judgedHole (ls_candidates healed_listing) t)).
Proof.
  refine (proj1 (coverage_passed_iff holed_listing healed_listing 0%Z 0%Z holed_valid healed_valid) _).
  vm_compute. reflexivity.
Defined.

(** * File names *)

Lemma hex_digit_cases d : (0 <= d < 16)%Z -> hex_val (hex_digit d) = Some d /\ Ascii.eqb (hex_digit d) "-" = false.
Proof.
  intros Hd. assert (exists n, (n < 16)%nat /\ d = Z.of_nat n) as (n & Hn & ->) by (exists (Z.to_nat d); lia).
  do 16 (destruct n as [|n]; [by vm_compute|]). lia.
Qed.

Lemma parse_hex_app acc a b :
  parse_hex acc (a +:+ b) = match parse_hex acc a with Some v => parse_hex v b | None => None end.
Proof.
  revert acc. induction a as [|c a IH]; intros acc; [done|]. rewrite append_cons. simpl.
  destruct (hex_val c); [apply IH|done].
Qed.

Lemma hex_digits_spec n z :
  (0 <= z < 16 ^ Z.of_nat n)%Z ->
  parse_hex 0 (hex_digits n z) = Some z /\ String.length (hex_digits n z) = n /\ char_in_str "-" (hex_digits n z) = false.
Proof.
  revert z. induction n as [|n IH]; intros z Hz.
  - simpl in *. split_and!; try done. f_equal. lia.
  - rewrite Nat2Z.inj_succ, Z.pow_succ_r in Hz by lia. cbn [hex_digits].
    destruct (IH (z / 16)%Z) as (Hp & Hl & Hc); [split; [apply Z.div_pos|apply Z.div_lt_upper_bound]; lia|].
    destruct (hex_digit_cases (z mod 16)) as (Hv & Hd); [apply Z.mod_pos_bound; lia|].
    rewrite parse_hex_app, Hp, length_append, Hl, char_in_str_app, Hc. cbn [parse_hex char_in_str String.length orb].
    rewrite Hv, Hd. split_and!; [|lia|done]. f_equal. pose proof (Z.div_mod z 16). lia.
Qed.

(** The name litestream gives an LTX file (the two ids in sixteen hex digits)
    is read back to its two ids, for every pair of 64-bit ids. *)
Theorem ltx_filename_roundtrip a b :
  (0 <= a <= max_uint64)%Z -> (0 <= b <= max_uint64)%Z ->
  parseLTXFilename (hex16 a +:+ "-" +:+ hex16 b +:+ ".ltx") = Some (a, b).
Proof.
  intros Ha Hb. unfold parseLTXFilename, hex16.
  destruct (hex_digits_spec 16 a) as (Ha1 & Ha2 & Ha3); [unfold max_uint64 in Ha; lia|].
  destruct (hex_digits_spec 16 b) as (Hb1 & Hb2 & Hb3); [unfold max_uint64 in Hb; lia|].
  rewrite <- (append_assoc "-"), <- append_assoc, CutSuffix_app.
  change ("-" +:+ hex_digits 16 b) with (String "-" (hex_digits 16 b)). cbn [negb].
  rewrite (Cut_app _ _ _ Ha3). unfold str_len. by rewrite Ha2, Hb2, Ha1, Hb1.
Qed.

Lemma ltx_filename_roundtrip_witness :
  parseLTXFilename (hex16 255 +:+ "-" +:+ hex16 max_uint64 +:+ ".ltx") = Some (255, max_uint64)%Z.
Proof. refine (ltx_filename_roundtrip 255 max_uint64 _ _); split; by vm_compute. Defined.
