(* ===== verification/WalFrames.v ===== *)
(** The SQLite WAL as the worker reads it: [internal/worker/wal_frames.go].

    A file is the list of its bytes, each a [Z] in [0, 256).  [ReadAt] gives
    the bytes asked for, or the end-of-file error when the file is shorter;
    other I/O errors are not modelled.  Words are [Z] in the range of
    [uint32], and the sums of the checksum wrap. *)
From stdpp Require Import sorting.
From S2P Require Import Prelude GoStrings LtxCoverage.

Definition walHeaderSize : Z := 32.
Definition walFrameHeaderSize : Z := 24.
Definition walMagicBigEndian : Z := 931071619. (* 0x377f0683 *)
Definition walMagicLittle : Z := 931071618.    (* 0x377f0682 *)
Definition ltxHeaderSize : Z := 100.

(** * Bytes *)

Definition zlen {A} (l : list A) : Z := Z.of_nat (length l).
(** [l[a:b]] for offsets within the length. *)
Definition slice {A} (a b : Z) (l : list A) : list A := firstn (Z.to_nat (b - a)) (skipn (Z.to_nat a) l).

(** [binary.BigEndian.Uint32] and its companions on the first bytes of a slice. *)
Definition beUint (n : nat) (b : list Z) : Z := fold_left (fun acc x => acc * 256 + x)%Z (firstn n b) 0%Z.
Definition beUint32 (b : list Z) : Z := beUint 4 b.
Definition beUint64 (b : list Z) : Z := beUint 8 b.
Definition leUint32 (b : list Z) : Z := fold_right (fun x acc => x + 256 * acc)%Z 0%Z (firstn 4 b).

(** * The header *)

Record walHeader := mkWalHeader {
  wh_magic : Z; wh_version : Z; wh_pageSize : Z; wh_checkpointSeq : Z; wh_salt1 : Z; wh_salt2 : Z; wh_valid : bool
}.
#[export] Instance walHeader_eta : Settable walHeader :=
  fun r => mkWalHeader (wh_magic r) (wh_version r) (wh_pageSize r) (wh_checkpointSeq r) (wh_salt1 r) (wh_salt2 r) (wh_valid r).
Definition walHeader_zero : walHeader := mkWalHeader 0 0 0 0 0 0 false.

Definition parseWALHeader (raw : list Z) : walHeader :=
  if (zlen raw <? walHeaderSize)%Z then walHeader_zero
  else
    let header := mkWalHeader (beUint32 (slice 0 4 raw)) (beUint32 (slice 4 8 raw)) (beUint32 (slice 8 12 raw))
                    (beUint32 (slice 12 16 raw)) (beUint32 (slice 16 20 raw)) (beUint32 (slice 20 24 raw)) false in
    header <| wh_valid := ((wh_magic header =? walMagicBigEndian)%Z || (wh_magic header =? walMagicLittle)%Z) &&
                          (wh_version header =? 3007000)%Z && (512 <=? wh_pageSize header)%Z |>.

(** * The checksum *)

Fixpoint walChecksum (bigEndian : bool) (s0 s1 : Z) (data : list Z) : Z * Z :=
  match data with
  | a :: b :: c :: d :: e :: f :: g :: h :: rest =>
      let '(x0, x1) := if bigEndian then (beUint32 [a; b; c; d], beUint32 [e; f; g; h])
                       else (leUint32 [a; b; c; d], leUint32 [e; f; g; h]) in
      let s0 := uint32 (s0 + uint32 (x0 + s1)) in
      let s1 := uint32 (s1 + uint32 (x1 + s0)) in
      walChecksum bigEndian s0 s1 rest
  | _ => (s0, s1)
  end.

(** * The generation *)

Record walGeneration := mkGeneration {
  wg_header : walHeader; wg_fileBytes : Z; wg_frameSize : Z; wg_frameSlots : Z;
  wg_committedFrames : Z; wg_writtenFrames : Z
}.
#[export] Instance walGeneration_eta : Settable walGeneration :=
  fun r => mkGeneration (wg_header r) (wg_fileBytes r) (wg_frameSize r) (wg_frameSlots r)
             (wg_committedFrames r) (wg_writtenFrames r).
Definition walGeneration_zero : walGeneration := mkGeneration walHeader_zero 0 0 0 0 0.

Definition generationEnd (g : walGeneration) : Z := (walHeaderSize + wg_committedFrames g * wg_frameSize g)%Z.
Definition writtenEnd (g : walGeneration) : Z := (walHeaderSize + wg_writtenFrames g * wg_frameSize g)%Z.

(** [file.ReadAt] of [n] bytes at [off]: the bytes read, and whether they are all there. *)
Definition ReadAt (file : list Z) (off n : Z) : list Z * bool :=
  (slice off (off + n) file, (off + n <=? zlen file)%Z).

(** The frame loop from slot [i] with [slots] left; the flag is the error of a short read. *)
Fixpoint walkFrames (r : list Z) (bigEndian : bool) (slots : nat) (i s0 s1 : Z) (generation : walGeneration)
  : walGeneration * bool :=
  match slots with
  | O => (generation, true)
  | S slots =>
      let '(frame, ok) := ReadAt r (walHeaderSize + i * wg_frameSize generation)%Z (wg_frameSize generation) in
      if negb ok then (generation, false)
      else if negb (beUint32 (slice 8 12 frame) =? wh_salt1 (wg_header generation))%Z ||
              negb (beUint32 (slice 12 16 frame) =? wh_salt2 (wg_header generation))%Z then (generation, true)
      else
        let '(s0, s1) := walChecksum bigEndian s0 s1 (slice 0 8 frame) in
        let '(s0, s1) := walChecksum bigEndian s0 s1 (slice walFrameHeaderSize (zlen frame) frame) in
        if negb (s0 =? beUint32 (slice 16 20 frame))%Z || negb (s1 =? beUint32 (slice 20 24 frame))%Z
        then (generation, true)
        else
          let generation := generation <| wg_writtenFrames := (i + 1)%Z |> in
          let generation := if negb (beUint32 (slice 4 8 frame) =? 0)%Z
                            then generation <| wg_committedFrames := (i + 1)%Z |> else generation in
          walkFrames r bigEndian slots (i + 1)%Z s0 s1 generation
  end.

Definition walkWALGeneration (r : list Z) (fileBytes : Z) : walGeneration * bool :=
  let generation := walGeneration_zero <| wg_fileBytes := fileBytes |> in
  let '(raw, ok) := ReadAt r 0 walHeaderSize in
  if negb ok then (generation, true)
  else
    let generation := generation <| wg_header := parseWALHeader raw |> in
    if negb (wh_valid (wg_header generation)) then (generation, true)
    else
      let bigEndian := (wh_magic (wg_header generation) =? walMagicBigEndian)%Z in
      let '(s0, s1) := walChecksum bigEndian 0 0 (slice 0 24 raw) in
      if negb (s0 =? beUint32 (slice 24 28 raw))%Z || negb (s1 =? beUint32 (slice 28 32 raw))%Z
      then (generation <| wg_header ::= fun h => h <| wh_valid := false |> |>, true)
      else
        let generation := generation <| wg_frameSize := (wh_pageSize (wg_header generation) + walFrameHeaderSize)%Z |> in
        let generation := generation <| wg_frameSlots := Z.quot (fileBytes - walHeaderSize) (wg_frameSize generation) |> in
        walkFrames r bigEndian (Z.to_nat (wg_frameSlots generation)) 0 s0 s1 generation.

(** [readWALGeneration]: no file gives the zero generation. *)
Definition readWALGeneration (file : option (list Z)) : walGeneration * bool :=
  match file with
  | None => (walGeneration_zero, true)
  | Some bytes => walkWALGeneration bytes (zlen bytes)
  end.

(** * Litestream's saved position *)

Record litestreamSavedPosition := mkSavedPosition {
  sp_walOffsetEnd : Z; sp_salt1 : Z; sp_salt2 : Z; sp_maxTXID : Z; sp_file : string; sp_found : bool
}.
#[export] Instance litestreamSavedPosition_eta : Settable litestreamSavedPosition :=
  fun r => mkSavedPosition (sp_walOffsetEnd r) (sp_salt1 r) (sp_salt2 r) (sp_maxTXID r) (sp_file r) (sp_found r).
Definition savedPosition_zero : litestreamSavedPosition := mkSavedPosition 0 0 0 0 "" false.

Definition ltxMagic : list Z := [76; 84; 88; 49]%Z. (* "LTX1" *)
Definition parseLTXWALPosition (raw : list Z) : option litestreamSavedPosition :=
  if (zlen raw <? ltxHeaderSize)%Z || negb (bool_decide (slice 0 4 raw = ltxMagic)) then None
  else
    let offset := int64 (beUint64 (skipn 48 raw)) in
    let size := int64 (beUint64 (skipn 56 raw)) in
    Some (savedPosition_zero <| sp_walOffsetEnd := int64 (offset + size) |>
            <| sp_salt1 := beUint32 (skipn 64 raw) |> <| sp_salt2 := beUint32 (skipn 68 raw) |> <| sp_found := true |>).

(** [readLTXWALPosition]: [io.ReadFull] of the header; a shorter file is an error. *)
Definition readLTXWALPosition (file : list Z) : option litestreamSavedPosition :=
  let '(raw, ok) := ReadAt file 0 ltxHeaderSize in if ok then parseLTXWALPosition raw else None.

Record dirEntry := mkDirEntry { de_name : string; de_isDir : bool; de_bytes : list Z }.

(** The newest name that parses decides; [dir] is [None] when it does not exist.
    An error carries the name of the file, not the text of its cause. *)
Fixpoint newestPosition (dir : list dirEntry) (names : list string) : result string litestreamSavedPosition :=
  match names with
  | [] => Ok savedPosition_zero
  | name :: rest =>
      match parseLTXFilename name with
      | None => newestPosition dir rest
      | Some (_, maxTXID) =>
          match List.find (fun e => de_name e =s name) dir with
          | Some e =>
              match readLTXWALPosition (de_bytes e) with
              | Some position => Ok (position <| sp_maxTXID := maxTXID |> <| sp_file := name |>)
              | None => Err ("read " +:+ name)
              end
          | None => Err ("read " +:+ name)
          end
      end
  end.

Definition readLitestreamSavedPosition (dir : option (list dirEntry)) : result string litestreamSavedPosition :=
  match dir with
  | None => Ok savedPosition_zero
  | Some entries =>
      let names := map de_name (List.filter (fun e => negb (de_isDir e)) entries) in
      newestPosition entries (rev (merge_sort String.le names))
  end.

(** * Slices *)

Lemma zlen_slice {A} a b (l : list A) : (0 <= a <= b)%Z -> (b <= zlen l)%Z -> zlen (slice a b l) = (b - a)%Z.
Proof. unfold zlen, slice. intros. rewrite length_firstn, length_skipn. lia. Qed.

Lemma zlen_app {A} (a b : list A) : zlen (a ++ b) = (zlen a + zlen b)%Z.
Proof. unfold zlen. rewrite length_app. lia. Qed.

Lemma zlen_cons {A} x (l : list A) : zlen (x :: l) = (1 + zlen l)%Z.
Proof. unfold zlen. simpl length. lia. Qed.

(** * The checksum of a concatenation *)

Lemma walChecksum_app be k s0 s1 a b :
  length a = 8 * k ->
  walChecksum be s0 s1 (a ++ b) = let '(t0, t1) := walChecksum be s0 s1 a in walChecksum be t0 t1 b.
Proof.
  revert s0 s1 a. induction k as [|k IH]; intros s0 s1 a Ha.
  - by destruct a.
  - do 8 (destruct a as [|? a]; [simpl in Ha; lia|]). cbn [app walChecksum].
    destruct be; cbv zeta; apply IH; simpl in Ha; lia.
Qed.

(** * The reference

    The frames of the current generation: the longest prefix of the slots
    whose salts are the header's and whose stored sums are those of everything
    before them, header included. *)

Definition frameSalts (h : walHeader) (f : list Z) : bool :=
  (beUint32 (slice 8 12 f) =? wh_salt1 h)%Z && (beUint32 (slice 12 16 f) =? wh_salt2 h)%Z.
Definition frameContent (f : list Z) : list Z := slice 0 8 f ++ slice walFrameHeaderSize (zlen f) f.
Definition frameSums (f : list Z) : Z * Z := (beUint32 (slice 16 20 f), beUint32 (slice 20 24 f)).
Definition isCommit (f : list Z) : bool := negb (beUint32 (slice 4 8 f) =? 0)%Z.

Fixpoint generationFrames (be : bool) (h : walHeader) (covered : list Z) (slots : list (list Z)) : list (list Z) :=
  match slots with
  | [] => []
  | f :: rest =>
      if frameSalts h f && bool_decide (walChecksum be 0 0 (covered ++ frameContent f) = frameSums f)
      then f :: generationFrames be h (covered ++ frameContent f) rest else []
  end.

Definition slotAt (r : list Z) (size i : Z) : list Z :=
  slice (walHeaderSize + i * size) (walHeaderSize + i * size + size) r.
Fixpoint slotsFrom (r : list Z) (size : Z) (n : nat) (i : Z) : list (list Z) :=
  match n with O => [] | S n => slotAt r size i :: slotsFrom r size n (i + 1)%Z end.

Fixpoint lastCommit (i c : Z) (fs : list (list Z)) : Z :=
  match fs with [] => c | f :: rest => lastCommit (i + 1) (if isCommit f then i + 1 else c)%Z rest end.

Lemma slice_head_length (f : list Z) : (24 <= zlen f)%Z -> length (slice 0 8 f) = 8 * 1.
Proof. intros. pose proof (zlen_slice 0 8 f ltac:(lia) ltac:(lia)). unfold zlen in *. lia. Qed.

Lemma frameContent_chunks f size :
  zlen f = size -> (24 <= size)%Z -> (size mod 8 = 0)%Z -> exists m, length (frameContent f) = 8 * m.
Proof.
  intros Hl Hs Hm. exists (Z.to_nat ((size - 16) / 8)). unfold frameContent. rewrite length_app, slice_head_length by lia.
  pose proof (zlen_slice walFrameHeaderSize (zlen f) f ltac:(unfold walFrameHeaderSize; lia) ltac:(lia)) as Hz.
  subst size. set (l := slice walFrameHeaderSize (zlen f) f) in *. unfold walFrameHeaderSize in Hz.
  change (zlen l) with (Z.of_nat (length l)) in Hz. set (size := zlen f) in *. clearbody l size.
  pose proof (Z.div_mod (size - 16) 8 ltac:(lia)). assert ((size - 16) mod 8 = 0)%Z by (rewrite Zminus_mod, Hm; done). lia.
Qed.

(** The loop's two running checksums are the checksum of everything so far. *)
Lemma frame_checksum be k covered f :
  length covered = 8 * k -> (24 <= zlen f)%Z ->
  walChecksum be 0 0 (covered ++ frameContent f) =
  let '(t0, t1) := walChecksum be (fst (walChecksum be 0 0 covered)) (snd (walChecksum be 0 0 covered)) (slice 0 8 f) in
  walChecksum be t0 t1 (slice walFrameHeaderSize (zlen f) f).
Proof.
  intros Hk Hf. rewrite (walChecksum_app be k) by done. destruct (walChecksum be 0 0 covered) as [u0 u1]. cbn [fst snd].
  unfold frameContent. by rewrite (walChecksum_app be 1) by by apply slice_head_length.
Qed.

Lemma walkFrames_spec r be slots i covered g k :
  let size := wg_frameSize g in
  let gf := generationFrames be (wg_header g) covered (slotsFrom r size slots i) in
  length covered = 8 * k -> (24 <= size)%Z -> (size mod 8 = 0)%Z -> (0 <= i)%Z ->
  (walHeaderSize + (i + Z.of_nat slots) * size <= zlen r)%Z -> wg_writtenFrames g = i ->
  walkFrames r be slots i (fst (walChecksum be 0 0 covered)) (snd (walChecksum be 0 0 covered)) g =
  (g <| wg_writtenFrames := (i + zlen gf)%Z |> <| wg_committedFrames := lastCommit i (wg_committedFrames g) gf |>, true).
Proof.
  revert i covered g k. induction slots as [|slots IH]; intros i covered g k size gf Hk Hs Hm Hi Hr Hw; cbn [walkFrames].
  { unfold gf. simpl. unfold zlen. simpl. rewrite Z.add_0_r. destruct g; simpl in *. by subst. }
  unfold ReadAt. fold size.
  assert ((walHeaderSize + i * size + size <=? zlen r)%Z = true) as -> by (apply Z.leb_le; nia). cbn [negb].
  subst gf. cbn [slotsFrom generationFrames]. change (slice _ _ r) with (slotAt r size i).
  assert (zlen (slotAt r size i) = size) as Hl by (unfold slotAt; rewrite zlen_slice; unfold walHeaderSize in *; nia).
  set (f := slotAt r size i) in *. unfold frameSalts.
  destruct (beUint32 (slice 8 12 f) =? wh_salt1 (wg_header g))%Z, (beUint32 (slice 12 16 f) =? wh_salt2 (wg_header g))%Z;
    cbn [negb orb andb];
    try (unfold zlen; simpl; rewrite Z.add_0_r; destruct g; simpl in *; by subst).
  destruct (frameContent_chunks f size Hl Hs Hm) as [m Hm'].
  pose proof (frame_checksum be k covered f Hk ltac:(lia)) as Hc.
  destruct (walChecksum be _ _ (slice 0 8 f)) as [t0 t1]. rewrite <- Hc.
  destruct (walChecksum be 0 0 (covered ++ frameContent f)) as [v0 v1] eqn:Ev. unfold frameSums.
  destruct (Z.eqb_spec v0 (beUint32 (slice 16 20 f))) as [E0|E0], (Z.eqb_spec v1 (beUint32 (slice 20 24 f))) as [E1|E1];
    cbn [negb orb];
    [rewrite bool_decide_true by congruence|rewrite bool_decide_false by congruence..];
    [|unfold zlen; simpl; rewrite Z.add_0_r; destruct g; simpl in *; by subst..].
  set (g' := if negb _ then _ else _).
  specialize (IH (i + 1)%Z (covered ++ frameContent f) g' (k + m)).
  rewrite Ev in IH. cbn [fst snd] in IH.
  assert (wg_frameSize g' = size /\ wg_header g' = wg_header g /\ wg_writtenFrames g' = (i + 1)%Z /\
    wg_committedFrames g' = (if isCommit f then i + 1 else wg_committedFrames g)%Z /\
    forall a b, g' <| wg_writtenFrames := a |> <| wg_committedFrames := b |> = g <| wg_writtenFrames := a |> <| wg_committedFrames := b |>)
    as (G1 & G2 & G3 & G4 & G5).
  { unfold g', isCommit. destruct (beUint32 (slice 4 8 f) =? 0)%Z; done. }
  rewrite G1, G2, G4, G5 in IH. rewrite IH; try done; try lia.
  - by rewrite zlen_cons, Z.add_assoc.
  - rewrite length_app. lia.
Qed.

(** ** The last commit *)

(** [c] is the number of frames up to and including the last commit frame of [fs], 0 when there is none. *)
Definition isLastCommit (fs : list (list Z)) (c : Z) : Prop :=
  (0 <= c <= zlen fs)%Z /\
  (c = 0%Z \/ exists f, fs !! Z.to_nat (c - 1) = Some f /\ isCommit f = true) /\
  forall j f, (c <= Z.of_nat j)%Z -> fs !! j = Some f -> isCommit f = false.

Lemma lastCommit_spec fs i c :
  (0 <= c <= i)%Z ->
  (lastCommit i c fs = c /\ (forall f, In f fs -> isCommit f = false)) \/
  exists j, lastCommit i c fs = (i + Z.of_nat j + 1)%Z /\
    (exists f, fs !! j = Some f /\ isCommit f = true) /\
    forall j' f, j < j' -> fs !! j' = Some f -> isCommit f = false.
Proof.
  revert i c. induction fs as [|f fs IH]; intros i c Hc; cbn [lastCommit]; [by left|].
  destruct (isCommit f) eqn:Ef.
  - right. destruct (IH (i + 1) (i + 1))%Z as [[-> Hno]|(j & -> & Hj & Hno)]; [lia| |].
    + exists 0. split; [lia|]. split; [by exists f|]. intros [|j'] f' ? Hf'; [lia|]. simpl in Hf'.
      apply Hno, list_elem_of_In. by eapply list_elem_of_lookup_2.
    + exists (S j). split; [lia|]. split; [done|]. intros [|j'] f' ? Hf'; [lia|]. apply (Hno j'); [lia|done].
  - destruct (IH (i + 1)%Z c) as [[-> Hno]|(j & -> & Hj & Hno)]; [lia|left|right].
    + split; [done|]. intros f' [<-|?]; auto.
    + exists (S j). split; [lia|]. split; [done|]. intros [|j'] f' ? Hf'; [lia|]. apply (Hno j'); [lia|done].
Qed.

Lemma lastCommit_is fs : isLastCommit fs (lastCommit 0 0 fs).
Proof.
  destruct (lastCommit_spec fs 0 0) as [[-> Hno]|(j & -> & (f & Hf & Hc) & Hno)]; [lia| |].
  - split_and!; [lia|unfold zlen; lia|by left|]. intros j f _ Hf. apply Hno, list_elem_of_In. by eapply list_elem_of_lookup_2.
  - pose proof (lookup_lt_Some _ _ _ Hf). unfold isLastCommit, zlen. split_and!; try lia.
    + right. exists f. split; [|done]. rewrite <- Hf. f_equal. lia.
    + intros j' f' Hj'. apply Hno. lia.
Qed.

Lemma generationFrames_prefix be h covered slots : generationFrames be h covered slots `prefix_of` slots.
Proof.
  revert covered. induction slots as [|f slots IH]; intros covered; simpl; [done|].
  destruct (_ && _); [apply prefix_cons, IH|apply prefix_nil].
Qed.

Lemma slotsFrom_length r size n i : length (slotsFrom r size n i) = n.
Proof. revert i. induction n as [|n IH]; intros i; simpl; auto. Qed.

(** The reference of a whole file. *)
Definition fileBigEndian (r : list Z) : bool := (wh_magic (parseWALHeader (slice 0 32 r)) =? walMagicBigEndian)%Z.
Definition headerChecked (r : list Z) : bool :=
  (walHeaderSize <=? zlen r)%Z && wh_valid (parseWALHeader (slice 0 32 r)) &&
  bool_decide (walChecksum (fileBigEndian r) 0 0 (slice 0 24 r) = (beUint32 (slice 24 28 r), beUint32 (slice 28 32 r))).
Definition fileSlots (r : list Z) : list (list Z) :=
  let size := (wh_pageSize (parseWALHeader (slice 0 32 r)) + walFrameHeaderSize)%Z in
  slotsFrom r size (Z.to_nat ((zlen r - walHeaderSize) / size)) 0.
Definition fileGeneration (r : list Z) : list (list Z) :=
  generationFrames (fileBigEndian r) (parseWALHeader (slice 0 32 r)) (slice 0 24 r) (fileSlots r).

Lemma slice_slice {A} a b n (l : list A) : (0 <= a <= b)%Z -> (b <= n)%Z -> slice a b (slice 0 n l) = slice a b l.
Proof.
  intros. unfold slice. simpl. rewrite skipn_firstn_comm, firstn_firstn. f_equal. lia.
Qed.

Lemma parseWALHeader_pageSize raw : wh_valid (parseWALHeader raw) = true -> (512 <= wh_pageSize (parseWALHeader raw))%Z.
Proof.
  unfold parseWALHeader. destruct (_ <? _)%Z; [done|]. simpl. rewrite !andb_true_iff. intros [_ H]. by apply Z.leb_le.
Qed.

Lemma sums_agree a b c d : negb (a =? c)%Z || negb (b =? d)%Z = negb (bool_decide ((a, b) = (c, d))).
Proof.
  destruct (Z.eqb_spec a c), (Z.eqb_spec b d); simpl; [rewrite bool_decide_true by congruence|rewrite bool_decide_false by congruence..];
    done.
Qed.

(** ** The walk of a file *)

(** A file whose header checks: the walk is the frame loop over its slots, seeded with the header's checksum. *)
Lemma walk_checked r :
  headerChecked r = true ->
  exists g : walGeneration,
    wg_header g = parseWALHeader (slice 0 32 r) /\ wg_writtenFrames g = 0%Z /\ wg_committedFrames g = 0%Z /\
    wg_frameSize g = (wh_pageSize (parseWALHeader (slice 0 32 r)) + walFrameHeaderSize)%Z /\
    readWALGeneration (Some r) =
      walkFrames r (fileBigEndian r) (Z.to_nat ((zlen r - walHeaderSize) / wg_frameSize g)) 0
        (fst (walChecksum (fileBigEndian r) 0 0 (slice 0 24 r))) (snd (walChecksum (fileBigEndian r) 0 0 (slice 0 24 r))) g.
Proof.
  unfold headerChecked. rewrite !andb_true_iff, bool_decide_eq_true, Z.leb_le. intros ((Hl & Hv) & Hc).
  pose proof (parseWALHeader_pageSize _ Hv) as Hp.
  unfold readWALGeneration, walkWALGeneration, ReadAt. change (0 + walHeaderSize)%Z with 32%Z.
  replace (32 <=? zlen r)%Z with true by (symmetry; by apply Z.leb_le). cbn [negb]. cbv zeta.
  set (g0 := walGeneration_zero <| wg_fileBytes := zlen r |> <| wg_header := parseWALHeader (slice 0 32 r) |>).
  change (wg_header g0) with (parseWALHeader (slice 0 32 r)). rewrite Hv. cbn [negb].
  fold (fileBigEndian r). rewrite (slice_slice 0 24 32), (slice_slice 24 28 32), (slice_slice 28 32 32) by lia.
  rewrite Hc, !Z.eqb_refl. cbn [negb orb].
  set (g := (g0 <| wg_frameSize := _ |>) <| wg_frameSlots := _ |>). exists g. split_and!; try done.
  cbn [fst snd]. f_equal. unfold g. cbn [wg_frameSlots wg_frameSize]. simpl. rewrite Z.quot_div_nonneg; [done| |];
    unfold walHeaderSize, walFrameHeaderSize in *; lia.
Qed.

Lemma walk_unchecked r :
  headerChecked r = false ->
  exists g, readWALGeneration (Some r) = (g, true) /\ wh_valid (wg_header g) = false /\
    wg_writtenFrames g = 0%Z /\ wg_committedFrames g = 0%Z.
Proof.
  unfold headerChecked, readWALGeneration, walkWALGeneration, ReadAt. change (0 + walHeaderSize)%Z with 32%Z.
  change walHeaderSize with 32%Z. intros H. destruct (32 <=? zlen r)%Z eqn:El; cbn [negb]; [|eexists; split; [reflexivity|done]].
  cbv zeta. set (g0 := walGeneration_zero <| wg_fileBytes := zlen r |> <| wg_header := parseWALHeader (slice 0 32 r) |>).
  change (wg_header g0) with (parseWALHeader (slice 0 32 r)). destruct (wh_valid (parseWALHeader (slice 0 32 r))) eqn:Ev;
    cbn [negb andb] in *; [|exists g0; by rewrite <- Ev].
  fold (fileBigEndian r). rewrite (slice_slice 0 24 32), (slice_slice 24 28 32), (slice_slice 28 32 32) by lia.
  destruct (walChecksum (fileBigEndian r) 0 0 (slice 0 24 r)) as [s0 s1]. rewrite sums_agree, H. cbn [negb].
  eexists. split; [reflexivity|done].
Qed.

Lemma walk_reference r :
  (wh_pageSize (parseWALHeader (slice 0 32 r)) mod 8 = 0)%Z ->
  exists g, readWALGeneration (Some r) = (g, true) /\ wh_valid (wg_header g) = headerChecked r /\
  if headerChecked r
  then wg_writtenFrames g = zlen (fileGeneration r) /\ isLastCommit (fileGeneration r) (wg_committedFrames g) /\
       (walHeaderSize <= generationEnd g <= writtenEnd g)%Z /\ (writtenEnd g <= zlen r)%Z
  else wg_writtenFrames g = 0%Z /\ wg_committedFrames g = 0%Z.
Proof.
  intros H8. destruct (headerChecked r) eqn:Hc.
  2: { destruct (walk_unchecked r Hc) as (g & Hg). by exists g. }
  destruct (walk_checked r Hc) as (g & Hh & Hw & Hcm & Hs & ->).
  unfold headerChecked in Hc. rewrite !andb_true_iff, Z.leb_le in Hc. destruct Hc as ((Hl & Hv) & _).
  pose proof (parseWALHeader_pageSize _ Hv) as Hp.
  set (size := wg_frameSize g) in *. set (n := ((zlen r - walHeaderSize) / size)%Z).
  assert (24 <= size /\ 0 <= n /\ n * size <= zlen r - walHeaderSize)%Z as (Hs24 & Hn & Hns).
  { unfold walHeaderSize, walFrameHeaderSize in *. split; [lia|]. subst n. split; [apply Z.div_pos; lia|].
    rewrite Z.mul_comm. apply Z.mul_div_le. lia. }
  rewrite (walkFrames_spec r (fileBigEndian r) _ 0 (slice 0 24 r) g 3); fold size; try done.
  2: { pose proof (zlen_slice 0 24 r ltac:(lia) ltac:(unfold walHeaderSize in Hl; lia)). unfold zlen in *. lia. }
  2: { rewrite Hs, Zplus_mod, H8. done. }
  2: { rewrite Z2Nat.id by lia. lia. }
  rewrite Hh, Hs, Hcm. fold (fileSlots r). unfold n. rewrite Hs. fold (fileSlots r). fold (fileGeneration r).
  eexists. split; [reflexivity|]. split; [simpl; congruence|].
  pose proof (lastCommit_is (fileGeneration r)) as Hlc. pose proof (proj1 Hlc) as Hr.
  assert (zlen (fileGeneration r) <= n)%Z.
  { pose proof (prefix_length _ _ (generationFrames_prefix (fileBigEndian r) (parseWALHeader (slice 0 32 r)) (slice 0 24 r) (fileSlots r))) as Hle.
    fold (fileGeneration r) in Hle. unfold fileSlots in Hle. rewrite slotsFrom_length, <- Hs in Hle. fold n in Hle. unfold zlen. lia. }
  unfold generationEnd, writtenEnd. simpl. fold size. unfold walHeaderSize in *. split_and!; try done; nia.
Qed.

(** * What SQLite writes

    The WAL file format: a 24-byte header with its checksum, then one frame per
    page: page number, database size after a commit (0 otherwise), the salts,
    the checksum of the header, of the first eight bytes and of the page of
    every frame so far, and the page. *)

Definition be32bytes (z : Z) : list Z := [z / 16777216; (z / 65536) mod 256; (z / 256) mod 256; z mod 256]%Z.
Definition sumBytes (s : Z * Z) : list Z := be32bytes (fst s) ++ be32bytes (snd s).

Record walFrame := mkFrame { fr_pgno : Z; fr_commit : Z; fr_page : list Z }.

Definition headerBytes (be : bool) (pageSize seq salt1 salt2 : Z) : list Z :=
  be32bytes (if be then walMagicBigEndian else walMagicLittle) ++ be32bytes 3007000 ++ be32bytes pageSize ++
  be32bytes seq ++ be32bytes salt1 ++ be32bytes salt2.
Definition frameHead (f : walFrame) : list Z := be32bytes (fr_pgno f) ++ be32bytes (fr_commit f).
Definition frameBytes (be : bool) (salt1 salt2 : Z) (covered : list Z) (f : walFrame) : list Z :=
  frameHead f ++ be32bytes salt1 ++ be32bytes salt2 ++
  sumBytes (walChecksum be 0 0 (covered ++ frameHead f ++ fr_page f)) ++ fr_page f.
Fixpoint framesBytes (be : bool) (salt1 salt2 : Z) (covered : list Z) (fs : list walFrame) : list (list Z) :=
  match fs with
  | [] => []
  | f :: rest => frameBytes be salt1 salt2 covered f :: framesBytes be salt1 salt2 (covered ++ frameHead f ++ fr_page f) rest
  end.
Definition walBytes (be : bool) (pageSize seq salt1 salt2 : Z) (fs : list walFrame) (tail : list Z) : list Z :=
  let h := headerBytes be pageSize seq salt1 salt2 in
  h ++ sumBytes (walChecksum be 0 0 h) ++ concat (framesBytes be salt1 salt2 h fs) ++ tail.

Definition word (z : Z) : Prop := (0 <= z < 2 ^ 32)%Z.
Definition frameOK (pageSize : Z) (f : walFrame) : Prop := word (fr_pgno f) /\ word (fr_commit f) /\ zlen (fr_page f) = pageSize.

Lemma beUint32_bytes z : word z -> beUint32 (be32bytes z) = z.
Proof.
  unfold word, beUint32, beUint, be32bytes. cbn [firstn fold_left]. intros. Z.to_euclidean_division_equations. lia.
Qed.

Lemma walChecksum_word be k s0 s1 a : length a < k -> word s0 -> word s1 ->
  word (fst (walChecksum be s0 s1 a)) /\ word (snd (walChecksum be s0 s1 a)).
Proof.
  revert s0 s1 a. induction k as [|k IH]; intros s0 s1 a Hk H0 H1; [lia|].
  do 8 (destruct a as [|? a]; [by simpl|]). cbn [walChecksum].
  destruct be; cbv zeta; apply IH; try (simpl in Hk; lia); apply wrap_uint_range; lia.
Qed.

Lemma sumBytes_sums be a :
  (beUint32 (be32bytes (fst (walChecksum be 0 0 a))), beUint32 (be32bytes (snd (walChecksum be 0 0 a)))) = walChecksum be 0 0 a.
Proof.
  destruct (walChecksum_word be (S (length a)) 0 0 a) as [H0 H1]; [lia|unfold word; lia|unfold word; lia|].
  rewrite !beUint32_bytes by done. by destruct (walChecksum be 0 0 a).
Qed.

Section Encoded.
Context (be : bool) (pageSize seq salt1 salt2 : Z).
Hypothesis Hpage : (512 <= pageSize)%Z /\ word pageSize.
Hypothesis Hwords : word seq /\ word salt1 /\ word salt2.

Let h := headerBytes be pageSize seq salt1 salt2.
Let size := (pageSize + walFrameHeaderSize)%Z.

Lemma header_slices rest :
  let raw := h ++ sumBytes (walChecksum be 0 0 h) ++ rest in
  (zlen raw <? walHeaderSize)%Z = false /\
  slice 0 4 raw = be32bytes (if be then walMagicBigEndian else walMagicLittle) /\ slice 4 8 raw = be32bytes 3007000 /\
  slice 8 12 raw = be32bytes pageSize /\ slice 16 20 raw = be32bytes salt1 /\ slice 20 24 raw = be32bytes salt2 /\
  slice 0 24 raw = h /\ slice 24 28 raw = be32bytes (fst (walChecksum be 0 0 h)) /\
  slice 28 32 raw = be32bytes (snd (walChecksum be 0 0 h)).
Proof.
  cbv zeta. split; [apply Z.ltb_ge; rewrite !zlen_app;
    change (zlen h) with 24%Z; change (zlen (sumBytes _)) with 8%Z; unfold zlen, walHeaderSize; lia|].
  set (cs := walChecksum be 0 0 h). unfold h, headerBytes, sumBytes. split_and!; reflexivity.
Qed.

Lemma header_parses rest :
  let p := parseWALHeader (h ++ sumBytes (walChecksum be 0 0 h) ++ rest) in
  wh_valid p = true /\ wh_magic p = (if be then walMagicBigEndian else walMagicLittle) /\ wh_pageSize p = pageSize /\
  wh_salt1 p = salt1 /\ wh_salt2 p = salt2.
Proof.
  destruct (header_slices rest) as (Hl & E1 & E2 & E3 & E5 & E6 & _). cbv zeta. unfold parseWALHeader. rewrite Hl.
  set (raw := h ++ sumBytes (walChecksum be 0 0 h) ++ rest) in *. rewrite E1, E2, E3, E5, E6.
  rewrite !beUint32_bytes by (tauto || (destruct be; unfold word; vm_compute; intuition discriminate)).
  split_and!; try done. simpl. destruct Hpage as [Hp _]. apply Z.leb_le in Hp. rewrite Hp. by destruct be.
Qed.

Lemma frame_facts covered f :
  frameOK pageSize f ->
  let b := frameBytes be salt1 salt2 covered f in
  zlen b = size /\ (beUint32 (slice 8 12 b) = salt1 /\ beUint32 (slice 12 16 b) = salt2) /\
  frameContent b = frameHead f ++ fr_page f /\
  frameSums b = walChecksum be 0 0 (covered ++ frameHead f ++ fr_page f) /\ isCommit b = negb (fr_commit f =? 0)%Z.
Proof.
  intros (Hpg & Hcm & Hlen). destruct Hwords as (_ & Hs1 & Hs2). cbv zeta.
  set (cs := walChecksum be 0 0 (covered ++ frameHead f ++ fr_page f)).
  assert (zlen (frameBytes be salt1 salt2 covered f) = size) as Hz.
  { unfold frameBytes, frameHead, sumBytes. rewrite !zlen_app, Hlen. unfold size, walFrameHeaderSize, zlen. cbn. lia. }
  split_and!; try done.
  - change (slice 8 12 _) with (be32bytes salt1). by apply beUint32_bytes.
  - change (slice 12 16 _) with (be32bytes salt2). by apply beUint32_bytes.
  - unfold frameContent. change (slice 0 8 _) with (frameHead f). f_equal. unfold slice.
    change (skipn (Z.to_nat walFrameHeaderSize) _) with (fr_page f). rewrite Hz. apply firstn_all2.
    unfold size, zlen in *. lia.
  - unfold frameSums. change (slice 16 20 _) with (be32bytes (fst cs)). change (slice 20 24 _) with (be32bytes (snd cs)).
    apply sumBytes_sums.
  - unfold isCommit. change (slice 4 8 _) with (be32bytes (fr_commit f)). by rewrite beUint32_bytes.
Qed.

Lemma framesBytes_length covered fs : length (framesBytes be salt1 salt2 covered fs) = length fs.
Proof. revert covered. induction fs as [|f fs IH]; intros covered; simpl; auto. Qed.

Lemma framesBytes_lookup covered fs j b :
  framesBytes be salt1 salt2 covered fs !! j = Some b ->
  exists f c, fs !! j = Some f /\ b = frameBytes be salt1 salt2 c f.
Proof.
  revert covered j. induction fs as [|f fs IH]; intros covered [|j]; simpl; try done; [|apply IH].
  intros [= <-]. eauto.
Qed.

Lemma framesBytes_size covered fs :
  Forall (frameOK pageSize) fs -> Forall (fun b => zlen b = size) (framesBytes be salt1 salt2 covered fs).
Proof.
  intros Hf. revert covered. induction Hf as [|f fs Hx _ IH]; intros covered; simpl; constructor; [|apply IH].
  by apply (frame_facts covered f).
Qed.

Lemma written_commit covered fs j b :
  Forall (frameOK pageSize) fs -> framesBytes be salt1 salt2 covered fs !! j = Some b ->
  exists f, fs !! j = Some f /\ isCommit b = negb (fr_commit f =? 0)%Z.
Proof.
  intros Hf (f & c & Hff & ->)%framesBytes_lookup. exists f. split; [done|]. rewrite Forall_forall in Hf.
  by destruct (frame_facts c f (Hf f (list_elem_of_lookup_2 _ _ _ Hff))) as (_ & _ & _ & _ & Hi).
Qed.

(** The reference finds the frames that were written, whatever follows them with other salts. *)
Lemma generationFrames_written p covered fs rest :
  Forall (frameOK pageSize) fs -> wh_salt1 p = salt1 -> wh_salt2 p = salt2 ->
  (forall f, head rest = Some f -> frameSalts p f = false) ->
  generationFrames be p covered (framesBytes be salt1 salt2 covered fs ++ rest) = framesBytes be salt1 salt2 covered fs.
Proof.
  intros Hf H1 H2 Hr. revert covered. induction Hf as [|f fs Hx _ IH]; intros covered.
  - simpl. destruct rest as [|x rest]; [done|]. simpl. by rewrite (Hr x eq_refl).
  - cbn [framesBytes app generationFrames]. destruct (frame_facts covered f Hx) as (_ & [S1 S2] & Hc & Hs & _).
    unfold frameSalts. rewrite S1, S2, H1, H2, !Z.eqb_refl, Hc, Hs. rewrite bool_decide_true by done. cbn [andb].
    by rewrite IH.
Qed.

Lemma slotAt_middle pre f post i :
  zlen pre = (walHeaderSize + i * size)%Z -> zlen f = size -> slotAt (pre ++ f ++ post) size i = f.
Proof.
  intros Hp Hf. unfold slotAt, slice. rewrite <- Hp. unfold zlen in *. rewrite Nat2Z.id, drop_app_length.
  apply take_app_length'. lia.
Qed.

Lemma slotsFrom_app bs pre post n i :
  Forall (fun b => zlen b = size) bs -> zlen pre = (walHeaderSize + i * size)%Z ->
  slotsFrom (pre ++ concat bs ++ post) size (length bs + n) i =
  bs ++ slotsFrom (pre ++ concat bs ++ post) size n (i + zlen bs)%Z.
Proof.
  intros Hb. revert pre i. induction Hb as [|b bs Hx Hb IH]; intros pre i Hp.
  - simpl. unfold zlen. simpl. by rewrite Z.add_0_r.
  - cbn [length Nat.add slotsFrom concat app]. rewrite <- app_assoc, slotAt_middle by done. f_equal.
    rewrite zlen_cons, Z.add_assoc. specialize (IH (pre ++ b) (i + 1)%Z). rewrite <- app_assoc in IH. apply IH.
    rewrite zlen_app, Hp, Hx. lia.
Qed.

End Encoded.

(** The tail starts no frame of this generation. *)
Definition staleTail (pageSize salt1 salt2 : Z) (tail : list Z) : Prop :=
  (zlen tail < pageSize + walFrameHeaderSize)%Z \/
  (beUint32 (slice 8 12 tail), beUint32 (slice 12 16 tail)) <> (salt1, salt2).

Lemma concat_size {A} size (bs : list (list A)) : Forall (fun b => zlen b = size) bs -> zlen (concat bs) = (zlen bs * size)%Z.
Proof. induction 1 as [|b bs Hb _ IH]; [done|]. cbn [concat]. rewrite zlen_app, zlen_cons, IH, Hb. lia. Qed.

Lemma fileGeneration_written be pageSize seq salt1 salt2 fs tail :
  (512 <= pageSize)%Z /\ word pageSize -> word seq /\ word salt1 /\ word salt2 -> Forall (frameOK pageSize) fs ->
  staleTail pageSize salt1 salt2 tail ->
  let r := walBytes be pageSize seq salt1 salt2 fs tail in
  headerChecked r = true /\ wh_pageSize (parseWALHeader (slice 0 32 r)) = pageSize /\
  fileGeneration r = framesBytes be salt1 salt2 (headerBytes be pageSize seq salt1 salt2) fs.
Proof.
  intros Hp Hw Hf Ht r. set (h := headerBytes be pageSize seq salt1 salt2).
  set (bs := framesBytes be salt1 salt2 h fs). set (sums := sumBytes (walChecksum be 0 0 h)).
  assert (slice 0 32 r = h ++ sums ++ []) as E32 by reflexivity.
  destruct (header_parses be pageSize seq salt1 salt2 Hp Hw []) as (Hv & Hm & Hps & Hs1 & Hs2). fold h sums in Hv, Hm, Hps, Hs1, Hs2.
  destruct (header_slices be pageSize seq salt1 salt2 (concat bs ++ tail)) as (Hl & _ & _ & _ & _ & _ & H24 & Ha & Hb).
  fold h sums in Hl, H24, Ha, Hb. change (h ++ sums ++ concat bs ++ tail) with r in Hl, H24, Ha, Hb.
  assert (fileBigEndian r = be) as Hbe by (unfold fileBigEndian; rewrite E32, Hm; by destruct be).
  split; [|split; [by rewrite E32|]].
  - unfold headerChecked. rewrite E32, Hv, Hbe, H24, Ha, Hb. apply Z.ltb_ge, Z.leb_le in Hl. rewrite Hl. cbn [andb].
    apply bool_decide_true. symmetry. apply sumBytes_sums.
  - set (size := (pageSize + walFrameHeaderSize)%Z) in *.
    assert (Forall (fun b => zlen b = size) bs) as Hbs by (apply (framesBytes_size be pageSize seq); done).
    assert (zlen (h ++ sums) = walHeaderSize + 0 * size)%Z as Hpre by reflexivity.
    assert (zlen r = walHeaderSize + zlen bs * size + zlen tail)%Z as Hr.
    { change r with ((h ++ sums) ++ concat bs ++ tail). rewrite (zlen_app (h ++ sums)), Hpre, zlen_app, (concat_size size) by done. lia. }
    unfold fileGeneration, fileSlots. rewrite E32, Hbe, H24, Hps. fold size.
    assert (0 < size)%Z by (unfold size, walFrameHeaderSize; lia).
    replace (Z.to_nat ((zlen r - walHeaderSize) / size)) with (length bs + Z.to_nat (zlen tail / size)).
    2: { replace (zlen r - walHeaderSize)%Z with (zlen tail + zlen bs * size)%Z by lia. rewrite Z.div_add by lia.
         pose proof (Z.div_pos (zlen tail) size ltac:(unfold zlen; lia) ltac:(lia)). change (zlen bs) with (Z.of_nat (length bs)). lia. }
    change r with ((h ++ sums) ++ concat bs ++ tail).
    rewrite (slotsFrom_app pageSize) by done. apply (generationFrames_written be pageSize seq); try done.
    destruct (Z.to_nat (zlen tail / size)) as [|m] eqn:Em; [done|]. cbn [slotsFrom head]. intros f Hs%(inj Some). rewrite <- Hs. fold size.
    destruct Ht as [Ht|Ht]; [rewrite Z.div_small in Em by (unfold zlen in *; lia); done|].
    assert (slotAt ((h ++ sums) ++ concat bs ++ tail) size (0 + zlen bs) = slice 0 size tail) as ->.
    { unfold slotAt, slice. rewrite app_assoc, drop_app_length'; [f_equal; lia|].
      pose proof (concat_size size bs Hbs). rewrite length_app. unfold zlen in *. lia. }
    unfold frameSalts. rewrite !slice_slice by (unfold size, walFrameHeaderSize; lia). rewrite Hs1, Hs2.
    destruct (Z.eqb_spec (beUint32 (slice 8 12 tail)) salt1), (Z.eqb_spec (beUint32 (slice 12 16 tail)) salt2); try done. congruence.
Qed.

(** A WAL as SQLite writes it, followed by whatever an earlier generation
    left behind, is read back: every frame written is counted and no other,
    and the committed ones end at the last frame carrying a database size. *)
Theorem wal_written_is_read be pageSize seq salt1 salt2 fs tail :
  (512 <= pageSize)%Z /\ word pageSize -> (pageSize mod 8 = 0)%Z -> word seq /\ word salt1 /\ word salt2 ->
  Forall (frameOK pageSize) fs -> staleTail pageSize salt1 salt2 tail ->
  exists g, readWALGeneration (Some (walBytes be pageSize seq salt1 salt2 fs tail)) = (g, true) /\
    wh_valid (wg_header g) = true /\ wg_writtenFrames g = zlen fs /\
    (0 <= wg_committedFrames g <= zlen fs)%Z /\
    (wg_committedFrames g = 0%Z \/
     exists f, fs !! Z.to_nat (wg_committedFrames g - 1) = Some f /\ fr_commit f <> 0%Z) /\
    (forall j f, (wg_committedFrames g <= Z.of_nat j)%Z -> fs !! j = Some f -> fr_commit f = 0%Z).
Proof.
  intros Hp H8 Hw Hf Ht. destruct (fileGeneration_written be pageSize seq salt1 salt2 fs tail Hp Hw Hf Ht) as (Hc & Hps & Hg).
  set (r := walBytes be pageSize seq salt1 salt2 fs tail) in *.
  destruct (walk_reference r) as (g & Hr & Hv & H); [by rewrite Hps|]. rewrite Hc in Hv, H. rewrite Hg in H.
  destruct H as (Hwr & (Hrng & Hlast & Hno) & _). exists g. split_and!; try done;
    unfold zlen in *; rewrite framesBytes_length in *; try done; try lia.
  - destruct Hlast as [?|(b & Hb & Hcb)]; [by left|right].
    apply (written_commit be pageSize seq) in Hb as (f & Hff & Hi); try done. exists f. split; [done|].
    rewrite Hi in Hcb. by apply negb_true_iff, Z.eqb_neq in Hcb.
  - intros j f Hj Hff.
    destruct (lookup_lt_is_Some_2 (framesBytes be salt1 salt2 (headerBytes be pageSize seq salt1 salt2) fs) j) as [b Hb].
    { rewrite framesBytes_length. by eapply lookup_lt_Some. }
    specialize (Hno j b Hj Hb). apply (written_commit be pageSize seq) in Hb as (f' & Hff' & Hi); try done.
    rewrite Hff in Hff'. injection Hff' as <-. rewrite Hi in Hno. by apply negb_false_iff, Z.eqb_eq in Hno.
Qed.

(** A two-frame WAL, the second frame uncommitted, with a frame of an earlier generation behind it. *)
Definition page512 : list Z := replicate 512 7%Z.
Definition sampleFrames : list walFrame := [mkFrame 1 2 page512; mkFrame 2 0 page512].
Definition sampleTail : list Z := replicate 600 9%Z.

Lemma sample_ok : Forall (frameOK 512) sampleFrames.
Proof. repeat constructor; by vm_compute. Qed.
Lemma sample_stale : staleTail 512 5 6 sampleTail.
Proof. right. vm_compute. discriminate. Qed.

Lemma wal_written_is_read_witness :
  exists g, readWALGeneration (Some (walBytes true 512 1 5 6 sampleFrames sampleTail)) = (g, true) /\
    wh_valid (wg_header g) = true /\ wg_writtenFrames g = 2%Z /\
    (0 <= wg_committedFrames g <= 2)%Z /\
    (wg_committedFrames g = 0%Z \/
     exists f, sampleFrames !! Z.to_nat (wg_committedFrames g - 1) = Some f /\ fr_commit f <> 0%Z) /\
    (forall j f, (wg_committedFrames g <= Z.of_nat j)%Z -> sampleFrames !! j = Some f -> fr_commit f = 0%Z).
Proof.
  refine (wal_written_is_read true 512 1 5 6 sampleFrames sampleTail _ _ _ sample_ok sample_stale);
    unfold word; repeat split; by vm_compute.
Defined.
