(* ===== verification/WalReference.v ===== *)
(** The WAL file format as SQLite documents it, and the worker's reader against it.

    The reference is written from the format alone: 32-bit words at fixed offsets
    of the file, the checksum as the sum of the words under Fibonacci weights, and a
    frame as valid when its salts are the header's and its stored checksum is that of
    the header and of every frame up to it.  It shares no function with [WalFrames]
    but the record the header is reported in. *)
From S2P Require Import Prelude GoStrings LtxCoverage WalFrames.
Open Scope Z_scope.

(** * Words *)

Definition byteAt (b : list Z) (i : Z) : Z := nth (Z.to_nat i) b 0.
Definition bigWord (b : list Z) (at_ : Z) : Z :=
  byteAt b at_ * 2 ^ 24 + byteAt b (at_ + 1) * 2 ^ 16 + byteAt b (at_ + 2) * 2 ^ 8 + byteAt b (at_ + 3).
Definition region (b : list Z) (at_ n : Z) : list Z := take (Z.to_nat n) (drop (Z.to_nat at_) b).

(** The words of a text of whole words, in the byte order of the checksum. *)
Fixpoint words (big : bool) (data : list Z) : list Z :=
  match data with
  | a :: b :: c :: d :: rest =>
      (if big then a * 2 ^ 24 + b * 2 ^ 16 + c * 2 ^ 8 + d else d * 2 ^ 24 + c * 2 ^ 16 + b * 2 ^ 8 + a) :: words big rest
  | _ => []
  end.
(** Only whole pairs of words are summed. *)
Definition wholePairs (data : list Z) : list Z := take (length data / 8 * 8)%nat data.

(** * The checksum *)

Fixpoint fibonacci (n : nat) : Z * Z :=
  match n with O => (0, 1) | S n => let '(a, b) := fibonacci n in (b, a + b) end.
Definition fib (n : nat) : Z := fst (fibonacci n).
(** The last word has weight [fib 1], the one before it [fib 2], and so on. *)
Fixpoint weighted (ws : list Z) : Z :=
  match ws with [] => 0 | w :: ws => fib (S (length ws)) * w + weighted ws end.
Definition sqliteChecksum (big : bool) (data : list Z) : Z * Z :=
  let ws := words big (wholePairs data) in
  (weighted (removelast ws) mod 2 ^ 32, weighted ws mod 2 ^ 32).

(** * The file *)

Definition formatMagic (big : bool) : Z := if big then 0x377f0683 else 0x377f0682.
Definition fileIsBig (r : list Z) : bool := bigWord r 0 =? formatMagic true.
(** The header is one the reader accepts: the file holds it, its magic, version and
    page size are of the format, and its checksum is that of its first 24 bytes. *)
Definition headerSound (r : list Z) : bool :=
  (32 <=? zlen r) && ((bigWord r 0 =? formatMagic true) || (bigWord r 0 =? formatMagic false)) &&
  (bigWord r 4 =? 3007000) && (512 <=? bigWord r 8) &&
  bool_decide (sqliteChecksum (fileIsBig r) (region r 0 24) = (bigWord r 24, bigWord r 28)).
Definition fileHeader (r : list Z) : walHeader :=
  if 32 <=? zlen r
  then mkWalHeader (bigWord r 0) (bigWord r 4) (bigWord r 8) (bigWord r 12) (bigWord r 16) (bigWord r 20) (headerSound r)
  else mkWalHeader 0 0 0 0 0 0 false.

Definition frameSize (r : list Z) : Z := bigWord r 8 + 24.
Definition frameCount (r : list Z) : Z := (zlen r - 32) / frameSize r.
Definition frameAt (r : list Z) (i : Z) : Z := 32 + i * frameSize r.
(** What the checksum covers of a frame: its first eight bytes and its page. *)
Definition frameCovered (r : list Z) (i : Z) : list Z :=
  region r (frameAt r i) 8 ++ wholePairs (region r (frameAt r i + 24) (bigWord r 8)).
(** What the checksum of frame [n] covers: the header and the frames up to it. *)
Definition coveredUpTo (r : list Z) (n : nat) : list Z :=
  region r 0 24 ++ concat (map (fun i => frameCovered r (Z.of_nat i)) (seq 0 n)).
Definition frameSound (r : list Z) (i : nat) : bool :=
  let at_ := frameAt r (Z.of_nat i) in
  (bigWord r (at_ + 8) =? bigWord r 16) && (bigWord r (at_ + 12) =? bigWord r 20) &&
  bool_decide (sqliteChecksum (fileIsBig r) (coveredUpTo r (S i)) = (bigWord r (at_ + 16), bigWord r (at_ + 20))).
Definition frameCommits (r : list Z) (i : nat) : bool := negb (bigWord r (frameAt r (Z.of_nat i) + 4) =? 0).

(** The generation has [written] frames, the longest run of sound ones from the start, of
    which the first [committed], up to the last one that commits, are committed. *)
Record generationOf (r : list Z) (written committed : nat) : Prop := {
  go_inside : Z.of_nat written <= frameCount r;
  go_sound : forall i, (i < written)%nat -> frameSound r i = true;
  go_longest : Z.of_nat written = frameCount r \/ frameSound r written = false;
  go_committed : (committed <= written)%nat;
  go_last : committed = O \/ frameCommits r (committed - 1) = true;
  go_later : forall i, (committed <= i < written)%nat -> frameCommits r i = false
}.

(** * The reader's words and checksum *)

Lemma length_wholePairs data : exists m, length (wholePairs data) = (8 * m)%nat.
Proof. exists (length data / 8)%nat. unfold wholePairs. rewrite length_take. pose proof (Nat.Div0.mul_div_le (length data) 8). lia. Qed.

Lemma wholePairs_step a b c d e f g h rest :
  wholePairs (a :: b :: c :: d :: e :: f :: g :: h :: rest) = a :: b :: c :: d :: e :: f :: g :: h :: wholePairs rest.
Proof.
  unfold wholePairs. cbn [length]. replace (S (S (S (S (S (S (S (S (length rest)))))))))%nat with (1 * 8 + length rest)%nat by lia.
  rewrite Nat.div_add_l by lia. rewrite Nat.mul_add_distr_r. reflexivity.
Qed.
Lemma wholePairs_whole m data : length data = (8 * m)%nat -> wholePairs data = data.
Proof. intros H. unfold wholePairs. rewrite H, (Nat.mul_comm 8 m), Nat.div_mul by lia. apply take_ge. lia. Qed.
Lemma wholePairs_app m a b : length a = (8 * m)%nat -> wholePairs (a ++ b) = a ++ wholePairs b.
Proof.
  revert a. induction m as [|m IH]; intros a Ha; [by destruct a|].
  do 8 (destruct a as [|? a]; [simpl in Ha; lia|]). cbn [app]. rewrite wholePairs_step. simpl in Ha. rewrite IH by lia. done.
Qed.
Lemma short_data data : (length data < 8)%nat -> wholePairs data = [].
Proof. intros H. unfold wholePairs. by rewrite Nat.div_small by done. Qed.

Lemma fib_step n : fib (S (S n)) = fib n + fib (S n).
Proof. unfold fib. cbn [fibonacci]. by destruct (fibonacci n). Qed.
(** One more word: the recurrence the reader's loop runs. *)
Lemma weighted_snoc ws x : weighted (ws ++ [x]) = weighted ws + weighted (removelast ws) + x.
Proof.
  induction ws as [|w ws IH]; [cbn; lia|]. destruct ws as [|w' ws]; [cbn; lia|].
  change (removelast (w :: w' :: ws)) with (w :: removelast (w' :: ws)).
  change ((w :: w' :: ws) ++ [x]) with (w :: ((w' :: ws) ++ [x])). cbn [weighted].
  change (weighted ((w' :: ws) ++ [x]) = weighted (w' :: ws) + weighted (removelast (w' :: ws)) + x) in IH.
  cbn [weighted] in IH. rewrite IH.
  assert (length (removelast (w' :: ws)) = length ws) as Hr by (rewrite removelast_firstn_len, length_firstn; simpl; lia).
  rewrite Hr, length_app. cbn [length]. rewrite Nat.add_1_r, fib_step. ring.
Qed.

(** The reader's running pair after the words [ws]. *)
Definition pairOf (ws : list Z) : Z * Z := (weighted (removelast ws) mod 2 ^ 32, weighted ws mod 2 ^ 32).
Lemma add_wrapped m a x b : (a mod m + (x + b mod m) mod m) mod m = (a + (x + b)) mod m.
Proof. by rewrite Zplus_mod_idemp_r, Zplus_mod_idemp_l, Z.add_assoc, Zplus_mod_idemp_r, Z.add_assoc. Qed.
Lemma pairOf_step ws x y : let '(s0, s1) := pairOf ws in
  let t0 := uint32 (s0 + uint32 (x + s1)) in (t0, uint32 (s1 + uint32 (y + t0))) = pairOf (ws ++ [x; y]).
Proof.
  unfold pairOf, uint32, wrap_uint. cbv zeta. rewrite !add_wrapped. change [x; y] with ([x] ++ [y]).
  rewrite app_assoc, removelast_last, !weighted_snoc, removelast_last. f_equal; f_equal; ring.
Qed.
Lemma be_word a b c d : beUint32 [a; b; c; d] = a * 2 ^ 24 + b * 2 ^ 16 + c * 2 ^ 8 + d.
Proof. unfold beUint32, beUint. cbn [firstn fold_left]. lia. Qed.
Lemma le_word a b c d : leUint32 [a; b; c; d] = d * 2 ^ 24 + c * 2 ^ 16 + b * 2 ^ 8 + a.
Proof. unfold leUint32. cbn [firstn fold_right]. lia. Qed.
(** The loop of the reader, from the pair of the words before. *)
Lemma checksum_words big m : forall ws data, length data = (8 * m)%nat ->
  walChecksum big (fst (pairOf ws)) (snd (pairOf ws)) data = pairOf (ws ++ words big data).
Proof.
  induction m as [|m IH]; intros ws data Hl; [destruct data; [|done]; cbn; by rewrite app_nil_r|].
  do 8 (destruct data as [|? data]; [simpl in Hl; lia|]). cbn [walChecksum words]. simpl in Hl.
  assert (length data = 8 * m)%nat as Hd by lia.
  destruct big; rewrite ?be_word, ?le_word; cbv beta iota zeta;
    match goal with |- context [ws ++ ?x :: ?y :: words ?b data] =>
      pose proof (pairOf_step ws x y) as Hs; change (x :: y :: words b data) with ([x; y] ++ words b data) end;
    destruct (pairOf ws) as [s0 s1]; cbn [fst snd]; injection Hs as H0 H1; rewrite H1, H0, app_assoc; by apply IH.
Qed.
Lemma checksum_trailing big data : forall s0 s1, walChecksum big s0 s1 data = walChecksum big s0 s1 (wholePairs data).
Proof.
  remember (length data) as n eqn:Hn. revert data Hn. induction n as [n IH] using lt_wf_ind. intros data Hn s0 s1.
  destruct (decide (8 <= length data)%nat) as [Hl|Hl].
  - do 8 (destruct data as [|? data]; [simpl in Hl; lia|]). rewrite wholePairs_step. cbn [walChecksum].
    destruct big; cbv zeta; apply (IH (length data)); simpl in Hn; (lia || done).
  - rewrite short_data by lia. do 8 (destruct data as [|? data]; [done|]). simpl in Hl. lia.
Qed.
(** The reader's checksum is SQLite's. *)
Lemma checksum_is_reference big data : walChecksum big 0 0 data = sqliteChecksum big data.
Proof.
  rewrite checksum_trailing. destruct (length_wholePairs data) as [m Hm]. exact (checksum_words big m [] (wholePairs data) Hm).
Qed.
Lemma checksum_continues big a b m : length a = (8 * m)%nat ->
  walChecksum big (fst (sqliteChecksum big a)) (snd (sqliteChecksum big a)) b = sqliteChecksum big (a ++ wholePairs b).
Proof.
  intros Ha. rewrite <- !checksum_is_reference, (walChecksum_app big m) by done. destruct (walChecksum big 0 0 a) as [s0 s1]. apply checksum_trailing.
Qed.

(** * The reader's slices *)

Lemma slice_region b at_ n : slice at_ (at_ + n) b = region b at_ n.
Proof. unfold slice, region. f_equal. f_equal. lia. Qed.
Lemma region_region b at_ n i k : 0 <= at_ -> 0 <= i -> i + k <= n -> region (region b at_ n) i k = region b (at_ + i) k.
Proof.
  intros H1 H2 H3. unfold region. rewrite skipn_firstn_comm, take_take, drop_drop. f_equal; [lia|]. f_equal. lia.
Qed.
Lemma slice_word b i : 0 <= i -> i + 4 <= zlen b -> beUint32 (slice i (i + 4) b) = bigWord b i.
Proof.
  intros H0 H. unfold bigWord, byteAt. rewrite slice_region. unfold region. unfold zlen in H.
  replace (Z.to_nat (i + 1)) with (Z.to_nat i + 1)%nat by lia. replace (Z.to_nat (i + 2)) with (Z.to_nat i + 2)%nat by lia.
  replace (Z.to_nat (i + 3)) with (Z.to_nat i + 3)%nat by lia.
  assert (Z.to_nat i + 4 <= length b)%nat as Hl by lia. clear H0 H. revert Hl. generalize (Z.to_nat i) as k. clear i. intros k. revert b.
  induction k as [|k IH]; intros b Hl.
  - do 4 (destruct b as [|? b]; [simpl in Hl; lia|]). unfold beUint32, beUint. change (Z.to_nat 4) with 4%nat. cbn [drop take fold_left nth Nat.add]. rewrite !take_0. cbn [fold_left]. lia.
  - destruct b as [|x b]; [simpl in Hl; lia|]. simpl in Hl. cbn [drop Nat.add nth]. apply IH. lia.
Qed.

(** * The walk *)

Section Walk.
Context (r : list Z).
Let size := frameSize r.
Hypothesis Hfile : 32 <= zlen r.
Hypothesis Hpage : 512 <= bigWord r 8.

Lemma region_length at_ n : 0 <= at_ -> 0 <= n -> at_ + n <= zlen r -> length (region r at_ n) = Z.to_nat n.
Proof. intros H1 H2 H3. unfold region, zlen in *. rewrite length_take, length_drop. lia. Qed.

Lemma coveredUpTo_whole n : Z.of_nat n <= frameCount r -> exists m, length (coveredUpTo r n) = (8 * m)%nat.
Proof.
  assert (0 < size) as Hs by (unfold size, frameSize; lia).
  induction n as [|n IH]; intros Hn; unfold coveredUpTo.
  { exists 3%nat. cbn [seq map concat]. rewrite app_nil_r, region_length by lia. done. }
  destruct IH as [m Hm]; [lia|]. unfold coveredUpTo in Hm.
  rewrite seq_S, map_app, concat_app, app_assoc, length_app, Hm. cbn [map concat Nat.add]. rewrite app_nil_r. unfold frameCovered.
  destruct (length_wholePairs (region r (frameAt r (Z.of_nat n) + 24) (bigWord r 8))) as [k Hk]. rewrite length_app, Hk.
  rewrite region_length; [exists (m + 1 + k)%nat; change (Z.to_nat 8) with 8%nat; lia|unfold frameAt; fold size; nia|lia|].
  unfold frameCount in Hn. fold size in Hn. unfold frameAt. fold size.
  pose proof (Z.mul_div_le (zlen r - 32) size Hs). unfold size, frameSize in *. nia.
Qed.

Lemma frame_inside i : (Z.of_nat i < frameCount r) -> 0 <= frameAt r (Z.of_nat i) /\ frameAt r (Z.of_nat i) + size <= zlen r.
Proof.
  intros Hi. assert (0 < size) as Hs by (unfold size, frameSize; lia). unfold frameCount in Hi. fold size in Hi. unfold frameAt. fold size.
  pose proof (Z.mul_div_le (zlen r - 32) size Hs). nia.
Qed.

(** The frame that the loop reads, word by word. *)
Lemma frame_word i k : Z.of_nat i < frameCount r -> 0 <= k <= 20 ->
  beUint32 (slice k (k + 4) (slotAt r size (Z.of_nat i))) = bigWord r (frameAt r (Z.of_nat i) + k).
Proof.
  intros Hi Hk. destruct (frame_inside i Hi) as [H0 H1]. assert (24 <= size) by (unfold size, frameSize; lia).
  change (slotAt r size (Z.of_nat i)) with (slice (frameAt r (Z.of_nat i)) (frameAt r (Z.of_nat i) + size) r).
  rewrite !slice_region, region_region by lia. rewrite <- slice_region. apply slice_word; lia.
Qed.
Lemma frame_word_at i k e : Z.of_nat i < frameCount r -> 0 <= k <= 20 -> e = k + 4 ->
  beUint32 (slice k e (slotAt r size (Z.of_nat i))) = bigWord r (frameAt r (Z.of_nat i) + k).
Proof. intros Hi Hk ->. by apply frame_word. Qed.
Lemma frame_head i : Z.of_nat i < frameCount r -> slice 0 8 (slotAt r size (Z.of_nat i)) = region r (frameAt r (Z.of_nat i)) 8.
Proof.
  intros Hi. destruct (frame_inside i Hi) as [H0 H1]. assert (24 <= size) by (unfold size, frameSize; lia).
  change (slotAt r size (Z.of_nat i)) with (slice (frameAt r (Z.of_nat i)) (frameAt r (Z.of_nat i) + size) r).
  rewrite (slice_region _ 0 8), slice_region, region_region by lia. by rewrite Z.add_0_r.
Qed.
Lemma frame_page i : Z.of_nat i < frameCount r ->
  slice walFrameHeaderSize (zlen (slotAt r size (Z.of_nat i))) (slotAt r size (Z.of_nat i)) = region r (frameAt r (Z.of_nat i) + 24) (bigWord r 8).
Proof.
  intros Hi. destruct (frame_inside i Hi) as [H0 H1]. assert (size = 24 + bigWord r 8) as Hs by (unfold size, frameSize; lia).
  change (slotAt r size (Z.of_nat i)) with (slice (frameAt r (Z.of_nat i)) (frameAt r (Z.of_nat i) + size) r).
  rewrite slice_region. assert (zlen (region r (frameAt r (Z.of_nat i)) size) = 24 + bigWord r 8) as ->.
  { unfold zlen. rewrite region_length by lia. lia. }
  change walFrameHeaderSize with 24. rewrite slice_region, region_region by lia. done.
Qed.

Lemma coveredUpTo_S i : coveredUpTo r (S i) = (coveredUpTo r i ++ region r (frameAt r (Z.of_nat i)) 8) ++ wholePairs (region r (frameAt r (Z.of_nat i) + 24) (bigWord r 8)).
Proof.
  unfold coveredUpTo. rewrite seq_S, map_app, concat_app. cbn [map concat Nat.add]. rewrite app_nil_r. unfold frameCovered. by rewrite !app_assoc.
Qed.
(** The two steps of the loop on a frame continue the checksum over it. *)
Lemma frame_checksums i : Z.of_nat i < frameCount r ->
  (let f := slotAt r size (Z.of_nat i) in
   let '(t0, t1) := walChecksum (fileIsBig r) (fst (sqliteChecksum (fileIsBig r) (coveredUpTo r i))) (snd (sqliteChecksum (fileIsBig r) (coveredUpTo r i))) (slice 0 8 f) in
   walChecksum (fileIsBig r) t0 t1 (slice walFrameHeaderSize (zlen f) f)) = sqliteChecksum (fileIsBig r) (coveredUpTo r (S i)).
Proof.
  intros Hi. cbv zeta. rewrite frame_head, frame_page by done. destruct (coveredUpTo_whole i) as [m Hm]; [lia|].
  destruct (frame_inside i Hi) as [H0 H1]. assert (24 <= size) by (unfold size, frameSize; lia).
  assert (length (region r (frameAt r (Z.of_nat i)) 8) = 8 * 1)%nat as Hh by (rewrite region_length by lia; done).
  rewrite (checksum_continues _ _ _ m Hm), (wholePairs_whole 1) by done.
  pose proof (checksum_continues (fileIsBig r) (coveredUpTo r i ++ region r (frameAt r (Z.of_nat i)) 8) (region r (frameAt r (Z.of_nat i) + 24) (bigWord r 8)) (m + 1)) as Hc.
  rewrite coveredUpTo_S, <- Hc by (rewrite length_app; lia). by destruct (sqliteChecksum _ _).
Qed.

(** The walk has reached slot [i]: every frame before it is sound and [c] of them are committed. *)
Record walkedTo (g : walGeneration) (i c : nat) : Prop := {
  wt_size : wg_frameSize g = size;
  wt_salt1 : wh_salt1 (wg_header g) = bigWord r 16;
  wt_salt2 : wh_salt2 (wg_header g) = bigWord r 20;
  wt_written : wg_writtenFrames g = Z.of_nat i;
  wt_committed : wg_committedFrames g = Z.of_nat c;
  wt_sound : forall j, (j < i)%nat -> frameSound r j = true;
  wt_le : (c <= i)%nat;
  wt_last : c = O \/ frameCommits r (c - 1) = true;
  wt_later : forall j, (c <= j < i)%nat -> frameCommits r j = false
}.
Lemma walkedTo_ends g i c : walkedTo g i c -> Z.of_nat i <= frameCount r -> Z.of_nat i = frameCount r \/ frameSound r i = false ->
  generationOf r i c.
Proof. intros [] Hi Hend. by split. Qed.
Lemma walkedTo_next g i c : walkedTo g i c -> frameSound r i = true ->
  walkedTo (let g := g <| wg_writtenFrames := Z.of_nat i + 1 |> in
            if frameCommits r i then g <| wg_committedFrames := Z.of_nat i + 1 |> else g) (S i) (if frameCommits r i then S i else c).
Proof.
  intros [H1 H2 H3 H4 H5 H6 H7 H8 H9] Hs. cbv zeta. destruct (frameCommits r i) eqn:Hc; split; simpl; try done; try lia;
    try (intros j Hj; destruct (decide (j = i)) as [->|]; [done|apply H6; lia]).
  - right. by rewrite Nat.sub_0_r.
  - intros j Hj. destruct (decide (j = i)) as [->|]; [done|apply H9; lia].
Qed.

Lemma walk_from slots : forall i g c, Z.of_nat (i + slots) = frameCount r -> walkedTo g i c ->
  let s := sqliteChecksum (fileIsBig r) (coveredUpTo r i) in
  exists written committed g', walkFrames r (fileIsBig r) slots (Z.of_nat i) (fst s) (snd s) g = (g', true) /\
    generationOf r written committed /\ walkedTo g' written committed /\
    wg_header g' = wg_header g /\ wg_fileBytes g' = wg_fileBytes g /\ wg_frameSlots g' = wg_frameSlots g.
Proof.
  induction slots as [|slots IH]; intros i g c Hn Hw s; cbn [walkFrames].
  { exists i, c, g. split_and!; try done. apply (walkedTo_ends g); [done|lia|left; lia]. }
  assert (Z.of_nat i < frameCount r) as Hi by lia. destruct (frame_inside i Hi) as [H0 H1].
  assert (forall soundness, soundness = frameSound r i -> soundness = false -> exists written committed g', (g, true) = (g', true) /\
    generationOf r written committed /\ walkedTo g' written committed /\ wg_header g' = wg_header g /\ wg_fileBytes g' = wg_fileBytes g /\ wg_frameSlots g' = wg_frameSlots g) as Hstop.
  { intros _ -> Hs. exists i, c, g. split_and!; try done. apply (walkedTo_ends g); [done|lia|by right]. }
  unfold ReadAt. rewrite (wt_size _ _ _ Hw). change (walHeaderSize + Z.of_nat i * size) with (frameAt r (Z.of_nat i)).
  rewrite (proj2 (Z.leb_le _ _) H1). cbn [negb]. change (slice (frameAt r (Z.of_nat i)) (frameAt r (Z.of_nat i) + size) r) with (slotAt r size (Z.of_nat i)).
  rewrite (frame_word_at i 8 12), (frame_word_at i 12 16), (frame_word_at i 16 20), (frame_word_at i 20 24), (frame_word_at i 4 8) by (done || lia).
  rewrite (wt_salt1 _ _ _ Hw), (wt_salt2 _ _ _ Hw). pose proof (frame_checksums i Hi) as Hc. cbv zeta in Hc. fold s in Hc.
  destruct (walChecksum (fileIsBig r) (fst s) (snd s) (slice 0 8 _)) as [t0 t1]. rewrite Hc.
  specialize (Hstop _ eq_refl). unfold frameSound in Hstop. cbv zeta in Hstop.
  destruct (bigWord r (frameAt r (Z.of_nat i) + 8) =? bigWord r 16) eqn:E1; [|by apply Hstop].
  destruct (bigWord r (frameAt r (Z.of_nat i) + 12) =? bigWord r 20) eqn:E2; [|by apply Hstop]. cbn [negb orb andb] in *.
  destruct (sqliteChecksum (fileIsBig r) (coveredUpTo r (S i))) as [v0 v1] eqn:Ev. rewrite sums_agree. case_bool_decide as Hsum; [|by apply Hstop].
  cbn [negb]. assert (frameSound r i = true) as Hs by (unfold frameSound; cbv zeta; rewrite E1, E2, Ev; by apply bool_decide_eq_true).
  pose proof (walkedTo_next g i c Hw Hs) as Hw'. unfold frameCommits in Hw' at 1. cbv zeta in Hw'.
  replace (Z.of_nat i + 1) with (Z.of_nat (S i)) in * by lia.
  destruct (IH (S i) _ _ ltac:(lia) Hw') as (written & committed & g' & Hrun & Hg & Hwg & Hh & Hb & Hsl). rewrite Ev in Hrun. cbn [fst snd] in Hrun.
  exists written, committed, g'. split_and!; try done; (etransitivity; [eassumption|by destruct (negb _)]).
Qed.
End Walk.

(** * The header *)

Lemma header_word r k e : 32 <= zlen r -> 0 <= k <= 28 -> e = k + 4 -> beUint32 (slice k e (slice 0 32 r)) = bigWord r k.
Proof. intros Hl Hk ->. rewrite slice_slice by lia. apply slice_word; lia. Qed.

(** The header as it is parsed, before its checksum is looked at. *)
Lemma parsed_header r : 32 <= zlen r ->
  parseWALHeader (slice 0 32 r) =
  mkWalHeader (bigWord r 0) (bigWord r 4) (bigWord r 8) (bigWord r 12) (bigWord r 16) (bigWord r 20)
    (((bigWord r 0 =? formatMagic true) || (bigWord r 0 =? formatMagic false)) && (bigWord r 4 =? 3007000) && (512 <=? bigWord r 8)).
Proof.
  intros Hl. unfold parseWALHeader. rewrite (proj2 (Z.ltb_ge _ _)) by (rewrite zlen_slice by lia; done). cbv zeta.
  by rewrite (header_word r 0 4), (header_word r 4 8), (header_word r 8 12), (header_word r 12 16), (header_word r 16 20), (header_word r 20 24) by (done || lia).
Qed.

(** A walk that goes past the header: the loop over the slots from the header's checksum. *)
Lemma walk_loop r : headerSound r = true ->
  let s := sqliteChecksum (fileIsBig r) (coveredUpTo r 0) in
  readWALGeneration (Some r) =
  walkFrames r (fileIsBig r) (Z.to_nat (frameCount r)) (Z.of_nat 0) (fst s) (snd s)
    (mkGeneration (fileHeader r) (zlen r) (frameSize r) (frameCount r) 0 0).
Proof.
  intros Hs s. unfold fileHeader. rewrite Hs. unfold headerSound in Hs. rewrite !andb_true_iff, bool_decide_eq_true in Hs.
  destruct Hs as ((((Hl & Hm) & Hv) & Hp) & Hc). rewrite Hl. assert (32 <= zlen r) as Hl' by (by apply Z.leb_le).
  unfold readWALGeneration, walkWALGeneration, ReadAt. change (0 + walHeaderSize) with 32. rewrite Hl. cbn [negb].
  rewrite (parsed_header r Hl'), Hm, Hv, Hp. simpl. change (bigWord r 0 =? walMagicBigEndian) with (fileIsBig r).
  rewrite (header_word r 24 28), (header_word r 28 32), slice_slice by (done || lia).
  change (slice 0 24 r) with (region r 0 24). subst s. unfold coveredUpTo. cbn [seq map concat]. rewrite app_nil_r.
  rewrite checksum_is_reference, Hc, !Z.eqb_refl. cbn [negb orb fst snd].
  assert (Z.quot (zlen r - walHeaderSize) (bigWord r 8 + walFrameHeaderSize) = frameCount r) as ->; [|by unfold sqliteChecksum in Hc; injection Hc as -> ->].
  apply Z.quot_div_nonneg; apply Z.leb_le in Hp; unfold walHeaderSize, walFrameHeaderSize; lia.
Qed.

Lemma walk_rejected r : headerSound r = false ->
  exists g, readWALGeneration (Some r) = (g, true) /\ wg_header g = fileHeader r /\ wg_fileBytes g = zlen r /\
    wg_writtenFrames g = 0 /\ wg_committedFrames g = 0.
Proof.
  intros Hs. unfold fileHeader. rewrite Hs. unfold headerSound in Hs. unfold readWALGeneration, walkWALGeneration, ReadAt.
  change (0 + walHeaderSize) with 32. destruct (32 <=? zlen r) eqn:Hl; cbn [negb andb] in *; [|by eexists].
  assert (32 <= zlen r) as Hl' by (by apply Z.leb_le). rewrite (parsed_header r Hl'). simpl.
  destruct (_ && (512 <=? bigWord r 8)); cbn [negb andb] in *; [|by eexists].
  change (bigWord r 0 =? walMagicBigEndian) with (fileIsBig r).
  rewrite (header_word r 24 28), (header_word r 28 32), slice_slice, checksum_is_reference by (done || lia). change (slice 0 24 r) with (region r 0 24).
  destruct (sqliteChecksum _ _) as [s0 s1]. rewrite sums_agree, Hs. cbn [negb]. by eexists.
Qed.

(** C27: reading a WAL file, whatever its bytes, gives what the file format says of
    it.  The header reported is the one in the file, field by field, and is valid
    exactly when its magic, version and page size are of the format and its stored
    checksum is SQLite's of its first 24 bytes.  Under a valid header the written frames are the longest
    run, from the start, of frames that carry the header's salts and whose stored
    checksum is SQLite's of the header and of all frames up to them; the committed frames end
    at the last of those with a database size; both ends lie inside the file.  Under
    any other header no frame is counted. *)
Theorem walk_is_reference r :
  exists g, readWALGeneration (Some r) = (g, true) /\ wg_header g = fileHeader r /\ wg_fileBytes g = zlen r /\
  if headerSound r
  then wg_frameSize g = frameSize r /\ wg_frameSlots g = frameCount r /\
       (exists written committed, wg_writtenFrames g = Z.of_nat written /\ wg_committedFrames g = Z.of_nat committed /\
          generationOf r written committed) /\
       walHeaderSize <= generationEnd g <= writtenEnd g /\ writtenEnd g <= zlen r
  else wg_writtenFrames g = 0 /\ wg_committedFrames g = 0.
Proof.
  destruct (headerSound r) eqn:Hs; [|by apply walk_rejected]. rewrite (walk_loop r Hs). unfold headerSound in Hs.
  rewrite !andb_true_iff, !Z.leb_le in Hs. destruct Hs as ((((Hl & _) & _) & Hp) & _).
  assert (0 < frameSize r) as Hz by (unfold frameSize; lia).
  assert (0 <= frameCount r) as Hc by (apply Z.div_pos; lia).
  set (g0 := mkGeneration _ _ _ _ _ _).
  assert (walkedTo r g0 0 0) as Hw.
  { unfold g0, fileHeader. rewrite (proj2 (Z.leb_le _ _) Hl). split; try done; try lia; by left. }
  destruct (walk_from r Hl Hp (Z.to_nat (frameCount r)) 0 g0 0 ltac:(lia) Hw) as (written & committed & g & Hrun & Hg & Hw' & Hh & Hb & Hsl).
  exists g. destruct Hw' as [Hsize _ _ Hwr Hcm _ Hle _ _]. split_and!; try done; [by exists written, committed|..];
    unfold generationEnd, writtenEnd; rewrite ?Hwr, ?Hcm, Hsize; unfold walHeaderSize; try nia.
  pose proof (go_inside _ _ _ Hg). unfold frameCount in *. pose proof (Z.mul_div_le (zlen r - 32) (frameSize r) Hz). nia.
Qed.

(** A file of two frames, the first a commit, with a frame of an earlier generation behind them. *)
Example sample_reference :
  let r := walBytes true 512 1 5 6 sampleFrames sampleTail in
  headerSound r = true /\ map (frameSound r) [0; 1; 2]%nat = [true; true; false] /\ map (frameCommits r) [0; 1]%nat = [true; false].
Proof. by vm_compute. Qed.
