(* ===== verification/LoadSupervisor.v ===== *)
(** The load generator's supervisor: [internal/worker/load_supervisor.go].

    The supervising goroutine, the callers of [Pause], [Resume] and [Stop], the
    child processes and the clock run concurrently: they are the steps of a
    transition system, one step per critical section of [mu] and per statement
    outside it that another goroutine can observe.  A process is live (stopped
    by a signal or not, interrupted or not), exited and not waited for, or
    waited for; signalling it fails only then, as "process gone".  A channel is
    an identifier, closed or not; closing one twice panics. *)
From S2P Require Import Prelude.

Inductive pstate := Live (sigstopped interrupted : bool) | Zombie | Reaped.
Inductive signal := SIGSTOP | SIGCONT | Interrupt.

(** The state after the signal and whether it was delivered ([isProcessGoneError] otherwise). *)
Definition deliver (s : signal) (p : pstate) : pstate * bool :=
  match p, s with
  | Live _ i, SIGSTOP => (Live true i, true)
  | Live _ i, SIGCONT => (Live false i, true)
  | Live st _, Interrupt => (Live st true, true)
  | Zombie, _ => (Zombie, true)
  | Reaped, _ => (Reaped, false)
  end.

Record loadSupervisor := mkSup {
  ls_cmd : option nat;
  ls_exited : bool;
  ls_paused : bool;
  ls_stopped : bool;
  ls_resumeCh : option nat;
  ls_procDone : option nat;
  ls_initialBackoff : duration;
  ls_maxBackoff : duration;
  ls_healthyReset : duration
}.
#[export] Instance loadSupervisor_eta : Settable loadSupervisor :=
  fun s => mkSup (ls_cmd s) (ls_exited s) (ls_paused s) (ls_stopped s) (ls_resumeCh s) (ls_procDone s)
             (ls_initialBackoff s) (ls_maxBackoff s) (ls_healthyReset s).
Definition newLoadSupervisor : loadSupervisor :=
  mkSup None false false false None None (5 * Second) (2 * Minute) (5 * Minute).

(** Where the supervising goroutine is. *)
Inductive pc :=
| PWait (cmd done : nat) (backoff : duration)      (* cmd.Wait() *)
| PMark (cmd done : nat) (backoff : duration)      (* waited for; about to set exited *)
| PGauge (done : nat) (backoff : duration)         (* about to report the load as not running *)
| PClose (done : nat) (backoff : duration)         (* about to close(done) *)
| PDecide (backoff : duration)                     (* about to look at ctx and isStopped *)
| PBackoff (backoff : duration)                    (* time.After(backoff) *)
| PCheck (backoff : duration)                      (* about to enter waitWhilePaused's critical section *)
| PBlocked (ch : nat) (backoff : duration)         (* waiting for resume *)
| PStart (backoff : duration)                      (* about to call startCmd *)
| PCommit (next : nat) (backoff : duration)        (* started; about to publish the process *)
| PInterrupt (next done : nat) (backoff : duration) (* published; about to interrupt it, Stop having run *)
| PReturned.

(** Where a caller of [Stop] is. *)
Inductive stopPC :=
| SSignal (cmd : option nat) (exited : bool) (done : option nat)
| SWait (done : option nat)
| SGauge
| SReturned.

Record world := mkWorld {
  w_sup : loadSupervisor;
  w_procs : gmap nat pstate;
  w_closed : gset nat;
  w_fresh : nat;             (* every process and channel identifier is below it *)
  w_loadRunning : bool;      (* SetLoadRunning *)
  w_ctxDone : bool;
  w_pc : pc;
  w_stops : list stopPC;
  w_panicked : bool
}.
#[export] Instance world_eta : Settable world :=
  fun w => mkWorld (w_sup w) (w_procs w) (w_closed w) (w_fresh w) (w_loadRunning w) (w_ctxDone w) (w_pc w)
             (w_stops w) (w_panicked w).

Definition closeCh (c : nat) (w : world) : world :=
  if decide (c ∈ w_closed w) then w <| w_panicked := true |> else w <| w_closed := {[c]} ∪ w_closed w |>.
Definition closeResume (w : world) : world :=
  match ls_resumeCh (w_sup w) with
  | Some c => (closeCh c w) <| w_sup := (w_sup w) <| ls_resumeCh := None |> |>
  | None => w
  end.
(** [if s.resumeCh == nil { s.resumeCh = make(chan struct{}) }] *)
Definition makeResume (w : world) : world :=
  match ls_resumeCh (w_sup w) with
  | Some _ => w
  | None => w <| w_sup := (w_sup w) <| ls_resumeCh := Some (w_fresh w) |> |> <| w_fresh := S (w_fresh w) |>
  end.
(** [cmd.Process.Signal]: the world and whether it was delivered. *)
Definition kill (s : signal) (p : nat) (w : world) : world * bool :=
  match w_procs w !! p with
  | Some st => let '(st', ok) := deliver s st in (w <| w_procs := <[p := st']> (w_procs w) |>, ok)
  | None => (w, false)
  end.

(** [start]: the first process is published and the goroutine launched. *)
Definition start (ctxDone : bool) : world :=
  mkWorld (newLoadSupervisor <| ls_cmd := Some 0 |> <| ls_procDone := Some 1 |>)
    {[0 := Live false false]} ∅ 2 true ctxDone (PWait 0 1 (ls_initialBackoff newLoadSupervisor)) [] false.

Definition Pause (w : world) : world :=
  let w := makeResume (w <| w_sup := (w_sup w) <| ls_paused := true |> |>) in
  match ls_exited (w_sup w), ls_cmd (w_sup w) with
  | false, Some p => let '(w, ok) := kill SIGSTOP p w in if ok then w <| w_loadRunning := false |> else w
  | _, _ => w
  end.

Definition Resume (w : world) : world :=
  let w := closeResume (w <| w_sup := (w_sup w) <| ls_paused := false |> |>) in
  match ls_exited (w_sup w), ls_cmd (w_sup w) with
  | false, Some p => let '(w, ok) := kill SIGCONT p w in if ok then w <| w_loadRunning := true |> else w
  | _, _ => w
  end.

(** [Stop] in its four parts: the critical section, the signals, the wait, the gauge. *)
Definition stopBegin (w : world) : world :=
  let w := closeResume (w <| w_sup := (w_sup w) <| ls_stopped := true |> |>) in
  w <| w_stops := w_stops w ++ [SSignal (ls_cmd (w_sup w)) (ls_exited (w_sup w)) (ls_procDone (w_sup w))] |>.
Definition stopSignal (cmd : option nat) (exited : bool) (w : world) : world :=
  match cmd, exited with
  | Some p, false => fst (kill Interrupt p (fst (kill SIGCONT p w)))
  | _, _ => w
  end.
Definition stopReady (done : option nat) (w : world) : bool :=
  match done with Some c => bool_decide (c ∈ w_closed w) | None => true end.
Definition setStop (i : nat) (s : stopPC) (w : world) : world := w <| w_stops := <[i := s]> (w_stops w) |>.

(** The supervisor's own steps. *)
Definition doubleBackoff (s : loadSupervisor) (backoff : duration) : duration :=
  if (backoff <? ls_maxBackoff s)%Z then
    let backoff := int64 (backoff * 2) in if (ls_maxBackoff s <? backoff)%Z then ls_maxBackoff s else backoff
  else backoff.

Definition checkPaused (backoff : duration) (w : world) : world :=
  if ls_stopped (w_sup w) then w <| w_pc := PReturned |>
  else if negb (ls_paused (w_sup w)) then w <| w_pc := PStart backoff |>
  else let w := makeResume w in
       match ls_resumeCh (w_sup w) with
       | Some ch => w <| w_pc := PBlocked ch backoff |>
       | None => w
       end.

Definition commit (next : nat) (backoff : duration) (w : world) : world :=
  let done := w_fresh w in
  let w := w <| w_fresh := S done |>
             <| w_sup := (w_sup w) <| ls_cmd := Some next |> <| ls_exited := false |> <| ls_procDone := Some done |> |> in
  let w := if ls_paused (w_sup w) then fst (kill SIGSTOP next w) else w <| w_loadRunning := true |> in
  w <| w_pc := if ls_stopped (w_sup w) then PInterrupt next done backoff else PWait next done backoff |>.

Inductive label := LPause | LResume | LStop | LStopper | LSupervisor | LExit (p : nat) | LCancel.

Inductive step : label -> world -> world -> Prop :=
(* the callers *)
| step_pause w : step LPause w (Pause w)
| step_resume w : step LResume w (Resume w)
| step_stop w : step LStop w (stopBegin w)
| step_stop_signal w i cmd exited done :
    w_stops w !! i = Some (SSignal cmd exited done) ->
    step LStopper w (setStop i (SWait done) (stopSignal cmd exited w))
| step_stop_wait w i done :
    w_stops w !! i = Some (SWait done) -> stopReady done w = true -> step LStopper w (setStop i SGauge w)
| step_stop_return w i :
    w_stops w !! i = Some SGauge -> step LStopper w (setStop i SReturned (w <| w_loadRunning := false |>))
| step_cancel w : step LCancel w (w <| w_ctxDone := true |>)
(* a process exits by itself, by a signal or by the end of its context *)
| step_exit w p st i :
    w_procs w !! p = Some (Live st i) -> step (LExit p) w (w <| w_procs := <[p := Zombie]> (w_procs w) |>)
(* the supervising goroutine *)
| step_waited w cmd done backoff :
    w_pc w = PWait cmd done backoff -> w_procs w !! cmd = Some Zombie ->
    step LSupervisor w (w <| w_procs := <[cmd := Reaped]> (w_procs w) |> <| w_pc := PMark cmd done backoff |>)
| step_mark w cmd done backoff :
    w_pc w = PMark cmd done backoff ->
    step LSupervisor w (w <| w_sup := (w_sup w) <| ls_exited := true |> |> <| w_pc := PGauge done backoff |>)
| step_gauge w done backoff :
    w_pc w = PGauge done backoff -> step LSupervisor w (w <| w_loadRunning := false |> <| w_pc := PClose done backoff |>)
| step_close w done backoff :
    w_pc w = PClose done backoff -> step LSupervisor w ((closeCh done w) <| w_pc := PDecide backoff |>)
| step_done w backoff :
    w_pc w = PDecide backoff -> w_ctxDone w = true \/ ls_stopped (w_sup w) = true ->
    step LSupervisor w (w <| w_pc := PReturned |>)
| step_restart w backoff (ranFor : duration) :
    w_pc w = PDecide backoff -> w_ctxDone w = false -> ls_stopped (w_sup w) = false ->
    step LSupervisor w
      (w <| w_pc := PBackoff (if (ls_healthyReset (w_sup w) <=? ranFor)%Z then ls_initialBackoff (w_sup w) else backoff) |>)
| step_timer w backoff :
    w_pc w = PBackoff backoff -> step LSupervisor w (w <| w_pc := PCheck (doubleBackoff (w_sup w) backoff) |>)
| step_timer_cancelled w backoff :
    w_pc w = PBackoff backoff -> w_ctxDone w = true -> step LSupervisor w (w <| w_pc := PReturned |>)
| step_check w backoff :
    w_pc w = PCheck backoff -> step LSupervisor w (checkPaused backoff w)
| step_resumed w ch backoff :
    w_pc w = PBlocked ch backoff -> ch ∈ w_closed w -> step LSupervisor w (w <| w_pc := PCheck backoff |>)
| step_blocked_cancelled w ch backoff :
    w_pc w = PBlocked ch backoff -> w_ctxDone w = true -> step LSupervisor w (w <| w_pc := PReturned |>)
| step_started w backoff :
    w_pc w = PStart backoff ->
    step LSupervisor w (w <| w_procs := <[w_fresh w := Live false false]> (w_procs w) |> <| w_fresh := S (w_fresh w) |>
                          <| w_pc := PCommit (w_fresh w) backoff |>)
| step_start_failed w backoff :
    w_pc w = PStart backoff -> step LSupervisor w (w <| w_pc := PBackoff backoff |>)
| step_commit w next backoff :
    w_pc w = PCommit next backoff -> step LSupervisor w (commit next backoff w)
| step_interrupt w next done backoff :
    w_pc w = PInterrupt next done backoff ->
    step LSupervisor w ((fst (kill Interrupt next w)) <| w_pc := PWait next done backoff |>).

Inductive reachable : world -> Prop :=
| reach_start ctxDone : reachable (start ctxDone)
| reach_step l w w' : reachable w -> step l w w' -> reachable w'.

(** * The invariant *)

(** The channel the goroutine has still to close, the process it may leave
    running, the one it has published, its backoff. *)
Definition pcDone (c : pc) : option nat :=
  match c with
  | PWait _ d _ | PMark _ d _ | PInterrupt _ d _ | PGauge d _ | PClose d _ => Some d
  | _ => None
  end.
Definition pcProc (c : pc) : option nat :=
  match c with PWait p _ _ | PInterrupt p _ _ | PCommit p _ => Some p | _ => None end.
Definition pcPublished (c : pc) : option nat :=
  match c with PWait p _ _ | PMark p _ _ | PInterrupt p _ _ => Some p | _ => None end.
Definition pcBackoff (c : pc) : option duration :=
  match c with
  | PWait _ _ b | PMark _ _ b | PInterrupt _ _ b | PGauge _ b | PClose _ b | PDecide b | PBackoff b | PCheck b
  | PBlocked _ b | PStart b | PCommit _ b => Some b
  | PReturned => None
  end.
Definition stopDone (s : stopPC) : option nat :=
  match s with SSignal _ _ d | SWait d => d | _ => None end.

(** Channels: none is closed twice, and whoever waits on one waits for a channel that will be closed. *)
Record chanInv (w : world) : Prop := {
  ci_panic : w_panicked w = false;
  ci_closed : forall c, c ∈ w_closed w -> c < w_fresh w;
  ci_done : forall d, pcDone (w_pc w) = Some d ->
    (d ∉ w_closed w) /\ d < w_fresh w /\ ls_procDone (w_sup w) = Some d /\ ls_resumeCh (w_sup w) <> Some d;
  ci_past : pcDone (w_pc w) = None -> exists d, ls_procDone (w_sup w) = Some d /\ d ∈ w_closed w;
  ci_resume : forall c, ls_resumeCh (w_sup w) = Some c -> (c ∉ w_closed w) /\ c < w_fresh w;
  ci_noresume : ls_resumeCh (w_sup w) = None -> ls_paused (w_sup w) = false \/ ls_stopped (w_sup w) = true;
  ci_blocked : forall ch b, w_pc w = PBlocked ch b ->
    ch ∈ w_closed w \/ ls_resumeCh (w_sup w) = Some ch /\ ls_paused (w_sup w) = true /\ ls_stopped (w_sup w) = false;
  ci_stops : forall i s d, w_stops w !! i = Some s -> stopDone s = Some d -> d ∈ w_closed w \/ pcDone (w_pc w) = Some d;
  ci_limits : (ls_initialBackoff (w_sup w) = 5 * Second /\ ls_maxBackoff (w_sup w) = 2 * Minute)%Z;
  ci_backoff : forall b, pcBackoff (w_pc w) = Some b -> (5 * Second <= b <= 2 * Minute)%Z
}.

(** Processes: every one but the goroutine's own has been waited for. *)
Record procInv (w : world) : Prop := {
  pi_procs : forall p st, w_procs w !! p = Some st -> p < w_fresh w /\ (st = Reaped \/ pcProc (w_pc w) = Some p);
  pi_live : forall p, pcProc (w_pc w) = Some p -> exists st, w_procs w !! p = Some st /\ st <> Reaped;
  pi_published : match pcPublished (w_pc w) with
                 | Some p => ls_cmd (w_sup w) = Some p /\ ls_exited (w_sup w) = false
                 | None => ls_exited (w_sup w) = true
                 end
}.

(** A paused supervisor's process is stopped. *)
Definition pauseInv (w : world) : Prop :=
  forall p st i, ls_paused (w_sup w) = true -> ls_stopped (w_sup w) = false ->
    pcPublished (w_pc w) = Some p -> w_procs w !! p = Some (Live st i) -> st = true.

(** ** Signals touch the processes only *)

Lemma kill_procs s p w : w_procs (fst (kill s p w)) = alter (fun st => fst (deliver s st)) p (w_procs w).
Proof.
  unfold kill. destruct (w_procs w !! p) as [st|] eqn:E.
  - destruct (deliver s st) as [st' ok] eqn:Ed. apply map_eq. intros q. simpl.
    destruct (decide (q = p)) as [->|]; [by rewrite lookup_insert_eq, lookup_alter_eq, E; simpl; rewrite Ed|].
    by rewrite lookup_insert_ne, lookup_alter_ne.
  - apply map_eq. intros q. destruct (decide (q = p)) as [->|]; [by rewrite lookup_alter_eq, E|by rewrite lookup_alter_ne].
Qed.

Lemma kill_frame s p w :
  w_sup (fst (kill s p w)) = w_sup w /\ w_closed (fst (kill s p w)) = w_closed w /\ w_fresh (fst (kill s p w)) = w_fresh w /\
  w_pc (fst (kill s p w)) = w_pc w /\ w_stops (fst (kill s p w)) = w_stops w /\ w_panicked (fst (kill s p w)) = w_panicked w.
Proof. unfold kill. destruct (w_procs w !! p); [|done]. by destruct (deliver s _). Qed.

Lemma kill_status s p w q st' :
  w_procs (fst (kill s p w)) !! q = Some st' ->
  exists st, w_procs w !! q = Some st /\ (st = Reaped <-> st' = Reaped) /\
    forall a i, st' = Live a i -> exists a' i', st = Live a' i' /\
      a = (if decide (q = p) then match s with SIGSTOP => true | SIGCONT => false | Interrupt => a' end else a').
Proof.
  rewrite kill_procs. destruct (decide (q = p)) as [->|Hq].
  - rewrite lookup_alter_eq. destruct (w_procs w !! p) as [st|]; [|done]. simpl. intros [= <-]. exists st. split; [done|].
    destruct st, s; simpl; (split; [done|]); intros a i E; try discriminate; injection E as <- <-; eauto.
  - rewrite lookup_alter_ne by done. intros E. exists st'. split; [done|]. split; [done|]. intros a i ->. eauto.
Qed.

Lemma kill_lookup s p w q st : w_procs w !! q = Some st ->
  exists st', w_procs (fst (kill s p w)) !! q = Some st' /\ (st' = Reaped <-> st = Reaped).
Proof.
  intros E. rewrite kill_procs. destruct (decide (q = p)) as [->|Hq].
  - rewrite lookup_alter_eq, E. simpl. eexists. split; [done|]. by destruct st, s.
  - rewrite lookup_alter_ne by done. eauto.
Qed.

(** The channel part does not look at the processes or at the gauge. *)
Lemma chanInv_frame w w' :
  w_sup w' = w_sup w -> w_closed w' = w_closed w -> w_fresh w' = w_fresh w -> w_pc w' = w_pc w ->
  w_stops w' = w_stops w -> w_panicked w' = w_panicked w -> chanInv w -> chanInv w'.
Proof. intros E1 E2 E3 E4 E5 E6 []. constructor; rewrite ?E1, ?E2, ?E3, ?E4, ?E5, ?E6; done. Qed.

Lemma chanInv_kill s p w : chanInv w -> chanInv (fst (kill s p w)).
Proof. destruct (kill_frame s p w) as (?&?&?&?&?&?). by apply chanInv_frame. Qed.

Lemma procInv_kill s p w : procInv w -> procInv (fst (kill s p w)).
Proof.
  intros [H1 H2 H3]. destruct (kill_frame s p w) as (E1 & _ & E3 & E4 & _).
  constructor; rewrite ?E1, ?E3, ?E4; try done.
  - intros q st' (st & Hq & Hr & _)%kill_status. destruct (H1 q st Hq) as [? [?|?]]; split; try done; [left; tauto|by right].
  - intros q Hq. destruct (H2 q Hq) as (st & Hst & Hne). destruct (kill_lookup s p w q st Hst) as (st' & ? & ?).
    exists st'. split; [done|]. tauto.
Qed.

(** A signal other than SIGCONT keeps a stopped process stopped. *)
Lemma pauseInv_kill s p w : s <> SIGCONT -> pauseInv w -> pauseInv (fst (kill s p w)).
Proof.
  intros Hs H q st' i. destruct (kill_frame s p w) as (-> & _ & _ & -> & _). intros Hp Hst Hq (st & Hl & _ & HL)%kill_status.
  destruct (HL st' i eq_refl) as (a & i' & -> & ->). rewrite (H q a i' Hp Hst Hq Hl). by destruct (decide (q = p)), s.
Qed.

(** ** The callers *)

(** The record updates of the model, computed away. *)
Ltac world_simpl := cbn [w_sup w_procs w_closed w_fresh w_loadRunning w_ctxDone w_pc w_stops w_panicked
  ls_cmd ls_exited ls_paused ls_stopped ls_resumeCh ls_procDone ls_initialBackoff ls_maxBackoff ls_healthyReset
  pcDone pcProc pcPublished pcBackoff stopDone set_field] in *.

Lemma pause_chan w : chanInv w -> chanInv (makeResume (w <| w_sup := (w_sup w) <| ls_paused := true |> |>)).
Proof.
  destruct w as [[cmd ex pa stp rc pd ib mb hr] procs closed fresh run ctx c stops pn]. intros [C1 C2 C3 C4 C5 C6 C7 C8 C9 C10].
  unfold makeResume. simpl in *. destruct rc as [ch|]; simpl.
  - constructor; simpl; try done. intros ch' b E. destruct (C7 ch' b E) as [?|(? & _ & ?)]; auto.
  - constructor; simpl; try done.
    + intros d Hd. specialize (C2 d Hd). lia.
    + intros d Hd. destruct (C3 d Hd) as (? & ? & ? & _). split_and!; try done; [lia|]. intros [= ->]. lia.
    + intros d [= <-]. split; [|lia]. intros Hd. specialize (C2 _ Hd). lia.
    + intros ch b E. destruct (C7 ch b E) as [?|(? & _)]; [by left|done].
Qed.

Lemma closeResume_chan w :
  chanInv w ->
  forall sup', ls_resumeCh sup' = ls_resumeCh (w_sup w) -> ls_procDone sup' = ls_procDone (w_sup w) ->
  ls_initialBackoff sup' = ls_initialBackoff (w_sup w) -> ls_maxBackoff sup' = ls_maxBackoff (w_sup w) ->
  ls_paused sup' = false \/ ls_stopped sup' = true ->
  chanInv (closeResume (w <| w_sup := sup' |>)).
Proof.
  intros [C1 C2 C3 C4 C5 C6 C7 C8 C9 C10] sup' E1 E2 E3 E4 Hf.
  unfold closeResume. simpl. rewrite E1. destruct (ls_resumeCh (w_sup w)) as [ch|] eqn:Er.
  - unfold closeCh. simpl. destruct (C5 ch eq_refl) as [Hn Hlt]. rewrite decide_False by done.
    constructor; simpl; rewrite ?E2, ?E3, ?E4; try done.
    + intros d [->%elem_of_singleton|?]%elem_of_union; auto.
    + intros d Hd. destruct (C3 d Hd) as (? & ? & ? & ?). split_and!; try done.
      intros [->%elem_of_singleton|?]%elem_of_union; done.
    + intros Hd. destruct (C4 Hd) as (d & ? & ?). exists d. split; [done|set_solver].
    + intros ch' b E. left. destruct (C7 ch' b E) as [?|([= <-] & _)]; set_solver.
    + intros i s d Hs Hd. destruct (C8 i s d Hs Hd); [left; set_solver|by right].
  - constructor; simpl; rewrite ?E1, ?E2, ?E3, ?E4; try done.
    intros ch b E. destruct (C7 ch b E) as [?|(? & _)]; [by left|done].
Qed.

Lemma resume_chan w : chanInv w -> chanInv (closeResume (w <| w_sup := (w_sup w) <| ls_paused := false |> |>)).
Proof. intros H. apply closeResume_chan; auto. Qed.

Lemma stop_chan w : chanInv w -> chanInv (stopBegin w).
Proof.
  intros H. unfold stopBegin. cbv zeta.
  assert (chanInv (closeResume (w <| w_sup := (w_sup w) <| ls_stopped := true |> |>))) as H' by (apply closeResume_chan; auto).
  set (w' := closeResume _) in *. clearbody w'. destruct H' as [C1 C2 C3 C4 C5 C6 C7 C8 C9 C10].
  constructor; simpl; try done. intros i s d Hs Hd. apply lookup_app_Some in Hs as [Hs|[_ Hs]]; [by eapply C8|].
  apply list_lookup_singleton_Some in Hs as [_ <-]. simpl in Hd.
  destruct (pcDone (w_pc w')) as [d'|] eqn:Ep.
  - destruct (C3 d' eq_refl) as (_ & _ & E & _). right. congruence.
  - destruct (C4 eq_refl) as (d' & E & ?). left. congruence.
Qed.

Lemma setStop_chan w i s s' :
  chanInv w -> w_stops w !! i = Some s -> (forall d, stopDone s' = Some d -> stopDone s = Some d) -> chanInv (setStop i s' w).
Proof.
  intros [C1 C2 C3 C4 C5 C6 C7 C8 C9 C10] Hs Hd. constructor; simpl; try done. intros j t d Ht Htd.
  destruct (decide (j = i)) as [->|]; [|rewrite list_lookup_insert_ne in Ht by done; by eapply C8].
  rewrite list_lookup_insert_eq in Ht by (by eapply lookup_lt_Some). injection Ht as <-. eapply C8; eauto.
Qed.

(** ** The goroutine *)

Definition sameChannels (s s' : loadSupervisor) : Prop :=
  ls_resumeCh s' = ls_resumeCh s /\ ls_procDone s' = ls_procDone s /\ ls_paused s' = ls_paused s /\
  ls_stopped s' = ls_stopped s /\ ls_initialBackoff s' = ls_initialBackoff s /\ ls_maxBackoff s' = ls_maxBackoff s.

Lemma chan_move w w' :
  chanInv w -> sameChannels (w_sup w) (w_sup w') -> w_closed w' = w_closed w -> w_fresh w <= w_fresh w' ->
  w_stops w' = w_stops w -> w_panicked w' = w_panicked w -> pcDone (w_pc w') = pcDone (w_pc w) ->
  (forall ch b, w_pc w' <> PBlocked ch b) ->
  (forall b, pcBackoff (w_pc w') = Some b -> (5 * Second <= b <= 2 * Minute)%Z) -> chanInv w'.
Proof.
  intros [C1 C2 C3 C4 C5 C6 C7 C8 C9 C10] (E1 & E2 & E3 & E4 & E5 & E6) Ec Ef Es Ep Ed Hb Hbo.
  constructor; rewrite ?E1, ?E2, ?E3, ?E4, ?E5, ?E6, ?Ec, ?Es, ?Ep, ?Ed; try done.
  - intros c Hc. specialize (C2 c Hc). lia.
  - intros d Hd. destruct (C3 d Hd) as (? & ? & ?). split_and!; try tauto. lia.
  - intros c Hc. destruct (C5 c Hc). split; [done|lia].
  - intros ch b E. by destruct (Hb ch b).
Qed.

Lemma doubleBackoff_bounds s b :
  ls_maxBackoff s = (2 * Minute)%Z -> (5 * Second <= b <= 2 * Minute)%Z -> (5 * Second <= doubleBackoff s b <= 2 * Minute)%Z.
Proof.
  intros E Hb. unfold doubleBackoff. rewrite E. assert (int64 (b * 2) = b * 2)%Z as ->.
  { apply int64_small. unfold min_int64, max_int64, Minute, Second in *. lia. }
  destruct (Z.ltb_spec b (2 * Minute)); [|lia]. destruct (Z.ltb_spec (2 * Minute) (b * 2)); unfold Minute, Second in *; lia.
Qed.

Lemma close_chan w done backoff :
  chanInv w -> w_pc w = PClose done backoff -> chanInv ((closeCh done w) <| w_pc := PDecide backoff |>).
Proof.
  intros [C1 C2 C3 C4 C5 C6 C7 C8 C9 C10] E. rewrite E in *. simpl in *.
  destruct (C3 done eq_refl) as (Hn & Hlt & Hp & Hr). unfold closeCh. rewrite decide_False by done.
  constructor; simpl; try done.
  - intros c [->%elem_of_singleton|?]%elem_of_union; auto.
  - intros _. exists done. split; [done|set_solver].
  - intros c Hc. destruct (C5 c Hc). split; [|done]. intros [->%elem_of_singleton|?]%elem_of_union; done.
  - intros i s d Hs Hd. left. destruct (C8 i s d Hs Hd) as [?|[= <-]]; set_solver.
Qed.

Lemma makeResume_sup w : exists ch, ls_resumeCh (w_sup (makeResume w)) = Some ch.
Proof. unfold makeResume. destruct (ls_resumeCh (w_sup w)) eqn:E; simpl; eauto. Qed.

Lemma check_chan w backoff : chanInv w -> w_pc w = PCheck backoff -> chanInv (checkPaused backoff w).
Proof.
  intros H E. pose proof (ci_backoff _ H) as Hbo. rewrite E in Hbo. unfold checkPaused.
  destruct (ls_stopped (w_sup w)) eqn:Es; [apply (chan_move w); try done; by rewrite E|].
  destruct (ls_paused (w_sup w)) eqn:Ep; cbn [negb]; [|apply (chan_move w); try done; by rewrite E].
  assert (chanInv (makeResume w)) as Hm.
  { replace w with (w <| w_sup := (w_sup w) <| ls_paused := true |> |>); [by apply pause_chan|].
    clear - Ep. destruct w as [[]]. simpl in *. by subst. }
  assert (ls_paused (w_sup (makeResume w)) = true /\ ls_stopped (w_sup (makeResume w)) = false /\
    w_pc (makeResume w) = PCheck backoff) as (Hp & Hs & Hc).
  { unfold makeResume. destruct (ls_resumeCh (w_sup w)); by simpl. }
  destruct (makeResume_sup w) as [ch Hch]. rewrite Hch. set (w' := makeResume w) in *. clearbody w'.
  destruct Hm as [C1 C2 C3 C4 C5 C6 C7 C8 C9 C10]. rewrite Hc in *. constructor; simpl; try done.
  intros ch' b [= <- <-]. right. done.
Qed.

Lemma commit_chan w next backoff : chanInv w -> w_pc w = PCommit next backoff -> chanInv (commit next backoff w).
Proof.
  intros [C1 C2 C3 C4 C5 C6 C7 C8 C9 C10] E. rewrite E in *. unfold commit. cbv zeta.
  set (w1 := (w <| w_fresh := S (w_fresh w) |>) <| w_sup := _ |>).
  set (w2 := if ls_paused (w_sup w1) then _ else _).
  assert (w_sup w2 = w_sup w1 /\ w_closed w2 = w_closed w /\ w_fresh w2 = S (w_fresh w) /\ w_stops w2 = w_stops w /\
    w_panicked w2 = w_panicked w) as (E1 & E2 & E3 & E4 & E5).
  { unfold w2. destruct (ls_paused (w_sup w1)); [|done]. destruct (kill_frame SIGSTOP next w1) as (?&?&?&?&?&?). done. }
  clearbody w2. simpl in C4. destruct (C4 eq_refl) as (d0 & _ & Hd0).
  assert (forall (b : bool) x,
    pcDone (if b then PInterrupt next (w_fresh w) backoff else PWait next (w_fresh w) backoff) = Some x -> x = w_fresh w) as Hpd.
  { by intros [] x [= <-]. }
  constructor; simpl; rewrite ?E1, ?E2, ?E3, ?E4, ?E5; simpl; try done.
  - intros c Hc. specialize (C2 c Hc). lia.
  - intros d Hd. apply Hpd in Hd as ->. split_and!; [|lia|done|].
    + intros Hc. specialize (C2 _ Hc). lia.
    + intros Hc. destruct (C5 _ Hc). lia.
  - by destruct (ls_stopped (w_sup w)).
  - intros c Hc. destruct (C5 c Hc). split; [done|lia].
  - intros ch b. by destruct (ls_stopped (w_sup w)).
  - intros i s d Hs Hd. destruct (C8 i s d Hs Hd) as [?|?]; [by left|done].
  - intros b Hb. apply C10. by destruct (ls_stopped (w_sup w)).
Qed.

Lemma chan_step l w w' : step l w w' -> chanInv w -> chanInv w'.
Proof.
  intros Hst H. pose proof (ci_backoff _ H) as Hbo. pose proof (ci_limits _ H) as Hlim. destruct Hst.
  - unfold Pause. cbv zeta. pose proof (pause_chan w H) as H'. set (w1 := makeResume _) in *. clearbody w1.
    destruct (ls_exited (w_sup w1)), (ls_cmd (w_sup w1)) as [p|]; try done.
    pose proof (chanInv_kill SIGSTOP p w1 H') as H2. destruct (kill SIGSTOP p w1) as [w2 []]; [|done].
    by apply (chanInv_frame w2).
  - unfold Resume. cbv zeta. pose proof (resume_chan w H) as H'. set (w1 := closeResume _) in *. clearbody w1.
    destruct (ls_exited (w_sup w1)), (ls_cmd (w_sup w1)) as [p|]; try done.
    pose proof (chanInv_kill SIGCONT p w1 H') as H2. destruct (kill SIGCONT p w1) as [w2 []]; [|done].
    by apply (chanInv_frame w2).
  - by apply stop_chan.
  - assert (chanInv (stopSignal cmd exited w) /\ w_stops (stopSignal cmd exited w) = w_stops w) as [H' E].
    { unfold stopSignal. destruct cmd as [p|], exited; try done. split; [by do 2 apply chanInv_kill|].
      destruct (kill_frame Interrupt p (fst (kill SIGCONT p w))) as (_ & _ & _ & _ & -> & _).
      by destruct (kill_frame SIGCONT p w) as (_ & _ & _ & _ & -> & _). }
    eapply setStop_chan; [done|by rewrite E|done].
  - by eapply setStop_chan.
  - eapply setStop_chan; [by apply (chanInv_frame w)|done|done].
  - by apply (chanInv_frame w).
  - by apply (chanInv_frame w).
  - apply (chan_move w); try done; simpl; rewrite H0 in *; done.
  - apply (chan_move w); try done; simpl; rewrite H0 in *; done.
  - apply (chan_move w); try done; simpl; rewrite H0 in *; done.
  - by apply close_chan.
  - apply (chan_move w); try done; simpl; rewrite H0 in *; done.
  - apply (chan_move w); try done; simpl; rewrite H0 in *; [done|]. intros b [= <-].
    destruct (_ <=? _)%Z; [destruct Hlim as [-> _]; unfold Minute, Second; lia|by apply Hbo].
  - apply (chan_move w); try done; simpl; rewrite H0 in *; [done|]. intros b [= <-].
    apply doubleBackoff_bounds; [apply Hlim|by apply Hbo].
  - apply (chan_move w); try done; simpl; rewrite H0 in *; done.
  - by apply check_chan.
  - apply (chan_move w); try done; simpl; rewrite H0 in *; done.
  - apply (chan_move w); try done; simpl; rewrite H0 in *; done.
  - apply (chan_move w); try done; simpl; rewrite ?H0 in *; [lia|done|done].
  - apply (chan_move w); try done; simpl; rewrite H0 in *; done.
  - by apply commit_chan.
  - destruct (kill_frame Interrupt next w) as (E1 & E2 & E3 & E4 & E5 & E6).
    apply (chan_move w); simpl; rewrite ?E1, ?E2, ?E3, ?E5, ?E6, ?H0 in *; done.
Qed.

Lemma proc_move w w' :
  procInv w -> w_procs w' = w_procs w -> w_fresh w <= w_fresh w' -> pcProc (w_pc w') = pcProc (w_pc w) ->
  match pcPublished (w_pc w') with
  | Some p => ls_cmd (w_sup w') = Some p /\ ls_exited (w_sup w') = false
  | None => ls_exited (w_sup w') = true
  end -> procInv w'.
Proof.
  intros [H1 H2 H3] E1 Ef Ep Hp. constructor; rewrite ?E1, ?Ep; try done.
  intros p st Hl. destruct (H1 p st Hl). split; [lia|done].
Qed.

Lemma makeResume_frame w :
  w_procs (makeResume w) = w_procs w /\ w_fresh w <= w_fresh (makeResume w) /\ w_pc (makeResume w) = w_pc w /\
  ls_cmd (w_sup (makeResume w)) = ls_cmd (w_sup w) /\ ls_exited (w_sup (makeResume w)) = ls_exited (w_sup w) /\
  ls_paused (w_sup (makeResume w)) = ls_paused (w_sup w) /\ ls_stopped (w_sup (makeResume w)) = ls_stopped (w_sup w).
Proof. unfold makeResume. destruct (ls_resumeCh (w_sup w)); split_and!; simpl; done || lia. Qed.

Lemma closeResume_frame w :
  w_procs (closeResume w) = w_procs w /\ w_fresh (closeResume w) = w_fresh w /\ w_pc (closeResume w) = w_pc w /\
  ls_cmd (w_sup (closeResume w)) = ls_cmd (w_sup w) /\ ls_exited (w_sup (closeResume w)) = ls_exited (w_sup w) /\
  ls_paused (w_sup (closeResume w)) = ls_paused (w_sup w) /\ ls_stopped (w_sup (closeResume w)) = ls_stopped (w_sup w).
Proof. unfold closeResume, closeCh. destruct (ls_resumeCh (w_sup w)); [|done]. by destruct (decide _). Qed.

Lemma pause_proc w : procInv w -> procInv (Pause w) /\ pauseInv (Pause w).
Proof.
  intros H. unfold Pause. cbv zeta. set (w0 := w <| w_sup := _ |>).
  destruct (makeResume_frame w0) as (E1 & E2 & E3 & E4 & E5 & E6 & E7).
  assert (procInv (makeResume w0)) as H'.
  { apply (proc_move w); rewrite ?E3, ?E4, ?E5; try done. apply H. }
  set (w1 := makeResume w0) in *. clearbody w1. pose proof (pi_published _ H') as Hp.
  destruct (ls_exited (w_sup w1)) eqn:Ex, (ls_cmd (w_sup w1)) as [p|] eqn:Ec;
    try (split; [done|]; intros q st i _ _ Hq; rewrite Hq in Hp; by destruct Hp).
  pose proof (procInv_kill SIGSTOP p w1 H') as H2. pose proof (kill_status SIGSTOP p w1) as Hk.
  destruct (kill_frame SIGSTOP p w1) as (F1 & _ & _ & F4 & _).
  destruct (pcPublished (w_pc w1)) as [p'|] eqn:Epub; [destruct Hp as [[= <-] _]|done].
  assert (pauseInv (fst (kill SIGSTOP p w1))) as H3.
  { intros q st i _ _ Hq (st0 & _ & _ & HL)%Hk. rewrite F4, Epub in Hq. injection Hq as <-.
    destruct (HL st i eq_refl) as (? & ? & _ & ->). by rewrite decide_True. }
  destruct (kill SIGSTOP p w1) as [w2 []]; [|done]. split; [|done]. by apply (proc_move w2), (pi_published _ H2).
Qed.

Lemma resume_proc w : procInv w -> procInv (Resume w) /\ pauseInv (Resume w).
Proof.
  intros H. unfold Resume. cbv zeta. set (w0 := w <| w_sup := _ |>).
  destruct (closeResume_frame w0) as (E1 & E2 & E3 & E4 & E5 & E6 & E7).
  assert (procInv (closeResume w0)) as H'.
  { apply (proc_move w); rewrite ?E2, ?E3, ?E4, ?E5; try done. apply H. }
  change (ls_paused (w_sup w0)) with false in E6. set (w1 := closeResume w0) in *. clearbody w1.
  assert (forall w2, w_sup w2 = w_sup w1 -> pauseInv w2) as Hno by (intros w2 E q st i Hpa; congruence).
  destruct (ls_exited (w_sup w1)), (ls_cmd (w_sup w1)) as [p|]; auto.
  pose proof (procInv_kill SIGCONT p w1 H') as H2. destruct (kill_frame SIGCONT p w1) as (F1 & _).
  destruct (kill SIGCONT p w1) as [w2 []]; split; auto. by apply (proc_move w2), (pi_published _ H2).
Qed.

Lemma stopSignal_proc cmd exited w : procInv w -> procInv (stopSignal cmd exited w).
Proof. unfold stopSignal. destruct cmd, exited; auto using procInv_kill. Qed.

Lemma stopSignal_frame cmd exited w :
  w_sup (stopSignal cmd exited w) = w_sup w /\ w_pc (stopSignal cmd exited w) = w_pc w /\
  w_closed (stopSignal cmd exited w) = w_closed w.
Proof.
  unfold stopSignal. destruct cmd as [p|], exited; try done.
  destruct (kill_frame Interrupt p (fst (kill SIGCONT p w))) as (-> & -> & _ & -> & _).
  by destruct (kill_frame SIGCONT p w) as (-> & -> & _ & -> & _).
Qed.

Lemma commit_proc w next backoff :
  procInv w -> w_pc w = PCommit next backoff -> procInv (commit next backoff w) /\ pauseInv (commit next backoff w).
Proof.
  intros [H1 H2 H3] E. rewrite E in *. unfold commit. cbv zeta.
  set (w1 := (w <| w_fresh := S (w_fresh w) |>) <| w_sup := _ |>).
  assert (forall w2, w_sup w2 = w_sup w1 ->
    (forall p st, w_procs w2 !! p = Some st -> p < w_fresh w2 /\ (st = Reaped \/ p = next)) ->
    (exists st, w_procs w2 !! next = Some st /\ st <> Reaped) ->
    procInv (w2 <| w_pc := if ls_stopped (w_sup w2) then PInterrupt next (w_fresh w) backoff else PWait next (w_fresh w) backoff |>)) as Hmk.
  { intros w2 Es Ha Hb. constructor; simpl; rewrite ?Es; destruct (ls_stopped _); simpl; try done.
    - intros p st Hl. destruct (Ha p st Hl) as [? [?| ->]]; auto.
    - intros p st Hl. destruct (Ha p st Hl) as [? [?| ->]]; auto.
    - by intros p [= <-].
    - by intros p [= <-]. }
  assert (forall p st, w_procs w !! p = Some st -> p < S (w_fresh w) /\ (st = Reaped \/ p = next)) as Hw.
  { intros p st Hl. destruct (H1 p st Hl) as [? [?|[= ->]]]; split; auto; lia. }
  destruct (H2 next eq_refl) as (st0 & Hst0 & Hne).
  destruct (ls_paused (w_sup w1)) eqn:Ep.
  - destruct (kill_frame SIGSTOP next w1) as (F1 & _ & F3 & F4 & _). split.
    + apply Hmk; [done| |].
      * intros p st (st1 & Hl & Hr & _)%kill_status. rewrite F3. destruct (Hw p st1 Hl) as [? [?|?]]; split; try done; tauto.
      * destruct (kill_lookup SIGSTOP next w1 next st0 Hst0) as (st' & ? & ?). exists st'. split; [done|tauto].
    + intros q st i _ _ Hq Hl. simpl in Hq, Hl. apply kill_status in Hl as (st1 & _ & _ & HL).
      destruct (HL st i eq_refl) as (? & ? & _ & ->).
      destruct (ls_stopped _); injection Hq as <-; by rewrite decide_True.
  - split; [by apply Hmk; eauto|]. intros q st i Hp. simpl in Hp, Ep. congruence.
Qed.

(** ** Stop *)

Definition stopInv (w : world) : Prop := w_stops w <> [] -> ls_stopped (w_sup w) = true.

Lemma Pause_stops w : w_stops (Pause w) = w_stops w /\ ls_stopped (w_sup (Pause w)) = ls_stopped (w_sup w).
Proof.
  unfold Pause. cbv zeta. set (w0 := w <| w_sup := _ |>).
  assert (w_stops (makeResume w0) = w_stops w /\ ls_stopped (w_sup (makeResume w0)) = ls_stopped (w_sup w)) as [E1 E2].
  { unfold makeResume. by destruct (ls_resumeCh (w_sup w0)). }
  set (w1 := makeResume w0) in *. clearbody w1. destruct (ls_exited (w_sup w1)), (ls_cmd (w_sup w1)) as [p|]; try done.
  destruct (kill_frame SIGSTOP p w1) as (F1 & _ & _ & _ & F5 & _). destruct (kill SIGSTOP p w1) as [w2 []]; simpl in *; split; congruence.
Qed.

Lemma Resume_stops w : w_stops (Resume w) = w_stops w /\ ls_stopped (w_sup (Resume w)) = ls_stopped (w_sup w).
Proof.
  unfold Resume. cbv zeta. set (w0 := w <| w_sup := _ |>).
  assert (w_stops (closeResume w0) = w_stops w /\ ls_stopped (w_sup (closeResume w0)) = ls_stopped (w_sup w)) as [E1 E2].
  { unfold closeResume, closeCh. destruct (ls_resumeCh (w_sup w0)); [|done]. by destruct (decide _). }
  set (w1 := closeResume w0) in *. clearbody w1. destruct (ls_exited (w_sup w1)), (ls_cmd (w_sup w1)) as [p|]; try done.
  destruct (kill_frame SIGCONT p w1) as (F1 & _ & _ & _ & F5 & _). destruct (kill SIGCONT p w1) as [w2 []]; simpl in *; split; congruence.
Qed.

Lemma commit_frame w next backoff :
  w_stops (commit next backoff w) = w_stops w /\ w_closed (commit next backoff w) = w_closed w /\
  ls_stopped (w_sup (commit next backoff w)) = ls_stopped (w_sup w) /\ ls_paused (w_sup (commit next backoff w)) = ls_paused (w_sup w) /\
  w_pc (commit next backoff w) =
    (if ls_stopped (w_sup w) then PInterrupt next (w_fresh w) backoff else PWait next (w_fresh w) backoff).
Proof.
  unfold commit. cbv zeta. set (w1 := (w <| w_fresh := S (w_fresh w) |>) <| w_sup := _ |>).
  destruct (kill_frame SIGSTOP next w1) as (F1 & F2 & _ & _ & F5 & _).
  destruct (ls_paused (w_sup w1)); [|done]. simpl. rewrite F1, F2, F5. done.
Qed.

Lemma checkPaused_frame w backoff :
  w_stops (checkPaused backoff w) = w_stops w /\ w_procs (checkPaused backoff w) = w_procs w /\
  w_fresh w <= w_fresh (checkPaused backoff w) /\
  ls_stopped (w_sup (checkPaused backoff w)) = ls_stopped (w_sup w) /\ ls_exited (w_sup (checkPaused backoff w)) = ls_exited (w_sup w).
Proof.
  unfold checkPaused. destruct (ls_stopped (w_sup w)) eqn:E; [done|]. destruct (ls_paused (w_sup w)); simpl; [|done].
  unfold makeResume. destruct (ls_resumeCh (w_sup w)) eqn:Er; simpl; [rewrite Er|]; simpl; split_and!; done || lia.
Qed.

Lemma stop_step l w w' : step l w w' -> stopInv w -> stopInv w'.
Proof.
  unfold stopInv. intros Hst H. destruct Hst; try exact H; try (by intros Hn; apply H; intros E; destruct Hn; simpl; rewrite E).
  - by destruct (Pause_stops w) as [-> ->].
  - by destruct (Resume_stops w) as [-> ->].
  - intros _. simpl. by destruct (closeResume_frame (w <| w_sup := (w_sup w) <| ls_stopped := true |> |>)) as (_ & _ & _ & _ & _ & _ & ->).
  - intros _. simpl. destruct (stopSignal_frame cmd exited w) as (-> & _). apply H. intros E. by rewrite E in H0.
  - unfold closeCh. by destruct (decide _).
  - by destruct (checkPaused_frame w backoff) as (-> & _ & _ & -> & _).
  - by destruct (commit_frame w next backoff) as (-> & _ & -> & _).
  - simpl. by destruct (kill_frame Interrupt next w) as (-> & _ & _ & _ & -> & _).
Qed.

Lemma pause_move w w' :
  pauseInv w -> w_procs w' = w_procs w -> ls_paused (w_sup w') = ls_paused (w_sup w) ->
  ls_stopped (w_sup w') = ls_stopped (w_sup w) ->
  (forall p, pcPublished (w_pc w') = Some p -> pcPublished (w_pc w) = Some p) -> pauseInv w'.
Proof. intros H E1 E2 E3 Hp p st i. rewrite E1, E2, E3. eauto. Qed.

Lemma proc_pc w c' :
  procInv w -> pcProc c' = pcProc (w_pc w) -> pcPublished c' = pcPublished (w_pc w) -> procInv (w <| w_pc := c' |>).
Proof. intros H E1 E2. apply (proc_move w); try done. simpl. rewrite E2. apply H. Qed.

Lemma exit_proc w p st i :
  procInv w -> w_procs w !! p = Some (Live st i) -> procInv (w <| w_procs := <[p := Zombie]> (w_procs w) |>).
Proof.
  intros [H1 H2 H3] Hl. constructor; simpl; try done.
  - intros q sq. destruct (decide (q = p)) as [->|]; [rewrite lookup_insert_eq|rewrite lookup_insert_ne by done; apply H1].
    intros [= <-]. destruct (H1 p _ Hl) as [? [?|?]]; [done|auto].
  - intros q Hq. destruct (decide (q = p)) as [->|]; [rewrite lookup_insert_eq; by eexists|rewrite lookup_insert_ne by done; auto].
Qed.

Lemma waited_proc w cmd done backoff :
  procInv w -> w_pc w = PWait cmd done backoff ->
  procInv (w <| w_procs := <[cmd := Reaped]> (w_procs w) |> <| w_pc := PMark cmd done backoff |>).
Proof.
  intros [H1 H2 H3] E. rewrite E in *. constructor; simpl; try done.
  intros q sq. destruct (decide (q = cmd)) as [->|Hn]; [rewrite lookup_insert_eq|rewrite lookup_insert_ne by done].
  - intros [= <-]. destruct (H2 cmd eq_refl) as (? & Hl & _). destruct (H1 _ _ Hl). auto.
  - intros Hl. destruct (H1 q sq Hl) as [? [?|[= ->]]]; auto. done.
Qed.

Lemma started_proc w backoff :
  procInv w -> w_pc w = PStart backoff ->
  procInv (w <| w_procs := <[w_fresh w := Live false false]> (w_procs w) |> <| w_fresh := S (w_fresh w) |>
             <| w_pc := PCommit (w_fresh w) backoff |>).
Proof.
  intros [H1 H2 H3] E. rewrite E in *. constructor; simpl; try done.
  - intros q sq. destruct (decide (q = w_fresh w)) as [->|Hn]; [rewrite lookup_insert_eq|rewrite lookup_insert_ne by done].
    + auto.
    + intros Hl. destruct (H1 q sq Hl) as [? [?|?]]; [|done]. split; [lia|auto].
  - intros p [= <-]. exists (Live false false). by rewrite lookup_insert_eq.
Qed.

Lemma proc_step l w w' :
  step l w w' -> procInv w -> pauseInv w -> stopInv w -> procInv w' /\ pauseInv w'.
Proof.
  intros Hst H Hpa Hstop. pose proof (pi_published _ H) as Hpub.
  destruct Hst; try (split; [apply proc_pc; try done; by rewrite H0|apply (pause_move w); try done; simpl; by rewrite H0]).
  - by apply pause_proc.
  - by apply resume_proc.
  - unfold stopBegin. cbv zeta. set (w0 := w <| w_sup := _ |>). destruct (closeResume_frame w0) as (E1 & E2 & E3 & E4 & E5 & E6 & E7).
    set (w1 := closeResume w0) in *. clearbody w1. split.
    + apply (proc_move w); simpl; rewrite ?E2, ?E3, ?E4, ?E5; try done.
    + intros p st i _ Hs. simpl in Hs. rewrite E7 in Hs. done.
  - destruct (stopSignal_frame cmd exited w) as (E1 & E2 & _). split.
    + pose proof (stopSignal_proc cmd exited w H) as H'. by apply (proc_move (stopSignal cmd exited w)), (pi_published _ H').
    + intros p st j _ Hs. simpl in Hs. rewrite E1, Hstop in Hs; [done|]. intros E. by rewrite E in H0.
  - split; [by apply (proc_move w), Hpub|by apply (pause_move w)].
  - split; [by apply (proc_move w), Hpub|by apply (pause_move w)].
  - split; [by apply (proc_move w), Hpub|by apply (pause_move w)].
  - split; [by eapply exit_proc|]. intros q sq j Hp Hs Hq. simpl. destruct (decide (q = p)) as [->|];
      [by rewrite lookup_insert_eq|rewrite lookup_insert_ne by done; by eapply Hpa].
  - split; [by apply waited_proc|]. intros q sq j Hp Hs Hq. simpl in *. injection Hq as <-. by rewrite lookup_insert_eq.
  - split; [apply (proc_move w); simpl; rewrite ?H0; done|by intros ? ? ? _ _ Hq].
  - split; [by apply (proc_move w); simpl; rewrite ?H0 in *|by intros ? ? ? _ _ Hq].
  - split; [|by intros ? ? ? _ _ Hq]. unfold closeCh. destruct (decide _); apply (proc_move w); simpl; rewrite ?H0 in *; done.
  - destruct (checkPaused_frame w backoff) as (_ & E2 & E3 & _ & E5). rewrite H0 in Hpub. simpl in Hpub.
    assert (pcProc (w_pc (checkPaused backoff w)) = None /\ pcPublished (w_pc (checkPaused backoff w)) = None) as [E6 E7].
    { unfold checkPaused. destruct (ls_stopped (w_sup w)); [done|]. destruct (ls_paused (w_sup w)); [|done]. simpl.
      destruct (makeResume_sup w) as [ch ->]. done. }
    split; [apply (proc_move w); rewrite ?E6, ?E7, ?H0, ?E5; try done|]. intros p st i _ _. by rewrite E7.
  - split; [by apply started_proc|by intros ? ? ? _ _ Hq].
  - by apply commit_proc.
  - pose proof (procInv_kill Interrupt next w H) as H'. destruct (kill_frame Interrupt next w) as (F1 & _ & _ & F4 & _).
    split; [apply proc_pc; rewrite ?F4, ?H0; done|].
    apply (pause_move (fst (kill Interrupt next w))); try done; [by apply pauseInv_kill|]. simpl. by rewrite F4, H0.
Qed.

Lemma supervisor_inv w : reachable w -> chanInv w /\ procInv w /\ pauseInv w /\ stopInv w.
Proof.
  induction 1 as [b|l w w' _ (Hc & Hp & Hpa & Hs) Hst].
  - split_and!.
    + constructor; simpl; try done.
      * intros d [= <-]. split_and!; try done; try lia.
      * by left.
      * intros b' [= <-]. unfold Minute, Second. lia.
    + constructor; simpl; try done.
      * intros p st [<- <-]%lookup_singleton_Some. split; [lia|by right].
      * intros p [= <-]. exists (Live false false). by rewrite lookup_singleton_eq.
    + by intros p st i Hp.
    + intros Hn. by destruct Hn.
  - destruct (proc_step _ _ _ Hst Hp Hpa Hs). split_and!; try done; [by eapply chan_step|by eapply stop_step].
Qed.

(** * What the supervisor promises *)

Definition isLive (w : world) (p : nat) : Prop := exists st i, w_procs w !! p = Some (Live st i).

(** C33: whatever the interleaving of pauses, resumes, stops, exits, restarts and
    cancellations, at most one load generator is alive, no channel is closed
    twice, and the restart backoff stays between five seconds and two minutes. *)
Theorem one_load_generator w :
  reachable w ->
  (forall p q, isLive w p -> isLive w q -> p = q) /\ w_panicked w = false /\
  (forall b, pcBackoff (w_pc w) = Some b -> (5 * Second <= b <= 2 * Minute)%Z).
Proof.
  intros (Hc & Hp & _ & _)%supervisor_inv. split; [|split; [apply Hc|apply Hc]].
  intros p q (st & i & Hlp) (st' & i' & Hlq).
  destruct (pi_procs _ Hp _ _ Hlp) as [_ [?|?]], (pi_procs _ Hp _ _ Hlq) as [_ [?|?]]; congruence.
Qed.

(** Between a [Pause] and the next [Resume] or [Stop], a live load generator
    is stopped by a signal, except for the instant between its start and its
    publication, where the goroutine is about to stop it itself. *)
Theorem pause_is_honoured w p st i :
  reachable w -> ls_paused (w_sup w) = true -> ls_stopped (w_sup w) = false -> w_procs w !! p = Some (Live st i) ->
  st = true \/ exists backoff, w_pc w = PCommit p backoff /\ w_procs (commit p backoff w) !! p = Some (Live true i).
Proof.
  intros (_ & Hp & Hpa & _)%supervisor_inv Hpd Hst Hl. destruct (pi_procs _ Hp _ _ Hl) as [_ [?|Hq]]; [done|].
  destruct (w_pc w) eqn:E; try done; injection Hq as ->.
  - left. eapply Hpa; try done. by rewrite E.
  - right. exists backoff. split; [done|]. unfold commit. cbv zeta. simpl ls_paused. rewrite Hpd. simpl.
    rewrite kill_procs. simpl. by rewrite lookup_alter_eq, Hl.
  - left. eapply Hpa; try done. by rewrite E.
Qed.

(** No wakeup is lost: a goroutine blocked in [waitWhilePaused] can proceed as
    soon as the supervisor is not paused or is stopped, and every [Stop] in
    progress waits for a channel that is closed or that the goroutine closes
    once the process it has just waited for is gone. *)
Theorem no_lost_wakeup w :
  reachable w ->
  (forall ch b, w_pc w = PBlocked ch b -> ls_paused (w_sup w) = false \/ ls_stopped (w_sup w) = true ->
     step LSupervisor w (w <| w_pc := PCheck b |>)) /\
  (forall i d, w_stops w !! i = Some (SWait d) ->
     stopReady d w = true \/ exists c, d = Some c /\ pcDone (w_pc w) = Some c).
Proof.
  intros (Hc & _ & _ & _)%supervisor_inv. split.
  - intros ch b E Hf. eapply step_resumed; [done|]. destruct (ci_blocked _ Hc ch b E) as [?|(_ & Hp & Hs)]; [done|].
    destruct Hf; congruence.
  - intros i [c|] Hi; [|by left]. destruct (ci_stops _ Hc _ _ c Hi eq_refl); [left; by apply bool_decide_true|right; eauto].
Qed.

(** One more step of a trace. *)
Tactic Notation "walk" hyp(H) uconstr(t) := eapply reach_step in H; [|by apply t].

(** [Stop] can return and leave a load generator behind: when a [Pause] and a
    [Stop] both land between the start of a fresh process and its publication,
    the goroutine stops the process with SIGSTOP and then interrupts it without
    continuing it, which [Stop] itself takes care to do; the process keeps both
    the stop and the pending interrupt, and the goroutine waits for it. *)
Theorem stop_leaves_stopped_process :
  exists w p done backoff, reachable w /\ w_stops w = [SReturned] /\ w_ctxDone w = false /\
    w_procs w !! p = Some (Live true true) /\ w_pc w = PWait p done backoff.
Proof.
  pose proof (reach_start false) as H.
  walk H (step_exit _ 0 false false).
  walk H (step_waited _ 0 1 (5 * Second)%Z).
  walk H (step_mark _ 0 1 (5 * Second)%Z).
  walk H (step_gauge _ 1 (5 * Second)%Z).
  walk H (step_close _ 1 (5 * Second)%Z).
  walk H (step_restart _ (5 * Second)%Z 0).
  walk H (step_timer _ (5 * Second)%Z).
  walk H (step_check _ (10 * Second)%Z).
  walk H (step_started _ (10 * Second)%Z).
  walk H step_pause.
  walk H step_stop.
  walk H (step_stop_signal _ 0 (Some 0) true (Some 1)).
  walk H (step_stop_wait _ 0 (Some 1)).
  walk H (step_stop_return _ 0).
  walk H (step_commit _ 2 (10 * Second)%Z).
  walk H (step_interrupt _ 2 4 (10 * Second)%Z).
  eexists _, 2, 4, (10 * Second)%Z. split; [exact H|]. by vm_compute.
Qed.

(** ** Witnesses *)

(** The supervisor just started, then paused. *)
Lemma one_load_generator_witness :
  (forall p q, isLive (start false) p -> isLive (start false) q -> p = q) /\ w_panicked (start false) = false /\
  (forall b, pcBackoff (w_pc (start false)) = Some b -> (5 * Second <= b <= 2 * Minute)%Z).
Proof. exact (one_load_generator (start false) (reach_start false)). Defined.

Lemma paused_reachable : reachable (Pause (start false)).
Proof. eapply reach_step; [apply (reach_start false)|apply step_pause]. Qed.

Lemma pause_is_honoured_witness :
  true = true \/ exists backoff, w_pc (Pause (start false)) = PCommit 0 backoff /\
    w_procs (commit 0 backoff (Pause (start false))) !! 0 = Some (Live true false).
Proof. refine (pause_is_honoured (Pause (start false)) 0 true false paused_reachable _ _ _); vm_compute; reflexivity. Defined.

(** The goroutine blocked behind a pause, which is then lifted. *)
Lemma no_lost_wakeup_witness :
  exists w ch b, w_pc w = PBlocked ch b /\ ls_paused (w_sup w) = false /\ step LSupervisor w (w <| w_pc := PCheck b |>).
Proof.
  pose proof (reach_start false) as H.
  walk H (step_exit _ 0 false false).
  walk H (step_waited _ 0 1 (5 * Second)%Z).
  walk H (step_mark _ 0 1 (5 * Second)%Z).
  walk H (step_gauge _ 1 (5 * Second)%Z).
  walk H (step_close _ 1 (5 * Second)%Z).
  walk H (step_restart _ (5 * Second)%Z 0).
  walk H (step_timer _ (5 * Second)%Z).
  walk H step_pause.
  walk H (step_check _ (10 * Second)%Z).
  walk H step_resume.
  eexists _, 2, (10 * Second)%Z. split; [|split]; [| |refine (proj1 (no_lost_wakeup _ H) 2 (10 * Second)%Z _ _)];
    vm_compute; try reflexivity. left. reflexivity.
Defined.
