(* ===== verification/NoProgress.v ===== *)
(** Replication without progress under disk pressure, and recovery from a full
    disk: [internal/worker/no_progress.go] and [disk_full_recovery.go].

    The detector is run once per poll.  What a poll reads (the instant, the
    runtime snapshot, the lines of Litestream's log, the reserve file, the pid
    of the Litestream process) is its [tick]; the runner's state and the
    poller's snapshot are threaded. *)
From S2P Require Import Prelude GoStrings Model.

Definition WorkerEventDiskFullNoProgress := "platform_disk_full_no_progress".
Definition WorkerEventDiskFullRecovered := "platform_disk_full_recovered".
Definition WorkerEventDiskFullRecoveryFailed := "platform_disk_full_recovery_failed".
Definition litestreamDiskFullLogMessage := "disk full while staging ltx file".
Definition litestreamDiskFullRecoveryLogMessage := "replication paused, will resume automatically when space is freed".

Record diskPressureNoProgressState := mkNoProgress {
  np_activeSince : time;
  np_lastDBTXID : Z;
  np_lastReplicaTXID : Z;
  np_reported : bool;
  np_signalObserved : bool;
  np_signalMessage : string;
  np_recoveryStartedAt : time;
  np_recoveryStartTXID : Z;
  np_recoveryStartPID : Z;
  np_recoveryFreedBytes : Z;
  np_recovered : bool;
  np_recoveryFailed : bool;
  np_recoverySeconds : float64;
  np_withoutRestart : bool
}.
#[export] Instance diskPressureNoProgressState_eta : Settable diskPressureNoProgressState :=
  fun s => mkNoProgress (np_activeSince s) (np_lastDBTXID s) (np_lastReplicaTXID s) (np_reported s) (np_signalObserved s)
    (np_signalMessage s) (np_recoveryStartedAt s) (np_recoveryStartTXID s) (np_recoveryStartPID s) (np_recoveryFreedBytes s)
    (np_recovered s) (np_recoveryFailed s) (np_recoverySeconds s) (np_withoutRestart s).
Definition noProgress_zero : diskPressureNoProgressState :=
  mkNoProgress 0 0 0 false false "" 0 0 0 0 false false f64_zero false.

Record diskPressureNoProgressObservation := mkObservation {
  ob_Runtime : RuntimePayload; ob_Detected : bool; ob_ShouldReport : bool; ob_EventType : string; ob_Message : string
}.
Definition observed (runtime : RuntimePayload) : diskPressureNoProgressObservation := mkObservation runtime false false "" "".

(** The fields of [Config] the detector reads. *)
Record pressureConfig := mkPressureConfig {
  pf_DiskFullNoProgressWindow : duration; pf_DiskFullRecoveryReserve : Z; pf_DiskFullRecoveryTimeout : duration
}.
Definition diskFullNoProgressWindow (c : pressureConfig) : duration :=
  if (0 <? pf_DiskFullNoProgressWindow c)%Z then pf_DiskFullNoProgressWindow c else (10 * Minute)%Z.
Definition diskFullRecoveryTimeout (c : pressureConfig) : duration :=
  if (0 <? pf_DiskFullRecoveryTimeout c)%Z then pf_DiskFullRecoveryTimeout c else (10 * Minute)%Z.

Inductive reserveFile := NoReserve | Reserve (size : Z) | StatFails | RemoveFails.
Definition freeDiskFullRecoveryReserve (c : pressureConfig) (f : reserveFile) : option Z :=
  if (pf_DiskFullRecoveryReserve c <=? 0)%Z then Some 0%Z
  else match f with NoReserve => Some 0%Z | Reserve size => Some size | StatFails | RemoveFails => None end.

(** The newest line of the log that carries both messages. *)
Fixpoint signalIn (linesNewestFirst : list string) : bool * string :=
  match linesNewestFirst with
  | [] => (false, "")
  | raw :: rest =>
      let line := TrimSpace raw in
      if line =s "" then signalIn rest
      else if Contains (ToLower line) litestreamDiskFullLogMessage &&
              Contains (ToLower line) litestreamDiskFullRecoveryLogMessage
      then (true, line) else signalIn rest
  end.
Definition litestreamDiskFullSignal (lines : list string) : bool * string := signalIn (rev lines).

Definition snapshotUnderDiskPressure (runtime : RuntimePayload) : bool :=
  if (rt_DataDiskTotalBytes runtime =? 0)%Z then false
  else if f64_leb (f64_of_Z 95) (rt_DataDiskUsedPercent runtime) then true
  else
    let estimated := if (rt_DBTotalSizeBytes runtime <=? 0)%Z then rt_DBSizeBytes runtime else rt_DBTotalSizeBytes runtime in
    if (estimated <=? 0)%Z then false else (rt_DataDiskAvailableBytes runtime <? uint64 estimated)%Z.

Definition markDiskFullSignal (message : string) (s : diskPressureNoProgressState) : diskPressureNoProgressState :=
  if np_signalObserved s
  then if np_signalMessage s =s "" then s <| np_signalMessage := message |> else s
  else s <| np_signalObserved := true |> <| np_signalMessage := message |>.

Definition resetDiskPressureNoProgressWindow (s : diskPressureNoProgressState) : diskPressureNoProgressState :=
  s <| np_activeSince := 0%Z |> <| np_lastDBTXID := 0%Z |> <| np_lastReplicaTXID := 0%Z |> <| np_reported := false |>.

Definition diskFullRuntime (s : diskPressureNoProgressState) (now : time) (runtime : RuntimePayload)
    (noProgress : bool) (noProgressSeconds : float64) : RuntimePayload :=
  let runtime := runtime <| rt_DiskPressureNoProgress := noProgress |> in
  let runtime := if noProgress || f64_ltb f64_zero noProgressSeconds
                 then runtime <| rt_DiskPressureNoProgressSeconds := noProgressSeconds |>
                 else runtime <| rt_DiskPressureNoProgressSeconds := f64_zero |> in
  let runtime := if np_signalObserved s
                 then runtime <| rt_DiskFullSignalObserved := true |> <| rt_DiskFullSignalMessage := np_signalMessage s |>
                 else runtime in
  let runtime := if negb (IsZero (np_recoveryStartedAt s))
                 then runtime <| rt_DiskFullRecoveryAttempted := true |>
                              <| rt_DiskFullRecoveryFreedBytes := np_recoveryFreedBytes s |>
                              <| rt_DiskFullRecoverySeconds :=
                                   if f64_ltb f64_zero (np_recoverySeconds s) then np_recoverySeconds s
                                   else Seconds (time_Sub now (np_recoveryStartedAt s)) |>
                 else runtime in
  runtime <| rt_DiskFullRecovered := np_recovered s |> <| rt_DiskFullRecoveryWithoutRestart := np_withoutRestart s |>.

(** [statsPoller.setDiskFullRuntime]: the poller's snapshot with the disk-full fields of [runtime]. *)
Definition setDiskFullRuntime (snapshot runtime : RuntimePayload) : RuntimePayload :=
  snapshot <| rt_DiskPressureNoProgress := rt_DiskPressureNoProgress runtime |>
    <| rt_DiskPressureNoProgressSeconds := rt_DiskPressureNoProgressSeconds runtime |>
    <| rt_LitestreamDiskFullMetricPresent := rt_LitestreamDiskFullMetricPresent runtime |>
    <| rt_LitestreamDiskFull := rt_LitestreamDiskFull runtime |>
    <| rt_DiskFullSignalObserved := rt_DiskFullSignalObserved runtime |>
    <| rt_DiskFullSignalMessage := rt_DiskFullSignalMessage runtime |>
    <| rt_DiskFullRecoveryAttempted := rt_DiskFullRecoveryAttempted runtime |>
    <| rt_DiskFullRecoveryFreedBytes := rt_DiskFullRecoveryFreedBytes runtime |>
    <| rt_DiskFullRecovered := rt_DiskFullRecovered runtime |>
    <| rt_DiskFullRecoverySeconds := rt_DiskFullRecoverySeconds runtime |>
    <| rt_DiskFullRecoveryWithoutRestart := rt_DiskFullRecoveryWithoutRestart runtime |>.

Record tick := mkTick {
  tk_now : time; tk_runtime : RuntimePayload; tk_lines : list string; tk_reserve : reserveFile; tk_pid : Z
}.

(** The runner's detector state and the poller's snapshot. *)
Record pressureState := mkPressure { ps_noProgress : diskPressureNoProgressState; ps_snapshot : RuntimePayload }.

(** Publish [runtime] with the detector's fields and return it as an observation. *)
Definition publish (st : diskPressureNoProgressState) (snapshot : RuntimePayload) (now : time) (runtime : RuntimePayload)
    (noProgress : bool) (seconds : float64) (mk : RuntimePayload -> diskPressureNoProgressObservation)
  : pressureState * diskPressureNoProgressObservation :=
  let snapshot := setDiskFullRuntime snapshot (diskFullRuntime st now runtime noProgress seconds) in
  (mkPressure st snapshot, mk snapshot).

(** [observeDiskFullRecovery]: the state, and the observation when it decides. *)
Definition beginRecovery (c : pressureConfig) (t : tick) (s : diskPressureNoProgressState) : diskPressureNoProgressState :=
  if IsZero (np_recoveryStartedAt s) && (0 <? pf_DiskFullRecoveryReserve c)%Z then
    match freeDiskFullRecoveryReserve c (tk_reserve t) with
    | None => s
    | Some freed => s <| np_recoveryStartedAt := tk_now t |> <| np_recoveryStartTXID := rt_ReplicatedTXID (tk_runtime t) |>
                      <| np_recoveryStartPID := tk_pid t |> <| np_recoveryFreedBytes := freed |>
    end
  else s.

Definition sameProcess (s : diskPressureNoProgressState) (t : tick) : bool :=
  (np_recoveryStartPID s =? 0)%Z || (tk_pid t =? 0)%Z || (tk_pid t =? np_recoveryStartPID s)%Z.
Definition recoveryDone (s : diskPressureNoProgressState) (t : tick) : bool :=
  rt_LitestreamDiskFullMetricPresent (tk_runtime t) && negb (rt_LitestreamDiskFull (tk_runtime t)) &&
  (np_recoveryStartTXID s <? rt_ReplicatedTXID (tk_runtime t))%Z && sameProcess s t.
Definition recoveryExpired (c : pressureConfig) (s : diskPressureNoProgressState) (t : tick) : bool :=
  (negb (sameProcess s t) ||
   (0 <? diskFullRecoveryTimeout c)%Z && (diskFullRecoveryTimeout c <=? time_Sub (tk_now t) (np_recoveryStartedAt s))%Z) &&
  negb (np_recoveryFailed s).

Definition observeDiskFullRecovery (c : pressureConfig) (t : tick) (p : pressureState)
  : pressureState * option diskPressureNoProgressObservation :=
  let s := ps_noProgress p in
  if negb (np_signalObserved s) then (p, None)
  else
    let s := beginRecovery c t s in
    if IsZero (np_recoveryStartedAt s) || np_recovered s || np_recoveryFailed s
    then (fst (publish s (ps_snapshot p) (tk_now t) (tk_runtime t) false f64_zero observed), None)
    else if recoveryDone s t then
      let s := s <| np_recovered := true |> <| np_withoutRestart := true |>
                 <| np_recoverySeconds := Seconds (time_Sub (tk_now t) (np_recoveryStartedAt s)) |> in
      let '(p, o) := publish s (ps_snapshot p) (tk_now t) (tk_runtime t) false f64_zero (fun runtime =>
        mkObservation runtime false true WorkerEventDiskFullRecovered
          "Litestream emitted a distinct disk-full signal and replicated again after the harness freed reserved disk space without restart") in
      (p, Some o)
    else if recoveryExpired c s t then
      let s := s <| np_recoveryFailed := true |>
                 <| np_recoverySeconds := Seconds (time_Sub (tk_now t) (np_recoveryStartedAt s)) |> in
      let '(p, o) := publish s (ps_snapshot p) (tk_now t) (tk_runtime t) false f64_zero (fun runtime =>
        mkObservation runtime false true WorkerEventDiskFullRecoveryFailed
          "Litestream emitted a distinct disk-full signal but did not replicate again after reserved disk space was freed") in
      (p, Some o)
    else (fst (publish s (ps_snapshot p) (tk_now t) (tk_runtime t) false f64_zero observed), None).

(** No pressure, or nothing left to replicate. *)
Definition windowQuiet (runtime : RuntimePayload) : bool :=
  negb (snapshotUnderDiskPressure runtime) || (rt_ReplicationLagMax runtime =? 0)%Z ||
  (rt_DBTXID runtime <=? rt_ReplicatedTXID runtime)%Z.

Definition noProgressMessage :=
  "harness detected no replication progress under disk pressure before Litestream emitted a distinct disk-full signal".

Definition observeNoProgressWindow (c : pressureConfig) (t : tick) (p : pressureState)
  : pressureState * diskPressureNoProgressObservation :=
  let s := ps_noProgress p in
  let runtime := tk_runtime t in
  let publish st := publish st (ps_snapshot p) (tk_now t) runtime in
  let restart st := st <| np_activeSince := tk_now t |> <| np_lastDBTXID := rt_DBTXID runtime |>
                       <| np_lastReplicaTXID := rt_ReplicatedTXID runtime |> in
  if windowQuiet runtime then publish (resetDiskPressureNoProgressWindow s) false f64_zero observed
  else if IsZero (np_activeSince s) then publish (restart s) false f64_zero observed
  else if (np_lastReplicaTXID s <? rt_ReplicatedTXID runtime)%Z || (rt_DBTXID runtime <? np_lastDBTXID s)%Z
  then publish ((restart s) <| np_reported := false |>) false f64_zero observed
  else
    let elapsed := Seconds (time_Sub (tk_now t) (np_activeSince s)) in
    let s := s <| np_lastDBTXID := rt_DBTXID runtime |> <| np_lastReplicaTXID := rt_ReplicatedTXID runtime |> in
    if f64_ltb elapsed (Seconds (diskFullNoProgressWindow c)) then publish s false elapsed observed
    else if np_signalObserved s then publish s false elapsed observed
    else
      let shouldReport := negb (np_reported s) in
      let '(p, o) := publish s true elapsed (fun runtime =>
        mkObservation runtime true shouldReport WorkerEventDiskFullNoProgress noProgressMessage) in
      (mkPressure ((ps_noProgress p) <| np_reported := true |>) (ps_snapshot p), o).

Definition observeDiskPressureNoProgress (c : pressureConfig) (p : pressureState) (t : tick)
  : pressureState * diskPressureNoProgressObservation :=
  let window := diskFullNoProgressWindow c in
  if (window <=? 0)%Z
  then publish noProgress_zero (ps_snapshot p) (tk_now t) (tk_runtime t) false f64_zero observed
  else
    let s := ps_noProgress p in
    let s := if rt_LitestreamDiskFullMetricPresent (tk_runtime t) && rt_LitestreamDiskFull (tk_runtime t) then
               let '(ok, message) := litestreamDiskFullSignal (tk_lines t) in
               if ok then markDiskFullSignal message s else s
             else s in
    match observeDiskFullRecovery c t (mkPressure s (ps_snapshot p)) with
    | (p, Some observation) => (p, observation)
    | (p, None) => observeNoProgressWindow c t p
    end.

(** The runner's loop: a poll refreshes the snapshot, the detector observes it. *)
Definition poll (c : pressureConfig) (p : pressureState) (t : tick) : pressureState * diskPressureNoProgressObservation :=
  observeDiskPressureNoProgress c (mkPressure (ps_noProgress p) (tk_runtime t)) t.
Fixpoint polls (c : pressureConfig) (p : pressureState) (ts : list tick) : pressureState * list diskPressureNoProgressObservation :=
  match ts with
  | [] => (p, [])
  | t :: ts => let '(p, o) := poll c p t in
               let '(p, os) := polls c p ts in (p, o :: os)
  end.
Definition pressure_start : pressureState := mkPressure noProgress_zero RuntimePayload_zero.

(** * What a poll does

    A poll is one of: a recovery decision, a quiet window, the start or restart
    of a window, and a window that goes on. *)

Definition signalTick (t : tick) : bool :=
  rt_LitestreamDiskFullMetricPresent (tk_runtime t) && rt_LitestreamDiskFull (tk_runtime t) &&
  fst (litestreamDiskFullSignal (tk_lines t)).

Definition recoveryEvent (o : diskPressureNoProgressObservation) : bool :=
  (ob_EventType o =s WorkerEventDiskFullRecovered) || (ob_EventType o =s WorkerEventDiskFullRecoveryFailed).
Definition settled (s : diskPressureNoProgressState) : bool := np_recovered s || np_recoveryFailed s.

(** The fields of the window, and those of the recovery. *)
Definition windowFields (s : diskPressureNoProgressState) : time * Z * Z * bool :=
  (np_activeSince s, np_lastDBTXID s, np_lastReplicaTXID s, np_reported s).

Lemma window_positive c : (0 < diskFullNoProgressWindow c)%Z.
Proof. unfold diskFullNoProgressWindow. destruct (Z.ltb_spec 0 (pf_DiskFullNoProgressWindow c)); [done|]. unfold Minute, Second. lia. Qed.

Definition marked (t : tick) (s : diskPressureNoProgressState) : diskPressureNoProgressState :=
  if signalTick t then markDiskFullSignal (snd (litestreamDiskFullSignal (tk_lines t))) s else s.

Lemma marked_spec t s :
  np_signalObserved (marked t s) = np_signalObserved s || signalTick t /\ windowFields (marked t s) = windowFields s /\
  np_recovered (marked t s) = np_recovered s /\ np_recoveryFailed (marked t s) = np_recoveryFailed s.
Proof.
  unfold marked, markDiskFullSignal. destruct (signalTick t); [|by rewrite orb_false_r]. rewrite orb_true_r.
  destruct (np_signalObserved s) eqn:E; [|done]. by destruct (np_signalMessage s =s "").
Qed.

Lemma poll_unfold c p t :
  poll c p t = match observeDiskFullRecovery c t (mkPressure (marked t (ps_noProgress p)) (tk_runtime t)) with
               | (p, Some o) => (p, o)
               | (p, None) => observeNoProgressWindow c t p
               end.
Proof.
  unfold poll, observeDiskPressureNoProgress, marked, signalTick. pose proof (window_positive c).
  destruct (Z.leb_spec (diskFullNoProgressWindow c) 0); [lia|]. simpl.
  destruct (rt_LitestreamDiskFullMetricPresent _ && rt_LitestreamDiskFull _); [|done]. simpl.
  by destruct (litestreamDiskFullSignal (tk_lines t)) as [[] m].
Qed.

Lemma beginRecovery_spec c t s :
  windowFields (beginRecovery c t s) = windowFields s /\ np_signalObserved (beginRecovery c t s) = np_signalObserved s /\
  np_recovered (beginRecovery c t s) = np_recovered s /\ np_recoveryFailed (beginRecovery c t s) = np_recoveryFailed s.
Proof.
  unfold beginRecovery. destruct (_ && _); [|done]. by destruct (freeDiskFullRecoveryReserve c (tk_reserve t)).
Qed.

(** The recovery part leaves the window alone; it decides at most when a signal
    was observed and nothing was settled, and then it settles. *)
Lemma recovery_spec c t p :
  let '(p', r) := observeDiskFullRecovery c t p in
  let s := ps_noProgress p in let s' := ps_noProgress p' in
  windowFields s' = windowFields s /\ np_signalObserved s' = np_signalObserved s /\
  match r with
  | None => np_recovered s' = np_recovered s /\ np_recoveryFailed s' = np_recoveryFailed s
  | Some o => np_signalObserved s = true /\ ob_Detected o = false /\ ob_ShouldReport o = true /\ settled s = false /\
      (ob_EventType o = WorkerEventDiskFullRecovered /\ np_recovered s' = true /\ np_recoveryFailed s' = false \/
       ob_EventType o = WorkerEventDiskFullRecoveryFailed /\ np_recovered s' = false /\ np_recoveryFailed s' = true)
  end.
Proof.
  unfold observeDiskFullRecovery. destruct (np_signalObserved (ps_noProgress p)) eqn:E; [|simpl; by rewrite ?E].
  cbn [negb]. cbv zeta. destruct (beginRecovery_spec c t (ps_noProgress p)) as (B1 & B2 & B3 & B4).
  set (s := beginRecovery c t (ps_noProgress p)) in *. clearbody s. rewrite E in B2.
  destruct (IsZero (np_recoveryStartedAt s) || np_recovered s || np_recoveryFailed s) eqn:Eg; [done|].
  apply orb_false_iff in Eg as [[_ Er]%orb_false_iff Ef]. unfold settled. rewrite <- B3, <- B4, Er, Ef.
  destruct (recoveryDone s t); [|destruct (recoveryExpired c s t)].
  - unfold publish. cbv iota. simpl. unfold windowFields in *. simpl. split_and!; try done. by left.
  - unfold publish. cbv iota. simpl. unfold windowFields in *. simpl. split_and!; try done. by right.
  - simpl. split_and!; done.
Qed.

(** The window part leaves the recovery alone. *)
Lemma windowPart_spec c t p :
  let '(p', o) := observeNoProgressWindow c t p in
  let s := ps_noProgress p in let s' := ps_noProgress p' in
  np_signalObserved s' = np_signalObserved s /\ np_recovered s' = np_recovered s /\ np_recoveryFailed s' = np_recoveryFailed s /\
  recoveryEvent o = false /\
  (windowQuiet (tk_runtime t) = true /\ ob_Detected o = false /\ np_activeSince s' = 0%Z \/
   windowQuiet (tk_runtime t) = false /\ ob_Detected o = false /\ np_activeSince s' = tk_now t /\
     np_lastDBTXID s' = rt_DBTXID (tk_runtime t) /\ np_lastReplicaTXID s' = rt_ReplicatedTXID (tk_runtime t) \/
   windowQuiet (tk_runtime t) = false /\ np_activeSince s <> 0%Z /\
     (rt_ReplicatedTXID (tk_runtime t) <= np_lastReplicaTXID s)%Z /\ (np_lastDBTXID s <= rt_DBTXID (tk_runtime t))%Z /\
     np_activeSince s' = np_activeSince s /\
     np_lastDBTXID s' = rt_DBTXID (tk_runtime t) /\ np_lastReplicaTXID s' = rt_ReplicatedTXID (tk_runtime t) /\
     (ob_Detected o = true <->
        f64_ltb (Seconds (time_Sub (tk_now t) (np_activeSince s))) (Seconds (diskFullNoProgressWindow c)) = false /\
        np_signalObserved s = false) /\
     (ob_Detected o = true -> ob_ShouldReport o = negb (np_reported s) /\ np_reported s' = true)).
Proof.
  unfold observeNoProgressWindow. cbv zeta. destruct (windowQuiet (tk_runtime t)); [simpl; split_and!; auto|].
  destruct (Z.eqb_spec (np_activeSince (ps_noProgress p)) 0) as [E|E]; unfold IsZero.
  - rewrite E. simpl. split_and!; auto 10.
  - apply Z.eqb_neq in E as E'. rewrite E'.
    destruct (Z.ltb_spec (np_lastReplicaTXID (ps_noProgress p)) (rt_ReplicatedTXID (tk_runtime t))); [simpl; split_and!; auto 10|].
    destruct (Z.ltb_spec (rt_DBTXID (tk_runtime t)) (np_lastDBTXID (ps_noProgress p))); [simpl; split_and!; auto 10|].
    cbn [orb]. destruct (f64_ltb _ _) eqn:Ew; [simpl; split_and!; try done; right; right; rewrite ?Ew; split_and!; done || intuition discriminate|].
    simpl. destruct (np_signalObserved (ps_noProgress p)) eqn:Es; simpl; rewrite ?Es; split_and!; try done; right; right;
      rewrite ?Ew; split_and!; done || intuition discriminate.
Qed.

(** * A stall

    [stall since h], for the polls [h] newest first: the newest polls, back to
    one taken at [since], were all under disk pressure and behind, and the
    replica did not advance from one to the next nor the database go back. *)

Inductive stall (since : time) : list tick -> Prop :=
| stall_first t h : windowQuiet (tk_runtime t) = false -> tk_now t = since -> stall since (t :: h)
| stall_more t t' h :
    windowQuiet (tk_runtime t) = false ->
    (rt_ReplicatedTXID (tk_runtime t) <= rt_ReplicatedTXID (tk_runtime t'))%Z ->
    (rt_DBTXID (tk_runtime t') <= rt_DBTXID (tk_runtime t))%Z ->
    stall since (t' :: h) -> stall since (t :: t' :: h).

(** What the detector's state says of the polls so far, as long as no signal was observed. *)
Definition stallInv (h : list tick) (s : diskPressureNoProgressState) : Prop :=
  np_signalObserved s = existsb signalTick h /\
  (np_signalObserved s = false -> np_activeSince s <> 0%Z ->
     stall (np_activeSince s) h /\
     exists t, head h = Some t /\ np_lastDBTXID s = rt_DBTXID (tk_runtime t) /\ np_lastReplicaTXID s = rt_ReplicatedTXID (tk_runtime t)).

Lemma poll_stall c p t h :
  stallInv h (ps_noProgress p) ->
  let '(p', o) := poll c p t in
  stallInv (t :: h) (ps_noProgress p') /\
  (ob_Detected o = true ->
     existsb signalTick (t :: h) = false /\
     exists since, stall since (t :: h) /\ f64_ltb (Seconds (time_Sub (tk_now t) since)) (Seconds (diskFullNoProgressWindow c)) = false).
Proof.
  intros [Hs Hw]. rewrite poll_unfold. destruct (marked_spec t (ps_noProgress p)) as (M1 & M2 & _).
  pose proof (recovery_spec c t (mkPressure (marked t (ps_noProgress p)) (tk_runtime t))) as Hr.
  destruct (observeDiskFullRecovery c t _) as [p1 [o|]]; cbv zeta in Hr; cbn [ps_noProgress] in Hr.
  - destruct Hr as (W & S1 & S2 & Hd & _). split; [|by rewrite Hd].
    assert (np_signalObserved (ps_noProgress p1) = true) as E by congruence. split; [|by rewrite E].
    cbn [existsb]. rewrite <- Hs, orb_comm, <- M1. congruence.
  - destruct Hr as (W & S1 & _). rewrite M1 in S1. pose proof (windowPart_spec c t p1) as Hp.
    destruct (observeNoProgressWindow c t p1) as [p2 o]. cbv zeta in Hp. destruct Hp as (P1 & _ & _ & _ & Hp).
    assert (np_signalObserved (ps_noProgress p2) = existsb signalTick (t :: h)) as E.
    { cbn [existsb]. rewrite P1, S1, Hs. apply orb_comm. }
    assert (windowFields (ps_noProgress p1) = windowFields (ps_noProgress p)) as W' by congruence.
    injection W' as W1 W2 W3 _.
    destruct Hp as [(_ & Hd & Ha)|[(Hq & Hd & Ha & HD & HR)|(Hq & Hne & Hle & Hge & Ha & HD & HR & Hdet & _)]].
    + split; [|by rewrite Hd]. split; [done|]. by rewrite Ha.
    + split; [|by rewrite Hd]. split; [done|]. intros _ _. split; [by rewrite Ha; constructor|]. by exists t.
    + rewrite W1 in *. rewrite W2 in Hge. rewrite W3 in Hle.
      assert (np_signalObserved (ps_noProgress p2) = false -> stall (np_activeSince (ps_noProgress p)) (t :: h)) as Hst.
      { intros E2. rewrite E in E2. cbn [existsb] in E2. apply orb_false_iff in E2 as [_ E2].
        destruct (Hw ltac:(congruence) Hne) as (Hst & t' & Hh & HD' & HR'). destruct h as [|t0 h]; [done|].
        injection Hh as ->. constructor; try done; [by rewrite <- HR'|by rewrite <- HD']. }
      split.
      * split; [done|]. rewrite Ha. intros E2 _. split; [by apply Hst|]. by exists t.
      * intros [Hf Hno]%Hdet. rewrite <- P1 in Hno. split; [congruence|]. eexists. split; [by apply Hst|]. done.
Qed.

Lemma existsb_rev_eq {A} (f : A -> bool) l : existsb f (rev l) = existsb f l.
Proof. induction l as [|x l IH]; [done|]. simpl. rewrite existsb_app, IH. simpl. by rewrite orb_false_r, orb_comm. Qed.

Lemma polls_snoc c p ts t :
  polls c p (ts ++ [t]) =
  let '(p1, os) := polls c p ts in let '(p2, o) := poll c p1 t in (p2, os ++ [o]).
Proof.
  revert p. induction ts as [|t0 ts IH]; intros p; simpl; [by destruct (poll c p t)|].
  destruct (poll c p t0) as [p0 o0]. rewrite IH. destruct (polls c p0 ts) as [p1 os]. by destruct (poll c p1 t).
Qed.

Lemma polls_stall c ts : stallInv (rev ts) (ps_noProgress (fst (polls c pressure_start ts))).
Proof.
  induction ts as [|t ts IH] using rev_ind; [by split|]. rewrite polls_snoc, rev_app_distr. simpl.
  destruct (polls c pressure_start ts) as [p1 os]. pose proof (poll_stall c p1 t (rev ts) IH) as H.
  destruct (poll c p1 t) as [p2 o]. apply H.
Qed.

(** C36: the harness reports replication without progress only when it is true:
    every poll from some instant on, at least the configured window ago, found
    the disk under pressure and the replica behind, the replica never advanced
    from one of these polls to the next, and no poll since the start saw a
    disk-full signal of Litestream's own. *)
Theorem no_progress_is_real c ts t p os o :
  polls c pressure_start (ts ++ [t]) = (p, os ++ [o]) -> ob_Detected o = true ->
  existsb signalTick (ts ++ [t]) = false /\
  exists since, stall since (t :: rev ts) /\
    f64_ltb (Seconds (time_Sub (tk_now t) since)) (Seconds (diskFullNoProgressWindow c)) = false.
Proof.
  rewrite polls_snoc. pose proof (polls_stall c ts) as Hi. destruct (polls c pressure_start ts) as [p1 os1].
  pose proof (poll_stall c p1 t (rev ts) Hi) as H. destruct (poll c p1 t) as [p2 o2].
  intros [= -> [-> ->]%app_inj_tail] Hd. destruct H as [_ H]. destruct (H Hd) as [Hno Hs]. split; [|done].
  by rewrite <- (rev_involutive (ts ++ [t])), existsb_rev_eq, rev_app_distr.
Qed.

(** * Recovery *)

Lemma poll_settles c p t :
  let '(p', o) := poll c p t in
  Nat.b2n (recoveryEvent o) + Nat.b2n (settled (ps_noProgress p)) = Nat.b2n (settled (ps_noProgress p')) /\
  (np_recovered (ps_noProgress p) && np_recoveryFailed (ps_noProgress p) = false ->
   np_recovered (ps_noProgress p') && np_recoveryFailed (ps_noProgress p') = false) /\
  (settled (ps_noProgress p) = true -> np_recovered (ps_noProgress p') = np_recovered (ps_noProgress p)) /\
  (recoveryEvent o = true -> ob_ShouldReport o = true /\ np_signalObserved (ps_noProgress p') = true /\
     ob_EventType o = if np_recovered (ps_noProgress p') then WorkerEventDiskFullRecovered else WorkerEventDiskFullRecoveryFailed).
Proof.
  rewrite poll_unfold. destruct (marked_spec t (ps_noProgress p)) as (_ & _ & M3 & M4).
  pose proof (recovery_spec c t (mkPressure (marked t (ps_noProgress p)) (tk_runtime t))) as Hr.
  destruct (observeDiskFullRecovery c t _) as [p1 [o|]]; cbv zeta in Hr; cbn [ps_noProgress] in Hr.
  - destruct Hr as (_ & S1 & S2 & _ & Hrep & Hset & Hev). unfold settled in *. rewrite M3, M4 in Hset. rewrite Hset.
    unfold recoveryEvent. destruct Hev as [(-> & -> & ->)|(-> & -> & ->)]; simpl; split_and!; try done; intros _; split_and!; congruence.
  - destruct Hr as (_ & _ & R1 & R2). pose proof (windowPart_spec c t p1) as Hp.
    destruct (observeNoProgressWindow c t p1) as [p2 o]. cbv zeta in Hp. destruct Hp as (_ & Q1 & Q2 & -> & _).
    unfold settled. rewrite Q1, Q2, R1, R2, M3, M4. split_and!; done.
Qed.

Lemma polls_settle c ts p :
  let '(p', os) := polls c p ts in
  length (List.filter recoveryEvent os) + Nat.b2n (settled (ps_noProgress p)) = Nat.b2n (settled (ps_noProgress p')) /\
  (np_recovered (ps_noProgress p) && np_recoveryFailed (ps_noProgress p) = false ->
   np_recovered (ps_noProgress p') && np_recoveryFailed (ps_noProgress p') = false) /\
  (settled (ps_noProgress p) = true -> np_recovered (ps_noProgress p') = np_recovered (ps_noProgress p)) /\
  (forall o, In o os -> recoveryEvent o = true ->
     ob_ShouldReport o = true /\
     ob_EventType o = if np_recovered (ps_noProgress p') then WorkerEventDiskFullRecovered else WorkerEventDiskFullRecoveryFailed).
Proof.
  revert p. induction ts as [|t ts IH]; intros p; [by simpl; split_and!|]. cbn [polls].
  pose proof (poll_settles c p t) as Hp. destruct (poll c p t) as [p1 o]. destruct Hp as (Hc & Hn & Hk & Hev).
  specialize (IH p1). destruct (polls c p1 ts) as [p2 os]. destruct IH as (IHc & IHn & IHk & IHev).
  split_and!; auto.
  - rewrite filter_cons_if. destruct (recoveryEvent o); simpl in *; lia.
  - intros Hs. rewrite Hs in Hc. simpl in Hc. destruct (settled (ps_noProgress p1)) eqn:E1; [|destruct (recoveryEvent o); simpl in Hc; lia].
    rewrite IHk by done. by apply Hk.
  - intros o' [<-|Hin] Hr; [|by apply IHev]. destruct (Hev Hr) as (Hrep & _ & ->). split; [done|].
    rewrite Hr in Hc. destruct (settled (ps_noProgress p1)) eqn:E1; [by rewrite IHk|simpl in Hc; lia].
Qed.

(** A full disk has one outcome: over any sequence of polls the recovery is
    reported at most once, as recovered or as failed, exactly when the runner's
    state says so, and the two never hold together; nothing observed later
    changes the outcome. *)
Theorem recovery_reported_once c ts p os :
  polls c pressure_start ts = (p, os) ->
  length (List.filter recoveryEvent os) = Nat.b2n (settled (ps_noProgress p)) /\
  (np_recovered (ps_noProgress p) && np_recoveryFailed (ps_noProgress p) = false) /\
  (forall o, In o os -> recoveryEvent o = true ->
     ob_ShouldReport o = true /\
     ob_EventType o = if np_recovered (ps_noProgress p) then WorkerEventDiskFullRecovered else WorkerEventDiskFullRecoveryFailed).
Proof.
  intros E. pose proof (polls_settle c ts pressure_start) as H. rewrite E in H. destruct H as (Hc & Hn & _ & Hev).
  simpl in Hc. rewrite Nat.add_0_r in Hc. auto.
Qed.

(** * One report per stall *)

Lemma poll_detected c p t p' o :
  poll c p t = (p', o) -> ob_Detected o = true -> ob_ShouldReport o = negb (np_reported (ps_noProgress p)) /\ np_reported (ps_noProgress p') = true.
Proof.
  rewrite poll_unfold. destruct (marked_spec t (ps_noProgress p)) as (_ & M2 & _).
  pose proof (recovery_spec c t (mkPressure (marked t (ps_noProgress p)) (tk_runtime t))) as Hr.
  destruct (observeDiskFullRecovery c t _) as [p1 [o1|]]; cbv zeta in Hr; cbn [ps_noProgress] in Hr.
  - destruct Hr as (_ & _ & _ & Hd & _). intros [= <- <-]. congruence.
  - destruct Hr as (W & _). rewrite M2 in W. injection W as _ _ _ W. pose proof (windowPart_spec c t p1) as Hp.
    destruct (observeNoProgressWindow c t p1) as [p2 o2]. cbv zeta in Hp. intros [= <- <-] Hd.
    destruct Hp as (_ & _ & _ & _ & [(_ & ? & _)|[(_ & ? & _)|(_ & _ & _ & _ & _ & _ & _ & _ & H)]]); [congruence..|].
    rewrite <- W. auto.
Qed.

Lemma reported_until_quiet c ts p k o :
  np_reported (ps_noProgress p) = true -> snd (polls c p ts) !! k = Some o -> ob_Detected o = true -> ob_ShouldReport o = true ->
  exists m o', m < k /\ snd (polls c p ts) !! m = Some o' /\ ob_Detected o' = false.
Proof.
  revert p k. induction ts as [|t ts IH]; intros p k Hr; [done|]. cbn [polls].
  destruct (poll c p t) as [p1 o1] eqn:Ep. specialize (IH p1). destruct (polls c p1 ts) as [p2 os]. cbn [snd].
  destruct k as [|k]; simpl.
  - intros [= ->] Hd Hs. destruct (poll_detected _ _ _ _ _ Ep Hd) as [E _]. rewrite Hr in E. simpl in E. congruence.
  - intros Hl Hd Hs. destruct (ob_Detected o1) eqn:Ed; [|exists 0, o1; split_and!; done || lia].
    destruct (poll_detected _ _ _ _ _ Ep Ed) as [_ Hr1]. destruct (IH k Hr1 Hl Hd Hs) as (m & o' & ? & ? & ?).
    exists (S m), o'. split_and!; done || lia.
Qed.

(** A stall is reported once: between two reports of replication without
    progress there is a poll that does not detect it. *)
Theorem stall_reported_once c ts k k' o o' :
  snd (polls c pressure_start ts) !! k = Some o -> snd (polls c pressure_start ts) !! k' = Some o' -> k < k' ->
  ob_Detected o = true -> ob_ShouldReport o = true -> ob_Detected o' = true -> ob_ShouldReport o' = true ->
  exists m om, k < m < k' /\ snd (polls c pressure_start ts) !! m = Some om /\ ob_Detected om = false.
Proof.
  generalize pressure_start as p. revert k k'. induction ts as [|t ts IH]; intros k k' p; [done|]. cbn [polls].
  destruct (poll c p t) as [p1 o1] eqn:Ep. specialize (IH (k - 1) (k' - 1) p1).
  pose proof (reported_until_quiet c ts p1) as Hq. destruct (polls c p1 ts) as [p2 os]. cbn [snd] in *.
  destruct k' as [|k']; [lia|]. simpl Nat.sub in IH. rewrite Nat.sub_0_r in IH. intros Hk Hk' Hlt Hd Hs Hd' Hs'. destruct k as [|k]; simpl in *.
  - injection Hk as ->. destruct (poll_detected _ _ _ _ _ Ep Hd) as [_ Hr].
    destruct (Hq k' o' Hr Hk' Hd' Hs') as (m & om & ? & ? & ?). exists (S m), om. split_and!; done || lia.
  - rewrite Nat.sub_0_r in IH. destruct IH as (m & om & ? & ? & ?); try done; [lia|]. exists (S m), om. split_and!; done || lia.
Qed.

(** ** Witnesses *)

(** A disk nearly full, five transactions behind; window seven seconds. *)
Definition sampleConfig : pressureConfig := mkPressureConfig (7 * Second) 1000 (5 * Minute).
Definition behind : RuntimePayload :=
  RuntimePayload_zero <| rt_DataDiskTotalBytes := 100%Z |> <| rt_DataDiskUsedPercent := f64_of_Z 96 |>
    <| rt_ReplicationLagMax := 5%Z |> <| rt_DBTXID := 10%Z |> <| rt_ReplicatedTXID := 5%Z |>
    <| rt_LitestreamDiskFullMetricPresent := true |>.
Definition behindAt (s : Z) : tick := mkTick (s * Second) behind [] NoReserve 7.
Definition caughtUpAt (s : Z) : tick := mkTick (s * Second) (behind <| rt_ReplicatedTXID := 10%Z |>) [] NoReserve 7.
(** Litestream reports the full disk itself. *)
Definition fullAt (s : Z) : tick :=
  mkTick (s * Second) (behind <| rt_LitestreamDiskFull := true |>)
    ["disk full while staging ltx file: replication paused, will resume automatically when space is freed"] (Reserve 1000) 7.

Definition stallRun := polls sampleConfig pressure_start ([behindAt 1; behindAt 5] ++ [behindAt 9]).
Lemma no_progress_is_real_witness :
  existsb signalTick ([behindAt 1; behindAt 5] ++ [behindAt 9]) = false /\
  exists since, stall since (behindAt 9 :: rev [behindAt 1; behindAt 5]) /\
    f64_ltb (Seconds (time_Sub (tk_now (behindAt 9)) since)) (Seconds (diskFullNoProgressWindow sampleConfig)) = false.
Proof.
  refine (no_progress_is_real sampleConfig [behindAt 1; behindAt 5] (behindAt 9) (fst stallRun)
    (firstn 2 (snd stallRun)) (List.last (snd stallRun) (observed RuntimePayload_zero)) _ _); vm_compute; reflexivity.
Defined.

Definition recoveryTicks := [fullAt 1; caughtUpAt 3; behindAt 9].
Definition recoveryRun := polls sampleConfig pressure_start recoveryTicks.
Lemma recovery_reported_once_witness :
  length (List.filter recoveryEvent (snd recoveryRun)) = Nat.b2n (settled (ps_noProgress (fst recoveryRun))) /\
  (np_recovered (ps_noProgress (fst recoveryRun)) && np_recoveryFailed (ps_noProgress (fst recoveryRun)) = false) /\
  (forall o, In o (snd recoveryRun) -> recoveryEvent o = true ->
     ob_ShouldReport o = true /\
     ob_EventType o = if np_recovered (ps_noProgress (fst recoveryRun)) then WorkerEventDiskFullRecovered else WorkerEventDiskFullRecoveryFailed).
Proof.
  refine (recovery_reported_once sampleConfig recoveryTicks (fst recoveryRun) (snd recoveryRun) _). vm_compute. reflexivity.
Defined.

Definition twoStalls := [behindAt 1; behindAt 9; caughtUpAt 10; behindAt 11; behindAt 19].
Definition twoStallsRun := snd (polls sampleConfig pressure_start twoStalls).
Definition obsAt (k : nat) := List.nth k twoStallsRun (observed RuntimePayload_zero).
Lemma stall_reported_once_witness :
  exists m om, 1 < m < 4 /\ twoStallsRun !! m = Some om /\ ob_Detected om = false.
Proof.
  refine (stall_reported_once sampleConfig twoStalls 1 4 (obsAt 1) (obsAt 4) _ _ _ _ _ _ _); try lia; vm_compute; reflexivity.
Defined.
