(* ===== verification/WorkerStore.v ===== *)
(** The worker table: [internal/model/workers.go], one operation per query,
    and the two monitors that drive it on a timer ([orchestrator/expiry.go]).

    A row is the [Worker] it is scanned into: the [NULL] of a nullable text
    column is the empty text, which is never stored ([nullIntString]).
    [datetime('now')] has a resolution of one second.  Each operation is one
    statement and is atomic; the only storage failure the table itself can
    raise, a duplicate machine id ([fly_machine_id TEXT UNIQUE]), is an error
    that leaves the table as it was. *)
From stdpp Require Import sorting.
From S2P Require Import Prelude GoStrings Model SoakDB.

(** * Columns *)

(** SQLite's [datetime('now')], a text of whole seconds. *)
Definition datetime_now (now : time) : time := Truncate now Second.

(** A stored timestamp carries its fraction and its zone after the seconds, so
    as a text it is below [datetime('now')] exactly when its seconds are. *)
Definition text_before_now (stored now : time) : bool :=
  (Truncate stored Second <? datetime_now now)%Z.

(** [COALESCE(excluded.c, workers.c)] on a nullable text column. *)
Definition coalesce (excluded stored : string) : string :=
  if excluded =s "" then stored else excluded.

Definition status_in (statuses : list WorkerStatus) (w : Worker) : bool :=
  existsb (fun s => bool_decide (w_Status w = s)) statuses.
Definition inactive (w : Worker) : bool := status_in [WorkerStopped; WorkerFailed] w.

(** [fly_machine_id] is unique: another row holds the machine id. *)
Inductive storeError := ErrMachineTaken | ErrNoRows.

Definition machine_taken (tbl : list Worker) (id machine : string) : bool :=
  negb (machine =s "") &&
  existsb (fun w => negb (w_ID w =s id) && (w_FlyMachineID w =s machine)) tbl.

Definition find_worker (tbl : list Worker) (id : string) : option Worker :=
  List.find (fun w => w_ID w =s id) tbl.
Definition GetWorker (tbl : list Worker) (id : string) : result storeError Worker :=
  match find_worker tbl id with Some w => Ok w | None => Err ErrNoRows end.
Definition exists_worker (tbl : list Worker) (id : string) : bool := existsb (fun w => w_ID w =s id) tbl.

(** [UPDATE workers SET ... WHERE p]. *)
Definition update_where (p : Worker -> bool) (f : Worker -> Worker) (tbl : list Worker) : list Worker :=
  map (fun w => if p w then f w else w) tbl.
Definition update_worker (id : string) (f : Worker -> Worker) : list Worker -> list Worker :=
  update_where (fun w => w_ID w =s id) f.

(** * Writers *)

(** The row a fresh [INSERT] of [CreateWorker] leaves. *)
Definition inserted_worker (now : time) (w : Worker) : Worker :=
  w <| w_CreatedAt := datetime_now now |> <| w_UpdatedAt := datetime_now now |>
    <| w_LastHeartbeatAt := None |> <| w_ErrorMessage := "" |>
    <| w_LastRuntimeJSON := "" |> <| w_LastRuntimeAt := None |>
    <| w_DormantAt := None |> <| w_DormantReason := "" |> <| w_DormantSignature := "" |>
    <| w_ResumeTrigger := "" |> <| w_LastProbeAt := None |>
    <| w_EvidenceHoldAt := None |> <| w_EvidenceHoldReason := "" |>.

(** [ON CONFLICT(id) DO UPDATE]: everything but the machine and volume an
    empty request leaves and the evidence hold is reset. *)
Definition recreated_worker (now : time) (w stored : Worker) : Worker :=
  (inserted_worker now w)
    <| w_FlyMachineID := coalesce (w_FlyMachineID w) (w_FlyMachineID stored) |>
    <| w_FlyVolumeID := coalesce (w_FlyVolumeID w) (w_FlyVolumeID stored) |>
    <| w_EvidenceHoldAt := w_EvidenceHoldAt stored |>
    <| w_EvidenceHoldReason := w_EvidenceHoldReason stored |>.

Definition CreateWorker (now : time) (w : Worker) (tbl : list Worker) : result storeError (list Worker) :=
  if machine_taken tbl (w_ID w) (w_FlyMachineID w) then Err ErrMachineTaken
  else if exists_worker tbl (w_ID w) then Ok (update_worker (w_ID w) (recreated_worker now w) tbl)
  else Ok (tbl ++ [inserted_worker now w]).

(** The [SET] clause of each statement is a function of the row. *)
Definition set_status (now : time) (status : WorkerStatus) (errMsg : string) (w : Worker) : Worker :=
  w <| w_Status := status |> <| w_ErrorMessage := errMsg |> <| w_UpdatedAt := datetime_now now |>.
Definition UpdateWorkerStatus (now : time) (id : string) (status : WorkerStatus) (errMsg : string)
  : list Worker -> list Worker := update_worker id (set_status now status errMsg).

Definition set_machine (now : time) (machineID volumeID : string) (w : Worker) : Worker :=
  w <| w_FlyMachineID := machineID |> <| w_FlyVolumeID := volumeID |> <| w_UpdatedAt := datetime_now now |>.
Definition UpdateWorkerMachine (now : time) (id machineID volumeID : string) (tbl : list Worker)
  : result storeError (list Worker) :=
  if exists_worker tbl id && machine_taken tbl id machineID then Err ErrMachineTaken
  else Ok (update_worker id (set_machine now machineID volumeID) tbl).

Definition set_heartbeat (now : time) (w : Worker) : Worker :=
  w <| w_LastHeartbeatAt := Some (datetime_now now) |> <| w_UpdatedAt := datetime_now now |>.
Definition UpdateWorkerHeartbeat (now : time) (id : string) : list Worker -> list Worker :=
  update_worker id (set_heartbeat now).

(** The stored text of a payload is an argument: [json.Marshal] and the blob
    compaction, which expanding a row undoes. *)
Definition set_runtime (now : time) (payload : RuntimePayload) (body : string) (w : Worker) : Worker :=
  if rt_LitestreamSnapshotHealthy payload then
    let reportedAt :=
      if IsZero (rt_SnapshotCollectedAt payload) then now else rt_SnapshotCollectedAt payload in
    w <| w_LastRuntimeJSON := body |> <| w_LastRuntimeAt := Some reportedAt |>
      <| w_UpdatedAt := datetime_now now |>
  else w <| w_LastRuntimeJSON := body |> <| w_UpdatedAt := datetime_now now |>.
Definition UpdateWorkerRuntimeSnapshot (now : time) (id : string) (payload : RuntimePayload) (body : string)
  : list Worker -> list Worker := update_worker id (set_runtime now payload body).

(** ** Reports *)

Definition missedHeartbeatMessage : string := "worker missed heartbeat deadline".

Definition startable (w : Worker) : bool :=
  status_in [WorkerPending; WorkerBuilding; WorkerStarting] w ||
  (status_in [WorkerDegraded] w && (w_ErrorMessage w =s missedHeartbeatMessage)).

(** The [CASE] expressions of the status, the error message and the heartbeat. *)
Definition reported_status (reported : WorkerStatus) (failed : bool) (w : Worker) : WorkerStatus :=
  if failed then (if status_in [WorkerPending; WorkerBuilding] w then WorkerStarting else w_Status w)
  else if startable w then reported else w_Status w.
Definition reported_error (failed : bool) (w : Worker) : string :=
  if failed then w_ErrorMessage w else if startable w then "" else w_ErrorMessage w.
Definition reported_heartbeat (now : time) (failed : bool) (w : Worker) : option time :=
  if failed then match w_LastHeartbeatAt w with Some h => Some h | None => Some (datetime_now now) end
  else Some (datetime_now now).

Definition reported_name (identity : WorkerIdentity) : string :=
  if id_Name identity =s "" then id_WorkerID identity else id_Name identity.
Definition reported_config (identity : WorkerIdentity) : string :=
  if TrimSpace (id_ProfileConfig identity) =s "" then "{}" else id_ProfileConfig identity.

Definition reported_insert (now : time) (identity : WorkerIdentity) (reported : WorkerStatus) : Worker :=
  Worker_zero <| w_ID := id_WorkerID identity |> <| w_AppName := id_AppName identity |>
    <| w_Region := id_Region identity |> <| w_FlyMachineID := id_MachineID identity |>
    <| w_Name := reported_name identity |> <| w_Status := reported |>
    <| w_Source := id_Source identity |> <| w_GitSHA := id_GitSHA identity |>
    <| w_LitestreamSHA := id_LitestreamSHA identity |>
    <| w_ProfileName := id_ProfileName identity |> <| w_ProfileConfig := reported_config identity |>
    <| w_CreatedAt := datetime_now now |> <| w_UpdatedAt := datetime_now now |>
    <| w_LastHeartbeatAt := Some (datetime_now now) |>.

Definition reported_update (now : time) (identity : WorkerIdentity) (reported : WorkerStatus)
    (failed : bool) (w : Worker) : Worker :=
  w <| w_AppName := coalesce (id_AppName identity) (w_AppName w) |>
    <| w_Region := coalesce (id_Region identity) (w_Region w) |>
    <| w_FlyMachineID := coalesce (id_MachineID identity) (w_FlyMachineID w) |>
    <| w_Name := reported_name identity |>
    <| w_Status := reported_status reported failed w |>
    <| w_ErrorMessage := reported_error failed w |>
    <| w_Source := id_Source identity |> <| w_GitSHA := id_GitSHA identity |>
    <| w_LitestreamSHA := coalesce (id_LitestreamSHA identity) (w_LitestreamSHA w) |>
    <| w_ProfileName := id_ProfileName identity |>
    <| w_ProfileConfig :=
         if negb (w_ProfileConfig w =s "{}") then w_ProfileConfig w
         else if negb (reported_config identity =s "{}") then reported_config identity
         else w_ProfileConfig w |>
    <| w_LastHeartbeatAt := reported_heartbeat now failed w |>
    <| w_UpdatedAt := datetime_now now |>.

Definition upsertReportedWorker (now : time) (identity : WorkerIdentity) (reported : WorkerStatus)
    (failed : bool) (tbl : list Worker) : result storeError (list Worker) :=
  if machine_taken tbl (id_WorkerID identity) (id_MachineID identity) then Err ErrMachineTaken
  else if exists_worker tbl (id_WorkerID identity)
  then Ok (update_worker (id_WorkerID identity) (reported_update now identity reported failed) tbl)
  else Ok (tbl ++ [reported_insert now identity reported]).

Definition UpsertReportedWorker (now : time) (identity : WorkerIdentity) :=
  upsertReportedWorker now identity WorkerRunning false.
Definition UpsertStartingWorker (now : time) (identity : WorkerIdentity) :=
  upsertReportedWorker now identity WorkerStarting false.
Definition UpsertFailedWorker (now : time) (identity : WorkerIdentity) :=
  upsertReportedWorker now identity WorkerStarting true.

Definition clear_dormancy (w : Worker) : Worker :=
  w <| w_DormantAt := None |> <| w_DormantReason := "" |> <| w_DormantSignature := "" |>
    <| w_ResumeTrigger := "" |> <| w_LastProbeAt := None |>.

Definition set_verification (now : time) (passed : bool) (summary : string) (w : Worker) : Worker :=
  if passed
  then (clear_dormancy (w <| w_Status := WorkerRunning |> <| w_ErrorMessage := "" |>))
         <| w_UpdatedAt := datetime_now now |>
  else w <| w_Status := WorkerDegraded |> <| w_ErrorMessage := summary |> <| w_UpdatedAt := datetime_now now |>.
Definition UpdateWorkerVerificationState (now : time) (id : string) (passed : bool) (summary : string)
  : list Worker -> list Worker :=
  update_where (fun w => (w_ID w =s id) && negb (status_in [WorkerStopped; WorkerFailed; WorkerDormant] w))
    (set_verification now passed summary).

(** ** Dormancy and evidence holds *)

Definition set_dormant (now : time) (reason signature resumeTrigger : string) (w : Worker) : Worker :=
  w <| w_Status := WorkerDormant |> <| w_ErrorMessage := reason |>
    <| w_DormantAt := Some (datetime_now now) |> <| w_DormantReason := reason |>
    <| w_DormantSignature := signature |> <| w_ResumeTrigger := resumeTrigger |>
    <| w_UpdatedAt := datetime_now now |>.
Definition MarkWorkerDormant (now : time) (id reason signature resumeTrigger : string)
  : list Worker -> list Worker := update_worker id (set_dormant now reason signature resumeTrigger).

Definition set_probing (now : time) (resumeTrigger : string) (w : Worker) : Worker :=
  w <| w_Status := WorkerProbing |> <| w_ErrorMessage := "" |>
    <| w_DormantAt := None |> <| w_DormantReason := "" |> <| w_DormantSignature := "" |>
    <| w_ResumeTrigger := resumeTrigger |> <| w_LastProbeAt := Some (datetime_now now) |>
    <| w_UpdatedAt := datetime_now now |>.
Definition MarkWorkerProbing (now : time) (id resumeTrigger : string) : list Worker -> list Worker :=
  update_worker id (set_probing now resumeTrigger).

Definition set_awake (now : time) (w : Worker) : Worker :=
  (clear_dormancy w) <| w_UpdatedAt := datetime_now now |>.
Definition ClearWorkerDormancy (now : time) (id : string) : list Worker -> list Worker :=
  update_worker id (set_awake now).

Definition set_hold (now : time) (reason : string) (w : Worker) : Worker :=
  w <| w_EvidenceHoldAt := Some (datetime_now now) |> <| w_EvidenceHoldReason := reason |>
    <| w_UpdatedAt := datetime_now now |>.
Definition SetWorkerEvidenceHold (now : time) (id reason : string) : list Worker -> list Worker :=
  update_worker id (set_hold now reason).

Definition drop_hold (now : time) (w : Worker) : Worker :=
  w <| w_EvidenceHoldAt := None |> <| w_EvidenceHoldReason := "" |> <| w_UpdatedAt := datetime_now now |>.
Definition ClearWorkerEvidenceHold (now : time) (id : string) : list Worker -> list Worker :=
  update_worker id (drop_hold now).

Definition set_version (now : time) (machineID gitSHA litestreamSHA profileName profileConfig : string)
    (w : Worker) : Worker :=
  w <| w_FlyMachineID := machineID |> <| w_GitSHA := gitSHA |> <| w_LitestreamSHA := litestreamSHA |>
    <| w_ProfileName := profileName |> <| w_ProfileConfig := profileConfig |>
    <| w_UpdatedAt := datetime_now now |>.
Definition UpdateWorkerMachineVersionAndConfig (now : time)
    (id machineID gitSHA litestreamSHA profileName profileConfig : string) (tbl : list Worker)
  : result storeError (list Worker) :=
  if exists_worker tbl id && machine_taken tbl id machineID then Err ErrMachineTaken
  else Ok (update_worker id (set_version now machineID gitSHA litestreamSHA profileName profileConfig) tbl).

Definition delete_worker_row (id : string) (tbl : list Worker) : list Worker :=
  List.filter (fun w => negb (w_ID w =s id)) tbl.
Definition DeleteWorker (db : soakDB) (id : string) : soakDB :=
  db <| db_verifications ::= List.filter (fun v => negb (v_WorkerID v =s id)) |>
     <| db_events ::= List.filter (fun e => negb (e_WorkerID e =s id)) |>
     <| db_workers ::= delete_worker_row id |>.

(** * Readers *)

Definition asc_by {A} (key : A -> Z) (a b : A) : Prop := (key a <= key b)%Z.
#[export] Instance asc_by_dec {A} (key : A -> Z) a b : Decision (asc_by key a b).
Proof. unfold asc_by. apply _. Defined.
Definition order_asc {A} (key : A -> Z) (l : list A) : list A := merge_sort (asc_by key) l.

Lemma order_asc_In {A} (key : A -> Z) l x : In x (order_asc key l) <-> In x l.
Proof.
  unfold order_asc. rewrite <- !list_elem_of_In. apply elem_of_Permutation_proper, merge_sort_Permutation.
Qed.

(** SQLite's [BINARY] collation. *)
Definition text_le (a b : string) : Prop := String.leb a b = true.
#[export] Instance text_le_dec a b : Decision (text_le a b).
Proof. unfold text_le. apply _. Defined.

(** [ORDER BY source, created_at] *)
Definition source_created_le (a b : Worker) : Prop :=
  (w_Source a <> w_Source b /\ text_le (w_Source a) (w_Source b)) \/
  (w_Source a = w_Source b /\ (w_CreatedAt a <= w_CreatedAt b)%Z).
#[export] Instance source_created_le_dec a b : Decision (source_created_le a b).
Proof. unfold source_created_le. apply _. Defined.

Definition ListDormancyWorkers (tbl : list Worker) : list Worker :=
  merge_sort source_created_le (List.filter (status_in [WorkerRunning; WorkerDegraded]) tbl).

Definition ListActiveWorkerSources (tbl : list Worker) : list string :=
  map (fun source => if TrimSpace source =s "" then "main" else source)
    (merge_sort text_le (remove_dups (map w_Source (List.filter (fun w => negb (inactive w)) tbl)))).

Definition ListExpiredWorkers (now : time) (tbl : list Worker) : list Worker :=
  order_asc (fun w => match w_ExpiresAt w with Some e => e | None => 0%Z end)
    (List.filter (fun w =>
       match w_ExpiresAt w with Some e => text_before_now e now | None => false end &&
       negb (inactive w)) tbl).

Definition ListWorkersForSource (tbl : list Worker) (source : string) : list Worker :=
  order_asc w_CreatedAt (List.filter (fun w => (w_Source w =s source) && negb (inactive w)) tbl).

Definition ListDormantWorkers (tbl : list Worker) (source : string) : list Worker :=
  order_desc w_UpdatedAt (List.filter (fun w =>
    status_in [WorkerDormant] w && ((source =s "") || (w_Source w =s source))) tbl).

Definition ListDormantWorkersForResumeTrigger (tbl : list Worker) (source resumeTrigger : string)
  : list Worker :=
  order_desc w_UpdatedAt (List.filter (fun w =>
    status_in [WorkerDormant] w && (w_Source w =s source) && (w_ResumeTrigger w =s resumeTrigger)) tbl).

Definition listWorkersBySource (tbl : list Worker) (source : string) : list Worker :=
  order_asc w_CreatedAt (List.filter (fun w =>
    (w_Source w =s source) && negb (status_in [WorkerStopped; WorkerFailed; WorkerDormant] w)) tbl).
Definition ListMainWorkers (tbl : list Worker) : list Worker := listWorkersBySource tbl "main".

(** [provisioning] is the [worker_provisioning] table's (worker, volume) pairs. *)
Definition ListWorkersReferencingVolume (tbl : list Worker) (provisioning : list (string * string))
    (volumeID : string) : list Worker :=
  order_asc w_CreatedAt (List.filter (fun w =>
    (negb (volumeID =s "") && (w_FlyVolumeID w =s volumeID)) ||
    existsb (fun p => (w_ID w =s fst p) && (snd p =s volumeID)) provisioning) tbl).

Definition StaleWorkers (now : time) (timeout : duration) (tbl : list Worker) : list Worker :=
  let cutoff := Truncate (time_Add now (- timeout)) Second in
  List.filter (fun w =>
    status_in [WorkerRunning; WorkerProbing; WorkerStarting] w &&
    match w_LastHeartbeatAt w with Some h => (h <? cutoff)%Z | None => false end) tbl.

(** * The heartbeat monitor (orchestrator/expiry.go) *)

(** [RecordEvent] (model/events.go): the new event's id is above every id of
    the table. *)
Definition RecordEvent (now : time) (workerID eventType message details : string) (db : soakDB) : soakDB :=
  let id := (fold_left (fun m e => Z.max m (e_ID e)) (db_events db) 0 + 1)%Z in
  db <| db_events := db_events db ++
    [Event_zero <| e_ID := id |> <| e_WorkerID := workerID |> <| e_EventType := eventType |>
       <| e_Message := message |> <| e_Details := details |> <| e_CreatedAt := datetime_now now |>] |>.

Definition markStale (now : time) (db : soakDB) (w : Worker) : soakDB :=
  RecordEvent now (w_ID w) "worker_stale" "Worker missed heartbeat deadline" ""
    (db <| db_workers ::= UpdateWorkerStatus now (w_ID w) WorkerDegraded missedHeartbeatMessage |>).

Definition checkStaleWorkers (now : time) (timeout : duration) (db : soakDB) : soakDB :=
  fold_left (markStale now) (StaleWorkers now timeout (db_workers db)) db.

(** * The table as a transition system *)

Inductive workerOp :=
| OpCreate (w : Worker)
| OpStatus (id : string) (status : WorkerStatus) (errMsg : string)
| OpMachine (id machineID volumeID : string)
| OpHeartbeat (id : string)
| OpRuntime (id : string) (payload : RuntimePayload) (body : string)
| OpReported (identity : WorkerIdentity)
| OpStarting (identity : WorkerIdentity)
| OpFailed (identity : WorkerIdentity)
| OpVerification (id : string) (passed : bool) (summary : string)
| OpDormant (id reason signature resumeTrigger : string)
| OpProbing (id resumeTrigger : string)
| OpClearDormancy (id : string)
| OpSetHold (id reason : string)
| OpClearHold (id : string)
| OpVersion (id machineID gitSHA litestreamSHA profileName profileConfig : string)
| OpDelete (id : string).

Definition apply_op (now : time) (op : workerOp) (tbl : list Worker) : result storeError (list Worker) :=
  match op with
  | OpCreate w => CreateWorker now w tbl
  | OpStatus id status errMsg => Ok (UpdateWorkerStatus now id status errMsg tbl)
  | OpMachine id machineID volumeID => UpdateWorkerMachine now id machineID volumeID tbl
  | OpHeartbeat id => Ok (UpdateWorkerHeartbeat now id tbl)
  | OpRuntime id payload body => Ok (UpdateWorkerRuntimeSnapshot now id payload body tbl)
  | OpReported identity => UpsertReportedWorker now identity tbl
  | OpStarting identity => UpsertStartingWorker now identity tbl
  | OpFailed identity => UpsertFailedWorker now identity tbl
  | OpVerification id passed summary => Ok (UpdateWorkerVerificationState now id passed summary tbl)
  | OpDormant id reason signature trigger => Ok (MarkWorkerDormant now id reason signature trigger tbl)
  | OpProbing id trigger => Ok (MarkWorkerProbing now id trigger tbl)
  | OpClearDormancy id => Ok (ClearWorkerDormancy now id tbl)
  | OpSetHold id reason => Ok (SetWorkerEvidenceHold now id reason tbl)
  | OpClearHold id => Ok (ClearWorkerEvidenceHold now id tbl)
  | OpVersion id machineID gitSHA litestreamSHA profileName profileConfig =>
      UpdateWorkerMachineVersionAndConfig now id machineID gitSHA litestreamSHA profileName profileConfig tbl
  | OpDelete id => Ok (delete_worker_row id tbl)
  end.

(** A statement that fails leaves the table as it was. *)
Definition exec_op (tbl : list Worker) (step : time * workerOp) : list Worker :=
  match apply_op (fst step) (snd step) tbl with Ok tbl' => tbl' | Err _ => tbl end.
Definition run_ops (steps : list (time * workerOp)) (tbl : list Worker) : list Worker :=
  fold_left exec_op steps tbl.

Definition op_target (op : workerOp) : string :=
  match op with
  | OpCreate w => w_ID w
  | OpReported identity | OpStarting identity | OpFailed identity => id_WorkerID identity
  | OpStatus id _ _ | OpMachine id _ _ | OpHeartbeat id | OpRuntime id _ _ | OpVerification id _ _
  | OpDormant id _ _ _ | OpProbing id _ | OpClearDormancy id | OpSetHold id _ | OpClearHold id
  | OpVersion id _ _ _ _ _ | OpDelete id => id
  end.

(** What a report from a worker can do to the table. *)
Definition is_report (op : workerOp) : bool :=
  match op with
  | OpHeartbeat _ | OpRuntime _ _ _ | OpReported _ | OpStarting _ | OpFailed _ | OpVerification _ _ _ => true
  | _ => false
  end.
Definition is_failed_report (op : workerOp) : bool := match op with OpFailed _ => true | _ => false end.
Definition is_delete (op : workerOp) : bool := match op with OpDelete _ => true | _ => false end.

(** ** Lookup in the table *)

Lemma find_worker_id tbl id w : find_worker tbl id = Some w -> w_ID w = id.
Proof. intros H. apply List.find_some in H as [_ H]. by apply eqs_true in H. Qed.

Lemma find_worker_In tbl id w : find_worker tbl id = Some w -> In w tbl.
Proof. intros H. apply List.find_some in H. tauto. Qed.

Lemma find_update p f tbl id :
  (forall w, p w = true -> w_ID (f w) = w_ID w) ->
  find_worker (update_where p f tbl) id = option_map (fun w => if p w then f w else w) (find_worker tbl id).
Proof.
  intros Hid. unfold find_worker, update_where. induction tbl as [|w tbl IH]; [done|].
  simpl. assert (w_ID (if p w then f w else w) = w_ID w) as -> by (destruct (p w) eqn:E; auto).
  by destruct (w_ID w =s id).
Qed.

Lemma find_append tbl w id :
  exists_worker tbl (w_ID w) = false ->
  find_worker (tbl ++ [w]) id = if w_ID w =s id then Some w else find_worker tbl id.
Proof.
  unfold find_worker, exists_worker. induction tbl as [|x tbl IH]; simpl.
  - by destruct (w_ID w =s id).
  - intros H. apply orb_false_iff in H as [Hx H]. rewrite (IH H).
    destruct (eqs_spec (w_ID x) id) as [<-|]; [|done].
    destruct (eqs_spec (w_ID w) (w_ID x)) as [E|]; [|done]. by rewrite E, eqs_refl in Hx.
Qed.

Lemma find_delete tbl id id' :
  find_worker (delete_worker_row id tbl) id' = if id =s id' then None else find_worker tbl id'.
Proof.
  unfold find_worker, delete_worker_row. induction tbl as [|x tbl IH]; simpl; [by destruct (id =s id')|].
  destruct (eqs_spec (w_ID x) id) as [E|E]; simpl; rewrite ?IH.
  - destruct (eqs_spec id id') as [F|F]; [done|]. destruct (eqs_spec (w_ID x) id'); [congruence|done].
  - destruct (eqs_spec (w_ID x) id') as [F|F]; [|done]. destruct (eqs_spec id id'); [congruence|done].
Qed.

Lemma exists_find tbl id : exists_worker tbl id = true <-> is_Some (find_worker tbl id).
Proof.
  unfold exists_worker, find_worker. induction tbl as [|x tbl IH]; simpl.
  - split; [done|]. by intros [? ?].
  - destruct (w_ID x =s id); simpl; [|done]. split; [eauto|done].
Qed.

(** ** The shape of a step

    A statement that succeeds updates the rows of its target by a function of
    the row, inserts one new row, or deletes its target. *)

Definition op_set (now : time) (op : workerOp) : Worker -> Worker :=
  match op with
  | OpCreate w => recreated_worker now w
  | OpStatus _ status errMsg => set_status now status errMsg
  | OpMachine _ machineID volumeID => set_machine now machineID volumeID
  | OpHeartbeat _ => set_heartbeat now
  | OpRuntime _ payload body => set_runtime now payload body
  | OpReported identity => reported_update now identity WorkerRunning false
  | OpStarting identity => reported_update now identity WorkerStarting false
  | OpFailed identity => reported_update now identity WorkerStarting true
  | OpVerification _ passed summary => set_verification now passed summary
  | OpDormant _ reason signature trigger => set_dormant now reason signature trigger
  | OpProbing _ trigger => set_probing now trigger
  | OpClearDormancy _ => set_awake now
  | OpSetHold _ reason => set_hold now reason
  | OpClearHold _ => drop_hold now
  | OpVersion _ machineID gitSHA litestreamSHA name config =>
      set_version now machineID gitSHA litestreamSHA name config
  | OpDelete _ => fun w => w
  end.

Definition op_guard (op : workerOp) (w : Worker) : bool :=
  match op with
  | OpVerification _ _ _ => negb (status_in [WorkerStopped; WorkerFailed; WorkerDormant] w)
  | OpDelete _ => false
  | _ => true
  end.
Definition op_where (op : workerOp) (w : Worker) : bool := (w_ID w =s op_target op) && op_guard op w.

Definition op_insert (now : time) (op : workerOp) : option Worker :=
  match op with
  | OpCreate w => Some (inserted_worker now w)
  | OpReported identity => Some (reported_insert now identity WorkerRunning)
  | OpStarting identity | OpFailed identity => Some (reported_insert now identity WorkerStarting)
  | _ => None
  end.

(** The machine id a statement writes, when it writes one. *)
Definition op_machine (op : workerOp) : string :=
  match op with
  | OpCreate w => w_FlyMachineID w
  | OpReported identity | OpStarting identity | OpFailed identity => id_MachineID identity
  | OpMachine _ machineID _ | OpVersion _ machineID _ _ _ _ => machineID
  | _ => ""
  end.

Inductive step_shape (now : time) (op : workerOp) (tbl : list Worker) : list Worker -> Prop :=
| shape_error : step_shape now op tbl tbl
| shape_update : (exists_worker tbl (op_target op) = true -> machine_taken tbl (op_target op) (op_machine op) = false) ->
    step_shape now op tbl (update_where (op_where op) (op_set now op) tbl)
| shape_insert w : op_insert now op = Some w -> w_ID w = op_target op ->
    exists_worker tbl (op_target op) = false -> machine_taken tbl (op_target op) (w_FlyMachineID w) = false ->
    step_shape now op tbl (tbl ++ [w])
| shape_delete : is_delete op = true -> step_shape now op tbl (delete_worker_row (op_target op) tbl).

Lemma update_where_ext p q f tbl : (forall w, p w = q w) -> update_where p f tbl = update_where q f tbl.
Proof. intros E. apply map_ext. intros w. by rewrite E. Qed.

Lemma update_worker_where id f tbl :
  update_worker id f tbl = update_where (fun w => (w_ID w =s id) && true) f tbl.
Proof. apply update_where_ext. intros w. by rewrite andb_true_r. Qed.

Lemma exec_shape now op tbl : step_shape now op tbl (exec_op tbl (now, op)).
Proof.
  unfold exec_op; simpl. destruct op; simpl;
    unfold CreateWorker, UpdateWorkerStatus, UpdateWorkerMachine, UpdateWorkerHeartbeat,
    UpdateWorkerRuntimeSnapshot, UpsertReportedWorker, UpsertStartingWorker, UpsertFailedWorker,
    upsertReportedWorker, MarkWorkerDormant, MarkWorkerProbing, ClearWorkerDormancy,
    SetWorkerEvidenceHold, ClearWorkerEvidenceHold, UpdateWorkerMachineVersionAndConfig;
    rewrite ?update_worker_where; repeat case_match; simplify_eq;
    try (apply shape_error); try (by apply (shape_delete now (OpDelete id)));
    try (by eapply shape_insert);
    match goal with |- step_shape ?n ?o _ _ => apply (shape_update n o) end; simpl; try done;
    intros E; by rewrite E in *.
Qed.

Lemma op_set_id now op w : op_where op w = true -> w_ID (op_set now op w) = w_ID w.
Proof.
  unfold op_where. intros H. apply andb_true_iff in H as [H _]. apply eqs_true in H.
  destruct op; simpl in *; unfold recreated_worker, reported_update, set_runtime, set_verification; simpl; try done;
    repeat case_match; done.
Qed.

(** What a step does to a row of another key, and to its own. *)
Lemma exec_find now op tbl id w :
  find_worker tbl id = Some w -> (op_target op = id -> is_delete op = false) ->
  exists w', find_worker (exec_op tbl (now, op)) id = Some w' /\
    (w' = w \/ (op_target op = id /\ op_guard op w = true /\ w' = op_set now op w)).
Proof.
  intros Hf Hd. pose proof (find_worker_id _ _ _ Hf) as Hid.
  destruct (exec_shape now op tbl) as [|_|x _ Hx Hn _|Hdel].
  - eauto.
  - rewrite find_update by apply op_set_id. rewrite Hf; simpl. eexists; split; [done|].
    destruct (op_where op w) eqn:E; [|by left]. right.
    apply andb_true_iff in E as [E G]. apply eqs_true in E. split_and!; [congruence|done..].
  - rewrite find_append by by rewrite Hx. destruct (eqs_spec (w_ID x) id) as [E|E]; [|eauto].
    exfalso. rewrite <- Hx, E in Hn. assert (exists_worker tbl id = true) by (apply exists_find; eauto). congruence.
  - rewrite find_delete. destruct (eqs_spec (op_target op) id) as [E|E]; [|eauto].
    rewrite (Hd E) in Hdel. done.
Qed.

(** A property of a row that every allowed operation keeps survives any run:
    operations on other rows are arbitrary. *)
Section RowInvariant.
Variables (id : string) (allowed : workerOp -> bool) (P : Worker -> Prop).
Hypothesis allowed_keeps : forall now op w,
  w_ID w = id -> op_target op = id -> allowed op = true -> op_guard op w = true -> P w -> P (op_set now op w).
Hypothesis no_delete : forall op, allowed op = true -> is_delete op = false.

Definition only_allowed (step : time * workerOp) : Prop :=
  op_target (snd step) = id -> allowed (snd step) = true.

Lemma run_row_invariant steps tbl w :
  find_worker tbl id = Some w -> P w -> Forall only_allowed steps ->
  exists w', find_worker (run_ops steps tbl) id = Some w' /\ P w'.
Proof.
  intros Hf HP Hs. revert tbl w Hf HP. induction Hs as [|[now op] steps Hop _ IH]; intros tbl w Hf HP; [eauto|].
  unfold run_ops. rewrite fold_left_cons.
  destruct (exec_find now op tbl id w Hf) as (w' & Hf' & Hw'); [auto|].
  apply (IH _ w' Hf'). destruct Hw' as [->|(E & G & ->)]; [done|].
  apply allowed_keeps; auto. by apply (find_worker_id tbl).
Qed.
End RowInvariant.

(** * The table's invariant *)

Definition whole (t : time) : Prop := (t mod Second = 0)%Z.
Definition whole_opt (t : option time) : Prop := from_option whole True t.

(** A row's timestamps written by the database are whole seconds, and the
    texts of a dormancy or of a hold are there only while it is. *)
Record row_ok (w : Worker) : Prop := {
  ro_created : whole (w_CreatedAt w);
  ro_updated : whole (w_UpdatedAt w);
  ro_heartbeat : whole_opt (w_LastHeartbeatAt w);
  ro_dormant_at : whole_opt (w_DormantAt w);
  ro_probe_at : whole_opt (w_LastProbeAt w);
  ro_hold_at : whole_opt (w_EvidenceHoldAt w);
  ro_dormant : w_DormantAt w = None -> w_DormantReason w = "" /\ w_DormantSignature w = "";
  ro_hold : w_EvidenceHoldAt w = None -> w_EvidenceHoldReason w = ""
}.

Definition machines_unique (tbl : list Worker) : Prop :=
  forall a b, In a tbl -> In b tbl -> w_FlyMachineID a <> "" ->
    w_FlyMachineID a = w_FlyMachineID b -> w_ID a = w_ID b.

Record table_wf (tbl : list Worker) : Prop := {
  tw_ids : NoDup (map w_ID tbl);
  tw_machines : machines_unique tbl;
  tw_rows : Forall row_ok tbl
}.

Lemma datetime_now_whole now : whole (datetime_now now).
Proof.
  unfold whole, datetime_now, Truncate. replace (Second <=? 0)%Z with false by done.
  rewrite Zminus_mod_idemp_r, Z.sub_diag. done.
Qed.
#[local] Hint Resolve datetime_now_whole : core.

Lemma inserted_row_ok now w : row_ok (inserted_worker now w).
Proof. by constructor; simpl; auto. Qed.

Lemma reported_row_ok now identity status : row_ok (reported_insert now identity status).
Proof. by constructor; simpl; auto. Qed.

Lemma op_set_row_ok now op w : row_ok w -> row_ok (op_set now op w).
Proof.
  intros []. destruct op; simpl; unfold set_runtime, set_verification; repeat case_match;
    (constructor; simpl; auto); unfold reported_heartbeat; repeat case_match; simpl; auto; congruence.
Qed.

Lemma op_insert_row_ok now op w : op_insert now op = Some w -> row_ok w.
Proof. destruct op; simpl; intros; simplify_eq; auto using inserted_row_ok, reported_row_ok. Qed.

(** The machine id a row holds after an update is its own or the free one the
    statement wrote. *)
Lemma op_set_machine now op w :
  w_FlyMachineID (op_set now op w) = w_FlyMachineID w \/ w_FlyMachineID (op_set now op w) = op_machine op.
Proof.
  destruct op; simpl; auto; unfold set_runtime, set_verification, coalesce; repeat case_match; auto.
Qed.

Lemma machine_taken_spec tbl id m :
  machine_taken tbl id m = false -> m <> "" -> forall w, In w tbl -> w_FlyMachineID w = m -> w_ID w = id.
Proof.
  unfold machine_taken. intros H Hm w Hw Hwm. apply andb_false_iff in H as [H|H].
  - apply negb_false_iff, eqs_true in H. done.
  - apply not_true_iff_false in H. destruct (eqs_spec (w_ID w) id) as [|E]; [done|]. destruct H.
    apply existsb_exists. exists w. split; [done|]. apply andb_true_iff. split; [|by apply eqs_true].
    by apply negb_true_iff, eqs_false.
Qed.

Lemma exists_worker_In tbl w : In w tbl -> exists_worker tbl (w_ID w) = true.
Proof. intros H. apply existsb_exists. exists w. split; [done|]. apply eqs_refl. Qed.

Lemma update_ids p f tbl :
  (forall w, p w = true -> w_ID (f w) = w_ID w) -> map w_ID (update_where p f tbl) = map w_ID tbl.
Proof. intros H. unfold update_where. rewrite map_map. apply map_ext. intros w. destruct (p w) eqn:E; auto. Qed.

Lemma update_machines now op tbl :
  NoDup (map w_ID tbl) -> machines_unique tbl ->
  (exists_worker tbl (op_target op) = true -> machine_taken tbl (op_target op) (op_machine op) = false) ->
  machines_unique (update_where (op_where op) (op_set now op) tbl).
Proof.
  intros Hnd Hu Ht a b Ha Hb Hne Heq. unfold update_where in Ha, Hb.
  apply in_map_iff in Ha as (x & <- & Hx), Hb as (y & <- & Hy).
  assert (forall z, In z tbl -> op_where op z = true -> w_ID z = op_target op /\
    machine_taken tbl (op_target op) (op_machine op) = false) as Hw.
  { intros z Hz E. apply andb_true_iff in E as [E _]. apply eqs_true in E. split; [done|].
    apply Ht. rewrite <- E. by apply exists_worker_In. }
  destruct (op_where op x) eqn:Ex, (op_where op y) eqn:Ey; rewrite ?op_set_id by done; auto.
  - destruct (Hw x Hx Ex), (Hw y Hy Ey). congruence.
  - destruct (Hw x Hx Ex) as [Hi Hf]. destruct (op_set_machine now op x) as [E|E]; rewrite E in *; [by apply Hu|].
    rewrite (machine_taken_spec _ _ _ Hf Hne y Hy) by done. done.
  - destruct (Hw y Hy Ey) as [Hi Hf]. rewrite Heq in Hne.
    destruct (op_set_machine now op y) as [E|E]; rewrite E in *; [apply Hu; congruence|].
    rewrite (machine_taken_spec _ _ _ Hf Hne x Hx) by done. done.
Qed.

Lemma insert_machines tbl w :
  machines_unique tbl -> machine_taken tbl (w_ID w) (w_FlyMachineID w) = false -> machines_unique (tbl ++ [w]).
Proof.
  intros Hu Ht a b Ha Hb Hne Heq. rewrite in_app_iff in Ha, Hb. simpl in Ha, Hb.
  destruct Ha as [Ha|[<-|[]]], Hb as [Hb|[<-|[]]]; auto.
  - apply (machine_taken_spec tbl (w_ID w) (w_FlyMachineID a)); congruence.
  - symmetry. by apply (machine_taken_spec tbl (w_ID w) (w_FlyMachineID w)).
Qed.

Lemma insert_ids tbl w :
  NoDup (map w_ID tbl) -> exists_worker tbl (w_ID w) = false -> NoDup (map w_ID (tbl ++ [w])).
Proof.
  intros Hn He. rewrite map_app. apply NoDup_app. split_and!; [done| |apply NoDup_singleton].
  intros id Hin Hs. apply list_elem_of_singleton in Hs. subst.
  apply list_elem_of_In, in_map_iff in Hin as (x & Hx & Hin).
  apply exists_worker_In in Hin. rewrite Hx in Hin. congruence.
Qed.

Lemma delete_wf id tbl : table_wf tbl -> table_wf (delete_worker_row id tbl).
Proof.
  intros [Hn Hm Hr]. unfold delete_worker_row. constructor.
  - clear Hm Hr. induction tbl as [|w tbl IH]; [done|]. simpl in *. apply NoDup_cons in Hn as [Hw Hn].
    destruct (negb _); [|auto]. simpl. apply NoDup_cons. split; [|auto].
    intros Hin. apply Hw. apply list_elem_of_In, in_map_iff in Hin as (x & Hx & Hin).
    apply filter_In in Hin as [Hin _]. apply list_elem_of_In, in_map_iff. eauto.
  - intros a b Ha Hb. apply filter_In in Ha as [Ha _], Hb as [Hb _]. auto.
  - apply List.Forall_forall. intros x Hx. apply filter_In in Hx as [Hx _].
    rewrite List.Forall_forall in Hr. auto.
Qed.

Lemma exec_wf step tbl : table_wf tbl -> table_wf (exec_op tbl step).
Proof.
  destruct step as [now op]. intros Hwf. destruct (exec_shape now op tbl) as [|Ht|w Hi Hid He Ht|Hd]; [done|..].
  - destruct Hwf as [Hn Hm Hr]. constructor.
    + rewrite update_ids; [done|]. apply op_set_id.
    + by apply update_machines.
    + apply List.Forall_forall. intros x Hx. apply in_map_iff in Hx as (y & <- & Hy).
      rewrite List.Forall_forall in Hr. destruct (op_where op y); auto using op_set_row_ok.
  - rewrite <- Hid in He, Ht. destruct Hwf as [Hn Hm Hr]. constructor.
    + by apply insert_ids.
    + by apply insert_machines.
    + apply Forall_app. split; [done|]. apply Forall_singleton. by apply (op_insert_row_ok now op).
  - by apply delete_wf.
Qed.

Lemma run_wf steps tbl : table_wf tbl -> table_wf (run_ops steps tbl).
Proof.
  revert tbl. induction steps as [|step steps IH]; intros tbl H; [done|].
  unfold run_ops. rewrite fold_left_cons. apply IH. by apply exec_wf.
Qed.

Lemma empty_wf : table_wf [].
Proof. constructor; [apply NoDup_nil_2|intros ? ? []|constructor]. Qed.

(** C39: whatever operations the control plane runs, in any order and at any
    times, from an empty worker table, the table is well formed: one row per
    worker id, no machine id held by two workers, every timestamp the
    database wrote a whole second, and no dormancy or hold text without its
    timestamp. *)
Theorem worker_table_wf (steps : list (time * workerOp)) : table_wf (run_ops steps []).
Proof. apply run_wf, empty_wf. Qed.

(** * What reports cannot do *)

Definition terminal (w : Worker) : bool := status_in [WorkerStopped; WorkerFailed; WorkerDormant] w.

(** The columns that decide whether a worker runs and what cleanup keeps. *)
Definition lifecycle_columns (w : Worker) :=
  (w_Status w, w_ErrorMessage w, w_ExpiresAt w, w_CreatedAt w,
   (w_DormantAt w, w_DormantReason w, w_DormantSignature w, w_ResumeTrigger w, w_LastProbeAt w),
   (w_EvidenceHoldAt w, w_EvidenceHoldReason w), w_FlyVolumeID w).

Lemma status_in_spec l w : status_in l w = true <-> In (w_Status w) l.
Proof.
  unfold status_in. rewrite existsb_exists. split.
  - intros (s & Hs & E). apply bool_decide_eq_true in E. by subst.
  - intros H. eexists; split; [done|]. by apply bool_decide_eq_true.
Qed.

Lemma terminal_startable w : terminal w = true -> startable w = false.
Proof. unfold terminal, startable, status_in. destruct (w_Status w); done. Qed.

Lemma report_keeps_terminal now op w :
  is_report op = true -> terminal w = true -> op_guard op w = true ->
  lifecycle_columns (op_set now op w) = lifecycle_columns w.
Proof.
  intros Hr Ht Hg. pose proof (terminal_startable w Ht) as Hs.
  destruct op; try done; unfold lifecycle_columns; simpl in *; unfold set_runtime, reported_status, reported_error;
    rewrite ?Hs; try done.
  - by repeat case_match.
  - unfold terminal, status_in in *. by destruct (w_Status w).
  - unfold terminal, status_in in *. by destruct (w_Status w).
Qed.

(** A stopped, failed or dormant worker stays what it is: no sequence of
    its own reports (heartbeats, starting, failed and verification reports,
    runtime snapshots), mixed with any operations on other workers, changes
    its status, its error, its dormancy, its evidence hold, its expiry or its
    volume. *)
Theorem reports_never_resurrect (id : string) (steps : list (time * workerOp)) (tbl : list Worker) (w : Worker)
    (Hw : find_worker tbl id = Some w) (Hterm : terminal w = true)
    (Hreports : Forall (only_allowed id is_report) steps) :
  exists w', find_worker (run_ops steps tbl) id = Some w' /\ lifecycle_columns w' = lifecycle_columns w.
Proof.
  apply (run_row_invariant id is_report (fun x => lifecycle_columns x = lifecycle_columns w)) with (w := w); try done.
  - intros now op x Hid Ht Hr Hg Hx. rewrite <- Hx. apply report_keeps_terminal; auto.
    unfold terminal, status_in in *. by injection Hx as ->.
  - by intros [].
Qed.

(** * A worker that fails on every restart goes stale *)

Definition stale_watched (w : Worker) : bool := status_in [WorkerRunning; WorkerProbing; WorkerStarting] w.

Lemma failed_report_keeps now op w :
  is_failed_report op = true -> stale_watched w = true -> is_Some (w_LastHeartbeatAt w) ->
  w_Status (op_set now op w) = w_Status w /\ w_LastHeartbeatAt (op_set now op w) = w_LastHeartbeatAt w.
Proof.
  intros Hf Hs [h Hh]. destruct op; try done. simpl. unfold reported_status, reported_heartbeat. rewrite Hh.
  split; [|done]. unfold stale_watched, status_in in *. by destruct (w_Status w).
Qed.

Lemma stale_monitor_row now ids db id w :
  find_worker (db_workers db) id = Some w ->
  find_worker (db_workers (fold_left (markStale now) ids db)) id =
    Some (if existsb (fun x => w_ID x =s id) ids then set_status now WorkerDegraded missedHeartbeatMessage w else w).
Proof.
  revert db w. induction ids as [|x ids IH]; intros db w Hf; [done|]. rewrite fold_left_cons.
  assert (find_worker (db_workers (markStale now db x)) id =
    Some (if w_ID x =s id then set_status now WorkerDegraded missedHeartbeatMessage w else w)) as Hx.
  { change (db_workers (markStale now db x)) with
      (update_worker (w_ID x) (set_status now WorkerDegraded missedHeartbeatMessage) (db_workers db)).
    unfold update_worker. rewrite find_update by done. rewrite Hf. simpl.
    by rewrite (find_worker_id _ _ _ Hf), String.eqb_sym. }
  rewrite (IH _ _ Hx). simpl. destruct (w_ID x =s id); simpl; [|done]. by destruct (existsb _ ids).
Qed.

Lemma stale_listed now timeout tbl id w :
  table_wf tbl -> find_worker tbl id = Some w ->
  existsb (fun x => w_ID x =s id) (StaleWorkers now timeout tbl) =
    stale_watched w &&
    match w_LastHeartbeatAt w with Some h => (h <? Truncate (time_Add now (- timeout)) Second)%Z | None => false end.
Proof.
  intros [Hn _ _] Hf. unfold StaleWorkers. induction tbl as [|x tbl IH]; [done|].
  simpl in Hn. apply NoDup_cons in Hn as [Hx Hn]. unfold find_worker in Hf. simpl in Hf.
  rewrite filter_cons_if. destruct (eqs_spec (w_ID x) id) as [E|E].
  - simplify_eq. unfold stale_watched. set (listed := _ && _). destruct listed eqn:Hs.
    { simpl. by rewrite eqs_refl. }
    apply not_true_iff_false. intros Hex. apply existsb_exists in Hex as (y & Hy & Ey).
    apply filter_In in Hy as [Hy _]. apply eqs_true in Ey. apply Hx.
    apply list_elem_of_In, in_map_iff. eauto.
  - rewrite <- (IH Hn Hf). match goal with |- context [if ?c then x :: _ else _] => destruct c end; [|done].
    simpl. apply eqs_false in E. by rewrite E.
Qed.

(** A worker that has reported once and then only fails is not kept alive
    by its failures: however many failed reports it sends, mixed with any
    operations on other workers, the first check after its last real
    heartbeat is older than the timeout marks it degraded for a missed
    heartbeat; and the next real heartbeat brings it back to running. *)
Theorem crash_loop_goes_stale (id : string) (steps : list (time * workerOp)) (db : soakDB) (w : Worker)
    (h now later : time) (timeout : duration) (identity : WorkerIdentity)
    (Hwf : table_wf (db_workers db))
    (Hw : find_worker (db_workers db) id = Some w) (Hs : stale_watched w = true) (Hh : w_LastHeartbeatAt w = Some h)
    (Hfail : Forall (only_allowed id is_failed_report) steps)
    (Hold : (h < Truncate (time_Add now (- timeout)) Second)%Z)
    (Hid : id_WorkerID identity = id) (Hmid : id_MachineID identity = "") :
  let after := checkStaleWorkers now timeout (db <| db_workers ::= run_ops steps |>) in
  (exists w', find_worker (db_workers after) id = Some w' /\
     w_Status w' = WorkerDegraded /\ w_ErrorMessage w' = missedHeartbeatMessage /\ w_LastHeartbeatAt w' = Some h) /\
  (exists tbl w', UpsertReportedWorker later identity (db_workers after) = Ok tbl /\
     find_worker tbl id = Some w' /\ w_Status w' = WorkerRunning /\ w_ErrorMessage w' = "" /\
     w_LastHeartbeatAt w' = Some (datetime_now later)).
Proof.
  intros after.
  destruct (run_row_invariant id is_failed_report
    (fun x => stale_watched x = true /\ w_LastHeartbeatAt x = Some h)) with (steps := steps) (tbl := db_workers db) (w := w)
    as (x & Hx & Hsx & Hhx); auto.
  { intros n op x Hidx Ht Hr Hg [Hsx Hhx].
    destruct (failed_report_keeps n op x Hr Hsx) as [E1 E2]; [by rewrite Hhx|]. split; [|congruence].
    unfold stale_watched, status_in in *. by rewrite E1. }
  { by intros []. }
  assert (find_worker (db_workers after) id = Some (set_status now WorkerDegraded missedHeartbeatMessage x)) as Hafter.
  { unfold after, checkStaleWorkers. rewrite (stale_monitor_row _ _ _ _ x) by done.
    rewrite (stale_listed _ _ _ _ x); [|by apply run_wf|done]. rewrite Hsx, Hhx.
    by apply Z.ltb_lt in Hold as ->. }
  split; [by eauto 8|].
  unfold UpsertReportedWorker, upsertReportedWorker. unfold machine_taken. rewrite Hmid, Hid. simpl.
  rewrite (proj2 (exists_find _ _)) by by rewrite Hafter.
  eexists _, _. split; [done|]. unfold update_worker. rewrite find_update by done.
  rewrite Hafter. simpl. rewrite (find_worker_id _ _ _ Hx), eqs_refl. done.
Qed.

(** * Examples *)

Definition sample_worker (status : WorkerStatus) : Worker :=
  Worker_zero <| w_ID := "w1" |> <| w_Name := "w1" |> <| w_Status := status |> <| w_Source := "main" |>
    <| w_ProfileConfig := "{}" |> <| w_LastHeartbeatAt := Some (100 * Second)%Z |>.
Definition sample_identity : WorkerIdentity := WorkerIdentity_zero <| id_WorkerID := "w1" |> <| id_Source := "main" |>.
Definition other_identity : WorkerIdentity := WorkerIdentity_zero <| id_WorkerID := "w2" |> <| id_MachineID := "m2" |>.

Definition report_steps : list (time * workerOp) :=
  [((200 * Second)%Z, OpReported sample_identity); ((201 * Second)%Z, OpFailed sample_identity);
   ((202 * Second)%Z, OpStatus "w2" WorkerFailed "x"); ((203 * Second)%Z, OpVerification "w1" true "")].
Definition failing_steps : list (time * workerOp) :=
  [((200 * Second)%Z, OpFailed sample_identity); ((300 * Second)%Z, OpReported other_identity);
   ((400 * Second)%Z, OpFailed sample_identity)].

Lemma reports_never_resurrect_witness :
  exists w', find_worker (run_ops report_steps [sample_worker WorkerStopped]) "w1" = Some w' /\
    lifecycle_columns w' = lifecycle_columns (sample_worker WorkerStopped).
Proof.
  apply (reports_never_resurrect "w1" report_steps [sample_worker WorkerStopped] (sample_worker WorkerStopped)).
  - vm_compute; reflexivity.
  - vm_compute; reflexivity.
  - repeat constructor; intros E; first [reflexivity | discriminate E].
Defined.

Definition sample_db : soakDB := emptyDB <| db_workers := [sample_worker WorkerStarting] |>.

Lemma sample_wf : table_wf [sample_worker WorkerStarting].
Proof.
  constructor.
  - apply NoDup_singleton.
  - intros a b [<-|[]] [<-|[]] _ _. reflexivity.
  - apply Forall_singleton. constructor; simpl; auto; reflexivity.
Qed.

Lemma crash_loop_goes_stale_witness :
  let after := checkStaleWorkers (1000 * Second)%Z (5 * Minute)%Z (sample_db <| db_workers ::= run_ops failing_steps |>) in
  (exists w', find_worker (db_workers after) "w1" = Some w' /\
     w_Status w' = WorkerDegraded /\ w_ErrorMessage w' = missedHeartbeatMessage /\
     w_LastHeartbeatAt w' = Some (100 * Second)%Z) /\
  (exists tbl w', UpsertReportedWorker (1100 * Second)%Z sample_identity (db_workers after) = Ok tbl /\
     find_worker tbl "w1" = Some w' /\ w_Status w' = WorkerRunning /\ w_ErrorMessage w' = "" /\
     w_LastHeartbeatAt w' = Some (datetime_now (1100 * Second)%Z)).
Proof.
  apply (crash_loop_goes_stale "w1" failing_steps sample_db (sample_worker WorkerStarting) (100 * Second)%Z
           (1000 * Second)%Z (1100 * Second)%Z (5 * Minute)%Z sample_identity).
  - apply sample_wf.
  - vm_compute; reflexivity.
  - vm_compute; reflexivity.
  - vm_compute; reflexivity.
  - repeat constructor; intros E; first [reflexivity | discriminate E].
  - vm_compute; reflexivity.
  - vm_compute; reflexivity.
  - vm_compute; reflexivity.
Defined.
