(* ===== verification/Provisioning.v ===== *)
(** Provisioning a worker's volume and machine: the attempt table of
    [internal/model/provisioning.go] and its driver in
    [orchestrator/provisioning.go] (with [createWorkerVolume] of manager.go
    and [createWorkerMachine] of dormancy.go).

    An attempt is a row whose phase records what has been asked of the
    platform before it is asked, so that a control plane that stops at any
    point can tell on restart what may exist.  Every change of phase is a
    compare-and-set on the row ([AdvanceProvisioning]).  The driver is a
    machine whose steps are the code's database statements and platform
    requests ([resume_step]); [resumeWorkerProvisioning] is its uninterrupted
    run and [prov_step] interleaves any number of drivers, crashes and
    recoveries.

    What the platform answers, the JSON of an event and the environment of a
    machine are parameters ([Platform], [answers]). *)
From Stdlib Require Import Ascii.
From S2P Require Import Prelude GoStrings Model GateFleet GateStore GateRegister SoakDB WorkerStore.

(** * internal/flyapi/types.go *)

Record Mount := mkMount { mt_Volume : string; mt_Path : string }.
Record Machine := mkMachine {
  fm_ID : string;
  fm_Name : string;
  fm_State : string;
  fm_Region : string;
  fm_Image : string;
  fm_Env : gmap string string;
  fm_Mounts : list Mount;
  fm_CreatedAt : time
}.
Record Volume := mkVolume {
  fv_ID : string;
  fv_Name : string;
  fv_State : string;
  fv_SizeGB : Z;
  fv_Region : string;
  fv_AttachedMachineID : string;
  fv_AttachedAllocID : string
}.

(** An error of a platform request: the API's own, a network error, or the
    caller's context. *)
Inductive flyError := APIError (status : Z) | NetError (timeout : bool) | Canceled | DeadlineExceeded | OtherError.
Definition IsNotFound (e : flyError) : bool := match e with APIError s => (s =? 404)%Z | _ => false end.
Definition providerRejectedRequest (e : flyError) : bool :=
  match e with
  | APIError s => if (s =? 408)%Z || (s =? 429)%Z then false else (400 <=? s)%Z && (s <? 500)%Z
  | _ => false
  end.

Definition env_get (env : gmap string string) (key : string) : string := default "" (env !! key).

(** * The attempt table *)

Record ProvisioningAttempt := mkAttempt {
  pa_DeploymentID : Z;
  pa_WorkloadSHA : string;
  pa_VolumeSizeGB : Z;
  pa_ID : string;
  pa_WorkerID : string;
  pa_ImageRef : string;
  pa_GitSHA : string;
  pa_LitestreamSHA : string;
  pa_Phase : string;
  pa_VolumeName : string;
  pa_VolumeID : string;
  pa_MachineID : string
}.
#[export] Instance ProvisioningAttempt_eta : Settable ProvisioningAttempt :=
  fun r => mkAttempt (pa_DeploymentID r) (pa_WorkloadSHA r) (pa_VolumeSizeGB r) (pa_ID r) (pa_WorkerID r)
    (pa_ImageRef r) (pa_GitSHA r) (pa_LitestreamSHA r) (pa_Phase r) (pa_VolumeName r) (pa_VolumeID r) (pa_MachineID r).

(** The tables a provisioning touches and the requests made of the platform. *)
Inductive platformRequest :=
| ReqForkVolume (attempt sourceVolume name : string) (rejected : bool)
| ReqCreateVolume (attempt name : string) (rejected : bool)
| ReqCreateMachine (attempt volume : string).

Record provDB := mkProvDB {
  pd_db : soakDB;
  pd_attempts : list ProvisioningAttempt;
  pd_expected : gmap string WorkerIdentity;
  pd_gates : gateTable;
  pd_requests : list platformRequest
}.
#[export] Instance provDB_eta : Settable provDB :=
  fun r => mkProvDB (pd_db r) (pd_attempts r) (pd_expected r) (pd_gates r) (pd_requests r).
Definition pd_workers (pd : provDB) : list Worker := db_workers (pd_db pd).

Inductive provError :=
| ErrUnresolvedTarget          (** another provisioning target is unresolved *)
| ErrNotReady                  (** provisioning is not ready to complete *)
| ErrLostClaim                 (** a statement matched no row *)
| ErrConcurrent                (** provisioning advanced concurrently *)
| ErrIdentityMismatch
| ErrUnavailable (message : string)
| ErrStore (e : storeError)
| ErrGate (e : gateError)
| ErrFly (e : flyError)
| ErrConfig.                   (** the expected configuration does not resolve *)

Definition open_phase (phase : string) : bool := negb (phase =s "complete") && negb (phase =s "abandoned").

Definition ActiveProvisioning (pd : provDB) (workerID : string) : option ProvisioningAttempt :=
  List.find (fun a => (pa_WorkerID a =s workerID) && open_phase (pa_Phase a)) (pd_attempts pd).

(** [INSERT OR IGNORE ... SELECT ... FROM workers WHERE ...]: a used id, an
    open attempt of the worker, or a worker that is no longer pending on this
    build inserts nothing. *)
Definition insertable (pd : provDB) (a : ProvisioningAttempt) : bool :=
  existsb (fun w => (w_ID w =s pa_WorkerID a) && status_in [WorkerPending] w &&
                    (w_GitSHA w =s pa_GitSHA a) && (w_LitestreamSHA w =s pa_LitestreamSHA a)) (pd_workers pd) &&
  negb (existsb (fun b => pa_ID b =s pa_ID a) (pd_attempts pd)) &&
  negb (existsb (fun b => (pa_WorkerID b =s pa_WorkerID a) && open_phase (pa_Phase b)) (pd_attempts pd)).

Definition insert_attempt (pd : provDB) (a : ProvisioningAttempt) : provDB :=
  if insertable pd a
  then pd <| pd_attempts ::= (fun l => l ++
         [a <| pa_Phase := "planned" |> <| pa_VolumeID := "" |> <| pa_MachineID := "" |>]) |>
  else pd.

Definition BeginProvisioning (pd : provDB) (a : ProvisioningAttempt)
  : result provError ProvisioningAttempt * provDB :=
  let pd := insert_attempt pd a in
  match ActiveProvisioning pd (pa_WorkerID a) with
  | Some current =>
      if negb (pa_ImageRef current =s pa_ImageRef a) || negb (pa_GitSHA current =s pa_GitSHA a) ||
         negb (pa_LitestreamSHA current =s pa_LitestreamSHA a)
      then (Err ErrUnresolvedTarget, pd) else (Ok current, pd)
  | None => (Err ErrUnresolvedTarget, pd)
  end.

(** The compare-and-set on the phase.  Its callers move an open attempt to an
    open phase, which the partial unique index on open attempts allows. *)
Definition claims (a b : ProvisioningAttempt) : bool := (pa_ID b =s pa_ID a) && (pa_Phase b =s pa_Phase a).
Definition advanced (phase volumeID machineID : string) (b : ProvisioningAttempt) : ProvisioningAttempt :=
  b <| pa_Phase := phase |> <| pa_VolumeID := coalesce volumeID (pa_VolumeID b) |>
    <| pa_MachineID := coalesce machineID (pa_MachineID b) |>.
Definition update_attempts (p : ProvisioningAttempt -> bool) (f : ProvisioningAttempt -> ProvisioningAttempt)
    (l : list ProvisioningAttempt) : list ProvisioningAttempt :=
  map (fun b => if p b then f b else b) l.
Definition AdvanceProvisioning (pd : provDB) (a : ProvisioningAttempt) (phase volumeID machineID : string)
  : bool * provDB :=
  (existsb (claims a) (pd_attempts pd),
   pd <| pd_attempts ::= update_attempts (claims a) (advanced phase volumeID machineID) |>).

Definition advanceProvisioning (pd : provDB) (a : ProvisioningAttempt) (phase volumeID machineID : string)
  : result provError () * provDB :=
  let '(ok, pd) := AdvanceProvisioning pd a phase volumeID machineID in
  (if ok then Ok () else Err ErrConcurrent, pd).

(** The worker row a provisioning may still touch. *)
Definition provisioned_row (a : ProvisioningAttempt) (w : Worker) : bool :=
  (w_ID w =s pa_WorkerID a) && (w_GitSHA w =s pa_GitSHA a) && (w_LitestreamSHA w =s pa_LitestreamSHA a) &&
  status_in [WorkerPending; WorkerRunning; WorkerStarting; WorkerProbing] w.

Definition set_workers (pd : provDB) (tbl : list Worker) : provDB :=
  pd <| pd_db ::= (fun db => db <| db_workers := tbl |>) |>.
Definition record_event (now : time) (pd : provDB) (workerID kind message details : string) : provDB :=
  pd <| pd_db ::= RecordEvent now workerID kind message details |>.

(** One transaction: an error leaves the tables as they were. *)
Definition CompleteProvisioning (now : time) (pd : provDB) (a : ProvisioningAttempt) (events : list Event)
  : result provError () * provDB :=
  if negb (pa_Phase a =s "machine_ready") || (pa_MachineID a =s "") || (pa_VolumeID a =s "")
  then (Err ErrNotReady, pd)
  else
    let mine b := (pa_ID b =s pa_ID a) && (pa_Phase b =s "machine_ready") &&
                  (pa_VolumeID b =s pa_VolumeID a) && (pa_MachineID b =s pa_MachineID a) in
    if negb (existsb mine (pd_attempts pd)) then (Err ErrLostClaim, pd)
    else if negb (existsb (provisioned_row a) (pd_workers pd)) then (Err ErrLostClaim, pd)
    else if machine_taken (pd_workers pd) (pa_WorkerID a) (pa_MachineID a) then (Err (ErrStore ErrMachineTaken), pd)
    else
      let pd1 := pd <| pd_attempts ::= update_attempts mine (fun b => b <| pa_Phase := "complete" |>) |> in
      let pd2 := set_workers pd1 (update_where (provisioned_row a) (fun w =>
          w <| w_FlyMachineID := pa_MachineID a |> <| w_FlyVolumeID := pa_VolumeID a |>
            <| w_Status := WorkerStarting |> <| w_ErrorMessage := "" |> <| w_UpdatedAt := datetime_now now |>)
        (pd_workers pd)) in
      (Ok (), fold_left (fun pd e => record_event now pd (pa_WorkerID a) (e_EventType e) (e_Message e) (e_Details e))
                events pd2).

Definition AbandonProvisioning (now : time) (pd : provDB) (a : ProvisioningAttempt) (event : Event)
  : result provError () * provDB :=
  if existsb (claims a) (pd_attempts pd)
  then (Ok (), record_event now
          (pd <| pd_attempts ::= update_attempts (claims a) (fun b => b <| pa_Phase := "abandoned" |>) |>)
          (e_WorkerID event) (e_EventType event) (e_Message event) (e_Details event))
  else (Err ErrLostClaim, pd).

Definition BindProvisioningMachine (now : time) (pd : provDB) (a : ProvisioningAttempt)
  : result provError () * provDB :=
  let bound := existsb (fun b => (pa_ID b =s pa_ID a) && (pa_WorkerID b =s pa_WorkerID a) &&
      (pa_Phase b =s "machine_ready") && (pa_MachineID b =s pa_MachineID a) && (pa_VolumeID b =s pa_VolumeID a))
      (pd_attempts pd) in
  if bound && existsb (provisioned_row a) (pd_workers pd) then
    if machine_taken (pd_workers pd) (pa_WorkerID a) (pa_MachineID a) then (Err (ErrStore ErrMachineTaken), pd)
    else (Ok (), set_workers pd (update_where (provisioned_row a) (fun w =>
            w <| w_FlyMachineID := pa_MachineID a |> <| w_FlyVolumeID := pa_VolumeID a |>
              <| w_UpdatedAt := datetime_now now |>) (pd_workers pd)))
  else (Err ErrLostClaim, pd).

Definition ExpectProvisioningRun (pd : provDB) (a : ProvisioningAttempt) (identity : WorkerIdentity)
  : result provError () * provDB :=
  if negb (id_WorkerID identity =s pa_WorkerID a) || negb (id_RunID identity =s pa_ID a) ||
     negb (id_DeploymentID identity =? pa_DeploymentID a)%Z || negb (id_WorkloadSHA identity =s pa_WorkloadSHA a) ||
     negb (id_GitSHA identity =s pa_GitSHA a) || negb (id_LitestreamSHA identity =s pa_LitestreamSHA a) ||
     negb (id_ImageRef identity =s pa_ImageRef a)
  then (Err ErrIdentityMismatch, pd)
  else if existsb (fun b => claims a b && negb (pa_Phase b =s "complete") &&
                            (pa_WorkerID b =s pa_WorkerID a)) (pd_attempts pd) &&
          existsb (provisioned_row a) (pd_workers pd)
  then (Ok (), pd <| pd_expected ::= <[pa_WorkerID a := identity]> |>)
  else (Err ErrLostClaim, pd).

(** * External functions *)

Class Platform := {
  (** [json.Marshal] of a provisioning event *)
  eventDetails : Worker -> ProvisioningAttempt -> option Volume -> string;
  (** [json.Marshal] of a volume event: path, reason, volume, source worker *)
  volumeDetails : string -> string -> string -> option Worker -> string;
  (** the environment the control plane gives a machine *)
  workerEnv : Worker -> Config -> gmap string string;
  (** the JSON of the configuration a worker reads from its environment *)
  workloadProfile : gmap string string -> option string;
  sha256hex : string -> string;
  normalizeWorkloadConfig : Config -> Config;
  resolveWorkerWorkload : Worker -> Config;
  resolveWorkerVolumeSize : Worker -> Z
}.

(** What the platform answers during one run of the driver. *)
Record answers := mkAnswers {
  an_fork : result flyError Volume;
  an_volume : result flyError Volume;
  an_machine : result flyError Machine;
  an_retries : list (result flyError Machine);
  an_machines : result flyError (list Machine);
  an_volumes : result flyError (list Volume);
  an_previous : result flyError Machine;
  an_uuid : string;
  an_now : time
}.

Section Driver.
Context `{Platform}.
Variable ans : answers.

Definition provisioningEvent (worker : Worker) (a : ProvisioningAttempt) (kind message : string)
    (observed : option Volume) : Event :=
  Event_zero <| e_WorkerID := w_ID worker |> <| e_EventType := kind |> <| e_Message := message |>
    <| e_Details := eventDetails worker a observed |>.

Definition record_provisioning (pd : provDB) (event : Event) : provDB :=
  record_event (an_now ans) pd (e_WorkerID event) (e_EventType event) (e_Message event) (e_Details event).
Definition recordProvisioning (pd : provDB) (worker : Worker) (a : ProvisioningAttempt) (kind message : string)
  : provDB := record_provisioning pd (provisioningEvent worker a kind message None).

Definition failure_class (cause : flyError) : string :=
  match cause with
  | Canceled => "canceled"
  | DeadlineExceeded => "timeout"
  | APIError status => "HTTP " +:+ pretty status
  | NetError true => "timeout"
  | NetError false => "network error"
  | OtherError => "operation error"
  end.

Definition provisioningUnavailable (pd : provDB) (worker : Worker) (a : ProvisioningAttempt) (message : string)
    (cause : option flyError) : provError * provDB :=
  let message := match cause with
                 | Some e => message +:+ " (" +:+ failure_class e +:+ ")"
                 | None => message
                 end in
  (ErrUnavailable message, recordProvisioning pd worker a "worker_provisioning_unavailable" message).

Definition beginWorkerProvisioning (pd : provDB) (worker : Worker) (image : string) (size : option Z)
  : result provError ProvisioningAttempt * provDB :=
  let size := default (resolveWorkerVolumeSize worker) size in
  let size := if (size <=? 0)%Z then 10%Z else size in
  let '(deploymentID, workloadSHA) :=
    match GetDeploymentByVersion (pd_db pd) (w_Source worker) (w_GitSHA worker) (w_LitestreamSHA worker) with
    | Some d => if d_ImageRef d =s image then (d_ID d, d_WorkloadSHA d) else (0%Z, "")
    | None => (0%Z, "")
    end in
  let id := an_uuid ans in
  let '(attempt, pd) := BeginProvisioning pd
    (mkAttempt deploymentID workloadSHA size id (w_ID worker) image (w_GitSHA worker) (w_LitestreamSHA worker)
       "" ("soak_" +:+ str_take 24 (remove_char "-"%char id)) "" "") in
  match attempt with
  | Err e => (Err e, pd)
  | Ok a =>
      if pa_ID a =s id
      then (Ok a, recordProvisioning pd worker a "worker_provisioning_started"
                    "Provisioning intent recorded before resource creation")
      else (Ok a, pd)
  end.

(** ** Volumes (orchestrator/manager.go) *)

Definition workerVolumeForkIneligibility (candidate worker : Worker) : string :=
  if negb (TrimSpace (w_ProfileName candidate) =s TrimSpace (w_ProfileName worker)) then "main_worker_profile_mismatch"
  else if negb (status_in [WorkerRunning] candidate) then "main_worker_not_running"
  else if TrimSpace (w_FlyVolumeID candidate) =s "" then "main_worker_missing_volume"
  else if negb (TrimSpace (w_Region candidate) =s TrimSpace (w_Region worker)) then "main_worker_region_mismatch"
  else "".

(** The loop of [lockForkSourceForWorker]: the first candidate that qualifies,
    reloaded, or the last reason none did. *)
Fixpoint forkSourceLoop (pd : provDB) (worker : Worker) (candidates : list Worker) (reason : string)
  : result provError (option Worker * string) :=
  match candidates with
  | [] => Ok (None, reason)
  | candidate :: rest =>
      if negb (TrimSpace (w_ProfileName candidate) =s TrimSpace (w_ProfileName worker))
      then forkSourceLoop pd worker rest reason
      else if negb (status_in [WorkerRunning] candidate) then forkSourceLoop pd worker rest "main_worker_not_running"
      else if TrimSpace (w_FlyVolumeID candidate) =s "" then forkSourceLoop pd worker rest "main_worker_missing_volume"
      else if negb (TrimSpace (w_Region candidate) =s TrimSpace (w_Region worker))
      then forkSourceLoop pd worker rest "main_worker_region_mismatch"
      else match GetWorker (pd_workers pd) (w_ID candidate) with
           | Err e => Err (ErrStore e)
           | Ok locked =>
               let lockedReason := workerVolumeForkIneligibility locked worker in
               if lockedReason =s "" then Ok (Some locked, "") else Ok (None, lockedReason)
           end
  end.
Definition lockForkSourceForWorker (pd : provDB) (worker : Worker) : result provError (option Worker * string) :=
  let source := TrimSpace (w_Source worker) in
  if (source =s "") || (source =s "main") then Ok (None, "main_source")
  else forkSourceLoop pd worker (ListWorkersForSource (pd_workers pd) "main") "no_matching_main_worker".

(** [flyVolumeName] is only used without an attempt. *)
Variable flyVolumeName : string -> string.

Definition rejected {A} (r : result flyError A) : bool :=
  match r with Ok _ => false | Err e => providerRejectedRequest e end.

Definition createFreshVolume (pd : provDB) (worker : Worker) (attemptID volumeName reason : string)
    (sourceWorker : option Worker) : result provError Volume * provDB :=
  let pd := pd <| pd_requests ::= (fun l => l ++ [ReqCreateVolume attemptID volumeName (rejected (an_volume ans))]) |> in
  match an_volume ans with
  | Err e => (Err (ErrFly e), pd)
  | Ok vol =>
      (Ok vol, record_event (an_now ans) pd (w_ID worker) "worker_volume_fresh"
                 ("Created fresh volume for worker " +:+ w_Name worker)
                 (volumeDetails "fresh" reason (fv_ID vol) sourceWorker))
  end.

Definition createWorkerVolume (pd : provDB) (worker : Worker) : result provError Volume * provDB :=
  let attempt := ActiveProvisioning pd (w_ID worker) in
  let attemptID := match attempt with Some a => pa_ID a | None => "" end in
  match lockForkSourceForWorker pd worker with
  | Err e => (Err e, pd)
  | Ok (sourceWorker, freshReason) =>
      let volumeName := match attempt with Some a => pa_VolumeName a | None => flyVolumeName (w_Name worker) end in
      match sourceWorker with
      | Some source =>
          let pd := pd <| pd_requests ::= (fun l => l ++
              [ReqForkVolume attemptID (w_FlyVolumeID source) volumeName (rejected (an_fork ans))]) |> in
          match an_fork ans with
          | Ok vol =>
              (Ok vol, record_event (an_now ans) pd (w_ID worker) "worker_volume_forked"
                 ("Forked volume for worker " +:+ w_Name worker +:+ " from main worker " +:+ w_Name source)
                 (volumeDetails "fork" "" (fv_ID vol) (Some source)))
          | Err e =>
              if (match attempt with Some _ => true | None => false end) && negb (providerRejectedRequest e)
              then (Err (ErrFly e), pd)
              else createFreshVolume pd worker attemptID volumeName
                     (if providerRejectedRequest e then "fork_volume_rejected" else "fork_volume_failed") (Some source)
          end
      | None => createFreshVolume pd worker attemptID volumeName freshReason None
      end
  end.

(** ** Machines (orchestrator/dormancy.go) *)

Definition ExpectWorkerRun (pd : provDB) (identity : WorkerIdentity) : provDB :=
  pd <| pd_expected ::= <[id_WorkerID identity := identity]> |>.
Definition saveIdentity (provisioning : option ProvisioningAttempt) (pd : provDB) (identity : WorkerIdentity)
  : result provError () * provDB :=
  match provisioning with
  | Some a => ExpectProvisioningRun pd a identity
  | None => (Ok (), ExpectWorkerRun pd identity)
  end.

(** The text of an API error's body decides whether a refused creation is
    tried again; it is not part of [flyError]. *)
Variable retriableMachineCreateError : flyError -> bool.

(** The five tries of the creation loop: [tries] is what is left of them; the
    context ends the wait between two tries when there is no further reply. *)
Fixpoint createMachineLoop (tries : nat) (pd : provDB) (provisioning : option ProvisioningAttempt)
    (attemptID volumeID : string) (identity : WorkerIdentity) (replies : list (result flyError Machine))
  : result provError Machine * provDB :=
  match tries, replies with
  | S tries, reply :: replies =>
      let pd := pd <| pd_requests ::= (fun l => l ++ [ReqCreateMachine attemptID volumeID]) |> in
      match reply with
      | Ok machine =>
          match saveIdentity provisioning pd (identity <| id_MachineID := fm_ID machine |>) with
          | (Err e, pd) => (Err e, pd)
          | (Ok _, pd) => (Ok machine, pd)
          end
      | Err e =>
          if bool_decide (is_Some provisioning) || negb (retriableMachineCreateError e) || (tries =? 0)
          then (Err (ErrFly e), pd)
          else createMachineLoop tries pd provisioning attemptID volumeID identity replies
      end
  | _, _ => (Err (ErrFly Canceled), pd)
  end.

Definition createWorkerMachine (pd : provDB) (worker : Worker) (imageRef volumeID : string) (cfg : Config)
  : result provError Machine * provDB :=
  let cfg := normalizeWorkloadConfig cfg in
  let worker := if TrimSpace (w_FlyVolumeID worker) =s "" then worker <| w_FlyVolumeID := volumeID |> else worker in
  let provisioning := ActiveProvisioning pd (w_ID worker) in
  let runID := match provisioning with Some a => pa_ID a | None => an_uuid ans end in
  let deployment :=
    match provisioning with Some _ => None | None => GetLatestDeployment (pd_db pd) (w_Source worker) end in
  match workloadProfile (<["SOAK_RUN_ID" := runID]> (workerEnv worker cfg)) with
  | None => (Err ErrConfig, pd)
  | Some profile =>
      let '(deploymentID, workloadSHA) :=
        match provisioning, deployment with
        | Some a, _ => (pa_DeploymentID a, pa_WorkloadSHA a)
        | None, Some d =>
            if workerMatchesDeployment worker d && (d_ImageRef d =s imageRef) then (d_ID d, d_WorkloadSHA d) else (0%Z, "")
        | None, None => (0%Z, "")
        end in
      let identity := WorkerIdentity_zero <| id_ImageRef := imageRef |> <| id_VolumeID := volumeID |>
        <| id_ProfileConfig := profile |> <| id_WorkloadID := sha256hex profile |>
        <| id_WorkerID := w_ID worker |> <| id_RunID := runID |>
        <| id_GitSHA := w_GitSHA worker |> <| id_LitestreamSHA := w_LitestreamSHA worker |>
        <| id_Source := w_Source worker |> <| id_ProfileName := w_ProfileName worker |>
        <| id_DeploymentID := deploymentID |> <| id_WorkloadSHA := workloadSHA |> in
      match saveIdentity provisioning pd identity with
      | (Err e, pd) => (Err e, pd)
      | (Ok _, pd) =>
          createMachineLoop 5 pd provisioning (match provisioning with Some a => pa_ID a | None => "" end)
            volumeID identity (an_machine ans :: an_retries ans)
      end
  end.

Definition finishWorkerProvisioning (pd : provDB) (worker : Worker) (a : ProvisioningAttempt) (machine : Machine)
    (recovered : bool) : result provError Worker * provDB :=
  let worker := worker <| w_FlyMachineID := fm_ID machine |> <| w_FlyVolumeID := pa_VolumeID a |> in
  if negb (fm_State machine =s "started") then
    match BindProvisioningMachine (an_now ans) pd a with
    | (Ok _, pd) => (Ok worker, pd)
    | (Err e, pd) => (Err e, pd)
    end
  else
    let started := provisioningEvent worker a "worker_started"
      ("Worker " +:+ w_Name worker +:+ " started (machine " +:+ fm_ID machine +:+ ")") None in
    let events := started ::
      (if recovered then [provisioningEvent worker a "worker_provisioning_recovered"
         "Recovered interrupted provisioning using confirmed owned resources" None] else []) in
    match CompleteProvisioning (an_now ans) pd a events with
    | (Ok _, pd) => (Ok (worker <| w_Status := WorkerStarting |>), pd)
    | (Err e, pd) => (Err e, pd)
    end.

(** ** The driver

    One step is one compare-and-set, one creation, or the final binding. *)
Inductive resumePoint :=
| RStart (a : ProvisioningAttempt)
| RVolumeRequested (a : ProvisioningAttempt)
| RVolumeCreated (a : ProvisioningAttempt) (volume : Volume)
| RMachineRequested (a : ProvisioningAttempt)
| RMachineCreated (a : ProvisioningAttempt) (machine : Machine)
| RDone (r : result provError Worker).

Definition claim_phase (pd : provDB) (a : ProvisioningAttempt) (phase volumeID machineID : string)
    (next : resumePoint) : resumePoint * provDB :=
  match AdvanceProvisioning pd a phase volumeID machineID with
  | (true, pd) => (next, pd)
  | (false, pd) => (RDone (Err ErrConcurrent), pd)
  end.

Definition provision_failed (pd : provDB) (worker : Worker) (a : ProvisioningAttempt) (message : string)
    (e : provError) : resumePoint * provDB :=
  let cause := match e with ErrFly f => f | _ => OtherError end in
  let '(e, pd) := provisioningUnavailable pd worker a message (Some cause) in (RDone (Err e), pd).

Definition resume_step (worker : Worker) (cfg : Config) (recovered : bool) (pc : resumePoint) (pd : provDB)
  : resumePoint * provDB :=
  match pc with
  | RStart a =>
      if pa_Phase a =s "planned" then 
        claim_phase pd a "volume_requested" "" "" (RVolumeRequested (a <| pa_Phase := "volume_requested" |>))
      else if pa_Phase a =s "volume_ready" then 
        claim_phase pd a "machine_requested" "" "" (RMachineRequested (a <| pa_Phase := "machine_requested" |>))
      else let '(e, pd) := provisioningUnavailable pd worker a
             "Creation intent exists without a confirmed resource; refusing another create request" None in
           (RDone (Err e), pd)
  | RVolumeRequested a =>
      match createWorkerVolume pd worker with
      | (Err e, pd) => provision_failed pd worker a "Volume creation outcome requires resource discovery" e
      | (Ok volume, pd) => (RVolumeCreated a volume, pd)
      end
  | RVolumeCreated a volume => 
      claim_phase pd a "volume_ready" (fv_ID volume) ""
        (RStart (a <| pa_Phase := "volume_ready" |> <| pa_VolumeID := fv_ID volume |>))
  | RMachineRequested a =>
      match createWorkerMachine pd (worker <| w_FlyVolumeID := pa_VolumeID a |>) (pa_ImageRef a) (pa_VolumeID a) cfg with
      | (Err e, pd) => provision_failed pd (worker <| w_FlyVolumeID := pa_VolumeID a |>) a
                         "Machine creation outcome requires resource discovery" e
      | (Ok machine, pd) => (RMachineCreated a machine, pd)
      end
  | RMachineCreated a machine =>
      match AdvanceProvisioning pd a "machine_ready" "" (fm_ID machine) with
      | (true, pd) =>
          let '(r, pd) := finishWorkerProvisioning pd (worker <| w_FlyVolumeID := pa_VolumeID a |>)
                            (a <| pa_Phase := "machine_ready" |> <| pa_MachineID := fm_ID machine |>) machine recovered in
          (RDone r, pd)
      | (false, pd) => (RDone (Err ErrConcurrent), pd)
      end
  | RDone r => (RDone r, pd)
  end.

Fixpoint resume_run (fuel : nat) (worker : Worker) (cfg : Config) (recovered : bool) (pc : resumePoint) (pd : provDB)
  : resumePoint * provDB :=
  match fuel with
  | O => (pc, pd)
  | S fuel => let '(pc, pd) := resume_step worker cfg recovered pc pd in resume_run fuel worker cfg recovered pc pd
  end.

(** The driver runs through at most six points. *)
Definition resumeWorkerProvisioning (pd : provDB) (worker : Worker) (a : ProvisioningAttempt) (cfg : Config)
    (recovered : bool) : resumePoint * provDB := resume_run 6 worker cfg recovered (RStart a) pd.

(** * Recovery *)

Definition provisioningMachineMatches (machine : Machine) (worker : Worker) (image run : string) : bool :=
  let env := fm_Env machine in
  (fm_Name machine =s w_Name worker) && (fm_Region machine =s w_Region worker) && (fm_Image machine =s image) &&
  (env_get env "WORKER_ID" =s w_ID worker) && (env_get env "GIT_SHA" =s w_GitSHA worker) &&
  (env_get env "LITESTREAM_SHA" =s w_LitestreamSHA worker) && (env_get env "SOURCE" =s w_Source worker) &&
  (env_get env "SOAK_RUN_ID" =s run).

Definition retiringProvisioningVolume (v : Volume) : bool :=
  (fv_State v =s "pending_destroy") || (fv_State v =s "scheduling_destroy").
Definition adoptableProvisioningVolume (v : Volume) : bool :=
  (fv_AttachedAllocID v =s "") && ((fv_State v =s "created") || (fv_State v =s "hydrating")).
Definition unreferencedProvisioningVolume (v : Volume) (machines : list Machine) : bool :=
  if negb (fv_AttachedMachineID v =s "") || negb (fv_AttachedAllocID v =s "") then false
  else negb (existsb (fun m => negb (fm_State m =s "destroyed") &&
                               existsb (fun mt => mt_Volume mt =s fv_ID v) (fm_Mounts m)) machines).

Definition mountedProvisioningVolume (machine : Machine) (volumes : list Volume) : option Volume :=
  match fm_Mounts machine with
  | [mount] =>
      if negb (mt_Path mount =s "/data") then None
      else List.find (fun v => (fv_ID v =s mt_Volume mount) && adoptableProvisioningVolume v &&
                               ((fv_AttachedMachineID v =s "") || (fv_AttachedMachineID v =s fm_ID machine))) volumes
  | _ => None
  end.

Definition provisioningExpectedMachineMatches (machine : Machine) (expected : option WorkerIdentity) : bool :=
  match expected with
  | None => false
  | Some expected =>
      let env := fm_Env machine in
      if (id_WorkloadID expected =s "") || negb (env_get env "SOAK_WORKLOAD_ID" =s id_WorkloadID expected) then false
      else if (0 <? id_DeploymentID expected)%Z &&
              negb (env_get env "SOAK_DEPLOYMENT_ID" =s pretty (id_DeploymentID expected)) then false
      else if negb (id_WorkloadSHA expected =s "") && negb (env_get env "WORKLOAD_SHA" =s id_WorkloadSHA expected) then false
      else match workloadProfile env with
           | None => false
           | Some profile =>
               if negb (profile =s id_ProfileConfig expected) || negb (sha256hex profile =s id_WorkloadID expected) then false
               else match fm_Mounts machine with
                    | [mount] =>
                        if negb (env_get env "SOAK_VOLUME_ID" =s mt_Volume mount) then false
                        else (id_VolumeID expected =s "") || (id_VolumeID expected =s mt_Volume mount)
                    | _ => false
                    end
           end
  end.

Definition unavailable {A} (pd : provDB) (worker : Worker) (a : ProvisioningAttempt) (message : string)
    (cause : option flyError) : result provError A * provDB :=
  let '(e, pd) := provisioningUnavailable pd worker a message cause in (Err e, pd).

(** The volumes the recovery reports before it decides anything. *)
Definition observeVolumes (pd : provDB) (worker : Worker) (a : option ProvisioningAttempt)
    (report : ProvisioningAttempt) (volumes : list Volume) : provDB :=
  fold_left (fun pd v =>
    let relevant := (fv_ID v =s w_FlyVolumeID worker) || (fv_Name v =s flyVolumeName (w_Name worker)) ||
      match a with Some a => (fv_ID v =s pa_VolumeID a) || (fv_Name v =s pa_VolumeName a) | None => false end in
    if relevant
    then record_provisioning pd (provisioningEvent worker report
           (if retiringProvisioningVolume v then "worker_provisioning_retiring_volume"
            else "worker_provisioning_volume_observed")
           "Observed volume metadata retained without cleanup" (Some v))
    else pd) volumes pd.

(** The machines of a worker without an attempt: [None] when one of them is
    not certainly this worker's expected run. *)
Fixpoint legacyMachines (worker : Worker) (image : string) (expected : option WorkerIdentity)
    (machines : list Machine) : option (list Machine) :=
  match machines with
  | [] => Some []
  | machine :: rest =>
      if fm_State machine =s "destroyed" then legacyMachines worker image expected rest
      else if negb (fm_Name machine =s w_Name worker) && negb (env_get (fm_Env machine) "WORKER_ID" =s w_ID worker)
      then legacyMachines worker image expected rest
      else match expected with
           | Some e =>
               if (id_RunID e =s "") || negb (env_get (fm_Env machine) "SOAK_RUN_ID" =s id_RunID e) ||
                  Before (fm_CreatedAt machine) (w_CreatedAt worker) ||
                  negb (provisioningMachineMatches machine worker image (id_RunID e)) ||
                  negb (provisioningExpectedMachineMatches machine expected)
               then None
               else option_map (cons machine) (legacyMachines worker image expected rest)
           | None => None
           end
  end.

(** The machines of an attempt: [None] when one does not match its target. *)
Fixpoint attemptMachines (worker : Worker) (a : ProvisioningAttempt) (machines : list Machine) : option (list Machine) :=
  match machines with
  | [] => Some []
  | machine :: rest =>
      if fm_State machine =s "destroyed" then attemptMachines worker a rest
      else if negb (env_get (fm_Env machine) "SOAK_RUN_ID" =s pa_ID a) then attemptMachines worker a rest
      else if negb (provisioningMachineMatches machine worker (pa_ImageRef a) (pa_ID a)) then None
      else option_map (cons machine) (attemptMachines worker a rest)
  end.

Definition bind_identity (expected : WorkerIdentity) (machine : Machine) (volume : Volume) : WorkerIdentity :=
  expected <| id_MachineID := fm_ID machine |> <| id_VolumeID := fv_ID volume |>.

Definition discard {A} (r : result provError A * provDB) : result provError () * provDB :=
  match r with (Ok _, pd) => (Ok (), pd) | (Err e, pd) => (Err e, pd) end.

(** A running machine of a worker without an attempt is adopted through a new
    attempt that starts at the end. *)
Definition adoptLegacyMachine (pd : provDB) (worker : Worker) (report : ProvisioningAttempt) (image : string)
    (expected : WorkerIdentity) (machine : Machine) (volumes : list Volume) : result provError () * provDB :=
  match mountedProvisioningVolume machine volumes with
  | None => unavailable pd worker report "Existing machine volume ownership is unconfirmed" None
  | Some volume =>
      if negb (fv_Region volume =s w_Region worker) || (fv_SizeGB volume <? Z.max 10 (resolveWorkerVolumeSize worker))%Z
      then unavailable pd worker report "Existing machine volume ownership is unconfirmed" None
      else
        match BeginProvisioning pd (mkAttempt (id_DeploymentID expected) (id_WorkloadSHA expected) (fv_SizeGB volume)
                (id_RunID expected) (w_ID worker) image (w_GitSHA worker) (w_LitestreamSHA worker) ""
                (fv_Name volume) "" "") with
        | (Err e, pd) => (Err e, pd)
        | (Ok attempt, pd) =>
            match advanceProvisioning pd attempt "machine_ready" (fv_ID volume) (fm_ID machine) with
            | (Err e, pd) => (Err e, pd)
            | (Ok _, pd) =>
                let attempt := attempt <| pa_Phase := "machine_ready" |> <| pa_VolumeID := fv_ID volume |>
                                 <| pa_MachineID := fm_ID machine |> in
                match ExpectProvisioningRun pd attempt (bind_identity expected machine volume) with
                | (Err e, pd) => (Err e, pd)
                | (Ok _, pd) => discard (finishWorkerProvisioning pd worker attempt machine true)
                end
            end
        end
  end.

(** Without a machine to adopt, a new attempt is begun only when nothing of
    the worker's previous life is left on the platform. *)
Definition legacyVolumeRetained (worker : Worker) (machines : list Machine) (v : Volume) : bool :=
  ((fv_ID v =s w_FlyVolumeID worker) || (fv_Name v =s flyVolumeName (w_Name worker))) &&
  negb (retiringProvisioningVolume v && unreferencedProvisioningVolume v machines).

Definition beginAfterLegacy (pd : provDB) (worker : Worker) (report : ProvisioningAttempt) (image : string)
    (machines : list Machine) (volumes : list Volume) : result provError ProvisioningAttempt * provDB :=
  if existsb (legacyVolumeRetained worker machines) volumes
  then unavailable pd worker report
         "Legacy volume may contain retained evidence; ownership needs operator accounting" None
  else if negb (w_FlyMachineID worker =s "") then
    match an_previous ans with
    | Err e =>
        if negb (IsNotFound e) then unavailable pd worker report "Previous machine state is unavailable" (Some e)
        else beginWorkerProvisioning pd worker image None
    | Ok machine =>
        if negb (fm_State machine =s "destroyed") then unavailable pd worker report "Previous machine still exists" None
        else beginWorkerProvisioning pd worker image None
    end
  else beginWorkerProvisioning pd worker image None.

(** The attempt's own machine is adopted. *)
Definition adoptAttemptMachine (pd : provDB) (worker : Worker) (a : ProvisioningAttempt) (machine : Machine)
    (volumes : list Volume) (recovered : bool) : result provError () * provDB :=
  match mountedProvisioningVolume machine volumes with
  | None => unavailable pd worker a "Attempt machine mount is inconsistent" None
  | Some volume =>
      if negb (fv_Name volume =s pa_VolumeName a) ||
         (negb (pa_VolumeID a =s "") && negb (pa_VolumeID a =s fv_ID volume))
      then unavailable pd worker a "Attempt machine mount is inconsistent" None
      else
        match pd_expected pd !! w_ID worker with
        | None => unavailable pd worker a "Expected immutable run identity is unavailable" None
        | Some expected =>
            if negb (id_RunID expected =s pa_ID a) || negb (provisioningExpectedMachineMatches machine (Some expected))
            then unavailable pd worker a "Expected immutable run identity is unavailable" None
            else
              match ExpectProvisioningRun pd a (bind_identity expected machine volume) with
              | (Err e, pd) => (Err e, pd)
              | (Ok _, pd) =>
                  match advanceProvisioning pd a "machine_ready" (fv_ID volume) (fm_ID machine) with
                  | (Err e, pd) => (Err e, pd)
                  | (Ok _, pd) =>
                      discard (finishWorkerProvisioning pd worker
                        (a <| pa_Phase := "machine_ready" |> <| pa_VolumeID := fv_ID volume |>
                           <| pa_MachineID := fm_ID machine |>) machine recovered)
                  end
              end
        end
  end.

Definition done_result (pc : resumePoint) : result provError () :=
  match pc with RDone (Ok _) => Ok () | RDone (Err e) => Err e | _ => Err ErrNotReady end.

(** An attempt with its volume confirmed, its machine adopted, or resumed. *)
Definition recoverAttempt (pd : provDB) (worker : Worker) (a : ProvisioningAttempt) (image : string)
    (machines : list Machine) (volumes : list Volume) (recovered : bool) : result provError () * provDB :=
  if negb (pa_GitSHA a =s w_GitSHA worker) || negb (pa_LitestreamSHA a =s w_LitestreamSHA worker) ||
     negb (pa_ImageRef a =s image)
  then unavailable pd worker a "Unresolved attempt targets a different deployment" None
  else
    let ownedVolumes := List.filter (fun v => fv_Name v =s pa_VolumeName a) volumes in
    match ownedVolumes with
    | _ :: _ :: _ => unavailable pd worker a "Multiple attempt volumes require operator accounting" None
    | _ =>
        let confirmed :=
          match ownedVolumes with
          | [volume] =>
              if (fv_SizeGB volume <? pa_VolumeSizeGB a)%Z || negb (fv_Region volume =s w_Region worker) ||
                 negb (adoptableProvisioningVolume volume) ||
                 (negb (pa_VolumeID a =s "") && negb (pa_VolumeID a =s fv_ID volume))
              then unavailable pd worker a "Attempt volume state is inconsistent" None
              else if pa_Phase a =s "volume_requested" then
                match advanceProvisioning pd a "volume_ready" (fv_ID volume) "" with
                | (Err e, pd) => (Err e, pd)
                | (Ok _, pd) => (Ok (a <| pa_Phase := "volume_ready" |> <| pa_VolumeID := fv_ID volume |>), pd)
                end
              else (Ok a, pd)
          | _ => (Ok a, pd)
          end in
        match confirmed with
        | (Err e, pd) => (Err e, pd)
        | (Ok a, pd) =>
            match attemptMachines worker a machines with
            | None => unavailable pd worker a "Attempt machine does not match intended configuration" None
            | Some (_ :: _ :: _) => unavailable pd worker a "Multiple attempt machines require operator accounting" None
            | Some [machine] => adoptAttemptMachine pd worker a machine volumes recovered
            | Some [] =>
                if negb (pa_VolumeID a =s "") && match ownedVolumes with [] => true | _ => false end
                then unavailable pd worker a "Persisted attempt volume is missing" None
                else if match ownedVolumes with [v] => negb (fv_AttachedMachineID v =s "") | _ => false end
                then unavailable pd worker a "Attempt volume is attached to an unconfirmed machine" None
                else let '(pc, pd) := resumeWorkerProvisioning pd worker a (resolveWorkerWorkload worker) true in
                     (done_result pc, pd)
            end
        end
    end.

Variable meteringEnv : string.

Definition legacyReport (workerID : string) : ProvisioningAttempt :=
  mkAttempt 0 "" 0 "" workerID "" "" "" "legacy_pending" "" "" "".

Definition recoverPendingWorker (pd : provDB) (workerID image : string) : result provError () * provDB :=
  match GetWorker (pd_workers pd) workerID with
  | Err e => (Err (ErrStore e), pd)
  | Ok worker =>
      let a := ActiveProvisioning pd workerID in
      if status_in [WorkerStopped; WorkerDormant; WorkerFailed] worker || EvidenceHeld worker then (Ok (), pd)
      else if negb (status_in [WorkerPending] worker) && negb (bool_decide (is_Some a)) then (Ok (), pd)
      else
        match checkRCGateProvisioning meteringEnv (pd_gates pd) (w_Source worker) (w_ProfileName worker) image
                (w_LitestreamSHA worker) (an_now ans) with
        | Err e => (Err (ErrGate e), pd)
        | Ok _ =>
            let report := default (legacyReport workerID) a in
            match an_machines ans with
            | Err e => unavailable pd worker report "Machine inventory could not be observed" (Some e)
            | Ok machines =>
            match an_volumes ans with
            | Err e => unavailable pd worker report "Volume inventory could not be observed" (Some e)
            | Ok volumes =>
                let recovered := match a with None => true | Some a => negb (pa_Phase a =s "machine_ready") end in
                let pd := if recovered
                          then recordProvisioning pd worker report "worker_provisioning_interrupted"
                                 "Pending provisioning requires reconciliation after an incomplete attempt"
                          else pd in
                let pd := observeVolumes pd worker a report volumes in
                match a with
                | Some a => recoverAttempt pd worker a image machines volumes recovered
                | None =>
                    let expected := pd_expected pd !! workerID in
                    match legacyMachines worker image expected machines, expected with
                    | None, _ => unavailable pd worker report "Existing machine ownership or target is ambiguous" None
                    | Some (_ :: _ :: _), _ =>
                        unavailable pd worker report "Multiple matching machines require operator accounting" None
                    | Some [machine], Some expected =>
                        adoptLegacyMachine pd worker report image expected machine volumes
                    | Some _, _ =>
                        match beginAfterLegacy pd worker report image machines volumes with
                        | (Err e, pd) => (Err e, pd)
                        | (Ok a, pd) => recoverAttempt pd worker a image machines volumes recovered
                        end
                    end
                end
            end
            end
        end
  end.

End Driver.

(** * Drivers, crashes and recoveries interleaved

    A driver runs while it holds its worker's lock, so there is at most one
    per worker; a crash drops it wherever it is.  Whatever else the control
    plane does to an attempt (recovery adopting a resource, completion,
    teardown) happens while no driver of that worker runs. *)

Record thread := mkThread { th_worker : Worker; th_cfg : Config; th_recovered : bool; th_pc : resumePoint }.
Record psys := mkSys { sys_pd : provDB; sys_threads : gmap string thread }.

(** The parameters of one driver step. *)
Record stepParams := mkParams {
  sp_platform : Platform;
  sp_answers : answers;
  sp_volumeName : string -> string;
  sp_retriable : flyError -> bool
}.
Definition thread_step (p : stepParams) (t : thread) (pd : provDB) : resumePoint * provDB :=
  @resume_step (sp_platform p) (sp_answers p) (sp_volumeName p) (sp_retriable p)
    (th_worker t) (th_cfg t) (th_recovered t) (th_pc t) pd.

Definition is_done (pc : resumePoint) : bool := match pc with RDone _ => true | _ => false end.
Definition put_thread (w : string) (t : thread) (pc : resumePoint) (m : gmap string thread) : gmap string thread :=
  if is_done pc then delete w m else <[w := mkThread (th_worker t) (th_cfg t) (th_recovered t) pc]> m.

Inductive prov_step : psys -> psys -> Prop :=
| ps_other s pd' : pd_attempts pd' = pd_attempts (sys_pd s) -> pd_requests pd' = pd_requests (sys_pd s) ->
    prov_step s (mkSys pd' (sys_threads s))
| ps_begin s a : sys_threads s !! pa_WorkerID a = None ->
    prov_step s (mkSys (snd (BeginProvisioning (sys_pd s) a)) (sys_threads s))
| ps_spawn s worker cfg recovered a : sys_threads s !! w_ID worker = None ->
    ActiveProvisioning (sys_pd s) (w_ID worker) = Some a ->
    prov_step s (mkSys (sys_pd s) (<[w_ID worker := mkThread worker cfg recovered (RStart a)]> (sys_threads s)))
| ps_run s p w t pc pd' : sys_threads s !! w = Some t -> thread_step p t (sys_pd s) = (pc, pd') ->
    prov_step s (mkSys pd' (put_thread w t pc (sys_threads s)))
| ps_crash s w : prov_step s (mkSys (sys_pd s) (delete w (sys_threads s)))
| ps_restart s : prov_step s (mkSys (sys_pd s) ∅)
| ps_adopt s a phase volumeID machineID : sys_threads s !! pa_WorkerID a = None ->
    ActiveProvisioning (sys_pd s) (pa_WorkerID a) = Some a ->
    (phase = "machine_ready" \/ (phase = "volume_ready" /\ pa_Phase a = "volume_requested")) ->
    prov_step s (mkSys (snd (AdvanceProvisioning (sys_pd s) a phase volumeID machineID)) (sys_threads s))
| ps_complete s now a events b : sys_threads s !! pa_WorkerID a = None ->
    In b (pd_attempts (sys_pd s)) -> pa_ID b = pa_ID a -> pa_WorkerID b = pa_WorkerID a ->
    prov_step s (mkSys (snd (CompleteProvisioning now (sys_pd s) a events)) (sys_threads s))
| ps_abandon s now a event b : sys_threads s !! pa_WorkerID a = None ->
    In b (pd_attempts (sys_pd s)) -> pa_ID b = pa_ID a -> pa_WorkerID b = pa_WorkerID a ->
    prov_step s (mkSys (snd (AbandonProvisioning now (sys_pd s) a event)) (sys_threads s)).

Inductive prov_reachable : psys -> Prop :=
| pr_init pd : pd_attempts pd = [] -> pd_requests pd = [] -> prov_reachable (mkSys pd ∅)
| pr_step s s' : prov_reachable s -> prov_step s s' -> prov_reachable s'.

(** ** What is counted *)

(** A volume request the platform did not refuse may have made a volume. *)
Definition volume_request (id : string) (r : platformRequest) : bool :=
  match r with
  | ReqForkVolume a _ _ rej | ReqCreateVolume a _ rej => (a =s id) && negb rej
  | ReqCreateMachine _ _ => false
  end.
Definition machine_request (id : string) (r : platformRequest) : bool :=
  match r with ReqCreateMachine a _ => a =s id | _ => false end.
Definition count_requests (p : platformRequest -> bool) (pd : provDB) : nat :=
  length (List.filter p (pd_requests pd)).

(** ** The invariant *)

Definition phase_rank (phase : string) : nat :=
  if phase =s "planned" then 0 else if phase =s "volume_requested" then 1 else if phase =s "volume_ready" then 2
  else if phase =s "machine_requested" then 3 else if phase =s "machine_ready" then 4 else 5.

Definition pc_attempt (pc : resumePoint) : option ProvisioningAttempt :=
  match pc with
  | RStart a | RVolumeRequested a | RVolumeCreated a _ | RMachineRequested a | RMachineCreated a _ => Some a
  | RDone _ => None
  end.
Definition pc_phase_ok (pc : resumePoint) : Prop :=
  match pc with
  | RStart _ => True
  | RVolumeRequested a | RVolumeCreated a _ => pa_Phase a = "volume_requested"
  | RMachineRequested a | RMachineCreated a _ => pa_Phase a = "machine_requested"
  | RDone _ => False
  end.

Record thread_ok (pd : provDB) (w : string) (t : thread) : Prop := {
  to_worker : w_ID (th_worker t) = w;
  to_phase : pc_phase_ok (th_pc t);
  to_row : exists a b, pc_attempt (th_pc t) = Some a /\ In b (pd_attempts pd) /\
    pa_ID b = pa_ID a /\ pa_Phase b = pa_Phase a /\ pa_WorkerID b = w /\ open_phase (pa_Phase b) = true;
  to_volume : forall a, th_pc t = RVolumeRequested a -> count_requests (volume_request (pa_ID a)) pd = 0;
  to_machine : forall a, th_pc t = RMachineRequested a -> count_requests (machine_request (pa_ID a)) pd = 0
}.

Record sys_ok (s : psys) : Prop := {
  so_ids : NoDup (map pa_ID (pd_attempts (sys_pd s)));
  so_open : forall a b, In a (pd_attempts (sys_pd s)) -> In b (pd_attempts (sys_pd s)) ->
    open_phase (pa_Phase a) = true -> open_phase (pa_Phase b) = true ->
    pa_WorkerID a = pa_WorkerID b -> a = b;
  so_known : forall b, In b (pd_attempts (sys_pd s)) -> open_phase (pa_Phase b) = true -> phase_rank (pa_Phase b) <= 4;
  so_fresh : forall id, ~ In id (map pa_ID (pd_attempts (sys_pd s))) ->
    count_requests (volume_request id) (sys_pd s) = 0 /\ count_requests (machine_request id) (sys_pd s) = 0;
  so_volume : forall b, In b (pd_attempts (sys_pd s)) ->
    count_requests (volume_request (pa_ID b)) (sys_pd s) <= (if phase_rank (pa_Phase b) <? 1 then 0 else 1);
  so_machine : forall b, In b (pd_attempts (sys_pd s)) ->
    count_requests (machine_request (pa_ID b)) (sys_pd s) <= (if phase_rank (pa_Phase b) <? 3 then 0 else 1);
  so_threads : map_Forall (thread_ok (sys_pd s)) (sys_threads s)
}.

(** ** Frames: what a function leaves of the attempts and the requests *)

Definition same_core (pd pd' : provDB) : Prop :=
  pd_attempts pd' = pd_attempts pd /\ pd_requests pd' = pd_requests pd.
#[export] Instance same_core_equiv : Equivalence same_core.
Proof.
  split; [by intros x| |].
  - intros x y [H1 H2]. by split.
  - intros x y z [H1 H2] [H3 H4]. split; congruence.
Qed.

Lemma record_event_core now pd id kind message details : same_core pd (record_event now pd id kind message details).
Proof. by split. Qed.

Lemma expect_core pd a identity r pd' : ExpectProvisioningRun pd a identity = (r, pd') -> same_core pd pd'.
Proof. unfold ExpectProvisioningRun. intros E. repeat case_match; simplify_eq; by split. Qed.

Lemma save_core p pd identity r pd' : saveIdentity p pd identity = (r, pd') -> same_core pd pd'.
Proof.
  destruct p; simpl; [apply expect_core|]. intros E. simplify_eq. by split.
Qed.

Lemma bind_core now pd a r pd' : BindProvisioningMachine now pd a = (r, pd') -> same_core pd pd'.
Proof. unfold BindProvisioningMachine. intros E. repeat case_match; simplify_eq; by split. Qed.

Lemma fold_events_core now id events pd :
  same_core pd (fold_left (fun pd e => record_event now pd id (e_EventType e) (e_Message e) (e_Details e)) events pd).
Proof. revert pd. induction events as [|e l IH]; intros pd; [done|]. rewrite fold_left_cons. apply (IH (record_event _ _ _ _ _ _)). Qed.

(** Attempts are only ever changed by updating rows in place. *)
Definition phase_update (p : ProvisioningAttempt -> bool) (f : ProvisioningAttempt -> ProvisioningAttempt)
    (pd pd' : provDB) : Prop :=
  pd_attempts pd' = update_attempts p f (pd_attempts pd) /\ pd_requests pd' = pd_requests pd.

Record forward (p : ProvisioningAttempt -> bool) (f : ProvisioningAttempt -> ProvisioningAttempt) : Prop := {
  fw_id : forall b, pa_ID (f b) = pa_ID b;
  fw_worker : forall b, pa_WorkerID (f b) = pa_WorkerID b;
  fw_rank : forall b, p b = true -> phase_rank (pa_Phase b) <= phase_rank (pa_Phase (f b));
  fw_open : forall b, p b = true -> open_phase (pa_Phase (f b)) = true -> open_phase (pa_Phase b) = true;
  fw_known : forall b, p b = true -> open_phase (pa_Phase (f b)) = true -> phase_rank (pa_Phase (f b)) <= 4
}.

Lemma update_attempts_ids p f l : (forall b, pa_ID (f b) = pa_ID b) -> map pa_ID (update_attempts p f l) = map pa_ID l.
Proof. intros H. unfold update_attempts. rewrite map_map. apply map_ext. intros b. by destruct (p b). Qed.

Lemma update_attempts_In p f l x : In x (update_attempts p f l) -> exists b, In b l /\ x = if p b then f b else b.
Proof. intros H. apply in_map_iff in H as (b & <- & Hb). eauto. Qed.

Lemma phase_rank_max phase : phase_rank phase <= 5.
Proof. unfold phase_rank. repeat case_match; lia. Qed.

Lemma phase_rank_closed b : open_phase b = false -> phase_rank b = 5.
Proof.
  unfold open_phase. intros H. apply andb_false_iff in H as [H|H]; apply negb_false_iff, eqs_true in H; by subst.
Qed.

Lemma count_same p pd pd' : pd_requests pd' = pd_requests pd -> count_requests p pd' = count_requests p pd.
Proof. unfold count_requests. by intros ->. Qed.

Lemma bound_mono (m n k c : nat) : m <= n -> c <= (if m <? k then 0 else 1) -> c <= (if n <? k then 0 else 1).
Proof. intros Hmn Hc. destruct (Nat.ltb_spec m k), (Nat.ltb_spec n k); lia. Qed.

(** An update that only moves phases forward keeps every clause but the one on
    the drivers, which the step itself has to restore. *)
Lemma update_ok p f s pd' threads' :
  sys_ok s -> forward p f -> phase_update p f (sys_pd s) pd' ->
  map_Forall (thread_ok pd') threads' -> sys_ok (mkSys pd' threads').
Proof.
  intros [Hids Hopen Hknown Hfresh Hvol Hmach Hth] [Fid Fw Fr Fo Fk] [Ha Hr] Hth'.
  assert (forall b, phase_rank (pa_Phase b) <= phase_rank (pa_Phase (if p b then f b else b))) as Rank.
  { intros b. destruct (p b) eqn:E; auto. }
  assert (forall b, pa_ID (if p b then f b else b) = pa_ID b) as Id by (intros b; by destruct (p b)).
  assert (forall b, open_phase (pa_Phase (if p b then f b else b)) = true -> open_phase (pa_Phase b) = true) as Op.
  { intros b. destruct (p b) eqn:E; auto. }
  constructor; simpl; rewrite ?Ha, ?update_attempts_ids by done; auto.
  - intros x y Hx Hy Ox Oy Hw.
    apply update_attempts_In in Hx as (b & Hb & ->), Hy as (c & Hc & ->).
    assert (b = c) as ->; [|done]. apply Hopen; auto. revert Hw. destruct (p b), (p c); rewrite ?Fw; done.
  - intros x Hx Ox. apply update_attempts_In in Hx as (b & Hb & ->). destruct (p b) eqn:E; auto.
  - intros id Hid. rewrite !(count_same _ (sys_pd s) pd' Hr). auto.
  - intros x Hx. apply update_attempts_In in Hx as (b & Hb & ->).
    rewrite (count_same _ (sys_pd s) pd' Hr), Id. eapply bound_mono; [apply Rank|]. auto.
  - intros x Hx. apply update_attempts_In in Hx as (b & Hb & ->).
    rewrite (count_same _ (sys_pd s) pd' Hr), Id. eapply bound_mono; [apply Rank|]. auto.
Qed.

(** A driver whose worker's rows an update leaves alone is not disturbed. *)
Lemma thread_frame p f pd pd' w t :
  thread_ok pd w t -> phase_update p f pd pd' ->
  (forall b, In b (pd_attempts pd) -> pa_WorkerID b = w -> p b = false) -> thread_ok pd' w t.
Proof.
  intros [Hw Hp (a & b & Hpc & Hb & Hid & Hph & Hwb & Hop) Hv Hm] [Ha Hr] Hfree. constructor; auto.
  - exists a, b. split_and!; auto. rewrite Ha. apply in_map_iff. exists b. by rewrite (Hfree b Hb Hwb).
  - intros x Hx. rewrite (count_same _ pd pd' Hr). auto.
  - intros x Hx. rewrite (count_same _ pd pd' Hr). auto.
Qed.

(** New requests of one attempt: at most one of the kind counted by [mine],
    none of the other kind, none for another attempt. *)
Definition one_request (mine other : string -> platformRequest -> bool) (id : string) (pd pd' : provDB) : Prop :=
  pd_attempts pd' = pd_attempts pd /\
  count_requests (mine id) pd' <= count_requests (mine id) pd + 1 /\
  (forall id', id' <> id -> count_requests (mine id') pd' = count_requests (mine id') pd) /\
  (forall id', count_requests (other id') pd' = count_requests (other id') pd).

Lemma count_snoc (p : platformRequest -> bool) l r : length (List.filter p (l ++ [r])) = length (List.filter p l) + (if p r then 1 else 0).
Proof. rewrite List.filter_app, length_app. simpl. by destruct (p r). Qed.

Lemma rejected_not_counted id r :
  match r with ReqForkVolume _ _ _ rej | ReqCreateVolume _ _ rej => rej = true | ReqCreateMachine _ _ => True end ->
  volume_request id r = false.
Proof. destruct r; simpl; try done; intros ->; by rewrite andb_false_r. Qed.

Lemma label_other id id' : id' <> id -> (id =s id') = false.
Proof. intros H. apply eqs_false. congruence. Qed.

Ltac split_count := match goal with |- context [if ?c then 1 else 0] => destruct c end; lia.

Section DriverFrames.
Context `{Platform}.
Variables (ans : answers) (volumeName : string -> string) (retriable : flyError -> bool).

Lemma fresh_requests pd worker id name reason source r pd' :
  createFreshVolume ans pd worker id name reason source = (r, pd') ->
  one_request volume_request machine_request id pd pd'.
Proof.
  unfold createFreshVolume, one_request, count_requests. intros E.
  assert (pd_attempts pd' = pd_attempts pd /\
          pd_requests pd' = pd_requests pd ++ [ReqCreateVolume id name (rejected (an_volume ans))]) as [-> ->].
  { destruct (an_volume ans); simplify_eq; done. }
  rewrite count_snoc. split_and!; [done| |intros id' Hid; rewrite count_snoc|intros id'; rewrite count_snoc]; simpl.
  - split_count.
  - rewrite label_other by done. simpl. lia.
  - lia.
Qed.

Lemma volume_requests pd worker a r pd' :
  ActiveProvisioning pd (w_ID worker) = Some a -> createWorkerVolume ans volumeName pd worker = (r, pd') ->
  one_request volume_request machine_request (pa_ID a) pd pd'.
Proof.
  unfold createWorkerVolume. intros Ha E. rewrite Ha in E.
  destruct (lockForkSourceForWorker pd worker) as [[[source|] reason]|e]; simplify_eq;
    [| by eapply fresh_requests | by unfold one_request; split_and!; [|lia|..] ].
  set (pd1 := pd <| pd_requests ::= _ |>) in E.
  assert (forall p, count_requests p pd1 = count_requests p pd +
    (if p (ReqForkVolume (pa_ID a) (w_FlyVolumeID source) (pa_VolumeName a) (rejected (an_fork ans))) then 1 else 0)) as Hpd1.
  { intros p. apply count_snoc. }
  destruct (an_fork ans) as [vol|e] eqn:Hf; simpl in E, Hpd1.
  - simplify_eq. unfold one_request. split_and!; [done|..].
    + rewrite (count_same _ pd1) by done. rewrite Hpd1. split_count.
    + intros id' Hid. rewrite (count_same _ pd1) by done. rewrite Hpd1. simpl. rewrite label_other by done. simpl. lia.
    + intros id'. rewrite (count_same _ pd1) by done. rewrite Hpd1. simpl. lia.
  - destruct (providerRejectedRequest e) eqn:Hrej; simpl in E, Hpd1.
    + apply fresh_requests in E as (E1 & E2 & E3 & E4). unfold one_request.
      assert (forall id, count_requests (volume_request id) pd1 = count_requests (volume_request id) pd) as Hv.
      { intros id. rewrite Hpd1. simpl. rewrite andb_false_r. lia. }
      assert (forall id, count_requests (machine_request id) pd1 = count_requests (machine_request id) pd) as Hm.
      { intros id. rewrite Hpd1. simpl. lia. }
      split_and!; [done|rewrite <- Hv; done|intros id' Hid; rewrite E3, Hv by done; done|intros id'; by rewrite E4, Hm].
    + simplify_eq. unfold one_request. split_and!; [done|..].
      * rewrite Hpd1. split_count.
      * intros id' Hid. rewrite Hpd1. simpl. rewrite label_other by done. simpl. lia.
      * intros id'. rewrite Hpd1. simpl. lia.
Qed.

Lemma one_request_core mine other id pd pd1 pd2 :
  one_request mine other id pd pd1 -> same_core pd1 pd2 -> one_request mine other id pd pd2.
Proof.
  intros (E1 & E2 & E3 & E4) [C1 C2]. unfold one_request.
  rewrite C1, (count_same _ pd1 pd2 C2). split_and!; auto.
  - intros id' Hid. rewrite (count_same _ pd1 pd2 C2). auto.
  - intros id'. rewrite (count_same _ pd1 pd2 C2). auto.
Qed.

Lemma one_request_after mine other id pd pd1 pd2 :
  same_core pd pd1 -> one_request mine other id pd1 pd2 -> one_request mine other id pd pd2.
Proof.
  intros [C1 C2] (E1 & E2 & E3 & E4). unfold one_request.
  rewrite E1, C1, <- (count_same _ pd pd1 C2). split_and!; auto.
  - intros id' Hid. rewrite E3 by done. apply count_same, C2.
  - intros id'. rewrite E4. apply count_same, C2.
Qed.

Lemma machine_requests pd worker image volume cfg a r pd' :
  ActiveProvisioning pd (w_ID worker) = Some a ->
  createWorkerMachine ans retriable pd worker image volume cfg = (r, pd') ->
  one_request machine_request volume_request (pa_ID a) pd pd'.
Proof.
  unfold createWorkerMachine. intros Ha E.
  set (worker' := if _ =s _ then _ else worker) in E.
  assert (ActiveProvisioning pd (w_ID worker') = Some a) as Ha' by (unfold worker'; destruct (_ =s _); exact Ha).
  rewrite Ha' in E. clear Ha. clearbody worker'.
  assert (one_request machine_request volume_request (pa_ID a) pd pd) as Hrefl.
  { unfold one_request. split_and!; [done|lia|done..]. }
  destruct (workloadProfile _) as [profile|]; [|by simplify_eq].
  destruct (saveIdentity _ pd _) as [[]  pd1] eqn:Hs in E; [|simplify_eq; by eapply one_request_core, save_core].
  eapply one_request_after; [by eapply save_core|]. clear Hs Ha' Hrefl.
  unfold createMachineLoop in E. set (pd2 := pd1 <| pd_requests ::= _ |>) in E.
  assert (one_request machine_request volume_request (pa_ID a) pd1 pd2) as H2.
  { unfold one_request, count_requests, pd2. simpl. split_and!; [done|rewrite count_snoc; simpl; split_count|..].
    - intros id' Hid. rewrite count_snoc. simpl. rewrite label_other by done. lia.
    - intros id'. rewrite count_snoc. simpl. lia. }
  destruct (an_machine ans) as [machine|e].
  - destruct (saveIdentity _ pd2 _) as [[] pd3] eqn:Hs in E; simplify_eq; by eapply one_request_core, save_core.
  - rewrite bool_decide_true in E by eauto. simpl in E. simplify_eq. exact H2.
Qed.
End DriverFrames.

(** ** Every step keeps the invariant *)

Lemma NoDup_map_inj {A B} (f : A -> B) l x y : NoDup (map f l) -> In x l -> In y l -> f x = f y -> x = y.
Proof.
  induction l as [|z l IH]; [done|]. simpl. intros Hn Hx Hy E. apply NoDup_cons in Hn as [Hz Hn].
  assert (forall u, In u l -> f z = f u -> False) as Hno.
  { intros u Hu Eu. apply Hz. rewrite Eu. apply list_elem_of_In, in_map, Hu. }
  destruct Hx as [<-|Hx], Hy as [<-|Hy]; auto; exfalso; eauto.
Qed.

Lemma active_row s b :
  sys_ok s -> In b (pd_attempts (sys_pd s)) -> open_phase (pa_Phase b) = true ->
  ActiveProvisioning (sys_pd s) (pa_WorkerID b) = Some b.
Proof.
  intros Hok Hb Ho. unfold ActiveProvisioning. destruct (List.find _ _) as [c|] eqn:E.
  - apply List.find_some in E as [Hc Ec]. apply andb_true_iff in Ec as [Ec Oc]. apply eqs_true in Ec.
    f_equal. by apply (so_open s Hok).
  - apply List.find_none with (x := b) in E; [|done]. simpl in E. by rewrite eqs_refl, Ho in E.
Qed.

Lemma active_In pd w a : ActiveProvisioning pd w = Some a ->
  In a (pd_attempts pd) /\ pa_WorkerID a = w /\ open_phase (pa_Phase a) = true.
Proof.
  intros E. apply List.find_some in E as [Ha E]. apply andb_true_iff in E as [E O]. by apply eqs_true in E.
Qed.

Lemma advance_forward a phase volume machine :
  phase_rank (pa_Phase a) <= phase_rank phase -> phase_rank phase <= 4 -> open_phase (pa_Phase a) = true ->
  forward (claims a) (advanced phase volume machine).
Proof.
  intros Hr Hk Ho. constructor; try done; intros b Hb; apply andb_true_iff in Hb as [_ Hb]; apply eqs_true in Hb.
  - by rewrite Hb.
  - by rewrite Hb.
Qed.

Lemma closing_forward p phase : phase_rank phase = 5 -> open_phase phase = false ->
  forward p (fun b => b <| pa_Phase := phase |>).
Proof.
  intros Hr Ho. constructor; try done; simpl; intros b _; [rewrite Hr; apply phase_rank_max|congruence..].
Qed.

Lemma same_core_update pd pd' : same_core pd pd' -> phase_update (fun _ => false) id pd pd'.
Proof. intros [E1 E2]. split; [|done]. rewrite E1. unfold update_attempts. simpl. by rewrite map_id. Qed.

Lemma forward_none : forward (fun _ => false) id.
Proof. by constructor. Qed.

(** Rows that share an id with a row of [w] are that row. *)
Lemma others_untouched s w b p :
  sys_ok s -> In b (pd_attempts (sys_pd s)) -> pa_WorkerID b = w ->
  (forall c, p c = true -> pa_ID c = pa_ID b) ->
  forall w', w' <> w -> forall c, In c (pd_attempts (sys_pd s)) -> pa_WorkerID c = w' -> p c = false.
Proof.
  intros Hok Hb Hw Hp w' Hne c Hc Hcw. destruct (p c) eqn:E; [|done]. exfalso.
  assert (c = b) by (apply (NoDup_map_inj pa_ID (pd_attempts (sys_pd s))); auto; apply (so_ids s Hok)). congruence.
Qed.

Lemma claims_id a c : claims a c = true -> pa_ID c = pa_ID a.
Proof. intros H. apply andb_true_iff in H as [H _]. by apply eqs_true in H. Qed.

(** A step that touches the row of a worker without a driver. *)
Lemma idle_update s w b p f pd' :
  sys_ok s -> sys_threads s !! w = None -> In b (pd_attempts (sys_pd s)) -> pa_WorkerID b = w ->
  (forall c, p c = true -> pa_ID c = pa_ID b) -> forward p f -> phase_update p f (sys_pd s) pd' ->
  sys_ok (mkSys pd' (sys_threads s)).
Proof.
  intros Hok Hidle Hb Hw Hp Hf Hu. apply (update_ok p f s); auto.
  intros w' t Ht. apply (thread_frame p f (sys_pd s)); auto; [by apply (so_threads s Hok)|].
  apply (others_untouched s w b p); auto. congruence.
Qed.

(** A step of the driver of [w] that updates its own row. *)
Lemma driver_update s w t b p f pd' pc :
  sys_ok s -> sys_threads s !! w = Some t -> In b (pd_attempts (sys_pd s)) -> pa_WorkerID b = w ->
  (forall c, p c = true -> pa_ID c = pa_ID b) -> forward p f -> phase_update p f (sys_pd s) pd' ->
  (is_done pc = false -> thread_ok pd' w (mkThread (th_worker t) (th_cfg t) (th_recovered t) pc)) ->
  sys_ok (mkSys pd' (put_thread w t pc (sys_threads s))).
Proof.
  intros Hok Ht Hb Hw Hp Hf Hu Hpc. apply (update_ok p f s); auto.
  assert (forall w' t', w' <> w -> sys_threads s !! w' = Some t' -> thread_ok pd' w' t') as Hothers.
  { intros w' t' Hne Ht'. apply (thread_frame p f (sys_pd s)); auto; [by apply (so_threads s Hok)|].
    by apply (others_untouched s w b p). }
  unfold put_thread. destruct (is_done pc) eqn:Hd; intros w' t' Ht'.
  - apply lookup_delete_Some in Ht' as [Hne Ht']. apply Hothers; congruence.
  - apply lookup_insert_Some in Ht' as [[<- <-]|[Hne Ht']]; [auto|]. apply Hothers; congruence.
Qed.

(** A step of the driver of [w] that makes requests for its own attempt. *)
Lemma counts_ok (mine other : string -> platformRequest -> bool) s pd' threads' b :
  sys_ok s -> In b (pd_attempts (sys_pd s)) -> one_request mine other (pa_ID b) (sys_pd s) pd' ->
  count_requests (mine (pa_ID b)) (sys_pd s) = 0 ->
  (mine = volume_request /\ other = machine_request /\ 1 <= phase_rank (pa_Phase b)) \/
  (mine = machine_request /\ other = volume_request /\ 3 <= phase_rank (pa_Phase b)) ->
  map_Forall (thread_ok pd') threads' -> sys_ok (mkSys pd' threads').
Proof.
  intros [Hids Hopen Hknown Hfresh Hvol Hmach Hth] Hb (Ha & Hone & Hrest & Hother) Hzero Hkind Hth'.
  assert (forall id, id <> pa_ID b -> forall q, q = mine \/ q = other ->
    count_requests (q id) pd' = count_requests (q id) (sys_pd s)) as Hsame.
  { intros id Hid q [-> | ->]; auto. }
  assert (forall c, In c (pd_attempts (sys_pd s)) -> pa_ID c = pa_ID b -> c = b) as Hinj.
  { intros c Hc E. by apply (NoDup_map_inj pa_ID (pd_attempts (sys_pd s))). }
  constructor; simpl; rewrite ?Ha; auto.
  - intros id Hid. assert (id <> pa_ID b) by (intros ->; by apply Hid, in_map).
    destruct Hkind as [(-> & -> & _)|(-> & -> & _)]; rewrite !Hsame by auto; auto.
  - intros c Hc. destruct (decide (pa_ID c = pa_ID b)) as [E|E].
    + rewrite (Hinj c Hc E). destruct Hkind as [(-> & -> & Hr)|(-> & -> & Hr)]; [|rewrite Hother; auto].
      destruct (Nat.ltb_spec (phase_rank (pa_Phase b)) 1); lia.
    + destruct Hkind as [(-> & -> & _)|(-> & -> & _)]; rewrite Hsame by auto; auto.
  - intros c Hc. destruct (decide (pa_ID c = pa_ID b)) as [E|E].
    + rewrite (Hinj c Hc E). destruct Hkind as [(-> & -> & Hr)|(-> & -> & Hr)]; [rewrite Hother; auto|].
      destruct (Nat.ltb_spec (phase_rank (pa_Phase b)) 3); lia.
    + destruct Hkind as [(-> & -> & _)|(-> & -> & _)]; rewrite Hsame by auto; auto.
Qed.

(** Requests for another attempt do not disturb a driver. *)
Lemma thread_other_requests (mine other : string -> platformRequest -> bool) pd pd' id w t :
  thread_ok pd w t -> one_request mine other id pd pd' ->
  (mine = volume_request /\ other = machine_request) \/ (mine = machine_request /\ other = volume_request) ->
  (forall a, pc_attempt (th_pc t) = Some a -> pa_ID a <> id) -> thread_ok pd' w t.
Proof.
  intros [Hw Hp (a & b & Hpc & Hb & Hrest) Hv Hm] (Ha & _ & Hsame & Hother) Hkind Hne. constructor; auto.
  - exists a, b. by rewrite Ha.
  - intros x Hx. assert (pa_ID x <> id) by (apply Hne; by rewrite Hx).
    destruct Hkind as [[-> ->]|[-> ->]]; rewrite ?Hsame, ?Hother by done; auto.
  - intros x Hx. assert (pa_ID x <> id) by (apply Hne; by rewrite Hx).
    destruct Hkind as [[-> ->]|[-> ->]]; rewrite ?Hsame, ?Hother by done; auto.
Qed.

Lemma driver_requests (mine other : string -> platformRequest -> bool) s w t a b pd' pc :
  sys_ok s -> sys_threads s !! w = Some t -> pc_attempt (th_pc t) = Some a ->
  In b (pd_attempts (sys_pd s)) -> pa_ID b = pa_ID a -> pa_WorkerID b = w ->
  one_request mine other (pa_ID b) (sys_pd s) pd' -> count_requests (mine (pa_ID b)) (sys_pd s) = 0 ->
  (mine = volume_request /\ other = machine_request /\ 1 <= phase_rank (pa_Phase b)) \/
  (mine = machine_request /\ other = volume_request /\ 3 <= phase_rank (pa_Phase b)) ->
  (is_done pc = false -> thread_ok pd' w (mkThread (th_worker t) (th_cfg t) (th_recovered t) pc)) ->
  sys_ok (mkSys pd' (put_thread w t pc (sys_threads s))).
Proof.
  intros Hok Ht Hpc Hb Hid Hw Hone Hzero Hkind Hnew. apply (counts_ok mine other s _ _ b); auto.
  assert (forall w' t', w' <> w -> sys_threads s !! w' = Some t' -> thread_ok pd' w' t') as Hothers.
  { intros w' t' Hne Ht'. pose proof (so_threads s Hok w' t' Ht') as Hto.
    apply (thread_other_requests mine other (sys_pd s) pd' (pa_ID b)); auto; [tauto|].
    intros x Hx Ex. destruct (to_row _ _ _ Hto) as (x' & c & Hx' & Hc & Hcid & _ & Hcw & _).
    assert (c = b) by (apply (NoDup_map_inj pa_ID (pd_attempts (sys_pd s))); auto; [apply (so_ids s Hok)|congruence]).
    congruence. }
  unfold put_thread. destruct (is_done pc) eqn:Hd; intros w' t' Ht'.
  - apply lookup_delete_Some in Ht' as [Hne Ht']. apply Hothers; congruence.
  - apply lookup_insert_Some in Ht' as [[<- <-]|[Hne Ht']]; [auto|]. apply Hothers; congruence.
Qed.

Lemma advance_update pd a phase volume machine :
  phase_update (claims a) (advanced phase volume machine) pd (snd (AdvanceProvisioning pd a phase volume machine)).
Proof. by split. Qed.

Lemma row_after_claim pd a b phase volume machine :
  In b (pd_attempts pd) -> pa_ID b = pa_ID a -> pa_Phase b = pa_Phase a ->
  In (advanced phase volume machine b) (pd_attempts (snd (AdvanceProvisioning pd a phase volume machine))).
Proof.
  intros Hb Hid Hph. simpl. apply in_map_iff. exists b. split; [|done].
  unfold claims. by rewrite Hid, Hph, !eqs_refl.
Qed.

(** The driver moves its own row from one phase to a later one. *)
Lemma claim_step s w t a b phase volume machine next pc pd' :
  sys_ok s -> sys_threads s !! w = Some t -> pc_attempt (th_pc t) = Some a ->
  In b (pd_attempts (sys_pd s)) -> pa_ID b = pa_ID a -> pa_Phase b = pa_Phase a -> pa_WorkerID b = w ->
  open_phase (pa_Phase b) = true -> open_phase phase = true ->
  phase_rank (pa_Phase a) < phase_rank phase -> phase_rank phase <= 4 ->
  claim_phase (sys_pd s) a phase volume machine next = (pc, pd') ->
  (exists a', pc_attempt next = Some a' /\ pa_ID a' = pa_ID a /\ pa_Phase a' = phase) -> pc_phase_ok next ->
  (forall x, next = RVolumeRequested x -> phase_rank (pa_Phase a) < 1) ->
  (forall x, next = RMachineRequested x -> phase_rank (pa_Phase a) < 3) ->
  sys_ok (mkSys pd' (put_thread w t pc (sys_threads s))).
Proof.
  intros Hok Ht Hpc Hb Hid Hph Hw Ho Hop Hr Hk Hc (a' & Hn & Hid' & Hph') Hnok Hv Hm.
  pose proof (advance_update (sys_pd s) a phase volume machine) as Hu.
  pose proof (row_after_claim (sys_pd s) a b phase volume machine Hb Hid Hph) as Hrow.
  assert (pd' = snd (AdvanceProvisioning (sys_pd s) a phase volume machine)) as Hpd.
  { unfold claim_phase in Hc. simpl in Hc. destruct (existsb _ _); by simplify_eq. }
  rewrite <- Hpd in Hu, Hrow.
  eapply (driver_update s w t b _ _ pd' pc Hok Ht Hb Hw); [| |exact Hu|].
  - intros c Hcl. apply claims_id in Hcl. congruence.
  - apply advance_forward; [lia|done|congruence].
  - intros Hd. unfold claim_phase in Hc. simpl in Hc. destruct (existsb _ _); injection Hc as Hnext _; [|by subst pc].
    subst pc. destruct (so_threads s Hok w t Ht) as [Hwk _ _ _ _].
    constructor; simpl; auto.
    + exists a', (advanced phase volume machine b). split_and!; auto; simpl; congruence.
    + intros x Hx. rewrite Hx in Hn. simpl in Hn. injection Hn as ->. rewrite (count_same _ (sys_pd s)) by apply Hu.
      rewrite Hid', <- Hid. pose proof (so_volume s Hok b Hb) as Hvol. specialize (Hv _ Hx).
      rewrite Hph in Hvol. destruct (Nat.ltb_spec (phase_rank (pa_Phase a)) 1); lia.
    + intros x Hx. rewrite Hx in Hn. simpl in Hn. injection Hn as ->. rewrite (count_same _ (sys_pd s)) by apply Hu.
      rewrite Hid', <- Hid. pose proof (so_machine s Hok b Hb) as Hmac. specialize (Hm _ Hx).
      rewrite Hph in Hmac. destruct (Nat.ltb_spec (phase_rank (pa_Phase a)) 3); lia.
Qed.

(** A driver that stops without touching an attempt. *)
Lemma driver_stops s w t pd' r :
  sys_ok s -> sys_threads s !! w = Some t -> same_core (sys_pd s) pd' ->
  sys_ok (mkSys pd' (put_thread w t (RDone r) (sys_threads s))).
Proof.
  intros Hok Ht Hc. destruct (to_row _ _ _ (so_threads s Hok w t Ht)) as (a & b & _ & Hb & _ & _ & Hw & _).
  eapply (driver_update s w t b _ _ pd' (RDone r) Hok Ht Hb Hw); [|apply forward_none|by apply same_core_update|done].
  done.
Qed.

Lemma complete_update now pd a events r pd' :
  CompleteProvisioning now pd a events = (r, pd') ->
  exists p, (forall c, p c = true -> pa_ID c = pa_ID a) /\ phase_update p (fun b => b <| pa_Phase := "complete" |>) pd pd'.
Proof.
  unfold CompleteProvisioning. intros E.
  assert (exists p, (forall c, p c = true -> pa_ID c = pa_ID a) /\
            phase_update p (fun b => b <| pa_Phase := "complete" |>) pd pd) as Hnone.
  { exists (fun _ => false). split; [done|]. split; [|done]. unfold update_attempts. simpl. by rewrite map_id. }
  repeat (case_match; simplify_eq; [exact Hnone|]). simplify_eq.
  eexists. split; [|].
  2: { match goal with |- context [fold_left ?f ?l ?x] => destruct (fold_events_core now (pa_WorkerID a) l x) as [E1 E2] end.
       split; [rewrite E1; reflexivity|rewrite E2; reflexivity]. }
  simpl. intros c Hc. repeat (apply andb_true_iff in Hc as [Hc ?]). by apply eqs_true in Hc.
Qed.

Lemma phase_update_after pd pd1 pd2 a phase volume machine p :
  pd1 = snd (AdvanceProvisioning pd a phase volume machine) ->
  phase_update p (fun b => b <| pa_Phase := "complete" |>) pd1 pd2 ->
  phase_update (fun b => claims a b || p (if claims a b then advanced phase volume machine b else b))
    (fun b => let b' := if claims a b then advanced phase volume machine b else b in
              if p b' then b' <| pa_Phase := "complete" |> else b') pd pd2.
Proof.
  intros -> [E1 E2]. split; [|done]. rewrite E1. simpl. unfold update_attempts. rewrite map_map.
  apply map_ext. intros b. destruct (claims a b) eqn:Ec; simpl; [by destruct (p _)|by destruct (p b) eqn:Ep; rewrite ?Ep].
Qed.

Section RunStep.
Context (p : stepParams) (s : psys) (w : string) (t : thread).
Hypothesis (Hok : sys_ok s) (Ht : sys_threads s !! w = Some t).

Let Hto : thread_ok (sys_pd s) w t := so_threads s Hok w t Ht.

Lemma run_start a pc pd' :
  th_pc t = RStart a -> thread_step p t (sys_pd s) = (pc, pd') ->
  sys_ok (mkSys pd' (put_thread w t pc (sys_threads s))).
Proof.
  intros Hpc E. unfold thread_step in E. rewrite Hpc in E. simpl in E.
  destruct (to_row _ _ _ Hto) as (a' & b & Ha & Hb & Hid & Hph & Hw & Ho).
  assert (a' = a) as -> by (rewrite Hpc in Ha; simpl in Ha; congruence).
  destruct (eqs_spec (pa_Phase a) "planned") as [Hp|Hp].
  { eapply (claim_step s w t a b); try exact E; try done; rewrite ?Hp; try done; try (apply Nat.leb_le; reflexivity); eauto. }
  destruct (eqs_spec (pa_Phase a) "volume_ready") as [Hr|Hr].
  { eapply (claim_step s w t a b); try exact E; try done; rewrite ?Hr; try done; try (apply Nat.leb_le; reflexivity); eauto. }
  injection E as <- <-. apply driver_stops; auto. apply record_event_core.
Qed.

Lemma run_volume_created a volume pc pd' :
  th_pc t = RVolumeCreated a volume -> thread_step p t (sys_pd s) = (pc, pd') ->
  sys_ok (mkSys pd' (put_thread w t pc (sys_threads s))).
Proof.
  intros Hpc E. unfold thread_step in E. rewrite Hpc in E. simpl in E.
  destruct (to_row _ _ _ Hto) as (a' & b & Ha & Hb & Hid & Hph & Hw & Ho).
  assert (a' = a) as -> by (rewrite Hpc in Ha; simpl in Ha; congruence).
  pose proof (to_phase _ _ _ Hto) as Hp. rewrite Hpc in Hp. simpl in Hp.
  eapply (claim_step s w t a b); try exact E; try done; rewrite ?Hp; try done; try (apply Nat.leb_le; reflexivity); eauto.
Qed.

Lemma run_volume_requested a pc pd' :
  th_pc t = RVolumeRequested a -> thread_step p t (sys_pd s) = (pc, pd') ->
  sys_ok (mkSys pd' (put_thread w t pc (sys_threads s))).
Proof.
  intros Hpc E. unfold thread_step in E. rewrite Hpc in E. simpl in E.
  destruct (to_row _ _ _ Hto) as (a' & b & Ha & Hb & Hid & Hph & Hw & Ho).
  assert (a' = a) as -> by (rewrite Hpc in Ha; simpl in Ha; congruence).
  pose proof (to_phase _ _ _ Hto) as Hp. rewrite Hpc in Hp. simpl in Hp.
  pose proof (to_volume _ _ _ Hto a Hpc) as Hzero. rewrite <- Hid in Hzero.
  assert (ActiveProvisioning (sys_pd s) (w_ID (th_worker t)) = Some b) as Hact.
  { rewrite (to_worker _ _ _ Hto), <- Hw. by apply active_row. }
  destruct (@createWorkerVolume _ _ _ (sys_pd s) (th_worker t)) as [r pd1] eqn:Hv in E.
  pose proof (volume_requests _ _ _ _ _ _ _ Hact Hv) as Hone.
  assert (one_request volume_request machine_request (pa_ID b) (sys_pd s) pd') as Hone'.
  { destruct r; injection E as _ <-; [done|]. eapply one_request_core; [done|]. apply record_event_core. }
  eapply (driver_requests volume_request machine_request s w t a b pd' pc); auto.
  - left. split_and!; [done..|]. by rewrite Hph, Hp.
  - intros Hd. destruct r as [volume|]; injection E as <- _; [|done].
    destruct Hone' as (Hat & _). constructor; simpl; try done; [apply Hto|].
    exists a, b. rewrite Hat. auto 8.
Qed.

Lemma run_machine_requested a pc pd' :
  th_pc t = RMachineRequested a -> thread_step p t (sys_pd s) = (pc, pd') ->
  sys_ok (mkSys pd' (put_thread w t pc (sys_threads s))).
Proof.
  intros Hpc E. unfold thread_step in E. rewrite Hpc in E. simpl in E.
  destruct (to_row _ _ _ Hto) as (a' & b & Ha & Hb & Hid & Hph & Hw & Ho).
  assert (a' = a) as -> by (rewrite Hpc in Ha; simpl in Ha; congruence).
  pose proof (to_phase _ _ _ Hto) as Hp. rewrite Hpc in Hp. simpl in Hp.
  pose proof (to_machine _ _ _ Hto a Hpc) as Hzero. rewrite <- Hid in Hzero.
  set (worker' := (th_worker t) <| w_FlyVolumeID := pa_VolumeID a |>) in E.
  assert (ActiveProvisioning (sys_pd s) (w_ID worker') = Some b) as Hact.
  { change (w_ID worker') with (w_ID (th_worker t)). rewrite (to_worker _ _ _ Hto), <- Hw. by apply active_row. }
  destruct (@createWorkerMachine _ _ _ (sys_pd s) worker' _ _ _) as [r pd1] eqn:Hm in E.
  pose proof (machine_requests _ _ _ _ _ _ _ _ _ _ Hact Hm) as Hone.
  assert (one_request machine_request volume_request (pa_ID b) (sys_pd s) pd') as Hone'.
  { destruct r; injection E as _ <-; [done|]. eapply one_request_core; [done|]. apply record_event_core. }
  eapply (driver_requests machine_request volume_request s w t a b pd' pc); auto.
  - right. split_and!; [done..|]. by rewrite Hph, Hp.
  - intros Hd. destruct r as [machine|]; injection E as <- _; [|done].
    destruct Hone' as (Hat & _). constructor; simpl; try done; [apply Hto|].
    exists a, b. rewrite Hat. auto 8.
Qed.
End RunStep.

Lemma finish_update `{Platform} ans pd worker a machine recovered r pd' :
  finishWorkerProvisioning ans pd worker a machine recovered = (r, pd') ->
  exists q, (forall c, q c = true -> pa_ID c = pa_ID a) /\ phase_update q (fun b => b <| pa_Phase := "complete" |>) pd pd'.
Proof.
  unfold finishWorkerProvisioning. intros E. destruct (negb _).
  - destruct (BindProvisioningMachine _ _ _) as [r1 pd1] eqn:Hb. apply bind_core in Hb as [E1 E2].
    assert (pd' = pd1) as -> by (destruct r1; congruence).
    exists (fun _ => false). split; [done|]. split; [|done]. rewrite E1. unfold update_attempts. simpl. by rewrite map_id.
  - destruct (CompleteProvisioning _ _ _ _) as [r1 pd1] eqn:Hc. apply complete_update in Hc.
    assert (pd' = pd1) as -> by (destruct r1; congruence). done.
Qed.

Lemma finishing_forward a machine q :
  pa_Phase a = "machine_requested" ->
  forward (fun b => claims a b || q (if claims a b then advanced "machine_ready" "" machine b else b))
    (fun b => let b' := if claims a b then advanced "machine_ready" "" machine b else b in
              if q b' then b' <| pa_Phase := "complete" |> else b').
Proof.
  intros Hp. constructor; intros b; [by simpl; repeat case_match|by simpl; repeat case_match|intros Hb..].
  - destruct (claims a b) eqn:Ec; simpl in *.
    + apply andb_true_iff in Ec as [_ Ec]. apply eqs_true in Ec. rewrite Ec, Hp.
      destruct (q _); apply Nat.leb_le; reflexivity.
    + rewrite Hb in *. apply (phase_rank_max (pa_Phase b)).
  - destruct (claims a b) eqn:Ec; simpl in *.
    + apply andb_true_iff in Ec as [_ Ec]. apply eqs_true in Ec. by rewrite Ec, Hp.
    + rewrite Hb. done.
  - destruct (claims a b) eqn:Ec; simpl in *.
    + destruct (q _); [done|]. intros _. apply Nat.leb_le; reflexivity.
    + rewrite Hb. done.
Qed.

Lemma run_machine_created p s w t a machine pc pd' :
  sys_ok s -> sys_threads s !! w = Some t ->
  th_pc t = RMachineCreated a machine -> thread_step p t (sys_pd s) = (pc, pd') ->
  sys_ok (mkSys pd' (put_thread w t pc (sys_threads s))).
Proof.
  intros Hok Ht Hpc E. pose proof (so_threads s Hok w t Ht) as Hto.
  unfold thread_step in E. rewrite Hpc in E. simpl in E.
  destruct (to_row _ _ _ Hto) as (a' & b & Ha & Hb & Hid & Hph & Hw & Ho).
  assert (a' = a) as -> by (rewrite Hpc in Ha; simpl in Ha; congruence).
  pose proof (to_phase _ _ _ Hto) as Hp. rewrite Hpc in Hp. simpl in Hp.
  pose proof (advance_update (sys_pd s) a "machine_ready" "" (fm_ID machine)) as Hu. simpl in Hu.
  set (pd1 := (sys_pd s) <| pd_attempts ::= _ |>) in E, Hu. destruct (existsb _ _).
  - destruct (finishWorkerProvisioning _ pd1 _ _ _ _) as [r pd2] eqn:Hf. injection E as <- <-.
    apply finish_update in Hf as (q & Hq & Hup).
    apply (phase_update_after (sys_pd s) pd1 _ a "machine_ready" "" (fm_ID machine)) in Hup; [|done].
    eapply (driver_update s w t b _ _ pd2 (RDone r) Hok Ht Hb Hw); [|by apply finishing_forward|exact Hup|done].
    intros c Hc. cbv beta in Hc. destruct (claims a c) eqn:Ec; [apply claims_id in Ec; congruence|].
    simpl in Hc. apply Hq in Hc. simpl in Hc. congruence.
  - injection E as <- <-. eapply (driver_update s w t b _ _ pd1 _ Hok Ht Hb Hw); [| |exact Hu|done].
    + intros c Hc. apply claims_id in Hc. congruence.
    + apply advance_forward; rewrite ?Hp; [apply Nat.leb_le; reflexivity|apply Nat.leb_le; reflexivity|done].
Qed.

Lemma begin_ok s a :
  sys_ok s -> sys_threads s !! pa_WorkerID a = None ->
  sys_ok (mkSys (snd (BeginProvisioning (sys_pd s) a)) (sys_threads s)).
Proof.
  intros Hok Hidle.
  assert (snd (BeginProvisioning (sys_pd s) a) = insert_attempt (sys_pd s) a) as ->.
  { unfold BeginProvisioning. repeat case_match; done. }
  unfold insert_attempt. destruct (insertable (sys_pd s) a) eqn:Hi; [|by destruct s].
  unfold insertable in Hi. apply andb_true_iff in Hi as [Hi Hopen]. apply andb_true_iff in Hi as [_ Hid].
  set (row := a <| pa_Phase := "planned" |> <| pa_VolumeID := "" |> <| pa_MachineID := "" |>).
  assert (~ In (pa_ID a) (map pa_ID (pd_attempts (sys_pd s)))) as Hnew.
  { intros Hin. apply in_map_iff in Hin as (b & Eb & Hb). apply negb_true_iff in Hid.
    apply not_true_iff_false in Hid. apply Hid, existsb_exists. exists b. split; [done|]. by apply eqs_true. }
  assert (forall b, In b (pd_attempts (sys_pd s)) -> open_phase (pa_Phase b) = true -> pa_WorkerID b = pa_WorkerID a -> False) as Hno.
  { intros b Hb Ob Eb. apply negb_true_iff, not_true_iff_false in Hopen. apply Hopen, existsb_exists.
    exists b. split; [done|]. rewrite Eb, eqs_refl. done. }
  destruct (so_fresh s Hok _ Hnew) as [Hz1 Hz2]. destruct Hok as [Hids Hop Hknown Hfresh Hvol Hmach Hth].
  constructor; simpl.
  - rewrite map_app. apply NoDup_app. split_and!; [done| |apply NoDup_singleton].
    intros x Hx Hs. apply list_elem_of_singleton in Hs. subst. by apply list_elem_of_In in Hx.
  - intros x y Hx Hy Ox Oy Hw. rewrite in_app_iff in Hx, Hy. simpl in Hx, Hy.
    destruct Hx as [Hx|[<-|[]]], Hy as [Hy|[<-|[]]]; auto; exfalso; eauto.
  - intros b Hb Ob. apply in_app_iff in Hb as [Hb|[<-|[]]]; [auto|]. apply Nat.leb_le; reflexivity.
  - intros id Hx. rewrite map_app, in_app_iff in Hx. apply Hfresh. tauto.
  - intros b Hb. apply in_app_iff in Hb as [Hb|[<-|[]]]; [by apply Hvol|].
    etransitivity; [apply (Nat.eq_le_incl _ _ Hz1)|lia].
  - intros b Hb. apply in_app_iff in Hb as [Hb|[<-|[]]]; [by apply Hmach|].
    etransitivity; [apply (Nat.eq_le_incl _ _ Hz2)|lia].
  - intros w t Ht. destruct (Hth w t Ht) as [Hwk Hp (x & b & Hx & Hb & Hrest) Hv Hm].
    constructor; auto. exists x, b. split_and!; [done| |apply Hrest..]. simpl. apply in_app_iff. by left.
Qed.

Lemma prov_step_ok s s' : sys_ok s -> prov_step s s' -> sys_ok s'.
Proof.
  intros Hok Hstep. destruct Hstep as
    [s pd' Ha Hr|s a Hi|s worker cfg rec a Hi Hact|s p w t pc pd' Ht E|s w|s|s a phase v m Hi Hact Hphase
    |s now a events b Hi Hb Hid Hw|s now a event b Hi Hb Hid Hw].
  - apply (update_ok (fun _ => false) id s); auto using forward_none; [by apply same_core_update|].
    intros w t Ht. apply (thread_frame (fun _ => false) id (sys_pd s)); auto; [by apply (so_threads s Hok)|].
    by apply same_core_update.
  - by apply begin_ok.
  - apply (update_ok (fun _ => false) id s); auto using forward_none; [by apply same_core_update|].
    intros w t Ht. apply lookup_insert_Some in Ht as [[<- <-]|[_ Ht]]; [|by apply (so_threads s Hok)].
    apply active_In in Hact as (Ha & Hw & Ho). constructor; simpl; try done. exists a, a. auto 8.
  - destruct (th_pc t) eqn:Hpc.
    + by apply (run_start p s w t Hok Ht a).
    + by apply (run_volume_requested p s w t Hok Ht a).
    + by apply (run_volume_created p s w t Hok Ht a volume).
    + by apply (run_machine_requested p s w t Hok Ht a).
    + by apply (run_machine_created p s w t a machine).
    + pose proof (to_phase _ _ _ (so_threads s Hok w t Ht)) as Hf. by rewrite Hpc in Hf.
  - apply (update_ok (fun _ => false) id s); auto using forward_none; [by apply same_core_update|].
    intros w' t Ht. apply lookup_delete_Some in Ht as [_ Ht]. by apply (so_threads s Hok).
  - apply (update_ok (fun _ => false) id s); auto using forward_none; [by apply same_core_update|].
    intros w' t Ht. by rewrite lookup_empty in Ht.
  - apply active_In in Hact as (Ha & _ & Ho).
    eapply (idle_update s (pa_WorkerID a) a); auto; [apply claims_id| |apply advance_update].
    pose proof (so_known s Hok a Ha Ho) as Hk.
    apply advance_forward; [|by destruct Hphase as [->|[-> _]]; apply Nat.leb_le|done].
    destruct Hphase as [->|[-> Hp]]; [done|]. rewrite Hp. by apply Nat.leb_le.
  - destruct (CompleteProvisioning _ _ _ _) as [r pd'] eqn:E. apply complete_update in E as (q & Hq & Hup).
    eapply (idle_update s (pa_WorkerID a) b q); [done..| | |exact Hup]; [|by apply closing_forward].
    intros c Hc. apply Hq in Hc. congruence.
  - unfold AbandonProvisioning. destruct (existsb _ _); simpl; [|by destruct s].
    eapply (idle_update s (pa_WorkerID a) b (claims a)); auto; [| |by split].
    + intros c Hc. apply claims_id in Hc. congruence.
    + by apply closing_forward.
Qed.

Lemma reachable_ok s : prov_reachable s -> sys_ok s.
Proof.
  induction 1 as [pd Ha Hr|s s' _ IH Hstep]; [|by eapply prov_step_ok].
  constructor; simpl; rewrite ?Ha; try done; [apply NoDup_nil_2|].
  intros id _. unfold count_requests. by rewrite Hr.
Qed.

(** C4: across any interleaving of drivers, crashes at any point, restarts,
    recoveries and teardowns, an attempt asks the platform for a volume at
    most once, not counting requests the platform refused, and for a machine
    at most once. *)
Theorem one_creation_per_attempt (s : psys) (id : string) (Hreach : prov_reachable s) :
  count_requests (volume_request id) (sys_pd s) <= 1 /\ count_requests (machine_request id) (sys_pd s) <= 1.
Proof.
  apply reachable_ok in Hreach. destruct (in_dec String.string_dec id (map pa_ID (pd_attempts (sys_pd s)))) as [Hin|Hout].
  - apply in_map_iff in Hin as (b & <- & Hb).
    pose proof (so_volume s Hreach b Hb). pose proof (so_machine s Hreach b Hb).
    destruct (_ <? 1), (_ <? 3); lia.
  - destruct (so_fresh s Hreach id Hout) as [-> ->]. lia.
Qed.

(** * The driver terminates *)

Definition pc_measure (pc : resumePoint) : nat :=
  match pc with
  | RStart a => if pa_Phase a =s "planned" then 6 else if pa_Phase a =s "volume_ready" then 3 else 1
  | RVolumeRequested _ => 5
  | RVolumeCreated _ _ => 4
  | RMachineRequested _ => 2
  | RMachineCreated _ _ => 1
  | RDone _ => 0
  end.

Section Termination.
Context `{Platform}.
Variables (ans : answers) (volumeName : string -> string) (retriable : flyError -> bool).

Lemma step_decreases worker cfg recovered pc pd :
  pc_measure (fst (resume_step ans volumeName retriable worker cfg recovered pc pd)) <= pred (pc_measure pc).
Proof.
  destruct pc as [a|a|a v|a|a m|r]; simpl.
  - destruct (pa_Phase a =s "planned"); [|destruct (pa_Phase a =s "volume_ready")];
      unfold claim_phase; simpl; try destruct (existsb _ _); simpl; lia.
  - destruct (createWorkerVolume _ _ _ _) as [[] ?]; simpl; lia.
  - unfold claim_phase; simpl. destruct (existsb _ _); simpl; lia.
  - destruct (createWorkerMachine _ _ _ _ _ _ _) as [[] ?]; simpl; lia.
  - destruct (existsb _ _); simpl; [|lia]. destruct (finishWorkerProvisioning _ _ _ _ _ _). simpl. lia.
  - lia.
Qed.

Lemma run_decreases fuel worker cfg recovered pc pd :
  pc_measure (fst (resume_run ans volumeName retriable fuel worker cfg recovered pc pd)) <= pc_measure pc - fuel.
Proof.
  revert pc pd. induction fuel as [|fuel IH]; intros pc pd; simpl; [lia|].
  pose proof (step_decreases worker cfg recovered pc pd) as Hd.
  destruct (resume_step _ _ _ _ _ _ _ _) as [pc' pd']. simpl in Hd. etransitivity; [apply IH|]. lia.
Qed.

(** A driver ends with a worker or an error within six steps, whatever
    the attempt's phase and whatever the platform answers. *)
Theorem driver_terminates worker a cfg recovered pd :
  exists r, fst (resumeWorkerProvisioning ans volumeName retriable pd worker a cfg recovered) = RDone r.
Proof.
  unfold resumeWorkerProvisioning.
  pose proof (run_decreases 6 worker cfg recovered (RStart a) pd) as Hd.
  assert (pc_measure (RStart a) <= 6) as Hm by (simpl; repeat case_match; lia).
  destruct (fst _) as [b|b|b v|b|b m|r]; [..|eauto]; exfalso; simpl in Hd; repeat case_match; lia.
Qed.
End Termination.

(** * Recovery does not create again *)

Section NoRecreate.
Context `{Platform}.
Variables (ans : answers) (volumeName : string -> string) (retriable : flyError -> bool) (meteringEnv : string).

Lemma unavailable_requests {A} pd worker a message cause :
  pd_requests (snd (unavailable (A := A) ans pd worker a message cause)) = pd_requests pd.
Proof. done. Qed.

Lemma finish_requests pd worker a machine recovered :
  pd_requests (snd (finishWorkerProvisioning ans pd worker a machine recovered)) = pd_requests pd.
Proof.
  destruct (finishWorkerProvisioning _ _ _ _ _ _) as [r pd'] eqn:E. apply finish_update in E as (q & _ & _ & E). exact E.
Qed.

Lemma adopt_requests pd worker a machine volumes recovered :
  pd_requests (snd (adoptAttemptMachine ans pd worker a machine volumes recovered)) = pd_requests pd.
Proof.
  unfold adoptAttemptMachine. destruct (mountedProvisioningVolume machine volumes) as [volume|]; [|done].
  destruct (_ || _); [done|]. destruct (pd_expected pd !! w_ID worker) as [expected|]; [|done].
  destruct (_ || _); [done|].
  destruct (ExpectProvisioningRun _ _ _) as [[] pd1] eqn:E1; apply expect_core in E1 as [_ E1]; [|done].
  unfold advanceProvisioning. simpl. destruct (existsb _ _); [|done]. simpl.
  match goal with |- context [finishWorkerProvisioning ?x ?y ?z ?u ?v ?w] =>
    pose proof (finish_requests y z u v w) as Hf; destruct (finishWorkerProvisioning x y z u v w) as [[] ?] end;
  simpl in *; congruence.
Qed.

Lemma observe_core pd worker a report volumes :
  same_core pd (observeVolumes ans volumeName pd worker a report volumes).
Proof.
  unfold observeVolumes. revert pd. induction volumes as [|v l IH]; intros pd; [done|]. rewrite fold_left_cons.
  etransitivity; [|apply IH]. destruct (_ || _); [apply record_event_core|done].
Qed.

(** The attempts a creation request has been recorded for. *)
Definition already_requested (a : ProvisioningAttempt) (volumes : list Volume) : Prop :=
  (pa_Phase a = "volume_requested" /\ List.filter (fun v => fv_Name v =s pa_VolumeName a) volumes = []) \/
  pa_Phase a = "machine_requested" \/ pa_Phase a = "machine_ready".

Lemma requested_stays a volumes volume :
  already_requested a volumes -> List.filter (fun v => fv_Name v =s pa_VolumeName a) volumes = [volume] ->
  (pa_Phase a =s "volume_requested") = false.
Proof. intros [[_ E]|[E|E]] Hf; [congruence|by rewrite E..]. Qed.

Lemma resume_refuses pd worker a cfg recovered volumes :
  already_requested a volumes ->
  pd_requests (snd (resumeWorkerProvisioning ans volumeName retriable pd worker a cfg recovered)) = pd_requests pd.
Proof. intros Ha. unfold resumeWorkerProvisioning. simpl. destruct Ha as [[-> _]|[->| ->]]; done. Qed.

Lemma recover_attempt_requests pd worker a image machines volumes recovered :
  already_requested a volumes ->
  pd_requests (snd (recoverAttempt ans volumeName retriable pd worker a image machines volumes recovered)) = pd_requests pd.
Proof.
  intros Ha. unfold recoverAttempt. destruct (_ || _); [done|].
  destruct (List.filter _ volumes) as [|v [|]] eqn:Hf; [| |done].
  - destruct (attemptMachines worker a machines) as [[|machine [|]]|]; [|apply adopt_requests|done..].
    destruct (_ && _); [done|].
    pose proof (resume_refuses pd worker a (resolveWorkerWorkload worker) true volumes Ha) as Hr.
    by destruct (resumeWorkerProvisioning _ _ _ _ _ _ _ _).
  - destruct (_ || _); [done|]. rewrite (requested_stays a volumes v Ha Hf).
    destruct (attemptMachines worker a machines) as [[|machine [|]]|]; [|apply adopt_requests|done..].
    rewrite andb_false_r. destruct (negb _); [done|].
    pose proof (resume_refuses pd worker a (resolveWorkerWorkload worker) true volumes Ha) as Hr.
    by destruct (resumeWorkerProvisioning _ _ _ _ _ _ _ _).
Qed.

(** Recovery never asks for a resource it may already own: for an attempt
    whose machine was requested, or whose volume was requested and is not
    visible under its name, it adopts what it finds or reports, and makes no
    creation request. *)
Theorem recovery_never_recreates pd workerID image a volumes
    (Hact : ActiveProvisioning pd workerID = Some a) (Hvols : an_volumes ans = Ok volumes)
    (Ha : already_requested a volumes) :
  pd_requests (snd (recoverPendingWorker ans volumeName retriable meteringEnv pd workerID image)) = pd_requests pd.
Proof.
  unfold recoverPendingWorker. destruct (GetWorker _ _) as [worker|]; [|done]. rewrite Hact, Hvols.
  destruct (_ || _); [done|]. destruct (_ && _); [done|]. destruct (checkRCGateProvisioning _ _ _ _ _ _ _); [|done].
  destruct (an_machines ans); [|done]. rewrite recover_attempt_requests by done.
  destruct (observe_core (if negb (pa_Phase a =s "machine_ready") then recordProvisioning ans pd worker
    (default (legacyReport workerID) (Some a)) "worker_provisioning_interrupted"
    "Pending provisioning requires reconciliation after an incomplete attempt" else pd)
    worker (Some a) (default (legacyReport workerID) (Some a)) volumes) as [_ ->].
  by destruct (negb _).
Qed.
End NoRecreate.

(** * Examples *)

Definition examplePlatform : Platform := {|
  eventDetails := fun _ _ _ => "{}";
  volumeDetails := fun _ _ _ _ => "{}";
  workerEnv := fun _ _ => ∅;
  workloadProfile := fun _ => Some "{}";
  sha256hex := fun s => s;
  normalizeWorkloadConfig := fun c => c;
  resolveWorkerWorkload := fun _ => Config_zero;
  resolveWorkerVolumeSize := fun _ => 10%Z
|}.
Definition ex_volume : Volume := mkVolume "vol1" "soak_u1" "created" 10 "ord" "" "".
Definition ex_machine : Machine := mkMachine "m1" "w1" "started" "ord" "img" ∅ [mkMount "vol1" "/data"] 0.
Definition ex_answers : answers :=
  mkAnswers (Ok ex_volume) (Ok ex_volume) (Ok ex_machine) [] (Ok []) (Ok []) (Err (APIError 404)) "u1" Second.
Definition ex_params : stepParams := mkParams examplePlatform ex_answers (fun s => s) (fun _ => false).
Definition ex_worker : Worker :=
  Worker_zero <| w_ID := "w1" |> <| w_Name := "w1" |> <| w_GitSHA := "g" |> <| w_LitestreamSHA := "l" |> <| w_Region := "ord" |>.
Definition ex_attempt : ProvisioningAttempt := mkAttempt 0 "" 10 "u1" "w1" "img" "g" "l" "planned" "soak_u1" "" "".
Definition ex_pd : provDB :=
  mkProvDB (emptyDB <| db_workers := [ex_worker] |>) [] ∅ emptyTable [].

(** A driver that asks for the volume and crashes before saving the answer,
    a recovery that adopts the volume, and a second driver to the end. *)
Definition ex_begun : psys := mkSys (snd (BeginProvisioning ex_pd ex_attempt)) ∅.
Definition ex_thread (a : ProvisioningAttempt) : thread := mkThread ex_worker Config_zero true (RStart a).
Definition run_thread (s : psys) : psys :=
  match sys_threads s !! "w1" with
  | Some t => let '(pc, pd') := thread_step ex_params t (sys_pd s) in mkSys pd' (put_thread "w1" t pc (sys_threads s))
  | None => s
  end.
Definition ex_spawned : psys := mkSys (sys_pd ex_begun) (<["w1" := ex_thread ex_attempt]> ∅).
Definition ex_created : psys := run_thread (run_thread ex_spawned).
Definition ex_crashed : psys := mkSys (sys_pd ex_created) ∅.
Definition ex_requested : ProvisioningAttempt := ex_attempt <| pa_Phase := "volume_requested" |>.
Definition ex_adopted : psys :=
  mkSys (snd (AdvanceProvisioning (sys_pd ex_crashed) ex_requested "volume_ready" "vol1" "")) ∅.
Definition ex_ready : ProvisioningAttempt := ex_attempt <| pa_Phase := "volume_ready" |> <| pa_VolumeID := "vol1" |>.
Definition ex_resumed : psys := mkSys (sys_pd ex_adopted) (<["w1" := ex_thread ex_ready]> ∅).
Definition ex_finished : psys := run_thread (run_thread (run_thread ex_resumed)).

Lemma run_thread_step s : (exists t, sys_threads s !! "w1" = Some t) -> prov_reachable s -> prov_reachable (run_thread s).
Proof.
  intros [t Ht] Hr. unfold run_thread. rewrite Ht. destruct (thread_step ex_params t (sys_pd s)) as [pc pd'] eqn:E.
  by eapply pr_step, ps_run.
Qed.

Lemma ex_finished_reachable : prov_reachable ex_finished.
Proof.
  repeat (apply run_thread_step; [vm_compute; by eexists|]).
  apply (pr_step ex_adopted); [|by apply (ps_spawn ex_adopted ex_worker Config_zero true ex_ready)].
  apply (pr_step ex_crashed); [|apply (ps_adopt ex_crashed ex_requested); vm_compute; auto].
  apply (pr_step ex_created); [|apply (ps_restart ex_created)].
  repeat (apply run_thread_step; [vm_compute; by eexists|]).
  apply (pr_step ex_begun); [|by apply (ps_spawn ex_begun ex_worker Config_zero true ex_attempt)].
  apply (pr_step (mkSys ex_pd ∅)); [by apply pr_init|by apply (ps_begin (mkSys ex_pd ∅) ex_attempt)].
Qed.

(** The crash cost nothing: one volume, one machine, and the worker starting
    on them. *)
Lemma one_creation_per_attempt_witness :
  prov_reachable ex_finished /\
  (count_requests (volume_request "u1") (sys_pd ex_finished) <= 1 /\
   count_requests (machine_request "u1") (sys_pd ex_finished) <= 1) /\
  map (fun w => (w_Status w, w_FlyMachineID w, w_FlyVolumeID w)) (pd_workers (sys_pd ex_finished)) =
    [(WorkerStarting, "m1", "vol1")] /\ map pa_Phase (pd_attempts (sys_pd ex_finished)) = ["complete"].
Proof.
  split; [apply ex_finished_reachable|]. split; [|vm_compute; split; reflexivity].
  apply (one_creation_per_attempt ex_finished "u1"). apply ex_finished_reachable.
Defined.

Definition ex_interrupted : provDB := sys_pd ex_crashed.
Lemma recovery_never_recreates_witness :
  pd_requests (snd (recoverPendingWorker (H := examplePlatform) ex_answers (fun s => s) (fun _ => false) ""
    ex_interrupted "w1" "img")) = pd_requests ex_interrupted.
Proof.
  apply (recovery_never_recreates (H := examplePlatform) ex_answers (fun s => s) (fun _ => false) ""
    ex_interrupted "w1" "img" ex_requested []).
  - vm_compute; reflexivity.
  - reflexivity.
  - left. split; reflexivity.
Defined.
