(* ===== verification/WorkerManager.v ===== *)
(** The control plane's operations on a worker's compute and storage: stopping,
    destroying and pausing ([orchestrator/manager.go], [dormancy.go]), evidence
    holds ([evidence_hold.go]), expiry ([expiry.go]) and the teardown of a
    source ([lifecycle.go], [archiveAndDestroySourceWorkers]).

    The platform's answers are a parameter ([cleanup]); every request made of
    it is recorded with the worker it was made for.  An operation holds the
    worker's lock, so it is one step here.  Failures of the database other
    than a missing row are not modelled, and neither are metrics and alerts. *)
From S2P Require Import Prelude GoStrings Model GateFleet GateStore SoakDB GateVerdict WorkerStore Provisioning.

(** * The platform *)

Inductive cleanupCall := StopMachine (id : string) | DestroyMachine (id : string) | DestroyVolume (id : string) | DeletePrefix (prefix : string).
Definition destructive (c : cleanupCall) : bool := match c with StopMachine _ => false | _ => true end.

(** Answers: [None] is success. *)
Record cleanup := mkCleanup {
  cl_configured : bool;                      (** the Fly client is there *)
  cl_stop : string -> option flyError;
  cl_machine : string -> option flyError;
  cl_volume : string -> option flyError;
  cl_machines : result flyError (list Machine);
  cl_volumes : result flyError (list Volume);
  cl_prefix : string -> result string Z;     (** objects deleted under a replica prefix *)
  cl_bucket : string;
  cl_now : time
}.

Record manager := mkManager { mg_pd : provDB; mg_calls : list (string * cleanupCall) }.
#[export] Instance manager_eta : Settable manager := fun r => mkManager (mg_pd r) (mg_calls r).
Definition mg_workers (m : manager) : list Worker := pd_workers (mg_pd m).

Inductive cleanupFailure :=
| FlyUnavailable (resource : string)
| CleanupFailed (resource id : string) (e : flyError)
| ReplicaFailed (e : string)
| ProvisioningFailed (e : provError).

Inductive managerError :=
| ErrNoWorker
| ErrWorkerEvidenceHeld (name : string)
| ErrCleanup (failures : list cleanupFailure)
| ErrReasonRequired.

Section Manager.
Context `{Decoders} `{Platform}.
Variable cl : cleanup.

Definition call (worker : string) (c : cleanupCall) (m : manager) : manager :=
  m <| mg_calls ::= (fun l => l ++ [(worker, c)]) |>.
Definition on_db (f : soakDB -> soakDB) (m : manager) : manager :=
  m <| mg_pd ::= (fun pd => pd <| pd_db ::= f |>) |>.
Definition on_workers (f : list Worker -> list Worker) : manager -> manager :=
  on_db (fun db => db <| db_workers ::= f |>).
Definition event (worker kind message details : string) : manager -> manager :=
  on_db (RecordEvent (cl_now cl) worker kind message details).
Definition load (m : manager) (id : string) : result managerError Worker :=
  match GetWorker (mg_workers m) id with Ok w => Ok w | Err _ => Err ErrNoWorker end.

Definition valueOrUnknown (v : string) : string := if TrimSpace v =s "" then "unknown" else v.
Definition workerReplicaURL (w : Worker) : string :=
  let bucket := TrimSpace (cl_bucket cl) in
  if bucket =s "" then "" else "s3://" +:+ bucket +:+ "/" +:+ Trim (workerReplicaPath w) "/" +:+ "/".

(** * Stopping and destroying *)

Definition stopWorker (m : manager) (id : string) : result managerError () * manager :=
  match load m id with
  | Err e => (Err e, m)
  | Ok w =>
      let m := if negb (w_FlyMachineID w =s "") then call id (StopMachine (w_FlyMachineID w)) m else m in
      let m := on_workers (UpdateWorkerStatus (cl_now cl) id WorkerStopped "") m in
      (Ok (), event id "worker_stopped" ("Worker " +:+ w_Name w +:+ " stopped") "" m)
  end.

(** A held worker keeps its machine, volume and replica: it is only stopped. *)
Definition retainHeldWorker (m : manager) (w : Worker) : result managerError () * manager :=
  let m := if negb (w_FlyMachineID w =s "") && cl_configured cl
           then call (w_ID w) (StopMachine (w_FlyMachineID w)) m else m in
  let m := if negb (status_in [WorkerStopped] w)
           then on_workers (UpdateWorkerStatus (cl_now cl) (w_ID w) WorkerStopped "") m else m in
  let message := "Evidence hold retained machine " +:+ valueOrUnknown (w_FlyMachineID w) +:+ ", volume " +:+
    valueOrUnknown (w_FlyVolumeID w) +:+ " and replica prefix " +:+ valueOrUnknown (workerReplicaURL w) +:+
    " for " +:+ w_Name w +:+ "; destroy skipped" in
  (Err (ErrWorkerEvidenceHeld (w_Name w)), event (w_ID w) "evidence_hold_retained" message (w_EvidenceHoldReason w) m).

(** One destroy request: not found is success. *)
Definition refused (answer : option flyError) : option flyError :=
  match answer with Some e => if IsNotFound e then None else Some e | None => None end.

Definition destroyOne (resource id : string) (c : cleanupCall) (answer : option flyError) (worker : string)
    (m : manager) : list cleanupFailure * manager :=
  if id =s "" then ([], m)
  else if negb (cl_configured cl) then ([FlyUnavailable resource], m)
  else (match refused answer with Some e => [CleanupFailed resource id e] | None => [] end, call worker c m).

Definition destroyProvisioningResources (m : manager) (w : Worker)
  : result (list cleanupFailure) (option ProvisioningAttempt) * manager :=
  match ActiveProvisioning (mg_pd m) (w_ID w) with
  | None => (Ok None, m)
  | Some a =>
      if negb (cl_configured cl) then (Err [FlyUnavailable "provisioning inventory"], m)
      else match cl_machines cl, cl_volumes cl with
      | Err e, _ => (Err [CleanupFailed "machine inventory" "" e], m)
      | _, Err e => (Err [CleanupFailed "volume inventory" "" e], m)
      | Ok machines, Ok volumes =>
          let machines := List.filter (fun x => negb (fm_State x =s "destroyed") &&
            ((env_get (fm_Env x) "SOAK_RUN_ID" =s pa_ID a) ||
             (negb (pa_MachineID a =s "") && (fm_ID x =s pa_MachineID a)))) machines in
          let volumes := List.filter (fun v => negb (retiringProvisioningVolume v) && negb (fv_State v =s "destroyed") &&
            ((fv_Name v =s pa_VolumeName a) ||
             (negb (pa_VolumeID a =s "") && (fv_ID v =s pa_VolumeID a)))) volumes in
          let m := fold_left (fun m x => call (w_ID w) (DestroyMachine (fm_ID x)) m) machines m in
          let m := fold_left (fun m v => call (w_ID w) (DestroyVolume (fv_ID v)) m) volumes m in
          let failures :=
            omap (fun x => match refused (cl_machine cl (fm_ID x)) with
                           | Some e => Some (CleanupFailed "attempt machine" (fm_ID x) e) | None => None end) machines ++
            omap (fun v => match refused (cl_volume cl (fv_ID v)) with
                           | Some e => Some (CleanupFailed "attempt volume" (fv_ID v) e) | None => None end) volumes in
          (match failures with [] => Ok (Some a) | _ => Err failures end, m)
      end
  end.

(** [workload/replica_backend.go] *)
Definition NormalizeReplicaBackend (backend : string) : string :=
  let backend := ToLower (TrimSpace backend) in if backend =s "" then "tigris" else backend.
Definition UsesTigrisReplica (c : Config) : bool := NormalizeReplicaBackend (c_ReplicaBackend c) =s "tigris".

Definition clearWorkerReplicaPrefix (m : manager) (w : Worker) : option string * manager :=
  let bucket := TrimSpace (cl_bucket cl) in
  if bucket =s "" then (None, m)
  else if match ParseConfig (w_ProfileConfig w) with Some cfg => negb (UsesTigrisReplica cfg) | None => false end
  then (None, m)
  else if TrimSpace (w_Name w) =s "" then (Some "worker name is required for replica cleanup", m)
  else
    let prefix := Trim (workerReplicaPath w) "/" in
    if prefix =s "" then (Some "worker replica prefix is empty", m)
    else
      let m := call (w_ID w) (DeletePrefix prefix) m in
      match cl_prefix cl prefix with
      | Err e => (Some e, m)
      | Ok deleted =>
          (None, event (w_ID w) "replica_prefix_cleared"
             ("Cleared " +:+ pretty deleted +:+ " object(s) from replica prefix s3://" +:+ bucket +:+ "/" +:+
              prefix +:+ "/") "" m)
      end.

Definition abandonProvisioning (m : manager) (w : Worker) (a : ProvisioningAttempt) : list cleanupFailure * manager :=
  let '(r, pd) := AbandonProvisioning (cl_now cl) (mg_pd m) a
    (Event_zero <| e_WorkerID := w_ID w |> <| e_EventType := "worker_provisioning_abandoned" |>
       <| e_Message := "Provisioning attempt closed after teardown confirmed no owned resources remain" |>
       <| e_Details := eventDetails w a None |>) in
  (match r with Ok _ => [] | Err e => [ProvisioningFailed e] end, m <| mg_pd := pd |>).

(** The text of joined errors is not modelled. *)
Variable joined : list cleanupFailure -> string.

Definition destroyWorker (m : manager) (id : string) : result managerError () * manager :=
  match load m id with
  | Err e => (Err e, m)
  | Ok w =>
      if EvidenceHeld w then retainHeldWorker m w
      else
        let '(e1, m) := destroyOne "machine" (w_FlyMachineID w) (DestroyMachine (w_FlyMachineID w))
                          (cl_machine cl (w_FlyMachineID w)) id m in
        let '(e2, m) := destroyOne "volume" (w_FlyVolumeID w) (DestroyVolume (w_FlyVolumeID w))
                          (cl_volume cl (w_FlyVolumeID w)) id m in
        let '(attempt, m) := destroyProvisioningResources m w in
        let e3 := match attempt with Err es => es | Ok _ => [] end in
        let '(replica, m) := clearWorkerReplicaPrefix m w in
        let e4 := match replica with Some e => [ReplicaFailed e] | None => [] end in
        let '(e5, m) :=
          match attempt, e1 ++ e2 ++ e3 ++ e4 with
          | Ok (Some a), [] => abandonProvisioning m w a
          | _, _ => ([], m)
          end in
        match e1 ++ e2 ++ e3 ++ e4 ++ e5 with
        | [] =>
            let m := on_workers (UpdateWorkerStatus (cl_now cl) id WorkerStopped "") m in
            (Ok (), event id "worker_destroyed" ("Worker " +:+ w_Name w +:+ " destroyed") "" m)
        | failures =>
            let m := on_workers (UpdateWorkerStatus (cl_now cl) id (w_Status w)
                       ("worker cleanup incomplete: " +:+ joined failures)) m in
            (Err (ErrCleanup failures), event id "worker_destroy_failed" "Worker cleanup incomplete" (joined failures) m)
        end
  end.

(** * Evidence holds *)

Record holdResponse := mkHoldResponse {
  hr_worker : Worker;          (** the row the response shows *)
  hr_Held : bool;
  hr_AlreadyHeld : bool;
  hr_Released : bool;
  hr_Destroyed : bool;
  hr_DestroyError : option managerError
}.

Definition HoldWorkerEvidence (m : manager) (id reason : string) : result managerError holdResponse * manager :=
  let reason := TrimSpace reason in
  if reason =s "" then (Err ErrReasonRequired, m)
  else match load m id with
  | Err e => (Err e, m)
  | Ok w =>
      if EvidenceHeld w then (Ok (mkHoldResponse w true true false false None), m)
      else
        let m := on_workers (SetWorkerEvidenceHold (cl_now cl) id reason) m in
        match load m id with
        | Err e => (Err e, m)
        | Ok w =>
            let message := "Evidence hold applied to " +:+ w_Name w +:+ "; machine " +:+
              valueOrUnknown (w_FlyMachineID w) +:+ ", volume " +:+ valueOrUnknown (w_FlyVolumeID w) +:+
              " and replica prefix " +:+ valueOrUnknown (workerReplicaURL w) +:+ " are retained until released" in
            (Ok (mkHoldResponse w (EvidenceHeld w) false false false None),
             event id "evidence_hold_applied" message reason m)
        end
  end.

Definition ReleaseWorkerEvidenceHold (m : manager) (id : string) (destroy : bool)
  : result managerError holdResponse * manager :=
  match load m id with
  | Err e => (Err e, m)
  | Ok w =>
      let released := EvidenceHeld w in
      let m := if released
               then event id "evidence_hold_released"
                      ("Evidence hold released for " +:+ w_Name w +:+ "; normal cleanup paths apply again")
                      (w_EvidenceHoldReason w) (on_workers (ClearWorkerEvidenceHold (cl_now cl) id) m)
               else m in
      if destroy then
        match destroyWorker m id with
        | (Ok _, m) => (Ok (mkHoldResponse (w <| w_Status := WorkerStopped |>) false false released true None), m)
        | (Err e, m) => (Ok (mkHoldResponse w false false released false (Some e)), m)
        end
      else (Ok (mkHoldResponse w false false released false None), m)
  end.

(** * Pausing *)

Definition dormantWorker (m : manager) (id reason signature resumeTrigger : string) : result managerError () * manager :=
  match load m id with
  | Err e => (Err e, m)
  | Ok w =>
      if inactive w then (Ok (), m)
      else
        let m := if negb (w_FlyMachineID w =s "") then call id (StopMachine (w_FlyMachineID w)) m else m in
        let m := on_workers (MarkWorkerDormant (cl_now cl) id reason signature resumeTrigger) m in
        (Ok (), event id "worker_dormant" reason signature m)
  end.

Definition workerActiveForSourcePause (w : Worker) (d : Deployment) : bool :=
  if negb (TrimSpace (d_GitSHA d) =s "") && negb (workerMatchesDeployment w d) then false
  else status_in [WorkerRunning; WorkerDegraded; WorkerProbing; WorkerStarting] w.

(** The workers paused and those that failed. *)
Definition pauseAll (reason signature trigger : string) (workers : list Worker) (m : manager)
  : list string * list (string * managerError) * manager :=
  fold_left (fun '(paused, failed, m) w =>
    match dormantWorker m (w_ID w) reason signature trigger with
    | (Ok _, m) => (paused ++ [w_ID w], failed, m)
    | (Err e, m) => (paused, failed ++ [(w_ID w, e)], m)
    end) workers ([], [], m).

(** [label] is [sourceHumanLabel]. *)
Definition PauseSourceWorkers (label : string -> string) (m : manager) (source reason signature resumeTrigger : string)
  : list string * list (string * managerError) * manager :=
  let source := firstNonEmpty [TrimSpace source; "main"] in
  let reason := firstNonEmpty [TrimSpace reason; label source +:+ " paused until the next deployment"] in
  let signature := firstNonEmpty [TrimSpace signature; "source_paused"] in
  let resumeTrigger := firstNonEmpty [TrimSpace resumeTrigger; "next_deploy"] in
  pauseAll reason signature resumeTrigger
    (List.filter (fun w => workerActiveForSourcePause w Deployment_zero) (ListWorkersForSource (mg_workers m) source)) m.

(** * Expiry *)

Definition cleanExpiredWorkers (m : manager) : manager :=
  fold_left (fun m w => snd (destroyWorker m (w_ID w))) (ListExpiredWorkers (cl_now cl) (mg_workers m)) m.

(** * Source teardown *)

Inductive teardownOutcome := OutDestroyed | OutAlreadyStopped | OutFailed | OutKept | OutHeld.
#[export] Instance teardownOutcome_eq_dec : EqDecision teardownOutcome.
Proof. solve_decision. Defined.

Record SourceTeardownWorkerOutcome := mkOutcome {
  to_WorkerID : string; to_Name : string; to_PreviousStatus : WorkerStatus; to_Status : WorkerStatus;
  to_Outcome : teardownOutcome; to_Error : option managerError
}.
Record SourceTeardownResponse := mkTeardown {
  td_Source : string;
  td_Complete : bool;
  td_TotalWorkers : Z;
  td_DestroyedWorkers : Z;
  td_AlreadyStoppedWorkers : Z;
  td_KeptWorkers : Z;
  td_HeldWorkers : Z;
  td_FailedWorkers : Z;
  td_Workers : list SourceTeardownWorkerOutcome
}.
#[export] Instance SourceTeardownResponse_eta : Settable SourceTeardownResponse :=
  fun r => mkTeardown (td_Source r) (td_Complete r) (td_TotalWorkers r) (td_DestroyedWorkers r)
    (td_AlreadyStoppedWorkers r) (td_KeptWorkers r) (td_HeldWorkers r) (td_FailedWorkers r) (td_Workers r).

Definition teardownStep (keep : Worker -> bool) (destroyStopped : bool)
    (acc : SourceTeardownResponse * manager) (w : Worker) : SourceTeardownResponse * manager :=
  let '(r, m) := acc in
  let add status outcome err (r : SourceTeardownResponse) :=
    r <| td_Workers ::= (fun l => l ++ [mkOutcome (w_ID w) (w_Name w) (w_Status w) status outcome err]) |> in
  if status_in [WorkerStopped] w && negb destroyStopped
  then (add (w_Status w) OutAlreadyStopped None (r <| td_AlreadyStoppedWorkers ::= Z.succ |>), m)
  else if keep w then (add (w_Status w) OutKept None (r <| td_KeptWorkers ::= Z.succ |>), m)
  else match destroyWorker m (w_ID w) with
       | (Ok _, m) => (add WorkerStopped OutDestroyed None (r <| td_DestroyedWorkers ::= Z.succ |>), m)
       | (Err (ErrWorkerEvidenceHeld _), m) => (add WorkerStopped OutHeld None (r <| td_HeldWorkers ::= Z.succ |>), m)
       | (Err e, m) =>
           (add (w_Status w) OutFailed (Some e) (r <| td_FailedWorkers ::= Z.succ |> <| td_Complete := false |>), m)
       end.

Inductive teardownError := errSourceRequired | errSourceNotFound | errSourceDeploymentNotFound | errArchive.

Definition teardownMessage (source : string) (r : SourceTeardownResponse) : string :=
  if td_Complete r
  then "Completed cleanup for " +:+ pretty (td_TotalWorkers r) +:+ " " +:+ source +:+
       " worker(s) after archiving evidence; destroyed " +:+ pretty (td_DestroyedWorkers r) +:+ ", skipped " +:+
       pretty (td_AlreadyStoppedWorkers r) +:+ " already stopped and retained " +:+ pretty (td_HeldWorkers r) +:+
       " under evidence hold"
  else "Failed to destroy " +:+ pretty (td_FailedWorkers r) +:+ " of " +:+ pretty (td_TotalWorkers r) +:+ " " +:+
       source +:+ " worker(s) after archiving evidence".

(** [archive] is the outcome of archiving the run's evidence: the archive's
    id and whether it is new. *)
Definition archiveAndDestroySourceWorkers (archive : result () (Z * bool)) (m : manager)
    (source eventPrefix summary : string) (keep : Worker -> bool) (destroyStopped : bool)
  : result teardownError SourceTeardownResponse * manager :=
  let source := TrimSpace source in
  if source =s "" then (Err errSourceRequired, m)
  else
    let workers := ListWorkersFiltered (pd_db (mg_pd m)) "" source in
    match workers with
    | [] => (Err errSourceNotFound, m)
    | _ =>
        match GetLatestDeployment (pd_db (mg_pd m)) source with
        | None => (Err errSourceDeploymentNotFound, m)
        | Some _ =>
            match archive with
            | Err _ => (Err errArchive, m)
            | Ok (archiveID, created) =>
                let details := "archive_id=" +:+ pretty archiveID +:+ " source=" +:+ source in
                let m := if created then event "" ("run_" +:+ eventPrefix +:+ "_teardown_archived") summary details m
                         else m in
                let '(r, m) := fold_left (teardownStep keep destroyStopped) workers
                  (mkTeardown source true (Z.of_nat (length workers)) 0 0 0 0 0 [], m) in
                (Ok r, event "" (eventPrefix +:+ (if td_Complete r then "_source_teardown_completed"
                                                  else "_source_teardown_incomplete"))
                         (teardownMessage source r) details m)
            end
        end
    end.
End Manager.

(** * Cleanup respects holds *)

Create HintDb holds.

Section Holds.
Context `{Decoders} `{Platform}.
Variable joined : list cleanupFailure -> string.

(** The provisioning attempts begun for a worker. *)
Definition attemptsOf (id : string) (l : list ProvisioningAttempt) : list string :=
  map pa_ID (List.filter (fun a => pa_WorkerID a =s id) l).
Lemma attemptsOf_update id p f l :
  (forall b, pa_ID (f b) = pa_ID b /\ pa_WorkerID (f b) = pa_WorkerID b) -> attemptsOf id (update_attempts p f l) = attemptsOf id l.
Proof.
  intros Hf. unfold attemptsOf, update_attempts. induction l as [|b l IH]; [done|]. simpl.
  destruct (Hf b) as [E1 E2]. destruct (p b); rewrite ?E2; (destruct (pa_WorkerID b =s id); simpl; rewrite ?E1, IH; done).
Qed.

(** What a held worker is guaranteed: the row still holds, and since then no
    destructive request was made for it and no provisioning attempt begun. *)
Record held (id : string) (since : option time) (reason : string) (calls : list (string * cleanupCall)) (begun : list string) (m : manager)
  : Prop := {
  hd_row : exists w, find_worker (mg_workers m) id = Some w /\
    w_EvidenceHoldAt w = since /\ w_EvidenceHoldReason w = reason /\ since <> None;
  hd_calls : exists new, mg_calls m = calls ++ new /\ Forall (fun c => fst c = id -> destructive (snd c) = false) new;
  hd_begun : attemptsOf id (pd_attempts (mg_pd m)) = begun
}.

Section Invariant.
Variables (id : string) (since : option time) (reason : string) (calls : list (string * cleanupCall)) (begun : list string).
Abbreviation ok := (held id since reason calls begun).

Lemma held_frame m m' : mg_workers m' = mg_workers m -> mg_calls m' = mg_calls m ->
  attemptsOf id (pd_attempts (mg_pd m')) = attemptsOf id (pd_attempts (mg_pd m)) -> ok m -> ok m'.
Proof. intros E1 E2 E3 [H1 H2 H3]. constructor; by rewrite ?E1, ?E2, ?E3. Qed.

Lemma held_event cl worker kind message details m : ok m -> ok (event cl worker kind message details m).
Proof. by apply held_frame. Qed.

Lemma held_call worker c m : (worker = id -> destructive c = false) -> ok m -> ok (call worker c m).
Proof.
  intros Hc [Hrow (new & E & Hn) Hb]. constructor; [done| |done]. exists (new ++ [(worker, c)]). split.
  - simpl. by rewrite E, app_assoc.
  - apply Forall_app. split; [done|]. by apply Forall_singleton.
Qed.

Definition hold_safe (op : workerOp) : Prop :=
  op_target op = id -> match op with OpClearHold _ | OpSetHold _ _ | OpDelete _ => False | _ => True end.

Lemma op_set_hold now op w :
  match op with OpClearHold _ | OpSetHold _ _ | OpDelete _ => False | _ => True end ->
  w_EvidenceHoldAt (op_set now op w) = w_EvidenceHoldAt w /\ w_EvidenceHoldReason (op_set now op w) = w_EvidenceHoldReason w.
Proof.
  destruct op; try done; simpl; intros _; unfold set_runtime, set_verification; repeat case_match; done.
Qed.

Lemma held_store now op m : hold_safe op -> ok m -> ok (on_workers (fun tbl => exec_op tbl (now, op)) m).
Proof.
  intros Hs [(w & Hw & H1 & H2 & H3) Hc Hb]. constructor; [|done..].
  destruct (exec_find now op (mg_workers m) id w Hw) as (w' & Hf & Hw').
  { intros E. specialize (Hs E). by destruct op. }
  exists w'. split; [exact Hf|]. destruct Hw' as [->|(E & _ & ->)]; [done|].
  destruct (op_set_hold now op w (Hs E)) as [-> ->]. done.
Qed.

Lemma held_status now worker status message m : ok m -> ok (on_workers (UpdateWorkerStatus now worker status message) m).
Proof. by apply (held_store now (OpStatus worker status message)). Qed.

Lemma held_dormant now worker r sig trig m : ok m -> ok (on_workers (MarkWorkerDormant now worker r sig trig) m).
Proof. by apply (held_store now (OpDormant worker r sig trig)). Qed.

Lemma held_load m w : ok m -> load m id = Ok w -> EvidenceHeld w = true.
Proof.
  intros [(x & Hx & H1 & _ & H3) _ _] Hl. unfold load, GetWorker in Hl. rewrite Hx in Hl. simplify_eq.
  unfold EvidenceHeld. by destruct (w_EvidenceHoldAt w).
Qed.

Lemma load_id m i w : load m i = Ok w -> w_ID w = i.
Proof.
  unfold load, GetWorker. destruct (find_worker _ _) eqn:E; [|done]. intros; simplify_eq. by apply find_worker_id in E.
Qed.

Lemma held_call_other worker c m : worker <> id -> ok m -> ok (call worker c m).
Proof. intros Hne. by apply held_call. Qed.

Lemma held_stop worker machine m : ok m -> ok (call worker (StopMachine machine) m).
Proof. by apply held_call. Qed.

#[local] Hint Resolve held_event held_status held_dormant held_call_other held_stop : holds.

Lemma held_fold_calls {A} (l : list A) f worker m : worker <> id ->
  ok m -> ok (fold_left (fun m x => call worker (f x) m) l m).
Proof.
  intros Hne. revert m. induction l as [|x l IH]; intros m Hm; [done|]. rewrite fold_left_cons. apply IH.
  by apply held_call.
Qed.

Lemma held_destroyOne cl resource rid c answer worker m : worker <> id ->
  ok m -> ok (snd (destroyOne cl resource rid c answer worker m)).
Proof. intros Hne Hm. unfold destroyOne. repeat case_match; simpl; auto with holds. Qed.

Lemma held_provisioning cl w m : w_ID w <> id -> ok m -> ok (snd (destroyProvisioningResources cl m w)).
Proof.
  intros Hne Hm. unfold destroyProvisioningResources. repeat (case_match; try done).
  all: simpl; by apply held_fold_calls, held_fold_calls.
Qed.

Lemma held_replica cl w m : w_ID w <> id -> ok m -> ok (snd (clearWorkerReplicaPrefix cl m w)).
Proof.
  intros Hne Hm. unfold clearWorkerReplicaPrefix. repeat (case_match; try done); simpl; auto with holds.
Qed.

Lemma held_abandon cl w a m : ok m -> ok (snd (abandonProvisioning cl m w a)).
Proof.
  intros Hm. unfold abandonProvisioning, AbandonProvisioning. destruct (existsb _ _); simpl; apply (held_frame m); try done.
  by apply attemptsOf_update.
Qed.

Lemma held_retain cl w m : ok m -> ok (snd (retainHeldWorker cl m w)).
Proof.
  intros Hm. unfold retainHeldWorker. simpl. apply held_event.
  repeat case_match; auto with holds.
Qed.

Lemma held_destroy cl i m : ok m -> ok (snd (destroyWorker cl joined m i)).
Proof.
  intros Hm. unfold destroyWorker. destruct (load m i) as [w|] eqn:Hl; [|done].
  destruct (EvidenceHeld w) eqn:He; [by apply held_retain|].
  assert (i <> id) as Hne by (intros ->; rewrite (held_load m w Hm Hl) in He; done).
  pose proof (load_id _ _ _ Hl) as Hid.
  assert (w_ID w <> id) as Hne' by congruence.
  pose proof (held_destroyOne cl "machine" (w_FlyMachineID w) (DestroyMachine (w_FlyMachineID w))
    (cl_machine cl (w_FlyMachineID w)) i m Hne Hm) as H1.
  destruct (destroyOne _ _ _ _ _ _ m) as [e1 m1]. simpl in H1.
  pose proof (held_destroyOne cl "volume" (w_FlyVolumeID w) (DestroyVolume (w_FlyVolumeID w))
    (cl_volume cl (w_FlyVolumeID w)) i m1 Hne H1) as H2.
  destruct (destroyOne _ _ _ _ _ _ m1) as [e2 m2]. simpl in H2.
  pose proof (held_provisioning cl w m2 Hne' H2) as H3.
  destruct (destroyProvisioningResources cl m2 w) as [attempt m3]. simpl in H3.
  pose proof (held_replica cl w m3 Hne' H3) as H4.
  destruct (clearWorkerReplicaPrefix cl m3 w) as [replica m4]. simpl in H4.
  match goal with |- context [let '(_, _) := ?e in _] => assert (ok (snd e)) as H5 by
    (destruct attempt as [[]|]; [destruct (_ ++ _); [by apply held_abandon|done]|done..]); destruct e as [e5 m5] end.
  simpl in H5. destruct (_ ++ _); simpl; auto with holds.
Qed.
#[local] Hint Resolve held_destroy : holds.

Lemma held_dormantWorker cl i r sig trig m : ok m -> ok (snd (dormantWorker cl m i r sig trig)).
Proof. intros Hm. unfold dormantWorker. repeat (case_match; try done); simpl; auto with holds. Qed.

Lemma held_stopWorker cl i m : ok m -> ok (snd (stopWorker cl m i)).
Proof. intros Hm. unfold stopWorker. repeat (case_match; try done); simpl; auto with holds. Qed.

(** Folding an operation that keeps the invariant keeps it. *)
Lemma held_fold {A B} (f : B * manager -> A -> B * manager) l acc :
  (forall acc x, ok (snd acc) -> ok (snd (f acc x))) -> ok (snd acc) -> ok (snd (fold_left f l acc)).
Proof. intros Hf. revert acc. induction l as [|x l IH]; intros acc Hm; [done|]. rewrite fold_left_cons. auto. Qed.

Lemma held_pause cl label source r sig trig m : ok m -> ok (snd (PauseSourceWorkers cl label m source r sig trig)).
Proof.
  intros Hm. unfold PauseSourceWorkers, pauseAll. apply held_fold; [|done]. intros [[p f] m'] x Hx. simpl in Hx.
  pose proof (held_dormantWorker cl (w_ID x) (firstNonEmpty [TrimSpace r; label (firstNonEmpty [TrimSpace source; "main"]) +:+
    " paused until the next deployment"]) (firstNonEmpty [TrimSpace sig; "source_paused"])
    (firstNonEmpty [TrimSpace trig; "next_deploy"]) m' Hx) as Hd.
  by destruct (dormantWorker _ _ _ _ _ _) as [[] ?].
Qed.

Lemma held_expire cl m : ok m -> ok (cleanExpiredWorkers cl joined m).
Proof.
  unfold cleanExpiredWorkers. generalize (ListExpiredWorkers (cl_now cl) (mg_workers m)) as l. intros l. revert m.
  induction l as [|x l IH]; intros m Hm; [done|]. rewrite fold_left_cons. auto with holds.
Qed.

Lemma held_teardown cl archive source prefix summary keep ds m :
  ok m -> ok (snd (archiveAndDestroySourceWorkers cl joined archive m source prefix summary keep ds)).
Proof.
  intros Hm. unfold archiveAndDestroySourceWorkers. destruct (_ =s _); [done|].
  destruct (ListWorkersFiltered _ _ _) as [|x l] eqn:El; [done|]. destruct (GetLatestDeployment _ _); [|done].
  destruct archive as [[aid created]|]; [|done].
  match goal with |- context [fold_left (teardownStep cl joined keep ds) ?l ?acc] =>
    assert (ok (snd (fold_left (teardownStep cl joined keep ds) l acc))) as Hf; [|destruct (fold_left _ _ acc) as [r m1]] end.
  - apply held_fold; [|simpl; destruct created; auto with holds]. intros [r m'] y Hy. simpl in Hy. unfold teardownStep.
    destruct (_ && _); [done|]. destruct (keep y); [done|].
    pose proof (held_destroy cl (w_ID y) m' Hy) as Hd. by destruct (destroyWorker cl joined m' (w_ID y)) as [[|[]] ?].
  - by apply held_event.
Qed.

Lemma held_hold cl i r m : ok m -> ok (snd (HoldWorkerEvidence cl m i r)).
Proof.
  intros Hm. unfold HoldWorkerEvidence. destruct (_ =s _); [done|]. destruct (load m i) as [w|] eqn:Hl; [|done].
  destruct (EvidenceHeld w) eqn:He; [done|].
  assert (i <> id) as Hne by (intros ->; rewrite (held_load m w Hm Hl) in He; done).
  assert (ok (on_workers (SetWorkerEvidenceHold (cl_now cl) i (TrimSpace r)) m)) as Hs.
  { by apply (held_store (cl_now cl) (OpSetHold i (TrimSpace r))). }
  clear Hl. destruct (load _ i); [apply held_event|]; exact Hs.
Qed.
Lemma held_release cl i d m : i <> id -> ok m -> ok (snd (ReleaseWorkerEvidenceHold cl joined m i d)).
Proof.
  intros Hne Hm. unfold ReleaseWorkerEvidenceHold. destruct (load m i) as [w|] eqn:Hl; [|done].
  assert (ok (on_workers (ClearWorkerEvidenceHold (cl_now cl) i) m)) as Hs.
  { by apply (held_store (cl_now cl) (OpClearHold i)). }
  set (m1 := if EvidenceHeld w then _ else m).
  assert (ok m1) as H1 by (unfold m1; destruct (EvidenceHeld w); auto with holds).
  destruct d; [|done]. pose proof (held_destroy cl i m1 H1) as Hd. by destruct (destroyWorker cl joined m1 i) as [[] ?].
Qed.
End Invariant.

End Holds.

(** * Teardown accounts for every worker *)

Section Teardown.
Context `{Decoders} `{Platform}.
Variables (cl : cleanup) (joined : list cleanupFailure -> string).

Lemma fold_calls_workers {A} (l : list A) f worker m :
  mg_workers (fold_left (fun m x => call worker (f x) m) l m) = mg_workers m.
Proof. revert m. induction l as [|x l IH]; intros m; [done|]. rewrite fold_left_cons. by rewrite IH. Qed.

Lemma destroyOne_workers resource rid c answer worker m :
  mg_workers (snd (destroyOne cl resource rid c answer worker m)) = mg_workers m.
Proof. unfold destroyOne. by repeat case_match. Qed.

Lemma provisioning_workers m w : mg_workers (snd (destroyProvisioningResources cl m w)) = mg_workers m.
Proof.
  unfold destroyProvisioningResources. repeat (case_match; try done); simpl; by rewrite !fold_calls_workers.
Qed.

Lemma replica_workers m w : mg_workers (snd (clearWorkerReplicaPrefix cl m w)) = mg_workers m.
Proof. unfold clearWorkerReplicaPrefix. by repeat (case_match; try done). Qed.

Lemma abandon_workers m w a : mg_workers (snd (abandonProvisioning cl m w a)) = mg_workers m.
Proof. unfold abandonProvisioning, AbandonProvisioning. by destruct (existsb _ _). Qed.

(** Destroying a worker changes its status and nothing else of the table. *)
Lemma destroy_workers m i r m' :
  destroyWorker cl joined m i = (r, m') ->
  (r = Err ErrNoWorker /\ m' = m) \/
  (exists status message, mg_workers m' = UpdateWorkerStatus (cl_now cl) i status message (mg_workers m) /\
     match r with Ok _ => status = WorkerStopped | Err (ErrCleanup _) => True | _ => False end) \/
  (exists name, r = Err (ErrWorkerEvidenceHeld name) /\
     exists w, find_worker (mg_workers m) i = Some w /\
       (mg_workers m' = UpdateWorkerStatus (cl_now cl) i WorkerStopped "" (mg_workers m) \/
        (mg_workers m' = mg_workers m /\ w_Status w = WorkerStopped))).
Proof.
  unfold destroyWorker. destruct (load m i) as [w|e] eqn:Hl.
  2: { intros E. left. unfold load, GetWorker in Hl. destruct (find_worker _ _); simplify_eq. done. }
  pose proof (load_id m i w Hl) as Hid.
  assert (find_worker (mg_workers m) i = Some w) as Hw.
  { unfold load, GetWorker in Hl. destruct (find_worker _ _); by simplify_eq. }
  destruct (EvidenceHeld w).
  - unfold retainHeldWorker. intros E. injection E as <- <-. right; right. eexists; split; [done|]. exists w. split; [done|].
    unfold status_in. simpl. rewrite orb_false_r. case_bool_decide as Hs; simpl.
    + right. split; [|done]. by case_match.
    + left. rewrite Hid. by case_match.
  - pose proof (destroyOne_workers "machine" (w_FlyMachineID w) (DestroyMachine (w_FlyMachineID w))
      (cl_machine cl (w_FlyMachineID w)) i m) as H1. destruct (destroyOne _ _ _ _ _ _ m) as [e1 m1]. simpl in H1.
    pose proof (destroyOne_workers "volume" (w_FlyVolumeID w) (DestroyVolume (w_FlyVolumeID w))
      (cl_volume cl (w_FlyVolumeID w)) i m1) as H2. destruct (destroyOne _ _ _ _ _ _ m1) as [e2 m2]. simpl in H2.
    pose proof (provisioning_workers m2 w) as H3. destruct (destroyProvisioningResources cl m2 w) as [attempt m3]. simpl in H3.
    pose proof (replica_workers m3 w) as H4. destruct (clearWorkerReplicaPrefix cl m3 w) as [replica m4]. simpl in H4.
    match goal with |- context [let '(_, _) := ?e in _] => assert (mg_workers (snd e) = mg_workers m4) as H5 by
      (destruct attempt as [[]|]; [destruct (_ ++ _); [apply abandon_workers|done]|done..]); destruct e as [e5 m5] end.
    simpl in H5. intros E. right; left. rewrite <- H1, <- H2, <- H3, <- H4, <- H5.
    destruct (_ ++ _); injection E as <- <-; eexists _, _; by split.
Qed.

Lemma destroy_find m i r m' j w :
  destroyWorker cl joined m i = (r, m') -> find_worker (mg_workers m) j = Some w ->
  exists w', find_worker (mg_workers m') j = Some w' /\
    (j <> i -> w' = w) /\
    (j = i -> (exists u, r = Ok u) \/ (exists n, r = Err (ErrWorkerEvidenceHeld n)) -> w_Status w' = WorkerStopped).
Proof.
  intros Hd Hw. pose proof (find_worker_id _ _ _ Hw) as Hid.
  assert (forall status message, find_worker (UpdateWorkerStatus (cl_now cl) i status message (mg_workers m)) j =
    Some (if w_ID w =s i then set_status (cl_now cl) status message w else w)) as Hu.
  { intros st msg. unfold UpdateWorkerStatus, update_worker. rewrite find_update by done. by rewrite Hw. }
  apply destroy_workers in Hd as [[-> ->]|[(st & msg & E & Hs)|(n & -> & x & Hx & [E|[E Hst]])]].
  - exists w. split_and!; [done..|]. intros _ [[? ?]|[? ?]]; done.
  - rewrite E, Hu. eexists; split; [done|]. rewrite Hid. destruct (eqs_spec j i) as [->|Hne]; [|done].
    split; [done|]. by intros _ [[u ->]|[n ->]].
  - rewrite E, Hu. eexists; split; [done|]. rewrite Hid. by destruct (eqs_spec j i) as [->|Hne].
  - rewrite E. exists w. split_and!; try done. intros -> _. congruence.
Qed.

(** ** The counters *)

Definition count_outcome (o : teardownOutcome) (l : list SourceTeardownWorkerOutcome) : Z :=
  Z.of_nat (length (List.filter (fun x => bool_decide (to_Outcome x = o)) l)).

Record accounted (r : SourceTeardownResponse) (workers : list Worker) : Prop := {
  ac_ids : map to_WorkerID (td_Workers r) = map w_ID workers;
  ac_destroyed : td_DestroyedWorkers r = count_outcome OutDestroyed (td_Workers r);
  ac_stopped : td_AlreadyStoppedWorkers r = count_outcome OutAlreadyStopped (td_Workers r);
  ac_kept : td_KeptWorkers r = count_outcome OutKept (td_Workers r);
  ac_held : td_HeldWorkers r = count_outcome OutHeld (td_Workers r);
  ac_failed : td_FailedWorkers r = count_outcome OutFailed (td_Workers r);
  ac_complete : td_Complete r = (td_FailedWorkers r =? 0)%Z
}.

(** The rows a teardown reports as gone are stopped. *)
Definition stopped_rows (r : SourceTeardownResponse) (m : manager) : Prop :=
  forall x, In x (td_Workers r) -> to_Outcome x = OutDestroyed \/ to_Outcome x = OutHeld ->
  exists w, find_worker (mg_workers m) (to_WorkerID x) = Some w /\ w_Status w = WorkerStopped.

Lemma count_snoc_outcome o l x :
  count_outcome o (l ++ [x]) = (count_outcome o l + (if bool_decide (to_Outcome x = o) then 1 else 0))%Z.
Proof. unfold count_outcome. rewrite List.filter_app, length_app. simpl. case_bool_decide; simpl; lia. Qed.

Lemma count_nonneg o l : (0 <= count_outcome o l)%Z.
Proof. unfold count_outcome. lia. Qed.

(** The row of a new outcome, appended to an accounted response. *)
Definition bump (o : teardownOutcome) (r : SourceTeardownResponse) : SourceTeardownResponse :=
  match o with
  | OutDestroyed => r <| td_DestroyedWorkers ::= Z.succ |>
  | OutAlreadyStopped => r <| td_AlreadyStoppedWorkers ::= Z.succ |>
  | OutKept => r <| td_KeptWorkers ::= Z.succ |>
  | OutHeld => r <| td_HeldWorkers ::= Z.succ |>
  | OutFailed => r <| td_FailedWorkers ::= Z.succ |> <| td_Complete := false |>
  end.

Lemma accounted_snoc r workers w st o err :
  accounted r workers ->
  accounted ((bump o r) <| td_Workers ::= (fun l => l ++ [mkOutcome (w_ID w) (w_Name w) (w_Status w) st o err]) |>)
    (workers ++ [w]).
Proof.
  intros [Hi H1 H2 H3 H4 H5 H6].
  assert (0 <= td_FailedWorkers r)%Z as Hn by (rewrite H5; apply count_nonneg).
  destruct o; constructor; simpl; rewrite ?map_app, ?Hi, ?count_snoc_outcome; simpl; try done; try lia.
  symmetry. apply Z.eqb_neq. lia.
Qed.

Lemma teardown_step_shape keep ds r m w :
  exists st o err, fst (teardownStep cl joined keep ds (r, m) w) =
      (bump o r) <| td_Workers ::= (fun l => l ++ [mkOutcome (w_ID w) (w_Name w) (w_Status w) st o err]) |> /\
    (snd (teardownStep cl joined keep ds (r, m) w) = m /\ o <> OutDestroyed /\ o <> OutHeld \/
     exists res, destroyWorker cl joined m (w_ID w) = (res, snd (teardownStep cl joined keep ds (r, m) w)) /\
       (o = OutDestroyed \/ o = OutHeld -> (exists u, res = Ok u) \/ (exists n, res = Err (ErrWorkerEvidenceHeld n)))).
Proof.
  unfold teardownStep. destruct (_ && _); [eexists _, OutAlreadyStopped, _; split; [done|by left]|].
  destruct (keep w); [eexists _, OutKept, _; split; [done|by left]|].
  destruct (destroyWorker cl joined m (w_ID w)) as [[u|[| | |]] m'].
  - eexists _, OutDestroyed, _. split; [done|right]. eauto.
  - eexists _, OutFailed, _. split; [done|right]. eexists; split; [done|]. by intros [|].
  - eexists _, OutHeld, _. split; [done|right]. eauto.
  - eexists _, OutFailed, _. split; [done|right]. eexists; split; [done|]. by intros [|].
  - eexists _, OutFailed, _. split; [done|right]. eexists; split; [done|]. by intros [|].
Qed.

Lemma stopped_step keep ds r m w before :
  accounted r before -> ~ In (w_ID w) (map w_ID before) -> stopped_rows r m ->
  is_Some (find_worker (mg_workers m) (w_ID w)) ->
  stopped_rows (fst (teardownStep cl joined keep ds (r, m) w)) (snd (teardownStep cl joined keep ds (r, m) w)).
Proof.
  intros Hac Hnew Hst [x Hx]. destruct (teardown_step_shape keep ds r m w) as (st & o & err & -> & Hm).
  intros y Hy Ho. assert (In y (td_Workers r) \/ y = mkOutcome (w_ID w) (w_Name w) (w_Status w) st o err) as [Hin| ->].
  { destruct o; simpl in Hy; rewrite in_app_iff in Hy; simpl in Hy; intuition. }
  - destruct (Hst y Hin Ho) as (z & Hz & Hs). destruct Hm as [[-> _]|(res & Hd & _)]; [eauto|].
    destruct (destroy_find _ _ _ _ _ _ Hd Hz) as (z' & Hz' & Hsame & _). exists z'. split; [done|].
    rewrite Hsame; [done|]. intros E. apply Hnew. rewrite <- E, <- (ac_ids r before Hac). by apply in_map.
  - destruct Hm as [(-> & H1 & H2)|(res & Hd & Hr)]; [by destruct Ho|].
    destruct (destroy_find _ _ _ _ _ _ Hd Hx) as (z' & Hz' & _ & Hs). exists z'. split; [done|]. auto.
Qed.

Lemma find_step keep ds r m w j :
  is_Some (find_worker (mg_workers m) j) -> is_Some (find_worker (mg_workers (snd (teardownStep cl joined keep ds (r, m) w))) j).
Proof.
  intros [x Hx]. destruct (teardown_step_shape keep ds r m w) as (st & o & err & _ & [[-> _]|(res & Hd & _)]); [eauto|].
  destruct (destroy_find _ _ _ _ _ _ Hd Hx) as (z' & Hz' & _). eauto.
Qed.

Lemma teardown_fold keep ds l before r m :
  NoDup (map w_ID (before ++ l)) -> accounted r before -> stopped_rows r m ->
  (forall w, In w l -> is_Some (find_worker (mg_workers m) (w_ID w))) ->
  let '(r', m') := fold_left (teardownStep cl joined keep ds) l (r, m) in
  accounted r' (before ++ l) /\ stopped_rows r' m' /\ td_TotalWorkers r' = td_TotalWorkers r.
Proof.
  revert before r m. induction l as [|w l IH]; intros before r m Hn Hac Hst Hf; [by rewrite app_nil_r|].
  rewrite fold_left_cons. pose proof (stopped_step keep ds r m w before Hac) as Hst'.
  pose proof (fun j => find_step keep ds r m w j) as Hf'.
  destruct (teardown_step_shape keep ds r m w) as (st & o & err & Hr & _).
  destruct (teardownStep cl joined keep ds (r, m) w) as [r1 m1]. simpl in Hst', Hf', Hr.
  assert (NoDup (map w_ID ((before ++ [w]) ++ l))) as Hn' by by rewrite <- app_assoc.
  assert (~ In (w_ID w) (map w_ID before)) as Hnew.
  { rewrite map_app in Hn. apply NoDup_app in Hn as (_ & Hd & _). intros Hin. apply list_elem_of_In in Hin.
    apply (Hd _ Hin). simpl. apply list_elem_of_here. }
  specialize (IH (before ++ [w]) r1 m1 Hn'). rewrite <- app_assoc in IH. simpl in IH.
  assert (td_TotalWorkers r1 = td_TotalWorkers r) as <- by (rewrite Hr; by destruct o).
  apply IH.
  - rewrite Hr. by apply accounted_snoc.
  - apply Hst'; [done..|]. apply Hf. by left.
  - intros y Hy. apply Hf', Hf. by right.
Qed.

Lemma In_find tbl w : In w tbl -> is_Some (find_worker tbl (w_ID w)).
Proof. intros Hw. apply exists_find. by apply exists_worker_In. Qed.

Lemma NoDup_filter_ids (f : Worker -> bool) l : NoDup (map w_ID l) -> NoDup (map w_ID (List.filter f l)).
Proof.
  induction l as [|x l IH]; [done|]. simpl. intros Hn. apply NoDup_cons in Hn as [Hx Hn].
  destruct (f x); [|auto]. simpl. apply NoDup_cons. split; [|auto].
  intros Hin. apply Hx. apply list_elem_of_In, in_map_iff in Hin as (y & E & Hy).
  apply filter_In in Hy as [Hy _]. apply list_elem_of_In, in_map_iff. eauto.
Qed.

Lemma counts_add_up l :
  (count_outcome OutDestroyed l + count_outcome OutAlreadyStopped l + count_outcome OutKept l +
   count_outcome OutHeld l + count_outcome OutFailed l = Z.of_nat (length l))%Z.
Proof.
  induction l as [|x l IH] using rev_ind; [done|]. rewrite !count_snoc_outcome, length_app. simpl.
  destruct (to_Outcome x); simpl; lia.
Qed.

Lemma count_zero o l : count_outcome o l = 0%Z <-> forall x, In x l -> to_Outcome x <> o.
Proof.
  unfold count_outcome. split.
  - intros Hz x Hx E. assert (In x (List.filter (fun x => bool_decide (to_Outcome x = o)) l)) as Hin.
    { apply filter_In. split; [done|]. by apply bool_decide_eq_true. }
    destruct (List.filter _ l); [done|simpl in Hz; lia].
  - intros Hno. destruct (List.filter _ l) as [|x l'] eqn:E; [done|]. exfalso.
    assert (In x (x :: l')) as Hin by by left. rewrite <- E in Hin. apply filter_In in Hin as [Hx Ho].
    apply bool_decide_eq_true in Ho. by apply (Hno x).
Qed.

Lemma order_desc_Permutation {A} (key : A -> Z) l : Permutation (order_desc key l) l.
Proof. apply sorting.merge_sort_Permutation. Qed.

Lemma listed_workers db source : source <> "" ->
  Permutation (ListWorkersFiltered db "" source) (List.filter (fun w => w_Source w =s source) (db_workers db)).
Proof.
  intros Hs. unfold ListWorkersFiltered. rewrite order_desc_Permutation. apply eqs_false in Hs. rewrite Hs. simpl.
  erewrite filter_ext; [done|]. intros w. simpl. by rewrite andb_true_r.
Qed.

(** Tearing a source down accounts for every one of its workers: the
    outcomes list each worker once, the five counters are the numbers of their
    outcomes and add up to the total, the teardown is complete exactly when
    none failed, every worker reported destroyed or held is stopped in the
    table, and the run's evidence was archived before any of it. *)
Theorem teardown_accounts archive m source prefix summary keep ds r m'
    (Hids : NoDup (map w_ID (mg_workers m)))
    (Hrun : archiveAndDestroySourceWorkers cl joined archive m source prefix summary keep ds = (Ok r, m')) :
  Permutation (map to_WorkerID (td_Workers r))
    (map w_ID (List.filter (fun w => w_Source w =s TrimSpace source) (mg_workers m))) /\
  (td_TotalWorkers r = td_DestroyedWorkers r + td_AlreadyStoppedWorkers r + td_KeptWorkers r +
                       td_HeldWorkers r + td_FailedWorkers r)%Z /\
  td_TotalWorkers r = Z.of_nat (length (td_Workers r)) /\
  (td_Complete r = true <-> forall x, In x (td_Workers r) -> to_Outcome x <> OutFailed) /\
  (forall x, In x (td_Workers r) -> to_Outcome x = OutDestroyed \/ to_Outcome x = OutHeld ->
     exists w, find_worker (mg_workers m') (to_WorkerID x) = Some w /\ w_Status w = WorkerStopped) /\
  (exists a, archive = Ok a).
Proof.
  unfold archiveAndDestroySourceWorkers in Hrun.
  destruct (eqs_spec (TrimSpace source) "") as [|Hsrc]; [done|].
  pose proof (listed_workers (pd_db (mg_pd m)) (TrimSpace source) Hsrc) as Hperm.
  change (db_workers (pd_db (mg_pd m))) with (mg_workers m) in Hperm.
  destruct (ListWorkersFiltered _ _ _) as [|w0 l0] eqn:El; [done|]. rewrite <- El in *. clear El w0 l0.
  destruct (GetLatestDeployment _ _); [|done]. destruct archive as [[aid created]|]; [|done].
  set (l := ListWorkersFiltered _ _ _) in *.
  set (m1 := if created then _ else m) in Hrun. assert (mg_workers m1 = mg_workers m) as Hm1 by (unfold m1; by destruct created).
  clearbody m1.
  pose proof (teardown_fold keep ds l [] (mkTeardown (TrimSpace source) true (Z.of_nat (length l)) 0 0 0 0 0 []) m1) as Hfold.
  destruct (fold_left _ l _) as [r1 m2]. injection Hrun as -> <-.
  destruct Hfold as (Hac & Hst & Htot); simpl.
  - rewrite Hperm. by apply NoDup_filter_ids.
  - by constructor.
  - by intros x [].
  - intros w Hw. rewrite Hm1. apply In_find. apply (Permutation_in _ Hperm), filter_In in Hw. tauto.
  - destruct Hac as [Hi H1 H2 H3 H4 H5 H6]. simpl in Hi, Htot.
    assert (length (td_Workers r) = length l) as Hlen by (rewrite <- (length_map to_WorkerID), Hi; apply length_map).
    split_and!.
    + by rewrite Hi, Hperm.
    + rewrite H1, H2, H3, H4, H5, counts_add_up, Htot. lia.
    + rewrite Htot. lia.
    + rewrite H6, Z.eqb_eq, H5. apply count_zero.
    + exact Hst.
    + eauto.
Qed.
End Teardown.

(** * Examples *)

Definition ex_cleanup : cleanup :=
  mkCleanup true (fun _ => None) (fun id => if id =s "m2" then Some (APIError 500) else None) (fun _ => None)
    (Ok []) (Ok []) (fun _ => Ok 3%Z) "bucket" (50 * Second)%Z.
Definition ex_row (id machine : string) (status : WorkerStatus) : Worker :=
  Worker_zero <| w_ID := id |> <| w_Name := id |> <| w_Source := "pr-7" |> <| w_FlyMachineID := machine |>
    <| w_FlyVolumeID := "v" +:+ machine |> <| w_Status := status |>.
Definition ex_held : Worker := (ex_row "h" "m3" WorkerRunning) <| w_EvidenceHoldAt := Some Second |> <| w_EvidenceHoldReason := "bug" |>.
Definition ex_manager : manager :=
  mkManager (mkProvDB (emptyDB <| db_workers := [ex_row "a" "m1" WorkerRunning; ex_row "b" "m2" WorkerRunning; ex_held;
                                                 ex_row "c" "m4" WorkerStopped] |>
                               <| db_deployments := [Deployment_zero <| d_ID := 1%Z |> <| d_Source := "pr-7" |>] |>)
               [] ∅ emptyTable []) [].
Definition no_text (_ : list cleanupFailure) : string := "".
Abbreviation ex_teardown := (archiveAndDestroySourceWorkers (H := exampleDecoders) (H0 := examplePlatform)
  ex_cleanup no_text (Ok (1%Z, true)) ex_manager "pr-7" "operator" "" (fun _ => false) false).

(** One destroyed, one failed, one held, one that was stopped already. *)
Lemma teardown_accounts_witness :
  (match ex_teardown with
   | (Ok r, _) => (td_DestroyedWorkers r, td_FailedWorkers r, td_HeldWorkers r, td_AlreadyStoppedWorkers r, td_Complete r) =
                  (1, 1, 1, 1, false)%Z
   | _ => False end) /\
  (exists r m', ex_teardown = (Ok r, m') /\
    (td_TotalWorkers r = td_DestroyedWorkers r + td_AlreadyStoppedWorkers r + td_KeptWorkers r +
                         td_HeldWorkers r + td_FailedWorkers r)%Z).
Proof.
  assert (match ex_teardown with (Ok _, _) => true | _ => false end = true) as Hok by (vm_compute; reflexivity).
  split; [vm_compute; reflexivity|]. destruct ex_teardown as [[r|e] m'] eqn:E.
  - exists r, m'. split; [reflexivity|].
    refine (proj1 (proj2 (teardown_accounts (H := exampleDecoders) (H0 := examplePlatform) ex_cleanup no_text
      (Ok (1%Z, true)) ex_manager "pr-7" "operator" "" (fun _ => false) false r m' _ E))).
    apply (bool_decide_eq_true_1 (NoDup (map w_ID (mg_workers ex_manager)))). vm_compute. reflexivity.
  - discriminate Hok.
Defined.
