(* ===== verification/Rollout.v ===== *)
(** A deployment's rollout: [orchestrator/builders_deployment.go] with
    [run_identity.go], [latestVerificationInWindow] of builders_worker.go and
    [SnapshotStatus] of reporting/types.go.

    The builders read the worker, verification and deployment tables; the
    expected run of a worker, the active alert condition of its source and the
    clock are arguments.  [sort.SliceStable] is a stable insertion sort. *)
From stdpp Require Import sorting.
From Stdlib Require Import Ascii.
From S2P Require Import Prelude GoStrings Model GoTime Classification EnvFailure GateFleet GateStore SoakDB GateFault WorkerStore.

(** * Sorting *)

Section Sort.
Context {A : Type} (less : A -> A -> bool).
Fixpoint insert_stable (x : A) (l : list A) : list A :=
  match l with
  | [] => [x]
  | y :: rest => if less y x then y :: insert_stable x rest else x :: l
  end.
Definition SliceStable (l : list A) : list A := fold_right insert_stable [] l.

Lemma insert_stable_Permutation x l : Permutation (insert_stable x l) (x :: l).
Proof. induction l as [|y l IH]; [done|]. simpl. destruct (less y x); [|done]. rewrite IH. constructor. Qed.
Lemma SliceStable_Permutation l : Permutation (SliceStable l) l.
Proof. induction l as [|x l IH]; [done|]. simpl. by rewrite insert_stable_Permutation, IH. Qed.
End Sort.

Definition text_ltb (a b : string) : bool := String.ltb a b.

(** * Verifications of a deployment *)

Definition ListVerifications (db : soakDB) (workerID : string) (limit : nat) : list Verification :=
  firstn limit (order_desc v_StartedAt
    (List.filter (fun v => v_WorkerID v =s workerID) (db_verifications db))).

Definition verificationObservedAt (v : Verification) : option time :=
  match v_CompletedAt v with
  | Some c => if negb (IsZero c) then Some c else if negb (IsZero (v_StartedAt v)) then Some (v_StartedAt v) else None
  | None => if negb (IsZero (v_StartedAt v)) then Some (v_StartedAt v) else None
  end.

(** The newest conclusive verification of a window; a pass behind a pending
    check does not count. *)
Fixpoint latestInWindow (pending : bool) (since : time) (until : option time) (l : list Verification)
  : option Verification :=
  match l with
  | [] => None
  | v :: rest =>
      if Aborted v then latestInWindow pending since until rest
      else match verificationObservedAt v with
      | None => latestInWindow pending since until rest
      | Some observedAt =>
          if Before observedAt since then latestInWindow pending since until rest
          else if match until with Some u => negb (IsZero u) && negb (Before observedAt u) | None => false end
          then latestInWindow pending since until rest
          else if Pending v then latestInWindow true since until rest
          else if pending && Succeeded v then None
          else Some v
      end
  end.
Definition latestVerificationInWindow (l : list Verification) (since : time) (until : option time)
  : option Verification := latestInWindow false since until l.

Definition deploymentVerifications (worker : Worker) (deployment : Deployment) (l : list Verification)
  : list Verification := List.filter (fun v => MatchesDeployment v worker deployment) l.

(** [expected] is the run the control plane last started for the worker. *)
Definition currentDeploymentVerifications (expected : option WorkerIdentity) (worker : Worker)
    (deployment : Deployment) (l : list Verification) : list Verification :=
  List.filter (fun v => (id_MachineID (v_Run v) =s w_FlyMachineID worker) &&
                        match expected with None => true | Some e => id_RunID (v_Run v) =s id_RunID e end)
    (deploymentVerifications worker deployment l).

(** * Runtime snapshots *)

Definition SnapshotStatus (payload : option RuntimePayload) : string :=
  match payload with
  | None => "missing"
  | Some p =>
      if rt_LitestreamSnapshotHealthy p then "healthy"
      else if rt_LitestreamSnapshotError p =s LegacyRuntimeTelemetryError then "legacy"
      else if hasSnapshotMetadata p || hasLitestreamRuntimeFields p then "unhealthy"
      else "missing"
  end.

Definition runtimeSnapshotNeedsAttention (status : string) : bool := EqualFold (TrimSpace status) "unhealthy".
Definition workerNeedsAttention (status : WorkerStatus) (runtimeStatus : string) : bool :=
  negb (bool_decide (status = WorkerRunning)) || runtimeSnapshotNeedsAttention runtimeStatus.
Definition workerNeedsPostDeployVerification (status : WorkerStatus) : bool :=
  match status with WorkerRunning | WorkerProbing | WorkerDegraded | WorkerStarting => true | _ => false end.

Definition workerRank (status : WorkerStatus) : Z :=
  match status with
  | WorkerFailed => 0
  | WorkerDegraded | WorkerProbing => 1
  | WorkerDormant => 2
  | WorkerStarting | WorkerBuilding | WorkerPending => 3
  | WorkerRunning => 4
  | _ => 5
  end%Z.

(** * Rollouts *)

Record DeploymentWorkerProgress := mkProgress {
  wp_WorkerID : string;
  wp_Name : string;
  wp_Status : WorkerStatus;
  wp_GitSHA : string;
  wp_LitestreamSHA : string;
  wp_RuntimeSnapshotStatus : string;
  wp_Updated : bool;
  wp_VerifiedSinceDeploy : bool;
  wp_LastHeartbeatAt : option time;
  wp_LastVerificationAt : option time;
  wp_CurrentFailureStage : string;
  wp_CurrentFailureSignature : string
}.

Record DeploymentRolloutResponse := mkRollout {
  ro_Deployment : Deployment;
  ro_Status : string;
  ro_TotalWorkers : Z;
  ro_UpdatedWorkers : Z;
  ro_OutdatedWorkers : Z;
  ro_RunningWorkers : Z;
  ro_DegradedWorkers : Z;
  ro_DormantWorkers : Z;
  ro_ProbingWorkers : Z;
  ro_RuntimeUnhealthyWorkers : Z;
  ro_AttentionWorkers : Z;
  ro_DormantFleetAlert : bool;
  ro_DormantFleetSince : option time;
  ro_VerifiedSinceDeploy : Z;
  ro_AwaitingVerification : Z;
  ro_Workers : list DeploymentWorkerProgress;
  ro_Summary : string;
  ro_GraceWindowExceeded : bool;
  ro_NextAction : string;
  ro_NextChecks : list string
}.
#[export] Instance DeploymentRolloutResponse_eta : Settable DeploymentRolloutResponse :=
  fun r => mkRollout (ro_Deployment r) (ro_Status r) (ro_TotalWorkers r) (ro_UpdatedWorkers r) (ro_OutdatedWorkers r)
    (ro_RunningWorkers r) (ro_DegradedWorkers r) (ro_DormantWorkers r) (ro_ProbingWorkers r)
    (ro_RuntimeUnhealthyWorkers r) (ro_AttentionWorkers r) (ro_DormantFleetAlert r) (ro_DormantFleetSince r)
    (ro_VerifiedSinceDeploy r) (ro_AwaitingVerification r) (ro_Workers r) (ro_Summary r) (ro_GraceWindowExceeded r)
    (ro_NextAction r) (ro_NextChecks r).

Definition deploymentWorkerRank (p : DeploymentWorkerProgress) : Z :=
  if bool_decide (wp_Status p = WorkerRunning) && runtimeSnapshotNeedsAttention (wp_RuntimeSnapshotStatus p)
  then workerRank WorkerDegraded else workerRank (wp_Status p).
Definition progressLess (l r : DeploymentWorkerProgress) : bool :=
  if negb (eqb (wp_Updated l) (wp_Updated r)) then negb (wp_Updated l)
  else if negb (deploymentWorkerRank l =? deploymentWorkerRank r)%Z
  then (deploymentWorkerRank l <? deploymentWorkerRank r)%Z
  else text_ltb (wp_Name l) (wp_Name r).

Definition inferDeploymentRolloutStatus (r : DeploymentRolloutResponse) : string :=
  if (ro_TotalWorkers r =? 0)%Z then "no_workers"
  else if (0 <? ro_OutdatedWorkers r)%Z then "rolling_out"
  else if (0 <? ro_ProbingWorkers r)%Z then "probing"
  else if (0 <? ro_DormantWorkers r)%Z || (0 <? ro_DegradedWorkers r)%Z || (0 <? ro_RuntimeUnhealthyWorkers r)%Z
  then "needs_attention"
  else if (0 <? ro_AwaitingVerification r)%Z then "settling"
  else "stable".

Definition deploymentSource (deployment : Deployment) : string :=
  let source := TrimSpace (d_Source deployment) in if source =s "" then "main" else source.
Definition deploymentScorecardSource := deploymentSource.

(** * Texts and guidance *)

Definition sourcePRNumber (source : string) : Z :=
  let source := TrimSpace source in
  if negb (HasPrefix source "pr-") then 0%Z
  else let '(prNumber, ok) := Atoi (TrimPrefix source "pr-") in
    if negb ok || (prNumber <=? 0)%Z then 0%Z else prNumber.
Definition sourceHumanLabel (source : string) : string :=
  let source := GateFleet.firstNonEmpty [TrimSpace source; "main"] in
  let prNumber := sourcePRNumber source in
  if (0 <? prNumber)%Z then "PR #" ++ fmt_int prNumber
  else if source =s "main" then "main branch"
  else source ++ " branch".
Definition deploymentHumanLabel (deployment : Deployment) : string :=
  if (0 <? d_PRNumber deployment)%Z then "PR #" ++ fmt_int (d_PRNumber deployment)
  else sourceHumanLabel (d_Source deployment).
Definition countNoun (count : Z) (singular : string) : string :=
  if (count =? 1)%Z then "1 " ++ singular else fmt_int count ++ " " ++ singular ++ "s".
Definition workersNeedInvestigation (count : Z) : string :=
  if (count =? 1)%Z then "1 worker still needs investigation" else fmt_int count ++ " workers still need investigation".
Definition joinEnglish (values : list string) : string :=
  match values with
  | [] => ""
  | [a] => a
  | [a; b] => a ++ " and " ++ b
  | _ => Join (removelast values) ", " ++ ", and " ++ List.last values ""
  end.
Definition rolloutAttentionSignalSummary (r : DeploymentRolloutResponse) : string :=
  let signal n text := if (0 <? n)%Z then [countNoun n text] else [] in
  let signals := (signal (ro_DegradedWorkers r) "degraded worker" ++ signal (ro_DormantWorkers r) "dormant worker" ++
                  signal (ro_RuntimeUnhealthyWorkers r) "runtime-unhealthy worker")%list in
  match signals with [] => "attention signal present" | _ => joinEnglish signals end.

Definition summarizeDeploymentRollout (r : DeploymentRolloutResponse) : string :=
  let subject := deploymentHumanLabel (ro_Deployment r) in
  let status s := ro_Status r =s s in
  if ro_DormantFleetAlert r
  then "The " ++ subject ++ " fleet is 100% dormant, leaving zero soak coverage until at least one worker resumes."
  else if status "superseded" then "The " ++ subject ++ " rollout was superseded by a newer ready deployment."
  else if status "no_workers"
  then "The " ++ subject ++ " rollout is recorded, but no workers for that source are registered yet."
  else if status "rolling_out"
  then "The " ++ subject ++ " rollout is still in progress. " ++ fmt_int (ro_UpdatedWorkers r) ++ " of " ++
       fmt_int (ro_TotalWorkers r) ++ " workers are updated, " ++ fmt_int (ro_OutdatedWorkers r) ++
       " still need the new release, and " ++ fmt_int (ro_AwaitingVerification r) ++
       " updated workers still need a fresh verification."
  else if status "probing"
  then "The " ++ subject ++ " rollout is still settling. All " ++ fmt_int (ro_TotalWorkers r) ++
       " workers are on the new release, " ++ fmt_int (ro_VerifiedSinceDeploy r) ++ " have verified since rollout, and " ++
       fmt_int (ro_AwaitingVerification r) ++ " still need a fresh verification."
  else if status "settling"
  then "The " ++ subject ++ " rollout is waiting for verification. All " ++ fmt_int (ro_TotalWorkers r) ++
       " workers are on the new release, " ++ fmt_int (ro_VerifiedSinceDeploy r) ++ " have verified since rollout, and " ++
       fmt_int (ro_AwaitingVerification r) ++ " still need a fresh verification."
  else if status "needs_attention"
  then "The " ++ subject ++ " rollout needs attention. All " ++ fmt_int (ro_TotalWorkers r) ++
       " workers are on the new release, but " ++ workersNeedInvestigation (ro_AttentionWorkers r) ++ ": " ++
       rolloutAttentionSignalSummary r ++ "."
  else "The " ++ subject ++ " rollout is stable. All " ++ fmt_int (ro_TotalWorkers r) ++
       " workers are on the new release and " ++ fmt_int (ro_VerifiedSinceDeploy r) ++ " have verified since rollout.".

Definition rolloutAttentionGraceWindow : duration := (45 * Minute)%Z.

Definition deploymentGraceWindowExceeded (r : DeploymentRolloutResponse) (now : time) : bool :=
  if IsZero (d_StartedAt (ro_Deployment r)) then false
  else if negb (slices_Contains ["rolling_out"; "probing"; "needs_attention"] (ro_Status r)) then false
  else (rolloutAttentionGraceWindow <=? time_Sub now (d_StartedAt (ro_Deployment r)))%Z.

Definition inferDeploymentNextAction (r : DeploymentRolloutResponse) : string :=
  let status s := ro_Status r =s s in
  if ro_DormantFleetAlert r
  then "Restore zero soak coverage now by resuming at least one dormant worker, then confirm heartbeats and verification restart."
  else if status "superseded" then "Follow the newest ready deployment for this source."
  else if status "no_workers" then "Create or reconcile the main fleet before trusting this release."
  else if status "rolling_out" then
    if ro_GraceWindowExceeded r
    then "Open outdated workers now. The rollout is still incomplete beyond the normal probe window."
    else "Wait for the remaining workers to move to the new SHA, then confirm the full fleet is updated."
  else if status "probing" then
    if ro_GraceWindowExceeded r
    then "Open probing workers now. The rollout has not settled after a full verification cycle."
    else "Wait for the next verification cycle to finish before deciding whether the release helped."
  else if status "settling" then
    if ro_GraceWindowExceeded r
    then "Open workers that still have no fresh verification. The rollout has not completed a verification cycle."
    else "Wait for the first post-rollout verification cycle to finish before scoring this release."
  else if status "needs_attention" then
    if ro_GraceWindowExceeded r
    then "Treat this as a failed rollout until every attention worker is explained."
    else "Watch the affected workers through one full verification cycle, then open any that still need attention."
  else "No immediate action. Spot-check one worker, then keep watching diagnosis for regressions.".

Definition inferDeploymentNextChecks (r : DeploymentRolloutResponse) : list string :=
  let status s := ro_Status r =s s in
  if ro_DormantFleetAlert r
  then ["Confirm the source is at zero soak coverage because 100% of its workers are dormant.";
        "Resume the dormant fleet and verify at least one worker returns to running or probing.";
        "Confirm fresh heartbeats and post-resume verification results appear before trusting the rollout."]
  else if status "superseded" then ["Inspect the newest ready deployment for current rollout progress."]
  else if status "no_workers"
  then ["Confirm the main fleet reconciler is enabled."; "Create or re-register the expected main workers.";
        "Check /api/workers to verify the control plane can see the fleet."]
  else
    let checks :=
      if status "rolling_out"
      then ["Check that updated_workers reaches total_workers."; "Open any worker still on the previous SHA."]
      else if status "probing"
      then ["Wait for the next verification cycle to finish.";
            "Check that awaiting_verification_workers falls as updated workers report fresh results.";
            "Open workers still marked probing after that cycle."]
      else if status "settling"
      then ["Wait for the first post-rollout verification cycle to finish.";
            "Check that awaiting_verification_workers falls to zero.";
            "Open any worker that still has no fresh verification after the grace window."]
      else if status "needs_attention"
      then (["Open degraded, dormant, and runtime-unhealthy workers first.";
             "Check that awaiting_verification_workers is not masking workers that simply have not rerun yet.";
             "Check failure stage, signature, and probable subsystem on those workers."] ++
            (if (0 <? ro_RuntimeUnhealthyWorkers r)%Z
             then ["For runtime-unhealthy workers, open the incident JSON or prompt bundle and treat the current runtime snapshot as stronger evidence than older passing checks."]
             else []))%list
      else ["Spot-check one worker incident bundle after the rollout.";
            "Keep diagnosis open for at least one more verification cycle."] in
    if ro_GraceWindowExceeded r
    then (checks ++ [("The rollout has exceeded the " ++ DurationString rolloutAttentionGraceWindow ++
                      " grace window; escalate if it does not recover.")%string])%list
    else checks.

Definition applyDeploymentRolloutGuidance (now : time) (r : DeploymentRolloutResponse) : DeploymentRolloutResponse :=
  let r := r <| ro_GraceWindowExceeded := deploymentGraceWindowExceeded r now |> in
  let r := r <| ro_NextAction := inferDeploymentNextAction r |> in
  r <| ro_NextChecks := inferDeploymentNextChecks r |>.

Section Rollout.
Context `{Decoders}.
Variable db : soakDB.
Variable expectedRun : string -> option WorkerIdentity.

(** With the verification events of the worker, which the rollout does not
    pass. *)
Definition extractReportedRuntime (worker : Worker) : option RuntimePayload :=
  parseRuntimeJSON (w_LastRuntimeJSON worker) (default 0%Z (w_LastRuntimeAt worker)).
Definition runtimeStatus (worker : Worker) : string := SnapshotStatus (extractReportedRuntime worker).

Definition verifiedSinceDeploy (worker : Worker) (deployment : Deployment) : bool :=
  workerMatchesDeployment worker deployment && workerNeedsPostDeployVerification (w_Status worker) &&
  negb (IsZero (d_StartedAt deployment)) &&
  bool_decide (is_Some (latestVerificationInWindow
    (currentDeploymentVerifications (expectedRun (w_ID worker)) worker deployment (ListVerifications db (w_ID worker) 20))
    (d_StartedAt deployment) None)).

Definition workerProgress (deployment : Deployment) (worker : Worker) : DeploymentWorkerProgress :=
  let verifications := ListVerifications db (w_ID worker) 20 in
  let lastAt := match verifications with
    | v :: _ => match verificationObservedAt v with
                | Some t => if negb (Before t (w_CreatedAt worker)) then Some t else None
                | None => None end
    | [] => None end in
  let failure := match latestVerificationInWindow verifications (w_CreatedAt worker) None with
    | Some v => if activeFailure v then Some (classifyVerification v) else None
    | None => None end in
  mkProgress (w_ID worker) (w_Name worker) (w_Status worker) (w_GitSHA worker) (w_LitestreamSHA worker)
    (runtimeStatus worker) (workerMatchesDeployment worker deployment) (verifiedSinceDeploy worker deployment)
    (w_LastHeartbeatAt worker) lastAt
    (match failure with Some vf => vf_Stage vf | None => "" end)
    (match failure with Some vf => vf_Signature vf | None => "" end).

(** One worker's share of the counters. *)
Definition countProgress (r : DeploymentRolloutResponse) (p : DeploymentWorkerProgress) : DeploymentRolloutResponse :=
  let one (b : bool) : Z := if b then 1%Z else 0%Z in
  let has s := bool_decide (wp_Status p = s) in
  let needs := wp_Updated p && workerNeedsPostDeployVerification (wp_Status p) in
  r <| ro_TotalWorkers ::= Z.succ |>
    <| ro_UpdatedWorkers ::= Z.add (one (wp_Updated p)) |>
    <| ro_OutdatedWorkers ::= Z.add (one (negb (wp_Updated p))) |>
    <| ro_RunningWorkers ::= Z.add (one (has WorkerRunning)) |>
    <| ro_DegradedWorkers ::= Z.add (one (has WorkerDegraded)) |>
    <| ro_DormantWorkers ::= Z.add (one (has WorkerDormant)) |>
    <| ro_ProbingWorkers ::= Z.add (one (has WorkerProbing)) |>
    <| ro_RuntimeUnhealthyWorkers ::= Z.add (one (runtimeSnapshotNeedsAttention (wp_RuntimeSnapshotStatus p))) |>
    <| ro_AttentionWorkers ::= Z.add (one (workerNeedsAttention (wp_Status p) (wp_RuntimeSnapshotStatus p))) |>
    <| ro_VerifiedSinceDeploy ::= Z.add (one (needs && wp_VerifiedSinceDeploy p)) |>
    <| ro_AwaitingVerification ::= Z.add (one (needs && negb (wp_VerifiedSinceDeploy p))) |>
    <| ro_Workers ::= (fun l => l ++ [p]) |>.

(** A newer ready deployment of the source. *)
Definition superseded (deployment : Deployment) : bool :=
  match GetLatestReadyDeployment db (deploymentSource deployment) with
  | Some latest =>
      (d_Status deployment =s "ready") && negb (d_ID latest =? d_ID deployment)%Z &&
      (After (d_StartedAt latest) (d_StartedAt deployment) ||
       ((d_StartedAt latest =? d_StartedAt deployment)%Z && (d_ID deployment <? d_ID latest)%Z))
  | None => false
  end.

(** [dormantFleet] is the active fully-dormant condition of the source: its
    start, if it is active. *)
Definition buildDeploymentRollout (dormantFleet : option (option time)) (now : time) (deployment : Deployment)
  : DeploymentRolloutResponse :=
  let workers := ListWorkersForSource (db_workers db) (deploymentSource deployment) in
  let zero := mkRollout deployment "" 0 0 0 0 0 0 0 0 0 (bool_decide (is_Some dormantFleet))
                (default None dormantFleet) 0 0 [] "" false "" [] in
  let r := fold_left countProgress (map (workerProgress deployment) workers) zero in
  let r := r <| ro_Workers ::= SliceStable progressLess |> in
  let r := r <| ro_Status := inferDeploymentRolloutStatus r |> in
  let r :=
    if superseded deployment
    then r <| ro_Status := "superseded" |> <| ro_DormantFleetAlert := false |> <| ro_DormantFleetSince := None |>
    else r in
  let r := r <| ro_Summary := summarizeDeploymentRollout r |> in
  applyDeploymentRolloutGuidance now r.

Definition buildLatestDeploymentRollout (dormantFleet : string -> option (option time)) (now : time) (source : string)
  : option DeploymentRolloutResponse :=
  match GetLatestDeployment db (TrimSpace source) with
  | None => None
  | Some deployment => Some (buildDeploymentRollout (dormantFleet (deploymentSource deployment)) now deployment)
  end.
End Rollout.

(** * The counters count *)

Definition countb {A} (f : A -> bool) (l : list A) : Z := Z.of_nat (length (List.filter f l)).

Lemma countb_cons {A} (f : A -> bool) x l : countb f (x :: l) = ((if f x then 1 else 0) + countb f l)%Z.
Proof. unfold countb. simpl. destruct (f x); simpl; lia. Qed.
Lemma countb_nonneg {A} (f : A -> bool) l : (0 <= countb f l)%Z.
Proof. unfold countb. lia. Qed.
Lemma countb_zero {A} (f : A -> bool) l : (countb f l <= 0)%Z <-> forall x, In x l -> f x = false.
Proof.
  induction l as [|x l IH]; [unfold countb; simpl; split; [done|lia]|]. rewrite countb_cons. pose proof (countb_nonneg f l). split.
  - intros Hc y [<-|Hy]; [destruct (f x); [lia|done]|]. apply IH; [destruct (f x); lia|done].
  - intros Hf. rewrite (Hf x) by by left. assert (countb f l <= 0)%Z; [|lia]. apply IH. intros y Hy. apply Hf. by right.
Qed.
#[export] Instance countb_Permutation {A} (f : A -> bool) : Proper (Permutation ==> eq) (countb f).
Proof. intros l l' Hl. induction Hl; rewrite ?countb_cons; lia. Qed.
Lemma countb_map {A B} (g : A -> B) (f : B -> bool) l : countb f (map g l) = countb (fun x => f (g x)) l.
Proof. induction l as [|x l IH]; [done|]. rewrite map_cons, !countb_cons. by rewrite IH. Qed.
Lemma countb_split {A} (f g : A -> bool) l :
  countb g l = (countb (fun x => g x && f x) l + countb (fun x => g x && negb (f x)) l)%Z.
Proof. induction l as [|x l IH]; [done|]. rewrite !countb_cons, IH. destruct (g x), (f x); simpl; lia. Qed.
Lemma countb_true {A} (l : list A) : countb (fun _ => true) l = Z.of_nat (length l).
Proof. induction l as [|x l IH]; [done|]. rewrite countb_cons, IH. simpl. lia. Qed.
Lemma countb_le {A} (f g : A -> bool) l : (forall x, f x = true -> g x = true) -> (countb f l <= countb g l)%Z.
Proof.
  intros Hfg. induction l as [|x l IH]; [done|]. rewrite !countb_cons. specialize (Hfg x).
  destruct (f x); [rewrite Hfg by done|destruct (g x)]; lia.
Qed.

Definition hasStatus (s : WorkerStatus) (p : DeploymentWorkerProgress) : bool := bool_decide (wp_Status p = s).
Definition needsVerification (p : DeploymentWorkerProgress) : bool :=
  wp_Updated p && workerNeedsPostDeployVerification (wp_Status p).
Definition attention (p : DeploymentWorkerProgress) : bool :=
  workerNeedsAttention (wp_Status p) (wp_RuntimeSnapshotStatus p).
Definition unhealthy (p : DeploymentWorkerProgress) : bool :=
  runtimeSnapshotNeedsAttention (wp_RuntimeSnapshotStatus p).

Lemma fold_counts l r :
  let r' := fold_left countProgress l r in
  ro_TotalWorkers r' = (ro_TotalWorkers r + Z.of_nat (length l))%Z /\
  ro_UpdatedWorkers r' = (ro_UpdatedWorkers r + countb wp_Updated l)%Z /\
  ro_OutdatedWorkers r' = (ro_OutdatedWorkers r + countb (fun p => negb (wp_Updated p)) l)%Z /\
  ro_RunningWorkers r' = (ro_RunningWorkers r + countb (hasStatus WorkerRunning) l)%Z /\
  ro_DegradedWorkers r' = (ro_DegradedWorkers r + countb (hasStatus WorkerDegraded) l)%Z /\
  ro_DormantWorkers r' = (ro_DormantWorkers r + countb (hasStatus WorkerDormant) l)%Z /\
  ro_ProbingWorkers r' = (ro_ProbingWorkers r + countb (hasStatus WorkerProbing) l)%Z /\
  ro_RuntimeUnhealthyWorkers r' = (ro_RuntimeUnhealthyWorkers r + countb unhealthy l)%Z /\
  ro_AttentionWorkers r' = (ro_AttentionWorkers r + countb attention l)%Z /\
  ro_VerifiedSinceDeploy r' = (ro_VerifiedSinceDeploy r + countb (fun p => needsVerification p && wp_VerifiedSinceDeploy p) l)%Z /\
  ro_AwaitingVerification r' = (ro_AwaitingVerification r + countb (fun p => needsVerification p && negb (wp_VerifiedSinceDeploy p)) l)%Z /\
  ro_Workers r' = ro_Workers r ++ l.
Proof.
  revert r. induction l as [|p l IH]; intros r; simpl.
  { unfold countb. simpl. rewrite app_nil_r. split_and!; lia || done. }
  specialize (IH (countProgress r p)). simpl in IH. destruct IH as (-> & -> & -> & -> & -> & -> & -> & -> & -> & -> & -> & ->).
  rewrite !countb_cons. unfold hasStatus, attention, unhealthy, needsVerification.
  split_and!; try lia. by rewrite <- app_assoc.
Qed.

Lemma latest_spec pending since until l v :
  latestInWindow pending since until l = Some v ->
  In v l /\ Inconclusive v = false /\
  exists t, verificationObservedAt v = Some t /\ (since <= t)%Z /\
    match until with Some u => u = 0%Z \/ (t < u)%Z | None => True end.
Proof.
  revert pending. induction l as [|x l IH]; intros pending; [done|]. simpl.
  assert (forall p, latestInWindow p since until l = Some v -> (x = v \/ In v l) /\ Inconclusive v = false /\
    exists t, verificationObservedAt v = Some t /\ (since <= t)%Z /\
      match until with Some u => u = 0%Z \/ (t < u)%Z | None => True end) as Hrest.
  { intros p E. apply IH in E as (? & ? & ?). auto. }
  destruct (Aborted x) eqn:Ea; [by apply Hrest|]. destruct (verificationObservedAt x) as [t|] eqn:Et; [|by apply Hrest].
  destruct (Before t since) eqn:Eb; [by apply Hrest|].
  destruct (match until with Some u => _ | None => false end) eqn:Eu; [by apply Hrest|].
  destruct (Pending x) eqn:Ep; [by apply Hrest|].
  destruct (pending && Succeeded x); [done|]. intros E. simplify_eq. split_and!; [by left| |].
  - unfold Inconclusive. by rewrite Ea, Ep.
  - exists t. split_and!; [done|unfold Before in Eb; lia|]. destruct until as [u|]; [|done].
    unfold IsZero, Before in Eu. apply andb_false_iff in Eu as [Eu|Eu]; [left|right].
    + apply negb_false_iff, Z.eqb_eq in Eu. done.
    + apply negb_false_iff, Z.ltb_lt in Eu. done.
Qed.

Section RolloutSpec.
Context `{Decoders}.
Variables (db : soakDB) (expectedRun : string -> option WorkerIdentity) (dormantFleet : option (option time)) (now : time) (deployment : Deployment).

Let workers := ListWorkersForSource (db_workers db) (deploymentSource deployment).
Let progress := map (workerProgress db expectedRun deployment) workers.
Let rollout := buildDeploymentRollout db expectedRun dormantFleet now deployment.

Lemma rollout_fields :
  ro_TotalWorkers rollout = Z.of_nat (length progress) /\
  ro_UpdatedWorkers rollout = countb wp_Updated progress /\
  ro_OutdatedWorkers rollout = countb (fun p => negb (wp_Updated p)) progress /\
  ro_RunningWorkers rollout = countb (hasStatus WorkerRunning) progress /\
  ro_DegradedWorkers rollout = countb (hasStatus WorkerDegraded) progress /\
  ro_DormantWorkers rollout = countb (hasStatus WorkerDormant) progress /\
  ro_ProbingWorkers rollout = countb (hasStatus WorkerProbing) progress /\
  ro_RuntimeUnhealthyWorkers rollout = countb unhealthy progress /\
  ro_AttentionWorkers rollout = countb attention progress /\
  ro_VerifiedSinceDeploy rollout = countb (fun p => needsVerification p && wp_VerifiedSinceDeploy p) progress /\
  ro_AwaitingVerification rollout = countb (fun p => needsVerification p && negb (wp_VerifiedSinceDeploy p)) progress /\
  Permutation (ro_Workers rollout) progress /\
  ro_Status rollout = if superseded db deployment then "superseded" else inferDeploymentRolloutStatus rollout.
Proof.
  unfold rollout, buildDeploymentRollout. fold workers. fold progress.
  match goal with |- context [fold_left countProgress progress ?z] =>
    pose proof (fold_counts progress z) as Hf; simpl in Hf; set (folded := fold_left countProgress progress z) in * end.
  destruct Hf as (H1 & H2 & H3 & H4 & H5 & H6 & H7 & H8 & H9 & H10 & H11 & H12).
  unfold applyDeploymentRolloutGuidance. destruct (superseded db deployment); simpl;
    rewrite ?H1, ?H2, ?H3, ?H4, ?H5, ?H6, ?H7, ?H8, ?H9, ?H10, ?H11, ?H12; split_and!; try done;
    rewrite SliceStable_Permutation; done.
Qed.

(** The statuses an active worker can have besides the four that are counted. *)
Definition launching (p : DeploymentWorkerProgress) : bool :=
  match wp_Status p with WorkerPending | WorkerBuilding | WorkerStarting => true | _ => false end.

Lemma active_status w : In w workers -> w_Source w = deploymentSource deployment /\ inactive w = false /\ In w (db_workers db).
Proof.
  unfold workers, ListWorkersForSource. rewrite order_asc_In, filter_In. intros [Hw E].
  apply andb_true_iff in E as [E1 E2]. apply eqs_true in E1. apply negb_true_iff in E2. auto.
Qed.

Lemma status_partition :
  (countb (hasStatus WorkerRunning) progress + countb (hasStatus WorkerDegraded) progress +
   countb (hasStatus WorkerDormant) progress + countb (hasStatus WorkerProbing) progress +
   countb launching progress = Z.of_nat (length progress))%Z.
Proof.
  unfold progress. assert (forall w, In w workers -> inactive w = false) as Hact by (intros w Hw; apply active_status in Hw; tauto).
  clearbody workers. induction workers as [|w l IH]; [done|]. rewrite map_cons, !countb_cons.
  assert (inactive w = false) as Hw by (apply Hact; by left).
  rewrite length_cons, Nat2Z.inj_succ, <- IH by (intros x Hx; apply Hact; by right).
  unfold hasStatus, launching, inactive, status_in in *. simpl.
  destruct (w_Status w); simpl in *; try done; lia.
Qed.

(** The rollout's counters are exact: they partition the source's active
    workers by build and by status, every updated worker that owes a
    verification is counted as verified or awaiting, and a worker needs no
    attention exactly when it is running with a runtime that is not
    unhealthy. *)
Theorem rollout_counts :
  ro_TotalWorkers rollout = Z.of_nat (length workers) /\
  (ro_UpdatedWorkers rollout + ro_OutdatedWorkers rollout = ro_TotalWorkers rollout)%Z /\
  (ro_RunningWorkers rollout + ro_DegradedWorkers rollout + ro_DormantWorkers rollout + ro_ProbingWorkers rollout +
   countb launching (ro_Workers rollout) = ro_TotalWorkers rollout)%Z /\
  (ro_VerifiedSinceDeploy rollout + ro_AwaitingVerification rollout = countb needsVerification (ro_Workers rollout))%Z /\
  (ro_AttentionWorkers rollout + countb (fun p => negb (attention p)) (ro_Workers rollout) = ro_TotalWorkers rollout)%Z /\
  Permutation (map wp_WorkerID (ro_Workers rollout)) (map w_ID workers).
Proof.
  destruct rollout_fields as (-> & -> & -> & -> & -> & -> & -> & _ & -> & -> & -> & Hperm & _).
  assert (forall f, countb f (ro_Workers rollout) = countb f progress) as Hc.
  { intros f. by rewrite Hperm. }
  rewrite !Hc. unfold progress at 1. rewrite length_map. split_and!; [done|..].
  - rewrite <- (countb_true progress), (countb_split wp_Updated (fun _ => true) progress). done.
  - apply status_partition.
  - by rewrite (countb_split wp_VerifiedSinceDeploy needsVerification progress).
  - rewrite <- (countb_true progress), (countb_split attention (fun _ => true) progress). done.
  - rewrite Hperm. unfold progress. by rewrite map_map.
Qed.

Lemma stable_counters :
  ro_Status rollout = "stable" ->
  superseded db deployment = false /\ (0 < ro_TotalWorkers rollout)%Z /\ (ro_OutdatedWorkers rollout <= 0)%Z /\
  (ro_ProbingWorkers rollout <= 0)%Z /\ (ro_DormantWorkers rollout <= 0)%Z /\ (ro_DegradedWorkers rollout <= 0)%Z /\
  (ro_RuntimeUnhealthyWorkers rollout <= 0)%Z /\ (ro_AwaitingVerification rollout <= 0)%Z.
Proof.
  destruct rollout_fields as (Ht & _ & _ & _ & _ & _ & _ & _ & _ & _ & _ & _ & ->).
  destruct (superseded db deployment); [done|]. unfold inferDeploymentRolloutStatus.
  destruct (Z.eqb_spec (ro_TotalWorkers rollout) 0); [done|].
  destruct (Z.ltb_spec 0 (ro_OutdatedWorkers rollout)); [done|].
  destruct (Z.ltb_spec 0 (ro_ProbingWorkers rollout)); [done|].
  destruct (Z.ltb_spec 0 (ro_DormantWorkers rollout)); [done|].
  destruct (Z.ltb_spec 0 (ro_DegradedWorkers rollout)); [done|].
  destruct (Z.ltb_spec 0 (ro_RuntimeUnhealthyWorkers rollout)); [done|]. cbn [orb].
  destruct (Z.ltb_spec 0 (ro_AwaitingVerification rollout)); [done|]. intros _. split_and!; try done. lia.
Qed.

(** A verification of this deployment by the machine and run the worker has
    now, observed since the deployment started and conclusive. *)
Definition freshVerification (w : Worker) (v : Verification) : Prop :=
  In v (ListVerifications db (w_ID w) 20) /\ MatchesDeployment v w deployment = true /\
  id_MachineID (v_Run v) = w_FlyMachineID w /\ Inconclusive v = false /\
  (match expectedRun (w_ID w) with Some e => id_RunID (v_Run v) = id_RunID e | None => True end) /\
  exists t, verificationObservedAt v = Some t /\ (d_StartedAt deployment <= t)%Z.

Lemma verified_fresh w : verifiedSinceDeploy db expectedRun w deployment = true -> exists v, freshVerification w v.
Proof.
  unfold verifiedSinceDeploy. intros E. apply andb_true_iff in E as [_ E]. apply bool_decide_eq_true in E as [v E].
  apply latest_spec in E as (Hin & Hc & t & Ht & Hs & _).
  unfold currentDeploymentVerifications, deploymentVerifications in Hin. rewrite !filter_In in Hin.
  destruct Hin as [[Hin Hm] Hr]. apply andb_true_iff in Hr as [Hmach Hrun]. apply eqs_true in Hmach.
  exists v. split_and!; eauto. destruct (expectedRun (w_ID w)); [by apply eqs_true in Hrun|done].
Qed.

(** A rollout reported stable is: it is the source's current deployment,
    it has workers, and every active worker of the source runs its build, is
    neither degraded, dormant nor probing, has no unhealthy runtime, and has
    conclusively verified this deployment on its current machine and run since
    the deployment started, unless it has not reported yet. *)
Theorem stable_sound (Hst : ro_Status rollout = "stable") :
  superseded db deployment = false /\ workers <> [] /\
  forall w, In w (db_workers db) -> w_Source w = deploymentSource deployment -> inactive w = false ->
    workerMatchesDeployment w deployment = true /\
    In (w_Status w) [WorkerRunning; WorkerStarting; WorkerPending; WorkerBuilding] /\
    runtimeSnapshotNeedsAttention (runtimeStatus w) = false /\
    (In (w_Status w) [WorkerRunning; WorkerStarting] -> exists v, freshVerification w v).
Proof.
  apply stable_counters in Hst as (Hsup & Htot & Hout & Hprob & Hdor & Hdeg & Hunh & Haw).
  destruct rollout_fields as (H1 & _ & H3 & _ & H5 & H6 & H7 & H8 & _ & _ & H11 & _ & _).
  rewrite H1 in Htot. rewrite H3 in Hout. rewrite H5 in Hdeg. rewrite H6 in Hdor. rewrite H7 in Hprob. rewrite H8 in Hunh.
  rewrite H11 in Haw. unfold progress in Htot, Hout, Hdeg, Hdor, Hprob, Hunh, Haw.
  split_and!; [done|intros E; rewrite E in Htot; simpl in Htot; lia|]. intros w Hw Hsrc Hina.
  assert (In (workerProgress db expectedRun deployment w) (map (workerProgress db expectedRun deployment) workers)) as Hin.
  { apply in_map. unfold workers, ListWorkersForSource. apply order_asc_In, filter_In. split; [done|].
    by rewrite Hsrc, eqs_refl, Hina. }
  pose proof (proj1 (countb_zero _ _) Hout _ Hin) as E1. apply negb_false_iff in E1.
  pose proof (proj1 (countb_zero _ _) Hdeg _ Hin) as E2. pose proof (proj1 (countb_zero _ _) Hdor _ Hin) as E3.
  pose proof (proj1 (countb_zero _ _) Hprob _ Hin) as E4. pose proof (proj1 (countb_zero _ _) Hunh _ Hin) as E5.
  pose proof (proj1 (countb_zero _ _) Haw _ Hin) as E6.
  unfold hasStatus, unhealthy, needsVerification in *. simpl in E1, E2, E3, E4, E5, E6.
  split_and!; [done| |done|].
  - unfold inactive, status_in in Hina. destruct (w_Status w); simpl in *; try done; tauto.
  - intros Hs. apply verified_fresh. rewrite E1 in E6. destruct (verifiedSinceDeploy _ _ _ _); [done|].
    simpl in Hs, E6. destruct (w_Status w); simpl in E6; try done; destruct Hs as [|[|[]]]; done.
Qed.

(** The grace window is never exceeded by a settling rollout, however old its
    deployment is: the advice to open the workers without a fresh verification
    is never given. *)
Theorem settling_never_escalates (Hst : ro_Status rollout = "settling") :
  ro_GraceWindowExceeded rollout = false /\
  (dormantFleet = None ->
   ro_NextAction rollout = "Wait for the first post-rollout verification cycle to finish before scoring this release.").
Proof.
  unfold rollout, buildDeploymentRollout in *. fold workers in Hst |- *. fold progress in Hst |- *.
  match goal with |- context [applyDeploymentRolloutGuidance now ?r] => set (r0 := r) in * end.
  assert (ro_Status r0 = "settling") as H0 by exact Hst.
  assert (dormantFleet = None -> ro_DormantFleetAlert r0 = false) as Hal.
  { intros ->. unfold r0. destruct (superseded db deployment); [done|]. cbn [ro_DormantFleetAlert set_field].
    match goal with |- context [fold_left countProgress progress ?z] =>
      assert (forall l z', ro_DormantFleetAlert (fold_left countProgress l z') = ro_DormantFleetAlert z') as Hf
        by (intros l; induction l as [|p l IH]; intros z'; [done|simpl; by rewrite IH]);
      exact (Hf progress z) end. }
  clearbody r0. unfold applyDeploymentRolloutGuidance, deploymentGraceWindowExceeded, inferDeploymentNextAction.
  simpl. rewrite H0. simpl. destruct (IsZero _); simpl; (split; [done|]); intros Hd; by rewrite (Hal Hd).
Qed.
End RolloutSpec.

(** A fleet whose only worker has not started is reported stable. *)
Definition pending_worker : Worker :=
  Worker_zero <| w_ID := "w" |> <| w_Source := "main" |> <| w_GitSHA := "g" |> <| w_Status := WorkerPending |>.
Definition pending_deployment : Deployment :=
  Deployment_zero <| d_ID := 1%Z |> <| d_Source := "main" |> <| d_GitSHA := "g" |> <| d_Status := "ready" |>
    <| d_StartedAt := Hour |>.
Definition pending_db : soakDB :=
  emptyDB <| db_workers := [pending_worker] |> <| db_deployments := [pending_deployment] |>.

(** A rollout is called stable while its only worker is still pending and
    nothing has been verified. *)
Theorem pending_fleet_is_stable :
  let r := buildDeploymentRollout (H := exampleDecoders) pending_db (fun _ => None) None Hour pending_deployment in
  ro_Status r = "stable" /\ ro_VerifiedSinceDeploy r = 0%Z /\ ro_RunningWorkers r = 0%Z /\ ro_AttentionWorkers r = 1%Z.
Proof. vm_compute. auto. Qed.

Definition stable_verification : Verification :=
  Verification_zero <| v_WorkerID := "w" |> <| v_Attributed := true |> <| v_Passed := true |> <| v_Status := "passed" |>
    <| v_StartedAt := (2 * Hour)%Z |>
    <| v_Run := WorkerIdentity_zero <| id_DeploymentID := 1%Z |> <| id_GitSHA := "g" |> <| id_Source := "main" |>
         <| id_WorkerID := "w" |> <| id_MachineID := "m" |> <| id_RunID := "r" |> <| id_ProfileHash := "p" |>
         <| id_ValidatorID := "v" |> |>.
Definition stable_db : soakDB :=
  pending_db <| db_workers := [pending_worker <| w_Status := WorkerRunning |> <| w_FlyMachineID := "m" |>] |>
    <| db_verifications := [stable_verification] |>.

Lemma stable_sound_witness :
  exists v, freshVerification stable_db (fun _ => None) pending_deployment
              (pending_worker <| w_Status := WorkerRunning |> <| w_FlyMachineID := "m" |>) v.
Proof.
  assert (ro_Status (buildDeploymentRollout (H := exampleDecoders) stable_db (fun _ => None) None Hour pending_deployment) = "stable")
    as Hst by (vm_compute; reflexivity).
  destruct (stable_sound (H := exampleDecoders) stable_db (fun _ => None) None Hour pending_deployment Hst) as (_ & _ & Hall).
  apply (Hall (pending_worker <| w_Status := WorkerRunning |> <| w_FlyMachineID := "m" |>)).
  - left. vm_compute; reflexivity.
  - vm_compute; reflexivity.
  - vm_compute; reflexivity.
  - left. reflexivity.
Defined.
