(* ===== verification/Scorecard.v ===== *)
(** Scoring a deployment and comparing two: the scorecard and the comparison of
    [orchestrator/builders_deployment.go], the run eligibility and the
    reliability findings of [orchestrator/reliability.go], and the metering-run
    filter of metering_window.go.

    Go iterates over a map in an order that is not specified: the loops that
    range over one take the order from [RangeOrder], and the theorems hold for
    every order.  The evidence of the complete runs ([buildRunReliability]), the
    environmental policy of the process and the clock are arguments.  The
    counters are mathematical integers: they count workers. *)
From stdpp Require Import sorting.
From Stdlib Require Import Ascii SpecFloat.
From S2P Require Import Prelude GoStrings Model GoTime Classification EnvFailure GateFleet GateStore SoakDB GateFault WorkerStore Rollout.

(** * Ranging over a map *)

Class RangeOrder := {
  (** the order of the [n]-th loop *)
  range : nat -> forall {A}, gmap string A -> list (string * A);
  range_perm : forall n A (m : gmap string A), Permutation (range n m) (map_to_list m)
}.
Definition keyOrder : RangeOrder.
Proof. refine {| range := fun _ _ m => map_to_list m |}. done. Defined.
Definition reverseOrder : RangeOrder.
Proof. refine {| range := fun _ _ m => rev (map_to_list m) |}. intros. symmetry. apply Permutation_rev. Defined.

(** * Complete-run evidence *)

Record WorkerRunEvidence := mkEvidence {
  re_ProfileCapability : string;
  re_WorkerID : string;
  re_Profile : string;
  re_Region : string;
  re_WorkloadSHA : string;
  re_ProfileHash : string;
  re_CurrentHealth : string;
  re_VerificationCount : Z;
  re_UnexpectedFailures : Z;
  re_ExpectedInjections : Z;
  re_UnattributedObservations : Z;
  re_IncompleteObservations : Z;
  re_WorkloadMutations : Z;
  re_WorkloadProgress : Z;
  re_MaintenanceSnapshots : Z;
  re_MaintenanceCompactions : Z;
  re_MaintenanceRetentions : Z;
  re_FirstVerification : option time;
  re_LastVerification : option time;
  re_VerifiedSpanSeconds : float64;
  re_MaxVerificationGapSeconds : float64;
  re_HistoryComplete : bool;
  re_CoverageComplete : bool;
  re_Eligible : bool;
  re_EligibilityReasons : list string
}.
#[export] Instance WorkerRunEvidence_eta : Settable WorkerRunEvidence :=
  fun r => mkEvidence (re_ProfileCapability r) (re_WorkerID r) (re_Profile r) (re_Region r) (re_WorkloadSHA r)
    (re_ProfileHash r) (re_CurrentHealth r) (re_VerificationCount r) (re_UnexpectedFailures r) (re_ExpectedInjections r)
    (re_UnattributedObservations r) (re_IncompleteObservations r) (re_WorkloadMutations r) (re_WorkloadProgress r)
    (re_MaintenanceSnapshots r) (re_MaintenanceCompactions r) (re_MaintenanceRetentions r) (re_FirstVerification r)
    (re_LastVerification r) (re_VerifiedSpanSeconds r) (re_MaxVerificationGapSeconds r) (re_HistoryComplete r)
    (re_CoverageComplete r) (re_Eligible r) (re_EligibilityReasons r).
Definition WorkerRunEvidence_zero : WorkerRunEvidence :=
  mkEvidence "" "" "" "" "" "" "" 0 0 0 0 0 0 0 0 0 0 None None f64_zero f64_zero false false false [].

(** [now] is read only when the window has no end. *)
Definition evaluateRunEligibility (now : time) (e : WorkerRunEvidence) (start : time) (end_ : option time)
    (maxGap minimumSpan : duration) : WorkerRunEvidence :=
  let end_ := default now end_ in
  let reason (b : bool) (text : string) : list string := if b then [text] else [] in
  let coverage := (
    reason (negb (re_ProfileCapability e =s "disabled") && negb (re_ProfileCapability e =s "observed"))
      "profiling observation capability is pending or unknown" ++
    reason (negb (re_HistoryComplete e) || (0 <? re_UnattributedObservations e)%Z)
      "history incomplete or attribution unproven" ++
    reason (0 <? re_IncompleteObservations e)%Z "pending, aborted, or unavailable observations" ++
    reason ((re_VerificationCount e <? 2)%Z || f64_ltb (re_VerifiedSpanSeconds e) (Seconds minimumSpan))
      "insufficient measured verification span or count" ++
    reason (match re_FirstVerification e with None => true | Some f => (maxGap <? time_Sub f start)%Z end ||
            f64_ltb (Seconds maxGap) (re_MaxVerificationGapSeconds e) ||
            match re_LastVerification e with None => true | Some l => (maxGap <? time_Sub end_ l)%Z end)
      "verification coverage gap" ++
    reason ((re_WorkloadProgress e =? 0)%Z && (re_WorkloadMutations e =? 0)%Z) "workload progress unproven" ++
    reason ((re_MaintenanceSnapshots e =? 0)%Z || (re_MaintenanceCompactions e =? 0)%Z || (re_MaintenanceRetentions e =? 0)%Z)
      "snapshot, compaction, or positive retention exposure unobserved" ++
    reason (re_CurrentHealth e =s "pending") "latest verification is pending")%list in
  let reasons := (coverage ++
    reason (0 <? re_UnexpectedFailures e)%Z "unexpected incidents remain in complete-run history" ++
    reason (0 <? re_ExpectedInjections e)%Z "fault injection exposure is not a clean soak" ++
    reason (negb (re_CurrentHealth e =s "passed")) "current verification health is not passed")%list in
  e <| re_EligibilityReasons := reasons |>
    <| re_CoverageComplete := bool_decide (coverage = []) |>
    <| re_Eligible := bool_decide (reasons = []) |>.

Definition reliabilityFinding (base head : Z) (covered : bool) : string :=
  if negb covered then "inconclusive"
  else if (0 <? base)%Z && (head =? 0)%Z then "fixed"
  else if (base =? 0)%Z && (0 <? head)%Z then "new"
  else if (base <? head)%Z then "regressed"
  else if (head <? base)%Z then "improved"
  else "unchanged".

Record ReliabilityFinding := mkFinding {
  rf_Profile : string;
  rf_Region : string;
  rf_Classification : string;
  rf_BaseFailures : Z;
  rf_HeadFailures : Z
}.

Definition evidenceKey (e : WorkerRunEvidence) : string := re_Profile e ++ String "000" "" ++ re_Region e.
Definition mergeEvidence (m : gmap string WorkerRunEvidence) (e : WorkerRunEvidence) : gmap string WorkerRunEvidence :=
  let e := match m !! evidenceKey e with
    | Some prior => e <| re_UnexpectedFailures ::= Z.add (re_UnexpectedFailures prior) |> <| re_CoverageComplete := false |>
    | None => e
    end in
  <[evidenceKey e := e]> m.
Definition collectEvidence (l : list WorkerRunEvidence) : gmap string WorkerRunEvidence := fold_left mergeEvidence l ∅.

(** A profile and region only the base ran is there with nothing observed. *)
Definition absentInHead (after : gmap string WorkerRunEvidence) (entry : string * WorkerRunEvidence)
  : gmap string WorkerRunEvidence :=
  match after !! entry.1 with
  | Some _ => after
  | None => <[entry.1 := WorkerRunEvidence_zero <| re_Profile := re_Profile entry.2 |> <| re_Region := re_Region entry.2 |>]> after
  end.

Definition coveredBy (b h : WorkerRunEvidence) : bool :=
  re_CoverageComplete b && re_CoverageComplete h && negb (re_WorkloadSHA b =s "") &&
  (re_WorkloadSHA b =s re_WorkloadSHA h) && negb (re_ProfileHash b =s "") && (re_ProfileHash b =s re_ProfileHash h) &&
  (re_VerificationCount b =? re_VerificationCount h)%Z &&
  f64_leb (SFabs (SFsub f64_prec f64_emax (re_VerifiedSpanSeconds b) (re_VerifiedSpanSeconds h))) (f64_of_Z 60).

Definition findingFor (before : gmap string WorkerRunEvidence) (entry : string * WorkerRunEvidence) : ReliabilityFinding :=
  let h := entry.2 in
  let b := default WorkerRunEvidence_zero (before !! entry.1) in
  let covered := match before !! entry.1 with Some b => coveredBy b h | None => false end in
  mkFinding (re_Profile h) (re_Region h) (reliabilityFinding (re_UnexpectedFailures b) (re_UnexpectedFailures h) covered)
    (re_UnexpectedFailures b) (re_UnexpectedFailures h).

(** * Outcomes and scorecards *)

Record DeploymentFailureCount := mkFailureCount {
  fc_Signature : string;
  fc_Stage : string;
  fc_Category : string;
  fc_Severity : string;
  fc_Count : Z
}.

Record DeploymentWorkerOutcome := mkOutcome {
  wo_WorkerID : string;
  wo_Name : string;
  wo_Profile : string;
  wo_Passed : bool;
  wo_VerifiedAt : option time;
  wo_FailureStage : string;
  wo_FailureSignature : string;
  wo_FailureCategory : string;
  wo_FailureSeverity : string;
  wo_ProbableSubsystem : string
}.

Record DeploymentScorecard := mkScorecard {
  sc_Reliability : list WorkerRunEvidence;
  sc_Deployment : Deployment;
  sc_WindowStart : time;
  sc_WindowEnd : option time;
  sc_TotalWorkers : Z;
  sc_VerifiedWorkers : Z;
  sc_PassedWorkers : Z;
  sc_FailedWorkers : Z;
  sc_ActionableFailedWorkers : Z;
  sc_FixtureFailures : Z;
  sc_EnvironmentalFailures : Z;
  sc_RampUpFailures : Z;
  sc_AwaitingWorkers : Z;
  sc_MeteringWindowExcluded : Z;
  sc_PassRate : float64;
  sc_Failures : list DeploymentFailureCount;
  sc_Outcomes : list DeploymentWorkerOutcome
}.
#[export] Instance DeploymentScorecard_eta : Settable DeploymentScorecard :=
  fun r => mkScorecard (sc_Reliability r) (sc_Deployment r) (sc_WindowStart r) (sc_WindowEnd r) (sc_TotalWorkers r)
    (sc_VerifiedWorkers r) (sc_PassedWorkers r) (sc_FailedWorkers r) (sc_ActionableFailedWorkers r) (sc_FixtureFailures r)
    (sc_EnvironmentalFailures r) (sc_RampUpFailures r) (sc_AwaitingWorkers r) (sc_MeteringWindowExcluded r)
    (sc_PassRate r) (sc_Failures r) (sc_Outcomes r).

Definition workerIncludedInReleaseQuality (worker : Worker) : bool :=
  let region := TrimSpace (w_Region worker) in
  if negb (region =s "") && negb (region =s "ord") then false
  else
    let profile := TrimSpace (w_ProfileName worker) in
    if (profile =s "low-vol-syd") || (profile =s "high-vol-ams") then false
    else negb (IsManyDBProfile (w_ProfileName worker)).

Definition deploymentScorecardWorkers (db : soakDB) (deployment : Deployment) : list Worker :=
  List.filter workerIncludedInReleaseQuality (ListWorkersForSource (db_workers db) (deploymentScorecardSource deployment)).

(** Newest first, of those that started earlier. *)
Definition verificationsBefore (l : list Verification) (v : Verification) : list Verification :=
  order_desc v_StartedAt (List.filter (fun c => Before (v_StartedAt c) (v_StartedAt v)) l).

Definition isDeploymentRampUpFailure (worker : Worker) (v : Verification) (l : list Verification) : bool :=
  if IsZero (w_CreatedAt worker) then false
  else
    let createdAt := w_CreatedAt worker in
    if Before (v_StartedAt v) createdAt || negb (Before (v_StartedAt v) (time_Add createdAt rampUpFailureDeadline)) then false
    else negb (existsb (fun c => Before (v_StartedAt c) (v_StartedAt v) && Succeeded c) l).

Section Scorecard.
Context `{Decoders} `{RangeOrder}.
Variable processPolicy : EnvironmentalFailurePolicy.
(** [json.Unmarshal] of a profile configuration: the raw [metering_window]
    field; [None] on an error. *)
Variable decodeMarker : string -> option string.

Definition deploymentFailureCategory (worker : Worker) (v : Verification) (l : list Verification) : string :=
  let policy := normalized processPolicy in
  let failure := classifyVerification v in
  if vf_Signature failure =s "soak_fixture_disk_exhausted" then failureCategorySoakFixture
  else if isTransientObjectStoreFailure (vf_Classification failure) policy &&
          negb (environmentalStreakEscalated (verificationsBefore l v) policy)
  then failureCategoryEnvironmental
  else if isDeploymentRampUpFailure worker v l then failureCategoryRampUp
  else failureCategoryActionable.

Definition scoreDeploymentWorker (worker : Worker) (deployment : Deployment) (l : list Verification)
    (windowEnd : option time) : option DeploymentWorkerOutcome :=
  let l := deploymentVerifications worker deployment l in
  match latestVerificationInWindow l (d_StartedAt deployment) windowEnd with
  | None => None
  | Some v =>
      let outcome := mkOutcome (w_ID worker) (w_Name worker) (id_ProfileName (v_Run v)) (Succeeded v)
                       (verificationObservedAt v) in
      if Failed v then
        let vf := classifyVerification v in
        let category := deploymentFailureCategory worker v l in
        Some (outcome (vf_Stage vf) (vf_Signature vf) category (failureSeverityForCategory category)
                (inferProbableSubsystem (vf_Stage vf) (vf_Signature vf)))
      else Some (outcome "" "" "" "" "")
  end.

Definition countFailure (failureCounts : gmap string DeploymentFailureCount) (o : DeploymentWorkerOutcome)
  : gmap string DeploymentFailureCount :=
  let count := match failureCounts !! wo_FailureSignature o with Some f => fc_Count f | None => 0%Z end in
  let category := GateFleet.firstNonEmpty [wo_FailureCategory o; failureCategoryActionable] in
  <[wo_FailureSignature o := mkFailureCount (wo_FailureSignature o) (wo_FailureStage o) category
                               (failureSeverityForCategory category) (count + 1)]> failureCounts.

Definition countDeploymentScorecardOutcome (state : DeploymentScorecard * gmap string DeploymentFailureCount)
    (outcome : option DeploymentWorkerOutcome) : DeploymentScorecard * gmap string DeploymentFailureCount :=
  let '(scorecard, failureCounts) := state in
  match outcome with
  | None => (scorecard <| sc_AwaitingWorkers ::= Z.succ |>, failureCounts)
  | Some o =>
      let scorecard := scorecard <| sc_VerifiedWorkers ::= Z.succ |> in
      let '(scorecard, failureCounts) :=
        if wo_Passed o then (scorecard <| sc_PassedWorkers ::= Z.succ |>, failureCounts)
        else
          let scorecard := scorecard <| sc_FailedWorkers ::= Z.succ |> in
          let category := wo_FailureCategory o in
          (if category =s failureCategoryRampUp then scorecard <| sc_RampUpFailures ::= Z.succ |>
           else if category =s failureCategoryEnvironmental then scorecard <| sc_EnvironmentalFailures ::= Z.succ |>
           else if category =s failureCategorySoakFixture then scorecard <| sc_FixtureFailures ::= Z.succ |>
           else scorecard <| sc_ActionableFailedWorkers ::= Z.succ |>,
           countFailure failureCounts o) in
      (scorecard <| sc_Outcomes ::= (fun l => l ++ [o])%list |>, failureCounts)
  end.

Definition failureLess (a b : DeploymentFailureCount) : bool :=
  if negb (fc_Count a =? fc_Count b)%Z then (fc_Count b <? fc_Count a)%Z
  else text_ltb (fc_Signature a) (fc_Signature b).
Definition outcomeLess (a b : DeploymentWorkerOutcome) : bool := text_ltb (wo_Name a) (wo_Name b).

Definition finalizeDeploymentScorecard (scorecard : DeploymentScorecard)
    (failureCounts : gmap string DeploymentFailureCount) : DeploymentScorecard :=
  let scorecard :=
    if (0 <? sc_TotalWorkers scorecard)%Z
    then scorecard <| sc_PassRate := f64_div (f64_of_Z (sc_PassedWorkers scorecard)) (f64_of_Z (sc_TotalWorkers scorecard)) |>
    else scorecard in
  scorecard <| sc_Failures ::= (fun l => SliceStable failureLess (l ++ map snd (range 0 failureCounts))%list) |>
            <| sc_Outcomes ::= SliceStable outcomeLess |>.

Definition runInMeteringWindow (run : WorkerIdentity) : bool :=
  if negb (Contains (id_ProfileConfig run) (String "034" "metering_window" ++ String "034" "")) then false
  else match decodeMarker (id_ProfileConfig run) with None => false | Some raw => raw =s "true" end.
Definition excludeMeteringRunVerifications (l : list Verification) : list Verification * Z :=
  if negb (existsb (fun v => runInMeteringWindow (v_Run v)) l) then (l, 0%Z)
  else
    let kept := List.filter (fun v => negb (runInMeteringWindow (v_Run v))) l in
    (kept, Z.of_nat (length l) - Z.of_nat (length kept))%Z.

Definition CountMeteringRunVerifications (db : soakDB) (workerID : string) (deploymentID : Z) : Z :=
  countb (fun v => (v_WorkerID v =s workerID) && (id_DeploymentID (v_Run v) =? deploymentID)%Z && negb (nonMeteringRun v))
    (db_verifications db).

Definition scorecardVerifications (db : soakDB) (workerID : string) (deploymentID : Z) (sourceMetered : bool)
  : list Verification * Z :=
  if negb sourceMetered then excludeMeteringRunVerifications (ListVerifications db workerID 256)
  else (ListVerificationsExcludingMeteringRuns db workerID 256, CountMeteringRunVerifications db workerID deploymentID).

Section Build.
Variables (db : soakDB) (metered : bool) (deployment : Deployment) (windowEnd : option time).

(** One worker of the loop; [metered]: the source has a metering window. *)
Definition scoreWorker (state : DeploymentScorecard * gmap string DeploymentFailureCount) (worker : Worker)
  : DeploymentScorecard * gmap string DeploymentFailureCount :=
  let '(verifications, excluded) := scorecardVerifications db (w_ID worker) (d_ID deployment) metered in
  let '(scorecard, failureCounts) := state in
  countDeploymentScorecardOutcome (scorecard <| sc_MeteringWindowExcluded ::= Z.add excluded |>, failureCounts)
    (scoreDeploymentWorker worker deployment verifications windowEnd).

Definition buildDeploymentScorecard (reliability : list WorkerRunEvidence) : DeploymentScorecard :=
  let workers := deploymentScorecardWorkers db deployment in
  let zero := mkScorecard [] deployment (d_StartedAt deployment) windowEnd (Z.of_nat (length workers))
                0 0 0 0 0 0 0 0 0 f64_zero [] [] in
  let '(scorecard, failureCounts) := fold_left scoreWorker workers (zero, ∅) in
  (finalizeDeploymentScorecard scorecard failureCounts) <| sc_Reliability := reliability |>.
End Build.
End Scorecard.

(** * Comparisons *)

Record DeploymentComparisonResponse := mkComparison {
  cmp_ReliabilityFindings : list ReliabilityFinding;
  cmp_BaseSource : string;
  cmp_HeadSource : string;
  cmp_ComparisonKind : string;
  cmp_Base : option DeploymentScorecard;
  cmp_Head : DeploymentScorecard;
  cmp_Verdict : string;
  cmp_PassDelta : Z;
  cmp_FailDelta : Z;
  cmp_AwaitingDelta : Z;
  cmp_ImprovedWorkers : list DeploymentWorkerOutcome;
  cmp_RegressedWorkers : list DeploymentWorkerOutcome;
  cmp_NewFailures : list DeploymentFailureCount;
  cmp_ResolvedFailures : list DeploymentFailureCount
}.
#[export] Instance DeploymentComparisonResponse_eta : Settable DeploymentComparisonResponse :=
  fun r => mkComparison (cmp_ReliabilityFindings r) (cmp_BaseSource r) (cmp_HeadSource r) (cmp_ComparisonKind r)
    (cmp_Base r) (cmp_Head r) (cmp_Verdict r) (cmp_PassDelta r) (cmp_FailDelta r) (cmp_AwaitingDelta r)
    (cmp_ImprovedWorkers r) (cmp_RegressedWorkers r) (cmp_NewFailures r) (cmp_ResolvedFailures r).

Definition failureExcludedFromComparison (category : string) : bool :=
  (category =s failureCategoryRampUp) || (category =s failureCategoryEnvironmental).
Definition comparisonOutcomePassed (o : DeploymentWorkerOutcome) : bool :=
  wo_Passed o || failureExcludedFromComparison (wo_FailureCategory o).
Definition comparisonOutcomeFailed (o : DeploymentWorkerOutcome) : bool :=
  negb (wo_Passed o) && negb (failureExcludedFromComparison (wo_FailureCategory o)).
Definition comparisonPassedWorkers (s : DeploymentScorecard) : Z :=
  (sc_PassedWorkers s + sc_RampUpFailures s + sc_EnvironmentalFailures s)%Z.
Definition comparisonFailedWorkers (s : DeploymentScorecard) : Z :=
  (sc_ActionableFailedWorkers s + sc_FixtureFailures s)%Z.
Definition comparisonOutcomeKey (o : DeploymentWorkerOutcome) : string :=
  GateFleet.firstNonEmpty [TrimSpace (wo_Profile o); TrimSpace (wo_WorkerID o); TrimSpace (wo_Name o)].

Definition byWorker (outcomes : list DeploymentWorkerOutcome) : gmap string DeploymentWorkerOutcome :=
  fold_left (fun m o => <[comparisonOutcomeKey o := o]> m) outcomes ∅.
Definition comparedFailure (m : gmap string DeploymentFailureCount) (f : DeploymentFailureCount)
  : gmap string DeploymentFailureCount :=
  if failureExcludedFromComparison (fc_Category f) then m else <[fc_Signature f := f]> m.
Definition comparedFailures (failures : list DeploymentFailureCount) : gmap string DeploymentFailureCount :=
  fold_left comparedFailure failures ∅.

Definition inferDeploymentComparisonVerdict (c : DeploymentComparisonResponse) (headCompletedSuccess : bool) : string :=
  let some {A} (l : list A) := match l with [] => false | _ => true end in
  match cmp_Base c with
  | None => "no_baseline"
  | Some base =>
      if headCompletedSuccess then "passed"
      else if (sc_VerifiedWorkers base =? 0)%Z || (sc_VerifiedWorkers (cmp_Head c) =? 0)%Z then "insufficient_data"
      else if some (cmp_RegressedWorkers c) && negb (some (cmp_ImprovedWorkers c)) then "worse"
      else if some (cmp_ImprovedWorkers c) && negb (some (cmp_RegressedWorkers c)) && (cmp_FailDelta c <=? 0)%Z then "better"
      else if (0 <? cmp_PassDelta c)%Z && (cmp_FailDelta c <? 0)%Z then "better"
      else if (cmp_PassDelta c <? 0)%Z || (0 <? cmp_FailDelta c)%Z then "worse"
      else if some (cmp_ImprovedWorkers c) || some (cmp_RegressedWorkers c) || some (cmp_NewFailures c) ||
              some (cmp_ResolvedFailures c) then "mixed"
      else "unchanged"
  end.

Definition applyReliabilityVerdict (c : DeploymentComparisonResponse) : DeploymentComparisonResponse :=
  let classified (s : string) := existsb (fun f => rf_Classification f =s s) (cmp_ReliabilityFindings c) in
  match sc_Reliability (cmp_Head c) with
  | [] => c
  | evidence =>
      if (cmp_Verdict c =s "worse") || (cmp_Verdict c =s "mixed") then c <| cmp_Verdict := "worse" |>
      else if classified "new" || classified "regressed" then c <| cmp_Verdict := "worse" |>
      else if classified "inconclusive" then c <| cmp_Verdict := "insufficient_data" |>
      else if existsb (fun e => negb (re_Eligible e)) evidence then c <| cmp_Verdict := "insufficient_data" |>
      else c
  end.

Section Comparison.
Context `{RangeOrder}.

Definition compareRunReliability (base head : list WorkerRunEvidence) : list ReliabilityFinding :=
  let before := collectEvidence base in
  let after := fold_left absentInHead (range 1 before) (collectEvidence head) in
  SliceStable (fun a b => text_ltb (rf_Profile a ++ rf_Region a) (rf_Profile b ++ rf_Region b))
    (map (findingFor before) (range 2 after)).

Definition improvedIn (baseByWorker : gmap string DeploymentWorkerOutcome) (entry : string * DeploymentWorkerOutcome) : bool :=
  match baseByWorker !! entry.1 with
  | None => false
  | Some base => negb (comparisonOutcomePassed base) && comparisonOutcomePassed entry.2
  end.
Definition regressedIn (baseByWorker : gmap string DeploymentWorkerOutcome) (entry : string * DeploymentWorkerOutcome) : bool :=
  match baseByWorker !! entry.1 with
  | None => false
  | Some base => comparisonOutcomePassed base && comparisonOutcomeFailed entry.2
  end.
Definition missingFrom (failures : gmap string DeploymentFailureCount) (entry : string * DeploymentFailureCount) : bool :=
  match failures !! entry.1 with None => true | Some _ => false end.

(** The findings, the lists and the deltas. *)
Definition compareScorecards (c : DeploymentComparisonResponse) (base : DeploymentScorecard) : DeploymentComparisonResponse :=
  let head := cmp_Head c in
  let baseByWorker := byWorker (sc_Outcomes base) in
  let headByWorker := byWorker (sc_Outcomes head) in
  let improved := map snd (List.filter (improvedIn baseByWorker) (range 3 headByWorker)) in
  let regressed := map snd (List.filter (regressedIn baseByWorker) (range 3 headByWorker)) in
  let headFailures := comparedFailures (sc_Failures head) in
  let baseFailures := comparedFailures (sc_Failures base) in
  let new := map snd (List.filter (missingFrom baseFailures) (range 4 headFailures)) in
  let resolved := map snd (List.filter (missingFrom headFailures) (range 5 baseFailures)) in
  c <| cmp_ReliabilityFindings := compareRunReliability (sc_Reliability base) (sc_Reliability head) |>
    <| cmp_ImprovedWorkers ::= (fun l => SliceStable outcomeLess (l ++ improved)%list) |>
    <| cmp_RegressedWorkers ::= (fun l => SliceStable outcomeLess (l ++ regressed)%list) |>
    <| cmp_NewFailures ::= (fun l => SliceStable failureLess (l ++ new)%list) |>
    <| cmp_ResolvedFailures ::= (fun l => SliceStable failureLess (l ++ resolved)%list) |>
    <| cmp_PassDelta := (comparisonPassedWorkers head - comparisonPassedWorkers base)%Z |>
    <| cmp_FailDelta := (comparisonFailedWorkers head - comparisonFailedWorkers base)%Z |>
    <| cmp_AwaitingDelta := (sc_AwaitingWorkers head - sc_AwaitingWorkers base)%Z |>.

Definition finalizeDeploymentComparison (c : DeploymentComparisonResponse) (headCompletedSuccess : bool)
  : DeploymentComparisonResponse :=
  match cmp_Base c with
  | None => c
  | Some base =>
      let c := compareScorecards c base in
      let c := c <| cmp_Verdict := inferDeploymentComparisonVerdict c headCompletedSuccess |> in
      let c := if headCompletedSuccess
               then c <| cmp_PassDelta := 0%Z |> <| cmp_FailDelta := 0%Z |> <| cmp_AwaitingDelta := 0%Z |> else c in
      applyReliabilityVerdict c
  end.
End Comparison.

(** * The comparisons of a request *)

Record RunArchive := mkArchive {
  ra_ID : Z;
  ra_DeploymentID : Z;
  ra_Source : string;
  ra_ArchiveType : string;
  ra_GitSHA : string;
  ra_LitestreamSHA : string;
  ra_ArchivedAt : time
}.

Definition runArchiveTypeSuccess := "success".

Definition newerArchive (a b : RunArchive) : bool :=
  (ra_ArchivedAt b <? ra_ArchivedAt a)%Z || ((ra_ArchivedAt a =? ra_ArchivedAt b)%Z && (ra_ID b <? ra_ID a)%Z).
Definition ListRunArchives (archives : list RunArchive) (source archiveType : string) (limit : Z) : list RunArchive :=
  let limit := if (limit <=? 0)%Z then 20%Z else limit in
  let clause (value : string) (field : RunArchive -> string) (a : RunArchive) :=
    (TrimSpace value =s "") || (field a =s TrimSpace value) in
  firstn (Z.to_nat limit) (SliceStable newerArchive
    (List.filter (fun a => clause source ra_Source a && clause archiveType ra_ArchiveType a) archives)).

(** The newest success archive of each source. *)
Definition archiveBySource (m : gmap string RunArchive) (a : RunArchive) : gmap string RunArchive :=
  let source := TrimSpace (ra_Source a) in
  let source := if source =s "" then "main" else source in
  match m !! source with Some _ => m | None => <[source := a]> m end.
Definition listSuccessArchivesBySource (archives : list RunArchive) : gmap string RunArchive :=
  fold_left archiveBySource (ListRunArchives archives "" runArchiveTypeSuccess 10000) ∅.

Definition runArchiveMatchesDeployment (a : RunArchive) (d : Deployment) : bool :=
  if (0 <? ra_DeploymentID a)%Z && (0 <? d_ID d)%Z && negb (ra_DeploymentID a =? d_ID d)%Z then false
  else if negb (TrimSpace (ra_GitSHA a) =s "") && negb (TrimSpace (ra_GitSHA a) =s TrimSpace (d_GitSHA d)) then false
  else if negb (TrimSpace (ra_LitestreamSHA a) =s "") && negb (TrimSpace (ra_LitestreamSHA a) =s TrimSpace (d_LitestreamSHA d))
  then false
  else true.

Definition allWorkersStopped (workers : list Worker) : bool :=
  match workers with [] => false | _ => forallb (status_in [WorkerStopped]) workers end.

Definition deploymentComparisonHeadCompletedSuccess (db : soakDB) (archives : list RunArchive) (head : Deployment) : bool :=
  let source := deploymentScorecardSource head in
  match listSuccessArchivesBySource archives !! source with
  | None => false
  | Some archive =>
      if negb (runArchiveMatchesDeployment archive head) then false
      else allWorkersStopped (ListWorkersFiltered db "" source)
  end.

Definition ListDeployments (db : soakDB) (source : string) (limit : nat) : list Deployment :=
  firstn limit (SliceStable newer_deployment
    (List.filter (fun d => (source =s "") || (d_Source d =s source)) (db_deployments db))).

Section Requested.
Context `{Decoders} `{RangeOrder}.
Variables (processPolicy : EnvironmentalFailurePolicy) (decodeMarker : string -> option string) (db : soakDB).
(** the sources with a metering window, the success archives and the evidence of
    the complete runs *)
Variables (metered : string -> bool) (archives : list RunArchive)
  (buildRunReliability : Deployment -> option time -> list WorkerRunEvidence).

Definition scorecardOf (d : Deployment) (windowEnd : option time) : DeploymentScorecard :=
  buildDeploymentScorecard processPolicy decodeMarker db (metered (deploymentScorecardSource d)) d windowEnd
    (buildRunReliability d windowEnd).

Definition buildLatestDeploymentComparison (source : string) : option DeploymentComparisonResponse :=
  match ListDeployments db (TrimSpace source) 2 with
  | [] => None
  | head :: rest =>
      let comparison := mkComparison [] (d_Source head) (d_Source head) "source_history" None (scorecardOf head None)
                          "no_baseline" 0 0 0 [] [] [] [] in
      match rest with
      | [] => Some comparison
      | base :: _ =>
          Some (finalizeDeploymentComparison
                  (comparison <| cmp_Base := Some (scorecardOf base (Some (d_StartedAt head))) |>) false)
      end
  end.

Definition buildLatestCrossSourceDeploymentComparison (baseSource headSource : string)
  : option DeploymentComparisonResponse :=
  match GetLatestDeployment db (TrimSpace headSource) with
  | None => None
  | Some head =>
      let comparison := mkComparison [] (GateFleet.firstNonEmpty [TrimSpace baseSource; "main"])
                          (GateFleet.firstNonEmpty [TrimSpace headSource; d_Source head; "main"]) "cross_source" None
                          (scorecardOf head None) "no_baseline" 0 0 0 [] [] [] [] in
      match GetLatestDeployment db (cmp_BaseSource comparison) with
      | None => Some comparison
      | Some base =>
          Some (finalizeDeploymentComparison (comparison <| cmp_Base := Some (scorecardOf base None) |>)
                  (deploymentComparisonHeadCompletedSuccess db archives head))
      end
  end.

Definition buildRequestedDeploymentComparison (source baseSource headSource : string)
  : option DeploymentComparisonResponse :=
  let source := TrimSpace source in
  let baseSource := TrimSpace baseSource in
  let headSource := TrimSpace headSource in
  let source := if source =s "" then "main" else source in
  if (baseSource =s "") && (headSource =s "") then buildLatestDeploymentComparison source
  else
    let headSource := if headSource =s "" then source else headSource in
    let baseSource := if baseSource =s "" then "main" else baseSource in
    if headSource =s baseSource then buildLatestDeploymentComparison headSource
    else buildLatestCrossSourceDeploymentComparison baseSource headSource.
End Requested.

(** * The scorecard adds up *)

Definition zsum (l : list Z) : Z := fold_right Z.add 0%Z l.
#[export] Instance zsum_Permutation : Proper (Permutation ==> eq) zsum.
Proof. intros l l' Hl. induction Hl; simpl; lia. Qed.

Definition countSum (m : gmap string DeploymentFailureCount) : Z := zsum (map (fun e => fc_Count e.2) (map_to_list m)).
#[export] Instance countSum_entries : Proper (Permutation ==> eq) (fun l : list (string * DeploymentFailureCount) => zsum (map (fun e => fc_Count e.2) l)).
Proof. intros l l' Hl. by rewrite Hl. Qed.

Lemma countSum_insert m k f :
  countSum (<[k := f]> m) = (fc_Count f + countSum m - match m !! k with Some g => fc_Count g | None => 0 end)%Z.
Proof.
  unfold countSum. destruct (m !! k) as [g|] eqn:E.
  - rewrite <- insert_delete_eq, map_to_list_insert by apply lookup_delete_eq.
    rewrite <- (map_to_list_delete m k g E). simpl. lia.
  - rewrite map_to_list_insert by done. simpl. lia.
Qed.

Lemma countb_snoc {A} (f : A -> bool) l x : countb f (l ++ [x]) = (countb f l + if f x then 1 else 0)%Z.
Proof. unfold countb. rewrite List.filter_app, length_app. simpl. destruct (f x); simpl; lia. Qed.

Definition failedWith (signature : string) (o : DeploymentWorkerOutcome) : bool :=
  negb (wo_Passed o) && (wo_FailureSignature o =s signature).

(** What holds of the counters and the failure table after some workers. *)
Record tallied (total seen : Z) (st : DeploymentScorecard * gmap string DeploymentFailureCount) : Prop := {
  tl_seen : (sc_VerifiedWorkers st.1 + sc_AwaitingWorkers st.1 = seen)%Z;
  tl_verified : (sc_PassedWorkers st.1 + sc_FailedWorkers st.1 = sc_VerifiedWorkers st.1)%Z;
  tl_failed : (sc_ActionableFailedWorkers st.1 + sc_FixtureFailures st.1 + sc_EnvironmentalFailures st.1 +
               sc_RampUpFailures st.1 = sc_FailedWorkers st.1)%Z;
  tl_outcomes : sc_VerifiedWorkers st.1 = Z.of_nat (length (sc_Outcomes st.1));
  tl_passed : sc_PassedWorkers st.1 = countb wo_Passed (sc_Outcomes st.1);
  tl_sum : countSum st.2 = sc_FailedWorkers st.1;
  tl_counts : forall k f, st.2 !! k = Some f -> fc_Signature f = k /\ fc_Count f = countb (failedWith k) (sc_Outcomes st.1);
  tl_none : forall k, st.2 !! k = None -> countb (failedWith k) (sc_Outcomes st.1) = 0%Z;
  tl_failures : sc_Failures st.1 = [];
  tl_total : sc_TotalWorkers st.1 = total
}.

Lemma count_tallied total seen st o : tallied total seen st -> tallied total (seen + 1) (countDeploymentScorecardOutcome st o).
Proof.
  destruct st as [s fc]. intros [H1 H2 H3 H4 H5 H6 H7 H8 H9 H10]. simpl in *.
  destruct o as [o|]; [|constructor; simpl; try done; lia].
  unfold countDeploymentScorecardOutcome. destruct (wo_Passed o) eqn:Ep.
  - constructor; simpl; rewrite ?length_app, ?countb_snoc, ?Ep; simpl; try lia; try done.
    + intros k f Hf. rewrite countb_snoc. unfold failedWith at 2. rewrite Ep. simpl. rewrite Z.add_0_r. by apply H7.
    + intros k Hk. rewrite countb_snoc. unfold failedWith at 2. rewrite Ep. simpl. by rewrite (H8 k Hk).
  - set (s' := if wo_FailureCategory o =s failureCategoryRampUp then _ else _).
    assert (sc_VerifiedWorkers s' = sc_VerifiedWorkers s + 1 /\ sc_AwaitingWorkers s' = sc_AwaitingWorkers s /\
      sc_PassedWorkers s' = sc_PassedWorkers s /\ sc_FailedWorkers s' = sc_FailedWorkers s + 1 /\
      sc_ActionableFailedWorkers s' + sc_FixtureFailures s' + sc_EnvironmentalFailures s' + sc_RampUpFailures s' =
      sc_FailedWorkers s + 1 /\ sc_Outcomes s' = sc_Outcomes s /\ sc_Failures s' = sc_Failures s /\
      sc_TotalWorkers s' = sc_TotalWorkers s)%Z as (E1 & E2 & E3 & E4 & E5 & E6 & E7 & E8).
    { unfold s'. destruct (_ =s failureCategoryRampUp); [|destruct (_ =s failureCategoryEnvironmental);
        [|destruct (_ =s failureCategorySoakFixture)]]; simpl; split_and!; lia || done. }
    clearbody s'. constructor; simpl; rewrite ?E1, ?E2, ?E3, ?E4, ?E5, ?E6, ?E7, ?E8, ?length_app, ?countb_snoc, ?Ep; simpl;
      try lia; try done; unfold countFailure.
    + rewrite countSum_insert. simpl. destruct (fc !! wo_FailureSignature o); lia.
    + intros k f. rewrite countb_snoc. unfold failedWith at 2. rewrite Ep. simpl.
      destruct (eqs_spec (wo_FailureSignature o) k) as [<-|Hne].
      * rewrite lookup_insert_eq. intros [= <-]. simpl. split; [done|].
        destruct (fc !! wo_FailureSignature o) as [g|] eqn:Eg; [destruct (H7 _ _ Eg) as [_ ->]|rewrite (H8 _ Eg)]; lia.
      * rewrite lookup_insert_ne by done. rewrite Z.add_0_r. apply H7.
    + intros k. rewrite countb_snoc. unfold failedWith at 2. rewrite Ep. simpl.
      destruct (eqs_spec (wo_FailureSignature o) k) as [<-|Hne]; [by rewrite lookup_insert_eq|].
      rewrite lookup_insert_ne by done. intros Hk. by rewrite (H8 k Hk).
Qed.

Section ScorecardSpec.
Context `{Decoders} `{RangeOrder}.
Variables (processPolicy : EnvironmentalFailurePolicy) (decodeMarker : string -> option string) (db : soakDB) (metered : bool)
  (deployment : Deployment) (windowEnd : option time) (reliability : list WorkerRunEvidence).
Let scorecard := buildDeploymentScorecard processPolicy decodeMarker db metered deployment windowEnd reliability.

Lemma score_tallied total seen st w :
  tallied total seen st -> tallied total (seen + 1) (scoreWorker processPolicy decodeMarker db metered deployment windowEnd st w).
Proof.
  intros Ht. unfold scoreWorker. destruct (scorecardVerifications _ _ _ _ _) as [l excluded]. destruct st as [s fc].
  apply count_tallied. by destruct Ht.
Qed.
Lemma fold_tallied total workers seen st :
  tallied total seen st ->
  tallied total (seen + Z.of_nat (length workers))
    (fold_left (scoreWorker processPolicy decodeMarker db metered deployment windowEnd) workers st).
Proof.
  revert seen st. induction workers as [|w workers IH]; intros seen st Ht; simpl; [by rewrite Z.add_0_r|].
  replace (seen + Z.of_nat (S (length workers)))%Z with ((seen + 1) + Z.of_nat (length workers))%Z by lia.
  by apply IH, score_tallied.
Qed.

(** A scorecard adds up, whatever the order in which the failure table is
    read: every scored worker is verified or awaiting, every verified worker
    passed or failed and is listed once, every failure has one category, and the
    failure table lists each signature once with the number of workers that
    failed with it. *)
Theorem scorecard_adds_up :
  sc_TotalWorkers scorecard = Z.of_nat (length (deploymentScorecardWorkers db deployment)) /\
  (sc_VerifiedWorkers scorecard + sc_AwaitingWorkers scorecard = sc_TotalWorkers scorecard)%Z /\
  (sc_PassedWorkers scorecard + sc_FailedWorkers scorecard = sc_VerifiedWorkers scorecard)%Z /\
  (sc_ActionableFailedWorkers scorecard + sc_FixtureFailures scorecard + sc_EnvironmentalFailures scorecard +
   sc_RampUpFailures scorecard = sc_FailedWorkers scorecard)%Z /\
  Z.of_nat (length (sc_Outcomes scorecard)) = sc_VerifiedWorkers scorecard /\
  zsum (map fc_Count (sc_Failures scorecard)) = sc_FailedWorkers scorecard /\
  NoDup (map fc_Signature (sc_Failures scorecard)) /\
  (forall f, In f (sc_Failures scorecard) -> fc_Count f = countb (failedWith (fc_Signature f)) (sc_Outcomes scorecard)).
Proof.
  unfold scorecard, buildDeploymentScorecard.
  match goal with |- context [fold_left _ ?l (?z, ∅)] =>
    assert (tallied (Z.of_nat (length l)) 0 (z, ∅)) as Hz
      by (constructor; simpl; try done; intros k f Hk; by rewrite lookup_empty in Hk);
    apply (fold_tallied _ l) in Hz; destruct (fold_left _ l (z, ∅)) as [s fc] end.
  destruct Hz as [H1 H2 H3 H4 H5 H6 H7 H8 H9 H10].
  cbn [fst snd] in H1, H2, H3, H4, H5, H6, H7, H8, H9, H10.
  match goal with |- sc_TotalWorkers ?x = _ /\ _ => set (s' := x) end.
  assert (Permutation (sc_Outcomes s') (sc_Outcomes s)) as Ho.
  { unfold s', finalizeDeploymentScorecard. destruct (0 <? _)%Z; simpl; apply SliceStable_Permutation. }
  assert (Permutation (sc_Failures s') (map snd (map_to_list fc))) as Hf.
  { unfold s', finalizeDeploymentScorecard. destruct (0 <? _)%Z; simpl; rewrite H9, SliceStable_Permutation; simpl;
      by rewrite range_perm. }
  assert (sc_TotalWorkers s' = sc_TotalWorkers s /\ sc_VerifiedWorkers s' = sc_VerifiedWorkers s /\
    sc_AwaitingWorkers s' = sc_AwaitingWorkers s /\ sc_PassedWorkers s' = sc_PassedWorkers s /\
    sc_FailedWorkers s' = sc_FailedWorkers s /\
    (sc_ActionableFailedWorkers s' + sc_FixtureFailures s' + sc_EnvironmentalFailures s' + sc_RampUpFailures s' =
     sc_FailedWorkers s)%Z) as (-> & -> & -> & -> & -> & ->).
  { unfold s', finalizeDeploymentScorecard. destruct (0 <? _)%Z; simpl; split_and!; done. }
  assert (map fc_Signature (map snd (map_to_list fc)) = map fst (map_to_list fc)) as Hsig.
  { rewrite map_map. apply map_ext_in. intros [k f] Hin. apply list_elem_of_In, elem_of_map_to_list in Hin. by apply H7. }
  clearbody s'. split_and!; try done; try lia.
  - by rewrite Ho.
  - rewrite Hf, map_map. done.
  - rewrite Hf, Hsig. apply NoDup_fst_map_to_list.
  - intros f Hin. rewrite Hf in Hin. apply in_map_iff in Hin as ([k g] & <- & Hin). simpl.
    apply list_elem_of_In, elem_of_map_to_list, H7 in Hin as [-> ->]. by rewrite Ho.
Qed.
End ScorecardSpec.

(** * The comparison does not depend on the map order *)

Section Sorted.
Context {A : Type} (less : A -> A -> bool) (le : relation A).
Hypothesis less_le : forall y x, less y x = true -> le y x.
Hypothesis nless_le : forall y x, less y x = false -> le x y.
Lemma insert_stable_hd a x l : le a x -> HdRel le a l -> HdRel le a (insert_stable less x l).
Proof. intros Hx Hl. destruct l as [|y l]; simpl; [by constructor|]. inversion_clear Hl. case_match; by constructor. Qed.
Lemma insert_stable_sorted x l : Sorted le l -> Sorted le (insert_stable less x l).
Proof.
  induction 1 as [|y l Hl IH Hy]; simpl; [by repeat constructor|]. destruct (less y x) eqn:E.
  - constructor; [done|]. apply insert_stable_hd; [by apply less_le|done].
  - constructor; [by constructor|]. constructor. by apply nless_le.
Qed.
Lemma SliceStable_sorted l : Sorted le (SliceStable less l).
Proof. induction l as [|x l IH]; simpl; [constructor|by apply insert_stable_sorted]. Qed.
End Sorted.

(** More frequent first, then by signature. *)
Definition failure_le (a b : DeploymentFailureCount) : Prop :=
  (fc_Count b < fc_Count a)%Z \/ (fc_Count a = fc_Count b /\ String.le (fc_Signature a) (fc_Signature b)).
#[export] Instance failure_le_trans : Transitive failure_le.
Proof.
  intros a b c [H|[H Hs]] [H'|[H' Hs']]; [left; lia..|]. right. split; [lia|]. by etrans.
Qed.
Lemma text_ltb_le a b : text_ltb a b = true -> String.le a b.
Proof. unfold text_ltb, String.ltb, String.le, String.leb. by destruct (a ?= b)%string. Qed.
Lemma text_nltb_le a b : text_ltb a b = false -> String.le b a.
Proof.
  unfold text_ltb, String.ltb, String.le, String.leb. rewrite (String.compare_antisym b a).
  by destruct (a ?= b)%string.
Qed.
Lemma failureLess_le a b : failureLess a b = true -> failure_le a b.
Proof.
  unfold failureLess. destruct (Z.eqb_spec (fc_Count a) (fc_Count b)); simpl; intros Hl.
  - right. split; [done|]. by apply text_ltb_le.
  - left. lia.
Qed.
Lemma failureNLess_le a b : failureLess a b = false -> failure_le b a.
Proof.
  unfold failureLess. destruct (Z.eqb_spec (fc_Count a) (fc_Count b)); simpl; intros Hl.
  - right. split; [done|]. by apply text_nltb_le.
  - left. lia.
Qed.

(** A list of failures without a repeated signature has one sorted order. *)
Lemma failures_sorted_unique l l' :
  NoDup (map fc_Signature l) -> Permutation l l' -> SliceStable failureLess l = SliceStable failureLess l'.
Proof.
  intros Hnd Hl. apply (Sorted_unique_strong failure_le).
  - intros f g Hf Hg Hfg Hgf. assert (fc_Signature f = fc_Signature g) as Hs.
    { destruct Hfg as [|[? H1]], Hgf as [|[? H2]]; try lia. exact (anti_symm String.le _ _ H1 H2). }
    rewrite SliceStable_Permutation in Hf. rewrite SliceStable_Permutation, <- Hl in Hg. clear Hl Hfg Hgf.
    induction l as [|x l IH]; [by apply elem_of_nil in Hf|]. apply NoDup_cons in Hnd as [Hx Hnd].
    apply elem_of_cons in Hf as [->|Hf], Hg as [->|Hg]; [done| | |by apply IH].
    + destruct Hx. apply list_elem_of_In, in_map_iff. exists g. split; [done|]. by apply list_elem_of_In.
    + destruct Hx. apply list_elem_of_In, in_map_iff. exists f. split; [done|]. by apply list_elem_of_In.
  - apply SliceStable_sorted; [apply failureLess_le|apply failureNLess_le].
  - apply SliceStable_sorted; [apply failureLess_le|apply failureNLess_le].
  - by rewrite !SliceStable_Permutation.
Qed.

(** Comparisons that differ only in the order of their lists. *)
Record same_comparison (c c' : DeploymentComparisonResponse) : Prop := {
  sm_sources : (cmp_BaseSource c, cmp_HeadSource c, cmp_ComparisonKind c) =
               (cmp_BaseSource c', cmp_HeadSource c', cmp_ComparisonKind c');
  sm_base : cmp_Base c = cmp_Base c';
  sm_head : cmp_Head c = cmp_Head c';
  sm_verdict : cmp_Verdict c = cmp_Verdict c';
  sm_deltas : (cmp_PassDelta c, cmp_FailDelta c, cmp_AwaitingDelta c) =
              (cmp_PassDelta c', cmp_FailDelta c', cmp_AwaitingDelta c');
  sm_findings : Permutation (cmp_ReliabilityFindings c) (cmp_ReliabilityFindings c');
  sm_improved : Permutation (cmp_ImprovedWorkers c) (cmp_ImprovedWorkers c');
  sm_regressed : Permutation (cmp_RegressedWorkers c) (cmp_RegressedWorkers c');
  sm_new : Permutation (cmp_NewFailures c) (cmp_NewFailures c');
  sm_resolved : Permutation (cmp_ResolvedFailures c) (cmp_ResolvedFailures c')
}.
#[export] Instance same_comparison_equiv : Equivalence same_comparison.
Proof.
  split.
  - intros c. by constructor.
  - intros c c' []. by constructor.
  - intros c c' c'' [] []. constructor; by etrans.
Qed.

#[export] Instance some_Permutation {A} :
  Proper (Permutation ==> eq) (fun l : list A => match l with [] => false | _ => true end).
Proof. intros l l' Hl. destruct Hl; try done. by apply Permutation_length in Hl1, Hl2; destruct l, l', l''. Qed.
#[export] Instance existsb_Permutation {A} (f : A -> bool) : Proper (Permutation ==> eq) (existsb f).
Proof. intros l l' Hl. induction Hl; simpl; try congruence. by destruct (f x), (f y). Qed.

#[export] Instance infer_Proper : Proper (same_comparison ==> eq ==> eq) inferDeploymentComparisonVerdict.
Proof.
  intros c c' [H1 H2 H3 H4 H5 H6 H7 H8 H9 H10] b b' <-. unfold inferDeploymentComparisonVerdict.
  rewrite H2, H3. simplify_eq. destruct (cmp_Base c'); [|done].
  pose proof (some_Permutation _ _ H7) as E7. pose proof (some_Permutation _ _ H8) as E8.
  pose proof (some_Permutation _ _ H9) as E9. pose proof (some_Permutation _ _ H10) as E10. cbv beta in E7, E8, E9, E10.
  rewrite E7, E8, E9, E10. by rewrite H, H5.
Qed.
#[export] Instance apply_Proper : Proper (same_comparison ==> same_comparison) applyReliabilityVerdict.
Proof.
  intros c c' Hc. pose proof Hc as [H1 H2 H3 H4 H5 H6 H7 H8 H9 H10]. unfold applyReliabilityVerdict.
  rewrite H3, H4. destruct (sc_Reliability (cmp_Head c')) as [|e l]; [done|].
  assert (forall s, existsb (fun f => rf_Classification f =s s) (cmp_ReliabilityFindings c) =
                    existsb (fun f => rf_Classification f =s s) (cmp_ReliabilityFindings c')) as He
    by (intros s; by apply existsb_Permutation).
  rewrite !He. repeat case_match; try done; by constructor.
Qed.

#[export] Instance verdict_Proper v : Proper (same_comparison ==> same_comparison) (fun c => c <| cmp_Verdict := v |>).
Proof. intros c c' []. by constructor. Qed.
#[export] Instance noDelta_Proper :
  Proper (same_comparison ==> same_comparison) (fun c => c <| cmp_PassDelta := 0%Z |> <| cmp_FailDelta := 0%Z |> <| cmp_AwaitingDelta := 0%Z |>).
Proof. intros c c' []. by constructor. Qed.

(** The evidence the findings range over: the head's, and nothing observed where
    only the base ran. *)
Definition afterOf (before after : gmap string WorkerRunEvidence) : gmap string WorkerRunEvidence :=
  after ∪ ((fun e => WorkerRunEvidence_zero <| re_Profile := re_Profile e |> <| re_Region := re_Region e |>) <$> before).

Lemma fold_absent l after :
  NoDup (l.*1) -> fold_left absentInHead l after = afterOf (list_to_map l) after.
Proof.
  unfold afterOf. revert after. induction l as [|[k e] l IH]; intros after Hnd; simpl.
  { by rewrite fmap_empty, map_union_empty. }
  apply NoDup_cons in Hnd as [Hk Hnd]. rewrite IH by done. unfold absentInHead. simpl. rewrite fmap_insert.
  assert (list_to_map (M := gmap string WorkerRunEvidence) l !! k = None) as Hn by by apply not_elem_of_list_to_map.
  destruct (after !! k) as [x|] eqn:E; apply map_eq; intros j; rewrite !lookup_union.
  - destruct (decide (j = k)) as [->|Hj]; [|by rewrite lookup_insert_ne].
    rewrite E, lookup_insert_eq, lookup_fmap, Hn. done.
  - destruct (decide (j = k)) as [->|Hj]; [|by rewrite !lookup_insert_ne].
    rewrite E, !lookup_insert_eq, lookup_fmap, Hn. done.
Qed.

Section Order.
Context {O : RangeOrder}.
Lemma range_map n {A} (m : gmap string A) : NoDup ((range n m).*1) /\ list_to_map (range n m) = m.
Proof.
  assert (NoDup ((range n m).*1)) as Hnd by (rewrite range_perm; apply NoDup_fst_map_to_list).
  split; [done|]. rewrite (list_to_map_proper _ _ Hnd (range_perm n A m)). apply list_to_map_to_list.
Qed.
Lemma findings_entries base head :
  Permutation (compareRunReliability base head)
    (map (findingFor (collectEvidence base)) (map_to_list (afterOf (collectEvidence base) (collectEvidence head)))).
Proof.
  unfold compareRunReliability. rewrite SliceStable_Permutation, range_perm.
  destruct (range_map 1 (collectEvidence base)) as [Hnd Hm]. by rewrite fold_absent, Hm.
Qed.
End Order.

#[export] Instance List_filter_Permutation {A} (f : A -> bool) : Proper (Permutation ==> Permutation) (List.filter f).
Proof.
  intros l l' Hl. induction Hl as [|x l l' Hl IH|x y l|l l' l'' H1 IH1 H2 IH2]; simpl; [done|..].
  - destruct (f x); by rewrite IH.
  - destruct (f x), (f y); try done. constructor.
  - by rewrite IH1.
Qed.
Lemma filter_fst_NoDup {A} (f : string * A -> bool) l : NoDup (map fst l) -> NoDup (map fst (List.filter f l)).
Proof.
  induction l as [|[k x] l IH]; simpl; [done|]. rewrite NoDup_cons. intros [Hk Hnd].
  destruct (f (k, x)); [|by apply IH]. simpl. apply NoDup_cons. split; [|by apply IH].
  contradict Hk. apply list_elem_of_In, in_map_iff in Hk as (e & He & Hin). apply filter_In in Hin as [Hin _].
  apply list_elem_of_In, in_map_iff. by exists e.
Qed.

Lemma compared_key failures k f : comparedFailures failures !! k = Some f -> fc_Signature f = k.
Proof.
  unfold comparedFailures.
  assert (forall m, (forall j g, m !! j = Some g -> fc_Signature g = j) ->
    forall j g, fold_left comparedFailure failures m !! j = Some g -> fc_Signature g = j) as Hgen;
    [|apply Hgen; intros j g; by rewrite lookup_empty].
  induction failures as [|x l IH]; intros m Hm; [done|]. apply IH. unfold comparedFailure.
  destruct (failureExcludedFromComparison _); [done|].
  intros j g. destruct (decide (fc_Signature x = j)) as [<-|Hj]; [rewrite lookup_insert_eq; by intros [= <-]|].
  rewrite lookup_insert_ne by done. apply Hm.
Qed.

Section OrderIndependent.
Variables O O' : RangeOrder.

Lemma entries_perm n {A} (f : string * A -> bool) m :
  Permutation (map snd (List.filter f (@range O n A m))) (map snd (List.filter f (@range O' n A m))).
Proof. by rewrite (@range_perm O), (@range_perm O'). Qed.

Lemma failures_order n f failures :
  SliceStable failureLess (map snd (List.filter f (@range O n _ (comparedFailures failures)))) =
  SliceStable failureLess (map snd (List.filter f (@range O' n _ (comparedFailures failures)))).
Proof.
  apply failures_sorted_unique; [|apply entries_perm].
  assert (map fc_Signature (map snd (List.filter f (@range O n _ (comparedFailures failures)))) =
          map fst (List.filter f (@range O n _ (comparedFailures failures)))) as ->.
  { rewrite map_map. apply map_ext_in. intros [k g] Hin. apply filter_In in Hin as [Hin _].
    rewrite (@range_perm O) in Hin. apply list_elem_of_In, elem_of_map_to_list in Hin. by apply compared_key in Hin. }
  apply filter_fst_NoDup, range_map.
Qed.

Lemma compare_same c base : same_comparison (@compareScorecards O c base) (@compareScorecards O' c base).
Proof.
  constructor; try done; simpl; [by rewrite (@findings_entries O), (@findings_entries O')|..]; rewrite !SliceStable_Permutation.
  - by rewrite entries_perm.
  - by rewrite entries_perm.
  - by rewrite entries_perm.
  - by rewrite entries_perm.
Qed.
Lemma apply_failures c :
  cmp_NewFailures (applyReliabilityVerdict c) = cmp_NewFailures c /\
  cmp_ResolvedFailures (applyReliabilityVerdict c) = cmp_ResolvedFailures c.
Proof. unfold applyReliabilityVerdict. by repeat case_match. Qed.

(** The comparison of two deployments does not depend on the order in which
    Go iterates over its maps: the verdict, the deltas, the new and the resolved
    failures are the same for every order, and the findings and the improved and
    regressed workers are the same up to the order of equal names. *)
Theorem comparison_order_independent (c : DeploymentComparisonResponse) (headCompletedSuccess : bool)
    (Hnew : cmp_NewFailures c = []) (Hresolved : cmp_ResolvedFailures c = []) :
  let left := @finalizeDeploymentComparison O c headCompletedSuccess in
  let right := @finalizeDeploymentComparison O' c headCompletedSuccess in
  same_comparison left right /\ cmp_NewFailures left = cmp_NewFailures right /\
  cmp_ResolvedFailures left = cmp_ResolvedFailures right.
Proof.
  cbv zeta. unfold finalizeDeploymentComparison. destruct (cmp_Base c) as [base|] eqn:Eb; [|done].
  pose proof (compare_same c base) as Hs. pose proof (infer_Proper _ _ Hs _ _ (eq_refl headCompletedSuccess)) as Hv.
  rewrite !(proj1 (apply_failures _)), !(proj2 (apply_failures _)). split.
  - apply apply_Proper. rewrite Hv. apply (verdict_Proper (inferDeploymentComparisonVerdict (@compareScorecards O' c base) headCompletedSuccess)) in Hs.
    destruct headCompletedSuccess; [by apply noDelta_Proper|exact Hs].
  - destruct headCompletedSuccess; simpl; rewrite Hnew, Hresolved; simpl; split; apply failures_order.
Qed.
End OrderIndependent.

(** * What a good verdict means *)

Definition goodVerdict (v : string) : Prop := v = "better" \/ v = "unchanged" \/ v = "passed".

Lemma not_classified c s : existsb (fun f => rf_Classification f =s s) (cmp_ReliabilityFindings c) = false ->
  forall f, In f (cmp_ReliabilityFindings c) -> rf_Classification f <> s.
Proof.
  intros Hn f Hf E. assert (existsb (fun f => rf_Classification f =s s) (cmp_ReliabilityFindings c) = true); [|congruence].
  apply existsb_exists. exists f. split; [done|]. by rewrite E, eqs_refl.
Qed.
(** No finding of the comparison of the runs counts against the release. *)
Definition goodFinding (f : ReliabilityFinding) : Prop :=
  rf_Classification f <> "new" /\ rf_Classification f <> "regressed" /\ rf_Classification f <> "inconclusive".
Lemma apply_good c :
  sc_Reliability (cmp_Head c) <> [] -> goodVerdict (cmp_Verdict (applyReliabilityVerdict c)) ->
  cmp_Verdict (applyReliabilityVerdict c) = cmp_Verdict c /\
  (forall f, In f (cmp_ReliabilityFindings c) -> goodFinding f) /\
  (forall e, In e (sc_Reliability (cmp_Head c)) -> re_Eligible e = true).
Proof.
  intros Hne. assert (~ goodVerdict "worse" /\ ~ goodVerdict "insufficient_data") as [Hw Hi] by (split; intros [|[|]]; done).
  unfold applyReliabilityVerdict. destruct (sc_Reliability (cmp_Head c)) as [|e0 l] eqn:El; [done|].
  destruct (_ || (cmp_Verdict c =s "mixed")); [done|].
  destruct (existsb (fun f => rf_Classification f =s "new") _) eqn:En; [done|].
  destruct (existsb (fun f => rf_Classification f =s "regressed") _) eqn:Er; [done|]. cbn [orb].
  destruct (existsb (fun f => rf_Classification f =s "inconclusive") _) eqn:Ei; [done|].
  destruct (existsb (fun e => negb (re_Eligible e)) _) eqn:Ee; [done|]. intros Hg. split_and!; [done|..].
  - intros f Hf. split_and!; by apply (not_classified c).
  - intros e He. destruct (re_Eligible e) eqn:E; [done|].
    assert (existsb (fun e => negb (re_Eligible e)) (e0 :: l) = true); [|congruence].
    apply existsb_exists. exists e. by rewrite E.
Qed.

Lemma infer_passed c b : inferDeploymentComparisonVerdict c b = "passed" -> b = true.
Proof.
  unfold inferDeploymentComparisonVerdict. destruct (cmp_Base c); [|done]. destruct b; [done|].
  repeat (case_match; try done).
Qed.
Lemma infer_good c base :
  cmp_Base c = Some base -> goodVerdict (inferDeploymentComparisonVerdict c false) ->
  (cmp_FailDelta c <= 0)%Z /\ sc_VerifiedWorkers base <> 0%Z /\ sc_VerifiedWorkers (cmp_Head c) <> 0%Z /\
  (cmp_RegressedWorkers c = [] \/ cmp_ImprovedWorkers c <> []).
Proof.
  intros Eb. unfold inferDeploymentComparisonVerdict. rewrite Eb.
  destruct (Z.eqb_spec (sc_VerifiedWorkers base) 0); [by intros [|[|]]|].
  destruct (Z.eqb_spec (sc_VerifiedWorkers (cmp_Head c)) 0); [by intros [|[|]]|]. cbn [orb].
  destruct (cmp_RegressedWorkers c) as [|r rs], (cmp_ImprovedWorkers c) as [|i is_]; cbn [andb negb orb];
    try (by intros [|[|]]);
    destruct (Z.leb_spec (cmp_FailDelta c) 0); cbn [andb]; try (intros _; split_and!; by auto);
    destruct (Z.ltb_spec 0 (cmp_PassDelta c)), (Z.ltb_spec (cmp_FailDelta c) 0); cbn [andb orb]; try lia;
    destruct (Z.ltb_spec 0 (cmp_FailDelta c)); try lia; rewrite ?orb_true_r; by intros [|[|]].
Qed.

Lemma merge_key m e : exists e', mergeEvidence m e = <[evidenceKey e := e']> m.
Proof. unfold mergeEvidence. destruct (m !! evidenceKey e); eexists; reflexivity. Qed.
Lemma collect_dom l k : is_Some (collectEvidence l !! k) <-> exists e, In e l /\ evidenceKey e = k.
Proof.
  unfold collectEvidence.
  assert (forall m : gmap string WorkerRunEvidence, is_Some (fold_left mergeEvidence l m !! k) <->
    (exists e, In e l /\ evidenceKey e = k) \/ is_Some (m !! k)) as Hgen.
  { induction l as [|x l IH]; intros m; simpl; [split; [by right|intros [(e & [] & _)|]; done]|].
    rewrite IH. destruct (merge_key m x) as [e' ->]. destruct (decide (evidenceKey x = k)) as [<-|Hk].
    - rewrite lookup_insert_eq. split; [intros _; left; exists x; auto|right; eauto].
    - rewrite lookup_insert_ne by done. split.
      + intros [(e & ? & ?)|]; [left; exists e; auto|by right].
      + intros [(e & [<-|?] & ?)|]; [done|left; eauto|by right]. }
  rewrite Hgen, lookup_empty. split; [intros [|[]]; done|by left].
Qed.

Lemma uncovered b h : re_CoverageComplete h = false -> coveredBy b h = false.
Proof. intros E. unfold coveredBy. rewrite E. by rewrite andb_false_r. Qed.

Section Good.
Context `{RangeOrder}.
Lemma finding_covered base head k :
  (forall f, In f (compareRunReliability base head) -> rf_Classification f <> "inconclusive") ->
  is_Some (afterOf (collectEvidence base) (collectEvidence head) !! k) ->
  is_Some (collectEvidence base !! k) /\ is_Some (collectEvidence head !! k).
Proof.
  intros Hf [h Hh]. set (before := collectEvidence base) in *. set (after := collectEvidence head) in *.
  assert (rf_Classification (findingFor before (k, h)) <> "inconclusive") as Hc.
  { apply Hf. rewrite findings_entries. apply in_map, list_elem_of_In, elem_of_map_to_list. done. }
  unfold findingFor in Hc. simpl in Hc. destruct (before !! k) as [b|] eqn:Eb; [|done]. split; [done|].
  unfold afterOf in Hh. rewrite lookup_union, lookup_fmap, Eb in Hh. destruct (after !! k); [done|]. simpl in Hh. rewrite (left_id_L None (∪)) in Hh.
  simplify_eq. by rewrite uncovered in Hc.
Qed.
Lemma compared_both base head :
  (forall f, In f (compareRunReliability base head) -> rf_Classification f <> "inconclusive") ->
  forall k, (exists e, In e base /\ evidenceKey e = k) <-> (exists e, In e head /\ evidenceKey e = k).
Proof.
  intros Hf k. rewrite <- !collect_dom.
  split; intros Hk; apply (finding_covered base head k Hf), lookup_union_is_Some.
  - right. rewrite lookup_fmap. by apply fmap_is_Some.
  - by left.
Qed.
End Good.

(** A complete run that is covered and clean. *)
Definition cleanRun (now : time) (start : time) (end_ : option time) (maxGap minimumSpan : duration) (e : WorkerRunEvidence) : Prop :=
  re_HistoryComplete e = true /\ (re_UnattributedObservations e <= 0)%Z /\ (re_IncompleteObservations e <= 0)%Z /\
  (re_UnexpectedFailures e <= 0)%Z /\ (re_ExpectedInjections e <= 0)%Z /\ re_CurrentHealth e = "passed" /\
  (2 <= re_VerificationCount e)%Z /\ f64_ltb (re_VerifiedSpanSeconds e) (Seconds minimumSpan) = false /\
  f64_ltb (Seconds maxGap) (re_MaxVerificationGapSeconds e) = false /\
  (re_WorkloadProgress e <> 0 \/ re_WorkloadMutations e <> 0)%Z /\
  (re_MaintenanceSnapshots e <> 0 /\ re_MaintenanceCompactions e <> 0 /\ re_MaintenanceRetentions e <> 0)%Z /\
  exists first last, re_FirstVerification e = Some first /\ re_LastVerification e = Some last /\
    (time_Sub first start <= maxGap)%Z /\ (time_Sub (default now end_) last <= maxGap)%Z.

Lemma reason_nil (b : bool) (t : string) (l : list string) : ((if b then [t] else []) ++ l)%list = [] <-> b = false /\ l = [].
Proof. destruct b; simpl; split; [done|by intros [? _]|by intros ->|by intros [_ ->]]. Qed.
Lemma reason_nil' (b : bool) (t : string) : (if b then [t] else []) = [] <-> b = false.
Proof. by destruct b. Qed.

Lemma eligible_clean now e start end_ maxGap minimumSpan :
  re_Eligible (evaluateRunEligibility now e start end_ maxGap minimumSpan) = true ->
  cleanRun now start end_ maxGap minimumSpan (evaluateRunEligibility now e start end_ maxGap minimumSpan).
Proof.
  unfold evaluateRunEligibility. cbv zeta. cbn [re_Eligible set_field]. simpl re_Eligible. rewrite bool_decide_eq_true.
  rewrite <- !app_assoc, !reason_nil, reason_nil', !orb_false_iff, !negb_false_iff.
  intros (_ & [H1 H2] & H3 & [H4 H5] & [[H6 H7] H8] & H9 & [[H10 H11] H12] & _ & H13 & H14 & H15).
  destruct (re_FirstVerification e) as [first|] eqn:E1; [|done]. destruct (re_LastVerification e) as [last|] eqn:E2; [|done].
  unfold cleanRun. simpl. apply eqs_true in H15. apply andb_false_iff in H9.
  split_and!; try done; try lia. exists first, last. split_and!; try done; lia.
Qed.

Section Clean.
Context `{RangeOrder}.
Variables (c : DeploymentComparisonResponse) (base : DeploymentScorecard) (headCompletedSuccess : bool).
Variables (now start : time) (end_ : option time) (maxGap minimumSpan : duration).

(** C37: a release that has complete-run evidence is called better, unchanged or
    passed only if every complete run of it is covered and clean, its runs and
    the baseline's are of the same profiles and regions, and no finding between them is new, regressed or inconclusive.
    It is called passed exactly when, of these, it was torn down on success, whatever its workers' last outcomes; it is
    called better or unchanged only if it was not and both deployments have verified workers, no more workers
    fail than before and none regressed without another one improving. *)
Theorem good_verdict_sound
    (Hbase : cmp_Base c = Some base)
    (Hevidence : sc_Reliability (cmp_Head c) <> [])
    (Hevaluated : forall e, In e (sc_Reliability (cmp_Head c)) ->
       exists e0, e = evaluateRunEligibility now e0 start end_ maxGap minimumSpan)
    (Hgood : goodVerdict (cmp_Verdict (finalizeDeploymentComparison c headCompletedSuccess))) :
  let result := finalizeDeploymentComparison c headCompletedSuccess in
  (forall e, In e (sc_Reliability (cmp_Head c)) -> cleanRun now start end_ maxGap minimumSpan e) /\
  (forall k, (exists e, In e (sc_Reliability base) /\ evidenceKey e = k) <->
             (exists e, In e (sc_Reliability (cmp_Head c)) /\ evidenceKey e = k)) /\
  (forall f, In f (cmp_ReliabilityFindings result) -> goodFinding f) /\
  (if headCompletedSuccess then cmp_Verdict result = "passed"
   else (cmp_Verdict result = "better" \/ cmp_Verdict result = "unchanged") /\
     (comparisonFailedWorkers (cmp_Head c) <= comparisonFailedWorkers base)%Z /\
     sc_VerifiedWorkers base <> 0%Z /\ sc_VerifiedWorkers (cmp_Head c) <> 0%Z /\
     (cmp_RegressedWorkers result = [] \/ cmp_ImprovedWorkers result <> [])).
Proof.
  assert (forall x, cmp_RegressedWorkers (applyReliabilityVerdict x) = cmp_RegressedWorkers x /\
    cmp_ImprovedWorkers (applyReliabilityVerdict x) = cmp_ImprovedWorkers x /\
    cmp_ReliabilityFindings (applyReliabilityVerdict x) = cmp_ReliabilityFindings x) as Hap
    by (intros x; unfold applyReliabilityVerdict; by repeat case_match).
  cbv zeta. unfold finalizeDeploymentComparison in *. rewrite Hbase in *.
  assert (cmp_Head (compareScorecards c base) = cmp_Head c) as E1 by reflexivity.
  assert (cmp_ReliabilityFindings (compareScorecards c base) =
          compareRunReliability (sc_Reliability base) (sc_Reliability (cmp_Head c))) as E2 by reflexivity.
  assert (cmp_FailDelta (compareScorecards c base) =
          (comparisonFailedWorkers (cmp_Head c) - comparisonFailedWorkers base)%Z) as E3 by reflexivity.
  assert (cmp_Base (compareScorecards c base) = Some base) as E4 by exact Hbase.
  destruct (compareScorecards c base) as [f bs hs k b h v pd fd ad im re nf rf]. cbn in E1, E2, E3, E4. subst f h b.
  match type of Hgood with context [inferDeploymentComparisonVerdict ?x] => set (cs := x) in * end.
  match type of Hgood with context [applyReliabilityVerdict ?x] => set (cv := x) in * end.
  destruct (Hap cv) as (-> & -> & ->).
  assert (cmp_Verdict cv = inferDeploymentComparisonVerdict cs headCompletedSuccess) as Ev by (by destruct headCompletedSuccess).
  pose proof Hgood as Hg. apply apply_good in Hg as (Hv & Hf & He); [|by destruct headCompletedSuccess].
  rewrite Hv in Hgood |- *. rewrite Ev in Hgood |- *. split_and!.
  - intros e Hin. destruct (Hevaluated e Hin) as [e0 ->]. apply eligible_clean, He. by destruct headCompletedSuccess.
  - apply compared_both. intros f Hin. apply Hf. by destruct headCompletedSuccess.
  - exact Hf.
  - destruct headCompletedSuccess; [done|].
    destruct (infer_good cs base eq_refl Hgood) as (Hd & Hb & Hh & Hr). simpl in Hd. split_and!; try done; [|lia].
    destruct Hgood as [Hg|[Hg|Hg]]; [by left|by right|]. by apply infer_passed in Hg.
Qed.
End Clean.

(** * Passed *)

Lemma apply_passed c : cmp_Verdict (applyReliabilityVerdict c) = "passed" -> cmp_Verdict c = "passed".
Proof. unfold applyReliabilityVerdict. by repeat (case_match; try done). Qed.
Lemma finalize_passed `{RangeOrder} c b :
  cmp_Verdict (finalizeDeploymentComparison c b) = "passed" -> b = true \/ cmp_Verdict c = "passed".
Proof.
  unfold finalizeDeploymentComparison. destruct (cmp_Base c) as [base|]; [|by right]. intros E. apply apply_passed in E.
  left. destruct b; [done|]. generalize dependent (compareScorecards c base). intros cs E.
  change (inferDeploymentComparisonVerdict cs false = "passed") in E. by apply infer_passed in E.
Qed.

Definition archiveSource (a : RunArchive) : string := if TrimSpace (ra_Source a) =s "" then "main" else TrimSpace (ra_Source a).
Lemma archive_source l m k a :
  fold_left archiveBySource l m !! k = Some a -> m !! k = Some a \/ (In a l /\ archiveSource a = k).
Proof.
  revert m. induction l as [|x l IH]; intros m E; simpl in *; [by left|]. apply IH in E as [E|[E1 E2]]; [|by auto].
  unfold archiveBySource in E. change (if TrimSpace (ra_Source x) =s "" then "main" else TrimSpace (ra_Source x)) with (archiveSource x) in E.
  destruct (m !! archiveSource x) eqn:Em; [by left|].
  destruct (decide (archiveSource x = k)) as [<-|Hk]; [|rewrite lookup_insert_ne in E by done; by left].
  rewrite lookup_insert_eq in E. simplify_eq. right. auto.
Qed.

Lemma scorecard_source_some d : (deploymentScorecardSource d =s "") = false.
Proof. unfold deploymentScorecardSource, deploymentSource. destruct (eqs_spec (TrimSpace (d_Source d)) "") as [_|Hn]; [done|]. by apply eqs_false. Qed.

Lemma completed_sound db archives head :
  deploymentComparisonHeadCompletedSuccess db archives head = true ->
  (exists a, In a archives /\ ra_ArchiveType a = "success" /\ archiveSource a = deploymentScorecardSource head /\
     runArchiveMatchesDeployment a head = true) /\
  (exists w, In w (db_workers db) /\ w_Source w = deploymentScorecardSource head) /\
  (forall w, In w (db_workers db) -> w_Source w = deploymentScorecardSource head -> w_Status w = WorkerStopped).
Proof.
  unfold deploymentComparisonHeadCompletedSuccess. destruct (listSuccessArchivesBySource archives !! _) as [a|] eqn:Ea; [|done].
  destruct (runArchiveMatchesDeployment a head) eqn:Em; [|done]. cbn [negb]. intros Hs.
  assert (forall w, In w (ListWorkersFiltered db "" (deploymentScorecardSource head)) <->
                    In w (db_workers db) /\ w_Source w = deploymentScorecardSource head) as Hl.
  { intros w. unfold ListWorkersFiltered. rewrite order_desc_In, filter_In, scorecard_source_some. simpl.
    by rewrite andb_true_r, eqs_true. }
  split_and!.
  - apply archive_source in Ea as [Ea|[Hin Hk]]; [by rewrite lookup_empty in Ea|]. exists a. split_and!; try done;
      apply list_elem_of_In, elem_of_take in Hin as (? & Hin%list_elem_of_lookup_2 & _); rewrite SliceStable_Permutation in Hin; apply list_elem_of_In in Hin; apply filter_In in Hin as [Hin Ht]; [done|].
    by apply andb_true_iff in Ht as [_ Ht%eqs_true].
  - destruct (ListWorkersFiltered _ _ _) as [|w l]; [done|]. exists w. apply Hl. by left.
  - intros w Hw Hsrc. assert (In w (ListWorkersFiltered db "" (deploymentScorecardSource head))) as Hin by by apply Hl.
    unfold allWorkersStopped in Hs. destruct (ListWorkersFiltered _ _ _) as [|x l]; [done|].
    pose proof (proj1 (forallb_forall _ _) Hs w Hin) as E. unfold status_in in E. by destruct (w_Status w).
Qed.

Lemma finalize_keeps `{RangeOrder} c b :
  cmp_Head (finalizeDeploymentComparison c b) = cmp_Head c /\
  cmp_ComparisonKind (finalizeDeploymentComparison c b) = cmp_ComparisonKind c.
Proof.
  assert (forall x, cmp_Head (applyReliabilityVerdict x) = cmp_Head x /\
    cmp_ComparisonKind (applyReliabilityVerdict x) = cmp_ComparisonKind x) as Hap
    by (intros x; unfold applyReliabilityVerdict; by repeat case_match).
  unfold finalizeDeploymentComparison. destruct (cmp_Base c) as [base|]; [|done].
  rewrite (proj1 (Hap _)), (proj2 (Hap _)). by destruct b.
Qed.
Lemma scorecard_deployment `{Decoders} `{RangeOrder} policy decodeMarker db metered reliability d w :
  sc_Deployment (scorecardOf policy decodeMarker db metered reliability d w) = d.
Proof.
  unfold scorecardOf, buildDeploymentScorecard.
  match goal with |- context [fold_left ?f ?l ?z] =>
    assert (forall l' st, sc_Deployment (fold_left f l' st).1 = sc_Deployment st.1) as Hkeep;
    [|specialize (Hkeep l z); destruct (fold_left f l z) as [s fc]] end.
  { intros l'. induction l' as [|x l' IH]; intros st; [done|]. simpl. rewrite IH. unfold scoreWorker.
    destruct (scorecardVerifications _ _ _ _ _), st as [s fc], (scoreDeploymentWorker _ _ _ _ _) as [o|]; [|done].
    simpl. destruct (wo_Passed o); [done|]. by repeat case_match. }
  simpl in *. unfold finalizeDeploymentScorecard. by destruct (0 <? _)%Z.
Qed.

(** A comparison says passed only of a head that completed: the newest
    deployment of its source, compared with another source, has a success
    archive that matches its build, and its source has workers and all of them
    are stopped. *)
Theorem passed_sound `{Decoders} `{RangeOrder} processPolicy decodeMarker db metered archives reliability
    source baseSource headSource c
    (Hbuild : buildRequestedDeploymentComparison processPolicy decodeMarker db metered archives reliability
                source baseSource headSource = Some c)
    (Hpassed : cmp_Verdict c = "passed") :
  cmp_ComparisonKind c = "cross_source" /\
  (exists a, In a archives /\ ra_ArchiveType a = "success" /\
     archiveSource a = deploymentScorecardSource (sc_Deployment (cmp_Head c)) /\
     runArchiveMatchesDeployment a (sc_Deployment (cmp_Head c)) = true) /\
  (exists w, In w (db_workers db) /\ w_Source w = deploymentScorecardSource (sc_Deployment (cmp_Head c))) /\
  (forall w, In w (db_workers db) -> w_Source w = deploymentScorecardSource (sc_Deployment (cmp_Head c)) ->
     w_Status w = WorkerStopped).
Proof.
  assert (forall src, buildLatestDeploymentComparison processPolicy decodeMarker db metered reliability src = Some c -> False) as Hlatest.
  { intros src. unfold buildLatestDeploymentComparison. destruct (ListDeployments _ _ _) as [|head [|base l]]; [done|..]; intros [= <-].
    - done.
    - by apply finalize_passed in Hpassed as [|]. }
  assert (exists bs hs, buildLatestCrossSourceDeploymentComparison processPolicy decodeMarker db metered archives reliability bs hs = Some c)
    as (bs & hs & Hcross).
  { unfold buildRequestedDeploymentComparison in Hbuild. cbv zeta in Hbuild.
    repeat match type of Hbuild with (if ?b then _ else _) = _ => destruct b end;
      solve [by apply Hlatest in Hbuild|by eexists _, _]. }
  unfold buildLatestCrossSourceDeploymentComparison in Hcross.
  destruct (GetLatestDeployment db (TrimSpace hs)) as [head|]; [|done].
  destruct (GetLatestDeployment db _) as [base|]; simplify_eq.
  destruct (finalize_keeps (H := H0) (mkComparison [] (GateFleet.firstNonEmpty [TrimSpace bs; "main"])
    (GateFleet.firstNonEmpty [TrimSpace hs; d_Source head; "main"]) "cross_source"
    (Some (scorecardOf processPolicy decodeMarker db metered reliability base None))
    (scorecardOf processPolicy decodeMarker db metered reliability head None) "no_baseline" 0 0 0 [] [] [] [])
    (deploymentComparisonHeadCompletedSuccess db archives head)) as [Eh Ek].
  apply finalize_passed in Hpassed as [Hc|]; [|done].
  split; [exact Ek|]. apply completed_sound in Hc.
  match goal with |- context [sc_Deployment (cmp_Head ?x)] => assert (sc_Deployment (cmp_Head x) = head) as -> end; [|done].
  etrans; [exact (f_equal sc_Deployment Eh)|]. apply scorecard_deployment.
Qed.

(** * Examples *)

Definition emptyScorecard : DeploymentScorecard :=
  mkScorecard [] Deployment_zero 0%Z None 0 0 0 0 0 0 0 0 0 0 f64_zero [] [].
Definition sampleOutcome (name category : string) : DeploymentWorkerOutcome :=
  mkOutcome name name name (category =s "") None "restore" "restore_failed" category "" "".
Definition scored (l : list DeploymentWorkerOutcome) : DeploymentScorecard :=
  let '(s, counts) := fold_left countDeploymentScorecardOutcome (map Some l) (emptyScorecard, ∅) in
  @finalizeDeploymentScorecard keyOrder s counts.

(** A signature shared by an actionable and a ramp-up failure is compared or left
    out depending on which of the two workers comes last in the table. *)
Theorem failure_category_is_the_last :
  let a := sampleOutcome "a" failureCategoryActionable in
  let r := sampleOutcome "b" failureCategoryRampUp in
  sc_ActionableFailedWorkers (scored [a; r]) = 1%Z /\ sc_ActionableFailedWorkers (scored [r; a]) = 1%Z /\
  map fc_Category (sc_Failures (scored [a; r])) = ["ramp-up"] /\
  map fc_Category (sc_Failures (scored [r; a])) = ["actionable"] /\
  size (comparedFailures (sc_Failures (scored [a; r]))) = 0 /\
  size (comparedFailures (sc_Failures (scored [r; a]))) = 1.
Proof. vm_compute. auto 10. Qed.

Definition sampleFailure (signature : string) : DeploymentFailureCount :=
  mkFailureCount signature "restore" failureCategoryActionable failureSeverityBad 1.
Definition sampleComparison : DeploymentComparisonResponse :=
  mkComparison [] "main" "pr-7" "cross_source"
    (Some (emptyScorecard <| sc_VerifiedWorkers := 2%Z |> <| sc_Outcomes := [sampleOutcome "a" ""; sampleOutcome "b" ""] |>))
    (emptyScorecard <| sc_VerifiedWorkers := 2%Z |> <| sc_Failures := [sampleFailure "x"; sampleFailure "y"] |>
       <| sc_ActionableFailedWorkers := 2%Z |>
       <| sc_Outcomes := [sampleOutcome "a" failureCategoryActionable; sampleOutcome "b" failureCategoryActionable] |>)
    "no_baseline" 0 0 0 [] [] [] [].

Lemma comparison_order_independent_witness :
  same_comparison (@finalizeDeploymentComparison keyOrder sampleComparison false)
    (@finalizeDeploymentComparison reverseOrder sampleComparison false) /\
  cmp_Verdict (@finalizeDeploymentComparison reverseOrder sampleComparison false) = "worse" /\
  map fc_Signature (cmp_NewFailures (@finalizeDeploymentComparison reverseOrder sampleComparison false)) = ["x"; "y"].
Proof.
  split; [|vm_compute; split; reflexivity].
  exact (proj1 (comparison_order_independent keyOrder reverseOrder sampleComparison false eq_refl eq_refl)).
Defined.

Definition sampleEvidence : WorkerRunEvidence :=
  WorkerRunEvidence_zero <| re_ProfileCapability := "disabled" |> <| re_Profile := "steady" |> <| re_Region := "ord" |>
    <| re_WorkloadSHA := "w" |> <| re_ProfileHash := "h" |> <| re_CurrentHealth := "passed" |>
    <| re_VerificationCount := 25%Z |> <| re_WorkloadProgress := 9%Z |> <| re_MaintenanceSnapshots := 1%Z |>
    <| re_MaintenanceCompactions := 1%Z |> <| re_MaintenanceRetentions := 1%Z |> <| re_FirstVerification := Some Hour |>
    <| re_LastVerification := Some (25 * Hour)%Z |> <| re_VerifiedSpanSeconds := f64_of_Z 86400 |>
    <| re_MaxVerificationGapSeconds := f64_of_Z 3600 |> <| re_HistoryComplete := true |>.
Definition evaluatedEvidence : WorkerRunEvidence :=
  evaluateRunEligibility 0%Z sampleEvidence Hour (Some (25 * Hour)%Z) Hour (24 * Hour)%Z.
Definition cleanScorecard : DeploymentScorecard :=
  emptyScorecard <| sc_VerifiedWorkers := 1%Z |> <| sc_PassedWorkers := 1%Z |> <| sc_Reliability := [evaluatedEvidence] |>.
Definition cleanComparison : DeploymentComparisonResponse :=
  mkComparison [] "main" "pr-7" "cross_source" (Some cleanScorecard) cleanScorecard "no_baseline" 0 0 0 [] [] [] [].

Lemma good_verdict_sound_witness :
  cmp_Verdict (@finalizeDeploymentComparison keyOrder cleanComparison false) = "unchanged" /\
  cleanRun 0%Z Hour (Some (25 * Hour)%Z) Hour (24 * Hour)%Z evaluatedEvidence.
Proof.
  assert (cmp_Verdict (@finalizeDeploymentComparison keyOrder cleanComparison false) = "unchanged") as Hv
    by (vm_compute; reflexivity).
  split; [exact Hv|].
  refine (proj1 (@good_verdict_sound keyOrder cleanComparison cleanScorecard false 0%Z Hour (Some (25 * Hour)%Z) Hour
    (24 * Hour)%Z _ _ _ _) evaluatedEvidence _).
  - reflexivity.
  - discriminate.
  - intros e [<-|[]]. exists sampleEvidence. reflexivity.
  - right. left. exact Hv.
  - left. reflexivity.
Defined.

Definition passedDB : soakDB :=
  emptyDB <| db_workers := [Worker_zero <| w_ID := "w" |> <| w_Source := "pr-7" |> <| w_Status := WorkerStopped |>] |>
    <| db_deployments := [Deployment_zero <| d_ID := 1%Z |> <| d_Source := "main" |> <| d_GitSHA := "g" |>;
                          Deployment_zero <| d_ID := 2%Z |> <| d_Source := "pr-7" |> <| d_GitSHA := "h" |>] |>.
Definition passedComparison : option DeploymentComparisonResponse :=
  @buildRequestedDeploymentComparison exampleDecoders keyOrder sample_policy (fun _ => None) passedDB (fun _ => false)
    [mkArchive 1 2 "pr-7" "success" "h" "" Hour] (fun _ _ => []) "" "main" "pr-7".

Lemma passed_sound_witness :
  exists c, passedComparison = Some c /\ cmp_ComparisonKind c = "cross_source".
Proof.
  destruct passedComparison as [c|] eqn:E.
  - exists c. split; [reflexivity|].
    refine (proj1 (passed_sound _ _ _ _ _ _ _ _ _ c E _)).
    assert (option_map cmp_Verdict passedComparison = Some "passed") as Hv by (vm_compute; reflexivity).
    rewrite E in Hv. simpl in Hv. by injection Hv.
  - exfalso. assert (option_map cmp_Verdict passedComparison = Some "passed") as Hv by (vm_compute; reflexivity).
    rewrite E in Hv. discriminate Hv.
Defined.
