(* ===== verification/LifecyclePolicy.v ===== *)
(** The lifecycle policies of [orchestrator/lifecycle.go] and the dormancy test
    of dormancy.go: which sources a policy may touch, when a clean soak is torn
    down, when a source is known bad and its workers are paused, when a
    pull-request run is too old, and when a worker that keeps failing is paused.

    The store is [SoakDB]'s; the expected run of a worker, the active
    dormant-fleet condition of a source, the evidence of the complete runs, the
    environmental policy of the process and the clock are arguments.  Ranging
    over a Go map takes its order from [RangeOrder]. *)
From stdpp Require Import sorting.
From Stdlib Require Import Ascii.
From S2P Require Import Prelude GoStrings Model GoTime Classification EnvFailure GateFleet GateStore SoakDB GateFault WorkerStore Provisioning WorkerManager Rollout Scorecard.

(** * path.Match *)

Module Path.
Inductive elem := Any | Chr (c : ascii) | Bracket (negated : bool) (ranges : list (ascii * ascii)).
Inductive token := Star | Elem (e : elem).

(** Where the scanner of a pattern is. *)
Inductive mode :=
| Normal
| Escaped
| Open                                                          (** after an opening bracket *)
| Lo (negated : bool) (ranges : list (ascii * ascii))
| LoEscaped (negated : bool) (ranges : list (ascii * ascii))
| AfterLo (negated : bool) (ranges : list (ascii * ascii)) (lo : ascii)
| Hi (negated : bool) (ranges : list (ascii * ascii)) (lo : ascii)
| HiEscaped (negated : bool) (ranges : list (ascii * ascii)) (lo : ascii).

Definition chr_eq (c : ascii) (d : ascii) : bool := Ascii.eqb c d.

(** The next range of a class, or its end. *)
Definition lo_step (negated : bool) (ranges : list (ascii * ascii)) (c : ascii) : option (list token * mode) :=
  if chr_eq c "]" && negb (match ranges with [] => true | _ => false end) then Some ([Elem (Bracket negated ranges)], Normal)
  else if chr_eq c "-" || chr_eq c "]" then None
  else if chr_eq c "\" then Some ([], LoEscaped negated ranges)
  else Some ([], AfterLo negated ranges c).

Definition step (m : mode) (c : ascii) : option (list token * mode) :=
  match m with
  | Normal =>
      if chr_eq c "*" then Some ([Star], Normal)
      else if chr_eq c "?" then Some ([Elem Any], Normal)
      else if chr_eq c "[" then Some ([], Open)
      else if chr_eq c "\" then Some ([], Escaped)
      else Some ([Elem (Chr c)], Normal)
  | Escaped => Some ([Elem (Chr c)], Normal)
  | Open => if chr_eq c "^" then Some ([], Lo true []) else lo_step false [] c
  | Lo negated ranges => lo_step negated ranges c
  | LoEscaped negated ranges => Some ([], AfterLo negated ranges c)
  | AfterLo negated ranges lo =>
      if chr_eq c "-" then Some ([], Hi negated ranges lo) else lo_step negated (ranges ++ [(lo, lo)]) c
  | Hi negated ranges lo =>
      if chr_eq c "-" || chr_eq c "]" then None
      else if chr_eq c "\" then Some ([], HiEscaped negated ranges lo)
      else Some ([], Lo negated (ranges ++ [(lo, c)]))
  | HiEscaped negated ranges lo => Some ([], Lo negated (ranges ++ [(lo, c)]))
  end.

(** [None] is [ErrBadPattern]. *)
Fixpoint scan (m : mode) (pattern : string) : option (list token) :=
  match pattern with
  | EmptyString => match m with Normal => Some [] | _ => None end
  | String c rest =>
      match step m c with
      | None => None
      | Some (tokens, m') => match scan m' rest with Some l => Some (tokens ++ l) | None => None end
      end
  end.

(** [scanChunk]: the elements up to the next star, and the chunks after it. *)
Fixpoint group (tokens : list token) : list elem * list (bool * list elem) :=
  match tokens with
  | [] => ([], [])
  | Elem e :: rest => let '(lead, chunks) := group rest in (e :: lead, chunks)
  | Star :: rest =>
      match group rest with
      | ([], c :: chunks) => ([], c :: chunks)
      | (lead, chunks) => ([], (true, lead) :: chunks)
      end
  end.
Definition chunks (tokens : list token) : list (bool * list elem) :=
  match group tokens with ([], cs) => cs | (lead, cs) => (false, lead) :: cs end.

Definition within (r : ascii) (range : ascii * ascii) : bool :=
  (nat_of_ascii range.1 <=? nat_of_ascii r) && (nat_of_ascii r <=? nat_of_ascii range.2).
Definition matches (e : elem) (c : ascii) : bool :=
  match e with
  | Any => negb (chr_eq c "/")
  | Chr d => chr_eq c d
  | Bracket negated ranges => negb (eqb (existsb (within c) ranges) negated)
  end.
Fixpoint matchChunk (chunk : list elem) (name : string) : option string :=
  match chunk, name with
  | [], _ => Some name
  | e :: rest, String c name => if matches e c then matchChunk rest name else None
  | _ :: _, EmptyString => None
  end.

(** The leftmost match after skipping at least one byte, none of them a slash. *)
Fixpoint skipTo (chunk : list elem) (last : bool) (name : string) : option string :=
  match name with
  | EmptyString => None
  | String c rest =>
      if chr_eq c "/" then None
      else match matchChunk chunk rest with
           | Some t => if last && negb (t =s "") then skipTo chunk last rest else Some t
           | None => skipTo chunk last rest
           end
  end.

Fixpoint matchChunks (cs : list (bool * list elem)) (name : string) : bool :=
  match cs with
  | [] => name =s ""
  | (star, chunk) :: rest =>
      let last := match rest with [] => true | _ => false end in
      if star && match chunk with [] => true | _ => false end then negb (char_in_str "/" name)
      else
        let here := match matchChunk chunk name with
                    | Some t => if (t =s "") || negb last then Some t else None
                    | None => None end in
        match here with
        | Some t => matchChunks rest t
        | None =>
            if star then match skipTo chunk last name with Some t => matchChunks rest t | None => false end
            else false
        end
  end.

(** Whether the name matches; [None] when the pattern is malformed. *)
Definition Match (pattern name : string) : option bool :=
  match scan Normal pattern with Some tokens => Some (matchChunks (chunks tokens) name) | None => None end.
End Path.

Definition sourceAllowedForPolicy (source : string) (allowlist : list string) : bool :=
  let source := GateFleet.firstNonEmpty [TrimSpace source; "main"] in
  let allowlist := match allowlist with [] => ["pr-*"] | _ => allowlist end in
  existsb (fun pattern =>
      let pattern := TrimSpace pattern in
      if pattern =s "" then false
      else (pattern =s "*") || (pattern =s source) || match Path.Match pattern source with Some ok => ok | None => false end)
    allowlist.

(** * Policies *)

Record SuccessTeardownPolicy := mkTeardownPolicy {
  st_Threshold : duration; st_CheckInterval : duration; st_HeartbeatStaleAfter : duration; st_SourceAllowlist : list string }.
Inductive PRMaxAgeAction := PRMaxAgeActionStop | PRMaxAgeActionDestroy | PRMaxAgeActionOther (text : string).
Record PRMaxAgePolicy := mkMaxAgePolicy {
  ma_Threshold : duration; ma_CheckInterval : duration; ma_SourceAllowlist : list string; ma_Action : PRMaxAgeAction }.
Record FailedSourcePausePolicy := mkPausePolicy {
  fp_CheckInterval : duration; fp_SourceAllowlist : list string; fp_MinAttentionWorkers : Z;
  fp_MinFleetAttentionWorkers : Z; fp_SingleWorkerMinConsecutiveFailures : Z }.
Record DormantFleetAlertPolicy := mkFleetPolicy { df_Threshold : duration; df_CheckInterval : duration }.

Definition positive_or (z d : Z) : Z := if (z <=? 0)%Z then d else z.
Definition list_or (l d : list string) : list string := match l with [] => d | _ => l end.

Definition normalizeDormantFleetAlertPolicy (p : DormantFleetAlertPolicy) : DormantFleetAlertPolicy :=
  mkFleetPolicy (positive_or (df_Threshold p) (2 * Hour)) (positive_or (df_CheckInterval p) (10 * Minute)).
Definition normalizeSuccessTeardownPolicy (p : SuccessTeardownPolicy) : SuccessTeardownPolicy :=
  mkTeardownPolicy (positive_or (st_Threshold p) (24 * Hour)) (positive_or (st_CheckInterval p) (10 * Minute))
    (positive_or (st_HeartbeatStaleAfter p) (15 * Minute)) (list_or (st_SourceAllowlist p) ["pr-*"]).
Definition normalizeFailedSourcePausePolicy (p : FailedSourcePausePolicy) : FailedSourcePausePolicy :=
  mkPausePolicy (positive_or (fp_CheckInterval p) (10 * Minute)) (list_or (fp_SourceAllowlist p) ["main"])
    (positive_or (fp_MinAttentionWorkers p) 2) (positive_or (fp_MinFleetAttentionWorkers p) 3)
    (positive_or (fp_SingleWorkerMinConsecutiveFailures p) 2).
Definition normalizePRMaxAgePolicy (p : PRMaxAgePolicy) : PRMaxAgePolicy :=
  mkMaxAgePolicy (positive_or (ma_Threshold p) (24 * Hour)) (positive_or (ma_CheckInterval p) (10 * Minute))
    (list_or (ma_SourceAllowlist p) ["pr-*"])
    (match ma_Action p with PRMaxAgeActionDestroy => PRMaxAgeActionDestroy | _ => PRMaxAgeActionStop end).

Definition trimSHA (value : string) : string := if (str_len value <=? 12)%Z then value else str_take 12 value.
Definition shortVersionValue (value : string) : string :=
  let trimmed := TrimSpace value in if trimmed =s "" then "unknown" else trimSHA trimmed.

(** * Success teardown *)

Record policyEvaluation := mkEvaluation {
  ev_Deployment : Deployment;
  ev_Rollout : DeploymentRolloutResponse;
  ev_Workers : list Worker;
  ev_Summary : string
}.

(** The walk over a worker's verifications, newest first: the latest pass and the
    latest pending check observed since the deployment started; [None] when a
    failure that is not environmental is met. *)
Fixpoint successWalk (environmental : gset Z) (start pass pending : time) (l : list Verification) : option (time * time) :=
  match l with
  | [] => Some (pass, pending)
  | v :: rest =>
      match verificationObservedAt v with
      | None => successWalk environmental start pass pending rest
      | Some observedAt =>
          if Before observedAt start then Some (pass, pending)
          else if activeFailure v then
            if bool_decide (v_ID v ∈ environmental) then successWalk environmental start pass pending rest else None
          else
            let pending := if Pending v && After observedAt pending then observedAt else pending in
            let pass := if Succeeded v && After observedAt pass then observedAt else pass in
            successWalk environmental start pass pending rest
      end
  end.

Section Policies.
Context `{Decoders}.
Variables (processPolicy : EnvironmentalFailurePolicy) (db : soakDB) (expectedRun : string -> option WorkerIdentity)
  (dormantFleet : string -> option (option time)).
(** [buildRunReliability]: the evidence of a deployment's complete runs until a
    time. *)
Variable buildRunReliability : Deployment -> option time -> list WorkerRunEvidence.

Definition rolloutOf (now : time) (deployment : Deployment) : DeploymentRolloutResponse :=
  buildDeploymentRollout db expectedRun (dormantFleet (deploymentSource deployment)) now deployment.
Definition policySource (deployment : Deployment) : string := GateFleet.firstNonEmpty [TrimSpace (d_Source deployment); "main"].

Definition workerPassedSuccessWindow (worker : Worker) (deployment : Deployment) (policy : SuccessTeardownPolicy) (now : time) : bool :=
  if negb (status_in [WorkerRunning] worker) || negb (workerMatchesDeployment worker deployment) then false
  else if match w_LastHeartbeatAt worker with
          | None => true | Some h => (st_HeartbeatStaleAfter policy <? time_Sub now h)%Z end then false
  else if negb (runtimeStatus worker =s "healthy") then false
  else
    let verifications := currentDeploymentVerifications (expectedRun (w_ID worker)) worker deployment
                           (ListVerifications db (w_ID worker) 512) in
    let environmental := environmentalVerificationIDs verifications (normalized processPolicy) in
    match successWalk environmental (d_StartedAt deployment) 0%Z 0%Z verifications with
    | None => false
    | Some (latestPassAt, latestPendingAt) =>
        if IsZero latestPassAt || negb (Before latestPendingAt latestPassAt) then false
        else negb (Before latestPassAt (time_Add (d_StartedAt deployment) (st_Threshold policy)))
    end.

Definition successTeardownCandidate (deployment : Deployment) (policy : SuccessTeardownPolicy) (now : time)
  : option policyEvaluation :=
  let policy := normalizeSuccessTeardownPolicy policy in
  let source := policySource deployment in
  if isGateSource source || negb (sourceAllowedForPolicy source (st_SourceAllowlist policy)) then None
  else if IsZero (d_StartedAt deployment) || (time_Sub now (d_StartedAt deployment) <? st_Threshold policy)%Z then None
  else
    match buildRunReliability deployment (Some now) with
    | [] => None
    | evidence =>
        let evidence := map (fun e => evaluateRunEligibility now e (d_StartedAt deployment) (Some now) Hour (st_Threshold policy)) evidence in
        if negb (forallb re_Eligible evidence) then None
        else
          let rollout := rolloutOf now deployment in
          if (ro_TotalWorkers rollout =? 0)%Z || negb (ro_Status rollout =s "stable") ||
             negb (ro_UpdatedWorkers rollout =? ro_TotalWorkers rollout)%Z ||
             negb (ro_VerifiedSinceDeploy rollout =? ro_TotalWorkers rollout)%Z ||
             negb (ro_AwaitingVerification rollout =? 0)%Z || negb (ro_AttentionWorkers rollout =? 0)%Z
          then None
          else
            let workers := ListWorkersForSource (db_workers db) source in
            if negb (forallb (fun w => workerPassedSuccessWindow w deployment policy now) workers) then None
            else Some (mkEvaluation deployment rollout workers
                   (sourceHumanLabel source ++ " completed a clean " ++ DurationString (st_Threshold policy) ++
                    " soak; archiving evidence and destroying worker compute, volumes, and replica prefix data."))
    end.

(** * Known-bad sources *)

Inductive failedSourcePolicyVerdict := failedSourcePolicyInconclusive | failedSourcePolicyCleared | failedSourcePolicyKnownBad.
Inductive releaseFailureDomain := DomainObjectStore | DomainSync | DomainRestore | DomainVerification | DomainResource | DomainHarness | DomainOther.
#[export] Instance releaseFailureDomain_eq_dec : EqDecision releaseFailureDomain.
Proof using. solve_decision. Defined.

Record actionableAttentionFailure := mkAttention {
  aa_WorkerID : string; aa_Domain : releaseFailureDomain; aa_Signature : string }.

Definition classifyReleaseFailureDomain (failure : verificationFailure) : releaseFailureDomain :=
  if bool_decide (is_Some (vf_Classification failure ≫= fc_ObjectStore)) then DomainObjectStore
  else
    let signature := ToLower (TrimSpace (vf_Signature failure)) in
    if (signature =s "s3_transport") || Contains signature "_s3_" then DomainObjectStore
    else if Contains signature "checkpoint" || Contains signature "pause_load" then DomainHarness
    else
      let stage := ToLower (TrimSpace (vf_Stage failure)) in
      if stage =s "disk_capacity" then DomainResource
      else if stage =s "sync" then DomainSync
      else if stage =s "restore" then DomainRestore
      else if (stage =s "integrity") || (stage =s "integrity_check") || (stage =s "validation") then DomainVerification
      else DomainOther.

Definition releaseFailureDomainSupportsPairCorroboration (domain : releaseFailureDomain) : bool :=
  match domain with DomainOther | DomainVerification => false | _ => true end.

(** The count of a domain among the failures seen so far. *)
Fixpoint pairCorroborated (seen failures : list actionableAttentionFailure) (minMatchingDomain : Z) : bool :=
  match failures with
  | [] => false
  | f :: rest =>
      if negb (releaseFailureDomainSupportsPairCorroboration (aa_Domain f)) then pairCorroborated seen rest minMatchingDomain
      else
        let seen := (seen ++ [f])%list in
        if (minMatchingDomain <=? countb (fun g => bool_decide (aa_Domain g = aa_Domain f)) seen)%Z then true
        else pairCorroborated seen rest minMatchingDomain
  end.
Definition multiWorkerFailuresCorroborated (failures : list actionableAttentionFailure) (minMatchingDomain minFleet : Z) : bool :=
  (minFleet <=? Z.of_nat (length failures))%Z || pairCorroborated [] failures minMatchingDomain.

Definition sourcePauseHistoryLimitCap : Z := 1000.

(** [None]: the fuel ran out. *)
Fixpoint pauseEvidenceHistory (fuel : nat) (workerID : string) (deployment : Deployment) (limit : Z)
  : option (list Verification) :=
  match fuel with
  | O => None
  | S fuel =>
      let verifications := ListVerificationsExcludingMeteringRuns db workerID (Z.to_nat limit) in
      if (Z.of_nat (length verifications) <? limit)%Z || (sourcePauseHistoryLimitCap <=? limit)%Z then Some verifications
      else if existsb (fun v => negb (Inconclusive v)) verifications then Some verifications
      else match last verifications with
           | None => None
           | Some oldest =>
               if Before (v_StartedAt oldest) (d_StartedAt deployment) then Some verifications
               else pauseEvidenceHistory fuel workerID deployment (limit * 4)
           end
  end.
Definition pauseHistory (workerID : string) (deployment : Deployment) : list Verification :=
  match pauseEvidenceHistory 4 workerID deployment 20 with Some l => l | None => [] end.

(** The newest conclusive verification since the deployment started, if it is an
    actionable failure. *)
Fixpoint latestActionable (environmental : gset Z) (start : time) (l : list Verification) : option Verification :=
  match l with
  | [] => None
  | v :: rest =>
      if Before (v_StartedAt v) start then None
      else if Inconclusive v then latestActionable environmental start rest
      else if Failed v && negb (bool_decide (v_ID v ∈ environmental)) then Some v else None
  end.

Definition releaseQualityActionableAttentionFailures (rollout : DeploymentRolloutResponse) (deployment : Deployment)
    (releaseQualityWorkerIDs : gset string) : list actionableAttentionFailure :=
  let policy := normalized processPolicy in
  omap (fun progress =>
      if negb (workerNeedsAttention (wp_Status progress) (wp_RuntimeSnapshotStatus progress)) then None
      else if negb (bool_decide (wp_WorkerID progress ∈ releaseQualityWorkerIDs)) then None
      else
        let verifications := pauseHistory (wp_WorkerID progress) deployment in
        match latestActionable (environmentalVerificationIDs verifications policy) (d_StartedAt deployment) verifications with
        | None => None
        | Some v =>
            let failure := classifyVerification v in
            Some (mkAttention (wp_WorkerID progress) (classifyReleaseFailureDomain failure) (vf_Signature failure))
        end) (ro_Workers rollout).

(** (corroborated, decided) *)
Fixpoint walkActionable (environmental : gset Z) (start : time) (minConsecutive consecutive : Z) (l : list Verification) : bool * bool :=
  match l with
  | [] => (false, false)
  | v :: rest =>
      if Before (v_StartedAt v) start then (false, true)
      else if Inconclusive v then walkActionable environmental start minConsecutive consecutive rest
      else if negb (Failed v) || bool_decide (v_ID v ∈ environmental) then (false, true)
      else
        let consecutive := (consecutive + 1)%Z in
        if (minConsecutive <=? consecutive)%Z then (true, true)
        else walkActionable environmental start minConsecutive consecutive rest
  end.
Definition walkConsecutiveActionable (verifications : list Verification) (deployment : Deployment)
    (policy : EnvironmentalFailurePolicy) (minConsecutive : Z) : bool * bool :=
  walkActionable (environmentalVerificationIDs verifications policy) (d_StartedAt deployment) minConsecutive 0 verifications.

(** One worker's growing window; [None]: the fuel ran out. *)
Fixpoint growWindow (fuel : nat) (workerID : string) (deployment : Deployment) (minConsecutive limit : Z) : option bool :=
  match fuel with
  | O => None
  | S fuel =>
      let verifications := ListVerificationsExcludingMeteringRuns db workerID (Z.to_nat limit) in
      let '(corroborated, decided) := walkConsecutiveActionable verifications deployment (normalized processPolicy) minConsecutive in
      if corroborated then Some true
      else if decided || (Z.of_nat (length verifications) <? limit)%Z || (sourcePauseHistoryLimitCap <=? limit)%Z then Some false
      else growWindow fuel workerID deployment minConsecutive (Z.min (limit * 4) sourcePauseHistoryLimitCap)
  end.
Definition workerCorroborated (deployment : Deployment) (minConsecutive : Z) (workerID : string) : bool :=
  match growWindow 5 workerID deployment minConsecutive (minConsecutive * 5 + 10) with Some b => b | None => false end.
Definition singleWorkerFailureCorroborated (failures : list actionableAttentionFailure) (deployment : Deployment)
    (minConsecutive : Z) : bool := existsb (fun f => workerCorroborated deployment minConsecutive (aa_WorkerID f)) failures.

(** ** The dominant signature *)

Definition signatureCounts (signatures : list string) : gmap string Z :=
  fold_left (fun counts s => if TrimSpace s =s "" then counts else <[s := (default 0 (counts !! s) + 1)%Z]> counts) signatures ∅.

Definition dominantStep (st : string * Z * bool) (entry : string * Z) : string * Z * bool :=
  let '(signature, count, tied) := st in
  if (count <? entry.2)%Z then (entry.1, entry.2, false)
  else if (entry.2 =? count)%Z then (signature, count, true)
  else st.
Definition dominantFailureSignature `{RangeOrder} (counts : gmap string Z) : string :=
  let '(signature, _, tied) := fold_left dominantStep (range 6 counts) ("", 0%Z, false) in
  if tied then "known_bad_rollout" else GateFleet.firstNonEmpty [signature; "known_bad_rollout"].
Definition dominantActionableFailureSignature `{RangeOrder} (failures : list actionableAttentionFailure) : string :=
  dominantFailureSignature (signatureCounts (map aa_Signature failures)).
Definition dominantRolloutFailureSignature `{RangeOrder} (rollout : DeploymentRolloutResponse) : string :=
  dominantFailureSignature (signatureCounts (map wp_CurrentFailureSignature (ro_Workers rollout))).

(** ** The verdict on a source *)

Record failedSourcePauseEvaluation := mkPauseEvaluation {
  fe_Deployment : Deployment;
  fe_Rollout : DeploymentRolloutResponse;
  fe_Workers : list Worker;
  fe_Summary : string;
  fe_Signature : string
}.

Inductive policyError := NoReleaseQualityWorkers (source : string) (deployment : Z).

Definition failedSourcePauseTargets (deployment : Deployment) : list Worker :=
  List.filter (fun w => workerActiveForSourcePause w deployment) (ListWorkersForSource (db_workers db) (policySource deployment)).

Definition failedSourcePolicyEvaluation `{RangeOrder} (now : time) (deployment : Deployment) (policy : FailedSourcePausePolicy)
  : result policyError (option failedSourcePauseEvaluation * failedSourcePolicyVerdict) :=
  let policy := normalizeFailedSourcePausePolicy policy in
  let source := policySource deployment in
  if negb (sourceAllowedForPolicy source (fp_SourceAllowlist policy)) ||
     negb (EqualFold (TrimSpace (d_Status deployment)) "ready") || (TrimSpace (d_ImageRef deployment) =s "")
  then Ok (None, failedSourcePolicyInconclusive)
  else
    let rollout := rolloutOf now deployment in
    if (ro_TotalWorkers rollout =? 0)%Z then Ok (None, failedSourcePolicyInconclusive)
    else match deploymentScorecardWorkers db deployment with
    | [] => Err (NoReleaseQualityWorkers source (d_ID deployment))
    | releaseQualityWorkers =>
        if negb (ro_Status rollout =s "needs_attention") || (0 <? ro_OutdatedWorkers rollout)%Z ||
           (0 <? ro_ProbingWorkers rollout)%Z || (0 <? ro_AwaitingVerification rollout)%Z ||
           negb (ro_UpdatedWorkers rollout =? ro_TotalWorkers rollout)%Z || (ro_AttentionWorkers rollout =? 0)%Z
        then Ok (None, failedSourcePolicyInconclusive)
        else
          let actionable := releaseQualityActionableAttentionFailures rollout deployment
                              (list_to_set (map w_ID releaseQualityWorkers)) in
          if negb (multiWorkerFailuresCorroborated actionable (fp_MinAttentionWorkers policy) (fp_MinFleetAttentionWorkers policy)) &&
             negb (singleWorkerFailureCorroborated actionable deployment (fp_SingleWorkerMinConsecutiveFailures policy))
          then Ok (None, failedSourcePolicyCleared)
          else
            let summary := sourceHumanLabel source +:+ " is known-bad for soak " +:+ shortVersionValue (d_GitSHA deployment) +:+
              " / litestream " +:+ shortVersionValue (d_LitestreamSHA deployment) +:+
              "; pausing active worker compute until the next deployment." in
            Ok (Some (mkPauseEvaluation deployment rollout [] summary (dominantActionableFailureSignature actionable)),
                failedSourcePolicyKnownBad)
    end.

Definition failedSourcePauseCandidate `{RangeOrder} (now : time) (deployment : Deployment) (policy : FailedSourcePausePolicy)
  : result policyError (option failedSourcePauseEvaluation) :=
  match failedSourcePolicyEvaluation now deployment policy with
  | Err e => Err e
  | Ok (Some evaluation, failedSourcePolicyKnownBad) =>
      match failedSourcePauseTargets deployment with
      | [] => Ok None
      | workers => Ok (Some (mkPauseEvaluation (fe_Deployment evaluation) (fe_Rollout evaluation) workers
                               (fe_Summary evaluation) (fe_Signature evaluation)))
      end
  | Ok _ => Ok None
  end.

(** * The age of a pull-request run *)

Definition workerEligibleForPRMaxAge (worker : Worker) (deployment : Deployment) (action : PRMaxAgeAction) : bool :=
  if negb (workerMatchesDeployment worker deployment) then false
  else match w_Status worker with
       | WorkerRunning | WorkerDegraded | WorkerProbing | WorkerStarting => true
       | WorkerDormant => match action with PRMaxAgeActionDestroy => true | _ => false end
       | _ => false
       end.

Definition prMaxAgeActionSummary (action : PRMaxAgeAction) : string :=
  match action with
  | PRMaxAgeActionDestroy => "destroying worker compute, volumes, and replica prefix data"
  | _ => "stopping worker compute while preserving volumes and replica data for debugging"
  end.

Definition prMaxAgeCandidate (deployment : Deployment) (policy : PRMaxAgePolicy) (now : time)
  : option (policyEvaluation * PRMaxAgeAction) :=
  let policy := normalizePRMaxAgePolicy policy in
  let source := policySource deployment in
  if isGateSource source || negb (sourceAllowedForPolicy source (ma_SourceAllowlist policy)) then None
  else if IsZero (d_StartedAt deployment) || (time_Sub now (d_StartedAt deployment) <? ma_Threshold policy)%Z then None
  else
    let rollout := rolloutOf now deployment in
    let targeted := List.filter (fun w => workerEligibleForPRMaxAge w deployment (ma_Action policy))
                      (ListWorkersForSource (db_workers db) source) in
    match targeted with
    | [] => None
    | _ => Some (mkEvaluation deployment rollout targeted
             (sourceHumanLabel source ++ " exceeded max soak age of " ++ DurationString (ma_Threshold policy) ++
              "; archiving current evidence and " ++ prMaxAgeActionSummary (ma_Action policy) ++ "."), ma_Action policy)
    end.
End Policies.

(** * Dormancy *)

Record dormancyCandidate := mkCandidate { dc_Signature : string; dc_Since : time; dc_Count : Z }.

Definition dormancyObservedAt (v : Verification) : time :=
  match v_CompletedAt v with Some c => if IsZero c then v_StartedAt v else c | None => v_StartedAt v end.
Definition dormancyEvaluationStart (worker : Worker) : time :=
  match w_LastProbeAt worker with
  | Some p => if After p (w_CreatedAt worker) then p else w_CreatedAt worker
  | None => w_CreatedAt worker
  end.
Definition verificationsSince (l : list Verification) (cutoff : time) : list Verification :=
  if IsZero cutoff then l else List.filter (fun v => negb (Before (dormancyObservedAt v) cutoff)) l.
Definition dormancyVerifications (decodeMarker : string -> option string) (worker : Worker) (l : list Verification)
  : list Verification :=
  (excludeMeteringRunVerifications decodeMarker (verificationsSince l (dormancyEvaluationStart worker))).1.
Definition dormancyHistory `{Decoders} (decodeMarker : string -> option string) (db : soakDB) (worker : Worker) : list Verification :=
  dormancyVerifications decodeMarker worker (ListVerificationsExcludingMeteringRuns db (w_ID worker) 256).

(** The run of failures with one signature: its length and its oldest. *)
Fixpoint dormancyRun (signature : string) (count oldest : Z) (l : list Verification) : Z * time :=
  match l with
  | [] => (count, oldest)
  | v :: rest =>
      if negb (activeFailure v) then (count, oldest)
      else if negb (inferVerificationSignature v =s signature) then (count, oldest)
      else dormancyRun signature (count + 1) (dormancyObservedAt v) rest
  end.

Definition detectDormancyCandidate (l : list Verification) (now : time) (threshold : duration) (minFailures : Z)
  : option dormancyCandidate :=
  match l with
  | [] => None
  | latest :: _ =>
      let minFailures := if (minFailures <=? 0)%Z then 1%Z else minFailures in
      if negb (activeFailure latest) then None
      else
        let signature := inferVerificationSignature latest in
        let signature := if signature =s "" then "unknown_failure" else signature in
        let '(count, oldest) := dormancyRun signature 0 0 l in
        if (count <? minFailures)%Z || IsZero oldest then None
        else if (time_Sub now oldest <? threshold)%Z then None
        else Some (mkCandidate signature oldest count)
  end.

(** * The evidence windows end *)

Section Windows.
Context `{Decoders}.
Variables (processPolicy : EnvironmentalFailurePolicy) (db : soakDB) (workerID : string) (deployment : Deployment).

(** The worker's whole history, newest first. *)
Definition wholeHistory : list Verification :=
  order_desc v_StartedAt (List.filter (fun v => (v_WorkerID v =s workerID) && nonMeteringRun v) (db_verifications db)).
Lemma history_take n : ListVerificationsExcludingMeteringRuns db workerID n = firstn n wholeHistory.
Proof using. done. Qed.

(** What makes more history pointless, and where the code gives up. *)
Definition decisive (l : list Verification) : Prop :=
  l = wholeHistory \/ Exists (fun v => Inconclusive v = false) l \/
  Exists (fun v => (v_StartedAt v < d_StartedAt deployment)%Z) l \/ (sourcePauseHistoryLimitCap <= Z.of_nat (length l))%Z.

Lemma short_is_whole limit :
  (0 <= limit)%Z -> (Z.of_nat (length (firstn (Z.to_nat limit) wholeHistory)) < limit)%Z ->
  firstn (Z.to_nat limit) wholeHistory = wholeHistory.
Proof using. intros H0 Hl. rewrite length_firstn in Hl. apply firstn_all2. lia. Qed.

Lemma pause_history_step fuel limit :
  (0 < limit)%Z -> (sourcePauseHistoryLimitCap <= limit * 4 ^ Z.of_nat fuel)%Z ->
  exists l, pauseEvidenceHistory db (S fuel) workerID deployment limit = Some l /\ decisive l /\
    exists n, l = firstn n wholeHistory.
Proof using.
  revert limit. induction fuel as [|fuel IH]; intros limit H0 Hcap; simpl; rewrite history_take;
    set (l := firstn (Z.to_nat limit) wholeHistory);
    (destruct (Z.ltb_spec (Z.of_nat (length l)) limit) as [Hlt|Hge];
      [exists l; simpl; split_and!; [done|left; apply short_is_whole; [lia|done]|by eexists]|]);
    (destruct (Z.leb_spec sourcePauseHistoryLimitCap limit) as [Hc|Hc];
      [exists l; simpl; split_and!; [done|do 3 right; lia|by eexists]|]); simpl.
  - simpl in Hcap. lia.
  - destruct (existsb _ l) eqn:Ex.
    { exists l. split_and!; [done| |by eexists]. right. left. apply existsb_exists in Ex as (v & Hv & Hi).
      apply List.Exists_exists. exists v. split; [done|]. by apply negb_true_iff in Hi. }
    destruct (last l) as [oldest|] eqn:El; [|apply last_None in El; rewrite El in Hge; simpl in Hge; lia].
    destruct (Before (v_StartedAt oldest) (d_StartedAt deployment)) eqn:Eb.
    { exists l. split_and!; [done| |by eexists]. right. right. left. apply List.Exists_exists. exists oldest.
      split; [by apply list_elem_of_In, last_Some_elem_of|]. unfold Before in Eb. lia. }
    apply IH; [lia|]. rewrite Nat2Z.inj_succ, Z.pow_succ_r in Hcap by lia. lia.
Qed.

Lemma grow_window_step fuel minConsecutive limit :
  (0 < limit)%Z -> (sourcePauseHistoryLimitCap <= limit * 4 ^ Z.of_nat fuel)%Z ->
  is_Some (growWindow processPolicy db (S fuel) workerID deployment minConsecutive limit).
Proof using.
  revert limit. induction fuel as [|fuel IH]; intros limit H0 Hcap; simpl;
    destruct (walkConsecutiveActionable _ _ _ _) as [corroborated decided]; (destruct corroborated; [by eexists|]).
  - simpl in Hcap. destruct (Z.leb_spec sourcePauseHistoryLimitCap limit); [|lia]. rewrite orb_true_r. by eexists.
  - destruct (_ || _); [by eexists|]. apply IH; [unfold sourcePauseHistoryLimitCap; lia|].
    rewrite Nat2Z.inj_succ, Z.pow_succ_r in Hcap by lia.
    assert (1 <= 4 ^ Z.of_nat fuel)%Z by lia. unfold sourcePauseHistoryLimitCap in *. nia.
Qed.

(** The growing windows of the known-bad policy end: the evidence history is
    found within four queries and is decisive (it is everything, holds a
    conclusive verification, reaches back before the deployment, or has a
    thousand rows), and the single-worker walk ends within five. *)
Theorem evidence_windows_end (minConsecutive : Z) (Hmin : (1 <= minConsecutive)%Z) :
  (exists l, pauseEvidenceHistory db 4 workerID deployment 20 = Some l /\ decisive l /\ exists n, l = firstn n wholeHistory) /\
  is_Some (growWindow processPolicy db 5 workerID deployment minConsecutive (minConsecutive * 5 + 10)).
Proof using.
  split; [apply pause_history_step|apply grow_window_step]; unfold sourcePauseHistoryLimitCap; simpl; lia.
Qed.
End Windows.

(** * The dominant signature is the strict maximum *)

Definition occurrences (signatures : list string) (s : string) : Z := countb (fun x => x =s s) signatures.

(** More frequent than every other signature; blank ones do not count. *)
Definition dominates (signatures : list string) (s : string) : Prop :=
  TrimSpace s <> "" /\ (0 < occurrences signatures s)%Z /\
  forall s', s' <> s -> TrimSpace s' <> "" -> (occurrences signatures s' < occurrences signatures s)%Z.

Lemma counts_spec signatures s :
  signatureCounts signatures !! s =
    if bool_decide (TrimSpace s <> "" /\ (0 < occurrences signatures s)%Z) then Some (occurrences signatures s) else None.
Proof.
  unfold signatureCounts. set (f := fun counts s => _).
  assert (forall l m, (forall k n, m !! k = Some n -> TrimSpace k <> "") ->
    fold_left f l m !! s = if bool_decide (TrimSpace s <> "" /\ (0 < occurrences l s)%Z)
                           then Some (default 0 (m !! s) + occurrences l s)%Z else m !! s) as Hgen.
  { intros l. induction l as [|x l IH]; intros m Hm; simpl; [by rewrite bool_decide_false by (unfold occurrences, countb; simpl; lia)|].
    assert (occurrences (x :: l) s = (if x =s s then 1 else 0) + occurrences l s)%Z as -> by (unfold occurrences; by rewrite countb_cons).
    assert (0 <= occurrences l s)%Z by apply countb_nonneg.
    unfold f at 2. destruct (eqs_spec (TrimSpace x) "") as [Hx|Hx].
    - rewrite IH by done. destruct (eqs_spec x s) as [->|Hne]; [|by rewrite Z.add_0_l].
      rewrite !bool_decide_false by tauto. done.
    - rewrite IH. 2:{ intros k n. destruct (decide (x = k)) as [<-|]; [done|]. rewrite lookup_insert_ne by done. apply Hm. }
      destruct (eqs_spec x s) as [->|Hne]; [|by rewrite lookup_insert_ne, Z.add_0_l].
      rewrite lookup_insert_eq. simpl. rewrite (bool_decide_true (_ /\ (0 < 1 + _)%Z)) by (split; [done|lia]).
      case_bool_decide as Hb; [f_equal; lia|]. assert (occurrences l s = 0)%Z as -> by (destruct (decide (0 < occurrences l s)%Z); [tauto|lia]).
      done. }
  rewrite Hgen by (intros k n; by rewrite lookup_empty). rewrite lookup_empty. simpl. by rewrite Z.add_0_l.
Qed.

(** The state of the loop: the best so far and whether another one equals it. *)
Definition best (seen : list (string * Z)) (st : string * Z * bool) : Prop :=
  let '(signature, count, tied) := st in
  (0 <= count)%Z /\ (forall e, In e seen -> (e.2 <= count)%Z) /\
  (seen <> [] -> In (signature, count) seen) /\ (seen = [] -> count = 0%Z /\ tied = false /\ signature = "") /\
  (tied = true <-> exists e, In e seen /\ e.1 <> signature /\ e.2 = count).

Lemma dominant_best l seen st :
  NoDup (map fst (seen ++ l)) -> (forall e, In e (seen ++ l) -> (0 < e.2)%Z) ->
  best seen st -> best (seen ++ l) (fold_left dominantStep l st).
Proof.
  revert seen st. induction l as [|[s n] l IH]; intros seen [[signature count] tied] Hnd Hpos Hb; simpl; [by rewrite app_nil_r|].
  replace (seen ++ (s, n) :: l) with ((seen ++ [(s, n)]) ++ l) in * by by rewrite <- app_assoc.
  apply IH; [done|done|]. clear IH. rewrite map_app, NoDup_app in Hnd. destruct Hnd as [Hnd _].
  rewrite map_app, NoDup_app in Hnd. destruct Hnd as (_ & Hs & _).
  assert (forall e, In e seen -> e.1 <> s) as Hfresh.
  { intros e He <-. apply (Hs e.1); [apply list_elem_of_In; by apply in_map|]. simpl. by apply list_elem_of_In; left. }
  assert (0 < n)%Z by (apply (Hpos (s, n)); rewrite !in_app_iff; simpl; tauto).
  destruct Hb as (H0 & H1 & H2 & H3 & H4). unfold dominantStep. simpl.
  assert (forall P : string * Z -> Prop, (exists e, In e (seen ++ [(s, n)]) /\ P e) <-> (exists e, In e seen /\ P e) \/ P (s, n)) as Hex.
  { intros P. split.
    - intros (e & He & HP). apply in_app_iff in He as [He|[<-|[]]]; eauto.
    - intros [(e & He & HP)|HP]; [exists e; rewrite in_app_iff; auto|exists (s, n); rewrite in_app_iff; simpl; auto]. }
  destruct (Z.ltb_spec count n) as [Hlt|Hge]; [|destruct (Z.eqb_spec n count) as [->|Hne]].
  - unfold best. split_and!; [lia| |intros _; rewrite in_app_iff; simpl; tauto|by destruct seen| ].
    + intros e [He|[<-|[]]]%in_app_iff; [specialize (H1 e He); lia|simpl; lia].
    + split; [done|]. intros (e & [He|[<-|[]]]%in_app_iff & Hne & He2); [specialize (H1 e He); lia|done].
  - unfold best. split_and!; [lia| |intros _; rewrite in_app_iff; left; apply H2|by destruct seen| ].
    + intros e [He|[<-|[]]]%in_app_iff; [by apply H1|simpl; lia].
    + intros ->. destruct (H3 eq_refl). lia.
    + split; [intros _|done]. apply (Hex (fun e => e.1 <> signature /\ e.2 = count)). right. simpl. split; [|done].
      assert (seen <> []) as Hne by (intros ->; destruct (H3 eq_refl); lia). specialize (Hfresh _ (H2 Hne)). simpl in Hfresh. congruence.
  - assert (seen <> []) as Hs' by (intros ->; destruct (H3 eq_refl); lia).
    unfold best. split_and!; [lia| |intros _; rewrite in_app_iff; left; by apply H2|by destruct seen| ].
    + intros e [He|[<-|[]]]%in_app_iff; [by apply H1|simpl; lia].
    + rewrite H4. rewrite (Hex (fun e => e.1 <> signature /\ e.2 = count)). simpl. split; [by left|]. intros [|[_ ?]]; [done|congruence].
Qed.

(** The signature a known-bad source is recorded under is the one strictly
    more frequent than every other, and the generic one when there is none,
    whatever the order in which the counts are read. *)
Theorem dominant_is_strict_maximum `{RangeOrder} (failures : list actionableAttentionFailure) :
  let signatures := map aa_Signature failures in
  dominates signatures (dominantActionableFailureSignature failures) \/
  (dominantActionableFailureSignature failures = "known_bad_rollout" /\ forall s, ~ dominates signatures s).
Proof.
  cbv zeta. unfold dominantActionableFailureSignature, dominantFailureSignature.
  set (signatures := map aa_Signature failures). set (counts := signatureCounts signatures).
  assert (forall e, In e (range 6 counts) <-> TrimSpace e.1 <> "" /\ (0 < occurrences signatures e.1)%Z /\ e.2 = occurrences signatures e.1) as Hin.
  { intros [s n]. rewrite <- list_elem_of_In, (range_perm 6), elem_of_map_to_list. unfold counts. rewrite counts_spec. simpl.
    case_bool_decide; split; [intros [= <-]; tauto|by intros (_ & _ & ->)|done|tauto]. }
  assert (best (range 6 counts) (fold_left dominantStep (range 6 counts) ("", 0%Z, false))) as Hb.
  { apply (dominant_best _ []); simpl.
    - apply range_map.
    - intros e He. apply Hin in He. lia.
    - unfold best. split_and!; try done. split; [done|]. by intros (e & [] & _). }
  destruct (fold_left _ _ _) as [[signature count] tied]. destruct Hb as (H0 & H1 & H2 & H3 & H4).
  assert (forall s, dominates signatures s -> In (s, occurrences signatures s) (range 6 counts)) as Hdom
    by (intros s (? & ? & _); by apply Hin).
  destruct (range 6 counts) as [|e0 l] eqn:El.
  { destruct (H3 eq_refl) as (-> & -> & ->). right. split; [done|]. intros s Hs. by apply Hdom in Hs. }
  rewrite <- El in *. clear H3. assert (In (signature, count) (range 6 counts)) as Hs by (apply H2; by rewrite El).
  pose proof (proj1 (Hin _) Hs) as (Hblank & Hpos & Hcount). simpl in Hblank, Hpos, Hcount. destruct tied.
  - right. split; [done|]. intros s Hd. pose proof (H1 _ (Hdom s Hd)) as Hle. simpl in Hle.
    destruct (proj1 H4 eq_refl) as (e & He & Hne & He2). apply Hin in He as (Hb & _ & He3). destruct Hd as (_ & _ & Hd).
    destruct (decide (signature = s)) as [->|Hneq].
    + specialize (Hd e.1 Hne Hb). lia.
    + specialize (Hd signature Hneq Hblank). lia.
  - left. simpl. apply eqs_false in Hblank as Hb. rewrite Hb. cbn [negb]. split_and!; [done|done|]. intros s' Hne Hb'.
    destruct (decide (0 < occurrences signatures s')%Z); [|lia].
    assert (In (s', occurrences signatures s') (range 6 counts)) as Hin' by by apply Hin.
    pose proof (H1 _ Hin') as Hle. simpl in Hle. destruct (decide (occurrences signatures s' = count)) as [E|]; [|lia].
    assert (false = true) by (apply H4; eauto). done.
Qed.

(** * Dormancy is a long run of one failure *)

Definition failsWith (signature : string) (v : Verification) : Prop :=
  Failed v = true /\ inferVerificationSignature v = signature.
Definition stopsAt (signature : string) (rest : list Verification) : Prop :=
  match rest with [] => True | v :: _ => ~ failsWith signature v end.

Lemma dormancyRun_run signature run rest c o :
  Forall (failsWith signature) run -> stopsAt signature rest ->
  dormancyRun signature c o (run ++ rest) =
    (c + Z.of_nat (length run), match last run with Some v => dormancyObservedAt v | None => o end)%Z.
Proof.
  intros Hrun Hrest. revert c o. induction Hrun as [|v run [Hf Hs] Hrun IH]; intros c o; simpl.
  - rewrite Z.add_0_r. destruct rest as [|v rest]; [done|]. simpl. unfold activeFailure. destruct (Failed v) eqn:Ef; [|done]. simpl.
    destruct (eqs_spec (inferVerificationSignature v) signature); [|done]. destruct Hrest. by split.
  - unfold activeFailure. rewrite Hf, Hs, eqs_refl. cbn [negb]. rewrite IH. f_equal; [lia|].
    change (v :: run) with ([v] ++ run). rewrite last_app. by destruct (last run).
Qed.
Lemma split_run signature l : exists run rest, l = run ++ rest /\ Forall (failsWith signature) run /\ stopsAt signature rest.
Proof.
  induction l as [|v l (run & rest & -> & Hrun & Hrest)]; [by exists [], []|].
  destruct (decide (Failed v = true)) as [Hf|Hf]; [|exists [], (v :: run ++ rest); split_and!; [done|done|by intros [? _]]].
  destruct (decide (inferVerificationSignature v = signature)) as [Hs|Hs].
  - exists (v :: run), rest. split_and!; [done| |done]. by constructor.
  - exists [], (v :: run ++ rest). split_and!; [done|done|by intros [_ ?]].
Qed.

(** A worker is a dormancy candidate exactly when its newest verifications
    are a run of failures with one signature, at least the required number and
    long enough ago at its oldest; the candidate names that signature, the
    length of the whole run and the time of its oldest failure. *)
Theorem dormancy_candidate_iff (l : list Verification) (now : time) (threshold : duration) (minFailures : Z) (c : dormancyCandidate) :
  detectDormancyCandidate l now threshold minFailures = Some c <->
  exists run rest oldest,
    l = run ++ rest /\ Forall (failsWith (dc_Signature c)) run /\ stopsAt (dc_Signature c) rest /\
    last run = Some oldest /\ dc_Signature c <> "" /\ dc_Since c = dormancyObservedAt oldest /\ dc_Since c <> 0%Z /\
    dc_Count c = Z.of_nat (length run) /\ (Z.max 1 minFailures <= dc_Count c)%Z /\ (threshold <= time_Sub now (dc_Since c))%Z.
Proof.
  split.
  - unfold detectDormancyCandidate. destruct l as [|latest l]; [done|].
    set (min := if (minFailures <=? 0)%Z then 1%Z else minFailures).
    assert (min = Z.max 1 minFailures) as Hmin by (unfold min; destruct (Z.leb_spec minFailures 0); lia). clearbody min.
    destruct (activeFailure latest); [|done]. cbn [negb]. set (signature := if _ =s "" then _ else _).
    assert (signature <> "") as Hsig by (unfold signature; destruct (eqs_spec (inferVerificationSignature latest) ""); done).
    destruct (split_run signature (latest :: l)) as (run & rest & -> & Hrun & Hrest).
    rewrite (dormancyRun_run _ _ _ _ _ Hrun Hrest), Z.add_0_l.
    destruct (Z.ltb_spec (Z.of_nat (length run)) min) as [|Hge]; [done|]. cbn [orb].
    destruct (last run) as [oldest|] eqn:El; [|done]. unfold IsZero.
    destruct (Z.eqb_spec (dormancyObservedAt oldest) 0); [done|].
    destruct (Z.ltb_spec (time_Sub now (dormancyObservedAt oldest)) threshold); [done|]. intros [= <-].
    exists run, rest, oldest. simpl. split_and!; try done. lia.
  - destruct c as [signature since count]. simpl.
    intros (run & rest & oldest & -> & Hrun & Hrest & El & Hs & -> & Hz & -> & Hc & Ht).
    pose proof (dormancyRun_run signature run rest 0 0 Hrun Hrest) as Hr. rewrite El, Z.add_0_l in Hr.
    destruct run as [|latest run]; [done|]. inversion Hrun as [|? ? [Hf Hsig] _]; subst.
    unfold detectDormancyCandidate. cbn [app]. change (latest :: run ++ rest) with ((latest :: run) ++ rest).
    unfold activeFailure at 1. rewrite Hf. cbn [negb]. apply eqs_false in Hs. rewrite Hs, Hr. unfold IsZero.
    destruct (Z.leb_spec minFailures 0); repeat match goal with |- context [(?a <? ?b)%Z] => destruct (Z.ltb_spec a b); [lia|] end;
      cbn [orb]; destruct (Z.eqb_spec (dormancyObservedAt oldest) 0); try done.
Qed.

(** * Only a proven clean soak is torn down *)

Definition observedSince (start : time) (v : Verification) : Prop :=
  match verificationObservedAt v with Some o => (start <= o)%Z | None => True end.

(** What the walk has established about the verifications it saw. *)
Record walked (environmental : gset Z) (start pass pending : time) (seen : list Verification) (pass' pending' : time) : Prop := {
  wk_since : Forall (observedSince start) seen;
  wk_failures : Forall (fun v => verificationObservedAt v = None \/ Failed v = false \/ v_ID v ∈ environmental) seen;
  wk_pass : pass' = pass \/ exists v, In v seen /\ Succeeded v = true /\ verificationObservedAt v = Some pass' /\ (start <= pass')%Z;
  wk_pending : (pending <= pending')%Z /\
    Forall (fun v => Pending v = true -> forall o, verificationObservedAt v = Some o -> (o <= pending')%Z) seen
}.

Lemma Pending_not_failed v : Pending v = true -> Failed v = false.
Proof. unfold Failed, Inconclusive. intros ->. by rewrite orb_true_r. Qed.

Lemma successWalk_spec environmental start l pass pending pass' pending' :
  successWalk environmental start pass pending l = Some (pass', pending') ->
  exists seen rest, l = seen ++ rest /\ (match rest with [] => True | v :: _ => ~ observedSince start v end) /\
    walked environmental start pass pending seen pass' pending'.
Proof.
  revert pass pending. induction l as [|v l IH]; intros pass pending; simpl.
  { intros [= <- <-]. exists [], []. split_and!; [done|done|]. constructor; try done. by left. }
  assert (forall pass0 pending0, (pass0 = pass \/ (Succeeded v = true /\ exists o, verificationObservedAt v = Some o /\ pass0 = o /\ (start <= o)%Z)) ->
    (pending <= pending0)%Z -> (Pending v = true -> forall o, verificationObservedAt v = Some o -> (o <= pending0)%Z) ->
    observedSince start v -> (verificationObservedAt v = None \/ Failed v = false \/ v_ID v ∈ environmental) ->
    successWalk environmental start pass0 pending0 l = Some (pass', pending') ->
    exists seen rest, v :: l = seen ++ rest /\ (match rest with [] => True | v :: _ => ~ observedSince start v end) /\
      walked environmental start pass pending seen pass' pending') as Hgo.
  { intros pass0 pending0 Hp Hq Hpend Hs Hf E. apply IH in E as (seen & rest & -> & Hrest & [W1 W2 W3 [W4 W5]]).
    exists (v :: seen), rest. split_and!; [done|done|]. constructor; [by constructor|by constructor| |].
    - destruct W3 as [-> |(u & Hu & Hu')]; [|right; exists u; split; [by right|done]].
      destruct Hp as [-> |(Hsu & o & Ho & -> & Ho')]; [by left|]. right. exists v. split_and!; try done. by left.
    - split; [lia|]. constructor; [|done]. intros Hv o Ho. specialize (Hpend Hv o Ho). lia. }
  destruct (verificationObservedAt v) as [o|] eqn:Eo.
  2:{ apply Hgo; [by left|lia|done|unfold observedSince; by rewrite Eo|by left]. }
  destruct (Before o start) eqn:Eb; unfold Before in Eb.
  { intros [= <- <-]. exists [], (v :: l). split_and!; [done|unfold observedSince; rewrite Eo; lia|]. constructor; try done. by left. }
  assert (observedSince start v) as Hs by (unfold observedSince; rewrite Eo; lia).
  unfold activeFailure. destruct (Failed v) eqn:Ef.
  { case_bool_decide; [|done]. apply Hgo; [by left|lia| |done|by right; right].
    intros Hp. apply Pending_not_failed in Hp. congruence. }
  apply Hgo; [| | |done|by right; left].
  - destruct (Succeeded v); [|by left]. simpl. unfold After. destruct (Z.ltb_spec pass o); [|by left]. right. split; [done|].
    exists o. split_and!; [done|done|lia].
  - unfold After. destruct (Pending v && _) eqn:E; [|lia]. apply andb_true_iff in E as [_ E]. lia.
  - intros -> o' [= <-]. simpl. unfold After. destruct (Z.ltb_spec pending o); lia.
Qed.

Lemma policySource_eq deployment : policySource deployment = deploymentSource deployment.
Proof.
  unfold policySource, deploymentSource. simpl. rewrite TrimSpace_idem.
  by destruct (eqs_spec (TrimSpace (d_Source deployment)) "").
Qed.

Section Teardown.
Context `{Decoders}.
Variables (processPolicy : EnvironmentalFailurePolicy) (db : soakDB) (expectedRun : string -> option WorkerIdentity)
  (dormantFleet : string -> option (option time)) (buildRunReliability : Deployment -> option time -> list WorkerRunEvidence).

(** The worker runs the deployment's build now, with a fresh heartbeat and a
    healthy runtime, and of its verifications of this deployment since it
    started none that is not environmental failed; it passed past the threshold
    and no check is pending since. *)
Definition cleanSoak (deployment : Deployment) (policy : SuccessTeardownPolicy) (now : time) (w : Worker) : Prop :=
  w_Status w = WorkerRunning /\ workerMatchesDeployment w deployment = true /\ runtimeStatus w = "healthy" /\
  (exists h, w_LastHeartbeatAt w = Some h /\ (time_Sub now h <= st_HeartbeatStaleAfter policy)%Z) /\
  let current := currentDeploymentVerifications (expectedRun (w_ID w)) w deployment (ListVerifications db (w_ID w) 512) in
  let environmental := environmentalVerificationIDs current (normalized processPolicy) in
  exists seen rest passed passedAt, current = seen ++ rest /\
    match rest with [] => True | v :: _ => ~ observedSince (d_StartedAt deployment) v end /\
    In passed seen /\ Succeeded passed = true /\ verificationObservedAt passed = Some passedAt /\
    (d_StartedAt deployment + st_Threshold policy <= passedAt)%Z /\
    Forall (fun v => forall o, verificationObservedAt v = Some o ->
      (Failed v = false \/ v_ID v ∈ environmental) /\ (Pending v = true -> (o < passedAt)%Z)) seen.

Lemma passed_window deployment policy now w :
  workerPassedSuccessWindow processPolicy db expectedRun w deployment policy now = true -> cleanSoak deployment policy now w.
Proof using.
  unfold workerPassedSuccessWindow, cleanSoak. destruct (status_in [WorkerRunning] w) eqn:Es; [|done].
  destruct (workerMatchesDeployment w deployment); [|done]. cbn [negb orb].
  destruct (w_LastHeartbeatAt w) as [h|]; [|done]. destruct (Z.ltb_spec (st_HeartbeatStaleAfter policy) (time_Sub now h)) as [|Hh]; [done|].
  destruct (eqs_spec (runtimeStatus w) "healthy") as [Hr|]; [|done]. cbn [negb].
  set (current := currentDeploymentVerifications _ _ _ _). set (environmental := environmentalVerificationIDs _ _).
  destruct (successWalk _ _ _ _ _) as [[passAt pendingAt]|] eqn:E; [|done].
  apply successWalk_spec in E as (seen & rest & Ecur & Hrest & [W1 W2 W3 [_ W5]]).
  unfold IsZero. destruct (Z.eqb_spec passAt 0); [done|]. cbn [orb]. unfold Before. destruct (Z.ltb_spec pendingAt passAt); [|done]. cbn [negb].
  unfold time_Add. destruct (Z.ltb_spec passAt (d_StartedAt deployment + st_Threshold policy)); [done|]. intros _.
  destruct W3 as [|(passed & Hin & Hsucc & Hobs & _)]; [done|].
  split_and!; try done.
  - unfold status_in in Es. by destruct (w_Status w).
  - by exists h.
  - exists seen, rest, passed, passAt. split_and!; try done. rewrite List.Forall_forall in W2, W5 |- *.
    intros v Hv o Ho. split; [destruct (W2 v Hv) as [|]; [congruence|done]|]. intros Hp. specialize (W5 v Hv Hp o Ho). lia.
Qed.

Lemma candidate_facts (deployment : Deployment) (policy : SuccessTeardownPolicy) (now : time) (e : policyEvaluation)
    (Hcandidate : successTeardownCandidate processPolicy db expectedRun dormantFleet buildRunReliability deployment policy now = Some e) :
  let policy := normalizeSuccessTeardownPolicy policy in
  let source := policySource deployment in
  isGateSource source = false /\ sourceAllowedForPolicy source (st_SourceAllowlist policy) = true /\
  (st_Threshold policy <= time_Sub now (d_StartedAt deployment))%Z /\
  buildRunReliability deployment (Some now) <> [] /\
  (forall r, In r (buildRunReliability deployment (Some now)) ->
     cleanRun now (d_StartedAt deployment) (Some now) Hour (st_Threshold policy)
       (evaluateRunEligibility now r (d_StartedAt deployment) (Some now) Hour (st_Threshold policy))) /\
  ev_Workers e <> [] /\
  (forall w, In w (ev_Workers e) <-> In w (db_workers db) /\ w_Source w = source /\ inactive w = false) /\
  (forall w, In w (ev_Workers e) -> cleanSoak deployment policy now w).
Proof using.
  cbv zeta. revert Hcandidate. unfold successTeardownCandidate. cbv zeta. set (p := normalizeSuccessTeardownPolicy policy).
  destruct (isGateSource _) eqn:Eg; [done|]. destruct (sourceAllowedForPolicy _ _) eqn:Ea; [|done]. cbn [orb negb].
  destruct (IsZero _); [done|]. cbn [orb]. destruct (Z.ltb_spec (time_Sub now (d_StartedAt deployment)) (st_Threshold p)) as [|Ht]; [done|].
  destruct (buildRunReliability deployment (Some now)) as [|r0 rs] eqn:Er; [done|]. rewrite <- Er.
  destruct (forallb re_Eligible _) eqn:Ee; [|done]. cbn [negb].
  set (rollout := rolloutOf _ _ _ _ _). set (workers := ListWorkersForSource _ _).
  destruct (Z.eqb_spec (ro_TotalWorkers rollout) 0) as [|Htot]; [done|]. cbn [orb].
  destruct (_ || negb (ro_AttentionWorkers rollout =? 0)%Z); [done|].
  destruct (forallb _ workers) eqn:Ew; [|done]. cbn [negb]. intros [= <-]. cbn [ev_Workers].
  assert (forall w, In w workers <-> In w (db_workers db) /\ w_Source w = policySource deployment /\ inactive w = false) as Hw.
  { intros w. unfold workers, ListWorkersForSource. rewrite order_asc_In, filter_In, andb_true_iff, eqs_true, negb_true_iff. tauto. }
  rewrite forallb_forall in Ee, Ew. split_and!; try done.
  - by rewrite Er.
  - intros r Hr. apply eligible_clean, Ee. apply in_map_iff. by exists r.
  - intros E. apply Htot. unfold rollout, rolloutOf.
    destruct (rollout_fields db expectedRun (dormantFleet (deploymentSource deployment)) now deployment) as [-> _].
    rewrite length_map, <- policySource_eq. fold workers. by rewrite E.
  - intros w Hin. apply passed_window, Ew. done.
Qed.

(** Compute is torn down for success only after a proven clean soak: the
    source is not a gate's and the policy allows it, the deployment is at least
    as old as the threshold, every complete run is covered and clean over it,
    and every active worker of the source, of which there is one, soaked
    cleanly. *)
Theorem teardown_is_earned (deployment : Deployment) (policy : SuccessTeardownPolicy) (now : time) (e : policyEvaluation)
    (Hcandidate : successTeardownCandidate processPolicy db expectedRun dormantFleet buildRunReliability deployment policy now = Some e) :
  let policy := normalizeSuccessTeardownPolicy policy in
  let source := policySource deployment in
  isGateSource source = false /\ sourceAllowedForPolicy source (st_SourceAllowlist policy) = true /\
  (st_Threshold policy <= time_Sub now (d_StartedAt deployment))%Z /\
  buildRunReliability deployment (Some now) <> [] /\
  (forall r, In r (buildRunReliability deployment (Some now)) ->
     cleanRun now (d_StartedAt deployment) (Some now) Hour (st_Threshold policy)
       (evaluateRunEligibility now r (d_StartedAt deployment) (Some now) Hour (st_Threshold policy))) /\
  ev_Workers e <> [] /\
  (forall w, In w (ev_Workers e) <-> In w (db_workers db) /\ w_Source w = source /\ inactive w = false) /\
  (forall w, In w (ev_Workers e) -> cleanSoak deployment policy now w).
Proof using. by apply candidate_facts. Qed.
End Teardown.

(** * A source is known bad only when its failures are corroborated *)

Definition actionableSince (environmental : gset Z) (start : time) (v : Verification) : Prop :=
  (start <= v_StartedAt v)%Z /\ Failed v = true /\ v_ID v ∉ environmental.
Definition neutralSince (start : time) (v : Verification) : Prop := (start <= v_StartedAt v)%Z /\ Inconclusive v = true.

Lemma latestActionable_spec environmental start l v :
  latestActionable environmental start l = Some v ->
  exists seen rest, l = seen ++ v :: rest /\ Forall (neutralSince start) seen /\ actionableSince environmental start v.
Proof.
  induction l as [|x l IH]; simpl; [done|]. unfold Before. destruct (Z.ltb_spec (v_StartedAt x) start); [done|].
  destruct (Inconclusive x) eqn:Ei.
  - intros E. destruct (IH E) as (seen & rest & -> & Hs & Hv). exists (x :: seen), rest. split_and!; [done| |done]. by constructor.
  - destruct (Failed x) eqn:Ef; [|done]. case_bool_decide; [done|]. intros [= <-]. exists [], l. by split_and!.
Qed.

(** The newest [n] conclusive verifications are actionable failures since the
    deployment started. *)
Definition consecutiveActionable (environmental : gset Z) (start : time) (n : Z) (l : list Verification) : Prop :=
  exists seen rest, l = seen ++ rest /\
    Forall (fun v => neutralSince start v \/ actionableSince environmental start v) seen /\
    countb (fun v => negb (Inconclusive v)) seen = n.

Lemma walkActionable_spec environmental start n c l b :
  (c < n)%Z -> walkActionable environmental start n c l = (true, b) -> consecutiveActionable environmental start (n - c) l.
Proof.
  revert c. induction l as [|x l IH]; intros c Hc; simpl; [done|]. unfold Before.
  destruct (Z.ltb_spec (v_StartedAt x) start); [done|]. destruct (Inconclusive x) eqn:Ei.
  - intros E. destruct (IH c Hc E) as (seen & rest & -> & Hs & Hn). exists (x :: seen), rest. split_and!; [done| |].
    + constructor; [left; by split|done].
    + rewrite countb_cons, Ei. simpl. lia.
  - destruct (Failed x) eqn:Ef; [|done]. case_bool_decide as Hx; [done|]. cbn [negb orb].
    assert (actionableSince environmental start x) as Ha by by split_and!.
    destruct (Z.leb_spec n (c + 1)).
    + intros _. exists [x], l. split_and!; [done|by constructor; [right|]|]. rewrite countb_cons, Ei. unfold countb. simpl. lia.
    + intros E. destruct (IH (c + 1)%Z ltac:(lia) E) as (seen & rest & -> & Hs & Hn). exists (x :: seen), rest. split_and!; [done| |].
      * constructor; [by right|done].
      * rewrite countb_cons, Ei. simpl. lia.
Qed.

Lemma pairCorroborated_spec n seen failures :
  pairCorroborated seen failures n = true ->
  exists d, releaseFailureDomainSupportsPairCorroboration d = true /\
    (n <= countb (fun g => bool_decide (aa_Domain g = d)) (seen ++ failures))%Z.
Proof.
  revert seen. induction failures as [|f l IH]; intros seen; simpl; [done|].
  destruct (releaseFailureDomainSupportsPairCorroboration (aa_Domain f)) eqn:Ed; cbn [negb].
  - destruct (Z.leb_spec n (countb (fun g => bool_decide (aa_Domain g = aa_Domain f)) (seen ++ [f]))) as [Hn|].
    + intros _. exists (aa_Domain f). split; [done|]. change (f :: l) with ([f] ++ l). rewrite app_assoc.
      unfold countb in *. rewrite List.filter_app, length_app. lia.
    + intros E. apply IH in E as (d & Hd & Hn). exists d. split; [done|]. by rewrite <- app_assoc in Hn.
  - intros E. apply IH in E as (d & Hd & Hn). exists d. split; [done|]. etrans; [exact Hn|].
    unfold countb. rewrite !List.filter_app, !length_app. simpl. case_bool_decide; simpl; lia.
Qed.

Section KnownBad.
Context `{Decoders} `{RangeOrder}.
Variables (processPolicy : EnvironmentalFailurePolicy) (db : soakDB) (expectedRun : string -> option WorkerIdentity)
  (dormantFleet : string -> option (option time)).

Lemma grow_window_spec fuel workerID deployment n limit :
  (0 < n)%Z -> growWindow processPolicy db fuel workerID deployment n limit = Some true ->
  exists k, let l := ListVerificationsExcludingMeteringRuns db workerID k in
    consecutiveActionable (environmentalVerificationIDs l (normalized processPolicy)) (d_StartedAt deployment) n l.
Proof using.
  intros Hn. revert limit. induction fuel as [|fuel IH]; intros limit; simpl; [done|].
  destruct (walkConsecutiveActionable _ _ _ _) as [corroborated decided] eqn:E. destruct corroborated.
  - intros _. exists (Z.to_nat limit). apply walkActionable_spec in E; [|done]. by rewrite Z.sub_0_r in E.
  - destruct (_ || _); [done|]. apply IH.
Qed.

(** What an actionable failure of the attention list is: an active worker of the
    source that counts for the release, needs attention, and whose newest
    conclusive verification of the deployment is an actionable failure. *)
Definition attentionEvidence (deployment : Deployment) (f : actionableAttentionFailure) : Prop :=
  exists w v, In w (db_workers db) /\ w_Source w = deploymentSource deployment /\ inactive w = false /\
    workerIncludedInReleaseQuality w = true /\ w_ID w = aa_WorkerID f /\
    workerNeedsAttention (w_Status w) (runtimeStatus w) = true /\
    aa_Domain f = classifyReleaseFailureDomain (classifyVerification v) /\ aa_Signature f = inferVerificationSignature v /\
    let l := pauseHistory db (aa_WorkerID f) deployment in
    exists seen rest, l = seen ++ v :: rest /\ Forall (neutralSince (d_StartedAt deployment)) seen /\
      actionableSince (environmentalVerificationIDs l (normalized processPolicy)) (d_StartedAt deployment) v.

Lemma attention_ids rollout deployment ids :
  sublist (map aa_WorkerID (releaseQualityActionableAttentionFailures processPolicy db rollout deployment ids))
    (map wp_WorkerID (ro_Workers rollout)).
Proof using.
  unfold releaseQualityActionableAttentionFailures. induction (ro_Workers rollout) as [|p l IH]; [constructor|]. simpl.
  destruct (workerNeedsAttention _ _); [|by constructor]. cbn [negb]. case_bool_decide; [|by constructor]. cbn [negb].
  destruct (latestActionable _ _ _); simpl; by constructor.
Qed.

Lemma attention_evidence now deployment f :
  NoDup (map w_ID (db_workers db)) ->
  In f (releaseQualityActionableAttentionFailures processPolicy db (rolloutOf db expectedRun dormantFleet now deployment) deployment
          (list_to_set (map w_ID (deploymentScorecardWorkers db deployment)))) ->
  attentionEvidence deployment f.
Proof using.
  intros Hnd. unfold releaseQualityActionableAttentionFailures. rewrite <- list_elem_of_In, list_elem_of_omap. intros (p & Hp & E).
  destruct (workerNeedsAttention _ _) eqn:Eatt; [|done]. cbn [negb] in E. case_bool_decide as Hid; [|done]. cbn [negb] in E.
  destruct (latestActionable _ _ _) as [v|] eqn:El; [|done]. simplify_eq. cbn [aa_WorkerID aa_Domain aa_Signature].
  unfold rolloutOf in Hp. destruct (rollout_fields db expectedRun (dormantFleet (deploymentSource deployment)) now deployment)
    as (_ & _ & _ & _ & _ & _ & _ & _ & _ & _ & _ & Hperm & _).
  rewrite Hperm in Hp. apply list_elem_of_In, in_map_iff in Hp as (w & <- & Hw).
  unfold ListWorkersForSource in Hw. rewrite order_asc_In, filter_In, andb_true_iff, eqs_true, negb_true_iff in Hw.
  destruct Hw as (Hw & Hsrc & Hina).
  rewrite elem_of_list_to_set in Hid. apply list_elem_of_In, in_map_iff in Hid as (w' & Hw' & Hin').
  unfold deploymentScorecardWorkers, ListWorkersForSource in Hin'. rewrite filter_In, order_asc_In, filter_In in Hin'.
  destruct Hin' as [[Hin' _] Hq]. cbn [wp_WorkerID] in Hw'.
  assert (w' = w) as -> by (by apply (NoDup_map_inj w_ID (db_workers db))).
  exists w, v. split_and!; try done. by apply latestActionable_spec in El.
Qed.

(** C16: a source is declared known bad only on corroborated evidence: its
    deployment is ready and rolled out to every active worker, and of distinct
    release-quality workers whose newest conclusive verification of it is an
    actionable failure there are as many as the fleet bound, or as many in one
    domain as the pair bound, or one of them failed so in the required number of
    consecutive checks. *)
Theorem known_bad_is_corroborated (now : time) (deployment : Deployment) (policy : FailedSourcePausePolicy)
    (e : option failedSourcePauseEvaluation)
    (Hids : NoDup (map w_ID (db_workers db)))
    (Hbad : failedSourcePolicyEvaluation processPolicy db expectedRun dormantFleet now deployment policy = Ok (e, failedSourcePolicyKnownBad)) :
  let policy := normalizeFailedSourcePausePolicy policy in
  sourceAllowedForPolicy (policySource deployment) (fp_SourceAllowlist policy) = true /\
  EqualFold (TrimSpace (d_Status deployment)) "ready" = true /\ TrimSpace (d_ImageRef deployment) <> "" /\
  (forall w, In w (db_workers db) -> w_Source w = deploymentSource deployment -> inactive w = false ->
     workerMatchesDeployment w deployment = true /\ w_Status w <> WorkerProbing) /\
  exists failures, NoDup (map aa_WorkerID failures) /\ (forall f, In f failures -> attentionEvidence deployment f) /\
    ((fp_MinFleetAttentionWorkers policy <= Z.of_nat (length failures))%Z \/
     (exists d, releaseFailureDomainSupportsPairCorroboration d = true /\
        (fp_MinAttentionWorkers policy <= countb (fun f => bool_decide (aa_Domain f = d)) failures)%Z) \/
     (exists f k, In f failures /\ let l := ListVerificationsExcludingMeteringRuns db (aa_WorkerID f) k in
        consecutiveActionable (environmentalVerificationIDs l (normalized processPolicy)) (d_StartedAt deployment)
          (fp_SingleWorkerMinConsecutiveFailures policy) l)).
Proof using.
  cbv zeta. revert Hbad. unfold failedSourcePolicyEvaluation. cbv zeta. set (p := normalizeFailedSourcePausePolicy policy).
  destruct (sourceAllowedForPolicy _ _) eqn:Ea; [|done]. destruct (EqualFold _ _) eqn:Er; [|done]. cbn [negb orb].
  destruct (eqs_spec (TrimSpace (d_ImageRef deployment)) "") as [|Himg]; [done|].
  set (rollout := rolloutOf _ _ _ _ _). destruct (ro_TotalWorkers rollout =? 0)%Z; [done|].
  destruct (deploymentScorecardWorkers db deployment) as [|w0 ws] eqn:Eq; [done|]. rewrite <- Eq.
  destruct (negb (ro_Status rollout =s "needs_attention")); [done|]. cbn [orb].
  destruct (Z.ltb_spec 0 (ro_OutdatedWorkers rollout)) as [|Hout]; [done|]. cbn [orb].
  destruct (Z.ltb_spec 0 (ro_ProbingWorkers rollout)) as [|Hprob]; [done|]. cbn [orb].
  destruct (_ || (ro_AttentionWorkers rollout =? 0)%Z); [done|].
  set (failures := releaseQualityActionableAttentionFailures _ _ _ _ _).
  destruct (negb _ && negb _) eqn:Ec; [done|]. intros _.
  destruct (rollout_fields db expectedRun (dormantFleet (deploymentSource deployment)) now deployment)
    as (_ & _ & Hout' & _ & _ & _ & Hprob' & _ & _ & _ & _ & Hperm & _).
  change (buildDeploymentRollout db expectedRun (dormantFleet (deploymentSource deployment)) now deployment) with rollout in *.
  rewrite Hout' in Hout. rewrite Hprob' in Hprob. split_and!; try done.
  - intros w Hw Hsrc Hina.
    assert (In (workerProgress db expectedRun deployment w)
      (map (workerProgress db expectedRun deployment) (ListWorkersForSource (db_workers db) (deploymentSource deployment)))) as Hin.
    { apply in_map. unfold ListWorkersForSource. apply order_asc_In, filter_In. split; [done|]. by rewrite Hsrc, eqs_refl, Hina. }
    pose proof (proj1 (countb_zero _ _) Hout _ Hin) as E1. pose proof (proj1 (countb_zero _ _) Hprob _ Hin) as E2.
    apply negb_false_iff in E1. split; [exact E1|]. apply bool_decide_eq_false in E2. exact E2.
  - exists failures. split_and!.
    + eapply sublist_NoDup; [|apply attention_ids]. rewrite Hperm, map_map. cbn [wp_WorkerID workerProgress].
      unfold ListWorkersForSource, order_asc. rewrite merge_sort_Permutation. by apply NoDup_filter_ids.
    + intros f Hf. by apply (attention_evidence now).
    + apply andb_false_iff in Ec. rewrite !negb_false_iff in Ec. destruct Ec as [Ec|Ec].
      * unfold multiWorkerFailuresCorroborated in Ec. apply orb_true_iff in Ec as [Ec|Ec]; [left; lia|].
        right. left. by apply pairCorroborated_spec in Ec.
      * right. right. unfold singleWorkerFailureCorroborated in Ec. apply existsb_exists in Ec as (f & Hf & Hc).
        unfold workerCorroborated in Hc. destruct (growWindow _ _ _ _ _ _ _) as [[|]|] eqn:Eg; try done.
        apply grow_window_spec in Eg as [k Hk]; [by exists f, k|].
        unfold p, normalizeFailedSourcePausePolicy, positive_or. cbn [fp_SingleWorkerMinConsecutiveFailures].
        destruct (Z.leb_spec (fp_SingleWorkerMinConsecutiveFailures policy) 0); lia.
Qed.
End KnownBad.

(** * Examples *)

Definition soakDecoders : Decoders := {|
  decodeRuntime := fun s => if s =s "{healthy}" then Some (RuntimePayload_zero <| rt_LitestreamSnapshotHealthy := true |>) else None;
  decodeLogMessage := fun s => Some s;
  decodeConfig := fun _ => Some Config_zero;
  meteringConfig := fun _ => false;
  julianday := fun t => t
|}.
Definition soak_worker : Worker :=
  Worker_zero <| w_ID := "w" |> <| w_Source := "pr-7" |> <| w_GitSHA := "g" |> <| w_Status := WorkerRunning |>
    <| w_FlyMachineID := "m" |> <| w_LastRuntimeJSON := "{healthy}" |> <| w_LastHeartbeatAt := Some (26 * Hour)%Z |>.
Definition soak_deployment : Deployment :=
  Deployment_zero <| d_ID := 1%Z |> <| d_Source := "pr-7" |> <| d_GitSHA := "g" |> <| d_Status := "ready" |>
    <| d_ImageRef := "image" |> <| d_StartedAt := Hour |>.
Definition soak_verification (id started : Z) (passed : bool) : Verification :=
  Verification_zero <| v_ID := id |> <| v_WorkerID := "w" |> <| v_Attributed := true |> <| v_Passed := passed |>
    <| v_Status := if passed then "passed" else "failed" |> <| v_StartedAt := started |>
    <| v_Run := WorkerIdentity_zero <| id_DeploymentID := 1%Z |> <| id_GitSHA := "g" |> <| id_Source := "pr-7" |>
         <| id_WorkerID := "w" |> <| id_MachineID := "m" |> <| id_RunID := "r" |> <| id_ProfileHash := "p" |>
         <| id_ValidatorID := "v" |> |>.
Definition soak_db : soakDB :=
  emptyDB <| db_workers := [soak_worker] |> <| db_deployments := [soak_deployment] |>
    <| db_verifications := [soak_verification 1 (2 * Hour) true; soak_verification 2 (25 * Hour) true] |>.
Definition soak_policy : SuccessTeardownPolicy := mkTeardownPolicy 0 0 0 [].
Abbreviation soak_candidate db :=
  (@successTeardownCandidate soakDecoders sample_policy db (fun _ => None) (fun _ => None) (fun _ _ => [sampleEvidence])
     soak_deployment soak_policy (26 * Hour)%Z).

Lemma teardown_is_earned_witness :
  exists e, soak_candidate soak_db = Some e /\ forall w, In w (ev_Workers e) ->
    @cleanSoak soakDecoders sample_policy soak_db (fun _ => None) soak_deployment (normalizeSuccessTeardownPolicy soak_policy) (26 * Hour)%Z w.
Proof.
  destruct (soak_candidate soak_db) as [e|] eqn:E.
  - exists e. split; [reflexivity|]. by apply (@teardown_is_earned soakDecoders _ _ _ _ _ _ _ _ _ E).
  - exfalso. assert (match soak_candidate soak_db with Some _ => true | None => false end = true) as Hs by (vm_compute; reflexivity).
    rewrite E in Hs. discriminate Hs.
Defined.

(** A failure within the soak, even one the worker recovered from, keeps it up. *)
Example failure_keeps_compute :
  soak_candidate (soak_db <| db_verifications ::= cons (soak_verification 3 (3 * Hour) false) |>) = None.
Proof. vm_compute. reflexivity. Qed.

Definition bad_db : soakDB :=
  soak_db <| db_workers := [soak_worker <| w_Status := WorkerDegraded |>] |>
    <| db_verifications := [soak_verification 1 (2 * Hour) false; soak_verification 2 (3 * Hour) false] |>.
Definition bad_policy : FailedSourcePausePolicy := mkPausePolicy 0 ["pr-*"] 0 0 0.
Abbreviation bad_evaluation :=
  (@failedSourcePolicyEvaluation soakDecoders sample_policy bad_db (fun _ => None) (fun _ => None) keyOrder (4 * Hour)%Z
     soak_deployment bad_policy).

Lemma known_bad_is_corroborated_witness :
  exists e, bad_evaluation = Ok (e, failedSourcePolicyKnownBad) /\
    exists failures, NoDup (map aa_WorkerID failures) /\
      forall f, In f failures -> @attentionEvidence soakDecoders sample_policy bad_db soak_deployment f.
Proof.
  assert (match bad_evaluation with Ok (_, failedSourcePolicyKnownBad) => true | _ => false end = true) as Hs by (vm_compute; reflexivity).
  destruct bad_evaluation as [[e [| |]]|] eqn:E; [discriminate Hs|discriminate Hs| |discriminate Hs]. clear Hs.
  exists e. split; [reflexivity|].
  destruct (@known_bad_is_corroborated soakDecoders keyOrder sample_policy bad_db (fun _ => None) (fun _ => None) (4 * Hour)%Z
    soak_deployment bad_policy e (NoDup_singleton _) E) as (_ & _ & _ & _ & failures & Hn & Hf & _).
  exists failures. split; [exact Hn|exact Hf].
Defined.

Lemma evidence_windows_end_witness :
  (1 <= 2)%Z /\ is_Some (@growWindow soakDecoders sample_policy bad_db 5 "w" soak_deployment 2 20).
Proof.
  split; [lia|]. exact (proj2 (@evidence_windows_end soakDecoders sample_policy bad_db "w" soak_deployment 2 ltac:(lia))).
Defined.
