(* ===== verification/Lifecycle.v ===== *)
(** The lifecycle loops of [orchestrator/lifecycle.go] and dormancy.go: the
    policies of [LifecyclePolicy] applied to the workers with the operations of
    [WorkerManager].

    An evaluation of a source holds its lock.  The success teardown reads the
    store, waits for the locks of the workers it selected, and reads again: the
    two states are arguments.  The outcome of archiving a run's evidence and the
    resume of dormant workers are arguments; cancellation is not modelled. *)
From S2P Require Import Prelude GoStrings Model GoTime EnvFailure GateFleet GateStore SoakDB WorkerStore Provisioning WorkerManager Rollout Scorecard LifecyclePolicy.

Definition deploymentMatchesTarget (deployment : Deployment) (imageRef gitSHA litestreamSHA : string) : bool :=
  (TrimSpace (d_ImageRef deployment) =s TrimSpace imageRef) && (TrimSpace (d_GitSHA deployment) =s TrimSpace gitSHA) &&
  (TrimSpace (d_LitestreamSHA deployment) =s TrimSpace litestreamSHA).

(** The selected worker is still the one the store shows. *)
Definition sameIncarnation (selected current : Worker) : bool :=
  (w_Source current =s w_Source selected) && (w_FlyMachineID current =s w_FlyMachineID selected) &&
  (w_FlyVolumeID current =s w_FlyVolumeID selected) && (w_CreatedAt current =? w_CreatedAt selected)%Z.

Inductive lifecycleError :=
| ErrArchiving
| ErrWorkers (failures : list (string * managerError))
| ErrPolicy (e : policyError)
| ErrRevalidation (worker : string).

(** A selected worker is read again under its lock. *)
Definition revalidated (locked : soakDB) (deployment : Deployment) (acc : result lifecycleError bool) (selected : Worker)
  : result lifecycleError bool :=
  match acc with
  | Ok true =>
      match GetWorker (db_workers locked) (w_ID selected) with
      | Err _ => Err (ErrRevalidation (w_ID selected))
      | Ok current => Ok (sameIncarnation selected current && workerMatchesDeployment current deployment)
      end
  | _ => acc
  end.
Section Lifecycle.
Context `{Decoders} `{Platform} `{RangeOrder}.
Variables (processPolicy : EnvironmentalFailurePolicy) (decodeMarker : string -> option string).
(** what the rollout and the candidate read besides the tables *)
Variables (expectedRun : soakDB -> string -> option WorkerIdentity) (dormantFleet : soakDB -> string -> option (option time))
  (buildRunReliability : soakDB -> Deployment -> option time -> list WorkerRunEvidence).
Variables (cl : cleanup) (joined : list cleanupFailure -> string).

Definition teardownCandidate (db : soakDB) : Deployment -> SuccessTeardownPolicy -> time -> option policyEvaluation :=
  successTeardownCandidate processPolicy db (expectedRun db) (dormantFleet db) (buildRunReliability db).

(** ** Success teardown *)

(** The deployment and the workers that are still to be torn down once their
    locks are held. *)
Definition successTargets (before locked : soakDB) (source : string) (policy : SuccessTeardownPolicy) (selectedAt now : time)
  : result lifecycleError (option policyEvaluation) :=
  match GetLatestDeployment before source with
  | None => Ok None
  | Some deployment =>
      match teardownCandidate before deployment policy selectedAt with
      | None => Ok None
      | Some selection =>
          let lockedWorkers : gset string := list_to_set (map w_ID (ev_Workers selection)) in
          match GetLatestDeployment locked source with
          | None => Ok None
          | Some latest =>
              if negb (d_ID latest =? d_ID deployment)%Z || negb (d_Status latest =s d_Status deployment) ||
                 negb (deploymentMatchesTarget latest (d_ImageRef deployment) (d_GitSHA deployment) (d_LitestreamSHA deployment))
              then Ok None
              else
                match fold_left (revalidated locked deployment) (ev_Workers selection) (Ok true) with
                | Err e => Err e
                | Ok false => Ok None
                | Ok true =>
                    match teardownCandidate locked latest policy now with
                    | None => Ok None
                    | Some evaluation =>
                        if negb (bool_decide (length (ev_Workers evaluation) = size lockedWorkers)) then Ok None
                        else if negb (forallb (fun w => bool_decide (w_ID w ∈ lockedWorkers)) (ev_Workers evaluation)) then Ok None
                        else Ok (Some evaluation)
                    end
                end
          end
      end
  end.

(** One worker of the teardown. *)
Definition destroySuccessful (archiveID : Z) (acc : list (string * managerError) * manager) (worker : Worker)
  : list (string * managerError) * manager :=
  let '(errors, m) := acc in
  match destroyWorker cl joined m (w_ID worker) with
  | (Err (ErrWorkerEvidenceHeld _), m) => (errors, m)
  | (Err e, m) => (errors ++ [(w_ID worker, e)], m)
  | (Ok _, m) =>
      (errors, event cl (w_ID worker) "run_success_worker_destroyed" "Destroyed worker after archived successful soak run"
                 ("archive_id=" +:+ pretty archiveID) m)
  end.

(** [locked] is the state once the workers are locked; nothing else acts on them
    from then on. *)
Definition evaluateSuccessTeardownLocked (before : soakDB) (locked : manager) (source : string) (policy : SuccessTeardownPolicy)
    (selectedAt now : time) (archive : result () (Z * bool)) : result lifecycleError () * manager :=
  match successTargets before (pd_db (mg_pd locked)) source policy selectedAt now with
  | Err e => (Err e, locked)
  | Ok None => (Ok (), locked)
  | Ok (Some evaluation) =>
      match archive with
      | Err _ => (Err ErrArchiving, locked)
      | Ok (archiveID, created) =>
          let m := if created
                   then event cl "" "run_success_archived" (ev_Summary evaluation)
                          ("archive_id=" +:+ pretty archiveID +:+ " source=" +:+ source) locked
                   else locked in
          let '(errors, m) := fold_left (destroySuccessful archiveID) (ev_Workers evaluation) ([], m) in
          (match errors with [] => Ok () | _ => Err (ErrWorkers errors) end, m)
      end
  end.

(** ** Known-bad sources *)

Definition pauseOne (summary signature : string) (acc : list (string * managerError) * manager) (worker : Worker)
  : list (string * managerError) * manager :=
  let '(errors, m) := acc in
  match dormantWorker cl m (w_ID worker) summary signature "known_bad_source" with
  | (Err e, m) => (errors ++ [(w_ID worker, e)], m)
  | (Ok _, m) => (errors, m)
  end.

(** [resume] is [resumeDormantWorkers] with the trigger of the recheck. *)
Definition evaluateFailedSourcePauseLocked
    (resume : manager -> list Worker -> Deployment -> result lifecycleError () * manager)
    (m : manager) (source : string) (policy : FailedSourcePausePolicy) (archive : result () (Z * bool))
  : result lifecycleError () * manager :=
  let db := pd_db (mg_pd m) in
  match GetLatestDeployment db source with
  | None => (Ok (), m)
  | Some deployment =>
      match failedSourcePolicyEvaluation processPolicy db (expectedRun db) (dormantFleet db) (cl_now cl) deployment policy with
      | Err e => (Err (ErrPolicy e), m)
      | Ok (_, failedSourcePolicyCleared) =>
          match ListDormantWorkersForResumeTrigger (db_workers db) source "known_bad_source" with
          | [] => (Ok (), m)
          | workers => resume m workers deployment
          end
      | Ok (Some evaluation, failedSourcePolicyKnownBad) =>
          match failedSourcePauseTargets db deployment with
          | [] => (Ok (), m)
          | workers =>
              let m := match archive with
                | Ok (archiveID, true) => event cl "" "run_failed_source_archived" (fe_Summary evaluation)
                    ("archive_id=" +:+ pretty archiveID +:+ " source=" +:+ source) m
                | _ => m
                end in
              let '(errors, m) := fold_left (pauseOne (fe_Summary evaluation) (fe_Signature evaluation)) workers ([], m) in
              (match errors with [] => Ok () | _ => Err (ErrWorkers errors) end, m)
          end
      | Ok _ => (Ok (), m)
      end
  end.

(** ** The age of a pull-request run *)

Definition enforceMaxAge (action : PRMaxAgeAction) (deployment : Deployment) (archiveID : Z) (m : manager) (worker : Worker) : manager :=
  if negb (workerEligibleForPRMaxAge worker deployment action) then m
  else
    let details := "archive_id=" +:+ pretty archiveID in
    match action with
    | PRMaxAgeActionDestroy =>
        match destroyWorker cl joined m (w_ID worker) with
        | (Err _, m) => m
        | (Ok _, m) => event cl (w_ID worker) "run_expired_worker_destroyed" "Destroyed worker after PR max-age enforcement" details m
        end
    | _ =>
        match stopWorker cl m (w_ID worker) with
        | (Err _, m) => m
        | (Ok _, m) => event cl (w_ID worker) "run_expired_worker_stopped" "Stopped worker after PR max-age enforcement" details m
        end
    end.

(** One source of [evaluatePRMaxAge]; [archive] is the outcome of archiving it. *)
Definition maxAgeSource (policy : PRMaxAgePolicy) (now : time) (archive : string -> result () (Z * bool)) (m : manager) (source : string)
  : manager :=
  if negb (sourceAllowedForPolicy source (ma_SourceAllowlist policy)) then m
  else
    let db := pd_db (mg_pd m) in
    match GetLatestDeployment db source with
    | None => m
    | Some deployment =>
        match prMaxAgeCandidate db (expectedRun db) (dormantFleet db) deployment policy now with
        | None => m
        | Some (evaluation, action) =>
            match archive source with
            | Err _ => m
            | Ok (archiveID, created) =>
                let m := if created then event cl "" "run_expired_archived" (ev_Summary evaluation)
                                           ("archive_id=" +:+ pretty archiveID +:+ " source=" +:+ source) m else m in
                fold_left (enforceMaxAge action (ev_Deployment evaluation) archiveID) (ev_Workers evaluation) m
            end
        end
    end.
Definition evaluatePRMaxAge (policy : PRMaxAgePolicy) (archive : string -> result () (Z * bool)) (m : manager) : manager :=
  fold_left (maxAgeSource policy (cl_now cl) archive) (ListActiveWorkerSources (mg_workers m)) m.

(** ** Dormancy *)

Definition dormancyReason (candidate : dormancyCandidate) : string :=
  "worker paused after " +:+ pretty (dc_Count candidate) +:+ " consecutive " +:+ dc_Signature candidate +:+
  " failures since " +:+ FormatRFC3339 (dc_Since candidate).

Definition dormancyWorker (threshold : duration) (minFailures : Z) (archive : string -> result () (Z * bool)) (m : manager) (worker : Worker)
  : manager :=
  if negb (status_in [WorkerRunning; WorkerDegraded] worker) then m
  else match detectDormancyCandidate (dormancyHistory decodeMarker (pd_db (mg_pd m)) worker) (cl_now cl) threshold minFailures with
  | None => m
  | Some candidate =>
      let reason := dormancyReason candidate in
      let m := match archive (w_ID worker) with
        | Ok (archiveID, true) => event cl (w_ID worker) "run_failure_archived"
            "Archived failure evidence before pausing worker compute" ("archive_id=" +:+ pretty archiveID) m
        | _ => m
        end in
      snd (dormantWorker cl m (w_ID worker) reason (dc_Signature candidate) "sustained_failure")
  end.
Definition evaluateDormancy (threshold : duration) (minFailures : Z) (archive : string -> result () (Z * bool)) (m : manager) : manager :=
  fold_left (dormancyWorker threshold minFailures archive) (ListDormancyWorkers (mg_workers m)) m.
End Lifecycle.

(** * Requests name the worker they are for *)

Section Calls.
Context `{Decoders} `{Platform}.
Variables (cl : cleanup) (joined : list cleanupFailure -> string) (id : string).

Definition onlyFor (m m' : manager) : Prop :=
  exists new, mg_calls m' = mg_calls m ++ new /\ Forall (fun c => fst c = id) new.
#[export] Instance onlyFor_preorder : PreOrder onlyFor.
Proof using.
  split.
  - intros m. exists []. by rewrite app_nil_r.
  - intros m1 m2 m3 (l1 & E1 & H1) (l2 & E2 & H2). exists (l1 ++ l2). rewrite E2, E1, app_assoc. split; [done|]. by apply Forall_app.
Qed.
Lemma onlyFor_frame m m' : mg_calls m' = mg_calls m -> onlyFor m m'.
Proof using. intros E. exists []. by rewrite E, app_nil_r. Qed.
Lemma onlyFor_call c m : onlyFor m (call id c m).
Proof using. exists [(id, c)]. split; [done|]. by constructor. Qed.
Lemma onlyFor_called c m m' : mg_calls m' = mg_calls m ++ [(id, c)] -> onlyFor m m'.
Proof using. intros E. exists [(id, c)]. split; [done|]. by constructor. Qed.
Lemma onlyFor_fold {A} (l : list A) f m : onlyFor m (fold_left (fun m x => call id (f x) m) l m).
Proof using. revert m. induction l as [|x l IH]; intros m; [done|]. rewrite fold_left_cons. etrans; [apply onlyFor_call|apply IH]. Qed.
Lemma onlyFor_destroyOne resource rid c answer m : onlyFor m (snd (destroyOne cl resource rid c answer id m)).
Proof using. unfold destroyOne. repeat case_match; simpl; by try apply onlyFor_call. Qed.
Lemma onlyFor_provisioning w m : w_ID w = id -> onlyFor m (snd (destroyProvisioningResources cl m w)).
Proof using.
  intros Hid. unfold destroyProvisioningResources. rewrite Hid. repeat (case_match; try done); simpl;
    (etrans; [|apply (onlyFor_fold _ (fun v => DestroyVolume (fv_ID v)))]; apply (onlyFor_fold _ (fun x => DestroyMachine (fm_ID x)))).
Qed.
Lemma onlyFor_replica w m : w_ID w = id -> onlyFor m (snd (clearWorkerReplicaPrefix cl m w)).
Proof using.
  intros Hid. unfold clearWorkerReplicaPrefix. rewrite Hid. repeat (case_match; try done); simpl; try apply onlyFor_call.
  all: by apply (onlyFor_called (DeletePrefix (Trim (workerReplicaPath w) "/"))).
Qed.
Lemma onlyFor_retain w m : w_ID w = id -> onlyFor m (snd (retainHeldWorker cl m w)).
Proof using.
  intros Hid. unfold retainHeldWorker. rewrite Hid. repeat case_match;
    first [by apply onlyFor_frame|by apply (onlyFor_called (StopMachine (w_FlyMachineID w)))].
Qed.

Lemma onlyFor_destroy m : onlyFor m (snd (destroyWorker cl joined m id)).
Proof using.
  unfold destroyWorker. destruct (load m id) as [w|] eqn:Hl; [|done]. pose proof (load_id _ _ _ Hl) as Hid.
  destruct (EvidenceHeld w); [by apply onlyFor_retain|].
  pose proof (onlyFor_destroyOne "machine" (w_FlyMachineID w) (DestroyMachine (w_FlyMachineID w)) (cl_machine cl (w_FlyMachineID w)) m) as H1.
  destruct (destroyOne _ _ _ _ _ _ m) as [e1 m1]. simpl in H1.
  pose proof (onlyFor_destroyOne "volume" (w_FlyVolumeID w) (DestroyVolume (w_FlyVolumeID w)) (cl_volume cl (w_FlyVolumeID w)) m1) as H2.
  destruct (destroyOne _ _ _ _ _ _ m1) as [e2 m2]. simpl in H2.
  pose proof (onlyFor_provisioning w m2 Hid) as H3. destruct (destroyProvisioningResources cl m2 w) as [attempt m3]. simpl in H3.
  pose proof (onlyFor_replica w m3 Hid) as H4. destruct (clearWorkerReplicaPrefix cl m3 w) as [replica m4]. simpl in H4.
  rewrite H1, H2, H3, H4. clear.
  match goal with |- context [let '(_, _) := ?e in _] => assert (onlyFor m4 (snd e)) as H5; [|destruct e as [e5 m5]] end.
  { destruct attempt as [[a|]|]; [destruct (_ ++ _); [|done]|done..]. unfold abandonProvisioning, AbandonProvisioning.
    destruct (existsb _ _); by apply onlyFor_frame. }
  simpl in H5. rewrite H5. destruct (_ ++ _); by apply onlyFor_frame.
Qed.
End Calls.

(** * The teardown touches only what it proved *)

Section SuccessTeardown.
Context `{Decoders} `{Platform} `{RangeOrder}.
Variables (processPolicy : EnvironmentalFailurePolicy) (expectedRun : soakDB -> string -> option WorkerIdentity)
  (dormantFleet : soakDB -> string -> option (option time))
  (buildRunReliability : soakDB -> Deployment -> option time -> list WorkerRunEvidence).
Variables (cl : cleanup) (joined : list cleanupFailure -> string).

(** The worker soaked cleanly on the source's newest deployment, in a state of
    the store. *)
Definition soakedCleanly (db : soakDB) (source : string) (policy : SuccessTeardownPolicy) (now : time) (w : Worker) : Prop :=
  exists deployment, GetLatestDeployment db source = Some deployment /\ isGateSource (policySource deployment) = false /\
    In w (db_workers db) /\ w_Source w = policySource deployment /\ inactive w = false /\
    cleanSoak processPolicy db (expectedRun db) deployment (normalizeSuccessTeardownPolicy policy) now w.

Lemma candidate_soaked db source policy now deployment e w :
  GetLatestDeployment db source = Some deployment ->
  teardownCandidate processPolicy expectedRun dormantFleet buildRunReliability db deployment policy now = Some e ->
  In w (ev_Workers e) -> soakedCleanly db source policy now w.
Proof using.
  intros Hd Hc Hw. destruct (candidate_facts _ _ _ _ _ _ _ _ _ Hc) as (Hg & _ & _ & _ & _ & _ & Hin & Hclean).
  exists deployment. pose proof (proj1 (Hin w) Hw) as (? & ? & ?). split_and!; try done. by apply Hclean.
Qed.

Lemma revalidated_all locked deployment l acc :
  fold_left (revalidated locked deployment) l acc = Ok true ->
  acc = Ok true /\ forall w, In w l -> exists current, GetWorker (db_workers locked) (w_ID w) = Ok current /\ sameIncarnation w current = true.
Proof using.
  revert acc. induction l as [|x l IH]; intros acc E; [done|]. simpl in E. apply IH in E as [Ex Hl].
  destruct acc as [[|]|]; try done. split; [done|]. intros w [<-|Hw]; [|by apply Hl]. unfold revalidated in Ex.
  destruct (GetWorker _ _) as [current|]; [|done]. exists current. split; [done|]. by destruct (sameIncarnation x current).
Qed.

Lemma targets_sound before locked source policy selectedAt now e w :
  NoDup (map w_ID (db_workers locked)) ->
  successTargets processPolicy expectedRun dormantFleet buildRunReliability before locked source policy selectedAt now = Ok (Some e) ->
  In w (ev_Workers e) ->
  soakedCleanly locked source policy now w /\
  exists w0, soakedCleanly before source policy selectedAt w0 /\ w_ID w0 = w_ID w /\ sameIncarnation w0 w = true.
Proof using.
  intros Hnd. unfold successTargets. destruct (GetLatestDeployment before source) as [deployment|] eqn:Ed; [|done].
  destruct (teardownCandidate _ _ _ _ before deployment policy selectedAt) as [selection|] eqn:Ec; [|done].
  destruct (GetLatestDeployment locked source) as [latest|] eqn:El; [|done]. destruct (_ || _); [done|].
  destruct (fold_left _ (ev_Workers selection) (Ok true)) as [[|]|] eqn:Er; try done.
  apply revalidated_all in Er as [_ Hre].
  destruct (teardownCandidate _ _ _ _ locked latest policy now) as [evaluation|] eqn:Ee; [|done].
  case_bool_decide; [|done]. cbn [negb]. destruct (forallb _ _) eqn:Eall; [|done]. cbn [negb]. intros [= ->] Hw.
  pose proof (candidate_soaked _ _ _ _ _ _ _ El Ee Hw) as Hs. split; [done|].
  rewrite forallb_forall in Eall. apply Eall in Hw. apply bool_decide_eq_true, elem_of_list_to_set, list_elem_of_In, in_map_iff in Hw as (w0 & Hid & Hw0).
  exists w0. split_and!; [by apply (candidate_soaked _ _ _ _ deployment selection)|done|].
  destruct (Hre w0 Hw0) as (current & Hg & Hsame). rewrite Hid in Hg.
  assert (current = w) as ->; [|done].
  unfold GetWorker in Hg. destruct (find_worker (db_workers locked) (w_ID w)) as [x|] eqn:Ef; [|done]. simplify_eq.
  destruct Hs as (_ & _ & _ & Hin & _). apply (NoDup_map_inj w_ID (db_workers locked)); [done|by apply find_worker_In in Ef|done|].
  by apply find_worker_id in Ef.
Qed.

(** The requests of a teardown are for the workers it is given. *)
Lemma destroy_fold archiveID l acc :
  exists new, mg_calls (snd (fold_left (destroySuccessful cl joined archiveID) l acc)) = mg_calls (snd acc) ++ new /\
    Forall (fun c => exists w, In w l /\ w_ID w = fst c) new.
Proof using.
  revert acc. induction l as [|w l IH]; intros [errors m]; [exists []; by rewrite app_nil_r|].
  rewrite fold_left_cons. change (snd (errors, m)) with m.
  destruct (IH (destroySuccessful cl joined archiveID (errors, m) w)) as (new & E & Hnew).
  assert (onlyFor (w_ID w) m (snd (destroySuccessful cl joined archiveID (errors, m) w))) as (new0 & E0 & H0').
  { unfold destroySuccessful. pose proof (onlyFor_destroy cl joined (w_ID w) m) as Hd.
    destruct (destroyWorker cl joined m (w_ID w)) as [[|[]] m']; simpl in *; try done. }
  exists (new0 ++ new). rewrite E, E0, app_assoc. split; [done|]. apply Forall_app. split.
  - eapply Forall_impl; [exact H0'|]. intros c Hc. exists w. by split; [left|].
  - eapply Forall_impl; [exact Hnew|]. intros c (x & Hx & Hc). exists x. by split; [right|].
Qed.

(** C12: the success teardown makes requests of the platform only for workers it
    proved: each one soaked cleanly on the source's newest deployment when it was
    selected, soaked cleanly again in the state read under its lock, and is the
    same incarnation in both; and it makes none unless the evidence was
    archived. *)
Theorem success_teardown_is_guarded (before : soakDB) (locked : manager) (source : string) (policy : SuccessTeardownPolicy)
    (selectedAt now : time) (archive : result () (Z * bool))
    (Hids : NoDup (map w_ID (mg_workers locked))) :
  exists new, mg_calls (snd (evaluateSuccessTeardownLocked processPolicy expectedRun dormantFleet buildRunReliability cl joined
                               before locked source policy selectedAt now archive)) = mg_calls locked ++ new /\
    (new <> [] -> exists a, archive = Ok a) /\
    forall id c, In (id, c) new ->
      exists w w0, w_ID w = id /\ w_ID w0 = id /\ sameIncarnation w0 w = true /\
        soakedCleanly (pd_db (mg_pd locked)) source policy now w /\ soakedCleanly before source policy selectedAt w0.
Proof using.
  unfold evaluateSuccessTeardownLocked. destruct (successTargets _ _ _ _ _ _ _ _ _ _) as [[e|]|] eqn:Et; [|exists []; by rewrite app_nil_r..].
  destruct archive as [[archiveID created]|]; [|exists []; by rewrite app_nil_r].
  set (m := if created then _ else locked). assert (mg_calls m = mg_calls locked) as Em by by destruct created.
  destruct (destroy_fold archiveID (ev_Workers e) ([], m)) as (new & E & Hnew).
  destruct (fold_left _ _ _) as [errors m']. simpl in *. rewrite Em in E. exists new. split_and!; [done|by eauto|].
  intros id c Hc. rewrite List.Forall_forall in Hnew. destruct (Hnew _ Hc) as (w & Hw & Hid). simpl in Hid.
  destruct (targets_sound before (pd_db (mg_pd locked)) source policy selectedAt now e w Hids Et Hw) as (Hs & w0 & Hs0 & Hid0 & Hsame).
  exists w, w0. split_and!; try done. congruence.
Qed.
End SuccessTeardown.

(** * Examples *)

Definition soak_manager : manager := mkManager (mkProvDB soak_db [] ∅ emptyTable []) [].
Abbreviation soak_teardown archive :=
  (@evaluateSuccessTeardownLocked soakDecoders examplePlatform sample_policy (fun _ _ => None) (fun _ _ => None)
     (fun _ _ _ => [sampleEvidence]) ex_cleanup no_text soak_db soak_manager "pr-7" soak_policy (26 * Hour)%Z (26 * Hour)%Z archive).

(** The machine of the clean worker is destroyed, and its request is for a worker
    that soaked cleanly; without an archive nothing is. *)
Lemma success_teardown_is_guarded_witness :
  mg_calls (snd (soak_teardown (Ok (7%Z, true)))) = [("w", DestroyMachine "m")] /\
  mg_calls (snd (soak_teardown (Err ()))) = [] /\
  (exists w w0, w_ID w = "w" /\ w_ID w0 = "w" /\ sameIncarnation w0 w = true /\
     @soakedCleanly soakDecoders sample_policy (fun _ _ => None) soak_db "pr-7" soak_policy (26 * Hour)%Z w /\
     @soakedCleanly soakDecoders sample_policy (fun _ _ => None) soak_db "pr-7" soak_policy (26 * Hour)%Z w0).
Proof.
  assert (mg_calls (snd (soak_teardown (Ok (7%Z, true)))) = [("w", DestroyMachine "m")]) as Hc by (vm_compute; reflexivity).
  split; [exact Hc|]. split; [vm_compute; reflexivity|].
  destruct (@success_teardown_is_guarded soakDecoders examplePlatform sample_policy (fun _ _ => None) (fun _ _ => None)
    (fun _ _ _ => [sampleEvidence]) ex_cleanup no_text soak_db soak_manager "pr-7" soak_policy (26 * Hour)%Z (26 * Hour)%Z
    (Ok (7%Z, true)) (NoDup_singleton _)) as (new & E & _ & Hall).
  rewrite Hc in E. simpl in E. subst new. apply (Hall "w" (DestroyMachine "m")). left. reflexivity.
Defined.
