(* ===== verification/Alerts.v ===== *)
(** Alerts: the alert table of [model/alerts.go], the notifications of
    [orchestrator/alerts.go] and the dormant-fleet condition of
    [orchestrator/lifecycle.go].

    An alert is created once per fingerprint; a condition alert is active until
    it is resolved, and a unique index keeps one active condition per type and
    source.  The payloads sent to the webhook and the counters are presentation;
    the outcome of a delivery and the volume inventory of an app are arguments.
    Notifications run in goroutines of their own and are steps here, in any
    order. *)
From stdpp Require Import sorting.
From Stdlib Require Import Ascii.
From S2P Require Import Prelude GoStrings Model GoTime Classification EnvFailure GateFleet GateStore SoakDB GateFault WorkerStore Provisioning WorkerManager Rollout Scorecard LifecyclePolicy.

(** * The table *)

Record AlertDelivery := mkAlert {
  al_ID : Z;
  al_WorkerID : string;
  al_VerificationID : Z;
  al_Source : string;
  al_AlertType : string;
  al_Fingerprint : string;
  al_Status : string;
  al_ConditionStatus : string;
  al_ConditionStartedAt : option time;
  al_ConditionResolvedAt : option time;
  al_FailureStage : string;
  al_FailureSignature : string;
  al_Message : string;
  al_Payload : string;
  al_ErrorMessage : string;
  al_CreatedAt : time;
  al_SentAt : option time
}.
#[export] Instance AlertDelivery_eta : Settable AlertDelivery :=
  fun r => mkAlert (al_ID r) (al_WorkerID r) (al_VerificationID r) (al_Source r) (al_AlertType r) (al_Fingerprint r)
    (al_Status r) (al_ConditionStatus r) (al_ConditionStartedAt r) (al_ConditionResolvedAt r) (al_FailureStage r)
    (al_FailureSignature r) (al_Message r) (al_Payload r) (al_ErrorMessage r) (al_CreatedAt r) (al_SentAt r).
Definition AlertDelivery_zero : AlertDelivery :=
  mkAlert 0 "" 0 "" "" "" "" "" None None "" "" "" "" "" 0 None.

(** The rows and the next id ([AUTOINCREMENT]). *)
Record alertTable := mkAlerts { at_rows : list AlertDelivery; at_next : Z }.
#[export] Instance alertTable_eta : Settable alertTable := fun r => mkAlerts (at_rows r) (at_next r).
Definition noAlerts : alertTable := mkAlerts [] 1.

Definition activeCondition (alertType source : string) (a : AlertDelivery) : bool :=
  (al_AlertType a =s alertType) && (al_Source a =s source) && (al_ConditionStatus a =s "active").

(** The uniqueness constraints that make [INSERT OR IGNORE] ignore a row. *)
Definition alertConflicts (t : alertTable) (a : AlertDelivery) : bool :=
  existsb (fun r => al_Fingerprint r =s al_Fingerprint a) (at_rows t) ||
  ((al_ConditionStatus a =s "active") && existsb (activeCondition (al_AlertType a) (al_Source a)) (at_rows t)).

(** The id of the new row; [None] when it is ignored. *)
Definition CreateAlert (now : time) (t : alertTable) (a : AlertDelivery) : option Z * alertTable :=
  if alertConflicts t a then (None, t)
  else
    let row := a <| al_ID := at_next t |> <| al_CreatedAt := Truncate now Second |> <| al_SentAt := None |> in
    (Some (at_next t), t <| at_rows ::= (fun l => l ++ [row]) |> <| at_next ::= Z.succ |>).

Definition UpdateAlertDelivery (id : Z) (status payload errMsg : string) (sentAt : option time) (t : alertTable) : alertTable :=
  t <| at_rows ::= map (fun a => if (al_ID a =? id)%Z
                                 then a <| al_Status := status |> <| al_Payload := payload |> <| al_ErrorMessage := errMsg |>
                                        <| al_SentAt := sentAt |>
                                 else a) |>.

Definition GetActiveAlertCondition (t : alertTable) (alertType source : string) : option AlertDelivery :=
  head (order_desc al_CreatedAt (List.filter (activeCondition alertType source) (at_rows t))).

Definition resolveRow (alertType source : string) (resolvedAt : time) (a : AlertDelivery) : AlertDelivery :=
  if activeCondition alertType source a
  then a <| al_ConditionStatus := "resolved" |> <| al_ConditionResolvedAt := Some resolvedAt |> else a.
Definition ResolveActiveAlertCondition (alertType source : string) (resolvedAt : time) (t : alertTable) : bool * alertTable :=
  (existsb (activeCondition alertType source) (at_rows t), t <| at_rows ::= map (resolveRow alertType source resolvedAt) |>).

Definition ListActiveAlertSources (t : alertTable) (alertType : string) : list string :=
  merge_sort text_le (remove_dups (map al_Source
    (List.filter (fun a => (al_AlertType a =s alertType) && (al_ConditionStatus a =s "active")) (at_rows t)))).

Definition ListAlerts (t : alertTable) (limit : nat) : list AlertDelivery := firstn limit (order_desc al_CreatedAt (at_rows t)).

(** * Notifications *)

Definition fleetFullyDormantAlertType := "fleet_fully_dormant".

(** [time.RFC3339Nano]: the fraction without trailing zeros. *)
Fixpoint dropZeros (s : string) : string :=
  match s with
  | EmptyString => ""
  | String c r => let r := dropZeros r in if Ascii.eqb c "0" && (r =s "") then "" else String c r
  end.
Definition FormatRFC3339Nano (t : time) : string :=
  let fraction := dropZeros (pad 9 (t mod Second)%Z) in
  let text := FormatRFC3339 t in
  if fraction =s "" then text else (str_take (String.length text - 1) text +:+ "." +:+ fraction +:+ "Z").

(** The Unix epoch, on the scale whose zero is Go's zero time. *)
Definition unixEpoch : time := (62135596800 * Second)%Z.
Definition Unix (t : time) : Z := ((t - unixEpoch) / Second)%Z.

Section Dispatcher.
Variable webhookURL : string.

Definition Enabled : bool := negb (webhookURL =s "").

(** The alert is not repeated while the worker keeps failing the same way. *)
Definition shouldAlertVerificationFailure (db : soakDB) (workerID : string) (current : Verification) : bool :=
  if negb (Failed current) then false
  else match ListVerifications db workerID 2 with
  | _ :: previous :: _ =>
      if negb (Failed previous) then true
      else negb (inferFailureStage previous =s inferFailureStage current) ||
           negb (inferVerificationSignature previous =s inferVerificationSignature current)
  | _ => true
  end.

Definition notifyVerificationFailure (now : time) (t : alertTable) (worker : Worker) (v : Verification) : option Z * alertTable :=
  CreateAlert now t (AlertDelivery_zero <| al_WorkerID := w_ID worker |> <| al_VerificationID := v_ID v |>
    <| al_AlertType := "verification_failed" |> <| al_Fingerprint := "verification_failed:" +:+ fmt_int (v_ID v) |>
    <| al_Status := "pending" |> <| al_FailureStage := inferFailureStage v |>
    <| al_FailureSignature := inferVerificationSignature v |> <| al_Message := firstMeaningfulLine (v_ErrorMessage v) |>).
Definition NotifyVerificationFailure (now : time) (db : soakDB) (t : alertTable) (worker : Worker) (v : Verification)
  : option Z * alertTable :=
  if negb Enabled || negb (Failed v) then (None, t)
  else if negb (shouldAlertVerificationFailure db (w_ID worker) v) then (None, t)
  else notifyVerificationFailure now t worker v.

Definition notifyWorkerStale (now : time) (t : alertTable) (worker : Worker) : option Z * alertTable :=
  let lastHeartbeat := match w_LastHeartbeatAt worker with
    | Some h => if IsZero h then "unknown" else fmt_int (Unix h) | None => "unknown" end in
  CreateAlert now t (AlertDelivery_zero <| al_WorkerID := w_ID worker |> <| al_AlertType := "worker_stale" |>
    <| al_Fingerprint := "worker_stale:" +:+ w_ID worker +:+ ":" +:+ lastHeartbeat |> <| al_Status := "pending" |>
    <| al_FailureStage := "heartbeat" |> <| al_FailureSignature := "worker_stale" |>
    <| al_Message := "worker missed heartbeat deadline" |>).
Definition NotifyWorkerStale (now : time) (t : alertTable) (worker : Worker) : option Z * alertTable :=
  if negb Enabled then (None, t) else notifyWorkerStale now t worker.

Definition rolloutAttentionAlertable (r : DeploymentRolloutResponse) : bool :=
  if negb (ro_GraceWindowExceeded r) then false
  else slices_Contains ["rolling_out"; "probing"; "needs_attention"] (ro_Status r).
Definition notifyDeploymentAttention (now : time) (t : alertTable) (r : DeploymentRolloutResponse) : option Z * alertTable :=
  let d := ro_Deployment r in
  CreateAlert now t (AlertDelivery_zero <| al_AlertType := "deployment_attention" |>
    <| al_Fingerprint := "deployment_attention:" +:+ d_Source d +:+ ":" +:+ d_GitSHA d +:+ ":" +:+
         valueOrUnknown (d_LitestreamSHA d) +:+ ":" +:+ ro_Status r |>
    <| al_Status := "pending" |> <| al_FailureStage := "deployment" |> <| al_FailureSignature := ro_Status r |>
    <| al_Message := ro_NextAction r |>).
Definition NotifyDeploymentAttention (now : time) (t : alertTable) (r : DeploymentRolloutResponse) : option Z * alertTable :=
  if negb Enabled || negb (rolloutAttentionAlertable r) then (None, t) else notifyDeploymentAttention now t r.

Definition fleetFingerprint (source : string) (startedAt : time) : string :=
  fleetFullyDormantAlertType +:+ ":" +:+ source +:+ ":" +:+ FormatRFC3339Nano startedAt.
Definition NotifyFleetFullyDormant (now : time) (t : alertTable) (source : string) (startedAt : time) : option Z * alertTable :=
  let source := GateFleet.firstNonEmpty [TrimSpace source; "main"] in
  CreateAlert now t (AlertDelivery_zero <| al_Source := source |> <| al_AlertType := fleetFullyDormantAlertType |>
    <| al_Fingerprint := fleetFingerprint source startedAt |>
    <| al_Status := if Enabled then "pending" else "not_configured" |> <| al_ConditionStatus := "active" |>
    <| al_ConditionStartedAt := Some startedAt |> <| al_FailureStage := "fleet" |>
    <| al_FailureSignature := fleetFullyDormantAlertType |>
    <| al_Message := sourceHumanLabel source +:+ " fleet is 100% dormant, leaving zero soak coverage" |>).

(** What the webhook answered: a transport error or a status. *)
Definition sendAlert (now : time) (id : Z) (body : string) (answer : result string Z) (t : alertTable) : alertTable :=
  match answer with
  | Err e => UpdateAlertDelivery id "failed" body e None t
  | Ok status =>
      if (400 <=? status)%Z
      then UpdateAlertDelivery id "failed" body ("unexpected webhook status " +:+ fmt_int status) None t
      else UpdateAlertDelivery id "sent" body "" (Some now) t
  end.
End Dispatcher.

(** * A fleet that is fully dormant *)

Definition deploymentBuildTimeout : duration := (10 * Minute)%Z.
Definition deploymentBuildInFlight (deployment : option Deployment) (now : time) : bool :=
  match deployment with
  | None => false
  | Some d =>
      if negb (EqualFold (TrimSpace (d_Status d)) "building") || IsZero (d_StartedAt d) then false
      else
        let age := time_Sub now (d_StartedAt d) in
        (0 <=? age)%Z && (age <=? deploymentBuildTimeout)%Z
  end.

(** The newest dormancy and whether there is an active worker; [None] when an
    active worker is not dormant. *)
Fixpoint dormantEpoch (latest : time) (active : bool) (workers : list Worker) : option (time * bool) :=
  match workers with
  | [] => Some (latest, active)
  | w :: rest =>
      if inactive w then dormantEpoch latest active rest
      else if negb (status_in [WorkerDormant] w) then None
      else match w_DormantAt w with
           | None => None
           | Some at_ =>
               if IsZero at_ then None
               else dormantEpoch (if After at_ latest then at_ else latest) true rest
           end
  end.
Definition fullyDormantFleetEpoch (workers : list Worker) : option time :=
  match dormantEpoch 0%Z false workers with Some (latest, true) => Some latest | _ => None end.

Section Fleet.
Context `{RangeOrder}.
Variables (appName webhookURL : string) (expectedRun : string -> option WorkerIdentity).

(** [inventory]: the volumes of an app, [None] without a platform client.  The
    second part is whether the inventory could be read. *)
Definition appendWorker (appOf : Worker -> string) (m : gmap string (list Worker)) (w : Worker) : gmap string (list Worker) :=
  <[appOf w := default [] (m !! appOf w) ++ [w]]> m.
Definition workerHasVolume (volumes : list Volume) (w : Worker) : bool :=
  let named (f : Volume -> string) (s : string) := existsb (fun v => negb (TrimSpace (f v) =s "") && (TrimSpace (f v) =s TrimSpace s)) volumes in
  named fv_ID (w_FlyVolumeID w) || named fv_AttachedMachineID (w_FlyMachineID w).
Definition resumableWorkers (inventory : option (string -> result () (list Volume))) (workers : list Worker) : list Worker * bool :=
  match workers with
  | [] => ([], true)
  | _ =>
      match inventory with
      | None => (workers, false)
      | Some listCached =>
          let appOf w := GateFleet.firstNonEmpty [TrimSpace (w_AppName w); appName] in
          let workersByApp := fold_left (appendWorker appOf) workers ∅ in
          fold_left (fun acc entry =>
              match acc with
              | (resumable, true) =>
                  match listCached entry.1 with
                  | Err _ => (workers, false)
                  | Ok volumes => ((resumable ++ List.filter (workerHasVolume volumes) entry.2)%list, true)
                  end
              | _ => acc
              end) (range 7 workersByApp) ([], true)
      end
  end.

Definition evaluateDormantFleetAlertLocked (inventory : option (string -> result () (list Volume))) (db : soakDB)
    (policy : DormantFleetAlertPolicy) (now : time) (source : string) (t : alertTable) : alertTable :=
  let workers := (resumableWorkers inventory (ListWorkersForSource (db_workers db) source)).1 in
  let epoch := fullyDormantFleetEpoch workers in
  let active := GetActiveAlertCondition t fleetFullyDormantAlertType source in
  let stale := match active with
    | None => false
    | Some a => match epoch with None => true | Some e => negb (bool_decide (al_ConditionStartedAt a = Some e)) end
    end in
  let t := if stale then (ResolveActiveAlertCondition fleetFullyDormantAlertType source now t).2 else t in
  match epoch with
  | None => t
  | Some epoch =>
      if (bool_decide (is_Some active) && negb stale) || (time_Sub now epoch <? df_Threshold policy)%Z then t
      else if deploymentBuildInFlight (GetLatestDeployment db source) now then t
      else (NotifyFleetFullyDormant webhookURL now t source epoch).2
  end.

Definition evaluateDormantFleetAlerts (inventory : option (string -> result () (list Volume))) (db : soakDB)
    (policy : DormantFleetAlertPolicy) (now : time) (t : alertTable) : alertTable :=
  let policy := normalizeDormantFleetAlertPolicy policy in
  let sources : gmap string () := fold_left (fun m s => <[GateFleet.firstNonEmpty [TrimSpace s; "main"] := ()]> m)
    (ListActiveWorkerSources (db_workers db) ++ ListActiveAlertSources t fleetFullyDormantAlertType) ∅ in
  fold_left (fun t entry => evaluateDormantFleetAlertLocked inventory db policy now entry.1 t) (range 8 sources) t.

(** [dormancy.go]: a resumed worker ends the condition. *)
Definition resolveDormantFleetCondition (now : time) (source : string) (t : alertTable) : alertTable :=
  (ResolveActiveAlertCondition fleetFullyDormantAlertType (GateFleet.firstNonEmpty [TrimSpace source; "main"]) now t).2.
End Fleet.

(** * Every run keeps the table well formed *)

Section Runs.
Context `{RangeOrder}.
Variables (appName webhookURL : string).

(** One action of the control plane on the table. *)
Inductive alert_step (t : alertTable) : alertTable -> Prop :=
| step_verification now db worker v :
    alert_step t (NotifyVerificationFailure webhookURL now db t worker v).2
| step_stale now worker : alert_step t (NotifyWorkerStale webhookURL now t worker).2
| step_rollout now rollout : alert_step t (NotifyDeploymentAttention webhookURL now t rollout).2
| step_sent now id body answer : alert_step t (sendAlert now id body answer t)
| step_fleet inventory db policy now : alert_step t (evaluateDormantFleetAlerts appName webhookURL inventory db policy now t)
| step_resumed now source : alert_step t (resolveDormantFleetCondition now source t).

Inductive alert_reachable : alertTable -> Prop :=
| reach_none : alert_reachable noAlerts
| reach_step t t' : alert_reachable t -> alert_step t t' -> alert_reachable t'.

(** A condition is absent, active since a time, or resolved at a time; only the
    dormant-fleet alert has one. *)
Definition conditionWf (a : AlertDelivery) : Prop :=
  (al_ConditionStatus a = "" /\ al_ConditionStartedAt a = None /\ al_ConditionResolvedAt a = None) \/
  (al_AlertType a = fleetFullyDormantAlertType /\ (exists s, al_ConditionStartedAt a = Some s /\
     al_Fingerprint a = fleetFingerprint (al_Source a) s) /\
   (al_ConditionStatus a = "active" /\ al_ConditionResolvedAt a = None \/
    al_ConditionStatus a = "resolved" /\ is_Some (al_ConditionResolvedAt a))).

Record alerts_wf (t : alertTable) : Prop := {
  wf_fingerprints : NoDup (map al_Fingerprint (at_rows t));
  wf_ids : NoDup (map al_ID (at_rows t));
  wf_next : Forall (fun a => (al_ID a < at_next t)%Z) (at_rows t);
  wf_conditions : Forall conditionWf (at_rows t);
  wf_active : forall alertType source, length (List.filter (activeCondition alertType source) (at_rows t)) <= 1
}.

Lemma wf_noAlerts : alerts_wf noAlerts.
Proof. split; simpl; [constructor..|intros; lia]. Qed.

Lemma conflicts_false t a : alertConflicts t a = false ->
  ~ In (al_Fingerprint a) (map al_Fingerprint (at_rows t)) /\
  (al_ConditionStatus a = "active" -> List.filter (activeCondition (al_AlertType a) (al_Source a)) (at_rows t) = []).
Proof.
  unfold alertConflicts. intros [Hf Ha]%orb_false_iff. split.
  - intros (r & E & Hr)%in_map_iff. rewrite (proj2 (existsb_exists _ _)) in Hf; [done|]. exists r. split; [done|]. by apply eqs_true.
  - intros E. rewrite E, eqs_refl in Ha. simpl in Ha. clear Hf. induction (at_rows t) as [|r l IH]; simpl in *; [done|].
    apply orb_false_iff in Ha as [-> Ha]. by apply IH.
Qed.

Lemma wf_create now t a : alerts_wf t -> conditionWf a -> alerts_wf (CreateAlert now t a).2.
Proof.
  intros W Ha. unfold CreateAlert. destruct (alertConflicts t a) eqn:Ec; [done|].
  apply conflicts_false in Ec as [Hf Hact]. destruct W as [W1 W2 W3 W4 W5], t as [rows next]. simpl in *. split; simpl.
  - rewrite map_app. simpl. apply NoDup_app. split_and!; [done| |by apply NoDup_singleton].
    intros x Hx. rewrite list_elem_of_singleton. intros ->. apply Hf. by apply list_elem_of_In.
  - rewrite map_app. simpl. apply NoDup_app. split_and!; [done| |by apply NoDup_singleton].
    intros x Hx. rewrite list_elem_of_singleton. intros ->. apply list_elem_of_In, in_map_iff in Hx as (r & E & Hr).
    rewrite List.Forall_forall in W3. specialize (W3 _ Hr). simpl in W3. lia.
  - apply Forall_app. split; [|repeat constructor; simpl; lia]. eapply Forall_impl; [exact W3|]. simpl. lia.
  - apply Forall_app. split; [done|]. constructor; [exact Ha|constructor].
  - intros ty s. rewrite List.filter_app, length_app. simpl.
    destruct (activeCondition ty s _) eqn:E; simpl; [|specialize (W5 ty s); lia].
    unfold activeCondition in E. simpl in E. apply andb_true_iff in E as [E E3]. apply andb_true_iff in E as [E1 E2].
    apply eqs_true in E1 as <-. apply eqs_true in E2 as <-. apply eqs_true in E3. rewrite (Hact E3). simpl. lia.
Qed.

(** An update that touches neither the identity of a row nor opens a condition. *)
Lemma wf_map f t : alerts_wf t ->
  (forall a, al_Fingerprint (f a) = al_Fingerprint a /\ al_ID (f a) = al_ID a /\ (conditionWf a -> conditionWf (f a)) /\
     forall ty s, activeCondition ty s (f a) = true -> activeCondition ty s a = true) ->
  alerts_wf (mkAlerts (map f (at_rows t)) (at_next t)).
Proof.
  intros [W1 W2 W3 W4 W5] Hf. destruct t as [rows next]. simpl in *. split; simpl.
  - rewrite map_map, (map_ext _ al_Fingerprint); [done|]. apply Hf.
  - rewrite map_map, (map_ext _ al_ID); [done|]. apply Hf.
  - apply List.Forall_map. eapply Forall_impl; [exact W3|]. intros a. simpl. by rewrite (proj1 (proj2 (Hf a))).
  - apply List.Forall_map. eapply Forall_impl; [exact W4|]. intros a. apply Hf.
  - intros ty s. specialize (W5 ty s). revert W5. clear - Hf.
    assert (length (List.filter (activeCondition ty s) (map f rows)) <= length (List.filter (activeCondition ty s) rows)) as E; [|lia].
    induction rows as [|a l IH]; simpl; [lia|]. pose proof (proj2 (proj2 (proj2 (Hf a))) ty s) as Ha.
    destruct (activeCondition ty s (f a)), (activeCondition ty s a); simpl; try lia; by specialize (Ha eq_refl).
Qed.

Lemma wf_delivery id status payload errMsg sentAt t : alerts_wf t -> alerts_wf (UpdateAlertDelivery id status payload errMsg sentAt t).
Proof. intros W. apply (wf_map _ _ W). intros a. by case_match. Qed.

Lemma wf_resolve ty s resolvedAt t : alerts_wf t -> alerts_wf (ResolveActiveAlertCondition ty s resolvedAt t).2.
Proof.
  intros W. apply (wf_map _ _ W). intros a. unfold resolveRow. destruct (activeCondition ty s a) eqn:E; [|done].
  split_and!; [done|done| |].
  - apply andb_true_iff in E as [_ E]. apply eqs_true in E. intros [(C & _)|(T & S & _)]; [congruence|].
    right. split_and!; [done|done|]. right. by split.
  - intros ty' s'. unfold activeCondition. simpl. by rewrite andb_false_r.
Qed.

Lemma wf_notifyFleet now t source startedAt : alerts_wf t -> alerts_wf (NotifyFleetFullyDormant webhookURL now t source startedAt).2.
Proof.
  intros W. apply wf_create; [done|]. right. split_and!; [done| |by left]. by eexists.
Qed.

Lemma wf_fleet inventory db policy now source t :
  alerts_wf t -> alerts_wf (evaluateDormantFleetAlertLocked appName webhookURL inventory db policy now source t).
Proof.
  intros W. unfold evaluateDormantFleetAlertLocked. 
  match goal with |- context [if ?s then (ResolveActiveAlertCondition _ _ _ _).2 else _] => set (stale := s) end.
  assert (alerts_wf (if stale then (ResolveActiveAlertCondition fleetFullyDormantAlertType source now t).2 else t)) as W'
    by (destruct stale; [by apply wf_resolve|done]).
  set (t1 := if stale then _ else t) in *. clearbody t1. repeat case_match; try done. by apply wf_notifyFleet.
Qed.

Lemma wf_fold {A} (f : alertTable -> A -> alertTable) l t :
  (forall t x, alerts_wf t -> alerts_wf (f t x)) -> alerts_wf t -> alerts_wf (fold_left f l t).
Proof. intros Hf. revert t. induction l; simpl; auto. Qed.

Lemma wf_step t t' : alerts_wf t -> alert_step t t' -> alerts_wf t'.
Proof.
  intros W []; unfold NotifyVerificationFailure, NotifyWorkerStale, NotifyDeploymentAttention, sendAlert;
    repeat case_match; try done; try (by apply wf_delivery); try (by apply wf_create; [done|left]).
  - apply wf_fold; [|done]. intros. by apply wf_fleet.
  - by apply wf_resolve.
Qed.

(** After any sequence of notifications, deliveries, fleet evaluations and
    resumed workers the alert table is well formed: ids and fingerprints are
    unique, a type and a source have at most one active condition, an active
    condition has its start and no resolution, a resolved one has both. *)
Theorem alert_table_wf (t : alertTable) (R : alert_reachable t) : alerts_wf t.
Proof. induction R; [apply wf_noAlerts|]. by eapply wf_step. Qed.
End Runs.

(** * The condition tracks the fleet *)

(** What [fullyDormantFleetEpoch] means: some worker is active, every active
    worker is dormant since a known time, and the epoch is the newest of these
    times. *)
Definition dormantSince (w : Worker) : option time :=
  match w_DormantAt w with
  | Some d => if status_in [WorkerDormant] w && negb (IsZero d) then Some d else None
  | None => None
  end.
Definition dormantFleet (workers : list Worker) (epoch : time) : Prop :=
  let active := List.filter (fun w => negb (inactive w)) workers in
  active <> [] /\
  (forall w, In w active -> exists d, dormantSince w = Some d /\ (d <= epoch)%Z) /\
  (epoch = 0%Z \/ exists w, In w active /\ dormantSince w = Some epoch).

Lemma dormantEpoch_spec latest active workers e b : dormantEpoch latest active workers = Some (e, b) ->
  let l := List.filter (fun w => negb (inactive w)) workers in
  (latest <= e)%Z /\ b = active || negb (bool_decide (l = [])) /\
  (forall w, In w l -> exists d, dormantSince w = Some d /\ (d <= e)%Z) /\
  (e = latest \/ exists w, In w l /\ dormantSince w = Some e).
Proof.
  revert latest active. induction workers as [|w ws IH]; intros latest active; cbn [dormantEpoch List.filter].
  - intros [= -> ->]. simpl. rewrite orb_false_r. split_and!; [lia|done| |by left]. by intros.
  - destruct (inactive w); cbn [negb]; [apply IH|]. destruct (status_in [WorkerDormant] w) eqn:Es; [|done]. cbn [negb].
    destruct (w_DormantAt w) as [d|] eqn:Ed; [|done]. destruct (IsZero d) eqn:Ez; [done|].
    assert (dormantSince w = Some d) as Ew by (unfold dormantSince; by rewrite Ed, Es, Ez).
    intros E. apply IH in E as (H1 & -> & H3 & H4). simpl.
    assert (latest <= e /\ d <= e)%Z as [Hl Hd] by (unfold After in H1; destruct (latest <? d)%Z eqn:?; lia).
    split_and!; [done|by rewrite orb_true_r| |].
    + intros x [<-|Hx]; [by exists d|by apply H3].
    + destruct H4 as [->|(x & Hx & E)]; [|right; exists x; by split; [right|]].
      unfold After. destruct (latest <? d)%Z; [right; exists w; by split; [left|]|by left].
Qed.

Lemma epoch_sound workers e : fullyDormantFleetEpoch workers = Some e -> dormantFleet workers e.
Proof.
  unfold fullyDormantFleetEpoch. destruct (dormantEpoch 0%Z false workers) as [[latest b]|] eqn:E; [|done].
  apply dormantEpoch_spec in E as (H1 & -> & H3 & H4). simpl. case_bool_decide; simpl; [done|]. by intros [= <-].
Qed.

Lemma dormantEpoch_none latest active workers : dormantEpoch latest active workers = None ->
  exists w, In w workers /\ inactive w = false /\ dormantSince w = None.
Proof.
  revert latest active. induction workers as [|w ws IH]; intros latest active; cbn [dormantEpoch]; [done|].
  destruct (inactive w) eqn:Ei; [intros (x & Hx & E)%IH; exists x; by split; [right|]|]. unfold dormantSince.
  intros E. destruct (status_in [WorkerDormant] w) eqn:Es; cbn [negb] in E.
  - destruct (w_DormantAt w) as [d|] eqn:Ed; [destruct (IsZero d) eqn:Ez|].
    + exists w. rewrite Ed, Es, Ez. split_and!; [by left|done|done].
    + apply IH in E as (x & Hx & E). exists x. by split; [right|].
    + exists w. rewrite Ed. split_and!; [by left|done|done].
  - exists w. rewrite Es. split_and!; [by left|done|]. by case_match.
Qed.

Lemma epoch_complete workers : fullyDormantFleetEpoch workers = None ->
  (forall w, In w workers -> inactive w = true) \/ exists w, In w workers /\ inactive w = false /\ dormantSince w = None.
Proof.
  unfold fullyDormantFleetEpoch. destruct (dormantEpoch 0%Z false workers) as [[latest b]|] eqn:E.
  - apply dormantEpoch_spec in E as (_ & -> & _). simpl. case_bool_decide as E; simpl; [|done]. intros _. left.
    intros w Hw. destruct (inactive w) eqn:Ei; [done|]. exfalso. apply (List.in_nil (a := w)). rewrite <- E.
    apply List.filter_In. by rewrite Ei.
  - intros _. right. by eapply dormantEpoch_none.
Qed.

Lemma insert_sources (f : string -> string) l (m : gmap string ()) k :
  is_Some (fold_left (fun m s => <[f s := ()]> m) l m !! k) <-> is_Some (m !! k) \/ In k (map f l).
Proof.
  revert m. induction l as [|x l IH]; intros m; simpl; [tauto|]. rewrite IH. destruct (decide (f x = k)) as [->|Hne].
  - rewrite lookup_insert_eq. naive_solver.
  - rewrite lookup_insert_ne by done. naive_solver.
Qed.

Section Tracking.
Context `{RangeOrder}.
Variables (appName webhookURL : string) (inventory : option (string -> result () (list Volume))) (db : soakDB)
  (policy : DormantFleetAlertPolicy) (now : time).

Abbreviation evaluate := (evaluateDormantFleetAlertLocked appName webhookURL inventory db).
Abbreviation fleetOf source := ((resumableWorkers appName inventory (ListWorkersForSource (db_workers db) source)).1).
Abbreviation condition t source := (GetActiveAlertCondition t fleetFullyDormantAlertType source).

Lemma order_desc_filter_nil {A} (key : A -> Z) l : head (order_desc key l) = None <-> l = [].
Proof.
  split; [|by intros ->]. pose proof (merge_sort_Permutation (desc_by key) l) as Hp. unfold order_desc.
  destruct (merge_sort _ l); [|done]. intros _. by apply Permutation_nil.
Qed.

Lemma condition_none t source :
  condition t source = None <-> List.filter (activeCondition fleetFullyDormantAlertType source) (at_rows t) = [].
Proof. apply order_desc_filter_nil. Qed.

Lemma filter_resolved ty s s' resolvedAt rows :
  List.filter (activeCondition ty s') (map (resolveRow ty s resolvedAt) rows) =
  if s' =s s then [] else List.filter (activeCondition ty s') rows.
Proof.
  induction rows as [|r l IH]; simpl; [by case_match|]. rewrite IH. unfold resolveRow.
  destruct (eqs_spec s' s) as [->|Hs].
  - destruct (activeCondition ty s r) eqn:E; [unfold activeCondition at 1; simpl; by rewrite andb_false_r|by rewrite E].
  - destruct (activeCondition ty s r) eqn:E; [|done].
    apply andb_true_iff in E as [[_ E%eqs_true]%andb_true_iff _].
    assert (forall b c, (b && (al_Source r =s s')) && c = false) as Hf
      by (intros; destruct (eqs_spec (al_Source r) s'); [congruence|by rewrite andb_false_r]).
    unfold activeCondition. simpl. by rewrite !Hf.
Qed.

Lemma condition_resolved t source s :
  condition (ResolveActiveAlertCondition fleetFullyDormantAlertType source now t).2 s = if s =s source then None else condition t s.
Proof. unfold GetActiveAlertCondition. simpl. rewrite filter_resolved. by case_match. Qed.

Lemma fingerprints_resolved t ty source :
  map al_Fingerprint (at_rows (ResolveActiveAlertCondition ty source now t).2) = map al_Fingerprint (at_rows t).
Proof. simpl. rewrite map_map. apply map_ext. intros a. unfold resolveRow. by case_match. Qed.

(** A notification of a source that has no active condition. *)
Lemma notify_fleet t source epoch (t' := (NotifyFleetFullyDormant webhookURL now t source epoch).2) :
  GateFleet.firstNonEmpty [TrimSpace source; "main"] = source -> condition t source = None ->
  (forall s, s <> source -> condition t' s = condition t s) /\
  (In (fleetFingerprint source epoch) (map al_Fingerprint (at_rows t)) /\ t' = t \/
   exists a, condition t' source = Some a /\ al_ConditionStartedAt a = Some epoch /\ at_rows t' = at_rows t ++ [a]).
Proof.
  intros Hs Hn. subst t'. unfold NotifyFleetFullyDormant. rewrite Hs. unfold CreateAlert.
  destruct (alertConflicts t _) eqn:Ec; simpl.
  - split; [done|]. left. split; [|done]. unfold alertConflicts in Ec. simpl in Ec. apply condition_none in Hn.
    apply orb_true_iff in Ec as [(r & Hr & E%eqs_true)%existsb_exists|(r & Hr & E)%existsb_exists].
    + rewrite <- E. by apply in_map.
    + exfalso. apply (List.in_nil (a := r)). rewrite <- Hn. by apply List.filter_In.
  - unfold GetActiveAlertCondition. simpl. split.
    + intros s Hne. rewrite List.filter_app. simpl. unfold activeCondition at 2. simpl.
      destruct (eqs_spec source s); [congruence|]. by rewrite app_nil_r.
    + right. eexists. rewrite List.filter_app. apply condition_none in Hn. rewrite Hn. simpl. unfold activeCondition at 1. simpl.
      by rewrite eqs_refl.
Qed.

(** The condition of a source agrees with its fleet: it is active exactly for the
    epoch of the dormant fleet; without one, the fleet is not fully dormant, or it
    is not dormant for long enough, or a build is in flight, or an alert of this
    epoch exists already. *)
Definition tracks (t : alertTable) (source : string) : Prop :=
  match condition t source with
  | Some a => exists e, al_ConditionStartedAt a = Some e /\ fullyDormantFleetEpoch (fleetOf source) = Some e
  | None => forall e, fullyDormantFleetEpoch (fleetOf source) = Some e ->
      (time_Sub now e < df_Threshold policy)%Z \/
      deploymentBuildInFlight (GetLatestDeployment db source) now = true \/
      In (fleetFingerprint source e) (map al_Fingerprint (at_rows t))
  end.

(** The step: it settles its own source and leaves the others alone. *)
Lemma evaluate_tracks t source (t' := evaluate policy now source t) :
  GateFleet.firstNonEmpty [TrimSpace source; "main"] = source ->
  tracks t' source /\ (forall s, s <> source -> condition t' s = condition t s) /\
  (forall f, In f (map al_Fingerprint (at_rows t)) -> In f (map al_Fingerprint (at_rows t'))).
Proof.
  intros Hs. subst t'. unfold tracks, evaluateDormantFleetAlertLocked.
  set (epoch := fullyDormantFleetEpoch _). set (active := condition t source).
  match goal with |- context [if ?s then (ResolveActiveAlertCondition _ _ _ _).2 else _] => set (stale := s) end.
  set (t1 := if stale then _ else t).
  assert (condition t1 source = if stale then None else active) as Ec
    by (subst t1; destruct stale; [by rewrite condition_resolved, eqs_refl|done]).
  assert (forall s, s <> source -> condition t1 s = condition t s) as Eo.
  { subst t1. destruct stale; [|done]. intros s Hne. rewrite condition_resolved. by destruct (eqs_spec s source). }
  assert (map al_Fingerprint (at_rows t1) = map al_Fingerprint (at_rows t)) as Ef
    by (subst t1; destruct stale; [apply fingerprints_resolved|done]).
  clearbody t1. destruct epoch as [e|] eqn:Ee.
  2:{ rewrite Ec, <- Ef. split_and!; [|done..]. subst stale. by destruct active. }
  destruct (bool_decide (is_Some active) && negb stale) eqn:Ea; cbn [orb].
  { rewrite Ec, <- Ef. split_and!; [|done..]. apply andb_true_iff in Ea as [Ha Hst]. apply bool_decide_eq_true in Ha as [a Ha].
    apply negb_true_iff in Hst. rewrite Hst. subst stale. rewrite Ha in *. apply negb_false_iff, bool_decide_eq_true in Hst.
    by exists e. }
  assert (condition t1 source = None) as En.
  { rewrite Ec. destruct stale; [done|]. destruct active; [|done]. done. }
  destruct (time_Sub now e <? df_Threshold policy)%Z eqn:Et.
  { rewrite En, <- Ef. split_and!; [|done..]. intros ? [= <-]. left. lia. }
  destruct (deploymentBuildInFlight _ _) eqn:Eb.
  { rewrite En, <- Ef. split_and!; [|done..]. intros ? [= <-]. by right; left. }
  destruct (notify_fleet t1 source e Hs En) as [Ho [[Hin ->]|(a & E1 & E2 & E3)]].
  - rewrite En, <- Ef. split_and!; [|done..]. intros ? [= <-]. by right; right.
  - rewrite E1, E3, <- Ef. split_and!; [by exists e|intros s Hne; by rewrite Ho, Eo|].
    intros f Hf. rewrite map_app. apply in_or_app. by left.
Qed.

Lemma tracks_mono t t' source : condition t' source = condition t source ->
  (forall f, In f (map al_Fingerprint (at_rows t)) -> In f (map al_Fingerprint (at_rows t'))) -> tracks t source -> tracks t' source.
Proof. unfold tracks. intros -> Hf. case_match; [done|]. intros Ht e [?|[?|?]]%Ht; auto. Qed.

Definition canonical (source : string) : Prop := GateFleet.firstNonEmpty [TrimSpace source; "main"] = source.

Lemma fold_tracks (l : list (string * ())) t (t' := fold_left (fun t entry => evaluate policy now entry.1 t) l t) :
  Forall canonical (map fst l) -> NoDup (map fst l) ->
  (forall s, In s (map fst l) -> tracks t' s) /\ (forall s, ~ In s (map fst l) -> condition t' s = condition t s) /\
  (forall f, In f (map al_Fingerprint (at_rows t)) -> In f (map al_Fingerprint (at_rows t'))).
Proof.
  subst t'. revert t. induction l as [|[s []] l IH]; intros t; [simpl; intros _ _; split_and!; intros; done|].
  cbn [map fst]. intros [Hs Hc]%Forall_cons [Hn Hd]%NoDup_cons. rewrite fold_left_cons. cbn [fst].
  destruct (evaluate_tracks t s Hs) as (T1 & T2 & T3). destruct (IH (evaluate policy now s t) Hc Hd) as (I1 & I2 & I3).
  rewrite list_elem_of_In in Hn. split_and!; [| |by auto].
  - intros s' [<-|Hin]; [|by apply I1]. eapply tracks_mono; [by apply I2|exact I3|exact T1].
  - intros s' Hs'. simpl in Hs'. rewrite I2 by tauto. apply T2. intros ->. tauto.
Qed.

Lemma canonical_idem s : canonical (GateFleet.firstNonEmpty [TrimSpace s; "main"]).
Proof.
  unfold canonical. cbn [GateFleet.firstNonEmpty]. rewrite !TrimSpace_idem.
  destruct (TrimSpace s =s "") eqn:E; [done|]. cbn [negb]. by rewrite TrimSpace_idem, E.
Qed.

Lemma active_source_listed w : In w (db_workers db) -> inactive w = false -> canonical (w_Source w) ->
  In (w_Source w) (ListActiveWorkerSources (db_workers db)).
Proof.
  intros Hw Hi Hc. unfold ListActiveWorkerSources. apply in_map_iff. exists (w_Source w). split.
  - destruct (TrimSpace (w_Source w) =s "") eqn:E; [|done]. unfold canonical in Hc. cbn [GateFleet.firstNonEmpty] in Hc.
    rewrite TrimSpace_idem, E in Hc. done.
  - apply list_elem_of_In. rewrite merge_sort_Permutation. apply elem_of_remove_dups, list_elem_of_In, in_map_iff. exists w.
    split; [done|]. apply List.filter_In. by rewrite Hi.
Qed.

Lemma active_condition_listed t source a : condition t source = Some a ->
  In source (ListActiveAlertSources t fleetFullyDormantAlertType).
Proof.
  intros Ha. assert (In a (List.filter (activeCondition fleetFullyDormantAlertType source) (at_rows t))) as Hin.
  { unfold GetActiveAlertCondition in Ha. apply (order_desc_In al_CreatedAt). destruct (order_desc _ _); [done|]. left. by injection Ha. }
  apply List.filter_In in Hin as [Hr E]. unfold activeCondition in E.
  apply andb_true_iff in E as [[E1 E2%eqs_true]%andb_true_iff E3]. unfold ListActiveAlertSources.
  apply list_elem_of_In. rewrite merge_sort_Permutation. apply elem_of_remove_dups, list_elem_of_In, in_map_iff.
  exists a. split; [done|]. apply List.filter_In. by rewrite E1, E3.
Qed.

Lemma no_workers_no_epoch source : (forall w, In w (db_workers db) -> inactive w = false -> w_Source w <> source) ->
  fullyDormantFleetEpoch (fleetOf source) = None.
Proof.
  intros Hn. assert (ListWorkersForSource (db_workers db) source = []) as ->; [|done].
  unfold ListWorkersForSource. replace (List.filter _ _) with (@nil Worker); [done|]. symmetry.
  induction (db_workers db) as [|w l IH]; simpl; [done|]. rewrite IH by (intros; apply Hn; [by right|done]).
  destruct (inactive w) eqn:E; [by rewrite andb_false_r|]. specialize (Hn w (or_introl eq_refl) E).
  by apply eqs_false in Hn as ->.
Qed.
End Tracking.

(** One evaluation of all fleets brings every source's dormant-fleet
    condition in line with its workers: an active condition says that some worker
    of the source is active, that all active ones are dormant, and since when; and
    where none is active, some active worker is awake, or none is active, or the
    fleet is not dormant for long enough, or a build is in flight, or this very
    epoch was alerted before. *)
Theorem dormant_alert_tracks_fleet `{RangeOrder} (appName webhookURL : string)
    (inventory : option (string -> result () (list Volume))) (db : soakDB) (policy : DormantFleetAlertPolicy) (now : time)
    (t : alertTable) (source : string) (Hs : canonical source) :
  let t' := evaluateDormantFleetAlerts appName webhookURL inventory db policy now t in
  let fleet := (resumableWorkers appName inventory (ListWorkersForSource (db_workers db) source)).1 in
  match GetActiveAlertCondition t' fleetFullyDormantAlertType source with
  | Some a => exists e, al_ConditionStartedAt a = Some e /\ dormantFleet fleet e
  | None =>
      (forall w, In w fleet -> inactive w = true) \/
      (exists w, In w fleet /\ inactive w = false /\ dormantSince w = None) \/
      (exists e, dormantFleet fleet e /\
         ((time_Sub now e < df_Threshold (normalizeDormantFleetAlertPolicy policy))%Z \/
          deploymentBuildInFlight (GetLatestDeployment db source) now = true \/
          In (fleetFingerprint source e) (map al_Fingerprint (at_rows t'))))
  end.
Proof.
  intros t' fleet.
  assert (tracks appName inventory db (normalizeDormantFleetAlertPolicy policy) now t' source) as T.
  2:{ unfold tracks in T. case_match.
      - destruct T as (e & E & T). exists e. split; [done|]. by apply epoch_sound.
      - fold fleet in T. destruct (fullyDormantFleetEpoch fleet) as [e|] eqn:Ee.
        + right; right. exists e. split; [by apply epoch_sound|]. by apply T.
        + destruct (epoch_complete _ Ee); auto. }
  subst t'. unfold evaluateDormantFleetAlerts. match goal with |- context [range 8 ?m] => set (sources := m) end.
  pose proof (range_map 8 sources) as [Hnd _]. change ((range 8 sources).*1) with (map fst (range 8 sources)) in Hnd.
  assert (forall s, In s (map fst (range 8 sources)) <-> is_Some (sources !! s)) as Hkeys.
  { intros s. rewrite <- list_elem_of_In. change (map fst (range 8 sources)) with ((range 8 sources).*1).
    rewrite (range_perm 8 _ sources). rewrite list_elem_of_fmap. split.
    - intros ([k v] & -> & Hk%elem_of_map_to_list). by exists v.
    - intros [v Hv]. exists (s, v). split; [done|]. by apply elem_of_map_to_list. }
  destruct (fold_tracks appName webhookURL inventory db (normalizeDormantFleetAlertPolicy policy) now (range 8 sources) t)
    as (F1 & F2 & _); [|done|].
  { apply List.Forall_forall. intros s Hin. apply Hkeys in Hin. unfold sources in Hin. rewrite insert_sources in Hin.
    destruct Hin as [[? E]|(x & <- & _)%in_map_iff]; [by rewrite lookup_empty in E|apply canonical_idem]. }
  destruct (decide (is_Some (sources !! source))) as [Hin|Hout]; [by apply F1, Hkeys|].
  assert (forall x, In x (ListActiveWorkerSources (db_workers db) ++ ListActiveAlertSources t fleetFullyDormantAlertType) -> x <> source) as Hno.
  { intros x Hx ->. apply Hout. apply insert_sources. right. apply in_map_iff. by exists source. }
  unfold tracks. rewrite F2 by (by rewrite Hkeys).
  destruct (GetActiveAlertCondition t fleetFullyDormantAlertType source) as [a|] eqn:Ea.
  - exfalso. apply (Hno source); [|done]. apply in_or_app. right. eapply active_condition_listed; exact Ea.
  - intros e. rewrite no_workers_no_epoch; [done|]. intros w Hw Hi <-. apply (Hno (w_Source w)); [|done].
    apply in_or_app. left. by apply active_source_listed.
Qed.

(** * Examples *)

Definition dormant_worker (id volume : string) (since : time) : Worker :=
  Worker_zero <| w_ID := id |> <| w_Source := "pr-7" |> <| w_Status := WorkerDormant |> <| w_FlyVolumeID := volume |>
    <| w_DormantAt := Some since |>.
Definition two_dormant : soakDB :=
  emptyDB <| db_workers := [dormant_worker "a" "vol_a" (10 * Hour)%Z; dormant_worker "b" "vol_gone" (20 * Hour)%Z] |>.
(** The platform still has the first worker's volume; or it cannot be asked. *)
Definition volumes_of : string -> result () (list Volume) := fun _ => Ok [mkVolume "vol_a" "" "" 1 "ord" "" ""].
Definition unreachable : string -> result () (list Volume) := fun _ => Err ().
Abbreviation evaluate_two inventory now t :=
  (@evaluateDormantFleetAlerts keyOrder "soak" "https://hook" (Some inventory) two_dormant (mkFleetPolicy Hour Minute) now t).
Abbreviation dormant_condition t := (GetActiveAlertCondition t fleetFullyDormantAlertType "pr-7").

(** A fleet whose only volume is held by a worker dormant since the tenth hour. *)
Lemma dormant_alert_tracks_fleet_witness :
  exists a e, dormant_condition (evaluate_two volumes_of (30 * Hour)%Z noAlerts) = Some a /\
    al_ConditionStartedAt a = Some e /\ dormantFleet [dormant_worker "a" "vol_a" (10 * Hour)%Z] e.
Proof.
  pose proof (@dormant_alert_tracks_fleet keyOrder "soak" "https://hook" (Some volumes_of) two_dormant
    (mkFleetPolicy Hour Minute) (30 * Hour)%Z noAlerts "pr-7" eq_refl) as T. cbv zeta in T.
  assert ((resumableWorkers (H := keyOrder) "soak" (Some volumes_of) (ListWorkersForSource (db_workers two_dormant) "pr-7")).1 =
          [dormant_worker "a" "vol_a" (10 * Hour)%Z]) as E by (vm_compute; reflexivity).
  rewrite E in T. destruct (dormant_condition (evaluate_two volumes_of (30 * Hour)%Z noAlerts)) as [a|] eqn:Ea.
  - destruct T as (e & T). exists a, e. split; [reflexivity|exact T].
  - exfalso. revert Ea. vm_compute. discriminate.
Defined.

Lemma alert_table_wf_witness : alerts_wf (evaluate_two volumes_of (30 * Hour)%Z noAlerts).
Proof. apply (@alert_table_wf keyOrder "soak" "https://hook"). eapply reach_step; [apply reach_none|apply step_fleet]. Defined.

(** A failed volume listing loses the alert of a fleet that stays dormant: the
    fallback to the database counts a worker whose volume is gone, so the epoch
    moves and the condition is resolved; when the listing works again the epoch
    moves back, and the alert of that epoch is ignored because its fingerprint
    exists.  No later evaluation opens it again. *)
Theorem inventory_error_loses_alert :
  let t1 := evaluate_two volumes_of (30 * Hour)%Z noAlerts in
  let t2 := evaluate_two unreachable (31 * Hour)%Z t1 in
  let t3 := evaluate_two volumes_of (32 * Hour)%Z t2 in
  is_Some (dormant_condition t1) /\ is_Some (dormant_condition t2) /\
  dormant_condition t3 = None /\ evaluate_two volumes_of (33 * Hour)%Z t3 = t3 /\
  fullyDormantFleetEpoch (resumableWorkers (H := keyOrder) "soak" (Some volumes_of)
    (ListWorkersForSource (db_workers two_dormant) "pr-7")).1 = Some (10 * Hour)%Z.
Proof. vm_compute. repeat split; eauto. Qed.
