(* ===== verification/S3FaultProxy.v ===== *)
(** The object-store fault proxy of [worker/s3_fault_proxy.go]: its fault
    schedule, its request and upload counters and the scan of a multipart
    completion's response.

    A request is what the handlers read of it: method, path, raw and parsed
    query, length and the headers.  Each critical section of the proxy's mutex is
    an operation on its state; requests run concurrently and are interleavings of
    these operations.  The upstream's answer, the client's stream, the listener,
    [url.Parse], SHA-256 and the request signer are arguments. *)
From Stdlib Require Import Ascii.
From S2P Require Import Prelude GoStrings Regex GateFleet.

(** * Bytes *)

(** [bytes.Index]: the first position at which [sub] occurs. *)
Fixpoint prefixb (sub s : list ascii) : bool :=
  match sub, s with
  | [], _ => true
  | a :: sub, b :: s => Ascii.eqb a b && prefixb sub s
  | _ :: _, [] => false
  end.
Fixpoint bytes_Index (s sub : list ascii) : option nat :=
  if prefixb sub s then Some 0
  else match s with [] => None | _ :: t => S <$> bytes_Index t sub end.
Definition bytes_Contains (s sub : list ascii) : bool := bool_decide (is_Some (bytes_Index s sub)).

Definition upper_char (c : ascii) : ascii := if is_lower c then ascii_of_N (N_of_ascii c - 32) else c.
Definition ToUpper (s : string) : string := str_map upper_char s.
Definition nul : string := String "000" "".

(** * Configuration *)

Definition maxS3FaultProxyAttemptKeys : nat := Z.to_nat 10000.
Definition s3FaultProxyModeUploadPartReset := "uploadpart-reset".
Definition s3FaultProxyModeSourceGETReset := "source-get-reset".
Definition s3FaultProxyModeProvider408Canceled := "provider-408-requestcanceled".
Definition s3FaultProxyModeProviderHTTP408 := "provider-http-408".
Definition s3FaultProxyModeProviderRequestCanceled := "provider-request-canceled".
Definition s3FaultProxyModeConnectReset := "connect-reset".
Definition s3FaultProxyModeObserve := "observe".
Definition defaultS3FaultProxySourceLevel := "0001".

Record s3FaultProxyConfig := mkProxyConfig {
  pc_TargetEndpoint : string;
  pc_ListenAddr : string;
  pc_Mode : string;
  pc_MinContentLength : Z;
  pc_ResetAfterBytes : Z;
  pc_FailFirstAttempts : Z;
  pc_MaxFailures : Z;
  pc_SourceLevel : string;
  pc_AccessKeyID : string;
  pc_SecretAccessKey : string;
  pc_SessionToken : string;
  pc_Region : string
}.
#[export] Instance s3FaultProxyConfig_eta : Settable s3FaultProxyConfig :=
  fun r => mkProxyConfig (pc_TargetEndpoint r) (pc_ListenAddr r) (pc_Mode r) (pc_MinContentLength r) (pc_ResetAfterBytes r)
    (pc_FailFirstAttempts r) (pc_MaxFailures r) (pc_SourceLevel r) (pc_AccessKeyID r) (pc_SecretAccessKey r)
    (pc_SessionToken r) (pc_Region r).

Definition normalizeS3FaultProxyMode (mode : string) : string :=
  let mode := TrimSpace (ToLower mode) in
  if (mode =s "") || (mode =s s3FaultProxyModeUploadPartReset) then s3FaultProxyModeUploadPartReset
  else if mode =s s3FaultProxyModeProvider408Canceled then s3FaultProxyModeProviderHTTP408
  else mode.

Inductive proxyError :=
| errInvalidMode (mode : string)
| errS3FaultProxySigningCredentialsRequired
| errS3FaultProxySigningRegionRequired
| errTargetEndpoint
| errListen
| errS3FaultProxyPayloadHashRequired
| errS3FaultProxySigningFailed
| errS3FaultProxyUpstreamRequestFailed
| errS3ObserveProxyRequired (cause : proxyError).

Definition s3FaultProxyModeRequiresSigning (mode : string) : result proxyError bool :=
  if slices_Contains [s3FaultProxyModeObserve; s3FaultProxyModeUploadPartReset; s3FaultProxyModeSourceGETReset;
                      s3FaultProxyModeProviderHTTP408; s3FaultProxyModeProviderRequestCanceled; s3FaultProxyModeConnectReset]
       (normalizeS3FaultProxyMode mode)
  then Ok true else Err (errInvalidMode mode).

Definition validateS3FaultProxySigningConfig (cfg : s3FaultProxyConfig) : option proxyError :=
  if (TrimSpace (pc_AccessKeyID cfg) =s "") || (pc_SecretAccessKey cfg =s "") then Some errS3FaultProxySigningCredentialsRequired
  else if TrimSpace (pc_Region cfg) =s "" then Some errS3FaultProxySigningRegionRequired
  else None.

Definition safeS3FaultProxyError (e : proxyError) : proxyError :=
  match e with
  | errS3FaultProxyPayloadHashRequired => errS3FaultProxyPayloadHashRequired
  | errS3FaultProxySigningFailed => errS3FaultProxySigningFailed
  | _ => errS3FaultProxyUpstreamRequestFailed
  end.

(** [parse] is [url.Parse]: the scheme and the host. *)
Definition parseProxyTargetEndpoint (parse : string -> option (string * string)) (endpoint : string)
  : result proxyError (string * string) :=
  let endpoint := TrimSpace endpoint in
  if endpoint =s "" then Err errTargetEndpoint
  else
    let endpoint := if negb (Contains endpoint "://") then "https://" +:+ endpoint else endpoint in
    match parse endpoint with
    | None => Err errTargetEndpoint
    | Some (scheme, host) => if (scheme =s "") || (host =s "") then Err errTargetEndpoint else Ok (scheme, host)
    end.

(** * State *)

Record s3FaultProxy := mkProxy {
  px_cfg : s3FaultProxyConfig;
  px_attempts : gmap string Z;
  px_totalFailures : Z;
  px_observedSourceGET : Z;
  px_observedSourceRangeGET : Z;
  px_listRequests : Z;
  px_requests : gmap string Z;
  px_bytesSent : gmap string Z;
  px_bytesReceived : gmap string Z;
  px_levelPuts : gmap string Z;
  px_levelPutBytes : gmap string Z
}.
#[export] Instance s3FaultProxy_eta : Settable s3FaultProxy :=
  fun r => mkProxy (px_cfg r) (px_attempts r) (px_totalFailures r) (px_observedSourceGET r) (px_observedSourceRangeGET r)
    (px_listRequests r) (px_requests r) (px_bytesSent r) (px_bytesReceived r) (px_levelPuts r) (px_levelPutBytes r).

Definition newS3FaultProxy (cfg : s3FaultProxyConfig) : s3FaultProxy :=
  let cfg := if TrimSpace (pc_ListenAddr cfg) =s "" then cfg <| pc_ListenAddr := "127.0.0.1:19000" |> else cfg in
  let cfg := cfg <| pc_Mode ::= normalizeS3FaultProxyMode |> in
  let cfg := if pc_Mode cfg =s s3FaultProxyModeObserve
             then cfg <| pc_FailFirstAttempts := 0%Z |> <| pc_MaxFailures := 0%Z |> else cfg in
  let cfg := if (pc_ResetAfterBytes cfg <=? 0)%Z then cfg <| pc_ResetAfterBytes := 1%Z |> else cfg in
  let cfg := if TrimSpace (pc_SourceLevel cfg) =s "" then cfg <| pc_SourceLevel := defaultS3FaultProxySourceLevel |> else cfg in
  mkProxy cfg ∅ 0 0 0 0 ∅ ∅ ∅ ∅ ∅.

(** What [Start] checks before it serves; [listen] is [net.Listen]. *)
Definition Start (parse : string -> option (string * string)) (listen : string -> option string) (p : s3FaultProxy)
  : result proxyError (string * (string * string)) :=
  match s3FaultProxyModeRequiresSigning (pc_Mode (px_cfg p)) with
  | Err e => Err e
  | Ok signingEnabled =>
      match (if signingEnabled then validateS3FaultProxySigningConfig (px_cfg p) else None) with
      | Some e => Err e
      | None =>
          match parseProxyTargetEndpoint parse (pc_TargetEndpoint (px_cfg p)) with
          | Err e => Err e
          | Ok target =>
              match listen (pc_ListenAddr (px_cfg p)) with
              | None => Err errListen
              | Some addr => Ok ("http://" +:+ addr, target)
              end
          end
      end
  end.

(** The counters of a cycle; the totals are kept. *)
Definition ResetCycle (p : s3FaultProxy) : s3FaultProxy :=
  p <| px_attempts := ∅ |> <| px_totalFailures := 0%Z |> <| px_observedSourceGET := 0%Z |> <| px_observedSourceRangeGET := 0%Z |>.

Definition recordFault (key : string) (p : s3FaultProxy) : bool * s3FaultProxy :=
  let cfg := px_cfg p in
  if (pc_FailFirstAttempts cfg <=? 0)%Z then (false, p)
  else
    let p := if maxS3FaultProxyAttemptKeys <? size (px_attempts p) then p <| px_attempts := ∅ |> else p in
    if (0 <? pc_MaxFailures cfg)%Z && (pc_MaxFailures cfg <=? px_totalFailures p)%Z then (false, p)
    else
      let attempts := (default 0%Z (px_attempts p !! key) + 1)%Z in
      let p := p <| px_attempts ::= <[key := attempts]> |> in
      if (pc_FailFirstAttempts cfg <? attempts)%Z then (false, p)
      else (true, p <| px_totalFailures ::= Z.succ |>).

Definition isNonzeroRangeHeader (value : string) : bool :=
  let value := TrimSpace (ToLower value) in
  if negb (HasPrefix value "bytes=") then false
  else
    let value := TrimSpace (Cut "-" (TrimPrefix value "bytes=")).1.1 in
    negb (value =s "") && negb (value =s "0").

Definition recordObservedSourceGET (rangeHeader : string) (p : s3FaultProxy) : s3FaultProxy :=
  let p := p <| px_observedSourceGET ::= Z.succ |> in
  if isNonzeroRangeHeader rangeHeader then p <| px_observedSourceRangeGET ::= Z.succ |> else p.

Definition recordListRequest (p : s3FaultProxy) : s3FaultProxy := p <| px_listRequests ::= Z.succ |>.

(** A counter of a Go [map[string]uint64]. *)
Definition addCounter (key : string) (n : Z) (m : gmap string Z) : gmap string Z :=
  <[key := uint64 (default 0%Z (m !! key) + n)]> m.

Definition recordRequest (operation : string) (sent received : Z) (p : s3FaultProxy) : s3FaultProxy :=
  let p := p <| px_requests ::= addCounter operation 1 |> in
  let p := if (0 <? sent)%Z then p <| px_bytesSent ::= addCounter operation sent |> else p in
  if (0 <? received)%Z then p <| px_bytesReceived ::= addCounter operation received |> else p.

Definition addLevelPut (level : string) (objects bodyBytes : Z) (p : s3FaultProxy) : s3FaultProxy :=
  let p := if (0 <? objects)%Z then p <| px_levelPuts ::= addCounter level objects |> else p in
  if (bodyBytes <=? 0)%Z then p else p <| px_levelPutBytes ::= addCounter level bodyBytes |>.

(** * Requests *)

Record httpRequest := mkRequest {
  rq_Method : string;
  rq_Path : string;
  rq_RawQuery : string;
  (** the parsed query *)
  rq_Query : list (string * string);
  rq_ContentLength : Z;
  rq_Range : string;
  rq_IsAbs : bool
}.
Definition Get (values : list (string * string)) (key : string) : string :=
  match List.find (fun kv => fst kv =s key) values with Some kv => snd kv | None => "" end.

Definition isS3ListRequest (r : httpRequest) : bool := (rq_Method r =s "GET") && negb (Get (rq_Query r) "list-type" =s "").
Definition isS3MultipartCompletion (r : httpRequest) : bool := (rq_Method r =s "POST") && negb (Get (rq_Query r) "uploadId" =s "").
Definition s3RequestOperation (r : httpRequest) : string := if isS3ListRequest r then "LIST" else ToUpper (rq_Method r).

(** [worker/replica_levels.go]: the level directory that holds the key. *)
Definition replicaLevelOfKey (key : string) : option string :=
  match rev (Split "/" key) with
  | _ :: level :: _ =>
      match level with
      | String "0" (String "0" (String "0" (String d ""))) => if is_digit d then Some level else None
      | _ => None
      end%char
  | _ => None
  end.
Definition ltxObjectNameRe : re :=
  RSeq (RRep 16 (RChar is_lower_hex)) (RSeq (RLit "-") (RSeq (RRep 16 (RChar is_lower_hex)) (RSeq (RLit ".ltx") REnd))).
Definition ltxLevelOfKey (key : string) : string :=
  match replicaLevelOfKey key with
  | None => "other"
  | Some level =>
      let name := match LastIndex key "/" with Some i => str_drop (S i) key | None => key end in
      if negb (MatchAnchored ltxObjectNameRe name) then "other" else "L" +:+ str_drop 3 level
  end.

Section Handlers.
Variable sha256 : string -> string.

Definition s3FaultRequestKey (r : httpRequest) : string := rq_Path r +:+ nul +:+ sha256 (rq_RawQuery r).

Definition matchesSourceLevel (p : s3FaultProxy) (path : string) : bool :=
  let level := Trim (TrimSpace (pc_SourceLevel (px_cfg p))) "/" in
  let level := if level =s "" then defaultS3FaultProxySourceLevel else level in
  Contains path ("/" +:+ level +:+ "/").

Definition shouldResetUploadPart (r : httpRequest) (p : s3FaultProxy) : bool * s3FaultProxy :=
  if negb (pc_Mode (px_cfg p) =s s3FaultProxyModeUploadPartReset) || negb (rq_Method r =s "PUT") then (false, p)
  else
    let partNumber := TrimSpace (Get (rq_Query r) "partNumber") in
    let uploadID := TrimSpace (Get (rq_Query r) "uploadId") in
    if (partNumber =s "") || (uploadID =s "") then (false, p)
    else if (0 <? pc_MinContentLength (px_cfg p))%Z && (0 <=? rq_ContentLength r)%Z &&
            (rq_ContentLength r <? pc_MinContentLength (px_cfg p))%Z then (false, p)
    else recordFault ("uploadpart" +:+ nul +:+ rq_Path r +:+ nul +:+ uploadID +:+ nul +:+ partNumber) p.

Definition shouldDropSourceGET (r : httpRequest) (p : s3FaultProxy) : bool * s3FaultProxy :=
  if negb (pc_Mode (px_cfg p) =s s3FaultProxyModeSourceGETReset) || negb (rq_Method r =s "GET") then (false, p)
  else if negb (matchesSourceLevel p (rq_Path r)) then (false, p)
  else recordFault ("source-get" +:+ nul +:+ rq_Path r) (recordObservedSourceGET (rq_Range r) p).

Definition shouldInjectProviderHTTP408 (r : httpRequest) (p : s3FaultProxy) : bool * s3FaultProxy :=
  if negb (pc_Mode (px_cfg p) =s s3FaultProxyModeProviderHTTP408) || negb (rq_Method r =s "GET") then (false, p)
  else recordFault ("provider-http-408" +:+ nul +:+ s3FaultRequestKey r) p.

Definition shouldInjectProviderRequestCanceled (r : httpRequest) (p : s3FaultProxy) : bool * s3FaultProxy :=
  if negb (pc_Mode (px_cfg p) =s s3FaultProxyModeProviderRequestCanceled) || negb (rq_Method r =s "GET") then (false, p)
  else recordFault ("provider-request-canceled" +:+ nul +:+ s3FaultRequestKey r) p.

(** What happens to a request. *)
Inductive proxyAction := Tunnel | Inject408 | InjectCanceled | DropResponse | ResetConnection | ForwardAbsolute | Forward.

Definition ServeHTTP (r : httpRequest) (p : s3FaultProxy) : proxyAction * s3FaultProxy :=
  if rq_Method r =s "CONNECT" then (Tunnel, p)
  else
    let p := if isS3ListRequest r then recordListRequest p else p in
    let '(inject, p) := shouldInjectProviderHTTP408 r p in
    if inject then (Inject408, p)
    else
      let '(inject, p) := shouldInjectProviderRequestCanceled r p in
      if inject then (InjectCanceled, p)
      else
        let '(drop, p) := shouldDropSourceGET r p in
        if drop then (DropResponse, p)
        else
          let '(reset, p) := shouldResetUploadPart r p in
          if reset then (ResetConnection, p)
          else if rq_IsAbs r then (ForwardAbsolute, p) else (Forward, p).
End Handlers.

(** [copied]: whether the client sent the bytes after which the tunnel is reset;
    the answer is whether it is. *)
Definition copyTunnel (host : string) (copied : bool) (p : s3FaultProxy) : bool * s3FaultProxy :=
  if negb (pc_Mode (px_cfg p) =s s3FaultProxyModeConnectReset) then (false, p)
  else if negb copied then (false, p)
  else recordFault ("connect" +:+ nul +:+ host) p.

(** The bytes of a response that are let through before the drop. *)
Definition sourceDropBytes (p : s3FaultProxy) (contentLength : option Z) : Z :=
  let after := pc_ResetAfterBytes (px_cfg p) in
  if (after <=? 0)%Z then 1%Z
  else match contentLength with
       | Some n => if (0 <? n)%Z && (n <=? after)%Z then (let h := (n / 2)%Z in if (h <? 1)%Z then 1%Z else h) else after
       | None => after
       end.

(** * The counted response *)

Definition s3ErrorElement : list ascii := String.list_ascii_of_string "<Error".
Definition s3CompletionResultOpen : list ascii := String.list_ascii_of_string "<CompleteMultipartUploadResult".
Definition s3CompletionResultClose : list ascii := String.list_ascii_of_string "</CompleteMultipartUploadResult>".
Definition s3CompletionScanWindowSize : nat := length s3CompletionResultClose - 1.

Record countingResponseWriter := mkCounted {
  cw_n : Z;
  cw_statusCode : Z;
  cw_contentLength : Z;
  cw_scanErrors : bool;
  cw_errorSeen : bool;
  cw_resultOpened : bool;
  cw_resultClosed : bool;
  cw_tail : list ascii
}.
#[export] Instance countingResponseWriter_eta : Settable countingResponseWriter :=
  fun r => mkCounted (cw_n r) (cw_statusCode r) (cw_contentLength r) (cw_scanErrors r) (cw_errorSeen r) (cw_resultOpened r)
    (cw_resultClosed r) (cw_tail r).
Definition newCounted (scanErrors : bool) : countingResponseWriter := mkCounted 0 0 0 scanErrors false false false [].

(** [header]: the response's Content-Length header when the status is written. *)
Definition WriteHeader (statusCode : Z) (header : string) (c : countingResponseWriter) : countingResponseWriter :=
  if (100 <=? statusCode)%Z && (statusCode <? 200)%Z then c
  else if (cw_statusCode c =? 0)%Z then
    let '(length, ok) := Atoi header in
    c <| cw_statusCode := statusCode |>
      <| cw_contentLength := if ok && (0 <=? length)%Z then length else (-1)%Z |>
  else c.

(** The rolling window over the body. *)
Definition scanWrite (p : list ascii) (c : countingResponseWriter) : countingResponseWriter :=
  if cw_scanErrors c && negb (cw_errorSeen c) then
    let window := cw_tail c ++ p in
    let c := if bytes_Contains window s3ErrorElement then c <| cw_errorSeen := true |> else c in
    let '(opened, afterOpen) :=
      if cw_resultOpened c then (true, window)
      else match bytes_Index window s3CompletionResultOpen with
           | Some i => (true, drop (i + length s3CompletionResultOpen) window)
           | None => (false, [])
           end in
    let c := c <| cw_resultOpened := opened |> in
    let c := if opened && negb (cw_resultClosed c) && bytes_Contains afterOpen s3CompletionResultClose
             then c <| cw_resultClosed := true |> else c in
    c <| cw_tail := drop (length window - s3CompletionScanWindowSize) window |>
  else c.

(** [accepted]: the bytes the client's connection took. *)
Definition Write (p : list ascii) (accepted : Z) (header : string) (c : countingResponseWriter) : countingResponseWriter :=
  let c := if (cw_statusCode c =? 0)%Z then WriteHeader 200 header c else c in
  (scanWrite p c) <| cw_n ::= (fun n => int64 (n + accepted)) |>.

Definition completionSucceeded (c : countingResponseWriter) : bool :=
  if negb (cw_scanErrors c) || cw_errorSeen c || negb (cw_resultOpened c) || negb (cw_resultClosed c) || (cw_statusCode c =? 0)%Z
  then false
  else (cw_contentLength c <? 0)%Z || (cw_n c =? cw_contentLength c)%Z.

Definition recordUpload (r : httpRequest) (sent status : Z) (succeeded : bool) (p : s3FaultProxy) : s3FaultProxy :=
  if (status <? 200)%Z || (299 <? status)%Z then p
  else
    let isPart := (rq_Method r =s "PUT") && negb (Get (rq_Query r) "uploadId" =s "") in
    if (rq_Method r =s "PUT") && negb isPart then addLevelPut (ltxLevelOfKey (rq_Path r)) 1 sent p
    else if isPart then addLevelPut (ltxLevelOfKey (rq_Path r)) 0 sent p
    else if isS3MultipartCompletion r && succeeded then addLevelPut (ltxLevelOfKey (rq_Path r)) 1 0 p
    else p.

(** The end of an observed request; an aborted one is counted without its
    upload. *)
Definition finishObserved (r : httpRequest) (sent : Z) (aborted : bool) (c : countingResponseWriter) (p : s3FaultProxy)
  : s3FaultProxy :=
  let p := recordRequest (s3RequestOperation r) sent (cw_n c) p in
  if aborted then p else recordUpload r sent (cw_statusCode c) (completionSucceeded c) p.

(** * The scan does not depend on how the body is cut *)

(** [sub] occurs in [s] at position [i]. *)
Definition occurs (sub s : list ascii) (i : nat) : Prop := forall k c, sub !! k = Some c -> s !! (i + k) = Some c.

Lemma prefixb_occurs sub s : prefixb sub s = true <-> occurs sub s 0.
Proof.
  revert s. induction sub as [|a sub IH]; intros [|b s]; cbn [prefixb].
  - by split.
  - by split.
  - split; [done|]. intros H. by specialize (H 0 a eq_refl).
  - rewrite andb_true_iff, Ascii.eqb_eq, IH. split.
    + intros [-> H] [|k] c; simpl; [done|]. apply H.
    + intros H. split; [specialize (H 0 a eq_refl); simpl in H; congruence|]. intros k c Hk. apply (H (S k) c Hk).
Qed.

Lemma occurs_cons sub a s i : occurs sub (a :: s) (S i) <-> occurs sub s i.
Proof. done. Qed.

Lemma Index_spec s sub i :
  bytes_Index s sub = Some i -> occurs sub s i /\ forall j, j < i -> ~ occurs sub s j.
Proof.
  revert i. induction s as [|a s IH]; intros i; cbn [bytes_Index]; destruct (prefixb sub _) eqn:E; try done.
  - intros [= <-]. apply prefixb_occurs in E. split; [done|]. lia.
  - intros [= <-]. apply prefixb_occurs in E. split; [done|]. lia.
  - intros (j & Ej & ->)%fmap_Some. apply IH in Ej as [H1 H2]. split; [done|]. intros [|j'] Hj'.
    + rewrite <- prefixb_occurs. by rewrite E.
    + rewrite occurs_cons. apply H2. lia.
Qed.

Lemma Index_none s sub : bytes_Index s sub = None -> forall j, j <= length s -> ~ occurs sub s j.
Proof.
  induction s as [|a s IH]; cbn [bytes_Index]; destruct (prefixb sub _) eqn:E; try done.
  - intros _ j Hj. simpl in Hj. assert (j = 0) as -> by lia. rewrite <- prefixb_occurs. by rewrite E.
  - intros Hn%fmap_None [|j] Hj; [rewrite <- prefixb_occurs; by rewrite E|]. rewrite occurs_cons. apply IH; [done|]. simpl in Hj. lia.
Qed.

Lemma occurs_length sub s i : sub <> [] -> occurs sub s i -> i + length sub <= length s.
Proof.
  intros Hne H. destruct (lookup_lt_is_Some_2 sub (length sub - 1)) as [c Hc]; [destruct sub; simpl in *; [done|lia]|].
  specialize (H _ _ Hc). apply lookup_lt_Some in H. destruct sub; simpl in *; [done|lia].
Qed.

Lemma Index_first s sub i : sub <> [] ->
  bytes_Index s sub = Some i <-> occurs sub s i /\ forall j, j < i -> ~ occurs sub s j.
Proof.
  intros Hne. split; [apply Index_spec|]. intros [H1 H2]. destruct (bytes_Index s sub) as [j|] eqn:E.
  - apply Index_spec in E as [E1 E2]. f_equal. destruct (Nat.lt_total i j) as [|[|]]; [|done|]; exfalso; [by apply (E2 i)|by apply (H2 j)].
  - exfalso. apply (Index_none _ _ E i); [|done]. apply occurs_length in H1; [lia|done].
Qed.

Lemma Contains_occurs s sub : sub <> [] -> bytes_Contains s sub = true <-> exists i, occurs sub s i.
Proof.
  intros Hne. unfold bytes_Contains. rewrite bool_decide_eq_true. split.
  - intros [i Hi]. apply Index_spec in Hi as [H _]. by exists i.
  - intros [i Hi]. destruct (bytes_Index s sub) as [j|] eqn:E; [by eexists|]. exfalso.
    apply (Index_none _ _ E i); [|done]. apply occurs_length in Hi; [lia|done].
Qed.

Lemma occurs_drop sub s m i : occurs sub (drop m s) i <-> occurs sub s (m + i).
Proof. unfold occurs. setoid_rewrite lookup_drop. split; intros H k c Hk; specialize (H k c Hk); by rewrite Nat.add_assoc in *. Qed.

Lemma occurs_app sub s t i : sub <> [] -> i + length sub <= length s -> occurs sub (s ++ t) i <-> occurs sub s i.
Proof.
  intros Hne Hl. unfold occurs. split; intros H k c Hk; specialize (H k c Hk); pose proof (lookup_lt_Some _ _ _ Hk).
  - rewrite lookup_app_l in H by lia. done.
  - rewrite lookup_app_l by lia. done.
Qed.

(** The side conditions of the window lemmas are about the three constants. *)
Ltac tag := first [done | vm_compute; lia].

(** What a completion's whole body says: a result element that is opened and
    closed, and no error element. *)
Definition closedIn (b : list ascii) : bool :=
  match bytes_Index b s3CompletionResultOpen with
  | Some i => bytes_Contains (drop (i + length s3CompletionResultOpen) b) s3CompletionResultClose
  | None => false
  end.
Definition completionBody (b : list ascii) : bool := negb (bytes_Contains b s3ErrorElement) && closedIn b.

Section Window.
Variables (b p : list ascii).
Let s := b ++ p.
Let m := length b - s3CompletionScanWindowSize.

Lemma window_drop : drop m b ++ p = drop m s.
Proof. subst s. rewrite drop_app_le by (subst m; lia). done. Qed.

(** An occurrence in the longer text that the window does not show was there
    before. *)
Lemma early_occurrence sub i : sub <> [] -> length sub <= S s3CompletionScanWindowSize ->
  i < m -> occurs sub s i <-> occurs sub b i.
Proof. intros Hne Hl Hi. apply occurs_app; [done|]. subst m. lia. Qed.

Lemma contains_window sub : sub <> [] -> length sub <= S s3CompletionScanWindowSize ->
  bytes_Contains s sub = bytes_Contains b sub || bytes_Contains (drop m s) sub.
Proof.
  intros Hne Hl. apply eq_true_iff_eq. rewrite orb_true_iff, !Contains_occurs by done. split.
  - intros [i Hi]. destruct (decide (i < m)) as [Hm|Hm].
    + left. exists i. by apply early_occurrence.
    + right. exists (i - m). apply occurs_drop. by replace (m + (i - m)) with i by lia.
  - intros [[i Hi]|[i Hi%occurs_drop]]; [|by eexists]. exists i. apply occurs_app; [done| |done]. by apply occurs_length.
Qed.

Lemma index_kept sub i : sub <> [] -> bytes_Index b sub = Some i -> bytes_Index s sub = Some i.
Proof.
  intros Hne [H1 H2]%Index_spec. apply Index_first; [done|]. pose proof (occurs_length _ _ _ Hne H1). split.
  - by apply occurs_app.
  - intros j Hj Hs. apply (H2 j Hj). apply occurs_app in Hs; [done|done|lia].
Qed.

Lemma index_window sub : sub <> [] -> length sub <= S s3CompletionScanWindowSize -> bytes_Index b sub = None ->
  bytes_Index s sub = (Nat.add m) <$> bytes_Index (drop m s) sub.
Proof.
  intros Hne Hl Hn. assert (forall j, j < m -> ~ occurs sub s j) as He.
  { intros j Hj Hs. apply early_occurrence in Hs; [|done..]. apply (Index_none _ _ Hn j); [|done]. apply occurs_length in Hs; [lia|done]. }
  destruct (bytes_Index (drop m s) sub) as [j|] eqn:E; simpl.
  - apply Index_spec in E as [E1%occurs_drop E2]. apply Index_first; [done|]. split; [done|].
    intros k Hk Hs. destruct (decide (k < m)) as [|Hm]; [by apply (He k)|].
    apply (E2 (k - m)); [lia|]. apply occurs_drop. by replace (m + (k - m)) with k by lia.
  - destruct (bytes_Index s sub) as [k|] eqn:Es; [|done]. exfalso. apply Index_spec in Es as [Es _].
    destruct (decide (k < m)) as [|Hm]; [by apply (He k)|].
    apply (Index_none _ _ E (k - m)); [|apply occurs_drop; by replace (m + (k - m)) with k by lia].
    apply occurs_length in Es; [|done]. rewrite length_drop. destruct sub; simpl in *; [done|lia].
Qed.

(** The closing tag cannot overlap the opening one, so the window may start
    inside it. *)
Lemma close_after_open i j :
  occurs s3CompletionResultOpen s i -> occurs s3CompletionResultClose s j -> i + length s3CompletionResultOpen <= j \/ j + 1 < i.
Proof.
  intros Ho Hc. change (length s3CompletionResultOpen) with 30. destruct (decide (i + 30 <= j)) as [|Hj]; [by left|right].
  pose proof (Hc 0 "<"%char eq_refl) as C0. pose proof (Hc 1 "/"%char eq_refl) as C1. rewrite Nat.add_0_r in C0.
  destruct (decide (i <= j)) as [Hij|Hij].
  - exfalso. assert (exists k, j = i + k /\ k < 30) as (k & -> & Hk) by (exists (j - i); lia).
    destruct (lookup_lt_is_Some_2 s3CompletionResultOpen k Hk) as [c Hck]. pose proof (Ho k c Hck) as E.
    assert (c = "<"%char) as -> by congruence. destruct k as [|k].
    + rewrite Nat.add_0_r in C1. pose proof (Ho 1 "C"%char eq_refl). congruence.
    + assert (Forall (fun c => c <> "<"%char) (tail s3CompletionResultOpen)) as Ht by (repeat constructor; discriminate).
      rewrite Forall_lookup in Ht. by apply (Ht k "<"%char).
  - destruct (decide (j + 1 = i)) as [<-|]; [|lia]. pose proof (Ho 0 "<"%char eq_refl) as O0. rewrite Nat.add_0_r in O0. congruence.
Qed.
End Window.

(** The scanner's state is a function of the bytes seen. *)
Definition scanned (b : list ascii) (c : countingResponseWriter) : Prop :=
  cw_errorSeen c = bytes_Contains b s3ErrorElement /\
  (cw_errorSeen c = false ->
     cw_tail c = drop (length b - s3CompletionScanWindowSize) b /\
     cw_resultOpened c = bool_decide (is_Some (bytes_Index b s3CompletionResultOpen)) /\
     cw_resultClosed c = closedIn b).

Lemma tail_of_window (b p : list ascii) :
  let w := drop (length b - s3CompletionScanWindowSize) (b ++ p) in
  drop (length w - s3CompletionScanWindowSize) w = drop (length (b ++ p) - s3CompletionScanWindowSize) (b ++ p).
Proof. intros w. subst w. rewrite length_drop, drop_drop, length_app. f_equal. lia. Qed.

Lemma closed_step (b p : list ascii) (w := drop (length b - s3CompletionScanWindowSize) (b ++ p)) :
  closedIn (b ++ p) =
    closedIn b ||
    match bytes_Index b s3CompletionResultOpen with
    | Some _ => bytes_Contains w s3CompletionResultClose
    | None => match bytes_Index w s3CompletionResultOpen with
              | Some i => bytes_Contains (drop (i + length s3CompletionResultOpen) w) s3CompletionResultClose
              | None => false
              end
    end.
Proof.
  unfold closedIn. destruct (bytes_Index b s3CompletionResultOpen) as [i|] eqn:Ei.
  - rewrite (index_kept b p _ i) by done. apply Index_spec in Ei as [Hi _].
    pose proof (occurs_length s3CompletionResultOpen b i ltac:(done) Hi) as Hl.
    assert (occurs s3CompletionResultOpen (b ++ p) i) as Hi' by (by apply occurs_app).
    apply eq_true_iff_eq. rewrite orb_true_iff, !Contains_occurs by done. split.
    + intros [k Hk%occurs_drop]. set (j := i + length s3CompletionResultOpen + k) in *.
      destruct (decide (j + length s3CompletionResultClose <= length b)) as [Hin|Hout].
      * left. exists k. apply occurs_drop. fold j. by apply occurs_app in Hk.
      * right. exists (j - (length b - s3CompletionScanWindowSize)). apply occurs_drop.
        replace (_ + _) with j; [done|]. change s3CompletionScanWindowSize with 31. change (length s3CompletionResultClose) with 32 in *. lia.
    + intros [[k Hk%occurs_drop]|[k Hk%occurs_drop]].
      * exists k. apply occurs_drop. apply occurs_app; [done| |done]. by apply occurs_length.
      * set (j := length b - s3CompletionScanWindowSize + k) in *.
        destruct (close_after_open b p i j Hi' Hk) as [Hj|Hj].
        -- exists (j - (i + length s3CompletionResultOpen)). apply occurs_drop. by replace (_ + (j - _)) with j by lia.
        -- exfalso. subst j. change s3CompletionScanWindowSize with 31 in *. change (length s3CompletionResultOpen) with 30 in *. lia.
  - rewrite (index_window b p) by tag. cbn [orb]. fold w. destruct (bytes_Index w s3CompletionResultOpen) as [i|]; [|done].
    cbn [fmap option_fmap option_map]. subst w. rewrite drop_drop. f_equal. f_equal. lia.
Qed.

Lemma scan_step (b p : list ascii) (c : countingResponseWriter) :
  cw_scanErrors c = true -> scanned b c -> scanned (b ++ p) (scanWrite p c).
Proof.
  intros Hs [He Hc]. unfold scanWrite. rewrite Hs. cbn [andb].
  destruct (cw_errorSeen c) eqn:Ec; cbn [negb].
  { split; [|congruence]. rewrite Ec. symmetry. rewrite (contains_window b p) by tag. by rewrite <- He. }
  destruct (Hc eq_refl) as (Ht & Ho & Hcl). rewrite Ht. rewrite window_drop.
  set (w := drop (length b - s3CompletionScanWindowSize) (b ++ p)).
  assert (bytes_Contains (b ++ p) s3ErrorElement = bytes_Contains w s3ErrorElement) as Ee
    by (rewrite (contains_window b p) by tag; by rewrite <- He).
  assert (bool_decide (is_Some (bytes_Index (b ++ p) s3CompletionResultOpen)) =
          match bytes_Index b s3CompletionResultOpen with Some _ => true | None => bool_decide (is_Some (bytes_Index w s3CompletionResultOpen)) end) as Eo.
  { destruct (bytes_Index b s3CompletionResultOpen) as [i|] eqn:Ei; [by rewrite (index_kept b p _ i)|].
    rewrite (index_window b p) by tag. fold w. by destruct (bytes_Index w _). }
  pose proof (closed_step b p) as Ecl. cbv zeta in Ecl. fold w in Ecl.
  pose proof (tail_of_window b p) as Etl. cbv zeta in Etl. fold w in Etl.
  unfold scanned. rewrite Ee, Eo, Ecl, <- Etl. clearbody w. clear Ee Eo Ecl Etl Ht He Hc.
  destruct c as [n st cl sc es op clo tl]. simpl in *. subst es op clo.
  destruct (bytes_Contains w s3ErrorElement); simpl; [by repeat case_match|].
  destruct (bytes_Index b s3CompletionResultOpen) as [i|]; simpl.
  - destruct (closedIn b), (bytes_Contains w s3CompletionResultClose); simpl; auto.
  - destruct (bytes_Index w s3CompletionResultOpen) as [i|]; simpl; [|by destruct (closedIn b)].
    destruct (closedIn b), (bytes_Contains _ s3CompletionResultClose); simpl; auto.
Qed.

(** A response as the reverse proxy writes it: a status (interim ones included)
    or a piece of the body, with the Content-Length header at that time. *)
Inductive responseEvent := EHeader (statusCode : Z) (header : string) | EWrite (p : list ascii) (accepted : Z) (header : string).
Definition respond1 (c : countingResponseWriter) (e : responseEvent) : countingResponseWriter :=
  match e with EHeader code header => WriteHeader code header c | EWrite p accepted header => Write p accepted header c end.
Definition respond (scanErrors : bool) (events : list responseEvent) : countingResponseWriter :=
  fold_left respond1 events (newCounted scanErrors).

Definition bodyOf (events : list responseEvent) : list ascii :=
  concat (map (fun e => match e with EWrite p _ _ => p | _ => [] end) events).
(** The header that goes out with the final status: the first status that is not
    interim, or the first piece of the body. *)
Fixpoint finalHeader (events : list responseEvent) : option string :=
  match events with
  | [] => None
  | EWrite _ _ header :: _ => Some header
  | EHeader code header :: rest => if (code <? 200)%Z then finalHeader rest else Some header
  end.
Definition forwarded (events : list responseEvent) : Z :=
  fold_left (fun n e => match e with EWrite _ accepted _ => int64 (n + accepted) | _ => n end) events 0%Z.
Definition declaredLength (header : string) : Z := let '(n, ok) := Atoi header in if ok && (0 <=? n)%Z then n else (-1)%Z.

(** [net/http] refuses a status below 100. *)
Definition properStatus (e : responseEvent) : Prop := match e with EHeader code _ => (100 <= code)%Z | _ => True end.

Lemma scanWrite_frame p c :
  let c' := scanWrite p c in
  cw_n c' = cw_n c /\ cw_statusCode c' = cw_statusCode c /\ cw_contentLength c' = cw_contentLength c /\ cw_scanErrors c' = cw_scanErrors c.
Proof. cbv zeta. unfold scanWrite. repeat case_match; done. Qed.

(** Status, declared length and count of forwarded bytes after some events. *)
Definition accounted (seen : list responseEvent) (c : countingResponseWriter) : Prop :=
  cw_n c = forwarded seen /\
  match finalHeader seen with
  | None => cw_statusCode c = 0%Z
  | Some header => cw_statusCode c <> 0%Z /\ cw_contentLength c = declaredLength header
  end.

Lemma finalHeader_snoc seen e :
  finalHeader (seen ++ [e]) = match finalHeader seen with Some h => Some h | None => finalHeader [e] end.
Proof. induction seen as [|[code header|p a header] l IH]; simpl; [by destruct (finalHeader [e])| |done]. by destruct (code <? 200)%Z. Qed.

Lemma WriteHeader_fresh code header c : (200 <= code)%Z -> cw_statusCode c = 0%Z ->
  let c' := WriteHeader code header c in
  cw_n c' = cw_n c /\ cw_statusCode c' <> 0%Z /\ cw_contentLength c' = declaredLength header /\ cw_scanErrors c' = cw_scanErrors c /\
  cw_errorSeen c' = cw_errorSeen c /\ cw_resultOpened c' = cw_resultOpened c /\ cw_resultClosed c' = cw_resultClosed c /\ cw_tail c' = cw_tail c.
Proof.
  intros Hc Hs. cbv zeta. unfold WriteHeader, declaredLength. destruct (Z.ltb_spec code 200); [lia|]. rewrite andb_false_r, Hs. simpl.
  destruct (Atoi header) as [n ok]. simpl. split_and!; done || lia.
Qed.

Lemma WriteHeader_scan code header c b : scanned b c -> scanned b (WriteHeader code header c).
Proof. unfold WriteHeader. repeat case_match; done. Qed.

Lemma respond1_accounted seen e c : properStatus e -> accounted seen c -> accounted (seen ++ [e]) (respond1 c e).
Proof.
  intros Hp [Hn Hh]. unfold accounted, forwarded. rewrite fold_left_app, finalHeader_snoc. fold (forwarded seen). rewrite <- Hn.
  destruct e as [code header|p a header]; simpl in *.
  - destruct (finalHeader seen) as [h|].
    + destruct Hh as [H1 H2]. unfold WriteHeader. apply Z.eqb_neq in H1 as E. rewrite E. by case_match.
    + destruct (Z.ltb_spec code 200).
      * unfold WriteHeader. destruct (Z.leb_spec 100 code); [|lia]. destruct (Z.ltb_spec code 200); [done|lia].
      * destruct (WriteHeader_fresh code header c) as (E1 & E2 & E3 & _); [lia|done|]. done.
  - unfold Write. destruct (finalHeader seen) as [h|].
    + destruct Hh as [H1 H2]. apply Z.eqb_neq in H1 as E. rewrite E. destruct (scanWrite_frame p c) as (E1 & E2 & E3 & _).
      simpl. by rewrite E1, E2, E3.
    + rewrite Hh. cbn [Z.eqb]. destruct (WriteHeader_fresh 200 header c) as (E1 & E2 & E3 & _); [lia|done|].
      destruct (scanWrite_frame p (WriteHeader 200 header c)) as (F1 & F2 & F3 & _). simpl. rewrite F1, F2, F3, E1. done.
Qed.

Lemma respond1_scanned b e c : cw_scanErrors c = true -> scanned b c ->
  scanned (b ++ match e with EWrite p _ _ => p | _ => [] end) (respond1 c e) /\ cw_scanErrors (respond1 c e) = true.
Proof.
  intros Hs Hc. destruct e as [code header|p a header]; simpl.
  - rewrite app_nil_r. split; [by apply WriteHeader_scan|]. unfold WriteHeader. by repeat case_match.
  - unfold Write. set (c1 := if (cw_statusCode c =? 0)%Z then _ else c).
    assert (cw_scanErrors c1 = true) as Hs1 by (subst c1; case_match; [unfold WriteHeader; by repeat case_match|done]).
    assert (scanned b c1) as Hc1 by (subst c1; case_match; [by apply WriteHeader_scan|done]). clearbody c1.
    split; [apply (scan_step b p c1 Hs1 Hc1)|]. simpl. by rewrite (proj2 (proj2 (proj2 (scanWrite_frame p c1)))).
Qed.

Lemma respond_accounted events seen c : Forall properStatus events -> accounted seen c ->
  accounted (seen ++ events) (fold_left respond1 events c).
Proof.
  revert seen c. induction events as [|e l IH]; intros seen c Hp Hc; [by rewrite app_nil_r|].
  apply Forall_cons in Hp as [H1 H2]. rewrite fold_left_cons. replace (seen ++ e :: l) with ((seen ++ [e]) ++ l) by by rewrite <- app_assoc.
  apply IH; [done|]. by apply respond1_accounted.
Qed.

Lemma respond_scanned events b c : cw_scanErrors c = true -> scanned b c ->
  scanned (b ++ bodyOf events) (fold_left respond1 events c) /\ cw_scanErrors (fold_left respond1 events c) = true.
Proof.
  revert b c. induction events as [|e l IH]; intros b c Hs Hc; [by rewrite app_nil_r|].
  rewrite fold_left_cons. destruct (respond1_scanned b e c Hs Hc) as [H1 H2].
  unfold bodyOf in *. cbn [map concat]. rewrite app_assoc. by apply IH.
Qed.

Lemma scan_off c events : cw_scanErrors c = false -> cw_scanErrors (fold_left respond1 events c) = false.
Proof.
  revert c. induction events as [|e l IH]; intros c Hs; [done|]. rewrite fold_left_cons. apply IH.
  destruct e as [code header|p a header]; simpl; [unfold WriteHeader; by repeat case_match|].
  unfold Write. simpl. rewrite (proj2 (proj2 (proj2 (scanWrite_frame p _)))). case_match; [unfold WriteHeader; by repeat case_match|done].
Qed.

(** C34: the rolling window agrees with a scan of the whole body: however the
    upstream's response is cut into writes and whatever interim statuses come
    first, a multipart completion counts as succeeded exactly when its body has an
    opening result tag followed by the closing one and no error element, and as
    many bytes were forwarded as its final status declared. *)
Theorem completion_scan_is_reference (scanErrors : bool) (events : list responseEvent) (Hp : Forall properStatus events) :
  completionSucceeded (respond scanErrors events) =
    scanErrors && completionBody (bodyOf events) &&
    match finalHeader events with
    | None => false
    | Some header => (declaredLength header <? 0)%Z || (forwarded events =? declaredLength header)%Z
    end.
Proof.
  unfold completionSucceeded, respond. destruct scanErrors; [|by rewrite scan_off].
  destruct (respond_accounted events [] (newCounted true) Hp) as [An Ah]; [done|]. cbn [app] in An, Ah.
  destruct (respond_scanned events [] (newCounted true) eq_refl) as [[Se Sc] Ss]; [done|]. cbn [app] in Se, Sc.
  set (c := fold_left respond1 events (newCounted true)) in *. clearbody c. rewrite Ss. cbn [negb orb andb].
  unfold completionBody. rewrite <- Se. destruct (cw_errorSeen c); [done|]. destruct (Sc eq_refl) as (_ & -> & ->). cbn [orb andb negb].
  destruct (finalHeader events) as [header|].
  - destruct Ah as [H1 ->]. apply Z.eqb_neq in H1 as ->. rewrite An. unfold closedIn.
    destruct (bytes_Index _ s3CompletionResultOpen); [|done]. cbn [bool_decide]. by destruct (bytes_Contains _ s3CompletionResultClose).
  - rewrite Ah. rewrite !orb_true_r, andb_false_r. done.
Qed.

(** * The fault schedule *)

Fixpoint runFaults (keys : list string) (p : s3FaultProxy) : list bool * s3FaultProxy :=
  match keys with
  | [] => ([], p)
  | key :: rest =>
      let '(fail, p) := recordFault key p in
      let '(fails, p) := runFaults rest p in
      (fail :: fails, p)
  end.

Definition occurrencesOf (key : string) (keys : list string) : Z := Z.of_nat (length (List.filter (String.eqb key) keys)).

(** The schedule: an attempt fails while failures are left and its key was tried
    fewer than [FailFirstAttempts] times before. *)
Fixpoint faultSchedule (cfg : s3FaultProxyConfig) (tried : list string) (failures : Z) (keys : list string) : list bool :=
  match keys with
  | [] => []
  | key :: rest =>
      let fail := ((pc_MaxFailures cfg <=? 0)%Z || (failures <? pc_MaxFailures cfg)%Z) &&
                  (occurrencesOf key tried <? pc_FailFirstAttempts cfg)%Z in
      fail :: faultSchedule cfg (tried ++ [key]) (if fail then failures + 1 else failures)%Z rest
  end.

Lemma occurrences_snoc key k tried : occurrencesOf key (tried ++ [k]) = (occurrencesOf key tried + if key =s k then 1 else 0)%Z.
Proof. unfold occurrencesOf. rewrite List.filter_app, length_app. simpl. destruct (key =s k); simpl; lia. Qed.

Lemma occurrences_nonneg key keys : (0 <= occurrencesOf key keys)%Z.
Proof. unfold occurrencesOf. lia. Qed.

Definition spent (cfg : s3FaultProxyConfig) (failures : Z) : bool :=
  (0 <? pc_MaxFailures cfg)%Z && (pc_MaxFailures cfg <=? failures)%Z.

Lemma schedule_spent cfg tried failures keys : spent cfg failures = true -> faultSchedule cfg tried failures keys = map (fun _ => false) keys.
Proof.
  intros Hs. revert tried. induction keys as [|k l IH]; intros tried; simpl; [done|]. unfold spent in Hs.
  replace ((pc_MaxFailures cfg <=? 0)%Z || (failures <? pc_MaxFailures cfg)%Z) with false by lia. cbn [andb]. by rewrite IH.
Qed.

Lemma run_spent keys p : spent (px_cfg p) (px_totalFailures p) = true -> (runFaults keys p).1 = map (fun _ => false) keys.
Proof.
  revert p. induction keys as [|k l IH]; intros p Hs; simpl; [done|].
  assert (exists p', recordFault k p = (false, p') /\ px_cfg p' = px_cfg p /\ px_totalFailures p' = px_totalFailures p) as (p' & -> & E1 & E2).
  { unfold recordFault, spent in *. destruct (_ <=? 0)%Z; [by eexists|]. destruct (_ <? size _); simpl; rewrite Hs; by eexists. }
  specialize (IH p'). destruct (runFaults l p') as [fails p'']. simpl in *. f_equal. apply IH. by rewrite E1, E2.
Qed.

(** The attempts of a cycle, as long as the map is never emptied. *)
Definition counted (tried : list string) (attempts : gmap string Z) : Prop :=
  (forall key, default 0%Z (attempts !! key) = occurrencesOf key tried) /\ dom attempts ⊆ list_to_set tried.

Lemma counted_size tried attempts : counted tried attempts -> size attempts <= length (remove_dups tried).
Proof.
  intros [_ Hd]. rewrite <- size_dom. etransitivity; [apply subseteq_size, Hd|].
  rewrite <- (size_list_to_set (C := gset string) (remove_dups tried)) by apply NoDup_remove_dups. apply subseteq_size.
  intros x. rewrite !elem_of_list_to_set. by rewrite elem_of_remove_dups.
Qed.

Lemma run_schedule keys tried p :
  (0 < pc_FailFirstAttempts (px_cfg p))%Z -> counted tried (px_attempts p) ->
  length (remove_dups (tried ++ keys)) <= maxS3FaultProxyAttemptKeys ->
  (runFaults keys p).1 = faultSchedule (px_cfg p) tried (px_totalFailures p) keys.
Proof.
  intros Hff. revert tried p Hff. induction keys as [|k l IH]; intros tried p Hff Hc Hl; [done|]. simpl.
  assert (size (px_attempts p) <= maxS3FaultProxyAttemptKeys) as Hsz.
  { etransitivity; [by apply counted_size|]. etransitivity; [|exact Hl]. 
    apply submseteq_length, NoDup_submseteq; [apply NoDup_remove_dups|]. intros x. rewrite !elem_of_remove_dups. set_solver. }
  unfold recordFault. destruct (Z.leb_spec (pc_FailFirstAttempts (px_cfg p)) 0); [lia|].
  destruct (Nat.ltb_spec maxS3FaultProxyAttemptKeys (size (px_attempts p))); [lia|]. fold (spent (px_cfg p) (px_totalFailures p)).
  destruct (spent (px_cfg p) (px_totalFailures p)) eqn:Hs.
  { rewrite (surjective_pairing (runFaults l p)). cbn [fst]. rewrite run_spent by done. unfold spent in Hs.
    replace ((pc_MaxFailures (px_cfg p) <=? 0)%Z || (px_totalFailures p <? pc_MaxFailures (px_cfg p))%Z) with false by lia.
    cbn [andb]. by rewrite schedule_spent. }
  unfold spent in Hs. replace ((pc_MaxFailures (px_cfg p) <=? 0)%Z || (px_totalFailures p <? pc_MaxFailures (px_cfg p))%Z) with true by lia.
  cbn [andb]. destruct Hc as [Hc Hd]. rewrite Hc.
  assert (forall attempts, attempts = <[k := (occurrencesOf k tried + 1)%Z]> (px_attempts p) -> counted (tried ++ [k]) attempts) as Hc'.
  { intros ? ->. split.
    - intros key. rewrite occurrences_snoc. destruct (eqs_spec key k) as [->|Hne]; [by rewrite lookup_insert_eq|].
      rewrite lookup_insert_ne, Hc by done. lia.
    - rewrite dom_insert_L, list_to_set_app_L. set_solver. }
  destruct (Z.ltb_spec (pc_FailFirstAttempts (px_cfg p)) (occurrencesOf k tried + 1)) as [Hf|Hf].
  - destruct (Z.ltb_spec (occurrencesOf k tried) (pc_FailFirstAttempts (px_cfg p))); [lia|].
    rewrite (surjective_pairing (runFaults l _)). cbn [fst]. f_equal.
    rewrite (IH (tried ++ [k])); [done|done|by apply Hc'|by rewrite <- app_assoc].
  - destruct (Z.ltb_spec (occurrencesOf k tried) (pc_FailFirstAttempts (px_cfg p))); [|lia].
    rewrite (surjective_pairing (runFaults l _)). cbn [fst]. f_equal.
    rewrite (IH (tried ++ [k])); [done|done|by apply Hc'|by rewrite <- app_assoc].
Qed.

(** Within a cycle the proxy follows its schedule: of the attempts of a
    request key, in whatever order the requests of different keys come, the first
    [FailFirstAttempts] fail until [MaxFailures] failures are spent, and no other;
    as long as the cycle has no more keys than the map keeps. *)
Theorem fault_schedule_is_reference (p : s3FaultProxy) (keys : list string)
    (Hkeys : length (remove_dups keys) <= maxS3FaultProxyAttemptKeys) :
  (runFaults keys (ResetCycle p)).1 = faultSchedule (px_cfg p) [] 0 keys.
Proof.
  destruct (Z.leb_spec (pc_FailFirstAttempts (px_cfg p)) 0) as [H0|H0].
  - enough (forall q tried, px_cfg q = px_cfg p -> (runFaults keys q).1 = faultSchedule (px_cfg p) tried 0 keys) as E by by apply E.
    clear Hkeys. induction keys as [|k l IH]; intros q tried Hq; [done|]. simpl. unfold recordFault.
    rewrite Hq. destruct (Z.leb_spec (pc_FailFirstAttempts (px_cfg p)) 0); [|lia].
    rewrite (surjective_pairing (runFaults l q)). cbn [fst]. pose proof (occurrences_nonneg k tried).
    destruct (Z.ltb_spec (occurrencesOf k tried) (pc_FailFirstAttempts (px_cfg p))); [lia|]. rewrite andb_false_r. by rewrite <- (IH q (tried ++ [k])%list).
  - apply (run_schedule keys [] (ResetCycle p)); [done| |done]. split; [done|]. set_solver.
Qed.

(** * Bounds *)

(** One critical section of the proxy's mutex. *)
Inductive proxyOp :=
| OList
| OObserved (rangeHeader : string)
| OFault (key : string)
| ORequest (operation : string) (sent received : Z)
| OLevel (path : string) (objects bodyBytes : Z)
| OReset.
Definition execOp (p : s3FaultProxy) (op : proxyOp) : s3FaultProxy :=
  match op with
  | OList => recordListRequest p
  | OObserved rangeHeader => recordObservedSourceGET rangeHeader p
  | OFault key => (recordFault key p).2
  | ORequest operation sent received => recordRequest operation sent received p
  | OLevel path objects bodyBytes => addLevelPut (ltxLevelOfKey path) objects bodyBytes p
  | OReset => ResetCycle p
  end.
Definition runOps (ops : list proxyOp) (p : s3FaultProxy) : s3FaultProxy := fold_left execOp ops p.

Definition levelLabels : list string := ["other"; "L0"; "L1"; "L2"; "L3"; "L4"; "L5"; "L6"; "L7"; "L8"; "L9"].

Definition is_uint64 (n : Z) : Prop := (0 <= n < 2 ^ 64)%Z.

Record proxy_ok (p : s3FaultProxy) : Prop := {
  ok_failures : (0 <= px_totalFailures p)%Z /\ ((0 < pc_MaxFailures (px_cfg p))%Z -> (px_totalFailures p <= pc_MaxFailures (px_cfg p))%Z);
  ok_attempts : size (px_attempts p) <= S maxS3FaultProxyAttemptKeys;
  ok_observed : (0 <= px_observedSourceRangeGET p <= px_observedSourceGET p)%Z;
  ok_counters : Forall (map_Forall (fun _ => is_uint64))
    [px_requests p; px_bytesSent p; px_bytesReceived p; px_levelPuts p; px_levelPutBytes p];
  ok_labels : forall l, is_Some (px_levelPuts p !! l) \/ is_Some (px_levelPutBytes p !! l) -> In l levelLabels;
  ok_observe : pc_Mode (px_cfg p) = s3FaultProxyModeObserve ->
    (pc_FailFirstAttempts (px_cfg p) <= 0)%Z /\ px_totalFailures p = 0%Z /\ px_attempts p = ∅
}.

Lemma digit_label d : is_digit d = true -> In (String "L" (String d "")) levelLabels.
Proof.
  intros Hd. unfold is_digit, char_in in Hd. apply andb_true_iff in Hd as [H1%N.leb_le H2%N.leb_le].
  rewrite <- (ascii_N_embedding d). change (N_of_ascii "0") with 48%N in H1. change (N_of_ascii "9") with 57%N in H2.
  assert (N_of_ascii d = 48 \/ N_of_ascii d = 49 \/ N_of_ascii d = 50 \/ N_of_ascii d = 51 \/ N_of_ascii d = 52 \/ N_of_ascii d = 53 \/
          N_of_ascii d = 54 \/ N_of_ascii d = 55 \/ N_of_ascii d = 56 \/ N_of_ascii d = 57)%N as Hc by lia.
  repeat destruct Hc as [->|Hc]; try (vm_compute; tauto). rewrite Hc. vm_compute. tauto.
Qed.

(** A level label is one of eleven, whatever the key. *)
Lemma level_label key : In (ltxLevelOfKey key) levelLabels.
Proof.
  unfold ltxLevelOfKey. destruct (replicaLevelOfKey key) as [level|] eqn:E; [|by left].
  destruct (negb _); [by left|]. unfold replicaLevelOfKey in E. repeat case_match; try done. injection E as <-. simpl. by apply digit_label.
Qed.

Lemma addCounter_ok key n m : map_Forall (fun _ => is_uint64) m -> map_Forall (fun _ => is_uint64) (addCounter key n m).
Proof. intros Hm. apply map_Forall_insert_2; [|done]. unfold is_uint64. apply (wrap_uint_range 64). lia. Qed.

Lemma addCounter_dom key n (m : gmap string Z) l : is_Some (addCounter key n m !! l) -> l = key \/ is_Some (m !! l).
Proof. unfold addCounter. rewrite lookup_insert_is_Some. intros [->|[_ ?]]; auto. Qed.

Ltac counters := rewrite !Forall_cons; split_and!; try apply Forall_nil_2; try done; by apply addCounter_ok.

Lemma fault_ok key p : proxy_ok p -> proxy_ok (recordFault key p).2.
Proof.
  intros [[W1 W1'] W2 W3 W4 W5 W6]. unfold recordFault. destruct (Z.leb_spec (pc_FailFirstAttempts (px_cfg p)) 0); [done|].
  set (p1 := if _ <? _ then _ else p).
  assert (px_cfg p1 = px_cfg p /\ px_totalFailures p1 = px_totalFailures p /\ size (px_attempts p1) <= maxS3FaultProxyAttemptKeys /\
          proxy_ok p1) as (E1 & E2 & E3 & E4).
  { subst p1. destruct (Nat.ltb_spec maxS3FaultProxyAttemptKeys (size (px_attempts p))); [|done].
    split_and!; [done|done|simpl; rewrite map_size_empty; lia|]. split; simpl; try done; [rewrite map_size_empty; lia|].
    intros Ho. by destruct (W6 Ho) as (? & ? & _). }
  clearbody p1. rewrite E2. destruct (_ && _) eqn:Es; [done|]. destruct E4 as [_ V2 V3 V4 V5 V6].
  assert (forall v, size (<[key := v]> (px_attempts p1)) <= S maxS3FaultProxyAttemptKeys) as Hsz.
  { intros v. destruct (px_attempts p1 !! key) eqn:Ek; [rewrite map_size_insert_Some; [lia|by eexists]|rewrite map_size_insert_None; [lia|done]]. }
  destruct (pc_FailFirstAttempts (px_cfg p) <? _)%Z; simpl; split; simpl; rewrite ?E1, ?E2; try done; try (intros Ho; destruct (W6 Ho) as [? _]; lia).
  split; [lia|]. intros Hm. destruct (Z.ltb_spec 0 (pc_MaxFailures (px_cfg p))); [|lia]. cbn [andb] in Es.
  destruct (Z.leb_spec (pc_MaxFailures (px_cfg p)) (px_totalFailures p)); [done|lia].
Qed.

Lemma op_ok op p : proxy_ok p -> proxy_ok (execOp p op).
Proof.
  destruct op as [|rangeHeader|key|operation sent received|path objects bodyBytes|]; cbn [execOp]; intros W; [| |by apply fault_ok| | |].
  - destruct W. by split.
  - destruct W. unfold recordObservedSourceGET. destruct (isNonzeroRangeHeader _); split; simpl; try done; lia.
  - destruct W as [W1 W2 W3 W4 W5 W6]. repeat (apply Forall_cons in W4 as [? W4]). unfold recordRequest.
    destruct (0 <? sent)%Z, (0 <? received)%Z; split; simpl; try done; counters.
  - destruct W as [W1 W2 W3 W4 W5 W6]. repeat (apply Forall_cons in W4 as [? W4]). unfold addLevelPut.
    destruct (0 <? objects)%Z, (bodyBytes <=? 0)%Z; split; simpl; try done; try counters;
      intros l [Hl|Hl]; try (apply addCounter_dom in Hl as [->|Hl]; [apply level_label|]); apply W5; auto.
  - destruct W as [W1 W2 W3 W4 W5 W6]. split; simpl; try done; try lia; [rewrite map_size_empty; lia|]. intros Ho. by destruct (W6 Ho) as (? & ? & _).
Qed.

Lemma new_ok cfg : proxy_ok (newS3FaultProxy cfg).
Proof.
  split; simpl; try done; try lia; [rewrite map_size_empty; lia|rewrite !Forall_cons; split_and!; try apply Forall_nil_2; apply map_Forall_empty|by intros l [[]|[]]|].
  intros Ho. split; [|done]. revert Ho. unfold newS3FaultProxy. repeat case_match; simpl in *; try lia; intros Ho;
    match goal with E : (_ =s s3FaultProxyModeObserve) = false |- _ => apply eqs_false in E; by destruct E end.
Qed.

Lemma runOps_ok ops p : proxy_ok p -> proxy_ok (runOps ops p).
Proof. revert p. induction ops as [|op l IH]; intros p W; [done|]. by apply IH, op_ok. Qed.


(** The handlers are runs of critical sections. *)
Lemma fault_run key p : exists ops, (recordFault key p).2 = runOps ops p.
Proof. by exists [OFault key]. Qed.

Lemma run_trans ops ops' p : runOps ops' (runOps ops p) = runOps (ops ++ ops') p.
Proof. unfold runOps. by rewrite fold_left_app. Qed.

Lemma serve_run sha256 r p : exists ops, (ServeHTTP sha256 r p).2 = runOps ops p.
Proof.
  unfold ServeHTTP. destruct (rq_Method r =s "CONNECT"); [by exists []|].
  set (p1 := if isS3ListRequest r then _ else p).
  assert (exists ops, p1 = runOps ops p) as [ops1 ->] by (subst p1; case_match; [by exists [OList]|by exists []]).
  assert (forall q, (exists ops, q = runOps ops p) ->
    exists ops, (let '(inject, q) := shouldInjectProviderHTTP408 sha256 r q in
      if inject then (Inject408, q)
      else let '(inject, q) := shouldInjectProviderRequestCanceled sha256 r q in
        if inject then (InjectCanceled, q)
        else let '(drop, q) := shouldDropSourceGET r q in
          if drop then (DropResponse, q)
          else let '(reset, q) := shouldResetUploadPart r q in
            if reset then (ResetConnection, q)
            else if rq_IsAbs r then (ForwardAbsolute, q) else (Forward, q)).2 = runOps ops p) as H; [|by apply H; eexists].
  assert (forall key q, (exists ops, q = runOps ops p) -> exists ops, (recordFault key q).2 = runOps ops p) as Hf.
  { intros key q [ops ->]. destruct (fault_run key (runOps ops p)) as [ops' ->]. rewrite run_trans. by eexists. }
  intros q Hq.
  assert (exists ops, (shouldInjectProviderHTTP408 sha256 r q).2 = runOps ops p) as H1.
  { unfold shouldInjectProviderHTTP408. case_match; [destruct Hq as [ops ->]; by eexists|by apply Hf]. }
  destruct (shouldInjectProviderHTTP408 sha256 r q) as [[] q1]; [done|]. simpl in H1. clear q Hq.
  assert (exists ops, (shouldInjectProviderRequestCanceled sha256 r q1).2 = runOps ops p) as H2.
  { unfold shouldInjectProviderRequestCanceled. case_match; [destruct H1 as [ops ->]; by eexists|by apply Hf]. }
  destruct (shouldInjectProviderRequestCanceled sha256 r q1) as [[] q2]; [done|]. simpl in H2. clear q1 H1.
  assert (exists ops, (shouldDropSourceGET r q2).2 = runOps ops p) as H3.
  { unfold shouldDropSourceGET. case_match; [destruct H2 as [ops ->]; by eexists|]. case_match; [destruct H2 as [ops ->]; by eexists|].
    apply Hf. destruct H2 as [ops ->]. exists (ops ++ [OObserved (rq_Range r)]). by rewrite <- run_trans. }
  destruct (shouldDropSourceGET r q2) as [[] q3]; [done|]. simpl in H3. clear q2 H2.
  assert (exists ops, (shouldResetUploadPart r q3).2 = runOps ops p) as H4.
  { unfold shouldResetUploadPart. repeat (case_match; [destruct H3 as [ops ->]; by eexists|]). by apply Hf. }
  destruct (shouldResetUploadPart r q3) as [[] q4]; [done|]. by destruct (rq_IsAbs r).
Qed.

Lemma tunnel_run host copied p : exists ops, (copyTunnel host copied p).2 = runOps ops p.
Proof. unfold copyTunnel. repeat (case_match; [by exists []|]). apply fault_run. Qed.

Lemma finish_run r sent aborted c p : exists ops, finishObserved r sent aborted c p = runOps ops p.
Proof.
  unfold finishObserved. set (q := recordRequest _ _ _ p).
  assert (q = runOps [ORequest (s3RequestOperation r) sent (cw_n c)] p) as E by done. destruct aborted; [by eexists|].
  rewrite E. clear q E. unfold recordUpload. repeat case_match; try (by eexists);
    match goal with |- context [addLevelPut _ ?o ?b _] =>
      exists [ORequest (s3RequestOperation r) sent (cw_n c); OLevel (rq_Path r) o b]; reflexivity end.
Qed.



(** * What the meter counts *)

Record finishedRequest := mkFinished { fi_request : httpRequest; fi_sent : Z; fi_aborted : bool; fi_response : countingResponseWriter }.
Definition finishAll (l : list finishedRequest) (p : s3FaultProxy) : s3FaultProxy :=
  fold_left (fun p f => finishObserved (fi_request f) (fi_sent f) (fi_aborted f) (fi_response f) p) l p.

(** A request that was answered with success and belongs to the level. *)
Definition uploadedTo (level : string) (f : finishedRequest) : bool :=
  negb (fi_aborted f) && (200 <=? cw_statusCode (fi_response f))%Z && (cw_statusCode (fi_response f) <=? 299)%Z &&
  (ltxLevelOfKey (rq_Path (fi_request f)) =s level).
(** It stored an object: a whole upload, or a completed multipart one. *)
Definition storedObject (level : string) (f : finishedRequest) : bool :=
  uploadedTo level f &&
  ((rq_Method (fi_request f) =s "PUT") && (Get (rq_Query (fi_request f)) "uploadId" =s "") ||
   isS3MultipartCompletion (fi_request f) && completionSucceeded (fi_response f)).
Definition storedBytes (level : string) (f : finishedRequest) : Z :=
  if uploadedTo level f && (rq_Method (fi_request f) =s "PUT") then Z.max 0 (fi_sent f) else 0%Z.

Definition tally (g : finishedRequest -> Z) (l : list finishedRequest) : Z := fold_right (fun f n => (g f + n)%Z) 0%Z l.
Definition count (g : finishedRequest -> bool) : list finishedRequest -> Z := tally (fun f => if g f then 1 else 0)%Z.

Lemma tally_snoc g l f : tally g (l ++ [f]) = (tally g l + g f)%Z.
Proof. unfold tally. rewrite fold_right_app. simpl. induction l; simpl; lia. Qed.

Lemma uint64_add a n : uint64 (uint64 a + n) = uint64 (a + n).
Proof. unfold uint64, wrap_uint. apply Zplus_mod_idemp_l. Qed.

Lemma uint64_idem a : uint64 (uint64 a) = uint64 a.
Proof. unfold uint64, wrap_uint. apply Zmod_mod. Qed.

Lemma addCounter_get key n m k : default 0%Z (addCounter key n m !! k) =
  if key =s k then uint64 (default 0%Z (m !! k) + n) else default 0%Z (m !! k).
Proof.
  unfold addCounter. destruct (eqs_spec key k) as [->|Hne]; [by rewrite lookup_insert_eq|by rewrite lookup_insert_ne].
Qed.

Lemma finish_counts r sent aborted c p level :
  let f := mkFinished r sent aborted c in
  let p' := finishObserved r sent aborted c p in
  uint64 (default 0%Z (px_levelPuts p' !! level)) = uint64 (default 0%Z (px_levelPuts p !! level) + if storedObject level f then 1 else 0) /\
  uint64 (default 0%Z (px_levelPutBytes p' !! level)) = uint64 (default 0%Z (px_levelPutBytes p !! level) + storedBytes level f) /\
  uint64 (default 0%Z (px_requests p' !! level)) = uint64 (default 0%Z (px_requests p !! level) + if s3RequestOperation r =s level then 1 else 0).
Proof.
  cbv zeta. unfold finishObserved. set (q := recordRequest _ _ _ p).
  assert (px_levelPuts q = px_levelPuts p /\ px_levelPutBytes q = px_levelPutBytes p /\ px_requests q = addCounter (s3RequestOperation r) 1 (px_requests p))
    as (E1 & E2 & E3) by (subst q; unfold recordRequest; repeat case_match; done).
  clearbody q. unfold storedObject, storedBytes, uploadedTo. simpl.
  assert (uint64 (default 0%Z (px_requests q !! level)) = uint64 (default 0%Z (px_requests p !! level) + (if s3RequestOperation r =s level then 1 else 0))) as ER.
  { rewrite E3, addCounter_get. destruct (_ =s level); [by rewrite uint64_idem|by rewrite Z.add_0_r]. }
  destruct aborted; simpl; [rewrite E1, E2, !Z.add_0_r; done|]. unfold recordUpload.
  destruct (Z.ltb_spec (cw_statusCode c) 200), (Z.ltb_spec 299 (cw_statusCode c)), (Z.leb_spec 200 (cw_statusCode c)),
    (Z.leb_spec (cw_statusCode c) 299); simpl; try lia; try (rewrite E1, E2, !Z.add_0_r; done).
  assert (isS3MultipartCompletion r = true -> (rq_Method r =s "PUT") = false) as Hpost.
  { unfold isS3MultipartCompletion. intros [->%eqs_true _]%andb_true_iff. done. }
  destruct (rq_Method r =s "PUT") eqn:Em; simpl.
  - assert (isS3MultipartCompletion r = false) as -> by (destruct (isS3MultipartCompletion r); [by specialize (Hpost eq_refl)|done]).
    destruct (Get (rq_Query r) "uploadId" =s ""); simpl; unfold addLevelPut; simpl; destruct (Z.leb_spec sent 0); simpl;
      rewrite ?E1, ?E2, ?addCounter_get; destruct (ltxLevelOfKey (rq_Path r) =s level); simpl;
      rewrite ?Z.add_0_r, ?uint64_idem; split_and!; try done; f_equal; lia.
  - destruct (isS3MultipartCompletion r), (completionSucceeded c); simpl; unfold addLevelPut; simpl;
      rewrite ?E1, ?E2, ?addCounter_get, ?andb_false_r; destruct (ltxLevelOfKey (rq_Path r) =s level); simpl;
      rewrite ?Z.add_0_r, ?uint64_idem; done.
Qed.

(** The meter is exact up to 64 bits: after any sequence of finished requests
    a level's object counter is the number of requests that stored an object
    there, its byte counter the bytes of the successful uploads, parts included,
    and an operation's counter the number of its requests, aborted ones
    included. *)
Theorem meter_is_exact (cfg : s3FaultProxyConfig) (l : list finishedRequest) (label : string) :
  let p := finishAll l (newS3FaultProxy cfg) in
  default 0%Z (px_levelPuts p !! label) = uint64 (count (storedObject label) l) /\
  default 0%Z (px_levelPutBytes p !! label) = uint64 (tally (storedBytes label) l) /\
  default 0%Z (px_requests p !! label) = uint64 (count (fun f => s3RequestOperation (fi_request f) =s label) l).
Proof.
  intros p.
  assert (proxy_ok p) as [_ _ _ W _ _].
  { subst p. generalize (new_ok cfg). generalize (newS3FaultProxy cfg). induction l as [|f l IH]; intros q Hq; [done|].
    unfold finishAll. rewrite fold_left_cons. apply IH. destruct (finish_run (fi_request f) (fi_sent f) (fi_aborted f) (fi_response f) q) as [ops ->].
    by apply runOps_ok. }
  assert (forall m : gmap string Z, map_Forall (fun _ => is_uint64) m -> forall n, uint64 (default 0%Z (m !! label)) = uint64 n ->
    default 0%Z (m !! label) = uint64 n) as Hsmall.
  { intros m Hm n <-. symmetry. apply uint64_small. destruct (m !! label) as [v|] eqn:Ev; simpl; [|unfold max_uint64; lia].
    specialize (Hm _ _ Ev). unfold is_uint64, max_uint64 in *. lia. }
  repeat (apply Forall_cons in W as [? W]).
  enough (uint64 (default 0%Z (px_levelPuts p !! label)) = uint64 (count (storedObject label) l) /\
    uint64 (default 0%Z (px_levelPutBytes p !! label)) = uint64 (tally (storedBytes label) l) /\
    uint64 (default 0%Z (px_requests p !! label)) = uint64 (count (fun f => s3RequestOperation (fi_request f) =s label) l)) as (E1 & E2 & E3)
    by (split_and!; by apply Hsmall).
  subst p. clear. induction l as [|f l IH] using rev_ind; [done|].
  unfold finishAll in *. rewrite fold_left_app. cbn [fold_left]. set (q := fold_left _ l _) in *. clearbody q.
  destruct IH as (I1 & I2 & I3). destruct f as [r sent aborted c]. cbn [fi_request fi_sent fi_aborted fi_response].
  destruct (finish_counts r sent aborted c q label) as (F1 & F2 & F3).
  unfold count in *. rewrite F1, F2, F3, !tally_snoc.
  rewrite <- (uint64_add (default 0%Z (px_levelPuts q !! label))), <- (uint64_add (default 0%Z (px_levelPutBytes q !! label))),
    <- (uint64_add (default 0%Z (px_requests q !! label))), I1, I2, I3, !uint64_add. done.
Qed.

(** * Examples *)

Definition sample_cfg : s3FaultProxyConfig :=
  mkProxyConfig "fly.storage.tigris.dev" "" "provider-http-408" 0 0 2 3 "" "id" "key" "" "auto".

(** The first two attempts of a key fail, and three failures are the budget. *)
Lemma fault_schedule_is_reference_witness :
  (runFaults ["a"; "a"; "a"; "b"; "b"; "c"] (ResetCycle (newS3FaultProxy sample_cfg))).1 = [true; true; false; true; false; false] /\
  (runFaults ["a"; "a"; "a"; "b"; "b"; "c"] (ResetCycle (newS3FaultProxy sample_cfg))).1 =
    faultSchedule (px_cfg (newS3FaultProxy sample_cfg)) [] 0 ["a"; "a"; "a"; "b"; "b"; "c"].
Proof. split; [vm_compute; reflexivity|]. apply fault_schedule_is_reference. apply Nat.leb_le. vm_compute. reflexivity. Defined.

(** A completion cut inside its closing tag, after an interim status. *)
Definition sample_response : list responseEvent :=
  [EHeader 100 ""; EHeader 200 "";
   EWrite (String.list_ascii_of_string "  <CompleteMultipartUploadResult><Key>k</Key></CompleteMultip") 61 "";
   EWrite (String.list_ascii_of_string "artUploadResult>") 16 ""].
Lemma completion_scan_is_reference_witness :
  completionSucceeded (respond true sample_response) = true /\ completionBody (bodyOf sample_response) = true.
Proof.
  split; [|vm_compute; reflexivity]. rewrite (completion_scan_is_reference true sample_response); [vm_compute; reflexivity|].
  repeat (apply List.Forall_cons; [simpl; first [lia | exact I]|]). apply List.Forall_nil.
Defined.
