(* ===== verification/WorkerErrors.v ===== *)
(** Errors of the worker's checks.

    A Go error is its text and what [errors.Is] and [errors.As] find when they
    unwrap it: the sentinel errors of [worker/walreset_check.go], the error types
    of [worker/restore_mode.go], [logical.go], [verifier_deadlines.go] and
    [verification_boundary.go], a lock reported by SQLite and the two errors of a
    context. *)
From S2P Require Import Prelude GoStrings.

(** What [errors.Is] and [errors.As] find in an error. *)
Inductive errMark :=
| errWALResetShapeNotReached
| errWALResetLitestreamRestart
| errWALResetCatchUpTimeout
| errWALResetUnavailable
| errWALResetSnapshotInterference
| errWALResetGateBusy
| errWALResetMissingPlan
| errWALResetLatestAdvanced
| verifierDeadlineError
| contextDeadlineExceeded
| contextCanceled
| restoreCapacityInconclusiveError
| restoredComparisonLockedError
| restoreEvidenceInconclusiveError
| unreplicatedBoundaryError
| sqliteLockError.
#[export] Instance errMark_eq_dec : EqDecision errMark.
Proof. solve_decision. Defined.

Record goError := mkErr { ge_marks : list errMark; ge_text : string }.
Definition errorsIs (e : goError) (m : errMark) : bool := bool_decide (m ∈ ge_marks e).

Definition markText (m : errMark) : string :=
  match m with
  | errWALResetShapeNotReached => "wal reset shape not reached"
  | errWALResetLitestreamRestart => "wal reset litestream restart failed"
  | errWALResetCatchUpTimeout => "wal reset catch-up timeout"
  | errWALResetUnavailable => "wal reset check unavailable"
  | errWALResetSnapshotInterference => "wal reset snapshot interference"
  | errWALResetGateBusy => "verification held the check gate"
  | errWALResetMissingPlan => "latest restore reported no plan txid"
  | errWALResetLatestAdvanced => "latest advanced past the synced boundary"
  | contextDeadlineExceeded => "context deadline exceeded"
  | contextCanceled => "context canceled"
  | _ => ""
  end.
(** [fmt.Errorf("%w: ...", mark)]. *)
Definition wrapped (m : errMark) (detail : string) : goError := mkErr [m] (markText m +:+ ": " +:+ detail).

(** The end of a text, for the output kept with a step ([worker/verifier.go]). *)
Definition tailString (value : string) (limit : nat) : string :=
  if String.length value <=? limit then value else str_drop (String.length value - limit) value.
