(* ===== verification/RestoreOutput.v ===== *)
(** What the verifier keeps of a restore's output: [worker/restore_evidence.go],
    with [restoreRequestMethod] of [object_store_meter.go], [redactLogIncident]
    of [log_incidents.go] and [parseRestorePlanTXID] of [restore_mode.go].

    The restore command writes to a pipe, and the pipe hands its output over in
    pieces of any size: [Write] is called once per piece.  Lines that fit are
    redacted and kept at the head and at the tail of the evidence; the replans are
    counted across the borders of the pieces. *)
From Stdlib Require Import Ascii.
From S2P Require Import Prelude GoStrings Regex Model LtxCoverage Classification.

(** * Strings *)

Definition newlineStr : string := String newline "".
Definition quoteStr : string := String "034" "".

Definition upper_char (c : ascii) : ascii :=
  if is_lower c then ascii_of_N (N_of_ascii c - 32) else c.
Definition ToUpper (s : string) : string := str_map upper_char s.

(** [strings.Cut] on a text: what precedes and follows its first occurrence. *)
Fixpoint CutText (s sep : string) : string * string * bool :=
  if HasPrefix s sep then ("", str_drop (String.length sep) s, true)
  else match s with
       | EmptyString => ("", "", false)
       | String c t => let '(before, after, ok) := CutText t sep in (String c before, after, ok)
       end.

(** [strings.Count] of a text that is not empty: occurrences that do not overlap;
    [skip] characters belong to the last one. *)
Fixpoint countFrom (skip : nat) (s sub : string) : nat :=
  match s with
  | EmptyString => 0
  | String _ t =>
      match skip with
      | S skip => countFrom skip t sub
      | O => if HasPrefix s sub then S (countFrom (String.length sub - 1) t sub) else countFrom 0 t sub
      end
  end.
Definition Count (s sub : string) : nat := countFrom 0 s sub.

(** The last [n] characters. *)
Definition str_last (n : nat) (s : string) : string := str_drop (String.length s - n) s.

(** * Redaction *)

Definition re_any_of (l : list string) : re := RAny (map RLitI l).
Definition logCredential : re :=
  RSeq (RCap 1 (re_any_of ["password"; "secret"; "token"; "authorization"; "access_key_id"; "secret_access_key"; "aws_session_token"]))
    (RSeq (RCap 2 (RSeq (ROpt (RLit quoteStr)) (RSeq re_spaces (RSeq (RChar (fun c => str_mem c "=:")) re_spaces))))
      (RAlt (RSeq (RLit quoteStr) (RSeq (RStar (RChar (not_in quoteStr))) (RLit quoteStr)))
            (RPlus (RChar (fun c => not_space c && not_in "&" c))))).
Definition logURLCredential : re :=
  RSeq (RCap 1 (RSeq (RLit "http") (RSeq (ROpt (RLit "s")) (RLit "://"))))
    (RSeq (RPlus (RChar (fun c => not_in "/@" c && not_space c))) (RLit "@")).
Definition logSignedCredential : re :=
  RSeq (RCap 1 (RSeq (RLitI "X-Amz-") (RSeq (re_any_of ["Credential"; "Signature"; "Security-Token"]) (RLit "="))))
    (RPlus (RChar (fun c => not_in "&" c && not_space c && not_in quoteStr c))).

Definition groupText (i : nat) (caps : list (nat * string)) : string := default "" (group i caps).
Definition redactLogIncident (line : string) : string :=
  let line := remove_char "000" line in
  let line := ReplaceAllString logCredential (fun g => groupText 1 g +:+ groupText 2 g +:+ "[REDACTED]") line in
  let line := ReplaceAllString logURLCredential (fun g => groupText 1 g +:+ "[REDACTED]@") line in
  ReplaceAllString logSignedCredential (fun g => groupText 1 g +:+ "[REDACTED]") line.

(** * Evidence in a line *)

Definition restoreRequestMessage : string := "msg=" +:+ quoteStr +:+ "s3 request" +:+ quoteStr.
Definition restoreRequestMethod (line : string) : option string :=
  if negb (Contains line restoreRequestMessage) then None
  else
    let '(_, rest, ok) := CutText line " s3.method=" in
    if negb ok then None
    else
      let '(method, _, _) := CutText rest " " in
      let method := ToUpper (Trim (TrimSpace method) quoteStr) in
      if method =s "" then None
      else if (method =s "GET") && Contains line "list-type=" then Some "LIST"
      else Some method.

Definition is_hex_lower (c : ascii) : bool := is_digit c || char_in "a" "f" c.
Definition restorePlanTXIDPattern : re :=
  RSeq (RLit "restore plan") (RSeq (ROpt (RLit quoteStr)) (RSeq (RChar (fun c => str_mem c " ,"))
    (RSeq (RLazy (RChar (fun c => negb (Ascii.eqb c newline))))
      (RSeq RWordB (RSeq (RLit "txid") (RSeq (ROpt (RLit quoteStr)) (RSeq (RChar (fun c => str_mem c "=:"))
        (RSeq (ROpt (RLit quoteStr)) (RSeq (RCap 1 (RRep 16 (RChar is_hex_lower))) RWordB))))))))).
Definition parseRestorePlanTXID (line : string) : option Z :=
  match FindSubmatch restorePlanTXIDPattern line with
  | None => None
  | Some caps => parse_hex 0 (groupText 1 caps)
  end.

(** * The writer *)

Definition restoreReplanMessage := "restore file disappeared, recalculating plan".
Definition restoreEvidenceLimit : nat := 8 * 1024.
Definition restoreOutputTruncated : string := "[restore output truncated]" +:+ newlineStr.
Definition syncDiagnosticOutputLimit : Z := (64 * 1024)%Z.
Definition evidenceHalf : Z := ((Z.of_nat restoreEvidenceLimit - str_len restoreOutputTruncated) / 2)%Z.

Record restoreOutput := mkOutput {
  ro_pending : string;
  ro_output : string;
  ro_head : string;
  ro_headComplete : bool;
  ro_finalError : string;
  ro_matchTail : string;
  ro_replans : nat;
  ro_requests : gmap string Z;
  ro_planTXID : Z;
  ro_truncated : bool;
  ro_dropping : bool
}.
#[export] Instance restoreOutput_eta : Settable restoreOutput :=
  fun r => mkOutput (ro_pending r) (ro_output r) (ro_head r) (ro_headComplete r) (ro_finalError r) (ro_matchTail r) (ro_replans r)
    (ro_requests r) (ro_planTXID r) (ro_truncated r) (ro_dropping r).
Definition restoreOutput_zero : restoreOutput := mkOutput "" "" "" false "" "" 0 ∅ 0 false false.

(** What follows the first newline, nothing when there is none. *)
Fixpoint afterLine (s : string) : string :=
  match s with EmptyString => "" | String c t => if Ascii.eqb c newline then t else afterLine t end.

(** The oldest lines of the tail make room for [n] characters; the flag says
    whether any went.  One round per character of the tail is enough. *)
Fixpoint makeRoom (fuel : nat) (n : Z) (output : string) (truncated : bool) : string * bool :=
  match fuel with
  | O => (output, truncated)
  | S fuel => if (evidenceHalf <? str_len output + n)%Z then makeRoom fuel n (afterLine output) true else (output, truncated)
  end.

(** What [flushLine] does with a line: it counts a request, notes the restore
    plan, keeps the error output, and keeps the redacted line at the head of the
    evidence or at its tail. *)
Definition noteRequest (raw : string) (b : restoreOutput) : restoreOutput :=
  match restoreRequestMethod raw with
  | Some method => b <| ro_requests ::= fun m => <[method := uint64 (default 0%Z (m !! method) + 1)]> m |>
  | None => b
  end.
Definition notePlan (raw : string) (b : restoreOutput) : restoreOutput :=
  match parseRestorePlanTXID raw with Some txid => b <| ro_planTXID := txid |> | None => b end.
Definition noteError (line : string) (b : restoreOutput) : restoreOutput :=
  let final := RestoreErrorOutput line in
  if negb (final =s "")
  then if (str_len (ro_finalError b) + str_len line + 1 <=? syncDiagnosticOutputLimit)%Z
       then b <| ro_finalError := RestoreErrorOutput (ro_finalError b +:+ newlineStr +:+ line) |>
       else b <| ro_finalError := final |>
  else b.
Definition keepLine (line : string) (b : restoreOutput) : restoreOutput :=
  if negb (ro_headComplete b) && (str_len (ro_head b) + str_len line <=? evidenceHalf)%Z
  then b <| ro_head ::= fun h => h +:+ line |>
  else
    let b := b <| ro_headComplete := true |> in
    if (evidenceHalf <? str_len line)%Z then b <| ro_truncated := true |>
    else
      let '(output, truncated) := makeRoom (S (String.length (ro_output b))) (str_len line) (ro_output b) (ro_truncated b) in
      b <| ro_output := output +:+ line |> <| ro_truncated := truncated |>.

Definition flushLine (b : restoreOutput) : restoreOutput :=
  if ro_pending b =s "" then b
  else
    let raw := ro_pending b in
    let line := redactLogIncident raw in
    keepLine line (noteError line ((notePlan raw (noteRequest raw b)) <| ro_pending := "" |>)).

(** The pieces the loop of [Write] cuts its argument into, with whether they end a
    line. *)
Fixpoint pieces (p : string) : list (string * bool) :=
  match p with
  | EmptyString => []
  | String c t =>
      if Ascii.eqb c newline then (newlineStr, true) :: pieces t
      else match pieces t with
           | [] => [(String c "", false)]
           | (s, ended) :: rest => (String c s, ended) :: rest
           end
  end.

Definition writePiece (b : restoreOutput) (piece : string * bool) : restoreOutput :=
  let '(s, ended) := piece in
  let b := if ro_dropping b then b
           else if (syncDiagnosticOutputLimit <? str_len (ro_pending b) + str_len s)%Z
           then b <| ro_pending := "" |> <| ro_dropping := true |> <| ro_truncated := true |>
           else b <| ro_pending ::= fun pending => pending +:+ s |> in
  if ended then (flushLine b) <| ro_dropping := false |> else b.

Definition Write (b : restoreOutput) (p : string) : restoreOutput :=
  let text := ro_matchTail b +:+ p in
  let b := b <| ro_replans ::= Nat.add (Count text restoreReplanMessage) |>
             <| ro_matchTail := str_last (String.length restoreReplanMessage - 1) text |> in
  fold_left writePiece (pieces p) b.

(** [text] flushes the last line; the state it leaves and the evidence. *)
Definition outputText (b : restoreOutput) : string * restoreOutput :=
  let b := flushLine b in
  (if ro_truncated b then ro_head b +:+ restoreOutputTruncated +:+ ro_output b else ro_head b +:+ ro_output b, b).

(** The output of a command written in the given pieces. *)
Definition written (chunks : list string) : restoreOutput := fold_left Write chunks restoreOutput_zero.

Definition nl := newlineStr.
Example written_example :
  let b := snd (outputText (written ["level=INFO restore plan txid=00000000000"; "0001f tail" +:+ nl +:+ "restore file disap";
             "peared, recalculating plan" +:+ nl +:+ "time=1 msg=" +:+ quoteStr +:+ "s3 request" +:+ quoteStr +:+ " s3.method=get url=x?list-type=2" +:+ nl
             +:+ "error: secret=abc lost"])) in
  (ro_planTXID b, ro_replans b, map_to_list (ro_requests b), ro_finalError b) =
  (31%Z, 1, [("LIST", 1%Z)], "error: secret=[REDACTED] lost").
Proof. vm_compute. reflexivity. Qed.

(** * Counting across pieces *)

(** The positions at which a text starts. *)
Fixpoint hits (s sub : string) : nat :=
  match s with EmptyString => 0 | String _ t => (if HasPrefix s sub then 1 else 0) + hits t sub end.

(** No proper suffix of the text is one of its prefixes. *)
Definition borderless (sub : string) : bool :=
  forallb (fun k => negb (HasPrefix sub (str_drop k sub))) (seq 1 (String.length sub - 1)).

Lemma str_drop_app n a b : n <= String.length a -> str_drop n (a +:+ b) = str_drop n a +:+ b.
Proof. revert a. induction n as [|n IH]; intros [|c a] H; simpl in *; try done; try lia. apply IH. lia. Qed.
Lemma str_drop_add n m s : str_drop n (str_drop m s) = str_drop (m + n) s.
Proof. revert s. induction m as [|m IH]; intros [|c s]; simpl; auto. by destruct n. Qed.
Lemma str_drop_0 s : str_drop 0 s = s.
Proof. by destruct s. Qed.

Lemma HasPrefix_long s t sub : String.length sub <= String.length s -> HasPrefix (s +:+ t) sub = HasPrefix s sub.
Proof.
  revert s. unfold HasPrefix. induction sub as [|c sub IH]; intros [|d s] H; simpl in *; try done; try lia; [by destruct t|].
  destruct (ascii_dec c d); [apply IH; lia|done].
Qed.
Lemma HasPrefix_short s sub : String.length s < String.length sub -> HasPrefix s sub = false.
Proof.
  revert s. unfold HasPrefix. induction sub as [|c sub IH]; intros [|d s] H; simpl in *; try done; try lia.
  destruct (ascii_dec c d); [apply IH; lia|done].
Qed.
Lemma HasPrefix_refl s : HasPrefix s s = true.
Proof. rewrite <- (append_nil_r s) at 1. apply HasPrefix_app. Qed.
(** Two prefixes of one text are prefixes of each other. *)
Lemma prefixes_nest s p q : HasPrefix s p = true -> HasPrefix s q = true -> String.length q <= String.length p -> HasPrefix p q = true.
Proof. rewrite (HasPrefix_spec s p). intros [t ->] Hq Hl. by rewrite HasPrefix_long in Hq. Qed.

Lemma borderless_apart sub s k :
  borderless sub = true -> HasPrefix s sub = true -> 0 < k < String.length sub -> HasPrefix (str_drop k s) sub = false.
Proof.
  intros Hb [t ->]%HasPrefix_spec Hk. rewrite str_drop_app by lia. apply not_true_is_false. intros Hp.
  unfold borderless in Hb. rewrite forallb_forall in Hb. specialize (Hb k ltac:(apply in_seq; lia)).
  apply negb_true_iff in Hb. rewrite <- not_true_iff_false in Hb. apply Hb.
  apply (prefixes_nest (str_drop k sub +:+ t)); [done|apply HasPrefix_app|rewrite str_drop_length; lia].
Qed.

Lemma countFrom_hits sub s skip :
  borderless sub = true -> (forall k, k < skip -> HasPrefix (str_drop k s) sub = false) -> countFrom skip s sub = hits s sub.
Proof.
  intros Hb. revert skip. induction s as [|c s IH]; intros skip Hk; [done|]. cbn [countFrom hits]. destruct skip as [|skip].
  - destruct (HasPrefix (String c s) sub) eqn:Hp; simpl; [f_equal|]; apply IH; [|lia].
    intros k Hlt. change (HasPrefix (str_drop (S k) (String c s)) sub = false). apply borderless_apart; [done|done|lia].
  - pose proof (Hk 0 ltac:(lia)) as H0. rewrite str_drop_0 in H0. rewrite H0. apply IH. intros k Hlt. apply (Hk (S k)). lia.
Qed.

Lemma hits_short s sub : String.length s < String.length sub -> hits s sub = 0.
Proof.
  induction s as [|c s IH]; intros H; [done|]. cbn [hits]. rewrite HasPrefix_short by done. apply IH. simpl in H. lia.
Qed.

Lemma str_last_short n s : String.length s <= n -> str_last n s = s.
Proof. intros H. unfold str_last. replace (String.length s - n) with 0 by lia. apply str_drop_0. Qed.
Lemma str_last_cons n c s : n <= String.length s -> str_last n (String c s) = str_last n s.
Proof. intros H. unfold str_last. cbn [String.length]. by replace (S (String.length s) - n) with (S (String.length s - n)) by lia. Qed.
Lemma str_last_last n a b : str_last n (str_last n a +:+ b) = str_last n (a +:+ b).
Proof.
  unfold str_last. set (k := String.length a - n). replace (str_drop k a +:+ b) with (str_drop k (a +:+ b)) by (apply str_drop_app; lia).
  rewrite str_drop_add. f_equal. rewrite str_drop_length, length_append. lia.
Qed.

(** The window of one character less than the text sees every occurrence that ends
    later, and none that was seen. *)
Lemma hits_window sub a b :
  0 < String.length sub -> hits (a +:+ b) sub = hits a sub + hits (str_last (String.length sub - 1) a +:+ b) sub.
Proof.
  intros Hs. induction a as [|c a IH]; [done|]. rewrite append_cons. destruct (decide (String.length a < String.length sub - 1)) as [Ha|Ha].
  - rewrite str_last_short, (hits_short (String c a)) by (simpl; lia). done.
  - rewrite str_last_cons by lia. cbn [hits]. rewrite IH. rewrite <- append_cons, HasPrefix_long by (simpl; lia). lia.
Qed.

(** * The loop of [Write] character by character *)

Definition withCount (n : nat) (t : string) (b : restoreOutput) : restoreOutput := b <| ro_replans := n |> <| ro_matchTail := t |>.

Lemma keepLine_count n t line b : keepLine line (withCount n t b) = withCount n t (keepLine line b).
Proof.
  unfold keepLine. change (ro_headComplete (withCount n t b)) with (ro_headComplete b). change (ro_head (withCount n t b)) with (ro_head b).
  destruct (_ && _); [done|]. cbv zeta. destruct (_ <? _)%Z; [done|].
  change (ro_output (withCount n t b <| ro_headComplete := true |>)) with (ro_output (b <| ro_headComplete := true |>)).
  change (ro_truncated (withCount n t b <| ro_headComplete := true |>)) with (ro_truncated (b <| ro_headComplete := true |>)).
  by destruct (makeRoom _ _ _ _).
Qed.
Lemma flushLine_count n t b : flushLine (withCount n t b) = withCount n t (flushLine b).
Proof.
  unfold flushLine. change (ro_pending (withCount n t b)) with (ro_pending b). destruct (_ =s _); [done|].
  rewrite <- keepLine_count. f_equal. unfold noteError, notePlan, noteRequest. generalize (redactLogIncident (ro_pending b)). intros line.
  destruct (restoreRequestMethod _), (parseRestorePlanTXID _), (RestoreErrorOutput line =s ""); try reflexivity;
    simpl; by destruct (_ <=? _)%Z.
Qed.

Lemma writePiece_count n t b piece : writePiece (withCount n t b) piece = withCount n t (writePiece b piece).
Proof.
  destruct piece as [s ended]. unfold writePiece.
  assert (forall c, (flushLine (withCount n t c)) <| ro_dropping := false |> = withCount n t ((flushLine c) <| ro_dropping := false |>)) as Hf
    by (intros c; by rewrite flushLine_count).
  change (ro_dropping (withCount n t b)) with (ro_dropping b). change (ro_pending (withCount n t b)) with (ro_pending b).
  destruct (ro_dropping b); [by destruct ended; [apply Hf|]|].
  destruct (_ <? _)%Z; destruct ended; try done; by rewrite <- Hf.
Qed.

Lemma writePieces_count n t ps b : fold_left writePiece ps (withCount n t b) = withCount n t (fold_left writePiece ps b).
Proof. revert b. induction ps as [|p ps IH]; intros b; [done|]. rewrite !fold_left_cons, writePiece_count. apply IH. Qed.

Lemma str_len_append a b : str_len (a +:+ b) = (str_len a + str_len b)%Z.
Proof. unfold str_len. rewrite length_append. lia. Qed.

(** A piece cut in two is written like the whole piece. *)
Lemma writePiece_split b u v ended : writePiece b (u +:+ v, ended) = writePiece (writePiece b (u, false)) (v, ended).
Proof.
  unfold writePiece. destruct (ro_dropping b) eqn:Hd; [by rewrite Hd|]. rewrite str_len_append.
  pose proof (Nat2Z.is_nonneg (String.length v)) as Hv. fold (str_len v) in Hv.
  destruct (Z.ltb_spec syncDiagnosticOutputLimit (str_len (ro_pending b) + str_len u)) as [Hu|Hu].
  - replace (_ <? _)%Z with true by (symmetry; apply Z.ltb_lt; lia). by cbn [ro_dropping].
  - set (b' := b <| ro_pending ::= fun pending => pending +:+ u |>). change (ro_dropping b') with (ro_dropping b). rewrite Hd.
    change (ro_pending b') with (ro_pending b +:+ u). rewrite str_len_append, Z.add_assoc.
    assert (b' <| ro_pending ::= fun pending => pending +:+ v |> = b <| ro_pending ::= fun pending => pending +:+ (u +:+ v) |>) as ->.
    { change (b <| ro_pending := (ro_pending b +:+ u) +:+ v |> = b <| ro_pending := ro_pending b +:+ (u +:+ v) |>). by rewrite append_assoc. }
    by destruct (_ <? _)%Z.
Qed.

Definition writeChar (b : restoreOutput) (c : ascii) : restoreOutput := writePiece b (String c "", Ascii.eqb c newline).

Lemma pieces_chars p b : fold_left writePiece (pieces p) b = fold_left writeChar (String.list_ascii_of_string p) b.
Proof.
  revert b. induction p as [|c t IH]; intros b; [done|]. cbn [pieces String.list_ascii_of_string].
  rewrite (fold_left_cons writeChar). unfold writeChar at 2. destruct (Ascii.eqb_spec c newline) as [->|Hc].
  - rewrite fold_left_cons. apply IH.
  - rewrite <- IH. destruct (pieces t) as [|[s ended] rest]; [done|]. rewrite !fold_left_cons.
    by rewrite <- (writePiece_split b (String c "") s ended).
Qed.

Lemma list_ascii_append a b : String.list_ascii_of_string (a +:+ b) = String.list_ascii_of_string a ++ String.list_ascii_of_string b.
Proof. induction a as [|c a IH]; [done|]. simpl. f_equal. exact IH. Qed.

(** The state after a text, in whatever pieces it came. *)
Definition afterText (text : string) : restoreOutput :=
  withCount (hits text restoreReplanMessage) (str_last (String.length restoreReplanMessage - 1) text)
    (fold_left writePiece (pieces text) restoreOutput_zero).

Lemma Write_step text p : Write (afterText text) p = afterText (text +:+ p).
Proof.
  unfold Write, afterText, Count. cbn [ro_matchTail ro_replans withCount set_field]. set (m := String.length restoreReplanMessage - 1).
  set (b := fold_left writePiece (pieces text) restoreOutput_zero).
  rewrite (countFrom_hits _ _ 0) by (first [vm_compute; reflexivity|lia]).
  set (n := hits _ _). set (t := str_last m _).
  change (fold_left writePiece (pieces p) (withCount (n + hits text restoreReplanMessage) t b) =
    withCount (hits (text +:+ p) restoreReplanMessage) (str_last m (text +:+ p)) (fold_left writePiece (pieces (text +:+ p)) restoreOutput_zero)).
  rewrite writePieces_count. f_equal.
  - subst n m. cbn [ro_matchTail withCount set_field]. rewrite (hits_window _ text p) by (vm_compute; lia). apply Nat.add_comm.
  - subst t. apply str_last_last.
  - subst b. by rewrite !pieces_chars, list_ascii_append, fold_left_app.
Qed.

Lemma written_after chunks : written chunks = afterText (String.concat "" chunks).
Proof.
  enough (forall text, fold_left Write chunks (afterText text) = afterText (text +:+ String.concat "" chunks)) as H by apply (H "").
  induction chunks as [|p chunks IH]; intros text; [simpl; by rewrite append_nil_r|].
  rewrite fold_left_cons, Write_step, IH, append_assoc. by destruct chunks; simpl; rewrite ?append_nil_r, ?append_nil_l.
Qed.

(** * The evidence as a fold over the lines *)

(** What a line does to the evidence: one that is too long is dropped. *)
Definition fits (line : string) : bool := (str_len line <=? syncDiagnosticOutputLimit)%Z.
Definition consume (b : restoreOutput) (raw : string) : restoreOutput :=
  if fits raw then keepLine (redactLogIncident raw) (noteError (redactLogIncident raw) (notePlan raw (noteRequest raw b)))
  else b <| ro_truncated := true |>.

Definition outputLines (text : string) : list string := map fst (pieces text).

(** Every piece but the last ends a line. *)
Fixpoint proper (ps : list (string * bool)) : Prop :=
  match ps with [] => True | (s, ended) :: rest => s <> "" /\ (rest <> [] -> ended = true) /\ proper rest end.
Lemma pieces_proper p : proper (pieces p).
Proof.
  induction p as [|c t IH]; [done|]. cbn [pieces]. destruct (Ascii.eqb c newline); [done|].
  destruct (pieces t) as [|[s ended] rest]; [done|]. simpl in *. by destruct IH as (_ & ? & ?).
Qed.

Definition idle (b : restoreOutput) : Prop := ro_pending b = "" /\ ro_dropping b = false.

Lemma lineSteps_drop raw b :
  let f := fun b => keepLine (redactLogIncident raw) (noteError (redactLogIncident raw) (notePlan raw (noteRequest raw b))) in
  ro_pending (f b) = ro_pending b /\ ro_dropping (f b) = ro_dropping b.
Proof.
  cbv zeta. generalize (redactLogIncident raw). intros line.
  assert (forall c, ro_pending (keepLine line c) = ro_pending c /\ ro_dropping (keepLine line c) = ro_dropping c) as Hk.
  { intros c. unfold keepLine. destruct (_ && _); [done|]. cbv zeta. destruct (_ <? _)%Z; [done|]. by destruct (makeRoom _ _ _ _). }
  destruct (Hk (noteError line (notePlan raw (noteRequest raw b)))) as [-> ->].
  unfold noteError, notePlan, noteRequest. cbv zeta.
  destruct (restoreRequestMethod _), (parseRestorePlanTXID _), (negb _); try done; by destruct (_ <=? _)%Z.
Qed.

Lemma flush_line b raw : ro_pending b = "" -> raw <> "" -> fits raw = true -> flushLine (b <| ro_pending := raw |>) = consume b raw.
Proof.
  intros Hb Hraw Hf. unfold flushLine, consume. change (ro_pending (b <| ro_pending := raw |>)) with raw.
  rewrite (proj2 (eqs_false raw "") Hraw), Hf. cbv zeta. f_equal. f_equal. unfold notePlan, noteRequest.
  destruct b. simpl in Hb. subst. by destruct (restoreRequestMethod raw), (parseRestorePlanTXID raw).
Qed.

Lemma write_line b s ended : idle b -> s <> "" ->
  let b' := writePiece b (s, ended) in
  (flushLine b') <| ro_dropping := false |> = consume b s /\ (ended = true -> b' = consume b s) /\ idle (consume b s).
Proof.
  intros [Hp Hd] Hs. cbv zeta.
  assert (idle (consume b s)) as Hi.
  { unfold consume. destruct (fits s); [|done]. destruct (lineSteps_drop s b) as [H1 H2]. cbv zeta in *. split; congruence. }
  unfold writePiece. rewrite Hd, Hp. replace (str_len "" + str_len s)%Z with (str_len s) by reflexivity.
  replace (syncDiagnosticOutputLimit <? str_len s)%Z with (negb (fits s)) by (unfold fits; by rewrite <- Z.ltb_antisym).
  destruct (fits s) eqn:Hf; cbn [negb].
  - change (b <| ro_pending ::= fun pending => pending +:+ s |>) with (b <| ro_pending := ro_pending b +:+ s |>).
    rewrite Hp, append_nil_l.
    assert (forall c, ro_dropping c = false -> c <| ro_dropping := false |> = c) as Heta by (intros [] Hc; simpl in Hc; by subst).
    assert ((flushLine (b <| ro_pending := s |>)) <| ro_dropping := false |> = consume b s) as Hl.
    { rewrite flush_line by done. apply Heta, Hi. }
    destruct ended; split_and!; try done.
    rewrite Hl. unfold flushLine. rewrite (proj1 Hi). cbn [String.eqb]. apply Heta, Hi.
  - unfold consume in *. rewrite Hf in *. destruct b. simpl in Hp, Hd. subst. destruct ended; split_and!; done.
Qed.

Lemma finish_pieces ps b : proper ps -> idle b ->
  (flushLine (fold_left writePiece ps b)) <| ro_dropping := false |> = fold_left consume (map fst ps) b.
Proof.
  revert b. induction ps as [|[s ended] ps IH]; intros b Hps Hb.
  { simpl. unfold flushLine. destruct Hb as [Hp Hd]. rewrite Hp. simpl. destruct b. simpl in Hd. by subst. }
  destruct Hps as (Hs & He & Hps). cbn [map fst]. rewrite !fold_left_cons.
  destruct (write_line b s ended Hb Hs) as (H1 & H2 & H3). destruct ps as [|p ps]; [done|].
  rewrite H2 by by apply He. by apply IH.
Qed.

Lemma finished chunks : let text := String.concat "" chunks in
  exists d, snd (outputText (written chunks)) =
    withCount (hits text restoreReplanMessage) (str_last (String.length restoreReplanMessage - 1) text)
      ((fold_left consume (outputLines text) restoreOutput_zero) <| ro_dropping := d |>).
Proof.
  cbv zeta. rewrite written_after. unfold afterText, outputText. cbv zeta. cbn [snd]. rewrite flushLine_count.
  set (b := flushLine _). exists (ro_dropping b). f_equal. unfold outputLines.
  rewrite <- finish_pieces; [|apply pieces_proper|done]. fold b. by destruct b.
Qed.

(** * What the evidence holds *)

Lemma afterLine_shorter s : s <> "" -> String.length (afterLine s) < String.length s.
Proof.
  induction s as [|c s IH]; [done|]. intros _. simpl. destruct (Ascii.eqb c newline); [lia|].
  destruct s as [|d s]; [simpl; lia|]. specialize (IH ltac:(done)). lia.
Qed.

(** One round per character makes room for any line that fits; when nothing was
    dropped before or now, the tail is unchanged. *)
Lemma makeRoom_fits fuel n output truncated :
  String.length output < fuel -> (0 <= n <= evidenceHalf)%Z ->
  let '(kept, cut) := makeRoom fuel n output truncated in
  (str_len kept + n <= evidenceHalf)%Z /\ (cut = false -> kept = output /\ truncated = false).
Proof.
  revert output truncated. induction fuel as [|fuel IH]; intros output truncated Hl Hn; [lia|]. cbn [makeRoom].
  destruct (Z.ltb_spec evidenceHalf (str_len output + n)); [|split; [lia|done]].
  assert (output <> "") as Hne by (intros ->; change (str_len "") with 0%Z in *; lia).
  pose proof (afterLine_shorter output Hne). specialize (IH (afterLine output) true ltac:(lia) Hn).
  destruct (makeRoom fuel n (afterLine output) true) as [kept cut]. destruct IH as [? IH]. split; [done|]. by intros [_ [=]]%IH.
Qed.

Definition total (lines : list string) : string := String.concat "" lines.
Lemma total_snoc lines line : total (lines ++ [line]) = total lines +:+ line.
Proof.
  induction lines as [|l lines IH]; [done|]. unfold total in *. cbn [app String.concat].
  destruct lines as [|l' lines]; [done|]. cbn [app] in *. rewrite IH. change (l +:+ "" +:+ ?x) with (l +:+ x). by rewrite append_assoc.
Qed.

(** The lines that report a request of a method. *)
Definition requestCount (m : string) (lines : list string) : Z :=
  Z.of_nat (length (List.filter (fun l => bool_decide (restoreRequestMethod l = Some m)) lines)).

(** After some lines: the two halves are bounded, and while nothing was dropped
    they are the redacted lines. *)
Record evidenceOf (lines : list string) (b : restoreOutput) : Prop := {
  eo_head : (str_len (ro_head b) <= evidenceHalf)%Z;
  eo_output : (str_len (ro_output b) <= evidenceHalf)%Z;
  eo_tail : ro_headComplete b = false -> ro_output b = "";
  eo_whole : ro_truncated b = false ->
    Forall (fun l => fits l = true) lines /\ ro_head b +:+ ro_output b = total (map redactLogIncident lines);
  eo_plan : ro_planTXID b = default 0%Z (last (omap parseRestorePlanTXID (List.filter fits lines)));
  eo_requests : forall m, default 0%Z (ro_requests b !! m) =
    uint64 (requestCount m (List.filter fits lines))
}.

Lemma keepLine_evidence line b :
  let b' := keepLine line b in
  ro_planTXID b' = ro_planTXID b /\ ro_requests b' = ro_requests b /\
  ((str_len (ro_head b) <= evidenceHalf)%Z -> (str_len (ro_output b) <= evidenceHalf)%Z ->
   (ro_headComplete b = false -> ro_output b = "") ->
   (str_len (ro_head b') <= evidenceHalf)%Z /\ (str_len (ro_output b') <= evidenceHalf)%Z /\
   (ro_headComplete b' = false -> ro_output b' = "") /\
   (ro_truncated b' = false -> ro_truncated b = false /\ ro_head b' +:+ ro_output b' = (ro_head b +:+ ro_output b) +:+ line)).
Proof.
  cbv zeta. unfold keepLine. destruct (negb (ro_headComplete b) && _) eqn:Hh; cbv zeta.
  { apply andb_true_iff in Hh as [Hc%negb_true_iff Hl%Z.leb_le]. split_and!; try done. intros _ _ Ho. specialize (Ho Hc).
    split_and!; [by etransitivity; [apply Z.eq_le_incl, str_len_append|]|by simpl; rewrite Ho|by simpl|]. intros Ht. split; [done|]. simpl. by rewrite Ho, !append_nil_r. }
  destruct (Z.ltb_spec evidenceHalf (str_len line)) as [Hl|Hl]; [by split_and!|].
  change (ro_output (b <| ro_headComplete := true |>)) with (ro_output b).
  change (ro_truncated (b <| ro_headComplete := true |>)) with (ro_truncated b).
  pose proof (makeRoom_fits (S (String.length (ro_output b))) (str_len line) (ro_output b) (ro_truncated b) ltac:(lia)
    ltac:(split; [unfold str_len; lia|done])) as Hm.
  destruct (makeRoom _ _ _ _) as [kept cut]. destruct Hm as [Hm Hcut]. split_and!; try done. intros Hhead _ _.
  split_and!; try done; [by etransitivity; [apply Z.eq_le_incl, str_len_append|]|].
  intros Hc. destruct (Hcut Hc) as [-> ->]. split; [done|]. symmetry. apply append_assoc.
Qed.

Lemma filter_snoc {A} (f : A -> bool) l x : List.filter f (l ++ [x]) = List.filter f l ++ (if f x then [x] else []).
Proof. rewrite List.filter_app. simpl. by destruct (f x). Qed.

Lemma request_step b raw m n :
  default 0%Z (ro_requests b !! m) = uint64 n ->
  default 0%Z (ro_requests (noteRequest raw b) !! m) =
  uint64 (n + if bool_decide (restoreRequestMethod raw = Some m) then 1 else 0).
Proof.
  intros H. unfold noteRequest. destruct (restoreRequestMethod raw) as [m'|].
  2: { rewrite bool_decide_false by done. by rewrite Z.add_0_r. }
  simpl. destruct (decide (m = m')) as [->|Hne].
  - rewrite lookup_insert_eq, bool_decide_true by done. simpl. rewrite H. unfold uint64, wrap_uint. by rewrite Zplus_mod_idemp_l.
  - rewrite lookup_insert_ne, bool_decide_false by congruence. by rewrite Z.add_0_r.
Qed.

(** The notes leave the kept lines alone. *)
Lemma notes_frame raw line b :
  let b' := noteError line (notePlan raw (noteRequest raw b)) in
  ro_head b' = ro_head b /\ ro_output b' = ro_output b /\ ro_headComplete b' = ro_headComplete b /\ ro_truncated b' = ro_truncated b /\
  ro_planTXID b' = default (ro_planTXID b) (parseRestorePlanTXID raw) /\ ro_requests b' = ro_requests (noteRequest raw b).
Proof.
  cbv zeta. unfold noteError, notePlan. cbv zeta.
  destruct (parseRestorePlanTXID raw), (negb _); try (destruct (_ <=? _)%Z); unfold noteRequest; destruct (restoreRequestMethod raw); done.
Qed.

Lemma last_omap_snoc (l : list string) x :
  default 0%Z (last (omap parseRestorePlanTXID (l ++ [x]))) =
  default (default 0%Z (last (omap parseRestorePlanTXID l))) (parseRestorePlanTXID x).
Proof.
  rewrite omap_app. simpl. destruct (parseRestorePlanTXID x); simpl; [by rewrite last_snoc|by rewrite app_nil_r].
Qed.

Lemma consume_evidence lines raw b : evidenceOf lines b -> evidenceOf (lines ++ [raw]) (consume b raw).
Proof.
  intros [H1 H2 H3 H4 H5 H6]. unfold consume. destruct (fits raw) eqn:Hf.
  - set (line := redactLogIncident raw). destruct (notes_frame raw line b) as (N1 & N2 & N3 & N4 & N5 & N6).
    set (c := noteError _ _) in *. destruct (keepLine_evidence line c) as (K1 & K2 & K3).
    rewrite N1, N2, N3, N4 in K3. destruct (K3 H1 H2 H3) as (K4 & K5 & K6 & K7). split; try done.
    + intros Ht. destruct (K7 Ht) as [Ht' ->]. destruct (H4 Ht') as [Hall ->]. rewrite map_app. simpl. rewrite total_snoc.
      split; [|done]. apply Forall_app. split; [done|]. by constructor.
    + rewrite filter_snoc, Hf, last_omap_snoc, K1, N5, H5. done.
    + intros m. rewrite filter_snoc, Hf, K2, N6. unfold requestCount. rewrite filter_snoc, length_app.
      rewrite (request_step b raw m _ (H6 m)). f_equal. unfold requestCount. destruct (bool_decide _); simpl; lia.
  - split; try done; intros; rewrite filter_snoc, Hf, app_nil_r; by simpl.
Qed.

Lemma lines_evidence lines : evidenceOf lines (fold_left consume lines restoreOutput_zero).
Proof.
  induction lines as [|raw lines IH] using rev_ind.
  - split; try done; try (unfold evidenceHalf; vm_compute; congruence).
  - rewrite fold_left_app. by apply consume_evidence.
Qed.

(** C29: the evidence of a restore does not depend on how the pipe cut the command's
    output: the state after any pieces is the one after their concatenation; the replans
    are the occurrences of the message in the whole output; the restored transaction is
    that of the last plan and the requests are those reported by the lines of at most
    64 KiB; the text kept is at most 8 KiB, and it is the whole redacted output unless it
    is marked as truncated. *)
Theorem restore_output_is_reference chunks :
  let text := String.concat "" chunks in
  let '(kept, b) := outputText (written chunks) in
  written chunks = written [text] /\
  ro_replans b = Count text restoreReplanMessage /\
  ro_planTXID b = default 0%Z (last (omap parseRestorePlanTXID (List.filter fits (outputLines text)))) /\
  (forall m, default 0%Z (ro_requests b !! m) = uint64 (requestCount m (List.filter fits (outputLines text)))) /\
  String.length kept <= restoreEvidenceLimit /\
  (ro_truncated b = false -> kept = String.concat "" (map redactLogIncident (outputLines text))).
Proof.
  cbv zeta. set (text := String.concat "" chunks).
  destruct (finished chunks) as [d Hb]. destruct (outputText (written chunks)) as [kept b] eqn:E. cbn [snd] in Hb. fold text in Hb.
  pose proof (lines_evidence (outputLines text)) as [H1 H2 H3 H4 H5 H6]. set (c := fold_left _ _ _) in *.
  assert (kept = if ro_truncated b then ro_head b +:+ restoreOutputTruncated +:+ ro_output b else ro_head b +:+ ro_output b) as ->.
  { unfold outputText in E. by injection E as <- <-. }
  subst b. split_and!.
  - by rewrite !written_after.
  - simpl. symmetry. by apply countFrom_hits; [vm_compute; reflexivity|lia].
  - done.
  - done.
  - simpl. unfold str_len in *. change restoreEvidenceLimit with (Z.to_nat 8192). change evidenceHalf with 4082%Z in *.
    pose proof (length_append restoreOutputTruncated (ro_output c)) as Hl. change (String.length restoreOutputTruncated) with 27 in Hl.
    destruct (ro_truncated c); rewrite length_append; lia.
  - simpl. intros Ht. rewrite Ht. by destruct (H4 Ht) as [_ ->].
Qed.
