(* ===== verification/RestorePlan.v ===== *)
(** How a verification restores: the rotation of restore modes, the marker of a
    latest restore, the target time of a timestamp restore
    ([worker/restore_mode.go]) and the disk space a restore needs
    ([worker/restore_capacity.go]).

    Files are lists of bytes, as in [WalFrames]; the directory a restore writes to
    is a map from paths to files. *)
From stdpp Require Import sorting.
From Stdlib Require Import Ascii.
From S2P Require Import Prelude GoStrings GoTime Model LtxCoverage WalFrames WorkerErrors.

(** * Modes *)

Definition restoreModeTXID := "txid".
Definition restoreModeTimestamp := "timestamp".
Definition restoreModeLatest := "latest".
Definition restoreModeFallbackNoLTXBoundary := "timestamp_no_ltx_boundary".
Definition restoreModeFallbackNoMarker := "latest_marker_unavailable".
Definition restoreModeFallbackRotationDisabled := "rotation_disabled".
Definition restoreModeRotation : list string := [restoreModeTXID; restoreModeTimestamp; restoreModeLatest].

(** [hash/fnv.New32a]. *)
Definition fnv32a (s : string) : Z :=
  fold_left (fun h c => uint32 (Z.lxor h (Z.of_N (N_of_ascii c)) * 16777619)) (String.list_ascii_of_string s) 2166136261%Z.

Definition restoreModeOffset (profileName : string) : Z := (fnv32a profileName mod Z.of_nat (length restoreModeRotation))%Z.

Definition unixEpoch : time := (62135596800 * Second)%Z.
Definition UnixNano (t : time) : Z := int64 (t - unixEpoch).

Definition defaultVerifyInterval : duration := (30 * Minute)%Z.
(** [None] is the panic of a negative index, for a clock before 1970. *)
Definition restoreModeAt (rotation : bool) (interval : duration) (profileName : string) (at_ : time) : option string :=
  if negb rotation then Some restoreModeTXID
  else
    let interval := if (interval <=? 0)%Z then defaultVerifyInterval else interval in
    let slot := Z.quot (UnixNano at_) interval in
    let n := Z.of_nat (length restoreModeRotation) in
    let index := Z.rem (Z.rem slot n + restoreModeOffset profileName) n in
    if (index <? 0)%Z then None else restoreModeRotation !! Z.to_nat index.

(** * The marker of a latest restore *)

Definition restoreMarkerRetained : nat := 16.

(** The marker table: the hint of each cycle. *)
Abbreviation markerTable := (gmap Z Z).
Definition markerCycles (t : markerTable) : list Z := merge_sort Z.le (map_to_list t).*1.
(** [cycle NOT IN (SELECT cycle ... ORDER BY cycle DESC LIMIT 16)]. *)
Definition newestCycles (t : markerTable) : list Z := firstn restoreMarkerRetained (rev (markerCycles t)).

(** One transaction: a failure of SQLite, or of the key, leaves the table. *)
Definition writeRestoreMarker (fault : option string) (marker txidHint : Z) (t : markerTable) : result string markerTable :=
  match fault with
  | Some e => Err ("write restore marker: " +:+ e)
  | None =>
      if bool_decide (is_Some (t !! marker)) then Err "write restore marker: UNIQUE constraint failed"
      else
        let t := <[marker := int64 txidHint]> t in
        Ok (filter (fun row => row.1 ∈ newestCycles t) t)
  end.

(** The table of the restored copy, or the error of reading it; no table is
    [Err "no such table"]. *)
Definition checkRestoreMarker (restored : result string markerTable) (marker : Z) : option goError :=
  let missing := Some (mkErr [] ("restore failed: latest restore behind boundary: marker=" +:+ fmt_int marker +:+ " missing")) in
  match restored with
  | Ok t => if bool_decide (is_Some (t !! marker)) then None else missing
  | Err e => if Contains e "no such table" then missing else Some (mkErr [] ("restore failed: latest restore marker: " +:+ e))
  end.

Definition checkLatestRestoreTXID (restored boundary : Z) : option goError :=
  if (restored =? 0)%Z
  then Some (mkErr [restoreEvidenceInconclusiveError]
         ("latest restore txid unavailable: no restore plan evidence in litestream output: boundary=" +:+ hex16 boundary))
  else if (restored <? boundary)%Z
  then Some (mkErr [] ("restore failed: latest restore behind boundary: restored=" +:+ hex16 restored +:+ " boundary=" +:+ hex16 boundary))
  else None.

(** * The command *)

(** [time.RFC3339Nano]: the fraction without its trailing zeros. *)
Definition FormatRFC3339Nano (t : time) : string :=
  let fraction := trim_right (Ascii.eqb "0") (pad 9 (t mod Second)%Z) in
  let seconds := FormatRFC3339 t in
  str_take (String.length seconds - 1) seconds +:+ (if fraction =s "" then "" else "." +:+ fraction) +:+ "Z".

Definition restoreArgs (configPath mode : string) (txid : Z) (timestamp : time) (restoredPath sourcePath : string) : list string :=
  ["restore"; "-config"; configPath] ++
  (if mode =s restoreModeTimestamp then ["-timestamp"; FormatRFC3339Nano timestamp]
   else if mode =s restoreModeLatest then []
   else ["-txid"; formatTXID txid]) ++
  ["-o"; restoredPath; sourcePath].

(** * The target of a timestamp restore *)

Definition ltxHeaderTimestampEnd : Z := 40.
Definition readLTXHeaderTimestamp (entry : dirEntry) (minTXID maxTXID : Z) : option time :=
  if de_isDir entry then None
  else
    let '(header, ok) := ReadAt (de_bytes entry) 0 ltxHeaderTimestampEnd in
    if negb ok then None
    else if negb (bool_decide (slice 0 4 header = ltxMagic)) || negb (beUint64 (skipn 16 header) =? minTXID)%Z ||
            negb (beUint64 (skipn 24 header) =? maxTXID)%Z
    then None
    else Some (unixEpoch + int64 (beUint64 (skipn 32 header)) * Millisecond)%Z.

(** The loop over the level's files: the boundary found last, and the times of the
    files after it; [None] when a file that matters cannot be read. *)
Fixpoint boundaryScan (entries : list dirEntry) (txid : Z) (boundary : option time) (later : list time) : option (option time * list time) :=
  match entries with
  | [] => Some (boundary, later)
  | entry :: entries =>
      match parseLTXFilename (de_name entry) with
      | None => boundaryScan entries txid boundary later
      | Some (minTXID, maxTXID) =>
          if negb (maxTXID =? txid)%Z && (minTXID <=? txid)%Z then boundaryScan entries txid boundary later
          else
            match readLTXHeaderTimestamp entry minTXID maxTXID with
            | None => None
            | Some timestamp =>
                if (maxTXID =? txid)%Z then boundaryScan entries txid (Some timestamp) later
                else boundaryScan entries txid boundary (later ++ [timestamp])
            end
      end
  end.

Definition boundaryLTXTimestamp (dir : option (list dirEntry)) (txid : Z) : option time :=
  match dir with
  | None => None
  | Some entries =>
      match boundaryScan entries txid None [] with
      | Some (Some boundary, later) => if forallb (fun t => After t boundary) later then Some boundary else None
      | _ => None
      end
  end.

(** * Capacity *)

Definition restoreCapacityMarginPercent : Z := 10.
Definition restoreCapacityMinimumBytes : Z := Z.shiftl 64 20.
Definition sqliteHeaderSize : Z := 100.
Definition sqliteWALHeaderLen : Z := 32.
Definition sqliteWALFrameLen : Z := 24.

Abbreviation files := (gmap string (list Z)).
Definition fileSize (f : files) (path : string) : Z := from_option zlen 0%Z (f !! path).

Definition restoreOutputPaths (restoredPath : string) : list string :=
  (restoredPath +:+ "-journal") ::
  flat_map (fun base => [base; base +:+ "-wal"; base +:+ "-shm"; base +:+ "-journal"])
    [restoredPath +:+ ".tmp"; restoredPath +:+ ".pre"; restoredPath +:+ ".pre.tmp"].

(** [os.Remove] of each path; a file that is not there is no error. *)
Definition removeAll (removeErr : string -> option string) (paths : list string) (f : files) : files * list string :=
  fold_left (fun '(f, errs) path =>
    if bool_decide (is_Some (f !! path))
    then match removeErr path with Some e => (f, errs ++ [e]) | None => (delete path f, errs) end
    else (f, errs)) paths (f, []).
(** [errors.Join]. *)
Definition joinErrors (errs : list string) : option string :=
  match errs with [] => None | _ => Some (Join errs (String newline "")) end.
Definition removeAbandonedRestoreOutput (removeErr : string -> option string) (restoredPath : string) (f : files) : files * option string :=
  let '(f, errs) := removeAll removeErr (restoreOutputPaths restoredPath) f in (f, joinErrors errs).

(** "SQLite format 3" *)
Definition sqliteMagic : list Z := [83; 81; 76; 105; 116; 101; 32; 102; 111; 114; 109; 97; 116; 32; 51]%Z.
Definition beUint16 (b : list Z) : Z := beUint 2 b.
Definition sqliteHeaderGeometry (file : option (list Z)) : Z * Z :=
  match file with
  | None => (0, 0)%Z
  | Some file =>
      let '(header, ok) := ReadAt file 0 sqliteHeaderSize in
      if negb ok || negb (bool_decide (slice 0 15 header = sqliteMagic)) then (0, 0)%Z
      else
        let pageSize := beUint16 (slice 16 18 header) in
        let pageSize := if (pageSize =? 1)%Z then 65536%Z else pageSize in
        if (pageSize <? 512)%Z || (65536 <? pageSize)%Z || negb (Z.land pageSize (pageSize - 1) =? 0)%Z then (0, 0)%Z
        else (pageSize, beUint32 (slice 28 32 header))
  end.

Fixpoint sqliteWALChecksum (order : list Z -> Z) (sum1 sum2 : Z) (data : list Z) : Z * Z :=
  match data with
  | a :: b :: c :: d :: e :: f :: g :: h :: rest =>
      let sum1 := uint32 (sum1 + uint32 (order [a; b; c; d] + sum2)) in
      let sum2 := uint32 (sum2 + uint32 (order [e; f; g; h] + sum1)) in
      sqliteWALChecksum order sum1 sum2 rest
  | _ => (sum1, sum2)
  end.

(** The frame loop over what is left of the file; each round takes a frame, so the
    file's length is enough fuel. *)
Fixpoint committedLoop (fuel : nat) (order : list Z -> Z) (frameSize salt1 salt2 sum1 sum2 committed : Z) (rest : list Z) : Z :=
  match fuel with
  | O => committed
  | S fuel =>
      let '(frame, ok) := ReadAt rest 0 frameSize in
      if negb ok then committed
      else if negb (beUint32 (slice 8 12 frame) =? salt1)%Z || negb (beUint32 (slice 12 16 frame) =? salt2)%Z then committed
      else
        let '(sum1, sum2) := sqliteWALChecksum order sum1 sum2 (slice 0 8 frame) in
        let '(sum1, sum2) := sqliteWALChecksum order sum1 sum2 (slice sqliteWALFrameLen (zlen frame) frame) in
        if negb (sum1 =? beUint32 (slice 16 20 frame))%Z || negb (sum2 =? beUint32 (slice 20 24 frame))%Z then committed
        else
          let size := beUint32 (slice 4 8 frame) in
          let committed := if (0 <? size)%Z then size else committed in
          committedLoop fuel order frameSize salt1 salt2 sum1 sum2 committed (skipn (Z.to_nat frameSize) rest)
  end.

Definition sqliteWALCommittedPages (file : option (list Z)) (pageSize : Z) : Z :=
  match file with
  | None => 0
  | Some file =>
      let '(header, ok) := ReadAt file 0 sqliteWALHeaderLen in
      if negb ok then 0%Z
      else
        let magic := beUint32 (slice 0 4 header) in
        let order := if (magic =? 931071618)%Z then Some leUint32 else if (magic =? 931071619)%Z then Some beUint32 else None in
        match order with
        | None => 0%Z
        | Some order =>
            let walPageSize := beUint32 (slice 8 12 header) in
            if (walPageSize <=? 0)%Z || ((0 <? pageSize)%Z && negb (walPageSize =? pageSize)%Z) then 0%Z
            else
              let salt1 := beUint32 (slice 16 20 header) in
              let salt2 := beUint32 (slice 20 24 header) in
              let '(sum1, sum2) := sqliteWALChecksum order 0 0 (slice 0 24 header) in
              if negb (sum1 =? beUint32 (slice 24 28 header))%Z || negb (sum2 =? beUint32 (slice 28 32 header))%Z then 0%Z
              else committedLoop (length file) order (sqliteWALFrameLen + walPageSize) salt1 salt2 sum1 sum2 0
                     (skipn (Z.to_nat sqliteWALHeaderLen) file)
        end
  end.

Definition estimateRestoreOutputBytes (f : files) (sourcePath : string) : Z :=
  let estimate := fileSize f sourcePath in
  let '(pageSize, headerPages) := sqliteHeaderGeometry (f !! sourcePath) in
  let estimate := if (0 <? pageSize)%Z && (0 <? headerPages)%Z then Z.max estimate (int64 (headerPages * pageSize)) else estimate in
  let committed := sqliteWALCommittedPages (f !! (sourcePath +:+ "-wal")) pageSize in
  if (0 <? committed)%Z && (0 <? pageSize)%Z then Z.max estimate (int64 (committed * pageSize)) else estimate.

Definition restoreNeededBytes (outputBytes : Z) : Z :=
  let outputBytes := if (outputBytes <? 0)%Z then 0%Z else outputBytes in
  let needed := uint64 (uint64 outputBytes + uint64 (uint64 outputBytes * restoreCapacityMarginPercent) / 100) in
  Z.max needed restoreCapacityMinimumBytes.

(** [freeBytes] is the answer of [statfs] on the restore's directory. *)
Definition checkRestoreCapacity (removeErr : string -> option string) (freeBytes : result string Z) (restoredPath sourcePath : string)
  (f : files) : files * option goError :=
  let '(f, err) := removeAbandonedRestoreOutput removeErr restoredPath f in
  match err with
  | Some e => (f, Some (mkErr [] ("clean abandoned restore output: " +:+ e)))
  | None =>
      let needed := restoreNeededBytes (estimateRestoreOutputBytes f sourcePath) in
      match freeBytes with
      | Err _ => (f, None)
      | Ok free =>
          if (needed <=? free)%Z then (f, None)
          else (f, Some (mkErr [restoreCapacityInconclusiveError]
                 ("restore skipped: harness capacity: restore output " +:+ restoredPath +:+ " needs " +:+ fmt_int needed +:+
                  " bytes but only " +:+ fmt_int free +:+ " bytes are free")))
      end
  end.

(** The error of a restore that filled the disk, marked as the harness's. *)
Definition restoreCapacityExhausted (e : goError) : goError := mkErr (restoreCapacityInconclusiveError :: ge_marks e) (ge_text e).

Example rotation_example :
  map (fun k => restoreModeAt true 0 "steady" (unixEpoch + k * defaultVerifyInterval)%Z) [5; 6; 7; 8]%Z =
  [Some "txid"; Some "timestamp"; Some "latest"; Some "txid"].
Proof. vm_compute. reflexivity. Qed.
Example fnv_example : fnv32a "foobar" = 3214735720%Z.
Proof. reflexivity. Qed.
Example nano_example : FormatRFC3339Nano (unixEpoch + 1500000000)%Z = "1970-01-01T00:00:01.5Z".
Proof. reflexivity. Qed.

(** * The rotation *)

Lemma restoreModeOffset_range name : (0 <= restoreModeOffset name < 3)%Z.
Proof. unfold restoreModeOffset. apply Z.mod_pos_bound. simpl. lia. Qed.

Definition modeOfSlot (name : string) (slot : Z) : option string :=
  restoreModeRotation !! Z.to_nat ((slot + restoreModeOffset name) mod 3).

Lemma restoreModeAt_slot interval name t :
  (0 < interval)%Z -> (0 <= t - unixEpoch <= max_int64)%Z ->
  restoreModeAt true interval name t = modeOfSlot name ((t - unixEpoch) / interval).
Proof.
  intros Hi Ht. unfold restoreModeAt. cbn [negb]. replace (interval <=? 0)%Z with false by lia.
  unfold UnixNano. rewrite int64_small by (unfold min_int64; lia). change (Z.of_nat (length restoreModeRotation)) with 3%Z.
  rewrite Z.quot_div_nonneg by lia. set (slot := ((t - unixEpoch) / interval)%Z).
  assert (0 <= slot)%Z by (apply Z.div_pos; lia). pose proof (restoreModeOffset_range name).
  rewrite (Z.rem_mod_nonneg slot) by lia. pose proof (Z.mod_pos_bound slot 3 ltac:(lia)). rewrite Z.rem_mod_nonneg by lia.
  unfold modeOfSlot. replace ((slot mod 3 + restoreModeOffset name) mod 3)%Z with ((slot + restoreModeOffset name) mod 3)%Z
    by (by rewrite Zplus_mod_idemp_l). cbv zeta.
  pose proof (Z.mod_pos_bound (slot + restoreModeOffset name) 3 ltac:(lia)). by replace (_ <? 0)%Z with false by lia.
Qed.

(** A time that [UnixNano] represents has a mode. *)
Lemma restoreModeAt_defined rotation interval name t :
  (0 <= t - unixEpoch <= max_int64)%Z -> is_Some (restoreModeAt rotation interval name t).
Proof.
  intros Ht. destruct rotation; [|by eexists]. assert (forall i, (0 < i)%Z -> is_Some (restoreModeAt true i name t)) as H.
  { intros i Hi. rewrite restoreModeAt_slot by done. apply lookup_lt_is_Some. simpl.
    pose proof (Z.mod_pos_bound ((t - unixEpoch) / i + restoreModeOffset name) 3 ltac:(lia)). lia. }
  destruct (Z.leb_spec interval 0) as [Hi|Hi]; [|by apply H].
  unfold restoreModeAt. rewrite (proj2 (Z.leb_le _ _) Hi). specialize (H defaultVerifyInterval ltac:(by vm_compute)). exact H.
Qed.

Lemma three_slots (k : Z) :
  exists l, l ≡ₚ restoreModeRotation /\
    map (fun i => restoreModeRotation !! Z.to_nat ((k + i) mod 3)) [0; 1; 2]%Z = map Some l.
Proof.
  pose proof (Z.mod_pos_bound k 3 ltac:(lia)) as Hk. assert (k mod 3 = 0 \/ k mod 3 = 1 \/ k mod 3 = 2)%Z as H by lia.
  cbn [map]. rewrite <- !(Zplus_mod_idemp_l k).
  destruct H as [-> | [-> | ->]].
  - by exists restoreModeRotation.
  - exists [restoreModeTimestamp; restoreModeLatest; restoreModeTXID]. split; [|done]. unfold restoreModeRotation. solve_Permutation.
  - exists [restoreModeLatest; restoreModeTXID; restoreModeTimestamp]. split; [|done]. unfold restoreModeRotation. solve_Permutation.
Qed.

(** With rotation, three verifications one interval apart use the three restore
    modes, each once, whatever the profile's offset is and wherever in its interval the
    first one falls; without it every verification restores by transaction id. *)
Theorem modes_rotate interval name t :
  (0 < interval)%Z -> (0 <= t - unixEpoch)%Z -> (t - unixEpoch + 2 * interval <= max_int64)%Z ->
  (exists l, l ≡ₚ restoreModeRotation /\
     map (fun i => restoreModeAt true interval name (t + i * interval)) [0; 1; 2]%Z = map Some l) /\
  restoreModeAt false interval name t = Some restoreModeTXID.
Proof.
  intros Hi Ht Hmax. split; [|done].
  destruct (three_slots ((t - unixEpoch) / interval + restoreModeOffset name)) as (l & Hl & Hm). exists l. split; [done|].
  rewrite <- Hm. cbn [map]. rewrite !restoreModeAt_slot by lia. unfold modeOfSlot.
  assert (forall i, ((t + i * interval - unixEpoch) / interval = (t - unixEpoch) / interval + i)%Z) as E.
  { intros i. replace (t + i * interval - unixEpoch)%Z with (t - unixEpoch + i * interval)%Z by lia. by rewrite Z.div_add by lia. }
  rewrite !E. repeat (f_equal; try lia).
Qed.
Lemma modes_rotate_witness :
  restoreModeAt true defaultVerifyInterval "steady" unixEpoch = Some "timestamp" /\
  exists l, l ≡ₚ restoreModeRotation /\
    map (fun i => restoreModeAt true defaultVerifyInterval "steady" (unixEpoch + i * defaultVerifyInterval)) [0; 1; 2]%Z = map Some l.
Proof.
  split; [vm_compute; reflexivity|]. apply (modes_rotate defaultVerifyInterval "steady" unixEpoch); vm_compute; congruence.
Defined.

(** * The markers *)

Lemma markerCycles_elem t k : In k (markerCycles t) <-> is_Some (t !! k).
Proof.
  rewrite <- list_elem_of_In. unfold markerCycles. rewrite merge_sort_Permutation, list_elem_of_fmap. split.
  - intros ([k' v] & -> & H%elem_of_map_to_list). by eexists.
  - intros [v H]. exists (k, v). split; [done|]. by apply elem_of_map_to_list.
Qed.
Lemma markerCycles_NoDup t : List.NoDup (markerCycles t).
Proof. rewrite <- NoDup_ListNoDup. unfold markerCycles. rewrite merge_sort_Permutation. apply NoDup_fst_map_to_list. Qed.
Lemma markerCycles_sorted t : StronglySorted Z.le (markerCycles t).
Proof. apply Sorted_StronglySorted; [apply _|]. apply Sorted_merge_sort. intros x y. lia. Qed.

Definition newer (k : Z) (l : list Z) : nat := length (List.filter (fun c => (k <? c)%Z) l).

Lemma newer_none y l : (forall z, In z l -> (z <= y)%Z) -> newer y l = 0.
Proof.
  unfold newer. induction l as [|z l IH]; intros H; [done|]. cbn [List.filter]. replace (y <? z)%Z with false by (pose proof (H z ltac:(by left)); lia).
  apply IH. intros; apply H. by right.
Qed.
Lemma firstn_newest n (l : list Z) x :
  StronglySorted Z.ge l -> List.NoDup l -> In x (firstn n l) <-> In x l /\ newer x l < n.
Proof.
  revert n. induction l as [|y l IH]; intros n Hs Hd; [rewrite firstn_nil; simpl; tauto|].
  inversion Hs as [|? ? Hs' Hy]; subst. inversion Hd as [|? ? Hn Hd']; subst. rewrite List.Forall_forall in Hy.
  assert (forall z, In z l -> (z < y)%Z) as Hlt.
  { intros z Hz. pose proof (Hy z Hz). destruct (decide (z = y)) as [->|]; [done|lia]. }
  assert (newer y l = 0) as H0 by (apply newer_none; intros z Hz; pose proof (Hlt z Hz); lia).
  unfold newer in *. cbn [List.filter In]. destruct n as [|n]; [simpl; split; [done|intros [_ H]; lia]|]. cbn [firstn In].
  rewrite IH by done. split.
  - intros [->|[Hx Hc]]; [rewrite Z.ltb_irrefl; split; [by left|lia]|]. split; [by right|].
    replace (x <? y)%Z with true by (pose proof (Hlt x Hx); lia). simpl. lia.
  - intros [[->|Hx] Hc]; [by left|right]. replace (x <? y)%Z with true in Hc by (pose proof (Hlt x Hx); lia). simpl in Hc. split; [done|lia].
Qed.

Lemma descending_snoc (l : list Z) x : StronglySorted Z.ge l -> (forall y, In y l -> (y >= x)%Z) -> StronglySorted Z.ge (l ++ [x]).
Proof.
  induction l as [|y l IH]; intros Hs Hx; simpl; [repeat constructor|]. inversion Hs as [|? ? Hs' Hy]; subst. constructor.
  - apply IH; [done|]. intros z Hz. apply Hx. by right.
  - apply Forall_app. split; [done|]. constructor; [apply Hx; by left|done].
Qed.
Lemma rev_sorted (l : list Z) : StronglySorted Z.le l -> StronglySorted Z.ge (rev l).
Proof.
  induction 1 as [|x l Hs IH Hx]; simpl; [constructor|]. apply descending_snoc; [done|].
  rewrite List.Forall_forall in Hx. intros y Hy. apply in_rev in Hy. specialize (Hx y Hy). lia.
Qed.
Lemma newer_rev k l : newer k (rev l) = newer k l.
Proof. unfold newer. rewrite filter_rev, length_rev. done. Qed.

Lemma newestCycles_elem t k : In k (newestCycles t) <-> is_Some (t !! k) /\ newer k (markerCycles t) < restoreMarkerRetained.
Proof.
  unfold newestCycles. rewrite firstn_newest, <- in_rev, markerCycles_elem, newer_rev; [done|apply rev_sorted, markerCycles_sorted|].
  apply List.NoDup_rev, markerCycles_NoDup.
Qed.

(** A marker that is written keeps the sixteen newest cycles and nothing else; a
    restore of the database finds the marker of its own cycle exactly when fewer than
    sixteen markers carry a later time. *)
Theorem marker_retention marker hint t t' :
  writeRestoreMarker None marker hint t = Ok t' ->
  (forall k, is_Some (t' !! k) <->
     (k = marker \/ is_Some (t !! k)) /\ newer k (markerCycles (<[marker := int64 hint]> t)) < restoreMarkerRetained) /\
  (checkRestoreMarker (Ok t') marker = None <-> newer marker (markerCycles (<[marker := int64 hint]> t)) < restoreMarkerRetained).
Proof.
  unfold writeRestoreMarker. destruct (bool_decide _); [done|]. intros [= <-]. set (u := <[marker := int64 hint]> t).
  assert (forall k, is_Some (filter (fun row : Z * Z => row.1 ∈ newestCycles u) u !! k) <->
    (k = marker \/ is_Some (t !! k)) /\ newer k (markerCycles u) < restoreMarkerRetained) as H.
  { intros k. assert (is_Some (u !! k) <-> k = marker \/ is_Some (t !! k)) as <-.
    { unfold u. destruct (decide (k = marker)) as [->|Hne]; [rewrite lookup_insert_eq; split; [by left|by eexists]|].
      rewrite lookup_insert_ne by done. split; [by right|by intros [|]]. }
    rewrite <- newestCycles_elem, <- list_elem_of_In. split.
    - intros [v [Hv Hk]%map_lookup_filter_Some]. done.
    - intros Hk. pose proof Hk as [[v Hv] _]%list_elem_of_In%newestCycles_elem. exists v. by apply map_lookup_filter_Some. }
  split; [done|]. specialize (H marker). unfold checkRestoreMarker. case_bool_decide as Hd; split; intros Hc; try done.
  - by apply H in Hd as [_ ?].
  - exfalso. apply Hd, H. split; [by left|done].
Qed.
Lemma marker_retention_witness :
  exists t', writeRestoreMarker None 7 1 {[5 := 0]}%Z = Ok t' /\ checkRestoreMarker (Ok t') 7 = None.
Proof.
  eexists. split; [vm_compute; reflexivity|]. refine (proj2 (proj2 (marker_retention 7 1 {[5 := 0]} _ _)) _)%Z; vm_compute; [reflexivity|lia].
Defined.

(** A clock that steps back behind sixteen markers makes a write delete the marker it
    wrote, so an exact copy of the database fails the check. *)
Example backward_clock_loses_marker :
  let t := list_to_map (map (fun k => (100 + Z.of_nat k, 0)%Z) (seq 0 16)) : markerTable in
  exists t', writeRestoreMarker None 50 1 t = Ok t' /\
    checkRestoreMarker (Ok t') 50 = Some (mkErr [] "restore failed: latest restore behind boundary: marker=50 missing").
Proof. eexists. split; [vm_compute; reflexivity|]. vm_compute. reflexivity. Qed.

(** * The target time *)

(** A file of the level that ends at the boundary, or one that starts after it. *)
Definition boundaryFile (txid : Z) (e : dirEntry) (t : time) : Prop :=
  exists minTXID, parseLTXFilename (de_name e) = Some (minTXID, txid) /\ readLTXHeaderTimestamp e minTXID txid = Some t.
Definition laterFile (txid : Z) (e : dirEntry) : Prop :=
  exists minTXID maxTXID, parseLTXFilename (de_name e) = Some (minTXID, maxTXID) /\ (txid < minTXID)%Z /\ maxTXID <> txid.
Definition fileTime (e : dirEntry) : option time :=
  match parseLTXFilename (de_name e) with
  | Some (minTXID, maxTXID) => readLTXHeaderTimestamp e minTXID maxTXID
  | None => None
  end.

Lemma boundaryScan_spec entries txid b later b' later' :
  boundaryScan entries txid b later = Some (b', later') ->
  (b' = b \/ exists e t, In e entries /\ b' = Some t /\ boundaryFile txid e t) /\
  (forall t, In t later -> In t later') /\
  (forall e, In e entries -> laterFile txid e -> exists t, fileTime e = Some t /\ In t later').
Proof.
  revert b later. induction entries as [|e entries IH]; intros b later; cbn [boundaryScan].
  { intros [= <- <-]. split_and!; [by left|done|done]. }
  assert (forall b1 later1, (forall t, In t later -> In t later1) ->
    (b1 = b \/ exists t, b1 = Some t /\ boundaryFile txid e t) ->
    (laterFile txid e -> exists t, fileTime e = Some t /\ In t later1) ->
    boundaryScan entries txid b1 later1 = Some (b', later') ->
    (b' = b \/ exists e0 t, In e0 (e :: entries) /\ b' = Some t /\ boundaryFile txid e0 t) /\
    (forall t, In t later -> In t later') /\
    (forall e0, In e0 (e :: entries) -> laterFile txid e0 -> exists t, fileTime e0 = Some t /\ In t later')) as Hstep.
  { intros b1 later1 Hl Hb Hf Hs. destruct (IH _ _ Hs) as (H1 & H2 & H3). split_and!; [|by eauto|].
    - destruct H1 as [->|(e' & t & ? & ? & ?)]; [|right; exists e', t; by split_and!; [right|..]].
      destruct Hb as [->|(t & -> & Ht)]; [by left|right; exists e, t; by split_and!; [left|..]].
    - intros e0 [<-|He0] Hlate; [|by apply H3]. destruct (Hf Hlate) as (t & ? & ?). exists t. split; [done|]. by apply H2. }
  destruct (parseLTXFilename (de_name e)) as [[minTXID maxTXID]|] eqn:Hp.
  2: { apply Hstep; [done|by left|]. intros (? & ? & ? & _). congruence. }
  destruct (negb (maxTXID =? txid)%Z && (minTXID <=? txid)%Z) eqn:Hskip.
  { apply Hstep; [done|by left|]. intros (m & x & Hp' & ? & ?). rewrite Hp in Hp'. injection Hp' as <- <-. lia. }
  destruct (readLTXHeaderTimestamp e minTXID maxTXID) as [t|] eqn:Hr; [|done].
  destruct (Z.eqb_spec maxTXID txid) as [->|Hne].
  - apply Hstep; [done|right; exists t; split; [done|]; by exists minTXID|]. intros (m & x & Hp' & ? & ?). congruence.
  - apply Hstep; [intros; apply in_or_app; by left|by left|]. intros _. exists t. unfold fileTime. rewrite Hp.
    split; [done|]. apply in_or_app. right. by left.
Qed.

Lemma header_time_ms e a b t : readLTXHeaderTimestamp e a b = Some t -> exists k, t = (unixEpoch + k * Millisecond)%Z.
Proof.
  unfold readLTXHeaderTimestamp. destruct (de_isDir e); [done|]. destruct (ReadAt _ _ _) as [header ok].
  destruct (negb ok); [done|]. destruct (_ || _ || _); [done|]. intros [= <-]. by eexists.
Qed.

(** The time a timestamp restore asks for separates the boundary from what was
    written after it: it is a nanosecond past the timestamp of a file that ends at the
    boundary, and before the timestamp of every file that starts after it; when a file
    cannot be read or the timestamps do not separate them, there is no target. *)
Theorem timestamp_target_separates entries txid t :
  boundaryLTXTimestamp (Some entries) txid = Some t ->
  (exists e, In e entries /\ boundaryFile txid e t) /\
  forall e, In e entries -> laterFile txid e -> exists t', fileTime e = Some t' /\ (time_Add t Nanosecond < t')%Z.
Proof.
  unfold boundaryLTXTimestamp. destruct (boundaryScan entries txid None []) as [[[b|] later]|] eqn:Hs; try done.
  destruct (forallb _ later) eqn:Hall; [|done]. intros [= ->]. destruct (boundaryScan_spec _ _ _ _ _ _ Hs) as (H1 & _ & H3).
  destruct H1 as [?|(e & t' & He & [= <-] & Hb)]; [done|]. split; [by exists e|]. intros e' He' Hlate.
  destruct (H3 e' He' Hlate) as (t' & Ht' & Hin). exists t'. split; [done|]. rewrite forallb_forall in Hall.
  specialize (Hall t' Hin). unfold After in Hall. destruct Hb as (m & _ & Hm). destruct (header_time_ms _ _ _ _ Hm) as [k ->].
  destruct Hlate as (m1 & m2 & Hp & _). unfold fileTime in Ht'. rewrite Hp in Ht'. destruct (header_time_ms _ _ _ _ Ht') as [k' ->].
  unfold time_Add, Nanosecond, Millisecond in *. lia.
Qed.

Definition be64bytes (z : Z) : list Z := be32bytes (z / 2 ^ 32) ++ be32bytes (z mod 2 ^ 32).
Definition sampleLTX (a b ms : Z) : dirEntry :=
  mkDirEntry (hex16 a +:+ "-" +:+ hex16 b +:+ ".ltx") false (ltxMagic ++ replicate 12 0%Z ++ be64bytes a ++ be64bytes b ++ be64bytes ms).
Lemma timestamp_target_separates_witness :
  (exists e, In e [sampleLTX 1 4 1000; sampleLTX 5 6 1001] /\ boundaryFile 4 e (unixEpoch + Second)) /\
  forall e, In e [sampleLTX 1 4 1000; sampleLTX 5 6 1001] -> laterFile 4 e ->
    exists t', fileTime e = Some t' /\ (time_Add (unixEpoch + Second) Nanosecond < t')%Z.
Proof. apply (timestamp_target_separates [sampleLTX 1 4 1000; sampleLTX 5 6 1001] 4 (unixEpoch + Second)). vm_compute. reflexivity. Defined.

(** * The two WAL readers *)

Definition byteOrder (be : bool) : list Z -> Z := if be then beUint32 else leUint32.

Lemma sqliteWALChecksum_walChecksum be n data s0 s1 :
  length data <= n -> sqliteWALChecksum (byteOrder be) s0 s1 data = walChecksum be s0 s1 data.
Proof.
  revert data s0 s1. induction n as [|n IH]; intros data s0 s1 Hl; [destruct data; [done|simpl in Hl; lia]|].
  do 8 (destruct data as [|? data]; [done|]). cbn [sqliteWALChecksum walChecksum]. unfold byteOrder in *.
  destruct be; cbv zeta; apply IH; simpl in Hl; lia.
Qed.
Lemma checksums_agree be data s0 s1 : sqliteWALChecksum (byteOrder be) s0 s1 data = walChecksum be s0 s1 data.
Proof. by eapply sqliteWALChecksum_walChecksum. Qed.

(** The database size of the last commit frame. *)
Fixpoint lastSize (c : Z) (fs : list (list Z)) : Z :=
  match fs with [] => c | f :: rest => lastSize (if isCommit f then beUint32 (slice 4 8 f) else c) rest end.

Definition bytes (l : list Z) : Prop := Forall (fun x => 0 <= x < 256)%Z l.

Lemma beUint_nonneg n l : bytes l -> (0 <= beUint n l)%Z.
Proof.
  intros Hb. unfold beUint. assert (bytes (firstn n l)) as Hf by (by apply Forall_take). revert Hf. generalize (firstn n l). clear.
  intros l Hl. enough (forall acc, (0 <= acc)%Z -> (0 <= fold_left (fun acc x => acc * 256 + x)%Z l acc)%Z) as H by (apply H; lia).
  induction Hl as [|x l Hx _ IH]; intros acc Ha; simpl; [done|]. apply IH. lia.
Qed.
Lemma bytes_slice a b l : bytes l -> bytes (slice a b l).
Proof. intros H. apply Forall_take. by apply Forall_drop. Qed.
Lemma isCommit_positive f : bytes f -> isCommit f = (0 <? beUint32 (slice 4 8 f))%Z.
Proof.
  intros Hb. unfold isCommit. pose proof (beUint_nonneg 4 _ (bytes_slice 4 8 f Hb)) as H. unfold beUint32 in *.
  destruct (Z.eqb_spec (beUint 4 (slice 4 8 f)) 0) as [->|]; [done|]. symmetry. apply Z.ltb_lt. lia.
Qed.

Lemma slotAt_rest r size i : (0 <= i)%Z -> (0 <= size)%Z ->
  slice 0 (0 + size) (skipn (Z.to_nat (walHeaderSize + i * size)) r) = slotAt r size i.
Proof. intros. unfold slotAt, slice. change (Z.to_nat 0) with 0. rewrite drop_0. f_equal. f_equal. lia. Qed.
Lemma rest_next (r : list Z) size i : (0 <= i)%Z -> (0 <= size)%Z ->
  skipn (Z.to_nat size) (skipn (Z.to_nat (walHeaderSize + i * size)) r) = skipn (Z.to_nat (walHeaderSize + (i + 1) * size)) r.
Proof.
  intros Hi Hs. rewrite drop_drop. f_equal. pose proof (Z.mul_nonneg_nonneg i size Hi Hs).
  rewrite Z.mul_add_distr_r, Z.mul_1_l. unfold walHeaderSize in *. lia.
Qed.

Lemma committedLoop_spec r be h size slots fuel i covered k c :
  bytes r -> length covered = 8 * k -> (24 <= size)%Z -> (size mod 8 = 0)%Z -> (0 <= i)%Z -> slots < fuel ->
  (walHeaderSize + (i + Z.of_nat slots) * size <= zlen r)%Z -> (zlen r < walHeaderSize + (i + Z.of_nat slots + 1) * size)%Z ->
  committedLoop fuel (byteOrder be) size (wh_salt1 h) (wh_salt2 h) (fst (walChecksum be 0 0 covered)) (snd (walChecksum be 0 0 covered)) c
    (skipn (Z.to_nat (walHeaderSize + i * size)) r) = lastSize c (generationFrames be h covered (slotsFrom r size slots i)).
Proof.
  intros Hb. revert fuel i covered k c. induction slots as [|slots IH]; intros [|fuel] i covered k c Hk Hs Hm Hi Hf Hr Hr'; try lia;
    cbn [committedLoop]; unfold ReadAt; rewrite slotAt_rest by lia.
  { replace (_ <=? _)%Z with false; [done|]. symmetry. apply Z.leb_gt. unfold zlen in *. rewrite length_skipn. unfold walHeaderSize in *. lia. }
  replace (0 + size <=? _)%Z with true.
  2: { symmetry. apply Z.leb_le. unfold zlen in *. rewrite length_skipn. unfold walHeaderSize in *. nia. }
  cbn [negb slotsFrom generationFrames].
  assert (zlen (slotAt r size i) = size) as Hl by (unfold slotAt; rewrite zlen_slice; unfold walHeaderSize in *; nia).
  assert (bytes (slotAt r size i)) as Hbf by by apply bytes_slice.
  set (f := slotAt r size i) in *. unfold frameSalts.
  destruct (beUint32 (slice 8 12 f) =? wh_salt1 h)%Z, (beUint32 (slice 12 16 f) =? wh_salt2 h)%Z; cbn [negb orb andb]; try done.
  destruct (frameContent_chunks f size Hl Hs Hm) as [m Hm']. rewrite !checksums_agree.
  pose proof (frame_checksum be k covered f Hk ltac:(lia)) as Hc.
  destruct (walChecksum be _ _ (slice 0 8 f)) as [t0 t1]. rewrite checksums_agree. change sqliteWALFrameLen with walFrameHeaderSize. rewrite <- Hc.
  destruct (walChecksum be 0 0 (covered ++ frameContent f)) as [v0 v1] eqn:Ev. rewrite sums_agree. unfold frameSums.
  destruct (bool_decide _); cbn [negb]; [|done]. cbn [lastSize]. rewrite isCommit_positive by done. rewrite rest_next by lia.
  specialize (IH fuel (i + 1)%Z (covered ++ frameContent f) (k + m)). rewrite Ev in IH. cbn [fst snd] in IH.
  apply IH; try done; try lia; rewrite ?length_app; lia.
Qed.

Lemma lastSize_none c fs : (forall f, In f fs -> isCommit f = false) -> lastSize c fs = c.
Proof.
  revert c. induction fs as [|f fs IH]; intros c H; [done|]. simpl. rewrite (H f) by by left. apply IH. intros f' Hf'. apply H. by right.
Qed.
Lemma lastSize_at fs j f c : fs !! j = Some f -> isCommit f = true -> (forall j' f', j < j' -> fs !! j' = Some f' -> isCommit f' = false) ->
  lastSize c fs = beUint32 (slice 4 8 f).
Proof.
  revert j c. induction fs as [|g fs IH]; intros [|j] c Hf Hc Hno; simpl in *; try done.
  - injection Hf as ->. rewrite Hc. apply lastSize_none. intros f' [j' Hj']%list_elem_of_In%list_elem_of_lookup. apply (Hno (S j')); [lia|done].
  - apply (IH j); [done|done|]. intros j' f' ? ?. apply (Hno (S j')); [lia|done].
Qed.
Lemma lastSize_is fs c : isLastCommit fs c ->
  lastSize 0 fs = if (c =? 0)%Z then 0%Z else from_option (fun f => beUint32 (slice 4 8 f)) 0%Z (fs !! Z.to_nat (c - 1)).
Proof.
  intros (Hr & Hl & Hno). destruct (Z.eqb_spec c 0) as [->|Hc].
  - apply lastSize_none. intros f' [j' Hj']%list_elem_of_In%list_elem_of_lookup. apply (Hno j'); [lia|done].
  - destruct Hl as [?|(f & Hf & Hcf)]; [done|]. rewrite Hf. simpl. apply (lastSize_at fs (Z.to_nat (c - 1))); [done|done|].
    intros j' f' Hj'. apply Hno. lia.
Qed.

(** The reader that sizes a restore agrees with the reader of the WAL
    reset check: on a WAL with a valid header it finds the database size stored in the frame
    that the other counts as the last committed one, and nothing when it counts none. *)
Theorem wal_readers_agree r pageSize :
  bytes r -> headerChecked r = true -> (wh_pageSize (parseWALHeader (slice 0 32 r)) mod 8 = 0)%Z ->
  (pageSize <= 0)%Z \/ pageSize = wh_pageSize (parseWALHeader (slice 0 32 r)) ->
  exists g, readWALGeneration (Some r) = (g, true) /\
  sqliteWALCommittedPages (Some r) pageSize =
    if (wg_committedFrames g =? 0)%Z then 0%Z
    else from_option (fun f => beUint32 (slice 4 8 f)) 0%Z (fileGeneration r !! Z.to_nat (wg_committedFrames g - 1)).
Proof.
  intros Hb Hh H8 Hps. destruct (walk_reference r H8) as (g & Hg & _ & Hw). rewrite Hh in Hw. destruct Hw as (_ & Hlast & _).
  exists g. split; [done|]. rewrite <- (lastSize_is _ _ Hlast).
  pose proof Hh as Hh'. unfold headerChecked in Hh'. rewrite !andb_true_iff, bool_decide_eq_true, Z.leb_le in Hh'.
  destruct Hh' as ((Hl & Hv) & Hc). pose proof (parseWALHeader_pageSize _ Hv) as Hp.
  unfold sqliteWALCommittedPages, ReadAt. change (0 + sqliteWALHeaderLen)%Z with 32%Z.
  replace (32 <=? zlen r)%Z with true by (symmetry; by apply Z.leb_le). cbn [negb]. set (h := parseWALHeader (slice 0 32 r)) in *.
  assert (zlen (slice 0 32 r) = 32%Z) as Hz by (rewrite zlen_slice; [done|lia|unfold walHeaderSize in Hl; lia]).
  assert (beUint32 (slice 0 4 (slice 0 32 r)) = wh_magic h /\ beUint32 (slice 8 12 (slice 0 32 r)) = wh_pageSize h /\
    beUint32 (slice 16 20 (slice 0 32 r)) = wh_salt1 h /\ beUint32 (slice 20 24 (slice 0 32 r)) = wh_salt2 h) as (-> & -> & -> & ->).
  { unfold h, parseWALHeader. rewrite Hz. done. }
  assert ((if (wh_magic h =? 931071618)%Z then Some leUint32 else if (wh_magic h =? 931071619)%Z then Some beUint32 else None) =
    Some (byteOrder (fileBigEndian r))) as ->.
  { unfold fileBigEndian, byteOrder. fold h. change walMagicBigEndian with 931071619%Z.
    unfold h, parseWALHeader in Hv. rewrite Hz in Hv. simpl in Hv. fold h in Hv.
    destruct (Z.eqb_spec (wh_magic h) 931071619) as [->|]; [done|]. destruct (Z.eqb_spec (wh_magic h) 931071618); [done|].
    exfalso. revert Hv. unfold h, parseWALHeader in *. rewrite Hz in *. simpl in *. change walMagicBigEndian with 931071619%Z.
    change walMagicLittle with 931071618%Z. rewrite !andb_true_iff, orb_true_iff, !Z.eqb_eq. tauto. }
  replace ((wh_pageSize h <=? 0)%Z || ((0 <? pageSize)%Z && negb (wh_pageSize h =? pageSize)%Z)) with false.
  2: { symmetry. destruct Hps as [? | ->]; [|rewrite Z.eqb_refl]; lia. }
  rewrite checksums_agree, (slice_slice 0 24 32), (slice_slice 24 28 32), (slice_slice 28 32 32) by lia.
  destruct (walChecksum (fileBigEndian r) 0 0 (slice 0 24 r)) as [s0 s1] eqn:Es. rewrite sums_agree, bool_decide_true by done. cbn [negb].
  set (size := (sqliteWALFrameLen + wh_pageSize h)%Z). set (n := ((zlen r - walHeaderSize) / size)%Z).
  assert (24 <= size)%Z as Hs24 by (unfold size, sqliteWALFrameLen; lia).
  assert (0 <= n /\ n * size <= zlen r - walHeaderSize < (n + 1) * size)%Z as (Hn & Hns).
  { subst n. pose proof (Z.mul_div_le (zlen r - walHeaderSize) size ltac:(lia)).
    pose proof (Z.mul_succ_div_gt (zlen r - walHeaderSize) size ltac:(lia)). split; [apply Z.div_pos; lia|].
    rewrite Z.mul_succ_r in *. rewrite Z.mul_add_distr_r, Z.mul_1_l, (Z.mul_comm _ size). lia. }
  pose proof (committedLoop_spec r (fileBigEndian r) h size (Z.to_nat n) (length r) 0 (slice 0 24 r) 3 0 Hb) as HL.
  rewrite Es in HL. cbn [fst snd] in HL. change (Z.to_nat (walHeaderSize + 0 * size)) with (Z.to_nat sqliteWALHeaderLen) in HL.
  rewrite HL; try lia.
  - unfold fileGeneration, fileSlots. fold h. unfold n. by replace (wh_pageSize h + walFrameHeaderSize)%Z with size by (unfold size; change sqliteWALFrameLen with walFrameHeaderSize; lia).
  - pose proof (zlen_slice 0 24 r ltac:(lia) ltac:(unfold walHeaderSize in Hl; lia)). unfold zlen in *. lia.
  - unfold size. rewrite Zplus_mod, H8. done.
  - unfold zlen in *. unfold walHeaderSize in *. nia.
Qed.
Lemma wal_readers_agree_witness :
  exists g, readWALGeneration (Some (walBytes true 512 1 5 6 sampleFrames sampleTail)) = (g, true) /\
  sqliteWALCommittedPages (Some (walBytes true 512 1 5 6 sampleFrames sampleTail)) 512 =
    if (wg_committedFrames g =? 0)%Z then 0%Z
    else from_option (fun f => beUint32 (slice 4 8 f)) 0%Z
           (fileGeneration (walBytes true 512 1 5 6 sampleFrames sampleTail) !! Z.to_nat (wg_committedFrames g - 1)).
Proof.
  refine (wal_readers_agree (walBytes true 512 1 5 6 sampleFrames sampleTail) 512 _ _ _ _);
    [unfold bytes; apply (bool_decide_unpack _)|..]; [vm_compute; done|vm_compute; reflexivity|vm_compute; reflexivity|right; vm_compute; reflexivity].
Defined.

(** * The space a restore needs *)

Lemma beUint_bound n l : bytes l -> (beUint n l < 256 ^ Z.of_nat n)%Z.
Proof.
  intros Hb. unfold beUint. assert (bytes (firstn n l)) as Hf by (by apply Forall_take).
  assert (length (firstn n l) <= n) as Hl by (rewrite length_take; lia). revert Hf Hl. generalize (firstn n l). clear. intros l Hl Hn.
  enough (forall acc k, (0 <= acc < 256 ^ Z.of_nat k)%Z -> (fold_left (fun acc x => acc * 256 + x)%Z l acc < 256 ^ Z.of_nat (k + length l))%Z) as H.
  { eapply Z.lt_le_trans; [apply (H 0%Z 0); lia|]. apply Z.pow_le_mono_r; lia. }
  clear Hn. induction Hl as [|x l Hx _ IH]; intros acc k Ha; cbn [fold_left length]; [rewrite Nat.add_0_r; lia|].
  replace (k + S (length l)) with (S k + length l) by lia. apply IH. rewrite Nat2Z.inj_succ, Z.pow_succ_r by lia. lia.
Qed.
Lemma beUint32_range l : bytes l -> (0 <= beUint32 l < 2 ^ 32)%Z.
Proof. intros H. split; [by apply beUint_nonneg|]. by apply (beUint_bound 4). Qed.

Lemma committedLoop_range fuel order size salt1 salt2 s1 s2 c rest :
  bytes rest -> (0 <= c < 2 ^ 32)%Z -> (0 <= committedLoop fuel order size salt1 salt2 s1 s2 c rest < 2 ^ 32)%Z.
Proof.
  revert s1 s2 c rest. induction fuel as [|fuel IH]; intros s1 s2 c rest Hb Hc; cbn [committedLoop]; [done|].
  unfold ReadAt. destruct (negb _); [done|]. destruct (_ || _); [done|].
  destruct (sqliteWALChecksum _ _ _ _) as [t1 t2]. destruct (sqliteWALChecksum _ _ _ _) as [u1 u2]. destruct (_ || _); [done|].
  apply IH; [by apply Forall_drop|]. destruct (_ <? _)%Z; [|done]. apply beUint32_range. by do 2 apply bytes_slice.
Qed.
Lemma committedPages_range file pageSize : (forall b, file = Some b -> bytes b) -> (0 <= sqliteWALCommittedPages file pageSize < 2 ^ 32)%Z.
Proof.
  intros Hb. destruct file as [b|]; [|done]. specialize (Hb b eq_refl). unfold sqliteWALCommittedPages, ReadAt.
  destruct (negb _); [done|]. destruct (if (_ =? 931071618)%Z then _ else _); [|done]. destruct (_ || _); [done|].
  destruct (sqliteWALChecksum _ _ _ _) as [t1 t2]. destruct (_ || _); [done|]. apply committedLoop_range; [by apply Forall_drop|done].
Qed.
Lemma geometry_range file : (forall b, file = Some b -> bytes b) ->
  (0 <= fst (sqliteHeaderGeometry file) <= 65536 /\ 0 <= snd (sqliteHeaderGeometry file) < 2 ^ 32)%Z.
Proof.
  intros Hb. destruct file as [b|]; [|done]. specialize (Hb b eq_refl). unfold sqliteHeaderGeometry, ReadAt.
  destruct (_ || _); [done|]. cbv zeta. destruct (_ || _ || _) eqn:E; [done|]. cbn [fst snd]. split; [lia|].
  apply beUint32_range. by do 2 apply bytes_slice.
Qed.

(** The largest of the main file, the size its header declares and the size the
    newest commit of the WAL records. *)
Definition logicalSize (f : files) (sourcePath : string) : Z :=
  let '(pageSize, headerPages) := sqliteHeaderGeometry (f !! sourcePath) in
  Z.max (fileSize f sourcePath) (Z.max (headerPages * pageSize)
    (sqliteWALCommittedPages (f !! (sourcePath +:+ "-wal")) pageSize * pageSize)).

Definition smallFiles (f : files) : Prop := forall p b, f !! p = Some b -> bytes b /\ (zlen b < 2 ^ 60)%Z.

Lemma fileSize_range f p : smallFiles f -> (0 <= fileSize f p < 2 ^ 60)%Z.
Proof. intros H. unfold fileSize. destruct (f !! p) eqn:E; simpl; [|lia]. apply H in E as [_ E]. unfold zlen in *. lia. Qed.

Lemma estimate_is f sourcePath : smallFiles f ->
  estimateRestoreOutputBytes f sourcePath = logicalSize f sourcePath /\ (0 <= logicalSize f sourcePath < 2 ^ 60)%Z.
Proof.
  intros H. pose proof (fileSize_range f sourcePath H) as Hs. unfold estimateRestoreOutputBytes, logicalSize.
  pose proof (geometry_range (f !! sourcePath) ltac:(intros b Hb; by apply H in Hb as [? _])) as [Hp Hh].
  destruct (sqliteHeaderGeometry (f !! sourcePath)) as [ps hp]. cbn [fst snd] in *.
  pose proof (committedPages_range (f !! (sourcePath +:+ "-wal")) ps ltac:(intros b Hb; by apply H in Hb as [? _])) as Hc.
  set (c := sqliteWALCommittedPages _ _) in *. clearbody c.
  assert (0 <= hp * ps <= 2 ^ 48 /\ 0 <= c * ps <= 2 ^ 48)%Z as [H1 H2] by nia.
  rewrite !int64_small by (unfold min_int64, max_int64; lia).
  assert ((0 <? ps)%Z = false -> ps = 0%Z) by lia. assert ((0 <? hp)%Z = false -> hp = 0%Z) by lia. assert ((0 <? c)%Z = false -> c = 0%Z) by lia.
  destruct (0 <? ps)%Z eqn:E1, (0 <? hp)%Z eqn:E2, (0 <? c)%Z eqn:E3; cbn [andb];
    repeat match goal with Hx : false = false -> _ |- _ => specialize (Hx eq_refl); subst end; split; lia.
Qed.

Lemma needed_is n : (0 <= n < 2 ^ 60)%Z -> restoreNeededBytes n = Z.max (n + n * 10 / 100) (64 * 2 ^ 20).
Proof.
  intros H. unfold restoreNeededBytes. replace (n <? 0)%Z with false by lia. cbv zeta. unfold restoreCapacityMarginPercent.
  assert (0 <= n * 10 / 100 <= n)%Z by (Z.to_euclidean_division_equations; lia).
  rewrite !uint64_small; try done; unfold max_uint64; rewrite ?uint64_small; unfold max_uint64; try lia.
Qed.

(** ** The abandoned output *)

Lemma removeAll_spec (removeErr : string -> option string) (paths : list string) (f f' : files) (errs0 errs : list string) :
  fold_left (fun '(f, errs) path =>
    if bool_decide (is_Some (f !! path))
    then match removeErr path with Some e => (f, errs ++ [e]) | None => (delete path f, errs) end
    else (f, errs)) paths (f, errs0) = (f', errs) ->
  (forall p, p ∉ paths -> f' !! p = f !! p) /\ (forall p, f' !! p = None \/ f' !! p = f !! p) /\
  (errs = errs0 -> forall p, p ∈ paths -> f' !! p = None) /\
  (errs = errs0 \/ exists p, p ∈ paths /\ removeErr p <> None) /\ (length errs0 <= length errs).
Proof.
  revert f errs0. induction paths as [|q paths IH]; intros f errs0.
  { intros [= <- <-]. split_and!; [done|by right|intros _ p Hp; by apply not_elem_of_nil in Hp|by left|done]. }
  rewrite fold_left_cons. case_bool_decide as Hq; [destruct (removeErr q) as [e|] eqn:He|]; intros Hf; apply IH in Hf as (H1 & H2 & H3 & H4 & H5).
  - split_and!; try done.
    + intros p [_ Hp]%not_elem_of_cons. by apply H1.
    + intros ->. rewrite length_app in H5. simpl in H5. lia.
    + right. exists q. split; [apply list_elem_of_here|congruence].
    + rewrite length_app in H5. lia.
  - split_and!; try done.
    + intros p [Hne Hp]%not_elem_of_cons. rewrite H1 by done. by rewrite lookup_delete_ne.
    + intros p. destruct (H2 p) as [| ->]; [by left|]. destruct (decide (q = p)) as [->|]; [left; apply lookup_delete_eq|right; by apply lookup_delete_ne].
    + intros E p [->|Hp]%elem_of_cons; [|by apply H3]. destruct (H2 q) as [| ->]; [done|apply lookup_delete_eq].
    + destruct H4 as [|(p & ? & ?)]; [by left|right; exists p; split; [by apply list_elem_of_further|done]].
  - split_and!; try done.
    + intros p [_ Hp]%not_elem_of_cons. by apply H1.
    + intros E p [->|Hp]%elem_of_cons; [|by apply H3]. destruct (H2 q) as [| ->]; [done|]. by apply eq_None_not_Some.
    + destruct H4 as [|(p & ? & ?)]; [by left|right; exists p; split; [by apply list_elem_of_further|done]].
Qed.

Lemma abandoned_removed removeErr restoredPath f f' err :
  removeAbandonedRestoreOutput removeErr restoredPath f = (f', err) ->
  (forall p, p ∉ restoreOutputPaths restoredPath -> f' !! p = f !! p) /\ (forall p, f' !! p = None \/ f' !! p = f !! p) /\
  match err with
  | None => forall p, p ∈ restoreOutputPaths restoredPath -> f' !! p = None
  | Some _ => exists p, p ∈ restoreOutputPaths restoredPath /\ removeErr p <> None
  end.
Proof.
  unfold removeAbandonedRestoreOutput. destruct (removeAll _ _ f) as [f1 errs] eqn:E. intros [= <- <-].
  apply removeAll_spec in E as (H1 & H2 & H3 & H4 & _). split_and!; [done|done|]. destruct errs as [|e errs]; simpl; [by apply H3|].
  by destruct H4 as [|?].
Qed.

(** Before a restore the files an interrupted one left are removed, and nothing
    else; the restore is refused as a shortage of the harness's disk exactly when the free
    space is known and less than the larger of 64 MiB and the logical size of the source
    plus a tenth, computed without overflow, where the logical size is never below the size
    of the main file. *)
Theorem restore_capacity_checked removeErr freeBytes restoredPath sourcePath f f' err :
  smallFiles f -> checkRestoreCapacity removeErr freeBytes restoredPath sourcePath f = (f', err) ->
  let size := logicalSize f' sourcePath in
  let needed := Z.max (size + size * 10 / 100) (64 * 2 ^ 20) in
  (fileSize f' sourcePath <= size)%Z /\
  (forall p, p ∉ restoreOutputPaths restoredPath -> f' !! p = f !! p) /\
  match err with
  | None => (forall p, p ∈ restoreOutputPaths restoredPath -> f' !! p = None) /\ forall free, freeBytes = Ok free -> (needed <= free)%Z
  | Some e => if errorsIs e restoreCapacityInconclusiveError then exists free, freeBytes = Ok free /\ (free < needed)%Z
              else exists p, p ∈ restoreOutputPaths restoredPath /\ removeErr p <> None
  end.
Proof.
  intros Hf. unfold checkRestoreCapacity. destruct (removeAbandonedRestoreOutput removeErr restoredPath f) as [f1 e1] eqn:E.
  apply abandoned_removed in E as (H1 & H2 & H3). intros Hc.
  assert (f' = f1) as -> by (destruct e1, freeBytes as [free|]; [..|]; try destruct (_ <=? free)%Z; congruence).
  assert (smallFiles f1) as Hf1.
  { intros p b Hp. destruct (H2 p) as [H0|H0]; rewrite H0 in Hp; [done|by apply (Hf p)]. }
  destruct (estimate_is f1 sourcePath Hf1) as [He Hr]. rewrite He, (needed_is _ Hr) in Hc.
  set (size := logicalSize f1 sourcePath) in *. cbv zeta. split_and!; [|done|].
  { unfold size, logicalSize. destruct (sqliteHeaderGeometry _). lia. }
  destruct e1 as [e1|]; [by injection Hc as <-|]. destruct freeBytes as [free|]; [|by injection Hc as <-].
  destruct (Z.leb_spec (Z.max (size + size * 10 / 100) (64 * 2 ^ 20)) free); injection Hc as <-; [|by exists free].
  split; [done|]. by intros ? [= <-].
Qed.
Lemma restore_capacity_checked_witness :
  let f : files := {["/d/db.restored.tmp" := [1%Z]]} in
  let '(f', err) := checkRestoreCapacity (fun _ => None) (Ok 1000%Z) "/d/db.restored" "/d/db" f in
  f' = ∅ /\ exists e, err = Some e /\ errorsIs e restoreCapacityInconclusiveError = true /\
  (fileSize f' "/d/db" <= logicalSize f' "/d/db")%Z.
Proof.
  cbv zeta. destruct (checkRestoreCapacity _ _ _ _ _) as [f' err] eqn:E.
  pose proof (restore_capacity_checked (fun _ => None) (Ok 1000%Z) "/d/db.restored" "/d/db" {["/d/db.restored.tmp" := [1%Z]]} f' err) as H.
  assert (smallFiles {["/d/db.restored.tmp" := [1%Z]]}) as Hs.
  { intros p b [_ <-]%lookup_singleton_Some. split; [repeat constructor; lia|vm_compute; reflexivity]. }
  destruct (H Hs E) as [H1 _]. vm_compute in E. injection E as <- <-. split; [reflexivity|]. eexists. split_and!; [reflexivity|reflexivity|exact H1].
Defined.
