(* ===== verification/WalReset.v ===== *)
(** The WAL reset check of [worker/walreset_check.go]: one cycle stops Litestream
    in the middle of a write burst, restarts the WAL several times while it is
    down, starts it again and restores the replica.

    The check takes every external interaction as a function, and so does the
    model: an [environment] answers each call from the history of the calls made
    before it, so that a theorem about all environments is about every behaviour
    of SQLite, Litestream, the replica and the clock.  A cycle threads its
    observation and the history; deferred calls run where Go runs them.  The two
    loops that wait for a deadline take fuel. *)
From stdpp Require Import sorting.
From Stdlib Require Import Ascii.
From S2P Require Import Prelude GoStrings Model GoTime Classification GateFleet GateVerdict LtxCoverage WalFrames WorkerErrors.

(** * The observation of a cycle *)

Definition walResetCheckType := "walreset".
Definition walResetRestoreMode := "walreset-restore".
Definition walResetStep := "wal_reset".
Definition walResetBatchRows : Z := 64.
Definition walResetBurstBytes : Z := Z.shiftl 12 20.
Definition walResetReaderHoldBytes : Z := Z.quot walResetBurstBytes 2.
Definition walResetMinResets : Z := 3.
Definition walResetTargetResets : Z := 5.
Definition walResetGenerationBaseRows : Z := 200.
Definition walResetGenerationStepRows : Z := 100.
Definition walResetRestartAttempts : nat := 40.
Definition walResetDrainAttempts : nat := 8.
Definition walResetShapeConfirmed := "confirmed".
Definition walResetShapeUnverified := "unverified".
Definition walResetShapeContradicted := "contradicted".

(** The resets between two headers, in 32 bits. *)
Definition walResetCount (before after : walHeader) : Z :=
  if negb (wh_valid before) || negb (wh_valid after) then 0%Z else uint32 (wh_salt1 after - wh_salt1 before).

Record walResetL9 := mkL9 { l9_objects : list string; l9_known : bool }.
Definition l9_count (l : walResetL9) : Z := Z.of_nat (length (l9_objects l)).
Definition changed (l other : walResetL9) : bool :=
  if negb (length (l9_objects l) =? length (l9_objects other)) then true
  else existsb (fun ab => negb (fst ab =s snd ab)) (zip (l9_objects l) (l9_objects other)).

Record walResetSaltScan := mkScan {
  ss_checked : bool;
  ss_from : Z;
  ss_to : Z;
  ss_frames : Z;
  ss_foreignFrames : Z;
  ss_foreignOffset : Z;
  ss_foreignSalt1 : Z;
  ss_foreignSalt2 : Z;
  ss_err : string
}.
#[export] Instance walResetSaltScan_eta : Settable walResetSaltScan :=
  fun r => mkScan (ss_checked r) (ss_from r) (ss_to r) (ss_frames r) (ss_foreignFrames r) (ss_foreignOffset r)
    (ss_foreignSalt1 r) (ss_foreignSalt2 r) (ss_err r).
Definition walResetSaltScan_zero : walResetSaltScan := mkScan false 0 0 0 0 0 0 0 "".

Record walResetObservation := mkObservation {
  ob_signalHeader : walHeader;
  ob_savedHeader : walHeader;
  ob_savedPosition : Z;
  ob_savedPositionFile : string;
  ob_savedPositionSalt1 : Z;
  ob_savedAtSignal : Z;
  ob_savedAtExit : Z;
  ob_finalWAL : walGeneration;
  ob_maxGenerationEnd : Z;
  ob_maxGenerationWritten : Z;
  ob_maxEarlierGenerationWritten : Z;
  ob_readerHeldAt : Z;
  ob_tail : walResetSaltScan;
  ob_resets : Z;
  ob_checkpoints : Z;
  ob_generations : Z;
  ob_burstRows : Z;
  ob_downRows : Z;
  ob_downDuration : duration;
  ob_litestreamExit : string;
  ob_l9Before : walResetL9;
  ob_l9After : walResetL9;
  ob_uploadedBytes : Z;
  ob_uploadedKnown : bool;
  ob_syncTXID : Z;
  ob_replicatedTXID : Z;
  ob_catchUpDuration : duration;
  ob_restarted : bool
}.
#[export] Instance walResetObservation_eta : Settable walResetObservation :=
  fun r => mkObservation (ob_signalHeader r) (ob_savedHeader r) (ob_savedPosition r) (ob_savedPositionFile r)
    (ob_savedPositionSalt1 r) (ob_savedAtSignal r) (ob_savedAtExit r) (ob_finalWAL r) (ob_maxGenerationEnd r)
    (ob_maxGenerationWritten r) (ob_maxEarlierGenerationWritten r) (ob_readerHeldAt r) (ob_tail r) (ob_resets r)
    (ob_checkpoints r) (ob_generations r) (ob_burstRows r) (ob_downRows r) (ob_downDuration r) (ob_litestreamExit r)
    (ob_l9Before r) (ob_l9After r) (ob_uploadedBytes r) (ob_uploadedKnown r) (ob_syncTXID r) (ob_replicatedTXID r)
    (ob_catchUpDuration r) (ob_restarted r).
Definition walResetObservation_zero : walResetObservation :=
  mkObservation walHeader_zero walHeader_zero 0 "" 0 0 0 walGeneration_zero 0 0 0 0 walResetSaltScan_zero 0 0 0 0 0 0 ""
    (mkL9 [] false) (mkL9 [] false) 0 false 0 0 0 false.

(** What the measurements say about the shape of the stale frames. *)
Definition shapeEvidence (o : walResetObservation) : string * string :=
  let i := fmt_int in
  let final := ob_finalWAL o in
  let tail := ob_tail o in
  if (ob_savedPosition o <=? walHeaderSize)%Z
  then (walResetShapeUnverified, "litestream's saved position was not readable from its newest L0 ltx file")
  else if negb (wh_valid (wg_header final))
  then (walResetShapeUnverified, "wal header unreadable after the down window")
  else if (wg_fileBytes final <? ob_savedPosition o)%Z
  then (walResetShapeContradicted,
        "the wal shrank to " +:+ i (wg_fileBytes final) +:+ " bytes below litestream's saved position " +:+ i (ob_savedPosition o))
  else if (ob_savedPosition o <=? ob_maxGenerationWritten o)%Z
  then (walResetShapeContradicted,
        "a post-stop wal generation wrote up to " +:+ i (ob_maxGenerationWritten o) +:+
        " bytes, at or past litestream's saved position " +:+ i (ob_savedPosition o))
  else if (writtenEnd final <? ob_maxEarlierGenerationWritten o)%Z
  then (walResetShapeContradicted,
        "an earlier post-stop wal generation wrote up to " +:+ i (ob_maxEarlierGenerationWritten o) +:+
        " bytes, past the final generation's " +:+ i (writtenEnd final) +:+
        ", so its stale frames sit between the final generation and litestream's saved frames")
  else if negb (ss_err tail =s "")
  then (walResetShapeUnverified,
        "the wal frames between the final generation's end " +:+ i (ss_from tail) +:+ " and litestream's saved position " +:+
        i (ss_to tail) +:+ " could not be read: " +:+ ss_err tail)
  else if negb (ss_checked tail)
  then (walResetShapeUnverified, "the wal frames between the final generation's end and litestream's saved position were not read")
  else if (0 <? ss_foreignFrames tail)%Z
  then (walResetShapeContradicted,
        i (ss_foreignFrames tail) +:+ " of the " +:+ i (ss_frames tail) +:+ " wal frames between the final generation's end " +:+
        i (ss_from tail) +:+ " and litestream's saved position " +:+ i (ss_to tail) +:+ " carry other salts (first at " +:+
        i (ss_foreignOffset tail) +:+ ": " +:+ i (ss_foreignSalt1 tail) +:+ "/" +:+ i (ss_foreignSalt2 tail) +:+
        "), so litestream's startup scan meets a generation it does not know")
  else (walResetShapeConfirmed,
        "litestream's saved position " +:+ i (ob_savedPosition o) +:+ " is inside the " +:+ i (wg_fileBytes final) +:+
        "-byte wal, every post-stop generation ended below it (max written " +:+ i (ob_maxGenerationWritten o) +:+
        "), the final generation is the longest (" +:+ i (writtenEnd final) +:+ "), and the " +:+ i (ss_frames tail) +:+
        " frames between its end and the saved position carry the saved generation's salts").

Definition underscored (s : string) : string := str_map (fun c => if Ascii.eqb c " " then "_"%char else c) s.

Definition observationSummary (o : walResetObservation) : string :=
  let i := fmt_int in
  let '(shape, detail) := shapeEvidence o in
  let final := ob_finalWAL o in
  Join (["wal_resets=" +:+ i (ob_resets o); "checkpoints=" +:+ i (ob_checkpoints o);
     "generations_seen=" +:+ i (ob_generations o); "shape_evidence=" +:+ shape;
     "saved_position=" +:+ i (ob_savedPosition o) +:+ " saved_position_ltx=" +:+
       GateFleet.firstNonEmpty [ob_savedPositionFile o; "none"] +:+ " saved_at_signal=" +:+ i (ob_savedAtSignal o) +:+
       " saved_at_exit=" +:+ i (ob_savedAtExit o) +:+ " reader_held_at=" +:+ i (ob_readerHeldAt o);
     "max_generation_end=" +:+ i (ob_maxGenerationEnd o) +:+ " max_generation_written=" +:+ i (ob_maxGenerationWritten o) +:+
       " max_earlier_generation_written=" +:+ i (ob_maxEarlierGenerationWritten o) +:+ " final_generation_end=" +:+
       i (generationEnd final) +:+ " final_generation_written=" +:+ i (writtenEnd final) +:+ " final_generation_frames=" +:+
       i (wg_committedFrames final) +:+ " final_wal_bytes=" +:+ i (wg_fileBytes final);
     "burst_rows=" +:+ i (ob_burstRows o); "down_rows=" +:+ i (ob_downRows o);
     "down_seconds=" +:+ Format1f (Seconds (ob_downDuration o))] ++
    (if negb (ob_litestreamExit o =s "") then ["litestream_exit=" +:+ ob_litestreamExit o] else []) ++
    (if wh_valid (ob_savedHeader o)
     then ["salt1_before=" +:+ i (wh_salt1 (ob_savedHeader o)) +:+ " salt1_after=" +:+ i (wh_salt1 (wg_header final)) +:+
           " ckpt_seq_before=" +:+ i (wh_checkpointSeq (ob_savedHeader o)) +:+ " ckpt_seq_after=" +:+
           i (wh_checkpointSeq (wg_header final))] else []) ++
    (if wh_valid (ob_signalHeader o) then ["salt1_at_signal=" +:+ i (wh_salt1 (ob_signalHeader o))] else []) ++
    (if l9_known (ob_l9Before o) && l9_known (ob_l9After o)
     then ["l9_before=" +:+ i (l9_count (ob_l9Before o)) +:+ " l9_after=" +:+ i (l9_count (ob_l9After o)) +:+ " l9_changed=" +:+
           (if changed (ob_l9Before o) (ob_l9After o) then "true" else "false")]
     else if l9_known (ob_l9Before o) then ["l9_before=" +:+ i (l9_count (ob_l9Before o)) +:+ " l9_after=unknown"]
     else ["l9_before=unknown l9_after=unknown"]) ++
    (if ob_uploadedKnown o then ["uploaded_bytes=" +:+ i (ob_uploadedBytes o)] else []) ++
    (if negb (ob_syncTXID o =? 0)%Z
     then ["catchup_txid=" +:+ formatTXID (ob_syncTXID o) +:+ " replicated_txid=" +:+ formatTXID (ob_replicatedTXID o) +:+
           " catchup_seconds=" +:+ Format1f (Seconds (ob_catchUpDuration o))] else []) ++
    ["shape_detail=" +:+ underscored detail])%list " ".

Definition snapshotInterference (o : walResetObservation) : option goError :=
  if negb (l9_known (ob_l9Before o))
  then Some (wrapped errWALResetSnapshotInterference "the replica's L9 objects could not be listed before the stop")
  else if negb (l9_known (ob_l9After o))
  then Some (wrapped errWALResetSnapshotInterference "the replica's L9 objects could not be listed after the restores")
  else if changed (ob_l9Before o) (ob_l9After o)
  then Some (wrapped errWALResetSnapshotInterference
         ("the replica's L9 objects changed during the cycle (" +:+ fmt_int (l9_count (ob_l9Before o)) +:+ " -> " +:+
          fmt_int (l9_count (ob_l9After o)) +:+ ": " +:+ Join (l9_objects (ob_l9Before o)) "," +:+ " -> " +:+
          Join (l9_objects (ob_l9After o)) "," +:+ ")"))
  else None.

(** * The validation *)

Record walResetValidation := mkValidation {
  va_phase : string;
  va_boundary : Z;
  va_pinnedPassed : bool;
  va_latestPassed : bool;
  va_latestTXID : Z;
  va_latestAheadBy : Z;
  va_restoreSignature : string
}.
Definition walResetValidation_zero : walResetValidation := mkValidation "" 0 false false 0 0 "".

Definition validationSummary (v : walResetValidation) : string :=
  let status (passed : bool) := if passed then "passed" else "failed" in
  "pinned_restore=" +:+ status (va_pinnedPassed v) +:+ " latest_restore=" +:+ status (va_latestPassed v) +:+
  " restored_txid=" +:+ formatTXID (va_boundary v) +:+ " latest_txid=" +:+ formatTXID (va_latestTXID v) +:+
  (if (0 <? va_latestAheadBy v)%Z then " latest_ahead_by=" +:+ fmt_int (va_latestAheadBy v) else "") +:+
  (if negb (va_restoreSignature v =s "") then " restore_signature=" +:+ va_restoreSignature v else "").

Definition checkWALResetLatestTXID (restored boundary : Z) : result goError Z :=
  if (restored =? 0)%Z then Err (mkErr [errWALResetMissingPlan] (markText errWALResetMissingPlan))
  else if (restored <? boundary)%Z
  then Err (mkErr [] ("latest restore landed on txid " +:+ formatTXID restored +:+ ", behind boundary " +:+ formatTXID boundary))
  else Ok (restored - boundary)%Z.

Definition walResetDataDefectMarker (message : string) : bool :=
  existsb (Contains (ToLower message))
    ["decode"; "read page header"; "checksum mismatch"; "unexpected eof"; "missing ltx"; "open ltx file: file does not exist";
     "wrong # of entries in index"].

Definition walResetRestoreSignature (e : goError) : string * bool :=
  let classification := ClassifyVerificationFailure "restore" (ge_text e) in
  let signature := fc_Signature classification in
  match fc_ObjectStore classification with
  | Some _ => (signature, false)
  | None =>
      if slices_Contains ["restore_decode_error"; "restore_missing_ltx"; "sqlite_index_mismatch"] signature then (signature, true)
      else if signature =s "restore_plan_failed" then (signature, walResetDataDefectMarker (ge_text e))
      else (signature, false)
  end.

Definition walResetValidationError (phase : string) (e : goError) : string * goError :=
  let bare := TrimPrefix phase "latest_" in
  if errorsIs e verifierDeadlineError || errorsIs e contextDeadlineExceeded || errorsIs e contextCanceled
  then ("", wrapped errWALResetUnavailable (phase +:+ " ran out of time, no corruption evidence: " +:+ ge_text e))
  else if errorsIs e restoreCapacityInconclusiveError || errorsIs e restoredComparisonLockedError ||
          errorsIs e errWALResetMissingPlan || errorsIs e errWALResetLatestAdvanced
  then ("", wrapped errWALResetUnavailable (phase +:+ ": " +:+ ge_text e))
  else if (bare =s "source_snapshot") || (bare =s "restore_preflight")
  then ("", wrapped errWALResetUnavailable (phase +:+ ": " +:+ ge_text e))
  else if bare =s "restore"
  then
    let '(signature, defect) := walResetRestoreSignature e in
    if negb defect || errorsIs e restoreEvidenceInconclusiveError
    then (signature, wrapped errWALResetUnavailable (phase +:+ ": " +:+ signature +:+ ": " +:+ ge_text e))
    else (signature, mkErr (ge_marks e) (signature +:+ ": " +:+ ge_text e))
  else ("", e).

Definition walResetInconclusive (e : goError) : bool :=
  errorsIs e errWALResetShapeNotReached || errorsIs e errWALResetLitestreamRestart || errorsIs e errWALResetCatchUpTimeout ||
  errorsIs e errWALResetUnavailable || errorsIs e errWALResetSnapshotInterference || errorsIs e errWALResetGateBusy.

Definition walResetInconclusiveSignature (e : goError) : string :=
  if errorsIs e errWALResetShapeNotReached then "walreset_shape_not_reached"
  else if errorsIs e errWALResetLitestreamRestart then "walreset_litestream_restart_failed"
  else if errorsIs e errWALResetCatchUpTimeout then "walreset_catchup_timeout"
  else if errorsIs e errWALResetSnapshotInterference then "walreset_snapshot_interference"
  else "walreset_unavailable".

Definition walResetFailureMessage (phase : string) (e : goError) : string :=
  let latest := HasPrefix phase "latest_" in
  let variant := if latest then " (latest)" else "" in
  let phase := if latest then TrimPrefix phase "latest_" else phase in
  if phase =s "integrity_check" then "wal reset integrity failed" +:+ variant +:+ ": " +:+ ge_text e
  else if phase =s "compare" then "wal reset logical mismatch" +:+ variant +:+ ": " +:+ ge_text e
  else "wal reset restore failed" +:+ variant +:+ ": " +:+ ge_text e.

(** The fields of [VerificationResult] and of its first step that the check
    fills in; the steps of the validation follow it. *)
Record walResetVerification := mkVerification {
  wr_StartedAt : time;
  wr_CompletedAt : time;
  wr_CheckType : string;
  wr_RestoreMode : string;
  wr_DurationMS : Z;
  wr_SyncTXID : Z;
  wr_BoundaryTXID : Z;
  wr_Status : string;
  wr_Passed : bool;
  wr_Summary : string;
  wr_ErrorMessage : string;
  wr_StepStatus : string;
  wr_StepError : string;
  wr_StepOutput : string;
  wr_Inconclusive : option FailureClassification
}.

Definition walResetResult (o : walResetObservation) (v : walResetValidation) (e : option goError) (startedAt completedAt : time)
  : walResetVerification :=
  let summary := observationSummary o +:+
    (if negb (va_boundary v =? 0)%Z || va_pinnedPassed v || va_latestPassed v then " " +:+ validationSummary v else "") in
  let mk := mkVerification startedAt completedAt walResetCheckType walResetRestoreMode
              (Z.quot (time_Sub completedAt startedAt) Millisecond) (ob_syncTXID o) (va_boundary v) in
  let output := tailString summary (Z.to_nat 8192) in
  match e with
  | None =>
      mk "passed" true ("wal reset check passed: pinned and latest restores at txid " +:+ formatTXID (va_boundary v) +:+
        " are intact and match the primary after " +:+ fmt_int (ob_resets o) +:+ " wal resets while litestream was down (" +:+
        summary +:+ ")") "" "ok" "" output None
  | Some e =>
      if walResetInconclusive e then
        let message := "wal reset check skipped: " +:+ ge_text e in
        mk "aborted" false ("verification inconclusive: " +:+ message +:+ " (" +:+ summary +:+ ")") message "inconclusive" message
          output (Some (FailureClassification_zero <| fc_Stage := walResetStep |>
                          <| fc_Signature := walResetInconclusiveSignature e |> <| fc_RestoreMode := walResetRestoreMode |>))
      else
        let message := walResetFailureMessage (va_phase v) e in
        mk "failed" false ("wal reset check failed after " +:+ fmt_int (ob_resets o) +:+ " wal resets while litestream was down (" +:+
          summary +:+ ")") message "error" message output None
  end.

(** * The scan of the stale frames *)

(** [offset+frameSize <= to] frames from [from] on; [fuel] frames are enough when
    it is the range over the frame size. *)
Fixpoint scanFrames (fuel : nat) (file : list Z) (offset to frameSize : Z) (allowed : list (Z * Z)) (scan : walResetSaltScan)
  : result string walResetSaltScan * walResetSaltScan :=
  match fuel with
  | O => (Ok scan, scan)
  | S fuel =>
      if negb (offset + frameSize <=? to)%Z then (Ok scan, scan)
      else
        let '(header, full) := ReadAt file offset 16 in
        if negb full then (Err ("read frame at " +:+ fmt_int offset +:+ ": EOF"), scan)
        else
          let salt1 := beUint32 (slice 8 12 header) in
          let salt2 := beUint32 (slice 12 16 header) in
          let scan := scan <| ss_frames ::= Z.succ |> in
          let known := existsb (fun salts => (fst salts =? salt1)%Z && (snd salts =? salt2)%Z) allowed in
          let scan :=
            if known then scan
            else
              let scan := if (ss_foreignFrames scan =? 0)%Z
                          then scan <| ss_foreignOffset := offset |> <| ss_foreignSalt1 := salt1 |> <| ss_foreignSalt2 := salt2 |>
                          else scan in
              scan <| ss_foreignFrames ::= Z.succ |> in
          scanFrames fuel file (offset + frameSize) to frameSize allowed scan
  end.

(** The WAL file is [None] when it cannot be opened. *)
Definition scanWALFrameSalts (file : option (list Z)) (from to frameSize : Z) (allowed : list (Z * Z)) : walResetSaltScan * option string :=
  let scan := walResetSaltScan_zero <| ss_from := from |> <| ss_to := to |> in
  if (frameSize <=? 0)%Z then (scan, Some ("frame size " +:+ fmt_int frameSize))
  else match file with
       | None => (scan, Some "open wal")
       | Some file =>
           match scanFrames (Z.to_nat ((to - from) / frameSize)) file from to frameSize allowed scan with
           | (Ok scan, _) => (scan <| ss_checked := true |>, None)
           | (Err e, scan) => (scan, Some e)
           end
       end.

(** * The environment *)

(** A call with the part of its outcome that decides what is held afterwards. *)
Inductive call :=
| CUploaded
| CGeneration
| CHoldReader (ok : bool)
| CReleaseReader
| CBurst
| CCtx
| CBurstCtx
| CDownCtx
| CL9
| CDowntime (down : bool)
| CStop (ok : bool)
| CClock
| CSavedPosition
| CRestartWrite
| CHeaderPoll
| CPauseLoad (ok : bool)
| CDrain
| CDrainPause
| CResumeLoad
| CFrameSalts
| CStart (ok : bool)
| CCatchUp
| CCatchUpPoll
| CValidate
| CAcquireGate (ok : bool)
| CReleaseGate.

(** Every answer may depend on the history, newest call first.  [None] is the
    absence of an error. *)
Record environment := mkEnv {
  en_uploaded : list call -> Z * bool;
  en_generation : list call -> result string walGeneration;
  en_holdReader : list call -> option string;
  en_releaseReader : list call -> option string;
  en_burst : list call -> Z -> Z * option string;
  en_ctxErr : list call -> option string;
  en_burstCtxErr : list call -> option string;
  en_downCtxErr : list call -> option string;
  en_l9 : list call -> walResetL9;
  en_stop : list call -> string * option string;
  en_clock : list call -> time;
  en_savedPosition : list call -> result string litestreamSavedPosition;
  en_restartWrite : list call -> Z * option string;
  en_headerPoll : list call -> option string;
  en_pauseLoad : list call -> option string;
  en_drainWriters : list call -> option string;
  en_drainPause : list call -> option string;
  en_frameSalts : list call -> Z -> Z -> Z -> list (Z * Z) -> walResetSaltScan * option string;
  en_start : list call -> option string;
  en_catchUp : list call -> result string (Z * Z);
  en_catchUpPoll : list call -> option string;
  en_validate : list call -> walResetValidation * option goError;
  en_acquireGate : list call -> option string
}.

Record walResetConfig := mkResetConfig {
  rc_burstBytes : Z;
  rc_readerHoldBytes : Z;
  rc_minResets : Z;
  rc_targetResets : Z;
  rc_burstBudget : duration;
  rc_catchUpBudget : duration
}.

Definition walResetBurstBudget : duration := (3 * Minute)%Z.
Definition walResetCatchUpBudget : duration := (10 * Minute)%Z.
(** The numbers the production check runs with. *)
Definition newWALResetCheck : walResetConfig :=
  mkResetConfig walResetBurstBytes walResetReaderHoldBytes walResetMinResets walResetTargetResets walResetBurstBudget
    walResetCatchUpBudget.

(** [releaseOnce]: the release of a held reader runs once and keeps its error. *)
Inductive readerState := NoReader | ReaderHeld | ReaderReleased (err : option string).

Record cycleState := mkCycle {
  cy_hist : list call;
  cy_obs : walResetObservation;
  cy_lastSalt2 : Z;
  cy_reader : readerState;
  (** the resume of the paused load has not been called *)
  cy_resume : bool
}.
#[export] Instance cycleState_eta : Settable cycleState :=
  fun r => mkCycle (cy_hist r) (cy_obs r) (cy_lastSalt2 r) (cy_reader r) (cy_resume r).

(** Steps of a cycle: [None] when the fuel of a waiting loop ran out. *)
Definition M (A : Type) : Type := cycleState -> option (result goError A) * cycleState.
Definition ret {A} (a : A) : M A := fun c => (Some (Ok a), c).
Definition fail {A} (e : goError) : M A := fun c => (Some (Err e), c).
Definition outOfFuel {A} : M A := fun c => (None, c).
Definition bind {A B} (m : M A) (k : A -> M B) : M B := fun c =>
  match m c with
  | (Some (Ok a), c) => k a c
  | (Some (Err e), c) => (Some (Err e), c)
  | (None, c) => (None, c)
  end.
Notation "'do!' x := m 'in' k" := (bind m (fun x => k)) (at level 10, x name, m at level 100, k at level 200).
Notation "m ;;! k" := (bind m (fun _ => k)) (at level 199, right associativity).

Definition updateObs (f : walResetObservation -> walResetObservation) : M () := fun c => (Some (Ok ()), c <| cy_obs ::= f |>).
Definition observed : M walResetObservation := fun c => (Some (Ok (cy_obs c)), c).
Definition ask {X} (answer : list call -> X) (event : X -> call) : M X :=
  fun c => let x := answer (cy_hist c) in (Some (Ok x), c <| cy_hist ::= cons (event x) |>).

Section Cycle.
Variables (env : environment) (cfg : walResetConfig).

Definition isOk (e : option string) : bool := match e with None => true | Some _ => false end.

Definition uploaded : M (Z * bool) := ask (en_uploaded env) (fun _ => CUploaded).
Definition generation : M (result string walGeneration) := ask (en_generation env) (fun _ => CGeneration).
Definition ctxErr : M (option string) := ask (en_ctxErr env) (fun _ => CCtx).
Definition burst (rows : Z) : M (Z * option string) := ask (fun h => en_burst env h rows) (fun _ => CBurst).
Definition clock : M time := ask (en_clock env) (fun _ => CClock).
Definition downtime (down : bool) : M () := ask (fun _ => ()) (fun _ => CDowntime down).

(** The WAL reading, an error of the given class when it fails. *)
Definition readWAL (m : errMark) (what : string) : M walGeneration :=
  do! wal := generation in
  match wal with Ok wal => ret wal | Err e => fail (wrapped m (what +:+ ": " +:+ e)) end.

Definition holdReader : M () :=
  do! err := ask (en_holdReader env) (fun err => CHoldReader (isOk err)) in
  match err with
  | Some e => fail (wrapped errWALResetUnavailable ("hold read transaction: " +:+ e))
  | None => fun c => (Some (Ok ()), c <| cy_reader := ReaderHeld |>)
  end.
Definition releaseReader : M (option string) := fun c =>
  match cy_reader c with
  | NoReader => ret None c
  | ReaderReleased err => ret err c
  | ReaderHeld =>
      (do! err := ask (en_releaseReader env) (fun _ => CReleaseReader) in
       fun c => (Some (Ok err), c <| cy_reader := ReaderReleased err |>)) c
  end.

(** Returned to the caller when its own context ended. *)
Definition unavailableOnCancel : M () :=
  do! err := ctxErr in
  match err with Some e => fail (wrapped errWALResetUnavailable e) | None => ret () end.

(** (1) The burst, with the reader opened halfway. *)
Fixpoint burstPhase (fuel : nat) : M () :=
  match fuel with
  | O => outOfFuel
  | S fuel =>
      do! wal := readWAL errWALResetUnavailable "read wal" in
      do! o := observed in
      (if wh_valid (wg_header wal) && (ob_readerHeldAt o =? 0)%Z && (rc_readerHoldBytes cfg <=? generationEnd wal)%Z
       then holdReader ;;! updateObs (fun o => o <| ob_readerHeldAt := generationEnd wal |>)
       else ret ()) ;;!
      do! o := observed in
      if wh_valid (wg_header wal) && negb (ob_readerHeldAt o =? 0)%Z && (rc_burstBytes cfg <=? generationEnd wal)%Z then ret ()
      else
        unavailableOnCancel ;;!
        do! expired := ask (en_burstCtxErr env) (fun _ => CBurstCtx) in
        match expired with
        | Some _ => fail (wrapped errWALResetShapeNotReached
                      ("wal reached " +:+ fmt_int (generationEnd wal) +:+ " of " +:+ fmt_int (rc_burstBytes cfg) +:+
                       " bytes within " +:+ DurationString (rc_burstBudget cfg)))
        | None =>
            do! answer := burst walResetBatchRows in
            updateObs (fun o => o <| ob_burstRows ::= Z.add (fst answer) |>) ;;!
            match snd answer with
            | Some e => unavailableOnCancel ;;! fail (wrapped errWALResetUnavailable ("burst write: " +:+ e))
            | None => burstPhase fuel
            end
        end
  end.

Definition recordGeneration (wal : walGeneration) : M () := fun c =>
  let o := cy_obs c in
  let fresh := negb (wh_salt2 (wg_header wal) =? cy_lastSalt2 c)%Z in
  let o := if fresh
           then (if wh_valid (wg_header (ob_finalWAL o)) && (0 <? walResetCount (ob_savedHeader o) (wg_header (ob_finalWAL o)))%Z
                 then o <| ob_maxEarlierGenerationWritten ::= Z.max (writtenEnd (ob_finalWAL o)) |> else o)
                <| ob_generations ::= Z.succ |>
           else o in
  let o := o <| ob_finalWAL := wal |> in
  let o := if (0 <? walResetCount (ob_savedHeader o) (wg_header wal))%Z
           then o <| ob_maxGenerationEnd ::= Z.max (generationEnd wal) |> <| ob_maxGenerationWritten ::= Z.max (writtenEnd wal) |>
           else o in
  (Some (Ok ()), c <| cy_obs := o |> <| cy_lastSalt2 := if fresh then wh_salt2 (wg_header wal) else cy_lastSalt2 c |>).

Definition recordSavedPosition (exitWAL : walGeneration) : M () :=
  do! answer := ask (en_savedPosition env) (fun _ => CSavedPosition) in
  match answer with
  | Err _ => ret ()
  | Ok position =>
      if sp_found position && (sp_salt1 position =? wh_salt1 (wg_header exitWAL))%Z &&
         (sp_salt2 position =? wh_salt2 (wg_header exitWAL))%Z && (walHeaderSize <? sp_walOffsetEnd position)%Z
      then updateObs (fun o => o <| ob_savedPosition := sp_walOffsetEnd position |> <| ob_savedPositionFile := sp_file position |>
                               <| ob_savedPositionSalt1 := sp_salt1 position |>)
      else ret ()
  end.

(** (2) The stop. *)
Definition stopPhase : M time :=
  do! signalWAL := readWAL errWALResetUnavailable "read wal" in
  updateObs (fun o => o <| ob_signalHeader := wg_header signalWAL |> <| ob_savedAtSignal := generationEnd signalWAL |>) ;;!
  do! answer := ask (en_stop env) (fun answer => CStop (isOk (snd answer))) in
  updateObs (fun o => o <| ob_litestreamExit := fst answer |>) ;;!
  match snd answer with
  | Some e => fail (wrapped errWALResetLitestreamRestart ("stop: " +:+ e))
  | None =>
      do! downStarted := clock in
      do! exitWAL := readWAL errWALResetUnavailable "read wal after stop" in
      if negb (wh_valid (wg_header exitWAL))
      then fail (wrapped errWALResetUnavailable
             ("wal header unreadable after litestream exited (wal " +:+ fmt_int (wg_fileBytes exitWAL) +:+ " bytes)"))
      else
        updateObs (fun o => o <| ob_savedHeader := wg_header exitWAL |> <| ob_savedAtExit := generationEnd exitWAL |>) ;;!
        recordSavedPosition exitWAL ;;!
        do! err := releaseReader in
        match err with
        | Some e => fail (wrapped errWALResetUnavailable ("release read transaction: " +:+ e))
        | None => ret downStarted
        end
  end.

(** One restart of the WAL, retried while a reader pins it. *)
Fixpoint restartWAL (attempts : nat) (before : walHeader) : M () :=
  match attempts with
  | O => fail (wrapped errWALResetShapeNotReached
           ("the wal did not restart after " +:+ fmt_int (Z.of_nat walResetRestartAttempts) +:+
            " passive checkpoints while litestream was down"))
  | S attempts =>
      do! answer := ask (en_restartWrite env) (fun _ => CRestartWrite) in
      updateObs (fun o => o <| ob_downRows ::= Z.add (fst answer) |>) ;;!
      match snd answer with
      | Some e => fail (wrapped errWALResetUnavailable ("checkpoint and write while litestream was down: " +:+ e))
      | None =>
          do! wal := readWAL errWALResetUnavailable "read wal while litestream was down" in
          let retry :=
            do! err := ask (en_headerPoll env) (fun _ => CHeaderPoll) in
            match err with Some e => fail (wrapped errWALResetUnavailable e) | None => restartWAL attempts before end in
          if wh_valid (wg_header wal)
          then recordGeneration wal ;;! (if (0 <? walResetCount before (wg_header wal))%Z then ret () else retry)
          else retry
      end
  end.

Definition generationRows (k : Z) : Z := (walResetGenerationBaseRows + k * walResetGenerationStepRows)%Z.

(** An error of a step is turned into a value, for the callers that look at it. *)
Definition catch {A} (m : M A) : M (result goError A) := fun c =>
  match m c with (Some r, c) => (Some (Ok r), c) | (None, c) => (None, c) end.

(** (3) The generations written while Litestream is down; [k] counts from one. *)
Fixpoint downLoop (n : nat) (k : Z) : M () :=
  match n with
  | O => ret ()
  | S n =>
      do! o := observed in
      let before := if wh_valid (wg_header (ob_finalWAL o)) then wg_header (ob_finalWAL o) else ob_savedHeader o in
      do! restarted := catch (restartWAL walResetRestartAttempts before) in
      match restarted with
      | Err e =>
          unavailableOnCancel ;;!
          do! expired := ask (en_downCtxErr env) (fun _ => CDownCtx) in
          if negb (isOk expired) || errorsIs e errWALResetShapeNotReached then ret () else fail e
      | Ok _ =>
          do! answer := burst (generationRows k) in
          updateObs (fun o => o <| ob_downRows ::= Z.add (fst answer) |>) ;;!
          match snd answer with
          | Some e =>
              unavailableOnCancel ;;!
              do! expired := ask (en_downCtxErr env) (fun _ => CDownCtx) in
              if negb (isOk expired) then ret ()
              else fail (wrapped errWALResetUnavailable ("burst write while litestream was down: " +:+ e))
          | None =>
              do! wal := readWAL errWALResetUnavailable "read wal while litestream was down" in
              (if wh_valid (wg_header wal) then recordGeneration wal else ret ()) ;;!
              downLoop n (k + 1)
          end
      end
  end.

Definition resumeLoad : M () := fun c =>
  if cy_resume c then (ask (fun _ => ()) (fun _ => CResumeLoad)) (c <| cy_resume := false |>) else ret () c.

Fixpoint pauseAndDrain (attempts : nat) (lastErr : string) : M () :=
  match attempts with
  | O => fail (wrapped errWALResetUnavailable
           ("drain writers before the restart after " +:+ fmt_int (Z.of_nat walResetDrainAttempts) +:+ " pauses: " +:+ lastErr))
  | S attempts =>
      do! err := ask (en_pauseLoad env) (fun err => CPauseLoad (isOk err)) in
      match err with
      | Some e => fail (wrapped errWALResetUnavailable ("pause load before the restart: " +:+ e))
      | None =>
          do! lastErr := ask (en_drainWriters env) (fun _ => CDrain) in
          match lastErr with
          | None => fun c => (Some (Ok ()), c <| cy_resume := true |>)
          | Some lastErr =>
              ask (fun _ => ()) (fun _ => CResumeLoad) ;;!
              do! err := ask (en_drainPause env) (fun _ => CDrainPause) in
              match err with Some e => fail (wrapped errWALResetUnavailable e) | None => pauseAndDrain attempts lastErr end
          end
      end
  end.

Definition scanTail : M walResetSaltScan :=
  do! o := observed in
  if (ob_savedPosition o <=? walHeaderSize)%Z || negb (wh_valid (wg_header (ob_finalWAL o))) || (wg_frameSize (ob_finalWAL o) <=? 0)%Z
  then ret walResetSaltScan_zero
  else
    do! answer := ask (fun h => en_frameSalts env h (writtenEnd (ob_finalWAL o)) (ob_savedPosition o) (wg_frameSize (ob_finalWAL o))
                                   [(wh_salt1 (ob_savedHeader o), wh_salt2 (ob_savedHeader o))]) (fun _ => CFrameSalts) in
    ret (match snd answer with
         | Some e => (fst answer) <| ss_err := e |> <| ss_checked := false |>
         | None => fst answer
         end).

Definition restart : M () :=
  do! err := ask (en_start env) (fun err => CStart (isOk err)) in
  match err with
  | Some e => fail (wrapped errWALResetLitestreamRestart ("start: " +:+ e))
  | None => updateObs (fun o => o <| ob_restarted := true |>) ;;! downtime false
  end.

(** (3) and (4) up to the restart. *)
Definition downPhase (downStarted : time) : M () :=
  (fun c => (Some (Ok ()), c <| cy_obs ::= (fun o => o <| ob_generations := 1%Z |>) |>
                             <| cy_lastSalt2 := wh_salt2 (ob_savedHeader (cy_obs c)) |>)) ;;!
  downLoop (Z.to_nat (rc_targetResets cfg)) 1 ;;!
  do! now := clock in
  updateObs (fun o => o <| ob_downDuration := time_Sub now downStarted |>) ;;!
  pauseAndDrain walResetDrainAttempts "" ;;!
  do! drainedWAL := readWAL errWALResetShapeNotReached "read wal after the drain" in
  if negb (wh_valid (wg_header drainedWAL))
  then fail (wrapped errWALResetShapeNotReached
         ("wal header unreadable after the drain (wal " +:+ fmt_int (wg_fileBytes drainedWAL) +:+ " bytes)"))
  else
    recordGeneration drainedWAL ;;!
    updateObs (fun o => o <| ob_resets := walResetCount (ob_savedHeader o) (wg_header (ob_finalWAL o)) |>) ;;!
    updateObs (fun o => o <| ob_checkpoints := ob_resets o |>) ;;!
    do! tail := scanTail in
    updateObs (fun o => o <| ob_tail := tail |>) ;;!
    restart ;;!
    do! o := observed in
    if (ob_resets o <? rc_minResets cfg)%Z
    then fail (wrapped errWALResetShapeNotReached
           (fmt_int (ob_resets o) +:+ " wal resets while litestream was down, need at least " +:+ fmt_int (rc_minResets cfg)))
    else
      let '(shape, detail) := shapeEvidence o in
      if negb (shape =s walResetShapeConfirmed)
      then fail (wrapped errWALResetShapeNotReached ("shape " +:+ shape +:+ ": " +:+ detail)) else ret ().

(** (4) Waiting for the replica. *)
Fixpoint catchUpLoop (fuel : nat) : M () :=
  match fuel with
  | O => outOfFuel
  | S fuel =>
      do! answer := ask (en_catchUp env) (fun _ => CCatchUp) in
      match answer with
      | Ok (txid, replicated) => updateObs (fun o => o <| ob_syncTXID := txid |> <| ob_replicatedTXID := replicated |>)
      | Err _ => ret ()
      end ;;!
      if match answer with Ok (txid, replicated) => negb (txid =? 0)%Z && (txid <=? replicated)%Z | Err _ => false end then ret ()
      else
        do! expired := ask (en_catchUpPoll env) (fun _ => CCatchUpPoll) in
        match expired with
        | None => catchUpLoop fuel
        | Some _ =>
            unavailableOnCancel ;;!
            do! o := observed in
            fail (wrapped errWALResetCatchUpTimeout
              match answer with
              | Err e => "last sync error after " +:+ DurationString (rc_catchUpBudget cfg) +:+ ": " +:+ e
              | Ok _ => "replicated txid " +:+ formatTXID (ob_replicatedTXID o) +:+ " behind primary txid " +:+
                        formatTXID (ob_syncTXID o) +:+ " after " +:+ DurationString (rc_catchUpBudget cfg)
              end)
        end
  end.

Definition walResetUploadedBytes (before atStop after : Z) : Z :=
  if (atStop <=? after)%Z then uint64 (after - before) else uint64 (uint64 (atStop - before) + after).

(** (5) The restores; an inconclusive listing of the snapshots overrides them. *)
Definition validatePhase (uploadedBefore : Z) (uploadedKnown : bool) (uploadedAtStop : Z) : M (walResetValidation * option goError) :=
  do! outcome := ask (en_validate env) (fun _ => CValidate) in
  do! l9After := ask (en_l9 env) (fun _ => CL9) in
  updateObs (fun o => o <| ob_l9After := l9After |>) ;;!
  do! after := uploaded in
  (if snd after && uploadedKnown
   then updateObs (fun o => o <| ob_uploadedBytes := walResetUploadedBytes uploadedBefore uploadedAtStop (fst after) |>
                            <| ob_uploadedKnown := true |>)
   else ret ()) ;;!
  do! o := observed in
  ret (fst outcome, match snapshotInterference o with Some e => Some e | None => snd outcome end).

(** Everything between the installation of the deferred restart and its call. *)
Definition stoppedPart (fuel : nat) (uploadedBefore : Z) (uploadedKnown : bool) (uploadedAtStop : Z)
  : M (walResetValidation * option goError) :=
  do! downStarted := stopPhase in
  downPhase downStarted ;;!
  do! catchUpStarted := clock in
  catchUpLoop fuel ;;!
  do! now := clock in
  updateObs (fun o => o <| ob_catchUpDuration := time_Sub now catchUpStarted |>) ;;!
  resumeLoad ;;!
  validatePhase uploadedBefore uploadedKnown uploadedAtStop.

(** The outcome of a part as the function's named results. *)
Definition outcomeOf (r : result goError (walResetValidation * option goError)) : walResetValidation * option goError :=
  match r with Ok outcome => outcome | Err e => (walResetValidation_zero, Some e) end.

(** The deferred restart: it reports its own failure only when there is no other. *)
Definition deferredRestart (outcome : walResetValidation * option goError) : M (walResetValidation * option goError) :=
  do! o := observed in
  if ob_restarted o then ret outcome
  else
    do! r := catch restart in
    ret match r, snd outcome with Err e, None => (fst outcome, Some e) | _, _ => outcome end.

Definition run (fuel : nat) : M (walResetValidation * option goError) :=
  do! before := uploaded in
  do! started := catch (burstPhase fuel) in
  match started with
  | Err e => releaseReader ;;! ret (walResetValidation_zero, Some e)
  | Ok _ =>
      do! l9Before := ask (en_l9 env) (fun _ => CL9) in
      updateObs (fun o => o <| ob_l9Before := l9Before |>) ;;!
      do! atStop := uploaded in
      downtime true ;;!
      do! r := catch (stoppedPart fuel (fst before) (snd before) (fst atStop)) in
      resumeLoad ;;!
      do! outcome := deferredRestart (outcomeOf r) in
      downtime false ;;!
      releaseReader ;;!
      ret outcome
  end.

Definition startState : cycleState := mkCycle [] walResetObservation_zero 0 NoReader false.
(** The cycle behind the check gate; [None] when the verifier held the gate. *)
Definition cycle (fuel : nat) : M (option walResetVerification) :=
  do! startedAt := clock in
  do! err := ask (en_acquireGate env) (fun err => CAcquireGate (isOk err)) in
  match err with
  | Some _ => ret None
  | None =>
      do! outcome := run fuel in
      do! completedAt := clock in
      do! o := observed in
      ask (fun _ => ()) (fun _ => CReleaseGate) ;;!
      ret (Some (walResetResult o (fst outcome) (snd outcome) startedAt completedAt))
  end.
End Cycle.

(** * Reasoning about steps *)

(** From [P], the step ends in [Q] with its value, or in [E] with an error that
    makes the cycle inconclusive. *)
Definition spec {A} (P : cycleState -> Prop) (m : M A) (Q : A -> cycleState -> Prop) (E : cycleState -> Prop) : Prop :=
  forall c, P c -> match m c with
    | (Some (Ok a), c') => Q a c'
    | (Some (Err e), c') => walResetInconclusive e = true /\ E c'
    | (None, _) => True
    end.

Lemma spec_ret {A} (a : A) P (Q : A -> cycleState -> Prop) E : (forall c, P c -> Q a c) -> spec P (ret a) Q E.
Proof. intros H c Hc. by apply H. Qed.

Lemma spec_fail {A} e P (Q : A -> cycleState -> Prop) E : walResetInconclusive e = true -> (forall c, P c -> E c) -> spec P (fail e) Q E.
Proof. intros He H c Hc. split; [done|by apply H]. Qed.

Lemma spec_fuel {A} P (Q : A -> cycleState -> Prop) E : spec P outOfFuel Q E.
Proof. by intros c Hc. Qed.

Lemma spec_bind {A B} (m : M A) (k : A -> M B) P R Q E :
  spec P m R E -> (forall a, spec (R a) (k a) Q E) -> spec P (bind m k) Q E.
Proof.
  intros Hm Hk c Hc. unfold bind. specialize (Hm c Hc). destruct (m c) as [[[a|e]|] c']; [by apply Hk|done|done].
Qed.

Lemma spec_observe f P (Q : () -> cycleState -> Prop) E : (forall c, P c -> Q () (c <| cy_obs ::= f |>)) -> spec P (updateObs f) Q E.
Proof. intros H c Hc. by apply H. Qed.

Lemma spec_observed P (Q : walResetObservation -> cycleState -> Prop) E : (forall c, P c -> Q (cy_obs c) c) -> spec P observed Q E.
Proof. intros H c Hc. by apply H. Qed.

Lemma spec_ask {X} (answer : list call -> X) event P (Q : X -> cycleState -> Prop) E :
  (forall c, P c -> Q (answer (cy_hist c)) (c <| cy_hist ::= cons (event (answer (cy_hist c))) |>)) -> spec P (ask answer event) Q E.
Proof. intros H c Hc. by apply H. Qed.

Lemma spec_consequence {A} (m : M A) P P' (Q Q' : A -> cycleState -> Prop) (E E' : cycleState -> Prop) :
  spec P m Q E -> (forall c, P' c -> P c) -> (forall a c, Q a c -> Q' a c) -> (forall c, E c -> E' c) -> spec P' m Q' E'.
Proof.
  intros Hm HP HQ HE c Hc. specialize (Hm c (HP c Hc)). destruct (m c) as [[[a|e]|] c']; [by apply HQ|destruct Hm; split; auto|done].
Qed.

(** An error that is caught: the step itself never fails. *)
Lemma spec_catch {A} (m : M A) P Q E :
  spec P m Q E -> spec P (catch m) (fun r c => match r with Ok a => Q a c | Err e => walResetInconclusive e = true /\ E c end) (fun _ => False).
Proof. intros Hm c Hc. unfold catch. specialize (Hm c Hc). by destruct (m c) as [[[a|e]|] c']. Qed.

Lemma wrapped_inconclusive m detail :
  In m [errWALResetShapeNotReached; errWALResetLitestreamRestart; errWALResetCatchUpTimeout; errWALResetUnavailable;
        errWALResetSnapshotInterference; errWALResetGateBusy] -> walResetInconclusive (wrapped m detail) = true.
Proof. intros H. simpl in H. repeat destruct H as [<-|H]; try done. Qed.

(** * What a cycle holds *)

Definition countCalls (f : call -> bool) (h : list call) : Z := Z.of_nat (length (List.filter f h)).
Definition isHold (e : call) : bool := match e with CHoldReader ok => ok | _ => false end.
Definition isRelease (e : call) : bool := match e with CReleaseReader => true | _ => false end.
Definition isPause (e : call) : bool := match e with CPauseLoad ok => ok | _ => false end.
Definition isResume (e : call) : bool := match e with CResumeLoad => true | _ => false end.
Definition readersOpen (h : list call) : Z := (countCalls isHold h - countCalls isRelease h)%Z.
Definition pausesOpen (h : list call) : Z := (countCalls isPause h - countCalls isResume h)%Z.

Inductive litestreamState := LRunning | LStopped | LStartFailed.
Fixpoint litestreamAfter (h : list call) : litestreamState :=
  match h with
  | [] => LRunning
  | CStop _ :: _ => LStopped
  | CStart ok :: _ => if ok then LRunning else LStartFailed
  | _ :: h => litestreamAfter h
  end.
Fixpoint downAfter (h : list call) : bool :=
  match h with [] => false | CDowntime down :: _ => down | _ :: h => downAfter h end.

(** Calls that change nothing of this. *)
Definition neutral (e : call) : bool :=
  match e with
  | CHoldReader _ | CReleaseReader | CPauseLoad _ | CResumeLoad | CStop _ | CStart _ | CDowntime _ => false
  | _ => true
  end.

Definition b2z (b : bool) : Z := if b then 1%Z else 0%Z.
Definition held (c : cycleState) : bool := match cy_reader c with ReaderHeld => true | _ => false end.

(** The bookkeeping: what the history opened is what the state says is open, and
    a restarted Litestream runs outside of downtime. *)
Definition books (c : cycleState) : Prop :=
  readersOpen (cy_hist c) = b2z (held c) /\ pausesOpen (cy_hist c) = b2z (cy_resume c) /\
  (ob_restarted (cy_obs c) = true -> litestreamAfter (cy_hist c) = LRunning /\ downAfter (cy_hist c) = false).

Lemma countCalls_cons f e h : countCalls f (e :: h) = (b2z (f e) + countCalls f h)%Z.
Proof. unfold countCalls. simpl. destruct (f e); simpl; lia. Qed.

Lemma readersOpen_cons e h : readersOpen (e :: h) = (b2z (isHold e) - b2z (isRelease e) + readersOpen h)%Z.
Proof. unfold readersOpen. rewrite !countCalls_cons. lia. Qed.
Lemma pausesOpen_cons e h : pausesOpen (e :: h) = (b2z (isPause e) - b2z (isResume e) + pausesOpen h)%Z.
Proof. unfold pausesOpen. rewrite !countCalls_cons. lia. Qed.

(** A step of the state that neither takes nor gives anything back: at most one
    neutral call, and measurements in the observation. *)
Definition calm (c c' : cycleState) : Prop :=
  (cy_hist c' = cy_hist c \/ exists e, neutral e = true /\ cy_hist c' = e :: cy_hist c) /\
  ob_restarted (cy_obs c') = ob_restarted (cy_obs c) /\ ob_readerHeldAt (cy_obs c') = ob_readerHeldAt (cy_obs c) /\
  cy_reader c' = cy_reader c /\ cy_resume c' = cy_resume c.
Class Steady (I : cycleState -> Prop) := steady : forall c c', calm c c' -> I c -> I c'.

Lemma neutral_counts e h : neutral e = true ->
  readersOpen (e :: h) = readersOpen h /\ pausesOpen (e :: h) = pausesOpen h /\ litestreamAfter (e :: h) = litestreamAfter h /\
  downAfter (e :: h) = downAfter h.
Proof. intros He. rewrite readersOpen_cons, pausesOpen_cons. by destruct e. Qed.

#[export] Instance books_steady : Steady books.
Proof.
  intros c c' (Hh & Hr & _ & Hd & Hu) (H1 & H2 & H3). unfold books, held. rewrite Hr, Hd, Hu.
  destruct Hh as [->|(e & He & ->)]; [done|]. by destruct (neutral_counts e (cy_hist c) He) as (-> & -> & -> & ->).
Qed.

(** Steps that keep a steady property. *)
Definition keeps (I : cycleState -> Prop) {A} (m : M A) : Prop := spec I m (fun _ => I) I.

Definition inconclusiveMarks : list errMark :=
  [errWALResetShapeNotReached; errWALResetLitestreamRestart; errWALResetCatchUpTimeout; errWALResetUnavailable;
   errWALResetSnapshotInterference; errWALResetGateBusy].

Section Keeps.
Variable I : cycleState -> Prop.
Context `{HI : Steady I}.

Lemma keeps_bind {A B} (m : M A) (k : A -> M B) : keeps I m -> (forall a, keeps I (k a)) -> keeps I (bind m k).
Proof. intros Hm Hk. by eapply spec_bind. Qed.
Lemma keeps_ret {A} (a : A) : keeps I (ret a).
Proof. by apply spec_ret. Qed.
Lemma keeps_fail {A} m d : In m inconclusiveMarks -> keeps I (fail (A := A) (wrapped m d)).
Proof. intros H. apply spec_fail; [by apply wrapped_inconclusive|done]. Qed.
Lemma keeps_ask {X} (answer : list call -> X) event : (forall x, neutral (event x) = true) -> keeps I (ask answer event).
Proof.
  intros He. apply spec_ask. intros c Hc. eapply (steady c); [|done]. split_and!; try done. right. by eexists.
Qed.
Lemma keeps_observe f :
  (forall o, ob_restarted (f o) = ob_restarted o /\ ob_readerHeldAt (f o) = ob_readerHeldAt o) -> keeps I (updateObs f).
Proof.
  intros Hf. apply spec_observe. intros c Hc. eapply (steady c); [|done]. destruct (Hf (cy_obs c)).
  split_and!; try done. by left.
Qed.
Lemma keeps_observed : keeps I observed.
Proof. by apply spec_observed. Qed.
Lemma keeps_if {A} (b : bool) (m n : M A) : keeps I m -> keeps I n -> keeps I (if b then m else n).
Proof. by destruct b. Qed.
Lemma keeps_fuel {A} : keeps I (outOfFuel (A := A)).
Proof. by intros c. Qed.
Lemma keeps_fail_as {A} e : walResetInconclusive e = true -> keeps I (fail (A := A) e).
Proof. intros H. by apply spec_fail. Qed.
Lemma keeps_catch {A B} (m : M A) (k : result goError A -> M B) :
  keeps I m -> (forall a, keeps I (k (Ok a))) -> (forall e, walResetInconclusive e = true -> keeps I (k (Err e))) ->
  keeps I (bind (catch m) k).
Proof.
  intros Hm Hok Herr c Hc. specialize (Hm c Hc). unfold bind, catch.
  destruct (m c) as [[[a|e]|] c']; [by apply Hok|by apply Herr; destruct Hm|done].
Qed.
Lemma keeps_record wal : keeps I (recordGeneration wal).
Proof.
  intros c Hc. unfold recordGeneration. cbv zeta. eapply (steady c); [|done].
  repeat case_match; split_and!; try done; by left.
Qed.
End Keeps.

(** Walks through a step whose calls hold nothing. *)
Ltac quiet_step :=
  match goal with
  | |- keeps _ (bind (catch _) _) => fail 1
  | |- keeps _ (bind _ _) => apply keeps_bind; [|intros]
  | |- keeps _ (ret _) => apply keeps_ret
  | |- keeps _ (fail (wrapped _ _)) => apply keeps_fail; simpl; tauto
  | |- keeps _ outOfFuel => apply keeps_fuel
  | |- keeps _ (ask _ _) => refine (keeps_ask _ _ _ _); intros; reflexivity
  | |- keeps _ (updateObs _) => refine (keeps_observe _ _ _); intros; split; reflexivity
  | |- keeps _ observed => apply keeps_observed
  | |- keeps _ (recordGeneration _) => refine (keeps_record _ _)
  | |- keeps _ (if _ then _ else _) => apply keeps_if
  | |- keeps _ (match ?x with _ => _ end) => destruct x
  | |- keeps _ _ => solve [auto]
  end.
Ltac quiet := repeat quiet_step.

Section Quiet.
Variables (env : environment) (cfg : walResetConfig) (I : cycleState -> Prop).
Context `{HI : Steady I}.

Lemma readWAL_quiet m what : In m inconclusiveMarks -> keeps I (readWAL env m what).
Proof. intros Hm. unfold readWAL, generation. quiet. Qed.
Lemma cancel_quiet : keeps I (unavailableOnCancel env).
Proof. unfold unavailableOnCancel, ctxErr. quiet. Qed.
Lemma savedPosition_quiet wal : keeps I (recordSavedPosition env wal).
Proof. unfold recordSavedPosition. quiet. Qed.
Lemma scanTail_quiet : keeps I (scanTail env).
Proof. unfold scanTail. quiet. Qed.
Lemma clock_quiet : keeps I (clock env).
Proof. unfold clock. quiet. Qed.
Lemma uploaded_quiet : keeps I (uploaded env).
Proof. unfold uploaded. quiet. Qed.
Lemma burst_quiet rows : keeps I (burst env rows).
Proof. unfold burst. quiet. Qed.
Hint Resolve readWAL_quiet cancel_quiet savedPosition_quiet scanTail_quiet clock_quiet uploaded_quiet burst_quiet : core.
Hint Extern 1 (In _ inconclusiveMarks) => simpl; tauto : core.

Lemma restartWAL_quiet attempts before : keeps I (restartWAL env attempts before).
Proof. induction attempts as [|attempts IH]; cbn [restartWAL]; quiet. Qed.

Lemma downLoop_quiet n k : keeps I (downLoop env n k).
Proof.
  revert k. induction n as [|n IH]; intros k; cbn [downLoop]; quiet.
  apply keeps_catch; [apply restartWAL_quiet| |]; intros; quiet. by apply keeps_fail_as.
Qed.
End Quiet.

(** * The phases *)

(** [restarted] says whether Litestream was started again, [paused] whether the
    load waits for its resume; [F] is what the observation shows. *)
Definition stage (restarted paused : bool) (F : walResetObservation -> Prop) (c : cycleState) : Prop :=
  books c /\ ob_restarted (cy_obs c) = restarted /\ cy_resume c = paused /\ F (cy_obs c).
Definition any (o : walResetObservation) : Prop := True.

#[export] Instance stage_steady b r : Steady (stage b r any).
Proof.
  intros c c' Hcalm (Hb & Hr & Hp & _). pose proof (books_steady c c' Hcalm Hb). destruct Hcalm as (_ & Hr' & _ & _ & Hp').
  split_and!; [done|congruence|congruence|done].
Qed.

Lemma stage_ask b r F {X} (answer : list call -> X) event :
  (forall x, neutral (event x) = true) -> keeps (stage b r F) (ask answer event).
Proof.
  intros He. apply spec_ask. intros c (Hb & Hr & Hp & HF). split_and!; try done.
  eapply books_steady; [|exact Hb]. split_and!; try done. right. by eexists.
Qed.

Lemma stage_observe b r F G f E :
  (forall o, ob_restarted (f o) = ob_restarted o /\ ob_readerHeldAt (f o) = ob_readerHeldAt o) ->
  (forall o, F o -> G (f o)) -> spec (stage b r F) (updateObs f) (fun _ => stage b r G) E.
Proof.
  intros Hf HG. apply spec_observe. intros c (Hb & Hr & Hp & HF). destruct (Hf (cy_obs c)) as [H1 H2].
  split_and!; [|simpl; congruence|done|by apply HG].
  eapply books_steady; [|exact Hb]. split_and!; try done. by left.
Qed.

Lemma spec_observed_at (P : cycleState -> Prop) (E : cycleState -> Prop) : spec P observed (fun o c => P c /\ o = cy_obs c) E.
Proof. by apply spec_observed. Qed.

Section Phases.
Variables (env : environment) (cfg : walResetConfig).

Lemma releaseReader_spec b r F E :
  spec (stage b r F) (releaseReader env) (fun _ c => stage b r F c /\ held c = false) E.
Proof.
  intros c Hc. pose proof Hc as ((H1 & H2 & H3) & Hr & Hp & HF). unfold releaseReader.
  destruct (cy_reader c) eqn:Hd; simpl; [split; [done|unfold held; by rewrite Hd]| |split; [done|unfold held; by rewrite Hd]].
  clear Hc. split; [|done]. split_and!; try done. unfold books, held in *. simpl. rewrite readersOpen_cons, pausesOpen_cons. simpl.
  rewrite Hd in H1. simpl in H1. split_and!; [lia|lia|done].
Qed.

Lemma resumeLoad_spec b r F E : spec (stage b r F) resumeLoad (fun _ => stage b false F) E.
Proof.
  intros c Hc. pose proof Hc as ((H1 & H2 & H3) & Hr & Hp & HF). unfold resumeLoad.
  destruct (cy_resume c) eqn:Hd; simpl; [clear Hc|by rewrite Hp].
  split_and!; try done. unfold books, held in *. simpl. rewrite readersOpen_cons, pausesOpen_cons. simpl.
  simpl in H2. split_and!; [lia|lia|done].
Qed.

Lemma restart_spec r F E :
  (forall o, F o -> F (o <| ob_restarted := true |>)) ->
  (forall c, stage false r F c -> litestreamAfter (cy_hist c) = LStartFailed -> E c) ->
  spec (stage false r F) (restart env) (fun _ => stage true r F) E.
Proof.
  intros HF HE c (Hb & Hr & Hp & Ho). destruct Hb as (H1 & H2 & H3). unfold restart, bind, ask. simpl.
  destruct (en_start env (cy_hist c)) as [e|]; simpl.
  - split; [done|]. apply HE; [|done]. split_and!; try done. unfold books, held in *. simpl.
    rewrite readersOpen_cons, pausesOpen_cons. simpl. split_and!; [lia|lia|by rewrite Hr].
  - split_and!; try done. by apply HF.
Qed.

Lemma stopPhase_spec : keeps (stage false false any) (stopPhase env).
Proof.
  unfold stopPhase. apply keeps_bind; [apply readWAL_quiet; [apply _|simpl; tauto]|intros wal].
  apply keeps_bind; [quiet|intros _]. apply keeps_bind.
  { apply spec_ask. intros c ((H1 & H2 & H3) & Hr & Hp & _). split_and!; try done. unfold books, held in *. simpl.
    rewrite readersOpen_cons, pausesOpen_cons. simpl. split_and!; [lia|lia|by rewrite Hr]. }
  intros answer. apply keeps_bind; [quiet|intros _]. destruct (snd answer); [quiet|].
  apply keeps_bind; [apply clock_quiet, _|intros t].
  apply keeps_bind; [apply readWAL_quiet; [apply _|simpl; tauto]|intros exitWAL]. apply keeps_if; [quiet|].
  apply keeps_bind; [quiet|intros _]. apply keeps_bind; [apply savedPosition_quiet, _|intros _]. apply keeps_bind; [|intros; quiet].
  eapply spec_consequence; [apply releaseReader_spec|done| |done]. by intros _ c [H _].
Qed.

Lemma pauseAndDrain_spec attempts lastErr :
  spec (stage false false any) (pauseAndDrain env attempts lastErr) (fun _ => stage false true any) (stage false false any).
Proof.
  revert lastErr. induction attempts as [|attempts IH]; intros lastErr; cbn [pauseAndDrain].
  { apply spec_fail; [by apply wrapped_inconclusive; simpl; tauto|done]. }
  intros c ((H1 & H2 & H3) & Hr & Hp & _). unfold bind, ask. simpl.
  destruct (en_pauseLoad env (cy_hist c)) as [e|]; simpl.
  { split; [done|]. split_and!; done. }
  rewrite Hp in H2. simpl in H2.
  destruct (en_drainWriters env _) as [e|]; simpl.
  2: { split_and!; try done. unfold books, held in *. simpl. rewrite !readersOpen_cons, !pausesOpen_cons. simpl.
       split_and!; [lia|lia|by rewrite Hr]. }
  match goal with |- context [en_drainPause env ?h] => set (h' := h) end.
  assert (stage false false any (c <| cy_hist := CDrainPause :: h' |>)) as Hnext.
  { split_and!; try done. unfold books, held, h' in *. simpl. rewrite !readersOpen_cons, !pausesOpen_cons, Hp. simpl.
    split_and!; [lia|lia|by rewrite Hr]. }
  destruct (en_drainPause env h') as [e'|]; simpl; [by split|]. exact (IH e _ Hnext).
Qed.

(** What a verdict rests on. *)
Definition ready (o : walResetObservation) : Prop :=
  (rc_minResets cfg <= ob_resets o)%Z /\ fst (shapeEvidence o) = walResetShapeConfirmed.
Definition caught (o : walResetObservation) : Prop := ob_syncTXID o <> 0%Z /\ (ob_syncTXID o <= ob_replicatedTXID o)%Z.

Lemma stage_books b r F c : stage b r F c -> books c.
Proof. by intros (H & _). Qed.
Lemma keeps_books {A} (m : M A) b r : keeps (stage b r any) m -> spec (stage b r any) m (fun _ => stage b r any) books.
Proof. intros H. eapply spec_consequence; [exact H|done|done|intros c; apply stage_books]. Qed.

(** A quiet step before the rest of a phase. *)
Lemma books_bind {A B} (m : M A) (k : A -> M B) b r Q :
  keeps (stage b r any) m -> (forall a, spec (stage b r any) (k a) Q books) -> spec (stage b r any) (bind m k) Q books.
Proof. intros Hm Hk. eapply spec_bind; [by apply keeps_books|done]. Qed.
Lemma books_fail {A} m d b r F (Q : A -> cycleState -> Prop) : In m inconclusiveMarks -> spec (stage b r F) (fail (wrapped m d)) Q books.
Proof. intros H. apply spec_fail; [by apply wrapped_inconclusive|intros c; apply stage_books]. Qed.

Lemma downPhase_spec t : spec (stage false false any) (downPhase env cfg t) (fun _ => stage true true ready) books.
Proof.
  unfold downPhase. apply books_bind.
  { intros c Hc. simpl. eapply (stage_steady false false c); [|done]. split_and!; try done. by left. }
  intros _. apply books_bind; [apply downLoop_quiet, _|intros _]. apply books_bind; [apply clock_quiet, _|intros now].
  apply books_bind; [quiet|intros _].
  eapply spec_bind with (R := fun _ => stage false true any).
  { eapply spec_consequence; [apply pauseAndDrain_spec|done|done|intros c; apply stage_books]. }
  intros _. apply books_bind; [apply readWAL_quiet; [apply _|simpl; tauto]|intros wal].
  case_match; [apply books_fail; simpl; tauto|].
  apply books_bind; [quiet|intros _]. do 2 (apply books_bind; [quiet|intros _]). apply books_bind; [apply scanTail_quiet, _|intros tail].
  apply books_bind; [quiet|intros _].
  eapply spec_bind with (R := fun _ => stage true true any); [apply restart_spec; [done|intros c Hst _; by eapply stage_books]|intros _].
  eapply spec_bind; [apply spec_observed_at|intros o].
  intros c [Hc ->]. destruct (ob_resets (cy_obs c) <? rc_minResets cfg)%Z eqn:Hmin;
    [by apply (books_fail errWALResetShapeNotReached _ true true any (fun _ => stage true true ready)); [simpl; tauto|]|].
  destruct (shapeEvidence (cy_obs c)) as [shape detail] eqn:Hs.
  destruct (shape =s walResetShapeConfirmed) eqn:Hc'; simpl negb; cbv iota;
    [|by apply (books_fail errWALResetShapeNotReached _ true true any (fun _ => stage true true ready)); [simpl; tauto|]].
  destruct Hc as (? & ? & ? & _). simpl. split_and!; try done. split; [lia|]. rewrite Hs. by apply String.eqb_eq in Hc'.
Qed.

Lemma catchUpLoop_spec fuel :
  spec (stage true true ready) (catchUpLoop env cfg fuel) (fun _ => stage true true (fun o => ready o /\ caught o)) books.
Proof.
  induction fuel as [|fuel IH]; cbn [catchUpLoop]; [apply spec_fuel|].
  assert (forall (X : Type) (answer : list call -> X) event b r F, (forall x, neutral (event x) = true) ->
    spec (stage b r F) (ask answer event) (fun _ => stage b r F) books) as Hask.
  { intros. eapply spec_consequence; [by apply stage_ask|done|done|intros c; apply stage_books]. }
  eapply spec_bind; [by apply Hask|intros answer].
  set (F := fun o => ready o /\ match answer with Ok (txid, replicated) => ob_syncTXID o = txid /\ ob_replicatedTXID o = replicated | Err _ => True end).
  eapply spec_bind with (R := fun _ => stage true true F).
  { destruct answer as [[txid replicated]|e]; [by apply stage_observe|]. apply spec_ret. intros c (? & ? & ? & ?). by split_and!. }
  intros _. case_match eqn:Hdone.
  - apply spec_ret. intros c (Hb & Hr & Hp & Hready & Ha). destruct answer as [[txid replicated]|]; [|done].
    destruct Ha as [<- <-]. do 4 (split; [done|]). unfold caught. lia.
  - eapply spec_bind; [by apply Hask|intros expired]. destruct expired as [e|].
    2: { eapply spec_consequence; [exact IH| |done|done]. intros c (? & ? & ? & ? & _). by split_and!. }
    unfold unavailableOnCancel, ctxErr. eapply spec_bind with (R := fun _ => stage true true F).
    { eapply spec_bind; [by apply Hask|intros [e'|]]; [apply books_fail; simpl; tauto|by apply spec_ret]. }
    intros _. eapply spec_bind; [apply spec_observed_at|intros o c [Hc ->]].
    apply (books_fail errWALResetCatchUpTimeout _ true true F (fun _ => stage true true _)); [simpl; tauto|done].
Qed.

(** The verdict is the validation's, made with Litestream running and the load
    resumed, unless the snapshots changed. *)
Definition validated (outcome : walResetValidation * option goError) (c : cycleState) : Prop :=
  exists h, CValidate :: h `suffix_of` cy_hist c /\ litestreamAfter h = LRunning /\ downAfter h = false /\ pausesOpen h = 0%Z /\
    fst outcome = fst (en_validate env h) /\
    snd outcome = match snapshotInterference (cy_obs c) with Some e => Some e | None => snd (en_validate env h) end.

Definition conclusion (outcome : walResetValidation * option goError) (c : cycleState) : Prop :=
  stage true false (fun o => ready o /\ caught o) c /\ validated outcome c.

Lemma validatePhase_spec before known atStop :
  spec (stage true false (fun o => ready o /\ caught o)) (validatePhase env before known atStop) conclusion books.
Proof.
  intros c (Hb & Hr & Hp & HF). destruct (proj2 (proj2 Hb) Hr) as [Hrun Hdown].
  assert (pausesOpen (cy_hist c) = 0%Z) as Hopen by (destruct Hb as (_ & -> & _); by rewrite Hp).
  unfold validatePhase, uploaded, bind, ask, updateObs, observed. cbn -[shapeEvidence walResetUploadedBytes snapshotInterference].
  destruct (en_uploaded env _) as [after ok]. cbn [fst snd].
  destruct (ok && known); cbn -[shapeEvidence walResetUploadedBytes snapshotInterference];
    (split; [split_and!; [|done|done|apply HF|apply HF]|
       exists (cy_hist c); split_and!; [by eexists [_; _]|done|done|done|done|done]]); destruct Hb as (H1 & H2 & H3); split_and!; done.
Qed.

Lemma stoppedPart_spec fuel before known atStop :
  spec (stage false false any) (stoppedPart env cfg fuel before known atStop) conclusion books.
Proof.
  unfold stoppedPart. apply books_bind; [apply stopPhase_spec|intros downStarted].
  eapply spec_bind; [apply downPhase_spec|intros []].
  eapply spec_bind with (R := fun _ => stage true true ready).
  { eapply spec_consequence; [apply stage_ask; reflexivity|done|done|intros c; apply stage_books]. }
  intros catchUpStarted. eapply spec_bind; [apply catchUpLoop_spec|intros []].
  eapply spec_bind with (R := fun _ => stage true true (fun o => ready o /\ caught o)).
  { eapply spec_consequence; [apply stage_ask; reflexivity|done|done|intros c; apply stage_books]. }
  intros now. eapply spec_bind; [apply (stage_observe true true _ (fun o => ready o /\ caught o)); [done|tauto]|intros []].
  eapply spec_bind; [apply resumeLoad_spec|intros []]. apply validatePhase_spec.
Qed.

(** * The end of a cycle *)

Definition isInconclusive (outcome : walResetValidation * option goError) : Prop :=
  exists e, snd outcome = Some e /\ walResetInconclusive e = true.
Definition settled (outcome : walResetValidation * option goError) (c : cycleState) : Prop :=
  ob_restarted (cy_obs c) = true /\ ready (cy_obs c) /\ caught (cy_obs c) /\ validated outcome c.

(** Litestream runs, or its start failed and the cycle says nothing. *)
Definition left_alone (outcome : walResetValidation * option goError) (c : cycleState) : Prop :=
  pausesOpen (cy_hist c) = 0%Z /\ downAfter (cy_hist c) = false /\
  ((litestreamAfter (cy_hist c) = LRunning /\ (settled outcome c \/ isInconclusive outcome)) \/
   (litestreamAfter (cy_hist c) = LStartFailed /\ isInconclusive outcome)).
Definition finished (outcome : walResetValidation * option goError) (c : cycleState) : Prop :=
  readersOpen (cy_hist c) = 0%Z /\ left_alone outcome c.

Lemma validated_later outcome c c' :
  cy_obs c' = cy_obs c -> cy_hist c `suffix_of` cy_hist c' -> validated outcome c -> validated outcome c'.
Proof. intros Ho Hh (h & Hs & H). exists h. rewrite Ho. split; [by transitivity (cy_hist c)|done]. Qed.

Lemma releaseReader_ends outcome E :
  spec (fun c => readersOpen (cy_hist c) = b2z (held c) /\ left_alone outcome c)
    (bind (releaseReader env) (fun _ => ret outcome)) finished E.
Proof.
  intros c [Hopen Hleft]. unfold bind, releaseReader. destruct (cy_reader c) eqn:Hd; simpl.
  - split; [rewrite Hopen; unfold held; by rewrite Hd|done].
  - unfold held in Hopen. rewrite Hd in Hopen. simpl in Hopen. split; [simpl; rewrite readersOpen_cons; simpl; lia|].
    destruct Hleft as (H1 & H2 & H3). split; [simpl; rewrite pausesOpen_cons; simpl; lia|]. split; [done|].
    destruct H3 as [[Hl [(Hr & Hy & Hk & Hv)|Hi]]|[Hl Hi]]; [left; split; [done|left]|left; split; [done|by right]|by right].
    do 3 (split; [done|]). eapply validated_later; [| |exact Hv]; [done|]. by eexists [_].
  - split; [rewrite Hopen; unfold held; by rewrite Hd|done].
Qed.

(** The outcome of the stopped part, whatever it was. *)
Definition pending (outcome : walResetValidation * option goError) (c : cycleState) : Prop :=
  conclusion outcome c \/ (books c /\ isInconclusive outcome).
Definition answered (outcome : walResetValidation * option goError) (c : cycleState) : Prop :=
  books c /\ cy_resume c = false /\
  ((ob_restarted (cy_obs c) = true /\ (settled outcome c \/ isInconclusive outcome)) \/
   (litestreamAfter (cy_hist c) = LStartFailed /\ isInconclusive outcome)).

Lemma resume_pending outcome E :
  spec (pending outcome) resumeLoad (fun _ c => cy_resume c = false /\ pending outcome c) E.
Proof.
  intros c [Hc|[Hb Hi]].
  - pose proof Hc as ((Hb & Hr & Hp & Ho) & Hv). unfold resumeLoad. rewrite Hp. simpl. split; [done|by left].
  - pose proof (resumeLoad_spec (ob_restarted (cy_obs c)) (cy_resume c) any E c) as H.
    destruct (resumeLoad c) as [[[[]|e]|] c']; [|by destruct H|done].
    destruct H as (? & ? & ? & _); [done|]. split; [done|right]. by split.
Qed.

Lemma deferredRestart_spec outcome E :
  spec (fun c => cy_resume c = false /\ pending outcome c) (deferredRestart env outcome) answered E.
Proof.
  intros c [Hp Hc]. unfold deferredRestart, bind, observed. destruct (ob_restarted (cy_obs c)) eqn:Hr; simpl.
  - destruct Hc as [((Hb & _ & _ & Ho1 & Ho2) & Hv)|[Hb Hi]]; (split; [done|]); (split; [done|]); left; (split; [done|]); [left|by right].
    by split_and!.
  - destruct Hc as [((_ & Hr' & _) & _)|[Hb Hi]]; [congruence|]. pose proof Hi as (e & He & Hinc).
    pose proof (spec_catch _ _ _ _ (restart_spec false any (fun c => stage false false any c /\ litestreamAfter (cy_hist c) = LStartFailed)
      (fun _ H => H) (fun _ H1 H2 => conj H1 H2)) c) as H.
    destruct (catch (restart env) c) as [[[[u|e']|e'']|] c']; simpl.
    + destruct H as (? & ? & ? & _); [done|]. split_and!; [done|done|]. left. split; [done|by right].
    + destruct H as [_ [(? & ? & ? & _) ?]]; [done|]. rewrite He. split_and!; [done|done|]. by right.
    + by destruct H as [_ []].
    + done.
Qed.

(** While Litestream still runs. *)
Definition bursting (c : cycleState) : Prop :=
  stage false false any c /\ litestreamAfter (cy_hist c) = LRunning /\ downAfter (cy_hist c) = false /\
  (ob_readerHeldAt (cy_obs c) = 0%Z -> cy_reader c = NoReader).

#[export] Instance bursting_steady : Steady bursting.
Proof.
  intros c c' Hcalm (Hs & Hl & Hd & Hn). split; [by eapply stage_steady|]. destruct Hcalm as (Hh & _ & -> & -> & _).
  destruct Hh as [->|(e & He & ->)]; [done|]. by destruct (neutral_counts e (cy_hist c) He) as (_ & _ & -> & ->).
Qed.

Hypothesis hold_positive : (0 < rc_readerHoldBytes cfg)%Z.

Lemma holdReader_spec (held_at : Z) :
  (rc_readerHoldBytes cfg <= held_at)%Z ->
  spec (fun c => bursting c /\ ob_readerHeldAt (cy_obs c) = 0%Z)
    (bind (holdReader env) (fun _ => updateObs (fun o => o <| ob_readerHeldAt := held_at |>))) (fun _ => bursting) bursting.
Proof.
  intros Hat c [(((H1 & H2 & H3) & Hr & Hp & _) & Hl & Hd & Hn) H0]. unfold holdReader, bind, ask. simpl.
  specialize (Hn H0). unfold held in H1. rewrite Hn in H1. simpl in H1.
  destruct (en_holdReader env (cy_hist c)) as [e|]; simpl.
  - split; [done|]. split; [|done]. split_and!; try done. unfold books, held. simpl. by rewrite Hn.
  - split; [|split_and!; [done|done|simpl; lia]]. split_and!; try done. unfold books, held. simpl.
    rewrite readersOpen_cons, pausesOpen_cons. simpl. split_and!; [lia|lia|by rewrite Hr].
Qed.

Lemma burstPhase_spec fuel : keeps bursting (burstPhase env cfg fuel).
Proof.
  induction fuel as [|fuel IH]; cbn [burstPhase]; [apply keeps_fuel|].
  apply keeps_bind; [apply readWAL_quiet; [apply _|simpl; tauto]|intros wal].
  eapply spec_bind; [apply spec_observed_at|intros o]. eapply spec_bind with (R := fun _ => bursting).
  - destruct (wh_valid _ && _ && _) eqn:Hhold; [|by apply spec_ret; intros c [Hc _]].
    rewrite !andb_true_iff in Hhold. destruct Hhold as [[_ H0] Hat].
    intros c [Hc ->]. by apply (holdReader_spec (generationEnd wal)); [lia|split; [done|lia]].
  - intros []. apply (keeps_bind bursting); [apply keeps_observed|intros o'].
    quiet; try apply cancel_quiet, _; try apply burst_quiet, _.
Qed.

Lemma run_spec fuel : spec bursting (run env cfg fuel) finished (fun _ => False).
Proof.
  unfold run.
  assert (forall X (answer : list call -> X) event, (forall x, neutral (event x) = true) ->
    spec bursting (ask answer event) (fun _ => bursting) (fun _ => False)) as Hask.
  { intros X answer event He. apply spec_ask. intros c Hc. eapply (bursting_steady c); [|done].
    split_and!; try done. right. by eexists. }
  eapply spec_bind with (R := fun _ => bursting); [by apply Hask|]. intros before. eapply spec_bind; [apply spec_catch, burstPhase_spec|intros [[]|e]].
  2: { eapply spec_consequence; [apply (releaseReader_ends _ (fun _ => False))| |done|done].
       intros c [He (((H1 & H2 & _) & Hr & Hp & _) & Hl & Hd & _)]. split; [done|]. split; [by rewrite H2, Hp|]. split; [done|].
       left. split; [done|right]. by exists e. }
  eapply spec_bind with (R := fun _ => bursting); [by apply Hask|intros l9Before].
  eapply spec_bind with (R := fun _ => bursting).
  { apply spec_observe. intros c Hc. eapply (bursting_steady c); [|done]. split_and!; try done. by left. }
  intros []. eapply spec_bind with (R := fun _ => bursting); [by apply Hask|intros atStop].
  eapply spec_bind with (R := fun _ => stage false false any).
  { apply spec_ask. intros c (((H1 & H2 & H3) & Hr & Hp & _) & _). split_and!; try done.
    do 2 (split; [done|]). intros Hr'. simpl in Hr'. congruence. }
  intros []. eapply spec_bind with (R := fun r => pending (outcomeOf r)).
  { eapply spec_consequence; [apply spec_catch, stoppedPart_spec|done| |done].
    intros [outcome|e] c Hc; [by left|right]. destruct Hc. split; [done|]. by exists e. }
  intros r. eapply spec_bind; [apply resume_pending|intros []]. eapply spec_bind; [apply deferredRestart_spec|intros outcome].
  eapply spec_bind with (R := fun _ c => readersOpen (cy_hist c) = b2z (held c) /\ left_alone outcome c); [|intros []; apply releaseReader_ends].
  apply spec_ask. intros c ((H1 & H2 & H3) & Hp & Hc). split; [done|]. split; [simpl; rewrite pausesOpen_cons, H2, Hp; done|].
  split; [done|]. destruct Hc as [[Hr [(Hr' & Hy & Hk & Hv)|Hi]]|[Hl Hi]]; [left|left|right]; [| |done].
  - split; [by apply H3|left]. do 3 (split; [done|]). eapply validated_later; [| |exact Hv]; [done|]. by eexists [_].
  - split; [by apply H3|by right].
Qed.
End Phases.

(** * The check gate *)

Definition isAcquire (e : call) : bool := match e with CAcquireGate ok => ok | _ => false end.
Definition isGateRelease (e : call) : bool := match e with CReleaseGate => true | _ => false end.
Definition gatesOpen (h : list call) : Z := (countCalls isAcquire h - countCalls isGateRelease h)%Z.

(** The step makes no call that [f] counts. *)
Definition leaves (f : call -> bool) {A} (m : M A) : Prop :=
  forall c, countCalls f (cy_hist (snd (m c))) = countCalls f (cy_hist c).

Section Leaves.
Variables (f : call -> bool) (env : environment) (cfg : walResetConfig).
Hypothesis only_gate : forall e, f e = true -> match e with CAcquireGate _ | CReleaseGate => True | _ => False end.

Lemma leaves_bind {A B} (m : M A) (k : A -> M B) : leaves f m -> (forall a, leaves f (k a)) -> leaves f (bind m k).
Proof.
  intros Hm Hk c. unfold bind. specialize (Hm c). destruct (m c) as [[[a|e]|] c']; [rewrite Hk|..]; exact Hm.
Qed.
Lemma leaves_ask {X} (answer : list call -> X) event :
  (forall x, match event x with CAcquireGate _ | CReleaseGate => False | _ => True end) -> leaves f (ask answer event).
Proof.
  intros He c. simpl. rewrite countCalls_cons. specialize (He (answer (cy_hist c))).
  destruct (f (event _)) eqn:Hf; [|simpl; lia]. apply only_gate in Hf. by destruct (event _).
Qed.
Lemma leaves_catch {A} (m : M A) : leaves f m -> leaves f (catch m).
Proof. intros Hm c. unfold catch. specialize (Hm c). by destruct (m c) as [[r|] c']. Qed.

Ltac leaves :=
  repeat first
    [ assumption | match goal with H : forall _, leaves _ _ |- _ => apply H | H : forall _ _, leaves _ _ |- _ => apply H end
    | match goal with
      | |- leaves _ (bind _ _) => apply leaves_bind; [|intros]
      | |- leaves _ (catch _) => apply leaves_catch
      | |- leaves _ (ask _ _) => apply leaves_ask; intros; exact I
      | |- leaves _ (if ?b then _ else _) => destruct b
      | |- leaves _ (match ?x with _ => _ end) => destruct x
      | |- leaves _ _ => intros ?; reflexivity
      end ].

Lemma run_leaves fuel : leaves f (run env cfg fuel).
Proof.
  assert (leaves f (releaseReader env)).
  { intros c. unfold releaseReader. destruct (cy_reader c); try done.
    by apply (leaves_bind (ask (en_releaseReader env) (fun _ => CReleaseReader))
      (fun err c => (Some (Ok err), c <| cy_reader := ReaderReleased err |>))); [apply leaves_ask|]. }
  assert (leaves f resumeLoad).
  { intros c. unfold resumeLoad. destruct (cy_resume c); [|done]. by rewrite (leaves_ask (fun _ => ()) (fun _ => CResumeLoad)). }
  assert (forall n, leaves f (burstPhase env cfg n)).
  { induction n; cbn [burstPhase]; unfold readWAL, generation, holdReader, unavailableOnCancel, ctxErr, burst; leaves. }
  assert (forall n before, leaves f (restartWAL env n before)).
  { intros n before. induction n; cbn [restartWAL]; unfold readWAL, generation; leaves. }
  assert (forall n k, leaves f (downLoop env n k)).
  { induction n; intros k; cbn [downLoop]; unfold readWAL, generation, unavailableOnCancel, ctxErr, burst; leaves. }
  assert (forall n lastErr, leaves f (pauseAndDrain env n lastErr)).
  { induction n; intros lastErr; cbn [pauseAndDrain]; leaves. }
  assert (forall n, leaves f (catchUpLoop env cfg n)).
  { induction n; cbn [catchUpLoop]; unfold unavailableOnCancel, ctxErr; leaves. }
  unfold run, stoppedPart, stopPhase, downPhase, deferredRestart, restart, validatePhase, scanTail, recordSavedPosition, readWAL,
    generation, uploaded, clock, downtime. leaves.
Qed.
End Leaves.

Lemma run_gate env cfg fuel c : gatesOpen (cy_hist (snd (run env cfg fuel c))) = gatesOpen (cy_hist c).
Proof. unfold gatesOpen. rewrite !run_leaves; [done| |]; intros []; done. Qed.

(** Where the run starts from and what it leaves behind. *)
Lemma cycle_finished env cfg fuel r c :
  (0 < rc_readerHoldBytes cfg)%Z -> cycle env cfg fuel startState = (Some r, c) ->
  gatesOpen (cy_hist c) = 0%Z /\
  ((r = Ok None /\ cy_hist c = [CAcquireGate false; CClock]) \/
   exists outcome c', finished env cfg outcome c' /\ cy_hist c = CReleaseGate :: CClock :: cy_hist c' /\ cy_obs c = cy_obs c' /\
     r = Ok (Some (walResetResult (cy_obs c) (fst outcome) (snd outcome) (en_clock env []) (en_clock env (cy_hist c'))))).
Proof.
  intros Hpos. unfold cycle, clock. unfold bind at 1 2, ask. cbn.
  destruct (en_acquireGate env [CClock]) as [e|]; simpl; [intros [= <- <-]; split; [done|by left]|].
  set (c0 := mkCycle [CAcquireGate true; CClock] walResetObservation_zero 0 NoReader false).
  assert (bursting c0) as H0 by (split; [split_and!; done|done]).
  pose proof (run_spec env cfg Hpos fuel c0 H0) as H.
  pose proof (run_gate env cfg fuel c0) as Hg. unfold bind. change (startState <| cy_hist ::= _ |> <| cy_hist ::= _ |>) with c0.
  destruct (run env cfg fuel c0) as [[[outcome|e]|] c']; [|by destruct H|done]. simpl in Hg.
  intros [= <- <-]. split; [|right; by exists outcome, c'].
  unfold gatesOpen in *. simpl. rewrite !countCalls_cons. simpl. change (countCalls isAcquire [_; _]) with 1%Z in Hg.
  change (countCalls isGateRelease [_; _]) with 0%Z in Hg. lia.
Qed.

Lemma inconclusive_aborts o v e t t' : walResetInconclusive e = true -> wr_Status (walResetResult o v (Some e) t t') = "aborted".
Proof. intros H. unfold walResetResult. by rewrite H. Qed.

(** * Termination *)

(** A step that always ends. *)
Definition ends {A} (m : M A) : Prop := forall c, fst (m c) <> None.
(** A step that ends and only adds to the history. *)
Lemma ends_bind {A B} (m : M A) (k : A -> M B) : ends m -> (forall a, ends (k a)) -> ends (bind m k).
Proof. intros Hm Hk c. unfold bind. specialize (Hm c). destruct (m c) as [[[a|e]|] c']; [apply Hk|done|done]. Qed.
Lemma ends_catch {A} (m : M A) : ends m -> ends (catch m).
Proof. intros Hm c. unfold catch. specialize (Hm c). by destruct (m c) as [[r|] c']. Qed.

Ltac ends :=
  repeat first
    [ assumption | match goal with H : forall _, ends _ |- _ => apply H | H : forall _ _, ends _ |- _ => apply H end
    | match goal with
      | |- ends (bind _ _) => apply ends_bind; [|intros]
      | |- ends (catch _) => apply ends_catch
      | |- ends (if ?b then _ else _) => destruct b
      | |- ends (match ?x with _ => _ end) => destruct x
      | |- ends _ => intros ?; discriminate
      end ].

Section Ends.
Variables (env : environment) (cfg : walResetConfig).

Lemma release_ends : ends (releaseReader env).
Proof. intros c. unfold releaseReader. by destruct (cy_reader c). Qed.
Lemma resume_ends : ends resumeLoad.
Proof. intros c. unfold resumeLoad. by destruct (cy_resume c). Qed.
Lemma restartWAL_ends attempts before : ends (restartWAL env attempts before).
Proof. induction attempts; cbn [restartWAL]; unfold readWAL, generation; ends. Qed.
Lemma downLoop_ends n k : ends (downLoop env n k).
Proof.
  revert k. pose proof restartWAL_ends.
  induction n; intros k; cbn [downLoop]; unfold readWAL, generation, unavailableOnCancel, ctxErr, burst; ends.
Qed.
Lemma pauseAndDrain_ends attempts lastErr : ends (pauseAndDrain env attempts lastErr).
Proof. revert lastErr. induction attempts; intros lastErr; cbn [pauseAndDrain]; ends. Qed.
Lemma restart_ends : ends (restart env).
Proof. unfold restart, downtime. ends. Qed.
Lemma stopPhase_ends : ends (stopPhase env).
Proof. pose proof release_ends. unfold stopPhase, readWAL, generation, clock, recordSavedPosition. ends. Qed.
Lemma downPhase_ends t : ends (downPhase env cfg t).
Proof.
  pose proof downLoop_ends. pose proof pauseAndDrain_ends. pose proof restart_ends.
  unfold downPhase, readWAL, generation, clock, scanTail. ends.
Qed.
Lemma validatePhase_ends before known atStop : ends (validatePhase env before known atStop).
Proof. unfold validatePhase, uploaded. ends. Qed.
End Ends.

(** The number of times a deadline was looked at. *)
Definition isBurstPoll (e : call) : bool := match e with CBurstCtx => true | _ => false end.
Definition isCatchUpPoll (e : call) : bool := match e with CCatchUpPoll => true | _ => false end.

(** The step ends; [f] was called [n] times before it and [Q] times after it. *)
Definition endsAt {A} (f : call -> bool) (n : Z) (m : M A) (Q : A -> Z -> Prop) : Prop :=
  forall c, countCalls f (cy_hist c) = n ->
    match m c with
    | (Some (Ok a), c') => Q a (countCalls f (cy_hist c'))
    | (Some (Err _), _) => True
    | (None, _) => False
    end.
Definition endsSame {A} (f : call -> bool) (m : M A) : Prop := forall n, endsAt f n m (fun _ => eq n).

Section Counted.
Context (f : call -> bool).
Lemma endsAt_bind {A B} n (m : M A) (k : A -> M B) Q : endsSame f m -> (forall a, endsAt f n (k a) Q) -> endsAt f n (bind m k) Q.
Proof.
  intros Hm Hk c Hc. specialize (Hm n c Hc). unfold bind. destruct (m c) as [[[a|e]|] c']; [|done|done]. by apply Hk.
Qed.
Lemma endsSame_bind {A B} (m : M A) (k : A -> M B) : endsSame f m -> (forall a, endsSame f (k a)) -> endsSame f (bind m k).
Proof. intros Hm Hk n. by apply endsAt_bind; [|intros a; apply Hk]. Qed.
Lemma endsSame_ask {X} (answer : list call -> X) event : (forall x, f (event x) = false) -> endsSame f (ask answer event).
Proof. intros He n c Hc. simpl. rewrite countCalls_cons, He. simpl. lia. Qed.
Lemma endsAt_poll (answer : list call -> option string) {B} e (k : option string -> M B) limit n Q :
  f e = true -> (forall h, (limit <= countCalls f h)%Z -> answer h <> None) ->
  ((n < limit)%Z -> endsAt f (n + 1) (k None) Q) -> (forall x m, endsAt f m (k (Some x)) Q) ->
  endsAt f n (bind (ask answer (fun _ => e)) k) Q.
Proof.
  intros He Hlimit Hnone Hsome c Hc. unfold bind, ask. cbn zeta iota.
  destruct (answer (cy_hist c)) as [x|] eqn:Ha.
  - by eapply Hsome.
  - apply Hnone; [|simpl; rewrite countCalls_cons, He; simpl; lia].
    destruct (decide (limit <= countCalls f (cy_hist c))%Z) as [Hl|]; [by destruct (Hlimit _ Hl)|lia].
Qed.
Lemma endsAt_end {A} n (m : M A) : endsSame f m -> endsAt f n m (fun _ _ => True).
Proof. intros Hm c Hc. specialize (Hm n c Hc). by destruct (m c) as [[[a|e]|] c']. Qed.
End Counted.

Ltac counted :=
  repeat match goal with
  | |- endsAt _ _ _ (fun _ _ => True) => apply endsAt_end
  | |- endsSame _ (bind _ _) => apply endsSame_bind; [|intros]
  | |- endsSame _ (ask _ _) => apply endsSame_ask; intros; reflexivity
  | |- endsSame _ (if ?b then _ else _) => destruct b
  | |- endsSame _ (match ?x with _ => _ end) => destruct x
  | |- endsSame _ _ => intros ? ? ?; simpl; done
  end.

Section Deadlines.
Variables (env : environment) (cfg : walResetConfig) (burstPolls catchUpPolls : Z).
(** The two deadlines have passed after so many looks at them. *)
Hypothesis burst_expires : forall h, (burstPolls <= countCalls isBurstPoll h)%Z -> en_burstCtxErr env h <> None.
Hypothesis catchUp_expires : forall h, (catchUpPolls <= countCalls isCatchUpPoll h)%Z -> en_catchUpPoll env h <> None.

Lemma burstPhase_ends fuel n :
  (0 < Z.of_nat fuel)%Z -> (burstPolls < n + Z.of_nat fuel)%Z -> endsAt isBurstPoll n (burstPhase env cfg fuel) (fun _ _ => True).
Proof.
  revert n. induction fuel as [|fuel IH]; intros n Hpos Hn; [lia|]. cbn [burstPhase].
  unfold readWAL, generation, holdReader, unavailableOnCancel, ctxErr, burst.
  do 4 (apply endsAt_bind; [counted|intros]). case_match; [counted|]. apply endsAt_bind; [counted|intros].
  eapply endsAt_poll; [done|exact burst_expires| |intros; counted].
  intros Hlt. do 2 (apply endsAt_bind; [counted|intros]). case_match; [counted|]. apply IH; lia.
Qed.

Lemma catchUpLoop_ends fuel n :
  (0 < Z.of_nat fuel)%Z -> (catchUpPolls < n + Z.of_nat fuel)%Z -> endsAt isCatchUpPoll n (catchUpLoop env cfg fuel) (fun _ _ => True).
Proof.
  revert n. induction fuel as [|fuel IH]; intros n Hpos Hn; [lia|]. cbn [catchUpLoop]. unfold unavailableOnCancel, ctxErr.
  do 2 (apply endsAt_bind; [counted|intros]). case_match; [counted|].
  eapply endsAt_poll; [done|exact catchUp_expires| |intros; counted]. intros Hlt. apply IH; lia.
Qed.

Lemma endsAt_ends {A} f (m : M A) : (forall n, (0 <= n)%Z -> endsAt f n m (fun _ _ => True)) -> ends m.
Proof.
  intros H c. specialize (H (countCalls f (cy_hist c)) ltac:(unfold countCalls; lia) c eq_refl).
  by destruct (m c) as [[[a|e]|] c'].
Qed.

Lemma run_ends fuel : (Z.max burstPolls catchUpPolls < Z.of_nat fuel)%Z -> (0 < fuel) -> ends (run env cfg fuel).
Proof.
  intros Hf Hpos.
  assert (ends (burstPhase env cfg fuel)) by (apply (endsAt_ends isBurstPoll); intros; apply burstPhase_ends; lia).
  assert (ends (catchUpLoop env cfg fuel)) by (apply (endsAt_ends isCatchUpPoll); intros; apply catchUpLoop_ends; lia).
  pose proof (release_ends env). pose proof resume_ends. pose proof (stopPhase_ends env). pose proof (downPhase_ends env cfg).
  pose proof (restart_ends env).
  assert (forall a b d, ends (validatePhase env a b d)) by apply validatePhase_ends.
  unfold run, deferredRestart, stoppedPart, uploaded, downtime, clock. ends; auto.
Qed.
End Deadlines.

(** * A cycle to evaluate *)

Definition isRestartWrite (e : call) : bool := match e with CRestartWrite => true | _ => false end.
Definition isBurst (e : call) : bool := match e with CBurst => true | _ => false end.
(** Two bursts of 2000 frames before the stop, one frame per generation after it. *)
Definition sampleWAL (h : list call) : walGeneration :=
  let restarts := countCalls isRestartWrite h in
  let frames := if (0 <? restarts)%Z then 1%Z else (2000 * countCalls isBurst h)%Z in
  mkGeneration (mkWalHeader walMagicBigEndian 3007000 4096 restarts (10 + restarts) (20 + restarts) true) 16480032 4120 4000 frames frames.
Definition sampleEnv (validate : walResetValidation * option goError) : environment :=
  mkEnv (fun _ => (100, true)%Z) (fun h => Ok (sampleWAL h)) (fun _ => None) (fun _ => None) (fun _ rows => (rows, None))
    (fun _ => None) (fun h => if (5 <=? countCalls isBurstPoll h)%Z then Some "context deadline exceeded" else None) (fun _ => None)
    (fun _ => mkL9 ["l9-1"] true) (fun _ => ("exit 0", None)) (fun h => (1000 + Z.of_nat (length h))%Z)
    (fun _ => Ok (mkSavedPosition 16480032 10 20 7 "0000000000000001-0000000000000007.ltx" true)) (fun _ => (1, None)%Z) (fun _ => None)
    (fun _ => None) (fun h => if (countCalls isResume h <? 1)%Z then Some "busy" else None) (fun _ => None)
    (fun _ from to _ _ => (mkScan true from to 3999 0 0 0 0 "", None)) (fun _ => None)
    (fun h => if (countCalls isCatchUpPoll h <? 2)%Z then Ok (9, 8)%Z else Ok (9, 9)%Z)
    (fun h => if (4 <=? countCalls isCatchUpPoll h)%Z then Some "context deadline exceeded" else None) (fun _ => validate)
    (fun _ => None).
Definition passing : walResetValidation * option goError := (mkValidation "" 9 true true 9 0 "", None).
Definition corrupt : walResetValidation * option goError :=
  (mkValidation "latest_integrity_check" 9 true false 9 0 "", Some (mkErr [] "wrong # of entries in index idx")).

(** C11: however SQLite, Litestream, the replica, the clock and the load behave,
    a cycle that ends has given everything back: the check gate and the read transaction are released,
    every pause of the load resumed, the downtime mark cleared, and Litestream is
    running, or its start was tried and failed and the verdict is inconclusive (status "aborted", for that or an earlier
    reason).  A cycle that did not get the gate does nothing. *)
Theorem cycle_restores_world env cfg fuel r c :
  (0 < rc_readerHoldBytes cfg)%Z -> cycle env cfg fuel startState = (Some r, c) ->
  gatesOpen (cy_hist c) = 0%Z /\ readersOpen (cy_hist c) = 0%Z /\ pausesOpen (cy_hist c) = 0%Z /\ downAfter (cy_hist c) = false /\
  match r with
  | Ok None => cy_hist c = [CAcquireGate false; CClock]
  | Ok (Some v) =>
      litestreamAfter (cy_hist c) = LRunning \/ (litestreamAfter (cy_hist c) = LStartFailed /\ wr_Status v = "aborted")
  | Err _ => False
  end.
Proof.
  intros Hpos Hc. destruct (cycle_finished _ _ _ _ _ Hpos Hc) as [Hg [[-> Hh]|(outcome & c' & (Hr & Hp & Hd & Hl) & Hh & _ & ->)]].
  { by rewrite Hh in *. }
  split; [done|]. rewrite Hh, !readersOpen_cons, !pausesOpen_cons. simpl. rewrite Hr, Hp, Hd. do 3 (split; [done|]).
  destruct Hl as [[Hl _]|[Hl (e & He & Hinc)]]; [by left|right]. split; [done|]. rewrite He. by apply inconclusive_aborts.
Qed.
Lemma cycle_restores_world_witness :
  exists v c, cycle (sampleEnv passing) newWALResetCheck 6 startState = (Some (Ok (Some v)), c) /\ readersOpen (cy_hist c) = 0%Z /\
    wr_Status v = "passed".
Proof.
  eexists _, _. split; [vm_compute; reflexivity|]. split; [|reflexivity].
  eapply (cycle_restores_world (sampleEnv passing) newWALResetCheck 6); [done|vm_compute; reflexivity].
Defined.

(** C9: a cycle passes or fails only on evidence: Litestream was restarted, the WAL
    was reset often enough while it was down, the measurements confirm the shape of
    the stale frames, the replica reached the primary, no snapshot appeared, and the
    restores, made while Litestream ran and the load was resumed, decided which. *)
Theorem verdict_rests_on_shape env cfg fuel v c :
  (0 < rc_readerHoldBytes cfg)%Z -> cycle env cfg fuel startState = (Some (Ok (Some v)), c) -> wr_Status v <> "aborted" ->
  let o := cy_obs c in
  ob_restarted o = true /\ (rc_minResets cfg <= ob_resets o)%Z /\ fst (shapeEvidence o) = walResetShapeConfirmed /\
  ob_syncTXID o <> 0%Z /\ (ob_syncTXID o <= ob_replicatedTXID o)%Z /\ snapshotInterference o = None /\
  exists h, CValidate :: h `suffix_of` cy_hist c /\ litestreamAfter h = LRunning /\ downAfter h = false /\ pausesOpen h = 0%Z /\
    match snd (en_validate env h) with
    | None => wr_Status v = "passed" /\ wr_Passed v = true
    | Some e => walResetInconclusive e = false /\ wr_Status v = "failed" /\ wr_Passed v = false /\
                wr_ErrorMessage v = walResetFailureMessage (va_phase (fst (en_validate env h))) e
    end.
Proof.
  intros Hpos Hc Hst o.
  destruct (cycle_finished _ _ _ _ _ Hpos Hc) as [_ [[? _]|([validation err] & c' & (_ & _ & _ & Hl) & Hh & Ho & [= ->])]]; [done|].
  simpl in Hst. assert (forall e, err = Some e -> walResetInconclusive e = false) as Hnot.
  { intros e ->. destruct (walResetInconclusive e) eqn:He; [|done]. by rewrite inconclusive_aborts in Hst. }
  assert (~ isInconclusive (validation, err)) as Hcon by (intros (e & He & Hi); simpl in He; rewrite (Hnot e He) in Hi; done).
  destruct Hl as [[_ [(Hr & [Hm Hs] & [Hk1 Hk2] & h & Hsuf & Hl & Hd & Hp & Hv & He)|]]|[_ ]]; [|done|done].
  simpl in Hv, He. rewrite <- Ho in *. assert (snapshotInterference o = None) as Hi.
  { unfold o. destruct (snapshotInterference (cy_obs c)) as [e|] eqn:Hsn; [|done]. specialize (Hnot e He). revert Hsn.
    unfold snapshotInterference. repeat case_match; intros [= <-]; done. }
  do 6 (split; [done|]). exists h. split; [rewrite Hh; by do 2 apply suffix_cons_r|]. do 3 (split; [done|]). unfold o in Hi.
  rewrite Hi in He. subst validation. rewrite <- He. destruct err as [e|]; [|done]. specialize (Hnot e eq_refl). unfold walResetResult.
  simpl. by rewrite Hnot.
Qed.
Lemma verdict_rests_on_shape_witness :
  exists v c, cycle (sampleEnv corrupt) newWALResetCheck 6 startState = (Some (Ok (Some v)), c) /\ wr_Status v = "failed" /\
    fst (shapeEvidence (cy_obs c)) = walResetShapeConfirmed.
Proof.
  eexists _, _. split; [vm_compute; reflexivity|]. split; [reflexivity|].
  eapply (verdict_rests_on_shape (sampleEnv corrupt) newWALResetCheck 6); [done|vm_compute; reflexivity|discriminate].
Defined.

(** A cycle always ends, skipped or with a verdict: when the burst's deadline has passed
    after [burstPolls] looks and the catch-up's after [catchUpPolls], one more round of fuel is
    enough, whatever else happens. *)
Theorem cycle_terminates env cfg burstPolls catchUpPolls fuel :
  (forall h, (burstPolls <= countCalls isBurstPoll h)%Z -> en_burstCtxErr env h <> None) ->
  (forall h, (catchUpPolls <= countCalls isCatchUpPoll h)%Z -> en_catchUpPoll env h <> None) ->
  (0 <= burstPolls)%Z -> (Z.max burstPolls catchUpPolls < Z.of_nat fuel)%Z -> (0 < rc_readerHoldBytes cfg)%Z ->
  exists r, fst (cycle env cfg fuel startState) = Some (Ok r) /\
    match r with
    | None => en_acquireGate env [CClock] <> None
    | Some v => en_acquireGate env [CClock] = None /\ wr_Status v ∈ ["passed"; "failed"; "aborted"]
    end.
Proof.
  intros Hb Hk H0 Hf Hpos. pose proof (run_ends env cfg _ _ Hb Hk fuel Hf ltac:(lia)) as He.
  assert (ends (cycle env cfg fuel)) as Hend by (unfold cycle, clock; ends).
  specialize (Hend startState). destruct (cycle env cfg fuel startState) as [[r|] c] eqn:Hc; [|done].
  destruct (cycle_finished _ _ _ _ _ Hpos Hc) as [_ [[-> Hh]|([validation err] & c' & _ & Hh & Ho & ->)]].
  - exists None. split; [done|]. revert Hc. unfold cycle, clock, bind, ask. simpl.
    destruct (en_acquireGate env [CClock]); [done|]. intros Hc. exfalso.
    destruct (run env cfg fuel _) as [[[outcome|e]|] c1]; simpl in Hc; by inversion Hc; subst.
  - eexists (Some _). split; [done|]. split.
    + revert Hc. unfold cycle, clock, bind, ask. simpl. by destruct (en_acquireGate env [CClock]); [intros [= ?]|].
    + simpl. unfold walResetResult. repeat case_match; simpl; set_solver.
Qed.
Lemma cycle_terminates_witness :
  exists r, fst (cycle (sampleEnv passing) newWALResetCheck 6 startState) = Some (Ok r) /\
    match r with
    | None => en_acquireGate (sampleEnv passing) [CClock] <> None
    | Some v => en_acquireGate (sampleEnv passing) [CClock] = None /\ wr_Status v ∈ ["passed"; "failed"; "aborted"]
    end.
Proof.
  apply (cycle_terminates (sampleEnv passing) newWALResetCheck 5 4); [| |done|done|done].
  - intros h Hh. simpl. rewrite (proj2 (Z.leb_le 5 _) Hh). discriminate.
  - intros h Hh. simpl. rewrite (proj2 (Z.leb_le 4 _) Hh). discriminate.
Defined.

(** * What the gate makes of a failed cycle *)

(** The restore errors that are evidence of corrupt or lost data. *)
Definition dataDefect (text : string) : Prop :=
  let classification := ClassifyVerificationFailure "restore" text in
  fc_ObjectStore classification = None /\
  (In (fc_Signature classification) ["restore_decode_error"; "restore_missing_ltx"; "sqlite_index_mismatch"] \/
   (fc_Signature classification = "restore_plan_failed" /\ walResetDataDefectMarker text = true)).

Lemma restoreSignature_defect e : snd (walResetRestoreSignature e) = true <-> dataDefect (ge_text e).
Proof.
  unfold walResetRestoreSignature, dataDefect. set (cl := ClassifyVerificationFailure "restore" (ge_text e)). cbv zeta.
  destruct (fc_ObjectStore cl); [simpl; naive_solver|].
  destruct (slices_Contains _ (fc_Signature cl)) eqn:Hin; [apply slices_Contains_In in Hin|apply slices_Contains_false in Hin].
  { simpl snd. tauto. }
  destruct (fc_Signature cl =s "restore_plan_failed") eqn:Hp; cbn [snd];
    [apply String.eqb_eq in Hp|apply String.eqb_neq in Hp; split; [discriminate|]]; tauto.
Qed.

(** A restore or comparison error of the validation is conclusive exactly when
    it is evidence against the replica: no deadline or cancellation, no lack of room, no
    locked comparison, no missing plan, no phase before the restore, and for a restore a
    data defect that neither the object store nor incomplete evidence explains. *)
Theorem conclusive_error_iff phase e :
  walResetInconclusive e = false ->
  walResetInconclusive (snd (walResetValidationError phase e)) = false <->
  (forall m, m ∈ [verifierDeadlineError; contextDeadlineExceeded; contextCanceled; restoreCapacityInconclusiveError;
                  restoredComparisonLockedError; errWALResetMissingPlan; errWALResetLatestAdvanced] -> errorsIs e m = false) /\
  TrimPrefix phase "latest_" <> "source_snapshot" /\ TrimPrefix phase "latest_" <> "restore_preflight" /\
  (TrimPrefix phase "latest_" = "restore" -> errorsIs e restoreEvidenceInconclusiveError = false /\ dataDefect (ge_text e)).
Proof.
  intros He. rewrite <- restoreSignature_defect, <- Forall_forall. rewrite !Forall_cons, Forall_nil.
  unfold walResetValidationError. set (bare := TrimPrefix phase "latest_"). cbv zeta.
  destruct (errorsIs e verifierDeadlineError), (errorsIs e contextDeadlineExceeded), (errorsIs e contextCanceled);
    try (split; [discriminate|intros [Hm _]; decompose [and] Hm; discriminate]).
  destruct (errorsIs e restoreCapacityInconclusiveError), (errorsIs e restoredComparisonLockedError),
    (errorsIs e errWALResetMissingPlan), (errorsIs e errWALResetLatestAdvanced);
    try (split; [discriminate|intros [Hm _]; decompose [and] Hm; discriminate]).
  cbn [orb]. destruct (bare =s "source_snapshot") eqn:B1; [apply String.eqb_eq in B1; simpl; naive_solver|].
  destruct (bare =s "restore_preflight") eqn:B2; [apply String.eqb_eq in B2; simpl; naive_solver|]. cbn [orb].
  apply String.eqb_neq in B1, B2.
  destruct (bare =s "restore") eqn:B3; [apply String.eqb_eq in B3|apply String.eqb_neq in B3; simpl; naive_solver].
  destruct (walResetRestoreSignature e) as [signature [|]]; [|simpl; naive_solver].
  destruct (errorsIs e restoreEvidenceInconclusiveError); cbn [negb orb snd]; [simpl; naive_solver|].
  assert (walResetInconclusive (mkErr (ge_marks e) (signature +:+ ": " +:+ ge_text e)) = walResetInconclusive e) as -> by done.
  naive_solver.
Qed.
Lemma conclusive_error_iff_witness :
  walResetInconclusive (snd (walResetValidationError "latest_restore" (mkErr [] "decode database: checksum mismatch"))) = false.
Proof.
  apply (conclusive_error_iff "latest_restore" (mkErr [] "decode database: checksum mismatch")); [done|]. split_and!; [|done|done|].
  - intros m _. reflexivity.
  - intros _. split; [done|]. split; [vm_compute; reflexivity|left; vm_compute; tauto].
Defined.

(** The signature of the message a failed cycle reports. *)
Definition failureSignature (phase : string) : string :=
  let phase := TrimPrefix phase "latest_" in
  if phase =s "integrity_check" then SignatureWALResetIntegrityFailed
  else if phase =s "compare" then SignatureWALResetLogicalMismatch
  else SignatureWALResetRestoreFailed.

Lemma failure_message_signature stage original phase e :
  let text := ToLower (walResetFailureMessage phase e) in
  isDiskCapacityFailure text = false -> inferFailureSignature stage text original = failureSignature phase.
Proof.
  intros text Hd. unfold inferFailureSignature. rewrite Hd. subst text. clear Hd. unfold walResetFailureMessage, failureSignature.
  assert ((if HasPrefix phase "latest_" then TrimPrefix phase "latest_" else phase) = TrimPrefix phase "latest_") as ->
    by (unfold TrimPrefix; by destruct (HasPrefix phase "latest_")).
  unfold ToLower.
  destruct (TrimPrefix phase "latest_" =s "integrity_check"); [|destruct (TrimPrefix phase "latest_" =s "compare")];
    rewrite str_map_app; match goal with |- context [str_map lower_char ?p +:+ ?r] => generalize r; intros rest end.
  - change (HasPrefix _ (walResetFailurePrefix +:+ "restore failed")) with false.
    change (str_map lower_char "wal reset integrity failed") with "wal reset integrity failed".
    by rewrite (HasPrefix_app "wal reset integrity failed" rest : HasPrefix _ (walResetFailurePrefix +:+ "integrity failed") = true).
  - change (HasPrefix _ (walResetFailurePrefix +:+ "restore failed")) with false.
    change (HasPrefix _ (walResetFailurePrefix +:+ "integrity failed")) with false.
    change (str_map lower_char "wal reset logical mismatch") with "wal reset logical mismatch".
    by rewrite (HasPrefix_app "wal reset logical mismatch" rest : HasPrefix _ (walResetFailurePrefix +:+ "logical mismatch") = true).
  - change (str_map lower_char "wal reset restore failed") with "wal reset restore failed".
    by rewrite (HasPrefix_app "wal reset restore failed" rest : HasPrefix _ (walResetFailurePrefix +:+ "restore failed") = true).
Qed.

(** The failure a cycle reports is one the release gate recognises as the
    reproduced bug, with the signature of its phase, unless its text names the disk, a locked comparison or
    the object store. *)
Theorem failed_cycle_is_reproduction phase e v :
  let message := walResetFailureMessage phase e in
  v_CheckType v = walResetCheckType -> v_ErrorMessage v = message -> classifiedMessage message = message ->
  isDiskCapacityFailure (ToLower message) = false -> RestoredComparisonLocked message = false ->
  ParseObjectStoreFailure message = None ->
  fc_Signature (ClassifyVerificationFailure (v_CheckType v) (v_ErrorMessage v)) = failureSignature phase /\
  walResetReproduction v = true.
Proof.
  intros message Ht Hm Hc Hd Hl Ho.
  assert (fc_Signature (ClassifyVerificationFailure (v_CheckType v) (v_ErrorMessage v)) = failureSignature phase) as Hs.
  { rewrite Hm. unfold ClassifyVerificationFailure. rewrite Hc, Hd, Hl, Ho.
    rewrite (failure_message_signature _ message phase e Hd). cbv zeta. by case_match. }
  split; [done|]. unfold walResetReproduction. rewrite Hs, Ht. unfold failureSignature.
  destruct (_ =s "integrity_check"); [|destruct (_ =s "compare")]; reflexivity.
Qed.
Definition corruptVerification : Verification :=
  Verification_zero <| v_CheckType := "walreset" |>
    <| v_ErrorMessage := "wal reset integrity failed (latest): wrong # of entries in index idx" |>.
Lemma failed_cycle_is_reproduction_witness : walResetReproduction corruptVerification = true.
Proof.
  apply (failed_cycle_is_reproduction "latest_integrity_check" (mkErr [] "wrong # of entries in index idx"));
    vm_compute; reflexivity.
Defined.

(** * The frame scan *)

(** The offsets of the frames that fit between two offsets. *)
Fixpoint offsetsFrom (n : nat) (offset frameSize : Z) : list Z :=
  match n with O => [] | S n => offset :: offsetsFrom n (offset + frameSize) frameSize end.
Definition frameOffsets (from to frameSize : Z) : list Z := offsetsFrom (Z.to_nat ((to - from) / frameSize)) from frameSize.
Definition saltsAt (file : list Z) (offset : Z) : Z * Z :=
  let header := slice offset (offset + 16) file in (beUint32 (slice 8 12 header), beUint32 (slice 12 16 header)).
Definition readable (file : list Z) (offset : Z) : Prop := (offset + 16 <= zlen file)%Z.

Lemma known_spec allowed s : existsb (fun salts => (fst salts =? fst s)%Z && (snd salts =? snd s)%Z) allowed = true <-> s ∈ allowed.
Proof.
  rewrite existsb_exists. setoid_rewrite andb_true_iff. setoid_rewrite Z.eqb_eq. split.
  - intros ([a b] & Hin & Ha & Hb). destruct s. simpl in *. subst. by apply list_elem_of_In.
  - intros H. exists s. by apply list_elem_of_In in H.
Qed.

(** A scan is clean exactly when every frame could be read and carries known salts. *)
Lemma scanFrames_clean fuel file offset to frameSize allowed scan :
  (0 < frameSize)%Z -> (Z.of_nat fuel * frameSize <= Z.max 0 (to - offset))%Z -> (0 <= ss_foreignFrames scan)%Z ->
  match scanFrames fuel file offset to frameSize allowed scan with
  | (Ok scan', _) => Forall (readable file) (offsetsFrom fuel offset frameSize) /\
      (ss_foreignFrames scan <= ss_foreignFrames scan')%Z /\
      (ss_foreignFrames scan' = ss_foreignFrames scan <-> Forall (fun at_ => saltsAt file at_ ∈ allowed) (offsetsFrom fuel offset frameSize)) /\
      ss_err scan' = ss_err scan
  | (Err e, _) => ~ Forall (readable file) (offsetsFrom fuel offset frameSize)
  end.
Proof.
  intros Hpos. revert offset scan. induction fuel as [|fuel IH]; intros offset scan Hfit Hz; cbn [scanFrames offsetsFrom].
  { split_and!; done. }
  assert (offset + frameSize <= to /\ Z.of_nat fuel * frameSize <= to - (offset + frameSize))%Z as [Hin Hrest] by nia.
  rewrite (proj2 (Z.leb_le (offset + frameSize) to) Hin). cbn [negb]. unfold ReadAt.
  destruct (offset + 16 <=? zlen file)%Z eqn:Hr; cbn [negb].
  2: { intros H. apply Forall_cons in H as [H _]. unfold readable in H. lia. }
  pose proof (known_spec allowed (saltsAt file offset)) as Hk. unfold saltsAt in Hk at 1 2. cbn [fst snd] in Hk.
  match goal with |- context [if ?b then ?s1 else ?s2] => set (known := b) in *; set (next := if known then s1 else s2) end.
  assert (ss_foreignFrames next = ss_foreignFrames scan + (if known then 0 else 1))%Z as Hnext
    by (unfold next; destruct known; simpl; [lia|case_match; simpl; lia]).
  assert (ss_err next = ss_err scan) as Herr by (unfold next; destruct known; [done|case_match; done]).
  specialize (IH (offset + frameSize)%Z next). destruct (scanFrames fuel file _ to frameSize allowed next) as [[scan'|e] ?].
  - destruct IH as (HF & Hge & Hiff & He); [lia|destruct known; lia|]. rewrite !Forall_cons. unfold readable at 1.
    split_and!; [lia|done|destruct known; lia| |congruence].
    destruct known; [rewrite <- Hiff, Hnext|].
    + assert (saltsAt file offset ∈ allowed) by by apply Hk. split; [intros; split; [done|lia]|intros [_ ?]; lia].
    + split; [intros; lia|]. intros [H _]. by apply Hk in H.
  - rewrite Forall_cons. intros [_ H]. by apply IH in H; [|lia|destruct known; lia].
Qed.

(** The tail scan of the WAL file on disk, as [scanTail] records it. *)
Definition fileTail (o : walResetObservation) (file : option (list Z)) : walResetSaltScan :=
  if (ob_savedPosition o <=? walHeaderSize)%Z || negb (wh_valid (wg_header (ob_finalWAL o))) || (wg_frameSize (ob_finalWAL o) <=? 0)%Z
  then walResetSaltScan_zero
  else match scanWALFrameSalts file (writtenEnd (ob_finalWAL o)) (ob_savedPosition o) (wg_frameSize (ob_finalWAL o))
               [(wh_salt1 (ob_savedHeader o), wh_salt2 (ob_savedHeader o))] with
       | (scan, Some e) => scan <| ss_err := e |> <| ss_checked := false |>
       | (scan, None) => scan
       end.

(** The shape is confirmed exactly when it is there: the saved position is
    known and inside the WAL file, every generation written after the stop ended below it,
    the final generation reaches furthest, and each frame from its end up to the
    saved position can be read and carries the salts of the saved generation. *)
Theorem shape_confirmed_iff o file :
  ob_tail o = fileTail o (Some file) -> (0 < wg_frameSize (ob_finalWAL o))%Z ->
  fst (shapeEvidence o) = walResetShapeConfirmed <->
  (walHeaderSize < ob_savedPosition o)%Z /\ wh_valid (wg_header (ob_finalWAL o)) = true /\
  (ob_maxGenerationWritten o < ob_savedPosition o <= wg_fileBytes (ob_finalWAL o))%Z /\
  (ob_maxEarlierGenerationWritten o <= writtenEnd (ob_finalWAL o))%Z /\
  Forall (fun at_ => readable file at_ /\ saltsAt file at_ = (wh_salt1 (ob_savedHeader o), wh_salt2 (ob_savedHeader o)))
    (frameOffsets (writtenEnd (ob_finalWAL o)) (ob_savedPosition o) (wg_frameSize (ob_finalWAL o))).
Proof.
  intros Htail Hfs. unfold shapeEvidence. rewrite Htail. unfold fileTail.
  destruct (ob_savedPosition o <=? walHeaderSize)%Z eqn:H1; [split; [done|lia]|].
  destruct (wh_valid (wg_header (ob_finalWAL o))); [|split; [done|naive_solver]]. cbn [negb orb].
  rewrite (proj2 (Z.leb_gt (wg_frameSize (ob_finalWAL o)) 0) Hfs).
  destruct (wg_fileBytes (ob_finalWAL o) <? ob_savedPosition o)%Z eqn:H2; [split; [done|lia]|].
  destruct (ob_savedPosition o <=? ob_maxGenerationWritten o)%Z eqn:H3; [split; [done|lia]|].
  destruct (writtenEnd (ob_finalWAL o) <? ob_maxEarlierGenerationWritten o)%Z eqn:H4; [split; [done|lia]|].
  unfold scanWALFrameSalts. rewrite (proj2 (Z.leb_gt (wg_frameSize (ob_finalWAL o)) 0) Hfs).
  set (from := writtenEnd (ob_finalWAL o)) in *. set (to := ob_savedPosition o) in *. set (size := wg_frameSize (ob_finalWAL o)) in *.
  set (salts := (wh_salt1 (ob_savedHeader o), wh_salt2 (ob_savedHeader o))).
  rewrite Forall_and.
  pose proof (scanFrames_clean (Z.to_nat ((to - from) / size)) file from to size [salts]
    (walResetSaltScan_zero <| ss_from := from |> <| ss_to := to |>) Hfs) as Hs.
  unfold frameOffsets. set (offs := offsetsFrom _ from size) in *.
  assert (Z.of_nat (Z.to_nat ((to - from) / size)) * size <= Z.max 0 (to - from))%Z as Hfit.
  { pose proof (Z.mul_div_le (to - from) size Hfs). destruct (decide (0 <= (to - from) / size)%Z); lia. }
  specialize (Hs Hfit ltac:(done)).
  destruct (scanFrames _ file from to size [salts] _) as [[scan|e] part].
  - destruct Hs as (Hr & Hge & Hiff & He). cbn [ss_err ss_checked]. simpl in He, Hiff, Hge.
    assert (Forall (fun at_ => saltsAt file at_ ∈ [salts]) offs <-> Forall (fun at_ => saltsAt file at_ = salts) offs) as Hone.
    { rewrite !Forall_forall. by setoid_rewrite list_elem_of_singleton. }
    simpl. rewrite He. simpl. destruct (0 <? ss_foreignFrames scan)%Z eqn:Hf; simpl.
    + split; [done|]. intros (_ & _ & _ & _ & _ & Hall). apply Hone, Hiff in Hall. lia.
    + split; [|done]. intros _. split_and!; try done; try lia. apply Hone, Hiff. lia.
  - simpl. destruct (e =s ""); (split; [done|]); intros (_ & _ & _ & _ & Hr & _); done.
Qed.
(** Two frames of a saved generation behind a final generation of none. *)
Definition sampleFrame : list Z := replicate 8 0%Z ++ [0;0;0;10;0;0;0;20]%Z ++ replicate 16 0%Z.
Definition sampleFile : list Z := replicate 32 0%Z ++ sampleFrame ++ sampleFrame.
Definition sampleObservation : walResetObservation :=
  let o := walResetObservation_zero <| ob_savedPosition := 96%Z |>
    <| ob_savedHeader := mkWalHeader walMagicBigEndian 3007000 4096 1 10 20 true |>
    <| ob_finalWAL := mkGeneration (mkWalHeader walMagicBigEndian 3007000 4096 4 13 23 true) 96 32 2 0 0 |> in
  o <| ob_tail := fileTail o (Some sampleFile) |>.
Lemma shape_confirmed_iff_witness : fst (shapeEvidence sampleObservation) = walResetShapeConfirmed.
Proof.
  apply (shape_confirmed_iff sampleObservation sampleFile); [vm_compute; reflexivity|done|].
  split_and!; try (vm_compute; done). change (frameOffsets _ _ _) with [32; 64]%Z. rewrite !Forall_cons. split_and!; vm_compute; done.
Defined.
