(* ===== verification/LitestreamProcess.v ===== *)
(** The Litestream process of a worker: the stop, restart and monitoring code of
    [worker/litestream_manager.go] and the two operations of the WAL reset check
    on it, [stopLitestreamForCheck] and [ensureLitestreamForCheck] of
    [worker/walreset_check.go].

    The goroutines run concurrently: the check, the goroutine that finishes a
    stop after the check has given up on it, the goroutine that waits for each
    process, and its monitor.  [fire] performs one atomic step of one of them, a
    critical section of a process's lock or a read of the manager's; a run is any
    sequence of steps.  What a process was sent and when it was marked are kept as
    history. *)
From S2P Require Import Prelude GoStrings Model GoTime Classification GateFleet.

(** * Exit snapshots *)

Inductive osSignal := SIGTERM | SIGKILL | SIGINT.
#[export] Instance osSignal_eq_dec : EqDecision osSignal.
Proof. solve_decision. Defined.
(** [sig.String()]. *)
Definition signalString (s : osSignal) : string :=
  match s with SIGTERM => "terminated" | SIGKILL => "killed" | SIGINT => "interrupt" end.

Record ProcessExitSnapshot := mkExit {
  ex_Process : string;
  ex_ExitedAt : time;
  ex_Error : string;
  ex_ExitCode : option Z;
  ex_Signal : string
}.

(** What [cmd.Wait] and the flush of the log report: the text, and for an
    [exec.ExitError] its code and the signal that ended the process. *)
Record waitError := mkWait { we_text : string; we_exit : option (Z * option string) }.

Definition processExitSnapshot (process : string) (exitedAt : time) (err : option waitError) : ProcessExitSnapshot :=
  match err with
  | None => mkExit process exitedAt "" (Some 0%Z) ""
  | Some e =>
      match we_exit e with
      | None => mkExit process exitedAt (we_text e) None ""
      | Some (code, sig) => mkExit process exitedAt (we_text e) (Some code) (default "" sig)
      end
  end.

Definition describeProcessExit (exit : option ProcessExitSnapshot) : string :=
  match exit with
  | None => "unknown"
  | Some exit =>
      if negb (ex_Signal exit =s "") then "signal:" +:+ ex_Signal exit
      else match ex_ExitCode exit with
           | Some code => "exit:" +:+ fmt_int code
           | None => GateFleet.firstNonEmpty [ex_Error exit; "unknown"]
           end
  end.

Definition signalMatches (reported : string) (sig : osSignal) : bool := EqualFold (TrimSpace reported) (signalString sig).

(** * Processes and requests *)

Record litestreamProcess := mkProc {
  lp_alive : bool;
  (** [cmd.Wait] has returned: the error is stored, [done] not yet closed *)
  lp_exit : option ProcessExitSnapshot;
  lp_err : option waitError;
  lp_done : bool;
  lp_expectedExit : bool;
  (** the request responsible for the exit *)
  lp_stop : option nat;
  (** history: the requests whose signal was delivered, newest first *)
  lp_signals : list nat;
  (** history: a stop was requested while the process lived *)
  lp_markedAlive : bool;
  (** its monitor has looked at the exit, and what it did *)
  lp_watched : option bool
}.
#[export] Instance litestreamProcess_eta : Settable litestreamProcess :=
  fun r => mkProc (lp_alive r) (lp_exit r) (lp_err r) (lp_done r) (lp_expectedExit r) (lp_stop r) (lp_signals r)
             (lp_markedAlive r) (lp_watched r).
Definition newProcess : litestreamProcess := mkProc true None None false false None [] false None.

(** A stop request: the process it captured and its signal. *)
Record litestreamStop := mkStop { sp_proc : nat; sp_sig : osSignal }.

Inductive stopResult :=
| StopNotRunning
| StopExitedBefore
| StopSuperseded
| StopSignalFailed
| StopNotAttributed
| StopTimedOut
| Stopped.
#[export] Instance stopResult_eq_dec : EqDecision stopResult.
Proof. solve_decision. Defined.

(** The outcome of [cmd.Process.Signal]. *)
Inductive delivery := Delivered | ProcessDone | SignalError.

(** [finishStop] of a request: before its signal, waiting for the exit (the
    process was found done, or the signal was delivered), or returned. *)
Inductive finishPC := FSignal | FGone | FWait | FReturned (r : stopResult).

(** The check's goroutine. *)
Inductive checkPC :=
| CIdle
| CStopTest (p : option nat) (sig : osSignal)       (* beginStop: about to look at done *)
| CStopMark (p : nat) (sig : osSignal)              (* beginStop: about to take the lock *)
| CStopWait (r : nat)                             (* waiting for finishStop or its deadline *)
| CEnsureTest                                     (* about to look at litestreamRunning *)
| CEnsureExpected                                 (* about to look at litestreamExitExpected *)
| CEnsureSync                                     (* waitForFirstSync of a live process *)
| CKillTest (p : option nat)
| CKillMark (p : nat)
| CKillFinish (r : nat) (pc : finishPC)
| CStart
| CStartSync.

Record litestreamManager := mkManager {
  mg_procs : list litestreamProcess;
  (** [litestreamProc] *)
  mg_current : option nat;
  mg_stops : list litestreamStop;
  (** the goroutines that run [finishStop], by request *)
  mg_finishers : gmap nat finishPC;
  mg_check : checkPC;
  (** history: the last results of the check's operations *)
  mg_stopped : option (nat * stopResult);
  mg_ensured : option bool;
  (** the run was cancelled by a monitor *)
  mg_cancelled : bool
}.
#[export] Instance litestreamManager_eta : Settable litestreamManager :=
  fun r => mkManager (mg_procs r) (mg_current r) (mg_stops r) (mg_finishers r) (mg_check r) (mg_stopped r) (mg_ensured r)
             (mg_cancelled r).

Definition updateProc (p : nat) (f : litestreamProcess -> litestreamProcess) (s : litestreamManager) : litestreamManager :=
  s <| mg_procs ::= alter f p |>.

(** [litestreamRunning] and [litestreamExitExpected] of the current process. *)
Definition currentProcess (s : litestreamManager) : option litestreamProcess := p ← mg_current s; mg_procs s !! p.
Definition litestreamRunning (s : litestreamManager) : bool :=
  match currentProcess s with None => false | Some proc => negb (lp_done proc) end.
Definition litestreamExitExpected (s : litestreamManager) : bool :=
  match currentProcess s with None => false | Some proc => lp_expectedExit proc end.

(** The critical section of [beginStop]. *)
Definition beginStop (p : nat) (sig : osSignal) (s : litestreamManager) : nat * litestreamManager :=
  let r := length (mg_stops s) in
  (r, updateProc p (fun proc => proc <| lp_expectedExit := true |> <| lp_stop := Some r |>
                                     <| lp_markedAlive ::= orb (lp_alive proc) |>) s
        <| mg_stops ::= fun l => l ++ [mkStop p sig] |>).

(** [finishStop], one step: the signal under the lock, or the return once [done]
    is closed; [None] while it waits. *)
Definition finishStop (r : nat) (pc : finishPC) (answer : delivery) (s : litestreamManager) : option (finishPC * litestreamManager) :=
  stop ← mg_stops s !! r;
  proc ← mg_procs s !! sp_proc stop;
  match pc with
  | FSignal =>
      if negb (bool_decide (lp_stop proc = Some r)) then Some (FReturned StopSuperseded, s)
      else match answer with
           | Delivered =>
               if bool_decide (is_Some (lp_exit proc)) then None
               else Some (FWait, updateProc (sp_proc stop) (fun proc => proc <| lp_signals ::= cons r |>) s)
           | ProcessDone => if lp_alive proc then None else Some (FGone, s)
           | SignalError => Some (FReturned StopSignalFailed, s)
           end
  | FGone => if lp_done proc then Some (FReturned StopExitedBefore, s) else None
  | FWait =>
      if lp_done proc
      then Some (FReturned match lp_exit proc with
                           | Some exit => if negb (ex_Signal exit =s "") && negb (signalMatches (ex_Signal exit) (sp_sig stop))
                                          then StopNotAttributed else Stopped
                           | None => Stopped
                           end, s)
      else None
  | FReturned _ => None
  end.

(** The errors after which [ensureLitestreamForCheck] still starts a process. *)
Definition replaceable (r : stopResult) : bool :=
  match r with Stopped | StopExitedBefore | StopNotRunning | StopNotAttributed => true | _ => false end.

(** * Steps *)

Inductive managerEvent :=
| EExit (p : nat)                                  (* the process dies *)
| EFinish (p : nat) (at_ : time) (err : option waitError) (* cmd.Wait returned: finish stores the exit *)
| EClose (p : nat)                                 (* finish closes done *)
| EMonitor (p : nat) (runCancelled : bool)         (* the monitor wakes up *)
| EFinishStop (r : nat) (answer : delivery)        (* a goroutine of stopLitestreamForCheck *)
| EStopCall (sig : osSignal)
| EStopStep
| EStopTimeout
| EEnsureCall
| EEnsureStep (ready started : bool) (answer : delivery).

(** [finish]: the exit is stored under the lock, then [done] is closed. *)
Definition finish (p : nat) (at_ : time) (err : option waitError) (s : litestreamManager) : option litestreamManager :=
  proc ← mg_procs s !! p;
  if lp_alive proc || bool_decide (is_Some (lp_exit proc)) then None
  else Some (updateProc p (fun proc => proc <| lp_err := err |>
                             <| lp_exit := Some (processExitSnapshot "litestream" at_ err) |>) s).
Definition closeDone (p : nat) (s : litestreamManager) : option litestreamManager :=
  proc ← mg_procs s !! p;
  if bool_decide (is_Some (lp_exit proc)) && negb (lp_done proc)
  then Some (updateProc p (fun proc => proc <| lp_done := true |>) s) else None.

(** The monitor of a process, once [done] is closed. *)
Definition monitorProcess (p : nat) (runCancelled : bool) (s : litestreamManager) : option litestreamManager :=
  proc ← mg_procs s !! p;
  if lp_done proc && bool_decide (lp_watched proc = None)
  then let cancels := negb runCancelled && negb (lp_expectedExit proc) in
       Some (updateProc p (fun proc => proc <| lp_watched := Some cancels |>) s <| mg_cancelled ::= orb cancels |>)
  else None.

(** The death of a process, its reaping and its monitor. *)
Definition fireProcess (e : managerEvent) (s : litestreamManager) : option litestreamManager :=
  match e with
  | EExit p =>
      proc ← mg_procs s !! p;
      if lp_alive proc then Some (updateProc p (fun proc => proc <| lp_alive := false |>) s) else None
  | EFinish p at_ err => finish p at_ err s
  | EClose p => closeDone p s
  | EMonitor p runCancelled => monitorProcess p runCancelled s
  | _ => None
  end.

(** [stopLitestreamForCheck] and [stopLitestream]. *)
Definition fireStop (e : managerEvent) (s : litestreamManager) : option litestreamManager :=
  match e, mg_check s with
  | EStopCall sig, CIdle => Some (s <| mg_check := CStopTest (mg_current s) sig |>)
  | EStopStep, CStopTest None sig => Some (s <| mg_check := CIdle |> <| mg_stopped := None |>)
  | EStopStep, CStopTest (Some p) sig =>
      proc ← mg_procs s !! p;
      Some (if lp_done proc then s <| mg_check := CIdle |> <| mg_stopped := None |> else s <| mg_check := CStopMark p sig |>)
  | EStopStep, CStopMark p sig =>
      let '(r, s) := beginStop p sig s in
      Some (s <| mg_finishers ::= insert r FSignal |> <| mg_check := CStopWait r |>)
  | EStopStep, CStopWait r =>
      match mg_finishers s !! r with
      | Some (FReturned result) => Some (s <| mg_check := CIdle |> <| mg_stopped := Some (r, result) |>)
      | _ => None
      end
  | EStopTimeout, CStopWait r => Some (s <| mg_check := CIdle |> <| mg_stopped := Some (r, StopTimedOut) |>)
  | EFinishStop r answer, _ =>
      pc ← mg_finishers s !! r;
      '(pc, s) ← finishStop r pc answer s;
      Some (s <| mg_finishers ::= insert r pc |>)
  | _, _ => None
  end.

(** [ensureLitestreamForCheck]: whether a waited-for socket appeared, whether
    [exec.Cmd.Start] succeeded and what became of the kill are given. *)
Definition fireEnsure (e : managerEvent) (s : litestreamManager) : option litestreamManager :=
  match e, mg_check s with
  | EEnsureCall, CIdle => Some (s <| mg_check := CEnsureTest |>)
  | EEnsureStep _ _ _, CEnsureTest =>
      Some (s <| mg_check := if litestreamRunning s then CEnsureExpected else CStart |>)
  | EEnsureStep _ _ _, CEnsureExpected =>
      Some (s <| mg_check := if litestreamExitExpected s then CKillTest (mg_current s) else CEnsureSync |>)
  | EEnsureStep ready _ _, CEnsureSync =>
      Some (if ready then s <| mg_check := CIdle |> <| mg_ensured := Some true |> else s <| mg_check := CKillTest (mg_current s) |>)
  | EEnsureStep _ _ _, CKillTest None => Some (s <| mg_check := CStart |>)
  | EEnsureStep _ _ _, CKillTest (Some p) =>
      proc ← mg_procs s !! p;
      Some (s <| mg_check := if lp_done proc then CStart else CKillMark p |>)
  | EEnsureStep _ _ _, CKillMark p =>
      let '(r, s) := beginStop p SIGKILL s in Some (s <| mg_check := CKillFinish r FSignal |>)
  | EEnsureStep _ _ _, CKillFinish r (FReturned result) =>
      Some (if replaceable result then s <| mg_check := CStart |> else s <| mg_check := CIdle |> <| mg_ensured := Some false |>)
  | EEnsureStep _ _ answer, CKillFinish r pc =>
      '(pc, s) ← finishStop r pc answer s;
      Some (s <| mg_check := CKillFinish r pc |>)
  | EEnsureStep _ started _, CStart =>
      Some (if started
            then s <| mg_procs ::= fun l => l ++ [newProcess] |> <| mg_current := Some (length (mg_procs s)) |> <| mg_check := CStartSync |>
            else s <| mg_check := CIdle |> <| mg_ensured := Some false |>)
  | EEnsureStep ready _ _, CStartSync => Some (s <| mg_check := CIdle |> <| mg_ensured := Some ready |>)
  | _, _ => None
  end.

Definition fire (e : managerEvent) (s : litestreamManager) : option litestreamManager :=
  match e with
  | EExit _ | EFinish _ _ _ | EClose _ | EMonitor _ _ => fireProcess e s
  | EStopCall _ | EStopStep | EStopTimeout | EFinishStop _ _ => fireStop e s
  | EEnsureCall | EEnsureStep _ _ _ => fireEnsure e s
  end.

Definition mstep (s s' : litestreamManager) : Prop := exists e, fire e s = Some s'.
(** The worker has started its first process. *)
Definition started : litestreamManager := mkManager [newProcess] (Some 0) [] ∅ CIdle None None false.
Definition reachable (s : litestreamManager) : Prop := rtc mstep started s.

Fixpoint fireAll (es : list managerEvent) (s : litestreamManager) : option litestreamManager :=
  match es with [] => Some s | e :: es => s' ← fire e s; fireAll es s' end.
Lemma fireAll_steps es s s' : fireAll es s = Some s' -> rtc mstep s s'.
Proof.
  revert s. induction es as [|e es IH]; intros s H; simpl in H; [by simplify_eq|].
  destruct (fire e s) as [s1|] eqn:He; [|done]. eapply rtc_l; [by exists e|by apply IH].
Qed.

(** * The invariant *)

(** The exit is the request's doing: its signal, or an exit without one. *)
Definition attributed (sig : osSignal) (proc : litestreamProcess) : Prop :=
  exists exit, lp_exit proc = Some exit /\ (ex_Signal exit = "" \/ signalMatches (ex_Signal exit) sig = true).

Record proc_ok (current : option nat) (stops : list litestreamStop) (p : nat) (proc : litestreamProcess) : Prop := mkProcOk {
  po_alive : lp_alive proc = true -> current = Some p;
  po_exit : is_Some (lp_exit proc) -> lp_alive proc = false;
  po_done : lp_done proc = true -> is_Some (lp_exit proc);
  po_marked : lp_markedAlive proc = true -> lp_expectedExit proc = true;
  po_watched : lp_watched proc = Some true -> lp_markedAlive proc = false;
  po_watched_done : is_Some (lp_watched proc) -> lp_done proc = true;
  po_stop : forall r, lp_stop proc = Some r -> lp_expectedExit proc = true /\ r < length stops;
  po_signals : forall r, r ∈ lp_signals proc -> exists stop r0, stops !! r = Some stop /\ sp_proc stop = p /\ lp_stop proc = Some r0 /\ r <= r0
}.

(** A process later on. *)
Record proc_le (proc proc' : litestreamProcess) : Prop := mkProcLe {
  pl_alive : lp_alive proc' = true -> lp_alive proc = true;
  pl_exit : forall x, lp_exit proc = Some x -> lp_exit proc' = Some x;
  pl_done : lp_done proc = true -> lp_done proc' = true;
  pl_signals : forall r, r ∈ lp_signals proc -> r ∈ lp_signals proc';
  pl_stop : forall r, lp_stop proc = Some r -> exists r', lp_stop proc' = Some r' /\ r <= r';
  pl_new : forall r0 r, lp_stop proc = Some r0 -> r ∈ lp_signals proc' -> r ∈ lp_signals proc \/ r0 <= r;
  pl_watched : forall b, lp_watched proc = Some b -> lp_watched proc' = Some b
}.

#[export] Instance proc_le_preorder : PreOrder proc_le.
Proof.
  split.
  - intros proc. split; eauto.
  - intros a b c [H1 H2 H3 H4 H5 H6 H7] [K1 K2 K3 K4 K5 K6 K7]. split; eauto.
    + intros r Hr. destruct (H5 r Hr) as (r' & Hr' & ?). destruct (K5 r' Hr') as (r'' & ? & ?). exists r''. split; [done|lia].
    + intros r0 r Hr0 Hr. destruct (H5 r0 Hr0) as (r1 & Hr1 & ?). destruct (K6 r1 r Hr1 Hr) as [?|?]; [eauto|right; lia].
Qed.

(** A state later on: requests and processes only accumulate. *)
Definition later (s s' : litestreamManager) : Prop :=
  mg_stops s `prefix_of` mg_stops s' /\
  forall p proc, mg_procs s !! p = Some proc -> exists proc', mg_procs s' !! p = Some proc' /\ proc_le proc proc'.
#[export] Instance later_preorder : PreOrder later.
Proof.
  split.
  - intros s. split; [done|]. intros p proc H. exists proc. split; [done|reflexivity].
  - intros a b c [Hs Hp] [Ks Kp]. split; [by transitivity (mg_stops b)|]. intros p proc H.
    destruct (Hp p proc H) as (proc1 & H1 & ?). destruct (Kp p proc1 H1) as (proc2 & H2 & ?). exists proc2. split; [done|by transitivity proc1].
Qed.

(** What a [finishStop] has seen. *)
Definition finish_ok (s : litestreamManager) (r : nat) (pc : finishPC) : Prop :=
  exists stop proc, mg_stops s !! r = Some stop /\ mg_procs s !! sp_proc stop = Some proc /\
    match pc with
    | FWait => r ∈ lp_signals proc
    | FReturned Stopped => r ∈ lp_signals proc /\ lp_done proc = true /\ attributed (sp_sig stop) proc
    | FReturned result => replaceable result = true -> lp_done proc = true
    | _ => True
    end.

Lemma finish_ok_later s s' r pc : later s s' -> finish_ok s r pc -> finish_ok s' r pc.
Proof.
  intros [Hs Hp] (stop & proc & Hstop & Hproc & H). destruct (Hp _ _ Hproc) as (proc' & Hproc' & Hle).
  exists stop, proc'. split; [by eapply prefix_lookup_Some|]. split; [done|]. destruct Hle.
  destruct pc as [| | |[]]; auto. destruct H as (H1 & H2 & x & H3 & H4). split_and!; auto. exists x. auto.
Qed.

Definition current_done (s : litestreamManager) : Prop := exists proc, currentProcess s = Some proc /\ lp_done proc = true.

Definition check_ok (s : litestreamManager) (c : checkPC) : Prop :=
  match c with
  | CStopTest p _ | CKillTest p => p = mg_current s
  | CStopMark p _ | CKillMark p => mg_current s = Some p
  | CStopWait r => is_Some (mg_finishers s !! r)
  | CKillFinish r pc => finish_ok s r pc /\ exists stop, mg_stops s !! r = Some stop /\ mg_current s = Some (sp_proc stop)
  | CStart => current_done s
  | _ => True
  end.

Record inv (s : litestreamManager) : Prop := mkInv {
  iv_current : exists p, mg_current s = Some p /\ length (mg_procs s) = S p;
  iv_proc : forall p proc, mg_procs s !! p = Some proc -> proc_ok (mg_current s) (mg_stops s) p proc;
  iv_stops : forall r stop, mg_stops s !! r = Some stop -> sp_proc stop < length (mg_procs s);
  iv_finish : forall r pc, mg_finishers s !! r = Some pc -> finish_ok s r pc;
  iv_check : check_ok s (mg_check s);
  iv_stopped : forall r result, mg_stopped s = Some (r, result) -> result <> StopTimedOut -> finish_ok s r (FReturned result);
  iv_cancelled : mg_cancelled s = true -> exists p proc, mg_procs s !! p = Some proc /\ lp_watched proc = Some true
}.

Lemma inv_started : inv started.
Proof.
  split.
  - by exists 0.
  - intros [|p] proc H; [|done]. simpl in H. injection H as <-. split; try done; try by intros [? ?].
    intros r H. by apply elem_of_nil in H.
  - done.
  - intros r pc H. simpl in H. by rewrite lookup_empty in H.
  - done.
  - done.
  - done.
Qed.

(** * Preservation *)

Lemma check_ok_later s s' c :
  later s s' -> mg_current s' = mg_current s -> mg_finishers s' = mg_finishers s -> check_ok s c -> check_ok s' c.
Proof.
  intros Hl Hc Hf. destruct c; simpl; rewrite ?Hc, ?Hf; try done.
  - intros [H (stop & Hs & Hcur)]. split; [by eapply finish_ok_later|]. exists stop. split; [|done].
    eapply prefix_lookup_Some; [done|apply Hl].
  - intros (proc & Hp & Hd). unfold current_done, currentProcess in *. rewrite Hc. destruct (mg_current s) as [p|]; [|done]. simpl in *.
    destruct (proj2 Hl p proc Hp) as (proc' & Hp' & Hle). exists proc'. split; [done|by apply Hle].
Qed.

(** Steps that touch neither processes nor requests. *)
Lemma later_same s s' : mg_procs s' = mg_procs s -> mg_stops s' = mg_stops s -> later s s'.
Proof. intros Hp Hs. split; [by rewrite Hs|]. intros p proc H. exists proc. rewrite Hp. split; [done|reflexivity]. Qed.

Lemma inv_check s s' :
  inv s -> mg_procs s' = mg_procs s -> mg_stops s' = mg_stops s -> mg_current s' = mg_current s ->
  mg_cancelled s' = mg_cancelled s -> (forall r pc, mg_finishers s' !! r = Some pc -> finish_ok s r pc) ->
  check_ok s' (mg_check s') ->
  (forall r result, mg_stopped s' = Some (r, result) -> result <> StopTimedOut -> finish_ok s r (FReturned result)) -> inv s' /\ later s s'.
Proof.
  intros [H1 H2 H3 H4 H5 H6 H7] Hp Hs Hc Hx Hf Hk Hst. assert (later s s') as Hl by by apply later_same.
  split; [|done]. split; rewrite ?Hp, ?Hs, ?Hc, ?Hx; try done.
  - intros r pc H. by eapply finish_ok_later, Hf.
  - intros r result H Hne. by eapply finish_ok_later, Hst.
Qed.

(** An update of one process. *)
Lemma later_update s p f :
  (forall proc, mg_procs s !! p = Some proc -> proc_le proc (f proc)) -> later s (updateProc p f s).
Proof.
  intros Hf. split; [done|]. intros q proc H. simpl. destruct (decide (p = q)) as [->|Hne].
  - exists (f proc). rewrite list_lookup_alter_eq, H. split; [done|by apply Hf].
  - exists proc. rewrite list_lookup_alter_ne by done. split; [done|reflexivity].
Qed.

Lemma inv_update s p f :
  inv s -> (forall proc, mg_procs s !! p = Some proc -> proc_le proc (f proc) /\ proc_ok (mg_current s) (mg_stops s) p (f proc)) ->
  inv (updateProc p f s) /\ later s (updateProc p f s).
Proof.
  intros [H1 H2 H3 H4 H5 H6 H7] Hf. assert (later s (updateProc p f s)) as Hl by (apply later_update; intros proc H; by apply Hf).
  split; [|done]. split.
  - simpl. by rewrite length_alter.
  - intros q proc H. simpl in *. destruct (decide (p = q)) as [->|Hne].
    + rewrite list_lookup_alter_eq in H. destruct (mg_procs s !! q) as [proc0|] eqn:Hq; [|done]. simplify_eq/=. by apply Hf.
    + rewrite list_lookup_alter_ne in H by done. by apply H2.
  - intros r stop H. simpl. rewrite length_alter. by eapply H3.
  - intros r pc H. by eapply finish_ok_later, H4.
  - by eapply check_ok_later.
  - intros r result H Hne. by eapply finish_ok_later, H6.
  - intros H. destruct (H7 H) as (q & proc & Hq & Hw). destruct (proj2 Hl q proc Hq) as (proc' & Hq' & Hle).
    exists q, proc'. split; [done|by apply Hle].
Qed.

Lemma proc_ok_stops current stops new p proc : proc_ok current stops p proc -> proc_ok current (stops ++ new) p proc.
Proof.
  intros []. split; try done.
  - intros r H. destruct (po_stop0 r H). rewrite length_app. split; [done|lia].
  - intros r H. destruct (po_signals0 r H) as (stop & r0 & Hs & ?). exists stop, r0. split; [|done]. by apply lookup_app_l_Some.
Qed.

Lemma beginStop_inv s p sig :
  inv s -> mg_current s = Some p ->
  let '(r, s') := beginStop p sig s in
  inv (s' <| mg_check := CIdle |>) /\ later s s' /\ mg_stops s' !! r = Some (mkStop p sig) /\ is_Some (mg_procs s' !! p) /\
  mg_current s' = Some p.
Proof.
  intros Hi Hc. destruct (iv_current _ Hi) as (p' & Hc' & Hlen). rewrite Hc in Hc'. injection Hc' as <-.
  destruct (lookup_lt_is_Some_2 (mg_procs s) p ltac:(lia)) as [proc0 Hp0].
  set (f := fun proc => proc <| lp_expectedExit := true |> <| lp_stop := Some (length (mg_stops s)) |>
                             <| lp_markedAlive ::= orb (lp_alive proc) |>).
  unfold beginStop. fold f. set (s' := updateProc p f s <| mg_stops ::= fun l => l ++ [mkStop p sig] |>).
  assert (forall proc, mg_procs s !! p = Some proc -> proc_le proc (f proc)) as Hle.
  { intros proc Hp. destruct (iv_proc _ Hi p proc Hp). split; try done; [|naive_solver].
    intros r Hr. eexists. split; [done|]. destruct (po_stop0 r Hr). lia. }
  assert (later s s') as Hl.
  { split; [by apply prefix_app_r|]. apply (later_update s p f Hle). }
  split; [|split; [done|split; [|split]]].
  - destruct Hi as [H1 H2 H3 H4 H5 H6 H7]. assert (later s (s' <| mg_check := CIdle |>)) as Hl' by exact Hl. split; simpl.
    + by rewrite length_alter.
    + intros q proc H. destruct (decide (p = q)) as [<-|Hne].
      2: { rewrite list_lookup_alter_ne in H by done. apply proc_ok_stops. by apply H2. }
      rewrite list_lookup_alter_eq in H. destruct (mg_procs s !! p) as [proc1|] eqn:Hq; [|done]. simpl in H. injection H as <-.
      destruct (H2 p proc1 Hq). split; simpl; try done.
      * intros Hw. destruct (lp_alive proc1) eqn:Ha; [|by apply po_watched0]. exfalso.
        assert (true = false); [|done]. apply po_exit0, po_done0, po_watched_done0. by rewrite Hw.
      * intros r [= <-]. rewrite length_app. simpl. split; [done|lia].
      * intros r Hr. destruct (po_signals0 r Hr) as (stop & r0 & Hs & Hsp & Hst & Hle0). exists stop, (length (mg_stops s)).
        destruct (po_stop0 r0 Hst). split_and!; [by apply lookup_app_l_Some|done|done|lia].
    + intros r stop H. rewrite length_alter. apply lookup_app_Some in H as [H|[_ H]]; [by eapply H3|].
      destruct (r - length (mg_stops s)) as [|?]; [|done]. simpl in H. injection H as <-. simpl. lia.
    + intros r pc H. by eapply finish_ok_later, H4.
    + done.
    + intros r result H Hne. by eapply finish_ok_later, H6.
    + intros H. destruct (H7 H) as (q & proc & Hq & Hw). destruct (proj2 Hl q proc Hq) as (proc' & Hq' & Hle').
      exists q, proc'. split; [done|by apply Hle'].
  - simpl. rewrite lookup_app_r by done. by rewrite Nat.sub_diag.
  - simpl. rewrite list_lookup_alter_eq, Hp0. by eexists.
  - done.
Qed.

Lemma finishStop_inv s r pc answer pc' s' :
  inv s -> finish_ok s r pc -> finishStop r pc answer s = Some (pc', s') ->
  inv s' /\ later s s' /\ finish_ok s' r pc' /\ mg_current s' = mg_current s /\ mg_finishers s' = mg_finishers s /\
  mg_check s' = mg_check s /\ mg_stopped s' = mg_stopped s.
Proof.
  intros Hi (stop & proc & Hs & Hp & Hok). unfold finishStop. rewrite Hs. simpl. rewrite Hp. simpl.
  assert (forall res, (replaceable res = true -> lp_done proc = true) -> res <> Stopped -> finish_ok s r (FReturned res)) as Hret.
  { intros res H Hne. exists stop, proc. split; [done|]. split; [done|]. by destruct res. }
  assert (forall pc1, finish_ok s r pc1 -> inv s /\ later s s /\ finish_ok s r pc1 /\ mg_current s = mg_current s /\
    mg_finishers s = mg_finishers s /\ mg_check s = mg_check s /\ mg_stopped s = mg_stopped s) as Hsame by (intros; by split_and!).
  destruct pc as [| | |res]; [| | |done].
  - case_bool_decide as Hstop; simpl; [|intros [= <- <-]; apply Hsame, Hret; done].
    destruct answer.
    + case_bool_decide as Hex; [done|]. intros [= <- <-].
      destruct (inv_update s (sp_proc stop) (fun proc => proc <| lp_signals ::= cons r |>) Hi) as [Hi' Hl'].
      { intros proc1 Hp1. assert (proc1 = proc) as -> by congruence. destruct (iv_proc _ Hi _ _ Hp). split.
        - split; simpl; try done; [set_solver|eauto|]. intros r0 r1 Hr0. rewrite elem_of_cons. intros [->|]; [right|by left].
          rewrite Hstop in Hr0. simplify_eq. lia.
        - split; simpl; try done. intros r1. rewrite elem_of_cons. intros [->|H1]; [by exists stop, r|by apply po_signals0]. }
      split_and!; try done. exists stop, (proc <| lp_signals ::= cons r |>). simpl. rewrite list_lookup_alter_eq, Hp.
      split_and!; [done|done|set_solver].
    + destruct (lp_alive proc); [done|]. intros [= <- <-]. apply Hsame. by exists stop, proc.
    + intros [= <- <-]. by apply Hsame, Hret.
  - destruct (lp_done proc) eqn:Hd; [|done]. intros [= <- <-]. by apply Hsame, Hret.
  - destruct (lp_done proc) eqn:Hd; [|done]. intros [= <- <-]. apply Hsame. destruct (iv_proc _ Hi _ _ Hp).
    destruct (po_done0 Hd) as [exit Hex]. rewrite Hex. destruct (negb (ex_Signal exit =s "") && _) eqn:Ha; [by apply Hret|].
    exists stop, proc. split_and!; try done. exists exit. split; [done|]. apply andb_false_iff in Ha as [Ha|Ha]; apply negb_false_iff in Ha;
      [left; by apply String.eqb_eq|by right].
Qed.

(** The three kinds of steps. *)
Lemma process_inv e s s' : inv s -> fireProcess e s = Some s' -> inv s' /\ later s s'.
Proof.
  intros Hi. destruct e as [p|p at_ err|p|p cancelled|r answer|sig| | | |ready ok answer]; simpl; try done; unfold finish, closeDone, monitorProcess;
    destruct (mg_procs s !! p) as [proc|] eqn:Hp; try done; simpl; destruct (iv_proc _ Hi p proc Hp) as [A1 A2 A3 A4 A5 A6 A7 A8].
  - destruct (lp_alive proc) eqn:Ha; [|done]. intros [= <-]. apply inv_update; [done|]. intros proc1 Hp1.
    assert (proc1 = proc) as -> by congruence. split; [split; simpl; eauto|split; simpl; eauto; done].
  - destruct (lp_alive proc) eqn:Ha; [done|]. case_bool_decide as Hex; [done|]. intros [= <-]. apply inv_update; [done|]. intros proc1 Hp1.
    assert (proc1 = proc) as -> by congruence. split; split; simpl; eauto; try done.
    intros x Hx. by destruct Hex.
  - case_bool_decide as Hex; [|done]. destruct (lp_done proc) eqn:Hd; [done|]. intros [= <-]. apply inv_update; [done|]. intros proc1 Hp1.
    assert (proc1 = proc) as -> by congruence. split; split; simpl; eauto; done.
  - destruct (lp_done proc) eqn:Hd; [|done]. case_bool_decide as Hw; [|done]. simpl. set (cancels := negb cancelled && negb (lp_expectedExit proc)).
    intros [= <-].
    destruct (inv_update s p (fun proc => proc <| lp_watched := Some cancels |>) Hi) as [Hi' Hl'].
    { intros proc1 Hp1. assert (proc1 = proc) as -> by congruence. split; split; simpl; eauto; try done; [congruence|].
      intros [= Hc]. unfold cancels in Hc. apply andb_true_iff in Hc as [_ Hc]. apply negb_true_iff in Hc.
      destruct (lp_markedAlive proc) eqn:Hm; [|done]. by rewrite A4 in Hc. }
    destruct Hi' as [B1 B2 B3 B4 B5 B6 B7]. split; [|done]. split; try done. simpl. intros Hc. apply orb_true_iff in Hc as [Hc|Hc]; [|by apply B7].
    exists p, (proc <| lp_watched := Some cancels |>). rewrite list_lookup_alter_eq, Hp. split; [done|]. simpl. by rewrite Hc.
Qed.

Lemma stop_inv e s s' : inv s -> fireStop e s = Some s' -> inv s' /\ later s s'.
Proof.
  intros Hi. pose proof (iv_check _ Hi) as Hck.
  assert (forall r pc, mg_finishers s !! r = Some pc -> finish_ok s r pc) as Hfin by apply (iv_finish _ Hi).
  assert (forall r res, mg_stopped s = Some (r, res) -> res <> StopTimedOut -> finish_ok s r (FReturned res)) as Hst by apply (iv_stopped _ Hi).
  destruct e as [p|p at_ err|p|p cancelled|r answer|sig| | | |ready ok answer]; cbn [fireStop]; try (by destruct (mg_check s)).
  - destruct (mg_finishers s !! r) as [pc|] eqn:Hf; [|by destruct (mg_check s)]. simpl.
    destruct (finishStop r pc answer s) as [[pc' s1]|] eqn:Hfs; [|by destruct (mg_check s)]. simpl. intros H.
    assert (s' = s1 <| mg_finishers ::= insert r pc' |>) as -> by (destruct (mg_check s); congruence). clear H.
    destruct (finishStop_inv _ _ _ _ _ _ Hi (Hfin _ _ Hf) Hfs) as (Hi1 & Hl & Hok & Hc & Hfe & Hke & Hse).
    destruct (inv_check s1 (s1 <| mg_finishers ::= insert r pc' |>) Hi1) as [Hi' Hl']; try done.
    + intros r1 pc1. simpl. destruct (decide (r = r1)) as [->|Hne]; [rewrite lookup_insert_eq; intros [= <-]; done|].
      rewrite lookup_insert_ne by done. apply (iv_finish _ Hi1).
    + simpl. pose proof (iv_check _ Hi1) as Hck1. destruct (mg_check s1); try done. simpl in *.
      destruct (decide (r = r0)) as [->|Hne]; [rewrite lookup_insert_eq|rewrite lookup_insert_ne]; done.
    + apply (iv_stopped _ Hi1).
  - destruct (mg_check s) eqn:Hpc; try done. intros [= <-]. by apply inv_check.
  - destruct (mg_check s) as [|[p|] sig|p sig|r| | | | | | | |] eqn:Hpc; try done; simpl in Hck.
    + destruct (mg_procs s !! p) as [proc|]; [|done]. simpl. destruct (lp_done proc); intros [= <-]; by apply inv_check.
    + intros [= <-]. by apply inv_check.
    + pose proof (beginStop_inv s p sig Hi Hck) as Hb. destruct (beginStop p sig s) as [r s1] eqn:Hbs. intros [= <-].
      destruct Hb as (Hi1 & Hl & Hstop & [proc Hp] & Hc).
      destruct (inv_check (s1 <| mg_check := CIdle |>) (s1 <| mg_finishers ::= insert r FSignal |> <| mg_check := CStopWait r |>) Hi1)
        as [Hi' Hl']; try done.
      * intros r1 pc1. simpl. destruct (decide (r = r1)) as [->|Hne].
        -- rewrite lookup_insert_eq. intros [= <-]. by exists (mkStop p sig), proc.
        -- rewrite lookup_insert_ne by done. apply (iv_finish _ Hi1).
      * simpl. rewrite lookup_insert_eq. by eexists.
      * apply (iv_stopped _ Hi1).
    + destruct (mg_finishers s !! r) as [[| | |res]|] eqn:Hf; try done. intros [= <-]. apply inv_check; try done.
      intros r1 res1 [= <- <-] _. by apply Hfin.
  - destruct (mg_check s) eqn:Hpc; try done. intros [= <-]. apply inv_check; try done. by intros r1 res1 [= <- <-].
Qed.

(** The start of a process next to one that is gone. *)
Lemma start_inv s :
  inv s -> current_done s ->
  let s' := s <| mg_procs ::= fun l => l ++ [newProcess] |> <| mg_current := Some (length (mg_procs s)) |> <| mg_check := CStartSync |> in
  inv s' /\ later s s'.
Proof.
  intros Hi (proc0 & Hcur & Hd) s'. destruct (iv_current _ Hi) as (p0 & Hc & Hlen). unfold currentProcess in Hcur. rewrite Hc in Hcur. simpl in Hcur.
  assert (later s s') as Hl.
  { split; [done|]. intros p proc H. exists proc. split; [simpl; by apply lookup_app_l_Some|reflexivity]. }
  split; [|done]. destruct Hi as [H1 H2 H3 H4 H5 H6 H7]. split; simpl.
  - exists (length (mg_procs s)). rewrite length_app. simpl. split; [done|lia].
  - intros p proc H. apply lookup_app_Some in H as [H|[Hge H]].
    + destruct (H2 p proc H). split; try done. intros Ha. exfalso. specialize (po_alive0 Ha). rewrite Hc in po_alive0.
      simplify_eq. apply po_done0, po_exit0 in Hd. congruence.
    + destruct (p - length (mg_procs s)) as [|?] eqn:Hsub; [|done]. simpl in H. injection H as <-.
      split; try done; [intros _; f_equal; lia| | |]; try by intros [? ?].
      intros r Hr. by apply elem_of_nil in Hr.
  - intros r stop H. rewrite length_app. apply H3 in H. lia.
  - intros r pc H. by eapply finish_ok_later, H4.
  - done.
  - intros r result H Hne. by eapply finish_ok_later, H6.
  - intros H. destruct (H7 H) as (q & proc & Hq & Hw). destruct (proj2 Hl q proc Hq) as (proc' & Hq' & Hle).
    exists q, proc'. split; [done|by apply Hle].
Qed.

(** A step of the kill. *)
Lemma kill_inv s s' r pc answer :
  inv s -> check_ok s (CKillFinish r pc) ->
  ('(pc, s) ← finishStop r pc answer s; Some (s <| mg_check := CKillFinish r pc |>)) = Some s' -> inv s' /\ later s s'.
Proof.
  intros Hi [Hok (stop & Hs & Hc)]. destruct (finishStop r pc answer s) as [[pc' s1]|] eqn:Hf; [|done]. simpl. intros [= <-].
  destruct (finishStop_inv _ _ _ _ _ _ Hi Hok Hf) as (Hi1 & Hl & Hok1 & Hc1 & Hfe & Hke & Hse).
  destruct (inv_check s1 (s1 <| mg_check := CKillFinish r pc' |>) Hi1) as [Hi' Hl']; try done.
  - apply (iv_finish _ Hi1).
  - simpl. split; [done|]. exists stop. rewrite Hc1. split; [|done]. eapply prefix_lookup_Some; [done|apply Hl].
  - apply (iv_stopped _ Hi1).
Qed.

Lemma ensure_inv e s s' : inv s -> fireEnsure e s = Some s' -> inv s' /\ later s s'.
Proof.
  intros Hi. pose proof (iv_check _ Hi) as Hck. destruct (iv_current _ Hi) as (p0 & Hc & Hlen).
  destruct (lookup_lt_is_Some_2 (mg_procs s) p0 ltac:(lia)) as [proc0 Hp0].
  assert (currentProcess s = Some proc0) as Hcur by (unfold currentProcess; by rewrite Hc).
  assert (forall r pc, mg_finishers s !! r = Some pc -> finish_ok s r pc) as Hfin by apply (iv_finish _ Hi).
  assert (forall r res, mg_stopped s = Some (r, res) -> res <> StopTimedOut -> finish_ok s r (FReturned res)) as Hst by apply (iv_stopped _ Hi).
  destruct e as [p|p at_ err|p|p cancelled|r answer|sig| | | |ready ok answer]; cbn [fireEnsure]; try (by destruct (mg_check s)).
  { destruct (mg_check s) eqn:Hpc; try done. intros [= <-]. by apply inv_check. }
  destruct (mg_check s) as [|? ?|? ?|?| | | |[p|]|p|r [| | |res]| |] eqn:Hpc; try done; simpl in Hck.
  - intros [= <-]. apply inv_check; try done. simpl. unfold litestreamRunning. rewrite Hcur.
    destruct (lp_done proc0) eqn:Hd; [|done]. simpl. by exists proc0.
  - intros [= <-]. apply inv_check; try done. simpl. by destruct (litestreamExitExpected s).
  - intros [= <-]. by destruct ready; apply inv_check.
  - destruct (mg_procs s !! p) as [proc|] eqn:Hp; [|done]. simpl. intros [= <-]. apply inv_check; try done. simpl.
    destruct (lp_done proc) eqn:Hd; [|done]. exists proc. split; [|done]. unfold currentProcess. simpl. by rewrite <- Hck.
  - by rewrite Hc in Hck.
  - pose proof (beginStop_inv s p SIGKILL Hi Hck) as Hb. destruct (beginStop p SIGKILL s) as [r s1] eqn:Hbs. intros [= <-].
    destruct Hb as (Hi1 & Hl & Hstop & [proc Hp] & Hc1).
    destruct (inv_check (s1 <| mg_check := CIdle |>) (s1 <| mg_check := CKillFinish r FSignal |>) Hi1) as [Hi' Hl']; try done.
    + apply (iv_finish _ Hi1).
    + simpl. split; [by exists (mkStop p SIGKILL), proc|]. by exists (mkStop p SIGKILL).
    + apply (iv_stopped _ Hi1).
  - by apply (kill_inv s s' r FSignal answer).
  - by apply (kill_inv s s' r FGone answer).
  - by apply (kill_inv s s' r FWait answer).
  - destruct Hck as [(stop & proc & Hs & Hp & Hok) (stop' & Hs' & Hc')]. assert (stop' = stop) as -> by congruence.
    destruct (replaceable res) eqn:Hr; intros [= <-]; apply inv_check; try done. simpl. exists proc. unfold currentProcess. simpl.
    rewrite Hc'. simpl. split; [done|]. destruct res; try done; [by apply Hok|by apply Hok|by apply Hok|by destruct Hok as (_ & ? & _)].
  - destruct ok; intros [= <-]; [by apply start_inv|by apply inv_check].
  - intros [= <-]. by apply inv_check.
Qed.

Lemma step_inv s s' : inv s -> mstep s s' -> inv s' /\ later s s'.
Proof.
  intros Hi [e He]. unfold fire in He. destruct e; (by eapply process_inv) || (by eapply stop_inv) || by eapply ensure_inv.
Qed.
Lemma steps_inv s s' : inv s -> rtc mstep s s' -> inv s' /\ later s s'.
Proof.
  intros Hi Hs. induction Hs as [s|s s1 s2 Hstep Hs IH]; [by split|]. destruct (step_inv _ _ Hi Hstep) as [Hi1 Hl1].
  destruct (IH Hi1) as [Hi2 Hl2]. split; [done|by transitivity s1].
Qed.
Lemma manager_inv s : reachable s -> inv s.
Proof. intros H. by eapply (steps_inv started), H; apply inv_started. Qed.

(** A stop that outlives its deadline: the check gives up before the signal was
    sent, kills the process and starts another; the late goroutine then finds its
    request superseded. *)
Definition lateStop : list managerEvent :=
  [EStopCall SIGTERM; EStopStep; EStopStep; EStopTimeout;
   EEnsureCall; EEnsureStep false true Delivered; EEnsureStep false true Delivered; EEnsureStep false true Delivered;
   EEnsureStep false true Delivered; EEnsureStep false true Delivered; EExit 0; EFinish 0 7 (Some (mkWait "signal: killed" (Some ((-1)%Z, Some "killed"))));
   EClose 0; EEnsureStep false true Delivered; EEnsureStep false true Delivered; EEnsureStep true true Delivered;
   EMonitor 0 false; EEnsureStep true true Delivered; EFinishStop 0 Delivered].
(** The same stop, done in time. *)
Definition promptStop : list managerEvent :=
  [EStopCall SIGTERM; EStopStep; EStopStep; EFinishStop 0 Delivered; EExit 0;
   EFinish 0 7 (Some (mkWait "signal: terminated" (Some ((-1)%Z, Some "terminated")))); EClose 0; EFinishStop 0 Delivered; EStopStep].
Definition after (es : list managerEvent) : litestreamManager := default started (fireAll es started).

Lemma after_reachable es : is_Some (fireAll es started) -> reachable (after es).
Proof. intros [s Hs]. unfold after. rewrite Hs. by eapply fireAll_steps. Qed.

(** C14: there is never more than one Litestream process: under every interleaving
    of stops, kills, late signals, exits and restarts the only process that may live is the
    manager's current one. *)
Theorem one_litestream s p q proc proc' :
  reachable s -> mg_procs s !! p = Some proc -> mg_procs s !! q = Some proc' -> lp_alive proc = true -> lp_alive proc' = true ->
  p = q /\ mg_current s = Some p.
Proof.
  intros Hr Hp Hq Ha Ha'. pose proof (manager_inv s Hr) as Hi. pose proof (po_alive _ _ _ _ (iv_proc _ Hi p proc Hp) Ha) as H1.
  pose proof (po_alive _ _ _ _ (iv_proc _ Hi q proc' Hq) Ha') as H2. split; [congruence|done].
Qed.
Lemma one_litestream_witness :
  mg_current (after lateStop) = Some 1 /\ lp_alive (default newProcess (mg_procs (after lateStop) !! 1)) = true.
Proof.
  split; [|vm_compute; reflexivity].
  apply (one_litestream (after lateStop) 1 1 newProcess newProcess); [apply after_reachable; vm_compute; by eexists|..]; vm_compute; reflexivity.
Defined.

(** C40: A stop is the doing of the request that reports it, and of no other: once a later request has
    taken a process over, the earlier one never sends its signal, neither to it nor to
    a replacement; a stop that succeeded delivered its own signal to the process it
    captured, which then exited on it or by itself. *)
Theorem stop_is_owned s s' :
  reachable s -> rtc mstep s s' ->
  (forall p proc proc' r r0, mg_procs s !! p = Some proc -> lp_stop proc = Some r0 -> r < r0 -> mg_procs s' !! p = Some proc' ->
     r ∈ lp_signals proc' -> r ∈ lp_signals proc) /\
  (forall p proc r, mg_procs s !! p = Some proc -> r ∈ lp_signals proc -> sp_proc <$> mg_stops s !! r = Some p) /\
  (forall r, mg_stopped s = Some (r, Stopped) ->
     exists stop proc, mg_stops s !! r = Some stop /\ mg_procs s !! sp_proc stop = Some proc /\ r ∈ lp_signals proc /\
       lp_alive proc = false /\ attributed (sp_sig stop) proc).
Proof.
  intros Hr Hs. pose proof (manager_inv s Hr) as Hi. destruct (steps_inv s s' Hi Hs) as [_ [_ Hl]]. split_and!.
  - intros p proc proc' r r0 Hp Hst Hlt Hp' Hin. destruct (Hl p proc Hp) as (proc1 & Hp1 & Hle).
    assert (proc1 = proc') as -> by congruence. destruct (pl_new _ _ Hle r0 r Hst Hin); [done|lia].
  - intros p proc r Hp Hin. destruct (po_signals _ _ _ _ (iv_proc _ Hi p proc Hp) r Hin) as (stop & r0 & -> & <- & _). done.
  - intros r H. destruct (iv_stopped _ Hi r Stopped H) as (stop & proc & Hstop & Hp & Hin & Hd & Hat); [done|].
    exists stop, proc. split_and!; try done. destruct (iv_proc _ Hi _ _ Hp). by apply po_exit0, po_done0.
Qed.
Lemma stop_is_owned_witness :
  exists stop proc, mg_stops (after promptStop) !! 0 = Some stop /\ mg_procs (after promptStop) !! sp_proc stop = Some proc /\
    0 ∈ lp_signals proc /\ lp_alive proc = false /\ attributed (sp_sig stop) proc.
Proof.
  apply (stop_is_owned (after promptStop) (after promptStop)); [apply after_reachable; vm_compute; by eexists|apply rtc_refl|vm_compute; reflexivity].
Defined.

(** The run is cancelled only for a process that ended without having been asked
    to while it lived. *)
Theorem planned_exit_never_cancels s :
  reachable s -> mg_cancelled s = true ->
  exists p proc, mg_procs s !! p = Some proc /\ lp_done proc = true /\ lp_markedAlive proc = false.
Proof.
  intros Hr Hc. pose proof (manager_inv s Hr) as Hi. destruct (iv_cancelled _ Hi Hc) as (p & proc & Hp & Hw).
  destruct (iv_proc _ Hi p proc Hp). exists p, proc. split_and!; [done|apply po_watched_done0; by rewrite Hw|by apply po_watched0].
Qed.
