(* ===== verification/LitestreamConfig.v ===== *)
(** The configuration file a worker writes for Litestream and the local state it
    removes when the replica changed: [writeLitestreamConfig] and its helpers in
    [worker/litestream_manager.go], the replica URLs of [worker/config.go] and
    [worker/replica_backend.go], and the path functions of Go they use.

    The file system is a map from paths to contents; the errors of its operations
    that the code returns are given by an [io] record. *)
From Stdlib Require Import Ascii.
From S2P Require Import Prelude GoStrings Model GoTime Classification GateFleet.

(** * Paths *)

Definition slash : ascii := "/"%char.

(** One element of [Clean]: the elements kept so far, last first. *)
Definition cleanStep (rooted : bool) (kept : list string) (element : string) : list string :=
  if (element =s "") || (element =s ".") then kept
  else if element =s ".." then
    match kept with
    | [] => if rooted then [] else [".."]
    | k :: rest => if k =s ".." then ".." :: kept else rest
    end
  else element :: kept.
Definition Clean (p : string) : string :=
  let rooted := HasPrefix p "/" in
  let body := Join (rev (fold_left (cleanStep rooted) (Split slash p) [])) "/" in
  if rooted then "/" +:+ body else if body =s "" then "." else body.
(** [filepath.Join] and [path.Join]. *)
Fixpoint pathJoin (elements : list string) : string :=
  match elements with
  | [] => ""
  | e :: rest => if e =s "" then pathJoin rest else Clean (Join elements "/")
  end.
Definition pathBase (p : string) : string :=
  if p =s "" then "." else default "/" (last (List.filter (fun e => negb (e =s "")) (Split slash p))).
Definition pathDir (p : string) : string :=
  Clean (match LastIndex p "/" with Some i => str_take (S i) p | None => "" end).

(** * Configuration *)

(** The fields of [Config] these functions read. *)
Record workerConfig := mkWorkerConfig {
  wc_ReplicaType : string;
  wc_ReplicaPath : string;
  wc_ReplicaBaseURL : string;
  wc_ReplicaPasswordSet : bool;
  wc_ReplicaKeyPath : string;
  wc_S3Bucket : string;
  wc_S3Path : string;
  wc_S3Endpoint : string;
  wc_S3PartSize : string;
  wc_S3Concurrency : Z;
  wc_DBPath : string;
  wc_DataDir : string;
  wc_ConfigPath : string;
  wc_SocketPath : string;
  wc_LitestreamMetricsAddr : string;
  wc_NumDatabases : Z;
  wc_ConfigMode : string;
  wc_SyncInterval : duration;
  wc_SnapshotInterval : duration;
  wc_L1CompactionInterval : duration;
  wc_L2CompactionInterval : duration;
  wc_L3CompactionInterval : duration;
  wc_L0Retention : duration;
  wc_L0RetentionCheckInterval : duration;
  wc_TruncatePageN : option Z
}.
#[export] Instance workerConfig_eta : Settable workerConfig :=
  fun r => mkWorkerConfig (wc_ReplicaType r) (wc_ReplicaPath r) (wc_ReplicaBaseURL r) (wc_ReplicaPasswordSet r) (wc_ReplicaKeyPath r)
    (wc_S3Bucket r) (wc_S3Path r) (wc_S3Endpoint r) (wc_S3PartSize r) (wc_S3Concurrency r) (wc_DBPath r) (wc_DataDir r)
    (wc_ConfigPath r) (wc_SocketPath r) (wc_LitestreamMetricsAddr r) (wc_NumDatabases r) (wc_ConfigMode r) (wc_SyncInterval r)
    (wc_SnapshotInterval r) (wc_L1CompactionInterval r) (wc_L2CompactionInterval r) (wc_L3CompactionInterval r) (wc_L0Retention r)
    (wc_L0RetentionCheckInterval r) (wc_TruncatePageN r).

Definition remoteReplicaType (c : workerConfig) : bool := slices_Contains ["sftp"; "nats"; "webdav"] (wc_ReplicaType c).

(** [[^A-Za-z0-9_-]+] replaced by ["-"]; [unsafe] says that the run was replaced. *)
Fixpoint replaceUnsafe (unsafe : bool) (s : string) : string :=
  match s with
  | EmptyString => ""
  | String c s =>
      if is_alnum c || Ascii.eqb c "_" || Ascii.eqb c "-" then String c (replaceUnsafe false s)
      else if unsafe then replaceUnsafe true s else String "-" (replaceUnsafe true s)
  end.
Definition natsBucketName (name : string) : string := Trim (replaceUnsafe false name) "_-".

Definition remoteReplicaURL (c : workerConfig) (name : string) : string :=
  let prefix := Trim (wc_S3Path c) "/" in
  if wc_ReplicaType c =s "nats"
  then wc_ReplicaBaseURL c +:+ "/" +:+ natsBucketName (if negb (name =s "") then prefix +:+ "-" +:+ name else prefix)
  else wc_ReplicaBaseURL c +:+ "/" +:+ pathJoin [prefix; name].

Definition ReplicaURL (c : workerConfig) : string :=
  if wc_ReplicaType c =s "file" then "file://" +:+ wc_ReplicaPath c
  else if remoteReplicaType c then remoteReplicaURL c ""
  else "s3://" +:+ wc_S3Bucket c +:+ "/" +:+ wc_S3Path c.

Definition ManyDBEnabled (c : workerConfig) : bool := (0 <? wc_NumDatabases c)%Z.
Definition ManyDBDir (c : workerConfig) : string := pathJoin [wc_DataDir c; "dbs"].

(** [%05d] of a positive number. *)
Definition pad5 (n : Z) : string :=
  let digits := fmt_int n in Join (repeat "0" (5 - String.length digits)) "" +:+ digits.
Definition ManyDBPaths (c : workerConfig) : list string :=
  map (fun i => pathJoin [ManyDBDir c; "db-" +:+ pad5 (Z.of_nat i) +:+ ".db"]) (seq 1 (Z.to_nat (wc_NumDatabases c))).
Definition manyDBConfigMode (c : workerConfig) : string :=
  let mode := TrimSpace (wc_ConfigMode c) in if mode =s "" then "list" else mode.

Definition ReplicaURLForDB (c : workerConfig) (dbPath : string) : string :=
  if negb (ManyDBEnabled c) || (TrimSpace dbPath =s "") || (dbPath =s wc_DBPath c) then ReplicaURL c
  else
    let name := pathBase dbPath in
    if wc_ReplicaType c =s "file" then "file://" +:+ pathJoin [wc_ReplicaPath c; name]
    else if remoteReplicaType c then remoteReplicaURL c name
    else "s3://" +:+ wc_S3Bucket c +:+ "/" +:+ pathJoin [Trim (wc_S3Path c) "/"; name].

Definition remoteReplicaExtra (c : workerConfig) : list string :=
  (if wc_ReplicaPasswordSet c
   then [(if wc_ReplicaType c =s "webdav" then "webdav-password" else "password") +:+ ": ${REPLICA_PASSWORD}"] else []) ++
  (if (wc_ReplicaType c =s "sftp") && negb (wc_ReplicaKeyPath c =s "") then ["key-path: " +:+ wc_ReplicaKeyPath c] else []).

(** * The configuration file *)

Record litestreamConfigReplicaT := mkReplica {
  lr_Type : string;
  lr_Path : string;
  lr_URL : string;
  lr_Extra : list string;
  lr_S3Bucket : string;
  lr_S3Path : string;
  lr_SyncInterval : string;
  lr_S3Endpoint : string;
  lr_S3PartSize : string;
  lr_S3Concurrency : Z
}.
Record litestreamConfigDB := mkConfigDB {
  ld_Path : string;
  ld_Dir : string;
  ld_Pattern : string;
  ld_Watch : bool;
  ld_TruncatePageN : string;
  ld_SnapshotInterval : string;
  ld_Replica : litestreamConfigReplicaT
}.
Record litestreamConfigDataT := mkConfigData {
  lc_SocketPath : string;
  lc_MetricsAddr : string;
  lc_Levels : list string;
  lc_L0Retention : string;
  lc_L0RetentionCheckInterval : string;
  lc_Databases : list litestreamConfigDB
}.

(** [strings.SplitN(s, "/", 2)] of the URL after its scheme. *)
Definition litestreamConfigReplica (c : workerConfig) (dbPath : string) : litestreamConfigReplicaT :=
  let sync := DurationString (wc_SyncInterval c) in
  if wc_ReplicaType c =s "file"
  then mkReplica (wc_ReplicaType c) (TrimPrefix (ReplicaURLForDB c dbPath) "file://") "" [] (wc_S3Bucket c) "" sync (wc_S3Endpoint c)
         (wc_S3PartSize c) (wc_S3Concurrency c)
  else if remoteReplicaType c
  then mkReplica (wc_ReplicaType c) "" (ReplicaURLForDB c dbPath) (remoteReplicaExtra c) (wc_S3Bucket c) "" sync (wc_S3Endpoint c)
         (wc_S3PartSize c) (wc_S3Concurrency c)
  else
    let replicaURL := TrimPrefix (ReplicaURLForDB c dbPath) "s3://" in
    let '(bucket, rest, found) := Cut slash replicaURL in
    mkReplica (wc_ReplicaType c) "" "" [] (if found then bucket else replicaURL) (if found then rest else "") sync (wc_S3Endpoint c)
      (wc_S3PartSize c) (wc_S3Concurrency c).

Definition litestreamConfigData (c : workerConfig) : litestreamConfigDataT :=
  let positive (d : duration) := (0 <? d)%Z in
  let levels := if positive (wc_L1CompactionInterval c) && positive (wc_L2CompactionInterval c) && positive (wc_L3CompactionInterval c)
                then [DurationString (wc_L1CompactionInterval c); DurationString (wc_L2CompactionInterval c);
                      DurationString (wc_L3CompactionInterval c)] else [] in
  let optional (d : duration) := if positive d then DurationString d else "" in
  let truncatePageN := match wc_TruncatePageN c with Some n => fmt_int n | None => "" end in
  let snapshot := DurationString (wc_SnapshotInterval c) in
  let db (path : string) := mkConfigDB path "" "" false truncatePageN snapshot (litestreamConfigReplica c path) in
  mkConfigData (wc_SocketPath c) (wc_LitestreamMetricsAddr c) levels (optional (wc_L0Retention c))
    (optional (wc_L0RetentionCheckInterval c))
    (if negb (ManyDBEnabled c) then [db (wc_DBPath c)]
     else if manyDBConfigMode c =s "dir"
     then [mkConfigDB "" (ManyDBDir c) "*.db" true truncatePageN snapshot (litestreamConfigReplica c "")]
     else map db (ManyDBPaths c)).

(** The lines of [litestreamConfigTmpl]. *)
Definition whenSet (s prefix : string) : list string := if s =s "" then [] else [prefix +:+ s].
Definition replicaLines (r : litestreamConfigReplicaT) : list string :=
  if lr_Type r =s "file"
  then ["      - path: " +:+ lr_Path r; "        sync-interval: " +:+ lr_SyncInterval r]
  else if negb (lr_URL r =s "")
  then ["      - url: " +:+ lr_URL r; "        type: " +:+ lr_Type r; "        sync-interval: " +:+ lr_SyncInterval r] ++
       map (fun e => "        " +:+ e) (lr_Extra r)
  else ["      - url: s3://" +:+ lr_S3Bucket r +:+ "/" +:+ lr_S3Path r; "        sync-interval: " +:+ lr_SyncInterval r;
        "        endpoint: " +:+ lr_S3Endpoint r; "        force-path-style: true"] ++
       whenSet (lr_S3PartSize r) "        part-size: " ++
       (if (0 <? lr_S3Concurrency r)%Z then ["        concurrency: " +:+ fmt_int (lr_S3Concurrency r)] else []).
Definition dbHead (d : litestreamConfigDB) : list string :=
  [if negb (ld_Dir d =s "") then "  - dir: " +:+ ld_Dir d else "  - path: " +:+ ld_Path d] ++
  (if ld_Pattern d =s "" then [] else ["    pattern: " +:+ String "034" (ld_Pattern d +:+ String "034" "")]) ++
  (if ld_Watch d then ["    watch: true"] else []) ++
  whenSet (ld_TruncatePageN d) "    truncate-page-n: " ++
  ["    snapshot:"; "      interval: " +:+ ld_SnapshotInterval d].
Definition dbLines (d : litestreamConfigDB) : list string := dbHead d ++ ["    replicas:"] ++ replicaLines (ld_Replica d).
Definition blankAnd (l : list string) : list string := match l with [] => [] | _ => "" :: l end.
Definition headLines (data : litestreamConfigDataT) : list string :=
  ["socket:"; "  enabled: true"; "  path: " +:+ lc_SocketPath data; ""; "addr: " +:+ lc_MetricsAddr data] ++
  (match lc_Levels data with [] => [] | l => ["" ; "levels:"] ++ map (fun x => "  - interval: " +:+ x) l end) ++
  blankAnd (whenSet (lc_L0Retention data) "l0-retention: ") ++
  blankAnd (whenSet (lc_L0RetentionCheckInterval data) "l0-retention-check-interval: ") ++
  [""; "dbs:"].
Definition configLines (data : litestreamConfigDataT) : list string := headLines data ++ flat_map dbLines (lc_Databases data).
Definition litestreamConfigTmpl (data : litestreamConfigDataT) : string :=
  Join (configLines data) (String newline "") +:+ String newline "".

(** * Local state *)

Definition litestreamStateDir (dbPath : string) : string := pathJoin [pathDir dbPath; "." +:+ pathBase dbPath +:+ "-litestream"].
Definition litestreamReplicaTargetPath (dbPath : string) : string := pathJoin [litestreamStateDir dbPath; "soak-replica-url"].
Definition replicaTargetDBPaths (c : workerConfig) : list string := if ManyDBEnabled c then ManyDBPaths c else [wc_DBPath c].
Definition replicaTargetMarker (c : workerConfig) (dbPath : string) : string :=
  if ManyDBEnabled c && (manyDBConfigMode c =s "list") then ReplicaURLForDB c dbPath else ReplicaURL c.

(** The first replica of a configuration file: the line after [replicas:] that
    names one, [None] for a file that does not exist. *)
Fixpoint scanTarget (inReplicas : bool) (lines : list string) : string * bool :=
  match lines with
  | [] => ("", false)
  | raw :: lines =>
      let line := TrimSpace raw in
      if line =s "replicas:" then scanTarget true lines
      else if negb inReplicas then scanTarget inReplicas lines
      else
        let url := TrimSpace (TrimPrefix line "- url:") in
        if negb (url =s line) then (url, negb (url =s ""))
        else
          let path := TrimSpace (TrimPrefix line "- path:") in
          if negb (path =s line) then (if path =s "" then ("", false) else ("file://" +:+ path, true))
          else scanTarget inReplicas lines
  end.
Definition litestreamConfigReplicaTarget (body : option string) : string * bool :=
  match body with None => ("", false) | Some body => scanTarget false (Split newline body) end.

Abbreviation fs := (gmap string string).
(** The error an operation on a path returns, if any. *)
Record io := mkIO {
  io_read : string -> option string;
  io_remove : string -> option string;
  io_mkdir : string -> option string;
  io_write : string -> option string
}.

Definition under (dir path : string) : bool := (path =s dir) || HasPrefix path (dir +:+ "/").
Definition RemoveAll (dir : string) (f : fs) : fs := filter (fun kv => under dir (fst kv) = false) f.

Section Files.
Variables (env : io) (c : workerConfig).

Definition readFile (f : fs) (path : string) : result string (option string) :=
  match io_read env path with Some e => Err e | None => Ok (f !! path) end.

Definition previousLitestreamReplicaTargets (f : fs) (dbPath : string) : result string (list string) :=
  match readFile f (litestreamReplicaTargetPath dbPath) with
  | Err e => Err ("read replica target marker: " +:+ e)
  | Ok marker =>
      match readFile f (wc_ConfigPath c) with
      | Err e => Err ("read litestream config: " +:+ e)
      | Ok body =>
          let target := TrimSpace (default "" marker) in
          let '(configured, ok) := litestreamConfigReplicaTarget body in
          Ok ((if target =s "" then [] else [target]) ++ (if ok then [configured] else []))
      end
  end.

(** A target other than the current one and the worker's own. *)
Definition staleTarget (current target : string) : bool :=
  negb ((target =s "") || (target =s current) || (target =s TrimSpace (ReplicaURL c))).

(** The operations return the files as they leave them and the error, if any. *)
Fixpoint cleanupPaths (paths : list string) (f : fs) : fs * option string :=
  match paths with
  | [] => (f, None)
  | dbPath :: paths =>
      let current := TrimSpace (replicaTargetMarker c dbPath) in
      if current =s "" then cleanupPaths paths f
      else
        match previousLitestreamReplicaTargets f dbPath with
        | Err e => (f, Some e)
        | Ok targets =>
            if existsb (staleTarget current) targets
            then match io_remove env (litestreamStateDir dbPath) with
                 | Some e => (f, Some ("remove stale litestream state: " +:+ e))
                 | None => cleanupPaths paths (RemoveAll (litestreamStateDir dbPath) f)
                 end
            else cleanupPaths paths f
        end
  end.
Definition cleanupStaleLitestreamState (f : fs) : fs * option string := cleanupPaths (replicaTargetDBPaths c) f.

(** A failed write leaves the previous file. *)
Definition writeFileAtomic (path body : string) (f : fs) : fs * option string :=
  match io_write env path with Some e => (f, Some e) | None => (<[path := body]> f, None) end.

Fixpoint writeTargets (paths : list string) (f : fs) : fs * option string :=
  match paths with
  | [] => (f, None)
  | dbPath :: paths =>
      let target := TrimSpace (replicaTargetMarker c dbPath) in
      if target =s "" then writeTargets paths f
      else
        match io_mkdir env (litestreamStateDir dbPath) with
        | Some e => (f, Some ("create litestream state dir: " +:+ e))
        | None =>
            match writeFileAtomic (litestreamReplicaTargetPath dbPath) (target +:+ String newline "") f with
            | (f, Some e) => (f, Some e)
            | (f, None) => writeTargets paths f
            end
        end
  end.
Definition writeLitestreamReplicaTarget (f : fs) : fs * option string := writeTargets (replicaTargetDBPaths c) f.

(** [addrError] is the outcome of [validateLitestreamMetricsAddr]. *)
Definition writeLitestreamConfig (addrError : option string) (f : fs) : fs * option string :=
  match addrError with
  | Some e => (f, Some e)
  | None =>
      match cleanupStaleLitestreamState f with
      | (f, Some e) => (f, Some e)
      | (f, None) =>
          match (if wc_ReplicaType c =s "file" then io_mkdir env (wc_ReplicaPath c) else None) with
          | Some e => (f, Some ("create replica dir: " +:+ e))
          | None =>
              match writeFileAtomic (wc_ConfigPath c) (litestreamConfigTmpl (litestreamConfigData c)) f with
              | (f, Some e) => (f, Some ("config file: " +:+ e))
              | (f, None) =>
                  match writeLitestreamReplicaTarget f with
                  | (f, Some e) => (f, Some ("write replica target marker: " +:+ e))
                  | (f, None) => (f, None)
                  end
              end
          end
      end
  end.
End Files.

(** A worker with one database, and one with two in list mode. *)
Definition sampleConfig : workerConfig :=
  mkWorkerConfig "s3" "" "" false "" "bucket" "soak/worker-1" "https://s3.example" "" 0 "/data/soak.db" "/data" "/data/litestream.yml"
    "/tmp/litestream.sock" "127.0.0.1:9090" 0 "" Second (5 * Minute) 0 0 0 0 0 None.
Definition manyConfig : workerConfig := sampleConfig <| wc_NumDatabases := 2%Z |> <| wc_DBPath := "" |>.
Definition noErrors : io := mkIO (fun _ => None) (fun _ => None) (fun _ => None) (fun _ => None).
(** * Reading back what was written *)

Definition clean_line (l : string) : Prop := char_in_str newline l = false.

Lemma Split_Join lines : lines <> [] -> Forall clean_line lines ->
  Split newline (Join lines (String newline "") +:+ String newline "") = lines ++ [""].
Proof.
  intros Hne Hc. induction lines as [|l lines IH]; [done|]. apply Forall_cons in Hc as [Hl Hc].
  destruct lines as [|l' lines].
  - simpl. by rewrite Split_app_sep.
  - rewrite Join_cons_nonempty by done. rewrite !append_assoc, append_cons, append_nil_l, Split_app_sep by done. by rewrite IH.
Qed.

Lemma trim_right_app f a b : trim_right f (a +:+ b) = if trim_right f b =s "" then trim_right f a else a +:+ trim_right f b.
Proof.
  destruct (eqs_spec (trim_right f b) "") as [E|E]; induction a as [|x a IH]; rewrite ?append_cons, ?append_nil_l; try done; simpl.
  - by rewrite IH.
  - rewrite IH. destruct (a +:+ trim_right f b) eqn:Hab; [|done]. exfalso. apply E. destruct a; [by rewrite append_nil_l in Hab|done].
Qed.

(** A line of the file: blanks, then a visible key, then anything. *)
Lemma TrimSpace_keyed blanks c key rest :
  trim_left is_space (blanks +:+ String c (key +:+ rest)) = String c (key +:+ rest) ->
  TrimSpace (blanks +:+ String c (key +:+ rest)) =
    if trim_right is_space rest =s "" then trim_right is_space (String c key) else String c key +:+ trim_right is_space rest.
Proof. intros H. unfold TrimSpace. rewrite H. rewrite <- append_cons. apply trim_right_app. Qed.

Lemma trim_left_length f s : String.length (trim_left f s) <= String.length s.
Proof. induction s as [|c s IH]; simpl; [done|]. destruct (f c); simpl; lia. Qed.
Lemma trim_right_length f s : String.length (trim_right f s) <= String.length s.
Proof. induction s as [|c s IH]; simpl; [done|]. destruct (trim_right f s); [destruct (f c)|]; simpl in *; lia. Qed.
Lemma TrimSpace_length s : String.length (TrimSpace s) <= String.length s.
Proof. unfold TrimSpace. pose proof (trim_right_length is_space (trim_left is_space s)). pose proof (trim_left_length is_space s). lia. Qed.

Lemma TrimPrefix_shorter line p :
  HasPrefix line p = true -> p <> "" -> (TrimSpace (TrimPrefix line p) =s line) = false.
Proof.
  intros Hp Hne. apply eqs_false. intros E. unfold TrimPrefix in E. rewrite Hp in E.
  pose proof (TrimSpace_length (str_drop (String.length p) line)) as Hl. rewrite E, str_drop_length in Hl.
  apply HasPrefix_spec in Hp as [t ->]. rewrite length_append in Hl. destruct p; [done|]. simpl in Hl. lia.
Qed.

Lemma TrimSpace_blank_app a s : trim_left is_space a = "" -> TrimSpace (a +:+ s) = TrimSpace s.
Proof.
  intros H. unfold TrimSpace. f_equal. induction a as [|c a IH]; [by rewrite append_nil_l|]. rewrite append_cons. simpl in *.
  destruct (is_space c); [by apply IH|done].
Qed.
Lemma TrimSpace_right s : TrimSpace (trim_right is_space s) = TrimSpace s.
Proof.
  unfold TrimSpace. induction s as [|c s IH]; [done|]. simpl. destruct (trim_right is_space s) as [|x t] eqn:Ht.
  - destruct (is_space c) eqn:Hc; simpl; [simpl in IH; by rewrite IH|]. rewrite ?Hc. simpl. rewrite ?Ht, ?Hc. done.
  - cbn [trim_left]. destruct (is_space c) eqn:Hc; [exact IH|]. rewrite <- Ht. cbn [trim_right]. by rewrite trim_right_idem.
Qed.

(** The value behind the key of a replica line. *)
Lemma keyed_value line key value :
  TrimSpace line = (if trim_right is_space value =s "" then key else key +:+ " " +:+ trim_right is_space value) -> key <> "" ->
  (TrimSpace (TrimPrefix (TrimSpace line) key) =s TrimSpace line) = false /\
  TrimSpace (TrimPrefix (TrimSpace line) key) = TrimSpace value.
Proof.
  intros -> Hne. destruct (eqs_spec (trim_right is_space value) "") as [E|E].
  - assert (HasPrefix key key = true) as Hp by (pose proof (HasPrefix_app key "") as H; by rewrite append_nil_r in H).
    split; [by apply TrimPrefix_shorter|]. unfold TrimPrefix. rewrite Hp. rewrite <- (TrimSpace_right value), E.
    pose proof (str_drop_length (String.length key) key) as Hl. rewrite Nat.sub_diag in Hl. by destruct (str_drop _ key).
  - assert (HasPrefix (key +:+ " " +:+ trim_right is_space value) key = true) as Hp by apply HasPrefix_app.
    split; [by apply TrimPrefix_shorter|]. unfold TrimPrefix. rewrite Hp.
    assert (forall a b, str_drop (String.length a) (a +:+ b) = b) as Hdrop.
    { intros a b. induction a as [|x a IH]; [done|]. rewrite append_cons. simpl. done. }
    rewrite Hdrop. rewrite TrimSpace_blank_app by done. apply TrimSpace_right.
Qed.

Lemma TrimSpace_head line c t : trim_left is_space line = String c t -> head_char (TrimSpace line) = Some c.
Proof.
  intros H. unfold TrimSpace. rewrite H. assert (is_space c = false) as Hc by (apply (trim_left_head is_space line); by rewrite H).
  simpl. rewrite Hc. by destruct (trim_right is_space t).
Qed.

Definition not_replicas (line : string) : Prop := TrimSpace line <> "replicas:".
Lemma not_replicas_head line c t : trim_left is_space line = String c t -> c <> "r"%char -> not_replicas line.
Proof. intros H Hc E. apply (f_equal head_char) in E. rewrite (TrimSpace_head _ _ _ H) in E. simpl in E. congruence. Qed.
Ltac not_replicas := solve [by intros ? | eapply not_replicas_head; [reflexivity|done]].

Lemma whenSet_not s prefix c t :
  (forall x, trim_left is_space (prefix +:+ x) = String c (t x)) -> c <> "r"%char -> Forall not_replicas (whenSet s prefix).
Proof.
  intros H Hc. unfold whenSet. destruct (s =s ""); [constructor|]. apply Forall_cons. split; [|constructor].
  by eapply not_replicas_head.
Qed.

Lemma headLines_not data : Forall not_replicas (headLines data).
Proof.
  unfold headLines. rewrite !Forall_app, !Forall_cons. split_and!; try not_replicas; try apply Forall_nil_2.
  - destruct (lc_Levels data) as [|l ls]; [apply Forall_nil_2|]. rewrite Forall_app. split; [rewrite !Forall_cons; split_and!; try not_replicas; apply Forall_nil_2|].
    apply Forall_map, Forall_true. intros x. simpl. not_replicas.
  - assert (Forall not_replicas (whenSet (lc_L0Retention data) "l0-retention: ")) as H
      by (eapply (whenSet_not _ _ "l"%char); [intros x; reflexivity|done]).
    unfold blankAnd. destruct (whenSet _ _); [done|]. apply Forall_cons. split; [not_replicas|done].
  - assert (Forall not_replicas (whenSet (lc_L0RetentionCheckInterval data) "l0-retention-check-interval: ")) as H
      by (eapply (whenSet_not _ _ "l"%char); [intros x; reflexivity|done]).
    unfold blankAnd. destruct (whenSet _ _); [done|]. apply Forall_cons. split; [not_replicas|done].
Qed.

Lemma dbHead_not d : Forall not_replicas (dbHead d).
Proof.
  unfold dbHead. rewrite !Forall_app, !Forall_cons. split_and!; try apply Forall_nil_2; try not_replicas.
  - destruct (negb (ld_Dir d =s "")); not_replicas.
  - destruct (ld_Pattern d =s ""); [apply Forall_nil_2|]. apply Forall_cons. split; [not_replicas|apply Forall_nil_2].
  - destruct (ld_Watch d); [|apply Forall_nil_2]. apply Forall_cons. split; [not_replicas|apply Forall_nil_2].
  - eapply (whenSet_not _ _ "t"%char); [intros x; reflexivity|done].
Qed.

Lemma scan_skip lines rest : Forall not_replicas lines -> scanTarget false (lines ++ rest) = scanTarget false rest.
Proof.
  induction 1 as [|l lines Hl _ IH]; [done|]. simpl. by rewrite (proj2 (eqs_false (TrimSpace l) "replicas:") Hl).
Qed.

(** The target a replica entry names. *)
Definition replicaTarget (r : litestreamConfigReplicaT) : string * bool :=
  if lr_Type r =s "file"
  then (let t := TrimSpace (lr_Path r) in if t =s "" then ("", false) else ("file://" +:+ t, true))
  else (let t := TrimSpace (if negb (lr_URL r =s "") then lr_URL r else "s3://" +:+ lr_S3Bucket r +:+ "/" +:+ lr_S3Path r) in
        (t, negb (t =s ""))).

Lemma url_line value : TrimSpace ("      - url: " +:+ value) =
  if trim_right is_space value =s "" then "- url:" else "- url:" +:+ " " +:+ trim_right is_space value.
Proof. exact (TrimSpace_keyed "      " "-" " url: " value eq_refl). Qed.
Lemma path_line value : TrimSpace ("      - path: " +:+ value) =
  if trim_right is_space value =s "" then "- path:" else "- path:" +:+ " " +:+ trim_right is_space value.
Proof. exact (TrimSpace_keyed "      " "-" " path: " value eq_refl). Qed.

Lemma scan_url value rest : let t := TrimSpace value in
  scanTarget true (("      - url: " +:+ value) :: rest) = (t, negb (t =s "")).
Proof.
  intros t. destruct (keyed_value _ "- url:" value (url_line value) ltac:(done)) as [H1 H2]. cbn [scanTarget]. cbv zeta.
  rewrite (proj2 (eqs_false _ "replicas:")) by (eapply not_replicas_head; [reflexivity|done]). cbn [negb]. by rewrite H1, H2.
Qed.
Lemma scan_path value rest : let t := TrimSpace value in
  scanTarget true (("      - path: " +:+ value) :: rest) = if t =s "" then ("", false) else ("file://" +:+ t, true).
Proof.
  intros t. destruct (keyed_value _ "- path:" value (path_line value) ltac:(done)) as [H1 H2]. cbn [scanTarget]. cbv zeta.
  rewrite (proj2 (eqs_false _ "replicas:")) by (eapply not_replicas_head; [reflexivity|done]). cbn [negb].
  assert (TrimPrefix (TrimSpace ("      - path: " +:+ value)) "- url:" = TrimSpace ("      - path: " +:+ value)) as ->.
  { unfold TrimPrefix. rewrite path_line. by destruct (_ =s ""). }
  rewrite TrimSpace_idem, eqs_refl. cbn [negb]. by rewrite H1, H2.
Qed.

Lemma scan_replica r rest : scanTarget true (replicaLines r ++ rest) = replicaTarget r.
Proof.
  unfold replicaLines, replicaTarget. destruct (lr_Type r =s "file"); [by rewrite <- app_comm_cons, scan_path|].
  destruct (lr_URL r =s ""); cbn [negb]; rewrite <- app_assoc, <- app_comm_cons; [|by rewrite scan_url].
  change ("      - url: s3://" +:+ lr_S3Bucket r +:+ "/" +:+ lr_S3Path r) with ("      - url: " +:+ "s3://" +:+ lr_S3Bucket r +:+ "/" +:+ lr_S3Path r).
  by rewrite scan_url.
Qed.

(** The reader inverts the template: it finds the first database's replica. *)
Lemma config_target data d ds :
  lc_Databases data = d :: ds -> Forall clean_line (configLines data) ->
  litestreamConfigReplicaTarget (Some (litestreamConfigTmpl data)) = replicaTarget (ld_Replica d).
Proof.
  intros Hd Hc. unfold litestreamConfigReplicaTarget, litestreamConfigTmpl. rewrite Split_Join; [|by unfold configLines, headLines|done].
  unfold configLines. rewrite Hd. cbn [flat_map]. rewrite <- !app_assoc. rewrite scan_skip by apply headLines_not.
  unfold dbLines. rewrite <- !app_assoc. rewrite scan_skip by apply dbHead_not. cbn [app scanTarget].
  change (TrimSpace "    replicas:" =s "replicas:") with true. cbv iota. apply scan_replica.
Qed.

(** * A restart keeps the state *)

(** One target for every database: a single database, or a watched directory. *)
Definition one_target (c : workerConfig) : Prop := ManyDBEnabled c = false \/ manyDBConfigMode c = "dir".

Lemma one_marker c dbPath : one_target c -> replicaTargetMarker c dbPath = ReplicaURL c.
Proof. intros [H|H]; unfold replicaTargetMarker; rewrite H; [done|]. by destruct (ManyDBEnabled c). Qed.

(** The replica of the first database is the worker's. *)
Lemma one_replica c : one_target c ->
  exists d ds dbPath, lc_Databases (litestreamConfigData c) = d :: ds /\ ld_Replica d = litestreamConfigReplica c dbPath /\
    ReplicaURLForDB c dbPath = ReplicaURL c.
Proof.
  intros H. unfold litestreamConfigData. simpl. destruct (ManyDBEnabled c) eqn:Hm; simpl.
  - destruct H as [H|H]; [congruence|]. rewrite H. simpl. eexists _, _, "". split_and!; [done|done|]. unfold ReplicaURLForDB. by rewrite Hm.
  - eexists _, _, (wc_DBPath c). split_and!; [done|done|]. unfold ReplicaURLForDB. by rewrite Hm.
Qed.

Lemma TrimPrefix_app p s : TrimPrefix (p +:+ s) p = s.
Proof.
  unfold TrimPrefix. rewrite HasPrefix_app. induction p as [|x p IH]; [done|]. rewrite append_cons. exact IH.
Qed.

Lemma trim_scheme p : trim_left is_space p = p -> TrimSpace p <> "" -> TrimSpace ("file://" +:+ p) = "file://" +:+ TrimSpace p.
Proof.
  intros Hl Hne. unfold TrimSpace in *. rewrite Hl in *. change (trim_left is_space ("file://" +:+ p)) with ("file://" +:+ p).
  rewrite trim_right_app. destruct (eqs_spec (trim_right is_space p) ""); done.
Qed.

Lemma Cut_join s : let '(a, b, found) := Cut slash s in found = true -> s = a +:+ "/" +:+ b.
Proof.
  induction s as [|x s IH]; simpl; [done|]. destruct (Ascii.eqb_spec x slash) as [->|Hne]; [done|].
  destruct (Cut slash s) as [[a b] found]. intros Hf. rewrite append_cons. by rewrite <- IH.
Qed.
Lemma Cut_found a b : exists a' b', Cut slash (a +:+ "/" +:+ b) = (a', b', true).
Proof.
  induction a as [|x a IH]; [by eexists _, _|]. rewrite append_cons. simpl. destruct (Ascii.eqb x slash); [by eexists _, _|].
  destruct IH as (a' & b' & ->). by eexists _, _.
Qed.

Lemma configured_target c dbPath t ok :
  ReplicaURLForDB c dbPath = ReplicaURL c -> trim_left is_space (wc_ReplicaPath c) = wc_ReplicaPath c ->
  replicaTarget (litestreamConfigReplica c dbPath) = (t, ok) -> ok = true -> t = TrimSpace (ReplicaURL c).
Proof.
  intros Hu Hp. unfold litestreamConfigReplica. rewrite Hu. unfold ReplicaURL, replicaTarget.
  destruct (wc_ReplicaType c =s "file") eqn:Hf.
  { cbn [lr_Type lr_Path]. rewrite Hf. rewrite TrimPrefix_app.
    destruct (eqs_spec (TrimSpace (wc_ReplicaPath c)) "") as [E|E]; intros [= <- <-]; [done|]. intros _. by rewrite trim_scheme. }
  destruct (remoteReplicaType c) eqn:Hr.
  { cbn [lr_Type lr_URL]. rewrite Hf. destruct (eqs_spec (remoteReplicaURL c "") "") as [E|E]; cbn [negb]; [|by intros [= <- <-]].
    exfalso. revert E. unfold remoteReplicaURL. by destruct (wc_ReplicaType c =s "nats"); destruct (wc_ReplicaBaseURL c). }
  rewrite TrimPrefix_app.
  pose proof (Cut_join (wc_S3Bucket c +:+ "/" +:+ wc_S3Path c)) as Hj. destruct (Cut_found (wc_S3Bucket c) (wc_S3Path c)) as (a & b & Hc).
  rewrite Hc in *. cbn [lr_Type lr_URL lr_S3Bucket lr_S3Path]. rewrite Hf. cbn [negb String.eqb]. intros [= <- <-] _.
  by rewrite (Hj eq_refl).
Qed.

(** The files after the markers were written. *)
Lemma writeTargets_marks env c paths f f' :
  one_target c -> writeTargets env c paths f = (f', None) ->
  (forall dbPath, dbPath ∈ paths -> TrimSpace (ReplicaURL c) <> "" ->
     f' !! litestreamReplicaTargetPath dbPath = Some (TrimSpace (ReplicaURL c) +:+ String newline "")) /\
  (forall p, p ∉ map litestreamReplicaTargetPath paths -> f' !! p = f !! p).
Proof.
  intros H1. revert f. induction paths as [|dbPath paths IH]; intros f; cbn [writeTargets].
  { intros [= <-]. split; [|done]. intros dbPath H. by apply elem_of_nil in H. }
  cbv zeta. rewrite one_marker by done. destruct (eqs_spec (TrimSpace (ReplicaURL c)) "") as [E|E].
  { intros H. destruct (IH _ H) as [Ha Hb]. split; [done|]. intros p Hp. apply Hb. set_solver. }
  destruct (io_mkdir env _); [done|]. unfold writeFileAtomic. destruct (io_write env _); [done|]. intros H.
  destruct (IH _ H) as [Ha Hb]. split.
  - intros q Hq _. destruct (decide (litestreamReplicaTargetPath q ∈ map litestreamReplicaTargetPath paths)) as [Hin|Hin].
    + apply list_elem_of_In, in_map_iff in Hin as (q' & <- & Hq'). apply Ha; [by apply list_elem_of_In|done].
    + rewrite Hb by done. apply elem_of_cons in Hq as [->|Hq]; [by rewrite lookup_insert_eq|].
      exfalso. apply Hin. apply list_elem_of_In, in_map. by apply list_elem_of_In.
  - intros p Hp. rewrite map_cons, not_elem_of_cons in Hp. rewrite Hb by tauto. by rewrite lookup_insert_ne by (intros <-; tauto).
Qed.

Lemma writeTargets_again env c paths f0 f0' f :
  one_target c -> writeTargets env c paths f0 = (f0', None) ->
  (forall dbPath, dbPath ∈ paths -> TrimSpace (ReplicaURL c) <> "" ->
     f !! litestreamReplicaTargetPath dbPath = Some (TrimSpace (ReplicaURL c) +:+ String newline "")) ->
  writeTargets env c paths f = (f, None).
Proof.
  intros H1. revert f0. induction paths as [|dbPath paths IH]; intros f0; cbn [writeTargets]; [done|].
  cbv zeta. rewrite one_marker by done. destruct (eqs_spec (TrimSpace (ReplicaURL c)) "") as [E|E].
  { intros H Hm. eapply IH; [done|]. intros q Hq. apply Hm. set_solver. }
  destruct (io_mkdir env _); [done|]. unfold writeFileAtomic. destruct (io_write env _); [done|]. intros H Hm.
  rewrite insert_id by (apply Hm; [set_solver|done]). eapply IH; [done|]. intros q Hq. apply Hm. set_solver.
Qed.

Lemma trim_marker t : TrimSpace (TrimSpace t +:+ String newline "") = TrimSpace t.
Proof.
  rewrite <- TrimSpace_right, trim_right_app. change (trim_right is_space (String newline "") =s "") with true. cbv iota.
  by rewrite TrimSpace_right, TrimSpace_idem.
Qed.

Lemma cleanup_readable env c paths f f' :
  one_target c -> TrimSpace (ReplicaURL c) <> "" -> cleanupPaths env c paths f = (f', None) ->
  forall dbPath, dbPath ∈ paths -> io_read env (litestreamReplicaTargetPath dbPath) = None /\ io_read env (wc_ConfigPath c) = None.
Proof.
  intros H1 Hne. revert f. induction paths as [|p paths IH]; intros f; cbn [cleanupPaths]; [intros _ q Hq; by apply elem_of_nil in Hq|].
  cbv zeta. rewrite one_marker by done. rewrite (proj2 (eqs_false _ _) Hne). unfold previousLitestreamReplicaTargets, readFile.
  destruct (io_read env (litestreamReplicaTargetPath p)) eqn:R1; [done|]. destruct (io_read env (wc_ConfigPath c)) eqn:R2; [done|].
  intros H q Hq. apply elem_of_cons in Hq as [->|Hq]; [done|].
  destruct (litestreamConfigReplicaTarget _) as [t ok]. destruct (existsb _ _); [destruct (io_remove env _); [done|]|]; by eapply IH.
Qed.

(** With its own markers and configuration on disk, nothing is stale. *)
Lemma cleanup_again env c paths f :
  one_target c -> (TrimSpace (ReplicaURL c) <> "" -> forall dbPath, dbPath ∈ paths ->
    io_read env (litestreamReplicaTargetPath dbPath) = None /\ io_read env (wc_ConfigPath c) = None /\
    f !! litestreamReplicaTargetPath dbPath = Some (TrimSpace (ReplicaURL c) +:+ String newline "")) ->
  (snd (litestreamConfigReplicaTarget (f !! wc_ConfigPath c)) = true ->
   fst (litestreamConfigReplicaTarget (f !! wc_ConfigPath c)) = TrimSpace (ReplicaURL c)) ->
  cleanupPaths env c paths f = (f, None).
Proof.
  intros H1 Hm Ht. induction paths as [|p paths IH]; [done|]. cbn [cleanupPaths]. cbv zeta. rewrite one_marker by done.
  destruct (eqs_spec (TrimSpace (ReplicaURL c)) "") as [E|E]; [apply IH; done|]. unfold previousLitestreamReplicaTargets, readFile.
  destruct (Hm E p) as (-> & -> & ->); [set_solver|]. destruct (litestreamConfigReplicaTarget (f !! wc_ConfigPath c)) as [t ok]. simpl in Ht.
  cbn [from_option id]. rewrite trim_marker, (proj2 (eqs_false _ _) E). simpl. unfold staleTarget at 1. rewrite eqs_refl, orb_true_r. simpl.
  assert (existsb (staleTarget c (TrimSpace (ReplicaURL c))) (if ok then [t] else []) = false) as ->.
  { destruct ok; [|done]. simpl. unfold staleTarget. rewrite (Ht eq_refl), eqs_refl, orb_true_r. done. }
  apply IH. intros _ q Hq. apply Hm; [done|set_solver].
Qed.

(** The files a restart reads: the configuration and the markers. *)
Definition sameSettings (c : workerConfig) (f g : gmap string string) : Prop :=
  g !! wc_ConfigPath c = f !! wc_ConfigPath c /\
  forall p, p ∈ map litestreamReplicaTargetPath (replicaTargetDBPaths c) -> g !! p = f !! p.

(** C35: for a single database or a watched directory, a restart with the same configuration keeps Litestream's local state: the
    reader finds in the configuration file the replica the template put there, so once the configuration and the
    markers were written, writing them again removes nothing and changes no file, whatever other files there are by
    then.  The lines of the file hold no line breaks, the replica path starts with no blank and the configuration is not kept under a
    marker's name; for a list of databases it is false. *)
Theorem restart_keeps_state env c f f' g :
  one_target c -> Forall clean_line (configLines (litestreamConfigData c)) ->
  trim_left is_space (wc_ReplicaPath c) = wc_ReplicaPath c ->
  wc_ConfigPath c ∉ map litestreamReplicaTargetPath (replicaTargetDBPaths c) ->
  writeLitestreamConfig env c None f = (f', None) -> sameSettings c f' g ->
  litestreamConfigReplicaTarget (f' !! wc_ConfigPath c) =
    replicaTarget (litestreamConfigReplica c (if ManyDBEnabled c then "" else wc_DBPath c)) /\
  writeLitestreamConfig env c None g = (g, None).
Proof.
  intros H1 Hclean Hpath Hcfg. unfold writeLitestreamConfig at 1.
  destruct (cleanupStaleLitestreamState env c f) as [f1 [e|]] eqn:Hcl; [done|].
  destruct (if wc_ReplicaType c =s "file" then _ else _) eqn:Hdir; [done|].
  unfold writeFileAtomic at 1. destruct (io_write env (wc_ConfigPath c)) eqn:Hw; [done|].
  destruct (writeLitestreamReplicaTarget env c _) as [f2 [e|]] eqn:Hwt; [done|]. intros [= <-] [Hsame Hmarks].
  destruct (writeTargets_marks _ _ _ _ _ H1 Hwt) as [Hm Hrest].
  assert (f2 !! wc_ConfigPath c = Some (litestreamConfigTmpl (litestreamConfigData c))) as Hbody
    by (rewrite Hrest by done; apply lookup_insert_eq).
  assert (forall dbPath, dbPath ∈ replicaTargetDBPaths c -> TrimSpace (ReplicaURL c) <> "" ->
    g !! litestreamReplicaTargetPath dbPath = Some (TrimSpace (ReplicaURL c) +:+ String newline "")) as Hg.
  { intros q Hq Hne. rewrite Hmarks by (by apply list_elem_of_In, in_map, list_elem_of_In). by apply Hm. }
  destruct (one_replica c H1) as (d & ds & dbPath & Hdb & Hd & Hu). pose proof (config_target _ _ _ Hdb Hclean) as Ht.
  assert (ld_Replica d = litestreamConfigReplica c (if ManyDBEnabled c then "" else wc_DBPath c)) as Hr.
  { revert Hdb. unfold litestreamConfigData. simpl. destruct (ManyDBEnabled c) eqn:Hmd; simpl; [|by intros [= <- <-]].
    destruct H1 as [H1|H1]; [congruence|]. rewrite H1. simpl. by intros [= <- <-]. }
  split; [by rewrite Hbody, Ht, Hr|]. rewrite Hbody in Hsame. unfold writeLitestreamConfig, cleanupStaleLitestreamState.
  rewrite cleanup_again; [|done| |].
  - rewrite Hdir. unfold writeFileAtomic at 1. rewrite Hw. rewrite insert_id by done. unfold writeLitestreamReplicaTarget.
    by rewrite (writeTargets_again _ _ _ _ _ g H1 Hwt Hg).
  - intros Hne q Hq. destruct (cleanup_readable _ _ _ _ _ H1 Hne Hcl q Hq). split_and!; auto.
  - rewrite Hsame, Ht, Hd. destruct (replicaTarget (litestreamConfigReplica c dbPath)) as [t ok] eqn:Hrt. simpl. intros ->.
    by eapply configured_target.
Qed.
(** Litestream has put its state next to the database in the meantime. *)
Lemma restart_keeps_state_witness :
  let f := fst (writeLitestreamConfig noErrors sampleConfig None ∅) in
  let state := "/data/.soak.db-litestream/generations" in
  let g := <[state := "ltx"]> f in
  writeLitestreamConfig noErrors sampleConfig None g = (g, None) /\ g !! state = Some "ltx".
Proof.
  intros f state g. split; [|apply lookup_insert_eq].
  apply (restart_keeps_state noErrors sampleConfig ∅ f g); [by left|vm_compute; repeat constructor|reflexivity| |vm_compute; reflexivity|split].
  - apply not_elem_of_cons. split; [vm_compute; discriminate|apply not_elem_of_nil].
  - apply lookup_insert_ne. vm_compute. discriminate.
  - intros p ->%list_elem_of_singleton. apply lookup_insert_ne. vm_compute. discriminate.
Defined.

(** With several databases listed, the reader still takes the first one's replica
    for every database, so each restart removes the local state of all the others. *)
Theorem list_restart_loses_state :
  let f := fst (writeLitestreamConfig noErrors manyConfig None ∅) in
  let state := "/data/dbs/.db-00002.db-litestream/generations" in
  let f := <[state := "ltx"]> f in
  fst (writeLitestreamConfig noErrors manyConfig None f) !! state = None /\
  f !! litestreamReplicaTargetPath "/data/dbs/db-00002.db" = Some (ReplicaURLForDB manyConfig "/data/dbs/db-00002.db" +:+ String newline "").
Proof. vm_compute. split; reflexivity. Qed.
