(* ===== verification/Verifier.v ===== *)
(** A verification cycle of a worker: [worker/verifier.go], [verifier_deadlines.go],
    [verification_boundary.go] and the comparison of [logical.go].

    A cycle pauses the load, checkpoints the database, waits for Litestream to
    replicate it, fixes a boundary transaction with the writers stopped, restores the
    replica and compares the copy with the database.  Everything outside the
    verifier (the load, SQLite, Litestream, the restore command, the clock, the
    contexts and their deadlines) answers through an [environment] that sees the
    history of the calls, so that a theorem about all environments is about every
    behaviour of theirs.  Deferred calls run where Go runs them.  The loops that wait
    for a deadline take fuel: a cycle that runs out of it has no result. *)
From Stdlib Require Import Ascii.
From S2P Require Import Prelude GoStrings GoTime Model Classification LtxCoverage NoProgress WorkerErrors LitestreamConfig RestoreOutput RestorePlan.

(** * Steps and results *)

(** The metadata a step error carries: [verificationStepMetadataError]. *)
Record stepMeta := mkMeta {
  sm_command : list string;
  sm_deadlineAt : option time;
  sm_exitCode : option Z;
  sm_signal : string;
  sm_contextCanceled : bool;
  sm_contextError : string;
  sm_outputTail : string
}.
#[export] Instance stepMeta_eta : Settable stepMeta :=
  fun r => mkMeta (sm_command r) (sm_deadlineAt r) (sm_exitCode r) (sm_signal r) (sm_contextCanceled r) (sm_contextError r) (sm_outputTail r).
Definition stepMeta_zero : stepMeta := mkMeta [] None None "" false "" "".

(** An error of the verifier, with the metadata [errors.As] finds in it. *)
Record verr := mkVErr { ve_err : goError; ve_meta : option stepMeta }.
Definition plain (e : goError) : verr := mkVErr e None.
Definition errText (text : string) : verr := plain (mkErr [] text).
(** [fmt.Errorf("...: %w", err)]. *)
Definition wrapText (prefix : string) (e : verr) : verr :=
  mkVErr (mkErr (ge_marks (ve_err e)) (prefix +:+ ge_text (ve_err e))) (ve_meta e).

(** Functions that return an error, alone or with a value. *)
Class Fallible (A : Type) := { failure : A -> option verr; failWith : verr -> A -> A }.
#[export] Instance fallible_option : Fallible (option verr) := {| failure e := e; failWith e _ := Some e |}.
#[export] Instance fallible_result {A} : Fallible (result verr A) :=
  {| failure r := match r with Ok _ => None | Err e => Some e end; failWith e _ := Err e |}.
#[export] Instance fallible_pair {A} : Fallible (option verr * A) := {| failure := fst; failWith e p := (Some e, snd p) |}.

Record verificationStep := mkStep {
  st_Name : string;
  st_StartedAt : time;
  st_CompletedAt : time;
  st_DurationMS : Z;
  st_Status : string;
  st_Error : string;
  st_Command : list string;
  st_DeadlineAt : option time;
  st_ExitCode : option Z;
  st_Signal : string;
  st_ContextCanceled : bool;
  st_ContextError : string;
  st_OutputTail : string;
  st_RestoreReplanCount : nat;
  st_RestoreOutputTruncated : bool
}.
#[export] Instance verificationStep_eta : Settable verificationStep :=
  fun r => mkStep (st_Name r) (st_StartedAt r) (st_CompletedAt r) (st_DurationMS r) (st_Status r) (st_Error r) (st_Command r)
    (st_DeadlineAt r) (st_ExitCode r) (st_Signal r) (st_ContextCanceled r) (st_ContextError r) (st_OutputTail r)
    (st_RestoreReplanCount r) (st_RestoreOutputTruncated r).

(** The diagnostics of a failed sync are kept as their text. *)
Record verificationResult := mkResult {
  vr_StartedAt : time;
  vr_CompletedAt : time;
  vr_CheckType : string;
  vr_Status : string;
  vr_Passed : bool;
  vr_Summary : string;
  vr_ErrorMessage : string;
  vr_DurationMS : Z;
  vr_DBSizeBytes : Z;
  vr_WALSizeBytes : Z;
  vr_Steps : list verificationStep;
  vr_SyncStatusBeforeSync : option string;
  vr_SyncStatusAfterSyncFailure : option string;
  vr_GoroutinesOnSyncFailure : option string;
  vr_SyncTXID : Z;
  vr_SyncReplicatedTXID : Z;
  vr_BoundaryTXID : Z;
  vr_CheckpointResidualBusy : bool;
  vr_RestoreMode : string;
  vr_RestoreModeFallback : string;
  vr_Inconclusive : option FailureClassification
}.
#[export] Instance verificationResult_eta : Settable verificationResult :=
  fun r => mkResult (vr_StartedAt r) (vr_CompletedAt r) (vr_CheckType r) (vr_Status r) (vr_Passed r) (vr_Summary r) (vr_ErrorMessage r)
    (vr_DurationMS r) (vr_DBSizeBytes r) (vr_WALSizeBytes r) (vr_Steps r) (vr_SyncStatusBeforeSync r) (vr_SyncStatusAfterSyncFailure r)
    (vr_GoroutinesOnSyncFailure r) (vr_SyncTXID r) (vr_SyncReplicatedTXID r) (vr_BoundaryTXID r) (vr_CheckpointResidualBusy r)
    (vr_RestoreMode r) (vr_RestoreModeFallback r) (vr_Inconclusive r).
Definition newResult (startedAt : time) (checkType mode : string) : verificationResult :=
  mkResult startedAt 0 checkType "running" false "" "" 0 0 0 [] None None None 0 0 0 false mode "" None.

(** * Snapshots *)

(** [%q] of a byte, inside the quotes; bytes past ASCII belong to printable text. *)
Definition quoteChar (c : ascii) : string :=
  let n := Z.of_N (N_of_ascii c) in
  let escaped (d : ascii) := String "092" (String d "") in
  if Ascii.eqb c "034" || Ascii.eqb c "092" then escaped c
  else if (n =? 7)%Z then escaped "a"%char else if (n =? 8)%Z then escaped "b"%char else if (n =? 9)%Z then escaped "t"%char
  else if (n =? 10)%Z then escaped "n"%char else if (n =? 11)%Z then escaped "v"%char else if (n =? 12)%Z then escaped "f"%char
  else if (n =? 13)%Z then escaped "r"%char
  else if (n <? 32)%Z || (n =? 127)%Z then escaped "x"%char +:+ hex_digits 2 n
  else String c "".
Definition Quote (s : string) : string :=
  quoteStr +:+ fold_right (fun c t => quoteChar c +:+ t) "" (String.list_ascii_of_string s) +:+ quoteStr.

(** The digests are kept as their hexadecimal text. *)
Record logicalTable := mkTable { lt_name : string; lt_rows : Z; lt_digest : string }.
#[export] Instance logicalTable_eq_dec : EqDecision logicalTable.
Proof. solve_decision. Defined.
Record logicalSnapshot := mkSnapshot { sn_schema : string; sn_tables : list logicalTable }.

Fixpoint compareTables (source restored : list logicalTable) : option string :=
  match source, restored with
  | [], _ => None
  | expected :: _, [] => Some ("logical table " +:+ Quote (lt_name expected) +:+ " missing")
  | expected :: source, actual :: restored =>
      if bool_decide (expected = actual) then compareTables source restored
      else Some ("logical table " +:+ Quote (lt_name expected) +:+ " mismatch: source_rows=" +:+ fmt_int (lt_rows expected) +:+ " restored_rows=" +:+
                 fmt_int (lt_rows actual) +:+ " source_sha256=" +:+ lt_digest expected +:+ " restored_sha256=" +:+ lt_digest actual)
  end.
Definition compareLogicalSnapshots (source restored : logicalSnapshot) : option string :=
  if negb (sn_schema source =s sn_schema restored)
  then Some ("logical schema mismatch: source_sha256=" +:+ sn_schema source +:+ " restored_sha256=" +:+ sn_schema restored)
  else compareTables (sn_tables source) (sn_tables restored).

Record verificationBoundary := mkBoundary { vb_txid : Z; vb_snapshot : logicalSnapshot }.

(** * Deadlines *)

(** [verificationPhaseBudget] of a floor and a size. *)
Definition phaseBudget (floor : duration) (size : Z) : duration :=
  let floor := if (floor <=? 0)%Z then (30 * Minute)%Z else floor in
  let units := Z.quot size (2 ^ 30) in
  let units := if (0 <? Z.rem size (2 ^ 30))%Z then int64 (units + 1) else units in
  let units := if (units <? 1)%Z then 1%Z else units in
  if (Z.quot max_int64 floor <? units)%Z then max_int64 else int64 (floor * units).

(** [verificationCooldown] of an interval, and of a configuration. *)
Definition cooldown (interval elapsed : duration) : duration :=
  if (Z.quot max_int64 2 <? elapsed)%Z then max_int64 else Z.max interval (int64 (2 * elapsed)).

Definition timeoutSeconds (budget : duration) : Z :=
  let seconds := Z.quot budget Second in
  let seconds := if negb (Z.rem budget Second =? 0)%Z then int64 (seconds + 1) else seconds in
  if (seconds <? 1)%Z then 1%Z else seconds.

(** * Configuration *)

Record verifierConfig := mkVConfig {
  vc_DBPath : string;
  vc_VerifyType : string;
  vc_ProfileName : string;
  vc_VerifyInterval : duration;
  vc_VerifyRestoreRotation : bool;
  vc_VerifySyncTimeout : duration;
  vc_VerifySyncDegradedAfter : duration;
  vc_LogicalTimeout : duration;
  vc_SourceSnapshotBudget : duration;
  vc_RestoreBudget : duration;
  vc_IntegrityCheckBudget : duration;
  vc_CompareBudget : duration;
  vc_boundedLoadProfile : bool;
  vc_churnEnabled : bool;
  vc_upgradePreTXID : Z;
  vc_FollowCheck : bool;
  vc_vfsRead : bool;
  vc_GitSHA : string;
  vc_workloadSHA : string;
  vc_manyDBPaths : list string;
  vc_manyDBChangedLimit : Z;
  vc_pausers : nat;
  vc_checkpointAttempts : nat;
  vc_checkpointRetryDelay : duration;
  vc_reservationAttempts : nat;
  vc_syncRetryDelay : duration;
  vc_commandPath : string
}.
Definition vc_ManyDBEnabled (c : verifierConfig) : bool := match vc_manyDBPaths c with [] => false | _ => true end.
Definition verifySyncTimeout (c : verifierConfig) : duration :=
  if (0 <? vc_VerifySyncTimeout c)%Z then vc_VerifySyncTimeout c else (15 * Minute)%Z.
Definition verifySyncDegradedAfter (c : verifierConfig) : duration :=
  if (0 <? vc_VerifySyncDegradedAfter c)%Z then vc_VerifySyncDegradedAfter c else (5 * Minute)%Z.

Definition verificationPhaseBudget (c : verifierConfig) (phase : string) (size : Z) : duration :=
  let override := if phase =s "source_snapshot" then vc_SourceSnapshotBudget c
                  else if phase =s "restore" then vc_RestoreBudget c
                  else if phase =s "integrity_check" then vc_IntegrityCheckBudget c
                  else if phase =s "compare" then vc_CompareBudget c else 0%Z in
  if (0 <? override)%Z then override else phaseBudget (vc_LogicalTimeout c) size.
Definition verificationCooldown (c : verifierConfig) (elapsed : duration) : duration :=
  if vc_ManyDBEnabled c then vc_VerifyInterval c else cooldown (vc_VerifyInterval c) elapsed.

(** * The environment *)

(** A call, with the part of its outcome that the theorems speak of. *)
Inductive vcall :=
| VClock
| VCtx
| VPhaseCtx
| VDeadline
| VSleep (d : duration)
| VSize (path : string)
| VStart
| VClean (ok : bool)
| VPause (i : nat) (ok : bool)
| VResume (i : nat)
| VPausedFlag (active : bool)
| VOpen
| VCheckpoint
| VRetention
| VDiagnose
| VSync (dbPath : string) (answer : result string (Z * Z))
| VRuntime
| VIncident (name : string)
| VMarker
| VOpenReservation
| VReserveCtx
| VBegin (ok : bool)
| VRollback (ok : bool)
| VCloseReservation
| VSnapshot (path : string) (answer : result goError logicalSnapshot)
| VBoundaryTime
| VConfig (ok : bool)
| VRemoveConfig
| VCapacity (ok : bool)
| VRestore (args : list string) (output : restoreOutput) (ok : bool)
| VIntegrity (path : string) (ok : bool)
| VMarkerCheck (path : string) (ok : bool)
| VRestoredSnapshot (path : string) (answer : result goError logicalSnapshot)
| VChurn (ok : bool)
| VFollow
| VVFS
| VLog (passed : bool)
| VOutcome (status : string)
| VPending
| VAttempt (path : string)
| VAck (path : string)
| VTruncated (changed targets limit : Z)
| VCoverage.

(** The reply to a sync request: the error of the request, or the status, the body
    as read up to its limit, and what [encoding/json] decodes a text to. *)
Record syncReply := mkReply {
  sy_err : option string;
  sy_code : Z;
  sy_status : string;
  sy_body : result string (string * bool);
  sy_decode : string -> result string (option Z * option Z)
}.

(** How a restore command ended: its output in pieces, and the error of running it
    with the exit code and the signal of a process that ended with one. *)
Record commandRun := mkRun {
  cr_output : list string;
  cr_err : option (goError * option Z * string)
}.

(** [PRAGMA busy_timeout] and [BEGIN IMMEDIATE]: the database was busy, or one of them
    failed otherwise. *)
Inductive beginAnswer := Begun | BeginBusy | BeginFailed (e : goError).

(** The databases of a pending change set, and the coverage that is left. *)
Record manyDBCoverage := mkCoverage { mc_pending : Z; mc_written : Z; mc_oldestAge : float64 }.

Abbreviation vhist := (list vcall).
Record environment := mkEnv {
  en_clock : vhist -> time;
  en_ctxErr : vhist -> option goError;
  en_phaseErr : vhist -> option goError;
  en_deadline : vhist -> duration -> time;
  en_phaseDeadline : vhist -> option time;
  en_sleep : vhist -> duration -> option goError;
  en_fileSize : vhist -> string -> Z;
  en_clean : vhist -> string -> option string;
  en_pause : vhist -> nat -> option goError;
  en_open : vhist -> option string;
  en_checkpoint : vhist -> result goError Z;
  en_retention : vhist -> option goError * string;
  en_diagnose : vhist -> string;
  en_sync : vhist -> string -> duration -> syncReply;
  en_runtime : vhist -> RuntimePayload;
  en_marker : vhist -> option string;
  en_openReservation : vhist -> option goError;
  en_reserveCtx : vhist -> option goError;
  en_begin : vhist -> beginAnswer;
  en_rollback : vhist -> option goError;
  en_snapshot : vhist -> string -> result goError logicalSnapshot;
  en_boundaryTime : vhist -> string -> Z -> option time;
  en_config : vhist -> string -> result goError string;
  en_capacity : vhist -> string -> string -> option goError;
  en_restore : vhist -> list string -> commandRun;
  en_integrity : vhist -> string -> option goError;
  en_markerCheck : vhist -> string -> Z -> option goError;
  en_churn : vhist -> option goError;
  en_follow : vhist -> verificationResult;
  en_vfs : vhist -> verificationResult;
  en_pending : vhist -> list string;
  en_activePaths : vhist -> list string;
  en_coverage : vhist -> manyDBCoverage
}.

(** * The verifier's state *)

Record vstate := mkVState {
  vs_hist : vhist;
  vs_res : verificationResult;
  vs_validation : list verificationStep;
  vs_evidence : string;
  vs_boundary : option verificationBoundary;
  vs_extra : list verificationResult;
  (** the output of the restore that runs *)
  vs_output : restoreOutput
}.
#[export] Instance vstate_eta : Settable vstate :=
  fun r => mkVState (vs_hist r) (vs_res r) (vs_validation r) (vs_evidence r) (vs_boundary r) (vs_extra r) (vs_output r).

(** [None]: a loop ran out of fuel. *)
Definition V (A : Type) : Type := vstate -> option (A * vstate).
Definition ret {A} (a : A) : V A := fun s => Some (a, s).
Definition bind {A B} (m : V A) (k : A -> V B) : V B := fun s => match m s with Some (a, s) => k a s | None => None end.
Definition outOfFuel {A} : V A := fun _ => None.
Notation "'do!' x := m 'in' k" := (bind m (fun x => k)) (at level 10, x name, m at level 100, k at level 200).
Notation "m ;;! k" := (bind m (fun _ => k)) (at level 199, right associativity).

Definition ask {X} (answer : vhist -> X) (event : X -> vcall) : V X :=
  fun s => let x := answer (vs_hist s) in Some (x, s <| vs_hist ::= cons (event x) |>).
Definition tell (event : vcall) : V () := ask (fun _ => ()) (fun _ => event).
Definition getResult : V verificationResult := fun s => Some (vs_res s, s).
Definition setResult (f : verificationResult -> verificationResult) : V () := fun s => Some ((), s <| vs_res ::= f |>).
Definition getEvidence : V string := fun s => Some (vs_evidence s, s).
Definition setEvidence (f : string -> string) : V () := fun s => Some ((), s <| vs_evidence ::= f |>).
Definition note (text : string) : V () := setEvidence (fun e => e +:+ text).
Definition getValidation : V (list verificationStep) := fun s => Some (vs_validation s, s).
Definition setValidation (f : list verificationStep -> list verificationStep) : V () := fun s => Some ((), s <| vs_validation ::= f |>).
Definition setBoundary (b : verificationBoundary) : V () := fun s => Some ((), s <| vs_boundary := Some b |>).
Definition getBoundary : V (option verificationBoundary) := fun s => Some (vs_boundary s, s).
Definition addExtra (r : verificationResult) : V () := fun s => Some ((), s <| vs_extra ::= fun l => l ++ [r] |>).
Definition getOutput : V restoreOutput := fun s => Some (vs_output s, s).
Definition setOutput (b : restoreOutput) : V () := fun s => Some ((), s <| vs_output := b |>).
(** Runs on a result of its own and gives it back. *)
Definition withResult (r : verificationResult) (m : V ()) : V verificationResult := fun s =>
  match m (s <| vs_res := r |>) with Some (_, s') => Some (vs_res s', s' <| vs_res := vs_res s |>) | None => None end.
Definition when (b : bool) (m : V ()) : V () := if b then m else ret ().

Definition alterLast (f : verificationStep -> verificationStep) (l : list verificationStep) : list verificationStep :=
  alter f (length l - 1) l.

Definition isOk {E} (e : option E) : bool := match e with None => true | Some _ => false end.
Definition isOkR {E A} (r : result E A) : bool := match r with Ok _ => true | Err _ => false end.

Section Cycle.
Variables (env : environment) (cfg : verifierConfig).

Definition clock : V time := ask (en_clock env) (fun _ => VClock).
Definition ctxErr : V (option goError) := ask (en_ctxErr env) (fun _ => VCtx).
Definition phaseErr : V (option goError) := ask (en_phaseErr env) (fun _ => VPhaseCtx).
(** [select] on the context and a timer: the context's error when it ended first. *)
Definition sleep (d : duration) : V (option goError) := ask (fun h => en_sleep env h d) (fun _ => VSleep d).
Definition fileSizeOf (path : string) : V Z := ask (fun h => en_fileSize env h path) (fun _ => VSize path).
Definition removeRestoredArtifacts (path : string) : V (option string) := ask (fun h => en_clean env h path) (fun e => VClean (isOk e)).
Definition logResult (passed : bool) : V () := tell (VLog passed).

(** ** Pausing the load *)

Fixpoint resumeDown (i : nat) : V () :=
  tell (VResume i) ;;! match i with O => ret () | S i => resumeDown i end.
Fixpoint pauseFrom (n i : nat) : V (option verr) :=
  match n with
  | O => tell (VPausedFlag true) ;;! ret None
  | S n =>
      do! err := ask (fun h => en_pause env h i) (fun e => VPause i (isOk e)) in
      match err with
      | Some e =>
          resumeDown i ;;!
          ret (Some (wrapText ("pause load generator " +:+ fmt_int (Z.of_nat i + 1) +:+ " of " +:+ fmt_int (Z.of_nat (vc_pausers cfg)) +:+ ": ")
                 (plain e)))
      | None => pauseFrom n (S i)
      end
  end.
Definition pauseLoad : V (option verr) := if vc_pausers cfg =? 0 then ret None else pauseFrom (vc_pausers cfg) 0.

Fixpoint resumeFrom (n i : nat) : V () :=
  match n with O => ret () | S n => tell (VResume i) ;;! resumeFrom n (S i) end.
Definition resumeLoad : V () :=
  if vc_pausers cfg =? 0 then ret () else resumeFrom (vc_pausers cfg) 0 ;;! tell (VPausedFlag false).

(** ** Recording steps *)

(** The step of [recordVerificationStep], and the function's error. *)
Definition timedStep {A} `{Fallible A} (name : string) (fn : V A) : V (A * verificationStep) :=
  do! startedAt := clock in
  do! err := fn in
  do! completedAt := clock in
  let step := mkStep name startedAt completedAt (Z.quot (time_Sub completedAt startedAt) Millisecond) "ok" "" [] None None "" false "" "" 0 false in
  let step :=
    match failure err with
    | None => step
    | Some e =>
        let step := step <| st_Status := "error" |> <| st_Error := ge_text (ve_err e) |> in
        match ve_meta e with
        | None => step
        | Some m => step <| st_Command := sm_command m |> <| st_DeadlineAt := sm_deadlineAt m |> <| st_ExitCode := sm_exitCode m |>
                      <| st_Signal := sm_signal m |> <| st_ContextCanceled := sm_contextCanceled m |>
                      <| st_ContextError := sm_contextError m |> <| st_OutputTail := sm_outputTail m |>
        end
    end in
  ret (err, step).
Definition recordVerificationStep {A} `{Fallible A} (name : string) (fn : V A) : V A :=
  do! r := timedStep name fn in
  setResult (fun res => res <| vr_Steps ::= fun l => l ++ [snd r] |>) ;;! ret (fst r).

Definition verifierDeadlineText (phase : string) (elapsed : duration) (signal : string) : string :=
  phase +:+ ": verifier deadline exceeded after " +:+ DurationString (DurationRound elapsed Millisecond) +:+
  (if negb (signal =s "") then " (" +:+ signal +:+ ")" else "").

(** The error of a phase whose context ended replaces its own, unless its process
    ended with an exit code. *)
Definition phaseOutcome {A} `{Fallible A} (name : string) (fn : V A) : V A :=
  do! started := clock in
  do! err := fn in
  do! ended := phaseErr in
  match ended with
  | None => ret err
  | Some cause =>
      let metadata := default stepMeta_zero (e ← failure err; ve_meta e) in
      if match sm_exitCode metadata with Some code => (0 <? code)%Z | None => false end then ret err
      else
        do! now := clock in
        let e := if errorsIs cause contextDeadlineExceeded
                 then mkErr [verifierDeadlineError; contextDeadlineExceeded]
                        (verifierDeadlineText name (time_Sub now started) (sm_signal metadata))
                 else mkErr (ge_marks cause) (name +:+ ": verifier canceled: " +:+ ge_text cause) in
        ret (failWith (mkVErr e (Some (metadata <| sm_contextCanceled := true |> <| sm_contextError := ge_text cause |>))) err)
  end.
Definition runValidationPhase {A} `{Fallible A} (name : string) (budget : duration) (fn : V A) : V A :=
  do! deadline := ask (fun h => en_deadline env h budget) (fun _ => VDeadline) in
  do! r := timedStep name (phaseOutcome name fn) in
  setValidation (fun l => l ++ [(snd r) <| st_DeadlineAt := Some deadline |>]) ;;! ret (fst r).

(** ** Results *)

Fixpoint summarizeLines (lines : list string) : string :=
  match lines with
  | [] => ""
  | line :: rest =>
      let line := TrimSpace line in
      if line =s "" then summarizeLines rest else if (240 <? str_len line)%Z then str_take (Z.to_nat 240) line else line
  end.
Definition summarizeVerificationMessage (msg : string) : string := summarizeLines (Split newline msg).

Fixpoint addSizes (paths : list string) : V () :=
  match paths with
  | [] => ret ()
  | path :: paths =>
      do! db := fileSizeOf path in
      do! wal := fileSizeOf (path +:+ "-wal") in
      setResult (fun r => r <| vr_DBSizeBytes ::= fun n => int64 (n + db) |> <| vr_WALSizeBytes ::= fun n => int64 (n + wal) |>) ;;!
      addSizes paths
  end.
Definition finalizeResult : V () :=
  do! now := clock in
  setResult (fun r => r <| vr_CompletedAt := now |> <| vr_DurationMS := Z.quot (time_Sub now (vr_StartedAt r)) Millisecond |>) ;;!
  if vc_ManyDBEnabled cfg then addSizes (vc_manyDBPaths cfg)
  else
    do! db := fileSizeOf (vc_DBPath cfg) in
    do! wal := fileSizeOf (vc_DBPath cfg +:+ "-wal") in
    setResult (fun r => r <| vr_DBSizeBytes := db |> <| vr_WALSizeBytes := wal |>).

Definition reservationMessage := "source boundary unavailable: acquire writer reservation:".
(** The status and the summary of a failure, from the context's error and its message. *)
Definition failureStatus (ended : option goError) (message : string) : string :=
  match ended with
  | Some _ => "aborted"
  | None => if Contains message reservationMessage then "pending" else "failed"
  end.
Definition failureSummary (status message : string) : string :=
  let summary := summarizeVerificationMessage message in
  if status =s "aborted" then "verification aborted: " +:+ summary
  else if status =s "pending" then "verification inconclusive: " +:+ summary else summary.
Definition failResult (message : string) : V () :=
  do! ended := ctxErr in
  let status := failureStatus ended message in
  setResult (fun r => r <| vr_Status := status |> <| vr_ErrorMessage := message |> <| vr_Summary := failureSummary status message |>) ;;!
  finalizeResult.

Definition inconclusiveError (e : goError) : bool :=
  errorsIs e verifierDeadlineError || errorsIs e unreplicatedBoundaryError || errorsIs e restoreEvidenceInconclusiveError ||
  errorsIs e restoreCapacityInconclusiveError || errorsIs e restoredComparisonLockedError.
Definition failValidationResult (err : verr) : V () :=
  let e := ve_err err in
  failResult (ge_text e) ;;!
  setResult (fun r =>
    let r := if errorsIs e restoreCapacityInconclusiveError
             then r <| vr_Inconclusive := Some (HarnessCapacityClassification (vr_RestoreMode r)) |>
             else if errorsIs e restoredComparisonLockedError
             then r <| vr_Inconclusive := Some (RestoredComparisonLockedClassification (vr_RestoreMode r)) |> else r in
    if inconclusiveError e && negb (vr_Status r =s "aborted")
    then r <| vr_Status := "aborted" |>
           <| vr_Summary := "verification inconclusive: " +:+ summarizeVerificationMessage (ge_text e) |>
    else r).

(** ** The checkpoint *)

(** [n] attempts are left; the load may finish a transaction between attempts. *)
Fixpoint checkpointLoop (n : nat) (attempt : Z) (resumeBetween : bool) (lastErr : option goError) : V (result verr bool) :=
  match n with
  | O =>
      match lastErr with
      | Some e => ret (Err (wrapText ("checkpoint after " +:+ fmt_int (Z.of_nat (vc_checkpointAttempts cfg)) +:+ " attempts: ") (plain e)))
      | None => ret (Ok true)
      end
  | S n =>
      let query : V (result verr bool) :=
        do! answer := ask (en_checkpoint env) (fun _ => VCheckpoint) in
        match answer with
        | Err e => checkpointLoop n (attempt + 1) resumeBetween (Some e)
        | Ok busy => if (busy =? 0)%Z then ret (Ok false) else checkpointLoop n (attempt + 1) resumeBetween None
        end in
      if (attempt <=? 1)%Z then query
      else
        let cycleLoad := resumeBetween && negb (vc_pausers cfg =? 0) in
        when cycleLoad resumeLoad ;;!
        do! ended := sleep (vc_checkpointRetryDelay cfg) in
        match ended with
        | Some e => ret (Err (plain e))
        | None =>
            do! paused := (if cycleLoad then pauseLoad else ret None) in
            match paused with
            | Some e => ret (Err (wrapText "re-pause load during checkpoint retry: " e))
            | None => query
            end
        end
  end.
(** Whether frames are left in the WAL. *)
Definition checkpointDB (resumeBetween : bool) : V (result verr bool) :=
  do! err := ask (en_open env) (fun _ => VOpen) in
  match err with
  | Some e => ret (Err (errText ("open database: " +:+ e)))
  | None => checkpointLoop (vc_checkpointAttempts cfg) 1 resumeBetween None
  end.

(** ** The sync *)

(** What [requestLitestreamSync] makes of a reply. *)
Definition syncAnswer (r : syncReply) : result string (Z * Z) :=
  match sy_err r with
  | Some e => Err ("sync request: " +:+ e)
  | None =>
      if negb (sy_code r =? 200)%Z then
        match sy_body r with
        | Err e => Err ("sync returned " +:+ fmt_int (sy_code r) +:+ ": read response: " +:+ e)
        | Ok (body, truncated) =>
            let message := TrimSpace body +:+ (if truncated then " [truncated]" else "") in
            Err ("sync returned " +:+ fmt_int (sy_code r) +:+ ": " +:+ (if message =s "" then sy_status r else message))
        end
      else
        match sy_body r with
        | Err e => Err ("read sync response: " +:+ e)
        | Ok (body, truncated) =>
            if truncated then Err ("sync response exceeded " +:+ fmt_int syncDiagnosticOutputLimit +:+ " bytes")
            else
              let body := TrimSpace body in
              if body =s "" then Err "sync response was empty"
              else
                match sy_decode r body with
                | Err e => Err ("decode sync response: " +:+ e)
                | Ok (Some txid, Some replicated) => Ok (txid, replicated)
                | Ok _ => Err "sync response missing txid fields"
                end
        end
  end.
Definition requestLitestreamSync (dbPath : string) (budget : duration) : V (result string (Z * Z)) :=
  ask (fun h => syncAnswer (en_sync env h dbPath (timeoutSeconds budget))) (fun answer => VSync dbPath answer).

Definition isSyncTimeout (text : string) : bool :=
  let text := ToLower text in
  Contains text "context deadline exceeded" || Contains text "client.timeout exceeded" || Contains text "timeout".
Definition diagnose : V string := ask (en_diagnose env) (fun _ => VDiagnose).
Definition captureSyncFailureDiagnostics (text : string) : V () :=
  do! status := diagnose in
  setResult (fun r => r <| vr_SyncStatusAfterSyncFailure := Some status |>) ;;!
  if isSyncTimeout text
  then do! dump := diagnose in setResult (fun r => r <| vr_GoroutinesOnSyncFailure := Some dump |>)
  else ret ().

Definition syncLagNotResolvedError (txid replicated : Z) : V verr :=
  do! runtime := ask (en_runtime env) (fun _ => VRuntime) in
  let text := "sync lag not resolved: txid=" +:+ hex16 txid +:+ " replicated=" +:+ hex16 replicated in
  ret (errText (if snapshotUnderDiskPressure runtime
                then "disk is full: no replication progress while data disk cannot stage current database snapshot: " +:+ text else text)).

Definition failSync (e : verr) : V (option verr) := captureSyncFailureDiagnostics (ge_text (ve_err e)) ;;! ret (Some e).

Fixpoint syncLoop (fuel : nat) (dbPath : string) (startedAt deadline : time) (degradedLogged : bool) : V (option verr) :=
  match fuel with
  | O => outOfFuel
  | S fuel =>
      do! now := clock in
      do! answer := requestLitestreamSync dbPath (time_Sub deadline now) in
      match answer with
      | Err e => failSync (errText e)
      | Ok (txid, replicated) =>
          setResult (fun r => r <| vr_SyncTXID := txid |> <| vr_SyncReplicatedTXID := replicated |>) ;;!
          if (txid <=? replicated)%Z then
            do! now := clock in
            when (0 <? verifySyncDegradedAfter cfg)%Z
              (when (verifySyncDegradedAfter cfg <? time_Sub now startedAt)%Z (tell (VIncident "sync-recovered"))) ;;!
            ret None
          else
            do! now := clock in
            if After (time_Add now (vc_syncRetryDelay cfg)) deadline
            then do! e := syncLagNotResolvedError txid replicated in failSync e
            else
              do! now := clock in
              let degraded := negb degradedLogged && (0 <? verifySyncDegradedAfter cfg)%Z &&
                              (verifySyncDegradedAfter cfg <? time_Sub now startedAt)%Z in
              when degraded (tell (VIncident "sync-degraded")) ;;!
              do! ended := sleep (vc_syncRetryDelay cfg) in
              match ended with
              | Some e => failSync (wrapText "sync retry wait: " (plain e))
              | None => syncLoop fuel dbPath startedAt deadline (degradedLogged || degraded)
              end
      end
  end.
Definition waitForSyncDB (fuel : nat) (dbPath : string) : V (option verr) :=
  setResult (fun r => r <| vr_BoundaryTXID := 0%Z |>) ;;!
  do! status := diagnose in
  setResult (fun r => r <| vr_SyncStatusBeforeSync := Some status |>) ;;!
  do! startedAt := clock in
  do! now := clock in
  syncLoop fuel dbPath startedAt (time_Add now (verifySyncTimeout cfg)) false.

(** ** The boundary *)

(** Rounds of [BEGIN IMMEDIATE] until the lock is taken or the attempt's deadline. *)
Fixpoint reserveLoop (fuel : nat) : V (option verr) :=
  match fuel with
  | O => outOfFuel
  | S fuel =>
      do! ended := ask (en_reserveCtx env) (fun _ => VReserveCtx) in
      match ended with
      | Some e => ret (Some (wrapText (reservationMessage +:+ " ") (plain e)))
      | None =>
          do! answer := ask (en_begin env) (fun a => VBegin (match a with Begun => true | _ => false end)) in
          match answer with
          | Begun => ret None
          | BeginFailed e => ret (Some (wrapText (reservationMessage +:+ " ") (plain e)))
          | BeginBusy =>
              do! ended := sleep (50 * Millisecond) in
              match ended with
              | Some e => ret (Some (wrapText (reservationMessage +:+ " ") (plain e)))
              | None => reserveLoop fuel
              end
          end
      end
  end.
Definition reservationBlocked (e : goError) : bool :=
  errorsIs e contextDeadlineExceeded || Contains (ge_text e) "database is locked" || Contains (ge_text e) "context deadline exceeded".

(** [n] more attempts may cycle the load. *)
Fixpoint acquireLoop (fuel n : nat) (cyclePausers : bool) : V (option verr) :=
  do! err := reserveLoop fuel in
  match err, n with
  | None, _ => ret None
  | Some e, O => ret (Some e)
  | Some e, S n =>
      if negb cyclePausers || (vc_pausers cfg =? 0) then ret (Some e)
      else
        do! ended := phaseErr in
        match ended with
        | Some _ => ret (Some e)
        | None =>
            if negb (reservationBlocked (ve_err e)) then ret (Some e)
            else
              resumeLoad ;;!
              do! ended := sleep (vc_checkpointRetryDelay cfg) in
              match ended with
              | Some _ => ret (Some e)
              | None =>
                  do! paused := pauseLoad in
                  match paused with
                  | Some p => ret (Some (wrapText "source boundary unavailable: re-pause load for writer reservation: " p))
                  | None => acquireLoop fuel n cyclePausers
                  end
              end
        end
  end.
Definition acquireBoundaryReservation (fuel : nat) (cyclePausers : bool) : V (option verr) :=
  acquireLoop fuel (vc_reservationAttempts cfg - 1) cyclePausers.
Definition releaseReservation : V (option goError) := ask (en_rollback env) (fun e => VRollback (isOk e)).

Definition logicalValidation (path : string) (txid : Z) : V (result verr logicalSnapshot) :=
  setEvidence (fun _ => "validator=soak-logical-v1 workload=soak:" +:+ vc_GitSHA cfg +:+ " synthetic_workload=litestream:" +:+
    vc_workloadSHA cfg +:+ " boundary_txid=" +:+ hex16 txid +:+ " database=" +:+ Quote path +:+ " bookkeeping=recognized-sequence-content-excluded") ;;!
  do! answer := ask (fun h => en_snapshot env h path) (fun a => VSnapshot path a) in
  match answer with
  | Ok snapshot => ret (Ok snapshot)
  | Err e => do! evidence := getEvidence in ret (Err (wrapText (evidence +:+ ": source snapshot: ") (plain e)))
  end.

Definition boundaryText (requested reserved replicated : Z) : string :=
  "source boundary unavailable: requested=" +:+ hex16 requested +:+ " reserved=" +:+ hex16 reserved +:+ " replicated=" +:+ hex16 replicated.

(** With the reservation open; the caller releases and closes it. *)
Definition boundaryUnderReservation (fuel : nat) (path : string) (txid : Z) : V (result verr verificationBoundary) :=
  do! err := acquireBoundaryReservation fuel true in
  match err with
  | Some e => ret (Err e)
  | None =>
      do! err := releaseReservation in
      match err with
      | Some e => ret (Err (plain e))
      | None =>
          do! answer := requestLitestreamSync path (verifySyncTimeout cfg) in
          match answer with
          | Err e => ret (Err (errText ("source boundary unavailable: paused sync: " +:+ e)))
          | Ok (synced, replicated) =>
              do! err := acquireBoundaryReservation fuel false in
              match err with
              | Some e => ret (Err e)
              | None =>
                  if (synced <? txid)%Z then ret (Err (errText (boundaryText txid synced replicated)))
                  else if (replicated <? synced)%Z
                  then ret (Err (plain (mkErr [unreplicatedBoundaryError] (boundaryText txid synced replicated))))
                  else
                    do! source := logicalValidation path synced in
                    match source with
                    | Err e => ret (Err e)
                    | Ok source => note " source_boundary=paused-sync-writer-reserved-snapshot" ;;! ret (Ok (mkBoundary synced source))
                    end
              end
          end
      end
  end.
Definition captureVerificationBoundary (fuel : nat) (path : string) (txid : Z) : V (result verr verificationBoundary) :=
  setEvidence (fun _ => "source_boundary=unavailable restore_boundary=unavailable") ;;!
  if (txid =? 0)%Z then ret (Err (errText "source boundary unavailable: zero TXID"))
  else
    do! err := ask (en_openReservation env) (fun _ => VOpenReservation) in
    match err with
    | Some e => ret (Err (plain e))
    | None =>
        do! r := boundaryUnderReservation fuel path txid in
        do! released := releaseReservation in
        tell VCloseReservation ;;! ret r
    end.

(** ** The comparison *)

Definition restoredCompareAttempts : nat := 3.
Definition restoredCompareRetryDelay : duration := (500 * Millisecond)%Z.
(** [n] more attempts after a lock. *)
Fixpoint readRestoredLogicalSnapshot (n : nat) (path : string) : V (result goError logicalSnapshot) :=
  do! answer := ask (fun h => en_snapshot env h path) (fun a => VRestoredSnapshot path a) in
  match answer, n with
  | Err e, S n =>
      if negb (errorsIs e sqliteLockError) then ret answer
      else
        do! ended := sleep restoredCompareRetryDelay in
        match ended with Some _ => ret answer | None => readRestoredLogicalSnapshot n path end
  | _, _ => ret answer
  end.
Definition compareRestoredLogical (source : logicalSnapshot) (restoredPath : string) : V (option verr) :=
  do! restored := readRestoredLogicalSnapshot (restoredCompareAttempts - 1) restoredPath in
  do! evidence := getEvidence in
  let prefix := evidence +:+ ": restored comparison: " in
  match restored with
  | Err e =>
      if errorsIs e sqliteLockError
      then ret (Some (plain (mkErr (restoredComparisonLockedError :: ge_marks e) (prefix +:+ ge_text e))))
      else ret (Some (wrapText prefix (plain e)))
  | Ok restored =>
      match compareLogicalSnapshots source restored with
      | Some text => ret (Some (errText (prefix +:+ text)))
      | None =>
          do! churn := (if vc_churnEnabled cfg
                        then do! err := ask (en_churn env) (fun e => VChurn (isOk e)) in
                             when (isOk err) (note " application_invariants=true") ;;! ret err
                        else ret None) in
          match churn with
          | Some e => ret (Some (plain e))
          | None =>
              note (" schema_sha256=" +:+ sn_schema source +:+ " tables=" +:+ fmt_int (Z.of_nat (length (sn_tables source))) +:+ " logical_match=true") ;;!
              ret None
          end
      end
  end.

(** ** The restore *)

(** The command, and what its output shows. *)
Definition runRestore (args : list string) : V (option (goError * option Z * string)) :=
  do! run := ask (fun h => let run := en_restore env h args in (snd (outputText (written (cr_output run))), cr_err run))
               (fun r => VRestore args (fst r) (isOk (snd r))) in
  setOutput (fst run) ;;! ret (snd run).
Definition outputKept (b : restoreOutput) : string := fst (outputText b).

Definition validationStepMetadata (args : list string) (output : string) (exitCode : option Z) (signal : string) : V stepMeta :=
  do! deadlineAt := ask (en_phaseDeadline env) (fun _ => VDeadline) in
  do! ended := phaseErr in
  ret (mkMeta (vc_commandPath cfg :: args) deadlineAt exitCode signal (negb (isOk ended)) (from_option ge_text "" ended) (tailString output (Z.to_nat 8192))).

(** The failure of a restore, told apart by what the harness or the store lacked;
    [current] is the restore of the cycle's own boundary. *)
Definition restoreFailure (mode : string) (current : bool) (e : goError) : string * goError :=
  let inconclusive := mkErr (restoreEvidenceInconclusiveError :: ge_marks e) (ge_text e) in
  if PinnedRestoreTargetUnavailable mode (ge_text e) then (if current then " restore_target=unavailable" else "", inconclusive)
  else if current && RestoreRequestCanceled (ge_text e) then (" object_store=request_canceled", inconclusive)
  else if RestoreOutputDiskFull (ge_text e) then (" restore_capacity=exhausted", restoreCapacityExhausted e)
  else ("", e).

Definition restoreCommand (mode configPath : string) (txid : Z) (target : time) (restoredPath sourcePath : string) : V (option verr) :=
  let args := restoreArgs configPath mode txid target restoredPath sourcePath in
  do! err := runRestore args in
  do! output := getOutput in
  match err with
  | None =>
      note (if mode =s restoreModeLatest then " restore_boundary=latest restored_txid=" +:+ hex16 (ro_planTXID output)
            else " restore_boundary=pinned") ;;!
      ret None
  | Some (cause, exitCode, signal) =>
      note " restore_boundary=unavailable" ;;!
      do! metadata := validationStepMetadata args (outputKept output) exitCode signal in
      let e := match exitCode with
               | Some code => mkErr [] ("restore failed: validation failed (exit " +:+ fmt_int code +:+ "): " +:+ ro_finalError output)
               | None => mkErr (ge_marks cause) ("restore failed: run validate: " +:+ ge_text cause +:+ ": " +:+ ro_finalError output)
               end in
      let '(remark, e) := restoreFailure mode true e in
      note remark ;;! ret (Some (mkVErr e (Some metadata)))
  end.

Definition liftErr (m : V (option goError)) : V (option verr) := do! e := m in ret (plain <$> e).
Definition checkCapacity (restoredPath sourcePath : string) : V (option verr) :=
  liftErr (ask (fun h => en_capacity env h restoredPath sourcePath) (fun e => VCapacity (isOk e))).
Definition checkRestoredIntegrity (path : string) : V (option verr) :=
  liftErr (ask (fun h => en_integrity env h path) (fun e => VIntegrity path (isOk e))).
Definition sourceSizeOf (path : string) : V Z :=
  do! db := fileSizeOf path in do! wal := fileSizeOf (path +:+ "-wal") in ret (int64 (db + wal)).

(** The restored copy against the boundary: by its marker and its transaction when it
    is the latest state, by its content otherwise. *)
Definition judgeRestored (mode : string) (marker : Z) (source : verificationBoundary) (restoredPath : string) (sourceSize : Z)
  : V (result verr bool) :=
  do! err := runValidationPhase "integrity_check" (verificationPhaseBudget cfg "integrity_check" sourceSize) (checkRestoredIntegrity restoredPath) in
  match err with
  | Some e => ret (Err e)
  | None =>
      do! err :=
        (if mode =s restoreModeLatest then
           runValidationPhase "latest_marker" (verificationPhaseBudget cfg "latest_marker" sourceSize) (
             do! err := ask (fun h => en_markerCheck env h restoredPath marker) (fun e => VMarkerCheck restoredPath (isOk e)) in
             match err with
             | Some e => ret (Some (plain e))
             | None => do! output := getOutput in ret (plain <$> checkLatestRestoreTXID (ro_planTXID output) (vb_txid source))
             end)
         else runValidationPhase "compare" (verificationPhaseBudget cfg "compare" sourceSize)
                (compareRestoredLogical (vb_snapshot source) restoredPath)) in
      ret (match err with Some e => Err e | None => Ok true end)
  end.

Definition restoreAndJudge (mode configPath : string) (marker : Z) (source : verificationBoundary) (target : time)
  (restoredPath sourcePath : string) (sourceSize : Z) : V (result verr bool) :=
  do! err := runValidationPhase "restore_preflight" (verificationPhaseBudget cfg "restore_preflight" sourceSize)
               (checkCapacity restoredPath sourcePath) in
  match err with
  | Some e => note " restore_capacity=insufficient" ;;! ret (Err e)
  | None =>
      setOutput restoreOutput_zero ;;!
      do! err := runValidationPhase "restore" (verificationPhaseBudget cfg "restore" sourceSize)
                   (restoreCommand mode configPath (vb_txid source) target restoredPath sourcePath) in
      do! output := getOutput in
      setValidation (alterLast (fun step => step <| st_OutputTail := outputKept output |> <| st_RestoreReplanCount := ro_replans output |>
                                <| st_RestoreOutputTruncated := ro_truncated output |>)) ;;!
      match err with
      | Some e => ret (Err e)
      | None => judgeRestored mode marker source restoredPath sourceSize
      end
  end.

(** The mode of a latest restore falls back without its marker, that of a timestamp
    restore without a time that separates the boundary. *)
Definition markerMode (mode : string) (marker : Z) : V string :=
  if mode =s restoreModeLatest then
    do! err := ask (en_marker env) (fun _ => VMarker) in
    match err with
    | None => ret mode
    | Some _ => setResult (fun r => r <| vr_RestoreModeFallback := restoreModeFallbackNoMarker |>) ;;! ret restoreModeTXID
    end
  else ret mode.
Definition targetMode (mode sourcePath : string) (txid : Z) : V (string * time) :=
  if mode =s restoreModeTimestamp then
    do! at_ := ask (fun h => en_boundaryTime env h sourcePath txid) (fun _ => VBoundaryTime) in
    match at_ with
    | Some t => ret (mode, time_Add t Nanosecond)
    | None => setResult (fun r => r <| vr_RestoreModeFallback := restoreModeFallbackNoLTXBoundary |>) ;;! ret (restoreModeTXID, 0%Z)
    end
  else ret (mode, 0%Z).

Definition validateDBResult (fuel : nat) (sourcePath restoredPath : string) : V (result verr bool) :=
  setResult (fun r => r <| vr_BoundaryTXID := 0%Z |>) ;;!
  setValidation (fun _ => []) ;;!
  do! result := getResult in
  let mode := if vr_RestoreMode result =s "" then restoreModeTXID else vr_RestoreMode result in
  do! marker := (if mode =s restoreModeLatest then do! now := clock in ret (UnixNano now) else ret 0%Z) in
  do! mode := markerMode mode marker in
  do! sourceSize := sourceSizeOf sourcePath in
  do! captured := runValidationPhase "source_snapshot" (verificationPhaseBudget cfg "source_snapshot" sourceSize)
                    (captureVerificationBoundary fuel sourcePath (vr_SyncTXID result)) in
  match captured with
  | Err e => ret (Err e)
  | Ok source =>
      setResult (fun r => r <| vr_BoundaryTXID := vb_txid source |>) ;;!
      setBoundary source ;;!
      do! chosen := targetMode mode sourcePath (vb_txid source) in
      let mode := fst chosen in
      setResult (fun r => r <| vr_RestoreMode := mode |>) ;;!
      note (" restore_mode=" +:+ mode) ;;!
      do! result := getResult in
      when (negb (vr_RestoreModeFallback result =s "")) (note (" restore_mode_fallback=" +:+ vr_RestoreModeFallback result)) ;;!
      when (mode =s restoreModeLatest) (note (" restore_marker=" +:+ fmt_int marker)) ;;!
      do! config := ask (fun h => en_config env h sourcePath) (fun r => VConfig (isOkR r)) in
      match config with
      | Err e => ret (Err (plain e))
      | Ok configPath =>
          do! passed := restoreAndJudge mode configPath marker source (snd chosen) restoredPath sourcePath sourceSize in
          tell VRemoveConfig ;;! ret passed
      end
  end.

(** ** The restore of a transaction written before an upgrade *)

Definition preUpgradeRestoreCheckType := "pre-upgrade-restore".
Definition preUpgradeCommand (configPath preRestoredPath sourcePath : string) : V (option verr) :=
  let txid := vc_upgradePreTXID cfg in
  let args := restoreArgs configPath restoreModeTXID txid 0 preRestoredPath sourcePath in
  do! err := runRestore args in
  do! output := getOutput in
  match err with
  | None => note " pre_upgrade_restore=ok" ;;! ret None
  | Some (cause, exitCode, signal) =>
      note " pre_upgrade_restore=unavailable" ;;!
      do! metadata := validationStepMetadata args (outputKept output) exitCode signal in
      let prefix := "restore failed: pre-upgrade txid " +:+ hex16 txid in
      let e := match exitCode with
               | Some code => mkErr [] (prefix +:+ " (exit " +:+ fmt_int code +:+ "): " +:+ ro_finalError output)
               | None => mkErr (ge_marks cause) (prefix +:+ ": " +:+ ge_text cause +:+ ": " +:+ ro_finalError output)
               end in
      let '(remark, e) := restoreFailure restoreModeTXID false e in
      note remark ;;! ret (Some (mkVErr e (Some metadata)))
  end.

Definition preUpgradePhases (configPath preRestoredPath sourcePath : string) (sourceSize : Z) : V (option verr) :=
  note (" pre_upgrade_txid=" +:+ hex16 (vc_upgradePreTXID cfg)) ;;!
  do! err := runValidationPhase "restore_pre_upgrade_preflight" (verificationPhaseBudget cfg "restore_preflight" sourceSize)
               (checkCapacity preRestoredPath sourcePath) in
  match err with
  | Some e => note " restore_capacity=insufficient" ;;! ret (Some e)
  | None =>
      setOutput restoreOutput_zero ;;!
      do! err := runValidationPhase "restore_pre_upgrade_txid" (verificationPhaseBudget cfg "restore" sourceSize)
                   (preUpgradeCommand configPath preRestoredPath sourcePath) in
      do! output := getOutput in
      setValidation (alterLast (fun step => step <| st_OutputTail := outputKept output |>)) ;;!
      match err with
      | Some e => ret (Some e)
      | None => runValidationPhase "integrity_check_pre_upgrade" (verificationPhaseBudget cfg "integrity_check" sourceSize)
                  (checkRestoredIntegrity preRestoredPath)
      end
  end.
Definition restorePreUpgradeTXID (configPath restoredPath sourcePath : string) (sourceSize : Z) : V (option verr) :=
  let preRestoredPath := restoredPath +:+ ".pre" in
  do! err := removeRestoredArtifacts preRestoredPath in
  match err with
  | Some e => ret (Some (errText ("clean pre-upgrade restore artifacts: " +:+ e)))
  | None =>
      do! err := preUpgradePhases configPath preRestoredPath sourcePath sourceSize in
      do! cleaned := removeRestoredArtifacts preRestoredPath in
      ret err
  end.

Definition pass (summary : string) : V () :=
  setResult (fun r => r <| vr_Status := "passed" |> <| vr_Passed := true |> <| vr_Summary := summary |>) ;;! finalizeResult.

Definition preUpgradeBody : V () :=
  setValidation (fun _ => []) ;;!
  setEvidence (fun _ => "") ;;!
  do! config := ask (fun h => en_config env h (vc_DBPath cfg)) (fun r => VConfig (isOkR r)) in
  match config with
  | Err e => failResult ("pre-upgrade restore config: " +:+ ge_text e)
  | Ok configPath =>
      do! sourceSize := sourceSizeOf (vc_DBPath cfg) in
      do! err := restorePreUpgradeTXID configPath (vc_DBPath cfg +:+ ".restored") (vc_DBPath cfg) sourceSize in
      do! evidence := getEvidence in
      setValidation (alterLast (fun step => step <| st_OutputTail ::= fun tail => tail +:+ nl +:+ evidence |>)) ;;!
      do! steps := getValidation in
      setResult (fun r => r <| vr_Steps ::= fun l => l ++ steps |>) ;;!
      match err with
      | Some e => failValidationResult e
      | None => pass ("pre-upgrade txid " +:+ hex16 (vc_upgradePreTXID cfg) +:+ " restored with the current build and passed integrity check")
      end ;;!
      tell VRemoveConfig
  end.
Definition runPreUpgradeRestore : V verificationResult :=
  do! start := clock in
  do! r := withResult ((newResult start preUpgradeRestoreCheckType restoreModeTXID) <| vr_SyncTXID := vc_upgradePreTXID cfg |>
                         <| vr_BoundaryTXID := vc_upgradePreTXID cfg |>) preUpgradeBody in
  tell (VOutcome (vr_Status r)) ;;! ret r.

(** ** The cycle *)

Definition extraChecks : V () :=
  do! result := getResult in
  do! boundary := getBoundary in
  match boundary with
  | None => ret ()
  | Some b =>
      when (negb (vr_BoundaryTXID result =? 0)%Z && (vb_txid b =? vr_BoundaryTXID result)%Z) (
        when (negb (vc_upgradePreTXID cfg =? 0)%Z) (do! r := runPreUpgradeRestore in addExtra r) ;;!
        when (vc_FollowCheck cfg) (do! r := ask (en_follow env) (fun _ => VFollow) in addExtra r) ;;!
        when (vc_vfsRead cfg) (do! r := ask (en_vfs env) (fun _ => VVFS) in addExtra r))
  end.

(** A failure of the cycle outside the validation: the error it returns. *)
Definition failCycle (what : string) (e : verr) : V (option verr) :=
  failResult (what +:+ ": " +:+ ge_text (ve_err e)) ;;! logResult false ;;! ret (Some (wrapText (what +:+ ": ") e)).

(** From the end of the pause on: sync, validation, verdict. *)
Definition syncAndValidate (fuel : nat) : V (option verr) :=
  do! err := recordVerificationStep "sync" (waitForSyncDB fuel (vc_DBPath cfg)) in
  match err with
  | Some e => failCycle "wait for sync" e
  | None =>
      do! validated := recordVerificationStep "restore_validate" (validateDBResult fuel (vc_DBPath cfg) (vc_DBPath cfg +:+ ".restored")) in
      do! evidence := getEvidence in
      do! steps := getValidation in
      setResult (fun r => r <| vr_Steps ::= fun l =>
        alterLast (fun step => step <| st_OutputTail ::= fun tail => tail +:+ nl +:+ evidence |>) l ++ steps |>) ;;!
      extraChecks ;;!
      match validated with
      | Err e => failValidationResult e ;;! logResult false ;;! ret (Some e)
      | Ok true => pass "verification passed" ;;! logResult true ;;! ret None
      | Ok false => failResult "validation returned false" ;;! logResult false ;;! ret None
      end
  end.

(** The retention step of a bounded load profile. *)
Definition loadRetention : V (option verr) :=
  if negb (vc_boundedLoadProfile cfg) then ret None
  else
    setValidation (fun _ => []) ;;!
    do! size := fileSizeOf (vc_DBPath cfg) in
    do! stats := runValidationPhase "load_retention" (phaseBudget (vc_LogicalTimeout cfg) size)
                   (do! stats := ask (en_retention env) (fun _ => VRetention) in ret (plain <$> fst stats, snd stats)) in
    setValidation (alterLast (fun step => step <| st_OutputTail := snd stats |>)) ;;!
    do! steps := getValidation in
    setResult (fun r => r <| vr_Steps ::= fun l => l ++ steps |>) ;;!
    match fst stats with Some e => failValidationResult e ;;! ret (Some e) | None => ret None end.

Definition pausedCycle (fuel : nat) : V (option verr) :=
  do! ended := sleep (2 * Second) in
  match ended with
  | Some e => failResult (ge_text e) ;;! ret (Some (plain e))
  | None =>
      do! checkpointed := recordVerificationStep "checkpoint" (
        do! r := checkpointDB true in
        setResult (fun res => res <| vr_CheckpointResidualBusy := match r with Ok b => b | Err _ => false end |>) ;;! ret r) in
      match checkpointed with
      | Err e => failCycle "checkpoint" e
      | Ok _ =>
          do! err := loadRetention in
          match err with Some e => ret (Some e) | None => syncAndValidate fuel end
      end
  end.

Definition cleanedCycle (fuel : nat) : V (option verr) :=
  do! err := recordVerificationStep "pause_load" pauseLoad in
  match err with
  | Some e => failCycle "pause load" e
  | None =>
      do! err := pausedCycle fuel in
      do! resumed := recordVerificationStep "resume_load" (resumeLoad ;;! ret (A := option verr) None) in
      ret err
  end.

(** [RunCycle] of a single database; [None] for a clock before 1970. *)
Definition runSingleCycle (fuel : nat) : V (option verr) :=
  do! start := clock in
  do! now := clock in
  match restoreModeAt (vc_VerifyRestoreRotation cfg) (vc_VerifyInterval cfg) (vc_ProfileName cfg) now with
  | None => outOfFuel
  | Some mode =>
      setResult (fun _ => (newResult start (vc_VerifyType cfg) mode)
        <| vr_RestoreModeFallback := if vc_VerifyRestoreRotation cfg then "" else restoreModeFallbackRotationDisabled |>) ;;!
      tell VStart ;;!
      let restoredPath := vc_DBPath cfg +:+ ".restored" in
      do! err := recordVerificationStep "clean_restored" (
        do! e := removeRestoredArtifacts restoredPath in ret (errText <$> e)) in
      do! returned := (match err with
                       | Some e => failCycle "clean restored artifacts" e
                       | None =>
                           do! returned := cleanedCycle fuel in
                           do! cleaned := removeRestoredArtifacts restoredPath in
                           ret returned
                       end) in
      do! result := getResult in
      tell (VOutcome (vr_Status result)) ;;! ret returned
  end.

(** ** Many databases *)

Record durationStats := mkStats { ds_count : Z; ds_total : duration; ds_max : duration }.
Definition durationStats_zero : durationStats := mkStats 0 0 0.
Definition addDuration (d : duration) (s : durationStats) : durationStats :=
  mkStats (ds_count s + 1) (int64 (ds_total s + d)) (Z.max (ds_max s) d).
Definition meanDuration (s : durationStats) : duration := if (ds_count s =? 0)%Z then 0%Z else Z.quot (ds_total s) (ds_count s).

(** The sync and restore durations of the databases of a batch. *)
Definition manyDBBatchStats (steps : list verificationStep) : durationStats * durationStats :=
  fold_left (fun '(sync, restore) step =>
    let d := int64 (st_DurationMS step * Millisecond) in
    if HasPrefix (st_Name step) "sync " then (addDuration d sync, restore)
    else if HasPrefix (st_Name step) "restore_validate " then (sync, addDuration d restore) else (sync, restore))
    steps (durationStats_zero, durationStats_zero).
Definition statsText (stats : durationStats * durationStats) : string :=
  let '(sync, restore) := stats in
  "sync_mean_seconds=" +:+ Format1f (Seconds (meanDuration sync)) +:+ " sync_max_seconds=" +:+ Format1f (Seconds (ds_max sync)) +:+
  " restore_mean_seconds=" +:+ Format1f (Seconds (meanDuration restore)) +:+ " restore_max_seconds=" +:+ Format1f (Seconds (ds_max restore)).

Record manyDBBatch := mkBatch {
  mb_targets : Z;
  mb_truncated : Z;
  mb_coverage : manyDBCoverage;
  mb_stats : durationStats * durationStats
}.
Definition batchOutcome (b : manyDBBatch) : string * string :=
  let c := mb_coverage b in
  if (0 <? mc_written c)%Z
  then ("pending", "verified batch of " +:+ fmt_int (mb_targets b) +:+ " databases; coverage pending for " +:+ fmt_int (mc_written c) +:+
         " written databases (" +:+ fmt_int (mc_pending c) +:+ " pending in all, oldest " +:+ Format3f (mc_oldestAge c) +:+ "s); " +:+
         statsText (mb_stats b))
  else ("passed", "verification passed (" +:+ fmt_int (mb_targets b) +:+ " databases verified, " +:+ fmt_int (mc_written c) +:+
         " written databases still pending; seeded backlog " +:+ fmt_int (mc_pending c) +:+ ", oldest " +:+ Format3f (mc_oldestAge c) +:+
         "s); " +:+ statsText (mb_stats b)).
Definition batchString (b : manyDBBatch) : string :=
  let c := mb_coverage b in
  "targets=" +:+ fmt_int (mb_targets b) +:+ " truncated=" +:+ fmt_int (mb_truncated b) +:+ " pending_databases=" +:+ fmt_int (mc_pending c) +:+
  " written_pending=" +:+ fmt_int (mc_written c) +:+ " oldest_pending_age_seconds=" +:+ Format3f (mc_oldestAge c) +:+ " " +:+ statsText (mb_stats b).

(** The changed databases that exist, each once, up to the limit; and how many there were. *)
Definition selectManyDBVerificationTargets (changed active : list string) : list string * Z :=
  let changed := match changed with [] => active | _ => changed end in
  let targets := fold_left (fun targets path =>
    if negb (slices_Contains (vc_manyDBPaths cfg) path) || slices_Contains targets path then targets else targets ++ [path]) changed [] in
  let limit := vc_manyDBChangedLimit cfg in
  (if (0 <? limit)%Z && (limit <? Z.of_nat (length targets))%Z then firstn (Z.to_nat limit) targets else targets, Z.of_nat (length targets)).

(** Fails the cycle for a database. *)
Definition failTarget (what : string) (e : verr) : V (option (option verr)) :=
  failResult (what +:+ ": " +:+ ge_text (ve_err e)) ;;! logResult false ;;! ret (Some (Some (wrapText (what +:+ ": ") e))).

Definition validateTarget (fuel : nat) (pending : list string) (dbPath name : string) : V (option (option verr)) :=
  let restoredPath := dbPath +:+ ".restored" in
  do! validated := recordVerificationStep ("restore_validate " +:+ name) (validateDBResult fuel dbPath restoredPath) in
  do! evidence := getEvidence in
  do! steps := getValidation in
  setResult (fun r => r <| vr_Steps ::= fun l =>
    alterLast (fun step => step <| st_OutputTail ::= fun tail => tail +:+ nl +:+ evidence |>) l ++
    map (fun step => step <| st_Name ::= fun n => n +:+ " " +:+ name |>) steps |>) ;;!
  match validated with
  | Err e => failValidationResult (wrapText ("restore validate " +:+ name +:+ ": ") e) ;;! logResult false ;;! ret (Some (Some e))
  | Ok false => failResult ("validation returned false for " +:+ name) ;;! logResult false ;;! ret (Some None)
  | Ok true =>
      do! err := removeRestoredArtifacts restoredPath in
      match err with
      | Some e => failResult ("clean restored artifacts for " +:+ name +:+ ": " +:+ e) ;;! logResult false ;;! ret (Some (Some (errText e)))
      | None => when (slices_Contains pending dbPath) (tell (VAck dbPath)) ;;! ret None
      end
  end.

(** One database of the batch: [None] to go on, or what the cycle returns.  The
    deferred cleanup is registered once the artifacts are gone. *)
Definition verifyTarget (fuel : nat) (pending : list string) (dbPath : string) : V (option (option verr) * bool) :=
  let name := pathBase dbPath in
  tell (VAttempt dbPath) ;;!
  do! err := recordVerificationStep ("clean_restored " +:+ name) (
    do! e := removeRestoredArtifacts (dbPath +:+ ".restored") in ret (errText <$> e)) in
  match err with
  | Some e => do! r := failTarget ("clean restored artifacts for " +:+ name) e in ret (r, false)
  | None =>
      do! checkpointed := recordVerificationStep ("checkpoint " +:+ name) (
        do! r := checkpointDB false in
        setResult (fun res => res <| vr_CheckpointResidualBusy ::= fun b => b || match r with Ok busy => busy | Err _ => false end |>) ;;! ret r) in
      match checkpointed with
      | Err e => do! r := failTarget ("checkpoint " +:+ name) e in ret (r, true)
      | Ok _ =>
          do! err := recordVerificationStep ("sync " +:+ name) (waitForSyncDB fuel dbPath) in
          match err with
          | Some e => do! r := failTarget ("wait for sync " +:+ name) e in ret (r, true)
          | None => do! r := validateTarget fuel pending dbPath name in ret (r, true)
          end
      end
  end.

(** The databases in turn; the restored paths whose cleanup is deferred, newest first. *)
Fixpoint verifyTargets (fuel : nat) (pending targets cleanups : list string) : V (option (option verr) * list string) :=
  match targets with
  | [] => ret (None, cleanups)
  | dbPath :: targets =>
      do! r := verifyTarget fuel pending dbPath in
      let cleanups := if snd r then (dbPath +:+ ".restored") :: cleanups else cleanups in
      match fst r with Some returned => ret (Some returned, cleanups) | None => verifyTargets fuel pending targets cleanups end
  end.
Fixpoint cleanAll (paths : list string) : V () :=
  match paths with [] => ret () | path :: paths => do! cleaned := removeRestoredArtifacts path in cleanAll paths end.

Definition coverage : V manyDBCoverage := ask (en_coverage env) (fun _ => VCoverage).
Definition concludeBatch (targets : list string) (total : Z) : V (option verr) :=
  do! left_ := coverage in
  do! result := getResult in
  let batch := mkBatch (Z.of_nat (length targets)) (total - Z.of_nat (length targets)) left_ (manyDBBatchStats (vr_Steps result)) in
  let '(status, summary) := batchOutcome batch in
  setResult (fun r => r <| vr_Status := status |> <| vr_Summary := summary |> <| vr_Passed := status =s "passed" |>) ;;!
  finalizeResult ;;! when (status =s "passed") (logResult true) ;;! ret None.

Definition batchBody (fuel : nat) (pending targets : list string) (total : Z) : V (option verr) :=
  match targets with
  | [] =>
      failResult "many database verification target set was empty" ;;! logResult false ;;!
      ret (Some (errText "many database verification target set was empty"))
  | _ =>
      when (Z.of_nat (length targets) <? total)%Z (tell (VTruncated total (Z.of_nat (length targets)) (vc_manyDBChangedLimit cfg))) ;;!
      do! r := verifyTargets fuel pending targets [] in
      do! returned := (match fst r with Some returned => ret returned | None => concludeBatch targets total end) in
      cleanAll (snd r) ;;! ret returned
  end.
(** The deferred step that reports what is left to verify. *)
Definition pendingCoverage (targets total : Z) : V () :=
  do! left_ := coverage in
  do! result := getResult in
  let batch := mkBatch targets (total - targets) left_ (manyDBBatchStats (vr_Steps result)) in
  do! recorded := recordVerificationStep "pending_coverage" (ret (A := option verr) None) in
  setResult (fun r => r <| vr_Steps ::= alterLast (fun step => step <| st_OutputTail := batchString batch |>) |>).

Definition pausedBatch (fuel : nat) : V (option verr) :=
  do! ended := sleep (2 * Second) in
  match ended with
  | Some e => failResult (ge_text e) ;;! ret (Some (plain e))
  | None =>
      do! pending := ask (en_pending env) (fun _ => VPending) in
      do! active := ask (en_activePaths env) (fun _ => VPending) in
      let '(targets, total) := selectManyDBVerificationTargets pending active in
      do! returned := batchBody fuel pending targets total in
      (match targets with [] => pendingCoverage 0 0 | _ => pendingCoverage (Z.of_nat (length targets)) total end) ;;! ret returned
  end.

Definition runManyDBCycle (fuel : nat) : V (option verr) :=
  do! start := clock in
  setResult (fun _ => newResult start (vc_VerifyType cfg) restoreModeTXID) ;;!
  tell VStart ;;!
  do! err := recordVerificationStep "pause_load" pauseLoad in
  do! returned := (match err with
                   | Some e => failCycle "pause load" e
                   | None =>
                       do! returned := pausedBatch fuel in
                       do! resumed := recordVerificationStep "resume_load" (resumeLoad ;;! ret (A := option verr) None) in
                       ret returned
                   end) in
  do! result := getResult in
  tell (VOutcome (vr_Status result)) ;;! ret returned.

Definition RunCycle (fuel : nat) : V (option verr) :=
  if vc_ManyDBEnabled cfg then runManyDBCycle fuel else runSingleCycle fuel.
End Cycle.
