(* ===== verification/VerifierProofs.v ===== *)
(** Theorems about a verification cycle ([Verifier]).

    [spec P m Q] is partial correctness of a step against every environment; a step
    is quiet when it keeps every property of the history that only the pauses, the
    resumes and the reservation can change.  On top of them: the load is running
    again when a cycle ends; a database counts as verified only after the chain of
    sync, boundary, restore and comparison; the status of a failure; the end of the
    waiting loops; and the bounds of the deadlines. *)
From S2P Require Import Prelude GoStrings GoTime Model Classification LtxCoverage NoProgress WorkerErrors LitestreamConfig RestoreOutput RestorePlan Verifier.

(** * Specifications

    [spec P m Q]: from a state satisfying [P], if [m] returns then it returns [a] in a
    state satisfying [Q a]. *)

Definition spec {A} (P : vstate -> Prop) (m : V A) (Q : A -> vstate -> Prop) : Prop :=
  forall s, P s -> match m s with Some (a, s') => Q a s' | None => True end.

Lemma hoare_ret {A} (a : A) (P : vstate -> Prop) (Q : A -> vstate -> Prop) : (forall s, P s -> Q a s) -> spec P (ret a) Q.
Proof. intros H s Hs. by apply H. Qed.
Lemma hoare_bind {A B} (m : V A) (k : A -> V B) P R Q : spec P m R -> (forall a, spec (R a) (k a) Q) -> spec P (bind m k) Q.
Proof. intros Hm Hk s Hs. unfold bind. specialize (Hm s Hs). destruct (m s) as [[a s']|]; [|done]. by apply Hk. Qed.
Lemma hoare_fuel {A} P (Q : A -> vstate -> Prop) : spec P outOfFuel Q.
Proof. by intros s _. Qed.
Lemma hoare_conseq {A} (m : V A) (P P' : vstate -> Prop) (Q Q' : A -> vstate -> Prop) :
  spec P m Q -> (forall s, P' s -> P s) -> (forall a s, Q a s -> Q' a s) -> spec P' m Q'.
Proof. intros Hm Hp Hq s Hs. specialize (Hm s (Hp s Hs)). destruct (m s) as [[a s']|]; [|done]. by apply Hq. Qed.
Lemma hoare_ask {X} (answer : vhist -> X) event (P : vstate -> Prop) (Q : X -> vstate -> Prop) :
  (forall s, P s -> let x := answer (vs_hist s) in Q x (s <| vs_hist ::= cons (event x) |>)) -> spec P (ask answer event) Q.
Proof. intros H s Hs. by apply H. Qed.

Definition keeps (I : vstate -> Prop) {A} (m : V A) : Prop := spec I m (fun _ => I).

(** ** Quiet steps *)

(** A call that neither pauses nor resumes the load nor touches the reservation. *)
Definition calmEvent (e : vcall) : bool :=
  match e with VPause _ _ | VResume _ | VPausedFlag _ | VBegin _ | VRollback _ | VCloseReservation => false | _ => true end.

(** What a cycle decides and what it decides it on. *)
Definition key (r : verificationResult) : string * bool * Z * Z * string :=
  (vr_Status r, vr_Passed r, vr_SyncTXID r, vr_BoundaryTXID r, vr_RestoreMode r).

(** Kept by every quiet step. *)
Class Steady (I : vstate -> Prop) := {
  st_event : forall s e, calmEvent e = true -> I s -> I (s <| vs_hist ::= cons e |>);
  st_res : forall s f, (forall r, key (f r) = key r) -> I s -> I (s <| vs_res ::= f |>);
  st_notes : forall s e v b x, I s -> I (s <| vs_evidence := e |> <| vs_validation := v |> <| vs_boundary := b |> <| vs_extra := x |>)
}.

(** Kept by the output of a restore too. *)
Class Blind (I : vstate -> Prop) := blind : forall s o, I s -> I (s <| vs_output := o |>).
(** Kept by any change of the result too. *)
Class AnyResult (I : vstate -> Prop) := any_result : forall s r, I s -> I (s <| vs_res := r |>).

Section Keeps.
Context (I : vstate -> Prop) `{HI : !Steady I}.

Lemma keep_bind {A B} (m : V A) (k : A -> V B) : keeps I m -> (forall a, keeps I (k a)) -> keeps I (bind m k).
Proof. intros. by eapply hoare_bind. Qed.
Lemma keep_ret {A} (a : A) : keeps I (ret a).
Proof. by apply hoare_ret. Qed.
Lemma keep_ask {X} (answer : vhist -> X) event : (forall x, calmEvent (event x) = true) -> keeps I (ask answer event).
Proof. intros He. apply hoare_ask. intros s Hs. by apply st_event. Qed.
Lemma keeps_tell e : calmEvent e = true -> keeps I (tell e).
Proof. intros He. by apply keep_ask. Qed.
Lemma keeps_setResult f : (forall r, key (f r) = key r) -> keeps I (setResult f).
Proof. intros Hf s Hs. by apply st_res. Qed.
Lemma keeps_evidence f : keeps I (setEvidence f).
Proof. intros s Hs. pose proof (st_notes s (f (vs_evidence s)) (vs_validation s) (vs_boundary s) (vs_extra s) Hs) as H. by destruct s. Qed.
Lemma keeps_validation f : keeps I (setValidation f).
Proof. intros s Hs. pose proof (st_notes s (vs_evidence s) (f (vs_validation s)) (vs_boundary s) (vs_extra s) Hs) as H. by destruct s. Qed.
Lemma keeps_boundary b : keeps I (setBoundary b).
Proof. intros s Hs. pose proof (st_notes s (vs_evidence s) (vs_validation s) (Some b) (vs_extra s) Hs) as H. by destruct s. Qed.
Lemma keeps_extra r : keeps I (addExtra r).
Proof. intros s Hs. pose proof (st_notes s (vs_evidence s) (vs_validation s) (vs_boundary s) (vs_extra s ++ [r]) Hs) as H. by destruct s. Qed.
Lemma keeps_get {A} (f : vstate -> A) : keeps I (fun s => Some (f s, s)).
Proof. by intros s Hs. Qed.
Lemma keep_fuel {A} : keeps I (outOfFuel (A := A)).
Proof. apply hoare_fuel. Qed.
Lemma keeps_when b m : keeps I m -> keeps I (when b m).
Proof. intros Hm. destruct b; [done|apply keep_ret]. Qed.
End Keeps.

Create HintDb quiet.
(** Walks through a quiet step. *)
Ltac quiet_step :=
  match goal with
  | |- keeps _ (bind _ _) => apply keep_bind; [|intros]
  | |- keeps _ (ret _) => apply keep_ret
  | |- keeps _ outOfFuel => apply keep_fuel
  | |- keeps _ (ask _ _) => refine (keep_ask _ _ _ _); intros; reflexivity
  | |- keeps _ (tell _) => refine (keeps_tell _ _ _); reflexivity
  | |- keeps _ (setResult _) => refine (keeps_setResult _ _ _); intros; reflexivity
  | |- keeps _ (setEvidence _) => refine (keeps_evidence _ _)
  | |- keeps _ (note _) => refine (keeps_evidence _ _)
  | |- keeps _ (setValidation _) => refine (keeps_validation _ _)
  | |- keeps _ (setBoundary _) => refine (keeps_boundary _ _)
  | |- keeps _ (addExtra _) => refine (keeps_extra _ _)
  | |- keeps _ getResult => refine (keeps_get _ _)
  | |- keeps _ getEvidence => refine (keeps_get _ _)
  | |- keeps _ getValidation => refine (keeps_get _ _)
  | |- keeps _ getBoundary => refine (keeps_get _ _)
  | |- keeps _ getOutput => refine (keeps_get _ _)
  | |- keeps _ (when _ _) => apply keeps_when
  | |- keeps _ (match ?x with _ => _ end) => destruct x
  | |- keeps _ (let '(_, _) := ?x in _) => destruct x
  | |- keeps _ _ => solve [auto with quiet]
  end.
Ltac quiet := repeat (cbv zeta; quiet_step).

Section Quiet.
Context (env : environment) (cfg : verifierConfig) (I : vstate -> Prop) `{HI : !Steady I}.

Lemma readClock_quiet : keeps I (clock env).
Proof. unfold clock. quiet. Qed.
Lemma ctxErr_quiet : keeps I (ctxErr env).
Proof. unfold ctxErr. quiet. Qed.
Lemma phaseErr_quiet : keeps I (phaseErr env).
Proof. unfold phaseErr. quiet. Qed.
Lemma sleep_quiet d : keeps I (sleep env d).
Proof. unfold sleep. quiet. Qed.
Lemma fileSizeOf_quiet p : keeps I (fileSizeOf env p).
Proof. unfold fileSizeOf. quiet. Qed.
Lemma clean_quiet p : keeps I (removeRestoredArtifacts env p).
Proof. unfold removeRestoredArtifacts. quiet. Qed.
Lemma log_quiet b : keeps I (logResult b).
Proof. unfold logResult. quiet. Qed.
Lemma diagnose_quiet : keeps I (diagnose env).
Proof. unfold diagnose. quiet. Qed.
Hint Resolve readClock_quiet ctxErr_quiet phaseErr_quiet sleep_quiet fileSizeOf_quiet clean_quiet log_quiet diagnose_quiet : quiet.

Lemma timedStep_keeps {A} `{Fallible A} name (fn : V A) : keeps I fn -> keeps I (timedStep env name fn).
Proof. intros Hf. unfold timedStep. quiet. Qed.
Lemma record_keeps {A} `{Fallible A} name (fn : V A) : keeps I fn -> keeps I (recordVerificationStep env name fn).
Proof. intros Hf. unfold recordVerificationStep. apply keep_bind; [by apply timedStep_keeps|]. intros; quiet. Qed.
Lemma phase_keeps {A} `{Fallible A} name budget (fn : V A) : keeps I fn -> keeps I (runValidationPhase env name budget fn).
Proof.
  intros Hf. unfold runValidationPhase. quiet. apply timedStep_keeps. unfold phaseOutcome. quiet.
Qed.

Lemma addSizes_quiet paths : keeps I (addSizes env paths).
Proof. induction paths as [|p paths IH]; cbn [addSizes]; quiet. Qed.
Lemma finalize_quiet : keeps I (finalizeResult env cfg).
Proof. unfold finalizeResult. pose proof addSizes_quiet. quiet. Qed.
Hint Resolve finalize_quiet : quiet.
Lemma failSync_quiet e : keeps I (failSync env e).
Proof. unfold failSync, captureSyncFailureDiagnostics. quiet. Qed.
Lemma lagError_quiet a b : keeps I (syncLagNotResolvedError env a b).
Proof. unfold syncLagNotResolvedError. quiet. Qed.
Lemma request_quiet p b : keeps I (requestLitestreamSync env p b).
Proof. unfold requestLitestreamSync. quiet. Qed.
Lemma readRestored_quiet n p : keeps I (readRestoredLogicalSnapshot env n p).
Proof. induction n as [|n IH]; cbn [readRestoredLogicalSnapshot]; quiet. Qed.
Hint Resolve readRestored_quiet : quiet.
Lemma compare_quiet a p : keeps I (compareRestoredLogical env cfg a p).
Proof. unfold compareRestoredLogical. quiet. Qed.
Lemma metadata_quiet a b c d : keeps I (validationStepMetadata env cfg a b c d).
Proof. unfold validationStepMetadata. quiet. Qed.
Lemma lift_quiet m : keeps I m -> keeps I (liftErr m).
Proof. intros Hm. unfold liftErr. quiet. Qed.
Hint Resolve compare_quiet metadata_quiet : quiet.
Lemma capacity_quiet a b : keeps I (checkCapacity env a b).
Proof. unfold checkCapacity. apply lift_quiet. quiet. Qed.
Lemma integrity_quiet p : keeps I (checkRestoredIntegrity env p).
Proof. unfold checkRestoredIntegrity. apply lift_quiet. quiet. Qed.
Lemma sourceSize_quiet p : keeps I (sourceSizeOf env p).
Proof. unfold sourceSizeOf. quiet. Qed.
Lemma markerMode_quiet mode marker : keeps I (markerMode env mode marker).
Proof. unfold markerMode. quiet. Qed.
Lemma targetMode_quiet mode p t : keeps I (targetMode env mode p t).
Proof. unfold targetMode. quiet. Qed.
Hint Resolve capacity_quiet integrity_quiet sourceSize_quiet markerMode_quiet targetMode_quiet : quiet.
Lemma judge_quiet mode marker b p size : keeps I (judgeRestored env cfg mode marker b p size).
Proof. unfold judgeRestored. repeat (quiet; try (apply phase_keeps)). Qed.
Hint Resolve judge_quiet : quiet.

Section Blind.
Context `{HB : !Blind I}.
Lemma setOutput_quiet o : keeps I (setOutput o).
Proof. intros s Hs. by apply blind. Qed.
Hint Resolve setOutput_quiet : quiet.
Lemma runRestore_quiet args : keeps I (runRestore env args).
Proof. unfold runRestore. quiet. Qed.
Hint Resolve runRestore_quiet : quiet.
Lemma restoreAndJudge_quiet mode c marker b t p db size : keeps I (restoreAndJudge env cfg mode c marker b t p db size).
Proof. unfold restoreAndJudge, restoreCommand. repeat (quiet; try (apply phase_keeps)). Qed.
Context `{HA : !AnyResult I}.
Lemma withResult_quiet r m : keeps I m -> keeps I (withResult r m).
Proof.
  intros Hm s Hs. unfold withResult. specialize (Hm (s <| vs_res := r |>) (any_result s r Hs)).
  destruct (m _) as [[a s']|]; [|done]. by apply any_result.
Qed.
End Blind.

Context `{HA : !AnyResult I}.
Lemma any_setResult f : keeps I (setResult f).
Proof. intros s Hs. by apply any_result. Qed.
Hint Resolve any_setResult : quiet.
Lemma fail_quiet m : keeps I (failResult env cfg m).
Proof. unfold failResult. quiet. Qed.
Hint Resolve fail_quiet : quiet.
Lemma failValidation_quiet e : keeps I (failValidationResult env cfg e).
Proof. unfold failValidationResult. quiet. Qed.
Lemma pass_quiet text : keeps I (pass env cfg text).
Proof. unfold pass. quiet. Qed.
Hint Resolve failValidation_quiet pass_quiet : quiet.
Lemma failCycle_quiet what e : keeps I (failCycle env cfg what e).
Proof. unfold failCycle. quiet. Qed.
End Quiet.
#[export] Hint Resolve readClock_quiet ctxErr_quiet phaseErr_quiet sleep_quiet fileSizeOf_quiet clean_quiet log_quiet diagnose_quiet
  finalize_quiet any_setResult fail_quiet failValidation_quiet pass_quiet failCycle_quiet failSync_quiet lagError_quiet request_quiet readRestored_quiet
  compare_quiet metadata_quiet capacity_quiet integrity_quiet sourceSize_quiet markerMode_quiet targetMode_quiet judge_quiet setOutput_quiet
  runRestore_quiet restoreAndJudge_quiet : quiet.

(** * The load *)

(** Whether a load generator is (or may be) paused after a history: [Pause] may have
    paused it even when it failed. *)
Fixpoint pausedIn (i : nat) (h : vhist) : bool :=
  match h with
  | [] => false
  | VPause j _ :: h => if i =? j then true else pausedIn i h
  | VResume j :: h => if i =? j then false else pausedIn i h
  | _ :: h => pausedIn i h
  end.
(** The flag that explains a busy database by the pause. *)
Fixpoint flagIn (h : vhist) : bool := match h with [] => false | VPausedFlag b :: _ => b | _ :: h => flagIn h end.

(** The load runs. *)
Definition running (s : vstate) : Prop := (forall i, pausedIn i (vs_hist s) = false) /\ flagIn (vs_hist s) = false.
(** Only the verifier's generators are paused. *)
Definition contained (cfg : verifierConfig) (s : vstate) : Prop :=
  (forall i, vc_pausers cfg <= i -> pausedIn i (vs_hist s) = false) /\ (vc_pausers cfg = 0 -> flagIn (vs_hist s) = false).

Lemma calm_paused i e h : calmEvent e = true -> pausedIn i (e :: h) = pausedIn i h /\ flagIn (e :: h) = flagIn h.
Proof. by destruct e. Qed.
#[export] Instance running_any : AnyResult running.
Proof. by intros s r. Qed.
#[export] Instance running_steady : Steady running.
Proof.
  split; [|done|done]. intros s e He [H1 H2]. split; [intros i|]; simpl vs_hist; [destruct (calm_paused i e (vs_hist s) He) as [-> _]; auto|].
  by destruct (calm_paused 0 e (vs_hist s) He) as [_ ->].
Qed.

(** Kept by every call but a pause of a generator the verifier does not have. *)
Definition ownEvent (cfg : verifierConfig) (e : vcall) : Prop :=
  match e with VPause i _ => i < vc_pausers cfg | VPausedFlag _ => vc_pausers cfg <> 0 | _ => True end.
Class Open (cfg : verifierConfig) (I : vstate -> Prop) := {
  op_steady :: Steady I;
  op_blind :: Blind I;
  op_event : forall s e, ownEvent cfg e -> I s -> I (s <| vs_hist ::= cons e |>)
}.
Lemma open_history cfg (H : vhist -> Prop) : (forall e h, ownEvent cfg e -> H h -> H (e :: h)) -> Open cfg (fun s => H (vs_hist s)).
Proof.
  intros HH. split; [split|by intros s o|intros s e; apply HH]; [|by intros s f _|by intros s e v b x]. intros s e He. apply HH. by destruct e.
Qed.
#[export] Instance key_open cfg (K : string * bool * Z * Z * string -> Prop) : Open cfg (fun s => K (key (vs_res s))).
Proof. split; [split|by intros s o|by intros s e _]; [by intros s e _| |by intros s e v b x]. intros s f Hf. simpl. by rewrite Hf. Qed.
(** Kept by any change of the result too: by every step of a cycle. *)
Class Tolerant (cfg : verifierConfig) (I : vstate -> Prop) := { tl_open :: Open cfg I; tl_any :: AnyResult I }.
Lemma tolerant_history cfg (H : vhist -> Prop) : (forall e h, ownEvent cfg e -> H h -> H (e :: h)) -> Tolerant cfg (fun s => H (vs_hist s)).
Proof. intros HH. split; [by apply open_history|by intros s r]. Qed.
#[export] Instance contained_tolerant cfg : Tolerant cfg (contained cfg).
Proof.
  apply (tolerant_history cfg (fun h => (forall i, vc_pausers cfg <= i -> pausedIn i h = false) /\ (vc_pausers cfg = 0 -> flagIn h = false))).
  intros e h He [H1 H2]. split.
  - intros i Hi. specialize (H1 i Hi). destruct e; simpl in *; try done; destruct (Nat.eqb_spec i i0); try done; lia.
  - intros Hn. specialize (H2 Hn). by destruct e.
Qed.

Section Opened.
Context (cfg : verifierConfig) (I : vstate -> Prop) `{HI : !Open cfg I}.
Lemma open_ask {X} (answer : vhist -> X) event : (forall x, ownEvent cfg (event x)) -> keeps I (ask answer event).
Proof. intros He. apply hoare_ask. intros s Hs. by apply (op_event (cfg := cfg)). Qed.
Lemma open_tell e : ownEvent cfg e -> keeps I (tell e).
Proof. intros He. by apply open_ask. Qed.
End Opened.

#[export] Hint Extern 0 (Steady _) => (typeclasses eauto) : quiet.
#[export] Hint Extern 0 (AnyResult _) => (typeclasses eauto) : quiet.
#[export] Hint Extern 0 (Blind _) => (typeclasses eauto) : quiet.
Ltac open_step :=
  match goal with
  | |- keeps _ (ask _ _) => refine (open_ask _ _ _ _ _); intros; simpl; (exact Logic.I || lia)
  | |- keeps _ (tell _) => refine (open_tell _ _ _ _); simpl; (exact Logic.I || lia)
  | |- keeps _ (withResult _ _) => apply withResult_quiet; [apply _..|]
  | |- keeps _ (recordVerificationStep _ _ _) => apply record_keeps; [apply _|]
  | |- keeps _ (runValidationPhase _ _ _ _) => apply phase_keeps; [apply _|]
  | |- _ => quiet_step
  end.
Ltac tolerate := repeat (cbv zeta; open_step).

Section Whole.
Context (env : environment) (cfg : verifierConfig) (I : vstate -> Prop) `{HO : !Open cfg I}.

Lemma resumeDown_whole i : keeps I (resumeDown i).
Proof. induction i as [|i IH]; cbn [resumeDown]; tolerate. Qed.
Hint Resolve resumeDown_whole : quiet.
Lemma pauseFrom_whole n i : n + i <= vc_pausers cfg -> 0 < vc_pausers cfg -> keeps I (pauseFrom env cfg n i).
Proof. revert i. induction n as [|n IH]; intros i Hn Hp; cbn [pauseFrom]; tolerate. apply IH; lia. Qed.
Lemma pause_whole : keeps I (pauseLoad env cfg).
Proof. unfold pauseLoad. destruct (Nat.eqb_spec (vc_pausers cfg) 0); [tolerate|]. apply pauseFrom_whole; lia. Qed.
Lemma resumeFrom_whole n i : keeps I (resumeFrom n i).
Proof. revert i. induction n as [|n IH]; intros i; cbn [resumeFrom]; tolerate. Qed.
Hint Resolve pause_whole resumeFrom_whole : quiet.
Lemma resume_whole : keeps I (resumeLoad cfg).
Proof. unfold resumeLoad. destruct (Nat.eqb_spec (vc_pausers cfg) 0); tolerate. Qed.
Hint Resolve resume_whole : quiet.

Lemma checkpointLoop_whole n attempt b last : keeps I (checkpointLoop env cfg n attempt b last).
Proof. revert attempt last. induction n as [|n IH]; intros attempt last; cbn [checkpointLoop]; tolerate. Qed.
Hint Resolve checkpointLoop_whole : quiet.
Lemma checkpoint_whole b : keeps I (checkpointDB env cfg b).
Proof. unfold checkpointDB. tolerate. Qed.
Hint Resolve checkpoint_whole : quiet.
Lemma reserveLoop_whole fuel : keeps I (reserveLoop env fuel).
Proof. induction fuel as [|fuel IH]; cbn [reserveLoop]; tolerate. Qed.
Hint Resolve reserveLoop_whole : quiet.
Lemma acquireLoop_whole fuel n b : keeps I (acquireLoop env cfg fuel n b).
Proof. induction n as [|n IH]; cbn [acquireLoop]; tolerate. Qed.
Hint Resolve acquireLoop_whole : quiet.
Lemma capture_whole fuel p t : keeps I (captureVerificationBoundary env cfg fuel p t).
Proof.
  unfold captureVerificationBoundary, boundaryUnderReservation, acquireBoundaryReservation, releaseReservation, logicalValidation. tolerate.
Qed.
Hint Resolve capture_whole : quiet.

Lemma pendingCoverage_whole targets total : keeps I (pendingCoverage env targets total).
Proof. unfold pendingCoverage, coverage. tolerate. Qed.
Hint Resolve pendingCoverage_whole : quiet.
Lemma cleanAll_whole paths : keeps I (cleanAll env paths).
Proof. induction paths as [|p paths IH]; cbn [cleanAll]; tolerate. Qed.

Context `{HT : !AnyResult I}.
Lemma syncLoop_whole fuel p t d b : keeps I (syncLoop env cfg fuel p t d b).
Proof. revert b. induction fuel as [|fuel IH]; intros b; cbn [syncLoop]; tolerate. Qed.
Hint Resolve syncLoop_whole : quiet.
Lemma waitForSync_whole fuel p : keeps I (waitForSyncDB env cfg fuel p).
Proof. unfold waitForSyncDB. tolerate. Qed.
Hint Resolve waitForSync_whole : quiet.
Lemma validate_whole fuel a b : keeps I (validateDBResult env cfg fuel a b).
Proof.
  unfold validateDBResult. tolerate.
Qed.
Hint Resolve validate_whole : quiet.
Lemma preUpgrade_whole : keeps I (runPreUpgradeRestore env cfg).
Proof. unfold runPreUpgradeRestore, preUpgradeBody, restorePreUpgradeTXID, preUpgradePhases, preUpgradeCommand. tolerate. Qed.
Hint Resolve preUpgrade_whole : quiet.
Lemma extra_whole : keeps I (extraChecks env cfg).
Proof. unfold extraChecks. tolerate. Qed.
Hint Resolve extra_whole : quiet.
Lemma pausedCycle_whole fuel : keeps I (pausedCycle env cfg fuel).
Proof. unfold pausedCycle, loadRetention, syncAndValidate. tolerate. Qed.
Lemma verifyTarget_whole fuel pending p : keeps I (verifyTarget env cfg fuel pending p).
Proof. unfold verifyTarget, failTarget, validateTarget. tolerate. Qed.
Lemma verifyTargets_whole fuel pending targets cleanups : keeps I (verifyTargets env cfg fuel pending targets cleanups).
Proof.
  revert cleanups. induction targets as [|p targets IH]; intros cleanups; cbn [verifyTargets]; [tolerate|].
  apply keep_bind; [apply verifyTarget_whole|intros; tolerate].
Qed.
Hint Resolve cleanAll_whole verifyTargets_whole : quiet.
Lemma concludeBatch_whole targets total : keeps I (concludeBatch env cfg targets total).
Proof. unfold concludeBatch, coverage. tolerate. Qed.
Hint Resolve concludeBatch_whole : quiet.
Lemma pausedBatch_whole fuel : keeps I (pausedBatch env cfg fuel).
Proof. unfold pausedBatch, batchBody. tolerate. Qed.
End Whole.

(** ** The load is resumed *)

Lemma running_contained cfg s : running s -> contained cfg s.
Proof. intros [H1 H2]. by split. Qed.

Lemma resumeFrom_spec n i s : exists s', resumeFrom n i s = Some ((), s') /\ flagIn (vs_hist s') = flagIn (vs_hist s) /\
  forall j, pausedIn j (vs_hist s') = if (i <=? j) && (j <? i + n) then false else pausedIn j (vs_hist s).
Proof.
  revert i s. induction n as [|n IH]; intros i s; cbn [resumeFrom].
  { exists s. split_and!; [done|done|]. intros j. by replace ((i <=? j) && (j <? i + 0)) with false by (symmetry; apply not_true_iff_false; rewrite andb_true_iff, Nat.leb_le, Nat.ltb_lt; lia). }
  unfold bind, tell, ask. destruct (IH (S i) (s <| vs_hist ::= cons (VResume i) |>)) as (s' & -> & Hf & Hp). exists s'.
  split_and!; [done|by rewrite Hf|]. intros j. rewrite Hp. simpl.
  destruct (Nat.eqb_spec j i) as [->|Hne].
  - replace (i <? i + S n) with true by (symmetry; apply Nat.ltb_lt; lia). rewrite Nat.leb_refl. simpl. by destruct i, (_ && _).
  - replace ((i <=? j) && (j <? i + S n)) with ((S i <=? j) && (j <? S i + n)); [done|].
    apply eq_true_iff_eq. rewrite !andb_true_iff, !Nat.leb_le, !Nat.ltb_lt. lia.
Qed.

Lemma resumeLoad_runs cfg : spec (contained cfg) (resumeLoad cfg) (fun _ => running).
Proof.
  intros s [H1 H2]. unfold resumeLoad. destruct (Nat.eqb_spec (vc_pausers cfg) 0) as [E|E].
  { split; [intros i; apply H1; lia|auto]. }
  unfold bind. destruct (resumeFrom_spec (vc_pausers cfg) 0 s) as (s' & -> & _ & Hp). split; [|done]. intros j. simpl. rewrite Hp. simpl.
  destruct (Nat.ltb_spec j (vc_pausers cfg)); [done|]. by apply H1.
Qed.

Lemma resumeDown_spec i s : exists s', resumeDown i s = Some ((), s') /\ flagIn (vs_hist s') = flagIn (vs_hist s) /\
  forall j, pausedIn j (vs_hist s') = if j <=? i then false else pausedIn j (vs_hist s).
Proof.
  revert s. induction i as [|i IH]; intros s; cbn [resumeDown]; unfold bind, tell, ask.
  - eexists. split_and!; [reflexivity|done|]. intros [|j]; done.
  - destruct (IH (s <| vs_hist ::= cons (VResume (S i)) |>)) as (s' & -> & Hf & Hp). exists s'. split_and!; [done|by rewrite Hf|].
    intros j. rewrite Hp. simpl. destruct (Nat.leb_spec j i), (Nat.leb_spec j (S i)), (Nat.eqb_spec j (S i)); simpl; try done; try lia.
Qed.

Lemma pauseFrom_spec env cfg n i : n + i = vc_pausers cfg ->
  spec (fun s => (forall j, i <= j -> pausedIn j (vs_hist s) = false) /\ flagIn (vs_hist s) = false) (pauseFrom env cfg n i)
    (fun err s => if isOk err then True else running s).
Proof.
  revert i. induction n as [|n IH]; intros i Hn s [Hp Hf]; [done|]. cbn [pauseFrom]. unfold bind, ask.
  destruct (en_pause env (vs_hist s) i) as [e|].
  - set (s1 := s <| vs_hist ::= cons _ |>). destruct (resumeDown_spec i s1) as (s' & -> & Hf' & Hp'). simpl. split; [|by rewrite Hf'].
    intros j. rewrite Hp'. destruct (Nat.leb_spec j i); [done|]. simpl. destruct (Nat.eqb_spec j i); [lia|]. apply Hp. lia.
  - apply IH; [lia|]. split; [|done]. intros j Hj. simpl. destruct (Nat.eqb_spec j i); [lia|]. apply Hp. lia.
Qed.

Lemma pauseLoad_spec env cfg : spec running (pauseLoad env cfg) (fun err s => if isOk err then contained cfg s else running s).
Proof.
  intros s Hs. pose proof (pause_whole env cfg (contained cfg) s (running_contained cfg s Hs)) as Hc.
  assert (match pauseLoad env cfg s with Some (err, s') => if isOk err then True else running s' | None => True end) as Hr.
  { unfold pauseLoad. destruct (Nat.eqb_spec (vc_pausers cfg) 0) as [E|E]; [done|].
    apply (pauseFrom_spec env cfg); [lia|]. destruct Hs as [H1 H2]. by split. }
  destruct (pauseLoad env cfg s) as [[[e|] s']|]; done.
Qed.

(** A step that keeps the running load, recorded. *)
Lemma record_spec {A} `{Fallible A} env name (fn : V A) (P : vstate -> Prop) (Q : A -> vstate -> Prop) :
  Steady P -> (forall a, Steady (Q a)) -> spec P fn Q -> spec P (recordVerificationStep env name fn) Q.
Proof.
  intros HP HQ Hf. unfold recordVerificationStep, timedStep.
  eapply hoare_bind with (R := fun r => Q (fst r)).
  2: { intros r. eapply hoare_bind; [apply (keeps_setResult (Q (fst r))); done|]. intros ?. by apply hoare_ret. }
  eapply hoare_bind; [apply (readClock_quiet env P)|intros t]. eapply hoare_bind; [exact Hf|intros a].
  eapply hoare_bind; [apply (readClock_quiet env (Q a))|intros t']. by apply hoare_ret.
Qed.

#[export] Instance paused_or_running_steady {E} cfg (err : option E) : Steady (fun s => if isOk err then contained cfg s else running s).
Proof. destruct err; simpl; apply _. Qed.

Section Resumed.
Context (env : environment) (cfg : verifierConfig) (fuel : nat).

(** The body of a cycle after the pause, with the deferred resume. *)
Lemma resumed_after (err : option verr) (body : V (option verr)) :
  keeps (contained cfg) body ->
  spec (fun s => if isOk err then contained cfg s else running s)
    (match err with
     | Some e => failCycle env cfg "pause load" e
     | None =>
         do! returned := body in
         do! resumed := recordVerificationStep env "resume_load" (resumeLoad cfg ;;! ret (A := option verr) None) in
         ret returned
     end) (fun _ => running).
Proof.
  intros Hb. destruct err as [e|]; cbn [isOk].
  - apply failCycle_quiet; apply _.
  - eapply hoare_bind; [exact Hb|intros returned]. eapply hoare_bind with (R := fun _ => running); [|intros ?; by apply hoare_ret].
    apply record_spec; [apply _..|]. eapply hoare_bind; [apply resumeLoad_runs|]. intros ?. by apply hoare_ret.
Qed.

Lemma single_resumed : keeps running (runSingleCycle env cfg fuel).
Proof.
  unfold runSingleCycle. quiet.
  - apply record_keeps; [apply _|]. quiet.
  - unfold cleanedCycle. eapply hoare_bind; [apply record_spec; [apply _..|apply pauseLoad_spec]|]. intros err. apply resumed_after, pausedCycle_whole; apply _.
Qed.
Lemma many_resumed : keeps running (runManyDBCycle env cfg fuel).
Proof.
  unfold runManyDBCycle. do 3 (apply keep_bind; [quiet|intros]).
  eapply hoare_bind; [apply record_spec; [apply _..|apply pauseLoad_spec]|]. intros err.
  eapply hoare_bind; [apply resumed_after, pausedBatch_whole; apply _|]. intros returned. change (keeps running (do! result := getResult in
    tell (VOutcome (vr_Status result)) ;;! ret returned)). quiet.
Qed.
End Resumed.

(** C8: when a cycle returns, the load runs: whatever the generators, SQLite,
    Litestream, the restore and the contexts answer, and wherever the cycle fails, every
    generator it paused was resumed afterwards, also by a pause that failed half way, by a
    checkpoint or by a reservation that let the load finish its transaction; and the load
    is no longer reported as paused. *)
Theorem load_is_resumed env cfg fuel s returned s' :
  running s -> RunCycle env cfg fuel s = Some (returned, s') -> running s'.
Proof.
  intros Hs Hr. unfold RunCycle in Hr. pose proof (many_resumed env cfg fuel s Hs) as H1. pose proof (single_resumed env cfg fuel s Hs) as H2.
  destruct (vc_ManyDBEnabled cfg); [rewrite Hr in H1|rewrite Hr in H2]; done.
Qed.

(** * What a verified database rests on *)

(** Whether a generator's newest pause succeeded and was not resumed. *)
Fixpoint heldIn (i : nat) (h : vhist) : bool :=
  match h with
  | [] => false
  | VPause j ok :: h => if i =? j then ok else heldIn i h
  | VResume j :: h => if i =? j then false else heldIn i h
  | _ :: h => heldIn i h
  end.
Definition allPaused (cfg : verifierConfig) (h : vhist) : Prop := forall i, i < vc_pausers cfg -> heldIn i h = true.
(** Whether the verifier holds SQLite's write lock. *)
Fixpoint reservedIn (h : vhist) : bool :=
  match h with
  | [] => false
  | VBegin true :: _ => true
  | VRollback _ :: _ | VCloseReservation :: _ => false
  | _ :: h => reservedIn h
  end.
Definition noResume (l : vhist) : Prop := Forall (fun e => match e with VResume _ => False | _ => True end) l.
(** [h] continues [h0] without resuming a generator. *)
Definition still (h0 h : vhist) : Prop := exists l, h = l ++ h0 /\ noResume l.

Definition paused (cfg : verifierConfig) (s : vstate) : Prop := allPaused cfg (vs_hist s).
Definition past (h0 : vhist) (s : vstate) : Prop := h0 `suffix_of` vs_hist s.

(** The boundary: a sync after [h0] that replicated everything it covers, at least
    [sync]; then the lock, with no generator resumed in between; then the snapshot. *)
Definition captured (cfg : verifierConfig) (db : string) (sync : Z) (h0 : vhist) (b : verificationBoundary) (h : vhist) : Prop :=
  exists h2 h3 replicated,
    h0 `suffix_of` h2 /\ still (VSync db (Ok (vb_txid b, replicated)) :: h2) h3 /\ (sync <= vb_txid b <= replicated)%Z /\
    allPaused cfg h3 /\ reservedIn h3 = true /\ VSnapshot db (Ok (vb_snapshot b)) :: h3 `suffix_of` h.

(** The restore of the boundary after [h0], and what its copy was judged on. *)
Definition judged (db restored mode : string) (b : verificationBoundary) (h0 h : vhist) : Prop :=
  exists h4 h5 h6 configPath target output,
    h0 `suffix_of` h4 /\
    VRestore (restoreArgs configPath mode (vb_txid b) target restored db) output true :: h4 `suffix_of` h5 /\
    VIntegrity restored true :: h5 `suffix_of` h6 /\
    if mode =s restoreModeLatest
    then VMarkerCheck restored true :: h6 `suffix_of` h /\ (vb_txid b <= ro_planTXID output)%Z
    else exists copy, VRestoredSnapshot restored (Ok copy) :: h6 `suffix_of` h /\ compareLogicalSnapshots (vb_snapshot b) copy = None.

Definition verified (cfg : verifierConfig) (db mode : string) (sync boundary : Z) (h : vhist) : Prop :=
  exists h1 hs replicated b,
    (sync <= replicated)%Z /\ sync <> 0%Z /\ vb_txid b = boundary /\
    captured cfg db sync (VSync db (Ok (sync, replicated)) :: h1) b hs /\ judged db (db +:+ ".restored") mode b hs h.

Lemma suffix_step {A} (x : A) l l' : x :: l `suffix_of` l' -> l `suffix_of` l'.
Proof. intros [k ->]. exists (k ++ [x]). by rewrite <- app_assoc. Qed.
Lemma captured_mono cfg db sync h0 b h h' : captured cfg db sync h0 b h -> h `suffix_of` h' -> captured cfg db sync h0 b h'.
Proof. intros (h2 & h3 & r & ? & ? & ? & ? & ? & ?) Hs. exists h2, h3, r. split_and!; try done; try lia. by etrans. Qed.
Lemma judged_mono db restored mode b h0 h h' : judged db restored mode b h0 h -> h `suffix_of` h' -> judged db restored mode b h0 h'.
Proof.
  intros (h4 & h5 & h6 & c & t & o & ? & ? & ? & H) Hs. exists h4, h5, h6, c, t, o. split_and!; try done.
  destruct (mode =s restoreModeLatest); [destruct H; split; [by etrans|done]|].
  destruct H as (copy & ? & ?). exists copy. split; [by etrans|done].
Qed.
Lemma verified_mono cfg db mode sync boundary h h' : verified cfg db mode sync boundary h -> h `suffix_of` h' -> verified cfg db mode sync boundary h'.
Proof. intros (h1 & hs & r & b & ? & ? & ? & ? & ?) Hs. exists h1, hs, r, b. split_and!; try done. by eapply judged_mono. Qed.

#[export] Instance past_tolerant cfg h0 : Tolerant cfg (past h0).
Proof. apply (tolerant_history cfg (fun h => h0 `suffix_of` h)). intros e h _ H. by apply suffix_cons_r. Qed.
#[export] Instance verified_tolerant cfg0 cfg db mode sync boundary : Tolerant cfg0 (fun s => verified cfg db mode sync boundary (vs_hist s)).
Proof.
  apply (tolerant_history cfg0 (fun h => verified cfg db mode sync boundary h)). intros e h _ H. eapply verified_mono; [exact H|]. by apply suffix_cons_r.
Qed.

Lemma calm_held cfg e h : calmEvent e = true -> allPaused cfg h -> allPaused cfg (e :: h).
Proof. intros He H i Hi. specialize (H i Hi). by destruct e. Qed.
Lemma calm_reserved e h : calmEvent e = true -> reservedIn (e :: h) = reservedIn h.
Proof. by destruct e. Qed.
#[export] Instance paused_steady cfg : Steady (paused cfg).
Proof. split; try done. intros s e He. by apply calm_held. Qed.
#[export] Instance still_steady h0 : Steady (fun s => still h0 (vs_hist s)).
Proof. split; try done. intros s e He (l & H & Hl). exists (e :: l). simpl. rewrite H. split; [done|]. constructor; [by destruct e|done]. Qed.
#[export] Instance reserved_steady : Steady (fun s => reservedIn (vs_hist s) = true).
Proof. split; try done. intros s e He H. rewrite <- H. by apply calm_reserved. Qed.
#[export] Instance and_steady P Q : Steady P -> Steady Q -> Steady (fun s => P s /\ Q s).
Proof.
  intros HP HQ. split.
  - intros s e He [??]. split; by apply st_event.
  - intros s f Hf [??]. split; by apply st_res.
  - intros s e v b x [??]. split; by apply st_notes.
Qed.
#[export] Instance imp_steady (P : Prop) Q : Steady Q -> Steady (fun s => P -> Q s).
Proof. intros HQ. split; intros; [apply st_event|apply st_res|apply st_notes]; auto. Qed.

Lemma hoare_and {A} (m : V A) P P' (Q Q' : A -> vstate -> Prop) :
  spec P m Q -> spec P' m Q' -> spec (fun s => P s /\ P' s) m (fun a s => Q a s /\ Q' a s).
Proof. intros H H' s [Hs Hs']. specialize (H s Hs). specialize (H' s Hs'). by destruct (m s) as [[a s']|]. Qed.
Lemma hoare_ex {A X} (m : V A) (P : X -> vstate -> Prop) Q : (forall x, spec (P x) m Q) -> spec (fun s => exists x, P x s) m Q.
Proof. intros H s [x Hx]. exact (H x s Hx). Qed.
Lemma hoare_any {A} (m : V A) P : spec P m (fun _ _ => True).
Proof. intros s _. by destruct (m s) as [[]|]. Qed.
Lemma hoare_pure {A} (m : V A) (P : Prop) R Q : (P -> spec R m Q) -> spec (fun s => P /\ R s) m Q.
Proof. intros H s [HP HR]. exact (H HP s HR). Qed.

(** ** Pausing *)

Section Pausing.
Context (env : environment) (cfg : verifierConfig).

Lemma pauseFrom_held n i :
  spec (fun s => forall j, j < i -> heldIn j (vs_hist s) = true) (pauseFrom env cfg n i)
    (fun err s => isOk err = true -> forall j, j < i + n -> heldIn j (vs_hist s) = true).
Proof.
  revert i. induction n as [|n IH]; intros i; cbn [pauseFrom].
  { intros s Hs. simpl. intros _ j Hj. apply Hs. lia. }
  intros s Hs. unfold bind, ask. destruct (en_pause env (vs_hist s) i) as [e|].
  - destruct (resumeDown_spec i (s <| vs_hist ::= cons (VPause i (isOk (Some e))) |>)) as (s' & -> & _). done.
  - specialize (IH (S i) (s <| vs_hist ::= cons (VPause i true) |>)). replace (S i + n) with (i + S n) in IH by lia. apply IH.
    intros j Hj. simpl. destruct (Nat.eqb_spec j i); [done|]. apply Hs. lia.
Qed.
Lemma pauseLoad_held P : spec P (pauseLoad env cfg) (fun err s => isOk err = true -> paused cfg s).
Proof.
  intros s _. unfold pauseLoad. destruct (Nat.eqb_spec (vc_pausers cfg) 0) as [E|E].
  - simpl. intros _ i Hi. lia.
  - apply (pauseFrom_held (vc_pausers cfg) 0). intros j Hj. lia.
Qed.

Lemma checkpointLoop_held n attempt between last :
  spec (paused cfg) (checkpointLoop env cfg n attempt between last) (fun r s => isOkR r = true -> paused cfg s).
Proof.
  revert attempt last. induction n as [|n IH]; intros attempt last; cbn [checkpointLoop].
  { destruct last; by apply hoare_ret. }
  cbv zeta. set (query := bind _ _).
  assert (spec (paused cfg) query (fun r s => isOkR r = true -> paused cfg s)) as Hq.
  { unfold query. eapply hoare_bind; [apply (keep_ask (paused cfg)); done|]. intros [busy|e]; [|apply IH].
    destruct (busy =? 0)%Z; [by apply hoare_ret|apply IH]. }
  destruct (attempt <=? 1)%Z; [done|]. destruct (between && negb (vc_pausers cfg =? 0)); cbn [when].
  - eapply hoare_bind; [apply (hoare_any (resumeLoad cfg))|intros ?]. eapply hoare_bind; [apply (hoare_any (sleep _ _))|intros [e|]]; [by apply hoare_ret|].
    eapply hoare_bind; [apply pauseLoad_held|intros [e|]]; [by apply hoare_ret|].
    eapply hoare_conseq; [exact Hq|intros s Hs; by apply Hs|done].
  - eapply hoare_bind with (R := fun _ => paused cfg); [by apply hoare_ret|intros ?].
    eapply hoare_bind; [apply (sleep_quiet env (paused cfg))|intros [e|]]; [by apply hoare_ret|].
    eapply hoare_bind with (R := fun e s => e = None /\ paused cfg s); [by apply hoare_ret|]. intros e. apply hoare_pure. by intros ->.
Qed.
Lemma checkpoint_held between : spec (paused cfg) (checkpointDB env cfg between) (fun r s => isOkR r = true -> paused cfg s).
Proof.
  unfold checkpointDB. eapply hoare_bind; [apply (keep_ask (paused cfg)); done|]. intros [e|]; [by apply hoare_ret|apply checkpointLoop_held].
Qed.

(** ** The reservation *)

(** Kept by the attempts to take the lock. *)
Class KeepsBegin (P : vstate -> Prop) := keeps_begin : forall s b, P s -> P (s <| vs_hist ::= cons (VBegin b) |>).
#[export] Instance paused_begin : KeepsBegin (paused cfg).
Proof. intros s b H i Hi. exact (H i Hi). Qed.
#[export] Instance still_begin h0 : KeepsBegin (fun s => still h0 (vs_hist s)).
Proof. intros s b (l & H & Hl). exists (VBegin b :: l). simpl. rewrite H. split; [done|]. by constructor. Qed.

Lemma reserveLoop_spec P fuel : Steady P -> KeepsBegin P ->
  spec P (reserveLoop env fuel) (fun err s => P s /\ (isOk err = true -> reservedIn (vs_hist s) = true)).
Proof.
  intros HS HB. induction fuel as [|fuel IH]; cbn [reserveLoop]; [apply hoare_fuel|].
  eapply hoare_bind; [apply (keep_ask P); done|intros [e|]]; [by apply hoare_ret|].
  eapply hoare_bind with (R := fun a s => P s /\ (a = Begun -> reservedIn (vs_hist s) = true)).
  { apply hoare_ask. intros s Hs. split; [by apply keeps_begin|]. by intros ->. }
  intros [| |e].
  - apply hoare_ret. intros s [? H]. split; [done|]. auto.
  - eapply hoare_conseq with (P := P) (Q := fun err s => P s /\ (isOk err = true -> reservedIn (vs_hist s) = true)); [|by intros s [? _]|done].
    eapply hoare_bind; [apply (sleep_quiet env P)|intros [e|]]; [by apply hoare_ret|done].
  - apply hoare_ret. by intros s [? _].
Qed.

Lemma acquire_once P fuel n : Steady P -> KeepsBegin P ->
  spec P (acquireLoop env cfg fuel n false) (fun err s => P s /\ (isOk err = true -> reservedIn (vs_hist s) = true)).
Proof.
  intros HS HB. destruct n; cbn [acquireLoop]; (eapply hoare_bind; [by apply reserveLoop_spec|intros [e|]]; by apply hoare_ret).
Qed.

Lemma acquire_cycling fuel n :
  spec (paused cfg) (acquireLoop env cfg fuel n true) (fun err s => isOk err = true -> paused cfg s).
Proof.
  induction n as [|n IH]; cbn [acquireLoop]; (eapply hoare_bind; [apply (reserveLoop_spec (paused cfg)); apply _|intros [e|]]);
    try (apply hoare_ret; by intros s [? _]).
  destruct (negb true || (vc_pausers cfg =? 0)); [by apply hoare_ret|].
  eapply hoare_bind; [apply (hoare_any (phaseErr _))|intros [e'|]]; [by apply hoare_ret|].
  destruct (negb (reservationBlocked (ve_err e))); [by apply hoare_ret|].
  eapply hoare_bind; [apply (hoare_any (resumeLoad cfg))|intros ?]. eapply hoare_bind; [apply (hoare_any (sleep _ _))|intros [e'|]]; [by apply hoare_ret|].
  eapply hoare_bind; [apply pauseLoad_held|intros [e'|]]; [by apply hoare_ret|].
  eapply hoare_conseq; [exact IH|intros s Hs; by apply Hs|done].
Qed.
End Pausing.

#[export] Instance past_steady h0 : Steady (past h0).
Proof. split; try done. intros s e _ H. by apply suffix_cons_r. Qed.

(** ** Phases *)

Lemma hoare_pre {A} (m : V A) (P P' : vstate -> Prop) Q : (forall s, P' s -> P s) -> spec P m Q -> spec P' m Q.
Proof. intros H Hm s Hs. apply Hm. by apply H. Qed.

Class LawfulFallible A `{Fallible A} := failed_with : forall e (a : A), failure (failWith e a) = Some e.
#[export] Instance lawful_option : LawfulFallible (option verr).
Proof. done. Qed.
#[export] Instance lawful_result {A} : LawfulFallible (result verr A).
Proof. done. Qed.
#[export] Instance lawful_pair {A} : LawfulFallible (option verr * A).
Proof. done. Qed.

(** A phase that did not fail did what its function did. *)
Lemma phase_spec {A} `{LawfulFallible A} env name budget (fn : V A) (P : vstate -> Prop) (Q : A -> vstate -> Prop) :
  Steady P -> (forall a, Steady (Q a)) -> spec P fn (fun a s => failure a = None -> Q a s) ->
  spec P (runValidationPhase env name budget fn) (fun a s => failure a = None -> Q a s).
Proof.
  intros HP HQ Hf. set (R := fun a s => failure a = None -> Q a s).
  assert (forall a, Steady (R a)) as HR by (intros a; apply _).
  assert (spec P (phaseOutcome env name fn) R) as Hp.
  { unfold phaseOutcome. eapply hoare_bind; [apply (readClock_quiet env P)|intros t]. eapply hoare_bind; [exact Hf|intros a].
    eapply hoare_bind; [apply (phaseErr_quiet env (R a))|intros [cause|]]; [|by apply hoare_ret]. cbv zeta.
    destruct (match sm_exitCode _ with Some _ => _ | None => _ end); [by apply hoare_ret|].
    eapply hoare_bind; [apply (readClock_quiet env (R a))|intros now]. apply hoare_ret. intros s _. unfold R. by rewrite failed_with. }
  unfold runValidationPhase. eapply hoare_bind; [apply (keep_ask P); done|intros deadline].
  eapply hoare_bind with (R := fun r => R (fst r)).
  2: { intros r. eapply hoare_bind; [apply (keeps_validation (R (fst r)))|]. intros ?. by apply hoare_ret. }
  unfold timedStep. eapply hoare_bind; [apply (readClock_quiet env P)|intros t]. eapply hoare_bind; [exact Hp|intros a].
  eapply hoare_bind; [apply (readClock_quiet env (R a))|intros t']. by apply hoare_ret.
Qed.

Section Chain.
Context (env : environment) (cfg : verifierConfig) (fuel : nat).

Lemma release_keeps P : (forall s b, P s -> P (s <| vs_hist ::= cons (VRollback b) |>)) -> keeps P (releaseReservation env).
Proof. intros HP. apply hoare_ask. intros s Hs. by apply HP. Qed.
Lemma release_keeps_to P (Q : vstate -> Prop) : (forall s b, P s -> Q (s <| vs_hist ::= cons (VRollback b) |>)) -> spec P (releaseReservation env) (fun _ => Q).
Proof. intros HP. apply hoare_ask. intros s Hs. by apply HP. Qed.
Lemma paused_other s e : match e with VPause _ _ | VResume _ => False | _ => True end -> paused cfg s -> paused cfg (s <| vs_hist ::= cons e |>).
Proof. intros He H i Hi. specialize (H i Hi). by destruct e. Qed.

#[local] Instance captured_steady db sync h0 b : Steady (fun s => captured cfg db sync h0 b (vs_hist s)).
Proof. split; try done. intros s e _ H'. eapply captured_mono; [exact H'|by apply suffix_cons_r]. Qed.

Lemma underReservation_spec db sync h0 :
  spec (fun s => paused cfg s /\ past h0 s) (boundaryUnderReservation env cfg fuel db sync)
    (fun r s => failure r = None -> match r with Ok b => captured cfg db sync h0 b (vs_hist s) /\ paused cfg s | Err _ => True end).
Proof.
  unfold boundaryUnderReservation, acquireBoundaryReservation.
  eapply hoare_bind; [apply hoare_and; [apply acquire_cycling|apply (acquireLoop_whole env cfg (past h0))]|]. intros [e|]; [by apply hoare_ret|].
  apply (hoare_pre _ (fun s => paused cfg s /\ past h0 s)); [intros s [H ?]; split; [by apply H|done]|].
  eapply hoare_bind.
  { apply release_keeps. intros s b [H1 H2]. split; [by apply paused_other|by apply (op_event (cfg := cfg))]. }
  intros [e|]; [by apply hoare_ret|].
  eapply hoare_bind with (R := fun a s => exists h2, h0 `suffix_of` h2 /\ paused cfg s /\ still (VSync db a :: h2) (vs_hist s)).
  { apply hoare_ask. intros s [Hp Hh]. exists (vs_hist s). split_and!; [done|by apply paused_other|]. exists []. split; [reflexivity|constructor]. }
  intros [[synced replicated]|e]; [|by apply hoare_ret]. apply hoare_ex. intros h2. apply hoare_pure. intros Hh0.
  set (P := fun s => paused cfg s /\ still (VSync db (Ok (synced, replicated)) :: h2) (vs_hist s)).
  eapply hoare_bind; [apply (acquire_once env cfg P); [apply _|]|].
  { intros s b [H1 H2]. split; [by apply keeps_begin|by apply (still_begin _ s b)]. }
  intros [e|]; [by apply hoare_ret|]. destruct (Z.ltb_spec synced sync); [by apply hoare_ret|].
  destruct (Z.ltb_spec replicated synced); [by apply hoare_ret|]. unfold logicalValidation.
  eapply hoare_bind with (R := fun r s => match r with Ok source =>
    captured cfg db sync h0 (mkBoundary synced source) (vs_hist s) /\ paused cfg s | Err _ => True end).
  - eapply hoare_bind; [apply (keeps_evidence (fun s => P s /\ (isOk (E := verr) None = true -> reservedIn (vs_hist s) = true)))|intros ?].
    eapply hoare_bind with (R := fun a s => match a with Ok source =>
      captured cfg db sync h0 (mkBoundary synced source) (vs_hist s) /\ paused cfg s | Err _ => True end).
    + apply hoare_ask. intros s [[H1 H2] H3]. cbv zeta. destruct (en_snapshot env (vs_hist s) db) as [source|e]; [|done].
      split; [|by apply paused_other]. exists h2, (vs_hist s), replicated. split_and!; try done; auto.
    + intros [source|e]; [by apply hoare_ret|]. eapply hoare_bind; [apply (hoare_any getEvidence)|intros ?]. by apply hoare_ret.
  - intros [source|e]; [|by apply hoare_ret].
    eapply hoare_bind with (R := fun _ s => captured cfg db sync h0 (mkBoundary synced source) (vs_hist s) /\ paused cfg s);
      [|intros ?; by apply hoare_ret].
    apply (keeps_evidence (fun s => captured cfg db sync h0 (mkBoundary synced source) (vs_hist s) /\ paused cfg s)).
Qed.

Definition boundaryOk (db : string) (sync : Z) (h0 : vhist) (r : result verr verificationBoundary) (s : vstate) : Prop :=
  match r with Ok b => sync <> 0%Z /\ captured cfg db sync h0 b (vs_hist s) /\ paused cfg s | Err _ => True end.
#[local] Instance boundaryOk_steady db sync h0 r : Steady (boundaryOk db sync h0 r).
Proof. destruct r; [|by split]. apply (and_steady (fun _ => sync <> 0%Z)); [by split|apply _]. Qed.

Lemma capture_spec db sync h0 :
  spec (fun s => paused cfg s /\ past h0 s) (captureVerificationBoundary env cfg fuel db sync)
    (fun r s => failure r = None -> boundaryOk db sync h0 r s).
Proof.
  unfold captureVerificationBoundary. eapply hoare_bind; [apply (keeps_evidence (fun s => paused cfg s /\ past h0 s))|intros ?].
  destruct (Z.eqb_spec sync 0); [by apply hoare_ret|].
  eapply hoare_bind; [apply (keep_ask (fun s => paused cfg s /\ past h0 s)); done|intros [e|]]; [by apply hoare_ret|].
  eapply hoare_bind; [apply underReservation_spec|intros r].
  eapply hoare_bind with (R := fun _ s => failure r = None -> boundaryOk db sync h0 r s).
  { apply release_keeps_to. intros s b H Hr. specialize (H Hr). destruct r as [bd|]; [|done]. destruct H as [H1 H2]. split_and!; [done| |by apply paused_other].
    eapply captured_mono; [exact H1|by apply suffix_cons_r]. }
  intros ?. eapply hoare_bind with (R := fun _ s => failure r = None -> boundaryOk db sync h0 r s); [|intros ?; by apply hoare_ret].
  apply hoare_ask. intros s H. cbv zeta. intros Hr. specialize (H Hr). destruct r as [bd|]; [|done]. destruct H as (H0 & H1 & H2). split_and!; [done| |by apply paused_other].
  eapply captured_mono; [exact H1|by apply suffix_cons_r].
Qed.
End Chain.

(** ** The restored copy *)

(** An event after [h0], with the output the verifier has of the restore. *)
Definition seen (h0 : vhist) (e : vcall) (h : vhist) : Prop := exists h1, h0 `suffix_of` h1 /\ e :: h1 `suffix_of` h.
Lemma seen_mono h0 e h h' : seen h0 e h -> h `suffix_of` h' -> seen h0 e h'.
Proof. intros (h1 & ? & ?) Hs. exists h1. split; [done|by etrans]. Qed.
#[export] Instance seen_steady h0 e : Steady (fun s => seen h0 e (vs_hist s)).
Proof. split; try done. intros s x _ H. eapply seen_mono; [exact H|by apply suffix_cons_r]. Qed.
Lemma seen_now h0 e (s : vstate) : past h0 s -> seen h0 e (e :: vs_hist s).
Proof. intros H. by exists (vs_hist s). Qed.
Lemma seen_past h0 e s : seen h0 e (vs_hist s) -> past h0 s.
Proof. intros (h1 & ? & ?). unfold past. etrans; [done|]. by eapply suffix_step. Qed.

(** The restore ran with this output. *)
Definition restored (h0 : vhist) (args : list string) (s : vstate) : Prop := seen h0 (VRestore args (vs_output s) true) (vs_hist s).
#[export] Instance restored_steady h0 args : Steady (restored h0 args).
Proof. split; try done. intros s x _ H. eapply seen_mono; [exact H|by apply suffix_cons_r]. Qed.
#[export] Instance ex_steady {X} (P : X -> vstate -> Prop) : (forall x, Steady (P x)) -> Steady (fun s => exists x, P x s).
Proof.
  intros HP. split; [intros s e He [x Hx]|intros s f Hf [x Hx]|intros s e v b y [x Hx]]; exists x; [by apply st_event|by apply st_res|by apply st_notes].
Qed.

Section Copy.
Context (env : environment) (cfg : verifierConfig).

Lemma restoreCommand_spec h0 mode configPath txid target copyPath db :
  spec (past h0) (restoreCommand env cfg mode configPath txid target copyPath db)
    (fun err s => failure err = None -> restored h0 (restoreArgs configPath mode txid target copyPath db) s).
Proof.
  unfold restoreCommand. cbv zeta. set (args := restoreArgs _ _ _ _ _ _).
  eapply hoare_bind with (R := fun err s => isOk err = true -> restored h0 args s).
  { unfold runRestore. intros s Hs. unfold bind, ask, setOutput, ret. simpl.
    destruct (cr_err (en_restore env (vs_hist s) args)) as [e|]; [done|]. intros _. by apply (seen_now h0 _ s). }
  intros err. eapply hoare_bind; [apply (keeps_get (fun s => isOk err = true -> restored h0 args s))|intros output].
  destruct err as [[[cause exitCode] signal]|].
  - eapply hoare_bind; [apply (hoare_any (note _))|intros ?]. eapply hoare_bind; [apply (hoare_any (validationStepMetadata _ _ _ _ _ _))|intros ?].
    destruct (restoreFailure _ _ _). eapply hoare_bind; [apply (hoare_any (note _))|intros ?]. by apply hoare_ret.
  - apply (hoare_pre _ (restored h0 args)); [intros s Hs; by apply Hs|].
    eapply hoare_bind; [apply (keeps_evidence (restored h0 args))|intros ?]. by apply hoare_ret.
Qed.

Lemma readRestored_spec h0 n path :
  spec (past h0) (readRestoredLogicalSnapshot env n path)
    (fun a s => match a with Ok copy => seen h0 (VRestoredSnapshot path (Ok copy)) (vs_hist s) | Err _ => True end).
Proof.
  induction n as [|n IH]; cbn [readRestoredLogicalSnapshot];
    (eapply hoare_bind with (R := fun a s => past h0 s /\ match a with Ok copy => seen h0 (VRestoredSnapshot path (Ok copy)) (vs_hist s) | Err _ => True end);
     [apply hoare_ask; intros s Hs; cbv zeta; split; [by apply suffix_cons_r|];
      destruct (en_snapshot env (vs_hist s) path); [by apply (seen_now h0 _ s)|done]|]).
  - intros [copy|e]; apply hoare_ret; by intros s [_ ?].
  - intros [copy|e]; [apply hoare_ret; by intros s [_ ?]|]. destruct (negb _); [by apply hoare_ret|].
    apply (hoare_pre _ (past h0)); [by intros s [? _]|].
    eapply hoare_bind; [apply (sleep_quiet env (past h0))|intros [e'|]]; [by apply hoare_ret|done].
Qed.

(** A copy that compares equal was read after [h0]. *)
Definition compared (h0 : vhist) (path : string) (source : logicalSnapshot) (s : vstate) : Prop :=
  exists copy, seen h0 (VRestoredSnapshot path (Ok copy)) (vs_hist s) /\ compareLogicalSnapshots source copy = None.

Lemma compare_spec h0 source path :
  spec (past h0) (compareRestoredLogical env cfg source path) (fun err s => failure err = None -> compared h0 path source s).
Proof.
  unfold compareRestoredLogical. eapply hoare_bind; [apply readRestored_spec|intros [copy|e]].
  2: { eapply hoare_bind; [apply (hoare_any getEvidence)|intros ?]. cbv zeta. destruct (errorsIs _ _); by apply hoare_ret. }
  set (P := fun s => seen h0 (VRestoredSnapshot path (Ok copy)) (vs_hist s)).
  eapply hoare_bind; [apply (keeps_get P)|intros evidence]. cbv zeta.
  destruct (compareLogicalSnapshots source copy) eqn:Hc; [by apply hoare_ret|].
  assert (forall s, P s -> compared h0 path source s) as Hcmp by (intros s Hs; by exists copy).
  eapply hoare_bind with (R := fun _ => P).
  { destruct (vc_churnEnabled cfg); [|by apply hoare_ret]. eapply hoare_bind; [apply (keep_ask P); done|intros err].
    eapply hoare_bind with (R := fun _ => P); [|intros ?; by apply hoare_ret]. apply keeps_when, (keeps_evidence P). }
  intros [e|]; [by apply hoare_ret|]. eapply hoare_bind; [apply (keeps_evidence P)|intros ?]. apply hoare_ret. auto.
Qed.

(** The integrity of the copy was checked after the restore. *)
Definition intact (h0 : vhist) (args : list string) (path : string) (s : vstate) : Prop :=
  exists h5, seen h0 (VRestore args (vs_output s) true) h5 /\ seen h5 (VIntegrity path true) (vs_hist s).
#[local] Instance intact_steady h0 args path : Steady (intact h0 args path).
Proof. split; try done. intros s x _ (h5 & H & H'). exists h5. split; [done|]. eapply seen_mono; [exact H'|by apply suffix_cons_r]. Qed.

#[local] Instance judged_steady db path mode b h0 : Steady (fun s => judged db path mode b h0 (vs_hist s)).
Proof. split; try done. intros s x _ H. eapply judged_mono; [exact H|by apply suffix_cons_r]. Qed.
#[local] Instance compared_steady h0 path source : Steady (compared h0 path source).
Proof.
  apply ex_steady. intros copy. apply (and_steady _ (fun _ => compareLogicalSnapshots source copy = None)); [apply _|by split].
Qed.

Lemma judge_latest h0 mode b path db configPath target s :
  (mode =s restoreModeLatest) = true -> intact h0 (restoreArgs configPath mode (vb_txid b) target path db) path s ->
  (vb_txid b <= ro_planTXID (vs_output s))%Z -> judged db path mode b h0 (VMarkerCheck path true :: vs_hist s).
Proof.
  intros Hm (h5 & (h1 & ? & ?) & (h2 & ? & ?)) Hle. exists h1, h2, (vs_hist s), configPath, target, (vs_output s). rewrite Hm.
  split_and!; try done. by etrans.
Qed.

Lemma judgeRestored_spec h0 mode marker b path db configPath target size :
  spec (restored h0 (restoreArgs configPath mode (vb_txid b) target path db)) (judgeRestored env cfg mode marker b path size)
    (fun r s => match r with Ok ok => ok = true /\ judged db path mode b h0 (vs_hist s) | Err _ => True end).
Proof.
  unfold judgeRestored. set (args := restoreArgs _ _ _ _ _ _).
  eapply hoare_bind with (R := fun err s => failure err = None -> intact h0 args path s).
  { apply phase_spec; [apply _..|]. unfold checkRestoredIntegrity, liftErr.
    eapply hoare_bind with (R := fun err s => isOk err = true -> intact h0 args path s).
    - apply hoare_ask. intros s Hs. cbv zeta. destruct (en_integrity env (vs_hist s) path); [done|]. intros _.
      exists (vs_hist s). split; [exact Hs|]. exists (vs_hist s). done.
    - intros [e|]; apply hoare_ret; intros s Hs; [done|]. intros _. by apply Hs. }
  intros [e|]; [by apply hoare_ret|]. apply (hoare_pre _ (intact h0 args path)); [intros s Hs; by apply Hs|].
  eapply hoare_bind with (R := fun err s => failure err = None -> judged db path mode b h0 (vs_hist s)).
  2: { intros [e|]; apply hoare_ret; intros s Hs; [done|]. split; [done|]. by apply Hs. }
  destruct (mode =s restoreModeLatest) eqn:Hm.
  - apply phase_spec; [apply _..|].
    eapply hoare_bind with (R := fun err s => isOk err = true -> (vb_txid b <= ro_planTXID (vs_output s))%Z -> judged db path mode b h0 (vs_hist s)).
    { apply hoare_ask. intros s Hs. cbv zeta. destruct (en_markerCheck env (vs_hist s) path marker); [done|]. intros _ Hle. by eapply judge_latest. }
    intros [e|]; [by apply hoare_ret|]. intros s Hs. simpl. intros Hc. apply Hs; [done|]. revert Hc. unfold checkLatestRestoreTXID.
    destruct (_ =? 0)%Z; [done|]. destruct (Z.ltb_spec (ro_planTXID (vs_output s)) (vb_txid b)); [done|]. intros _. done.
  - apply (hoare_pre _ (fun s => exists h2 out, (exists h1, h0 `suffix_of` h1 /\ VRestore args out true :: h1 `suffix_of` h2) /\ past (VIntegrity path true :: h2) s)).
    { intros s (h5 & (h1 & ? & ?) & (h2 & ? & ?)). exists h2, (vs_output s). split; [|done]. exists h1. split; [done|by etrans]. }
    apply hoare_ex. intros h2. apply hoare_ex. intros out. apply hoare_pure. intros (h1 & H1 & H2).
    eapply hoare_conseq; [apply (phase_spec env "compare" _ _ (past (VIntegrity path true :: h2)) (fun _ => compared (VIntegrity path true :: h2) path (vb_snapshot b)));
      [apply _..|apply compare_spec]|done|].
    intros err s H Herr. destruct (H Herr) as (copy & (h6 & H3 & H4) & Hc).
    exists h1, h2, h6, configPath, target, out. rewrite Hm. split_and!; try done. by exists copy.
Qed.

Lemma restoreAndJudge_spec h0 mode configPath marker b target path db size :
  spec (past h0) (restoreAndJudge env cfg mode configPath marker b target path db size)
    (fun r s => match r with Ok ok => ok = true /\ judged db path mode b h0 (vs_hist s) | Err _ => True end).
Proof.
  unfold restoreAndJudge. eapply hoare_bind; [apply (phase_keeps env (past h0)), (capacity_quiet env (past h0)); apply _|intros [e|]].
  { eapply hoare_bind; [apply (hoare_any (note _))|intros ?]. by apply hoare_ret. }
  eapply hoare_bind with (R := fun _ => past h0); [by intros s Hs|intros ?].
  set (args := restoreArgs configPath mode (vb_txid b) target path db).
  eapply hoare_bind; [apply phase_spec with (Q := fun _ => restored h0 args); [apply _..|apply restoreCommand_spec]|intros err].
  set (P := fun s => failure err = None -> restored h0 args s).
  eapply hoare_bind; [apply (keeps_get P)|intros output]. eapply hoare_bind; [apply (keeps_validation P)|intros ?].
  destruct err as [e|]; [by apply hoare_ret|]. apply (hoare_pre _ (restored h0 args)); [intros s Hs; by apply Hs|]. apply judgeRestored_spec.
Qed.
End Copy.

(** ** The validation *)

Definition notPassed (s : vstate) : Prop := vr_Passed (vs_res s) = false.
(** The sync the result reports replicated what it covers. *)
Definition synced (db : string) (s : vstate) : Prop :=
  exists h1 replicated, past (VSync db (Ok (vr_SyncTXID (vs_res s), replicated)) :: h1) s /\ (vr_SyncTXID (vs_res s) <= replicated)%Z.
(** The result's transactions and mode are those of a verified restore. *)
Definition validated (cfg : verifierConfig) (db : string) (s : vstate) : Prop :=
  verified cfg db (vr_RestoreMode (vs_res s)) (vr_SyncTXID (vs_res s)) (vr_BoundaryTXID (vs_res s)) (vs_hist s).

#[export] Instance notPassed_open cfg : Open cfg notPassed.
Proof. exact (key_open cfg (fun k => let '(_, passed, _, _, _) := k in passed = false)). Qed.
#[export] Instance notPassed_steady : Steady notPassed.
Proof. split; try done. intros s f Hf. unfold notPassed. simpl. pose proof (Hf (vs_res s)) as H. injection H. congruence. Qed.
#[export] Instance synced_steady db : Steady (synced db).
Proof.
  split; [| |done].
  - intros s e _ (h1 & r & H & ?). exists h1, r. split; [by apply suffix_cons_r|done].
  - intros s f Hf (h1 & r & H & ?). exists h1, r. pose proof (Hf (vs_res s)) as E. injection E as _ _ E _ _. unfold past. simpl. by rewrite E.
Qed.
#[export] Instance validated_steady cfg db : Steady (validated cfg db).
Proof.
  split; [| |done].
  - intros s e _ H. unfold validated. eapply verified_mono; [exact H|by apply suffix_cons_r].
  - intros s f Hf H. unfold validated in *. pose proof (Hf (vs_res s)) as E. injection E as _ _ E1 E2 E3. simpl. by rewrite E1, E2, E3.
Qed.

Section Validation.
Context (env : environment) (cfg : verifierConfig) (fuel : nat).

Definition ready (s : vstate) : Prop := paused cfg s /\ notPassed s.
#[local] Instance ready_steady : Steady ready.
Proof. unfold ready. apply _. Qed.

Lemma failSync_notPassed e : spec ready (failSync env e) (fun err s => notPassed s /\ (failure err = None -> False)).
Proof.
  unfold failSync, captureSyncFailureDiagnostics.
  eapply hoare_bind with (R := fun _ => ready); [|intros ?; apply hoare_ret; by intros s [? ?]].
  match goal with |- spec _ ?m _ => change (keeps ready m) end. quiet.
Qed.

Lemma syncLoop_spec n db t d logged :
  spec ready (syncLoop env cfg n db t d logged) (fun err s => notPassed s /\ (failure err = None -> paused cfg s /\ synced db s)).
Proof.
  revert logged. induction n as [|n IH]; intros logged; cbn [syncLoop]; [apply hoare_fuel|].
  assert (forall e, spec ready (failSync env e) (fun err s => notPassed s /\ (failure err = None -> paused cfg s /\ synced db s))) as Hfail.
  { intros e. eapply hoare_conseq; [apply failSync_notPassed|done|]. intros err s [? H]. split; [done|]. by intros ?%H. }
  eapply hoare_bind; [apply (readClock_quiet env ready)|intros now].
  eapply hoare_bind with (R := fun a s => ready s /\ exists h1, vs_hist s = VSync db a :: h1).
  { apply hoare_ask. intros s Hs. cbv zeta. split; [by apply st_event|]. by eexists. }
  intros [[txid replicated]|e]; [|apply (hoare_pre _ ready); [by intros s [? _]|apply Hfail]].
  eapply hoare_bind with (R := fun _ s => ready s /\ ((txid <=? replicated)%Z = true -> synced db s)).
  { intros s [Hs (h1 & Hh)]. split; [exact Hs|]. intros Hle%Z.leb_le. exists h1, replicated. simpl. split; [|done]. unfold past. simpl. by rewrite Hh. }
  intros ?. destruct (txid <=? replicated)%Z.
  - set (Q := fun s => ready s /\ (true = true -> synced db s)).
    eapply hoare_bind; [apply (readClock_quiet env Q)|intros now']. eapply hoare_bind with (R := fun _ => Q).
    + apply keeps_when, keeps_when. apply keeps_tell; [apply _|done].
    + intros ?. apply hoare_ret. intros s [[? ?] Hsy]. split; [done|]. intros _. split; [done|by apply Hsy].
  - apply (hoare_pre _ ready); [by intros s [? _]|]. eapply hoare_bind; [apply (readClock_quiet env ready)|intros now'].
    destruct (After _ _).
    + eapply hoare_bind; [apply (lagError_quiet env ready)|intros e]. apply Hfail.
    + eapply hoare_bind; [apply (readClock_quiet env ready)|intros now'']. cbv zeta.
      eapply hoare_bind with (R := fun _ => ready); [apply keeps_when, keeps_tell; [apply _|done]|intros ?].
      eapply hoare_bind; [apply (sleep_quiet env ready)|intros [e|]]; [apply Hfail|apply IH].
Qed.

Lemma ready_setResult f : (forall r, vr_Passed (f r) = vr_Passed r) -> keeps ready (setResult f).
Proof. intros Hf s [H1 H2]. split; [exact H1|]. unfold notPassed. simpl. by rewrite Hf. Qed.

Lemma waitForSync_spec db :
  spec ready (waitForSyncDB env cfg fuel db) (fun err s => notPassed s /\ (failure err = None -> paused cfg s /\ synced db s)).
Proof.
  unfold waitForSyncDB. eapply hoare_bind; [by apply ready_setResult|intros ?].
  eapply hoare_bind; [apply (diagnose_quiet env ready)|intros status]. eapply hoare_bind; [by apply ready_setResult|intros ?].
  do 2 (eapply hoare_bind; [apply (readClock_quiet env ready)|intros ?]). apply syncLoop_spec.
Qed.

(** With the transaction of the sync known. *)
Definition based (db : string) (sync replicated : Z) (h1 : vhist) (s : vstate) : Prop :=
  (paused cfg s /\ past (VSync db (Ok (sync, replicated)) :: h1) s) /\ vr_SyncTXID (vs_res s) = sync /\ notPassed s.
#[local] Instance syncIs_open sync : Open cfg (fun s => vr_SyncTXID (vs_res s) = sync /\ notPassed s).
Proof. exact (key_open cfg (fun k => let '(_, passed, txid, _, _) := k in txid = sync /\ passed = false)). Qed.
#[local] Instance based_steady db sync replicated h1 : Steady (based db sync replicated h1).
Proof. unfold based. apply _. Qed.

(** After the boundary, with what the result says of it. *)
Definition bounded (db : string) (sync : Z) (h0 : vhist) (b : verificationBoundary) (hs : vhist) (mode : option string) (s : vstate) : Prop :=
  captured cfg db sync h0 b hs /\ past hs s /\ paused cfg s /\
  (vr_SyncTXID (vs_res s) = sync /\ notPassed s) /\ vr_BoundaryTXID (vs_res s) = vb_txid b /\
  match mode with Some m => vr_RestoreMode (vs_res s) = m | None => True end.
#[local] Instance bounded_steady db sync h0 b hs mode : Steady (bounded db sync h0 b hs mode).
Proof.
  split; [| |done].
  - intros s e He (H1 & H2 & H3 & H4). split_and!; [done|by apply suffix_cons_r|by apply (st_event (I := paused cfg))|apply H4..].
  - intros s f Hf (H1 & H2 & H3 & (H4 & H5) & H6 & H7). pose proof (Hf (vs_res s)) as E. injection E as _ E2 E3 E4 E5.
    unfold bounded, notPassed in *. simpl. rewrite E2, E3, E4, E5. split_and!; done.
Qed.
#[local] Instance bounded_blind db sync h0 b hs mode : Blind (bounded db sync h0 b hs mode).
Proof. by intros s o. Qed.

Definition verdictOk (db : string) (r : result verr bool) (s : vstate) : Prop :=
  notPassed s /\ match r with Ok ok => ok = true /\ paused cfg s /\ validated cfg db s | Err _ => True end.

Lemma afterBoundary_spec db sync replicated h1 b marker mode size :
  (sync <= replicated)%Z -> sync <> 0%Z ->
  spec (fun s => captured cfg db sync (VSync db (Ok (sync, replicated)) :: h1) b (vs_hist s) /\ paused cfg s /\
                 vr_SyncTXID (vs_res s) = sync /\ notPassed s)
    (setResult (fun r => r <| vr_BoundaryTXID := vb_txid b |>) ;;!
      setBoundary b ;;!
      do! chosen := targetMode env mode db (vb_txid b) in
      let mode := fst chosen in
      setResult (fun r => r <| vr_RestoreMode := mode |>) ;;!
      note (" restore_mode=" +:+ mode) ;;!
      do! result := getResult in
      when (negb (vr_RestoreModeFallback result =s "")) (note (" restore_mode_fallback=" +:+ vr_RestoreModeFallback result)) ;;!
      when (mode =s restoreModeLatest) (note (" restore_marker=" +:+ fmt_int marker)) ;;!
      do! config := ask (fun h => en_config env h db) (fun r => VConfig (isOkR r)) in
      match config with
      | Err e => ret (Err (plain e))
      | Ok configPath =>
          do! passed := restoreAndJudge env cfg mode configPath marker b (snd chosen) (db +:+ ".restored") db size in
          tell VRemoveConfig ;;! ret passed
      end) (verdictOk db).
Proof.
  intros Hle Hz. set (h0 := VSync db (Ok (sync, replicated)) :: h1).
  eapply hoare_bind with (R := fun _ s => exists hs, bounded db sync h0 b hs None s).
  { intros s (H1 & H2 & H3 & H4). exists (vs_hist s). unfold bounded, past. simpl. split_and!; try done. }
  intros u1. apply hoare_ex. intros hs. eapply hoare_bind; [apply (keeps_boundary (bounded db sync h0 b hs None))|intros ?].
  eapply hoare_bind; [apply (targetMode_quiet env (bounded db sync h0 b hs None))|intros [m target]]. cbn [fst snd]. cbv zeta.
  set (B := bounded db sync h0 b hs (Some m)).
  eapply hoare_bind with (R := fun _ => B). { intros s (H1 & H2 & H3 & H4 & H5 & _). unfold B, bounded, past in *. simpl. split_and!; try done; apply H4. }
  intros ?. eapply hoare_bind; [apply (keeps_evidence B)|intros ?]. eapply hoare_bind; [apply (keeps_get B)|intros before].
  eapply hoare_bind; [apply keeps_when, (keeps_evidence B)|intros ?]. eapply hoare_bind; [apply keeps_when, (keeps_evidence B)|intros ?].
  eapply hoare_bind; [apply (keep_ask B); done|intros [configPath|e]].
  2: { apply hoare_ret. intros s (_ & _ & _ & (_ & ?) & _). done. }
  set (Q := fun (r : result verr bool) s => B s /\ match r with Ok ok => ok = true /\ judged db (db +:+ ".restored") m b hs (vs_hist s) | Err _ => True end).
  eapply hoare_bind with (R := Q).
  { apply (hoare_pre _ (fun s => B s /\ past hs s)); [intros s Hs; split; [done|by apply Hs]|].
    apply hoare_and; [apply (restoreAndJudge_quiet env cfg B)|apply restoreAndJudge_spec]. }
  intros r. eapply hoare_bind with (R := fun _ => Q r).
  { apply hoare_ask. intros s [HB Hr]. split; [by apply (st_event (I := B))|]. destruct r; [|done]. destruct Hr. split; [done|].
    eapply judged_mono; [done|by apply suffix_cons_r]. }
  intros ?. apply hoare_ret. intros s [(H1 & H2 & H3 & (H4 & H5) & H6 & H7) Hr]. split; [done|]. destruct r as [ok|]; [|done].
  destruct Hr as [-> Hj]. split_and!; try done. unfold validated. rewrite H4, H6, H7. exists h1, hs, replicated, b. split_and!; done.
Qed.

Lemma validate_spec db : spec (fun s => paused cfg s /\ notPassed s /\ synced db s) (validateDBResult env cfg fuel db (db +:+ ".restored")) (verdictOk db).
Proof.
  unfold validateDBResult. set (P := fun s => paused cfg s /\ notPassed s /\ synced db s).
  eapply hoare_bind with (R := fun _ => P); [by intros s Hs|intros ?]. eapply hoare_bind; [apply (keeps_validation P)|intros ?].
  eapply hoare_bind with (R := fun r s => exists replicated h1, (vr_SyncTXID r <= replicated)%Z /\ based db (vr_SyncTXID r) replicated h1 s).
  { intros s (H1 & H2 & (h1 & replicated & H3 & H4)). exists replicated, h1. split; [done|]. by split_and!. }
  intros before. apply hoare_ex. intros replicated. apply hoare_ex. intros h1. apply hoare_pure. intros Hle. cbv zeta.
  set (sync := vr_SyncTXID before) in *. set (A := based db sync replicated h1).
  eapply hoare_bind with (R := fun _ => A).
  { match goal with |- spec _ ?m _ => change (keeps A m) end. quiet. }
  intros marker. eapply hoare_bind; [apply (markerMode_quiet env A)|intros mode].
  eapply hoare_bind; [apply (sourceSize_quiet env A)|intros size].
  set (h0 := VSync db (Ok (sync, replicated)) :: h1).
  set (S := fun s => vr_SyncTXID (vs_res s) = sync /\ notPassed s).
  eapply hoare_bind with (R := fun r s => (failure r = None -> boundaryOk cfg db sync h0 r s) /\ S s).
  { apply (hoare_and (runValidationPhase env "source_snapshot" _ _) (fun s => paused cfg s /\ past h0 s) S).
    - apply phase_spec; [apply _|intros r; apply boundaryOk_steady|apply capture_spec].
    - apply (phase_keeps env S), (capture_whole env cfg S); apply _. }
  intros [b|e]; [|apply hoare_ret; by intros s [_ [_ ?]]].
  intros s [Hb [H1 H2]]. destruct (Hb eq_refl) as (Hz & Hc & Hp). revert s Hb H1 H2 Hc Hp.
  enough (spec (fun s => captured cfg db sync h0 b (vs_hist s) /\ paused cfg s /\ vr_SyncTXID (vs_res s) = sync /\ notPassed s) _ (verdictOk db)) as H
    by (intros s Hb H1 H2 Hc Hp; exact (H s (conj Hc (conj Hp (conj H1 H2))))).
  by apply afterBoundary_spec.
Qed.
End Validation.

(** ** The verdict *)

(** A cycle that did not pass, with the status it reports. *)
Definition rejected (s : vstate) : Prop := notPassed s /\ In (vr_Status (vs_res s)) ["failed"; "aborted"; "pending"].
Definition accepted (cfg : verifierConfig) (db : string) (s : vstate) : Prop :=
  vr_Status (vs_res s) = "passed" /\ vr_Passed (vs_res s) = true /\ validated cfg db s.
Definition verdict (cfg : verifierConfig) (db : string) (returned : option verr) (s : vstate) : Prop :=
  match returned with None => accepted cfg db s | Some _ => rejected s end.

#[export] Instance rejected_open cfg : Open cfg rejected.
Proof. exact (key_open cfg (fun k => let '(status, passed, _, _, _) := k in passed = false /\ In status ["failed"; "aborted"; "pending"])). Qed.
#[export] Instance rejected_steady : Steady rejected.
Proof.
  split; try done. intros s f Hf [H1 H2]. pose proof (Hf (vs_res s)) as E. injection E as E1 E2 _ _ _.
  unfold rejected, notPassed in *. simpl. by rewrite E1, E2.
Qed.
#[export] Instance accepted_open cfg db : Open cfg (accepted cfg db).
Proof.
  assert (forall s e, accepted cfg db s -> accepted cfg db (s <| vs_hist ::= cons e |>)) as He.
  { intros s e (H1 & H2 & H3). split_and!; [done|done|]. eapply verified_mono; [exact H3|by apply suffix_cons_r]. }
  split; [split|by intros s o|intros s e _; by apply He]; [intros s e _; by apply He| |done].
  intros s f Hf (H1 & H2 & H3). pose proof (Hf (vs_res s)) as E. injection E as E1 E2 E3 E4 E5.
  unfold accepted, validated in *. simpl. by rewrite E1, E2, E3, E4, E5.
Qed.
#[export] Instance verdict_open cfg db returned : Open cfg (verdict cfg db returned).
Proof. destruct returned; apply _. Qed.

(** A step that keeps what holds before it. *)
Lemma hoare_calm {A B} I (m : V A) (k : A -> V B) Q : keeps I m -> (forall a, spec I (k a) Q) -> spec I (bind m k) Q.
Proof. intros. by eapply hoare_bind. Qed.
Ltac calm := apply hoare_calm; [solve [tolerate]|].

Section Verdict.
Context (env : environment) (cfg : verifierConfig) (fuel : nat).

Lemma failureStatus_in ended m : In (failureStatus ended m) ["failed"; "aborted"; "pending"].
Proof. unfold failureStatus. destruct ended; [simpl; tauto|]. destruct (Contains _ _); simpl; tauto. Qed.
Lemma failResult_spec m : spec notPassed (failResult env cfg m) (fun _ => rejected).
Proof.
  unfold failResult. eapply hoare_bind; [apply (ctxErr_quiet env notPassed)|intros ended]. cbv zeta.
  eapply hoare_bind with (R := fun _ => rejected); [|intros ?; apply (finalize_quiet env cfg rejected)].
  intros s Hs. split; [exact Hs|apply failureStatus_in].
Qed.
Lemma failValidation_spec e : spec notPassed (failValidationResult env cfg e) (fun _ => rejected).
Proof.
  unfold failValidationResult. cbv zeta. eapply hoare_bind; [apply failResult_spec|intros ?]. intros s [H1 H2]. unfold rejected, notPassed in *.
  unfold setResult. destruct (errorsIs (ve_err e) restoreCapacityInconclusiveError), (errorsIs (ve_err e) restoredComparisonLockedError);
    simpl; case_match; simpl; tauto.
Qed.
Lemma fails_with m (returned : verr) (k : V ()) : keeps rejected k -> spec notPassed (failResult env cfg m ;;! k ;;! ret (Some returned)) (verdict cfg (vc_DBPath cfg)).
Proof.
  intros Hk. eapply hoare_bind; [apply failResult_spec|intros ?]. eapply hoare_bind; [exact Hk|intros ?]. by apply hoare_ret.
Qed.
Lemma failCycle_spec what e : spec notPassed (failCycle env cfg what e) (verdict cfg (vc_DBPath cfg)).
Proof. unfold failCycle. apply fails_with, (log_quiet rejected). Qed.

(** The extra checks leave the result of the cycle as it was. *)
Lemma res_is_ask {X} r (answer : vhist -> X) event : keeps (fun s => vs_res s = r) (ask answer event).
Proof. by intros s Hs. Qed.
Lemma extra_res r : keeps (fun s => vs_res s = r) (extraChecks env cfg).
Proof.
  unfold extraChecks, runPreUpgradeRestore. set (K := fun s => vs_res s = r).
  assert (forall x, keeps K (addExtra x)) as Hx by (by intros x s Hs).
  assert (forall r' m, keeps K (withResult r' m)) as Hw.
  { intros r' m s Hs. unfold withResult. destruct (m _) as [[a s']|]; [exact Hs|done]. }
  assert (forall X (answer : vhist -> X) event, keeps K (ask answer event)) as Ha by (intros; apply res_is_ask).
  assert (forall e, keeps K (tell e)) as Ht by (intros; apply res_is_ask).
  assert (keeps K (clock env)) as Hc by apply res_is_ask.
  assert (keeps K getBoundary) as Hb by (by intros s Hs). assert (keeps K getResult) as Hr by (by intros s Hs).
  repeat match goal with
  | |- keeps _ (bind _ _) => apply keep_bind; [|intros]
  | |- keeps _ (ret _) => apply keep_ret
  | |- keeps _ (when _ _) => apply keeps_when
  | |- keeps _ (match ?x with _ => _ end) => destruct x
  | |- _ => solve [auto]
  end.
Qed.
End Verdict.

Section SingleVerdict.
Context (env : environment) (cfg : verifierConfig) (fuel : nat).
Abbreviation db := (vc_DBPath cfg).
Abbreviation ready := (ready cfg).
#[local] Existing Instance ready_steady.

(** The validated result outlives the extra checks. *)
Definition decided (validation : result verr bool) (s : vstate) : Prop :=
  notPassed s /\ match validation with Ok ok => ok = true /\ validated cfg db s | Err _ => True end.
#[local] Instance decided_steady v : Steady (decided v).
Proof. destruct v; apply and_steady; try apply _; [apply (and_steady (fun _ => _ = true)); [by split|apply _]|by split]. Qed.
Lemma extra_decided v : keeps (decided v) (extraChecks env cfg).
Proof.
  intros s [H1 H2]. pose proof (extra_res env cfg (vs_res s) s eq_refl) as Hr. destruct v as [ok|e].
  - destruct H2 as [H2 H3]. set (P := fun s' => verified cfg db (vr_RestoreMode (vs_res s)) (vr_SyncTXID (vs_res s)) (vr_BoundaryTXID (vs_res s)) (vs_hist s')).
    pose proof (extra_whole env cfg P (HT := tl_any (cfg := cfg)) s H3) as Hv.
    destruct (extraChecks env cfg s) as [[a s']|]; [|done]. unfold decided, notPassed, validated. by rewrite Hr.
  - destruct (extraChecks env cfg s) as [[a s']|]; [|done]. unfold decided, notPassed. by rewrite Hr.
Qed.

Lemma pass_spec text : spec (validated cfg db) (pass env cfg text) (fun _ => accepted cfg db).
Proof.
  unfold pass. eapply hoare_bind with (R := fun _ => accepted cfg db); [|intros ?; apply (finalize_quiet env cfg (accepted cfg db))].
  intros s Hs. by split_and!.
Qed.

Lemma syncAndValidate_spec : spec ready (syncAndValidate env cfg fuel) (verdict cfg db).
Proof.
  unfold syncAndValidate.
  eapply hoare_bind with (R := fun err s => notPassed s /\ (failure err = None -> paused cfg s /\ synced db s)).
  { apply record_spec; [apply ready_steady|intros err; apply _|apply waitForSync_spec]. }
  intros [e|]; [apply (hoare_pre _ notPassed); [by intros s [? _]|apply failCycle_spec]|].
  eapply hoare_bind with (R := fun v => decided v).
  { apply (hoare_pre _ (fun s => paused cfg s /\ notPassed s /\ synced db s)).
    { intros s [H1 H2]. destruct (H2 eq_refl). by split_and!. }
    apply record_spec; [apply _..|]. eapply hoare_conseq; [apply validate_spec|done|].
    intros [ok|e] s [H1 H2]; (split; [done|]); [|done]. destruct H2 as (-> & _ & ?). done. }
  intros v. eapply hoare_bind; [apply (keeps_get (decided v))|intros evidence]. eapply hoare_bind; [apply (keeps_get (decided v))|intros steps].
  eapply hoare_bind; [apply (keeps_setResult (decided v)); done|intros ?]. eapply hoare_bind; [apply extra_decided|intros ?].
  destruct v as [[|]|e].
  - eapply hoare_bind; [apply (hoare_pre _ (validated cfg db)); [by intros s [_ [_ ?]]|apply pass_spec]|intros ?].
    eapply hoare_bind; [apply (log_quiet (accepted cfg db))|intros ?]. by apply hoare_ret.
  - by intros s [_ [? _]].
  - apply (hoare_pre _ notPassed); [by intros s [? _]|]. eapply hoare_bind; [apply failValidation_spec|intros ?].
    eapply hoare_bind; [apply (log_quiet rejected)|intros ?]. by apply hoare_ret.
Qed.

Lemma loadRetention_spec : spec ready (loadRetention env cfg) (fun err s => match err with Some _ => rejected s | None => ready s end).
Proof.
  unfold loadRetention. destruct (vc_boundedLoadProfile cfg); cbn [negb]; [|by apply hoare_ret].
  calm. intros ?. calm. intros size.
  calm. intros stats. calm. intros ?.
  calm. intros steps. calm. intros ?.
  destruct (fst stats) as [e|]; [|by apply hoare_ret]. apply (hoare_pre _ notPassed); [by intros s [_ ?]|].
  eapply hoare_bind; [apply failValidation_spec|intros ?]. by apply hoare_ret.
Qed.

(** A checkpoint that succeeds leaves the load paused. *)
Lemma checkpoint_spec name between f : (forall r v, key (f r v) = key v) ->
  spec ready (recordVerificationStep env name (do! r := checkpointDB env cfg between in setResult (f r) ;;! ret r))
    (fun r s => notPassed s /\ (isOkR r = true -> paused cfg s)).
Proof.
  intros Hf. apply record_spec; [apply _|intros r; apply _|].
  set (Q := fun r s => notPassed s /\ (isOkR r = true -> paused cfg s)).
  eapply hoare_bind with (R := Q).
  - eapply hoare_conseq; [apply (hoare_and _ _ _ _ _ (checkpoint_held env cfg between) (checkpoint_whole env cfg notPassed between))|done|].
    intros r s [? ?]. by split.
  - intros r. eapply hoare_bind; [apply (keeps_setResult (Q r)); intros; apply Hf|intros ?]. by apply hoare_ret.
Qed.

Lemma pausedCycle_spec : spec ready (pausedCycle env cfg fuel) (verdict cfg db).
Proof.
  unfold pausedCycle. calm. intros [e|].
  { apply (hoare_pre _ notPassed); [by intros s [_ ?]|]. eapply hoare_bind; [apply failResult_spec|intros ?]. by apply hoare_ret. }
  eapply hoare_bind; [by apply (checkpoint_spec "checkpoint" true)|intros [residual|e]].
  2: { apply (hoare_pre _ notPassed); [by intros s [? _]|apply failCycle_spec]. }
  apply (hoare_pre _ ready); [intros s [? H]; split; [by apply H|done]|].
  eapply hoare_bind; [apply loadRetention_spec|intros [e|]]; [by apply hoare_ret|apply syncAndValidate_spec].
Qed.

Lemma pauseLoad_ready name : spec notPassed (recordVerificationStep env name (pauseLoad env cfg)) (fun err s => notPassed s /\ (isOk err = true -> paused cfg s)).
Proof.
  apply record_spec; [apply _..|]. eapply hoare_conseq; [apply (hoare_and _ _ _ _ _ (pause_whole env cfg notPassed) (pauseLoad_held env cfg notPassed))|done|done].
Qed.
Lemma after_pause (err : option verr) (body : V (option verr)) (Q : option verr -> vstate -> Prop) :
  (forall r, Open cfg (Q r)) -> spec ready body Q -> (forall e s, rejected s -> Q (Some e) s) ->
  spec (fun s => notPassed s /\ (isOk err = true -> paused cfg s))
    (match err with
     | Some e => failCycle env cfg "pause load" e
     | None =>
         do! returned := body in
         do! resumed := recordVerificationStep env "resume_load" (resumeLoad cfg ;;! ret (A := option verr) None) in
         ret returned
     end) Q.
Proof.
  intros HQ Hb Hrej. destruct err as [e|].
  - apply (hoare_pre _ notPassed); [by intros s [? _]|]. unfold failCycle. eapply hoare_bind; [apply failResult_spec|intros ?].
    eapply hoare_bind; [apply (log_quiet rejected)|intros ?]. apply hoare_ret. apply Hrej.
  - apply (hoare_pre _ ready); [intros s [? H]; split; [by apply H|done]|].
    eapply hoare_bind; [exact Hb|intros returned]. eapply hoare_bind with (R := fun _ => Q returned); [|intros ?; by apply hoare_ret].
    apply record_keeps; [apply _|]. apply keep_bind; [apply (resume_whole cfg (Q returned))|intros; apply keep_ret].
Qed.

Lemma single_spec : spec (fun _ => True) (runSingleCycle env cfg fuel) (verdict cfg db).
Proof.
  unfold runSingleCycle. eapply hoare_bind; [apply (hoare_any (clock env))|intros start]. eapply hoare_bind; [apply (hoare_any (clock env))|intros now].
  destruct (restoreModeAt _ _ _ _) as [mode|]; [|apply hoare_fuel].
  eapply hoare_bind with (R := fun _ => notPassed); [by intros s _|intros ?]. eapply hoare_bind; [apply (keeps_tell notPassed); done|intros ?].
  cbv zeta. eapply hoare_bind with (R := fun _ => notPassed); [apply record_keeps; [apply _|]; quiet|intros err].
  eapply hoare_bind with (R := verdict cfg db).
  - destruct err as [e|]; [apply failCycle_spec|].
    eapply hoare_bind with (R := verdict cfg db).
    + unfold cleanedCycle. eapply hoare_bind; [apply pauseLoad_ready|intros err]. apply after_pause; [apply _|apply pausedCycle_spec|done].
    + intros returned. eapply hoare_bind; [apply (clean_quiet env (verdict cfg db returned))|intros ?]. by apply hoare_ret.
  - intros returned. eapply hoare_bind; [apply (keeps_get (verdict cfg db returned))|intros r].
    eapply hoare_bind; [apply (keeps_tell (verdict cfg db returned)); done|intros ?]. by apply hoare_ret.
Qed.
End SingleVerdict.

(** ** The verdict on many databases *)

#[export] Instance past_any h0 : AnyResult (past h0).
Proof. by intros s r. Qed.

Section ManyVerdict.
Context (env : environment) (cfg : verifierConfig) (fuel : nat).
Abbreviation ready := (ready cfg).
#[local] Existing Instance ready_steady.

(** Databases verified in this cycle. *)
Definition allVerified (dbs : list string) (s : vstate) : Prop :=
  Forall (fun db => exists mode sync boundary, verified cfg db mode sync boundary (vs_hist s)) dbs.
#[export] Instance allVerified_tolerant dbs : Tolerant cfg (allVerified dbs).
Proof.
  apply (tolerant_history cfg (fun h => Forall (fun db => exists mode sync boundary, verified cfg db mode sync boundary h) dbs)).
  intros e h _ H. eapply Forall_impl; [exact H|]. intros db (m & y & b & Hv). exists m, y, b. eapply verified_mono; [exact Hv|by apply suffix_cons_r].
Qed.

(** A target ends the cycle with an error, or it is verified and the load still paused. *)
Definition targetDone (db : string) (r : option (option verr)) (s : vstate) : Prop :=
  match r with None => ready s /\ allVerified [db] s | Some (Some _) => rejected s | Some None => False end.

Lemma failTarget_spec db what e : spec notPassed (failTarget env cfg what e) (targetDone db).
Proof.
  unfold failTarget. eapply hoare_bind; [apply failResult_spec|intros ?]. eapply hoare_bind; [apply (log_quiet rejected)|intros ?]. by apply hoare_ret.
Qed.

Lemma validateTarget_spec pending db name :
  spec (fun s => paused cfg s /\ notPassed s /\ synced db s) (validateTarget env cfg fuel pending db name) (targetDone db).
Proof.
  unfold validateTarget. cbv zeta. eapply hoare_bind with (R := fun v => verdictOk cfg db v).
  { apply record_spec; [apply _| |apply validate_spec]. intros [ok|e]; (apply and_steady; [apply _|]); [|by split].
    apply (and_steady (fun _ => ok = true)); [by split|apply _]. }
  intros v. set (P := fun s => notPassed s /\ match v with Ok ok => ok = true /\ paused cfg s /\ allVerified [db] s | Err _ => True end).
  assert (Steady P) as HP.
  { unfold P. destruct v as [ok|e]; (apply and_steady; [apply _|]); [|by split]. apply (and_steady (fun _ => ok = true)); [by split|apply _]. }
  apply (hoare_pre _ P).
  { intros s [H1 H2]. split; [done|]. destruct v as [ok|e]; [|done]. destruct H2 as (? & ? & Hv). split_and!; try done. constructor; [|done]. eauto. }
  eapply hoare_bind; [apply (keeps_get P)|intros evidence]. eapply hoare_bind; [apply (keeps_get P)|intros steps].
  eapply hoare_bind; [apply (keeps_setResult P); done|intros ?]. destruct v as [[|]|e].
  - eapply hoare_bind; [apply (clean_quiet env P)|intros [e|]].
    + apply (hoare_pre _ notPassed); [by intros s [? _]|]. eapply hoare_bind; [apply failResult_spec|intros ?].
      eapply hoare_bind; [apply (log_quiet rejected)|intros ?]. by apply hoare_ret.
    + eapply hoare_bind; [apply keeps_when, (keeps_tell P); done|intros ?]. apply hoare_ret. intros s (? & _ & ? & ?). by split.
  - by intros s [_ [? _]].
  - apply (hoare_pre _ notPassed); [by intros s [? _]|]. eapply hoare_bind; [apply failValidation_spec|intros ?].
    eapply hoare_bind; [apply (log_quiet rejected)|intros ?]. by apply hoare_ret.
Qed.

Lemma verifyTarget_spec pending db : spec ready (verifyTarget env cfg fuel pending db) (fun r => targetDone db (fst r)).
Proof.
  assert (forall (m : V (option (option verr))) (b : bool) P, spec P m (targetDone db) -> spec P (do! r := m in ret (r, b)) (fun r : _ * bool => targetDone db (fst r))) as Hpair.
  { intros m b P Hm. eapply hoare_bind; [exact Hm|intros r]. by apply hoare_ret. }
  unfold verifyTarget. cbv zeta. calm. intros ?. eapply hoare_bind with (R := fun _ => ready); [apply record_keeps; [apply _|]; quiet|intros [e|]].
  { apply (hoare_pre _ notPassed); [by intros s [_ ?]|]. apply Hpair, failTarget_spec. }
  eapply hoare_bind; [by apply (checkpoint_spec env cfg _ false)|intros [residual|e]].
  2: { apply (hoare_pre _ notPassed); [by intros s [? _]|]. apply Hpair, failTarget_spec. }
  apply (hoare_pre _ ready); [intros s [? H]; split; [by apply H|done]|].
  eapply hoare_bind with (R := fun err s => notPassed s /\ (failure err = None -> paused cfg s /\ synced db s)).
  { apply record_spec; [apply _|intros err; apply _|apply waitForSync_spec]. }
  intros [e|].
  - apply (hoare_pre _ notPassed); [by intros s [? _]|]. apply Hpair, failTarget_spec.
  - apply (hoare_pre _ (fun s => paused cfg s /\ notPassed s /\ synced db s)).
    { intros s [H1 H2]. destruct (H2 eq_refl). by split_and!. }
    apply Hpair, validateTarget_spec.
Qed.

Definition targetsDone (dbs : list string) (r : option (option verr)) (s : vstate) : Prop :=
  match r with None => ready s /\ allVerified dbs s | Some (Some _) => rejected s | Some None => False end.
Lemma verifyTargets_spec pending targets done_ cleanups :
  spec (fun s => ready s /\ allVerified done_ s) (verifyTargets env cfg fuel pending targets cleanups) (fun r => targetsDone (done_ ++ targets) (fst r)).
Proof.
  revert done_ cleanups. induction targets as [|db targets IH]; intros done_ cleanups; cbn [verifyTargets].
  { apply hoare_ret. intros s [? ?]. split; [done|]. by rewrite app_nil_r. }
  eapply hoare_bind; [apply hoare_and; [apply verifyTarget_spec|apply (verifyTarget_whole env cfg (allVerified done_))]|intros [r clean]].
  cbv zeta. cbn [fst snd]. destruct r as [returned|].
  - apply hoare_ret. intros s [H _]. by destruct returned.
  - apply (hoare_pre _ (fun s => ready s /\ allVerified (done_ ++ [db]) s)).
    { intros s [[? ?] ?]. split; [done|]. by apply Forall_app. }
    specialize (IH (done_ ++ [db])). by rewrite <- app_assoc in IH.
Qed.

(** The status of a batch: pending while written databases are left. *)
Definition batchStatus (s : vstate) : Prop :=
  exists h, past (VCoverage :: h) s /\
    let pending := (0 <? mc_written (en_coverage env h))%Z in
    vr_Status (vs_res s) = (if pending then "pending" else "passed") /\ vr_Passed (vs_res s) = negb pending.
#[local] Instance batchStatus_open : Open cfg batchStatus.
Proof.
  assert (forall s e, batchStatus s -> batchStatus (s <| vs_hist ::= cons e |>)) as He.
  { intros s e (h & H & H'). exists h. split; [by apply suffix_cons_r|done]. }
  split; [split|by intros s o|intros s e _; by apply He]; [intros s e _; by apply He| |done].
  intros s f Hf (h & H & H'). exists h. split; [done|]. pose proof (Hf (vs_res s)) as E. injection E as E1 E2 _ _ _. simpl. by rewrite E1, E2.
Qed.
#[export] Instance and_open P Q : Open cfg P -> Open cfg Q -> Open cfg (fun s => P s /\ Q s).
Proof.
  intros HP HQ. split; [apply _| |].
  - intros s o [? ?]. split; by apply blind.
  - intros s e He [? ?]. split; by apply (op_event (cfg := cfg)).
Qed.

(** The targets of the batch are those selected after a history [h]. *)
Definition targetsAt (h : vhist) : list string :=
  fst (selectManyDBVerificationTargets cfg (en_pending env h) (en_activePaths env (VPending :: h))).
Definition batchVerdict (returned : option verr) (s : vstate) : Prop :=
  match returned with
  | Some _ => rejected s
  | None => exists h, targetsAt h <> [] /\ past (VPending :: VPending :: h) s /\ allVerified (targetsAt h) s /\ batchStatus s
  end.
#[local] Instance batchVerdict_open r : Open cfg (batchVerdict r).
Proof.
  destruct r; [apply _|]. set (P := fun h s => targetsAt h <> [] /\ past (VPending :: VPending :: h) s /\ allVerified (targetsAt h) s /\ batchStatus s).
  assert (forall h, Open cfg (P h)) as HP by (intros h; apply (and_open (fun _ => targetsAt h <> [])); [by apply (open_history cfg (fun _ => targetsAt h <> []))|apply _]).
  split; [apply ex_steady; intros h; apply _| |].
  - intros s o [h H]. exists h. by apply (blind (I := P h)).
  - intros s e He [h H]. exists h. by apply (op_event (I := P h) (cfg := cfg)).
Qed.

Lemma concludeBatch_spec targets total :
  spec (fun s => ready s /\ allVerified targets s) (concludeBatch env cfg targets total) (fun r s => r = None /\ allVerified targets s /\ batchStatus s).
Proof.
  unfold concludeBatch, coverage.
  eapply hoare_bind with (R := fun c s => allVerified targets s /\ exists h, past (VCoverage :: h) s /\ c = en_coverage env h).
  { apply hoare_ask. intros s [_ H]. split; [by apply (op_event (cfg := cfg))|]. exists (vs_hist s). split; [|done]. unfold past. simpl. done. }
  intros c. eapply hoare_bind with (R := fun _ s => allVerified targets s /\ exists h, past (VCoverage :: h) s /\ c = en_coverage env h); [by intros s Hs|intros before].
  cbv zeta. unfold batchOutcome. cbn [mb_coverage]. set (P := fun s => allVerified targets s /\ batchStatus s).
  assert (forall status text, status = (if (0 <? mc_written c)%Z then "pending" else "passed") ->
    spec (fun s => allVerified targets s /\ exists h, past (VCoverage :: h) s /\ c = en_coverage env h)
      (setResult (fun r => r <| vr_Status := status |> <| vr_Summary := text |> <| vr_Passed := status =s "passed" |>) ;;!
       finalizeResult env cfg ;;! when (status =s "passed") (logResult true) ;;! ret (A := option verr) None)
      (fun r s => r = None /\ P s)) as H.
  { intros status text ->. eapply hoare_bind with (R := fun _ => P).
    - intros s [H (h & Hh & ->)]. split; [exact H|]. exists h. split; [exact Hh|]. simpl. by destruct (0 <? _)%Z.
    - intros ?. eapply hoare_bind; [apply (finalize_quiet env cfg P)|intros ?]. eapply hoare_bind; [apply keeps_when, (log_quiet P)|intros ?]. by apply hoare_ret. }
  destruct (0 <? mc_written c)%Z; by apply H.
Qed.

(** The batch once its targets are selected. *)
Lemma batchRest_spec h pending targets total : targets = targetsAt h ->
  spec (fun s => past (VPending :: VPending :: h) s /\ ready s)
    (do! returned := batchBody env cfg fuel pending targets total in
     (match targets with [] => pendingCoverage env 0 0 | _ => pendingCoverage env (Z.of_nat (length targets)) total end) ;;! ret returned) batchVerdict.
Proof.
  intros Hat. eapply hoare_bind with (R := batchVerdict).
  - unfold batchBody. destruct targets as [|db targets].
    + apply (hoare_pre _ notPassed); [by intros s [_ [_ ?]]|]. eapply hoare_bind; [apply failResult_spec|intros ?].
      eapply hoare_bind; [apply (log_quiet rejected)|intros ?]. by apply hoare_ret.
    + apply hoare_calm.
      { apply keeps_when, (keeps_tell (fun s => past (VPending :: VPending :: h) s /\ ready s)). done. }
      intros ?. eapply hoare_bind.
      { apply hoare_and; [apply (verifyTargets_whole env cfg (past (VPending :: VPending :: h)))|].
        apply (hoare_pre _ (fun s => ready s /\ allVerified [] s)); [intros s Hs; split; [done|by constructor]|apply verifyTargets_spec]. }
      intros [r cleanups]. cbn [fst snd app]. eapply hoare_bind with (R := batchVerdict).
      * destruct r as [[e|]|]; [apply hoare_ret; by intros s [_ ?]|by intros s [_ ?]|].
        eapply hoare_conseq; [apply hoare_and; [apply (concludeBatch_whole env cfg (past (VPending :: VPending :: h)))|apply concludeBatch_spec]|done|].
        intros r s (Hp & -> & Hv & Hb). exists h. by rewrite <- Hat.
      * intros returned. eapply hoare_bind; [apply (cleanAll_whole env cfg (batchVerdict returned))|intros ?]. by apply hoare_ret.
  - intros returned. eapply hoare_bind with (R := fun _ => batchVerdict returned); [|intros ?; by apply hoare_ret].
    destruct targets; apply (pendingCoverage_whole env cfg (batchVerdict returned)); apply _.
Qed.

Lemma pausedBatch_spec : spec ready (pausedBatch env cfg fuel) batchVerdict.
Proof.
  unfold pausedBatch. calm. intros [e|].
  { apply (hoare_pre _ notPassed); [by intros s [_ ?]|]. eapply hoare_bind; [apply failResult_spec|intros ?]. by apply hoare_ret. }
  intros s Hs. unfold bind at 1, ask at 1. cbv zeta. unfold bind at 1, ask at 1. cbv zeta.
  set (h := vs_hist s). set (s2 := s <| vs_hist ::= cons _ |> <| vs_hist ::= cons _ |>).
  change (en_activePaths env _) with (en_activePaths env (VPending :: h)).
  assert (past (VPending :: VPending :: h) s2 /\ ready s2) as Hs2 by (split; [by unfold past|apply (st_event (I := ready)); [done|by apply (st_event (I := ready))]]).
  destruct (selectManyDBVerificationTargets cfg (en_pending env h) (en_activePaths env (VPending :: h))) as [targets total] eqn:Ht.
  assert (targets = targetsAt h) as Hat by (unfold targetsAt; by rewrite Ht).
  exact (batchRest_spec h _ targets total Hat s2 Hs2).
Qed.

Lemma many_spec : spec (fun _ => True) (runManyDBCycle env cfg fuel) batchVerdict.
Proof.
  unfold runManyDBCycle. eapply hoare_bind; [apply (hoare_any (clock env))|intros start].
  eapply hoare_bind with (R := fun _ => notPassed); [by intros s _|intros ?]. eapply hoare_bind; [apply (keeps_tell notPassed); done|intros ?].
  eapply hoare_bind; [apply pauseLoad_ready|intros err]. eapply hoare_bind with (R := batchVerdict).
  - apply after_pause; [apply _|apply pausedBatch_spec|done].
  - intros returned. eapply hoare_bind; [apply (keeps_get (batchVerdict returned))|intros r].
    eapply hoare_bind; [apply (keeps_tell (batchVerdict returned)); done|intros ?]. by apply hoare_ret.
Qed.
End ManyVerdict.

(** C7: a cycle gives a verdict that its evidence carries.  Whatever the environment
    answers, the single-database cycle returns no error exactly with the status passed,
    and then its own history holds the whole chain, in order: a sync of the database that
    replicated the transaction it reports; with every generator paused, a second sync
    at or after it that left nothing unreplicated, and the writers locked out before any
    generator ran again; the snapshot under that lock; the restore of that boundary
    transaction; the integrity check; and either the marker with a plan that reaches the
    boundary, or a copy that compares equal to the snapshot.  A batch of many databases
    that returns no error verified every selected database that way, and is pending
    exactly while written databases are left.  A cycle that returns an error is
    not passed and is failed, aborted or pending. *)
Theorem cycle_verdict env cfg fuel s returned s' :
  vs_hist s = [] -> RunCycle env cfg fuel s = Some (returned, s') ->
  if vc_ManyDBEnabled cfg then batchVerdict env cfg returned s' else verdict cfg (vc_DBPath cfg) returned s'.
Proof.
  intros _ Hr. unfold RunCycle in Hr. destruct (vc_ManyDBEnabled cfg).
  - pose proof (many_spec env cfg fuel s Logic.I) as H. by rewrite Hr in H.
  - pose proof (single_spec env cfg fuel s Logic.I) as H. by rewrite Hr in H.
Qed.

(** * A sample cycle *)

Definition countSyncs (h : vhist) : Z := Z.of_nat (length (List.filter (fun e => match e with VSync _ _ => true | _ => false end) h)).
(** A clock that only the sleeps move. *)
Fixpoint sleptIn (h : vhist) : Z := match h with [] => 0%Z | VSleep d :: h => (Z.max 0 d + sleptIn h)%Z | _ :: h => sleptIn h end.

Definition sampleSnapshot : logicalSnapshot := mkSnapshot "5c4e" [mkTable "orders" 12 "9f3a"].
(** Litestream replicates transaction 7 with the second sync; the write lock is busy at first. *)
Definition sampleEnv : environment := {|
  en_clock h := (unixEpoch + sleptIn h)%Z;
  en_ctxErr _ := None;
  en_phaseErr _ := None;
  en_deadline h budget := (unixEpoch + sleptIn h + budget)%Z;
  en_phaseDeadline _ := None;
  en_sleep _ _ := None;
  en_fileSize _ path := if HasSuffix path "-wal" then 0%Z else 8192%Z;
  en_clean _ _ := None;
  en_pause _ _ := None;
  en_open _ := None;
  en_checkpoint _ := Ok 0%Z;
  en_retention _ := (None, "");
  en_diagnose _ := "{}";
  en_sync h _ _ := mkReply None 200 "200 OK" (Ok ("{7}", false)) (fun _ => Ok (Some 7%Z, Some (if (countSyncs h =? 0)%Z then 5%Z else 7%Z)));
  en_runtime _ := RuntimePayload_zero;
  en_marker _ := None;
  en_openReservation _ := None;
  en_reserveCtx h := if (15 * Second <=? sleptIn h)%Z then Some (mkErr [contextDeadlineExceeded] "context deadline exceeded") else None;
  en_begin h := match h with VReserveCtx :: VSleep _ :: _ => Begun | _ => BeginBusy end;
  en_rollback _ := None;
  en_snapshot _ _ := Ok sampleSnapshot;
  en_boundaryTime _ _ _ := None;
  en_config _ _ := Ok "/tmp/restore.yml";
  en_capacity _ _ _ := None;
  en_restore _ _ := mkRun [] None;
  en_integrity _ _ := None;
  en_markerCheck _ _ _ := None;
  en_churn _ := None;
  en_follow _ := newResult 0 "follow" "";
  en_vfs _ := newResult 0 "vfs" "";
  en_pending _ := ["/data/b.db"; "/data/other.db"; "/data/a.db"; "/data/b.db"];
  en_activePaths _ := ["/data/a.db"];
  en_coverage _ := mkCoverage 3 0 f64_zero
|}.
Definition sampleRotation (rotation : bool) (dbs : list string) : verifierConfig :=
  mkVConfig "/data/app.db" "restore" "steady" (30 * Minute) rotation (10 * Second) (5 * Second) (30 * Minute) 0 0 0 0 false false 0 false false
    "abc" "def" dbs 0 2 5 (2 * Second) 3 (2 * Second) "/usr/local/bin/litestream".
Definition sampleConfig : list string -> verifierConfig := sampleRotation false.
Definition sampleState : vstate := mkVState [] (newResult 0 "" "") [] "" None [] restoreOutput_zero.
Definition endOf (r : option (option verr * vstate)) : vstate := match r with Some (_, s) => s | None => sampleState end.

Lemma load_is_resumed_witness :
  existsb (fun e => match e with VPause _ true => true | _ => false end) (vs_hist (endOf (RunCycle sampleEnv (sampleConfig []) 400 sampleState))) = true /\
  running (endOf (RunCycle sampleEnv (sampleConfig []) 400 sampleState)).
Proof.
  split; [vm_compute; reflexivity|].
  apply (load_is_resumed sampleEnv (sampleConfig []) 400 sampleState None); [by split|vm_compute; reflexivity].
Defined.
Lemma cycle_verdict_witness :
  vr_BoundaryTXID (vs_res (endOf (RunCycle sampleEnv (sampleConfig []) 400 sampleState))) = 7%Z /\
  accepted (sampleConfig []) "/data/app.db" (endOf (RunCycle sampleEnv (sampleConfig []) 400 sampleState)).
Proof.
  split; [vm_compute; reflexivity|].
  exact (cycle_verdict sampleEnv (sampleConfig []) 400 sampleState None _ eq_refl (ltac:(vm_compute; reflexivity))).
Defined.

(** The two changed databases that exist are verified, each once. *)
Example batch_targets :
  selectManyDBVerificationTargets (sampleConfig ["/data/a.db"; "/data/b.db"]) (en_pending sampleEnv []) [] = (["/data/b.db"; "/data/a.db"], 2%Z).
Proof. vm_compute. reflexivity. Qed.
Example batch_passes :
  let s := endOf (RunCycle sampleEnv (sampleConfig ["/data/a.db"; "/data/b.db"]) 400 sampleState) in
  (vr_Status (vs_res s), vr_Passed (vs_res s)) = ("passed", true) /\
  List.filter (fun e => match e with VAck _ => true | _ => false end) (vs_hist s) = [VAck "/data/a.db"; VAck "/data/b.db"].
Proof. vm_compute. done. Qed.

(** * The status of a failure *)

(** The fields of a result that its completion leaves. *)
Definition told (r : verificationResult) : string * bool * string * string * string * option FailureClassification :=
  (vr_Status r, vr_Passed r, vr_Summary r, vr_ErrorMessage r, vr_RestoreMode r, vr_Inconclusive r).
Lemma addSizes_told env paths s : exists s', addSizes env paths s = Some ((), s') /\ told (vs_res s') = told (vs_res s).
Proof.
  revert s. induction paths as [|p paths IH]; intros s; cbn [addSizes]; [by exists s|]. unfold bind, fileSizeOf, ask, setResult.
  match goal with |- context [addSizes env paths ?s1] => destruct (IH s1) as (s' & -> & H) end. by exists s'.
Qed.
Lemma finalize_told env cfg s : exists s', finalizeResult env cfg s = Some ((), s') /\ told (vs_res s') = told (vs_res s).
Proof.
  unfold finalizeResult. unfold bind at 1, clock, ask. unfold bind at 1, setResult at 1. destruct (vc_ManyDBEnabled cfg).
  - match goal with |- context [addSizes env ?p ?s1] => destruct (addSizes_told env p s1) as (s' & -> & H) end. by exists s'.
  - unfold bind, fileSizeOf, ask, setResult. by eexists.
Qed.

(** The classification of an inconclusive validation. *)
Definition inconclusiveClass (e : goError) (mode : string) (before : option FailureClassification) : option FailureClassification :=
  if errorsIs e restoreCapacityInconclusiveError then Some (HarnessCapacityClassification mode)
  else if errorsIs e restoredComparisonLockedError then Some (RestoredComparisonLockedClassification mode) else before.

(** A failed validation reports exactly this: aborted when the cycle's context had
    ended or the error shows that the harness rather than the replica was at fault (a
    verifier deadline, a boundary that was not replicated, missing restore evidence, no room
    for the restore, a copy that stayed locked), pending when only the writer reservation
    could not be had, and failed otherwise; with the error's text and, for the
    two capacity and locking faults, the classification that keeps them from counting
    against Litestream. *)
Theorem failure_status_exact env cfg err s :
  let e := ve_err err in
  let ended := en_ctxErr env (vs_hist s) in
  let before := vs_res s in
  let status := if negb (isOk ended) || inconclusiveError e then "aborted"
                else if Contains (ge_text e) reservationMessage then "pending" else "failed" in
  let text := summarizeVerificationMessage (ge_text e) in
  let summary := if isOk ended && (inconclusiveError e || Contains (ge_text e) reservationMessage) then "verification inconclusive: " +:+ text
                 else if isOk ended then text else "verification aborted: " +:+ text in
  exists s', failValidationResult env cfg err s = Some ((), s') /\
    told (vs_res s') = (status, vr_Passed before, summary, ge_text e, vr_RestoreMode before,
                        inconclusiveClass e (vr_RestoreMode before) (vr_Inconclusive before)).
Proof.
  cbv zeta. unfold failValidationResult, failResult. cbv zeta.
  set (e := ve_err err). set (status := failureStatus (en_ctxErr env (vs_hist s)) (ge_text e)).
  unfold bind at 1. unfold bind at 1, ctxErr, ask. unfold bind at 1, setResult at 1. fold status.
  match goal with |- context [finalizeResult env cfg ?s1] => destruct (finalize_told env cfg s1) as (s2 & -> & Ht) end.
  unfold setResult. eexists. split; [reflexivity|]. unfold told in *. simpl in Ht. injection Ht as E1 E2 E3 E4 E5 E6.
  unfold inconclusiveClass. simpl. unfold status, failureStatus in *.
  destruct (en_ctxErr env (vs_hist s)) as [c|], (errorsIs e restoreCapacityInconclusiveError) eqn:Hc, (errorsIs e restoredComparisonLockedError) eqn:Hl;
    destruct (inconclusiveError e) eqn:Hi, (Contains (ge_text e) reservationMessage); repeat (progress (simpl; rewrite ?E1, ?E2, ?E3, ?E4, ?E5, ?E6)); reflexivity.
Qed.

(** * Deadlines *)

Definition fits (z : Z) : Prop := (min_int64 <= z <= max_int64)%Z.
(** A quantity in units, rounded up, at least one. *)
Definition unitsUp (size unit_ : Z) : Z := Z.max 1 (- (- size / unit_)).

Lemma ceil_quot size k : (1 < k)%Z -> fits size ->
  (if (0 <? Z.rem size k)%Z then int64 (Z.quot size k + 1) else Z.quot size k) = (- (- size / k))%Z.
Proof.
  intros Hk [H1 H2]. assert (int64 (Z.quot size k + 1) = Z.quot size k + 1)%Z as E.
  { apply int64_small. unfold min_int64, max_int64 in *. Z.to_euclidean_division_equations. nia. }
  rewrite E. clear E. destruct (Z.ltb_spec 0 (Z.rem size k)); Z.to_euclidean_division_equations; nia.
Qed.
Lemma phaseBudget_saturates floor size : (floor <= max_int64)%Z -> fits size ->
  phaseBudget floor size = Z.min max_int64 ((if (floor <=? 0)%Z then 30 * Minute else floor) * unitsUp size (2 ^ 30))%Z.
Proof.
  intros Hf Hs. unfold phaseBudget. cbv zeta. rewrite ceil_quot by (done || lia). unfold unitsUp.
  set (floor' := if (floor <=? 0)%Z then _ else floor). set (c := (- (- size / 2 ^ 30))%Z).
  assert ((if (c <? 1)%Z then 1%Z else c) = Z.max 1 c) as -> by (destruct (Z.ltb_spec c 1); lia).
  assert (0 < floor' <= max_int64)%Z as Hf'. { unfold floor', Minute, Second, max_int64 in *. destruct (Z.leb_spec floor 0); lia. }
  set (u := Z.max 1 c). assert (1 <= u)%Z by lia. destruct (Z.ltb_spec (Z.quot max_int64 floor') u) as [Hq|Hq].
  - rewrite Z.min_l; [done|]. rewrite Z.quot_div_nonneg in Hq by lia. pose proof (Z.mul_succ_div_gt max_int64 floor' ltac:(lia)). nia.
  - rewrite Z.quot_div_nonneg in Hq by lia. pose proof (Z.mul_div_le max_int64 floor' ltac:(lia)). assert (floor' * u <= max_int64)%Z by nia.
    rewrite Z.min_r by done. apply int64_small. unfold min_int64. nia.
Qed.

(** The deadlines are exact and never wrap around: a phase without an override gets
    its floor once per started gibibyte of the database, saturating at the longest
    duration, so that a database of any size gets at least the floor (and at least half an
    hour when no floor is configured); the pause between cycles is the interval or twice the
    last cycle, whichever is longer, saturating too; and the deadline sent to Litestream is
    the budget in whole seconds, rounded up, never zero. *)
Theorem deadlines_saturate c phase size elapsed :
  fits size -> (0 <= elapsed <= max_int64)%Z -> (vc_LogicalTimeout c <= max_int64)%Z -> (vc_VerifyInterval c <= max_int64)%Z ->
  Forall (fun override => override <= 0)%Z [vc_SourceSnapshotBudget c; vc_RestoreBudget c; vc_IntegrityCheckBudget c; vc_CompareBudget c] ->
  vc_ManyDBEnabled c = false ->
  verificationPhaseBudget c phase size =
    Z.min max_int64 ((if (vc_LogicalTimeout c <=? 0)%Z then 30 * Minute else vc_LogicalTimeout c) * unitsUp size (2 ^ 30)) /\
  verificationCooldown c elapsed = Z.min max_int64 (Z.max (vc_VerifyInterval c) (2 * elapsed)) /\
  timeoutSeconds size = unitsUp size Second.
Proof.
  intros Hs He Hl Hi Hp Hm. split_and!.
  - unfold verificationPhaseBudget. cbv zeta. rewrite <- phaseBudget_saturates by done.
    rewrite !Forall_cons in Hp. destruct Hp as (H1 & H2 & H3 & H4 & _).
    match goal with |- (if (0 <? ?o)%Z then _ else _) = _ => assert (o <= 0)%Z as Ho by (repeat case_match; lia); destruct (Z.ltb_spec 0 o); [lia|done] end.
  - unfold verificationCooldown, cooldown. rewrite Hm. destruct (Z.ltb_spec (Z.quot max_int64 2) elapsed) as [Hq|Hq].
    + change (Z.quot max_int64 2) with 4611686018427387903%Z in Hq. unfold max_int64 in *. lia.
    + change (Z.quot max_int64 2) with 4611686018427387903%Z in Hq. rewrite int64_small by (unfold min_int64, max_int64; lia). unfold max_int64 in *. lia.
  - unfold timeoutSeconds, unitsUp. cbv zeta. destruct (Z.eqb_spec (Z.rem size Second) 0) as [E|E]; cbn [negb].
    + destruct (Z.ltb_spec (Z.quot size Second) 1); unfold Second in *; Z.to_euclidean_division_equations; lia.
    + rewrite int64_small.
      * destruct (Z.ltb_spec (Z.quot size Second + 1) 1); unfold Second in *; Z.to_euclidean_division_equations; lia.
      * destruct Hs. unfold min_int64, max_int64, Second in *. Z.to_euclidean_division_equations. lia.
Qed.
Lemma deadlines_saturate_witness :
  verificationPhaseBudget (sampleConfig []) "restore_preflight" (5 * 2 ^ 30 + 1) = (180 * Minute)%Z /\
  verificationPhaseBudget (sampleConfig []) "restore_preflight" (5 * 2 ^ 30 + 1) =
    Z.min max_int64 ((30 * Minute) * unitsUp (5 * 2 ^ 30 + 1) (2 ^ 30)).
Proof.
  split; [vm_compute; reflexivity|].
  apply (deadlines_saturate (sampleConfig []) "restore_preflight" (5 * 2 ^ 30 + 1) 0); try (vm_compute; intuition discriminate).
  repeat constructor; vm_compute; discriminate.
Defined.

(** * A cycle ends *)

(** What the loops rely on: time does not run backwards, a sleep that is not cut
    short takes its time, and the context of a reservation attempt ends once the attempt
    has slept for fifteen seconds. *)
Definition reserving (e : vcall) : bool := match e with VReserveCtx | VBegin _ | VSleep _ => true | _ => false end.
Fixpoint sleptFor (h : vhist) : Z := match h with [] => 0%Z | VSleep d :: h => (d + sleptFor h)%Z | _ :: h => sleptFor h end.
Record timely (env : environment) : Prop := {
  tm_forward : forall e h, (en_clock env h <= en_clock env (e :: h))%Z;
  tm_sleep : forall h d, en_sleep env h d = None -> (en_clock env h + d <= en_clock env (VSleep d :: h))%Z;
  tm_reserve : forall h l, forallb reserving l = true -> (15 * Second <= sleptFor l)%Z -> en_reserveCtx env (l ++ h) <> None
}.
Definition returns {A} (m : V A) : Prop := forall s, is_Some (m s).

Lemma returns_bind {A B} (m : V A) (k : A -> V B) : returns m -> (forall a, returns (k a)) -> returns (bind m k).
Proof. intros Hm Hk s. unfold bind. destruct (Hm s) as [[a s'] ->]. apply Hk. Qed.
Lemma returns_when b m : returns m -> returns (when b m).
Proof. destruct b; [done|]. intros _ s. by eexists. Qed.
Lemma returns_with r m : returns m -> returns (withResult r m).
Proof. intros Hm s. unfold withResult. destruct (Hm (s <| vs_res := r |>)) as [[a s'] ->]. by eexists. Qed.

Create HintDb returning.
Ltac plain_step :=
  match goal with
  | |- returns (bind _ _) => apply returns_bind; [|intros]
  | |- returns (ret _) => intros ?; by eexists
  | |- returns (when _ _) => apply returns_when
  | |- returns (withResult _ _) => apply returns_with
  | |- returns (match ?x with _ => _ end) => destruct x
  | |- returns (let '(_, _) := ?x in _) => destruct x
  | |- returns _ => solve [auto with returning]
  | |- returns _ => intros ?; by eexists
  end.
Ltac returning_plain := repeat (cbv zeta; plain_step).

Lemma record_returns {A} `{Fallible A} env name (fn : V A) : returns fn -> returns (recordVerificationStep env name fn).
Proof. intros Hf. unfold recordVerificationStep, timedStep, clock. returning_plain. Qed.
Lemma phase_returns {A} `{Fallible A} env name budget (fn : V A) : returns fn -> returns (runValidationPhase env name budget fn).
Proof. intros Hf. unfold runValidationPhase, timedStep, phaseOutcome, clock, phaseErr. returning_plain. Qed.
Ltac returning_step :=
  match goal with
  | |- returns (recordVerificationStep _ _ _) => apply record_returns
  | |- returns (runValidationPhase _ _ _ _) => apply phase_returns
  | |- _ => plain_step
  end.
Ltac returning := repeat (cbv zeta; returning_step).

Section Returning.
Context (env : environment) (cfg : verifierConfig).

Lemma resumeDown_returns i : returns (resumeDown i).
Proof. induction i as [|i IH]; cbn [resumeDown]; returning. Qed.
Hint Resolve resumeDown_returns : returning.
Lemma pauseFrom_returns n i : returns (pauseFrom env cfg n i).
Proof. revert i. induction n as [|n IH]; intros i; cbn [pauseFrom]; returning. Qed.
Lemma resumeFrom_returns n i : returns (resumeFrom n i).
Proof. revert i. induction n as [|n IH]; intros i; cbn [resumeFrom]; returning. Qed.
Hint Resolve pauseFrom_returns resumeFrom_returns : returning.
Lemma pause_returns : returns (pauseLoad env cfg).
Proof. unfold pauseLoad. returning. Qed.
Lemma resume_returns : returns (resumeLoad cfg).
Proof. unfold resumeLoad. returning. Qed.
Hint Resolve pause_returns resume_returns : returning.
Lemma checkpointLoop_returns n attempt b last : returns (checkpointLoop env cfg n attempt b last).
Proof. revert attempt last. induction n as [|n IH]; intros attempt last; cbn [checkpointLoop]; returning. Qed.
Hint Resolve checkpointLoop_returns : returning.
Lemma addSizes_returns paths : returns (addSizes env paths).
Proof. induction paths as [|p paths IH]; cbn [addSizes]; returning. Qed.
Hint Resolve addSizes_returns : returning.
Lemma finalize_returns : returns (finalizeResult env cfg).
Proof. unfold finalizeResult. returning. Qed.
Hint Resolve finalize_returns : returning.
Lemma failResult_returns m : returns (failResult env cfg m).
Proof. unfold failResult. returning. Qed.
Hint Resolve failResult_returns : returning.
Lemma failValidation_returns e : returns (failValidationResult env cfg e).
Proof. unfold failValidationResult. returning. Qed.
Lemma readRestored_returns n p : returns (readRestoredLogicalSnapshot env n p).
Proof. induction n as [|n IH]; cbn [readRestoredLogicalSnapshot]; returning. Qed.
Lemma cleanAll_returns paths : returns (cleanAll env paths).
Proof. induction paths as [|p paths IH]; cbn [cleanAll]; returning. Qed.
Hint Resolve failValidation_returns readRestored_returns cleanAll_returns : returning.
Lemma restoreAndJudge_returns a b c d e f g h : returns (restoreAndJudge env cfg a b c d e f g h).
Proof.
  unfold restoreAndJudge, restoreCommand, runRestore, judgeRestored, checkCapacity, checkRestoredIntegrity, liftErr, compareRestoredLogical. returning.
Qed.
Lemma extra_returns : returns (extraChecks env cfg).
Proof.
  unfold extraChecks, runPreUpgradeRestore, preUpgradeBody, restorePreUpgradeTXID, preUpgradePhases, preUpgradeCommand, runRestore, checkCapacity,
    checkRestoredIntegrity, liftErr, sourceSizeOf, pass. returning.
Qed.
Hint Resolve restoreAndJudge_returns extra_returns : returning.

Context (Htime : timely env).
Lemma reserveLoop_ends h l fuel s :
  vs_hist s = l ++ h -> forallb reserving l = true -> (1 <= fuel)%nat -> (15 * Second <= sleptFor l + (Z.of_nat fuel - 1) * (50 * Millisecond))%Z ->
  is_Some (reserveLoop env fuel s).
Proof.
  revert l s. induction fuel as [|fuel IH]; intros l s Hh Hl Hf Hz; [lia|]. cbn [reserveLoop]. unfold bind, ask, ret. rewrite Hh.
  destruct (en_reserveCtx env (l ++ h)) as [e|] eqn:Hc; [by eexists|].
  assert (~ (15 * Second <= sleptFor l)%Z) as Hlt by (intros H; by apply (tm_reserve env Htime h l Hl H)).
  destruct (en_begin env _); [by eexists| |by eexists]. unfold sleep, ask. destruct (en_sleep env _ _); [by eexists|].
  apply (IH (VSleep (50 * Millisecond) :: VBegin false :: VReserveCtx :: l)); simpl; [by rewrite Hh|done| |]; unfold Second, Millisecond in *; lia.
Qed.
Lemma reserve_returns fuel : (301 <= fuel)%nat -> returns (reserveLoop env fuel).
Proof. intros Hf s. apply (reserveLoop_ends (vs_hist s) []); [done|done|lia|]. unfold Second, Millisecond. simpl. lia. Qed.

Lemma clock_forward h h' : h `suffix_of` h' -> (en_clock env h <= en_clock env h')%Z.
Proof. intros [k ->]. induction k as [|e k IH]; [done|]. simpl. pose proof (tm_forward env Htime e (k ++ h)). lia. Qed.

Lemma failSync_returns e : returns (failSync env e).
Proof. unfold failSync, captureSyncFailureDiagnostics. returning. Qed.
(** From a state satisfying [P] the step returns. *)
Definition ends {A} (P : vstate -> Prop) (m : V A) : Prop := forall s, P s -> is_Some (m s).
Lemma ends_returns {A} P (m : V A) : returns m -> ends P m.
Proof. intros H s _. apply H. Qed.
Lemma ends_then {A B} (m : V A) (k : A -> V B) P R : returns m -> spec P m R -> (forall a, ends (R a) (k a)) -> ends P (bind m k).
Proof. intros Hm Hs Hk s HP. unfold bind. specialize (Hs s HP). destruct (Hm s) as [[a s'] E]. rewrite E in *. by apply Hk. Qed.
Lemma ends_calm {A B} (m : V A) (k : A -> V B) P : returns m -> keeps P m -> (forall a, ends P (k a)) -> ends P (bind m k).
Proof. intros Hm Hs Hk. by eapply ends_then. Qed.
Lemma clock_reads h0 : spec (past h0) (clock env) (fun now s => (en_clock env h0 <= now)%Z /\ past h0 s).
Proof. apply hoare_ask. intros s Hs. split; [by apply clock_forward|by apply suffix_cons_r]. Qed.

Lemma syncLoop_ends fuel db startedAt deadline logged h0 :
  (0 < vc_syncRetryDelay cfg)%Z -> (1 <= fuel)%nat -> (deadline - en_clock env h0 < Z.of_nat fuel * vc_syncRetryDelay cfg)%Z ->
  ends (past h0) (syncLoop env cfg fuel db startedAt deadline logged).
Proof.
  intros Hd. revert logged h0. induction fuel as [|fuel IH]; intros logged h0 Hf Hz; [lia|]. cbn [syncLoop]. pose proof failSync_returns as Hfail.
  apply ends_calm; [returning|apply (readClock_quiet env (past h0))|intros now]. apply ends_calm; [returning|apply (request_quiet env (past h0))|].
  intros [[txid replicated]|e]; [|by apply ends_returns]. apply ends_calm; [returning|by intros s Hs|intros ?].
  destruct (txid <=? replicated)%Z; [apply ends_returns; returning|].
  eapply ends_then; [returning|apply (clock_reads h0)|intros now']. unfold After, time_Add. destruct (Z.ltb_spec deadline (now' + vc_syncRetryDelay cfg)%Z).
  { apply ends_returns. unfold syncLagNotResolvedError. returning. }
  intros s [Hn Hs]. revert s Hs. match goal with |- forall s, _ -> is_Some (?m s) => change (ends (past h0) m) end.
  apply ends_calm; [returning|apply (readClock_quiet env (past h0))|intros now'']. cbv zeta.
  apply ends_calm; [returning|apply keeps_when, (keeps_tell (past h0)); done|intros ?].
  eapply ends_then with (R := fun ended s => ended = None -> exists h1, (en_clock env h0 + vc_syncRetryDelay cfg <= en_clock env h1)%Z /\ past h1 s).
  - unfold sleep. returning.
  - apply hoare_ask. intros s Hs. cbv zeta. intros E. exists (VSleep (vc_syncRetryDelay cfg) :: vs_hist s). split; [|unfold past; done].
    pose proof (tm_sleep env Htime _ _ E). pose proof (clock_forward _ _ Hs). lia.
  - intros [e|]; [by apply ends_returns|]. intros s Hs. destruct (Hs eq_refl) as (h1 & Hc & Hh). apply (IH _ h1); [nia|nia|done].
Qed.
Context (fuel : nat) (Hfuel : (301 <= fuel)%nat) (Hdelay : (0 < vc_syncRetryDelay cfg)%Z)
  (Hbudget : (verifySyncTimeout cfg < Z.of_nat fuel * vc_syncRetryDelay cfg)%Z).
Lemma waitForSync_returns db : returns (waitForSyncDB env cfg fuel db).
Proof.
  unfold waitForSyncDB, diagnose. do 4 (apply returns_bind; [returning|intros]). intros s. unfold bind, clock, ask.
  apply (syncLoop_ends fuel db _ _ false (vs_hist s)); [done|lia|unfold time_Add; lia|]. unfold past. by apply suffix_cons_r.
Qed.
Lemma acquireLoop_returns n b : returns (acquireLoop env cfg fuel n b).
Proof. pose proof (reserve_returns fuel Hfuel). induction n as [|n IH]; cbn [acquireLoop]; returning. Qed.
Hint Resolve waitForSync_returns acquireLoop_returns : returning.
Lemma validate_returns a b : returns (validateDBResult env cfg fuel a b).
Proof.
  unfold validateDBResult, markerMode, sourceSizeOf, captureVerificationBoundary, boundaryUnderReservation, acquireBoundaryReservation, logicalValidation,
    requestLitestreamSync, releaseReservation, targetMode. returning.
Qed.
Hint Resolve validate_returns : returning.
Lemma verifyTargets_returns pending targets cleanups : returns (verifyTargets env cfg fuel pending targets cleanups).
Proof.
  revert cleanups. induction targets as [|p targets IH]; intros cleanups; cbn [verifyTargets]; [returning|].
  apply returns_bind; [unfold verifyTarget, failTarget, validateTarget, checkpointDB; returning|intros; returning].
Qed.
Hint Resolve verifyTargets_returns : returning.
Lemma pausedCycle_returns : returns (pausedCycle env cfg fuel).
Proof. unfold pausedCycle, loadRetention, syncAndValidate, checkpointDB, failCycle, pass. returning. Qed.
Lemma pausedBatch_returns : returns (pausedBatch env cfg fuel).
Proof. unfold pausedBatch, batchBody, concludeBatch, pendingCoverage, coverage. returning. Qed.
Hint Resolve pausedCycle_returns pausedBatch_returns : returning.
Lemma cycle_ends s : (0 <= en_clock env (VClock :: vs_hist s) - unixEpoch <= max_int64)%Z -> is_Some (RunCycle env cfg fuel s).
Proof.
  intros Hclock. unfold RunCycle. destruct (vc_ManyDBEnabled cfg); [revert s Hclock; enough (returns (runManyDBCycle env cfg fuel)) as H by (intros; apply H); unfold runManyDBCycle, failCycle; returning|].
  unfold runSingleCycle. unfold bind at 1, clock at 1, ask. unfold bind at 1, clock, ask.
  destruct (restoreModeAt_defined (vc_VerifyRestoreRotation cfg) (vc_VerifyInterval cfg) (vc_ProfileName cfg) _ Hclock) as [mode Hmode].
  simpl. rewrite Hmode.
  match goal with |- is_Some (?m _) => enough (returns m) as H by apply H end.
  unfold cleanedCycle, failCycle. returning.
Qed.
End Returning.

(** C28: a cycle ends.  In an environment where time moves forward, sleeps take their time
    and a reservation attempt's context ends after its fifteen seconds, a cycle that starts between 1970 and the last time whose
    nanoseconds an int64 holds, under a positive retry delay of the sync, and with more
    rounds than the sync timeout has retry delays and than an attempt's deadline has
    waits of 50 ms, returns a result: no answer of the database, of Litestream or of the restore
    makes it wait forever, and no rotation of the restore modes makes it panic. *)
Theorem cycle_returns env cfg fuel s :
  timely env -> (0 <= en_clock env (VClock :: vs_hist s) - unixEpoch <= max_int64)%Z ->
  (301 <= fuel)%nat -> (0 < vc_syncRetryDelay cfg)%Z -> (verifySyncTimeout cfg < Z.of_nat fuel * vc_syncRetryDelay cfg)%Z ->
  is_Some (RunCycle env cfg fuel s).
Proof. intros H1 H2 H3 H4 H5. by apply cycle_ends. Qed.

Lemma sleptIn_bound l h : (0 <= sleptIn h)%Z /\ (sleptFor l + sleptIn h <= sleptIn (l ++ h))%Z.
Proof.
  split; [induction h as [|e h IH]|induction l as [|e l IH]]; simpl; try lia; destruct e; lia.
Qed.
Lemma sample_timely : timely sampleEnv.
Proof.
  split.
  - intros e h. simpl. destruct e; simpl; lia.
  - intros h d _. simpl. lia.
  - intros h l _ H. simpl. destruct (sleptIn_bound l h). destruct (Z.leb_spec (15 * Second) (sleptIn (l ++ h))); [done|lia].
Qed.
(** The sample's cycle with the rotation of restore modes. *)
Definition rotatingConfig : verifierConfig := sampleRotation true [].
Lemma cycle_returns_witness :
  restoreModeAt (vc_VerifyRestoreRotation rotatingConfig) (vc_VerifyInterval rotatingConfig) (vc_ProfileName rotatingConfig) (en_clock sampleEnv [VClock]) = Some restoreModeTimestamp /\
  is_Some (RunCycle sampleEnv rotatingConfig 301 sampleState).
Proof.
  split; [vm_compute; reflexivity|].
  apply (cycle_returns sampleEnv rotatingConfig 301 sampleState); [exact sample_timely|by vm_compute|lia|vm_compute; reflexivity|vm_compute; reflexivity].
Defined.
