(* ===== verification/ManyDB.v ===== *)
(** The databases of a many-database worker that await verification:
    [worker/manydb.go], with the active set of [worker/config.go].

    Writers mark a database as written before they write a row, the verifier lists
    the pending databases with the load paused and acknowledges each one at the
    generation it listed, and the set of written databases is kept in a file so that a
    restart does not lose it.  The operations on the tracker are functions; the goroutines
    that call them, the two mutexes between them, the file and its directory entry,
    and the restarts are a transition system whose actions run in any order. *)
From stdpp Require Import sorting.
From Stdlib Require Import Ascii SpecFloat.
From S2P Require Import Prelude GoStrings GoTime Model LitestreamConfig RestorePlan Verifier.

(** * The active set *)

Section Active.
Variable (c : workerConfig).
Variables (ActivePercent : float64) (ActiveSetSeed : Z) (ActiveRotateInterval : duration).

(** [math.Ceil] of a float, as an integer. *)
Definition f64_ceil (f : float64) : Z :=
  let t := f64_trunc f in
  match f with
  | S754_finite false _ _ => if f64_ltb (f64_of_Z t) f then (t + 1)%Z else t
  | S754_finite true _ _ => (- t)%Z
  | _ => 0%Z
  end.
Definition ManyDBActiveCount : Z :=
  let n := wc_NumDatabases c in
  if (n <=? 0)%Z || f64_leb ActivePercent f64_zero then 0%Z
  else
    let count := f64_ceil (f64_div (f64_mul (f64_of_Z n) ActivePercent) (f64_of_Z 100)) in
    if (count <? 1)%Z then 1%Z else if (n <? count)%Z then n else count.

(** [hash/fnv.New64a]. *)
Definition fnv64a (s : string) : Z :=
  fold_left (fun h x => uint64 (Z.lxor h (Z.of_N (N_of_ascii x)) * 1099511628211)) (String.list_ascii_of_string s) 14695981039346656037%Z.
Definition rankManyDBPath (seed generation index : Z) : Z := fnv64a (fmt_int seed +:+ "/" +:+ fmt_int generation +:+ "/" +:+ fmt_int index).

Definition manyDBActiveRotateInterval : duration := if (ActiveRotateInterval <=? 0)%Z then (30 * Minute)%Z else ActiveRotateInterval.
(** [now] is the clock's time when the caller has none. *)
Definition manyDBActiveGeneration (now : time) : Z := Z.quot (UnixNano now) manyDBActiveRotateInterval.

Definition rankedBefore (a b : Z * string) : Prop :=
  if (fst a =? fst b)%Z then String.leb (snd a) (snd b) = true else (fst a < fst b)%Z.
#[local] Instance rankedBefore_dec : RelDecision rankedBefore.
Proof. intros a b. unfold rankedBefore. destruct (fst a =? fst b)%Z; apply _. Defined.
Definition ManyDBActivePathsAt (now : time) : list string :=
  let paths := ManyDBPaths c in
  let count := ManyDBActiveCount in
  if (count <=? 0)%Z || (Z.of_nat (length paths) =? 0)%Z then []
  else if (Z.of_nat (length paths) <=? count)%Z then paths
  else
    let generation := manyDBActiveGeneration now in
    let ranked := imap (fun i path => (rankManyDBPath ActiveSetSeed generation (Z.of_nat i), path)) paths in
    firstn (Z.to_nat count) (map snd (merge_sort rankedBefore ranked)).
End Active.

(** * The dispatcher *)

Definition DefaultMaxRowsPerDatabase (numDatabases : Z) : Z :=
  if (numDatabases <=? 0)%Z then 0%Z
  else let maxRows := Z.quot 5000000 numDatabases in if (maxRows <? 1)%Z then 1%Z else maxRows.
Definition manyDBMaxRowsPerDatabase (MaxRowsPerDatabase numDatabases : Z) : Z :=
  if (0 <? MaxRowsPerDatabase)%Z then MaxRowsPerDatabase else DefaultMaxRowsPerDatabase numDatabases.

Record dispatcher := mkDispatcher {
  dp_paths : option (list string);
  dp_generation : Z;
  dp_next : Z;
  dp_slots : gmap string Z
}.
(** A tick of [dispatch]: the write it sends, if any.  [active] is the active set now. *)
Definition dispatchTick (maxRows generation : Z) (active : list string) (d : dispatcher) : dispatcher * option (string * Z) :=
  let rotate := match dp_paths d with None => true | Some _ => negb (generation =? dp_generation d)%Z end in
  let d := if rotate then mkDispatcher (match active with [] => None | _ => Some active end) generation 0 (dp_slots d) else d in
  let paths := default [] (dp_paths d) in
  match paths with
  | [] => (d, None)
  | _ =>
      let next := uint64 (dp_next d + 1) in
      let idx := Z.rem (int64 (next - 1)) (Z.of_nat (length paths)) in
      let dbPath := default "" (paths !! Z.to_nat idx) in
      let slot := (default 0 (dp_slots d !! dbPath) + 1)%Z in
      let slot := if (maxRows <? slot)%Z then 1%Z else slot in
      (mkDispatcher (dp_paths d) (dp_generation d) next (<[dbPath := slot]> (dp_slots d)), Some (dbPath, slot))
  end.

(** * The tracker *)

Record manyDBChange := mkChange { ch_generation : Z; ch_since : time; ch_written : bool; ch_durable : bool }.
#[export] Instance manyDBChange_eta : Settable manyDBChange :=
  fun r => mkChange (ch_generation r) (ch_since r) (ch_written r) (ch_durable r).

Record manyDBLoad := mkLoad {
  ld_changed : gmap string manyDBChange;
  ld_generation : Z;
  ld_lastAttempt : string;
  ld_dirty : bool;
  ld_paused : bool;
  ld_active : nat;
  ld_stopped : bool
}.
#[export] Instance manyDBLoad_eta : Settable manyDBLoad :=
  fun r => mkLoad (ld_changed r) (ld_generation r) (ld_lastAttempt r) (ld_dirty r) (ld_paused r) (ld_active r) (ld_stopped r).
Definition manyDBLoad_zero : manyDBLoad := mkLoad ∅ 0 "" false false 0 false.

(** Whether the database entered the written set. *)
Definition mark (now : time) (dbPath : string) (written : bool) (l : manyDBLoad) : manyDBLoad * bool :=
  if dbPath =s "" then (l, false)
  else
    let change := default (mkChange 0 now false false) (ld_changed l !! dbPath) in
    let generation := uint64 (ld_generation l + 1) in
    let entered := written && negb (ch_written change) in
    let change := mkChange generation (ch_since change) (ch_written change || written) (if entered then false else ch_durable change) in
    (l <| ld_generation := generation |> <| ld_changed ::= <[dbPath := change]> |>, entered).

Definition setWritten (path : string) (l : manyDBLoad) : manyDBLoad :=
  let change := default (mkChange 0 0 false false) (ld_changed l !! path) in
  l <| ld_changed ::= <[path := change <| ch_written := true |>]> |>.

(** [markDurableWrite] once it has seen that the state is not dirty. *)
Definition markDurable (dbPath : string) (l : manyDBLoad) : manyDBLoad * bool :=
  match ld_changed l !! dbPath with
  | Some change =>
      if negb (ch_written change) || negb (ch_durable change) then (l, false)
      else
        let generation := uint64 (ld_generation l + 1) in
        (l <| ld_generation := generation |> <| ld_changed ::= <[dbPath := change <| ch_generation := generation |>]> |>, true)
  | None => (l, false)
  end.

(** [sort.Strings]. *)
Definition path_le (a b : string) : Prop := String.leb a b = true.
#[export] Instance path_le_dec : RelDecision path_le.
Proof. intros a b. unfold path_le. apply _. Defined.
Definition writtenPaths (l : manyDBLoad) : list string :=
  merge_sort path_le (map fst (List.filter (fun p => ch_written (snd p)) (map_to_list (ld_changed l)))).
(** A saved snapshot makes the entries it holds durable. *)
Definition markSaved (written : list string) (l : manyDBLoad) : manyDBLoad :=
  l <| ld_changed ::= fun m => fold_left (fun m path =>
    match m !! path with
    | Some change => if ch_written change then <[path := change <| ch_durable := true |>]> m else m
    | None => m
    end) written m |>.

(** The pending set, written databases first, each group from the last attempt on. *)
Definition pendingBefore (last : string) (a b : string * manyDBChange) : Prop :=
  if negb (Bool.eqb (ch_written (snd a)) (ch_written (snd b))) then ch_written (snd a) = true
  else
    let after p := String.ltb last p in
    if negb (Bool.eqb (after (fst a)) (after (fst b))) then after (fst a) = true else String.leb (fst a) (fst b) = true.
#[export] Instance pendingBefore_dec last : RelDecision (pendingBefore last).
Proof. intros a b. unfold pendingBefore. destruct (negb _); [apply _|]. cbv zeta. destruct (negb _); apply _. Defined.
Definition pendingManyDBChanges (l : manyDBLoad) : list (string * manyDBChange) :=
  merge_sort (pendingBefore (ld_lastAttempt l)) (map_to_list (ld_changed l)).
Definition attemptManyDBChange (path : string) (l : manyDBLoad) : manyDBLoad := l <| ld_lastAttempt := path |>.

(** The part of [acknowledgeManyDBChange] under the lock: whether the generation was
    the current one, and whether the database was written. *)
Definition acknowledge (path : string) (generation : Z) (l : manyDBLoad) : manyDBLoad * bool :=
  match ld_changed l !! path with
  | Some current =>
      if (ch_generation current =? generation)%Z then (l <| ld_changed ::= delete path |>, ch_written current) else (l, false)
  | None => (l, false)
  end.

Definition manyDBPendingCoverage (now : time) (l : manyDBLoad) : manyDBCoverage :=
  let changes := map snd (map_to_list (ld_changed l)) in
  let oldest := fold_left (fun oldest change => if Before (ch_since change) oldest then ch_since change else oldest) changes now in
  let age := Seconds (time_Sub now oldest) in
  mkCoverage (Z.of_nat (length changes)) (Z.of_nat (length (List.filter ch_written changes))) (if f64_ltb f64_zero age then age else f64_zero).

(** What reading the written set gives: its paths, an error of a missing file, or
    another error.  [onVolume] says whether a database exists. *)
Inductive readState := ReadOk (written : list string) | ReadMissing | ReadFailed.
Definition restoreWrittenState (read : readState) (onVolume : bool) (l : manyDBLoad) : manyDBLoad :=
  match read with
  | ReadOk written => fold_left (fun l' path => if bool_decide (is_Some (ld_changed l !! path)) then setWritten path l' else l') written l
  | _ => if negb onVolume then l else fold_left (fun l' path => setWritten path l') (map fst (map_to_list (ld_changed l))) l
  end.
Definition newManyDBLoad (now : time) (paths : list string) (read : readState) (onVolume : bool) : manyDBLoad :=
  restoreWrittenState read onVolume (fold_left (fun l path => fst (mark now path false l)) paths manyDBLoad_zero).

(** * The goroutines *)

(** A save under [stateMu]: the directory, the snapshot, the file (the temporary file
    or the rename fails, or the rename is done and the directory's sync fails), the removal
    of the stale file and its sync, the dirty flag, the durable marks. *)
Inductive savePhase :=
| SaveStat
| SaveSnapshot
| SaveWrite (written : list string)
| SaveRemove
| SaveSyncRemoved
| SaveDirty (removed : bool)
| SaveMark (written : list string)
| SaveClean.

(** A writer of [performWrite]. *)
Inductive writerPC :=
| WCheck (dbPath : string)
| WCheckLocked (dbPath : string)
| WWait (dbPath : string)
| WRecheck (dbPath : string)
| WRecheckLocked (dbPath : string)
| WMark (dbPath : string)
| WSave (dbPath : string) (p : savePhase)
| WRow (dbPath : string)
| WEnd.

(** The verifier: how far it has paused the load, and what it does with an
    acknowledgement. *)
Inductive pausing := Running | Pausing | Quiesced.
Inductive verifierPC := VIdle | VDecide (written : bool) | VWait | VSave (p : savePhase).

Inductive loadActor := Writer (w : nat) | TheVerifier.
#[export] Instance loadActor_eq_dec : EqDecision loadActor.
Proof. solve_decision. Defined.

(** The contents that a restart may find in the file: those since the directory was
    last synced; [None] is no file. *)
Abbreviation contents := (list (option (list string))).

Record loadWorld := mkWorld {
  wd_load : manyDBLoad;
  wd_lock : option loadActor;
  wd_writers : gmap nat writerPC;
  wd_pausing : pausing;
  wd_listed : gmap string (Z * bool);  (** the generations listed, and whether the database was verified since *)
  wd_verifier : verifierPC;
  wd_disk : contents;
  wd_rows : gmap string Z;       (** rows committed to each database *)
  wd_covered : gmap string Z     (** of which the newest verification saw so many *)
}.
#[export] Instance loadWorld_eta : Settable loadWorld :=
  fun r => mkWorld (wd_load r) (wd_lock r) (wd_writers r) (wd_pausing r) (wd_listed r) (wd_verifier r) (wd_disk r) (wd_rows r) (wd_covered r).
Definition rowsOf (m : gmap string Z) (dbPath : string) : Z := default 0%Z (m !! dbPath).

(** How an operation of the file system ends. *)
Inductive ioOutcome := IOOk | IOFailed | IOLate.

(** A step of a save: the next phase, or [Err] when it is done, with whether it must
    refuse a write. *)
Definition saveStep (o : ioOutcome) (p : savePhase) (s : loadWorld) : loadWorld * result bool savePhase :=
  let l := wd_load s in
  match p with
  | SaveStat => (s, match o with IOOk => Ok SaveSnapshot | _ => Err false end)
  | SaveSnapshot => (s, Ok (SaveWrite (writtenPaths l)))
  | SaveWrite written =>
      match o with
      | IOOk => (s <| wd_disk := [Some written] |>, Ok (SaveMark written))
      | IOFailed => (s, Ok SaveRemove)
      | IOLate => (s <| wd_disk ::= cons (Some written) |>, Ok SaveRemove)
      end
  | SaveRemove =>
      match o with
      | IOOk => (s <| wd_disk ::= cons None |>, Ok SaveSyncRemoved)
      | _ => (s, Ok (SaveDirty false))
      end
  | SaveSyncRemoved =>
      match o with
      | IOOk => (s <| wd_disk := [None] |>, Ok (SaveDirty true))
      | _ => (s, Ok (SaveDirty false))
      end
  | SaveDirty removed => (s <| wd_load := l <| ld_dirty := true |> |>, Err (negb removed))
  | SaveMark written => (s <| wd_load := markSaved written l |>, Ok SaveClean)
  | SaveClean => (s <| wd_load := l <| ld_dirty := false |> |>, Err false)
  end.

(** A row is committed or not, whatever the call returns. *)
Definition commitRow (committed : bool) (dbPath : string) (s : loadWorld) : loadWorld :=
  if committed then s <| wd_rows ::= fun m => <[dbPath := (rowsOf m dbPath + 1)%Z]> m |> else s.

Section System.
Variables (paths : list string) (now : time).

(** The next phase of a writer; [None] while it waits for the lock. *)
Definition writerStep (o : ioOutcome) (w : nat) (pc : writerPC) (s : loadWorld) : option (loadWorld * option writerPC) :=
  let l := wd_load s in
  match pc with
  | WCheck db => Some (s, Some (if ld_dirty l then WWait db else WCheckLocked db))
  | WCheckLocked db =>
      let '(l, ok) := markDurable db l in Some (s <| wd_load := l |>, Some (if ok then WRow db else WWait db))
  | WWait db =>
      match wd_lock s with None => Some (s <| wd_lock := Some (Writer w) |>, Some (WRecheck db)) | Some _ => None end
  | WRecheck db => Some (s, Some (if ld_dirty l then WMark db else WRecheckLocked db))
  | WRecheckLocked db =>
      let '(l, ok) := markDurable db l in
      Some (if ok then (s <| wd_load := l |> <| wd_lock := None |>, Some (WRow db)) else (s, Some (WMark db)))
  | WMark db => Some (s <| wd_load := fst (mark now db true l) |>, Some (WSave db SaveStat))
  | WSave db p =>
      let '(s, next) := saveStep o p s in
      match next with
      | Ok p => Some (s, Some (WSave db p))
      | Err refused => Some (s <| wd_lock := None |>, Some (if refused then WEnd else WRow db))
      end
  | WRow db => Some (commitRow (match o with IOFailed => false | _ => true end) db s, Some WEnd)
  | WEnd => Some (s <| wd_load := l <| ld_active := pred (ld_active l) |> |>, None)
  end.

Definition verifierStep (o : ioOutcome) (s : loadWorld) : option loadWorld :=
  match wd_verifier s with
  | VIdle => None
  | VDecide written => Some (s <| wd_verifier := if written || ld_dirty (wd_load s) then VWait else VIdle |>)
  | VWait => match wd_lock s with None => Some (s <| wd_lock := Some TheVerifier |> <| wd_verifier := VSave SaveStat |>) | Some _ => None end
  | VSave p =>
      let '(s, next) := saveStep o p s in
      match next with
      | Ok p => Some (s <| wd_verifier := VSave p |>)
      | Err _ => Some (s <| wd_lock := None |> <| wd_verifier := VIdle |>)
      end
  end.

Inductive loadAction :=
| ABegin (w : nat) (dbPath : string)
| AWriter (w : nat) (o : ioOutcome)
| APause
| AQuiet
| AResume
| AStop
| AList
| AVerify (dbPath : string)
| AAttempt (dbPath : string)
| AAcknowledge (dbPath : string)
| AVerifier (o : ioOutcome)
| ARestart (found : option (option (list string))).

(** A restart reads one of the contents the disk may hold, or fails to. *)
Definition readOf (found : option (option (list string))) : readState :=
  match found with Some (Some written) => ReadOk written | Some None => ReadMissing | None => ReadFailed end.
Definition restartLoad (found : option (option (list string))) (s : loadWorld) : loadWorld :=
  mkWorld (newManyDBLoad now paths (readOf found) true) None ∅ Running ∅ VIdle (wd_disk s) (wd_rows s) (wd_covered s).

(** A step, when the action is possible. *)
Definition loadAct (a : loadAction) (s : loadWorld) : option loadWorld :=
  let l := wd_load s in
  match a with
  | ABegin w db =>
      if ld_paused l || ld_stopped l || negb (slices_Contains paths db) || bool_decide (is_Some (wd_writers s !! w)) then None
      else Some (s <| wd_load := l <| ld_active ::= S |> |> <| wd_writers ::= <[w := WCheck db]> |>)
  | AWriter w o =>
      match wd_writers s !! w with
      | None => None
      | Some pc =>
          match writerStep o w pc s with
          | Some (s, Some pc) => Some (s <| wd_writers ::= <[w := pc]> |>)
          | Some (s, None) => Some (s <| wd_writers ::= delete w |>)
          | None => None
          end
      end
  | APause => match wd_pausing s with
              | Running => Some (s <| wd_load := l <| ld_paused := true |> |> <| wd_pausing := Pausing |>)
              | _ => None
              end
  | AQuiet => match wd_pausing s with
              | Pausing => if ld_active l =? 0 then Some (s <| wd_pausing := Quiesced |>) else None
              | _ => None
              end
  | AResume => Some (s <| wd_load := l <| ld_paused := false |> |> <| wd_pausing := Running |>)
  | AStop => Some (s <| wd_load := l <| ld_stopped := true |> |>)
  | AList => match wd_pausing s, wd_verifier s with
             | Quiesced, VIdle => Some (s <| wd_listed := (fun change => (ch_generation change, false)) <$> ld_changed l |>)
             | _, _ => None
             end
  | AVerify db => Some (s <| wd_covered ::= <[db := rowsOf (wd_rows s) db]> |>
                          <| wd_listed ::= alter (fun '(g, _) => (g, true)) db |>)
  | AAttempt db => Some (s <| wd_load := attemptManyDBChange db l |>)
  | AAcknowledge db =>
      match wd_verifier s, wd_listed s !! db with
      | VIdle, Some (g, true) =>
          let '(l, written) := acknowledge db g l in Some (s <| wd_load := l |> <| wd_verifier := VDecide written |>)
      | _, _ => None
      end
  | AVerifier o => verifierStep o s
  | ARestart found =>
      if match found with Some content => bool_decide (content ∈ wd_disk s) | None => true end then Some (restartLoad found s) else None
  end.

(** The volume of a worker that populated its databases: no row yet. *)
Definition freshWorld (disk : contents) : loadWorld :=
  mkWorld (newManyDBLoad now paths (ReadOk []) true) None ∅ Running ∅ VIdle disk ∅ ∅.
Fixpoint runActions (l : list loadAction) (s : loadWorld) : option loadWorld :=
  match l with [] => Some s | a :: l => match loadAct a s with Some s => runActions l s | None => None end end.
End System.

(** * Population and rows *)

(** The databases on the volume with the row slots each holds, and the written-set file. *)
Record volume := mkVolume { vo_dbs : gmap string (gset Z); vo_state : option (list string) }.
#[export] Instance volume_eta : Settable volume := fun r => mkVolume (vo_dbs r) (vo_state r).

(** Errors of the calls that populate: [io_exec] and [io_affected] by database and
    statement; a seed stops at a step, and the file may exist by then. *)
Record populateIO := mkPopulateIO {
  io_mkdir : option string;
  io_stat : string -> option string;
  io_open : string -> option string;
  io_exec : string -> nat -> option string;
  io_affected : string -> nat -> option string;
  io_seed : string -> option (nat * string);
  io_made : string -> bool;
  io_save : option string
}.

Section Population.
Variables (io : populateIO).

Definition manyDBPruneBatchSize : Z := 10000.
(** The statement's ids: the largest ones above the limit. *)
Definition pruneBatch (maxRows : Z) (ids : gset Z) : list Z :=
  firstn (Z.to_nat manyDBPruneBatchSize) (merge_sort Z.ge (List.filter (fun id => maxRows <? id)%Z (elements ids))).
Fixpoint pruneLoop (fuel i : nat) (dbPath : string) (maxRows : Z) (ids : gset Z) : gset Z * option string :=
  match fuel with
  | O => (ids, Some "the loop did not end")
  | S fuel =>
      match io_exec io dbPath i with
      | Some err => (ids, Some ("delete rows above retention limit: " +:+ err))
      | None =>
          let batch := pruneBatch maxRows ids in
          let ids := ids ∖ list_to_set batch in
          match io_affected io dbPath i with
          | Some err => (ids, Some ("read deleted row count: " +:+ err))
          | None => if (Z.of_nat (length batch) <? manyDBPruneBatchSize)%Z then (ids, None) else pruneLoop fuel (S i) dbPath maxRows ids
          end
      end
  end.
Definition pruneManyDBRows (dbPath : string) (maxRows : Z) (ids : gset Z) : gset Z * option string :=
  if (maxRows <=? 0)%Z then (ids, Some "max rows must be positive")
  else match io_open io dbPath with
       | Some err => (ids, Some ("open database: " +:+ err))
       | None => pruneLoop (S (size ids)) 0 dbPath maxRows ids
       end.

Definition seedSteps : list string :=
  ["create database parent: "; "open database: "; "enable WAL: "; "create payload table: "; "seed payload table: "; "create writes table: "].
Definition seedManyDB (dbPath : string) (v : volume) : volume * option string :=
  let made := v <| vo_dbs ::= <[dbPath := ∅]> |> in
  match io_seed io dbPath with
  | None => (made, None)
  | Some (step, err) => (if io_made io dbPath then made else v, Some (default "" (seedSteps !! step) +:+ err))
  end.

Fixpoint populateAll (maxRows : Z) (paths : list string) (fresh : bool) (v : volume) : volume * bool * option string :=
  match paths with
  | [] => (v, fresh, None)
  | dbPath :: paths =>
      match io_stat io dbPath with
      | Some err => (v, fresh, Some ("stat many database " +:+ dbPath +:+ ": " +:+ err))
      | None =>
          match vo_dbs v !! dbPath with
          | Some ids =>
              let '(ids, err) := pruneManyDBRows dbPath maxRows ids in
              let v := v <| vo_dbs ::= <[dbPath := ids]> |> in
              match err with
              | Some err => (v, false, Some ("prune many database " +:+ dbPath +:+ ": " +:+ err))
              | None => populateAll maxRows paths false v
              end
          | None =>
              let '(v, err) := seedManyDB dbPath v in
              match err with
              | Some err => (v, fresh, Some ("seed many database " +:+ dbPath +:+ ": " +:+ err))
              | None => populateAll maxRows paths fresh v
              end
          end
      end
  end.
Definition populateManyDBs (maxRows : Z) (paths : list string) (v : volume) : volume * option string :=
  match io_mkdir io with
  | Some err => (v, Some ("create many database dir: " +:+ err))
  | None =>
      let '(v, fresh, err) := populateAll maxRows paths true v in
      match err with
      | Some err => (v, Some err)
      | None =>
          if fresh then match io_save io with
                        | Some err => (v, Some ("record empty written set: " +:+ err))
                        | None => (v <| vo_state := Some [] |>, None)
                        end
          else (v, None)
      end
  end.
End Population.

(** A row; [err] is the error of the database, if any. *)
Definition writeManyDBRow (err : option string) (dbPath : string) (rowSlot : Z) (dbs : gmap string (gset Z)) : gmap string (gset Z) * option string :=
  if (rowSlot <=? 0)%Z then (dbs, Some "row slot must be positive")
  else match err, dbs !! dbPath with
       | Some err, _ => (dbs, Some err)
       | None, None => (dbs, Some "write row slot: no such table: soak_writes")
       | None, Some ids => (<[dbPath := {[rowSlot]} ∪ ids]> dbs, None)
       end.

(** The jobs that the dispatcher sends over its ticks. *)
Fixpoint dispatchAll (maxRows : Z) (ticks : list (Z * list string)) (d : dispatcher) : list (string * Z) :=
  match ticks with
  | [] => []
  | (generation, active) :: ticks =>
      let '(d, job) := dispatchTick maxRows generation active d in
      match job with Some job => job :: dispatchAll maxRows ticks d | None => dispatchAll maxRows ticks d end
  end.
Definition writeAll (jobs : list (string * Z * option string)) (dbs : gmap string (gset Z)) : gmap string (gset Z) :=
  fold_left (fun dbs '(dbPath, rowSlot, err) => fst (writeManyDBRow err dbPath rowSlot dbs)) jobs dbs.
Definition newDispatcher : dispatcher := mkDispatcher None 0 0 ∅.
