(* ===== verification/ManyDBProofs.v ===== *)
(** Theorems about the databases that await verification ([ManyDB]): no row that was
    written is lost to a restart or to a verification that did not see it; the order
    and the coverage of the pending set; the slots of the rows and the active set. *)
From stdpp Require Import sorting.
From S2P Require Import Prelude GoStrings GoTime Model LitestreamConfig RestorePlan Verifier ManyDB.

(** * The invariant *)

(** A row was committed that no verification saw. *)
Definition owed (s : loadWorld) (db : string) : Prop := rowsOf (wd_rows s) db <> rowsOf (wd_covered s) db.
Definition isWritten (l : manyDBLoad) (db : string) : Prop := exists ch, ld_changed l !! db = Some ch /\ ch_written ch = true.
(** Whatever a restart finds, it takes the database for a written one. *)
Definition safe (disk : contents) (db : string) : Prop := forall written, Some written ∈ disk -> db ∈ written.

(** A database whose record must be on the disk: its entry counts as durable, a row of
    it is owed, or one is about to be written. *)
Definition needed (s : loadWorld) (db : string) : Prop :=
  (exists ch, ld_changed (wd_load s) !! db = Some ch /\ ch_durable ch = true) \/ owed s db \/ (exists w, wd_writers s !! w = Some (WRow db)).

Definition phaseOk (s : loadWorld) (p : savePhase) : Prop :=
  match p with
  | SaveWrite written => forall db, needed s db -> db ∈ written
  | SaveMark written => wd_disk s = [Some written] /\ forall db, needed s db -> db ∈ written
  | SaveDirty true => wd_disk s = [None]
  | _ => True
  end.
(** What the save of a writer does for its own database. *)
Definition ownPhase (s : loadWorld) (db : string) (p : savePhase) : Prop :=
  match p with SaveWrite written | SaveMark written => db ∈ written | SaveClean => safe (wd_disk s) db | _ => True end.

Definition pathOf (pc : writerPC) : option string :=
  match pc with
  | WCheck db | WCheckLocked db | WWait db | WRecheck db | WRecheckLocked db | WMark db | WSave db _ | WRow db => Some db
  | WEnd => None
  end.
Definition lockedPC (pc : writerPC) : bool := match pc with WRecheck _ | WRecheckLocked _ | WMark _ | WSave _ _ => true | _ => false end.
(** Marked, and the row not written yet. *)
Definition inFlight (pc : writerPC) (db : string) : Prop := match pc with WSave d _ | WRow d => d = db | _ => False end.

(** [skip] is an actor whose own save is not spoken of, while it takes a step. *)
Record writerOk (paths : list string) (skip : option loadActor) (s : loadWorld) (w : nat) (pc : writerPC) : Prop := {
  wo_lock : lockedPC pc = true -> wd_lock s = Some (Writer w);
  wo_path : forall db, pathOf pc = Some db -> db ∈ paths;
  wo_save : skip <> Some (Writer w) -> forall db p, pc = WSave db p -> isWritten (wd_load s) db /\ phaseOk s p /\ ownPhase s db p
}.

Record Inv (paths : list string) (skip : option loadActor) (n : Z) (s : loadWorld) : Prop := {
  iv_gen : (0 <= ld_generation (wd_load s) <= n)%Z;
  iv_keys : forall db ch, ld_changed (wd_load s) !! db = Some ch -> db ∈ paths /\ (ch_generation ch <= ld_generation (wd_load s))%Z;
  iv_need : forall db, needed s db -> safe (wd_disk s) db /\ isWritten (wd_load s) db;
  iv_writer : forall w pc, wd_writers s !! w = Some pc -> writerOk paths skip s w pc;
  iv_verifier : forall p, wd_verifier s = VSave p -> wd_lock s = Some TheVerifier /\ (skip <> Some TheVerifier -> phaseOk s p);
  iv_active : ld_active (wd_load s) = size (wd_writers s);
  iv_paused : (wd_pausing s <> Running -> ld_paused (wd_load s) = true) /\ (wd_pausing s = Quiesced -> wd_writers s = ∅);
  iv_listed : forall db g v, wd_listed s !! db = Some (g, v) -> (g <= ld_generation (wd_load s))%Z /\
    forall ch, ld_changed (wd_load s) !! db = Some ch -> ch_generation ch = g ->
      (forall w pc, wd_writers s !! w = Some pc -> ~ inFlight pc db) /\ (v = true -> ~ owed s db)
}.

(** ** Operations on the tracker *)

(** A new generation for a database; nothing becomes durable. *)
Record bumped (db : string) (l l' : manyDBLoad) : Prop := {
  bp_generation : ld_generation l' = (ld_generation l + 1)%Z;
  bp_changed : exists ch, ld_changed l' = <[db := ch]> (ld_changed l) /\ ch_generation ch = ld_generation l' /\ ch_written ch = true /\
    (ch_durable ch = true -> exists ch0, ld_changed l !! db = Some ch0 /\ ch_durable ch0 = true);
  bp_rest : ld_active l' = ld_active l /\ ld_paused l' = ld_paused l
}.
Lemma uint64_next g : (0 <= g)%Z -> (g < max_uint64)%Z -> uint64 (g + 1) = (g + 1)%Z.
Proof. intros. apply uint64_small. lia. Qed.

Lemma mark_bumps now db l : db <> "" -> (0 <= ld_generation l < max_uint64)%Z -> bumped db l (fst (mark now db true l)).
Proof.
  intros Hdb [H1 H2]. unfold mark. replace (db =s "") with false by (symmetry; by apply String.eqb_neq). cbn [fst].
  pose proof (uint64_next _ H1 H2) as Hu. split; [exact Hu| |done].
  eexists. split; [reflexivity|]. cbn [ch_generation ch_written ch_durable]. rewrite orb_true_r. split_and!; [done..|].
  destruct (ld_changed l !! db) as [ch|]; simpl; [|done].
  destruct (ch_written ch); simpl; [|done]. intros Hd. by exists ch.
Qed.
Lemma markDurable_bumps db l l' : (0 <= ld_generation l < max_uint64)%Z -> markDurable db l = (l', true) ->
  bumped db l l' /\ exists ch, ld_changed l' !! db = Some ch /\ ch_durable ch = true.
Proof.
  intros [H1 H2]. unfold markDurable. destruct (ld_changed l !! db) as [ch|] eqn:Hch; [|done].
  destruct (ch_written ch) eqn:Hw, (ch_durable ch) eqn:Hd; try done. cbn [negb orb]. intros [= <-]. pose proof (uint64_next _ H1 H2) as Hu.
  split; [|eexists; simpl; rewrite lookup_insert_eq; by split]. split; [exact Hu| |done]. eexists. split; [reflexivity|]. simpl. split_and!; try done. intros _. by exists ch.
Qed.
Lemma markDurable_fails db l l' : markDurable db l = (l', false) -> l' = l.
Proof. unfold markDurable. destruct (ld_changed l !! db) as [ch|]; [|by intros [= <-]]. destruct (_ || _); [by intros [= <-]|done]. Qed.

Lemma bumped_written db l l' db' : bumped db l l' -> isWritten l db' -> isWritten l' db'.
Proof.
  intros [_ (ch & Hc & _ & Hw & _) _] (ch0 & H & H'). unfold isWritten. rewrite Hc. destruct (decide (db = db')) as [->|Hne].
  - exists ch. by rewrite lookup_insert_eq.
  - exists ch0. by rewrite lookup_insert_ne.
Qed.
Lemma bumped_own db l l' : bumped db l l' -> isWritten l' db.
Proof. intros [_ (ch & Hc & _ & Hw & _) _]. exists ch. by rewrite Hc, lookup_insert_eq. Qed.

Section Invariant.
Context (paths : list string) (now : time).
Hypothesis (Hpaths : "" ∉ paths).

(** ** Steps that keep the record *)

(** The parts of a world [needed] speaks of. *)
Lemma needed_mono s s' db : (forall ch, ld_changed (wd_load s') !! db = Some ch -> ch_durable ch = true ->
    exists ch0, ld_changed (wd_load s) !! db = Some ch0 /\ ch_durable ch0 = true) ->
  wd_rows s' = wd_rows s -> wd_covered s' = wd_covered s ->
  (forall w, wd_writers s' !! w = Some (WRow db) -> needed s db) -> needed s' db -> needed s db.
Proof.
  intros H1 H2 H3 H4 [(ch & Hc & Hd)|[Ho|(w & Hw)]]; [left; eauto|right; left|by eapply H4]. unfold owed in *. by rewrite <- H2, <- H3.
Qed.

Lemma phaseOk_mono s s' p : wd_disk s' = wd_disk s -> (forall d, needed s' d -> needed s d) -> phaseOk s p -> phaseOk s' p.
Proof. intros Hd Hn. destruct p as [| |ws| | |[]|ws|]; simpl; try done; rewrite ?Hd; [auto|done|intros [? H]; split; auto]. Qed.

(** A step that neither saves nor asks for more to be on record keeps what the record
    promises. *)
Lemma frame skip n s s' : Inv paths skip n s -> wd_lock s' = wd_lock s -> wd_disk s' = wd_disk s ->
  (forall p, wd_verifier s' = VSave p -> wd_verifier s = VSave p) -> (forall d, needed s' d -> needed s d) ->
  (forall d, isWritten (wd_load s) d -> isWritten (wd_load s') d \/
    ~ needed s' d /\ forall w pc, wd_writers s' !! w = Some pc -> ~ inFlight pc d) ->
  (forall w pc, wd_writers s' !! w = Some pc -> wd_writers s !! w = Some pc \/ exists d, pc = WCheck d /\ d ∈ paths) ->
  (forall d, needed s' d -> safe (wd_disk s') d /\ isWritten (wd_load s') d) /\
  (forall w pc, wd_writers s' !! w = Some pc -> writerOk paths skip s' w pc) /\
  (forall p, wd_verifier s' = VSave p -> wd_lock s' = Some TheVerifier /\ (skip <> Some TheVerifier -> phaseOk s' p)).
Proof.
  intros HI Hlk Hdk Hv Hneed Hwr Hws. split_and!.
  - intros d Hn. destruct (iv_need _ _ _ _ HI d (Hneed d Hn)) as [H1 H2]. rewrite Hdk. split; [done|]. by destruct (Hwr d H2) as [?|[? _]].
  - intros w pc Hw. destruct (Hws w pc Hw) as [Hw0|(d & -> & Hd)]; [|split; [done|by intros d' [= <-]|done]].
    destruct (iv_writer _ _ _ _ HI w pc Hw0) as [H1 H2 H3]. split; [by rewrite Hlk|done|]. intros Hsk d p ->.
    destruct (H3 Hsk d p eq_refl) as (A & B & C). split_and!; [|by eapply phaseOk_mono|destruct p; simpl in *; by rewrite ?Hdk].
    destruct (Hwr d A) as [?|[_ Hf]]; [done|]. by destruct (Hf w _ Hw).
  - intros p Hp. destruct (iv_verifier _ _ _ _ HI p (Hv p Hp)) as [H1 H2]. rewrite Hlk. split; [done|]. intros Hsk. eapply phaseOk_mono; eauto.
Qed.

(** The new generation: nothing else changes. *)
Lemma inv_bump skip n s db l' : Inv paths skip n s -> db ∈ paths -> bumped db (wd_load s) l' -> Inv paths skip (n + 1) (s <| wd_load := l' |>).
Proof.
  intros HI Hdb Hb. pose proof Hb as Hb'. destruct Hb' as [Hg (ch & Hc & Hcg & Hcw & Hcd) [Ha Hp]].
  assert (forall db', needed (s <| wd_load := l' |>) db' -> needed s db') as Hneed.
  { intros db'. apply needed_mono; [|done|done|intros w Hw; right; right; by exists w]. simpl. rewrite Hc. intros ch' Hch' Hd'.
    destruct (decide (db = db')) as [->|Hne]; [|rewrite lookup_insert_ne in Hch' by done; by exists ch'].
    rewrite lookup_insert_eq in Hch'. injection Hch' as <-. auto. }
  destruct (frame skip n s (s <| wd_load := l' |>) HI) as (F1 & F2 & F3); [done|done|done|done|intros d ?; left; by eapply bumped_written|auto|].
  split; [..|exact F1|exact F2|exact F3| | |]; simpl.
  - rewrite Hg. destruct (iv_gen _ _ _ _ HI). lia.
  - intros db' ch' Hch'. rewrite Hc in Hch'. destruct (decide (db = db')) as [->|Hne].
    + rewrite lookup_insert_eq in Hch'. injection Hch' as <-. split; [done|lia].
    + rewrite lookup_insert_ne in Hch' by done. destruct (iv_keys _ _ _ _ HI _ _ Hch'). split; [done|lia].
  - rewrite Ha. apply (iv_active _ _ _ _ HI).
  - rewrite Hp. apply (iv_paused _ _ _ _ HI).
  - intros d g v Hl. destruct (iv_listed _ _ _ _ HI d g v Hl) as [Hle Hrest]. split; [lia|]. intros ch' Hch' Hg'. rewrite Hc in Hch'.
    destruct (decide (db = d)) as [->|Hne]; [rewrite lookup_insert_eq in Hch'; injection Hch' as <-; lia|].
    rewrite lookup_insert_ne in Hch' by done. by apply (Hrest ch').
Qed.

Lemma inv_skip skip n s : Inv paths None n s -> Inv paths skip n s.
Proof.
  intros HI. destruct HI as [H1 H2 H3 H4 H5 H6 H7 H8]. split; try done.
  - intros w pc Hw. destruct (H4 w pc Hw) as [A B C]. split; try done. intros _. by apply C.
  - intros p Hp. destruct (H5 p Hp) as [A B]. split; [done|]. intros _. by apply B.
Qed.

(** ** A step of a save *)

(** The tracker up to the durable marks and the dirty flag. *)
Record sameTracker (l l' : manyDBLoad) : Prop := {
  sm_generation : ld_generation l' = ld_generation l;
  sm_back : forall db ch', ld_changed l' !! db = Some ch' -> exists ch, ld_changed l !! db = Some ch /\ ch_generation ch = ch_generation ch';
  sm_written : forall db, isWritten l db -> isWritten l' db;
  sm_rest : ld_active l' = ld_active l /\ ld_paused l' = ld_paused l
}.
Lemma sameTracker_dirty l b : sameTracker l (l <| ld_dirty := b |>).
Proof. split; try done. intros db ch' H. by exists ch'. Qed.
#[local] Instance sameTracker_refl : Reflexive sameTracker.
Proof. intros l. split; try done. intros db ch' H. by exists ch'. Qed.

Definition saved (path : string) (m : gmap string manyDBChange) : gmap string manyDBChange :=
  match m !! path with Some change => if ch_written change then <[path := change <| ch_durable := true |>]> m else m | None => m end.
Lemma saved_lookup path m db : saved path m !! db =
  (fun ch => if (db =s path) && ch_written ch then ch <| ch_durable := true |> else ch) <$> m !! db.
Proof.
  unfold saved. destruct (String.eqb_spec db path) as [->|Hne].
  - destruct (m !! path) as [ch|] eqn:E; [|by rewrite E]. destruct (ch_written ch) eqn:Hw; simpl; [by rewrite lookup_insert_eq; simpl; rewrite Hw|].
    rewrite E. simpl. by rewrite Hw.
  - simpl. assert ((fun ch : manyDBChange => ch) <$> m !! db = m !! db) as -> by by destruct (m !! db).
    destruct (m !! path) as [ch|]; [|done]. destruct (ch_written ch); [|done]. by rewrite lookup_insert_ne.
Qed.
Lemma markSaved_lookup ws l db : ld_changed (markSaved ws l) !! db =
  (fun ch => if slices_Contains ws db && ch_written ch then ch <| ch_durable := true |> else ch) <$> ld_changed l !! db.
Proof.
  unfold markSaved. simpl. generalize (ld_changed l) as m. induction ws as [|w ws IH]; intros m; simpl; [by destruct (m !! db)|].
  change (fold_left _ ws (match m !! w with Some _ => _ | None => _ end)) with (fold_left
    (fun m path => match m !! path with Some change => if ch_written change then <[path := change <| ch_durable := true |>]> m else m | None => m end) ws (saved w m)).
  rewrite IH, saved_lookup. destruct (m !! db) as [ch|]; [|done]. simpl. rewrite (String.eqb_sym w db).
  destruct ch as [g t wr du], (db =s w), (slices_Contains ws db), wr; reflexivity.
Qed.
Lemma slices_Contains_elem l x : slices_Contains l x = true <-> x ∈ l.
Proof. rewrite list_elem_of_In. apply slices_Contains_In. Qed.
Lemma markSaved_same ws l : sameTracker l (markSaved ws l).
Proof.
  split; [done| | |done].
  - intros db ch'. rewrite markSaved_lookup. destruct (ld_changed l !! db) as [ch|]; [|done]. intros [= <-]. exists ch. split; [done|]. by destruct (_ && _).
  - intros db (ch & Hc & Hw). unfold isWritten. rewrite markSaved_lookup, Hc. simpl. eexists. split; [reflexivity|]. by destruct (_ && _).
Qed.
(** What a step of a save leaves for the actor that takes it. *)
Definition saveDone (s s' : loadWorld) (p : savePhase) (next : result bool savePhase) : Prop :=
  match next with
  | Ok p' => phaseOk s' p' /\ forall db, isWritten (wd_load s) db -> ownPhase s db p -> ownPhase s' db p'
  | Err false => p <> SaveStat -> forall db, ownPhase s db p -> safe (wd_disk s') db
  | Err true => True
  end.

Lemma writtenPaths_elem l db : isWritten l db -> db ∈ writtenPaths l.
Proof.
  intros (ch & Hc & Hw). unfold writtenPaths. rewrite merge_sort_Permutation, list_elem_of_In, in_map_iff. exists (db, ch).
  split; [done|]. apply filter_In. split; [|done]. by apply list_elem_of_In, elem_of_map_to_list.
Qed.

(** A change of the tracker's marks and of the disk by the actor that holds the lock. *)
Lemma inv_saving a n s l' d' : Inv paths (Some a) n s -> wd_lock s = Some a -> sameTracker (wd_load s) l' ->
  (forall db, needed (s <| wd_load := l' |>) db -> safe d' db /\ isWritten l' db) ->
  Inv paths (Some a) n (s <| wd_load := l' |> <| wd_disk := d' |>).
Proof.
  intros HI Hlock Hsame Hneed. destruct (sm_rest _ _ Hsame) as [Hact Hpau]. split; simpl.
  - rewrite (sm_generation _ _ Hsame). apply (iv_gen _ _ _ _ HI).
  - intros db ch' Hc. destruct (sm_back _ _ Hsame _ _ Hc) as (ch & Hch & <-). rewrite (sm_generation _ _ Hsame). by apply (iv_keys _ _ _ _ HI).
  - exact Hneed.
  - intros w pc Hw. destruct (iv_writer _ _ _ _ HI w pc Hw) as [H1 H2 H3]. split; [done|done|].
    intros Hsk db p ->. specialize (H1 eq_refl). congruence.
  - intros p Hp. destruct (iv_verifier _ _ _ _ HI p Hp) as [H1 H2]. split; [done|]. intros Hsk. congruence.
  - rewrite Hact. apply (iv_active _ _ _ _ HI).
  - rewrite Hpau. apply (iv_paused _ _ _ _ HI).
  - intros db g v Hl. destruct (iv_listed _ _ _ _ HI db g v Hl) as [Hle Hrest]. rewrite (sm_generation _ _ Hsame). split; [done|].
    intros ch' Hc <-. destruct (sm_back _ _ Hsame _ _ Hc) as (ch & Hch & Hg). by apply (Hrest ch).
Qed.

Lemma needed_load s l' db : (forall ch, ld_changed l' !! db = Some ch -> ld_changed (wd_load s) !! db = Some ch) ->
  needed (s <| wd_load := l' |>) db -> needed s db.
Proof. intros H. apply needed_mono; [|done|done|]; simpl; [intros ch Hc Hd; exists ch; auto|]. intros w Hw. right. right. by exists w. Qed.

Lemma inv_saveStep a n o p s s' next : Inv paths (Some a) n s -> wd_lock s = Some a -> phaseOk s p -> saveStep o p s = (s', next) ->
  Inv paths (Some a) n s' /\ wd_lock s' = Some a /\ wd_writers s' = wd_writers s /\ wd_verifier s' = wd_verifier s /\
  (forall db, isWritten (wd_load s) db -> isWritten (wd_load s') db) /\ saveDone s s' p next.
Proof.
  intros HI Hlock Hp Hs. pose proof (iv_need _ _ _ _ HI) as Hneed.
  assert (forall d', (forall db, needed s db -> safe d' db) -> Inv paths (Some a) n (s <| wd_disk := d' |>)) as Hdisk.
  { intros d' Hd. assert (Inv paths (Some a) n (s <| wd_load := wd_load s |> <| wd_disk := d' |>)) as H; [|by destruct s].
    apply inv_saving; [done|done|reflexivity|]. intros db Hn. assert (needed s db) as Hn' by by destruct s. split; [auto|by apply Hneed]. }
  assert (forall b, Inv paths (Some a) n (s <| wd_load := (wd_load s) <| ld_dirty := b |> |>)) as Hdirty.
  { intros b. assert (Inv paths (Some a) n (s <| wd_load := (wd_load s) <| ld_dirty := b |> |> <| wd_disk := wd_disk s |>)) as H; [|by destruct s].
    apply inv_saving; [done|done|apply sameTracker_dirty|]. intros db Hn. apply Hneed. eapply needed_load; [|exact Hn]. done. }
  destruct p as [| |ws| | |r|ws|]; simpl in Hs.
  - destruct o; injection Hs as <- <-; split_and!; try done; intros Hne; by destruct Hne.
  - injection Hs as <- <-. split_and!; try done. split; [|intros db Hw _; by apply writtenPaths_elem]. intros db Hn. by apply writtenPaths_elem, Hneed.
  - destruct o; injection Hs as <- <-.
    + split_and!; try done. apply Hdisk. intros db Hn w. rewrite list_elem_of_singleton. intros [= ->]. by apply Hp.
    + split_and!; try done.
    + split_and!; try done. apply Hdisk. intros db Hn w. rewrite elem_of_cons. intros [[= ->]|Hw]; [by apply Hp|by apply (Hneed db Hn)].
  - destruct o; injection Hs as <- <-; split_and!; try done. apply Hdisk. intros db Hn w. rewrite elem_of_cons. intros [?|Hw]; [done|by apply (Hneed db Hn)].
  - destruct o; injection Hs as <- <-; split_and!; try done. apply Hdisk. intros db Hn w. rewrite list_elem_of_singleton. done.
  - injection Hs as <- <-. split_and!; try done. destruct r; [|done]. intros _ db _ w. simpl in *. rewrite Hp, list_elem_of_singleton. done.
  - injection Hs as <- <-. destruct Hp as [Hd Hws]. split_and!; try done.
    + assert (Inv paths (Some a) n (s <| wd_load := markSaved ws (wd_load s) |> <| wd_disk := wd_disk s |>)) as H; [|by destruct s].
      apply inv_saving; [done|done|apply markSaved_same|]. intros db Hn.
      assert (db ∈ ws /\ isWritten (wd_load s) db \/ needed s db) as Hcase.
      { destruct Hn as [(ch & Hc & Hdu)|Hn]; [|right; by right]. change (ld_changed (markSaved ws (wd_load s)) !! db = Some ch) in Hc. rewrite markSaved_lookup in Hc.
        destruct (ld_changed (wd_load s) !! db) as [ch0|] eqn:E; [|done]. injection Hc as <-.
        destruct (slices_Contains ws db) eqn:Hin, (ch_written ch0) eqn:Hw; simpl in Hdu; try (right; left; by exists ch0).
        left. split; [by apply slices_Contains_elem|by exists ch0]. }
      rewrite Hd. destruct Hcase as [[Hin Hw]|Hn'].
      * split; [intros w; rewrite list_elem_of_singleton; by intros [= ->]|by apply (sm_written _ _ (markSaved_same ws _))].
      * split; [intros w; rewrite list_elem_of_singleton; intros [= ->]; by apply Hws|]. apply (sm_written _ _ (markSaved_same ws _)). by apply Hneed.
    + apply (sm_written _ _ (markSaved_same ws _)).
    + split; [done|]. intros db _ Hin w. simpl. rewrite Hd, list_elem_of_singleton. by intros [= ->].
  - injection Hs as <- <-. split_and!; try done. intros _ db Hown. exact Hown.
Qed.


(** ** The actors move on *)

(** No listed generation of the database is current. *)
Definition unlisted (s : loadWorld) (db : string) : Prop :=
  forall g v ch, wd_listed s !! db = Some (g, v) -> ld_changed (wd_load s) !! db = Some ch -> ch_generation ch <> g.
Definition lockMove (a : loadActor) (before after : option loadActor) : Prop :=
  after = before \/ (before = None /\ after = Some a) \/ (before = Some a /\ after = None).

Lemma lockMove_other a b before after : lockMove a before after -> before = Some b -> a <> b -> after = Some b.
Proof. intros [->|[[-> ->]|[-> ->]]]; [done|done|]. by intros [= ->]. Qed.

Lemma inv_move n s w pc pc' lk :
  Inv paths (Some (Writer w)) n s -> wd_writers s !! w = Some pc -> lockMove (Writer w) (wd_lock s) lk ->
  (lockedPC pc' = true -> lk = Some (Writer w)) -> (forall db, pathOf pc' = Some db -> db ∈ paths) ->
  (forall db p, pc' = WSave db p -> isWritten (wd_load s) db /\ phaseOk s p /\ ownPhase s db p) ->
  (forall db, pc' = WRow db -> safe (wd_disk s) db /\ isWritten (wd_load s) db /\ (needed s db \/ wd_lock s = Some (Writer w))) ->
  (forall db, inFlight pc' db -> inFlight pc db \/ unlisted s db) ->
  Inv paths None n (s <| wd_lock := lk |> <| wd_writers ::= <[w := pc']> |>).
Proof.
  intros HI Hw Hlk Hlocked Hpath Hsave Hrow Hfly. set (s' := s <| wd_lock := lk |> <| wd_writers ::= <[w := pc']> |>).
  assert (forall db, needed s' db -> needed s db \/ pc' = WRow db) as Hneed.
  { intros db [H|[H|(w' & H)]]; [left; by left|left; right; by left|]. simpl in H. apply lookup_insert_Some in H as [[_ ->]|[_ H]]; [by right|].
    left. right. right. by exists w'. }
  assert (forall b p, wd_lock s = Some b -> b <> Writer w -> phaseOk s p -> phaseOk s' p) as Hphase.
  { intros b p Hb Hne. assert (forall db, needed s' db -> needed s db) as Hn.
    { intros db [H|H]%Hneed; [done|]. destruct (Hrow db H) as (_ & _ & [?|?]); [done|congruence]. }
    destruct p as [| |ws| | |[]|ws|]; simpl; try done; [|intros [? H]; split; [done|]]; intros; auto. }
  split.
  - apply (iv_gen _ _ _ _ HI).
  - apply (iv_keys _ _ _ _ HI).
  - intros db [H|H]%Hneed; [by apply (iv_need _ _ _ _ HI)|]. destruct (Hrow db H) as (? & ? & _). by split.
  - intros w' q Hq. simpl in Hq. apply lookup_insert_Some in Hq as [[<- <-]|[Hne Hq]].
    + split; [done|done|]. intros _ db p Hpc. destruct (Hsave db p Hpc) as (H1 & H2 & H3). split_and!; [done| |by destruct p].
      assert (forall d, needed s' d -> needed s d) as Hn by (intros d [?|?]%Hneed; [done|by subst pc']).
      destruct p as [| |ws| | |[]|ws|]; simpl in *; try done; [|destruct H2 as [? H2]; split; [done|]]; intros; auto.
    + destruct (iv_writer _ _ _ _ HI w' q Hq) as [H1 H2 H3]. split; [|done|].
      * intros Hl. eapply lockMove_other; [exact Hlk|by apply H1|congruence].
      * intros _ db p Hpc. destruct (H3 ltac:(congruence) db p Hpc) as (A & B & C). split_and!; [done| |by destruct p].
        apply (Hphase (Writer w')); [apply H1; by subst|congruence|done].
  - intros p Hp. destruct (iv_verifier _ _ _ _ HI p Hp) as [H1 H2]. split; [eapply lockMove_other; [exact Hlk|done|done]|].
    intros _. apply (Hphase TheVerifier); [done|done|]. by apply H2.
  - simpl. rewrite map_size_insert_Some by (by eexists). apply (iv_active _ _ _ _ HI).
  - destruct (iv_paused _ _ _ _ HI) as [H1 H2]. split; [done|]. intros Hq. rewrite (H2 Hq) in Hw. done.
  - intros db g v Hl. destruct (iv_listed _ _ _ _ HI db g v Hl) as [Hle Hrest]. split; [done|]. intros ch Hc Hg.
    destruct (Hrest ch Hc Hg) as [R1 R2]. split; [|exact R2]. intros w' q Hq Hin. simpl in Hq.
    apply lookup_insert_Some in Hq as [[<- <-]|[Hne Hq]]; [|by eapply R1]. destruct (Hfly db Hin) as [?|Hu]; [by eapply (R1 w pc)|by eapply Hu].
Qed.

Lemma inv_moveVerifier n s v' lk :
  Inv paths (Some TheVerifier) n s -> lockMove TheVerifier (wd_lock s) lk ->
  (forall p, v' = VSave p -> lk = Some TheVerifier /\ phaseOk s p) ->
  Inv paths None n (s <| wd_lock := lk |> <| wd_verifier := v' |>).
Proof.
  intros HI Hlk Hv. destruct HI as [H1 H2 H3 H4 H5 H6 H7 H8]. split; try done.
  - intros w pc Hw. destruct (H4 w pc Hw) as [A B C]. split; [|done|].
    + intros Hl. eapply lockMove_other; [exact Hlk|by apply A|done].
    + intros _ db p Hpc. destruct (C ltac:(done) db p Hpc) as (? & ? & ?). by split_and!; [| |destruct p].
  - intros p Hp. destruct (Hv p Hp). by split.
Qed.

Lemma inv_weaken skip n n' s : (n <= n')%Z -> Inv paths skip n s -> Inv paths skip n' s.
Proof. intros Hn [[? ?] H2 H3 H4 H5 H6 H7 H8]. split; try done. lia. Qed.

Lemma bumped_unlisted skip n s db l' : Inv paths skip n s -> bumped db (wd_load s) l' -> unlisted (s <| wd_load := l' |>) db.
Proof.
  intros HI [Hg (ch & Hc & Hcg & _) _] g v ch' Hl Hch'. simpl in *. rewrite Hc, lookup_insert_eq in Hch'. injection Hch' as <-.
  destruct (iv_listed _ _ _ _ HI db g v Hl) as [Hle _]. lia.
Qed.

(** A row is written by a writer whose database is on record. *)
Lemma inv_commit skip n s w db b : Inv paths skip n s -> wd_writers s !! w = Some (WRow db) -> Inv paths skip n (commitRow b db s).
Proof.
  intros HI Hw. unfold commitRow. destruct b; [|done]. set (s' := s <| wd_rows ::= _ |>).
  assert (needed s db) as Hdb by (right; right; by exists w).
  assert (forall d, d <> db -> owed s' d -> owed s d) as Howed.
  { intros d Hne. unfold owed, s'. simpl. unfold rowsOf at 1. by rewrite lookup_insert_ne by done. }
  assert (forall d, needed s' d -> needed s d) as Hneed.
  { intros d [H|[H|H]]; [by left| |right; by right]. destruct (decide (d = db)) as [->|Hne]; [done|]. right. left. auto. }
  destruct (frame skip n s s' HI) as (F1 & F2 & F3); [done|done|done|done|auto|auto|].
  destruct HI as [H1 H2 _ _ _ H6 H7 H8]. split; try done.
  intros d g v Hl. destruct (H8 d g v Hl) as [Hle Hrest]. split; [done|]. intros ch Hc Hg. destruct (Hrest ch Hc Hg) as [R1 R2]. split; [done|].
  intros Hv. destruct (decide (d = db)) as [->|Hne]; [by destruct (R1 w _ Hw)|]. intros Ho. by apply (R2 Hv), Howed.
Qed.

(** A writer that is done. *)
Lemma inv_end n s w : Inv paths None n s -> wd_writers s !! w = Some WEnd ->
  Inv paths None n (s <| wd_load := (wd_load s) <| ld_active ::= pred |> |> <| wd_writers ::= delete w |>).
Proof.
  intros HI Hw. set (s' := _ <| wd_writers ::= delete w |>).
  assert (forall w' pc, wd_writers s' !! w' = Some pc -> wd_writers s !! w' = Some pc) as Hws.
  { intros w' pc H. unfold s' in H. simpl in H. by apply lookup_delete_Some in H as [_ ?]. }
  destruct (frame None n s s' HI) as (F1 & F2 & F3); [done|done|done| |auto|auto|].
  { intros d [H|[H|(w' & H)]]; [by left|right; by left|]. right. right. exists w'. auto. }
  destruct HI as [H1 H2 _ _ _ H6 H7 H8]. split; try done.
  - simpl. rewrite map_size_delete_Some by (by eexists). by rewrite H6.
  - destruct H7 as [A B]. split; [done|]. intros Hq. simpl. rewrite (B Hq). apply delete_empty.
  - intros d g v Hl. destruct (H8 d g v Hl) as [Hle Hrest]. split; [done|]. intros ch Hc Hg. destruct (Hrest ch Hc Hg) as [R1 R2]. split; [|done].
    intros w' pc Hw'. eapply R1. by apply Hws.
Qed.

(** A durable entry takes a new generation, and its writer goes on to the row. *)
Lemma inv_durable n s w pc db l' lk : Inv paths None n s -> (n < max_uint64)%Z -> wd_writers s !! w = Some pc -> db ∈ paths ->
  lockMove (Writer w) (wd_lock s) lk -> markDurable db (wd_load s) = (l', true) ->
  Inv paths None (n + 1) (s <| wd_load := l' |> <| wd_lock := lk |> <| wd_writers ::= <[w := WRow db]> |>).
Proof.
  intros HI Hn Hw Hdb Hlk Hm. assert (0 <= ld_generation (wd_load s) < max_uint64)%Z as Hgen by (destruct (iv_gen _ _ _ _ HI); lia).
  destruct (markDurable_bumps _ _ _ Hgen Hm) as [Hb Hd]. pose proof (inv_bump None n s db l' HI Hdb Hb) as HI1.
  assert (needed (s <| wd_load := l' |>) db) as Hnd by by left.
  eapply inv_move; [by apply inv_skip|exact Hw|exact Hlk|done|by intros d [= <-]|done| |].
  - intros d [= <-]. destruct (iv_need _ _ _ _ HI1 db Hnd). by split_and!; [| |left].
  - intros d <-. right. by eapply bumped_unlisted.
Qed.

(** A writer marks its database as written. *)
Lemma inv_mark n s w pc db : Inv paths None n s -> (n < max_uint64)%Z -> wd_writers s !! w = Some pc -> db ∈ paths -> wd_lock s = Some (Writer w) ->
  Inv paths None (n + 1) (s <| wd_load := fst (mark now db true (wd_load s)) |> <| wd_writers ::= <[w := WSave db SaveStat]> |>).
Proof.
  intros HI Hn Hw Hdb Hlk. assert (0 <= ld_generation (wd_load s) < max_uint64)%Z as Hgen by (destruct (iv_gen _ _ _ _ HI); lia).
  assert (db <> "") as Hne by by intros ->. pose proof (mark_bumps now db _ Hne Hgen) as Hb. set (l' := fst _) in *.
  pose proof (inv_bump None n s db l' HI Hdb Hb) as HI1.
  assert (Inv paths None (n + 1) (s <| wd_load := l' |> <| wd_lock := Some (Writer w) |> <| wd_writers ::= <[w := WSave db SaveStat]> |>)) as H;
    [|by rewrite <- Hlk in H; destruct s].
  eapply inv_move; [by apply inv_skip|exact Hw|by left|done|by intros d [= <-]| |done|].
  - intros d p [= <- <-]. split_and!; [by eapply bumped_own|done|done].
  - intros d <-. right. by eapply bumped_unlisted.
Qed.

(** A writer that saves. *)
Lemma inv_writerSave n s w o db p s1 next : Inv paths None n s -> wd_writers s !! w = Some (WSave db p) -> (p = SaveStat -> o = IOOk) ->
  saveStep o p s = (s1, next) ->
  Inv paths None n match next with
                   | Ok p => s1 <| wd_writers ::= <[w := WSave db p]> |>
                   | Err refused => s1 <| wd_lock := None |> <| wd_writers ::= <[w := if refused then WEnd else WRow db]> |>
                   end.
Proof.
  intros HI Hw Ho Hs. destruct (iv_writer _ _ _ _ HI w _ Hw) as [Hlk Hpath Hsave]. specialize (Hlk eq_refl).
  destruct (Hsave ltac:(done) db p eq_refl) as (Hwr & Hph & Hown).
  destruct (inv_saveStep (Writer w) n o p s s1 next (inv_skip _ _ _ HI) Hlk Hph Hs) as (HI1 & Hlk1 & Hws1 & _ & Hmono & Hdone).
  assert (wd_writers s1 !! w = Some (WSave db p)) as Hw1 by by rewrite Hws1. destruct next as [p'|refused].
  - assert (Inv paths None n (s1 <| wd_lock := wd_lock s1 |> <| wd_writers ::= <[w := WSave db p']> |>)) as H; [|by destruct s1].
    destruct Hdone as [Hph' Hown']. eapply inv_move; [exact HI1|exact Hw1|by left|done|intros d [= <-]; by apply Hpath| |done|intros d <-; by left].
    intros d q [= <- <-]. split_and!; auto.
  - eapply inv_move; [exact HI1|exact Hw1|right; right; by rewrite Hlk1|by destruct refused|intros d; destruct refused; [done|intros [= <-]; by apply Hpath]|
      by destruct refused| |destruct refused; simpl; [done|intros d <-; by left]].
    intros d. destruct refused; [done|]. intros [= <-]. split_and!; [|auto|by right].
    refine (Hdone _ db Hown). intros ->. rewrite (Ho eq_refl) in Hs. done.
Qed.

Lemma inv_writerStep n s w o pc s1 next : Inv paths None n s -> (n < max_uint64)%Z -> wd_writers s !! w = Some pc ->
  (forall db, pc = WSave db SaveStat -> o = IOOk) -> writerStep now o w pc s = Some (s1, next) ->
  Inv paths None (n + 1) (match next with Some pc' => s1 <| wd_writers ::= <[w := pc']> |> | None => s1 <| wd_writers ::= delete w |> end).
Proof.
  intros HI Hn Hw Ho Hs. destruct (iv_writer _ _ _ _ HI w pc Hw) as [Hlk Hpath Hsave].
  assert (forall pc' lk, lockMove (Writer w) (wd_lock s) lk -> (lockedPC pc' = true -> lk = Some (Writer w)) ->
    (forall db, pathOf pc' = Some db -> pathOf pc = Some db) -> (forall db p, pc' <> WSave db p) -> (forall db, pc' <> WRow db) ->
    Inv paths None (n + 1) (s <| wd_lock := lk |> <| wd_writers ::= <[w := pc']> |>)) as Hmove.
  { intros pc' lk Hm Hl Hp Hns Hnr. eapply inv_weaken; [|eapply inv_move; [by apply inv_skip|exact Hw|done|done|auto| | |]]; [lia| | |].
    - intros db p ->. by destruct (Hns db p). - intros db ->. by destruct (Hnr db).
    - intros db. destruct pc'; simpl; try done; intros ->; [by edestruct Hns|by edestruct Hnr]. }
  assert (forall pc', s <| wd_writers ::= <[w := pc']> |> = s <| wd_lock := wd_lock s |> <| wd_writers ::= <[w := pc']> |>) as Heta by (intros; by destruct s).
  destruct pc as [db|db|db|db|db|db|db p|db|]; simpl in Hs.
  - injection Hs as <- <-. rewrite Heta. apply Hmove; [by left|by destruct (ld_dirty _)..].
  - destruct (markDurable db (wd_load s)) as [l' ok] eqn:Hm. injection Hs as <- <-. destruct ok.
    + pose proof (inv_durable n s w _ db l' (wd_lock s) HI Hn Hw (Hpath db eq_refl) ltac:(by left) Hm) as H. by destruct s.
    + apply markDurable_fails in Hm as ->. pose proof (Hmove (WWait db) (wd_lock s) ltac:(by left) ltac:(done) ltac:(done) ltac:(done) ltac:(done)) as H. by destruct s.
  - destruct (wd_lock s) eqn:Hl; [done|]. injection Hs as <- <-. apply Hmove; [right; left; by rewrite ?Hl|done..].
  - injection Hs as <- <-. rewrite Heta. apply Hmove; [by left|destruct (ld_dirty _); auto..|by destruct (ld_dirty _)|by destruct (ld_dirty _)].
  - destruct (markDurable db (wd_load s)) as [l' ok] eqn:Hm. injection Hs as Hs. destruct ok; injection Hs as <- <-.
    + eapply inv_durable; [done|done|exact Hw|by apply Hpath|right; right; split; [by apply Hlk|done]|done].
    + rewrite Heta. apply Hmove; [by left|auto..|done|done].
  - injection Hs as <- <-. eapply inv_mark; eauto.
  - destruct (saveStep o p s) as [s2 r] eqn:Hr. pose proof (inv_writerSave n s w o db p s2 r HI Hw ltac:(intros ->; by eapply Ho) Hr) as H.
    apply (inv_weaken None n (n + 1)); [lia|]. destruct r; by injection Hs as <- <-.
  - injection Hs as <- <-. pose proof (inv_commit None n s w db (match o with IOFailed => false | _ => true end) HI Hw) as HI1. set (s1' := commitRow _ _ _) in *.
    apply (inv_weaken None n (n + 1)); [lia|].
    assert (Inv paths None n (s1' <| wd_lock := wd_lock s1' |> <| wd_writers ::= <[w := WEnd]> |>)) as H; [|by destruct s1'].
    eapply inv_move; [by apply inv_skip| |by left|done..]. unfold s1', commitRow. by destruct o.
  - injection Hs as <- <-. apply (inv_weaken None n (n + 1)); [lia|]. apply (inv_end n s w HI Hw).
Qed.

(** ** The verifier *)

Lemma inv_verifierStep n s o s' : Inv paths None n s -> verifierStep o s = Some s' -> Inv paths None n s'.
Proof.
  intros HI Hs. unfold verifierStep in Hs. destruct (wd_verifier s) as [|written| |p] eqn:Hv; [done|..].
  - injection Hs as <-. assert (forall v, (forall p, v <> VSave p) -> Inv paths None n (s <| wd_lock := wd_lock s |> <| wd_verifier := v |>)) as H.
    { intros v Hv'. apply inv_moveVerifier; [by apply inv_skip|by left|]. intros p ->. by destruct (Hv' p). }
    specialize (H (if written || ld_dirty (wd_load s) then VWait else VIdle)). destruct (_ || _); destruct s; by apply H.
  - destruct (wd_lock s) eqn:Hl; [done|]. injection Hs as <-. apply inv_moveVerifier; [by apply inv_skip|right; left; by rewrite Hl|]. by intros p [= <-].
  - destruct (iv_verifier _ _ _ _ HI p Hv) as [Hlk Hph]. destruct (saveStep o p s) as [s1 next] eqn:Hr.
    destruct (inv_saveStep TheVerifier n o p s s1 next (inv_skip _ _ _ HI) Hlk (Hph ltac:(done)) Hr) as (HI1 & Hlk1 & _ & _ & _ & Hdone).
    destruct next as [p'|refused]; injection Hs as <-.
    + assert (Inv paths None n (s1 <| wd_lock := wd_lock s1 |> <| wd_verifier := VSave p' |>)) as H; [|by destruct s1].
      apply inv_moveVerifier; [done|by left|]. intros q [= <-]. split; [done|apply Hdone].
    + apply inv_moveVerifier; [done|right; right; by rewrite Hlk1|done].
Qed.

(** The flags of the tracker and the pause. *)
Lemma inv_flags n s l' ps : Inv paths None n s -> ld_changed l' = ld_changed (wd_load s) -> ld_generation l' = ld_generation (wd_load s) ->
  ld_active l' = ld_active (wd_load s) -> (ps <> Running -> ld_paused l' = true) -> (ps = Quiesced -> wd_writers s = ∅) ->
  Inv paths None n (s <| wd_load := l' |> <| wd_pausing := ps |>).
Proof.
  intros HI Hc Hg Ha Hp Hq. set (s' := s <| wd_load := l' |> <| wd_pausing := ps |>).
  destruct (frame None n s s' HI) as (F1 & F2 & F3); [done|done|done| | |auto|].
  { intros d [(ch & H & H')|H]; [|by right]. left. exists ch. by rewrite <- Hc. }
  { unfold isWritten. simpl. rewrite Hc. auto. }
  destruct HI as [H1 H2 _ _ _ H6 H7 H8]. split; try done; simpl; by rewrite ?Hc, ?Hg, ?Ha.
Qed.

Lemma inv_begin n s w db : Inv paths None n s -> ld_paused (wd_load s) = false -> db ∈ paths -> wd_writers s !! w = None ->
  Inv paths None n (s <| wd_load := (wd_load s) <| ld_active ::= S |> |> <| wd_writers ::= <[w := WCheck db]> |>).
Proof.
  intros HI Hpa Hdb Hw. set (s' := _ <| wd_writers ::= _ |>).
  assert (forall w' pc, wd_writers s' !! w' = Some pc -> pc = WCheck db \/ wd_writers s !! w' = Some pc) as Hws.
  { intros w' pc H. unfold s' in H. simpl in H. apply lookup_insert_Some in H as [[_ <-]|[_ ?]]; auto. }
  destruct (frame None n s s' HI) as (F1 & F2 & F3); [done|done|done| |auto| |].
  { intros d [H|[H|(w' & H)]]; [by left|right; by left|]. right. right. exists w'. by destruct (Hws _ _ H). }
  { intros w' pc [->|?]%Hws; [right; by exists db|by left]. }
  destruct HI as [H1 H2 _ _ _ H6 H7 H8]. split; try done.
  - simpl. rewrite map_size_insert_None by done. by rewrite H6.
  - destruct H7 as [A B]. split; [done|]. intros Hq. simpl in Hq. rewrite (A ltac:(by rewrite Hq)) in Hpa. done.
  - intros d g v Hl. destruct (H8 d g v Hl) as [Hle Hrest]. split; [done|]. intros ch Hc Hg. destruct (Hrest ch Hc Hg) as [R1 R2]. split; [|done].
    intros w' pc [->|Hw']%Hws; [by intros []|by eapply R1].
Qed.

(** The verifier lists, verifies and acknowledges. *)
Lemma inv_list n s : Inv paths None n s -> wd_pausing s = Quiesced ->
  Inv paths None n (s <| wd_listed := (fun change => (ch_generation change, false)) <$> ld_changed (wd_load s) |>).
Proof.
  intros HI Hq. destruct (iv_paused _ _ _ _ HI) as [_ Hnone]. specialize (Hnone Hq).
  set (s' := s <| wd_listed := _ |>). destruct (frame None n s s' HI) as (F1 & F2 & F3); [done|done|done|done|auto|auto|].
  destruct HI as [H1 H2 _ _ _ H6 H7 H8]. split; try done. intros d g v Hl. unfold s' in Hl. simpl in Hl.
  rewrite lookup_fmap in Hl. destruct (ld_changed (wd_load s) !! d) as [ch|] eqn:Hc; [|done]. injection Hl as <- <-.
  split; [by apply (H2 d ch)|]. intros ch' _ _. split; [|done]. intros w pc Hw. unfold s' in Hw. simpl in Hw. by rewrite Hnone in Hw.
Qed.

Lemma inv_verify n s db : Inv paths None n s ->
  Inv paths None n (s <| wd_covered ::= <[db := rowsOf (wd_rows s) db]> |> <| wd_listed ::= alter (fun '(g, _) => (g, true)) db |>).
Proof.
  intros HI. set (s' := _ <| wd_listed ::= _ |>).
  assert (~ owed s' db) as Hown. { intros H. apply H. unfold s'. simpl. unfold rowsOf at 2. by rewrite lookup_insert_eq. }
  assert (forall d, owed s' d -> owed s d) as Howed.
  { intros d H. destruct (decide (d = db)) as [->|Hne]; [done|]. revert H. unfold owed, s'. simpl. unfold rowsOf at 2. by rewrite lookup_insert_ne by done. }
  destruct (frame None n s s' HI) as (F1 & F2 & F3); [done|done|done| |auto|auto|].
  { intros d [H|[H|H]]; [by left|right; left; auto|right; by right]. }
  destruct HI as [H1 H2 _ _ _ H6 H7 H8]. split; try done. intros d g v Hl. unfold s' in Hl. simpl in Hl.
  apply lookup_alter_Some in Hl as [(-> & [g0 v0] & Hl & [= <- <-])|[Hne Hl]].
  - destruct (H8 d g v0 Hl) as [Hle Hrest]. split; [done|]. intros ch Hc Hg. destruct (Hrest ch Hc Hg) as [R1 _]. by split.
  - destruct (H8 d g v Hl) as [Hle Hrest]. split; [done|]. intros ch Hc Hg. destruct (Hrest ch Hc Hg) as [R1 R2]. split; [done|].
    intros Hv Ho. by apply (R2 Hv), Howed.
Qed.

Lemma inv_acknowledge n s db g l' written : Inv paths None n s -> wd_listed s !! db = Some (g, true) -> acknowledge db g (wd_load s) = (l', written) ->
  Inv paths None n (s <| wd_load := l' |> <| wd_verifier := VDecide written |>).
Proof.
  intros HI Hl Hack. set (s' := _ <| wd_verifier := _ |>).
  assert (l' = wd_load s \/ (exists ch, ld_changed (wd_load s) !! db = Some ch /\ ch_generation ch = g) /\ l' = (wd_load s) <| ld_changed ::= delete db |>) as [->|[(ch & Hc & Hg) ->]].
  { unfold acknowledge in Hack. destruct (ld_changed (wd_load s) !! db) as [ch|]; [|left; by injection Hack as <- _].
    destruct (Z.eqb_spec (ch_generation ch) g); injection Hack as <- _; [right|by left]. split; [by exists ch|done]. }
  - destruct (frame None n s s' HI) as (F1 & F2 & F3); [done|done|done|done|auto|auto|]. destruct HI as [H1 H2 _ _ _ H6 H7 H8]. by split.
  - destruct (iv_listed _ _ _ _ HI db g true Hl) as [_ Hrest]. destruct (Hrest ch Hc Hg) as [R1 R2]. specialize (R2 eq_refl).
    assert (forall d, needed s' d -> d <> db /\ needed s d) as Hneed.
    { intros d [(c & H & H')|[H|(w & H)]].
      - simpl in H. apply lookup_delete_Some in H as [? H]. split; [done|]. left. by exists c.
      - split; [by intros ->|right; by left].
      - split; [intros ->; exact (R1 w _ H eq_refl)|right; right; by exists w]. }
    destruct (frame None n s s' HI) as (F1 & F2 & F3); [done|done|done|intros d Hn; by apply Hneed| |auto|].
    { intros d (c & H & H'). destruct (decide (d = db)) as [->|Hne]; [right; split; [by intros []%Hneed|exact R1]|].
      left. exists c. simpl. by rewrite lookup_delete_ne. }
    destruct HI as [H1 H2 _ _ _ H6 H7 H8]. split; try done.
    + intros d c H. simpl in H. apply lookup_delete_Some in H as [_ H]. by apply (H2 d c).
    + intros d g' v Hl'. destruct (H8 d g' v Hl') as [Hle Hrest']. split; [done|]. intros c H. simpl in H. apply lookup_delete_Some in H as [_ H]. by apply (Hrest' c).
Qed.

(** ** A restart *)

(** The tracker of a worker that starts: an entry per database, none durable. *)
Record startedLoad (ps : list string) (l : manyDBLoad) : Prop := {
  sd_gen : ld_generation l = Z.of_nat (length ps);
  sd_dom : forall db, is_Some (ld_changed l !! db) <-> db ∈ ps;
  sd_change : forall db ch, ld_changed l !! db = Some ch -> (ch_generation ch <= ld_generation l)%Z /\ ch_durable ch = false;
  sd_rest : ld_active l = 0 /\ ld_paused l = false
}.
Lemma mark_started ps : "" ∉ ps -> (Z.of_nat (length ps) <= max_uint64)%Z -> startedLoad ps (fold_left (fun l path => fst (mark now path false l)) ps manyDBLoad_zero).
Proof.
  induction ps as [|p ps IH] using rev_ind; intros Hne Hlen; [split; try done; intros db; split; [by intros []|by intros ?%not_elem_of_nil]|].
  rewrite fold_left_app. simpl. rewrite length_app in Hlen. simpl in Hlen. apply not_elem_of_app in Hne as [Hne Hp].
  destruct IH as [Hg Hd Hch Hr]; [done|lia|].
  set (l := fold_left _ ps _) in *. unfold mark. replace (p =s "") with false by (symmetry; apply String.eqb_neq; by intros ->; apply Hp, list_elem_of_singleton). cbn [fst].
  assert (uint64 (ld_generation l + 1) = Z.of_nat (length (ps ++ [p]))) as Hu.
  { rewrite length_app, Hg. simpl. rewrite uint64_small; lia. }
  split; simpl; [done| | |done].
  - intros db. rewrite lookup_insert_is_Some', Hd, elem_of_app, list_elem_of_singleton. intuition.
  - intros db ch Hc. rewrite Hu, length_app. simpl. apply lookup_insert_Some in Hc as [[<- <-]|[Hn Hc]]; simpl.
    + split; [rewrite Hu, length_app; simpl; lia|]. destruct (ld_changed l !! p) as [ch|] eqn:E; [simpl; by apply (Hch p ch)|done].
    + destruct (Hch db ch Hc). split; [lia|done].
Qed.

Lemma setWritten_started ps path l : path ∈ ps -> startedLoad ps l ->
  startedLoad ps (setWritten path l) /\ isWritten (setWritten path l) path /\ forall db, isWritten l db -> isWritten (setWritten path l) db.
Proof.
  intros Hin [Hg Hd Hch Hr]. apply Hd in Hin as [ch Hc]. unfold setWritten, isWritten. rewrite Hc. simpl. split_and!.
  - split; simpl; [done| | |done].
    + intros db. rewrite lookup_insert_is_Some', <- Hd. split; [intros [<-|?]; [by exists ch|done]|by right].
    + intros db c H. apply lookup_insert_Some in H as [[<- <-]|[_ H]]; [by apply (Hch path ch)|by apply (Hch db c)].
  - eexists. by rewrite lookup_insert_eq.
  - intros db (c & H & Hw). destruct (decide (path = db)) as [<-|Hne]; [eexists; by rewrite lookup_insert_eq|exists c; by rewrite lookup_insert_ne].
Qed.
Lemma setWritten_all ps (f : string -> bool) ws l : (forall p, p ∈ ws -> f p = true -> p ∈ ps) -> startedLoad ps l ->
  let l' := fold_left (fun l path => if f path then setWritten path l else l) ws l in
  startedLoad ps l' /\ (forall db, isWritten l db -> isWritten l' db) /\ forall db, db ∈ ws -> f db = true -> isWritten l' db.
Proof.
  revert l. induction ws as [|w ws IH]; intros l Hws Hl; simpl; [split_and!; try done; intros db ?%not_elem_of_nil; done|].
  assert (startedLoad ps (if f w then setWritten w l else l) /\ (forall db, isWritten l db -> isWritten (if f w then setWritten w l else l) db) /\
    (f w = true -> isWritten (if f w then setWritten w l else l) w)) as (H1 & H2 & H3).
  { destruct (f w) eqn:Hf; [|by split_and!]. destruct (setWritten_started ps w l) as (? & ? & ?); [apply Hws; [apply elem_of_cons; by left|done]|done|by split_and!]. }
  destruct (IH _ ltac:(intros p Hp; apply Hws, elem_of_cons; by right) H1) as (I1 & I2 & I3). split_and!; [done|auto|].
  intros db [->|Hin]%elem_of_cons Hf; auto.
Qed.

Lemma newManyDBLoad_started read : (Z.of_nat (length paths) <= max_uint64)%Z ->
  let l := newManyDBLoad now paths read true in
  startedLoad paths l /\ forall db, db ∈ paths -> match read with ReadOk ws => db ∈ ws | _ => True end -> isWritten l db.
Proof.
  intros Hlen. unfold newManyDBLoad. pose proof (mark_started paths Hpaths Hlen) as Hm. set (l := fold_left _ paths _) in *.
  assert (forall l', startedLoad paths l' -> startedLoad paths (fold_left (fun l' path => setWritten path l') (map fst (map_to_list (ld_changed l))) l') /\
    forall db, db ∈ paths -> isWritten (fold_left (fun l' path => setWritten path l') (map fst (map_to_list (ld_changed l))) l') db) as Hall.
  { intros l' Hl'. assert (forall p, p ∈ map fst (map_to_list (ld_changed l)) <-> p ∈ paths) as Hin.
    { intros p. rewrite <- (sd_dom _ _ Hm), list_elem_of_In, in_map_iff. split.
      - intros ([q c] & <- & Hq). apply list_elem_of_In, elem_of_map_to_list in Hq. by exists c.
      - intros [c Hc]. exists (p, c). split; [done|]. by apply list_elem_of_In, elem_of_map_to_list. }
    destruct (setWritten_all paths (fun _ => true) (map fst (map_to_list (ld_changed l))) l') as (A & _ & B); [intros p Hp _; by apply Hin|done|].
    split; [exact A|]. intros db Hdb. apply B; [by apply Hin|done]. }
  destruct read as [ws| |]; simpl; [|destruct (Hall l Hm); by split; [|auto]..].
  destruct (setWritten_all paths (fun p => bool_decide (is_Some (ld_changed l !! p))) ws l) as (A & _ & B); [|done|].
  { intros p _ Hp. apply bool_decide_eq_true in Hp. by apply (sd_dom _ _ Hm). }
  split; [exact A|]. intros db Hdb Hws. apply B; [done|]. apply bool_decide_eq_true. by apply (sd_dom _ _ Hm).
Qed.

Lemma inv_startedLoad read disk rows covered n : (Z.of_nat (length paths) <= n)%Z -> (n <= max_uint64)%Z ->
  (forall db, rowsOf rows db <> rowsOf covered db -> safe disk db /\ db ∈ paths /\ match read with ReadOk ws => db ∈ ws | _ => True end) ->
  Inv paths None n (mkWorld (newManyDBLoad now paths read true) None ∅ Running ∅ VIdle disk rows covered).
Proof.
  intros Hn Hm Howed. destruct (newManyDBLoad_started read ltac:(lia)) as [[Hg Hd Hch [Ha Hp]] Hw]. set (l := newManyDBLoad _ _ _ _) in *.
  split; simpl; try done.
  - rewrite Hg. lia.
  - intros db ch Hc. split; [apply Hd; by exists ch|by apply (Hch db ch)].
  - intros db [(ch & Hc & Hdu)|[Ho|(w & H)]]; [|destruct (Howed db Ho) as (? & ? & ?); split; auto|done].
    destruct (Hch db ch Hc). congruence.
Qed.
Lemma inv_restart found n s : (Z.of_nat (length paths) <= n)%Z -> (n <= max_uint64)%Z -> Inv paths None n s ->
  (forall content, found = Some content -> content ∈ wd_disk s) -> Inv paths None n (restartLoad paths now found s).
Proof.
  intros Hn Hm HI Hf. apply inv_startedLoad; [done|done|]. intros db Ho. destruct (iv_need _ _ _ _ HI db) as [Hs (ch & Hc & _)]; [right; by left|].
  split_and!; [done|by apply (iv_keys _ _ _ _ HI db ch)|]. destruct found as [[ws|]|]; simpl; try done. by apply Hs, Hf.
Qed.

(** ** Every action *)

(** The action is not a writer's look at the state directory that fails. *)
Definition statOk (a : loadAction) (s : loadWorld) : bool :=
  match a with
  | AWriter w o => match wd_writers s !! w, o with Some (WSave _ SaveStat), (IOFailed | IOLate) => false | _, _ => true end
  | _ => true
  end.
Fixpoint statsOk (l : list loadAction) (s : loadWorld) : bool :=
  match l with [] => true | a :: l => statOk a s && match loadAct paths now a s with Some s => statsOk l s | None => true end end.

Lemma inv_act a n s s' : (Z.of_nat (length paths) <= n)%Z -> (n < max_uint64)%Z -> Inv paths None n s -> statOk a s = true ->
  loadAct paths now a s = Some s' -> Inv paths None (n + 1) s'.
Proof.
  intros Hlen Hn HI Hstat Hact.
  assert (Inv paths None n s' -> Inv paths None (n + 1) s') as Hweak by (apply inv_weaken; lia).
  assert (forall l' ps, ld_changed l' = ld_changed (wd_load s) -> ld_generation l' = ld_generation (wd_load s) -> ld_active l' = ld_active (wd_load s) ->
    (ps <> Running -> ld_paused l' = true) -> (ps = Quiesced -> wd_writers s = ∅) -> Inv paths None n (s <| wd_load := l' |> <| wd_pausing := ps |>)) as Hflags
    by (intros; by apply inv_flags).
  destruct (iv_paused _ _ _ _ HI) as [Hpa Hqu].
  destruct a as [w db|w o| | | | | |db|db|db|o|found]; simpl in Hact, Hstat.
  - apply Hweak. destruct (ld_paused _) eqn:Hp; [done|]. destruct (ld_stopped _); [done|]. destruct (slices_Contains paths db) eqn:Hc; [|done]. simpl in Hact.
    destruct (wd_writers s !! w) eqn:Hw; [by rewrite bool_decide_true in Hact by by eexists|]. rewrite bool_decide_false in Hact by by intros [].
    injection Hact as <-. apply inv_begin; [done|done|by apply slices_Contains_elem|done].
  - destruct (wd_writers s !! w) as [pc|] eqn:Hw; [|done]. destruct (writerStep now o w pc s) as [[s1 next]|] eqn:Hs; [|done].
    assert (forall db, pc = WSave db SaveStat -> o = IOOk) as Ho by (intros db ->; by destruct o).
    pose proof (inv_writerStep n s w o pc s1 next HI Hn Hw Ho Hs) as H. destruct next; by injection Hact as <-.
  - apply Hweak. destruct (wd_pausing s); try done. injection Hact as <-. by apply Hflags.
  - apply Hweak. destruct (wd_pausing s) eqn:Hq; try done. destruct (Nat.eqb_spec (ld_active (wd_load s)) 0) as [Ha|]; [|done]. injection Hact as <-.
    pose proof (Hflags (wd_load s) Quiesced eq_refl eq_refl eq_refl) as H. destruct s; apply H; [intros _; by apply Hpa|]. intros _.
    rewrite (iv_active _ _ _ _ HI) in Ha. by apply map_size_empty_iff in Ha.
  - apply Hweak. injection Hact as <-. by apply Hflags.
  - apply Hweak. injection Hact as <-. assert (Inv paths None n (s <| wd_load := (wd_load s) <| ld_stopped := true |> |> <| wd_pausing := wd_pausing s |>)) as H by by apply Hflags. by destruct s.
  - apply Hweak. destruct (wd_pausing s) eqn:Hq; try done. destruct (wd_verifier s); try done. injection Hact as <-. by apply inv_list.
  - apply Hweak. injection Hact as <-. by apply inv_verify.
  - apply Hweak. injection Hact as <-. pose proof (Hflags (attemptManyDBChange db (wd_load s)) (wd_pausing s) eq_refl eq_refl eq_refl Hpa Hqu) as H. by destruct s.
  - apply Hweak. destruct (wd_verifier s); try done. destruct (wd_listed s !! db) as [[g []]|] eqn:Hl; try done.
    destruct (acknowledge db g (wd_load s)) as [l' written] eqn:Hack. injection Hact as <-. by eapply inv_acknowledge.
  - apply Hweak. by eapply inv_verifierStep.
  - apply Hweak. destruct (match found with Some _ => _ | None => _ end) eqn:Hf; [|done]. injection Hact as <-.
    apply inv_restart; [done|lia|done|]. intros content ->. by apply bool_decide_eq_true in Hf.
Qed.

Lemma inv_run l n s s' : (Z.of_nat (length paths) <= n)%Z -> (n + Z.of_nat (length l) <= max_uint64)%Z -> Inv paths None n s -> statsOk l s = true ->
  runActions paths now l s = Some s' -> Inv paths None (n + Z.of_nat (length l)) s'.
Proof.
  revert n s. induction l as [|a l IH]; intros n s Hn Hlen HI Hst Hrun; [injection Hrun as <-; by rewrite Z.add_0_r|].
  cbn [length runActions statsOk] in *. apply andb_true_iff in Hst as [Ha Hst]. destruct (loadAct paths now a s) as [s1|] eqn:Hact; [|done].
  replace (n + Z.of_nat (S (length l)))%Z with (n + 1 + Z.of_nat (length l))%Z by lia.
  eapply IH; [lia|lia| |done|done]. eapply inv_act; [done|lia|done|done|done].
Qed.
Lemma inv_fresh disk : (Z.of_nat (length paths) <= max_uint64)%Z -> Inv paths None (Z.of_nat (length paths)) (freshWorld paths now disk).
Proof. intros Hlen. apply inv_startedLoad; [done|done|]. intros db Ho. by destruct Ho. Qed.
End Invariant.

(** * No row is lost *)

Lemma filter_pos {A} (f : A -> bool) l x : x ∈ l -> f x = true -> 0 < length (List.filter f l).
Proof. intros Hx Hf. destruct (List.filter f l) eqn:E; [|simpl; lia]. assert (In x (List.filter f l)) as H by (apply filter_In; by rewrite <- list_elem_of_In). by rewrite E in H. Qed.
Lemma coverage_counts t l db : isWritten l db -> (0 < mc_written (manyDBPendingCoverage t l))%Z.
Proof.
  intros (ch & Hc & Hw). unfold manyDBPendingCoverage. cbn [mc_written].
  assert (0 < length (List.filter ch_written (map snd (map_to_list (ld_changed l))))) as H; [|lia].
  apply (filter_pos _ _ ch); [|done]. apply list_elem_of_In, in_map_iff. exists (db, ch). split; [done|]. by apply list_elem_of_In, elem_of_map_to_list.
Qed.

(** C6: In every interleaving of the writers of a many-database worker with its verifier, with saves
    that fail at any point and restarts that find any content the file may have, a
    database with a committed row that no verification has seen is in the written set,
    is counted by the coverage a passed batch needs to be empty, and a restart at that moment takes it for
    written again, whatever it finds or fails to read.  This holds provided that no writer's stat of its
    database fails ([stat_failure_loses_the_write] shows that otherwise it is false), and for runs whose actions and
    databases together fit in 64 bits. *)
Theorem no_write_lost paths now disk l s' :
  "" ∉ paths -> (Z.of_nat (length paths) + Z.of_nat (length l) <= max_uint64)%Z ->
  statsOk paths now l (freshWorld paths now disk) = true -> runActions paths now l (freshWorld paths now disk) = Some s' ->
  forall db, rowsOf (wd_rows s') db <> rowsOf (wd_covered s') db ->
    db ∈ writtenPaths (wd_load s') /\ (forall t, (0 < mc_written (manyDBPendingCoverage t (wd_load s')))%Z) /\
    forall found, (forall content, found = Some content -> content ∈ wd_disk s') -> db ∈ writtenPaths (wd_load (restartLoad paths now found s')).
Proof.
  intros Hp Hlen Hst Hrun db Ho. assert (needed s' db) as Hn by (right; by left).
  assert (Inv paths None (Z.of_nat (length paths) + Z.of_nat (length l)) s') as HI.
  { eapply inv_run; [exact Hp|lia|done|apply inv_fresh; [done|lia]|done|done]. }
  destruct (iv_need _ _ _ _ HI db Hn) as [_ Hw]. split_and!; [by apply writtenPaths_elem|intros t; by eapply coverage_counts|].
  intros found Hf. pose proof (fun H => inv_restart paths now Hp found _ s' H Hlen HI Hf) as HR. specialize (HR ltac:(lia)).
  apply writtenPaths_elem. apply (iv_need _ _ _ _ HR db). right. by left.
Qed.

(** A write, a verification that acknowledges it, a second write through the durable entry
    of another database, and a restart that finds the file. *)
Definition demoWrite (w : nat) (db : string) (o : list ioOutcome) : list loadAction := ABegin w db :: map (AWriter w) o.
Definition demoSave : list ioOutcome := repeat IOOk 13.
Definition demoRun : list loadAction :=
  demoWrite 0 "a" demoSave ++ [APause; AQuiet; AList; AVerify "a"; AResume] ++ demoWrite 1 "b" demoSave ++ demoWrite 2 "b" (repeat IOOk 3) ++
  [AAcknowledge "a"; AVerifier IOOk; AVerifier IOOk; AVerifier IOOk; AVerifier IOOk; AVerifier IOLate].
Lemma no_write_lost_witness : exists s', runActions ["a"; "b"] 0 demoRun (freshWorld ["a"; "b"] 0 [Some []]) = Some s' /\
  wd_disk s' = [Some ["b"]; Some ["a"; "b"]] /\ "b" ∈ writtenPaths (wd_load s') /\ "b" ∈ writtenPaths (wd_load (restartLoad ["a"; "b"] 0 (Some (Some ["b"])) s')).
Proof.
  assert (statsOk ["a"; "b"] 0 demoRun (freshWorld ["a"; "b"] 0 [Some []]) = true) as Hst by (vm_compute; reflexivity).
  assert ((fun s => (rowsOf (wd_rows s) "b", rowsOf (wd_covered s) "b", wd_disk s)) <$> runActions ["a"; "b"] 0 demoRun (freshWorld ["a"; "b"] 0 [Some []]) =
    Some (2%Z, 0%Z, [Some ["b"]; Some ["a"; "b"]])) as Hfacts by (vm_compute; reflexivity).
  destruct (runActions ["a"; "b"] 0 demoRun (freshWorld ["a"; "b"] 0 [Some []])) as [s'|] eqn:Hrun; [|discriminate Hfacts].
  injection Hfacts as Hr Hc Hd.
  exists s'. split; [reflexivity|].
  assert (rowsOf (wd_rows s') "b" <> rowsOf (wd_covered s') "b") as Ho by (rewrite Hr, Hc; lia).
  assert ("" ∉ ["a"; "b"]) as Hp by (rewrite list_elem_of_In; simpl; intros [?|[?|[]]]; discriminate).
  assert (Z.of_nat (length ["a"; "b"]) + Z.of_nat (length demoRun) <= max_uint64)%Z as Hlen by (vm_compute; discriminate).
  destruct (no_write_lost ["a"; "b"] 0 [Some []] demoRun s' Hp Hlen Hst Hrun "b" Ho) as (H1 & _ & H2).
  split_and!; [exact Hd|exact H1|]. apply H2. intros content [= <-]. rewrite Hd. apply elem_of_cons. by left.
Defined.

(** A writer whose look at the state directory fails goes on to its row with no record
    of it: a restart takes the database for one that no row was written to. *)
Definition lostRun : list loadAction := demoWrite 0 "a" (repeat IOOk 6 ++ [IOFailed; IOOk; IOOk]) ++ [ARestart (Some (Some []))].
Example stat_failure_loses_the_write :
  (fun s => (rowsOf (wd_rows s) "a", rowsOf (wd_covered s) "a", writtenPaths (wd_load s))) <$> runActions ["a"; "b"] 0 lostRun (freshWorld ["a"; "b"] 0 [Some []]) =
  Some (1%Z, 0%Z, []).
Proof. vm_compute. reflexivity. Qed.

(** * The rows of a database stay within its limit *)

Lemma pruneBatch_elem maxRows ids id : id ∈ pruneBatch maxRows ids -> id ∈ ids /\ (maxRows < id)%Z.
Proof.
  intros H. apply elem_of_take in H as (i & H & _). apply list_elem_of_lookup_2 in H. rewrite merge_sort_Permutation, list_elem_of_In, filter_In in H.
  destruct H as [H Hlt]. split; [by apply elem_of_elements, list_elem_of_In|lia].
Qed.
Lemma pruneBatch_last maxRows ids id : (Z.of_nat (length (pruneBatch maxRows ids)) < manyDBPruneBatchSize)%Z -> id ∈ ids -> (maxRows < id)%Z -> id ∈ pruneBatch maxRows ids.
Proof.
  unfold pruneBatch. set (l := merge_sort Z.ge _). rewrite length_firstn. intros Hlen Hid Hlt.
  rewrite firstn_all2 by lia. unfold l. rewrite merge_sort_Permutation, list_elem_of_In, filter_In. split; [by apply list_elem_of_In, elem_of_elements|lia].
Qed.
Lemma prune_shrinks maxRows ids : pruneBatch maxRows ids <> [] -> size (ids ∖ list_to_set (pruneBatch maxRows ids)) < size ids.
Proof.
  intros Hne. apply subset_size. destruct (pruneBatch maxRows ids) as [|id batch] eqn:E; [done|].
  assert (id ∈ ids) as Hid by (apply (pruneBatch_elem maxRows); rewrite E; apply elem_of_cons; by left).
  split; [set_solver|]. intros H. specialize (H id Hid). set_solver.
Qed.

(** What a prune keeps, and what it leaves when it succeeds. *)
Definition pruned (maxRows : Z) (ids ids' : gset Z) (err : option string) : Prop :=
  ids' ⊆ ids /\ (forall id, id ∈ ids -> (id <= maxRows)%Z -> id ∈ ids') /\ (err = None -> forall id, id ∈ ids' -> (id <= maxRows)%Z).
Lemma pruneLoop_spec io dbPath maxRows fuel i ids : size ids < fuel ->
  let '(ids', err) := pruneLoop io fuel i dbPath maxRows ids in pruned maxRows ids ids' err.
Proof.
  revert i ids. induction fuel as [|fuel IH]; intros i ids Hf; [lia|]. simpl.
  destruct (io_exec io dbPath i); [by split_and!|]. set (batch := pruneBatch maxRows ids). set (ids1 := ids ∖ list_to_set batch).
  assert (ids1 ⊆ ids) as Hsub by set_solver.
  assert (forall id, id ∈ ids -> (id <= maxRows)%Z -> id ∈ ids1) as Hkeep.
  { intros id Hid Hle. apply elem_of_difference. split; [done|]. rewrite elem_of_list_to_set. intros [_ ?]%pruneBatch_elem. lia. }
  destruct (io_affected io dbPath i); [by split_and!|]. destruct (Z.ltb_spec (Z.of_nat (length batch)) manyDBPruneBatchSize) as [Hlt|Hge].
  - split_and!; [done|done|]. intros _ id Hid. apply elem_of_difference in Hid as [Hid Hn]. rewrite elem_of_list_to_set in Hn.
    destruct (Z.leb_spec id maxRows); [done|]. destruct Hn. by apply pruneBatch_last.
  - assert (size ids1 < fuel) as Hs.
    { enough (size ids1 < size ids) by lia. apply prune_shrinks. unfold batch in Hge. intros E. rewrite E in Hge. by apply Hge. }
    specialize (IH (S i) ids1 Hs). destruct (pruneLoop io fuel (S i) dbPath maxRows ids1) as [ids' err]. destruct IH as (A & B & C).
    split_and!; [set_solver|auto|done].
Qed.
Lemma pruneManyDBRows_spec io dbPath maxRows ids :
  let '(ids', err) := pruneManyDBRows io dbPath maxRows ids in pruned maxRows ids ids' err.
Proof.
  unfold pruneManyDBRows. destruct (maxRows <=? 0)%Z; [by split_and!|]. destruct (io_open io dbPath); [by split_and!|]. apply pruneLoop_spec. lia.
Qed.

(** Every listed slot is within the limits. *)
Definition slotsIn (lo hi : Z) (ids : gset Z) : Prop := forall id, id ∈ ids -> (lo <= id <= hi)%Z.
Definition positiveRows (dbs : gmap string (gset Z)) : Prop := forall p ids, dbs !! p = Some ids -> forall id, id ∈ ids -> (1 <= id)%Z.

Lemma absent_insert (m : gmap string (gset Z)) p ids paths : p ∉ paths ->
  forallb (fun q => bool_decide (<[p := ids]> m !! q = None)) paths = forallb (fun q => bool_decide (m !! q = None)) paths.
Proof.
  induction paths as [|q paths IH]; intros Hp; [done|]. apply not_elem_of_cons in Hp as [Hne Hp]. simpl. rewrite IH by done. by rewrite lookup_insert_ne.
Qed.

Lemma populateAll_spec io maxRows paths fresh v v' fresh' : NoDup paths -> positiveRows (vo_dbs v) ->
  populateAll io maxRows paths fresh v = (v', fresh', None) ->
  (forall p, p ∈ paths -> exists ids, vo_dbs v' !! p = Some ids /\ slotsIn 1 maxRows ids) /\ (forall p, p ∉ paths -> vo_dbs v' !! p = vo_dbs v !! p) /\
  vo_state v' = vo_state v /\ fresh' = fresh && forallb (fun p => bool_decide (vo_dbs v !! p = None)) paths.
Proof.
  revert fresh v. induction paths as [|p paths IH]; intros fresh v Hnd Hpos Hrun; simpl in Hrun.
  { injection Hrun as <- <-. split_and!; [intros p ?%not_elem_of_nil; done|done|done|by rewrite andb_true_r]. }
  apply NoDup_cons in Hnd as [Hp Hnd]. destruct (io_stat io p); [done|].
  assert (forall b ids, (forall id, id ∈ ids -> (1 <= id <= maxRows)%Z) -> populateAll io maxRows paths b (v <| vo_dbs ::= <[p := ids]> |>) = (v', fresh', None) ->
    (forall q, q ∈ p :: paths -> exists ids, vo_dbs v' !! q = Some ids /\ slotsIn 1 maxRows ids) /\ (forall q, q ∉ p :: paths -> vo_dbs v' !! q = vo_dbs v !! q) /\
    vo_state v' = vo_state v /\ fresh' = b && forallb (fun q => bool_decide (vo_dbs v !! q = None)) paths) as Hstep.
  { intros b ids Hids Hrun'. assert (positiveRows (vo_dbs (v <| vo_dbs ::= <[p := ids]> |>))) as Hpos'.
    { intros q ids' Hq id Hid. simpl in Hq. apply lookup_insert_Some in Hq as [[_ <-]|[_ Hq]]; [by apply Hids|by eapply Hpos]. }
    destruct (IH b _ Hnd Hpos' Hrun') as (A & B & C & D). split_and!; [| |done|].
    - intros q [->|Hq]%elem_of_cons; [|auto]. exists ids. split; [|exact Hids]. rewrite (B p Hp). simpl. by rewrite lookup_insert_eq.
    - intros q Hq. apply not_elem_of_cons in Hq as [Hne Hq]. rewrite (B q Hq). simpl. by rewrite lookup_insert_ne.
    - rewrite D. f_equal. by apply absent_insert. }
  simpl. destruct (vo_dbs v !! p) as [ids|] eqn:Hc.
  - pose proof (pruneManyDBRows_spec io p maxRows ids) as Hpr. destruct (pruneManyDBRows io p maxRows ids) as [ids' [err|]]; [done|].
    destruct Hpr as (Hsub & _ & Hle). rewrite (bool_decide_false (Some ids = None)) by done. rewrite andb_false_r. apply Hstep in Hrun; [done|].
    intros id Hid. split; [by eapply Hpos; [exact Hc|apply Hsub]|by apply Hle].
  - unfold seedManyDB in Hrun. destruct (io_seed io p) as [[]|]; [done|]. rewrite (bool_decide_true (None = None)) by done. apply Hstep in Hrun; [done|]. set_solver.
Qed.

(** ** The dispatcher *)

Lemma dispatchTick_slots maxRows g active d d' job : (0 < maxRows)%Z -> (forall p x, dp_slots d !! p = Some x -> (1 <= x <= maxRows)%Z) ->
  dispatchTick maxRows g active d = (d', job) ->
  (forall p x, dp_slots d' !! p = Some x -> (1 <= x <= maxRows)%Z) /\ (forall p x, job = Some (p, x) -> (1 <= x <= maxRows)%Z).
Proof.
  intros Hm Hs. unfold dispatchTick. set (rotate := match dp_paths d with None => true | Some _ => negb (g =? dp_generation d)%Z end).
  set (d1 := if rotate then mkDispatcher (match active with [] => None | _ => Some active end) g 0 (dp_slots d) else d).
  assert (dp_slots d1 = dp_slots d) as E by (unfold d1; by destruct rotate). rewrite E.
  destruct (default [] (dp_paths d1)) as [|q l]; [intros [= <- <-]; by rewrite E|]. intros [= <- <-]. simpl. set (db := default "" _).
  set (slot := if (maxRows <? default 0 (dp_slots d !! db) + 1)%Z then 1%Z else (default 0 (dp_slots d !! db) + 1)%Z). assert (1 <= slot <= maxRows)%Z as Hslot.
  { unfold slot. destruct (dp_slots d !! db) as [x|] eqn:Hx; simpl; [specialize (Hs _ _ Hx); destruct (Z.ltb_spec maxRows (x + 1))|destruct (Z.ltb_spec maxRows (0 + 1))]; lia. }
  split; [|by intros p x [= <- <-]]. intros p x Hx. apply lookup_insert_Some in Hx as [[_ <-]|[_ Hx]]; [done|by eapply Hs].
Qed.
Lemma dispatchAll_slots maxRows ticks d p x : (0 < maxRows)%Z -> (forall p x, dp_slots d !! p = Some x -> (1 <= x <= maxRows)%Z) ->
  (p, x) ∈ dispatchAll maxRows ticks d -> (1 <= x <= maxRows)%Z.
Proof.
  intros Hm. revert d. induction ticks as [|[g active] ticks IH]; intros d Hs H; [by apply not_elem_of_nil in H|]. simpl in H.
  destruct (dispatchTick maxRows g active d) as [d' job] eqn:Ht. destruct (dispatchTick_slots _ _ _ _ _ _ Hm Hs Ht) as [Hs' Hj].
  destruct job as [[q y]|]; [|by eapply IH]. apply elem_of_cons in H as [[= -> ->]|H]; [by eapply Hj|by eapply IH].
Qed.

Lemma writeAll_slots maxRows jobs dbs p ids : (forall q x err, (q, x, err) ∈ jobs -> (1 <= x <= maxRows)%Z) ->
  dbs !! p = Some ids -> slotsIn 1 maxRows ids -> exists ids', writeAll jobs dbs !! p = Some ids' /\ ids ⊆ ids' /\ slotsIn 1 maxRows ids'.
Proof.
  revert dbs ids. induction jobs as [|[[q x] err] jobs IH]; intros dbs ids Hj Hp Hs; [by exists ids|]. simpl.
  assert (exists ids1, fst (writeManyDBRow err q x dbs) !! p = Some ids1 /\ ids ⊆ ids1 /\ slotsIn 1 maxRows ids1) as (ids1 & H1 & H2 & H3).
  { specialize (Hj q x err ltac:(apply elem_of_cons; by left)). unfold writeManyDBRow. destruct (x <=? 0)%Z; [by exists ids|]. destruct err; [by exists ids|].
    destruct (dbs !! q) as [jds|] eqn:Hq; [|by exists ids]. simpl. destruct (decide (q = p)) as [->|Hne].
    - exists ({[x]} ∪ jds). rewrite lookup_insert_eq. rewrite Hq in Hp. injection Hp as ->. split_and!; [done|by apply union_subseteq_r|].
      intros id [->%elem_of_singleton|Hid]%elem_of_union; [done|by apply Hs].
    - exists ids. by rewrite lookup_insert_ne. }
  destruct (IH _ ids1 ltac:(intros ? ? ? Hin; eapply Hj, elem_of_cons; right; exact Hin) H1 H3) as (ids' & A & B & C). exists ids'. split_and!; [done|by transitivity ids1|done].
Qed.
Lemma slotsIn_size maxRows ids : (0 < maxRows)%Z -> slotsIn 1 maxRows ids -> (Z.of_nat (size ids) <= maxRows)%Z.
Proof.
  intros Hm Hs. assert (ids ⊆ list_to_set (seqZ 1 maxRows)) as Hsub. { intros id Hid. apply elem_of_list_to_set, elem_of_seqZ. specialize (Hs id Hid). lia. }
  apply subseteq_size in Hsub. rewrite size_list_to_set, length_seqZ in Hsub by apply NoDup_seqZ. lia.
Qed.

(** C30: A worker that populates its volume without an error has every configured database on
    it, with the rows of an earlier run above the limit removed, and records an empty written set exactly when none
    of the databases was there; and however many ticks the dispatcher then makes over
    whatever active sets, and in whatever order its jobs run, succeed or fail, each database holds row slots
    from 1 to the limit only, and so no more rows than that. *)
Theorem rows_within_limit io maxRows paths v v' ticks jobs :
  NoDup paths -> (0 < maxRows)%Z -> positiveRows (vo_dbs v) ->
  populateManyDBs io maxRows paths v = (v', None) ->
  (forall p x err, (p, x, err) ∈ jobs -> (p, x) ∈ dispatchAll maxRows ticks newDispatcher) ->
  vo_state v' = (if forallb (fun p => bool_decide (vo_dbs v !! p = None)) paths then Some [] else vo_state v) /\
  forall p, p ∈ paths -> exists ids, writeAll jobs (vo_dbs v') !! p = Some ids /\ slotsIn 1 maxRows ids /\ (Z.of_nat (size ids) <= maxRows)%Z.
Proof.
  intros Hnd Hm Hpos Hrun Hjobs. unfold populateManyDBs in Hrun. destruct (io_mkdir io); [done|].
  destruct (populateAll io maxRows paths true v) as [[v1 fresh] [err|]] eqn:Hall; [done|].
  destruct (populateAll_spec _ _ _ _ _ _ _ Hnd Hpos Hall) as (Hdbs & _ & Hst & ->). cbn [andb] in Hrun.
  assert (vo_dbs v' = vo_dbs v1 /\ vo_state v' = (if forallb (fun p => bool_decide (vo_dbs v !! p = None)) paths then Some [] else vo_state v)) as [Ed Es].
  { destruct (forallb _ paths); [destruct (io_save io); [done|]|]; by injection Hrun as <-. }
  split; [done|]. intros p Hp. destruct (Hdbs p Hp) as (ids & Hc & Hs). rewrite <- Ed in Hc.
  assert (forall q x err, (q, x, err) ∈ jobs -> (1 <= x <= maxRows)%Z) as Hj.
  { intros q x err Hin. eapply (dispatchAll_slots maxRows ticks newDispatcher); [done| |by eapply Hjobs]. intros ? ? H. done. }
  destruct (writeAll_slots maxRows jobs _ p ids Hj Hc Hs) as (ids' & A & _ & C).
  exists ids'. split_and!; [done|done|by apply slotsIn_size].
Qed.

Definition quietIO : populateIO := mkPopulateIO None (fun _ => None) (fun _ => None) (fun _ _ => None) (fun _ _ => None) (fun _ => None) (fun _ => false) None.
(** A database with a row above the limit and one that is not there; the jobs run out of order. *)
Lemma rows_within_limit_witness : exists v', populateManyDBs quietIO 2 ["a"; "b"] (mkVolume {["a" := {[1%Z; 3%Z]}]} (Some ["a"])) = (v', None) /\
  vo_state v' = Some ["a"] /\ exists ids, writeAll [("a", 2, None); ("a", 1, None); ("b", 1, None)]%Z (vo_dbs v') !! "a" = Some ids /\ size ids <= 2.
Proof.
  assert (snd (populateManyDBs quietIO 2 ["a"; "b"] (mkVolume {["a" := {[1%Z; 3%Z]}]} (Some ["a"]))) = None) as Hnone by (vm_compute; reflexivity).
  destruct (populateManyDBs quietIO 2 ["a"; "b"] (mkVolume {["a" := {[1%Z; 3%Z]}]} (Some ["a"]))) as [v' err] eqn:Hrun. simpl in Hnone. subst err. exists v'. split; [reflexivity|].
  assert (NoDup ["a"; "b"]) as Hnd by (apply (bool_decide_unpack _); vm_compute; exact I).
  assert (forall p ids, vo_dbs (mkVolume {["a" := {[1%Z; 3%Z]}]} (Some ["a"])) !! p = Some ids -> forall id, id ∈ ids -> (1 <= id)%Z) as Hpos.
  { intros p ids H id Hid. simpl in H. apply lookup_singleton_Some in H as [_ <-]. apply elem_of_union in Hid as [->%elem_of_singleton| ->%elem_of_singleton]; lia. }
  assert (dispatchAll 2 (repeat (0%Z, ["a"; "b"]) 4) newDispatcher = [("a", 1%Z); ("b", 1%Z); ("a", 2%Z); ("b", 2%Z)]) as Hd by (vm_compute; reflexivity).
  assert (forall p x err, (p, x, err) ∈ [("a", 2%Z, @None string); ("a", 1%Z, None); ("b", 1%Z, None)] -> (p, x) ∈ dispatchAll 2 (repeat (0%Z, ["a"; "b"]) 4) newDispatcher) as Hj.
  { intros p x err. rewrite Hd, !list_elem_of_In. simpl. intros [[= -> -> _]|[[= -> -> _]|[[= -> -> _]|[]]]]; auto. }
  destruct (rows_within_limit quietIO 2 ["a"; "b"] _ v' (repeat (0%Z, ["a"; "b"]) 4) _ Hnd ltac:(lia) Hpos Hrun Hj) as [Hst Hrows].
  split; [rewrite Hst; vm_compute; reflexivity|]. destruct (Hrows "a" ltac:(apply elem_of_cons; by left)) as (ids & A & _ & B). exists ids. split; [exact A|lia].
Defined.
