(* ===== verification/VolumeGC.v ===== *)
(** The garbage collector of worker volumes: [orchestrator/volume_inventory.go] with the
    owner locks of [orchestrator/evidence_hold.go] and the table of [model/volume_gc.go].

    A pass lists the platform's volumes, reconciles the destroy requests made so far with
    them and asks for stale unattached worker volumes to be destroyed.  Every call to the
    platform, to the database, to the clock and to a worker's lock is recorded in a
    history, and is answered by an environment that sees the history: it stands
    for the platform and for the rest of the control plane, which runs in between. *)
From S2P Require Import Prelude GoStrings GoTime Model WorkerStore WorkerManager.

(** * Data *)

(** The fields of a Fly volume the collector reads. *)
Record gcVolume := mkGCVolume {
  gv_ID : string;
  gv_Name : string;
  gv_State : string;
  gv_SizeGB : Z;
  gv_Region : string;
  gv_AttachedMachineID : string;
  gv_CreatedAt : time
}.

Record VolumeGCAttempt := mkAttempt {
  ga_VolumeID : string;
  ga_AppName : string;
  ga_VolumeName : string;
  ga_Region : string;
  ga_SizeGB : Z;
  ga_VolumeCreatedAt : time;
  ga_FirstAttemptAt : time;
  ga_LastAttemptAt : time;
  ga_NextRetryAt : time;
  ga_RequestCount : Z;
  ga_RequestAccepted : bool
}.
#[export] Instance VolumeGCAttempt_eta : Settable VolumeGCAttempt :=
  fun r => mkAttempt (ga_VolumeID r) (ga_AppName r) (ga_VolumeName r) (ga_Region r) (ga_SizeGB r) (ga_VolumeCreatedAt r)
    (ga_FirstAttemptAt r) (ga_LastAttemptAt r) (ga_NextRetryAt r) (ga_RequestCount r) (ga_RequestAccepted r).

Definition workerVolumeNamePrefix : string := "soak_worker_".
Definition volumeGCInitialRetryBackoff : duration := Hour.
Definition volumeGCMaximumRetryBackoff : duration := (24 * Hour)%Z.
Definition volumeGCOperatorEventWindow : duration := (24 * Hour)%Z.
Definition volumeGCStateCreated : string := "created".
Definition volumeGCStateUnknown : string := "unknown".
Definition volumeGCEventDestroyRequested : string := "volume_gc_destroy_requested".
Definition volumeGCEventDestroyScheduled : string := "volume_gc_destroy_scheduled".
Definition volumeGCEventDestroyConfirmed : string := "volume_gc_destroy_confirmed".
Definition volumeGCEventDestroyFailed : string := "volume_gc_destroy_failed".
Definition volumeGCEventDestroyStalled : string := "volume_gc_destroy_stalled".
Definition volumeGCEventUnexpectedState : string := "volume_gc_skipped_state".
Definition volumeGCEventConfirmFailed : string := "volume_gc_confirmation_failed".
Definition volumeGCEventSkippedEvidenceHold : string := "volume_gc_skipped_evidence_hold".

Definition normalizeVolumeState (state : string) : string :=
  let state := ToLower (TrimSpace state) in if state =s "" then volumeGCStateUnknown else state.
Definition isVolumeDeletionState (state : string) : bool :=
  slices_Contains ["destroyed"; "deleting"; "scheduling_destroy"; "pending_destroy"] (normalizeVolumeState state).

Definition isStaleUnattachedWorkerVolumeCandidate (volume : gcVolume) (cutoff : time) : bool :=
  if negb (TrimSpace (gv_AttachedMachineID volume) =s "") then false
  else if negb (HasPrefix (TrimSpace (gv_Name volume)) workerVolumeNamePrefix) then false
  else if IsZero (gv_CreatedAt volume) then false
  else negb (After (gv_CreatedAt volume) cutoff).
Definition isStaleUnattachedWorkerVolume (volume : gcVolume) (cutoff : time) : bool :=
  isStaleUnattachedWorkerVolumeCandidate volume cutoff && (normalizeVolumeState (gv_State volume) =s volumeGCStateCreated).
Definition staleUnattachedWorkerVolumes (volumes : list gcVolume) (now : time) (ttl : duration) : list gcVolume :=
  if (ttl <=? 0)%Z then [] else List.filter (fun v => isStaleUnattachedWorkerVolume v (time_Add now (- ttl))) volumes.

Fixpoint backoffLoop (requests : nat) (backoff : duration) : duration :=
  match requests with
  | O => backoff
  | S requests => if (Z.quot volumeGCMaximumRetryBackoff 2 <=? backoff)%Z then volumeGCMaximumRetryBackoff else backoffLoop requests (backoff * 2)
  end.
Definition volumeGCRetryBackoff (requestCount : Z) : duration := backoffLoop (Z.to_nat (requestCount - 1)) volumeGCInitialRetryBackoff.

(** [formatTime] (orchestrator/helpers.go). *)
Definition formatTime (t : option time) : string :=
  match t with Some t => if IsZero t then "unknown" else FormatRFC3339 t | None => "unknown" end.

(** * Calls *)

(** The result of a call is part of its record where the state depends on it. *)
Inductive gcCall :=
| GVolumes
| GNow
| GLoad
| GOwners (volumeID : string)
| GLock (workerID : string)
| GReload (workerID : string)
| GUnlock (workerID : string)
| GPersist (attempt : VolumeGCAttempt) (done : bool)
| GDelete (volumeID : string) (done : bool)
| GDestroy (volumeID : string) (now : time)
| GGet (volumeID : string)
| GEvent (eventType message details : string) (now : time) (window : duration)
| GRestart.
Abbreviation gcHist := (list gcCall).

(** An error of the platform: whether it is a not-found answer, and its text. *)
Record platformError := mkPlatformError { pf_notFound : bool; pf_text : string }.

Record gcEnv := mkGCEnv {
  vg_volumes : gcHist -> result string (list gcVolume);
  vg_now : gcHist -> time;
  vg_load : gcHist -> option string;
  vg_owners : gcHist -> result string (list Worker);
  vg_lock : gcHist -> option string;
  vg_reload : gcHist -> result string Worker;
  vg_persist : gcHist -> option string;
  vg_delete : gcHist -> option string;
  vg_destroy : gcHist -> option platformError;
  vg_get : gcHist -> result platformError gcVolume;
  vg_order : gcHist -> list string  (** the order in which the map of attempts is walked *)
}.

(** [gw_db] is the table, by volume; [gw_attempts] the map in memory. *)
Record gcWorld := mkGCWorld {
  gw_db : option (gmap string VolumeGCAttempt);
  gw_attempts : gmap string VolumeGCAttempt;
  gw_loaded : bool;
  gw_hist : gcHist
}.
#[export] Instance gcWorld_eta : Settable gcWorld := fun r => mkGCWorld (gw_db r) (gw_attempts r) (gw_loaded r) (gw_hist r).

(** ** The collector's monad *)

Definition G (A : Type) : Type := gcWorld -> A * gcWorld.
Definition retG {A} (a : A) : G A := fun w => (a, w).
Definition bindG {A B} (m : G A) (k : A -> G B) : G B := fun w => let '(a, w) := m w in k a w.
Notation "'gc!' x := m 'in' k" := (bindG m (fun x => k)) (at level 10, x name, m at level 100, k at level 200).
Notation "m ';;g' k" := (bindG m (fun _ => k)) (at level 100, right associativity).
Definition getG {A} (f : gcWorld -> A) : G A := fun w => (f w, w).
(** A call, with the answer that the environment gives to the history before it. *)
Definition ask {A} (c : gcCall) (answer : gcHist -> A) : G A := fun w => (answer (gw_hist w), w <| gw_hist ::= cons c |>).
Definition tell (c : gcCall) : G unit := ask c (fun _ => tt).
Definition setAttempts (f : gmap string VolumeGCAttempt -> gmap string VolumeGCAttempt) : G unit := fun w => (tt, w <| gw_attempts ::= f |>).

(** ** The table (model/volume_gc.go) *)

Definition UpsertVolumeGCAttempt (attempt : VolumeGCAttempt) (rows : gmap string VolumeGCAttempt) : gmap string VolumeGCAttempt :=
  <[ga_VolumeID attempt := attempt]> rows.
(** By volume; the order of the rows is immaterial to the map they are read into. *)
Definition ListVolumeGCAttempts (appName : string) (rows : gmap string VolumeGCAttempt) : gmap string VolumeGCAttempt :=
  filter (fun p => ga_AppName (snd p) = appName) rows.
Definition DeleteVolumeGCAttempt (volumeID : string) (rows : gmap string VolumeGCAttempt) : gmap string VolumeGCAttempt := delete volumeID rows.

Section Collector.
Variables (env : gcEnv) (appName : string).

(** * The attempts *)

Definition loadVolumeGCAttempts : G (option string) :=
  gc! w := getG id in
  if gw_loaded w then retG None
  else
    match gw_db w with
    | None => (fun w => (None, w <| gw_loaded := true |>))
    | Some rows =>
        gc! err := ask GLoad (vg_load env) in
        match err with
        | Some err => retG (Some err)
        | None =>
            let attempts := ListVolumeGCAttempts appName rows in
            (fun w => (None, w <| gw_attempts ::= fun m => attempts ∪ m |> <| gw_loaded := true |>))
        end
    end.

Definition persistVolumeGCAttempt (attempt : VolumeGCAttempt) : G (option string) := fun w =>
  match gw_db w with
  | None => (None, w)
  | Some rows =>
      match vg_persist env (gw_hist w) with
      | Some err => (Some err, w <| gw_hist ::= cons (GPersist attempt false) |>)
      | None => (None, w <| gw_db := Some (UpsertVolumeGCAttempt attempt rows) |> <| gw_hist ::= cons (GPersist attempt true) |>)
      end
  end.

Definition removeVolumeGCAttempt (volumeID : string) : G (option string) := fun w =>
  match gw_db w with
  | None => (None, w <| gw_attempts ::= delete volumeID |>)
  | Some rows =>
      match vg_delete env (gw_hist w) with
      | Some err => (Some err, w <| gw_hist ::= cons (GDelete volumeID false) |>)
      | None => (None, w <| gw_db := Some (DeleteVolumeGCAttempt volumeID rows) |> <| gw_attempts ::= delete volumeID |> <| gw_hist ::= cons (GDelete volumeID true) |>)
      end
  end.

(** The error of recording an event is only logged. *)
Definition recordVolumeGCEvent (eventType message details : string) (now : time) (window : duration) : G unit :=
  gc! db := getG gw_db in
  match db with None => retG tt | Some _ => tell (GEvent eventType message details now window) end.

Definition surfaceUnexpectedStaleVolumeState (volume : gcVolume) (destroyRequested : bool) (now : time) : G unit :=
  let state := normalizeVolumeState (gv_State volume) in
  recordVolumeGCEvent volumeGCEventUnexpectedState
    ("Skipped stale unattached worker volume " +:+ gv_Name volume +:+ " (" +:+ gv_ID volume +:+ ") in unexpected state " +:+ state)
    ("state=" +:+ state +:+ " destroy_requested=" +:+ (if destroyRequested then "true" else "false") +:+ " created_at=" +:+ FormatRFC3339 (gv_CreatedAt volume))
    now volumeGCOperatorEventWindow.

(** * Owners *)

Fixpoint unlockAll (unlocks : list string) : G unit :=
  match unlocks with [] => retG tt | workerID :: unlocks => tell (GUnlock workerID) ;;g unlockAll unlocks end.
(** [unlocks] holds the newest lock first. *)
Fixpoint lockOwners (owners : list Worker) (held : option Worker) (unlocks : list string) : G (result string (option Worker * list string)) :=
  match owners with
  | [] => retG (Ok (held, unlocks))
  | owner :: owners =>
      gc! err := ask (GLock (w_ID owner)) (vg_lock env) in
      match err with
      | Some err => unlockAll unlocks ;;g retG (Err err)
      | None =>
          let unlocks := w_ID owner :: unlocks in
          gc! worker := ask (GReload (w_ID owner)) (vg_reload env) in
          match worker with
          | Err err => unlockAll unlocks ;;g retG (Err ("reload worker " +:+ w_ID owner +:+ ": " +:+ err))
          | Ok worker =>
              lockOwners owners (match held with None => if EvidenceHeld worker then Some worker else None | Some held => Some held end) unlocks
          end
      end
  end.
(** The first owner under an evidence hold, if any, with the locks taken. *)
Definition lockVolumeOwners (volumeID : string) : G (result string (option Worker * list string)) :=
  gc! db := getG gw_db in
  if match db with None => true | Some _ => TrimSpace volumeID =s "" end then retG (Ok (None, []))
  else
    gc! owners := ask (GOwners volumeID) (vg_owners env) in
    match owners with
    | Err err => retG (Err ("list workers referencing volume " +:+ volumeID +:+ ": " +:+ err))
    | Ok owners => lockOwners owners None []
    end.

Definition skipHeldVolumeGC (volumeID volumeName : string) (held : Worker) (attempt : option VolumeGCAttempt) (now : time) : G unit :=
  match attempt with Some _ => removeVolumeGCAttempt volumeID ;;g retG tt | None => retG tt end ;;g
  recordVolumeGCEvent volumeGCEventSkippedEvidenceHold
    ("Skipped volume GC for " +:+ valueOrUnknown volumeName +:+ " (" +:+ volumeID +:+ "): worker " +:+ w_Name held +:+ " is under an evidence hold")
    ("worker_id=" +:+ w_ID held +:+ " evidence_hold_at=" +:+ formatTime (w_EvidenceHoldAt held) +:+ " reason=" +:+ w_EvidenceHoldReason held)
    now volumeGCOperatorEventWindow.

Definition volumeGCHeld (volumeID volumeName : string) (attempt : option VolumeGCAttempt) (now : time) : G bool :=
  gc! r := lockVolumeOwners volumeID in
  match r with
  | Err _ => retG true
  | Ok (None, unlocks) => unlockAll unlocks ;;g retG false
  | Ok (Some held, unlocks) => skipHeldVolumeGC volumeID volumeName held attempt now ;;g unlockAll unlocks ;;g retG true
  end.

(** * Requests *)

(** The request, once the owners are locked and none is held. *)
Definition destroyLockedVolume (volume : gcVolume) (attempt : option VolumeGCAttempt) (now : time) : G unit :=
  let previous := default (mkAttempt (gv_ID volume) appName (gv_Name volume) (gv_Region volume) (gv_SizeGB volume) (gv_CreatedAt volume) now 0 0 0 false) attempt in
  let count := int64 (ga_RequestCount previous + 1) in
  let next := previous <| ga_VolumeName := gv_Name volume |> <| ga_Region := gv_Region volume |> <| ga_SizeGB := gv_SizeGB volume |>
                <| ga_VolumeCreatedAt := gv_CreatedAt volume |> <| ga_LastAttemptAt := now |> <| ga_RequestCount := count |>
                <| ga_RequestAccepted := false |> <| ga_NextRetryAt := time_Add now (volumeGCRetryBackoff count) |> in
  let store a := setAttempts <[ga_VolumeID a := a]> in
  store next ;;g
  gc! err := persistVolumeGCAttempt next in
  match err with
  | Some _ => match attempt with Some _ => store previous | None => setAttempts (delete (gv_ID volume)) end
  | None =>
      gc! err := ask (GDestroy (gv_ID volume) now) (vg_destroy env) in
      match err with
      | Some err =>
          if pf_notFound err then
            gc! err := removeVolumeGCAttempt (gv_ID volume) in
            match err with
            | Some _ => retG tt
            | None =>
                recordVolumeGCEvent volumeGCEventDestroyConfirmed
                  ("Stale unattached worker volume " +:+ gv_Name volume +:+ " (" +:+ gv_ID volume +:+ ") was already absent when destruction was requested")
                  "result=not_found" now 0
            end
          else
            recordVolumeGCEvent volumeGCEventDestroyFailed
              ("Failed to request destruction of stale unattached worker volume " +:+ gv_Name volume +:+ " (" +:+ gv_ID volume +:+ ")")
              ("state=" +:+ normalizeVolumeState (gv_State volume) +:+ " requests=" +:+ fmt_int count +:+ " next_retry_at=" +:+
               FormatRFC3339 (ga_NextRetryAt next) +:+ " error=" +:+ pf_text err)
              now volumeGCOperatorEventWindow
      | None =>
          let accepted := next <| ga_RequestAccepted := true |> in
          store accepted ;;g
          persistVolumeGCAttempt accepted ;;g
          recordVolumeGCEvent volumeGCEventDestroyRequested
            ("Destroy request accepted for stale unattached worker volume " +:+ gv_Name volume +:+ " (" +:+ gv_ID volume +:+ ", " +:+ fmt_int (gv_SizeGB volume) +:+ "GB)")
            ("state=" +:+ normalizeVolumeState (gv_State volume) +:+ " requests=" +:+ fmt_int count +:+
             " next_confirmation=next_fresh_inventory next_retry_at=" +:+ FormatRFC3339 (ga_NextRetryAt next))
            now 0
      end
  end.
Definition requestStaleVolumeDestruction (volume : gcVolume) (attempt : option VolumeGCAttempt) (now : time) : G unit :=
  gc! r := lockVolumeOwners (gv_ID volume) in
  match r with
  | Err _ => retG tt
  | Ok (held, unlocks) =>
      match held with
      | Some held => skipHeldVolumeGC (gv_ID volume) (gv_Name volume) held attempt now
      | None => destroyLockedVolume volume attempt now
      end ;;g unlockAll unlocks
  end.

Definition requestTimes (attempt : VolumeGCAttempt) : string :=
  " first_requested_at=" +:+ FormatRFC3339 (ga_FirstAttemptAt attempt) +:+ " last_requested_at=" +:+ FormatRFC3339 (ga_LastAttemptAt attempt).
Definition reconcileVolumeGCAttempt (volume : gcVolume) (attempt : VolumeGCAttempt) (cutoff now : time) : G unit :=
  let state := normalizeVolumeState (gv_State volume) in
  let name := gv_Name volume +:+ " (" +:+ gv_ID volume in
  let requests := fmt_int (ga_RequestCount attempt) in
  if isVolumeDeletionState state then
    gc! err := removeVolumeGCAttempt (gv_ID volume) in
    match err with
    | Some _ => retG tt
    | None =>
        recordVolumeGCEvent volumeGCEventDestroyScheduled
          ("Destruction scheduled for stale unattached worker volume " +:+ name +:+ ", " +:+ fmt_int (gv_SizeGB volume) +:+ "GB)")
          ("state=" +:+ state +:+ " requests=" +:+ requests) now 0
    end
  else if negb (state =s volumeGCStateCreated) then surfaceUnexpectedStaleVolumeState volume true now
  else if negb (isStaleUnattachedWorkerVolumeCandidate volume cutoff) then
    recordVolumeGCEvent volumeGCEventDestroyStalled
      ("Destroy request target " +:+ name +:+ ") remains created but is no longer eligible for volume GC")
      ("state=" +:+ state +:+ " attached_machine_id=" +:+ TrimSpace (gv_AttachedMachineID volume) +:+ " requests=" +:+ requests)
      now volumeGCOperatorEventWindow
  else
    (if ga_RequestAccepted attempt then
       recordVolumeGCEvent volumeGCEventDestroyStalled
         ("Stale unattached worker volume " +:+ name +:+ ") remains created after an accepted destroy request")
         ("state=" +:+ state +:+ " requests=" +:+ requests +:+ requestTimes attempt +:+ " next_retry_at=" +:+ FormatRFC3339 (ga_NextRetryAt attempt))
         now volumeGCOperatorEventWindow
     else retG tt) ;;g
    if Before now (ga_NextRetryAt attempt) then retG tt else requestStaleVolumeDestruction volume (Some attempt) now.

Definition verifyMissingVolumeGCAttempt (attempt : VolumeGCAttempt) (cutoff now : time) : G unit :=
  let name := ga_VolumeName attempt +:+ " (" +:+ ga_VolumeID attempt +:+ ")" in
  let requests := "requests=" +:+ fmt_int (ga_RequestCount attempt) in
  gc! volume := ask (GGet (ga_VolumeID attempt)) (vg_get env) in
  match volume with
  | Err err =>
      if pf_notFound err then
        gc! err := removeVolumeGCAttempt (ga_VolumeID attempt) in
        match err with
        | Some _ => retG tt
        | None =>
            recordVolumeGCEvent volumeGCEventDestroyConfirmed ("Fly confirmed stale unattached worker volume " +:+ name +:+ " is absent")
              ("result=not_found " +:+ requests +:+ requestTimes attempt) now 0
        end
      else
        recordVolumeGCEvent volumeGCEventConfirmFailed ("Failed to verify stale unattached worker volume " +:+ name +:+ " missing from inventory")
          (requests +:+ " error=" +:+ pf_text err) now volumeGCOperatorEventWindow
  | Ok volume =>
      if negb (TrimSpace (gv_ID volume) =s ga_VolumeID attempt) then
        recordVolumeGCEvent volumeGCEventConfirmFailed ("Fly returned invalid evidence while verifying stale unattached worker volume " +:+ name)
          (requests +:+ " returned_volume_id=" +:+ TrimSpace (gv_ID volume) +:+ " returned_state=" +:+ normalizeVolumeState (gv_State volume))
          now volumeGCOperatorEventWindow
      else reconcileVolumeGCAttempt volume attempt cutoff now
  end.

(** * A pass *)

(** The inventory is a map: a later volume replaces an earlier one of the same id. *)
Definition inventoryLookup (volumes : list gcVolume) (volumeID : string) : option gcVolume :=
  find (fun v => gv_ID v =s volumeID) (rev volumes).
Definition reconcileStep (volumes : list gcVolume) (cutoff now : time) (volumeID : string) : G unit :=
  gc! attempts := getG gw_attempts in
  match attempts !! volumeID with
  | None => retG tt
  | Some attempt =>
      gc! held := volumeGCHeld volumeID (ga_VolumeName attempt) (Some attempt) now in
      if held : bool then retG tt
      else match inventoryLookup volumes volumeID with
           | None => verifyMissingVolumeGCAttempt attempt cutoff now
           | Some volume => reconcileVolumeGCAttempt volume attempt cutoff now
           end
  end.
Definition requestStep (cutoff now : time) (volume : gcVolume) : G unit :=
  if negb (isStaleUnattachedWorkerVolumeCandidate volume cutoff) then retG tt
  else
    gc! attempts := getG gw_attempts in
    match attempts !! gv_ID volume with
    | Some _ => retG tt
    | None =>
        gc! held := volumeGCHeld (gv_ID volume) (gv_Name volume) None now in
        if held : bool then retG tt
        else
          let state := normalizeVolumeState (gv_State volume) in
          if state =s volumeGCStateCreated then requestStaleVolumeDestruction volume None now
          else if isVolumeDeletionState state then retG tt
          else surfaceUnexpectedStaleVolumeState volume false now
    end.
Fixpoint each {A} (f : A -> G unit) (l : list A) : G unit :=
  match l with [] => retG tt | x :: l => f x ;;g each f l end.

Definition destroyStaleUnattachedWorkerVolumes (volumes : list gcVolume) (ttl : duration) : G unit :=
  if (ttl <=? 0)%Z then retG tt
  else
    gc! now := ask GNow (vg_now env) in
    let cutoff := time_Add now (- ttl) in
    gc! err := loadVolumeGCAttempts in
    match err with
    | Some _ => retG tt
    | None =>
        gc! order := getG (fun w => vg_order env (gw_hist w)) in
        each (reconcileStep volumes cutoff now) order ;;g
        each (requestStep cutoff now) volumes
    end.
Definition syncVolumeInventory (ttl : duration) : G unit :=
  gc! volumes := ask GVolumes (vg_volumes env) in
  match volumes with Err _ => retG tt | Ok volumes => destroyStaleUnattachedWorkerVolumes volumes ttl end.

(** A restart of the control plane: the table is what is left. *)
Definition restartCollector : G unit := fun w => (tt, mkGCWorld (gw_db w) ∅ false (GRestart :: gw_hist w)).
(** The monitor: passes, with restarts in between. *)
Fixpoint runMonitor (ttl : duration) (restarts : list bool) : G unit :=
  match restarts with
  | [] => retG tt
  | b :: restarts => (if b then restartCollector else syncVolumeInventory ttl) ;;g runMonitor ttl restarts
  end.
End Collector.
