(* ===== verification/VolumeGCProofs.v ===== *)
(** Theorems about the garbage collector of worker volumes ([VolumeGC]): what holds at
    every destroy request, and how far apart the requests for a volume are, across restarts. *)
From S2P Require Import Prelude GoStrings GoTime Model WorkerStore WorkerManager VolumeGC.

(** * The retry backoff *)

Lemma backoffLoop_doubles n k : (Z.of_nat n <= k)%Z -> forall b, (0 < b)%Z -> (b * 2 ^ k <= 16 * Hour)%Z -> backoffLoop n b = (b * 2 ^ Z.of_nat n)%Z.
Proof.
  revert k. induction n as [|n IH]; intros k Hk b Hb Hle; [simpl; lia|]. cbn [backoffLoop].
  assert (2 ^ k = 2 * 2 ^ (k - 1))%Z as E by (rewrite <- Z.pow_succ_r by lia; f_equal; lia).
  assert (0 < 2 ^ (k - 1))%Z by (apply Z.pow_pos_nonneg; lia).
  replace (Z.quot volumeGCMaximumRetryBackoff 2 <=? b)%Z with false; [|symmetry; apply Z.leb_gt; change (Z.quot volumeGCMaximumRetryBackoff 2) with (12 * Hour)%Z; nia].
  rewrite (IH (k - 1)%Z) by nia. rewrite Nat2Z.inj_succ, Z.pow_succ_r by lia. lia.
Qed.
Lemma backoffLoop_max n b : (12 * Hour <= b)%Z -> 0 < n -> backoffLoop n b = volumeGCMaximumRetryBackoff.
Proof. intros Hb Hn. destruct n; [lia|]. cbn [backoffLoop]. change (Z.quot volumeGCMaximumRetryBackoff 2) with (12 * Hour)%Z. by rewrite (proj2 (Z.leb_le _ _) Hb). Qed.
Lemma backoffLoop_add n m b : (b * 2 ^ Z.of_nat n <= 16 * Hour)%Z -> (0 < b)%Z -> backoffLoop (n + m) b = backoffLoop m (b * 2 ^ Z.of_nat n).
Proof.
  revert b. induction n as [|n IH]; intros b Hle Hb; [simpl; by rewrite Z.mul_1_r|]. rewrite Nat2Z.inj_succ, Z.pow_succ_r in * by lia.
  assert (0 < 2 ^ Z.of_nat n)%Z by (apply Z.pow_pos_nonneg; lia). cbn [Nat.add backoffLoop].
  replace (Z.quot volumeGCMaximumRetryBackoff 2 <=? b)%Z with false; [|symmetry; apply Z.leb_gt; change (Z.quot volumeGCMaximumRetryBackoff 2) with (12 * Hour)%Z; nia].
  rewrite IH by nia. f_equal. lia.
Qed.
(** The backoff doubles from an hour to the longest one. *)
Lemma backoff_doubles n : (1 <= n)%Z -> volumeGCRetryBackoff n = Z.min volumeGCMaximumRetryBackoff (volumeGCInitialRetryBackoff * 2 ^ (n - 1)).
Proof.
  intros Hn. unfold volumeGCRetryBackoff, volumeGCInitialRetryBackoff. destruct (Z.leb_spec n 5) as [Hle|Hgt].
  - rewrite (backoffLoop_doubles _ 4) by (try lia; done). rewrite Z2Nat.id by lia.
    assert (n = 1 \/ n = 2 \/ n = 3 \/ n = 4 \/ n = 5)%Z as [->|[->|[->|[->| ->]]]] by lia; reflexivity.
  - replace (Z.to_nat (n - 1)) with (4 + Z.to_nat (n - 5)) by lia. rewrite backoffLoop_add by done. rewrite backoffLoop_max by (done || lia).
    assert (2 ^ 5 <= 2 ^ (n - 1))%Z by (apply Z.pow_le_mono_r; lia). unfold volumeGCMaximumRetryBackoff, Hour, Minute, Second in *. lia.
Qed.
Lemma backoff_min n : (volumeGCInitialRetryBackoff <= volumeGCRetryBackoff n)%Z.
Proof.
  destruct (Z.leb_spec 1 n) as [Hn|Hn].
  - rewrite backoff_doubles by done. assert (0 < 2 ^ (n - 1))%Z by (apply Z.pow_pos_nonneg; lia). unfold volumeGCMaximumRetryBackoff, volumeGCInitialRetryBackoff, Hour, Minute, Second. lia.
  - unfold volumeGCRetryBackoff. replace (Z.to_nat (n - 1)) with 0 by lia. done.
Qed.

(** * What a history shows *)

(** The listing and the time of the pass that the history is in. *)
Fixpoint listing (env : gcEnv) (h : gcHist) : option (list gcVolume) :=
  match h with
  | [] => None
  | GVolumes :: h => match vg_volumes env h with Ok volumes => Some volumes | Err _ => None end
  | _ :: h => listing env h
  end.
Fixpoint clockAt (env : gcEnv) (h : gcHist) : option time :=
  match h with [] => None | GNow :: h => Some (vg_now env h) | _ :: h => clockAt env h end.
(** The last request to destroy the volume whose record was not removed since. *)
Fixpoint lastAsk (id : string) (h : gcHist) : option time :=
  match h with
  | [] => None
  | GDestroy id' t :: h => if id' =s id then Some t else lastAsk id h
  | GDelete id' true :: h => if id' =s id then None else lastAsk id h
  | _ :: h => lastAsk id h
  end.
(** The history after the owners were locked one by one and found free of a hold. *)
Fixpoint clearLocks (env : gcEnv) (owners : list Worker) (h : gcHist) : option gcHist :=
  match owners with
  | [] => Some h
  | owner :: owners =>
      match vg_lock env h, vg_reload env (GLock (w_ID owner) :: h) with
      | None, Ok worker => if EvidenceHeld worker then None else clearLocks env owners (GReload (w_ID owner) :: GLock (w_ID owner) :: h)
      | _, _ => None
      end
  end.
Definition ownersClear (env : gcEnv) (id : string) (h : gcHist) : Prop :=
  TrimSpace id = "" \/ exists owners h0, vg_owners env h0 = Ok owners /\ clearLocks env owners (GOwners id :: h0) = Some h.

(** What must hold when a volume is asked to be destroyed. *)
Definition guarded (env : gcEnv) (ttl : duration) (id : string) (now : time) (h : gcHist) : Prop :=
  exists volume attempt rest, h = GPersist attempt true :: rest /\ ownersClear env id rest /\
    gv_ID volume = id /\ isStaleUnattachedWorkerVolume volume (time_Add now (- ttl)) = true /\
    ((exists volumes, listing env h = Some volumes /\ volume ∈ volumes) \/ (exists h' h'', rest = h' ++ GGet id :: h'' /\ vg_get env h'' = Ok volume)) /\
    clockAt env h = Some now /\ ga_VolumeID attempt = id /\ ga_LastAttemptAt attempt = now /\
    ga_NextRetryAt attempt = time_Add now (volumeGCRetryBackoff (ga_RequestCount attempt)).
Fixpoint okHist (env : gcEnv) (ttl : duration) (h : gcHist) : Prop :=
  match h with
  | [] => True
  | GDestroy id now :: h => guarded env ttl id now h /\ (forall t, lastAsk id h = Some t -> (t + Hour <= now)%Z) /\ okHist env ttl h
  | _ :: h => okHist env ttl h
  end.

(** ** Quiet calls *)

(** Calls that tell the history's functions nothing. *)
Definition neutral (c : gcCall) : bool :=
  match c with GVolumes | GNow | GDestroy _ _ | GDelete _ true => false | _ => true end.
Record quiet (w w' : gcWorld) : Prop := {
  qt_db : gw_db w' = gw_db w;
  qt_attempts : gw_attempts w' = gw_attempts w;
  qt_loaded : gw_loaded w' = gw_loaded w;
  qt_hist : exists cs, gw_hist w' = cs ++ gw_hist w /\ Forall (fun c => neutral c = true) cs
}.
#[local] Instance quiet_preorder : PreOrder quiet.
Proof.
  split.
  - intros w. split; try done. by exists [].
  - intros w1 w2 w3 [A B C (cs & D & E)] [A' B' C' (cs' & D' & E')]. split; [congruence..|]. exists (cs' ++ cs). rewrite D', D, app_assoc. split; [done|by apply Forall_app].
Qed.

Lemma neutral_listing env c h : neutral c = true -> listing env (c :: h) = listing env h.
Proof. by destruct c. Qed.
Lemma neutral_clock env c h : neutral c = true -> clockAt env (c :: h) = clockAt env h.
Proof. by destruct c. Qed.
Lemma neutral_ask id c h : neutral c = true -> lastAsk id (c :: h) = lastAsk id h.
Proof. by destruct c as [| | | | | | | |? []| | | |]. Qed.
Lemma neutral_ok env ttl c h : neutral c = true -> okHist env ttl (c :: h) <-> okHist env ttl h.
Proof. by destruct c. Qed.

(** A computation that only asks neutral questions. *)
Definition silent {A} (m : G A) : Prop := forall w, quiet w (snd (m w)).
Lemma silent_ret {A} (a : A) : silent (retG a).
Proof. intros w. reflexivity. Qed.
Lemma silent_get {A} (f : gcWorld -> A) : silent (getG f).
Proof. intros w. reflexivity. Qed.
Lemma silent_ask {A} c (f : gcHist -> A) : neutral c = true -> silent (ask c f).
Proof. intros Hc w. split; try done. exists [c]. split; [done|by constructor]. Qed.
Lemma silent_bind {A B} (m : G A) (k : A -> G B) : silent m -> (forall a, silent (k a)) -> silent (bindG m k).
Proof. intros Hm Hk w. unfold bindG. specialize (Hm w). destruct (m w) as [a w1]. etransitivity; [exact Hm|apply Hk]. Qed.
Create HintDb silent.
#[local] Hint Resolve silent_ret silent_get silent_bind : silent.
#[local] Hint Extern 1 (silent (ask _ _)) => apply silent_ask; reflexivity : silent.
#[local] Hint Extern 1 (silent (tell _)) => apply silent_ask; reflexivity : silent.
Ltac silent := repeat first [apply silent_bind; [|intros ?] | case_match | progress eauto with silent].

Lemma silent_unlock l : silent (unlockAll l).
Proof. induction l; simpl; silent. Qed.
#[local] Hint Resolve silent_unlock : silent.
Lemma silent_event a b c d e : silent (recordVolumeGCEvent a b c d e).
Proof. unfold recordVolumeGCEvent. silent. Qed.
#[local] Hint Resolve silent_event : silent.
Lemma silent_surface v b now : silent (surfaceUnexpectedStaleVolumeState v b now).
Proof. apply silent_event. Qed.
#[local] Hint Resolve silent_surface : silent.
Lemma silent_lockOwners env owners held l : silent (lockOwners env owners held l).
Proof. revert held l. induction owners; intros held l; simpl; silent. Qed.
#[local] Hint Resolve silent_lockOwners : silent.
Lemma silent_owners env id : silent (lockVolumeOwners env id).
Proof. unfold lockVolumeOwners. silent. Qed.
#[local] Hint Resolve silent_owners : silent.

(** ** Owners *)

Lemma lockOwners_clear env owners held locks w r w' : lockOwners env owners held locks w = (Ok (None, r), w') ->
  held = None /\ clearLocks env owners (gw_hist w) = Some (gw_hist w').
Proof.
  revert held locks w. induction owners as [|owner owners IH]; intros held locks w H; simpl in H.
  - unfold retG in H. injection H as -> _ <-. done.
  - unfold bindG, ask in H. simpl in H. destruct (vg_lock env (gw_hist w)) eqn:Hl.
    { destruct (unlockAll locks _) as [[] w2]. done. }
    change (gw_hist (w <| gw_hist ::= cons (GLock (w_ID owner)) |>)) with (GLock (w_ID owner) :: gw_hist w) in H.
    destruct (vg_reload env (GLock (w_ID owner) :: gw_hist w)) as [worker|err] eqn:Hr.
    + apply IH in H as [Hh Hc]. destruct held; [done|]. split; [done|]. simpl. rewrite Hl, Hr. destruct (EvidenceHeld worker); [done|]. exact Hc.
    + destruct (unlockAll locks _) as [[] w3]. done.
Qed.
Lemma lockVolumeOwners_clear env id w locks w' : gw_db w <> None -> lockVolumeOwners env id w = (Ok (None, locks), w') -> ownersClear env id (gw_hist w').
Proof.
  intros Hdb H. unfold lockVolumeOwners, bindG, getG, ask in H. destruct (gw_db w); [|done]. destruct (String.eqb_spec (TrimSpace id) "") as [E|E]; [by left|].
  right. destruct (vg_owners env (gw_hist w)) as [owners|] eqn:Ho; [|done]. apply lockOwners_clear in H as [_ H]. by exists owners, (gw_hist w).
Qed.

(** * The invariant *)

(** The table and the map in memory agree, but for an acceptance that was not saved. *)
Record tables (app : string) (loaded : bool) (mem rows : gmap string VolumeGCAttempt) : Prop := {
  tb_key : forall id r, rows !! id = Some r -> ga_VolumeID r = id;
  tb_mem : forall id a, mem !! id = Some a -> ga_AppName a = app /\ exists r, rows !! id = Some r /\ r <| ga_RequestAccepted := ga_RequestAccepted a |> = a;
  tb_rows : loaded = true -> forall id r, rows !! id = Some r -> ga_AppName r = app -> is_Some (mem !! id)
}.
Record GI (env : gcEnv) (app : string) (ttl : duration) (w : gcWorld) : Prop := {
  gi_ok : okHist env ttl (gw_hist w);
  gi_db : exists rows, gw_db w = Some rows /\ tables app (gw_loaded w) (gw_attempts w) rows /\
    forall id t, lastAsk id (gw_hist w) = Some t -> exists r, rows !! id = Some r /\ ga_AppName r = app /\ (t + Hour <= ga_NextRetryAt r)%Z
}.
Record inPass (env : gcEnv) (volumes : list gcVolume) (now : time) (w : gcWorld) : Prop := {
  ip_listing : listing env (gw_hist w) = Some volumes;
  ip_clock : clockAt env (gw_hist w) = Some now;
  ip_loaded : gw_loaded w = true
}.

Section Invariant.
Context (env : gcEnv) (app : string) (ttl : duration).

Lemma quiet_GI w w' : quiet w w' -> GI env app ttl w -> GI env app ttl w'.
Proof.
  intros [A B C (cs & D & E)] [H1 H2]. split; rewrite ?A, ?B, ?C, D; clear -E H1 H2.
  - induction E as [|c cs Hc _ IH]; [done|]. cbn [Datatypes.app]. by apply neutral_ok.
  - destruct H2 as (rows & X & Y & Z). exists rows. split_and!; [done|done|]. intros id t Ht. apply Z. induction E as [|c cs Hc _ IH]; [done|].
    cbn [Datatypes.app] in Ht. rewrite neutral_ask in Ht by done. auto.
Qed.
Lemma quiet_inPass vs now w w' : quiet w w' -> inPass env vs now w -> inPass env vs now w'.
Proof.
  intros [A B C (cs & D & E)] [H1 H2 H3]. split; rewrite ?C, ?D; [| |done]; clear -E H1 H2; induction E as [|c cs Hc _ IH]; try done; cbn [Datatypes.app];
    [by rewrite neutral_listing|by rewrite neutral_clock].
Qed.

(** What holds throughout a pass. *)
Definition PI (vs : list gcVolume) (now : time) (w : gcWorld) : Prop := GI env app ttl w /\ inPass env vs now w.
Lemma quiet_PI vs now w w' : quiet w w' -> PI vs now w -> PI vs now w'.
Proof. intros Hq [H1 H2]. split; [by eapply quiet_GI|by eapply quiet_inPass]. Qed.
Definition keeps {A} (vs : list gcVolume) (now : time) (m : G A) : Prop := forall w, PI vs now w -> PI vs now (snd (m w)).
Lemma keeps_silent {A} vs now (m : G A) : silent m -> keeps vs now m.
Proof. intros Hm w Hw. by eapply quiet_PI; [apply Hm|]. Qed.
Lemma keeps_seq {A B} vs now (m : G A) (k : A -> G B) : keeps vs now m -> (forall a, keeps vs now (k a)) -> keeps vs now (bindG m k).
Proof. intros Hm Hk w Hw. unfold bindG. specialize (Hm w Hw). destruct (m w) as [a w1]. by apply Hk. Qed.

Lemma tables_delete loaded mem rows id : tables app loaded mem rows -> tables app loaded (delete id mem) (delete id rows).
Proof.
  intros [H1 H2 H3]. split.
  - intros i r [_ ?]%lookup_delete_Some. auto.
  - intros i a [Hne Ha]%lookup_delete_Some. destruct (H2 i a Ha) as (? & r & ? & ?). split; [done|]. exists r. by rewrite lookup_delete_ne.
  - intros Hl i r [Hne Hr]%lookup_delete_Some Happ. rewrite lookup_delete_ne by done. eauto.
Qed.
Lemma keeps_remove vs now id : keeps vs now (removeVolumeGCAttempt env id).
Proof.
  intros w [HG HP]. pose proof HG as [Hok (rows & Hdb & Htb & Hask)]. unfold removeVolumeGCAttempt. rewrite Hdb. destruct (vg_delete env (gw_hist w)).
  - eapply quiet_PI; [|by split]. split; try done. exists [GDelete id false]. split; [done|by constructor].
  - destruct HP as [L C P]. split; [split|by split]; simpl; [done|]. exists (delete id rows). split_and!; [done|by apply tables_delete|].
    intros i t Ht. destruct (String.eqb_spec id i) as [->|Hne]; [done|]. destruct (Hask i t Ht) as (r & ? & ? & ?). exists r. by rewrite lookup_delete_ne.
Qed.
Lemma keeps_skipHeld vs now id name held attempt t : keeps vs now (skipHeldVolumeGC env id name held attempt t).
Proof.
  unfold skipHeldVolumeGC. apply keeps_seq; [|intros; apply keeps_silent; auto with silent].
  destruct attempt; [apply keeps_seq; [apply keeps_remove|intros]|]; apply keeps_silent; auto with silent.
Qed.

(** ** A request *)

(** The volume may be asked to be destroyed: it is stale, the pass has seen it, and its
    attempt, if it has one, is due. *)
Definition sourced (volumes : list gcVolume) (volume : gcVolume) (h : gcHist) : Prop :=
  volume ∈ volumes \/ exists h' h'', h = h' ++ GGet (gv_ID volume) :: h'' /\ vg_get env h'' = Ok volume.
Record ready (vs : list gcVolume) (now : time) (volume : gcVolume) (attempt : option VolumeGCAttempt) (w : gcWorld) : Prop := {
  rd_stale : isStaleUnattachedWorkerVolume volume (time_Add now (- ttl)) = true;
  rd_source : sourced vs volume (gw_hist w);
  rd_attempt : gw_attempts w !! gv_ID volume = attempt;
  rd_due : forall a, attempt = Some a -> (ga_NextRetryAt a <= now)%Z
}.
Lemma quiet_ready vs now volume attempt w w' : quiet w w' -> ready vs now volume attempt w -> ready vs now volume attempt w'.
Proof.
  intros [A B C (cs & D & E)] [H1 H2 H3 H4]. split; [done| |by rewrite B|done]. rewrite D. destruct H2 as [?|(h' & h'' & -> & ?)]; [by left|right].
  exists (cs ++ h'), h''. by rewrite app_assoc.
Qed.

(** Both tables take the same attempt, up to its acceptance. *)
Lemma tables_insert loaded mem rows a b : tables app loaded mem rows -> ga_AppName a = app -> b <| ga_RequestAccepted := ga_RequestAccepted a |> = a ->
  tables app loaded (<[ga_VolumeID a := a]> mem) (<[ga_VolumeID a := b]> rows).
Proof.
  intros [H1 H2 H3] Ha Hb. assert (ga_VolumeID b = ga_VolumeID a) as Hk by by rewrite <- Hb. split.
  - intros i r [[<- <-]|[_ ?]]%lookup_insert_Some; auto.
  - intros i c [[<- <-]|[Hne Hc]]%lookup_insert_Some; [split; [done|]; exists b; by rewrite lookup_insert_eq|].
    destruct (H2 i c Hc) as (? & r & ? & ?). split; [done|]. exists r. by rewrite lookup_insert_ne.
  - intros Hl i r [[<- <-]|[Hne Hr]]%lookup_insert_Some Happ; [rewrite lookup_insert_eq; by eexists|]. rewrite lookup_insert_ne by done. eauto.
Qed.

(** What the request leaves once it was recorded: [next] is in both tables. *)
Lemma keeps_asked vs now w rows volume next : PI vs now w -> gw_db w = Some rows -> ready vs now volume (gw_attempts w !! gv_ID volume) w ->
  ownersClear env (gv_ID volume) (gw_hist w) -> ga_VolumeID next = gv_ID volume -> ga_AppName next = app -> ga_RequestAccepted next = false ->
  ga_LastAttemptAt next = now -> ga_NextRetryAt next = time_Add now (volumeGCRetryBackoff (ga_RequestCount next)) ->
  forall accepted, PI vs now (mkGCWorld (Some (<[gv_ID volume := next]> rows)) (<[gv_ID volume := next <| ga_RequestAccepted := accepted |>]> (gw_attempts w)) (gw_loaded w)
    (GDestroy (gv_ID volume) now :: GPersist next true :: gw_hist w)).
Proof.
  intros [[Hok (rows0 & Hdb & Htb & Hask)] [HL HC HP]] Hdb' [Hst Hsrc _ Hdue] Hown Hid Happ Hacc Hlast Hnext accepted. rewrite Hdb in Hdb'. injection Hdb' as ->.
  assert (forall t, lastAsk (gv_ID volume) (gw_hist w) = Some t -> (t + Hour <= now)%Z) as Hspace.
  { intros t Ht. destruct (Hask _ _ Ht) as (r & Hr & Hrapp & Hle). destruct (tb_rows _ _ _ _ Htb HP _ _ Hr Hrapp) as [a Ha].
    destruct (tb_mem _ _ _ _ Htb _ _ Ha) as (_ & r' & Hr' & Heq). rewrite Hr in Hr'. injection Hr' as <-. specialize (Hdue a Ha). rewrite <- Heq in Hdue. simpl in Hdue. lia. }
  split; [split; simpl|by split].
  - split_and!; [|done|done]. exists volume, next, (gw_hist w). split_and!; try done.
    destruct Hsrc as [?|(h' & h'' & -> & ?)]; [left; by exists vs|right; by exists h', h''].
  - exists (<[gv_ID volume := next]> rows). split_and!; [done| |].
    + rewrite <- Hid. set (acc := next <| ga_RequestAccepted := accepted |>). exact (tables_insert (gw_loaded w) (gw_attempts w) rows acc next Htb Happ eq_refl).
    + intros i t. destruct (String.eqb_spec (gv_ID volume) i) as [<-|Hne].
      * intros [= <-]. exists next. rewrite lookup_insert_eq. split_and!; [done|done|]. rewrite Hnext. pose proof (backoff_min (ga_RequestCount next)).
        unfold time_Add, volumeGCInitialRetryBackoff in *. lia.
      * intros Ht. destruct (Hask i t Ht) as (r & ? & ? & ?). exists r. by rewrite lookup_insert_ne.
Qed.

(** Saving again what the map holds. *)
Lemma keeps_persist vs now a w : PI vs now w -> gw_attempts w !! ga_VolumeID a = Some a -> PI vs now (snd (persistVolumeGCAttempt env a w)).
Proof.
  intros HP Ha. pose proof HP as [[Hok (rows & Hdb & Htb & Hask)] [HL HC Hl]]. unfold persistVolumeGCAttempt. rewrite Hdb. destruct (vg_persist env (gw_hist w)).
  - eapply quiet_PI; [|exact HP]. split; try done. exists [GPersist a false]. split; [done|by constructor].
  - destruct (tb_mem _ _ _ _ Htb _ _ Ha) as (Happ & r & Hr & Heq). split; [split; [done|]|by split]. simpl. exists (<[ga_VolumeID a := a]> rows). split_and!; [done| |].
    + rewrite <- (insert_id _ _ _ Ha). by apply tables_insert; [| |destruct a].
    + intros i t Ht. destruct (Hask i t Ht) as (r' & Hr' & Happ' & Hle). destruct (decide (ga_VolumeID a = i)) as [<-|Hne]; [|exists r'; by rewrite lookup_insert_ne].
      exists a. rewrite lookup_insert_eq. rewrite Hr in Hr'. injection Hr' as <-. split_and!; [done|done|]. rewrite <- Heq. done.
Qed.

Lemma keeps_destroy vs now volume attempt w : PI vs now w -> ready vs now volume attempt w -> ownersClear env (gv_ID volume) (gw_hist w) ->
  PI vs now (snd (destroyLockedVolume env app volume attempt now w)).
Proof.
  intros HP Hrd Hown. pose proof HP as [[Hok (rows & Hdb & Htb & Hask)] Hpass]. destruct w as [db mem loaded hist]. simpl in Hdb, Htb, Hask, Hown. subst db.
  pose proof (rd_attempt _ _ _ _ _ Hrd) as Hmem. simpl in Hmem.
  unfold destroyLockedVolume. set (previous := default _ attempt). set (count := int64 _). set (next := _ <| ga_NextRetryAt := _ |>).
  assert (ga_VolumeID previous = gv_ID volume /\ ga_AppName previous = app) as [Hid Happ].
  { unfold previous. destruct attempt as [a|]; [|done]. destruct (tb_mem _ _ _ _ Htb _ _ Hmem) as (? & r & Hr & Heq).
    split; [|done]. simpl. rewrite <- Heq. simpl. by eapply tb_key. }
  assert (ga_VolumeID next = gv_ID volume) as Hidn by exact Hid.
  pose proof (keeps_asked vs now (mkGCWorld (Some rows) mem loaded hist) rows volume next HP eq_refl) as Hasked. simpl in Hasked.
  rewrite Hmem in Hasked. specialize (Hasked Hrd Hown Hidn Happ eq_refl eq_refl eq_refl).
  unfold bindG at 1, setAttempts at 1. rewrite Hidn. unfold bindG at 1, persistVolumeGCAttempt at 1, UpsertVolumeGCAttempt. cbn [gw_db gw_hist gw_attempts gw_loaded set_field gcWorld_eta].
  destruct (vg_persist env hist).
  { assert (forall m, m = mem -> PI vs now (mkGCWorld (Some rows) m loaded (GPersist next false :: hist))) as Hback.
    { intros m ->. eapply quiet_PI; [|exact HP]. split; try done. exists [GPersist next false]. split; [done|by constructor]. }
    destruct attempt as [a|]; apply Hback; simpl.
    - simpl in Hid. rewrite Hid, insert_insert_eq. by apply insert_id.
    - rewrite delete_insert_eq. by apply delete_id. }
  unfold bindG at 1, ask. simpl. destruct (vg_destroy env (GPersist next true :: hist)) as [err|]; simpl in Hid; rewrite ?Hid, ?insert_insert_eq.
  - specialize (Hasked false). replace (next <| ga_RequestAccepted := false |>) with next in Hasked by done.
    destruct (pf_notFound err); [|by apply keeps_silent; [apply silent_event|]].
    apply keeps_seq; [apply keeps_remove| |exact Hasked]. intros []; apply keeps_silent; auto with silent.
  - specialize (Hasked true). set (acc := next <| ga_RequestAccepted := true |>) in *. unfold bindG at 1, setAttempts.
    match goal with |- PI _ _ (snd (_ ?W)) => assert (W = mkGCWorld (Some (<[gv_ID volume := next]> rows)) (<[gv_ID volume := acc]> mem) loaded
      (GDestroy (gv_ID volume) now :: GPersist next true :: hist)) as -> end.
    { refine (f_equal (fun m => mkGCWorld _ m _ _) _). simpl. apply insert_insert_eq. }
    unfold bindG. pose proof (keeps_persist vs now acc _ Hasked) as H. simpl in H. rewrite Hid in H. specialize (H (lookup_insert_eq _ _ _)).
    destruct (persistVolumeGCAttempt env acc _) as [? w']. apply keeps_silent; [apply silent_event|exact H].
Qed.

Lemma after_silent {A B} vs now (m : G A) (k : A -> G B) w : silent m -> PI vs now w -> (forall a w1, quiet w w1 -> PI vs now w1 -> PI vs now (snd (k a w1))) ->
  PI vs now (snd (bindG m k w)).
Proof. intros Hm HP Hk. unfold bindG. specialize (Hm w). destruct (m w) as [a w1]. apply Hk; [done|by eapply quiet_PI]. Qed.

Lemma keeps_request vs now volume attempt w : PI vs now w -> ready vs now volume attempt w -> PI vs now (snd (requestStaleVolumeDestruction env app volume attempt now w)).
Proof.
  intros HP Hrd. unfold requestStaleVolumeDestruction, bindG at 1. pose proof (silent_owners env (gv_ID volume) w) as Hq.
  destruct (lockVolumeOwners env (gv_ID volume) w) as [[[held locks]|err] w1] eqn:Hl; [|by eapply quiet_PI]. simpl in Hq.
  pose proof (quiet_PI _ _ _ _ Hq HP) as HP1. unfold bindG. destruct held as [held|].
  - pose proof (keeps_skipHeld vs now (gv_ID volume) (gv_Name volume) held attempt now w1 HP1) as H. destruct (skipHeldVolumeGC _ _ _ _ _ _ w1) as [[] w2].
    by apply keeps_silent; [apply silent_unlock|].
  - assert (ownersClear env (gv_ID volume) (gw_hist w1)) as Hown.
    { eapply lockVolumeOwners_clear; [|exact Hl]. destruct HP as [[_ (rows & -> & _)] _]. done. }
    pose proof (keeps_destroy vs now volume attempt w1 HP1 (quiet_ready _ _ _ _ _ _ Hq Hrd) Hown) as H. destruct (destroyLockedVolume _ _ _ _ _ w1) as [[] w2].
    by apply keeps_silent; [apply silent_unlock|].
Qed.

Lemma keeps_reconcile vs now volume attempt w : PI vs now w -> sourced vs volume (gw_hist w) -> gw_attempts w !! gv_ID volume = Some attempt ->
  PI vs now (snd (reconcileVolumeGCAttempt env app volume attempt (time_Add now (- ttl)) now w)).
Proof.
  intros HP Hsrc Ha. unfold reconcileVolumeGCAttempt. destruct (isVolumeDeletionState _).
  { apply keeps_seq; [apply keeps_remove| |exact HP]. intros []; apply keeps_silent; auto with silent. }
  destruct (normalizeVolumeState (gv_State volume) =s volumeGCStateCreated) eqn:Hst; [|by apply keeps_silent; [apply silent_surface|]].
  destruct (isStaleUnattachedWorkerVolumeCandidate volume (time_Add now (- ttl))) eqn:Hcand; [|by apply keeps_silent; [apply silent_event|]]. cbn [negb].
  apply after_silent; [case_match; auto with silent|exact HP|]. intros _ w1 Hs HP1.
  destruct (Before now (ga_NextRetryAt attempt)) eqn:Hb; [exact HP1|]. apply keeps_request; [done|]. eapply quiet_ready; [exact Hs|].
  split; [unfold isStaleUnattachedWorkerVolume; by rewrite Hcand, Hst|done|done|]. intros a [= <-]. unfold Before in Hb. lia.
Qed.

Lemma keeps_verifyMissing vs now attempt w : (forall h volume, vg_get env h = Ok volume -> TrimSpace (gv_ID volume) = gv_ID volume) ->
  PI vs now w -> gw_attempts w !! ga_VolumeID attempt = Some attempt ->
  PI vs now (snd (verifyMissingVolumeGCAttempt env app attempt (time_Add now (- ttl)) now w)).
Proof.
  intros Htrim HP Ha. unfold verifyMissingVolumeGCAttempt. unfold bindG at 1, ask.
  set (w1 := w <| gw_hist ::= cons (GGet (ga_VolumeID attempt)) |>).
  assert (quiet w w1) as Hq. { split; try done. exists [GGet (ga_VolumeID attempt)]. split; [done|by constructor]. }
  pose proof (quiet_PI _ _ _ _ Hq HP) as HP1. destruct (vg_get env (gw_hist w)) as [volume|err] eqn:Hget.
  - rewrite (Htrim _ _ Hget). destruct (String.eqb_spec (gv_ID volume) (ga_VolumeID attempt)) as [E|E]; [|by apply keeps_silent; [apply silent_event|]]. cbn [negb].
    apply keeps_reconcile; [done| |by rewrite E]. right. exists [], (gw_hist w). by rewrite E.
  - destruct (pf_notFound err); [|by apply keeps_silent; [apply silent_event|]].
    apply keeps_seq; [apply keeps_remove| |exact HP1]. intros []; apply keeps_silent; auto with silent.
Qed.

Lemma held_or_quiet vs now id name attempt t w : PI vs now w ->
  let '(held, w') := volumeGCHeld env id name attempt t w in PI vs now w' /\ (held = false -> quiet w w').
Proof.
  intros HP. unfold volumeGCHeld, bindG at 1. pose proof (silent_owners env id w) as Hq. destruct (lockVolumeOwners env id w) as [[[[held|] locks]|err] w1].
  - simpl in Hq. pose proof (quiet_PI _ _ _ _ Hq HP) as HP1. unfold bindG. pose proof (keeps_skipHeld vs now id name held attempt t w1 HP1) as H.
    destruct (skipHeldVolumeGC _ _ _ _ _ _ w1) as [[] w2]. pose proof (silent_unlock locks w2) as Hu. destruct (unlockAll locks w2) as [[] w3]. split; [exact (quiet_PI _ _ _ _ Hu H)|done].
  - simpl in Hq. unfold bindG. pose proof (silent_unlock locks w1) as Hu. destruct (unlockAll locks w1) as [[] w3]. simpl in Hu.
    assert (quiet w w3) as Hq3 by by etransitivity. split; [by eapply quiet_PI|done].
  - split; [by eapply quiet_PI|done].
Qed.

Lemma inventoryLookup_in vs id volume : inventoryLookup vs id = Some volume -> volume ∈ vs /\ gv_ID volume = id.
Proof. intros [H Hid]%find_some. split; [by apply list_elem_of_In, in_rev|by apply String.eqb_eq]. Qed.
Lemma keeps_reconcileStep vs now id : (forall h volume, vg_get env h = Ok volume -> TrimSpace (gv_ID volume) = gv_ID volume) ->
  keeps vs now (reconcileStep env app vs (time_Add now (- ttl)) now id).
Proof.
  intros Htrim w HP. unfold reconcileStep, bindG at 1, getG. destruct (gw_attempts w !! id) as [attempt|] eqn:Ha; [|done].
  assert (ga_VolumeID attempt = id) as Hid.
  { destruct HP as [[_ (rows & _ & Htb & _)] _]. destruct (tb_mem _ _ _ _ Htb _ _ Ha) as (_ & r & Hr & <-). exact (tb_key _ _ _ _ Htb _ _ Hr). }
  unfold bindG. pose proof (held_or_quiet vs now id (ga_VolumeName attempt) (Some attempt) now w HP) as H. destruct (volumeGCHeld _ _ _ _ _ w) as [[] w1]; [apply H|].
  destruct H as [HP1 Hq]. specialize (Hq eq_refl). rewrite <- (qt_attempts _ _ Hq) in Ha. destruct (inventoryLookup vs id) as [volume|] eqn:Hv.
  - destruct (inventoryLookup_in _ _ _ Hv) as [Hin E]. apply keeps_reconcile; [done|by left|by rewrite E].
  - apply keeps_verifyMissing; [done|done|by rewrite Hid].
Qed.
Lemma keeps_requestStep vs now volume : volume ∈ vs -> keeps vs now (requestStep env app (time_Add now (- ttl)) now volume).
Proof.
  intros Hin w HP. unfold requestStep. destruct (isStaleUnattachedWorkerVolumeCandidate volume _) eqn:Hc; [|done]. cbn [negb]. unfold bindG at 1, getG.
  destruct (gw_attempts w !! gv_ID volume) eqn:Ha; [done|]. unfold bindG. pose proof (held_or_quiet vs now (gv_ID volume) (gv_Name volume) None now w HP) as H.
  destruct (volumeGCHeld _ _ _ _ _ w) as [[] w1]; [apply H|]. destruct H as [HP1 Hq]. specialize (Hq eq_refl).
  destruct (normalizeVolumeState (gv_State volume) =s volumeGCStateCreated) eqn:Hs.
  - apply keeps_request; [done|]. split; [unfold isStaleUnattachedWorkerVolume; by rewrite Hc, Hs|by left|by rewrite (qt_attempts _ _ Hq)|done].
  - destruct (isVolumeDeletionState _); [done|]. by apply keeps_silent; [apply silent_surface|].
Qed.
Lemma keeps_each {A} vs now (f : A -> G unit) l : (forall x, x ∈ l -> keeps vs now (f x)) -> keeps vs now (each f l).
Proof.
  induction l as [|x l IH]; intros Hf; simpl; [apply keeps_silent; auto with silent|]. apply keeps_seq; [apply Hf, elem_of_cons; by left|intros _].
  apply IH. intros y Hy. apply Hf, elem_of_cons. by right.
Qed.

(** ** A pass, and the monitor *)

Lemma GI_push c w : (forall h, okHist env ttl (c :: h) <-> okHist env ttl h) -> (forall id h, lastAsk id (c :: h) = lastAsk id h) ->
  GI env app ttl w -> GI env app ttl (w <| gw_hist ::= cons c |>).
Proof.
  intros Hok Hask [H1 (rows & H2 & H3 & H4)]. split; [by apply Hok|]. exists rows. split_and!; [done|done|]. intros id t Ht. apply H4. rewrite <- (Hask id (gw_hist w)). exact Ht.
Qed.
Lemma load_GI w : GI env app ttl w -> let '(err, w') := loadVolumeGCAttempts env app w in
  GI env app ttl w' /\ (err = None -> gw_loaded w' = true) /\ (forall vs, listing env (gw_hist w) = vs -> listing env (gw_hist w') = vs) /\ clockAt env (gw_hist w') = clockAt env (gw_hist w).
Proof.
  intros HG. unfold loadVolumeGCAttempts, bindG, getG, id. destruct (gw_loaded w) eqn:Hl; [by split_and!|]. pose proof HG as [Hok (rows & Hdb & Htb & Hask)]. rewrite Hdb.
  unfold ask. assert (GI env app ttl (w <| gw_hist ::= cons GLoad |>)) as HG1 by by apply GI_push. destruct (vg_load env (gw_hist w)); [by split_and!|].
  split_and!; try done. split; [done|]. exists rows. split_and!; [done| |done]. rewrite Hl in Htb. destruct Htb as [T1 T2 T3]. simpl. split; [done| |].
  - unfold ListVolumeGCAttempts. intros i a [[Hr Happ]%map_lookup_filter_Some|[_ Ha]]%lookup_union_Some_raw; [|by apply T2]. split; [exact Happ|]. exists a. split; [done|by destruct a].
  - intros _ i r Hr Happ. apply lookup_union_is_Some. left. exists r. by apply map_lookup_filter_Some.
Qed.
Lemma sync_GI w : (forall h volume, vg_get env h = Ok volume -> TrimSpace (gv_ID volume) = gv_ID volume) ->
  GI env app ttl w -> GI env app ttl (snd (syncVolumeInventory env app ttl w)).
Proof.
  intros Htrim HG. unfold syncVolumeInventory, bindG at 1, ask. assert (GI env app ttl (w <| gw_hist ::= cons GVolumes |>)) as HG1 by by apply GI_push.
  destruct (vg_volumes env (gw_hist w)) as [vs|] eqn:Hvs; [|done]. unfold destroyStaleUnattachedWorkerVolumes. destruct (ttl <=? 0)%Z; [done|].
  set (w1 := w <| gw_hist ::= cons GVolumes |>) in *. unfold bindG at 1, ask. set (now := vg_now env (gw_hist w1)).
  assert (GI env app ttl (w1 <| gw_hist ::= cons GNow |>)) as HG2 by by apply GI_push. set (w2 := w1 <| gw_hist ::= cons GNow |>) in *.
  unfold bindG at 1. pose proof (load_GI w2 HG2) as H. destruct (loadVolumeGCAttempts env app w2) as [[err|] w3]; [apply H|]. destruct H as (HG3 & Hl & HL & HC).
  assert (PI vs now w3) as HP. { split; [done|]. split; [apply HL; simpl; by rewrite Hvs|by rewrite HC|by apply Hl]. }
  unfold bindG at 1, getG. set (order := vg_order env (gw_hist w3)).
  apply (keeps_seq vs now (each (reconcileStep env app vs (time_Add now (- ttl)) now) order) (fun _ => each (requestStep env app (time_Add now (- ttl)) now) vs)); [| |done].
  - apply keeps_each. intros i _. by apply keeps_reconcileStep.
  - intros _. apply keeps_each. intros volume Hin. by apply keeps_requestStep.
Qed.
Lemma monitor_GI restarts w : (forall h volume, vg_get env h = Ok volume -> TrimSpace (gv_ID volume) = gv_ID volume) ->
  GI env app ttl w -> GI env app ttl (snd (runMonitor env app ttl restarts w)).
Proof.
  intros Htrim. revert w. induction restarts as [|b restarts IH]; intros w HG; [done|]. simpl. unfold bindG.
  destruct b; [|pose proof (sync_GI w Htrim HG) as H; destruct (syncVolumeInventory env app ttl w) as [[] w1]; by apply IH]. simpl. apply IH.
  destruct HG as [Hok (rows & Hdb & [T1 T2 T3] & Hask)]. split; [done|]. exists rows. split_and!; [done|by split|done].
Qed.
Lemma okHist_app h1 h2 : okHist env ttl (h1 ++ h2) -> okHist env ttl h2.
Proof. induction h1 as [|c h1 IH]; [done|]. destruct c; simpl; try done. intros (_ & _ & ?). auto. Qed.
Lemma monitor_fresh restarts rows : (forall h volume, vg_get env h = Ok volume -> TrimSpace (gv_ID volume) = gv_ID volume) ->
  (forall id r, rows !! id = Some r -> ga_VolumeID r = id) -> GI env app ttl (snd (runMonitor env app ttl restarts (mkGCWorld (Some rows) ∅ false []))).
Proof. intros Htrim Hkey. apply monitor_GI; [done|]. split; [done|]. exists rows. by split_and!; [|split|]. Qed.
End Invariant.

(** The table is keyed by volume, and the platform answers for the volume it was asked for. *)
Definition keyed (rows : gmap string VolumeGCAttempt) : Prop := forall id r, rows !! id = Some r -> ga_VolumeID r = id.
Definition exactIDs (env : gcEnv) : Prop := forall h volume, vg_get env h = Ok volume -> TrimSpace (gv_ID volume) = gv_ID volume.

(** C15: However the platform, the database, the clock and the rest of the control plane behave, and
    across restarts, the collector asks for a volume to be destroyed only when the pass's own
    listing, or a look at the volume itself, shows a created, unattached worker volume older than the time to live,
    with the locks of all workers that refer to it taken and none of them under an
    evidence hold, and right after the attempt with its retry time was saved. *)
Theorem volume_requests_guarded env app ttl rows restarts id t pre post : exactIDs env -> keyed rows ->
  gw_hist (snd (runMonitor env app ttl restarts (mkGCWorld (Some rows) ∅ false []))) = post ++ GDestroy id t :: pre -> guarded env ttl id t pre.
Proof.
  intros Htrim Hkey Hh. destruct (monitor_fresh env app ttl restarts rows Htrim Hkey) as [Hok _]. rewrite Hh in Hok. apply okHist_app in Hok. apply Hok.
Qed.

(** C24: Two requests to destroy the same volume are at least an hour apart unless the volume's
    record was removed in between, even when the control plane restarts between them or a
    save fails; and the record of a request outlives restarts, with a retry time at least an hour after it. *)
Theorem volume_requests_spaced env app ttl rows restarts : exactIDs env -> keyed rows ->
  let w := snd (runMonitor env app ttl restarts (mkGCWorld (Some rows) ∅ false [])) in
  (forall id t pre post t0, gw_hist w = post ++ GDestroy id t :: pre -> lastAsk id pre = Some t0 -> (t0 + volumeGCInitialRetryBackoff <= t)%Z) /\
  exists rows', gw_db w = Some rows' /\ forall id t0, lastAsk id (gw_hist w) = Some t0 ->
    exists attempt, rows' !! id = Some attempt /\ ga_AppName attempt = app /\ (t0 + volumeGCInitialRetryBackoff <= ga_NextRetryAt attempt)%Z.
Proof.
  intros Htrim Hkey w. destruct (monitor_fresh env app ttl restarts rows Htrim Hkey) as [Hok (rows' & Hdb & _ & Hask)]. fold w in Hok, Hdb, Hask. split.
  - intros id t pre post t0 Hh Ha. rewrite Hh in Hok. apply okHist_app in Hok as (_ & Hs & _). by apply Hs.
  - by exists rows'.
Qed.

(** A control plane with one stale volume, whose worker is not held; each pass is two
    hours after the one before, the platform accepts every request and destroys nothing. *)
Definition demoVolume : gcVolume := mkGCVolume "vol1" "soak_worker_main" "created" 10 "ord" "" 1.
Definition demoEnv : gcEnv := mkGCEnv (fun _ => Ok [demoVolume])
  (fun h => (100 * Hour + 2 * Hour * Z.of_nat (length (List.filter (fun c => match c with GNow => true | _ => false end) h)))%Z)
  (fun _ => None) (fun _ => Ok [Worker_zero <| w_ID := "w1" |>]) (fun _ => None) (fun _ => Ok (Worker_zero <| w_ID := "w1" |>)) (fun _ => None) (fun _ => None)
  (fun _ => None) (fun _ => Ok demoVolume) (fun _ => ["vol1"]).
Definition demoHist : gcHist := gw_hist (snd (runMonitor demoEnv "soak" (24 * Hour) [false; true; false; true; false] (mkGCWorld (Some ∅) ∅ false []))).
Definition requestsOf (h : gcHist) : list (string * time) := omap (fun c => match c with GDestroy id t => Some (id, t) | _ => None end) h.
Example demo_requests : requestsOf demoHist = [("vol1", (104 * Hour)%Z); ("vol1", (102 * Hour)%Z); ("vol1", (100 * Hour)%Z)].
Proof. vm_compute. reflexivity. Qed.
Lemma demo_exact : exactIDs demoEnv.
Proof. intros h volume [= <-]. vm_compute. reflexivity. Qed.
Lemma demo_keyed : keyed ∅.
Proof. intros id r H. rewrite lookup_empty in H. done. Qed.

Lemma volume_requests_guarded_witness : exists pre, guarded demoEnv (24 * Hour) "vol1" (104 * Hour) pre /\ lastAsk "vol1" pre = Some (102 * Hour)%Z.
Proof.
  assert (exists i, demoHist !! i = Some (GDestroy "vol1" (104 * Hour)%Z) /\ lastAsk "vol1" (drop (S i) demoHist) = Some (102 * Hour)%Z) as (i & Hi & Ha)
    by (exists 3; vm_compute; split; reflexivity).
  exists (drop (S i) demoHist). split; [|exact Ha].
  exact (volume_requests_guarded demoEnv "soak" (24 * Hour) ∅ [false; true; false; true; false] "vol1" (104 * Hour) (drop (S i) demoHist) (take i demoHist)
    demo_exact demo_keyed (eq_sym (take_drop_middle _ _ _ Hi))).
Defined.
Lemma volume_requests_spaced_witness : exists attempt, (exists rows', gw_db (snd (runMonitor demoEnv "soak" (24 * Hour) [false; true; false; true; false] (mkGCWorld (Some ∅) ∅ false []))) = Some rows' /\
  rows' !! "vol1" = Some attempt) /\ (105 * Hour <= ga_NextRetryAt attempt)%Z.
Proof.
  destruct (volume_requests_spaced demoEnv "soak" (24 * Hour) ∅ [false; true; false; true; false] demo_exact demo_keyed) as [_ (rows' & Hdb & Hask)].
  assert (lastAsk "vol1" demoHist = Some (104 * Hour)%Z) as Hl by (vm_compute; reflexivity).
  destruct (Hask "vol1" (104 * Hour)%Z Hl) as (attempt & Ha & _ & Hle). exists attempt. split; [exists rows'; split; [exact Hdb|exact Ha]|exact Hle].
Defined.

(** A volume whose worker is under an evidence hold is never asked for. *)
Definition heldEnv : gcEnv := mkGCEnv (vg_volumes demoEnv) (vg_now demoEnv) (vg_load demoEnv) (vg_owners demoEnv) (vg_lock demoEnv)
  (fun _ => Ok (Worker_zero <| w_ID := "w1" |> <| w_EvidenceHoldAt := Some 5%Z |>)) (vg_persist demoEnv) (vg_delete demoEnv) (vg_destroy demoEnv) (vg_get demoEnv) (vg_order demoEnv).
Example held_volume_kept : requestsOf (gw_hist (snd (runMonitor heldEnv "soak" (24 * Hour) [false; true; false] (mkGCWorld (Some ∅) ∅ false [])))) = [].
Proof. vm_compute. reflexivity. Qed.
