(* ===== verification/Deploy.v ===== *)
(** Deployments and their rollouts: [orchestrator/deploy.go] and the table of
    [model/deployments.go].

    A ready deployment is recorded with a pending rollout and a generation; a rollout takes
    its source's lock, looks twice whether the deployment is still the source's latest,
    brings the fleet up and clears exactly the generation it was given.  The recorder, the
    rollouts and the restarts of the control plane are a transition system. *)
From Stdlib Require Import Ascii.
From S2P Require Import Prelude GoStrings Regex Model GoTime GateFleet GateStore GateRegister SoakDB WorkerStore Rollout LifecyclePolicy Lifecycle.

(** * Validation *)

Inductive deployError :=
| ErrInvalidSHA (sha : string)
| ErrLitestreamSHARequired
| ErrImageRequired
| ErrWorkloadSHA
| ErrRepositoryNotPR
| ErrRepositoryRequired (source : string)
| ErrInvalidRepository (repository : string)
| ErrNotReady (source : string)
| ErrNoGitSHA (source : string)
| ErrNoLitestreamSHA (source : string)
| ErrInvalidImage (imageRef : string)
| ErrGateImageLabel (imageRef source : string)
| ErrImageGitSHA (label gitSHA : string)
| ErrImageLitestreamSHA (label litestreamSHA : string)
| ErrImageSource (imageSource source : string)
| ErrGatePin (e : gateError)
| ErrSourceBound (source bound repository : string)
| ErrSourceUnbound (source : string)
| ErrRepositoryConflict (source a b : string)
| ErrSHAPair
| ErrNoDeployment (source : string)
| ErrImageOverride (imageRef source image : string)
| ErrLsRemote (reason : string)
| ErrNoUpstreamRef (ref : string)
| ErrContext
| ErrStorage (reason : string).

Definition is_hex (c : ascii) : bool := is_digit c || char_in "a" "f" c || char_in "A" "F" c.
Definition re_sha : re := RSeq (RRep 7 (RChar is_hex)) (RUpTo 33 (RChar is_hex)).
(** [^[0-9a-fA-F]{7,40}$] *)
Definition validSHARe : re := RSeq re_sha REnd.
(** [^[A-Za-z0-9][A-Za-z0-9._:/@+-]*$] *)
Definition is_image_char (c : ascii) : bool := is_alnum c || existsb (Ascii.eqb c) ["."; "_"; ":"; "/"; "@"; "+"; "-"]%char.
Definition validImageRefRe : re := RSeq (RChar is_alnum) (RSeq (RStar (RChar is_image_char)) REnd).

(** [versionedWorkerImageRe] after its first group, with the groups of the pattern. *)
Definition re_gate_suffix : re :=
  RSeq (RAny [RLit "rc"; RLit "rcbase"; RLit "up"; RLit "upbase"]) (RSeq (ROpt (RLit "-nol9")) (RSeq (RLit "-") (RSeq (RRep 8 (RChar is_lower_hex)) (ROpt (RSeq (RLit "-") re_suffix))))).
Definition re_pr_number : re := RSeq (RChar (fun c => char_in "1" "9" c)) (RStar (RChar is_digit)).
Definition versionedWorkerImageBody : re :=
  RSeq (RLit "sha-") (RSeq (RCap 2 re_sha)
    (RSeq (ROpt (RCap 3 (RAlt (RSeq (RLit "-pr-") (RCap 4 re_pr_number)) (RSeq (RLit "-") (RCap 5 re_gate_suffix)))))
      (RSeq (RLit "-ls-") (RSeq (RCap 6 re_sha) (RSeq (ROpt (RCap 7 (RSeq (RLit "@sha256:") (RSeq (RRep 32 (RChar is_hex)) (RStar (RChar is_hex)))))) REnd))))).
(** The first group is the start of the text or a colon: at the first position the start
    is tried first, at any other one only the colon can match. *)
Definition findVersionedWorkerImage (imageRef : string) : option (list (nat * string)) :=
  match match_here versionedWorkerImageBody (RState None imageRef []) with
  | Some s => Some (rcaps s)
  | None => FindSubmatch (RSeq (RLit ":") versionedWorkerImageBody) imageRef
  end.
(** A submatch that took no part is empty. *)
Definition submatch (i : nat) (caps : list (nat * string)) : string := default "" (group i caps).

Definition pullRequestNumberFromSource (source : string) : Z * bool :=
  let raw := TrimPrefix source "pr-" in
  if (raw =s source) || (raw =s "") then (0%Z, false)
  else
    let '(prNumber, ok) := Atoi raw in
    if negb ok || (prNumber <=? 0)%Z || negb ("pr-" +:+ fmt_int prNumber =s source) then (0%Z, false) else (prNumber, true).
Definition splitGitHubRepository (repository : string) : bool :=
  match Split "/" repository with
  | [owner; name] => (TrimSpace owner =s owner) && (TrimSpace name =s name) && negb (owner =s "") && negb (name =s "")
  | _ => false
  end.
Definition validateDeploymentRepository (source repository : string) : option deployError :=
  if negb (snd (pullRequestNumberFromSource source)) then
    if negb (TrimSpace repository =s "") then Some ErrRepositoryNotPR else None
  else if TrimSpace repository =s "" then Some (ErrRepositoryRequired source)
  else if negb (splitGitHubRepository repository) then Some (ErrInvalidRepository repository)
  else None.

Definition validateDeploymentImageRef (imageRef : string) : option deployError :=
  let imageRef := TrimSpace imageRef in
  if imageRef =s "" then Some (ErrInvalidImage "")
  else if negb (MatchAnchored validImageRefRe imageRef) then Some (ErrInvalidImage imageRef)
  else None.
Definition validateReadyDeploymentTarget (deployment : Deployment) : option deployError :=
  let source := GateFleet.firstNonEmpty [TrimSpace (d_Source deployment); "main"] in
  let gitSHA := TrimSpace (d_GitSHA deployment) in
  let litestreamSHA := TrimSpace (d_LitestreamSHA deployment) in
  let imageRef := TrimSpace (d_ImageRef deployment) in
  if negb (EqualFold (TrimSpace (d_Status deployment)) "ready") then Some (ErrNotReady source)
  else if gitSHA =s "" then Some (ErrNoGitSHA source)
  else if litestreamSHA =s "" then Some (ErrNoLitestreamSHA source)
  else match validateDeploymentImageRef imageRef with
  | Some err => Some err
  | None =>
      match findVersionedWorkerImage imageRef with
      | None => if isGateSource source then Some (ErrGateImageLabel imageRef source) else None
      | Some caps =>
          let m i := submatch i caps in
          if negb (HasPrefix (ToLower gitSHA) (ToLower (m 2))) then Some (ErrImageGitSHA (m 2) gitSHA)
          else if negb (HasPrefix (ToLower litestreamSHA) (ToLower (m 6))) then Some (ErrImageLitestreamSHA (m 6) litestreamSHA)
          else
            let imageSource := if negb (m 4 =s "") then "pr-" +:+ m 4 else if negb (m 5 =s "") then m 5 else "main" in
            if negb (source =s imageSource) then Some (ErrImageSource imageSource source) else None
      end
  end.

(** * The deployments table *)

Record depRow := mkDepRow { dr_dep : Deployment; dr_pending : bool; dr_generation : Z }.
#[export] Instance depRow_eta : Settable depRow := fun r => mkDepRow (dr_dep r) (dr_pending r) (dr_generation r).
Definition dr_id (r : depRow) : Z := d_ID (dr_dep r).
(** Rows in insertion order, with the last id given out. *)
Record depTable := mkDepTable { dt_rows : list depRow; dt_seq : Z }.
#[export] Instance depTable_eta : Settable depTable := fun r => mkDepTable (dt_rows r) (dt_seq r).
Definition deploymentsDB (t : depTable) : soakDB := emptyDB <| db_deployments := map dr_dep (dt_rows t) |>.
Definition updateRow (id : Z) (f : depRow -> depRow) (t : depTable) : depTable :=
  t <| dt_rows ::= map (fun r => if (dr_id r =? id)%Z then f r else r) |>.
Definition insertDepRow (r : depRow) (t : depTable) : depTable * Z :=
  let id := (dt_seq t + 1)%Z in
  (mkDepTable (dt_rows t ++ [r <| dr_dep := (dr_dep r) <| d_ID := id |> |>]) id, id).

Definition CreateDeployment (now : time) (dep : Deployment) (t : depTable) : depTable * Z :=
  insertDepRow (mkDepRow (dep <| d_Repository := TrimSpace (d_Repository dep) |> <| d_StartedAt := datetime_now now |> <| d_CompletedAt := None |>
                           <| d_ErrorMessage := "" |> <| d_RolloutGeneration := 0%Z |>) false 0) t.
Definition UpdateDeployment (now : time) (id : Z) (status imageRef errMsg : string) (t : depTable) : depTable :=
  updateRow id (fun r => r <| dr_dep := (dr_dep r) <| d_Status := status |> <| d_ImageRef := imageRef |> <| d_ErrorMessage := errMsg |>
                                                   <| d_CompletedAt := Some (datetime_now now) |> |>) t.

(** SQLite's [TRIM] removes spaces; the repositories are read in the order of the rows. *)
Fixpoint boundRepositoryLoop (source repository : string) (candidates : list string) : result deployError string :=
  match candidates with
  | [] => Ok repository
  | candidate :: candidates =>
      let candidate := TrimSpace candidate in
      if negb (repository =s "") && negb (EqualFold repository candidate) then Err (ErrRepositoryConflict source repository candidate)
      else boundRepositoryLoop source candidate candidates
  end.
Definition deploymentSourceRepository (t : depTable) (source : string) : result deployError string :=
  boundRepositoryLoop source "" (remove_dups (map (fun r => d_Repository (dr_dep r))
    (List.filter (fun r => (d_Source (dr_dep r) =s source) && negb (Trim (d_Repository (dr_dep r)) " " =s "")) (dt_rows t)))).

Definition sameVersion (dep : Deployment) (r : depRow) : bool :=
  (d_Source (dr_dep r) =s d_Source dep) && (d_GitSHA (dr_dep r) =s d_GitSHA dep) && (d_LitestreamSHA (dr_dep r) =s d_LitestreamSHA dep) &&
  (d_WorkloadSHA (dr_dep r) =s d_WorkloadSHA dep).
Definition newestRow (rows : list depRow) : option depRow :=
  fold_left (fun best r => match best with Some b => if newer_deployment (dr_dep r) (dr_dep b) then Some r else Some b | None => Some r end) rows None.
(** The recorded deployment carries the row's id and generation. *)
Definition UpsertReadyDeploymentContext (now : time) (dep : Deployment) (t : depTable) : result deployError (depTable * Deployment) :=
  let repository := TrimSpace (d_Repository dep) in
  let! bound := deploymentSourceRepository t (d_Source dep) in
  let! repository :=
    if negb (bound =s "") then
      if negb (repository =s "") && negb (EqualFold repository bound) then Err (ErrSourceBound (d_Source dep) bound repository) else Ok bound
    else if negb (repository =s "") && existsb (fun r => d_Source (dr_dep r) =s d_Source dep) (dt_rows t) then Err (ErrSourceUnbound (d_Source dep))
    else Ok repository in
  match newestRow (List.filter (sameVersion dep) (dt_rows t)) with
  | Some existing =>
      let generation := (dr_generation existing + 1)%Z in
      Ok (updateRow (dr_id existing) (fun r =>
            mkDepRow ((dr_dep r) <| d_Status := "ready" |> <| d_ImageRef := d_ImageRef dep |> <| d_Repository := repository |> <| d_ErrorMessage := "" |>
                                 <| d_CompletedAt := Some (datetime_now now) |>) true (dr_generation r + 1)) t,
          dep <| d_ID := dr_id existing |> <| d_RolloutGeneration := generation |>)
  | None =>
      let '(t, id) := insertDepRow (mkDepRow (dep <| d_Repository := repository |> <| d_Status := "ready" |> <| d_StartedAt := datetime_now now |>
                                               <| d_CompletedAt := Some (datetime_now now) |> <| d_ErrorMessage := "" |> <| d_RolloutGeneration := 0%Z |>) true 1) t in
      Ok (t, dep <| d_ID := id |> <| d_RolloutGeneration := 1%Z |>)
  end.
(** [ORDER BY id] is the order of insertion. *)
Definition ListRolloutPendingDeployments (t : depTable) : list Deployment :=
  map (fun r => (dr_dep r) <| d_RolloutGeneration := dr_generation r |>)
    (List.filter (fun r => (d_Status (dr_dep r) =s "ready") && dr_pending r) (dt_rows t)).
Definition ClearRolloutPending (id generation : Z) (t : depTable) : depTable :=
  updateRow id (fun r => if (dr_generation r =? generation)%Z then r <| dr_pending := false |> else r) t.
Definition RolloutPending (id : Z) (t : depTable) : option bool :=
  dr_pending <$> List.find (fun r => (dr_id r =? id)%Z) (dt_rows t).

(** [orchestrator/manager.go] *)
Definition latestReadyDeploymentMatches (t : depTable) (source imageRef gitSHA litestreamSHA : string) : bool :=
  match GetLatestReadyDeployment (deploymentsDB t) source with
  | None => true
  | Some latest => deploymentMatchesTarget latest imageRef gitSHA litestreamSHA
  end.
Definition resolveReadyDeploymentTarget (t : depTable) (source imageRef gitSHA litestreamSHA : string) : result deployError Deployment :=
  let source := GateFleet.firstNonEmpty [TrimSpace source; "main"] in
  let imageRef := TrimSpace imageRef in
  let gitSHA := TrimSpace gitSHA in
  let litestreamSHA := TrimSpace litestreamSHA in
  if negb (Bool.eqb (gitSHA =s "") (litestreamSHA =s "")) then Err ErrSHAPair
  else
    match (if gitSHA =s "" then GetLatestReadyDeployment (deploymentsDB t) source else GetDeploymentByVersion (deploymentsDB t) source gitSHA litestreamSHA) with
    | None => Err (ErrNoDeployment source)
    | Some deployment =>
        match validateReadyDeploymentTarget deployment with
        | Some err => Err err
        | None =>
            if negb (imageRef =s "") && negb (imageRef =s TrimSpace (d_ImageRef deployment)) then Err (ErrImageOverride imageRef source (d_ImageRef deployment))
            else Ok deployment
        end
    end.

(** [strings.Fields]. *)
Definition Fields (s : string) : list string :=
  List.filter (fun f => negb (f =s "")) (Split " " (str_map (fun c => if is_space c then " "%char else c) s)).
(** [output] is what [git ls-remote] prints for the reference. *)
Fixpoint pickPeeled (first : string) (lines : list string) : result deployError string :=
  match lines with
  | [] => Ok first
  | line :: lines =>
      match Fields line with
      | sha :: ref :: _ => let first := if first =s "" then sha else first in if HasSuffix ref "^{}" then Ok sha else pickPeeled first lines
      | _ => pickPeeled first lines
      end
  end.
Definition resolveLitestreamBuildSHA (output : string -> result string string) (ref : string) : result deployError string :=
  let ref := TrimSpace ref in
  let ref := if ref =s "" then "main" else ref in
  if (str_len ref =? 40)%Z && negb (existsb (fun c => existsb (Ascii.eqb c) ["/"; " "; "009"; "010"]%char) (String.list_ascii_of_string ref)) then Ok ref
  else
    let pattern := if ref =s "main" then "refs/heads/main" else ref in
    match output pattern with
    | Err err => Err (ErrLsRemote err)
    | Ok output => let! first := pickPeeled "" (Split newline output) in if first =s "" then Err (ErrNoUpstreamRef ref) else Ok first
    end.

(** * Recording a deployment *)

(** What a rollout did since it took its source's lock, newest first. *)
Inductive rolloutEvent := EvLocked | EvCurrent | EvEnsured | EvUpdated | EvResumed | EvSuperseded.

(** The steps of [rolloutDeploymentReady]; [failed] says whether a part of the rollout failed so far. *)
Inductive rolloutPC :=
| RLock
| RFirst
| REnsure
| RUpdate (failed : bool)
| RSecond (failed : bool)
| RDormant (failed : bool)
| RClear
| RUnlock.
(** [ro_queue] is what [ResumePendingRollouts] has left to roll out. *)
Record rollout := mkRollout {
  ro_target : Deployment;
  ro_pc : rolloutPC;
  ro_trace : list rolloutEvent;
  ro_queue : list Deployment
}.
#[export] Instance rollout_eta : Settable rollout := fun r => mkRollout (ro_target r) (ro_pc r) (ro_trace r) (ro_queue r).

Record deployWorld := mkDeployWorld {
  dy_table : depTable;
  dy_gates : gateTable;
  dy_events : list (string * string * string);
  dy_threads : gmap nat rollout;
  dy_locks : gmap string nat;
  dy_log : list (Z * Z * list rolloutEvent)  (** the rollouts that were marked as handled *)
}.
#[export] Instance deployWorld_eta : Settable deployWorld :=
  fun r => mkDeployWorld (dy_table r) (dy_gates r) (dy_events r) (dy_threads r) (dy_locks r) (dy_log r).

(** The notification's fields, and what its context and the storage do: the context is done,
    the record fails, or the event fails after the record was committed. *)
Record readyRequest := mkReady {
  rr_source : string; rr_sha : string; rr_litestreamSHA : string; rr_imageRef : string; rr_trigger : string; rr_repository : string; rr_workloadSHA : string
}.
Record recordOutcome := mkRecordOutcome { oc_canceled : bool; oc_upsert : option string; oc_event : option string }.

Definition readyTarget (q : readyRequest) : result deployError Deployment :=
  let source := TrimSpace (rr_source q) in
  let source := if source =s "" then "main" else source in
  let repository := TrimSpace (rr_repository q) in
  match validateDeploymentRepository source repository with
  | Some err => Err err
  | None =>
      let sha := TrimSpace (rr_sha q) in
      let litestreamSHA := TrimSpace (rr_litestreamSHA q) in
      let imageRef := TrimSpace (rr_imageRef q) in
      let workloadSHA := ToLower (TrimSpace (rr_workloadSHA q)) in
      if negb (MatchAnchored validSHARe sha) then Err (ErrInvalidSHA sha)
      else if litestreamSHA =s "" then Err ErrLitestreamSHARequired
      else if imageRef =s "" then Err ErrImageRequired
      else if negb (workloadSHA =s "") && (negb (str_len workloadSHA =? 40)%Z || negb (MatchAnchored validSHARe workloadSHA)) then Err ErrWorkloadSHA
      else
        let target := Deployment_zero <| d_WorkloadSHA := workloadSHA |> <| d_GitSHA := sha |> <| d_LitestreamSHA := litestreamSHA |> <| d_ImageRef := imageRef |>
                        <| d_Source := source |> <| d_Repository := repository |> <| d_PRNumber := sourcePRNumber source |> <| d_Status := "ready" |> in
        match validateReadyDeploymentTarget target with Some err => Err err | None => Ok target end
  end.
Definition recordDeploymentReady (now : time) (q : readyRequest) (o : recordOutcome) (w : deployWorld) : deployWorld * result deployError Deployment :=
  match readyTarget q with
  | Err err => (w, Err err)
  | Ok target =>
      if oc_canceled o then (w, Err ErrContext)
      else
        let '(gates, pinned) :=
          if isGateSource (d_Source target)
          then pinRCGateDeployment (dy_gates w) (d_Source target) (d_GitSHA target) (d_LitestreamSHA target) (d_ImageRef target) now
          else (dy_gates w, Ok (d_ImageRef target)) in
        let w := w <| dy_gates := gates |> in
        match pinned with
        | Err err => (w, Err (ErrGatePin err))
        | Ok imageRef =>
            let target := target <| d_ImageRef := imageRef |> in
            match oc_upsert o with
            | Some err => (w, Err (ErrStorage err))
            | None =>
                match UpsertReadyDeploymentContext now target (dy_table w) with
                | Err err => (w, Err err)
                | Ok (table, target) =>
                    let w := w <| dy_table := table |> in
                    match oc_event o with
                    | Some err => (w, Err (ErrStorage err))
                    | None =>
                        let trigger := GateFleet.firstNonEmpty [TrimSpace (rr_trigger q); "deploy_ready"] in
                        (w <| dy_events ::= fun l => l ++ [("deploy_ready_received",
                           "Image ready for soak " +:+ LifecyclePolicy.trimSHA (d_GitSHA target) +:+ " / litestream " +:+ LifecyclePolicy.shortVersionValue (d_LitestreamSHA target) +:+
                           " via " +:+ trigger, imageRef)] |>, Ok target)
                    end
                end
            end
        end
  end.

(** * Rollouts *)

Definition clearRolloutPending (target : Deployment) (trace : list rolloutEvent) (w : deployWorld) : deployWorld :=
  if (d_ID target =? 0)%Z || (d_RolloutGeneration target =? 0)%Z then w
  else w <| dy_table ::= ClearRolloutPending (d_ID target) (d_RolloutGeneration target) |>
         <| dy_log ::= cons (d_ID target, d_RolloutGeneration target, trace) |>.

(** How a step ends: the fleet was brought up, an error, or the context is done. *)
Inductive stepOutcome := StepOk | StepFailed | StepCanceled.

(** A step of a rollout; [None] while its source is locked by another one, and a thread
    that has nothing left is gone. *)
Definition rolloutStep (n : nat) (o : stepOutcome) (r : rollout) (w : deployWorld) : option (deployWorld * option rollout) :=
  let target := ro_target r in
  let go pc evs := Some (w, Some (mkRollout target pc (evs ++ ro_trace r) (ro_queue r))) in
  let current := latestReadyDeploymentMatches (dy_table w) (d_Source target) (d_ImageRef target) (d_GitSHA target) (d_LitestreamSHA target) in
  let next w :=
    match ro_queue r, o with
    | [], _ => Some (w, None)
    | _, StepCanceled => Some (w, None)
    | deployment :: queue, _ => Some (w, Some (mkRollout deployment RLock [] queue))
    end in
  match ro_pc r with
  | RLock =>
      match o with
      | StepCanceled => next w
      | _ => match dy_locks w !! d_Source target with
             | Some _ => None
             | None => Some (w <| dy_locks ::= <[d_Source target := n]> |>, Some (mkRollout target RFirst [EvLocked] (ro_queue r)))
             end
      end
  | RFirst => match o with
              | StepOk => if current then go REnsure [EvCurrent] else go RClear [EvSuperseded]
              | _ => go RUnlock []
              end
  | REnsure => match o with StepOk => go (RUpdate false) [EvEnsured] | StepFailed => go (RUpdate true) [] | StepCanceled => go RUnlock [] end
  | RUpdate failed => match o with StepOk => go (RSecond failed) [EvUpdated] | _ => go (RSecond true) [] end
  | RSecond failed => match o with
                      | StepOk => if current then go (RDormant failed) [EvCurrent] else go RClear [EvSuperseded]
                      | _ => go RUnlock []
                      end
  | RDormant failed => match o with StepOk => if failed then go RUnlock [] else go RClear [EvResumed] | _ => go RUnlock [] end
  | RClear => match o with
              | StepOk => Some (clearRolloutPending target (ro_trace r) w, Some (mkRollout target RUnlock (ro_trace r) (ro_queue r)))
              | _ => go RUnlock []
              end
  | RUnlock => next (w <| dy_locks ::= delete (d_Source target) |>)
  end.

Inductive deployAction :=
| DRecord (n : nat) (now : time) (q : readyRequest) (o : recordOutcome)
| DStep (n : nat) (o : stepOutcome)
| DCreate (now : time) (dep : Deployment)
| DUpdate (now : time) (id : Z) (status imageRef errMsg : string)
| DRestart
| DResume (n : nat).

(** [ResumePendingRollouts]. *)
Definition resumeRollout (w : deployWorld) : option rollout :=
  match ListRolloutPendingDeployments (dy_table w) with
  | [] => None
  | deployment :: queue => Some (mkRollout deployment RLock [] queue)
  end.
Definition setThread (n : nat) (r : option rollout) (w : deployWorld) : deployWorld :=
  w <| dy_threads ::= match r with Some r => <[n := r]> | None => delete n end |>.
Definition deployAct (a : deployAction) (w : deployWorld) : option deployWorld :=
  match a with
  | DRecord n now q o =>
      match dy_threads w !! n with
      | Some _ => None
      | None =>
          let '(w, r) := recordDeploymentReady now q o w in
          Some (match r with Ok target => setThread n (Some (mkRollout target RLock [] [])) w | Err _ => w end)
      end
  | DStep n o =>
      match dy_threads w !! n with
      | None => None
      | Some r => match rolloutStep n o r w with Some (w, r) => Some (setThread n r w) | None => None end
      end
  | DCreate now dep => Some (w <| dy_table := fst (CreateDeployment now dep (dy_table w)) |>)
  | DUpdate now id status imageRef errMsg => Some (w <| dy_table ::= UpdateDeployment now id status imageRef errMsg |>)
  | DRestart => Some (w <| dy_threads := ∅ |> <| dy_locks := ∅ |>)
  | DResume n => match dy_threads w !! n with Some _ => None | None => Some (setThread n (resumeRollout w) w) end
  end.
Fixpoint runDeploy (l : list deployAction) (w : deployWorld) : option deployWorld :=
  match l with [] => Some w | a :: l => match deployAct a w with Some w => runDeploy l w | None => None end end.
Definition freshDeploy (gates : gateTable) : deployWorld := mkDeployWorld (mkDepTable [] 0) gates [] ∅ ∅ [].

(** The rollout of a thread that runs alone, with every step a success. *)
Fixpoint runAlone (fuel n : nat) (w : deployWorld) : deployWorld :=
  match fuel with
  | O => w
  | S fuel => match deployAct (DStep n StepOk) w with Some w => runAlone fuel n w | None => w end
  end.
