(* ===== verification/DeployProofs.v ===== *)
(** Theorems about deployments and their rollouts ([Deploy]): no recorded rollout is lost, and
    a restart rolls out what was left. *)
From S2P Require Import Prelude GoStrings Regex Model GoTime GateFleet GateStore GateRegister SoakDB WorkerStore Rollout Lifecycle Deploy.

(** * The invariant *)

(** The rollout found itself superseded, or did all of its parts under the lock. *)
Definition handledTrace (trace : list rolloutEvent) : Prop :=
  (exists rest, trace = EvSuperseded :: rest) \/ trace = [EvResumed; EvCurrent; EvUpdated; EvEnsured; EvCurrent; EvLocked].
Definition traceOk (pc : rolloutPC) (trace : list rolloutEvent) : Prop :=
  match pc with
  | RFirst => trace = [EvLocked]
  | REnsure => trace = [EvCurrent; EvLocked]
  | RUpdate false => trace = [EvEnsured; EvCurrent; EvLocked]
  | RSecond false => trace = [EvUpdated; EvEnsured; EvCurrent; EvLocked]
  | RDormant false => trace = [EvCurrent; EvUpdated; EvEnsured; EvCurrent; EvLocked]
  | RClear => handledTrace trace
  | _ => True
  end.
Definition pastLock (pc : rolloutPC) : bool := match pc with RLock => false | _ => true end.

Definition rowHandled (log : list (Z * Z * list rolloutEvent)) (r : depRow) : Prop :=
  dr_pending r = false -> dr_generation r <> 0%Z -> exists trace, (dr_id r, dr_generation r, trace) ∈ log /\ handledTrace trace.
Record rowOk (seq : Z) (r : depRow) : Prop := {
  ro_gen : (0 <= dr_generation r)%Z;
  ro_pending : dr_pending r = true -> (0 < dr_generation r)%Z;
  ro_id : (0 < dr_id r <= seq)%Z
}.
Record tableOk (log : list (Z * Z * list rolloutEvent)) (t : depTable) : Prop := {
  to_seq : (0 <= dt_seq t)%Z;
  to_rows : Forall (fun r => rowOk (dt_seq t) r /\ rowHandled log r) (dt_rows t)
}.
Record DI (w : deployWorld) : Prop := {
  di_table : tableOk (dy_log w) (dy_table w);
  di_thread : forall n r, dy_threads w !! n = Some r -> traceOk (ro_pc r) (ro_trace r) /\ (pastLock (ro_pc r) = true -> dy_locks w !! d_Source (ro_target r) = Some n)
}.

(** ** The table *)

Lemma tableOk_update log id f t : tableOk log t -> (forall r, dr_id r = id -> rowOk (dt_seq t) r -> rowHandled log r -> rowOk (dt_seq t) (f r) /\ rowHandled log (f r)) ->
  tableOk log (updateRow id f t).
Proof.
  intros [H1 H2] Hf. split; [done|]. simpl. rewrite Forall_map. eapply Forall_impl; [exact H2|]. intros r [A B]. simpl.
  destruct (Z.eqb_spec (dr_id r) id); [by apply Hf|done].
Qed.
Lemma tableOk_insert log r t : tableOk log t -> (0 <= dr_generation r)%Z -> (dr_pending r = true -> (0 < dr_generation r)%Z) ->
  (dr_pending r = false -> dr_generation r = 0%Z) -> tableOk log (fst (insertDepRow r t)).
Proof.
  intros [H1 H2] Hg Hp Hn. split; simpl; [lia|]. apply Forall_app. split.
  - eapply Forall_impl; [exact H2|]. intros x [[A B C] D]. split; [split; [done|done|lia]|done].
  - constructor; [|done]. split; [split; simpl; [done|done|unfold dr_id; simpl; lia]|]. intros Hpf Hgn. by destruct Hgn; apply Hn.
Qed.
Lemma tableOk_upsert log now dep t t' dep' : tableOk log t -> UpsertReadyDeploymentContext now dep t = Ok (t', dep') -> tableOk log t'.
Proof.
  intros Ht H. unfold UpsertReadyDeploymentContext in H. destruct (deploymentSourceRepository t _) as [bound|]; [|done]. simpl in H.
  destruct (if negb (bound =s "") then _ else _) as [repository|]; [|done]. simpl in H. destruct (newestRow _) as [existing|].
  - injection H as <- _. apply tableOk_update; [done|]. intros r _ [A B C] D. split; [split; simpl; [lia|lia|done]|done].
  - injection H as <- _. by apply (tableOk_insert log (mkDepRow _ true 1)).
Qed.
Lemma tableOk_clear log id gen trace t : tableOk log t -> handledTrace trace -> tableOk ((id, gen, trace) :: log) (ClearRolloutPending id gen t).
Proof.
  intros [H1 H2] Htr. apply tableOk_update.
  - split; [done|]. eapply Forall_impl; [exact H2|]. intros r [A B]. split; [done|]. intros Hp Hg. destruct (B Hp Hg) as (tr & ? & ?). exists tr. split; [by apply elem_of_cons; right|done].
  - intros r Hid [A B C] D. destruct (Z.eqb_spec (dr_generation r) gen) as [Hg|Hg]; [|done]. split; [split; [done|by intros|done]|].
    intros _ _. exists trace. simpl. rewrite <- Hg, <- Hid. split; [apply elem_of_cons; by left|done].
Qed.

(** ** The steps *)

Lemma DI_thread n r w : DI w -> match r with
    | Some r => traceOk (ro_pc r) (ro_trace r) /\ (pastLock (ro_pc r) = true -> dy_locks w !! d_Source (ro_target r) = Some n)
    | None => True
    end -> DI (setThread n r w).
Proof.
  intros [H1 H2] Hr. split; [done|]. intros m q. simpl. destruct r as [r|].
  - intros [[<- <-]|[_ Hq]]%lookup_insert_Some; [done|by apply H2].
  - intros [_ Hq]%lookup_delete_Some. by apply H2.
Qed.
(** A change of the locks that the thread's own part does not need. *)
Lemma DI_locks n r w locks : DI w -> (forall s m, dy_locks w !! s = Some m -> m <> n -> locks !! s = Some m) ->
  match r with
  | Some r => traceOk (ro_pc r) (ro_trace r) /\ (pastLock (ro_pc r) = true -> locks !! d_Source (ro_target r) = Some n)
  | None => True
  end -> DI (setThread n r (w <| dy_locks := locks |>)).
Proof.
  intros [H1 H2] Hl Hr. split; [done|]. intros m q. simpl. destruct r as [r|].
  - intros [[<- <-]|[Hne Hq]]%lookup_insert_Some; [done|]. destruct (H2 m q Hq) as [A B]. split; [done|]. intros Hp. by apply Hl; [apply B|].
  - intros [Hne Hq]%lookup_delete_Some. destruct (H2 m q Hq) as [A B]. split; [done|]. intros Hp. by apply Hl; [apply B|].
Qed.

Lemma DI_step n o r w w' r' : DI w -> dy_threads w !! n = Some r -> rolloutStep n o r w = Some (w', r') -> DI (setThread n r' w').
Proof.
  intros HI Hr Hs. destruct (di_thread _ HI n r Hr) as [Htr Hlk]. destruct r as [target pc trace queue]. simpl in *. unfold rolloutStep in Hs. cbn [ro_pc ro_target ro_trace ro_queue] in Hs.
  assert (forall pc' tr, traceOk pc' tr -> pastLock pc = true -> DI (setThread n (Some (mkRollout target pc' tr queue)) w)) as Hgo.
  { intros pc' tr Ht Hp. apply DI_thread; [done|]. split; [done|]. intros _. by apply Hlk. }
  set (cur := latestReadyDeploymentMatches _ _ _ _ _) in Hs.
  destruct pc as [| | |failed|failed|failed| |].
  - assert (forall o', match queue, o' with [], _ => Some (w, None) | _, StepCanceled => Some (w, None) | d :: q, _ => Some (w, Some (mkRollout d RLock [] q)) end = Some (w', r') ->
      DI (setThread n r' w')) as Hnext. { intros o'. destruct queue, o'; intros [= <- <-]; by apply DI_thread. }
    destruct o; [| |by apply (Hnext StepCanceled)]; (destruct (dy_locks w !! d_Source target) eqn:E; [done|]; injection Hs as <- <-;
      apply DI_locks; [done|intros s m Hs Hne; rewrite lookup_insert_ne; [done|intros <-; congruence]|]; split; [done|intros _; apply lookup_insert_eq]).
  - destruct o; try destruct cur; injection Hs as <- <-; apply Hgo; simpl in *; try done; [by rewrite Htr|left; by eexists].
  - destruct o; injection Hs as <- <-; apply Hgo; simpl in *; try done. by rewrite Htr.
  - destruct o; injection Hs as <- <-; apply Hgo; try done. simpl. destruct failed; [done|]. simpl in Htr. by rewrite Htr.
  - destruct o; try destruct cur; injection Hs as <- <-; apply Hgo; try done; simpl; [destruct failed; [done|simpl in Htr; by rewrite Htr]|left; by eexists].
  - destruct o; try destruct failed; injection Hs as <- <-; apply Hgo; try done. simpl in *. right. by rewrite Htr.
  - destruct o; injection Hs as <- <-; [|by apply Hgo..]. apply DI_thread; [|split; [done|intros _; unfold clearRolloutPending; destruct (_ || _); by apply Hlk]].
    unfold clearRolloutPending. destruct (_ || _); [done|]. destruct HI as [H1 H2]. split; [by apply tableOk_clear|done].
  - assert (forall o', match queue, o' with [], _ => Some (w <| dy_locks ::= delete (d_Source target) |>, None) | _, StepCanceled => Some (w <| dy_locks ::= delete (d_Source target) |>, None)
      | d :: q, _ => Some (w <| dy_locks ::= delete (d_Source target) |>, Some (mkRollout d RLock [] q)) end = Some (w', r') -> DI (setThread n r' w')) as Hnext.
    { intros o'. assert (forall s m, dy_locks w !! s = Some m -> m <> n -> delete (d_Source target) (dy_locks w) !! s = Some m) as Hd.
      { intros s m Hsm Hne. rewrite lookup_delete_ne; [done|]. intros <-. specialize (Hlk eq_refl). congruence. }
      destruct queue, o'; intros [= <- <-]; by apply (DI_locks n _ w (delete (d_Source target) (dy_locks w))). }
    exact (Hnext o Hs).
Qed.

Lemma record_table now q o w w' r : recordDeploymentReady now q o w = (w', r) -> tableOk (dy_log w) (dy_table w) ->
  tableOk (dy_log w') (dy_table w') /\ dy_log w' = dy_log w /\ dy_threads w' = dy_threads w /\ dy_locks w' = dy_locks w.
Proof.
  intros H Ht. unfold recordDeploymentReady in H. destruct (readyTarget q) as [target|]; [|by injection H as <- <-]. destruct (oc_canceled o); [by injection H as <- <-|].
  destruct (if isGateSource _ then _ else _) as [gates [imageRef|]]; [|by injection H as <- <-]. destruct (oc_upsert o); [by injection H as <- <-|].
  destruct (UpsertReadyDeploymentContext _ _ _) as [[table target']|] eqn:Hu; [|by injection H as <- <-]. apply (tableOk_upsert (dy_log w)) in Hu; [|done].
  destruct (oc_event o); by injection H as <- <-.
Qed.
Lemma DI_act a w w' : DI w -> deployAct a w = Some w' -> DI w'.
Proof.
  intros HI Ha. destruct a as [n now q o|n o|now dep|now id status imageRef errMsg| |n]; simpl in Ha.
  - destruct (dy_threads w !! n); [done|]. destruct (recordDeploymentReady now q o w) as [w1 r] eqn:Hr. injection Ha as <-. destruct HI as [H1 H2].
    destruct (record_table _ _ _ _ _ _ Hr H1) as (A & B & C & D). assert (DI w1) as HI1 by (split; [done|by rewrite C, D]). destruct r; [by apply DI_thread|done].
  - destruct (dy_threads w !! n) as [r|] eqn:Hr; [|done]. destruct (rolloutStep n o r w) as [[w1 r1]|] eqn:Hs; [|done]. injection Ha as <-. by eapply DI_step.
  - injection Ha as <-. destruct HI as [H1 H2]. split; [|done]. by refine (tableOk_insert (dy_log w) (mkDepRow _ false 0) (dy_table w) H1 _ _ _).
  - injection Ha as <-. destruct HI as [H1 H2]. split; [|done]. apply tableOk_update; [done|]. intros r _ [A B C] D. split; [by split|done].
  - injection Ha as <-. destruct HI as [H1 H2]. split; [done|]. intros n r. simpl. by rewrite lookup_empty.
  - destruct (dy_threads w !! n); [done|]. injection Ha as <-. apply DI_thread; [done|]. unfold resumeRollout. by destruct (ListRolloutPendingDeployments _).
Qed.
Lemma DI_run l w w' : DI w -> runDeploy l w = Some w' -> DI w'.
Proof.
  revert w. induction l as [|a l IH]; intros w HI H; [by injection H as <-|]. simpl in H. destruct (deployAct a w) as [w1|] eqn:Ha; [|done]. eapply IH; [|done]. by eapply DI_act.
Qed.
Lemma DI_fresh gates : DI (freshDeploy gates).
Proof. split; [split; [done|by constructor]|]. intros n r H. simpl in H. by rewrite lookup_empty in H. Qed.

(** C17: In every interleaving of notifications, rollouts, their failures and cancellations, and
    restarts of the control plane, the pending flag of a recorded deployment is cleared only
    for the generation it was last recorded at, by a rollout of that very generation which
    either found a newer deployment of its source or, holding the source's lock, was current before and after, brought up the fleet,
    updated its workers and resumed the dormant ones without an error; and no two rollouts of
    a source hold its lock at once. *)
Theorem rollout_never_lost gates l w : runDeploy l (freshDeploy gates) = Some w ->
  (forall r, r ∈ dt_rows (dy_table w) -> dr_pending r = false -> dr_generation r <> 0%Z ->
    exists trace, (dr_id r, dr_generation r, trace) ∈ dy_log w /\ handledTrace trace) /\
  (forall n m r q, dy_threads w !! n = Some r -> dy_threads w !! m = Some q -> ro_pc r <> RLock -> ro_pc q <> RLock ->
    d_Source (ro_target r) = d_Source (ro_target q) -> n = m).
Proof.
  intros H. pose proof (DI_run _ _ _ (DI_fresh gates) H) as [[_ Hrows] Hth]. split.
  - intros r Hr. rewrite Forall_forall in Hrows. by apply (Hrows r Hr).
  - intros n m r q Hn Hm Hr Hq Hsrc. destruct (Hth n r Hn) as [_ A], (Hth m q Hm) as [_ B].
    assert (forall pc, pc <> RLock -> pastLock pc = true) as Hp by by intros []. specialize (A (Hp _ Hr)). specialize (B (Hp _ Hq)). congruence.
Qed.

(** * A restart resumes what was left *)

Definition clearOf (d : Deployment) (t : depTable) : depTable := ClearRolloutPending (d_ID d) (d_RolloutGeneration d) t.
(** A target that a rollout can clear. *)
Definition clearable (d : Deployment) : bool := negb ((d_ID d =? 0)%Z || (d_RolloutGeneration d =? 0)%Z).

(** The thread, the table and the locks of a world. *)
Definition stands (n : nat) (r : option rollout) (table : depTable) (locks : gmap string nat) (w : deployWorld) : Prop :=
  dy_threads w !! n = r /\ dy_table w = table /\ dy_locks w = locks.
Lemma alone_step n r w w1 r1 : dy_threads w !! n = Some r -> rolloutStep n StepOk r w = Some (w1, r1) ->
  exists w2, (forall m, runAlone (S m) n w = runAlone m n w2) /\ stands n r1 (dy_table w1) (dy_locks w1) w2.
Proof.
  intros Hn Hs. exists (setThread n r1 w1). split; [intros m; simpl; by rewrite Hn, Hs|]. split_and!; [|done|done].
  destruct r1; simpl; [apply lookup_insert_eq|apply lookup_delete_eq].
Qed.
(** A step that only moves the thread on. *)
Lemma alone_move n r table locks w r1 : stands n (Some r) table locks w ->
  (forall w, dy_table w = table -> dy_locks w = locks -> exists w1, rolloutStep n StepOk r w = Some (w1, r1) /\ dy_table w1 = table /\ dy_locks w1 = locks) ->
  exists w2, (forall m, runAlone (S m) n w = runAlone m n w2) /\ stands n r1 table locks w2.
Proof.
  intros (Hn & Ht & Hl) Hs. destruct (Hs w Ht Hl) as (w1 & Hw1 & <- & <-). by apply (alone_step n r w w1 r1).
Qed.

(** From the lock to the clearing of the flag. *)
Lemma alone_to_clear n d queue table locks w : stands n (Some (mkRollout d RFirst [EvLocked] queue)) table locks w ->
  exists k w' trace, k <= 5 /\ (forall m, runAlone (k + m) n w = runAlone m n w') /\ stands n (Some (mkRollout d RClear trace queue)) table locks w'.
Proof.
  intros H0. destruct (latestReadyDeploymentMatches table (d_Source d) (d_ImageRef d) (d_GitSHA d) (d_LitestreamSHA d)) eqn:Hcur.
  - destruct (alone_move n _ table locks w (Some (mkRollout d REnsure [EvCurrent; EvLocked] queue)) H0) as (w1 & R1 & S1).
    { intros x <- <-. exists x. unfold rolloutStep. simpl. by rewrite Hcur. }
    destruct (alone_move n _ table locks w1 (Some (mkRollout d (RUpdate false) [EvEnsured; EvCurrent; EvLocked] queue)) S1) as (w2 & R2 & S2); [intros x <- <-; by exists x|].
    destruct (alone_move n _ table locks w2 (Some (mkRollout d (RSecond false) [EvUpdated; EvEnsured; EvCurrent; EvLocked] queue)) S2) as (w3 & R3 & S3); [intros x <- <-; by exists x|].
    destruct (alone_move n _ table locks w3 (Some (mkRollout d (RDormant false) [EvCurrent; EvUpdated; EvEnsured; EvCurrent; EvLocked] queue)) S3) as (w4 & R4 & S4).
    { intros x <- <-. exists x. unfold rolloutStep. simpl. by rewrite Hcur. }
    destruct (alone_move n _ table locks w4 (Some (mkRollout d RClear [EvResumed; EvCurrent; EvUpdated; EvEnsured; EvCurrent; EvLocked] queue)) S4) as (w5 & R5 & S5); [intros x <- <-; by exists x|].
    exists 5, w5, [EvResumed; EvCurrent; EvUpdated; EvEnsured; EvCurrent; EvLocked]. split_and!; [done| |done]. intros m. simpl Nat.add. by rewrite R1, R2, R3, R4, R5.
  - destruct (alone_move n _ table locks w (Some (mkRollout d RClear [EvSuperseded; EvLocked] queue)) H0) as (w1 & R1 & S1).
    { intros x <- <-. exists x. unfold rolloutStep. simpl. by rewrite Hcur. }
    exists 1, w1, [EvSuperseded; EvLocked]. split_and!; [lia|exact R1|done].
Qed.

(** A rollout that runs alone takes at most eight steps. *)
Lemma alone_one n d queue table locks w : clearable d = true -> stands n (Some (mkRollout d RLock [] queue)) table locks w -> locks !! d_Source d = None ->
  exists k w', k <= 8 /\ (forall m, runAlone (k + m) n w = runAlone m n w') /\
    stands n (match queue with [] => None | d' :: queue => Some (mkRollout d' RLock [] queue) end) (clearOf d table) locks w'.
Proof.
  intros Hc (Hn & Ht & Hl) Hfree.
  assert (rolloutStep n StepOk (mkRollout d RLock [] queue) w = Some (w <| dy_locks ::= <[d_Source d := n]> |>, Some (mkRollout d RFirst [EvLocked] queue))) as Hs1.
  { unfold rolloutStep. simpl. by rewrite Hl, Hfree. }
  destruct (alone_step n _ w _ _ Hn Hs1) as (w1 & R1 & S1). simpl in S1. rewrite Ht, Hl in S1.
  destruct (alone_to_clear n d queue table _ w1 S1) as (k & w2 & trace & Hk & R2 & (Hn2 & Ht2 & Hl2)).
  destruct (alone_step n _ w2 (clearRolloutPending d trace w2) _ Hn2 eq_refl) as (w3 & R3 & (Hn3 & Ht3 & Hl3)).
  assert (dy_table (clearRolloutPending d trace w2) = clearOf d table /\ dy_locks (clearRolloutPending d trace w2) = <[d_Source d := n]> locks) as [Et El].
  { unfold clearRolloutPending. unfold clearable in Hc. destruct (_ || _); [done|]. simpl. by rewrite Ht2, Hl2. }
  rewrite Et in Ht3. rewrite El in Hl3. clear Et El.
  destruct (alone_step n (mkRollout d RUnlock trace queue) w3 (w3 <| dy_locks ::= delete (d_Source d) |>)
    (match queue with [] => None | d' :: queue => Some (mkRollout d' RLock [] queue) end) Hn3) as (w4 & R4 & (Hn4 & Ht4 & Hl4)); [by destruct queue|].
  exists (S (k + 2)), w4. split_and!; [lia| |split_and!; [done|by rewrite Ht4|]].
  - intros m. simpl Nat.add. rewrite R1, <- Nat.add_assoc, R2. simpl Nat.add. by rewrite R3, R4.
  - rewrite Hl4. simpl. rewrite Hl3, delete_insert_eq. by apply delete_id.
Qed.
Lemma alone_all n queue d table w fuel : Forall (fun d => clearable d = true) (d :: queue) -> stands n (Some (mkRollout d RLock [] queue)) table ∅ w ->
  8 * S (length queue) <= fuel -> dy_table (runAlone fuel n w) = fold_left (fun t d => clearOf d t) (d :: queue) table.
Proof.
  revert d table w fuel. induction queue as [|d' queue IH]; intros d table w fuel Hc Hs Hf; apply Forall_cons in Hc as [Hc Hcs];
    destruct (alone_one n d _ table ∅ w Hc Hs (lookup_empty _)) as (k & w' & Hk & R & Hs'); replace fuel with (k + (fuel - k)) by (simpl in Hf; lia); rewrite R.
  - destruct Hs' as (Hn & Ht & _). assert (forall m, runAlone m n w' = w') as -> by (intros []; [done|simpl; by rewrite Hn]). done.
  - rewrite (IH d' (clearOf d table) w'); [done|done|done|simpl in Hf |- *; lia].
Qed.

Definition clears (ds : list Deployment) (r : depRow) : bool := existsb (fun d => (d_ID d =? dr_id r)%Z && (d_RolloutGeneration d =? dr_generation r)%Z) ds.
Lemma fold_clear ds t : dt_rows (fold_left (fun t d => clearOf d t) ds t) = map (fun r => if clears ds r then r <| dr_pending := false |> else r) (dt_rows t).
Proof.
  revert t. induction ds as [|d ds IH]; intros t; [simpl; by rewrite map_id|]. cbn [fold_left]. rewrite IH. unfold clearOf, ClearRolloutPending, updateRow. simpl.
  rewrite map_map. apply map_ext. intros r. unfold clears at 2. simpl. fold (clears ds r). rewrite (Z.eqb_sym (d_ID d)), (Z.eqb_sym (d_RolloutGeneration d)).
  destruct (dr_id r =? d_ID d)%Z, (dr_generation r =? d_RolloutGeneration d)%Z; simpl; try done. change (clears ds (r <| dr_pending := false |>)) with (clears ds r). by destruct (clears ds r).
Qed.
Lemma fold_clear_all t : ListRolloutPendingDeployments (fold_left (fun t d => clearOf d t) (ListRolloutPendingDeployments t) t) = [].
Proof.
  unfold ListRolloutPendingDeployments at 1. rewrite fold_clear. set (ds := ListRolloutPendingDeployments t).
  assert (forall rows, (forall r, In r rows -> In r (dt_rows t)) ->
    List.filter (fun r => (d_Status (dr_dep r) =s "ready") && dr_pending r) (map (fun r => if clears ds r then r <| dr_pending := false |> else r) rows) = []) as H; [|by rewrite H].
  induction rows as [|r rows IH]; intros Hin; [done|]. simpl. rewrite IH by (intros; apply Hin; by right). destruct (clears ds r) eqn:Hc; [simpl; by rewrite andb_false_r|].
  destruct ((d_Status (dr_dep r) =s "ready") && dr_pending r) eqn:Hp; [|done]. exfalso. enough (clears ds r = true) by congruence.
  apply existsb_exists. exists ((dr_dep r) <| d_RolloutGeneration := dr_generation r |>). split; [|simpl; unfold dr_id; by rewrite !Z.eqb_refl].
  unfold ds, ListRolloutPendingDeployments. apply in_map_iff. exists r. split; [done|]. apply filter_In. split; [apply Hin; by left|done].
Qed.

Lemma runDeploy_app l1 l2 w : runDeploy (l1 ++ l2) w = match runDeploy l1 w with Some w => runDeploy l2 w | None => None end.
Proof. revert w. induction l1 as [|a l1 IH]; intros w; [done|]. simpl. destruct (deployAct a w); [apply IH|done]. Qed.
Lemma pending_clearable w : DI w -> Forall (fun d => clearable d = true) (ListRolloutPendingDeployments (dy_table w)).
Proof.
  intros [[_ H] _]. rewrite List.Forall_forall in H. apply List.Forall_forall. intros d Hd. apply in_map_iff in Hd as (r & <- & Hr).
  apply filter_In in Hr as [Hin Hp]. apply andb_true_iff in Hp as [_ Hp]. destruct (H r Hin) as [[A B C] _]. specialize (B Hp). unfold clearable. simpl. unfold dr_id in C.
  destruct (Z.eqb_spec (d_ID (dr_dep r)) 0); [lia|]. destruct (Z.eqb_spec (dr_generation r) 0); [lia|done].
Qed.

(** C26: After any history of notifications, rollouts and failures, a control plane that
    restarts and resumes the pending rollouts handles every one of them: when its steps
    succeed, it takes at most eight of them per pending deployment until none is pending. *)
Theorem restart_resumes_all gates l n w fuel : runDeploy (l ++ [DRestart; DResume n]) (freshDeploy gates) = Some w ->
  8 * length (ListRolloutPendingDeployments (dy_table w)) <= fuel -> ListRolloutPendingDeployments (dy_table (runAlone fuel n w)) = [].
Proof.
  rewrite runDeploy_app. destruct (runDeploy l (freshDeploy gates)) as [w0|] eqn:H0; [|done]. pose proof (DI_run _ _ _ (DI_fresh gates) H0) as HI.
  set (w1 := w0 <| dy_threads := ∅ |> <| dy_locks := ∅ |>). intros Hrun Hf.
  assert (w = setThread n (resumeRollout w1) w1) as -> by (cbn [runDeploy deployAct] in Hrun; simpl in Hrun; rewrite lookup_empty in Hrun; by injection Hrun).
  change (dy_table (setThread n (resumeRollout w1) w1)) with (dy_table w0) in Hf.
  pose proof (pending_clearable w0 HI) as Hc. pose proof (fold_clear_all (dy_table w0)) as Hall. unfold resumeRollout. change (dy_table w1) with (dy_table w0).
  destruct (ListRolloutPendingDeployments (dy_table w0)) as [|d queue] eqn:Hp.
  - assert (forall m, runAlone m n (setThread n None w1) = setThread n None w1) as -> by (intros []; [done|simpl; by rewrite delete_empty, lookup_empty]). exact Hp.
  - rewrite (alone_all n queue d (dy_table w0)); [exact Hall|done| |exact Hf]. split_and!; [simpl; apply lookup_insert_eq|done|done].
Qed.

(** Two versions are recorded and rolled out, the first is recorded again, and the
    control plane restarts before any rollout of that. *)
Definition shaA : string := "aaaaaaaaaaaaaaaaaaaaaaaaaaaaaaaaaaaaaaaa".
Definition shaB : string := "bbbbbbbbbbbbbbbbbbbbbbbbbbbbbbbbbbbbbbbb".
Definition demoReady (sha : string) : readyRequest := mkReady "main" sha "cccccccc" ("registry/app:sha-" +:+ sha +:+ "-ls-cccccccc") "" "" "".
Definition noFailure : recordOutcome := mkRecordOutcome false None None.
Definition demoHistory : list deployAction :=
  DRecord 0 (10 * Second) (demoReady shaA) noFailure :: repeat (DStep 0 StepOk) 8 ++ [DRecord 1 (20 * Second) (demoReady shaB) noFailure; DStep 1 StepOk; DStep 1 StepOk;
    DStep 1 StepFailed; DRecord 2 (30 * Second) (demoReady shaA) (mkRecordOutcome false None (Some "disk full"))].
Definition demoRows (w : deployWorld) : list (string * bool * Z) := map (fun r => (d_GitSHA (dr_dep r), dr_pending r, dr_generation r)) (dt_rows (dy_table w)).
Example demo_history : demoRows <$> runDeploy demoHistory (freshDeploy emptyTable) = Some [(shaA, true, 2%Z); (shaB, true, 1%Z)].
Proof. vm_compute. reflexivity. Qed.

Lemma rollout_never_lost_witness : exists w r trace, runDeploy (firstn 9 demoHistory) (freshDeploy emptyTable) = Some w /\ r ∈ dt_rows (dy_table w) /\
  (dr_id r, 1%Z, trace) ∈ dy_log w /\ handledTrace trace.
Proof.
  assert (demoRows <$> runDeploy (firstn 9 demoHistory) (freshDeploy emptyTable) = Some [(shaA, false, 1%Z)]) as Hrows by (vm_compute; reflexivity).
  destruct (runDeploy (firstn 9 demoHistory) (freshDeploy emptyTable)) as [w|] eqn:Hrun; [|discriminate Hrows]. injection Hrows as Hrows.
  unfold demoRows in Hrows. destruct (dt_rows (dy_table w)) as [|r [|]] eqn:E; try discriminate Hrows. injection Hrows as _ Hp Hg.
  assert (r ∈ dt_rows (dy_table w)) as Hin by (rewrite E; apply elem_of_cons; by left).
  destruct (proj1 (rollout_never_lost emptyTable (firstn 9 demoHistory) w Hrun) r Hin Hp ltac:(rewrite Hg; lia)) as (trace & Hlog & Htr).
  exists w, r, trace. rewrite Hg in Hlog. split_and!; [reflexivity|exact Hin|exact Hlog|exact Htr].
Defined.

Lemma restart_resumes_all_witness : exists w, runDeploy (demoHistory ++ [DRestart; DResume 5]) (freshDeploy emptyTable) = Some w /\
  length (ListRolloutPendingDeployments (dy_table w)) = 2 /\ ListRolloutPendingDeployments (dy_table (runAlone 16 5 w)) = [].
Proof.
  assert ((fun w => length (ListRolloutPendingDeployments (dy_table w))) <$> runDeploy (demoHistory ++ [DRestart; DResume 5]) (freshDeploy emptyTable) = Some 2) as Hp by (vm_compute; reflexivity).
  destruct (runDeploy (demoHistory ++ [DRestart; DResume 5]) (freshDeploy emptyTable)) as [w|] eqn:Hrun; [|discriminate Hp]. injection Hp as Hp.
  exists w. split_and!; [reflexivity|exact Hp|]. apply (restart_resumes_all emptyTable demoHistory 5 w 16 Hrun). rewrite Hp. lia.
Defined.

(** A version that is recorded again after a newer one keeps its start, so its rollout
    takes the newer one for its successor: nothing is rolled out, and the record is marked as handled. *)
Example earlier_version_is_never_rolled_out :
  (fun w => (demoRows w, hd_error (dy_log w))) <$> runDeploy
    (DRecord 0 (10 * Second) (demoReady shaA) noFailure :: repeat (DStep 0 StepOk) 8 ++ DRecord 1 (20 * Second) (demoReady shaB) noFailure :: repeat (DStep 1 StepOk) 8 ++
     DRecord 2 (30 * Second) (demoReady shaA) noFailure :: repeat (DStep 2 StepOk) 4) (freshDeploy emptyTable) =
  Some ([(shaA, false, 2%Z); (shaB, false, 1%Z)], Some (1%Z, 2%Z, [EvSuperseded; EvLocked])).
Proof. vm_compute. reflexivity. Qed.
