(* ===== verification/Replacement.v ===== *)
(** Creating, replacing and resuming a worker: [createWorker], [replaceWorkerWithRequest], [RollWorker] and
    [rollingUpdateSourceLocked] of [orchestrator/manager.go], the resumption of dormant workers in
    [dormancy.go], and the fleet of [fleet.go] and [workload.go] that decides which workers are replaced.

    As in [WorkerManager], an operation holds the worker's lock and is one step: the loops over a
    source's workers run one body per worker, each a definition of its own, so that other steps can come between them.  What the
    platform answers during a step is its [replies]; metrics and alerts, and failures of the database
    other than a missing row or a taken machine id, are not modelled. *)
From S2P Require Import Prelude GoStrings Model GoTime GateFleet GateStore GateRegister SoakDB GateVerdict WorkerStore Provisioning WorkerManager.
From S2P Require Import Rollout LifecyclePolicy Lifecycle Deploy.

(** * The fleet *)

Definition maxConfigDriftReplacementsPerCycle : nat := 1.

Definition envFlagEnabled (value : string) : bool :=
  let value := TrimSpace (ToLower value) in (value =s "1") || (value =s "true") || (value =s "yes").
Definition withManyDBObserveProxy (observeEnv : string) (w : DesiredWorker) : DesiredWorker :=
  if envFlagEnabled observeEnv
  then w <| dw_Workload ::= (fun cfg => cfg <| c_S3FaultProxyEnabled := true |> <| c_S3FaultProxyMode := "observe" |>) |>
  else w.
Definition sentinelSingle : DesiredWorker :=
  DesiredWorker_zero <| dw_WorkerID := "worker-main-sentinel-single" |> <| dw_Name := "worker-main-sentinel-single" |>
    <| dw_Source := "main" |> <| dw_GitSHA := "main" |> <| dw_ProfileName := "sentinel-single" |> <| dw_Region := "ord" |> <| dw_VolumeSizeGB := 10%Z |>
    <| dw_Workload := Config_zero
        <| c_LoadMode := "synthetic" |> <| c_WriteRate := 10%Z |> <| c_Pattern := "constant" |> <| c_PayloadSize := 1024%Z |>
        <| c_ReadRatio := (f64_div (f64_of_Z 2) (f64_of_Z 10)) |> <| c_Workers := 1%Z |> <| c_InitialSize := "5MB" |> <| c_VerifyInterval := "30m" |>
        <| c_VerifyType := "integrity" |> <| c_SnapshotInterval := "10m" |> <| c_SyncInterval := "1s" |>
        <| c_VolumeSizeGB := 10%Z |> <| c_MemoryMB := 2048%Z |> <| c_CPUs := 1%Z |> |>.
Definition sentinelManyDB : DesiredWorker :=
  DesiredWorker_zero <| dw_WorkerID := "worker-main-sentinel-manydb" |> <| dw_Name := "worker-main-sentinel-manydb" |>
    <| dw_Source := "main" |> <| dw_GitSHA := "main" |> <| dw_ProfileName := "sentinel-manydb" |> <| dw_Region := "ord" |> <| dw_VolumeSizeGB := 10%Z |>
    <| dw_Workload := Config_zero
        <| c_LoadMode := "many-db" |> <| c_WriteRate := 20%Z |> <| c_Pattern := "constant" |> <| c_PayloadSize := 512%Z |>
        <| c_Workers := 2%Z |> <| c_InitialSize := "5MB" |> <| c_VerifyInterval := "30m" |> <| c_VerifyType := "integrity" |>
        <| c_SnapshotInterval := "10m" |> <| c_SyncInterval := "1s" |> <| c_NumDatabases := 100%Z |> <| c_ActivePercent := (f64_of_Z 2) |>
        <| c_ActiveRotateInterval := "30m" |> <| c_ActiveSetSeed := 1%Z |> <| c_ConfigMode := "dir" |> <| c_VerifySampleSize := 5%Z |>
        <| c_VerifyChangedLimit := 100%Z |> <| c_ReplicationLagThreshold := 0%Z |> <| c_L0RetentionCheckInterval := "2m" |>
        <| c_L1CompactionInterval := "5m" |> <| c_L2CompactionInterval := "15m" |> <| c_L3CompactionInterval := "1h" |>
        <| c_VolumeSizeGB := 10%Z |> <| c_MemoryMB := 2048%Z |> <| c_CPUs := 1%Z |> |>.
Definition baseMainFleet (observeEnv : string) : FleetSpec := mkFleetSpec [sentinelSingle; withManyDBObserveProxy observeEnv sentinelManyDB].
(** The loop body of [DefaultFleetForSource]. *)
Definition rewrittenForSource (source gitSHA litestreamSHA : string) (desired : DesiredWorker) : DesiredWorker :=
  desired <| dw_Source := source |>
    <| dw_GitSHA := (if TrimSpace gitSHA =s "" then dw_GitSHA desired else gitSHA) |>
    <| dw_LitestreamSHA := (if TrimSpace litestreamSHA =s "" then dw_LitestreamSHA desired else litestreamSHA) |>
    <| dw_PRNumber := sourcePRNumber source |>
    <| dw_WorkerID := workerNameForSource source (GateFleet.firstNonEmpty [dw_WorkerID desired; dw_Name desired]) |>
    <| dw_Name := workerNameForSource source (dw_Name desired) |>.
Definition namesWorker (id name : string) (desired : DesiredWorker) : bool :=
  (dw_WorkerID desired =s id) || (dw_WorkerID desired =s name) || (dw_Name desired =s id) || (dw_Name desired =s name).
Definition desiredWorkerFor (w : Worker) (spec : FleetSpec) : option DesiredWorker := List.find (namesWorker (w_ID w) (w_Name w)) (fs_Workers spec).

Record WorkerRequest := mkWorkerRequest {
  wr_WorkerID : string; wr_Name : string; wr_Source : string; wr_GitSHA : string; wr_LitestreamSHA : string; wr_PRNumber : Z;
  wr_ProfileName : string; wr_ImageRef : string; wr_Region : string; wr_VolumeSizeGB : Z; wr_ExpiresAt : option time; wr_Workload : Config
}.

Inductive replaceError :=
| RepNoWorker
| RepHeld (name : string)
| RepGate (e : gateError)
| RepMarshal
| RepStore (e : storeError)
| RepProvision (e : provError)
| RepUnresolved                                    (** reconcile unresolved provisioning before replacement *)
| RepPlatform (what : string) (e : flyError)
| RepTarget (e : deployError)
| RepMissing (what : string)
| RepSource (source wanted : string)
| RepAfter (resume recreate : replaceError).

(** What the platform answers during one step: the requests on the old resources, those for the new machine,
    both again when a dormant worker is recreated, and a fresh worker id. *)
Record replies := mkReplies { rp_cl : cleanup; rp_ans : answers; rp_recl : cleanup; rp_reans : answers; rp_uuid : string }.

Section Replacement.
Context `{Decoders} `{Platform}.
(** [json.Marshal] of a configuration; the text of an error. *)
Variables (marshalWorkloadConfig : Config -> option string) (errorText : replaceError -> string).
(** The app's name, and the environment: [SOAK_ENABLE_S3_OBSERVE_PROXY] and the sources with a metering window. *)
Variables (appName observeEnv meteringEnv : string).
Variables (flyVolumeName : string -> string) (retriableMachineCreateError : flyError -> bool).

Definition DefaultFleetForSource (source gitSHA litestreamSHA : string) : FleetSpec :=
  mkFleetSpec (withMeteringWindowObserveProxy meteringEnv
    (map (rewrittenForSource (GateFleet.firstNonEmpty [source; "main"]) gitSHA litestreamSHA) (fs_Workers (baseMainFleet observeEnv)))).
Definition defaultFleetDesiredWorker (source id name : string) : option DesiredWorker :=
  List.find (namesWorker id name) (fs_Workers (DefaultFleetForSource source "" "")).

Definition workerRequestForDesired (desired : DesiredWorker) (imageRef workerID : string) (expiresAt : option time) : result replaceError WorkerRequest :=
  let cfg := normalizeWorkloadConfig (dw_Workload desired) in
  let size := effectiveDesiredVolumeSize desired cfg in
  let cfg := cfg <| c_VolumeSizeGB := size |> in
  match marshalWorkloadConfig cfg with
  | None => Err RepMarshal
  | Some _ =>
      Ok (mkWorkerRequest (GateFleet.firstNonEmpty [workerID; dw_WorkerID desired; dw_Name desired]) (dw_Name desired)
            (GateFleet.firstNonEmpty [dw_Source desired; "main"]) (GateFleet.firstNonEmpty [dw_GitSHA desired; "main"]) (TrimSpace (dw_LitestreamSHA desired))
            (dw_PRNumber desired) (dw_ProfileName desired) imageRef (normalizedWorkerRegion (dw_Region desired)) size expiresAt cfg)
  end.

Definition workerMatchesDesiredSpec (w : Worker) (desired : DesiredWorker) : result replaceError bool :=
  let wanted := normalizeWorkloadConfig (dw_Workload desired) in
  let size := effectiveDesiredVolumeSize desired wanted in
  match marshalWorkloadConfig (wanted <| c_VolumeSizeGB := 0%Z |>) with
  | None => Err RepMarshal
  | Some wantedJSON =>
      if negb (GateFleet.firstNonEmpty [TrimSpace (w_Source w); "main"] =s GateFleet.firstNonEmpty [TrimSpace (dw_Source desired); "main"]) then Ok false
      else if negb (w_PRNumber w =? dw_PRNumber desired)%Z then Ok false
      else if negb (TrimSpace (w_ProfileName w) =s TrimSpace (dw_ProfileName desired)) then Ok false
      else if negb (normalizedWorkerRegion (w_Region w) =s normalizedWorkerRegion (dw_Region desired)) then Ok false
      else match ParseConfig (w_ProfileConfig w) with
      | None => Ok false
      | Some applied =>
          let applied := normalizeWorkloadConfig applied in
          if negb (effectiveAppliedVolumeSize applied =? size)%Z then Ok false
          else match marshalWorkloadConfig (applied <| c_VolumeSizeGB := 0%Z |>) with
               | None => Err RepMarshal
               | Some appliedJSON => Ok (appliedJSON =s wantedJSON)
               end
      end
  end.
Definition workerPhysicalSpecMatchesDesired (w : Worker) (desired : DesiredWorker) : bool :=
  if negb (normalizedWorkerRegion (w_Region w) =s normalizedWorkerRegion (dw_Region desired)) then false
  else match ParseConfig (w_ProfileConfig w) with
  | None => false
  | Some applied => (effectiveAppliedVolumeSize (normalizeWorkloadConfig applied) =? effectiveDesiredVolumeSize desired (normalizeWorkloadConfig (dw_Workload desired)))%Z
  end.

Definition replacementRequest (w : Worker) (imageRef gitSHA litestreamSHA : string) : result replaceError WorkerRequest :=
  match defaultFleetDesiredWorker (w_Source w) (w_ID w) (w_Name w) with
  | Some desired => workerRequestForDesired (desired <| dw_GitSHA := gitSHA |> <| dw_LitestreamSHA := litestreamSHA |>) imageRef (w_ID w) (w_ExpiresAt w)
  | None =>
      let cfg := resolveWorkerWorkload w in
      match marshalWorkloadConfig (normalizeWorkloadConfig cfg) with
      | None => Err RepMarshal
      | Some _ => Ok (mkWorkerRequest (w_ID w) (w_Name w) (w_Source w) gitSHA litestreamSHA (w_PRNumber w) (w_ProfileName w) imageRef (w_Region w)
                        (resolveWorkerVolumeSize w) (w_ExpiresAt w) cfg)
      end
  end.

(** * Creating a worker *)

Definition newWorkerRecord (uuid : string) (req : WorkerRequest) (profileConfig : string) : Worker :=
  Worker_zero <| w_ID := (if TrimSpace (wr_WorkerID req) =s "" then uuid else TrimSpace (wr_WorkerID req)) |> <| w_AppName := appName |> <| w_Name := wr_Name req |>
    <| w_Status := WorkerPending |> <| w_Source := wr_Source req |> <| w_GitSHA := wr_GitSHA req |> <| w_LitestreamSHA := wr_LitestreamSHA req |>
    <| w_PRNumber := wr_PRNumber req |> <| w_ProfileName := wr_ProfileName req |> <| w_ProfileConfig := profileConfig |>
    <| w_Region := (if wr_Region req =s "" then "ord" else wr_Region req) |> <| w_ExpiresAt := wr_ExpiresAt req |>.

Definition on_pd {A} (f : provDB -> A * provDB) (m : manager) : A * manager :=
  let '(r, pd) := f (mg_pd m) in (r, m <| mg_pd := pd |>).
(** The driver run to its end. *)
Definition provisioned (pc : resumePoint) : result replaceError Worker :=
  match pc with RDone (Ok w) => Ok w | RDone (Err e) => Err (RepProvision e) | _ => Err (RepProvision Provisioning.ErrNotReady) end.
Definition createWorker (ans : answers) (uuid : string) (m : manager) (req : WorkerRequest) : result replaceError Worker * manager :=
  let now := an_now ans in
  let id := TrimSpace (wr_WorkerID req) in
  match (if id =s "" then None else match GetWorker (mg_workers m) id with Ok existing => if EvidenceHeld existing then Some existing else None | Err _ => None end) with
  | Some existing => (Err (RepHeld (w_Name existing)), m)
  | None =>
      match checkRCGateProvisioning meteringEnv (pd_gates (mg_pd m)) (wr_Source req) (wr_ProfileName req) (wr_ImageRef req) (wr_LitestreamSHA req) now with
      | Err e => (Err (RepGate e), m)
      | Ok _ =>
          let cfg := normalizeWorkloadConfig (wr_Workload req) in
          match marshalWorkloadConfig cfg with
          | None => (Err RepMarshal, m)
          | Some profileConfig =>
              let worker := newWorkerRecord uuid req profileConfig in
              match CreateWorker now worker (mg_workers m) with
              | Err e => (Err (RepStore e), m)
              | Ok tbl =>
                  let m := on_workers (fun _ => tbl) m in
                  let m := on_db (RecordEvent now (w_ID worker) "worker_creating" ("Creating worker " +:+ wr_Name req +:+ " with profile " +:+ wr_ProfileName req) "") m in
                  let '(attempt, m) := on_pd (fun pd => beginWorkerProvisioning ans pd worker (wr_ImageRef req) (Some (wr_VolumeSizeGB req))) m in
                  match attempt with
                  | Err e => (Err (RepProvision e), m)
                  | Ok a =>
                      let '(pc, m) := on_pd (fun pd => resumeWorkerProvisioning ans flyVolumeName retriableMachineCreateError pd worker a cfg false) m in
                      (provisioned pc, m)
                  end
              end
          end
      end
  end.

(** * Replacing a worker *)

Definition supersededProvisioning (w : Worker) (attempt : option ProvisioningAttempt) (imageRef gitSHA litestreamSHA : string) : bool :=
  match attempt with
  | None => false
  | Some a =>
      if status_in [WorkerPending] w || negb (pa_Phase a =s "machine_ready") then false
      else if (pa_MachineID a =s "") || negb (pa_MachineID a =s w_FlyMachineID w) || (pa_VolumeID a =s "") || negb (pa_VolumeID a =s w_FlyVolumeID w) then false
      else if negb (pa_GitSHA a =s w_GitSHA w) || negb (pa_LitestreamSHA a =s w_LitestreamSHA w) then false
      else negb (pa_ImageRef a =s imageRef) || negb (pa_GitSHA a =s gitSHA) || negb (pa_LitestreamSHA a =s litestreamSHA)
  end.
Definition clearOldWorkerReplicaPrefix (cl : cleanup) (m : manager) (w : Worker) : manager :=
  if TrimSpace (w_FlyVolumeID w) =s "" then m else snd (clearWorkerReplicaPrefix cl m w).

(** The old machine is stopped, then destroyed; one that is already gone is neither. *)
Definition removeOldMachine (cl : cleanup) (m : manager) (w : Worker) : option replaceError * manager :=
  if w_FlyMachineID w =s "" then (None, m)
  else
    let m := call (w_ID w) (StopMachine (w_FlyMachineID w)) m in
    match cl_stop cl (w_FlyMachineID w) with
    | Some e => (if IsNotFound e then None else Some (RepPlatform "stop machine for update" e), m)
    | None =>
        let m := call (w_ID w) (DestroyMachine (w_FlyMachineID w)) m in
        (match refused (cl_machine cl (w_FlyMachineID w)) with Some e => Some (RepPlatform "destroy old machine" e) | None => None end, m)
    end.
(** A destroy request that takes "not found" for success. *)
Definition destroyOld (what id : string) (c : cleanupCall) (answer : option flyError) (m : manager) (w : Worker) : option replaceError * manager :=
  if id =s "" then (None, m)
  else (match refused answer with Some e => Some (RepPlatform what e) | None => None end, call (w_ID w) c m).

Definition replaceWorkerWithRequest (rp : replies) (m : manager) (w : Worker) (req : WorkerRequest) : result replaceError Worker * manager :=
  let cl := rp_cl rp in
  if EvidenceHeld w then (Err (RepHeld (w_Name w)), m)
  else match checkRCGateProvisioning meteringEnv (pd_gates (mg_pd m)) (GateFleet.firstNonEmpty [wr_Source req; w_Source w])
               (GateFleet.firstNonEmpty [wr_ProfileName req; w_ProfileName w]) (wr_ImageRef req) (wr_LitestreamSHA req) (cl_now cl) with
  | Err e => (Err (RepGate e), m)
  | Ok _ =>
      let attempt := ActiveProvisioning (mg_pd m) (w_ID w) in
      let '(attempt, m) :=
        match attempt with
        | Some a =>
            if supersededProvisioning w attempt (wr_ImageRef req) (wr_GitSHA req) (wr_LitestreamSHA req)
            then let '(r, m) := on_pd (fun pd => AbandonProvisioning (cl_now cl) pd a
                                  (provisioningEvent w a "worker_provisioning_superseded" "Superseded unresolved provisioning from an older deployment before replacement" None)) m in
                 (match r with Ok _ => Ok None | Err e => Err (RepProvision e) end, m)
            else (Ok (Some a), m)
        | None => (Ok None, m)
        end in
      match attempt with
      | Err e => (Err e, m)
      | Ok (Some _) => (Err RepUnresolved, m)
      | Ok None =>
          if status_in [WorkerPending] w then (Err RepUnresolved, m)
          else match marshalWorkloadConfig (normalizeWorkloadConfig (wr_Workload req)) with
          | None => (Err RepMarshal, m)
          | Some _ =>
              let m := event cl (w_ID w) "rolling_update" ("Updating " +:+ w_Name w +:+ " from soak " +:+ shortVersionValue (w_GitSHA w) +:+ " / litestream " +:+
                shortVersionValue (w_LitestreamSHA w) +:+ " to soak " +:+ shortVersionValue (wr_GitSHA req) +:+ " / litestream " +:+ shortVersionValue (wr_LitestreamSHA req)) "" m in
              let '(e, m) := removeOldMachine cl m w in
              match e with
              | Some e => (Err e, m)
              | None =>
                  let '(e, m) := destroyOld "destroy old worker volume" (w_FlyVolumeID w) (DestroyVolume (w_FlyVolumeID w)) (cl_volume cl (w_FlyVolumeID w)) m w in
                  match e with
                  | Some e => (Err e, m)
                  | None => createWorker (rp_ans rp) (rp_uuid rp) (clearOldWorkerReplicaPrefix cl m w) req
                  end
              end
          end
      end
  end.
Definition replaceWorker (rp : replies) (m : manager) (w : Worker) (imageRef gitSHA litestreamSHA : string) : result replaceError Worker * manager :=
  match replacementRequest w imageRef gitSHA litestreamSHA with
  | Err e => (Err e, m)
  | Ok req => replaceWorkerWithRequest rp m w req
  end.

(** The deployments as [Deploy] keeps them. *)
Definition deploymentTable (m : manager) : depTable := mkDepTable (map (fun d => mkDepRow d false 0) (db_deployments (pd_db (mg_pd m)))) 0.
Definition RollWorker (rp : replies) (m : manager) (id imageRef gitSHA litestreamSHA : string) : result replaceError Worker * manager :=
  match load m id with
  | Err _ => (Err RepNoWorker, m)
  | Ok w =>
      match resolveReadyDeploymentTarget (deploymentTable m) (w_Source w) imageRef gitSHA litestreamSHA with
      | Err e => (Err (RepTarget e), m)
      | Ok d => replaceWorker rp m w (d_ImageRef d) (d_GitSHA d) (d_LitestreamSHA d)
      end
  end.

(** * A rolling update *)

(** The body of the loop of [rollingUpdateSourceLocked], under the worker's lock: whether the worker was put off, and the
    replacements of this cycle that only the configuration called for. *)
Definition rollOne (rp : replies) (m : manager) (source imageRef gitSHA litestreamSHA id : string) (drift : nat)
  : result replaceError bool * nat * manager :=
  if negb (latestReadyDeploymentMatches (deploymentTable m) source imageRef gitSHA litestreamSHA) then (Ok false, drift, m)
  else match load m id with
  | Err _ => (Err RepNoWorker, drift, m)
  | Ok w =>
      if status_in [WorkerStopped; WorkerFailed; WorkerDormant] w || EvidenceHeld w then (Ok false, drift, m)
      else
        let deploymentMatches := workerMatchesDeployment w (Deployment_zero <| d_GitSHA := gitSHA |> <| d_LitestreamSHA := litestreamSHA |>) in
        let replaced '((r, m) : result replaceError Worker * manager) drift := (match r with Ok _ => Ok false | Err e => Err e end, drift, m) in
        match desiredWorkerFor w (DefaultFleetForSource source gitSHA litestreamSHA) with
        | None => if deploymentMatches then (Ok false, drift, m) else replaced (replaceWorker rp m w imageRef gitSHA litestreamSHA) drift
        | Some desired =>
            match workerMatchesDesiredSpec w desired with
            | Err e => (Err e, drift, m)
            | Ok specMatches =>
                if deploymentMatches && specMatches then (Ok false, drift, m)
                else match workerRequestForDesired desired imageRef (w_ID w) (w_ExpiresAt w) with
                | Err e => (Err e, drift, m)
                | Ok req =>
                    if deploymentMatches && (maxConfigDriftReplacementsPerCycle <=? drift) then (Ok true, drift, m)
                    else replaced (replaceWorkerWithRequest rp m w req) (if deploymentMatches then S drift else drift)
                end
            end
        end
  end.
(** The replies are those of each worker's turn; the errors are kept with the worker's name. *)
Definition rollingUpdateSourceLocked (rp : string -> replies) (m : manager) (source imageRef gitSHA litestreamSHA : string)
  : list (string * replaceError) * manager :=
  if negb (latestReadyDeploymentMatches (deploymentTable m) source imageRef gitSHA litestreamSHA) then ([], m)
  else
    let '(_, errors, m) := fold_left (fun '(drift, errors, m) listed =>
        let '(r, drift, m) := rollOne (rp (w_ID listed)) m source imageRef gitSHA litestreamSHA (w_ID listed) drift in
        (drift, match r with Ok _ => errors | Err e => errors ++ [(w_Name listed, e)] end, m))
      (ListWorkersForSource (mg_workers m) source) (O, [], m) in
    (errors, m).
Definition RollingUpdateSource (rp : string -> replies) (m : manager) (source imageRef gitSHA litestreamSHA : string)
  : list (string * replaceError) * manager :=
  rollingUpdateSourceLocked rp m (GateFleet.firstNonEmpty [TrimSpace source; "main"]) imageRef gitSHA litestreamSHA.

(** * Dormant workers *)

(** The end of both ways of starting a probe. *)
Definition probeStarted (cl : cleanup) (m : manager) (id how gitSHA litestreamSHA trigger imageRef : string) : manager :=
  let m := on_workers (MarkWorkerProbing (cl_now cl) id trigger) m in
  event cl id "worker_probe_started" ("Worker " +:+ how +:+ " for probe on soak " +:+ shortVersionValue gitSHA +:+ " / litestream " +:+
    shortVersionValue litestreamSHA +:+ " (" +:+ trigger +:+ ")") imageRef m.

Definition recreateDormantWorkerForProbeLocked (rp : replies) (m : manager) (w : Worker) (req : WorkerRequest) (trigger resumeErr : string)
  : option replaceError * manager :=
  let cl := rp_recl rp in
  let '(e, m) := destroyOld "destroy stale dormant machine" (w_FlyMachineID w) (DestroyMachine (w_FlyMachineID w)) (cl_machine cl (w_FlyMachineID w)) m w in
  match e with
  | Some e => (Some e, m)
  | None =>
      let '(e, m) := destroyOld "destroy stale dormant volume" (w_FlyVolumeID w) (DestroyVolume (w_FlyVolumeID w)) (cl_volume cl (w_FlyVolumeID w)) m w in
      match e with
      | Some e => (Some e, m)
      | None =>
          let m := event cl (w_ID w) "worker_probe_recreate" ("Recreating dormant worker with a fresh volume: " +:+ resumeErr) (wr_ImageRef req) m in
          match createWorker (rp_reans rp) (rp_uuid rp) m req with
          | (Err e, m) => (Some e, m)
          | (Ok _, m) => (None, probeStarted cl m (w_ID w) "recreated" (wr_GitSHA req) (wr_LitestreamSHA req) trigger (wr_ImageRef req))
          end
      end
  end.

Definition resolveWorkerVolumeID (rp : replies) (m : manager) (w : Worker) : result replaceError string * manager :=
  if negb (w_FlyVolumeID w =s "") then (Ok (w_FlyVolumeID w), m)
  else if w_FlyMachineID w =s "" then (Err (RepMissing "worker has no machine or volume to resume"), m)
  else match an_previous (rp_ans rp) with
  | Err e => (Err (RepPlatform "worker has no volume to resume" e), m)
  | Ok machine =>
      match List.find (fun mount => negb (mt_Volume mount =s "")) (fm_Mounts machine) with
      | None => (Err (RepMissing "worker has no mounted volume in machine config"), m)
      | Some mount =>
          match UpdateWorkerMachine (cl_now (rp_cl rp)) (w_ID w) (w_FlyMachineID w) (mt_Volume mount) (mg_workers m) with
          | Err e => (Err (RepStore e), m)
          | Ok tbl => (Ok (mt_Volume mount), on_workers (fun _ => tbl) m)
          end
      end
  end.

(** The rows a resumed worker's machine is written to. *)
Definition bindResumed (cl : cleanup) (m : manager) (w : Worker) (machineID volumeID gitSHA litestreamSHA trigger imageRef : string) (req : WorkerRequest)
  : option replaceError * manager :=
  match UpdateWorkerMachine (cl_now cl) (w_ID w) machineID volumeID (mg_workers m) with
  | Err e => (Some (RepStore e), m)
  | Ok tbl =>
      let m := on_workers (fun _ => tbl) m in
      match marshalWorkloadConfig (normalizeWorkloadConfig (wr_Workload req)) with
      | None => (Some RepMarshal, m)
      | Some profileConfig =>
          match UpdateWorkerMachineVersionAndConfig (cl_now cl) (w_ID w) machineID gitSHA litestreamSHA (wr_ProfileName req) profileConfig (mg_workers m) with
          | Err e => (Some (RepStore e), m)
          | Ok tbl => (None, probeStarted cl (on_workers (fun _ => tbl) m) (w_ID w) "resumed" gitSHA litestreamSHA trigger imageRef)
          end
      end
  end.

Definition resumeDormantWorkerLocked (rp : replies) (m : manager) (w : Worker) (imageRef gitSHA litestreamSHA trigger : string)
  : option replaceError * manager :=
  let cl := rp_cl rp in
  if EvidenceHeld w then (Some (RepHeld (w_Name w)), m)
  else match checkRCGateProvisioning meteringEnv (pd_gates (mg_pd m)) (w_Source w) (w_ProfileName w) (TrimSpace imageRef) litestreamSHA (cl_now cl) with
  | Err e => (Some (RepGate e), m)
  | Ok _ =>
      let imageRef := TrimSpace imageRef in
      let gitSHA := TrimSpace gitSHA in
      let litestreamSHA := TrimSpace litestreamSHA in
      if imageRef =s "" then (Some (RepMissing "resume image is required"), m)
      else if gitSHA =s "" then (Some (RepMissing "resume git sha is required"), m)
      else if litestreamSHA =s "" then (Some (RepMissing "resume litestream sha is required"), m)
      else match replacementRequest w imageRef gitSHA litestreamSHA with
      | Err e => (Some e, m)
      | Ok req =>
          if match defaultFleetDesiredWorker (w_Source w) (w_ID w) (w_Name w) with Some desired => negb (workerPhysicalSpecMatchesDesired w desired) | None => false end
          then recreateDormantWorkerForProbeLocked rp m w req trigger "desired worker region or volume size changed"
          else
            match resolveWorkerVolumeID rp m w with
            | (Err e, m) => (Some e, m)
            | (Ok volumeID, m) =>
                let m := if w_FlyMachineID w =s "" then m else call (w_ID w) (DestroyMachine (w_FlyMachineID w)) m in
                let resumed := w <| w_GitSHA := gitSHA |> <| w_LitestreamSHA := litestreamSHA |> <| w_ProfileName := wr_ProfileName req |> <| w_Region := wr_Region req |> in
                match on_pd (fun pd => createWorkerMachine (rp_ans rp) retriableMachineCreateError pd resumed imageRef volumeID (wr_Workload req)) m with
                | (Err e, m) =>
                    let resumeErr := RepProvision e in
                    match recreateDormantWorkerForProbeLocked rp m w req trigger ("create probe machine: " +:+ errorText resumeErr) with
                    | (Some e, m) => (Some (RepAfter resumeErr e), m)
                    | (None, m) => (None, m)
                    end
                | (Ok machine, m) => bindResumed cl m w (fm_ID machine) volumeID gitSHA litestreamSHA trigger imageRef req
                end
            end
      end
  end.

Definition resumeDormantWorker (rp : replies) (m : manager) (id imageRef gitSHA litestreamSHA trigger : string) : option replaceError * manager :=
  match load m id with
  | Err _ => (Some RepNoWorker, m)
  | Ok current => if status_in [WorkerDormant] current then resumeDormantWorkerLocked rp m current imageRef gitSHA litestreamSHA trigger else (None, m)
  end.
(** The body of the loop of [resumeDormantWorkers]. *)
Definition resumeOne (rp : replies) (m : manager) (source : string) (listed : Worker) (imageRef gitSHA litestreamSHA trigger : string) : option replaceError * manager :=
  let workerSource := GateFleet.firstNonEmpty [TrimSpace (w_Source listed); "main"] in
  if negb (workerSource =s source) then (Some (RepSource workerSource source), m)
  else match resumeDormantWorker rp m (w_ID listed) imageRef gitSHA litestreamSHA trigger with
  | (Some e, m) => (Some e, event (rp_cl rp) (w_ID listed) "worker_probe_start_failed" (errorText e) imageRef m)
  | (None, m) => (None, m)
  end.
(** The errors of a loop over listed workers. *)
Definition overWorkers (body : Worker -> manager -> option replaceError * manager) (workers : list Worker) (m : manager) : list (string * replaceError) * manager :=
  fold_left (fun '(errors, m) listed =>
    let '(e, m) := body listed m in (match e with Some e => errors ++ [(w_ID listed, e)] | None => errors end, m)) workers ([], m).
Definition resumeDormantWorkers (rp : string -> replies) (m : manager) (source : string) (workers : list Worker) (imageRef gitSHA litestreamSHA trigger : string)
  : result replaceError (list (string * replaceError)) * manager :=
  match resolveReadyDeploymentTarget (deploymentTable m) source imageRef gitSHA litestreamSHA with
  | Err e => (Err (RepTarget e), m)
  | Ok d =>
      let '(errors, m) := overWorkers (fun listed m => resumeOne (rp (w_ID listed)) m source listed (d_ImageRef d) (d_GitSHA d) (d_LitestreamSHA d) trigger) workers m in
      (Ok errors, m)
  end.
Definition ResumeDormantWorkers (rp : string -> replies) (m : manager) (source imageRef gitSHA litestreamSHA trigger : string)
  : result replaceError (list (string * replaceError)) * manager :=
  let source := GateFleet.firstNonEmpty [TrimSpace source; "main"] in
  resumeDormantWorkers rp m source (ListDormantWorkers (mg_workers m) source) imageRef gitSHA litestreamSHA trigger.

(** The body of the loop of [resumeDeploymentDormantWorkers]. *)
Definition resumeDeploymentOne (rp : replies) (m : manager) (d : Deployment) (trigger : string) (onlyOutdated : bool) (id : string) : option replaceError * manager :=
  if negb (latestReadyDeploymentMatches (deploymentTable m) (d_Source d) (d_ImageRef d) (d_GitSHA d) (d_LitestreamSHA d)) then (None, m)
  else match load m id with
  | Err _ => (Some RepNoWorker, m)
  | Ok w =>
      if negb (status_in [WorkerDormant] w) || EvidenceHeld w || (onlyOutdated && workerMatchesDeployment w d) then (None, m)
      else resumeDormantWorkerLocked rp m w (d_ImageRef d) (d_GitSHA d) (d_LitestreamSHA d) trigger
  end.
Definition resumeDeploymentDormantWorkers (rp : string -> replies) (m : manager) (d : Deployment) (trigger : string) (onlyOutdated : bool)
  : list (string * replaceError) * manager :=
  overWorkers (fun listed m => resumeDeploymentOne (rp (w_ID listed)) m d trigger onlyOutdated (w_ID listed)) (ListDormantWorkers (mg_workers m) (d_Source d)) m.

(** * The desired fleet *)

Definition recoverPending (ans : answers) (m : manager) (id image : string) : option replaceError * manager :=
  let '(r, m) := on_pd (fun pd => recoverPendingWorker ans flyVolumeName retriableMachineCreateError meteringEnv pd id image) m in
  (match r with Ok _ => None | Err e => Some (RepProvision e) end, m).
(** The image of a pending worker of another deployment is that deployment's, and without it the recovery is refused. *)
Definition originalUnavailable (ans : answers) (m : manager) (w : Worker) : option replaceError * manager :=
  let '(e, m) := on_pd (fun pd => provisioningUnavailable ans pd w (legacyReport (w_ID w)) "Original pending deployment image is unavailable" (Some OtherError)) m in
  (Some (RepProvision e), m).
Definition recoverWithImage (ans : answers) (m : manager) (w : Worker) (attempt : option ProvisioningAttempt) (targets : bool) (imageRef : string)
  : option replaceError * manager :=
  match attempt with
  | Some a => recoverPending ans m (w_ID w) (pa_ImageRef a)
  | None =>
      if targets then recoverPending ans m (w_ID w) imageRef
      else match resolveReadyDeploymentTarget (deploymentTable m) (w_Source w) "" (w_GitSHA w) (w_LitestreamSHA w) with
      | Err _ => originalUnavailable ans m w
      | Ok d => recoverPending ans m (w_ID w) (d_ImageRef d)
      end
  end.
(** The body of the loop of [recoverSourcePendingWorkers]. *)
Definition recoverOne (ans : answers) (m : manager) (d : Deployment) (w : Worker) : option replaceError * manager :=
  let attempt := ActiveProvisioning (mg_pd m) (w_ID w) in
  if negb (status_in [WorkerPending] w) && negb (bool_decide (is_Some attempt)) then (None, m)
  else if supersededProvisioning w attempt (d_ImageRef d) (d_GitSHA d) (d_LitestreamSHA d) then (None, m)
  else recoverWithImage ans m w attempt (workerMatchesDeployment w d) (d_ImageRef d).
Definition recoverSourcePendingWorkers (rp : string -> replies) (m : manager) (source : string) (d : Deployment) : list (string * replaceError) * manager :=
  overWorkers (fun listed m => recoverOne (rp_ans (rp (w_ID listed))) m d listed) (ListWorkersForSource (mg_workers m) source) m.

Inductive ensured := EnStop | EnDone | EnDeferred | EnError (e : replaceError).
(** The part of the loop's body that holds the worker's lock. *)
Definition ensureReplaced (rp : replies) (m : manager) (desired : DesiredWorker) (imageRef id : string) (drift : nat) : ensured * nat * manager :=
  if negb (latestReadyDeploymentMatches (deploymentTable m) (GateFleet.firstNonEmpty [dw_Source desired; "main"]) imageRef (dw_GitSHA desired) (dw_LitestreamSHA desired))
  then (EnDone, drift, m)
  else match load m id with
  | Err _ => (EnError RepNoWorker, drift, m)
  | Ok w =>
      if status_in [WorkerStopped; WorkerFailed; WorkerDormant] w then (EnDone, drift, m)
      else match workerMatchesDesiredSpec w desired with
      | Err e => (EnError e, drift, m)
      | Ok specMatches =>
          let deploymentMatches := workerMatchesDeployment w (Deployment_zero <| d_GitSHA := dw_GitSHA desired |> <| d_LitestreamSHA := dw_LitestreamSHA desired |>) in
          if specMatches && deploymentMatches then (EnDone, drift, m)
          else match workerRequestForDesired desired imageRef (w_ID w) (w_ExpiresAt w) with
          | Err e => (EnError e, drift, m)
          | Ok req =>
              if deploymentMatches && (maxConfigDriftReplacementsPerCycle <=? drift) then (EnDeferred, drift, m)
              else
                let m := event (rp_cl rp) (w_ID w) "worker_spec_drift" ("Reconciling desired fleet spec for " +:+ w_Name w)
                  ("profile=" +:+ wr_ProfileName req +:+ " region=" +:+ wr_Region req +:+ " volume_size_gb=" +:+
                   pretty (effectiveDesiredVolumeSize desired (wr_Workload req))) m in
                let '(r, m) := replaceWorkerWithRequest rp m w req in
                (match r with Ok _ => EnDone | Err e => EnError e end, if deploymentMatches then S drift else drift, m)
          end
      end
  end.
(** The body of the loop of [ensureFleetSpec]: [current] is the worker of that name when the loop began. *)
Definition ensureOne (rp : replies) (m : manager) (desired : DesiredWorker) (imageRef : string) (current : option Worker) (drift : nat) : ensured * nat * manager :=
  let attempt := match current with Some w => ActiveProvisioning (mg_pd m) (w_ID w) | None => None end in
  if negb (latestReadyDeploymentMatches (deploymentTable m) (GateFleet.firstNonEmpty [dw_Source desired; "main"]) imageRef (dw_GitSHA desired) (dw_LitestreamSHA desired))
  then (EnStop, drift, m)
  else match current with
  | None =>
      match workerRequestForDesired desired imageRef "" None with
      | Err e => (EnError e, drift, m)
      | Ok req => let '(r, m) := createWorker (rp_ans rp) (rp_uuid rp) m req in (match r with Ok _ => EnDone | Err e => EnError e end, drift, m)
      end
  | Some w =>
      if EvidenceHeld w then (EnDone, drift, m)
      else if (status_in [WorkerPending] w || bool_decide (is_Some attempt)) &&
              negb (supersededProvisioning w attempt imageRef (dw_GitSHA desired) (dw_LitestreamSHA desired)) then
        let '(e, m) := recoverWithImage (rp_ans rp) m w attempt ((w_GitSHA w =s dw_GitSHA desired) && (w_LitestreamSHA w =s dw_LitestreamSHA desired)) imageRef in
        (match e with Some e => EnError e | None => EnDone end, drift, m)
      else if status_in [WorkerDormant] w then (EnDone, drift, m)
      else match workerMatchesDesiredSpec w desired with
      | Err e => (EnError e, drift, m)
      | Ok matches =>
          if matches && workerMatchesDeployment w (Deployment_zero <| d_GitSHA := dw_GitSHA desired |> <| d_LitestreamSHA := dw_LitestreamSHA desired |>)
          then (EnDone, drift, m)
          else ensureReplaced rp m desired imageRef (w_ID w) drift
      end
  end.
(** A later row of the same name takes the place of an earlier one. *)
Definition currentByName (workers : list Worker) : gmap string Worker :=
  fold_left (fun byName w => if inactive w && negb (EvidenceHeld w) then byName else <[w_Name w := w]> byName) workers ∅.
Fixpoint ensureAll (rp : string -> replies) (byName : gmap string Worker) (imageRef : string) (desired : list DesiredWorker) (drift : nat)
    (errors : list (string * replaceError)) (m : manager) : list (string * replaceError) * manager :=
  match desired with
  | [] => (errors, m)
  | d :: desired =>
      match ensureOne (rp (dw_Name d)) m d imageRef (byName !! dw_Name d) drift with
      | (EnStop, _, m) => (errors, m)
      | (EnError e, drift, m) => ensureAll rp byName imageRef desired drift (errors ++ [(dw_Name d, e)]) m
      | (_, drift, m) => ensureAll rp byName imageRef desired drift errors m
      end
  end.
Definition ensureFleetSpec (rp : string -> replies) (m : manager) (spec : FleetSpec) (imageRef : string) : list (string * replaceError) * manager :=
  ensureAll rp (currentByName (ListWorkersFiltered (pd_db (mg_pd m)) "" "")) imageRef (fs_Workers spec) O [] m.

Definition supportsDefaultFleetSource (source : string) : bool := (TrimSpace source =s "main") || (0 <? sourcePRNumber (TrimSpace source))%Z.
Definition EnsureSourceFleet (rp : string -> replies) (now : time) (m : manager) (source gitSHA litestreamSHA imageRef : string)
  : result replaceError (list (string * replaceError)) * manager :=
  if negb (isGateSource source) && negb (supportsDefaultFleetSource source) then (Ok [], m)
  else match resolveReadyDeploymentTarget (deploymentTable m) source imageRef gitSHA litestreamSHA with
  | Err e => (Err (RepTarget e), m)
  | Ok d =>
      let spec := if isGateSource source then rcGateFleetForSource meteringEnv (pd_gates (mg_pd m)) source (d_GitSHA d) (d_LitestreamSHA d) now
                  else Ok (DefaultFleetForSource source (d_GitSHA d) (d_LitestreamSHA d)) in
      match spec with
      | Err e => (Err (RepGate e), m)
      | Ok spec => let '(errors, m) := ensureFleetSpec rp m spec (d_ImageRef d) in (Ok errors, m)
      end
  end.
End Replacement.
