(* ===== verification/HoldProofs.v ===== *)
(** Evidence holds are honoured by every operation of the control plane that can end a worker: those of
    [WorkerManager], and the replacements, resumptions and recoveries of [Replacement] and [Provisioning]. *)
From S2P Require Import Prelude GoStrings Model GoTime GateFleet GateStore GateRegister SoakDB GateVerdict WorkerStore Provisioning WorkerManager.
From S2P Require Import Rollout LifecyclePolicy Lifecycle Deploy Replacement.

(** * Provisioning keeps holds *)

(** Every row is still there, with its hold and the hold's reason, and attempts were begun for no other worker than [who]. *)
Record holds_kept (who : string) (pd pd' : provDB) : Prop := {
  hk_row : forall id w, find_worker (pd_workers pd) id = Some w ->
    exists w', find_worker (pd_workers pd') id = Some w' /\ w_EvidenceHoldAt w' = w_EvidenceHoldAt w /\ w_EvidenceHoldReason w' = w_EvidenceHoldReason w;
  hk_begun : forall id, id <> who -> attemptsOf id (pd_attempts pd') = attemptsOf id (pd_attempts pd)
}.
#[export] Instance holds_kept_preorder who : PreOrder (holds_kept who).
Proof.
  split; [intros pd; split; [intros id w Hw; by exists w|done]|]. intros p q r [Hpq Apq] [Hqr Aqr]. split; [|intros id Hid; by rewrite Aqr, Apq]. intros id w Hw.
  destruct (Hpq id w Hw) as (w1 & H1 & A1 & R1). destruct (Hqr id w1 H1) as (w2 & H2 & A2 & R2). exists w2. split_and!; [done|congruence..].
Qed.
Lemma kept_same who pd pd' : pd_workers pd' = pd_workers pd -> pd_attempts pd' = pd_attempts pd -> holds_kept who pd pd'.
Proof. intros E1 E2. split; [intros id w Hw; exists w; by rewrite E1|intros id _; by rewrite E2]. Qed.
Lemma kept_attempts who pd p f :
  (forall b, pa_ID (f b) = pa_ID b /\ pa_WorkerID (f b) = pa_WorkerID b) -> holds_kept who pd (pd <| pd_attempts ::= update_attempts p f |>).
Proof. intros Hf. split; [intros id w Hw; by exists w|intros id _; by apply attemptsOf_update]. Qed.
Lemma kept_where who pd p f :
  (forall w, w_ID (f w) = w_ID w /\ w_EvidenceHoldAt (f w) = w_EvidenceHoldAt w /\ w_EvidenceHoldReason (f w) = w_EvidenceHoldReason w) ->
  holds_kept who pd (set_workers pd (update_where p f (pd_workers pd))).
Proof.
  intros Hf. split; [|done]. intros id w Hw. exists (if p w then f w else w). change (pd_workers (set_workers pd ?t)) with t. rewrite find_update, Hw by (intros x _; apply Hf).
  split; [done|]. destruct (p w); [apply Hf|done].
Qed.

Create HintDb kept.
(** The innermost scrutinee is looked at first: after a step the rows are kept up to it, and then by the rest. *)
Ltac kept_scrutinee e :=
  lazymatch e with
  | match ?x with _ => _ end => kept_scrutinee x
  | _ =>
      lazymatch type of e with
      | (_ * provDB)%type =>
          let K := fresh "K" in
          eassert (holds_kept _ _ (snd e)) as K by eauto with kept; destruct e as [? ?]; cbn [snd] in K; etransitivity; [exact K|]; clear K
      | _ => destruct e
      end
  end.
Ltac kept :=
  repeat (cbv beta iota zeta; cbn [fst snd]; first
    [ done | reflexivity | by apply kept_same | by eauto with kept
    | match goal with |- holds_kept _ _ (snd (match ?e with _ => _ end)) => kept_scrutinee e end ]).

Lemma kept_record_event who now pd id kind message details : holds_kept who pd (record_event now pd id kind message details).
Proof. by apply kept_same. Qed.
#[export] Hint Resolve kept_record_event : kept.
Lemma kept_fold_events who now id events pd : holds_kept who pd (fold_left (fun pd e => record_event now pd id (e_EventType e) (e_Message e) (e_Details e)) events pd).
Proof. revert pd. induction events as [|e events IH]; intros pd; [done|]. rewrite fold_left_cons. etransitivity; [apply kept_record_event|apply IH]. Qed.
Lemma kept_insert who pd a : who = pa_WorkerID a -> holds_kept who pd (insert_attempt pd a).
Proof.
  intros ->. unfold insert_attempt. destruct (insertable pd a); [|done]. split; [intros id w Hw; by exists w|]. intros id Hid. unfold attemptsOf. simpl.
  rewrite List.filter_app. simpl. apply not_eq_sym, eqs_false in Hid. by rewrite Hid, app_nil_r.
Qed.
Lemma kept_begin who pd a : who = pa_WorkerID a -> holds_kept who pd (snd (BeginProvisioning pd a)).
Proof. intros Hw. unfold BeginProvisioning. repeat case_match; by apply kept_insert. Qed.
Lemma kept_advance who pd a phase volume machine : holds_kept who pd (snd (AdvanceProvisioning pd a phase volume machine)).
Proof. by apply kept_attempts. Qed.
Lemma kept_advance' who pd a phase volume machine : holds_kept who pd (snd (advanceProvisioning pd a phase volume machine)).
Proof. by apply kept_attempts. Qed.
Lemma kept_expect who pd a identity : holds_kept who pd (snd (ExpectProvisioningRun pd a identity)).
Proof. unfold ExpectProvisioningRun. kept. Qed.
Lemma kept_save who p pd identity : holds_kept who pd (snd (saveIdentity p pd identity)).
Proof. destruct p; [apply kept_expect|by apply kept_same]. Qed.
Lemma kept_bind who now pd a : holds_kept who pd (snd (BindProvisioningMachine now pd a)).
Proof. unfold BindProvisioningMachine. kept. by apply kept_where. Qed.
Lemma kept_complete who now pd a events : holds_kept who pd (snd (CompleteProvisioning now pd a events)).
Proof.
  unfold CompleteProvisioning. kept. etransitivity; [|apply kept_fold_events].
  match goal with |- holds_kept _ _ (set_workers ?p1 _) => transitivity p1; [by apply kept_attempts|by apply (kept_where _ p1)] end.
Qed.
Lemma kept_abandon who now pd a e : holds_kept who pd (snd (AbandonProvisioning now pd a e)).
Proof. unfold AbandonProvisioning. kept. etransitivity; [|apply kept_record_event]. by apply kept_attempts. Qed.
#[export] Hint Resolve kept_begin kept_advance kept_advance' kept_expect kept_save kept_bind kept_complete kept_abandon : kept.

Section Provisioned.
Context `{Platform}.
Variables (ans : answers) (volumeName : string -> string) (retriable : flyError -> bool).

Lemma kept_recordProvisioning who pd w a kind message : holds_kept who pd (recordProvisioning ans pd w a kind message).
Proof. by apply kept_same. Qed.
Lemma kept_record who pd e : holds_kept who pd (record_provisioning ans pd e).
Proof. by apply kept_same. Qed.
Hint Resolve kept_recordProvisioning kept_record : kept.
Lemma kept_provisioningUnavailable who pd w a message cause : holds_kept who pd (snd (provisioningUnavailable ans pd w a message cause)).
Proof. by apply kept_same. Qed.
Hint Resolve kept_provisioningUnavailable : kept.
Lemma kept_unavailable who {A} pd w a message cause : holds_kept who pd (snd (unavailable (A := A) ans pd w a message cause)).
Proof. unfold unavailable. kept. Qed.
Lemma kept_beginWorker who pd w image size : who = w_ID w -> holds_kept who pd (snd (beginWorkerProvisioning ans pd w image size)).
Proof. intros ->. unfold beginWorkerProvisioning. kept. Qed.
Lemma kept_freshVolume who pd w id name reason source : holds_kept who pd (snd (createFreshVolume ans pd w id name reason source)).
Proof. unfold createFreshVolume. kept. Qed.
Hint Resolve kept_unavailable kept_beginWorker kept_freshVolume : kept.
Lemma kept_volume who pd w : holds_kept who pd (snd (createWorkerVolume ans volumeName pd w)).
Proof.
  unfold createWorkerVolume. kept; (etransitivity; [|apply kept_freshVolume]); by apply kept_same.
Qed.
Lemma kept_machineLoop who tries pd p id volume identity replies : holds_kept who pd (snd (createMachineLoop retriable tries pd p id volume identity replies)).
Proof.
  revert pd replies. induction tries as [|tries IH]; intros pd [|reply replies]; cbn [createMachineLoop]; try done. cbv zeta.
  match goal with |- holds_kept _ ?pd (snd ?t) => match t with context [saveIdentity _ ?pd1 _] => transitivity pd1; [by apply kept_same|] end end.
  destruct reply; kept.
Qed.
Hint Resolve kept_volume kept_machineLoop : kept.
Lemma kept_machine who pd w image volume cfg : holds_kept who pd (snd (createWorkerMachine ans retriable pd w image volume cfg)).
Proof. unfold createWorkerMachine. kept. Qed.
Lemma kept_finish who pd w a machine recovered : holds_kept who pd (snd (finishWorkerProvisioning ans pd w a machine recovered)).
Proof. unfold finishWorkerProvisioning. kept. Qed.
Lemma kept_claim who pd a phase volume machine next : holds_kept who pd (snd (claim_phase pd a phase volume machine next)).
Proof. unfold claim_phase. kept. Qed.
Lemma kept_failed who pd w a message e : holds_kept who pd (snd (provision_failed ans pd w a message e)).
Proof. unfold provision_failed. kept. Qed.
Hint Resolve kept_machine kept_finish kept_claim kept_failed : kept.
Lemma kept_step who w cfg recovered pc pd : holds_kept who pd (snd (resume_step ans volumeName retriable w cfg recovered pc pd)).
Proof. destruct pc; cbn [resume_step]; kept. Qed.
Lemma kept_run who fuel w cfg recovered pc pd : holds_kept who pd (snd (resume_run ans volumeName retriable fuel w cfg recovered pc pd)).
Proof.
  revert pc pd. induction fuel as [|fuel IH]; intros pc pd; [done|]. cbn [resume_run]. pose proof (kept_step who w cfg recovered pc pd) as K.
  destruct (resume_step _ _ _ _ _ _ _ _) as [pc1 pd1]. etransitivity; [exact K|apply IH].
Qed.
Lemma kept_resume who pd w a cfg recovered : holds_kept who pd (snd (resumeWorkerProvisioning ans volumeName retriable pd w a cfg recovered)).
Proof. apply kept_run. Qed.
Hint Resolve kept_resume : kept.
Lemma kept_observe who pd w a report volumes : holds_kept who pd (observeVolumes ans volumeName pd w a report volumes).
Proof.
  unfold observeVolumes. revert pd. induction volumes as [|v volumes IH]; intros pd; [done|]. rewrite fold_left_cons. etransitivity; [|apply IH].
  cbv zeta. match goal with |- holds_kept _ _ (if ?b then _ else _) => destruct b end; [apply kept_record|done].
Qed.
Lemma kept_discard who {A} pd (r : result provError A * provDB) : holds_kept who pd (snd r) -> holds_kept who pd (snd (discard r)).
Proof. by destruct r as [[] ?]. Qed.
Hint Resolve kept_observe kept_discard : kept.
Lemma kept_adoptLegacy who pd w report image expected machine volumes : who = w_ID w -> holds_kept who pd (snd (adoptLegacyMachine ans pd w report image expected machine volumes)).
Proof. intros ->. unfold adoptLegacyMachine. kept. Qed.
Lemma kept_beginAfter who pd w report image machines volumes : who = w_ID w -> holds_kept who pd (snd (beginAfterLegacy ans volumeName pd w report image machines volumes)).
Proof. intros ->. unfold beginAfterLegacy. kept. Qed.
Lemma kept_adoptAttempt who pd w a machine volumes recovered : holds_kept who pd (snd (adoptAttemptMachine ans pd w a machine volumes recovered)).
Proof. unfold adoptAttemptMachine. kept. Qed.
Hint Resolve kept_adoptLegacy kept_beginAfter kept_adoptAttempt : kept.
Lemma kept_recoverAttempt who pd w a image machines volumes recovered : holds_kept who pd (snd (recoverAttempt ans volumeName retriable pd w a image machines volumes recovered)).
Proof.
  unfold recoverAttempt. kept.
Qed.
Hint Resolve kept_recoverAttempt : kept.
Lemma kept_recover metering pd id image : holds_kept id pd (snd (recoverPendingWorker ans volumeName retriable metering pd id image)).
Proof.
  unfold recoverPendingWorker. unfold GetWorker. destruct (find_worker (pd_workers pd) id) as [w|] eqn:Hw; [|done]. apply find_worker_id in Hw. symmetry in Hw. kept;
    (match goal with |- context [observeVolumes ans volumeName ?p ?w ?a ?r ?v] =>
       assert (holds_kept id pd (observeVolumes ans volumeName p w a r v)) as K;
         [transitivity p; [try case_match; done || apply kept_recordProvisioning|apply kept_observe]
         |generalize dependent (observeVolumes ans volumeName p w a r v); intros pd1 K; etransitivity; [exact K|]; kept] end).
Qed.
End Provisioned.

(** * The operations *)

Inductive action :=
| ActStop (cl : cleanup) (id : string)
| ActDestroy (cl : cleanup) (id : string)
| ActHold (cl : cleanup) (id reason : string)
| ActRelease (cl : cleanup) (id : string) (destroy : bool)
| ActDormant (cl : cleanup) (id reason signature trigger : string)
| ActPause (cl : cleanup) (label : string -> string) (source reason signature trigger : string)
| ActExpire (cl : cleanup)
| ActTeardown (cl : cleanup) (archive : result () (Z * bool)) (source prefix summary : string) (keep : Worker -> bool) (destroyStopped : bool)
| ActStore (now : time) (op : workerOp)
| ActCreate (ans : answers) (uuid : string) (req : WorkerRequest)
| ActRoll (rp : replies) (id imageRef gitSHA litestreamSHA : string)
| ActRollOne (rp : replies) (source imageRef gitSHA litestreamSHA id : string) (drift : nat)
| ActRollSource (rp : string -> replies) (source imageRef gitSHA litestreamSHA : string)
| ActResumeOne (rp : replies) (source : string) (listed : Worker) (imageRef gitSHA litestreamSHA trigger : string)
| ActResumeSource (rp : string -> replies) (source imageRef gitSHA litestreamSHA trigger : string)
| ActResumeDeploymentOne (rp : replies) (d : Deployment) (trigger : string) (onlyOutdated : bool) (id : string)
| ActResumeDeployment (rp : string -> replies) (d : Deployment) (trigger : string) (onlyOutdated : bool)
| ActRecover (ans : answers) (id imageRef : string)
| ActRecoverOne (ans : answers) (d : Deployment) (listed : Worker)
| ActRecoverSource (rp : string -> replies) (source : string) (d : Deployment)
| ActEnsureOne (rp : replies) (desired : DesiredWorker) (imageRef : string) (current : option Worker) (drift : nat)
| ActEnsureReplaced (rp : replies) (desired : DesiredWorker) (imageRef id : string) (drift : nat)
| ActEnsureSource (rp : string -> replies) (now : time) (source gitSHA litestreamSHA imageRef : string).

(** Everything but releasing the hold, or removing it in the store; a fresh worker id is no worker's. *)
Definition keeps_hold (id : string) (a : action) : Prop :=
  match a with
  | ActRelease _ i _ => i <> id
  | ActStore _ op => hold_safe id op
  | ActCreate _ uuid _ => uuid <> id
  | ActRoll rp _ _ _ _ | ActRollOne rp _ _ _ _ _ _ | ActResumeOne rp _ _ _ _ _ _ | ActResumeDeploymentOne rp _ _ _ _
  | ActEnsureOne rp _ _ _ _ | ActEnsureReplaced rp _ _ _ _ => rp_uuid rp <> id
  | ActRollSource rp _ _ _ _ | ActResumeSource rp _ _ _ _ _ | ActResumeDeployment rp _ _ _ | ActEnsureSource rp _ _ _ _ _ => forall i, rp_uuid (rp i) <> id
  | _ => True
  end.

Section Held.
Context `{Decoders} `{Platform}.
Variables (joined : list cleanupFailure -> string) (marshalWorkloadConfig : Config -> option string) (errorText : replaceError -> string).
Variables (appName observeEnv meteringEnv : string) (flyVolumeName : string -> string) (retriable : flyError -> bool).
Variables (id : string) (since : option time) (reason : string) (calls : list (string * cleanupCall)) (begun : list string).
Abbreviation ok := (held id since reason calls begun).
#[local] Hint Resolve held_event held_status held_dormant held_call_other held_stop held_destroy : holds.

Lemma held_kept who m pd' : who <> id -> holds_kept who (mg_pd m) pd' -> ok m -> ok (m <| mg_pd := pd' |>).
Proof.
  intros Hne [Hk Ha] [(w & Hw & E1 & E2 & E3) Hc Hb]. destruct (Hk id w Hw) as (w' & Hw' & A1 & A2).
  split; [|exact Hc|simpl; rewrite Ha by congruence; exact Hb]. exists w'. split_and!; [exact Hw'|congruence..].
Qed.
Lemma held_on_pd {A} who (f : provDB -> A * provDB) m : who <> id -> (forall pd, holds_kept who pd (snd (f pd))) -> ok m -> ok (snd (on_pd f m)).
Proof. intros Hne Hf Hm. unfold on_pd. pose proof (Hf (mg_pd m)) as K. destruct (f (mg_pd m)). by eapply held_kept. Qed.
(** A step that begins no attempt for anyone. *)
Lemma held_on_pd_none {A} (f : provDB -> A * provDB) m : (forall who pd, holds_kept who pd (snd (f pd))) -> ok m -> ok (snd (on_pd f m)).
Proof. intros Hf. apply (held_on_pd (String Ascii.zero id)); [|apply Hf]. intros E. apply (f_equal String.length) in E. simpl in E. lia. Qed.
Lemma held_table now op tbl m : hold_safe id op -> apply_op now op (mg_workers m) = Ok tbl -> ok m -> ok (on_workers (fun _ => tbl) m).
Proof.
  intros Hs Ht Hm. apply (held_frame id since reason calls begun (on_workers (fun tbl => exec_op tbl (now, op)) m)); try done.
  - change (tbl = exec_op (mg_workers m) (now, op)). unfold exec_op. cbn [fst snd]. by rewrite Ht.
  - by apply held_store.
Qed.
Lemma held_probing now i trigger m : ok m -> ok (on_workers (MarkWorkerProbing now i trigger) m).
Proof. by apply (held_store id since reason calls begun now (OpProbing i trigger)). Qed.
Lemma held_recorded now i kind message details m : ok m -> ok (on_db (RecordEvent now i kind message details) m).
Proof. by apply held_frame. Qed.

(** A worker that was just loaded under its lock and has no hold is not the held one. *)
Lemma held_loaded m i w : ok m -> load m i = Ok w -> EvidenceHeld w = false -> i <> id /\ w_ID w <> id.
Proof.
  intros Hm Hl He. assert (i <> id) as Hne; [|by rewrite (load_id m i w Hl)]. intros ->. by rewrite (held_load id since reason calls begun m w Hm Hl) in He.
Qed.

Lemma held_create ans uuid m req : uuid <> id -> ok m ->
  ok (snd (createWorker marshalWorkloadConfig appName meteringEnv flyVolumeName retriable ans uuid m req)).
Proof.
  intros Hu Hm. unfold createWorker. cbv zeta. set (rid := TrimSpace (wr_WorkerID req)).
  destruct (if rid =s "" then None else _) as [existing|] eqn:Hex; [done|]. destruct (checkRCGateProvisioning _ _ _ _ _ _ _); [|done].
  destruct (marshalWorkloadConfig _) as [profileConfig|]; [|done]. set (worker := newWorkerRecord appName uuid req profileConfig).
  assert (w_ID worker <> id) as Hne.
  { unfold worker, newWorkerRecord. simpl. fold rid. destruct (eqs_spec rid "") as [|Hrid]; [done|]. intros ->. destruct (hd_row _ _ _ _ _ _ Hm) as (w & Hw & _).
    pose proof (held_load id since reason calls begun m w Hm) as Hl. unfold load, GetWorker in *. rewrite Hw in *. by rewrite Hl in Hex. }
  destruct (CreateWorker _ worker _) as [tbl|] eqn:Ht; [|done]. set (m1 := on_db _ _).
  assert (ok m1) as H1 by (apply held_recorded; by apply (held_table (an_now ans) (OpCreate worker))).
  pose proof (held_on_pd (w_ID worker) (fun pd => beginWorkerProvisioning ans pd worker (wr_ImageRef req) (Some (wr_VolumeSizeGB req))) m1 Hne
    (fun pd => kept_beginWorker ans _ pd worker _ _ eq_refl) H1) as H2.
  destruct (on_pd _ m1) as [[attempt|e] m2]; [|exact H2]. cbn [snd] in H2.
  pose proof (held_on_pd_none (fun pd => resumeWorkerProvisioning ans flyVolumeName retriable pd worker attempt (normalizeWorkloadConfig (wr_Workload req)) false) m2
    (fun who pd => kept_resume ans flyVolumeName retriable who pd worker attempt _ _) H2) as H3.
  by destruct (on_pd _ m2).
Qed.

Lemma held_clearOld cl m w : w_ID w <> id -> ok m -> ok (clearOldWorkerReplicaPrefix cl m w).
Proof. intros Hne Hm. unfold clearOldWorkerReplicaPrefix. destruct (_ =s _); [done|by apply held_replica]. Qed.
Lemma held_removeOld cl m w : w_ID w <> id -> ok m -> ok (snd (removeOldMachine cl m w)).
Proof. intros Hne Hm. unfold removeOldMachine. repeat case_match; simpl; auto with holds. Qed.
Lemma held_destroyOld what rid c answer m w : w_ID w <> id -> ok m -> ok (snd (destroyOld what rid c answer m w)).
Proof. intros Hne Hm. unfold destroyOld. case_match; simpl; auto with holds. Qed.

Abbreviation replaceWith := (replaceWorkerWithRequest marshalWorkloadConfig appName meteringEnv flyVolumeName retriable).
(** The worker that is replaced was loaded under its lock, or its own guard refuses. *)
Lemma held_replaceWith rp m w req : rp_uuid rp <> id -> (EvidenceHeld w = false -> w_ID w <> id) -> ok m -> ok (snd (replaceWith rp m w req)).
Proof.
  intros Hu Hw Hm. unfold replaceWorkerWithRequest. destruct (EvidenceHeld w); [done|]. specialize (Hw eq_refl).
  destruct (checkRCGateProvisioning _ _ _ _ _ _ _); [|done].
  match goal with |- context [let '(_, _) := ?e in _] => assert (ok (snd e)) as H1 end.
  { destruct (ActiveProvisioning _ _) as [current|]; [|done]. destruct (supersededProvisioning _ _ _ _ _); [|done].
    match goal with |- context [on_pd ?f m] => pose proof (held_on_pd_none f m (fun who pd => kept_abandon who _ pd current _) Hm) as K; by destruct (on_pd f m) end. }
  match goal with |- context [let '(_, _) := ?e in _] => destruct e as [[[current|]|e1] m1] end; try exact H1. cbn [snd] in H1.
  destruct (status_in _ w); [exact H1|]. destruct (marshalWorkloadConfig _); [|exact H1].
  set (m2 := event _ _ _ _ _ m1). assert (ok m2) as H2 by (by apply held_event).
  pose proof (held_removeOld (rp_cl rp) m2 w Hw H2) as H3. destruct (removeOldMachine _ m2 w) as [[e|] m3]; [exact H3|]. cbn [snd] in H3.
  match goal with |- context [destroyOld ?x ?y ?z ?t m3 w] => pose proof (held_destroyOld x y z t m3 w Hw H3) as H4; destruct (destroyOld x y z t m3 w) as [[e|] m4] end;
    [exact H4|]. by apply held_create, held_clearOld.
Qed.
Lemma held_replace rp m w image sha ls : rp_uuid rp <> id -> (EvidenceHeld w = false -> w_ID w <> id) -> ok m ->
  ok (snd (replaceWorker marshalWorkloadConfig appName observeEnv meteringEnv flyVolumeName retriable rp m w image sha ls)).
Proof. intros. unfold replaceWorker. destruct (replacementRequest _ _ _ _ _ _ _); [by apply held_replaceWith|done]. Qed.
Lemma held_roll rp m i image sha ls : rp_uuid rp <> id -> ok m ->
  ok (snd (RollWorker marshalWorkloadConfig appName observeEnv meteringEnv flyVolumeName retriable rp m i image sha ls)).
Proof.
  intros Hu Hm. unfold RollWorker. destruct (load m i) as [w|] eqn:Hl; [|done]. destruct (resolveReadyDeploymentTarget _ _ _ _ _); [|done].
  apply held_replace; [done| |done]. intros He. by eapply held_loaded.
Qed.
Abbreviation roll := (rollOne marshalWorkloadConfig appName observeEnv meteringEnv flyVolumeName retriable).
Lemma held_rollOne rp m source image sha ls i drift : rp_uuid rp <> id -> ok m -> ok (snd (roll rp m source image sha ls i drift)).
Proof.
  intros Hu Hm. unfold rollOne. destruct (negb _); [done|]. destruct (load m i) as [w|] eqn:Hl; [|done].
  assert (EvidenceHeld w = false -> w_ID w <> id) as Hw by (intros He; by eapply held_loaded).
  destruct (_ || EvidenceHeld w); [done|]. cbv zeta. destruct (desiredWorkerFor w _) as [desired|].
  - destruct (workerMatchesDesiredSpec _ w desired) as [b|]; [|done]. destruct (_ && b); [done|]. destruct (workerRequestForDesired _ _ _ _ _) as [req|]; [|done].
    destruct (_ && (_ <=? drift)); [done|]. pose proof (held_replaceWith rp m w req Hu Hw Hm) as K. by destruct (replaceWith rp m w req).
  - destruct (workerMatchesDeployment _ _); [done|]. pose proof (held_replace rp m w image sha ls Hu Hw Hm) as K. by destruct (replaceWorker _ _ _ _ _ _ rp m w image sha ls).
Qed.
Lemma held_rolling rp m source image sha ls : (forall i, rp_uuid (rp i) <> id) -> ok m ->
  ok (snd (rollingUpdateSourceLocked marshalWorkloadConfig appName observeEnv meteringEnv flyVolumeName retriable rp m source image sha ls)).
Proof.
  intros Hu Hm. unfold rollingUpdateSourceLocked. destruct (negb _); [done|].
  match goal with |- context [fold_left ?f ?l ?acc] => assert (ok (snd (fold_left f l acc))) as K; [|by destruct (fold_left f l acc) as [[? ?] ?]] end.
  apply held_fold; [|done]. intros [[drift errors] m'] listed Hm'. simpl in Hm'.
  pose proof (held_rollOne (rp (w_ID listed)) m' source image sha ls (w_ID listed) drift (Hu _) Hm') as K. by destruct (roll _ m' _ _ _ _ _ drift) as [[[] ?] ?].
Qed.

(** ** Dormant workers *)

Lemma held_probeStarted cl m i how sha ls trigger image : ok m -> ok (probeStarted cl m i how sha ls trigger image).
Proof. intros Hm. by apply held_event, held_probing. Qed.
Abbreviation recreate := (recreateDormantWorkerForProbeLocked marshalWorkloadConfig appName meteringEnv flyVolumeName retriable).
Lemma held_recreate rp m w req trigger text : rp_uuid rp <> id -> w_ID w <> id -> ok m -> ok (snd (recreate rp m w req trigger text)).
Proof.
  intros Hu Hw Hm. unfold recreateDormantWorkerForProbeLocked.
  match goal with |- context [destroyOld ?x ?y ?z ?t m w] => pose proof (held_destroyOld x y z t m w Hw Hm) as H1; destruct (destroyOld x y z t m w) as [[e|] m1] end; [exact H1|].
  cbn [snd] in H1.
  match goal with |- context [destroyOld ?x ?y ?z ?t m1 w] => pose proof (held_destroyOld x y z t m1 w Hw H1) as H2; destruct (destroyOld x y z t m1 w) as [[e|] m2] end; [exact H2|].
  cbn [snd] in H2. set (m3 := event _ _ _ _ _ m2). assert (ok m3) as H3 by (by apply held_event). pose proof (held_create (rp_reans rp) (rp_uuid rp) m3 req Hu H3) as H4.
  destruct (createWorker _ _ _ _ _ _ _ m3 req) as [[] m4]; [by apply held_probeStarted|exact H4].
Qed.
Lemma held_volumeID rp m w : ok m -> ok (snd (resolveWorkerVolumeID rp m w)).
Proof.
  intros Hm. unfold resolveWorkerVolumeID. destruct (negb _); [done|]. destruct (_ =s _); [done|]. destruct (an_previous _); [|done]. destruct (List.find _ _) as [mount|]; [|done].
  destruct (UpdateWorkerMachine _ _ _ _ _) as [tbl|] eqn:Ht; [|done]. by apply (held_table (cl_now (rp_cl rp)) (OpMachine (w_ID w) (w_FlyMachineID w) (mt_Volume mount))).
Qed.
Lemma held_bindResumed cl m w machine volume sha ls trigger image req : ok m -> ok (snd (bindResumed marshalWorkloadConfig cl m w machine volume sha ls trigger image req)).
Proof.
  intros Hm. unfold bindResumed. destruct (UpdateWorkerMachine _ _ _ _ _) as [tbl|] eqn:Ht; [|done].
  assert (ok (on_workers (fun _ => tbl) m)) as H1 by (by apply (held_table (cl_now cl) (OpMachine (w_ID w) machine volume))).
  destruct (marshalWorkloadConfig _) as [config|]; [|exact H1]. destruct (UpdateWorkerMachineVersionAndConfig _ _ _ _ _ _ _ _) as [tbl'|] eqn:Ht'; [|exact H1].
  apply held_probeStarted. by apply (held_table (cl_now cl) (OpVersion (w_ID w) machine sha ls (wr_ProfileName req) config)).
Qed.
Abbreviation resumeLocked := (resumeDormantWorkerLocked marshalWorkloadConfig errorText appName observeEnv meteringEnv flyVolumeName retriable).
Lemma held_resumeLocked rp m w image sha ls trigger : rp_uuid rp <> id -> (EvidenceHeld w = false -> w_ID w <> id) -> ok m ->
  ok (snd (resumeLocked rp m w image sha ls trigger)).
Proof.
  intros Hu Hw Hm. unfold resumeDormantWorkerLocked. destruct (EvidenceHeld w); [done|]. specialize (Hw eq_refl).
  destruct (checkRCGateProvisioning _ _ _ _ _ _ _); [|done]. cbv zeta. do 3 (destruct (TrimSpace _ =s ""); [done|]).
  destruct (replacementRequest _ _ _ _ _ _ _) as [req|]; [|done]. match goal with |- context [if ?b then _ else _] => destruct b end; [by apply held_recreate|].
  pose proof (held_volumeID rp m w Hm) as H1. destruct (resolveWorkerVolumeID rp m w) as [[volume|e] m1]; [|exact H1]. cbn [snd] in H1.
  set (m2 := if _ =s "" then m1 else _). assert (ok m2) as H2 by (unfold m2; destruct (_ =s _); auto with holds).
  match goal with |- context [on_pd ?f m2] => assert (ok (snd (on_pd f m2))) as H3 by (apply held_on_pd_none; [intros who pd; apply kept_machine|done]); destruct (on_pd f m2) as [[machine|e] m3] end;
    [by apply held_bindResumed|].
  match goal with |- context [recreate rp m3 w req trigger ?t] => pose proof (held_recreate rp m3 w req trigger t Hu Hw H3) as H4; by destruct (recreate rp m3 w req trigger t) as [[] ?] end.
Qed.
Lemma held_resume rp m i image sha ls trigger : rp_uuid rp <> id -> ok m ->
  ok (snd (resumeDormantWorker marshalWorkloadConfig errorText appName observeEnv meteringEnv flyVolumeName retriable rp m i image sha ls trigger)).
Proof.
  intros Hu Hm. unfold resumeDormantWorker. destruct (load m i) as [w|] eqn:Hl; [|done]. destruct (status_in _ w); [|done].
  apply held_resumeLocked; [done| |done]. intros He. by eapply held_loaded.
Qed.
Lemma held_resumeOne rp m source listed image sha ls trigger : rp_uuid rp <> id -> ok m ->
  ok (snd (resumeOne marshalWorkloadConfig errorText appName observeEnv meteringEnv flyVolumeName retriable rp m source listed image sha ls trigger)).
Proof.
  intros Hu Hm. unfold resumeOne. destruct (negb _); [done|]. pose proof (held_resume rp m (w_ID listed) image sha ls trigger Hu Hm) as K.
  destruct (resumeDormantWorker _ _ _ _ _ _ _ _ _ _ _ _ _ _) as [[e|] m1]; [by apply held_event|exact K].
Qed.
Lemma held_overWorkers body l m : (forall listed m, ok m -> ok (snd (body listed m))) -> ok m -> ok (snd (overWorkers body l m)).
Proof.
  intros Hb Hm. unfold overWorkers. apply held_fold; [|done]. intros [errors m'] listed Hm'. simpl in Hm'. specialize (Hb listed m' Hm'). by destruct (body listed m') as [[] ?].
Qed.
Lemma held_resumeAll rp m source image sha ls trigger : (forall i, rp_uuid (rp i) <> id) -> ok m ->
  ok (snd (ResumeDormantWorkers marshalWorkloadConfig errorText appName observeEnv meteringEnv flyVolumeName retriable rp m source image sha ls trigger)).
Proof.
  intros Hu Hm. unfold ResumeDormantWorkers, resumeDormantWorkers. destruct (resolveReadyDeploymentTarget _ _ _ _ _) as [d|]; [|done].
  match goal with |- context [overWorkers ?b ?l m] => assert (ok (snd (overWorkers b l m))) as K; [|by destruct (overWorkers b l m)] end.
  apply held_overWorkers; [|done]. intros listed m' Hm'. by apply held_resumeOne.
Qed.
Lemma held_resumeDeploymentOne rp m d trigger outdated i : rp_uuid rp <> id -> ok m ->
  ok (snd (resumeDeploymentOne marshalWorkloadConfig errorText appName observeEnv meteringEnv flyVolumeName retriable rp m d trigger outdated i)).
Proof.
  intros Hu Hm. unfold resumeDeploymentOne. destruct (negb _); [done|]. destruct (load m i) as [w|] eqn:Hl; [|done]. destruct (_ || _ || _); [done|].
  apply held_resumeLocked; [done| |done]. intros He. by eapply held_loaded.
Qed.
Lemma held_resumeDeployment rp m d trigger outdated : (forall i, rp_uuid (rp i) <> id) -> ok m ->
  ok (snd (resumeDeploymentDormantWorkers marshalWorkloadConfig errorText appName observeEnv meteringEnv flyVolumeName retriable rp m d trigger outdated)).
Proof. intros Hu Hm. apply held_overWorkers; [|done]. intros listed m' Hm'. by apply held_resumeDeploymentOne. Qed.

(** ** The fleet *)

Abbreviation recover := (recoverPending meteringEnv flyVolumeName retriable).
Lemma held_recover ans m i image : ok m -> ok (snd (recover ans m i image)).
Proof.
  intros Hm. unfold recoverPending. match goal with |- context [on_pd ?f m] => assert (ok (snd (on_pd f m))) as K; [|by destruct (on_pd f m)] end.
  destruct (decide (i = id)) as [->|Hne]; [|apply (held_on_pd i); [done|intros pd; apply kept_recover|done]].
  destruct (hd_row _ _ _ _ _ _ Hm) as (w & Hw & _). pose proof (held_load id since reason calls begun m w Hm) as Hl. unfold load, GetWorker in Hl. rewrite Hw in Hl. specialize (Hl eq_refl).
  unfold on_pd, recoverPendingWorker, GetWorker. change (pd_workers (mg_pd m)) with (mg_workers m). rewrite Hw, Hl, orb_true_r. by destruct m.
Qed.
Lemma held_recoverImage ans m w attempt targets image : ok m -> ok (snd (recoverWithImage meteringEnv flyVolumeName retriable ans m w attempt targets image)).
Proof.
  intros Hm. unfold recoverWithImage. destruct attempt; [by apply held_recover|]. destruct targets; [by apply held_recover|].
  destruct (resolveReadyDeploymentTarget _ _ _ _ _); [by apply held_recover|]. unfold originalUnavailable.
  match goal with |- context [on_pd ?f m] => assert (ok (snd (on_pd f m))) as K by (apply held_on_pd_none; [intros; apply kept_provisioningUnavailable|done]); by destruct (on_pd f m) end.
Qed.
Lemma held_recoverOne ans m d w : ok m -> ok (snd (recoverOne meteringEnv flyVolumeName retriable ans m d w)).
Proof. intros Hm. unfold recoverOne. destruct (_ && _); [done|]. destruct (supersededProvisioning _ _ _ _ _); [done|]. by apply held_recoverImage. Qed.
Lemma held_recoverSource rp m source d : ok m -> ok (snd (recoverSourcePendingWorkers meteringEnv flyVolumeName retriable rp m source d)).
Proof. intros Hm. apply held_overWorkers; [|done]. intros listed m' Hm'. by apply held_recoverOne. Qed.
Lemma held_ensureReplaced rp m desired image i drift : rp_uuid rp <> id -> ok m ->
  ok (snd (ensureReplaced marshalWorkloadConfig appName meteringEnv flyVolumeName retriable rp m desired image i drift)).
Proof.
  intros Hu Hm. unfold ensureReplaced. destruct (negb _); [done|]. destruct (load m i) as [w|] eqn:Hl; [|done]. destruct (status_in _ w); [done|].
  destruct (workerMatchesDesiredSpec _ w desired) as [b|]; [|done]. cbv zeta. destruct (b && _); [done|]. destruct (workerRequestForDesired _ _ _ _ _) as [req|]; [|done].
  destruct (_ && (_ <=? drift)); [done|]. set (m1 := event _ _ _ _ _ m). assert (ok m1) as H1 by (by apply held_event).
  pose proof (held_replaceWith rp m1 w req Hu (fun He => proj2 (held_loaded m i w Hm Hl He)) H1) as K. by destruct (replaceWith rp m1 w req).
Qed.
Lemma held_ensureOne rp m desired image current drift : rp_uuid rp <> id -> ok m ->
  ok (snd (ensureOne marshalWorkloadConfig appName meteringEnv flyVolumeName retriable rp m desired image current drift)).
Proof.
  intros Hu Hm. unfold ensureOne. cbv zeta. destruct (negb _); [done|]. destruct current as [w|].
  - destruct (EvidenceHeld w); [done|]. destruct (_ && _).
    { match goal with |- context [recoverWithImage _ _ _ ?x m w ?y ?z ?t] => pose proof (held_recoverImage x m w y z t Hm) as K end. by destruct (recoverWithImage _ _ _ _ m w _ _ _). }
    destruct (status_in _ w); [done|]. destruct (workerMatchesDesiredSpec _ w desired) as [b|]; [|done]. destruct (b && _); [done|]. by apply held_ensureReplaced.
  - destruct (workerRequestForDesired _ _ _ _ _) as [req|]; [|done]. pose proof (held_create (rp_ans rp) (rp_uuid rp) m req Hu Hm) as K. by destruct (createWorker _ _ _ _ _ _ _ m req).
Qed.
Lemma held_ensureAll rp byName image desired : (forall i, rp_uuid (rp i) <> id) -> forall drift errors m, ok m ->
  ok (snd (ensureAll marshalWorkloadConfig appName meteringEnv flyVolumeName retriable rp byName image desired drift errors m)).
Proof.
  intros Hu. induction desired as [|d desired IH]; intros drift errors m Hm; [done|]. cbn [ensureAll].
  pose proof (held_ensureOne (rp (dw_Name d)) m d image (byName !! dw_Name d) drift (Hu _) Hm) as K. destruct (ensureOne _ _ _ _ _ _ m d image _ drift) as [[[] drift'] m']; by try apply IH.
Qed.
Lemma held_ensureSource rp now m source sha ls image : (forall i, rp_uuid (rp i) <> id) -> ok m ->
  ok (snd (EnsureSourceFleet marshalWorkloadConfig appName observeEnv meteringEnv flyVolumeName retriable rp now m source sha ls image)).
Proof.
  intros Hu Hm. unfold EnsureSourceFleet. destruct (_ && _); [done|]. destruct (resolveReadyDeploymentTarget _ _ _ _ _) as [d|]; [|done]. cbv zeta.
  destruct (if isGateSource source then _ else _) as [spec|]; [|done].
  match goal with |- context [ensureFleetSpec _ _ _ _ _ rp m spec ?i] => pose proof (held_ensureAll rp (currentByName (ListWorkersFiltered (pd_db (mg_pd m)) "" "")) i (fs_Workers spec) Hu 0 [] m Hm) as K end.
  unfold ensureFleetSpec. by destruct (ensureAll _ _ _ _ _ _ _ _ _ _ _ m).
Qed.

(** ** Any sequence of operations *)

Definition act (m : manager) (a : action) : manager :=
  match a with
  | ActStop cl i => snd (stopWorker cl m i)
  | ActDestroy cl i => snd (destroyWorker cl joined m i)
  | ActHold cl i reason => snd (HoldWorkerEvidence cl m i reason)
  | ActRelease cl i destroy => snd (ReleaseWorkerEvidenceHold cl joined m i destroy)
  | ActDormant cl i reason signature trigger => snd (dormantWorker cl m i reason signature trigger)
  | ActPause cl label source reason signature trigger => snd (PauseSourceWorkers cl label m source reason signature trigger)
  | ActExpire cl => cleanExpiredWorkers cl joined m
  | ActTeardown cl archive source prefix summary keep destroyStopped =>
      snd (archiveAndDestroySourceWorkers cl joined archive m source prefix summary keep destroyStopped)
  | ActStore now op => on_workers (fun tbl => exec_op tbl (now, op)) m
  | ActCreate ans uuid req => snd (createWorker marshalWorkloadConfig appName meteringEnv flyVolumeName retriable ans uuid m req)
  | ActRoll rp i image sha ls => snd (RollWorker marshalWorkloadConfig appName observeEnv meteringEnv flyVolumeName retriable rp m i image sha ls)
  | ActRollOne rp source image sha ls i drift => snd (roll rp m source image sha ls i drift)
  | ActRollSource rp source image sha ls =>
      snd (RollingUpdateSource marshalWorkloadConfig appName observeEnv meteringEnv flyVolumeName retriable rp m source image sha ls)
  | ActResumeOne rp source listed image sha ls trigger =>
      snd (resumeOne marshalWorkloadConfig errorText appName observeEnv meteringEnv flyVolumeName retriable rp m source listed image sha ls trigger)
  | ActResumeSource rp source image sha ls trigger =>
      snd (ResumeDormantWorkers marshalWorkloadConfig errorText appName observeEnv meteringEnv flyVolumeName retriable rp m source image sha ls trigger)
  | ActResumeDeploymentOne rp d trigger outdated i =>
      snd (resumeDeploymentOne marshalWorkloadConfig errorText appName observeEnv meteringEnv flyVolumeName retriable rp m d trigger outdated i)
  | ActResumeDeployment rp d trigger outdated =>
      snd (resumeDeploymentDormantWorkers marshalWorkloadConfig errorText appName observeEnv meteringEnv flyVolumeName retriable rp m d trigger outdated)
  | ActRecover ans i image => snd (recover ans m i image)
  | ActRecoverOne ans d listed => snd (recoverOne meteringEnv flyVolumeName retriable ans m d listed)
  | ActRecoverSource rp source d => snd (recoverSourcePendingWorkers meteringEnv flyVolumeName retriable rp m source d)
  | ActEnsureOne rp desired image current drift =>
      snd (ensureOne marshalWorkloadConfig appName meteringEnv flyVolumeName retriable rp m desired image current drift)
  | ActEnsureReplaced rp desired image i drift =>
      snd (ensureReplaced marshalWorkloadConfig appName meteringEnv flyVolumeName retriable rp m desired image i drift)
  | ActEnsureSource rp now source sha ls image =>
      snd (EnsureSourceFleet marshalWorkloadConfig appName observeEnv meteringEnv flyVolumeName retriable rp now m source sha ls image)
  end.

Lemma held_act a m : keeps_hold id a -> ok m -> ok (act m a).
Proof.
  destruct a; cbn [keeps_hold act]; intros Ha Hm.
  - by apply held_stopWorker.
  - by apply held_destroy.
  - by apply held_hold.
  - by apply held_release.
  - by apply held_dormantWorker.
  - by apply held_pause.
  - by apply held_expire.
  - by apply held_teardown.
  - by apply held_store.
  - by apply held_create.
  - by apply held_roll.
  - by apply held_rollOne.
  - by apply held_rolling.
  - by apply held_resumeOne.
  - by apply held_resumeAll.
  - by apply held_resumeDeploymentOne.
  - by apply held_resumeDeployment.
  - by apply held_recover.
  - by apply held_recoverOne.
  - by apply held_recoverSource.
  - by apply held_ensureOne.
  - by apply held_ensureReplaced.
  - by apply held_ensureSource.
Qed.
End Held.

(** C5: an evidence hold is honoured until it is released.  After any sequence of: stopping, destroying, pausing and expiring
    workers, tearing a source down, holding again, store writes, creating a worker, replacing or rolling it, rolling a source,
    resuming dormant workers (with the recreation that falls back on), recovering pending ones and ensuring a source's
    fleet, in any order, also with the loops over workers taken apart into their bodies and interleaved, and with whatever the
    platform answers: the held worker's row keeps the hold and its reason, no request to destroy a machine, a volume or a replica prefix
    was made for it, and no provisioning attempt was begun for it.  Excluded are releasing this worker's hold, deleting its
    row or writing its hold columns in the store, and a fresh worker id that is this worker's. *)
Theorem hold_honoured `{Decoders} `{Platform}
    (joined : list cleanupFailure -> string) (marshal : Config -> option string) (errorText : replaceError -> string)
    (appName observeEnv meteringEnv : string) (volumeName : string -> string) (retriable : flyError -> bool)
    (m : manager) (id : string) (w : Worker) (actions : list action)
    (Hw : find_worker (mg_workers m) id = Some w) (Hh : EvidenceHeld w = true)
    (Hactions : Forall (keeps_hold id) actions) :
  held id (w_EvidenceHoldAt w) (w_EvidenceHoldReason w) (mg_calls m) (attemptsOf id (pd_attempts (mg_pd m)))
    (fold_left (act joined marshal errorText appName observeEnv meteringEnv volumeName retriable) actions m).
Proof.
  assert (held id (w_EvidenceHoldAt w) (w_EvidenceHoldReason w) (mg_calls m) (attemptsOf id (pd_attempts (mg_pd m))) m) as Hm.
  { constructor; [|exists []; by rewrite app_nil_r|done]. exists w. split_and!; try done. unfold EvidenceHeld in Hh. by destruct (w_EvidenceHoldAt w). }
  clear Hw Hh. revert Hm. generalize (attemptsOf id (pd_attempts (mg_pd m))) as begun, (mg_calls m) as calls. intros begun calls. revert m.
  induction Hactions as [|a actions Ha _ IH]; intros m Hm; [done|]. rewrite fold_left_cons. apply IH. by apply held_act.
Qed.

(** * Examples *)

Definition ex_deployment : Deployment :=
  Deployment_zero <| d_ID := 1%Z |> <| d_Source := "pr-7" |> <| d_Status := "ready" |> <| d_ImageRef := "img" |> <| d_GitSHA := "g2" |> <| d_LitestreamSHA := "l2" |>.
(** Workers that run and sleep, held and not, on an older deployment. *)
Definition ex_fleet : manager :=
  mkManager (mkProvDB (emptyDB <| db_workers := [ex_row "a" "m1" WorkerRunning; ex_held; ex_row "s" "m5" WorkerDormant;
                                                 (ex_row "d" "m6" WorkerDormant) <| w_EvidenceHoldAt := Some Second |> <| w_EvidenceHoldReason := "bug" |>] |>
                               <| db_deployments := [ex_deployment] |>) [] ∅ emptyTable []) [].
Definition ex_replies (uuid : string) : replies := mkReplies ex_cleanup ex_answers ex_cleanup ex_answers uuid.
Definition ex_held_actions : list action :=
  [ActDestroy ex_cleanup "h"; ActRoll (ex_replies "n1") "h" "img" "g2" "l2"; ActRollSource (fun _ => ex_replies "n2") "pr-7" "img" "g2" "l2";
   ActResumeSource (fun _ => ex_replies "n3") "pr-7" "img" "g2" "l2" "deploy"; ActRecover ex_answers "h" "img"; ActExpire ex_cleanup;
   ActTeardown ex_cleanup (Ok (1%Z, true)) "pr-7" "operator" "" (fun _ => false) true;
   ActStore (60 * Second)%Z (OpCreate (ex_row "h" "" WorkerPending))].
Abbreviation ex_run := (fold_left (act (H := exampleDecoders) (H0 := examplePlatform) no_text (fun _ => Some "{}") (fun _ => "") "app" "" "" (fun s => s) (fun _ => false))
  ex_held_actions ex_fleet).

(** The worker without a hold was destroyed for its replacement; none of the held ones was touched. *)
Lemma hold_honoured_witness :
  held "h" (Some Second) "bug" [] [] ex_run.
Proof.
  apply (hold_honoured (H := exampleDecoders) (H0 := examplePlatform) no_text (fun _ => Some "{}") (fun _ => "") "app" "" "" (fun s => s) (fun _ => false)
    ex_fleet "h" ex_held ex_held_actions).
  - vm_compute; reflexivity.
  - reflexivity.
  - repeat constructor; simpl; done.
Defined.
