(* ===== verification/PRPoller.v ===== *)
(** The poller of upstream pull requests, [orchestrator/pr_state_poller.go]: it asks GitHub for the
    state of the pull requests that have workers and retires the sources of those that
    were closed or merged.

    A response carries what the HTTP client and the JSON decoder make of it: the tokens of
    its body and the value decoded from it.  The answers of GitHub, of the clock, of the
    database and of the teardown are those of an environment that sees the calls so far. *)
From Stdlib Require Import Ascii.
From S2P Require Import Prelude GoStrings GoTime Regex Model SoakDB Verifier Deploy.

(** * The JSON body *)

Inductive jsonToken :=
| TDelim (c : ascii)
| TString (s : string)
| TOther.  (** a number, a boolean or null *)

(** [decoder.More]. *)
Definition more (tokens : list jsonToken) : bool :=
  match tokens with TDelim c :: _ => negb (Ascii.eqb c "}" || Ascii.eqb c "]") | [] => false | _ => true end.
(** A value, and the tokens after it; [None] on any of its errors.  The members and the
    elements of a container are the loops of the function. *)
Fixpoint scanJSONValue (fuel : nat) (tokens : list jsonToken) : option (list jsonToken) :=
  match fuel with
  | O => None
  | S fuel =>
      match tokens with
      | [] => None
      | TDelim c :: tokens => if Ascii.eqb c "{" then scanMembers fuel [] tokens else if Ascii.eqb c "[" then scanElements fuel tokens else None
      | _ :: tokens => Some tokens
      end
  end
with scanMembers (fuel : nat) (members : list string) (tokens : list jsonToken) : option (list jsonToken) :=
  match fuel with
  | O => None
  | S fuel =>
      if more tokens then
        match tokens with
        | TString key :: tokens =>
            if slices_Contains members key then None
            else match scanJSONValue fuel tokens with Some tokens => scanMembers fuel (key :: members) tokens | None => None end
        | _ => None
        end
      else match tokens with TDelim c :: tokens => if Ascii.eqb c "}" then Some tokens else None | _ => None end
  end
with scanElements (fuel : nat) (tokens : list jsonToken) : option (list jsonToken) :=
  match fuel with
  | O => None
  | S fuel =>
      if more tokens then match scanJSONValue fuel tokens with Some tokens => scanElements fuel tokens | None => None end
      else match tokens with TDelim c :: tokens => if Ascii.eqb c "]" then Some tokens else None | _ => None end
  end.
Definition rejectDuplicateJSONMembers (tokens : list jsonToken) : bool :=
  match scanJSONValue (2 * length tokens + 1) tokens with Some [] => true | _ => false end.

(** * Responses *)

Record githubPullRequestState := mkPRState {
  ps_Number : Z;
  ps_State : string;
  ps_Merged : option bool;
  ps_Labels : option (list string);
  ps_FullName : string
}.
(** [re_date] is what [http.ParseTime] makes of the [Date] header; [re_size] the length of the
    body as far as it was read. *)
Record githubResponse := mkResponse {
  re_urlMatches : bool;
  re_status : Z;
  re_date : option time;
  re_age : string;
  re_readErr : option string;
  re_size : Z;
  re_tokens : list jsonToken;
  re_decoded : option githubPullRequestState;  (** the first value, when it decodes *)
  re_trailing : bool                           (** something other than the end follows it *)
}.

Definition defaultPRStatePollInterval : duration := (15 * Minute)%Z.
Definition defaultPRRateLimitVisibilityThreshold : duration := Hour.
Definition defaultPRStateMaxResponseAge : duration := (5 * Minute)%Z.
Definition maxPRStateResponseBytes : Z := Z.shiftl 1 20.
Definition upstreamPRPollRateLimitedEvent : string := "upstream_pr_poll_rate_limited".
Definition upstreamPRPollRateLimitSustainedEvent : string := "upstream_pr_poll_rate_limit_sustained".
Definition upstreamPRPollRateLimitRecoveredEvent : string := "upstream_pr_poll_rate_limit_recovered".
Definition upstreamPRPollConfigurationErrorEvent : string := "upstream_pr_poll_configuration_error".

Inductive pollError := RateLimited (status : Z) | PollError (reason : string).

Definition validateResponseFreshness (now : time) (resp : githubResponse) : option string :=
  match re_date resp with
  | None => Some "github pull request response has an invalid or missing Date header"
  | Some responseDate =>
      if Before responseDate (time_Add now (- defaultPRStateMaxResponseAge)) then
        Some ("github pull request response is stale: Date " +:+ FormatRFC3339 responseDate)
      else if After responseDate (time_Add now defaultPRStateMaxResponseAge) then
        Some ("github pull request response Date is too far in the future: " +:+ FormatRFC3339 responseDate)
      else
        let ageHeader := TrimSpace (re_age resp) in
        if ageHeader =s "" then None
        else
          let '(ageSeconds, ok) := Atoi ageHeader in
          if negb ok || (ageSeconds <? 0)%Z then Some ("github pull request response has invalid Age header " +:+ Quote ageHeader)
          else if (defaultPRStateMaxResponseAge <? int64 (ageSeconds * Second))%Z then Some ("github pull request response is stale: Age " +:+ DurationString (int64 (ageSeconds * Second)))
          else None
  end.

Definition validateGitHubPullRequestState (state : githubPullRequestState) (repository : string) (prNumber : Z) : option string :=
  if negb (ps_Number state =? prNumber)%Z then Some ("github pull request response number " +:+ fmt_int (ps_Number state) +:+ " does not match requested PR " +:+ fmt_int prNumber)
  else if negb (EqualFold (TrimSpace (ps_FullName state)) repository) then Some ("github pull request response repository " +:+ Quote (ps_FullName state) +:+ " does not match requested repository " +:+ Quote repository)
  else if negb (ps_State state =s "open") && negb (ps_State state =s "closed") then Some ("github pull request response has unexpected state " +:+ Quote (ps_State state))
  else match ps_Merged state with
  | None => Some "github pull request response is missing merged state"
  | Some merged =>
      if (ps_State state =s "open") && merged then Some "github pull request response reports an open merged PR"
      else match ps_Labels state with
      | None => Some "github pull request response is missing labels"
      | Some labels => if existsb (fun label => TrimSpace label =s "") labels then Some "github pull request response contains an invalid label" else None
      end
  end.

Definition pullRequestHasLabel (labels : list string) (label : string) : bool :=
  existsb (fun candidate => EqualFold (TrimSpace candidate) label) labels.
Definition normalizedRepositoryAllowlist (repositories : list string) : list string :=
  List.filter (fun r => negb (r =s "")) (map TrimSpace repositories).

(** What is made of the response to a request. *)
Definition judgeResponse (now : time) (repository : string) (prNumber : Z) (resp : githubResponse) : result pollError githubPullRequestState :=
  if negb (re_urlMatches resp) then Err (PollError "github pull request response URL does not match request URL")
  else if (re_status resp =? 403)%Z || (re_status resp =? 429)%Z then Err (RateLimited (re_status resp))
  else if negb (re_status resp =? 200)%Z then Err (PollError ("github API returned status " +:+ fmt_int (re_status resp)))
  else match validateResponseFreshness now resp with
  | Some reason => Err (PollError reason)
  | None =>
      match re_readErr resp with
      | Some err => Err (PollError ("read github pull request response: " +:+ err))
      | None =>
          if (maxPRStateResponseBytes <? re_size resp)%Z then Err (PollError "github pull request response exceeds size limit")
          else if negb (rejectDuplicateJSONMembers (re_tokens resp)) then Err (PollError "validate github pull request response JSON")
          else match re_decoded resp with
          | None => Err (PollError "decode github pull request response")
          | Some state =>
              if re_trailing resp then Err (PollError "github pull request response contains trailing JSON")
              else match validateGitHubPullRequestState state repository prNumber with Some reason => Err (PollError reason) | None => Ok state end
          end
      end
  end.

(** * The poller *)

(** The calls of a poll. *)
Inductive pollCall :=
| PSources
| PRepository (source : string)
| PRequest (repository : string) (prNumber : Z)
| PClock
| PRetire (repository : string) (prNumber : Z) (merged : bool)
| PEvent (eventType message details : string).
Abbreviation pollHist := (list pollCall).

Record pollEnv := mkPollEnv {
  pe_sources : pollHist -> option (list string);
  pe_repository : pollHist -> option string;
  pe_response : pollHist -> result string githubResponse;
  pe_clock : pollHist -> time;
  pe_canceled : pollHist -> bool
}.

Record PRStatePoller := mkPoller {
  pp_repositories : list string;
  pp_keepAliveLabel : string;
  pp_rateLimitVisibilityThreshold : duration;
  pp_rateLimitedSince : time;
  pp_lastSustainedEventAt : time
}.
#[export] Instance PRStatePoller_eta : Settable PRStatePoller :=
  fun r => mkPoller (pp_repositories r) (pp_keepAliveLabel r) (pp_rateLimitVisibilityThreshold r) (pp_rateLimitedSince r) (pp_lastSustainedEventAt r).
Definition defaultPRKeepAliveLabel : string := "soak:keep-alive".
Definition NewPRStatePoller (repositoryAllowlist : list string) (keepAliveLabel : string) (visibilityThreshold : duration) : PRStatePoller :=
  let keepAliveLabel := TrimSpace keepAliveLabel in
  mkPoller (normalizedRepositoryAllowlist repositoryAllowlist) (if keepAliveLabel =s "" then defaultPRKeepAliveLabel else keepAliveLabel)
    (if (visibilityThreshold <=? 0)%Z then defaultPRRateLimitVisibilityThreshold else visibilityThreshold) 0 0.
(** The manager and its database are there. *)
Definition configurationError (p : PRStatePoller) : option string :=
  match pp_repositories p with
  | [repository] => if splitGitHubRepository repository then None else Some ("invalid upstream PR repository " +:+ Quote repository)
  | repositories => Some ("exactly one upstream PR repository is required, got " +:+ fmt_int (Z.of_nat (length repositories)))
  end.

(** [Duration.Round]. *)
Definition DurationRound (d m : duration) : duration :=
  if (m <=? 0)%Z then d
  else
    let r := Z.rem d m in
    if (d <? 0)%Z then
      let r := (- r)%Z in
      if (r + r <? m)%Z then (d + r)%Z else let d1 := int64 (d - m + r) in if (d1 <? d)%Z then d1 else min_int64
    else if (r + r <? m)%Z then (d - r)%Z
    else let d1 := int64 (d + m - r) in if (d <? d1)%Z then d1 else max_int64.

Section Poll.
Variable (env : pollEnv).

Definition rateLimitDetails (repository source : string) (since : time) (status : Z) : string :=
  "repository=" +:+ repository +:+ " source=" +:+ source +:+ " since=" +:+ FormatRFC3339 since +:+ " error=" +:+ Quote ("github API rate limited: status " +:+ fmt_int status).
Definition markRateLimited (repository source : string) (status : Z) (p : PRStatePoller) (h : pollHist) : PRStatePoller * pollHist :=
  let now := pe_clock env h in
  let h := PClock :: h in
  if IsZero (pp_rateLimitedSince p) then
    (p <| pp_rateLimitedSince := now |>,
     PEvent upstreamPRPollRateLimitedEvent "GitHub rate limiting paused upstream PR retirement polling; all affected fleets remain unchanged"
       (rateLimitDetails repository source now status) :: h)
  else
    let elapsed := time_Sub now (pp_rateLimitedSince p) in
    if (elapsed <? pp_rateLimitVisibilityThreshold p)%Z then (p, h)
    else if negb (IsZero (pp_lastSustainedEventAt p)) && (time_Sub now (pp_lastSustainedEventAt p) <? pp_rateLimitVisibilityThreshold p)%Z then (p, h)
    else
      (p <| pp_lastSustainedEventAt := now |>,
       PEvent upstreamPRPollRateLimitSustainedEvent ("GitHub rate limiting has blocked upstream PR retirement polling for " +:+ DurationString (DurationRound elapsed Minute) +:+ "; all affected fleets remain unchanged")
         (rateLimitDetails repository source (pp_rateLimitedSince p) status) :: h).
Definition resetRateLimit (p : PRStatePoller) : PRStatePoller := p <| pp_rateLimitedSince := 0%Z |> <| pp_lastSustainedEventAt := 0%Z |>.
Definition clearRateLimit (p : PRStatePoller) (h : pollHist) : PRStatePoller * pollHist :=
  if IsZero (pp_rateLimitedSince p) then (p, h)
  else
    let now := pe_clock env h in
    (resetRateLimit p, PEvent upstreamPRPollRateLimitRecoveredEvent "GitHub rate limiting no longer blocks upstream PR retirement polling"
       ("since=" +:+ FormatRFC3339 (pp_rateLimitedSince p) +:+ " recovered_at=" +:+ FormatRFC3339 now) :: PClock :: h).

(** The clock is read once for an answer, after it came; reading it where the answer is
    rejected before its date is looked at changes nothing. *)
Definition fetchPullRequestState (repository : string) (prNumber : Z) (h : pollHist) : result pollError githubPullRequestState * pollHist :=
  if negb (splitGitHubRepository repository) then (Err (PollError ("invalid github repository " +:+ Quote repository)), h)
  else
    let answer := pe_response env h in
    let h := PRequest repository prNumber :: h in
    match answer with
    | Err err => (Err (PollError ("request github pull request state: " +:+ err)), h)
    | Ok resp => (judgeResponse (pe_clock env h) repository prNumber resp, PClock :: h)
    end.

(** The loop over the sources; the result says whether the poll goes on to its end, and
    whether a source was polled. *)
Fixpoint pollSources (configuredRepository : string) (sources : list string) (polled : bool) (p : PRStatePoller) (h : pollHist)
  : PRStatePoller * pollHist * option bool :=
  match sources with
  | [] => (p, h, Some polled)
  | source :: sources =>
      let '(prNumber, ok) := pullRequestNumberFromSource source in
      if negb ok then pollSources configuredRepository sources polled p h
      else
        let repository := pe_repository env h in
        let h := PRepository source :: h in
        match repository with
        | None => pollSources configuredRepository sources polled p h
        | Some repository =>
            if (repository =s "") || negb (EqualFold repository configuredRepository) then pollSources configuredRepository sources polled p h
            else
              let '(state, h) := fetchPullRequestState repository prNumber h in
              match state with
              | Err err =>
                  if pe_canceled env h then (p, h, None)
                  else match err with
                  | RateLimited status => let '(p, h) := markRateLimited repository source status p h in (p, h, None)
                  | PollError _ => pollSources configuredRepository sources true p h
                  end
              | Ok state =>
                  if (ps_State state =s "open") || pullRequestHasLabel (default [] (ps_Labels state)) (pp_keepAliveLabel p)
                  then pollSources configuredRepository sources true p h
                  else pollSources configuredRepository sources true p (PRetire repository prNumber (default false (ps_Merged state)) :: h)
              end
        end
  end.
Definition pollOnce (p : PRStatePoller) (h : pollHist) : PRStatePoller * pollHist :=
  match configurationError p with Some _ => (p, h) | None =>
    let sources := pe_sources env h in
    let h := PSources :: h in
    match sources with
    | None => (p, h)
    | Some sources =>
        match pollSources (default "" (head (pp_repositories p))) sources false p h with
        | (p, h, None) => (p, h)
        | (p, h, Some true) => clearRateLimit p h
        | (p, h, Some false) => (resetRateLimit p, h)
        end
    end
  end.
(** [Run] over a number of ticks; the interval between them is the environment's. *)
Fixpoint pollTicks (ticks : nat) (p : PRStatePoller) (h : pollHist) : PRStatePoller * pollHist :=
  match ticks with O => (p, h) | S ticks => let '(p, h) := pollOnce p h in pollTicks ticks p h end.
Definition runPoller (ticks : nat) (p : PRStatePoller) (h : pollHist) : PRStatePoller * pollHist :=
  match configurationError p with
  | Some err => (p, PEvent upstreamPRPollConfigurationErrorEvent "Upstream PR polling is disabled by an unsafe repository configuration" err :: h)
  | None => pollTicks (S ticks) p h
  end.
End Poll.
