(* ===== verification/PRPollerProofs.v ===== *)
(** Theorems about the poller of upstream pull requests ([PRPoller]): a source is retired only
    on a confirmed answer, and the scan of the answer's body. *)
From Stdlib Require Import Ascii.
From S2P Require Import Prelude GoStrings GoTime Regex Model SoakDB Verifier Deploy PRPoller.

(** * Duplicate members *)

(** A JSON value, its tokens, and whether every object in it names its members once. *)
Inductive json := JAtom | JText (s : string) | JArray (l : list json) | JObject (l : list (string * json)).
Fixpoint tokensOf (j : json) : list jsonToken :=
  match j with
  | JAtom => [TOther]
  | JText s => [TString s]
  | JArray l => TDelim "[" :: (fix go l := match l with [] => [TDelim "]"] | j :: l => tokensOf j ++ go l end) l
  | JObject l => TDelim "{" :: (fix go l := match l with [] => [TDelim "}"] | (key, j) :: l => TString key :: tokensOf j ++ go l end) l
  end.
Fixpoint membersOnce (j : json) : bool :=
  match j with
  | JAtom | JText _ => true
  | JArray l => (fix go l := match l with [] => true | j :: l => membersOnce j && go l end) l
  | JObject l => bool_decide (NoDup (map fst l)) && (fix go l := match l with [] => true | (_, j) :: l => membersOnce j && go l end) l
  end.
Definition elementTokens (l : list json) : list jsonToken := flat_map tokensOf l ++ [TDelim "]"].
Definition memberTokens (l : list (string * json)) : list jsonToken := flat_map (fun p => TString (fst p) :: tokensOf (snd p)) l ++ [TDelim "}"].
Lemma elementTokens_cons j l : elementTokens (j :: l) = tokensOf j ++ elementTokens l.
Proof. unfold elementTokens. simpl. by rewrite app_assoc. Qed.
Lemma memberTokens_cons k j l : memberTokens ((k, j) :: l) = TString k :: tokensOf j ++ memberTokens l.
Proof. unfold memberTokens. simpl. by rewrite app_assoc. Qed.
Lemma tokensOf_array l : tokensOf (JArray l) = TDelim "[" :: elementTokens l.
Proof. simpl. f_equal. unfold elementTokens. induction l as [|j l IH]; [done|]. simpl. by rewrite IH, app_assoc. Qed.
Lemma tokensOf_object l : tokensOf (JObject l) = TDelim "{" :: memberTokens l.
Proof. simpl. f_equal. unfold memberTokens. induction l as [|[k j] l IH]; [done|]. simpl. by rewrite IH, app_assoc. Qed.
Lemma membersOnce_array l : membersOnce (JArray l) = forallb membersOnce l.
Proof. simpl. induction l as [|j l IH]; [done|]. simpl. by rewrite IH. Qed.
Lemma membersOnce_object l : membersOnce (JObject l) = bool_decide (NoDup (map fst l)) && forallb (fun p => membersOnce (snd p)) l.
Proof. simpl. f_equal. induction l as [|[k j] l IH]; [done|]. simpl. by rewrite IH. Qed.

(** Induction through the lists of a value. *)
Lemma json_induction (P : json -> Prop) : P JAtom -> (forall s, P (JText s)) -> (forall l, Forall P l -> P (JArray l)) ->
  (forall l, Forall (fun p => P (snd p)) l -> P (JObject l)) -> forall j, P j.
Proof.
  intros H1 H2 H3 H4. fix IH 1. intros [|s|l|l]; [done|done|apply H3|apply H4].
  - induction l as [|j l IHl]; constructor; [apply IH|exact IHl].
  - induction l as [|[k j] l IHl]; constructor; [apply IH|exact IHl].
Qed.

Definition scans (j : json) : Prop := forall fuel rest, length (tokensOf j) <= fuel -> scanJSONValue fuel (tokensOf j ++ rest) = if membersOnce j then Some rest else None.
Lemma more_value j rest : more (tokensOf j ++ rest) = true.
Proof. by destruct j. Qed.
Lemma tokensOf_pos j : 0 < length (tokensOf j).
Proof. destruct j; simpl; lia. Qed.

Lemma scanElements_spec l fuel rest : Forall scans l -> length (elementTokens l) <= fuel -> scanElements fuel (elementTokens l ++ rest) = if forallb membersOnce l then Some rest else None.
Proof.
  revert fuel. induction l as [|j l IH]; intros fuel Hl Hf; [destruct fuel; [simpl in Hf; lia|done]|]. apply Forall_cons in Hl as [Hj Hl].
  rewrite elementTokens_cons in *.
  rewrite length_app in Hf. pose proof (tokensOf_pos j). assert (0 < length (elementTokens l)) by (unfold elementTokens; rewrite length_app; simpl; lia).
  destruct fuel as [|fuel]; [lia|]. cbn [scanElements]. rewrite <- app_assoc, more_value, Hj by lia.
  cbn [forallb]. destruct (membersOnce j); [|done]. rewrite IH by (done || lia). done.
Qed.
Lemma NoDup_seen (k : string) (keys seen : list string) : bool_decide (NoDup (k :: keys)) && forallb (fun k => negb (slices_Contains seen k)) (k :: keys) =
  negb (slices_Contains seen k) && (bool_decide (NoDup keys) && forallb (fun x => negb (slices_Contains (k :: seen) x)) keys).
Proof.
  apply Bool.eq_true_iff_eq. rewrite !andb_true_iff, !bool_decide_eq_true, !forallb_forall, NoDup_cons. setoid_rewrite negb_true_iff. setoid_rewrite <- not_true_iff_false.
  setoid_rewrite slices_Contains_In. simpl. setoid_rewrite list_elem_of_In. split.
  - intros [[H1 H2] H3]. split_and!; [auto|done|]. intros x Hx [<-|Hs]; [done|]. by apply (H3 x); [right|].
  - intros (H1 & H2 & H3). split_and!; [|done|]. { intros Hin. apply (H3 k Hin). by left. } intros x [<-|Hx]; [done|]. intros Hs. apply (H3 x Hx). by right.
Qed.
Lemma scanMembers_spec l fuel seen rest : Forall (fun p => scans (snd p)) l -> length (memberTokens l) <= fuel -> scanMembers fuel seen (memberTokens l ++ rest) =
  if (bool_decide (NoDup (map fst l)) && forallb (fun k => negb (slices_Contains seen k)) (map fst l)) && forallb (fun p => membersOnce (snd p)) l then Some rest else None.
Proof.
  revert fuel seen. induction l as [|[k j] l IH]; intros fuel seen Hl Hf; [destruct fuel; [simpl in Hf; lia|done]|]. apply Forall_cons in Hl as [Hj Hl]. simpl in Hj.
  rewrite memberTokens_cons in *. cbn [length] in Hf. rewrite length_app in Hf. destruct fuel as [|fuel]; [lia|].
  cbn [app scanMembers more]. cbn [map fst]. rewrite NoDup_seen. destruct (slices_Contains seen k); [done|]. cbn [negb andb]. rewrite <- app_assoc, Hj by lia. cbn [forallb snd].
  destruct (membersOnce j); [|by rewrite andb_false_r]. by rewrite IH by (done || lia).
Qed.
Lemma scan_spec j : scans j.
Proof.
  induction j as [|s|l IH|l IH] using json_induction; intros fuel rest Hf.
  - destruct fuel; [simpl in Hf; lia|done].
  - destruct fuel; [simpl in Hf; lia|done].
  - rewrite tokensOf_array, membersOnce_array in *. destruct fuel; [simpl in Hf; lia|]. cbn. apply scanElements_spec; [done|]. cbn in Hf. lia.
  - rewrite tokensOf_object, membersOnce_object in *. destruct fuel; [simpl in Hf; lia|]. cbn. rewrite scanMembers_spec; [|done|cbn in Hf; lia].
    replace (forallb (fun k => negb (slices_Contains [] k)) (map fst l)) with true; [by rewrite andb_true_r|]. symmetry. by apply forallb_forall.
Qed.

(** The body of a response is accepted exactly when no object in it, at any depth, names a
    member twice, and nothing follows the value. *)
Lemma duplicate_members_rejected j rest :
  rejectDuplicateJSONMembers (tokensOf j ++ rest) = membersOnce j && match rest with [] => true | _ => false end.
Proof.
  unfold rejectDuplicateJSONMembers. rewrite scan_spec by (rewrite length_app; lia). destruct (membersOnce j); [|done]. by destruct rest.
Qed.

Lemma accepted_names_once tokens : rejectDuplicateJSONMembers tokens = true -> forall j rest, tokens = tokensOf j ++ rest -> membersOnce j = true /\ rest = [].
Proof. intros H j rest ->. rewrite duplicate_members_rejected in H. apply andb_true_iff in H as [H1 H2]. by destruct rest. Qed.

(** * What a retirement rests on *)

(** An answer of the pull request's own page, given now, that says it was closed. *)
Record confirms (keepAlive repository : string) (prNumber : Z) (merged : bool) (now : time) (resp : githubResponse) : Prop := {
  cf_answer : re_urlMatches resp = true /\ re_status resp = 200%Z;
  cf_date : exists date, re_date resp = Some date /\ (now - defaultPRStateMaxResponseAge <= date <= now + defaultPRStateMaxResponseAge)%Z;
  cf_body : re_readErr resp = None /\ (re_size resp <= maxPRStateResponseBytes)%Z /\ (forall j rest, re_tokens resp = tokensOf j ++ rest -> membersOnce j = true /\ rest = []) /\ re_trailing resp = false;
  cf_state : exists state labels, re_decoded resp = Some state /\ ps_Number state = prNumber /\ EqualFold (TrimSpace (ps_FullName state)) repository = true /\
    ps_State state = "closed" /\ ps_Merged state = Some merged /\ ps_Labels state = Some labels /\ pullRequestHasLabel labels keepAlive = false
}.
(** The source is that pull request's, and both its record and the configuration name the
    repository that was asked. *)
Definition confirmedBy (env : pollEnv) (p : PRStatePoller) (repository : string) (prNumber : Z) (merged : bool) (h : pollHist) : Prop :=
  exists source resp h0, h = PClock :: PRequest repository prNumber :: PRepository source :: h0 /\
    pullRequestNumberFromSource source = (prNumber, true) /\ pe_repository env h0 = Some repository /\ repository <> "" /\
    (exists configured, pp_repositories p = [configured] /\ EqualFold repository configured = true) /\
    pe_response env (PRepository source :: h0) = Ok resp /\
    confirms (pp_keepAliveLabel p) repository prNumber merged (pe_clock env (PRequest repository prNumber :: PRepository source :: h0)) resp.
Fixpoint okPolls (env : pollEnv) (p : PRStatePoller) (h : pollHist) : Prop :=
  match h with
  | [] => True
  | PRetire repository prNumber merged :: h => confirmedBy env p repository prNumber merged h /\ okPolls env p h
  | _ :: h => okPolls env p h
  end.

Lemma judge_confirms keepAlive repository prNumber now resp state : judgeResponse now repository prNumber resp = Ok state ->
  ps_State state <> "open" -> pullRequestHasLabel (default [] (ps_Labels state)) keepAlive = false ->
  confirms keepAlive repository prNumber (default false (ps_Merged state)) now resp.
Proof.
  unfold judgeResponse. destruct (re_urlMatches resp) eqn:Hu; [|done]. cbn [negb]. destruct ((_ =? 403)%Z || _); [done|].
  destruct (Z.eqb_spec (re_status resp) 200) as [Hst|]; [|done]. cbn [negb]. destruct (validateResponseFreshness now resp) eqn:Hf; [done|].
  destruct (re_readErr resp) eqn:Hr; [done|]. destruct (Z.ltb_spec maxPRStateResponseBytes (re_size resp)) as [|Hsz]; [done|].
  destruct (rejectDuplicateJSONMembers (re_tokens resp)) eqn:Hd; [|done]. cbn [negb]. destruct (re_decoded resp) as [st|] eqn:Hdec; [|done].
  destruct (re_trailing resp) eqn:Htr; [done|]. destruct (validateGitHubPullRequestState st repository prNumber) eqn:Hv; [done|]. intros [= <-] Hopen Hlab.
  split; [done| |split_and!; [done|done|by apply accepted_names_once|done]|].
  - unfold validateResponseFreshness in Hf. destruct (re_date resp) as [date|]; [|done]. exists date. split; [done|].
    destruct (Before date _) eqn:Hb; [done|]. destruct (After date _) eqn:Ha; [done|]. unfold Before, After, time_Add in *. lia.
  - unfold validateGitHubPullRequestState in Hv. destruct (Z.eqb_spec (ps_Number st) prNumber) as [Hn|]; [|done]. cbn [negb] in Hv.
    destruct (EqualFold (TrimSpace (ps_FullName st)) repository) eqn:Hrep; [|done]. cbn [negb] in Hv.
    destruct (String.eqb_spec (ps_State st) "open"); [done|]. destruct (String.eqb_spec (ps_State st) "closed") as [Hc|]; [|done]. simpl in Hv.
    destruct (ps_Merged st) as [merged|] eqn:Hm; [|done]. destruct (ps_Labels st) as [labels|] eqn:Hl; [|done]. exists st, labels. by split_and!.
Qed.

(** A call that retires nothing. *)
Lemma pollSources_ok env p0 configured sources polled p h p' h' r : pp_repositories p0 = [configured] -> pp_keepAliveLabel p = pp_keepAliveLabel p0 ->
  okPolls env p0 h -> pollSources env configured sources polled p h = (p', h', r) ->
  okPolls env p0 h' /\ pp_repositories p' = pp_repositories p /\ pp_keepAliveLabel p' = pp_keepAliveLabel p.
Proof.
  intros Hrep. revert polled p h. induction sources as [|source sources IH]; intros polled p h Hkeep Hok H; simpl in H; [by injection H as <- <- <-|].
  destruct (pullRequestNumberFromSource source) as [prNumber []] eqn:Hpr; [|by refine (IH _ _ _ Hkeep _ H)]. simpl in H.
  destruct (pe_repository env h) as [repository|] eqn:Hr; [|by refine (IH _ _ _ Hkeep _ H)]. destruct (String.eqb_spec repository "") as [|Hne]; [by refine (IH _ _ _ Hkeep _ H)|]. simpl in H.
  destruct (EqualFold repository configured) eqn:Hfold; [|by refine (IH _ _ _ Hkeep _ H)]. simpl in H. unfold fetchPullRequestState in H.
  destruct (splitGitHubRepository repository); simpl in H; [|destruct (pe_canceled _ _); [by injection H as <- <- <-|by refine (IH _ _ _ Hkeep _ H)]].
  destruct (pe_response env (PRepository source :: h)) as [resp|] eqn:Hresp; [|destruct (pe_canceled _ _); [by injection H as <- <- <-|by refine (IH _ _ _ Hkeep _ H)]].
  destruct (judgeResponse _ repository prNumber resp) as [state|err] eqn:Hj.
  - destruct (String.eqb_spec (ps_State state) "open") as [|Hopen]; [by refine (IH _ _ _ Hkeep _ H)|]. simpl in H.
    destruct (pullRequestHasLabel _ _) eqn:Hlab; [by refine (IH _ _ _ Hkeep _ H)|]. eapply IH; [exact Hkeep| |exact H]. split; [|exact Hok]. exists source, resp, h. split_and!; try done; [by exists configured|].
    rewrite <- Hkeep. by apply judge_confirms.
  - destruct (pe_canceled _ _); [by injection H as <- <- <-|]. destruct err as [status|]; [|by refine (IH _ _ _ Hkeep _ H)]. unfold markRateLimited in H.
    destruct (IsZero _); [by injection H as <- <- <-|]. destruct (_ <? _)%Z; [by injection H as <- <- <-|]. destruct (_ && _); by injection H as <- <- <-.
Qed.
Lemma pollOnce_ok env p0 p h : pp_repositories p = pp_repositories p0 -> pp_keepAliveLabel p = pp_keepAliveLabel p0 -> okPolls env p0 h ->
  let '(p', h') := pollOnce env p h in okPolls env p0 h' /\ pp_repositories p' = pp_repositories p0 /\ pp_keepAliveLabel p' = pp_keepAliveLabel p0.
Proof.
  intros Hrep Hkeep Hok. unfold pollOnce, configurationError. rewrite Hrep. destruct (pp_repositories p0) as [|configured [|]] eqn:Hr0; [done| |done].
  destruct (splitGitHubRepository configured); [|done]. destruct (pe_sources env h) as [sources|]; [|done]. cbn [head default].
  destruct (pollSources env configured sources false p (PSources :: h)) as [[p' h'] r] eqn:Hp.
  destruct (pollSources_ok env p0 configured sources false p (PSources :: h) p' h' r Hr0 Hkeep Hok Hp) as (A & B & C).
  rewrite Hrep in B. rewrite Hkeep in C.
  cbn -[pollSources clearRateLimit resetRateLimit]. rewrite Hp.
  destruct r as [[]|]; [|by split_and!..]. unfold clearRateLimit. destruct (IsZero _); by split_and!.
Qed.
Lemma pollTicks_ok env p0 ticks p h : pp_repositories p = pp_repositories p0 -> pp_keepAliveLabel p = pp_keepAliveLabel p0 -> okPolls env p0 h ->
  okPolls env p0 (snd (pollTicks env ticks p h)).
Proof.
  revert p h. induction ticks as [|ticks IH]; intros p h H1 H2 Hok; [done|]. simpl. pose proof (pollOnce_ok env p0 p h H1 H2 Hok) as H.
  destruct (pollOnce env p h) as [p' h']. destruct H as (A & B & C). by apply IH.
Qed.
Lemma okPolls_app env p h1 h2 : okPolls env p (h1 ++ h2) -> okPolls env p h2.
Proof. induction h1 as [|c h1 IH]; [done|]. destruct c; simpl; try done. intros [_ ?]. auto. Qed.

(** C19: However GitHub, the network, the clock and the database answer, the workers of a source
    are retired only right after an answer of the source's own pull request, in the one configured
    repository that the source is bound to, with the request's URL, status 200 and a date within
    five minutes of the clock, whose body is complete, names in no object, at any depth, a member twice, and says that
    this pull request of this repository is closed, whether it was merged, and that it does not carry the
    keep-alive label; an error or a rate limit retires nothing. *)
Theorem retired_only_when_confirmed env p ticks repository prNumber merged pre post :
  snd (runPoller env ticks p []) = post ++ PRetire repository prNumber merged :: pre -> confirmedBy env p repository prNumber merged pre.
Proof.
  intros H. assert (okPolls env p (snd (runPoller env ticks p []))) as Hok.
  { unfold runPoller. destruct (configurationError p); [done|]. by apply pollTicks_ok. }
  rewrite H in Hok. apply okPolls_app in Hok. apply Hok.
Qed.

(** * Examples *)

Definition closedState : githubPullRequestState := mkPRState 7 "closed" (Some true) (Some ["bug"]) "benbjohnson/litestream".
Definition closedResponse (age : string) : githubResponse := mkResponse true 200 (Some (1000 * Second)%Z) age None 10 (tokensOf (JObject [("number", JAtom)])) (Some closedState) false.
Definition closedEnv (age : string) : pollEnv := mkPollEnv (fun _ => Some ["main"; "pr-7"]) (fun _ => Some "benbjohnson/litestream") (fun _ => Ok (closedResponse age))
  (fun _ => (1001 * Second)%Z) (fun _ => false).
Definition demoPoller : PRStatePoller := NewPRStatePoller [" benbjohnson/litestream "] "" 0.
Lemma retired_only_when_confirmed_witness : exists pre, snd (runPoller (closedEnv "") 0 demoPoller []) = PRetire "benbjohnson/litestream" 7 true :: pre /\
  confirmedBy (closedEnv "") demoPoller "benbjohnson/litestream" 7 true pre.
Proof.
  eexists. split; [vm_compute; reflexivity|]. apply (retired_only_when_confirmed (closedEnv "") demoPoller 0 _ _ _ _ []). vm_compute. reflexivity.
Defined.

(** An age in seconds that overflows the nanoseconds of a duration passes for a fresh answer. *)
Example age_overflow_is_fresh : validateResponseFreshness (1001 * Second) (closedResponse "301") <> None /\
  validateResponseFreshness (1001 * Second) (closedResponse "18446744074") = None.
Proof. split; [vm_compute; discriminate|vm_compute; reflexivity]. Qed.
