(* ===== verification/Webhook.v ===== *)
(** GitHub's webhook deliveries, [orchestrator/webhook.go]: the authentication of a
    delivery, what a push and a closed pull request set off, and the retirement of a pull request's
    source ([archiveAndDestroyTerminalPRSource] of [lifecycle.go]) with its retries.

    A body, a digest and a secret are the strings of their bytes.  The digest function and the JSON
    decoder are arguments; a background task is recorded as what it was started with. *)
From Stdlib Require Import Ascii.
From S2P Require Import Prelude GoStrings GoTime Model SoakDB WorkerStore Provisioning WorkerManager LifecyclePolicy PRPoller.

Definition maxWebhookBodyBytes : Z := Z.shiftl 1 20.
Definition sourceRetirementMaxAttempts : nat := 3.
Definition defaultPRRetirementRetryInterval : duration := (30 * Second)%Z.

(** * Signatures *)

(** [hex.DecodeString]. *)
Definition fromHexChar (c : ascii) : option nat :=
  let n := nat_of_ascii c in
  if (48 <=? n) && (n <=? 57) then Some (n - 48)
  else if (97 <=? n) && (n <=? 102) then Some (n - 87)
  else if (65 <=? n) && (n <=? 70) then Some (n - 55)
  else None.
Fixpoint hexDecodeString (s : string) : option string :=
  match s with
  | EmptyString => Some ""
  | String a (String b s) =>
      match fromHexChar a, fromHexChar b with
      | Some a, Some b => match hexDecodeString s with Some d => Some (String (ascii_of_nat (16 * a + b)) d) | None => None end
      | _, _ => None
      end
  | String _ EmptyString => None
  end.

(** * Deliveries *)

Record pullRequestPayload := mkPRPayload {
  pl_Action : string;
  pl_Number : Z;
  pl_FullName : string;
  pl_Merged : bool;
  pl_Labels : list string
}.
Record pushPayload := mkPush {
  pu_Ref : string;
  pu_After : string;
  pu_FullName : string;
  pu_Message : string
}.
(** [wq_body] is what can be read of the body, [wq_readErr] whether reading then fails. *)
Record webhookRequest := mkDelivery {
  wq_method : string;
  wq_body : string;
  wq_readErr : bool;
  wq_signature : string;  (** [X-Hub-Signature-256] *)
  wq_event : string       (** [X-GitHub-Event] *)
}.
(** [wh_manager] and [wh_deployer] say that they are there. *)
Record WebhookHandler := mkHandler {
  wh_secret : string;
  wh_deployer : bool;
  wh_manager : bool;
  wh_deployEnabled : bool;
  wh_prRepositoryAllowlist : list string;
  wh_prKeepAliveLabel : string;
  wh_prRetirementRetryInterval : duration
}.
Definition NewWebhookHandler (secret : string) (deployEnabled : bool) (allowlist : list string) (keepAliveLabel : string)
    (retryInterval : duration) (deployer manager : bool) : WebhookHandler :=
  let keepAliveLabel := TrimSpace keepAliveLabel in
  mkHandler secret deployer manager deployEnabled (normalizedRepositoryAllowlist allowlist)
    (if keepAliveLabel =s "" then defaultPRKeepAliveLabel else keepAliveLabel)
    (if (retryInterval <=? 0)%Z then defaultPRRetirementRetryInterval else retryInterval).

Inductive webhookAct :=
| WEvent (eventType message details : string)
| WRetire (payload : pullRequestPayload)  (** [go h.retirePullRequestSource(payload)] *)
| WDeploy (sha : string).                 (** [go h.deployer.DeployNewSHA(sha)] *)

(** A status and the text of the reply. *)
Definition reply : Type := Z * string.
(** [http.Error] and [fmt.Fprintln] end the text with a newline. *)
Definition writeWebhookMessage (status : Z) (message : string) : reply := (status, message +:+ String newline "").

Definition repositoryAllowed (repository : string) (allowlist : list string) : bool :=
  existsb (fun allowed => EqualFold repository allowed) allowlist.
Definition recordWebhookEvent (h : WebhookHandler) (eventType message details : string) : list webhookAct :=
  if wh_manager h || wh_deployer h then [WEvent eventType message details] else [].

Section Handler.
Variable hmac : string -> string -> string.  (** the HMAC-SHA256 of a body under a key *)
Variable decodePullRequest : string -> option pullRequestPayload.
Variable decodePush : string -> option pushPayload.

Definition verifySignature (h : WebhookHandler) (body signature : string) : bool :=
  if negb (HasPrefix signature "sha256=") then false
  else match hexDecodeString (TrimPrefix signature "sha256=") with
  | None => false
  | Some sig => sig =s hmac (wh_secret h) body
  end.

Definition handlePullRequest (h : WebhookHandler) (body : string) : reply * list webhookAct :=
  match decodePullRequest body with
  | None => (writeWebhookMessage 400 "invalid payload", [])
  | Some payload =>
      if negb (pl_Action payload =s "closed") then (writeWebhookMessage 200 "ignored: pull request is not closed", [])
      else
        let repository := TrimSpace (pl_FullName payload) in
        if negb (repositoryAllowed repository (wh_prRepositoryAllowlist h)) then (writeWebhookMessage 200 "ignored: repository is not allowlisted", [])
        else if (pl_Number payload <=? 0)%Z then (writeWebhookMessage 400 "invalid pull request number", [])
        else if pullRequestHasLabel (pl_Labels payload) (wh_prKeepAliveLabel h) then
          (writeWebhookMessage 200 "ignored: pull request has keep-alive label",
           recordWebhookEvent h "upstream_pr_retirement_skipped"
             ("Kept " +:+ repository +:+ "#" +:+ fmt_int (pl_Number payload) +:+ " active after the upstream PR closed because it has label " +:+ wh_prKeepAliveLabel h) "keep_alive_label")
        else if negb (wh_manager h) then (writeWebhookMessage 503 "source retirement unavailable", [])
        else
          let source := "pr-" +:+ fmt_int (pl_Number payload) in
          let state := if pl_Merged payload then "merged" else "closed" in
          (writeWebhookMessage 202 ("retiring " +:+ source),
           recordWebhookEvent h "upstream_pr_terminal_received"
             ("Upstream PR " +:+ repository +:+ "#" +:+ fmt_int (pl_Number payload) +:+ " " +:+ state +:+ "; retiring " +:+ source) source ++ [WRetire payload])
  end.

Definition handlePush (h : WebhookHandler) (body : string) : reply * list webhookAct :=
  match decodePush body with
  | None => (writeWebhookMessage 400 "invalid payload", [])
  | Some payload =>
      if negb (pu_Ref payload =s "refs/heads/main") then (writeWebhookMessage 200 "ignored: not main branch", [])
      else
        let sha := pu_After payload in
        let received := if wh_deployer h then [WEvent "github_push_received" ("Push received for " +:+ trimSHA sha +:+ " on main") (pu_Message payload)] else [] in
        if negb (wh_deployEnabled h) then
          (writeWebhookMessage 202 "acknowledged: awaiting external deploy automation",
           received ++ if wh_deployer h then [WEvent "github_push_awaiting_ci" "Push acknowledged; awaiting external deploy automation" sha] else [])
        else (writeWebhookMessage 202 ("deploying " +:+ sha), received ++ [WDeploy sha])
  end.

Definition ServeWebhook (h : WebhookHandler) (r : webhookRequest) : reply * list webhookAct :=
  if negb (wq_method r =s "POST") then (writeWebhookMessage 405 "method not allowed", [])
  else if (maxWebhookBodyBytes <? str_len (wq_body r))%Z then (writeWebhookMessage 413 "payload too large", [])
  else if wq_readErr r then (writeWebhookMessage 400 "failed to read body", [])
  else if wh_secret h =s "" then (writeWebhookMessage 503 "webhook secret not configured", [])
  else if negb (verifySignature h (wq_body r) (wq_signature r)) then (writeWebhookMessage 401 "invalid signature", [])
  else if wq_event r =s "push" then handlePush h (wq_body r)
  else if wq_event r =s "pull_request" then handlePullRequest h (wq_body r)
  else if wq_event r =s "ping" then (writeWebhookMessage 200 "pong", [])
  else ((200%Z, ""), []).
End Handler.

(** * Retirement *)

(** What an attempt meets: whether the source's lock is taken before the deadline, the
    platform, and the outcome of archiving. *)
Record attemptEnv := mkAttempt {
  at_lock : option string;
  at_cleanup : cleanup;
  at_archive : result () (Z * bool)
}.
Inductive retireError := NotLocked (err : string) | TeardownError (err : teardownError).

Section Retire.
Context `{Decoders} `{Platform}.
Variable joined : list cleanupFailure -> string.
Variable errorText : retireError -> string.
Variable failedAt : time.  (** the clock when a failure is recorded *)
Variable attempts : nat -> attemptEnv.
(** [waitForRetirementRetry]: what the control plane has become after the wait, unless the
    context ends first. *)
Variable waitForRetirementRetry : nat -> manager -> manager * bool.

Definition archiveAndDestroyTerminalPRSource (e : attemptEnv) (repository : string) (prNumber : Z) (merged : bool) (m : manager)
  : result retireError SourceTeardownResponse * manager :=
  let source := "pr-" +:+ fmt_int prNumber in
  let state := if merged then "merged" else "closed" in
  let summary := "Upstream PR " +:+ repository +:+ "#" +:+ fmt_int prNumber +:+ " was " +:+ state +:+
    "; archiving current evidence and destroying worker compute, volumes, and replica prefix data." in
  match at_lock e with
  | Some err => (Err (NotLocked err), m)
  | None =>
      match archiveAndDestroySourceWorkers (at_cleanup e) joined (at_archive e) m source "upstream_pr" summary (fun _ => false) false with
      | (Ok r, m) => (Ok r, m)
      | (Err err, m) => (Err (TeardownError err), m)
      end
  end.

(** Nothing is left for a further attempt. *)
Definition retirementSettled (r : result retireError SourceTeardownResponse) : bool :=
  match r with
  | Err (TeardownError errSourceNotFound) | Err (TeardownError errSourceDeploymentNotFound) => true
  | Err _ => false
  | Ok result => td_Complete result
  end.
(** The attempts from [attempt] on, [tries] at most: their results in order. *)
Fixpoint retireAttempts (tries attempt : nat) (payload : pullRequestPayload) (m : manager)
  : list (result retireError SourceTeardownResponse) * manager :=
  match tries with
  | O => ([], m)
  | S tries =>
      let '(r, m) := archiveAndDestroyTerminalPRSource (attempts attempt) (TrimSpace (pl_FullName payload)) (pl_Number payload) (pl_Merged payload) m in
      if retirementSettled r then ([r], m)
      else match tries with
      | O => ([r], m)
      | _ =>
          let '(m, waited) := waitForRetirementRetry attempt m in
          if waited then let '(l, m) := retireAttempts tries (S attempt) payload m in (r :: l, m)
          else ([r], m)
      end
  end.
Definition recordRetirementFailure (payload : pullRequestPayload) (details : string) (m : manager) : manager :=
  on_db (RecordEvent failedAt "" "upstream_pr_source_teardown_failed"
    ("Failed to retire pr-" +:+ fmt_int (pl_Number payload) +:+ " after " +:+ TrimSpace (pl_FullName payload) +:+ "#" +:+ fmt_int (pl_Number payload) +:+ " closed") details) m.
Definition retirePullRequestSource (payload : pullRequestPayload) (m : manager)
  : list (result retireError SourceTeardownResponse) * manager :=
  let '(l, m) := retireAttempts sourceRetirementMaxAttempts 1 payload m in
  (l, match last l with
      | Some r =>
          if retirementSettled r then m
          else match r with
          | Err err => recordRetirementFailure payload (errorText err) m
          | Ok result => if td_Complete result then m else recordRetirementFailure payload ("failed_workers=" +:+ fmt_int (td_FailedWorkers result)) m
          end
      | None => m
      end).
End Retire.
