(* ===== verification/WebhookProofs.v ===== *)
(** Theorems about GitHub's webhook deliveries ([Webhook]): which deliveries set anything off, and how
    a retirement ends. *)
From Stdlib Require Import Ascii.
From S2P Require Import Prelude GoStrings GoTime Model Classification SoakDB WorkerStore Provisioning WorkerManager LifecyclePolicy PRPoller Webhook.

(** * Signatures *)

(** [hex.EncodeToString]. *)
Definition hexDigit (n : nat) : ascii := ascii_of_nat (if n <? 10 then 48 + n else 87 + n).
Fixpoint hexEncode (d : string) : string :=
  match d with EmptyString => "" | String c d => String (hexDigit (nat_of_ascii c / 16)) (String (hexDigit (nat_of_ascii c mod 16)) (hexEncode d)) end.

Lemma every_char (f : ascii -> bool) : forallb f (map ascii_of_nat (seq 0 256)) = true -> forall c, f c = true.
Proof.
  intros H c. rewrite forallb_forall in H. apply H. apply in_map_iff. exists (nat_of_ascii c). split; [apply ascii_nat_embedding|].
  apply in_seq. pose proof (nat_ascii_bounded c). lia.
Qed.
Lemma fromHexChar_lower c n : fromHexChar c = Some n -> n < 16 /\ lower_char c = hexDigit n.
Proof.
  intros H. assert ((match fromHexChar c with Some n => (n <? 16) && Ascii.eqb (lower_char c) (hexDigit n) | None => true end) = true) as E.
  { revert c H. intros c _. revert c. apply every_char. vm_compute. reflexivity. }
  rewrite H in E. apply andb_true_iff in E as [H1 H2]. apply Nat.ltb_lt in H1. by apply Ascii.eqb_eq in H2.
Qed.
Lemma fromHexChar_digit c n : n < 16 -> lower_char c = hexDigit n -> fromHexChar c = Some n.
Proof.
  intros Hn H. assert (forallb (fun n => negb (Ascii.eqb (lower_char c) (hexDigit n)) || bool_decide (fromHexChar c = Some n)) (seq 0 16) = true) as E.
  { clear. revert c. apply every_char. vm_compute. reflexivity. }
  rewrite forallb_forall in E. specialize (E n). rewrite H, Ascii.eqb_refl in E. cbn [negb orb] in E.
  eapply bool_decide_eq_true_1. apply E, in_seq. lia.
Qed.
Lemma byte_digits c : exists a b, a < 16 /\ b < 16 /\ c = ascii_of_nat (16 * a + b) /\ nat_of_ascii c / 16 = a /\ nat_of_ascii c mod 16 = b.
Proof.
  pose proof (nat_ascii_bounded c) as Hc. exists (nat_of_ascii c / 16), (nat_of_ascii c mod 16). split_and!; try done.
  - by apply Nat.Div0.div_lt_upper_bound.
  - by apply Nat.mod_upper_bound.
  - by rewrite <- Nat.div_mod_eq, ascii_nat_embedding.
Qed.
Lemma digits_byte a b : a < 16 -> b < 16 -> nat_of_ascii (ascii_of_nat (16 * a + b)) / 16 = a /\ nat_of_ascii (ascii_of_nat (16 * a + b)) mod 16 = b.
Proof.
  intros Ha Hb. rewrite nat_ascii_embedding by lia. split; [symmetry; apply (Nat.div_unique _ _ _ b)|symmetry; apply (Nat.mod_unique _ _ a)]; lia.
Qed.

(** Decoding accepts exactly the encoding, in either case of its letters. *)
Lemma hexDecode_spec s d : hexDecodeString s = Some d <-> ToLower s = hexEncode d.
Proof.
  revert d. assert (forall n s d, String.length s <= n -> hexDecodeString s = Some d <-> ToLower s = hexEncode d) as H; [|intros d; by apply (H (String.length s))].
  induction n as [|n IH]; intros [|a [|b t]] d Hn; simpl in Hn; try lia; try (destruct d; simpl; split; intros; done || by simplify_eq).
  cbn [hexDecodeString]. change (ToLower (String a (String b t))) with (String (lower_char a) (String (lower_char b) (ToLower t))).
  split.
  - destruct (fromHexChar a) as [x|] eqn:Ha; [|done]. destruct (fromHexChar b) as [y|] eqn:Hb; [|done].
    destruct (hexDecodeString t) as [e|] eqn:Ht; [|done]. intros E. assert (d = String (ascii_of_nat (16 * x + y)) e) as -> by congruence. apply IH in Ht; [|lia].
    apply fromHexChar_lower in Ha as [Hx ->], Hb as [Hy ->]. cbn [hexEncode]. destruct (digits_byte x y Hx Hy) as [-> ->]. by rewrite Ht.
  - destruct d as [|c d]; [done|]. cbn [hexEncode]. destruct (byte_digits c) as (x & y & Hx & Hy & Hc & -> & ->). intros [= Ha Hb Ht].
    rewrite (fromHexChar_digit a x), (fromHexChar_digit b y) by done. apply IH in Ht; [|lia]. rewrite Ht. by rewrite <- Hc.
Qed.

Lemma TrimPrefix_itself p s : TrimPrefix (p +:+ s) p = s.
Proof. unfold TrimPrefix. rewrite HasPrefix_app. induction p as [|c p IH]; [by destruct s|done]. Qed.

Section Authorised.
Variable hmac : string -> string -> string.
Variable decodePullRequest : string -> option pullRequestPayload.
Variable decodePush : string -> option pushPayload.

(** A complete delivery that carries the digest of its body under the configured secret. *)
Definition authentic (h : WebhookHandler) (r : webhookRequest) : Prop :=
  wq_method r = "POST" /\ (str_len (wq_body r) <= maxWebhookBodyBytes)%Z /\ wq_readErr r = false /\ wh_secret h <> "" /\
  exists s, wq_signature r = "sha256=" +:+ s /\ ToLower s = hexEncode (hmac (wh_secret h) (wq_body r)).
Definition retirable (h : WebhookHandler) (payload : pullRequestPayload) : Prop :=
  pl_Action payload = "closed" /\ (exists allowed, In allowed (wh_prRepositoryAllowlist h) /\ EqualFold (TrimSpace (pl_FullName payload)) allowed = true) /\
  (0 < pl_Number payload)%Z /\ pullRequestHasLabel (pl_Labels payload) (wh_prKeepAliveLabel h) = false /\ wh_manager h = true.

Lemma verifySignature_spec h body signature : verifySignature hmac h body signature = true <->
  exists s, signature = "sha256=" +:+ s /\ ToLower s = hexEncode (hmac (wh_secret h) body).
Proof.
  unfold verifySignature. destruct (HasPrefix signature "sha256=") eqn:Hp; cbn [negb].
  - apply HasPrefix_spec in Hp as [s ->]. rewrite TrimPrefix_itself. split.
    + destruct (hexDecodeString s) as [d|] eqn:Hd; [|done]. intros E. apply eqs_true in E as ->. exists s. split; [done|]. by apply hexDecode_spec.
    + intros (s' & E & Hs). apply (inj (String.app "sha256=")) in E as ->. apply hexDecode_spec in Hs as ->. by apply eqs_true.
  - split; [done|]. intros (s & -> & _). by rewrite HasPrefix_app in Hp.
Qed.
Lemma served_when_authentic h r a : In a (snd (ServeWebhook hmac decodePullRequest decodePush h r)) <->
  authentic h r /\ (wq_event r = "push" /\ In a (snd (handlePush decodePush h (wq_body r))) \/
                    wq_event r = "pull_request" /\ In a (snd (handlePullRequest decodePullRequest h (wq_body r)))).
Proof.
  unfold ServeWebhook, authentic. destruct (eqs_spec (wq_method r) "POST"); cbn [negb snd]; [|naive_solver].
  destruct (Z.ltb_spec maxWebhookBodyBytes (str_len (wq_body r))); [simpl; intuition lia|].
  destruct (wq_readErr r); [naive_solver|]. destruct (eqs_spec (wh_secret h) ""); [naive_solver|].
  destruct (verifySignature hmac h (wq_body r) (wq_signature r)) eqn:Hv; cbn [negb].
  - apply verifySignature_spec in Hv. destruct (eqs_spec (wq_event r) "push") as [->|]; [naive_solver|].
    destruct (eqs_spec (wq_event r) "pull_request") as [->|]; [naive_solver|]. destruct (_ =s _); naive_solver.
  - assert (~ exists s, wq_signature r = "sha256=" +:+ s /\ ToLower s = hexEncode (hmac (wh_secret h) (wq_body r))) as Hn by (rewrite <- verifySignature_spec, Hv; done).
    naive_solver.
Qed.

Lemma pushed_when h body a : In a (snd (handlePush decodePush h body)) -> match a with WRetire _ => False | WEvent _ _ _ => True
  | WDeploy sha => exists payload, decodePush body = Some payload /\ pu_Ref payload = "refs/heads/main" /\ pu_After payload = sha /\ wh_deployEnabled h = true end.
Proof.
  unfold handlePush. destruct (decodePush body) as [payload|]; [|done]. destruct (eqs_spec (pu_Ref payload) "refs/heads/main"); cbn [negb]; [|done].
  destruct (wh_deployEnabled h), (wh_deployer h); simpl; intros Ha; intuition (subst; eauto).
Qed.
Lemma retired_when h body payload : In (WRetire payload) (snd (handlePullRequest decodePullRequest h body)) <-> decodePullRequest body = Some payload /\ retirable h payload.
Proof.
  unfold handlePullRequest, retirable. destruct (decodePullRequest body) as [q|]; [|naive_solver].
  transitivity (q = payload /\ retirable h q); [|unfold retirable; naive_solver]. unfold retirable.
  destruct (eqs_spec (pl_Action q) "closed"); cbn [negb snd]; [|naive_solver].
  destruct (repositoryAllowed (TrimSpace (pl_FullName q)) (wh_prRepositoryAllowlist h)) eqn:Hal; cbn [negb snd].
  2: { split; [done|]. intros (_ & _ & Hex & _). apply not_true_iff_false in Hal. apply Hal. by apply existsb_exists. }
  apply existsb_exists in Hal. destruct (Z.leb_spec (pl_Number q) 0); cbn [snd]; [split; [done|intuition lia]|].
  unfold recordWebhookEvent. destruct (pullRequestHasLabel _ _); [split; [destruct (wh_manager h || wh_deployer h); naive_solver|naive_solver]|].
  destruct (wh_manager h); cbn [negb orb snd app]; [|naive_solver]. split; [intros [|[E|[]]]; [done|]; by injection E as ->|]. intros [-> _]. simpl. auto.
Qed.

(** C20: Whatever is delivered, nothing is recorded or started unless it is a complete POST of at most a megabyte that
    carries the HMAC of its body under a configured secret, in hexadecimal; a
    retirement is started exactly for such a delivery of a pull-request event whose payload says that a pull request
    of an allowed repository was closed without the keep-alive label, and a deployment only for a push to the
    main branch where that is enabled. *)
Theorem webhook_actions_authorised h r :
  (forall a, In a (snd (ServeWebhook hmac decodePullRequest decodePush h r)) -> authentic h r) /\
  (forall payload, In (WRetire payload) (snd (ServeWebhook hmac decodePullRequest decodePush h r)) <->
     authentic h r /\ wq_event r = "pull_request" /\ decodePullRequest (wq_body r) = Some payload /\ retirable h payload) /\
  (forall sha, In (WDeploy sha) (snd (ServeWebhook hmac decodePullRequest decodePush h r)) ->
     wh_deployEnabled h = true /\ wq_event r = "push" /\ exists payload, decodePush (wq_body r) = Some payload /\ pu_Ref payload = "refs/heads/main" /\ pu_After payload = sha).
Proof.
  split_and!; setoid_rewrite served_when_authentic.
  - by intros a [H _].
  - intros payload. split.
    + intros [Ha [[_ Hp]|[He Hp]]]; [by apply pushed_when in Hp|]. by apply retired_when in Hp.
    + intros (Ha & He & Hp). split; [done|right]. split; [done|]. by apply retired_when.
  - intros sha [_ [[He Hp]|[He Hp]]].
    + apply pushed_when in Hp as (payload & H1 & H2 & H3 & H4). eauto 10.
    + unfold handlePullRequest, recordWebhookEvent in Hp. repeat (case_match; simpl in Hp; try tauto); intuition discriminate.
Qed.
End Authorised.

(** * Retirement *)

(** A number has no spaces around it. *)
Lemma decimal_no_space n s : str_forall (fun c => negb (is_space c)) s = true -> str_forall (fun c => negb (is_space c)) (pretty_N_go n s) = true.
Proof.
  revert s. induction (N.lt_wf_0 n) as [n _ IH]. intros s Hs. destruct (decide (0 < n)%N) as [Hn|Hn].
  - rewrite pretty_N_go_step by done. apply IH; [apply N.div_lt; lia|]. simpl. rewrite Hs, andb_true_r. unfold pretty_N_char. by repeat case_match.
  - replace n with 0%N by lia. by rewrite pretty_N_go_0.
Qed.
Lemma natural_no_space (n : N) : str_forall (fun c => negb (is_space c)) (pretty n) = true.
Proof. unfold pretty, pretty_N. case_decide; [done|]. by apply decimal_no_space. Qed.
Lemma source_trimmed n : TrimSpace ("pr-" +:+ fmt_int n) = "pr-" +:+ fmt_int n.
Proof.
  apply TrimSpace_none. rewrite str_forall_app. apply andb_true_intro. split; [done|]. destruct n as [|p|p]; [done|exact (natural_no_space (N.pos p))|].
  change (str_forall (fun c => negb (is_space c)) ("-" +:+ pretty (N.pos p)) = true). rewrite str_forall_app. apply natural_no_space.
Qed.

Section Retirement.
Context `{Decoders} `{Platform}.

(** A row of the worker is stopped. *)
Definition stoppedIn (m : manager) (id : string) : Prop := exists w, find_worker (mg_workers m) id = Some w /\ w_Status w = WorkerStopped.

Lemma destroy_keeps cl joined m i r m' j w : destroyWorker cl joined m i = (r, m') -> j <> i -> find_worker (mg_workers m) j = Some w -> find_worker (mg_workers m') j = Some w.
Proof. intros Hd Hne Hw. destruct (destroy_find cl joined _ _ _ _ _ _ Hd Hw) as (w' & Hw' & Hs & _). by rewrite Hw', Hs. Qed.

(** One worker of a teardown that keeps none: its row is stopped unless the teardown is incomplete, and no other row
    changes. *)
Lemma teardown_one cl joined r m w r' m' : find_worker (mg_workers m) (w_ID w) = Some w ->
  teardownStep cl joined (fun _ => false) false (r, m) w = (r', m') ->
  (td_Complete r' = true -> td_Complete r = true /\ stoppedIn m' (w_ID w)) /\
  (forall j x, j <> w_ID w -> find_worker (mg_workers m) j = Some x -> find_worker (mg_workers m') j = Some x).
Proof.
  intros Hw. unfold teardownStep, status_in. simpl. rewrite orb_false_r, andb_true_r. case_bool_decide as Hs.
  { intros E. injection E as <- <-. split; [|done]. intros Hc. split; [done|]. by exists w. }
  destruct (destroyWorker cl joined m (w_ID w)) as [res m1] eqn:Hd. pose proof (destroy_find cl joined _ _ _ _ _ _ Hd Hw) as (w' & Hw' & _ & Hstop).
  assert (forall j x, j <> w_ID w -> find_worker (mg_workers m) j = Some x -> find_worker (mg_workers m1) j = Some x) as Hkeep by (intros j x; by apply (destroy_keeps cl joined _ _ _ _ _ _ Hd)).
  destruct res as [u|[| | |]]; intros E; injection E as <- <-; (split; [|done]); intros Hc; simpl in Hc; try done; (split; [done|]); exists w'; (split; [done|]); eauto.
Qed.
Lemma teardown_all cl joined l r m r' m' : NoDup (map w_ID l) -> (forall w, In w l -> find_worker (mg_workers m) (w_ID w) = Some w) ->
  fold_left (teardownStep cl joined (fun _ => false) false) l (r, m) = (r', m') ->
  (td_Complete r' = true -> td_Complete r = true /\ forall w, In w l -> stoppedIn m' (w_ID w)) /\
  (forall j x, ~ In j (map w_ID l) -> find_worker (mg_workers m) j = Some x -> find_worker (mg_workers m') j = Some x).
Proof.
  revert r m. induction l as [|w l IH]; intros r m Hn Hf Hrun; [by injection Hrun as <- <-|]. rewrite fold_left_cons in Hrun.
  simpl in Hn. apply NoDup_cons in Hn as [Hnew Hn]. rewrite list_elem_of_In in Hnew.
  destruct (teardownStep cl joined (fun _ => false) false (r, m) w) as [r1 m1] eqn:E. apply teardown_one in E as [H1 H2]; [|by apply Hf; left].
  apply IH in Hrun as [H3 H4]; [|done|].
  - split.
    + intros Hc. destruct (H3 Hc) as [Hc1 Hl]. destruct (H1 Hc1) as [Hc0 (x & Hx & Hs)]. split; [done|]. intros y [<-|Hy]; [|by apply Hl]. exists x. split; [|done]. by apply H4.
    + intros j x Hj Hx. apply H4; [intros Hin; apply Hj; by right|]. apply H2; [|done]. intros ->. apply Hj. by left.
  - intros y Hy. apply H2; [|apply Hf; by right]. intros Heq. apply Hnew. rewrite <- Heq. by apply in_map.
Qed.

(** What a complete teardown leaves. *)
Lemma complete_stops cl joined archive m source prefix summary r m' : NoDup (map w_ID (mg_workers m)) ->
  archiveAndDestroySourceWorkers cl joined archive m source prefix summary (fun _ => false) false = (Ok r, m') -> td_Complete r = true ->
  forall w, In w (mg_workers m) -> w_Source w = TrimSpace source -> stoppedIn m' (w_ID w).
Proof.
  intros Hids Hrun Hc w Hw Hsource. unfold archiveAndDestroySourceWorkers in Hrun. destruct (eqs_spec (TrimSpace source) "") as [|Hsrc]; [done|].
  pose proof (listed_workers (pd_db (mg_pd m)) (TrimSpace source) Hsrc) as Hperm. change (db_workers (pd_db (mg_pd m))) with (mg_workers m) in Hperm.
  destruct (ListWorkersFiltered _ _ _) as [|w0 l0] eqn:El; [done|]. rewrite <- El in *. clear El w0 l0.
  destruct (GetLatestDeployment _ _); [|done]. destruct archive as [[aid created]|]; [|done]. set (l := ListWorkersFiltered _ _ _) in *.
  set (m1 := if created then _ else m) in Hrun. assert (mg_workers m1 = mg_workers m) as Hm1 by (unfold m1; by destruct created). clearbody m1.
  destruct (fold_left _ l _) as [r1 m2] eqn:Hfold. injection Hrun as -> <-. apply teardown_all in Hfold as [H1 _].
  - apply H1; [done|]. apply (Permutation_in _ (Permutation_sym Hperm)), filter_In. split; [done|]. by apply eqs_true.
  - rewrite Hperm. by apply NoDup_filter_ids.
  - intros x Hx. rewrite Hm1. apply (Permutation_in _ Hperm), filter_In in Hx as [Hx _]. destruct (In_find (mg_workers m) x Hx) as [y Hy]. rewrite Hy. f_equal.
    apply (NoDup_map_inj w_ID (mg_workers m)); [done|by apply find_worker_In in Hy|done|]. by apply find_worker_id in Hy.
Qed.

Variable joined : list cleanupFailure -> string.
Variable errorText : retireError -> string.
Variable failedAt : time.
Variable attempts : nat -> attemptEnv.
Variable waitForRetirementRetry : nat -> manager -> manager * bool.
Variable payload : pullRequestPayload.

Abbreviation source := ("pr-" +:+ fmt_int (pl_Number payload)).
Abbreviation attempted i := (archiveAndDestroyTerminalPRSource joined (attempts i) (TrimSpace (pl_FullName payload)) (pl_Number payload) (pl_Merged payload)).

(** A settled attempt leaves no worker of the source running, unless the source was never deployed. *)
Lemma settled_sound i m r m' : attempted i m = (r, m') -> retirementSettled r = true -> NoDup (map w_ID (mg_workers m)) ->
  GetLatestDeployment (pd_db (mg_pd m)) source = None \/ forall w, In w (mg_workers m) -> w_Source w = source -> stoppedIn m' (w_ID w).
Proof.
  unfold archiveAndDestroyTerminalPRSource. destruct (at_lock (attempts i)); [intros E; by injection E as <- <-|].
  destruct (archiveAndDestroySourceWorkers _ _ _ m _ _ _ _ _) as [[res|err] m1] eqn:Hrun; intros E Hs Hids; injection E as <- <-; simpl in Hs.
  - right. intros w Hw Hsource. eapply complete_stops; [exact Hids|exact Hrun|exact Hs|exact Hw|]. by rewrite source_trimmed.
  - unfold archiveAndDestroySourceWorkers in Hrun. rewrite source_trimmed in Hrun. destruct (eqs_spec source "") as [Hz|Hz]; [by injection Hrun as <- <-|].
    pose proof (listed_workers (pd_db (mg_pd m)) source Hz) as Hperm. destruct (ListWorkersFiltered _ _ _) as [|w0 l0].
    + right. intros w Hw Hsource. apply Permutation_nil in Hperm. exfalso. eapply (in_nil (a := w)). rewrite <- Hperm. apply filter_In. split; [done|]. by apply eqs_true.
    + left. destruct (GetLatestDeployment _ _); [|done]. destruct (at_archive (attempts i)) as [[aid created]|]; [by destruct (fold_left _ _ _)|by injection Hrun as <- <-].
Qed.

(** The attempts up to the last one, which is the one that settled the source, the last allowed, or the one
    whose wait was cut short. *)
Lemma retireAttempts_spec tries attempt m l m' : 0 < tries -> retireAttempts joined attempts waitForRetirementRetry tries attempt payload m = (l, m') ->
  exists early r mi mj, l = early ++ [r] /\ length l <= tries /\ Forall (fun r => retirementSettled r = false) early /\ attempted (attempt + length early) mi = (r, mj) /\
    (early = [] -> mi = m) /\ (m' = mj /\ (retirementSettled r = true \/ length l = tries) \/ retirementSettled r = false /\ waitForRetirementRetry (attempt + length early) mj = (m', false)).
Proof.
  revert attempt m l. induction tries as [|tries IH]; intros attempt m l Ht Hrun; [lia|]. cbn [retireAttempts] in Hrun.
  destruct (attempted attempt m) as [r m1] eqn:Hr. destruct (retirementSettled r) eqn:Hs.
  { injection Hrun as <- <-. exists [], r, m, m1. cbn [length app]. rewrite Nat.add_0_r. split_and!; first [done|lia|by constructor|solve [auto]]. }
  destruct tries as [|tries].
  { injection Hrun as <- <-. exists [], r, m, m1. cbn [length app]. rewrite Nat.add_0_r. split_and!; first [done|lia|by constructor|solve [auto]]. }
  destruct (waitForRetirementRetry attempt m1) as [m2 []] eqn:Hw.
  - destruct (retireAttempts _ _ _ (S tries) (S attempt) payload m2) as [l2 m3] eqn:Hrest. injection Hrun as <- <-.
    destruct (IH (S attempt) m2 l2 ltac:(lia) Hrest) as (early & r2 & mi & mj & -> & Hlen & Hearly & Hatt & _ & Hend).
    exists (r :: early), r2, mi, mj. cbn [length app]. rewrite <- plus_n_Sm. split_and!; try done; [lia|by constructor|].
    destruct Hend as [[-> [H1|H1]]|[H1 H2]]; [left; auto|left; split; [done|right; lia]|right; auto].
  - injection Hrun as <- <-. exists [], r, m, m1. cbn [length app]. rewrite Nat.add_0_r. split_and!; first [done|lia|by constructor|solve [auto]].
Qed.

(** C31: The retirement of a closed pull request's source, however the platform answers and whatever happens between its attempts,
    ends after one to three of them, going on only after one that did not settle the source; when the last one settled it, every worker the
    source had is stopped or the source has no deployment, and otherwise the failure is recorded, after three
    attempts or when a wait for the next one was cut short. *)
Theorem retirement_accounted m :
  let '(l, m') := retirePullRequestSource joined errorText failedAt attempts waitForRetirementRetry payload m in
  exists early r mi mj, l = early ++ [r] /\ length l <= sourceRetirementMaxAttempts /\ Forall (fun r => retirementSettled r = false) early /\
    attempted (length l) mi = (r, mj) /\
    if retirementSettled r then m' = mj /\ (NoDup (map w_ID (mg_workers mi)) ->
      GetLatestDeployment (pd_db (mg_pd mi)) source = None \/ forall w, In w (mg_workers mi) -> w_Source w = source -> stoppedIn m' (w_ID w))
    else exists details m1, m' = recordRetirementFailure failedAt payload details m1 /\
      (m1 = mj /\ length l = sourceRetirementMaxAttempts \/ waitForRetirementRetry (length l) mj = (m1, false)).
Proof.
  unfold retirePullRequestSource. destruct (retireAttempts _ _ _ _ 1 payload m) as [l m1] eqn:Hrun.
  destruct (retireAttempts_spec _ _ _ _ _ (Nat.lt_0_succ 2) Hrun) as (early & r & mi & mj & -> & Hlen & Hearly & Hatt & _ & Hend).
  rewrite last_snoc. exists early, r, mi, mj. replace (length (early ++ [r])) with (1 + length early) in * by (rewrite length_app; simpl; lia).
  split_and!; [done..|]. destruct (retirementSettled r) eqn:Hs.
  - destruct Hend as [[-> _]|[? _]]; [|done]. split; [done|]. intros Hids. by apply (settled_sound _ _ _ _ Hatt).
  - assert (exists details, match r with Err err => recordRetirementFailure failedAt payload (errorText err) m1
      | Ok result => if td_Complete result then m1 else recordRetirementFailure failedAt payload ("failed_workers=" +:+ fmt_int (td_FailedWorkers result)) m1 end
      = recordRetirementFailure failedAt payload details m1) as [details ->].
    { destruct r as [result|err]; [|by eexists]. simpl in Hs. rewrite Hs. by eexists. }
    exists details, m1. split; [done|]. destruct Hend as [[-> [?|?]]|[_ ?]]; [done|by left|by right].
Qed.
End Retirement.

(** * Examples *)

Definition retryAttempts (i : nat) : attemptEnv :=
  mkAttempt None (if i =? 1 then ex_cleanup else mkCleanup true (fun _ => None) (fun _ => None) (fun _ => None) (Ok []) (Ok []) (fun _ => Ok 3%Z) "bucket" (60 * Second)%Z) (Ok (1%Z, true)).
Definition closedPayload : pullRequestPayload := mkPRPayload "closed" 7 " benbjohnson/litestream" true ["bug"].
Abbreviation ex_retire waits := (retirePullRequestSource (H := exampleDecoders) (H0 := examplePlatform) no_text (fun _ => "failed") (70 * Second)%Z retryAttempts (fun _ m => (m, waits)) closedPayload ex_manager).
(** A machine that could not be destroyed at first is destroyed by the second attempt; without a second
    one the failure is recorded. *)
Example second_attempt_settles : map retirementSettled (fst (ex_retire true)) = [false; true] /\ map retirementSettled (fst (ex_retire false)) = [false] /\
  map w_Status (mg_workers (snd (ex_retire true))) = [WorkerStopped; WorkerStopped; WorkerStopped; WorkerStopped] /\
  map (fun waits => length (List.filter (fun e => e_EventType e =s "upstream_pr_source_teardown_failed") (db_events (pd_db (mg_pd (snd (ex_retire waits))))))) [true; false] = [0; 1].
Proof. split_and!; vm_compute; reflexivity. Qed.

(** A delivery that is signed with the digest of its body, and one that is not. *)
Definition toyMac (key body : string) : string := key +:+ body.
Definition demoHandler : WebhookHandler := NewWebhookHandler "k" false [" benbjohnson/litestream "] "" 0 true true.
Definition demoDelivery (signature : string) : webhookRequest := mkDelivery "POST" "b" false signature "pull_request".
Example signed_delivery_retires :
  snd (ServeWebhook toyMac (fun _ => Some closedPayload) (fun _ => None) demoHandler (demoDelivery "sha256=6B62")) =
    [WEvent "upstream_pr_terminal_received" "Upstream PR benbjohnson/litestream#7 merged; retiring pr-7" "pr-7"; WRetire closedPayload] /\
  fst (ServeWebhook toyMac (fun _ => Some closedPayload) (fun _ => None) demoHandler (demoDelivery "sha256=6b63")) = writeWebhookMessage 401 "invalid signature".
Proof. split; vm_compute; reflexivity. Qed.
