(* ===== verification/UpgradeLane.v ===== *)
(** The upgrade lane of a worker, [worker/upgrade_lane.go], with the purge of the replica's snapshot level
    at the switch, [worker/replica_l9_purge.go]: the base build of Litestream runs for a
    warm-up, then the candidate takes over its replica, and a state file on the volume
    carries the phase across restarts.

    The lane is a program of calls that may be killed before any of them.  A call is answered by an environment that sees
    the calls so far; a replacement of the state file whose directory was not synced
    may be undone by a loss of power. *)
From Stdlib Require Import Ascii.
From stdpp Require Import sorting.
From S2P Require Import Prelude GoStrings GoTime Model LitestreamConfig S3FaultProxy LtxCoverage Verifier ManyDB Deploy.

Definition UpgradePhasePre : string := "pre-upgrade".
Definition UpgradePhasePost : string := "post-upgrade".
Definition defaultLitestreamBaseSHAFile : string := "/opt/soak/base/litestream-base.sha".
Definition replicaL9Level : string := "0009".
Definition replicaL9PurgeAttempts : nat := 3.

(** * Data *)

Record replicaL9Purge := mkPurge {
  lp_StartedAt : time;
  lp_CompletedAt : time;
  lp_Prefix : string;
  lp_Listed : Z;
  lp_Deleted : list string;
  lp_RemainingL9 : Z;
  lp_Error : string;
  lp_Attempt : Z;
  lp_Succeeded : bool
}.
#[export] Instance replicaL9Purge_eta : Settable replicaL9Purge :=
  fun r => mkPurge (lp_StartedAt r) (lp_CompletedAt r) (lp_Prefix r) (lp_Listed r) (lp_Deleted r) (lp_RemainingL9 r) (lp_Error r) (lp_Attempt r) (lp_Succeeded r).
Definition succeeded (p : option replicaL9Purge) : bool :=
  match p with Some p => lp_Succeeded p && (lp_Error p =s "") && (lp_RemainingL9 p =? 0)%Z | None => false end.

Record firstL9Observation := mkFirstL9 { fo_ObservedAt : time; fo_MaxTXID : string; fo_Objects : Z }.
Record upgradeLaneState := mkLaneState {
  ul_Phase : string;
  ul_StartedAt : time;
  ul_SwitchedAt : option time;
  ul_BaseSHA : string;
  ul_CandidateSHA : string;
  ul_PreUpgradeTXID : Z;
  ul_L9Purge : option replicaL9Purge;
  ul_FirstCandidateL9 : option firstL9Observation
}.
#[export] Instance upgradeLaneState_eta : Settable upgradeLaneState :=
  fun r => mkLaneState (ul_Phase r) (ul_StartedAt r) (ul_SwitchedAt r) (ul_BaseSHA r) (ul_CandidateSHA r) (ul_PreUpgradeTXID r) (ul_L9Purge r) (ul_FirstCandidateL9 r).
Definition upgradeLaneState_zero : upgradeLaneState := mkLaneState "" 0 None "" "" 0 None None.

(** The fields of [Config] the lane reads and derives. *)
Record laneConfig := mkLaneConfig {
  lc_worker : workerConfig;
  lc_UpgradeLane : bool;
  lc_UpgradeWarmup : duration;
  lc_UpgradeDeleteL9AtSwitch : bool;
  lc_UpgradePostSnapshotInterval : duration;
  lc_LitestreamBaseBinary : string;
  lc_LitestreamBaseSHA : string;
  lc_LitestreamSHA : string;
  lc_FollowCheck : bool;
  lc_litestreamBinary : string;
  lc_activeLitestreamSHA : string;
  lc_upgradePhase : string;
  lc_upgradePreTXID : Z
}.
#[export] Instance laneConfig_eta : Settable laneConfig :=
  fun r => mkLaneConfig (lc_worker r) (lc_UpgradeLane r) (lc_UpgradeWarmup r) (lc_UpgradeDeleteL9AtSwitch r) (lc_UpgradePostSnapshotInterval r)
    (lc_LitestreamBaseBinary r) (lc_LitestreamBaseSHA r) (lc_LitestreamSHA r) (lc_FollowCheck r) (lc_litestreamBinary r)
    (lc_activeLitestreamSHA r) (lc_upgradePhase r) (lc_upgradePreTXID r).

(** * Configuration *)

(** [shaFileEnv] is [LITESTREAM_BASE_SHA_FILE], [read] the content of a file. *)
Definition resolveLitestreamBaseSHA (fromEnv shaFileEnv : string) (read : string -> option string) : string :=
  let v := TrimSpace fromEnv in
  if negb (v =s "") then v
  else
    let shaFile := TrimSpace shaFileEnv in
    match read (if shaFile =s "" then defaultLitestreamBaseSHAFile else shaFile) with None => "" | Some body => TrimSpace body end.
(** [stat] says whether the path is a directory, unless it cannot be looked at. *)
Definition validateUpgradeLane (c : laneConfig) (stat : string -> result string bool) : option string :=
  if negb (lc_UpgradeLane c) then None
  else if ManyDBEnabled (lc_worker c) then Some "UPGRADE_LANE does not support many-database profiles"
  else if (lc_UpgradeWarmup c <=? 0)%Z then Some "UPGRADE_LANE requires a positive UPGRADE_WARMUP"
  else match stat (lc_LitestreamBaseBinary c) with
  | Err err => Some ("UPGRADE_LANE requires the base litestream binary at " +:+ lc_LitestreamBaseBinary c +:+ ": " +:+ err)
  | Ok true => Some ("UPGRADE_LANE requires the base litestream binary at " +:+ lc_LitestreamBaseBinary c +:+ ": <nil>")
  | Ok false =>
      if lc_LitestreamBaseSHA c =s "" then Some "UPGRADE_LANE requires LITESTREAM_BASE_SHA or the image's litestream-base.sha"
      else if lc_LitestreamSHA c =s "" then Some "UPGRADE_LANE requires the image's pinned LITESTREAM_SHA"
      else if EqualFold (lc_LitestreamBaseSHA c) (lc_LitestreamSHA c) then Some ("UPGRADE_LANE base and candidate builds are the same commit " +:+ lc_LitestreamSHA c)
      else None
  end.
Definition litestreamCommand (c : laneConfig) : string := if negb (lc_litestreamBinary c =s "") then lc_litestreamBinary c else "litestream".
Definition ForUpgradePhase (c : laneConfig) (phase : string) : result string laneConfig :=
  if negb (lc_UpgradeLane c) then Err "upgrade lane is not configured"
  else
    let next := c <| lc_upgradePhase := phase |> in
    if phase =s UpgradePhasePre then
      Ok (next <| lc_litestreamBinary := lc_LitestreamBaseBinary c |> <| lc_activeLitestreamSHA := lc_LitestreamBaseSHA c |> <| lc_FollowCheck := false |>)
    else if phase =s UpgradePhasePost then
      let next := next <| lc_litestreamBinary := "litestream" |> <| lc_activeLitestreamSHA := lc_LitestreamSHA c |> in
      Ok (if (0 <? lc_UpgradePostSnapshotInterval c)%Z then next <| lc_worker ::= (fun w => w <| wc_SnapshotInterval := lc_UpgradePostSnapshotInterval c |>) |> else next)
    else Err ("unknown upgrade phase " +:+ Quote phase).

(** * Keys *)

(** The elements after the common ones. *)
Fixpoint stripCommon (base targ : list string) : list string * list string :=
  match base, targ with
  | b :: base', t :: targ' => if b =s t then stripCommon base' targ' else (base, targ)
  | _, _ => (base, targ)
  end.
(** The elements of a clean path. *)
Definition pathElements (p : string) : list string :=
  if (p =s ".") || (p =s "/") then [] else Split slash (TrimPrefix p "/").
(** [filepath.Rel]. *)
Definition Rel (basepath targpath : string) : option string :=
  let base := Clean basepath in
  let targ := Clean targpath in
  if targ =s base then Some "."
  else if negb (Bool.eqb (HasPrefix base "/") (HasPrefix targ "/")) then None
  else
    let '(b, t) := stripCommon (pathElements base) (pathElements targ) in
    match b with
    | [] => Some (Join t "/")
    | x :: _ => if (x =s "..") && negb (length t =? 0) then None else Some (Join (map (fun _ => "..") b ++ t) "/")
    end.

Definition replicaOwnPrefix (c : workerConfig) : string :=
  if wc_ReplicaType c =s "file" then Clean (wc_ReplicaPath c) else Trim (TrimPrefix (wc_S3Path c) "/") "/".
Definition replicaKeyWithinPrefix (c : workerConfig) (key : string) : bool :=
  let prefix := replicaOwnPrefix c in
  if (prefix =s "") || (prefix =s ".") || (prefix =s "/") then false
  else if wc_ReplicaType c =s "file" then
    match Rel prefix (pathJoin [prefix; key]) with Some rel => negb (rel =s ".") && negb (HasPrefix rel "..") | None => false end
  else HasPrefix key (prefix +:+ "/") && negb (Contains key "/../").
Definition isL9 (key : string) : bool := match replicaLevelOfKey key with Some level => level =s replicaL9Level | None => false end.
(** What [removeReplicaObject] removes: a file, or the object [s3cmd del] is given. *)
Definition removeTarget (c : workerConfig) (key : string) : string :=
  if wc_ReplicaType c =s "file" then pathJoin [replicaOwnPrefix c; key] else "s3://" +:+ pathJoin [wc_S3Bucket c; key].

(** The rows of [s3cmd ls --recursive], a line each. *)
Definition parseS3ListingKeys (rows : list string) (bucket : string) : list string :=
  let marker := "s3://" +:+ bucket +:+ "/" in
  flat_map (fun row =>
    let fields := Fields row in
    if length fields <? 4 then []
    else let url := Join (drop 3 fields) " " in if HasPrefix url marker then [TrimPrefix url marker] else []) rows.

(** * The lane's calls *)

(** How a replacement of the state file ends: synced, without having replaced it, replaced but with a failed sync of
    the directory, or killed between the two. *)
Inductive writeEnd := WOk | WFailed (err : string) | WUnsynced (err : string) | WKilled.
Inductive laneCall :=
| LRead
| LClock
| LWrite (state : upgradeLaneState) (ended : writeEnd)
| LList (keys : result string (list string))
| LRemove (key : string) (err : option string)
| LWait                        (** a look at the context *)
| LStart (cfg : laneConfig)    (** the runner of a phase *)
| LReport (message : string)
| LRestart.
Abbreviation laneHist := (list laneCall).

(** What the runner of the first phase comes back with. *)
Record phaseEnd := mkPhaseEnd { pe_canceledRun : bool; pe_warmupEnded : bool; pe_err : option string }.
Record laneEnv := mkLaneEnv {
  le_read : laneHist -> option string;        (** an error of reading or decoding *)
  le_clock : laneHist -> time;
  le_write : laneHist -> writeEnd;
  le_list : laneHist -> result string (list string);
  le_remove : laneHist -> option string;
  le_canceled : laneHist -> bool;
  le_verified : laneHist -> list Z;           (** the boundaries the first phase verifies *)
  le_preEnd : laneHist -> phaseEnd;
  le_observed : laneHist -> list (Z * Z);     (** objects and newest transaction of level 9 that the second phase sees *)
  le_postEnd : laneHist -> option string
}.
(** [lw_unsynced] is the content the file falls back to if its last replacement is lost. *)
Record laneWorld := mkLane {
  lw_file : option upgradeLaneState;
  lw_unsynced : option (option upgradeLaneState);
  lw_budget : nat;  (** calls until the worker is killed *)
  lw_hist : laneHist
}.
#[export] Instance laneWorld_eta : Settable laneWorld := fun r => mkLane (lw_file r) (lw_unsynced r) (lw_budget r) (lw_hist r).

(** A program of calls; [None] when it was killed. *)
Definition lane (A : Type) : Type := laneWorld -> option A * laneWorld.
Definition lret {A} (a : A) : lane A := fun w => (Some a, w).
Definition lbind {A B} (m : lane A) (k : A -> lane B) : lane B :=
  fun w => match m w with (Some a, w) => k a w | (None, w) => (None, w) end.
Declare Scope lane_scope.
Notation "x <~ m ; k" := (lbind m (fun x => k)) (at level 100, m at next level, right associativity) : lane_scope.
Notation "m ;~ k" := (lbind m (fun _ => k)) (at level 100, right associativity) : lane_scope.
Open Scope lane_scope.

Section Lane.
Variable env : laneEnv.

(** One call and its answer. *)
Definition ask {A} (answer : laneHist -> A) (c : A -> laneCall) : lane A :=
  fun w => match lw_budget w with
  | O => (None, w)
  | S budget => let a := answer (lw_hist w) in (Some a, w <| lw_budget := budget |> <| lw_hist ::= cons (c a) |>)
  end.
Definition call (c : laneCall) : lane () := ask (fun _ => ()) (fun _ => c).
Definition clock : lane time := ask (le_clock env) (fun _ => LClock).

Definition readUpgradeLaneState : lane (result string upgradeLaneState) :=
  err <~ ask (le_read env) (fun _ => LRead);
  fun w => (Some (match err, lw_file w with
    | _, None => Ok upgradeLaneState_zero
    | Some err, Some _ => Err ("read upgrade lane state: " +:+ err)
    | None, Some state => Ok state
    end), w).
(** [writeFileAtomic] on the state file. *)
Definition writeUpgradeLaneState (state : upgradeLaneState) : lane (option string) :=
  fun w => match lw_budget w with
  | O => (None, w)
  | S budget =>
      let ended := le_write env (lw_hist w) in
      let w := w <| lw_budget := budget |> <| lw_hist ::= cons (LWrite state ended) |> in
      let replaced := w <| lw_file := Some state |> <| lw_unsynced := Some (default (lw_file w) (lw_unsynced w)) |> in
      match ended with
      | WOk => (Some None, w <| lw_file := Some state |> <| lw_unsynced := None |>)
      | WFailed err => (Some (Some ("upgrade lane state: " +:+ err)), w)
      | WUnsynced err => (Some (Some ("upgrade lane state: " +:+ err)), replaced)
      | WKilled => (None, replaced)
      end
  end.

Definition recordUpgradePreTXID (txid : Z) : lane (option string) :=
  state <~ readUpgradeLaneState;
  match state with
  | Err err => lret (Some err)
  | Ok state =>
      if negb (ul_Phase state =s UpgradePhasePre) || (txid <=? ul_PreUpgradeTXID state)%Z then lret None
      else writeUpgradeLaneState (state <| ul_PreUpgradeTXID := txid |>)
  end.
Definition recordFirstCandidateL9 (objectCount maxTXID : Z) (now : time) : lane (result string (option firstL9Observation)) :=
  state <~ readUpgradeLaneState;
  match state with
  | Err err => lret (Err err)
  | Ok state =>
      match ul_FirstCandidateL9 state, ul_L9Purge state with
      | None, Some _ =>
          if (objectCount =? 0)%Z then lret (Ok (ul_FirstCandidateL9 state))
          else
            let first := mkFirstL9 now (formatTXID maxTXID) objectCount in
            err <~ writeUpgradeLaneState (state <| ul_FirstCandidateL9 := Some first |>);
            lret (match err with Some err => Err err | None => Ok (Some first) end)
      | first, _ => lret (Ok first)
      end
  end.

(** * The purge *)

Definition finishPurge (record : replicaL9Purge) (err : option string) : lane (replicaL9Purge * option string) :=
  now <~ clock;
  lret (record <| lp_CompletedAt := now |> <| lp_Error := default (lp_Error record) err |>, err).
Fixpoint removeTargets (targets : list string) (record : replicaL9Purge) : lane (replicaL9Purge * option string) :=
  match targets with
  | [] => lret (record, None)
  | key :: targets =>
      err <~ ask (le_remove env) (LRemove key);
      match err with
      | Some err => lret (record, Some ("delete " +:+ key +:+ ": " +:+ err))
      | None => removeTargets targets (record <| lp_Deleted ::= fun l => l ++ [key] |>)
      end
  end.
Definition purgeReplicaL9 (c : workerConfig) : lane (replicaL9Purge * option string) :=
  started <~ clock;
  let record := mkPurge started 0 (replicaOwnPrefix c) 0 [] 0 "" 0 false in
  let prefix := lp_Prefix record in
  if (prefix =s "") || (prefix =s ".") || (prefix =s "/") then
    finishPurge record (Some "replica L9 purge refused: object outside the worker's own replica prefix: empty prefix")
  else
    keys <~ ask (le_list env) LList;
    match keys with
    | Err err => finishPurge record (Some ("list replica objects: " +:+ err))
    | Ok keys =>
        let record := record <| lp_Listed := Z.of_nat (length keys) |> in
        match List.find (fun key => negb (replicaKeyWithinPrefix c key)) keys with
        | Some key => finishPurge record (Some ("replica L9 purge refused: object outside the worker's own replica prefix: " +:+ key +:+ " (prefix " +:+ prefix +:+ ")"))
        | None =>
            removed <~ removeTargets (merge_sort path_le (List.filter isL9 keys)) record;
            let '(record, err) := removed in
            match err with
            | Some err => finishPurge record (Some err)
            | None =>
                remaining <~ ask (le_list env) LList;
                match remaining with
                | Err err => finishPurge record (Some ("list replica objects after purge: " +:+ err))
                | Ok remaining =>
                    let record := record <| lp_RemainingL9 := Z.of_nat (length (List.filter isL9 remaining)) |> in
                    finishPurge record (if (0 <? lp_RemainingL9 record)%Z
                      then Some ("replica L9 purge incomplete: " +:+ fmt_int (lp_RemainingL9 record) +:+ " L9 object(s) remain under " +:+ prefix) else None)
                end
            end
        end
    end.

(** The text of [errors.Join], where the first error may be missing. *)
Definition joinText (a b : string) : string := if a =s "" then b else a +:+ String newline b.
(** The attempts from [attempt] on, with the error of the one before; the state and the error, if any. *)
Fixpoint purgeAttempts (c : workerConfig) (tries : nat) (attempt : Z) (attemptErr : string) (state : upgradeLaneState) : lane (upgradeLaneState * option string) :=
  match tries with
  | O => lret (state, Some (fmt_int (Z.of_nat replicaL9PurgeAttempts) +:+ " attempt(s) failed, replica may still hold base-written L9 objects: " +:+ attemptErr))
  | S tries =>
      canceled <~ ask (le_canceled env) (fun _ => LWait);
      if (canceled : bool) then lret (state, Some (joinText attemptErr "context canceled"))
      else
        purged <~ purgeReplicaL9 c;
        let '(purge, err) := purged in
        let purge := purge <| lp_Attempt := match ul_L9Purge state with Some p => (lp_Attempt p + 1)%Z | None => attempt end |>
                           <| lp_Succeeded := match err with None => true | Some _ => false end |> in
        let state := state <| ul_L9Purge := Some purge |> in
        writeErr <~ writeUpgradeLaneState state;
        match writeErr, err with
        | Some writeErr, _ => lret (state, Some (joinText (default "" err) writeErr))
        | None, None => lret (state, None)
        | None, Some err =>
            match tries with
            | O => purgeAttempts c tries (attempt + 1) err state
            | _ =>
                canceled <~ ask (le_canceled env) (fun _ => LWait);
                if (canceled : bool) then lret (state, Some (joinText err "context canceled")) else purgeAttempts c tries (attempt + 1) err state
            end
        end
  end.
Definition purgeUntilClean (c : workerConfig) (state : upgradeLaneState) : lane (upgradeLaneState * option string) :=
  purgeAttempts c replicaL9PurgeAttempts 1 "" state.

(** * The phases *)

Fixpoint recordVerified (txids : list Z) : lane () :=
  match txids with [] => lret () | txid :: txids => (recordUpgradePreTXID txid ;~ recordVerified txids) end.
Fixpoint recordObserved (l : list (Z * Z)) : lane () :=
  match l with [] => lret () | (objects, maxTXID) :: l => (now <~ clock; recordFirstCandidateL9 objects maxTXID now ;~ recordObserved l) end.
(** The runner of a phase, of which only what it does to the state file is looked at. *)
Definition runBase (cfg : laneConfig) : lane phaseEnd :=
  call (LStart cfg) ;~ txids <~ ask (le_verified env) (fun _ => LWait); recordVerified txids ;~ ask (le_preEnd env) (fun _ => LWait).
Definition runCandidate (cfg : laneConfig) : lane (option string) :=
  call (LStart cfg) ;~ l <~ ask (le_observed env) (fun _ => LWait); recordObserved l ;~ ask (le_postEnd env) (fun _ => LWait).

(** The second phase: the purge, where it is configured and has not been done, and the candidate. *)
Definition runPostPhase (cfg : laneConfig) (state : upgradeLaneState) : lane (option string) :=
  purged <~ (if lc_UpgradeDeleteL9AtSwitch cfg && negb (succeeded (ul_L9Purge state)) then purgeUntilClean (lc_worker cfg) state else lret (state, None));
  match purged with
  | (_, Some err) => let err := "upgrade lane L9 purge: " +:+ err in (call (LReport ("upgrade lane harness failure: " +:+ err)) ;~ lret (Some err))
  | (state, None) =>
      match ForUpgradePhase cfg UpgradePhasePost with
      | Err err => lret (Some err)
      | Ok post => runCandidate (post <| lc_upgradePreTXID := ul_PreUpgradeTXID state |>)
      end
  end.
(** The first phase: the error or the end of the lane, or the state to go on with. *)
Definition runPrePhase (cfg : laneConfig) (pre : laneConfig) : lane (upgradeLaneState + option string) :=
  ended <~ runBase pre;
  if pe_canceledRun ended then lret (inr None)
  else if negb (pe_warmupEnded ended) then lret (inr (option_map (fun err => "pre-upgrade phase: " +:+ err) (pe_err ended)))
  else
    state <~ readUpgradeLaneState;
    match state with
    | Err err => lret (inr (Some err))
    | Ok state =>
        switched <~ clock;
        let state := state <| ul_Phase := UpgradePhasePost |> <| ul_SwitchedAt := Some switched |> in
        err <~ writeUpgradeLaneState state;
        lret (match err with Some err => inr (Some err) | None => inl state end)
    end.
Definition runUpgradeLane (cfg : laneConfig) : lane (option string) :=
  if negb (lc_UpgradeLane cfg) then lret (Some "upgrade lane is not configured")
  else
    read <~ readUpgradeLaneState;
    match read with
    | Err err => lret (Some err)
    | Ok state =>
        now <~ clock;
        let fresh := mkLaneState UpgradePhasePre now None (lc_LitestreamBaseSHA cfg) (lc_LitestreamSHA cfg) 0 None None in
        let first := ul_Phase state =s "" in
        let state := if first then fresh else state in
        err <~ (if first then writeUpgradeLaneState state else lret None);
        match err with
        | Some err => lret (Some err)
        | None =>
            if negb (ul_BaseSHA state =s lc_LitestreamBaseSHA cfg) || negb (ul_CandidateSHA state =s lc_LitestreamSHA cfg) then
              lret (Some ("upgrade lane state on this volume is for " +:+ ul_BaseSHA state +:+ " -> " +:+ ul_CandidateSHA state +:+ ", not " +:+ lc_LitestreamBaseSHA cfg +:+ " -> " +:+ lc_LitestreamSHA cfg))
            else if ul_Phase state =s UpgradePhasePre then
              match ForUpgradePhase cfg UpgradePhasePre with
              | Err err => lret (Some err)
              | Ok pre => next <~ runPrePhase cfg pre; match next with inr ended => lret ended | inl state => runPostPhase cfg state end
              end
            else runPostPhase cfg state
        end
    end.

(** * Restarts *)

(** A restart after which it is known whether an unsynced replacement survived, or one that leaves it open, as when
    only the process was killed. *)
Inductive laneRestart := Settles (lost : bool) | LeavesOpen.
Definition boot (r : laneRestart) (budget : nat) (w : laneWorld) : laneWorld :=
  let w := w <| lw_budget := budget |> <| lw_hist ::= cons LRestart |> in
  match r with
  | Settles lost => w <| lw_file := if lost then default (lw_file w) (lw_unsynced w) else lw_file w |> <| lw_unsynced := None |>
  | LeavesOpen => w
  end.
Definition runLane (cfg : laneConfig) (sessions : list (laneRestart * nat)) (w : laneWorld) : laneWorld :=
  fold_left (fun w s => snd (runUpgradeLane cfg (boot (fst s) (snd s) w))) sessions w.
End Lane.
