(* ===== verification/UpgradeLaneProofs.v ===== *)
(** Theorems about the upgrade lane ([UpgradeLane]): across kills and restarts the base build never follows the candidate,
    the candidate starts on a purged replica, and the purge removes only what it may. *)
From Stdlib Require Import Ascii.
From stdpp Require Import sorting.
From S2P Require Import Prelude GoStrings GoTime Model LitestreamConfig S3FaultProxy LtxCoverage Verifier ManyDB Deploy UpgradeLane.

(** * What a history must satisfy *)

Definition isCandidate (c : laneConfig) : bool := lc_upgradePhase c =s UpgradePhasePost.
(** The candidate has been started. *)
Definition candidateStarted (h : laneHist) : bool := existsb (fun c => match c with LStart c => isCandidate c | _ => false end) h.
(** Nothing was removed and the base build was not started. *)
Definition undisturbed (h : laneHist) : bool := forallb (fun c => match c with LRemove _ _ => false | LStart c => isCandidate c | _ => true end) h.
(** A listing showed no object of level 9, its purge was then recorded as successful, and nothing that could put one
    back, but the candidate, ran since. *)
Definition cleaned (h : laneHist) : Prop :=
  exists h1 state ended keys h2, h = h1 ++ LWrite state ended :: LClock :: LList (Ok keys) :: h2 /\ undisturbed h1 = true /\
    (forall key, In key keys -> isL9 key = false) /\ succeeded (ul_L9Purge state) = true.
Definition isRemove (c : laneCall) : bool := match c with LRemove _ _ => true | _ => false end.
(** The key lies under the worker's own prefix, which is not empty: as a path, or as the name of an object. *)
Definition insidePrefix (c : workerConfig) (key : string) : Prop :=
  let prefix := replicaOwnPrefix c in
  ~ In prefix [""; "."; "/"] /\
  if wc_ReplicaType c =s "file" then exists rest, pathElements (Clean (pathJoin [prefix; key])) = pathElements (Clean prefix) ++ rest
  else exists rest, key = prefix +:+ "/" +:+ rest.
Lemma stripCommon_spec base targ : let '(b, t) := stripCommon base targ in exists common, base = common ++ b /\ targ = common ++ t.
Proof.
  revert targ. induction base as [|b base IH]; intros [|t targ]; [by exists []..|]. simpl. destruct (eqs_spec b t) as [->|]; [|by exists []].
  specialize (IH targ). destruct (stripCommon base targ) as [b' t']. destruct IH as (common & -> & ->). by exists (t :: common).
Qed.
Lemma dotted_join l : HasPrefix (Join (".." :: l) "/") ".." = true.
Proof. destruct l as [|x l]; [done|]. change (Join (".." :: x :: l) "/") with (".." +:+ "/" +:+ Join (x :: l) "/"). apply HasPrefix_app. Qed.
Lemma within_inside c key : replicaKeyWithinPrefix c key = true -> insidePrefix c key.
Proof.
  unfold replicaKeyWithinPrefix, insidePrefix. cbv zeta. set (prefix := replicaOwnPrefix c).
  destruct ((prefix =s "") || (prefix =s ".") || (prefix =s "/")) eqn:Hp; [done|]. apply orb_false_iff in Hp as [[H1 H2]%orb_false_iff H3].
  intros H. split; [intros [E|[E|[E|[]]]]; rewrite <- E in *; done|]. destruct (wc_ReplicaType c =s "file").
  - unfold Rel in H. destruct (eqs_spec (Clean (pathJoin [prefix; key])) (Clean prefix)) as [->|]; [done|]. destruct (negb (Bool.eqb _ _)); [done|].
    pose proof (stripCommon_spec (pathElements (Clean prefix)) (pathElements (Clean (pathJoin [prefix; key])))) as Hs.
    destruct (stripCommon _ _) as [b t]. destruct Hs as (common & -> & ->). destruct b as [|x b]; [exists t; by rewrite app_nil_r|]. exfalso.
    destruct ((x =s "..") && negb (length t =? 0)); [done|]. change (map (fun _ => "..") (x :: b) ++ t) with (".." :: (map (fun _ => "..") b ++ t)) in H.
    by rewrite dotted_join, andb_false_r in H.
  - apply andb_true_iff in H as [H _]. apply HasPrefix_spec in H as [rest ->]. exists rest. by rewrite append_assoc.
Qed.
(** The key was in the listing the purge acts on, all of which is the worker's own. *)
Definition ownListing (c : workerConfig) (key : string) (h : laneHist) : Prop :=
  exists removed keys h2, h = removed ++ LList (Ok keys) :: h2 /\ forallb isRemove removed = true /\ In key keys /\ forall k, In k keys -> insidePrefix c k.
Fixpoint okLane (cfg : laneConfig) (h : laneHist) : Prop :=
  match h with
  | [] => True
  | LStart c :: h =>
      (if isCandidate c then lc_activeLitestreamSHA c = lc_LitestreamSHA cfg /\ (lc_UpgradeDeleteL9AtSwitch cfg = true -> cleaned h)
       else lc_activeLitestreamSHA c = lc_LitestreamBaseSHA cfg /\ candidateStarted h = false) /\ okLane cfg h
  | LRemove key _ :: h => (candidateStarted h = false /\ isL9 key = true /\ ownListing (lc_worker cfg) key h) /\ okLane cfg h
  | _ :: h => okLane cfg h
  end.

Section Lane.
Variables (env : laneEnv) (cfg : laneConfig).

(** What a content of the state file says about the history. *)
Record good (f : option upgradeLaneState) (h : laneHist) : Prop := {
  go_started : candidateStarted h = true -> exists s, f = Some s /\ ul_Phase s = UpgradePhasePost /\ (lc_UpgradeDeleteL9AtSwitch cfg = true -> succeeded (ul_L9Purge s) = true);
  go_cleaned : forall s, f = Some s -> succeeded (ul_L9Purge s) = true -> cleaned h;
  go_phase : forall s, f = Some s -> ul_Phase s = UpgradePhasePre /\ ul_L9Purge s = None \/ ul_Phase s = UpgradePhasePost
}.
Record inv (w : laneWorld) : Prop := {
  in_ok : okLane cfg (lw_hist w);
  in_file : good (lw_file w) (lw_hist w);
  in_old : forall old, lw_unsynced w = Some old -> good old (lw_hist w)
}.

(** A program from [P] ends in [Q], and in the invariant when it is killed. *)
Definition triple {A} (P : laneWorld -> Prop) (m : lane A) (Q : A -> laneWorld -> Prop) : Prop :=
  forall w, P w -> match m w with (Some a, w') => Q a w' | (None, w') => inv w' end.
Lemma triple_ret {A} (P : laneWorld -> Prop) (a : A) (Q : A -> laneWorld -> Prop) : (forall w, P w -> Q a w) -> triple P (lret a) Q.
Proof. intros H w Hw. by apply H. Qed.
Lemma triple_bind {A B} P (m : lane A) R (k : A -> lane B) Q : triple P m R -> (forall a, triple (R a) (k a) Q) -> triple P (lbind m k) Q.
Proof. intros Hm Hk w Hw. unfold lbind. specialize (Hm w Hw). destruct (m w) as [[a|] w']; [by apply Hk|done]. Qed.
Lemma triple_pre {A} (P P' : laneWorld -> Prop) (m : lane A) Q : (forall w, P w -> P' w) -> triple P' m Q -> triple P m Q.
Proof. intros H Hm w Hw. by apply Hm, H. Qed.
Lemma triple_post {A} P (m : lane A) (Q Q' : A -> laneWorld -> Prop) : (forall a w, Q a w -> Q' a w) -> triple P m Q -> triple P m Q'.
Proof. intros H Hm w Hw. specialize (Hm w Hw). destruct (m w) as [[a|] w']; auto. Qed.
Lemma triple_ask {A} (P : laneWorld -> Prop) (answer : laneHist -> A) c (Q : A -> laneWorld -> Prop) : (forall w, P w -> inv w) ->
  (forall w budget, P w -> Q (answer (lw_hist w)) (w <| lw_budget := budget |> <| lw_hist ::= cons (c (answer (lw_hist w))) |>)) -> triple P (ask answer c) Q.
Proof. intros Hi HQ w Hw. unfold ask. destruct (lw_budget w) as [|budget]; [by apply Hi|]. by apply HQ. Qed.

(** ** Calls that disturb nothing *)

Definition quiet (c : laneCall) : bool := match c with LRemove _ _ | LStart _ => false | _ => true end.
Lemma started_quiet c h : quiet c = true -> candidateStarted (c :: h) = candidateStarted h.
Proof. by destruct c. Qed.
Lemma cleaned_cons c h : undisturbed [c] = true -> cleaned h -> cleaned (c :: h).
Proof.
  intros Hc (h1 & s & o & ks & h2 & -> & Hh & H1 & H2). exists (c :: h1), s, o, ks, h2. split_and!; try done. simpl in Hc |- *. rewrite andb_true_r in Hc. by rewrite Hc.
Qed.
Lemma good_quiet f c h : quiet c = true -> good f h -> good f (c :: h).
Proof.
  intros Hc [H1 H2 H3]. split; [by rewrite started_quiet| |done]. intros s Hs Hsucc. apply cleaned_cons; [by destruct c|by apply (H2 s)].
Qed.
Lemma ok_quiet c h : quiet c = true -> okLane cfg (c :: h) <-> okLane cfg h.
Proof. by destruct c. Qed.
Lemma inv_quiet w budget c : quiet c = true -> inv w -> inv (w <| lw_budget := budget |> <| lw_hist ::= cons c |>).
Proof. intros Hc [H1 H2 H3]. split; simpl; [by apply ok_quiet|by apply good_quiet|]. intros old Ho. apply good_quiet; [done|by apply H3]. Qed.
(** The lane's own knowledge is about the file and what it may fall back to. *)
Definition knows (phi : option upgradeLaneState -> option (option upgradeLaneState) -> Prop) (w : laneWorld) : Prop := inv w /\ phi (lw_file w) (lw_unsynced w).
Lemma triple_quiet {A} phi (answer : laneHist -> A) c : (forall a, quiet (c a) = true) -> triple (knows phi) (ask answer c) (fun _ => knows phi).
Proof. intros Hc. apply triple_ask; [by intros w [Hw _]|]. intros w budget [Hw Hphi]. split; [by apply inv_quiet|done]. Qed.
Lemma triple_read phi : triple (knows phi) (readUpgradeLaneState env)
  (fun r => knows (fun f u => phi f u /\ match r with Ok s => f = Some s \/ f = None /\ s = upgradeLaneState_zero | Err _ => True end)).
Proof.
  eapply triple_bind; [by apply triple_quiet|]. intros err w [Hw Hphi]. split; [done|]. split; [done|]. destruct err, (lw_file w); auto.
Qed.

(** ** The state file *)

Lemma triple_write (P : laneWorld -> Prop) s : (forall w, P w -> inv w) -> (forall w ended, P w -> good (Some s) (LWrite s ended :: lw_hist w)) ->
  triple P (writeUpgradeLaneState env s) (fun r w => inv w /\ match r with
    | None => lw_file w = Some s /\ lw_unsynced w = None
    | Some _ => lw_file w = Some s \/ exists w0, P w0 /\ lw_file w = lw_file w0
    end).
Proof.
  intros Hi Hg w Hw. unfold writeUpgradeLaneState. destruct (lw_budget w) as [|budget]; [by apply Hi|].
  set (ended := le_write env (lw_hist w)). pose proof (inv_quiet w budget (LWrite s ended) eq_refl (Hi w Hw)) as Hq. pose proof (Hg w ended Hw) as Hs.
  assert (inv (w <| lw_budget := budget |> <| lw_hist ::= cons (LWrite s ended) |> <| lw_file := Some s |> <| lw_unsynced := Some (default (lw_file w) (lw_unsynced w)) |>)) as Hr.
  { destruct Hq as [H1 H2 H3]. split; [done|done|]. simpl. intros old [= <-]. destruct (lw_unsynced w) as [old|] eqn:Hu; simpl; [by apply H3|done]. }
  destruct ended; simpl; [|split; [exact Hq|right; by exists w]|split; [exact Hr|by left]|exact Hr].
  split; [|done]. destruct Hq as [H1 H2 H3]. by split.
Qed.

(** A content that keeps the phase and the purge. *)
Definition alike (s s' : upgradeLaneState) : Prop := ul_Phase s' = ul_Phase s /\ ul_L9Purge s' = ul_L9Purge s.
Lemma good_alike s s' h : alike s s' -> good (Some s) h -> good (Some s') h.
Proof.
  intros [Hp Hl] [H1 H2 H3]. split.
  - intros Hst. destruct (H1 Hst) as (x & [= <-] & Hx & Hx'). exists s'. by rewrite Hp, Hl.
  - intros x [= <-]. rewrite Hl. by apply H2.
  - intros x [= <-]. rewrite Hp, Hl. by apply H3.
Qed.
Definition keeps (s : upgradeLaneState) : laneWorld -> Prop := knows (fun f _ => exists s', f = Some s' /\ alike s s').
Lemma triple_rewrite s s' s'' : alike s s' -> alike s' s'' ->
  triple (fun w => keeps s w /\ lw_file w = Some s') (writeUpgradeLaneState env s'') (fun _ => keeps s).
Proof.
  intros H1 H2. assert (alike s s'') as H3 by (destruct H1, H2; split; congruence).
  eapply triple_post; [|apply triple_write].
  - intros r w [Hw Hr]. split; [done|]. destruct r as [err|].
    + destruct Hr as [Hr|(w0 & [[_ (x & Hx & Ha)] _] & Hf)]; [by exists s''|]. exists x. by rewrite Hf.
    + exists s''. by destruct Hr.
  - by intros w [[Hw _] _].
  - intros w ended [[Hw _] Hf]. apply good_quiet; [done|]. apply (good_alike s'); [done|]. rewrite <- Hf. by apply in_file.
Qed.
Lemma keeps_read s : triple (keeps s) (readUpgradeLaneState env) (fun r w => match r with Ok s' => alike s s' /\ keeps s w /\ lw_file w = Some s' | Err _ => keeps s w end).
Proof.
  eapply triple_post; [|apply triple_read]. intros r w [Hw [(x & Hx & Ha) Hr]]. assert (keeps s w) as Hk by (split; [done|by exists x]).
  destruct r as [s'|]; [|done]. destruct Hr as [Hr|[Hr _]]; [|congruence]. rewrite Hx in Hr. injection Hr as <-. by split_and!.
Qed.
Lemma recordUpgradePreTXID_keeps s txid : triple (keeps s) (recordUpgradePreTXID env txid) (fun _ => keeps s).
Proof.
  eapply triple_bind; [apply keeps_read|]. intros [s'|err]; [|by apply triple_ret]. intros w (Ha & Hk & Hf).
  destruct (negb (ul_Phase s' =s UpgradePhasePre) || (txid <=? ul_PreUpgradeTXID s')%Z); [exact Hk|].
  by refine (triple_rewrite s s' _ Ha _ w (conj Hk Hf)).
Qed.
Lemma recordFirstCandidateL9_keeps s objects maxTXID now : triple (keeps s) (recordFirstCandidateL9 env objects maxTXID now) (fun _ => keeps s).
Proof.
  eapply triple_bind; [apply keeps_read|]. intros [s'|err]; [|by apply triple_ret]. intros w (Ha & Hk & Hf).
  destruct (ul_FirstCandidateL9 s') as [f|]; [exact Hk|]. destruct (ul_L9Purge s') as [p|]; [|exact Hk]. destruct (objects =? 0)%Z; [exact Hk|].
  refine (triple_bind (fun w => keeps s w /\ lw_file w = Some s') _ (fun _ => keeps s) _ _ _ _ w (conj Hk Hf)); [by apply triple_rewrite|].
  intros r. by apply triple_ret.
Qed.
Lemma recordVerified_keeps s txids : triple (keeps s) (recordVerified env txids) (fun _ => keeps s).
Proof. induction txids as [|txid txids IH]; [by apply triple_ret|]. eapply triple_bind; [apply recordUpgradePreTXID_keeps|]. intros ?. exact IH. Qed.
Lemma recordObserved_keeps s l : triple (keeps s) (recordObserved env l) (fun _ => keeps s).
Proof.
  induction l as [|[objects maxTXID] l IH]; [by apply triple_ret|]. eapply triple_bind; [by apply triple_quiet|]. intros now.
  eapply triple_bind; [apply recordFirstCandidateL9_keeps|]. intros ?. exact IH.
Qed.

(** ** The purge *)

(** The switch is synced and no purge has succeeded. *)
Definition purging (s : upgradeLaneState) : laneWorld -> Prop := knows (fun f u => f = Some s /\ u = None).

Section Purge.
Context (Hdelete : lc_UpgradeDeleteL9AtSwitch cfg = true).
Variables (s : upgradeLaneState) (Hpost : ul_Phase s = UpgradePhasePost) (Hopen : succeeded (ul_L9Purge s) = false).

Lemma purging_not_started w : purging s w -> candidateStarted (lw_hist w) = false.
Proof.
  intros [[_ Hf _] [Hs _]]. destruct (candidateStarted (lw_hist w)) eqn:Hst; [|done]. destruct (go_started _ _ Hf Hst) as (x & Hx & _ & Hd).
  rewrite Hs in Hx. injection Hx as <-. rewrite Hd in Hopen by done. done.
Qed.
Lemma purging_remove w budget key err : isL9 key = true -> ownListing (lc_worker cfg) key (lw_hist w) -> purging s w ->
  purging s (w <| lw_budget := budget |> <| lw_hist ::= cons (LRemove key err) |>).
Proof.
  intros Hl Ho Hw. pose proof (purging_not_started w Hw) as Hst. destruct Hw as [[H1 H2 H3] [Hs Hu]]. split; [|done]. split; simpl.
  - by split.
  - destruct H2 as [G1 G2 G3]. split; [by apply G1| |done]. intros x Hx. rewrite Hs in Hx. injection Hx as <-. by rewrite Hopen.
  - by rewrite Hu.
Qed.
Lemma purging_quiet {A} (answer : laneHist -> A) c : (forall a, quiet (c a) = true) -> triple (purging s) (ask answer c) (fun _ => purging s).
Proof. apply triple_quiet. Qed.

Lemma removeTargets_spec keys targets record : (forall k, In k keys -> replicaKeyWithinPrefix (lc_worker cfg) k = true) ->
  (forall key, In key targets -> In key keys /\ isL9 key = true) ->
  triple (fun w => purging s w /\ exists removed h2, lw_hist w = removed ++ LList (Ok keys) :: h2 /\ forallb isRemove removed = true)
    (removeTargets env targets record) (fun r w => purging s w /\ lp_Error (fst r) = lp_Error record).
Proof.
  intros Hown. revert record. induction targets as [|key targets IH]; intros record Ht; [apply triple_ret; by intros w [Hw _]|].
  eapply triple_bind with (R := fun _ w => purging s w /\ exists removed h2, lw_hist w = removed ++ LList (Ok keys) :: h2 /\ forallb isRemove removed = true).
  - apply triple_ask; [by intros w [[Hw _] _]|]. intros w budget [Hw (removed & h2 & Hh & Hr)]. destruct (Ht key ltac:(by left)) as [Hin Hl]. split.
    + apply purging_remove; [done| |done]. exists removed, keys, h2. split_and!; try done. intros k Hk. by apply within_inside, Hown.
    + exists (LRemove key (le_remove env (lw_hist w)) :: removed), h2. split; [simpl; by rewrite Hh|done].
  - intros [err|]; [apply triple_ret; by intros w [Hw _]|]. eapply triple_post; [|apply IH].
    + intros r w [Hw He]. split; [done|]. by rewrite He.
    + intros k Hk. apply Ht. by right.
Qed.
Definition purgeDone (r : replicaL9Purge * option string) (w : laneWorld) : Prop :=
  purging s w /\ (snd r = None -> lp_Error (fst r) = "" /\ lp_RemainingL9 (fst r) = 0%Z /\
    exists keys h2, lw_hist w = LClock :: LList (Ok keys) :: h2 /\ forall key, In key keys -> isL9 key = false).
Lemma finishPurge_failed record err : triple (purging s) (finishPurge env record (Some err)) purgeDone.
Proof. eapply triple_bind; [by apply purging_quiet|]. intros now. apply triple_ret. intros w Hw. by split. Qed.
Lemma finishPurge_done record remaining : lp_Error record = "" -> lp_RemainingL9 record = Z.of_nat (length (List.filter isL9 remaining)) ->
  triple (fun w => purging s w /\ exists h2, lw_hist w = LList (Ok remaining) :: h2)
    (finishPurge env record (if (0 <? lp_RemainingL9 record)%Z
      then Some ("replica L9 purge incomplete: " +:+ fmt_int (lp_RemainingL9 record) +:+ " L9 object(s) remain under " +:+ replicaOwnPrefix (lc_worker cfg)) else None)) purgeDone.
Proof.
  intros He Hr. destruct (Z.ltb_spec 0 (lp_RemainingL9 record)) as [|Hz]; [eapply triple_pre; [|apply finishPurge_failed]; by intros w [Hw _]|].
  eapply triple_bind with (R := fun _ w => purging s w /\ exists h2, lw_hist w = LClock :: LList (Ok remaining) :: h2).
  - apply triple_ask; [by intros w [[Hw _] _]|]. intros w budget [[Hw Hs] (h2 & Hh)]. split; [split; [by apply inv_quiet|done]|]. exists h2. simpl. by rewrite Hh.
  - intros now. apply triple_ret. intros w [Hw (h2 & Hh)]. split; [done|]. intros _. simpl. split_and!; [done|lia|]. exists remaining, h2. split; [done|].
    intros key Hk. apply not_true_iff_false. intros Hl. assert (In key (List.filter isL9 remaining)) as Hin by (by apply filter_In).
    rewrite Hr in Hz. destruct (List.filter isL9 remaining); [done|simpl in Hz; lia].
Qed.
Lemma purgeReplicaL9_spec : triple (purging s) (purgeReplicaL9 env (lc_worker cfg)) purgeDone.
Proof.
  eapply triple_bind; [by apply purging_quiet|]. intros at0. cbv zeta. cbn [lp_Prefix]. destruct (_ || _ || _); [apply finishPurge_failed|].
  eapply triple_bind with (R := fun r w => purging s w /\ exists h2, lw_hist w = LList r :: h2).
  { apply triple_ask; [by intros w [Hw _]|]. intros w budget [Hw Hs]. split; [split; [by apply inv_quiet|done]|]. by eexists. }
  intros [keys|err]; [|eapply triple_pre; [|apply finishPurge_failed]; by intros w [Hw _]].
  destruct (List.find _ keys) as [key|] eqn:Hfind; [eapply triple_pre; [|apply finishPurge_failed]; by intros w [Hw _]|].
  eapply triple_bind; [eapply triple_pre; [|apply (removeTargets_spec keys)]|].
  - intros w [Hw (h2 & Hh)]. split; [done|]. by exists [], h2.
  - intros k Hk. pose proof (find_none _ _ Hfind k Hk) as Hn. by apply negb_false_iff in Hn.
  - intros key Hk. apply list_elem_of_In in Hk. rewrite merge_sort_Permutation in Hk. apply list_elem_of_In in Hk. by apply filter_In in Hk.
  - intros [record [err|]]; [eapply triple_pre; [|apply finishPurge_failed]; by intros w [Hw _]|]. simpl.
    eapply triple_bind with (R := fun r w => (purging s w /\ exists h2, lw_hist w = LList r :: h2) /\ lp_Error record = "").
    { apply triple_ask; [by intros w [[Hw _] _]|]. intros w budget [[Hw Hs] He]. split; [|done]. split; [split; [by apply inv_quiet|done]|]. by eexists. }
    intros [remaining|err]; [|eapply triple_pre; [|apply finishPurge_failed]; by intros w [[Hw _] _]].
    intros w [Hw He]. by refine (finishPurge_done _ remaining _ _ w Hw).
Qed.

(** Recording an attempt. *)
Definition recorded (purge : replicaL9Purge) (attempt : Z) (err : option string) : upgradeLaneState :=
  s <| ul_L9Purge := Some (purge <| lp_Attempt := attempt |> <| lp_Succeeded := match err with None => true | Some _ => false end |>) |>.
Lemma purge_recorded purge attempt err : triple (purgeDone (purge, err)) (writeUpgradeLaneState env (recorded purge attempt err))
  (fun r w => inv w /\ (r = None -> lw_file w = Some (recorded purge attempt err) /\ lw_unsynced w = None)).
Proof.
  eapply triple_post; [|apply triple_write].
  - intros r w [Hw Hr]. split; [done|]. intros ->. exact Hr.
  - by intros w [[Hw _] _].
  - intros w ended [Hw Hd]. pose proof (purging_not_started w Hw) as Hst. split.
    + simpl. by rewrite Hst.
    + intros x [= <-] Hx. destruct err as [err|]; [done|]. destruct (Hd eq_refl) as (_ & _ & keys & h2 & Hh & Hk). exists [], (recorded purge attempt None), ended, keys, h2.
      rewrite Hh. by split_and!.
    + intros x [= <-]. by right.
Qed.
Lemma recorded_succeeded purge attempt w : purgeDone (purge, None) w -> succeeded (ul_L9Purge (recorded purge attempt None)) = true.
Proof. intros [_ Hd]. destruct (Hd eq_refl) as (He & Hr & _). simpl in He, Hr. simpl. by rewrite He, Hr. Qed.
End Purge.

Definition purged (s : upgradeLaneState) (w : laneWorld) : Prop :=
  purging s w /\ ul_Phase s = UpgradePhasePost /\ (lc_UpgradeDeleteL9AtSwitch cfg = true -> succeeded (ul_L9Purge s) = true).
Lemma purgeAttempts_spec tries attempt attemptErr s : lc_UpgradeDeleteL9AtSwitch cfg = true -> ul_Phase s = UpgradePhasePost -> succeeded (ul_L9Purge s) = false ->
  triple (purging s) (purgeAttempts env (lc_worker cfg) tries attempt attemptErr s) (fun r w => match r with (s', None) => purged s' w | (_, Some _) => inv w end).
Proof.
  intros Hdelete. revert attempt attemptErr s. induction tries as [|tries IH]; intros attempt attemptErr s Hpost Hopen; [apply triple_ret; by intros w [Hw _]|].
  eapply triple_bind; [by apply triple_quiet|]. intros [|]; [apply triple_ret; by intros w [Hw _]|].
  eapply triple_bind; [by apply purgeReplicaL9_spec|]. intros [purge err]. set (number := match ul_L9Purge s with Some p => _ | None => _ end).
  assert (err = None -> forall w, purgeDone s (purge, err) w -> succeeded (ul_L9Purge (recorded s purge number err)) = true) as Hsucc by (intros -> w; apply recorded_succeeded).
  eapply triple_bind with (R := fun r w => (inv w /\ (r = None -> lw_file w = Some (recorded s purge number err) /\ lw_unsynced w = None)) /\ (err = None -> succeeded (ul_L9Purge (recorded s purge number err)) = true)).
  { intros w Hw. pose proof (purge_recorded Hdelete s Hpost Hopen purge number err w Hw) as H. unfold recorded in H |- *.
    destruct (writeUpgradeLaneState _ _ _) as [[r|] w']; [|done]. split; [done|]. intros He. by apply (Hsucc He w). }
  intros [writeErr|]; [apply triple_ret; by intros w [[Hw _] _]|]. destruct err as [err|].
  - assert (triple (purging (recorded s purge number (Some err))) (purgeAttempts env (lc_worker cfg) tries (attempt + 1) err (recorded s purge number (Some err)))
      (fun r w => match r with (s', None) => purged s' w | (_, Some _) => inv w end)) as Hrest by (by apply IH).
    eapply triple_pre with (P' := purging (recorded s purge number (Some err))); [intros w [[Hw Hf] _]; split; [done|]; by apply Hf|].
    destruct tries as [|tries]; [exact Hrest|]. eapply triple_bind; [by apply triple_quiet|]. intros [|]; [apply triple_ret; by intros w [Hw _]|exact Hrest].
  - apply triple_ret. intros w [[Hw Hf] Hs]. split_and!; [split; [done|by apply Hf]|done|by intros _; apply Hs].
Qed.

(** ** The phases *)

Lemma triple_inv_ret {A} (P : laneWorld -> Prop) (a : A) : (forall w, P w -> inv w) -> triple P (lret a) (fun _ => inv).
Proof. intros H. by apply triple_ret. Qed.
Lemma phase_none s h : good (Some s) h -> ul_Phase s = UpgradePhasePre -> ul_L9Purge s = None /\ candidateStarted h = false.
Proof.
  intros [H1 _ H3] Hp. split; [destruct (H3 s eq_refl) as [[_ ?]|E]; [done|by rewrite Hp in E]|].
  destruct (candidateStarted h) eqn:Hst; [|done]. destruct (H1 eq_refl) as (x & [= <-] & E & _). by rewrite Hp in E.
Qed.

Lemma candidate_started s c : isCandidate c = true -> lc_activeLitestreamSHA c = lc_LitestreamSHA cfg -> triple (purged s) (call (LStart c)) (fun _ => keeps s).
Proof.
  intros Hc Ha. apply triple_ask; [by intros w [[Hw _] _]|]. intros w budget ([[H1 H2 H3] [Hf Hu]] & Hp & Hs). split; [|simpl; rewrite Hf; by exists s]. split; simpl.
  - rewrite Hc. split; [|done]. split; [done|]. intros Hd. apply (go_cleaned _ _ H2 s Hf). by apply Hs.
  - destruct H2 as [G1 G2 G3]. split; [by exists s| |done]. intros x Hx Hsx. apply cleaned_cons; [simpl; by rewrite Hc|by apply (G2 x)].
  - by rewrite Hu.
Qed.
Lemma runCandidate_inv s c : isCandidate c = true -> lc_activeLitestreamSHA c = lc_LitestreamSHA cfg -> triple (purged s) (runCandidate env c) (fun _ => inv).
Proof.
  intros Hc Ha. eapply triple_bind; [by apply candidate_started|]. intros ?. eapply triple_bind; [by apply triple_quiet|]. intros l.
  eapply triple_bind; [apply recordObserved_keeps|]. intros ?. eapply triple_post; [|by apply triple_quiet]. by intros ? w [Hw _].
Qed.
Lemma runPostPhase_inv s : ul_Phase s = UpgradePhasePost -> triple (purging s) (runPostPhase env cfg s) (fun _ => inv).
Proof.
  intros Hp. eapply triple_bind with (R := fun r w => match r with (s', None) => purged s' w | (_, Some _) => inv w end).
  - destruct (lc_UpgradeDeleteL9AtSwitch cfg) eqn:Hd, (succeeded (ul_L9Purge s)) eqn:Hs; cbn [andb negb]; try (apply triple_ret; intros w Hw; split_and!; by rewrite ?Hd).
    by apply purgeAttempts_spec.
  - intros [s' [err|]].
    + eapply triple_bind with (R := fun _ => inv); [|intros ?; by apply triple_inv_ret]. apply triple_ask; [done|]. intros w budget Hw. by apply inv_quiet.
    + unfold ForUpgradePhase. destruct (lc_UpgradeLane cfg); cbn [negb]; [|apply triple_inv_ret; by intros w [[Hw _] _]].
      change (UpgradePhasePost =s UpgradePhasePre) with false. change (UpgradePhasePost =s UpgradePhasePost) with true. cbv iota.
      apply (runCandidate_inv s'); destruct (0 <? lc_UpgradePostSnapshotInterval cfg)%Z; done.
Qed.
Lemma base_started s c : isCandidate c = false -> lc_activeLitestreamSHA c = lc_LitestreamBaseSHA cfg -> ul_Phase s = UpgradePhasePre ->
  triple (purging s) (call (LStart c)) (fun _ => keeps s).
Proof.
  intros Hc Ha Hp. apply triple_ask; [by intros w [Hw _]|]. intros w budget [[H1 H2 H3] [Hf Hu]]. rewrite Hf in H2. destruct (phase_none s _ H2 Hp) as [Hn Hst].
  split; [|simpl; rewrite Hf; by exists s]. split; simpl; [by rewrite Hc| |by rewrite Hu]. rewrite Hf. split.
  - simpl. by rewrite Hc, Hst.
  - intros x [= <-]. by rewrite Hn.
  - apply H2.
Qed.
Lemma runPrePhase_spec s pre : isCandidate pre = false -> lc_activeLitestreamSHA pre = lc_LitestreamBaseSHA cfg -> ul_Phase s = UpgradePhasePre ->
  triple (purging s) (runPrePhase env cfg pre) (fun r w => match r with inl s' => purging s' w /\ ul_Phase s' = UpgradePhasePost | inr _ => inv w end).
Proof.
  intros Hc Ha Hp. eapply triple_bind with (R := fun _ => keeps s).
  { eapply triple_bind; [by apply base_started|]. intros ?. eapply triple_bind; [by apply triple_quiet|]. intros l.
    eapply triple_bind; [apply recordVerified_keeps|]. intros ?. by apply triple_quiet. }
  intros ended. destruct (pe_canceledRun ended); [apply triple_ret; by intros w [Hw _]|]. destruct (pe_warmupEnded ended); [|apply triple_ret; by intros w [Hw _]].
  eapply triple_bind; [apply keeps_read|]. intros [s'|err]; [|apply triple_ret; by intros w [Hw _]].
  eapply triple_bind with (R := fun _ w => alike s s' /\ keeps s w /\ lw_file w = Some s').
  { apply triple_ask; [by intros w (_ & [Hw _] & _)|]. intros w budget (Hal & [Hw Hk] & Hf). split_and!; [done| |done]. split; [by apply inv_quiet|done]. }
  intros switched. eapply triple_bind; [apply triple_write|].
  - by intros w (_ & [Hw _] & _).
  - intros w ended' ([Hph Hl] & [[_ Hg _] _] & Hf). rewrite Hf in Hg. rewrite Hp in Hph. destruct (phase_none s' _ Hg Hph) as [Hn Hst]. split.
    + simpl. by rewrite Hst.
    + intros x [= <-]. simpl. by rewrite Hn.
    + intros x [= <-]. by right.
  - intros [err|]; apply triple_ret; [by intros w [Hw _]|]. intros w [Hw Hf]. by split.
Qed.
Lemma runUpgradeLane_inv : triple (fun w => inv w /\ lw_unsynced w = None) (runUpgradeLane env cfg) (fun _ => inv).
Proof.
  unfold runUpgradeLane. destruct (lc_UpgradeLane cfg) eqn:Hlane; cbn [negb]; [|apply triple_inv_ret; by intros w [Hw _]].
  eapply triple_bind; [apply (triple_read (fun _ u => u = None))|]. intros [state|err]; [|apply triple_inv_ret; by intros w [Hw _]].
  eapply triple_bind; [by apply triple_quiet|]. intros now. cbv zeta. set (fresh := mkLaneState _ _ _ _ _ _ _ _).
  eapply triple_bind with (R := fun r w => match r with Some _ => inv w | None => purging (if ul_Phase state =s "" then fresh else state) w end).
  - destruct (eqs_spec (ul_Phase state) "") as [Hph|Hph].
    + eapply triple_post; [|apply triple_write].
      * intros [err|] w [Hw Hr]; [done|by split].
      * by intros w [Hw _].
      * intros w ended [[_ Hg _] [_ Hf]]. assert (candidateStarted (lw_hist w) = false) as Hst.
        { destruct (candidateStarted (lw_hist w)) eqn:Hst; [|done]. destruct (go_started _ _ Hg Hst) as (x & Hx & E & _). destruct Hf as [Hf|[Hf _]]; [|congruence].
          rewrite Hf in Hx. injection Hx as <-. by rewrite Hph in E. }
        split; [simpl; by rewrite Hst|by intros x [= <-]|]. intros x [= <-]. by left.
    + apply triple_ret. intros w [Hw [Hu [Hf|[_ ->]]]]; [by split|done].
  - intros [err|]; [by apply triple_inv_ret|]. set (s := if ul_Phase state =s "" then fresh else state). destruct (_ || _); [apply triple_inv_ret; by intros w [Hw _]|].
    destruct (eqs_spec (ul_Phase s) UpgradePhasePre) as [Hp|Hp].
    + unfold ForUpgradePhase. rewrite Hlane. cbn [negb]. change (UpgradePhasePre =s UpgradePhasePre) with true. cbv iota zeta.
      eapply triple_bind; [by apply runPrePhase_spec|]. intros [s'|r]; [|by apply triple_inv_ret]. intros w [Hw Hs']. by apply runPostPhase_inv.
    + intros w Hw. apply runPostPhase_inv; [|done]. destruct Hw as [[_ Hg _] [Hf _]]. by destruct (go_phase _ _ Hg s Hf) as [[? _]|?].
Qed.

(** ** Restarts *)

Definition settles (r : laneRestart) : Prop := match r with Settles _ => True | LeavesOpen => False end.
Lemma boot_inv r budget w : settles r -> inv w -> inv (boot r budget w) /\ lw_unsynced (boot r budget w) = None.
Proof.
  destruct r as [lost|]; [|done]. intros _ Hw. pose proof (inv_quiet w budget LRestart eq_refl Hw) as [H1 H2 H3]. split; [|done]. split; simpl; [done| |done].
  destruct lost; [|exact H2]. destruct (lw_unsynced w) as [old|] eqn:Hu; simpl; [by apply H3|exact H2].
Qed.
Lemma runLane_inv sessions w : Forall (fun s => settles (fst s)) sessions -> inv w -> inv (runLane env cfg sessions w).
Proof.
  revert w. induction sessions as [|[r budget] sessions IH]; intros w Hs Hw; [done|]. apply Forall_cons in Hs as [Hr Hs]. apply IH; [done|].
  pose proof (runUpgradeLane_inv _ (boot_inv r budget w Hr Hw)) as H. simpl. by destruct (runUpgradeLane env cfg (boot r budget w)) as [[?|] w'].
Qed.
Lemma okLane_at h past c future : okLane cfg h -> h = future ++ c :: past -> okLane cfg (c :: past).
Proof. intros Hok ->. induction future as [|d future IH]; [done|]. apply IH. destruct d; simpl in Hok; tauto. Qed.
Lemma lane_begins : inv (mkLane None None 0 []).
Proof. split; [done| |done]. by split. Qed.

(** C10: However the lane is killed and restarted, and however its clock, its volume, the replica and its runners
    behave, the base build is never started once the candidate was; the candidate, where the purge is
    configured, is started only after a listing that showed no object of level 9 and the recording of that purge, with no
    removal and no base build since; and a removal is asked for only before the candidate was ever started, for a key of level 9, from a
    listing all of which lies under the worker's own prefix.  The restarts are those after which it is known whether
    a replacement of the state file survived ([unsynced_state_is_acted_on] is what happens after the others), and what is said of a removal is
    said of the listed key: the command is given the cleaned path ([cleaned_key_names_another_object]). *)
Theorem upgrade_lane_safe sessions past c future : Forall (fun s => settles (fst s)) sessions ->
  lw_hist (runLane env cfg sessions (mkLane None None 0 [])) = future ++ c :: past ->
  match c with
  | LStart run =>
      if isCandidate run then lc_activeLitestreamSHA run = lc_LitestreamSHA cfg /\ (lc_UpgradeDeleteL9AtSwitch cfg = true -> cleaned past)
      else lc_activeLitestreamSHA run = lc_LitestreamBaseSHA cfg /\ candidateStarted past = false
  | LRemove key _ => candidateStarted past = false /\ isL9 key = true /\ ownListing (lc_worker cfg) key past
  | _ => True
  end.
Proof.
  intros Hs Hh. pose proof (in_ok _ (runLane_inv sessions _ Hs lane_begins)) as Hok. pose proof (okLane_at _ _ _ _ Hok Hh) as H. destruct c; simpl in H; tauto.
Qed.
End Lane.

(** * Examples *)

Definition laneWorker : workerConfig := mkWorkerConfig "s3" "" "" false "" "bucket" "/soak/w1/" "" "" 0 "" "/data" "" "" "" 0 "" 0 0 0 0 0 0 0 None.
Definition laneCfg : laneConfig := mkLaneConfig laneWorker true Hour true 0 "/opt/base" "base" "cand" true "" "" "" 0.
(** A replica on which both builds write a snapshot; [writes] are the ends of the replacements. *)
Definition hasL9 (h : laneHist) : bool := match List.find (fun c => isRemove c || match c with LStart _ => true | _ => false end) h with Some (LStart _) => true | _ => false end.
Definition writesDone (h : laneHist) : nat := length (List.filter (fun c => match c with LWrite _ _ => true | _ => false end) h).
Definition demoLane (writes : list writeEnd) : laneEnv :=
  mkLaneEnv (fun _ => None) (fun h => Z.of_nat (length h)) (fun h => default WOk (writes !! writesDone h))
    (fun h => Ok (if hasL9 h then ["soak/w1/0000/a.ltx"; "soak/w1/0009/b.ltx"] else ["soak/w1/0000/a.ltx"])) (fun _ => None) (fun _ => false)
    (fun _ => [5%Z]) (fun _ => mkPhaseEnd false true None) (fun _ => [(1%Z, 7%Z)]) (fun _ => None).
Abbreviation demoRun cfg writes sessions := (lw_hist (runLane (demoLane writes) cfg sessions (mkLane None None 0 []))).
Definition starts (h : laneHist) : list bool := flat_map (fun c => match c with LStart c => [isCandidate c] | _ => [] end) (rev h).
(** The lane of one session, and of a worker that is killed during the purge. *)
Example lane_in_one_session : starts (demoRun laneCfg [] [(Settles false, 100)]) = [false; true] /\
  starts (demoRun laneCfg [] [(Settles false, 17); (Settles false, 100)]) = [false; true].
Proof. split; vm_compute; reflexivity. Qed.
Lemma upgrade_lane_safe_witness : exists past future run, demoRun laneCfg [] [(Settles false, 100)] = future ++ LStart run :: past /\ isCandidate run = true /\ cleaned past.
Proof.
  assert (exists past future run, demoRun laneCfg [] [(Settles false, 100)] = future ++ LStart run :: past /\ isCandidate run = true) as (past & future & run & Hh & Hc).
  { eexists _, [_; _; _; _; _], _. split; [vm_compute; reflexivity|vm_compute; reflexivity]. }
  exists past, future, run. split; [exact Hh|]. split; [exact Hc|].
  pose proof (upgrade_lane_safe (demoLane []) laneCfg [(Settles false, 100)] past (LStart run) future ltac:(repeat constructor) Hh) as H.
  cbv beta iota in H. rewrite Hc in H. apply H. reflexivity.
Defined.

Definition removedAfterCandidate (h : laneHist) : bool :=
  existsb (fun n => match drop n h with c :: past => isRemove c && candidateStarted past | [] => false end) (seq 0 (length h)).
(** When the directory's sync fails after the file was replaced, the worker that restarts goes by the replaced file and starts the candidate; a loss of
    power then brings the earlier content back.  At the switch the base build so runs again after the candidate, and
    at the purge the candidate's own snapshots are removed. *)
Example unsynced_state_is_acted_on :
  starts (demoRun (laneCfg <| lc_UpgradeDeleteL9AtSwitch := false |>) [WOk; WOk; WUnsynced "io"] [(Settles false, 100); (LeavesOpen, 100); (Settles true, 100)]) = [false; true; false; true] /\
  removedAfterCandidate (demoRun laneCfg [WOk; WOk; WOk; WUnsynced "io"; WFailed "io"] [(Settles false, 100); (LeavesOpen, 100); (Settles true, 100)]) = true.
Proof. split; vm_compute; reflexivity. Qed.

(** The command that removes an object is given a cleaned path, and a key may end in two dots: both keys pass as the worker's own, and another
    object is removed. *)
Example cleaned_key_names_another_object :
  replicaKeyWithinPrefix laneWorker "soak/w1//0009/b.ltx" = true /\ removeTarget laneWorker "soak/w1//0009/b.ltx" = "s3://bucket/soak/w1/0009/b.ltx" /\
  replicaKeyWithinPrefix laneWorker "soak/w1/0009/.." = true /\ isL9 "soak/w1/0009/.." = true /\ removeTarget laneWorker "soak/w1/0009/.." = "s3://bucket/soak/w1".
Proof. by vm_compute. Qed.
(** A key that holds two spaces in a row is listed with one. *)
Example listing_collapses_spaces :
  parseS3ListingKeys ["2024-01-01 00:00    12   s3://bucket/soak/w 1/a  b.ltx"; "DIR s3://bucket/x/"] "bucket" = ["soak/w 1/a b.ltx"].
Proof. vm_compute. reflexivity. Qed.
