(* ===== verification/VFSCheck.v ===== *)
(** The checks of the VFS reader, [worker/vfs_check.go], and the session it reads through,
    [worker/vfs_reader.go]: a read transaction held while the primary is updated, and a comparison with
    the quiesced primary at a verification boundary.

    The shell, Litestream, the primary and the clock answer as an environment that sees the calls
    so far; how many polls a wait has is one of its answers.  A session carries, beside what the code keeps,
    whether its shell has a transaction open and output that was not read. *)
From Stdlib Require Import Ascii.
From S2P Require Import Prelude GoStrings GoTime Model Classification WorkerErrors LtxCoverage RestoreOutput Verifier.

Definition vfsCheckType : string := "vfs".
Definition vfsSnapshotRestoreMode : string := "vfs-snapshot".
Definition vfsReadRestoreMode : string := "vfs-read".
Definition vfsSnapshotStep : string := "vfs_snapshot".
Definition vfsReadStep : string := "vfs_read".
Definition vfsSnapshotSession : string := "snapshot".
Definition vfsReadSession : string := "read".
Definition vfsSnapshotRepeats : nat := 16.
Definition vfsHydrationBudget : duration := (10 * Minute)%Z.
Definition vfsReadHydrationBudget : duration := Minute.
Definition vfsCatchUpBudget : duration := (10 * Minute)%Z.
Definition vfsProbeWriteBudget : duration := (10 * Minute)%Z.
Definition cacheProbeQuery : string := "SELECT count(*), min(generation), max(generation), sum(generation) FROM cache_probe NOT INDEXED".
Definition SignatureVFSReaderUnavailable : string := "vfs_reader_unavailable".
Definition SignatureVFSHydrationIncomplete : string := "vfs_hydration_incomplete".
Definition SignatureVFSReaderNotCaughtUp : string := "vfs_reader_not_caught_up".

(** * Errors *)

Inductive vfsMark := ReaderUnavailable | HydrationIncomplete | HydrationFailed | ReaderNotCaughtUp | StatementTimeout | ProbeSyncFailed.
#[export] Instance vfsMark_eq_dec : EqDecision vfsMark.
Proof. solve_decision. Defined.
(** An error and the ones it wraps. *)
Record vfsError := mkVFSError { ve_marks : list vfsMark; ve_text : string }.
Definition Is (err : vfsError) (m : vfsMark) : bool := bool_decide (m ∈ ve_marks err).
Definition vfsMarkText (m : vfsMark) : string :=
  match m with
  | ReaderUnavailable => "vfs reader unavailable" | HydrationIncomplete => "vfs hydration incomplete" | HydrationFailed => "vfs hydration failed"
  | ReaderNotCaughtUp => "vfs reader not caught up" | StatementTimeout => "vfs reader statement timed out" | ProbeSyncFailed => "vfs probe sync failed"
  end.
(** [fmt.Errorf("%w: ...", mark)]. *)
Definition wrap (m : vfsMark) (text : string) : vfsError := mkVFSError [m] (vfsMarkText m +:+ ": " +:+ text).

Definition vfsInconclusiveSignature (err : vfsError) : string :=
  if Is err HydrationIncomplete || Is err HydrationFailed then SignatureVFSHydrationIncomplete
  else if Is err ReaderNotCaughtUp then SignatureVFSReaderNotCaughtUp
  else SignatureVFSReaderUnavailable.
Definition vfsSessionReusable (err : option vfsError) : bool :=
  match err with
  | None => true
  | Some err => if Is err StatementTimeout then false else Is err HydrationIncomplete || Is err ReaderNotCaughtUp || Is err ProbeSyncFailed
  end.

(** * Hydration *)

Record vfsHydration := mkHydration { hy_complete : bool; hy_failure : string }.
Definition vfsHydrationFailureMarkers : list string :=
  ["msg=" +:+ quoteStr +:+ "hydration failed" +:+ quoteStr; "msg=" +:+ quoteStr +:+ "hydration catch-up failed" +:+ quoteStr; "msg=" +:+ quoteStr +:+ "hydration initialization failed";
   "msg=" +:+ quoteStr +:+ "hydration truncate failed" +:+ quoteStr; "msg=" +:+ quoteStr +:+ "hydration disabled for time travel" +:+ quoteStr].
Definition vfsHydrationCompleteMarker : string := "msg=" +:+ quoteStr +:+ "hydration complete" +:+ quoteStr.
Definition vfsPollFailureMarker : string := "msg=" +:+ quoteStr +:+ "cannot fetch new ltx files" +:+ quoteStr.
Definition vfsHydrationApplyMarker : string := "apply hydration updates".
Definition vfsHydrationFailureLine (line : string) : bool :=
  existsb (Contains line) vfsHydrationFailureMarkers || (Contains line vfsPollFailureMarker && Contains line vfsHydrationApplyMarker).
Definition scanLine (h : vfsHydration) (line : string) : vfsHydration :=
  let complete := hy_complete h || Contains line vfsHydrationCompleteMarker in
  mkHydration complete (if (hy_failure h =s "") && vfsHydrationFailureLine line then TrimSpace line else hy_failure h).
Definition parseVFSHydration (log : string) : vfsHydration := fold_left scanLine (Split newline log) (mkHydration false "").

(** What the session has read of its log. *)
Record vfsLog := mkVFSLog { vl_state : vfsHydration; vl_offset : nat; vl_rest : string }.
(** [hydration] on a log file of this content. *)
Definition hydration (log : string) (s : vfsLog) : vfsHydration * vfsLog :=
  if String.length log <=? vl_offset s then (vl_state s, s)
  else
    let chunk := str_drop (vl_offset s) log in
    let lines := Split newline (vl_rest s +:+ chunk) in
    let state := fold_left scanLine (removelast lines) (vl_state s) in
    (state, mkVFSLog state (vl_offset s + String.length chunk) (List.last lines "")).

(** * Probes and outcomes *)

Record vfsProbe := mkProbe { pr_raw : string; pr_count : Z; pr_min : Z; pr_max : Z; pr_sum : Z; pr_txid : Z }.
#[export] Instance vfsProbe_eta : Settable vfsProbe := fun r => mkProbe (pr_raw r) (pr_count r) (pr_min r) (pr_max r) (pr_sum r) (pr_txid r).
Definition vfsProbe_zero : vfsProbe := mkProbe "" 0 0 0 0 0.
(** The error of a column does not repeat the parser's own. *)
Definition parseVFSProbe (raw : string) : result string vfsProbe :=
  let fields := Split "|" (TrimSpace raw) in
  match fields with
  | [f1; f2; f3; f4] =>
      let column (f : string) := let '(v, ok) := Atoi (TrimSpace f) in if (ok : bool) then Some v else None in
      let bad (i : Z) : result string vfsProbe := Err ("probe row " +:+ Quote raw +:+ " column " +:+ fmt_int i) in
      match column f1, column f2, column f3, column f4 with
      | None, _, _, _ => bad 1%Z
      | _, None, _, _ => bad 2%Z
      | _, _, None, _ => bad 3%Z
      | _, _, _, None => bad 4%Z
      | Some a, Some b, Some c, Some d => Ok (mkProbe (TrimSpace raw) a b c d 0)
      end
  | _ => Err ("probe row " +:+ Quote raw +:+ " has " +:+ fmt_int (Z.of_nat (length fields)) +:+ " columns, want 4")
  end.
Definition probeString (p : vfsProbe) : string := if (pr_txid p =? 0)%Z then pr_raw p else pr_raw p +:+ "@" +:+ formatTXID (pr_txid p).

Record vfsSnapshotOutcome := mkSnapshotOutcome {
  so_hydration : string;
  so_first : vfsProbe;
  so_expected : string;
  so_syncTXID : Z;
  so_reached : Z;
  so_repeats : list vfsProbe;
  so_after : vfsProbe;
  so_committed : bool;
  so_err : option vfsError;
  so_logTail : string
}.
#[export] Instance vfsSnapshotOutcome_eta : Settable vfsSnapshotOutcome :=
  fun r => mkSnapshotOutcome (so_hydration r) (so_first r) (so_expected r) (so_syncTXID r) (so_reached r) (so_repeats r) (so_after r) (so_committed r) (so_err r) (so_logTail r).
Definition vfsSnapshotOutcome_zero : vfsSnapshotOutcome := mkSnapshotOutcome "" vfsProbe_zero "" 0 0 [] vfsProbe_zero false None "".

(** The positions, from one, of the repeats that differ. *)
Definition drifted (o : vfsSnapshotOutcome) : list nat :=
  map fst (List.filter (fun p => negb (pr_raw (snd p) =s pr_raw (so_first o))) (combine (seq 1 (length (so_repeats o))) (so_repeats o))).
Definition confirmed (o : vfsSnapshotOutcome) : bool :=
  so_committed o && negb (so_expected o =s "") && negb (so_expected o =s pr_raw (so_first o)) && (pr_raw (so_after o) =s so_expected o).
Definition noEvidence (o : vfsSnapshotOutcome) : string :=
  if so_expected o =s pr_raw (so_first o) then "probe update left the aggregate at " +:+ so_expected o
  else "probe after COMMIT " +:+ probeString (so_after o) +:+ " did not match the primary " +:+ so_expected o +:+ " after the update synced at txid " +:+ formatTXID (so_syncTXID o).
Definition fmt_nat (n : nat) : string := fmt_int (Z.of_nat n).
Definition driftError (o : vfsSnapshotOutcome) : string :=
  match drifted o with
  | [] => ""
  | d :: _ =>
      let repeat := default vfsProbe_zero (so_repeats o !! (d - 1)) in
      "vfs snapshot drift: repeat " +:+ fmt_nat d +:+ " of " +:+ fmt_nat (length (so_repeats o)) +:+ " inside one read transaction returned " +:+ probeString repeat +:+
      ", first read returned " +:+ probeString (so_first o) +:+ " (" +:+ fmt_nat (length (drifted o)) +:+ " of " +:+ fmt_nat (length (so_repeats o)) +:+ " repeats differ)"
  end.
(** The worker's [firstNonEmpty] of two values. *)
Definition orPending (hydration : string) : string := if TrimSpace hydration =s "" then "pending" else hydration.
Definition snapshotSummary (o : vfsSnapshotOutcome) : string :=
  Join (["hydration=" +:+ orPending (so_hydration o)] ++
    (if pr_raw (so_first o) =s "" then [] else ["first=" +:+ probeString (so_first o)]) ++
    (if so_expected o =s "" then [] else ["primary_after_update=" +:+ so_expected o; "sync_txid=" +:+ formatTXID (so_syncTXID o); "reader_reached=" +:+ formatTXID (so_reached o)]) ++
    (match last (so_repeats o) with
     | None => []
     | Some r => ["repeats=" +:+ fmt_nat (length (so_repeats o)) +:+ " drifted=" +:+ fmt_nat (length (drifted o)) +:+ " last_repeat=" +:+ probeString r]
     end) ++
    (if so_committed o then ["after_commit=" +:+ probeString (so_after o); "confirmed=" +:+ (if confirmed o then "true" else "false")] else []) ++
    (match so_err o with Some err => ["error=" +:+ ve_text err] | None => [] end)) " ".

Record vfsReadQuery := mkQuery { qu_name : string; qu_statement : string; qu_primary : string; qu_vfs : string }.
#[export] Instance vfsReadQuery_eta : Settable vfsReadQuery := fun r => mkQuery (qu_name r) (qu_statement r) (qu_primary r) (qu_vfs r).
Definition vfsReadTableLimit : nat := 64.
(** [strings.ReplaceAll] of a quotation mark by two. *)
Fixpoint doubleQuotes (s : string) : string :=
  match s with EmptyString => "" | String c s => if Ascii.eqb c "034" then String c (String c (doubleQuotes s)) else String c (doubleQuotes s) end.
(** The aggregate, and the tables by name with their counts, as the primary answers. *)
Definition primaryReadQueries (aggregate : string) (tables : list (string * string)) : list vfsReadQuery :=
  mkQuery "cache_probe aggregate" cacheProbeQuery aggregate "" ::
  map (fun t => mkQuery (fst t +:+ " count") ("SELECT count(*) FROM " +:+ quoteStr +:+ doubleQuotes (fst t) +:+ quoteStr) (snd t) "") (take vfsReadTableLimit tables).
Record vfsReadOutcome := mkReadOutcome {
  ro_boundary : Z;
  ro_txid : Z;
  ro_hydration : string;
  ro_queries : list vfsReadQuery;
  ro_err : option vfsError;
  ro_logTail : string
}.
#[export] Instance vfsReadOutcome_eta : Settable vfsReadOutcome :=
  fun r => mkReadOutcome (ro_boundary r) (ro_txid r) (ro_hydration r) (ro_queries r) (ro_err r) (ro_logTail r).
Definition mismatches (o : vfsReadOutcome) : list vfsReadQuery := List.filter (fun query => negb (qu_primary query =s qu_vfs query)) (ro_queries o).
Definition mismatchError (o : vfsReadOutcome) : string :=
  match mismatches o with
  | [] => ""
  | first :: _ =>
      "vfs read mismatch: " +:+ qu_name first +:+ " returned vfs=" +:+ Quote (qu_vfs first) +:+ " primary=" +:+ Quote (qu_primary first) +:+ " at txid " +:+ formatTXID (ro_boundary o) +:+
      " (" +:+ fmt_nat (length (mismatches o)) +:+ " of " +:+ fmt_nat (length (ro_queries o)) +:+ " queries differ)"
  end.
Definition readSummary (o : vfsReadOutcome) : string :=
  Join (["boundary=" +:+ formatTXID (ro_boundary o) +:+ " reader=" +:+ formatTXID (ro_txid o) +:+ " hydration=" +:+ orPending (ro_hydration o)] ++
    (match ro_queries o with [] => [] | _ => ["queries=" +:+ fmt_nat (length (ro_queries o)) +:+ " mismatched=" +:+ fmt_nat (length (mismatches o))] end) ++
    map (fun query => qu_name query +:+ " vfs=" +:+ Quote (qu_vfs query) +:+ " primary=" +:+ Quote (qu_primary query)) (take 5 (mismatches o)) ++
    (match ro_err o with Some err => ["error=" +:+ ve_text err] | None => [] end)) " ".

(** * Results *)

Definition newVFSResult (step mode summary logTail : string) (startedAt completedAt : time) : verificationResult :=
  let output := if logTail =s "" then summary else summary +:+ String newline logTail in
  (newResult startedAt vfsCheckType mode) <| vr_CompletedAt := completedAt |> <| vr_Status := "" |>
    <| vr_DurationMS := Z.quot (time_Sub completedAt startedAt) Millisecond |>
    <| vr_Steps := [mkStep step startedAt completedAt 0 "ok" "" [] None None "" false "" (tailString output (Z.to_nat 8192)) 0 false] |>.
Definition setFirstStep (status err : string) (steps : list verificationStep) : list verificationStep :=
  match steps with s :: rest => s <| st_Status := status |> <| st_Error := err |> :: rest | [] => [] end.
Definition vfsInconclusive (step message signature : string) (r : verificationResult) : verificationResult :=
  r <| vr_Steps ::= setFirstStep "inconclusive" message |> <| vr_Status := "aborted" |> <| vr_ErrorMessage := message |>
    <| vr_Summary := "verification inconclusive: " +:+ message |>
    <| vr_Inconclusive := Some (FailureClassification_zero <| fc_Stage := step |> <| fc_Signature := signature |> <| fc_RestoreMode := vr_RestoreMode r |>) |>.
Definition vfsFailed (message summary : string) (r : verificationResult) : verificationResult :=
  r <| vr_Steps ::= setFirstStep "error" message |> <| vr_Status := "failed" |> <| vr_ErrorMessage := message |> <| vr_Summary := summary |>.
Definition vfsPassed (summary : string) (r : verificationResult) : verificationResult :=
  r <| vr_Status := "passed" |> <| vr_Passed := true |> <| vr_Summary := summary |>.
Definition vfsSnapshotResult (o : vfsSnapshotOutcome) (startedAt completedAt : time) : verificationResult :=
  let result := newVFSResult vfsSnapshotStep vfsSnapshotRestoreMode (snapshotSummary o) (so_logTail o) startedAt completedAt in
  match so_err o with
  | Some err => vfsInconclusive vfsSnapshotStep ("vfs snapshot check skipped: " +:+ ve_text err) (vfsInconclusiveSignature err) result
  | None =>
      match drifted o with
      | _ :: _ => vfsFailed (driftError o) "vfs snapshot check failed" result
      | [] =>
          if negb (confirmed o) then
            vfsInconclusive vfsSnapshotStep ("vfs snapshot check skipped: " +:+ vfsMarkText ReaderNotCaughtUp +:+ ": " +:+ noEvidence o) SignatureVFSReaderNotCaughtUp result
          else vfsPassed ("vfs snapshot check passed: " +:+ fmt_nat (length (so_repeats o)) +:+ " repeats matched the first read after the reader applied the probe update synced at txid " +:+ formatTXID (so_syncTXID o)) result
      end
  end.
Definition vfsReadResult (o : vfsReadOutcome) (startedAt completedAt : time) : verificationResult :=
  let result := (newVFSResult vfsReadStep vfsReadRestoreMode (readSummary o) (ro_logTail o) startedAt completedAt) <| vr_SyncTXID := ro_boundary o |> <| vr_BoundaryTXID := ro_boundary o |> in
  match ro_err o with
  | Some err => vfsInconclusive vfsReadStep ("vfs read check skipped: " +:+ ve_text err) (vfsInconclusiveSignature err) result
  | None =>
      match ro_queries o with
      | [] => vfsInconclusive vfsReadStep "vfs read check skipped: no queries compared" SignatureVFSReaderUnavailable result
      | _ =>
          match mismatches o with
          | _ :: _ => vfsFailed (mismatchError o) "vfs read check failed" result
          | [] => vfsPassed ("vfs read check passed: " +:+ fmt_nat (length (ro_queries o)) +:+ " queries matched the primary at txid " +:+ formatTXID (ro_boundary o)) result
          end
      end
  end.

(** * Sessions *)

(** What the shell of a session is in: an open transaction, and output of a statement that was not read to its end. *)
Record vfsSession := mkSession { vs_inTransaction : bool; vs_unread : bool }.
Definition freshSession : vfsSession := mkSession false false.
(** What a statement does to it. *)
Definition executed (statement : string) (ok : bool) (s : vfsSession) : vfsSession :=
  if ok then mkSession (if statement =s "BEGIN" then true else if (statement =s "COMMIT") || (statement =s "ROLLBACK") then false else vs_inTransaction s) (vs_unread s)
  else mkSession (vs_inTransaction s) true.

Inductive vfsCall :=
| XUsable (name : string) (usable : bool)   (** alive and its log within the cap *)
| XStart (name : string) (err : option string)
| XClose (name : string)
| XHydration (name : string) (state : result string vfsHydration)
| XExec (name statement : string) (rows : result string (list string))
| XTXID (name : string) (txid : result (bool * string) Z)  (** with an error, whether the wait had run out *)
| XPolls (polls : nat)                      (** the polls a wait has *)
| XSleep
| XCanceled (canceled : bool)
| XHold
| XRelease
| XUpdate (expected : result (bool * string) string)       (** with an error, whether the load is paused *)
| XSync (txid : result string Z)
| XPrimary (answers : result string (string * list (string * string)))
| XLogTail
| XClock.
Abbreviation vfsHist := (list vfsCall).
Record vfsEnv := mkVFSEnv {
  xe_usable : vfsHist -> bool;
  xe_start : vfsHist -> option string;
  xe_hydration : vfsHist -> result string vfsHydration;
  xe_exec : vfsHist -> string -> result string (list string);
  xe_txid : vfsHist -> result (bool * string) Z;
  xe_polls : vfsHist -> nat;
  xe_canceled : vfsHist -> bool;
  xe_update : vfsHist -> result (bool * string) string;
  xe_sync : vfsHist -> result string Z;
  xe_primary : vfsHist -> result string (string * list (string * string));
  xe_logTail : vfsHist -> string;
  xe_clock : vfsHist -> time
}.
Record vfsWorld := mkVFSWorld { xw_sessions : gmap string vfsSession; xw_hist : vfsHist }.
#[export] Instance vfsWorld_eta : Settable vfsWorld := fun r => mkVFSWorld (xw_sessions r) (xw_hist r).

Definition X (A : Type) : Type := vfsWorld -> A * vfsWorld.
Definition xret {A} (a : A) : X A := fun w => (a, w).
Definition xbind {A B} (m : X A) (k : A -> X B) : X B := fun w => let '(a, w) := m w in k a w.
Declare Scope vfs_scope.
Notation "x <~ m ; k" := (xbind m (fun x => k)) (at level 100, m at next level, right associativity) : vfs_scope.
Notation "m ;~ k" := (xbind m (fun _ => k)) (at level 100, right associativity) : vfs_scope.
Open Scope vfs_scope.

Section Check.
Variable env : vfsEnv.

Definition xask {A} (answer : vfsHist -> A) (c : A -> vfsCall) : X A :=
  fun w => let a := answer (xw_hist w) in (a, w <| xw_hist ::= cons (c a) |>).
(** A call that runs a statement of the session's shell. *)
Definition xstatement {E A} (name statement : string) (answer : vfsHist -> result E A) (c : result E A -> vfsCall) : X (result E A) :=
  fun w => let r := answer (xw_hist w) in
  (r, w <| xw_hist ::= cons (c r) |> <| xw_sessions ::= alter (executed statement match r with Ok _ => true | Err _ => false end) name |>).

Definition drop_session (name : string) : X () :=
  fun w => match xw_sessions w !! name with Some _ => (tt, w <| xw_hist ::= cons (XClose name) |> <| xw_sessions ::= delete name |>) | None => (tt, w) end.
Definition startSession (name : string) : X (option vfsError) :=
  err <~ xask (xe_start env) (XStart name);
  match err with
  | Some err => xret (Some (wrap ReaderUnavailable err))
  | None => fun w => (None, w <| xw_sessions ::= <[name := freshSession]> |>)
  end.
Definition session (name : string) : X (option vfsError) :=
  fun w => match xw_sessions w !! name with
  | None => startSession name w
  | Some _ => (usable <~ xask (xe_usable env) (XUsable name); if (usable : bool) then xret None else (drop_session name ;~ startSession name)) w
  end.

Definition exec (name statement : string) : X (result vfsError (list string)) :=
  rows <~ xstatement name statement (fun h => xe_exec env h statement) (XExec name statement);
  xret (match rows with Ok rows => Ok rows | Err err => Err (wrap ReaderUnavailable err) end).
Definition txid (name : string) : X (result (bool * string) Z) := xstatement name "PRAGMA litestream_txid" (xe_txid env) (XTXID name).
Definition probe (name : string) : X (result vfsError vfsProbe) :=
  rows <~ exec name cacheProbeQuery;
  match rows with
  | Err err => xret (Err err)
  | Ok [row] =>
      match parseVFSProbe row with
      | Err err => xret (Err (wrap ReaderUnavailable err))
      | Ok p =>
          t <~ txid name;
          xret (match t with Ok t => Ok (p <| pr_txid := t |>) | Err (_, err) => Err (wrap ReaderUnavailable err) end)
      end
  | Ok rows => xret (Err (wrap ReaderUnavailable ("probe returned " +:+ fmt_nat (length rows) +:+ " rows")))
  end.
(** [sleepContext] under the check's own context. *)
Definition sleepContext : X (option string) :=
  canceled <~ xask (xe_canceled env) XCanceled; if (canceled : bool) then xret (Some "context canceled") else (xask (fun _ => tt) (fun _ => XSleep) ;~ xret None).
Definition hydrationActive (name : string) : X (option vfsError) :=
  state <~ xask (xe_hydration env) (XHydration name);
  xret (match state with
    | Err err => Some (wrap ReaderUnavailable ("read vfs log: " +:+ err))
    | Ok state => if hy_failure state =s "" then None else Some (wrap HydrationFailed (hy_failure state))
    end).
Definition settledHydrationActive (name : string) : X (option vfsError) :=
  err <~ sleepContext;
  match err with Some err => xret (Some (wrap ReaderUnavailable err)) | None => hydrationActive name end.

(** The end of a wait: its context's error, or the budget's. *)
Definition waitEnded (ended : vfsError) : X vfsError :=
  canceled <~ xask (xe_canceled env) XCanceled; xret (if (canceled : bool) then wrap ReaderUnavailable "context canceled" else ended).
Fixpoint waitHydratedPolls (name : string) (budget : duration) (polls : nat) : X (string * option vfsError) :=
  state <~ xask (xe_hydration env) (XHydration name);
  match state with
  | Err err => xret ("", Some (wrap ReaderUnavailable ("read vfs log: " +:+ err)))
  | Ok state =>
      if negb (hy_failure state =s "") then xret ("failed", Some (wrap HydrationFailed (hy_failure state)))
      else if hy_complete state then xret ("complete", None)
      else match polls with
      | O => err <~ waitEnded (wrap HydrationIncomplete ("not complete after " +:+ DurationString budget)); xret (if Is err HydrationIncomplete then "pending" else "", Some err)
      | S polls => (xask (fun _ => tt) (fun _ => XSleep) ;~ waitHydratedPolls name budget polls)
      end
  end.
Definition waitHydrated (name : string) (budget : duration) : X (string * option vfsError) :=
  polls <~ xask (xe_polls env) XPolls; waitHydratedPolls name budget polls.

Definition vfsTXIDText (t : Z) : string := if (t =? 0)%Z then "unknown" else formatTXID t.
Fixpoint waitTXIDPolls (name : string) (boundary : Z) (polls : nat) : X (Z * option vfsError) :=
  seen <~ txid name;
  match seen with
  | Err (true, err) => xret (0%Z, Some (mkVFSError [ReaderNotCaughtUp; StatementTimeout]
      (vfsMarkText ReaderNotCaughtUp +:+ ": " +:+ vfsMarkText StatementTimeout +:+ ": reader at txid " +:+ vfsTXIDText 0 +:+ ", waiting for " +:+ formatTXID boundary +:+ ": " +:+ err)))
  | Err (false, err) => xret (0%Z, Some (wrap ReaderUnavailable err))
  | Ok seen =>
      if (boundary <=? seen)%Z then xret (seen, None)
      else match polls with
      | O => err <~ waitEnded (wrap ReaderNotCaughtUp ("reader at txid " +:+ vfsTXIDText seen +:+ " after " +:+ DurationString vfsCatchUpBudget +:+ ", boundary " +:+ formatTXID boundary)); xret (seen, Some err)
      | S polls => (xask (fun _ => tt) (fun _ => XSleep) ;~ waitTXIDPolls name boundary polls)
      end
  end.
Definition waitTXID (name : string) (boundary : Z) : X (Z * option vfsError) :=
  polls <~ xask (xe_polls env) XPolls; waitTXIDPolls name boundary polls.

Fixpoint writeProbePolls (polls : nat) : X (result vfsError string) :=
  r <~ xask (xe_update env) XUpdate;
  match r with
  | Ok expected => xret (Ok expected)
  | Err (false, err) => xret (Err (wrap ReaderUnavailable ("probe update: " +:+ err)))
  | Err (true, _) =>
      match polls with
      | O => err <~ waitEnded (wrap ReaderNotCaughtUp ("load stayed paused for verification for " +:+ DurationString vfsProbeWriteBudget +:+ ", no probe update committed")); xret (Err err)
      | S polls => (xask (fun _ => tt) (fun _ => XSleep) ;~ writeProbePolls polls)
      end
  end.
Definition writeProbe : X (result vfsError string) := polls <~ xask (xe_polls env) XPolls; writeProbePolls polls.

(** * The snapshot check *)

Fixpoint readRepeats (name : string) (n : nat) (o : vfsSnapshotOutcome) : X vfsSnapshotOutcome :=
  match n with
  | O => xret o
  | S n =>
      err <~ sleepContext;
      match err with
      | Some err => xret (o <| so_err := Some (mkVFSError [] err) |>)
      | None =>
          r <~ probe name;
          match r with
          | Err err => xret (o <| so_err := Some err |>)
          | Ok p => readRepeats name n (o <| so_repeats ::= fun l => l ++ [p] |>)
          end
      end
  end.
(** From the repeats to the end; with the outcome, whether the transaction is still open. *)
Definition finishTransaction (name : string) (o : vfsSnapshotOutcome) : X (vfsSnapshotOutcome * bool) :=
  o <~ readRepeats name vfsSnapshotRepeats o;
  match so_err o with
  | Some _ => xret (o, true)
  | None =>
      r <~ exec name "COMMIT";
      match r with
      | Err err => xret (o <| so_err := Some err |>, true)
      | Ok _ =>
          let o := o <| so_committed := true |> in
          p <~ probe name;
          match p with
          | Err err => xret (o <| so_err := Some err |>, false)
          | Ok p => err <~ settledHydrationActive name; xret (o <| so_after := p |> <| so_err := err |>, false)
          end
      end
  end.
Definition updateInTransaction (name : string) (o : vfsSnapshotOutcome) : X (vfsSnapshotOutcome * bool) :=
  expected <~ writeProbe;
  match expected with
  | Err err => xret (o <| so_err := Some err |>, true)
  | Ok expected =>
      let o := o <| so_expected := expected |> in
      synced <~ xask (xe_sync env) XSync;
      match synced with
      | Err err => xret (o <| so_err := Some (wrap ProbeSyncFailed ("sync after probe update: " +:+ err)) |>, true)
      | Ok syncTXID =>
          let o := o <| so_syncTXID := syncTXID |> in
          reached <~ waitTXID name syncTXID;
          let o := o <| so_reached := fst reached |> in
          match snd reached with
          | Some err => xret (o <| so_err := Some err |>, true)
          | None =>
              err <~ hydrationActive name;
              match err with Some err => xret (o <| so_err := Some err |>, true) | None => finishTransaction name o end
          end
      end
  end.
Definition holdTransaction (name : string) (o : vfsSnapshotOutcome) : X (vfsSnapshotOutcome * bool) :=
  r <~ exec name "BEGIN";
  match r with
  | Err err => xret (o <| so_err := Some err |>, false)
  | Ok _ =>
      p <~ probe name;
      match p with
      | Err err => xret (o <| so_err := Some err |>, true)
      | Ok p => updateInTransaction name (o <| so_first := p |>)
      end
  end.
(** The deferred function of [runSnapshot]. *)
Definition leaveSession (name : string) (o : vfsSnapshotOutcome) (inTransaction : bool) : X vfsSnapshotOutcome :=
  o <~ (if inTransaction && vfsSessionReusable (so_err o) then
          r <~ exec name "ROLLBACK"; xret (match r with Err err => o <| so_err := Some err |> | Ok _ => o end)
        else xret o);
  logTail <~ xask (xe_logTail env) (fun _ => XLogTail);
  (if vfsSessionReusable (so_err o) then xret tt else drop_session name) ;~ xret (o <| so_logTail := logTail |>).
Definition runSnapshot : X vfsSnapshotOutcome :=
  let name := vfsSnapshotSession in
  err <~ session name;
  match err with
  | Some err => xret (vfsSnapshotOutcome_zero <| so_err := Some err |>)
  | None =>
      hydrated <~ waitHydrated name vfsHydrationBudget;
      let o := vfsSnapshotOutcome_zero <| so_hydration := fst hydrated |> in
      match snd hydrated with
      | Some err => leaveSession name (o <| so_err := Some err |>) false
      | None =>
          xask (fun _ => tt) (fun _ => XHold) ;~
          held <~ holdTransaction name o;
          xask (fun _ => tt) (fun _ => XRelease) ;~
          leaveSession name (fst held) (snd held)
      end
  end.
Definition snapshotCycle : X verificationResult :=
  startedAt <~ xask (xe_clock env) (fun _ => XClock);
  o <~ runSnapshot;
  completedAt <~ xask (xe_clock env) (fun _ => XClock);
  xret (vfsSnapshotResult o startedAt completedAt).

(** * The read check *)

Fixpoint readQueries (name : string) (queries : list vfsReadQuery) : X (result vfsError (list vfsReadQuery)) :=
  match queries with
  | [] => xret (Ok [])
  | query :: queries =>
      rows <~ exec name (qu_statement query);
      match rows with
      | Err err => xret (Err err)
      | Ok rows =>
          rest <~ readQueries name queries;
          xret (match rest with Err err => Err err | Ok rest => Ok (query <| qu_vfs := Join rows (String newline "") |> :: rest) end)
      end
  end.
Definition readAtBoundary (name : string) (o : vfsReadOutcome) : X vfsReadOutcome :=
  err <~ hydrationActive name;
  match err with
  | Some err => xret (o <| ro_err := Some err |>)
  | None =>
      answers <~ xask (xe_primary env) XPrimary;
      match answers with
      | Err err => xret (o <| ro_err := Some (wrap ReaderUnavailable ("read primary: " +:+ err)) |>)
      | Ok (aggregate, tables) =>
          queries <~ readQueries name (primaryReadQueries aggregate tables);
          match queries with
          | Err err => xret (o <| ro_err := Some err |>)
          | Ok queries => err <~ settledHydrationActive name; xret (o <| ro_queries := queries |> <| ro_err := err |>)
          end
      end
  end.
Definition readSession (name : string) (o : vfsReadOutcome) : X vfsReadOutcome :=
  hydrated <~ waitHydrated name vfsReadHydrationBudget;
  let o := o <| ro_hydration := fst hydrated |> in
  match snd hydrated with
  | Some err => xret (o <| ro_err := Some err |>)
  | None =>
      reached <~ waitTXID name (ro_boundary o);
      let o := o <| ro_txid := fst reached |> in
      match snd reached with Some err => xret (o <| ro_err := Some err |>) | None => readAtBoundary name o end
  end.
Definition runRead (boundary : Z) : X vfsReadOutcome :=
  let o := mkReadOutcome boundary 0 "" [] None "" in
  if (boundary =? 0)%Z then xret (o <| ro_err := Some (wrap ReaderNotCaughtUp "boundary txid unavailable") |>)
  else
    let name := vfsReadSession in
    err <~ session name;
    match err with
    | Some err => xret (o <| ro_err := Some err |>)
    | None =>
        o <~ readSession name o;
        logTail <~ xask (xe_logTail env) (fun _ => XLogTail);
        (if vfsSessionReusable (ro_err o) then xret tt else drop_session name) ;~ xret (o <| ro_logTail := logTail |>)
    end.
Definition ReadCheck (boundary : Z) : X verificationResult :=
  startedAt <~ xask (xe_clock env) (fun _ => XClock);
  o <~ runRead boundary;
  completedAt <~ xask (xe_clock env) (fun _ => XClock);
  xret (vfsReadResult o startedAt completedAt).

(** The cycles of the two checks, one after the other, and [Stop]. *)
Inductive vfsAct := ActSnapshot | ActRead (boundary : Z) | ActStop.
Definition vfsAction (a : vfsAct) : X () :=
  match a with
  | ActSnapshot => (snapshotCycle ;~ xret tt)
  | ActRead boundary => (ReadCheck boundary ;~ xret tt)
  | ActStop => (drop_session vfsSnapshotSession ;~ drop_session vfsReadSession)
  end.
Definition vfsRun (acts : list vfsAct) (w : vfsWorld) : vfsWorld := fold_left (fun w a => snd (vfsAction a w)) acts w.
End Check.
