(* ===== verification/VFSCheckProofs.v ===== *)
(** Theorems about the checks of the VFS reader ([VFSCheck]): what a verdict rests on, the state a
    session is left in, and the incremental reading of its log. *)
From Stdlib Require Import Ascii.
From S2P Require Import Prelude GoStrings GoTime Model Classification WorkerErrors LtxCoverage RestoreOutput Verifier VFSCheck.

(** * Sessions are left clean *)

Definition clean (s : vfsSession) : Prop := vs_inTransaction s = false /\ vs_unread s = false.
Definition allClean (w : vfsWorld) : Prop := forall name s, xw_sessions w !! name = Some s -> clean s.
(** The session is in this state and the others are clean. *)
Definition inState (name : string) (s : vfsSession) (w : vfsWorld) : Prop :=
  xw_sessions w !! name = Some s /\ forall n t, n <> name -> xw_sessions w !! n = Some t -> clean t.
(** The session after an error or none: in sync, with its transaction open or not, where the error lets it be reused. *)
Definition leftIn (name : string) (open : bool) (err : option vfsError) (w : vfsWorld) : Prop :=
  exists s, inState name s w /\ (vfsSessionReusable err = true -> s = mkSession open false).

Section Clean.
Variable env : vfsEnv.

Definition xtriple {A} (P : vfsWorld -> Prop) (m : X A) (Q : A -> vfsWorld -> Prop) : Prop := forall w, P w -> Q (fst (m w)) (snd (m w)).
Lemma xtriple_ret {A} (P : vfsWorld -> Prop) (a : A) (Q : A -> vfsWorld -> Prop) : (forall w, P w -> Q a w) -> xtriple P (xret a) Q.
Proof. intros H w Hw. by apply H. Qed.
Lemma xtriple_bind {A B} P (m : X A) R (k : A -> X B) Q : xtriple P m R -> (forall a, xtriple (R a) (k a) Q) -> xtriple P (xbind m k) Q.
Proof. intros Hm Hk w Hw. unfold xbind. specialize (Hm w Hw). destruct (m w) as [a w']. by apply Hk. Qed.
Lemma xtriple_post {A} P (m : X A) (Q Q' : A -> vfsWorld -> Prop) : xtriple P m Q -> (forall a w, Q a w -> Q' a w) -> xtriple P m Q'.
Proof. intros Hm H w Hw. by apply H, Hm. Qed.
Lemma xtriple_pre {A} (P P' : vfsWorld -> Prop) (m : X A) Q : (forall w, P w -> P' w) -> xtriple P' m Q -> xtriple P m Q.
Proof. intros H Hm w Hw. by apply Hm, H. Qed.
(** A call that touches no session. *)
Lemma xtriple_ask {A} (phi : gmap string vfsSession -> Prop) (answer : vfsHist -> A) c : xtriple (fun w => phi (xw_sessions w)) (xask answer c) (fun _ w => phi (xw_sessions w)).
Proof. by intros w Hw. Qed.
Lemma ask_inState {A} name s (answer : vfsHist -> A) c : xtriple (inState name s) (xask answer c) (fun _ => inState name s).
Proof. by intros w Hw. Qed.
Lemma statement_inState {E A} name statement (answer : vfsHist -> result E A) c s :
  xtriple (inState name s) (xstatement name statement answer c) (fun r => inState name (executed statement match r with Ok _ => true | Err _ => false end s)).
Proof.
  intros w [Hs Ho]. split; simpl; [by rewrite lookup_alter_eq, Hs|]. intros n t Hn. rewrite lookup_alter_ne by done. by apply Ho.
Qed.
(** An error after which the session is dropped. *)
Definition broken (name : string) (err : vfsError) (w : vfsWorld) : Prop := vfsSessionReusable (Some err) = false /\ exists s, inState name s w.
Lemma broken_leftIn name open err w : broken name err w -> leftIn name open (Some err) w.
Proof. intros [He [s Hs]]. exists s. split; [done|]. by rewrite He. Qed.
Lemma inSync_leftIn name open err w : inState name (mkSession open false) w -> leftIn name open err w.
Proof. intros H. by eexists. Qed.

Lemma leftIn_inSync name open err w : vfsSessionReusable err = true -> leftIn name open err w -> inState name (mkSession open false) w.
Proof. intros He (s & Hs & Hr). by rewrite <- (Hr He). Qed.

Lemma exec_inState name statement s : xtriple (inState name s) (exec env name statement)
  (fun r w => match r with Ok _ => inState name (executed statement true s) w | Err err => broken name err w end).
Proof. eapply xtriple_bind; [apply statement_inState|]. intros [rows|err]; apply xtriple_ret; intros w Hw; [done|]. split; [done|by eexists]. Qed.
Lemma query_inState name open statement : negb (slices_Contains ["BEGIN"; "COMMIT"; "ROLLBACK"] statement) = true ->
  xtriple (inState name (mkSession open false)) (exec env name statement) (fun r w => match r with Ok _ => inState name (mkSession open false) w | Err err => broken name err w end).
Proof.
  intros Hst. eapply xtriple_post; [apply exec_inState|]. intros [rows|err] w Hw; [|done]. replace (executed statement true (mkSession open false)) with (mkSession open false) in Hw; [done|].
  unfold executed. cbn [slices_Contains] in Hst. cbn [vs_inTransaction vs_unread]. rewrite (String.eqb_sym statement "BEGIN"), (String.eqb_sym statement "COMMIT"), (String.eqb_sym statement "ROLLBACK"). by destruct ("BEGIN" =s statement), ("COMMIT" =s statement), ("ROLLBACK" =s statement).
Qed.
Lemma txid_inState name open : xtriple (inState name (mkSession open false)) (txid env name)
  (fun r w => match r with Ok _ => inState name (mkSession open false) w | Err _ => exists s, inState name s w end).
Proof. eapply xtriple_post; [apply statement_inState|]. intros [t|err] w Hw; [exact Hw|by eexists]. Qed.
Lemma probe_inState name open : xtriple (inState name (mkSession open false)) (probe env name)
  (fun r w => match r with Ok _ => inState name (mkSession open false) w | Err err => broken name err w end).
Proof.
  eapply xtriple_bind; [by apply query_inState|]. intros [rows|err]; [|by apply xtriple_ret].
  destruct rows as [|row [|]]; [apply xtriple_ret; intros w Hw; split; [done|by eexists]| |apply xtriple_ret; intros w Hw; split; [done|by eexists]].
  destruct (parseVFSProbe row); [|apply xtriple_ret; intros w Hw; split; [done|by eexists]].
  eapply xtriple_bind; [apply txid_inState|]. intros [t|[b err]]; apply xtriple_ret; intros w Hw; [done|by split].
Qed.
Lemma sleep_inState name s : xtriple (inState name s) (sleepContext env) (fun _ => inState name s).
Proof. eapply xtriple_bind; [apply ask_inState|]. intros [|]; [by apply xtriple_ret|]. eapply xtriple_bind; [apply ask_inState|]. intros ?. by apply xtriple_ret. Qed.
Lemma hydrationActive_inState name s : xtriple (inState name s) (hydrationActive env name) (fun _ => inState name s).
Proof. eapply xtriple_bind; [apply ask_inState|]. intros ?. by apply xtriple_ret. Qed.
Lemma settled_inState name s : xtriple (inState name s) (settledHydrationActive env name) (fun _ => inState name s).
Proof. eapply xtriple_bind; [apply sleep_inState|]. intros [|]; [by apply xtriple_ret|]. apply hydrationActive_inState. Qed.
Lemma waitEnded_inState name s err : xtriple (inState name s) (waitEnded env err) (fun _ => inState name s).
Proof. eapply xtriple_bind; [apply ask_inState|]. intros ?. by apply xtriple_ret. Qed.
Lemma waitHydrated_inState name s budget : xtriple (inState name s) (waitHydrated env name budget) (fun _ => inState name s).
Proof.
  eapply xtriple_bind; [apply ask_inState|]. intros polls. induction polls as [|polls IH]; (eapply xtriple_bind; [apply ask_inState|]); intros [st|err]; try (by apply xtriple_ret);
    (destruct (negb (hy_failure st =s "")); [by apply xtriple_ret|]); (destruct (hy_complete st); [by apply xtriple_ret|]).
  - eapply xtriple_bind; [apply waitEnded_inState|]. intros ?. by apply xtriple_ret.
  - eapply xtriple_bind; [apply ask_inState|]. intros ?. exact IH.
Qed.
Lemma waitTXID_leftIn name open boundary : xtriple (inState name (mkSession open false)) (waitTXID env name boundary) (fun r => leftIn name open (snd r)).
Proof.
  eapply xtriple_bind; [apply ask_inState|]. intros polls. induction polls as [|polls IH]; (eapply xtriple_bind; [apply txid_inState|]); intros [t|[[|] err]];
    try (apply xtriple_ret; intros w Hw; by apply broken_leftIn); (destruct (boundary <=? t)%Z; [apply xtriple_ret; intros w Hw; by apply inSync_leftIn|]).
  - eapply xtriple_bind; [apply waitEnded_inState|]. intros ?. apply xtriple_ret. intros w Hw. by apply inSync_leftIn.
  - eapply xtriple_bind; [apply ask_inState|]. intros ?. exact IH.
Qed.
Lemma writeProbe_inState name s : xtriple (inState name s) (writeProbe env) (fun _ => inState name s).
Proof.
  eapply xtriple_bind; [apply ask_inState|]. intros polls. induction polls as [|polls IH]; (eapply xtriple_bind; [apply ask_inState|]); intros [e|[[|] err]]; try (by apply xtriple_ret).
  - eapply xtriple_bind; [apply waitEnded_inState|]. intros ?. by apply xtriple_ret.
  - eapply xtriple_bind; [apply ask_inState|]. intros ?. exact IH.
Qed.

(** ** The snapshot check *)

(** What is known of an outcome and the transaction flag that goes with it. *)
Definition ended (name : string) (r : vfsSnapshotOutcome * bool) : vfsWorld -> Prop := leftIn name (snd r) (so_err (fst r)).
Lemma readRepeats_leftIn name n o : so_err o = None -> xtriple (inState name (mkSession true false)) (readRepeats env name n o) (fun o' => leftIn name true (so_err o')).
Proof.
  revert o. induction n as [|n IH]; intros o Ho; [apply xtriple_ret; intros w Hw; by apply inSync_leftIn|].
  eapply xtriple_bind; [apply sleep_inState|]. intros [err|]; [apply xtriple_ret; intros w Hw; by apply inSync_leftIn|].
  eapply xtriple_bind; [apply probe_inState|]. intros [p|err]; [by apply IH|]. apply xtriple_ret. intros w Hw. by apply broken_leftIn.
Qed.
Lemma finishTransaction_ended name o : so_err o = None -> xtriple (inState name (mkSession true false)) (finishTransaction env name o) (ended name).
Proof.
  intros Ho. eapply xtriple_bind; [by apply readRepeats_leftIn|]. intros o'. destruct (so_err o') as [err|] eqn:He.
  { apply xtriple_ret. intros w Hw. unfold ended. cbn [fst snd]. rewrite He in *. exact Hw. }
  apply xtriple_pre with (P' := inState name (mkSession true false)); [intros w; apply leftIn_inSync; by rewrite ?He|].
  eapply xtriple_bind; [apply exec_inState|]. intros [rows|err]; [|apply xtriple_ret; intros w Hw; by apply broken_leftIn].
  eapply xtriple_bind; [apply (probe_inState name false)|]. intros [p|err]; [|apply xtriple_ret; intros w Hw; by apply broken_leftIn].
  eapply xtriple_bind; [apply settled_inState|]. intros err. apply xtriple_ret. intros w Hw. by apply inSync_leftIn.
Qed.
Lemma holdTransaction_ended name o : so_err o = None -> xtriple (inState name (mkSession false false)) (holdTransaction env name o) (ended name).
Proof.
  intros Ho. eapply xtriple_bind; [apply exec_inState|]. intros [rows|err]; [|apply xtriple_ret; intros w Hw; by apply broken_leftIn].
  eapply xtriple_bind; [apply (probe_inState name true)|]. intros [p|err]; [|apply xtriple_ret; intros w Hw; by apply broken_leftIn].
  eapply xtriple_bind; [apply writeProbe_inState|]. intros [expected|err]; [|apply xtriple_ret; intros w Hw; by apply inSync_leftIn].
  eapply xtriple_bind; [apply ask_inState|]. intros [synced|err]; [|apply xtriple_ret; intros w Hw; by apply inSync_leftIn].
  eapply xtriple_bind; [apply waitTXID_leftIn|]. intros [reached [err|]]; [by apply xtriple_ret|]. simpl.
  apply xtriple_pre with (P' := inState name (mkSession true false)); [intros w; apply leftIn_inSync; by rewrite ?He|].
  eapply xtriple_bind; [apply hydrationActive_inState|]. intros [err|]; [apply xtriple_ret; intros w Hw; by apply inSync_leftIn|]. by apply finishTransaction_ended.
Qed.

Lemma inState_clean name w : inState name freshSession w -> allClean w.
Proof. intros [Hs Ho] n t Ht. destruct (decide (n = name)) as [->|Hn]; [|by apply (Ho n)]. rewrite Hs in Ht. by injection Ht as <-. Qed.
Lemma drop_clean name : xtriple (fun w => exists s, inState name s w) (drop_session name) (fun _ => allClean).
Proof.
  intros w (s & Hs & Ho). unfold drop_session. rewrite Hs. intros n t. simpl. rewrite lookup_delete_Some. intros [Hn Ht]. apply (Ho n); [congruence|done].
Qed.
Lemma drop_keeps_clean name : xtriple allClean (drop_session name) (fun _ => allClean).
Proof. intros w Hw. unfold drop_session. destruct (xw_sessions w !! name) as [s|] eqn:Hs; [|done]. intros n t. simpl. rewrite lookup_delete_Some. intros [_ Ht]. by apply (Hw n). Qed.
Lemma leave_clean name (err : option vfsError) : xtriple (leftIn name false err) (if vfsSessionReusable err then xret tt else drop_session name) (fun _ => allClean).
Proof.
  destruct (vfsSessionReusable err) eqn:He.
  - apply xtriple_ret. intros w Hw. apply (inState_clean name). by apply (leftIn_inSync _ _ err).
  - eapply xtriple_pre; [|apply drop_clean]. intros w (s & Hs & _). by exists s.
Qed.
Lemma leaveSession_clean name r : xtriple (ended name r) (leaveSession env name (fst r) (snd r)) (fun _ => allClean).
Proof.
  destruct r as [o open]. unfold ended, leaveSession. simpl.
  eapply xtriple_bind with (R := fun o' => leftIn name false (so_err o')).
  - destruct (vfsSessionReusable (so_err o)) eqn:He; rewrite ?andb_true_r, ?andb_false_r.
    + apply xtriple_pre with (P' := inState name (mkSession open false)); [intros w; apply leftIn_inSync; by rewrite ?He|].
      destruct open; [|apply xtriple_ret; intros w Hw; by apply inSync_leftIn].
      eapply xtriple_bind; [apply exec_inState|]. intros [rows|err]; apply xtriple_ret; intros w Hw; [by apply inSync_leftIn|by apply broken_leftIn].
    + apply xtriple_ret. intros w (s & Hs & _). exists s. split; [done|]. by rewrite He.
  - intros o'. eapply xtriple_bind; [apply (xtriple_ask (fun m => exists s, (m !! name = Some s /\ forall n t, n <> name -> m !! n = Some t -> clean t) /\ (vfsSessionReusable (so_err o') = true -> s = mkSession false false)))|].
    intros logTail. eapply xtriple_bind; [apply leave_clean|]. intros ?. by apply xtriple_ret.
Qed.
Lemma startSession_inState name : xtriple (fun w => xw_sessions w !! name = None /\ allClean w) (startSession env name)
  (fun err w => match err with None => inState name freshSession w | Some _ => allClean w end).
Proof.
  eapply xtriple_bind; [apply (xtriple_ask (fun m => m !! name = None /\ forall n s, m !! n = Some s -> clean s))|]. intros [err|]; [apply xtriple_ret; by intros w [_ Hw]|].
  intros w [Hn Hw]. split; simpl; [apply lookup_insert_eq|]. intros n t Hne. rewrite lookup_insert_ne by done. apply Hw.
Qed.
Lemma session_inState name : xtriple allClean (session env name) (fun err w => match err with None => inState name freshSession w | Some _ => allClean w end).
Proof.
  intros w Hw. unfold session. destruct (xw_sessions w !! name) as [s|] eqn:Hs; [|by apply startSession_inState].
  revert w Hw Hs. enough (xtriple (fun w => allClean w /\ xw_sessions w !! name = Some s)
    (usable <~ xask (xe_usable env) (XUsable name); if (usable : bool) then xret None else (drop_session name ;~ startSession env name))
    (fun err w => match err with None => inState name freshSession w | Some _ => allClean w end)) as H by (intros w Hw Hs; by apply (H w)).
  eapply xtriple_bind; [apply (xtriple_ask (fun m => (forall n t, m !! n = Some t -> clean t) /\ m !! name = Some s))|]. intros [|].
  - apply xtriple_ret. intros w [Hc Hs]. split; [|intros n t _; apply Hc]. rewrite Hs. f_equal. destruct (Hc name s Hs) as [H1 H2]. destruct s. simpl in H1, H2. by subst.
  - eapply xtriple_bind; [|intros ?; apply startSession_inState]. intros w [Hc Hs]. unfold drop_session. rewrite Hs. simpl. split; [apply lookup_delete_eq|].
    intros n t. simpl. rewrite lookup_delete_Some. intros [_ Ht]. by apply (Hc n).
Qed.

Lemma ask_clean {A} (answer : vfsHist -> A) c : xtriple allClean (xask answer c) (fun _ => allClean).
Proof. by intros w Hw. Qed.
Lemma runSnapshot_clean : xtriple allClean (runSnapshot env) (fun _ => allClean).
Proof.
  eapply xtriple_bind; [apply session_inState|]. intros [err|]; [by apply xtriple_ret|]. eapply xtriple_bind; [apply waitHydrated_inState|].
  intros [hydration [err|]]; cbn [fst snd].
  - eapply xtriple_pre; [|apply (leaveSession_clean vfsSnapshotSession (_, false))]. intros w Hw. by apply inSync_leftIn.
  - eapply xtriple_bind; [apply ask_inState|]. intros ?. eapply xtriple_bind; [by apply holdTransaction_ended|]. intros held.
    eapply xtriple_bind; [apply (xtriple_ask (fun m => exists s, (m !! vfsSnapshotSession = Some s /\ forall n t, n <> vfsSnapshotSession -> m !! n = Some t -> clean t) /\
      (vfsSessionReusable (so_err (fst held)) = true -> s = mkSession (snd held) false)))|].
    intros ?. apply leaveSession_clean.
Qed.

(** ** The read check *)

Lemma select_is_query s : negb (slices_Contains ["BEGIN"; "COMMIT"; "ROLLBACK"] ("SELECT" +:+ s)) = true.
Proof. done. Qed.
Lemma readQueries_inState name queries : Forall (fun query => negb (slices_Contains ["BEGIN"; "COMMIT"; "ROLLBACK"] (qu_statement query)) = true) queries ->
  xtriple (inState name freshSession) (readQueries env name queries) (fun r w => match r with Ok _ => inState name freshSession w | Err err => broken name err w end).
Proof.
  induction queries as [|query queries IH]; intros Hq; [by apply xtriple_ret|]. apply Forall_cons in Hq as [Hq Hqs].
  eapply xtriple_bind; [exact (query_inState name false (qu_statement query) Hq)|]. intros [rows|err]; [|by apply xtriple_ret]. eapply xtriple_bind; [exact (IH Hqs)|]. intros [rest|err]; by apply xtriple_ret.
Qed.
Lemma primary_queries aggregate tables : Forall (fun query => negb (slices_Contains ["BEGIN"; "COMMIT"; "ROLLBACK"] (qu_statement query)) = true) (primaryReadQueries aggregate tables).
Proof.
  constructor; [done|]. apply Forall_forall. intros query. rewrite list_elem_of_In, in_map_iff. intros (t & <- & _). simpl qu_statement.
  apply (select_is_query (" count(*) FROM " +:+ quoteStr +:+ doubleQuotes (fst t) +:+ quoteStr)).
Qed.
Lemma readSession_leftIn name o : ro_err o = None -> xtriple (inState name freshSession) (readSession env name o) (fun o' => leftIn name false (ro_err o')).
Proof.
  intros Ho. eapply xtriple_bind; [apply waitHydrated_inState|]. intros [hydration [err|]]; cbn [fst snd]; [apply xtriple_ret; intros w Hw; by apply inSync_leftIn|].
  eapply xtriple_bind; [apply waitTXID_leftIn|]. intros [reached [err|]]; cbn [fst snd]; [by apply xtriple_ret|].
  apply xtriple_pre with (P' := inState name freshSession); [intros w; by apply leftIn_inSync|].
  eapply xtriple_bind; [apply hydrationActive_inState|]. intros [err|]; [apply xtriple_ret; intros w Hw; by apply inSync_leftIn|].
  eapply xtriple_bind; [apply ask_inState|]. intros [[aggregate tables]|err]; [|apply xtriple_ret; intros w Hw; by apply inSync_leftIn].
  eapply xtriple_bind; [apply readQueries_inState, primary_queries|]. intros [queries|err]; [|apply xtriple_ret; intros w Hw; by apply broken_leftIn].
  eapply xtriple_bind; [apply settled_inState|]. intros err. apply xtriple_ret. intros w Hw. by apply inSync_leftIn.
Qed.
Lemma runRead_clean boundary : xtriple allClean (runRead env boundary) (fun _ => allClean).
Proof.
  unfold runRead. destruct (boundary =? 0)%Z; [by apply xtriple_ret|]. eapply xtriple_bind; [apply session_inState|]. intros [err|]; [by apply xtriple_ret|].
  eapply xtriple_bind; [by apply readSession_leftIn|]. intros o.
  eapply xtriple_bind; [apply (xtriple_ask (fun m => exists s, (m !! vfsReadSession = Some s /\ forall n t, n <> vfsReadSession -> m !! n = Some t -> clean t) /\
    (vfsSessionReusable (ro_err o) = true -> s = mkSession false false)))|].
  intros logTail. eapply xtriple_bind; [apply leave_clean|]. intros ?. by apply xtriple_ret.
Qed.
Lemma vfsAction_clean a : xtriple allClean (vfsAction env a) (fun _ => allClean).
Proof.
  destruct a as [|boundary|].
  - eapply xtriple_bind with (R := fun _ => allClean); [|intros ?; by apply xtriple_ret]. eapply xtriple_bind; [apply ask_clean|]. intros ?. eapply xtriple_bind; [apply runSnapshot_clean|]. intros ?.
    eapply xtriple_bind; [apply ask_clean|]. intros ?. by apply xtriple_ret.
  - eapply xtriple_bind with (R := fun _ => allClean); [|intros ?; by apply xtriple_ret]. eapply xtriple_bind; [apply ask_clean|]. intros ?. eapply xtriple_bind; [apply runRead_clean|]. intros ?.
    eapply xtriple_bind; [apply ask_clean|]. intros ?. by apply xtriple_ret.
  - eapply xtriple_bind; [apply drop_keeps_clean|]. intros ?. apply drop_keeps_clean.
Qed.

(** C25: However the shells, Litestream, the primary and the contexts behave, after any number of snapshot and read checks a
    session that is kept for the next one has no transaction open and no output of a statement left unread: on every
    path the transaction is committed or rolled back, or the session is closed. *)
Theorem vfs_sessions_left_clean acts name s : xw_sessions (vfsRun env acts (mkVFSWorld ∅ [])) !! name = Some s -> clean s.
Proof.
  assert (forall w, allClean w -> allClean (vfsRun env acts w)) as H.
  { induction acts as [|a acts IH]; intros w Hw; [done|]. apply IH. by apply vfsAction_clean. }
  apply (H (mkVFSWorld ∅ [])). intros n t. simpl. by rewrite lookup_empty.
Qed.
End Clean.

(** * What a verdict of the snapshot check rests on *)

(** A program adds calls to the history, newest first. *)
Definition grows {A} (m : X A) (Q : A -> vfsHist -> Prop) : Prop := forall w, exists seg, xw_hist (snd (m w)) = seg ++ xw_hist w /\ Q (fst (m w)) seg.

(** A transaction was committed. *)
Definition committedYet (h : vfsHist) : bool := existsb (fun c => match c with XExec _ s (Ok _) => s =s "COMMIT" | _ => false end) h.
(** Hydrated reads were seen to be on. *)
Definition activeSeen (h : vfsHist) : bool := existsb (fun c => match c with XHydration _ (Ok hy) => hy_failure hy =s "" | _ => false end) h.
(** Hydrated reads were seen to be on after a transaction was committed: the reads of that transaction count. *)
Fixpoint finishedReads (h : vfsHist) : bool :=
  match h with
  | [] => false
  | XHydration _ (Ok hy) :: earlier => (hy_failure hy =s "") && committedYet earlier || finishedReads earlier
  | _ :: earlier => finishedReads earlier
  end.

(** The probe was read: the row of the aggregate, and the position after it. *)
Definition probedBy (name : string) (p : vfsProbe) (seg : vfsHist) : Prop :=
  exists row, seg = [XTXID name (Ok (pr_txid p)); XExec name cacheProbeQuery (Ok [row])] /\ pr_raw p = TrimSpace row.
(** The repeats were read one after the other, with a pause before each. *)
Fixpoint repeatedBy (name : string) (ps : list vfsProbe) (seg : vfsHist) : Prop :=
  match ps with
  | [] => seg = []
  | p :: ps => exists s1 s2, seg = s2 ++ s1 ++ [XSleep; XCanceled false] /\ probedBy name p s1 /\ repeatedBy name ps s2
  end.
(** Calls of a wait: none of them is a statement of the transaction's own. *)
Definition waitCall (name : string) (c : vfsCall) : bool :=
  match c with XPolls _ | XSleep | XUpdate (Err _) => true | XTXID n (Ok _) => n =s name | _ => false end.
Record heldBy (name : string) (o : vfsSnapshotOutcome) (seg : vfsHist) : Prop := {
  he_calls : exists begun committed first wait1 wait2 repeats after hy1 hy2,
    seg = XHydration name (Ok hy2) :: XSleep :: XCanceled false :: after ++ XExec name "COMMIT" (Ok committed) :: repeats ++
      XHydration name (Ok hy1) :: XTXID name (Ok (so_reached o)) :: wait2 ++ XSync (Ok (so_syncTXID o)) :: XUpdate (Ok (so_expected o)) :: wait1 ++ first ++ [XExec name "BEGIN" (Ok begun)] /\
    probedBy name (so_first o) first /\ probedBy name (so_after o) after /\ repeatedBy name (so_repeats o) repeats /\
    forallb (waitCall name) wait1 = true /\ forallb (waitCall name) wait2 = true /\ hy_failure hy1 = "" /\ hy_failure hy2 = "";
  he_reached : (so_syncTXID o <= so_reached o)%Z;
  he_repeats : length (so_repeats o) = vfsSnapshotRepeats;
  he_committed : so_committed o = true
}.

Section Evidence.
Variable env : vfsEnv.

Lemma grows_ret {A} (a : A) (Q : A -> vfsHist -> Prop) : Q a [] -> grows (xret a) Q.
Proof. intros H w. by exists []. Qed.
Lemma grows_bind {A B} (m : X A) (Q : A -> vfsHist -> Prop) (k : A -> X B) (R : B -> vfsHist -> Prop) :
  grows m Q -> (forall a s1, Q a s1 -> grows (k a) (fun b s2 => R b (s2 ++ s1))) -> grows (xbind m k) R.
Proof.
  intros Hm Hk w. unfold xbind. destruct (Hm w) as (s1 & H1 & HQ). destruct (m w) as [a w1]. simpl in H1, HQ. destruct (Hk a s1 HQ w1) as (s2 & H2 & HR).
  exists (s2 ++ s1). split; [by rewrite H2, H1, app_assoc|done].
Qed.
Lemma grows_post {A} (m : X A) (Q R : A -> vfsHist -> Prop) : grows m Q -> (forall a s, Q a s -> R a s) -> grows m R.
Proof. intros Hm H w. destruct (Hm w) as (s & H1 & H2). exists s. auto. Qed.
Lemma grows_any {A} (m : X A) : (forall w, exists seg, xw_hist (snd (m w)) = seg ++ xw_hist w) -> grows m (fun _ _ => True).
Proof. intros H w. destruct (H w) as [seg Hs]. by exists seg. Qed.
Lemma grows_ask {A} (answer : vfsHist -> A) c : grows (xask answer c) (fun a s => s = [c a]).
Proof. intros w. by exists [c (answer (xw_hist w))]. Qed.
Lemma grows_exec name statement : grows (exec env name statement) (fun r s => match r with Ok rows => s = [XExec name statement (Ok rows)] | Err _ => True end).
Proof.
  apply grows_bind with (Q := fun r s => s = [XExec name statement r]).
  - intros w. by exists [XExec name statement (xe_exec env (xw_hist w) statement)].
  - intros [rows|err] s1 ->; by apply grows_ret.
Qed.
Lemma grows_txid name : grows (txid env name) (fun r s => s = [XTXID name r]).
Proof. intros w. by exists [XTXID name (xe_txid env (xw_hist w))]. Qed.
Lemma parse_raw row p : parseVFSProbe row = Ok p -> pr_raw p = TrimSpace row.
Proof. unfold parseVFSProbe. intros H. repeat case_match; by simplify_eq. Qed.
Lemma grows_probe name : grows (probe env name) (fun r s => match r with Ok p => probedBy name p s | Err _ => True end).
Proof.
  eapply grows_bind; [apply grows_exec|]. intros [[|row [|]]|err] s1 Hs; [by apply grows_ret| |by apply grows_ret|by apply grows_ret].
  destruct (parseVFSProbe row) as [p|] eqn:Hp; [|by apply grows_ret]. eapply grows_bind; [apply grows_txid|]. intros [t|[b err]] s2 ->; [|by apply grows_ret].
  apply grows_ret. subst s1. exists row. split; [done|]. simpl. by apply parse_raw.
Qed.
Lemma grows_sleep : grows (sleepContext env) (fun r s => r = None -> s = [XSleep; XCanceled false]).
Proof.
  eapply grows_bind; [apply grows_ask|]. intros [|] s1 ->; [by apply grows_ret|]. eapply grows_bind; [apply grows_ask|]. intros [] s2 ->. by apply grows_ret.
Qed.
Lemma grows_hydrationActive name : grows (hydrationActive env name) (fun r s => r = None -> exists hy, s = [XHydration name (Ok hy)] /\ hy_failure hy = "").
Proof.
  eapply grows_bind; [apply grows_ask|]. intros [hy|err] s1 ->; apply grows_ret; [|done]. destruct (eqs_spec (hy_failure hy) ""); [|done]. intros _. by exists hy.
Qed.
Lemma grows_settled name : grows (settledHydrationActive env name) (fun r s => r = None -> exists hy, s = [XHydration name (Ok hy); XSleep; XCanceled false] /\ hy_failure hy = "").
Proof.
  eapply grows_bind; [apply grows_sleep|]. intros [err|] s1 Hs; [by apply grows_ret|]. rewrite (Hs eq_refl). eapply grows_post; [apply grows_hydrationActive|].
  intros r s H Hr. destruct (H Hr) as (hy & -> & Hf). by exists hy.
Qed.
Lemma grows_waitEnded err : grows (waitEnded env err) (fun _ _ => True).
Proof. eapply grows_bind; [apply grows_ask|]. intros c s1 _. by apply grows_ret. Qed.
Lemma grows_waitTXID name boundary : grows (waitTXID env name boundary) (fun r s => snd r = None ->
  (boundary <= fst r)%Z /\ exists wait, s = XTXID name (Ok (fst r)) :: wait /\ forallb (waitCall name) wait = true).
Proof.
  eapply grows_bind; [apply grows_ask|]. intros polls s1 ->.
  assert (forall s0, forallb (waitCall name) s0 = true -> grows (waitTXIDPolls env name boundary polls) (fun r s => snd r = None ->
    (boundary <= fst r)%Z /\ exists wait, s ++ s0 = XTXID name (Ok (fst r)) :: wait /\ forallb (waitCall name) wait = true)) as H; [|by apply H].
  induction polls as [|polls IH]; intros s0 Hs0; (eapply grows_bind; [apply grows_txid|]); intros [t|[[|] err]] s2 ->; try (by apply grows_ret);
    (destruct (Z.leb_spec boundary t); [apply grows_ret; intros _; split; [done|]; by exists s0|]).
  - eapply grows_bind; [apply grows_waitEnded|]. intros err s3 _. by apply grows_ret.
  - eapply grows_bind; [apply grows_ask|]. intros [] s3 ->. eapply grows_post; [apply (IH (XSleep :: XTXID name (Ok t) :: s0)); simpl; by rewrite eqs_refl|].
    intros r s4 H4 Hr. destruct (H4 Hr) as (H5 & wait & H6 & H7). split; [done|]. exists wait. split; [|done]. rewrite <- H6, <- !app_assoc. done.
Qed.
Lemma grows_writeProbe name : grows (writeProbe env) (fun r s => match r with Ok expected => exists wait, s = XUpdate (Ok expected) :: wait /\ forallb (waitCall name) wait = true | Err _ => True end).
Proof.
  eapply grows_bind; [apply grows_ask|]. intros polls s1 ->.
  assert (forall s0, forallb (waitCall name) s0 = true -> grows (writeProbePolls env polls) (fun r s => match r with
    | Ok expected => exists wait, s ++ s0 = XUpdate (Ok expected) :: wait /\ forallb (waitCall name) wait = true | Err _ => True end)) as H; [|by apply H].
  induction polls as [|polls IH]; intros s0 Hs0; (eapply grows_bind; [apply grows_ask|]); intros [e|[[|] err]] s2 ->; try (by apply grows_ret); try (apply grows_ret; by exists s0).
  - eapply grows_bind; [apply grows_waitEnded|]. intros e s3 _. by apply grows_ret.
  - eapply grows_bind; [apply grows_ask|]. intros [] s3 ->. eapply grows_post; [by apply (IH (XSleep :: XUpdate (Err (true, err)) :: s0))|].
    intros [e|e] s4 H4; [|done]. destruct H4 as (wait & H6 & H7). exists wait. split; [|done]. rewrite <- H6, <- !app_assoc. done.
Qed.

(** The fields that the end of a transaction does not touch. *)
Definition sameRead (o o' : vfsSnapshotOutcome) : Prop :=
  so_first o' = so_first o /\ so_expected o' = so_expected o /\ so_syncTXID o' = so_syncTXID o /\ so_reached o' = so_reached o /\ so_hydration o' = so_hydration o.
Lemma grows_readRepeats name n o : so_err o = None -> grows (readRepeats env name n o) (fun o' s => so_err o' = None ->
  sameRead o o' /\ exists ps, length ps = n /\ so_repeats o' = so_repeats o ++ ps /\ repeatedBy name ps s).
Proof.
  revert o. induction n as [|n IH]; intros o Ho; [apply grows_ret; intros _; split; [done|]; exists []; by rewrite app_nil_r|].
  eapply grows_bind; [apply grows_sleep|]. intros [err|] s1 Hs1; [by apply grows_ret|]. rewrite (Hs1 eq_refl).
  eapply grows_bind; [apply grows_probe|]. intros [p|err] s2 Hp; [|by apply grows_ret].
  eapply grows_post; [by apply IH|]. intros o' s3 H He. destruct (H He) as (Hsame & ps & Hlen & Hrep & Hby). split; [exact Hsame|]. exists (p :: ps). simpl in Hrep |- *.
  split_and!; [by rewrite Hlen|by rewrite Hrep, <- app_assoc|]. exists s2, s3. by rewrite <- app_assoc.
Qed.
Lemma grows_finishTransaction name o : so_err o = None -> so_repeats o = [] -> grows (finishTransaction env name o) (fun r s => so_err (fst r) = None ->
  snd r = false /\ sameRead o (fst r) /\ so_committed (fst r) = true /\ length (so_repeats (fst r)) = vfsSnapshotRepeats /\
  exists committed repeats after hy, s = XHydration name (Ok hy) :: XSleep :: XCanceled false :: after ++ XExec name "COMMIT" (Ok committed) :: repeats /\
    probedBy name (so_after (fst r)) after /\ repeatedBy name (so_repeats (fst r)) repeats /\ hy_failure hy = "").
Proof.
  intros Ho Hr. eapply grows_bind; [by apply grows_readRepeats|]. intros o' s1 H1. destruct (so_err o') as [err|] eqn:He; [apply grows_ret; simpl; by rewrite He|].
  destruct (H1 He) as (Hsame & ps & Hlen & Hrep & Hby). rewrite Hr in Hrep. simpl in Hrep. subst ps.
  eapply grows_bind; [apply grows_exec|]. intros [rows|err] s2 Hs2; [|by apply grows_ret].
  eapply grows_bind; [apply grows_probe|]. intros [p|err] s3 Hp; [|by apply grows_ret].
  eapply grows_bind; [apply grows_settled|]. intros err s4 Hs4. apply grows_ret. simpl. intros ->. destruct (Hs4 eq_refl) as (hy & -> & Hf).
  split_and!; [done|exact Hsame|done|done|]. exists rows, s1, s3, hy. split_and!; [|done..]. rewrite Hs2. simpl. by rewrite <- app_assoc.
Qed.
Lemma grows_holdTransaction name o : so_err o = None -> so_repeats o = [] -> grows (holdTransaction env name o) (fun r s => so_err (fst r) = None ->
  snd r = false /\ so_hydration (fst r) = so_hydration o /\ heldBy name (fst r) s).
Proof.
  intros Ho Hrep. eapply grows_bind; [apply grows_exec|]. intros [begun|err] s1 Hs1; [|by apply grows_ret].
  eapply grows_bind; [apply grows_probe|]. intros [p|err] s2 Hp; [|by apply grows_ret].
  eapply grows_bind; [apply (grows_writeProbe name)|]. intros [expected|err] s3 Hs3; [|by apply grows_ret]. destruct Hs3 as (wait1 & -> & Hw1).
  eapply grows_bind; [apply grows_ask|]. intros [sync|err] s4 ->; [|by apply grows_ret].
  eapply grows_bind; [apply grows_waitTXID|]. intros [reached [err|]] s5 Hs5; [by apply grows_ret|]. destruct (Hs5 eq_refl) as (Hreach & wait2 & -> & Hw2). cbn [fst snd] in Hreach |- *.
  eapply grows_bind; [apply grows_hydrationActive|]. intros [err|] s6 Hs6; [by apply grows_ret|]. destruct (Hs6 eq_refl) as (hy1 & -> & Hf1).
  eapply grows_post; [by apply grows_finishTransaction|]. intros r s7 H7 He. destruct (H7 He) as (Hopen & (H1 & H2 & H3 & H4 & H5) & Hc & Hl & committed & repeats & after & hy2 & -> & Ha & Hb & Hf2).
  simpl in H1, H2, H3, H4, H5. split_and!; [done|done|]. split; [|by rewrite H3, H4|done|done].
  exists begun, committed, s2, wait1, wait2, repeats, after, hy1, hy2. rewrite H1, H2, H3, H4, Hs1. split_and!; try done.
  cbn [app]. repeat (rewrite <- app_assoc; cbn [app]). done.
Qed.
Lemma grows_drop name : grows (drop_session name) (fun _ _ => True).
Proof. apply grows_any. intros w. unfold drop_session. destruct (_ !! _); [by exists [XClose name]|by exists []]. Qed.
Lemma grows_leaveSession name o inTransaction : grows (leaveSession env name o inTransaction)
  (fun o' s => so_err o' = None -> so_err o = None /\ (inTransaction = false -> exists tail, o' = o <| so_logTail := tail |>)).
Proof.
  eapply grows_bind with (Q := fun o' _ => so_err o' = None -> o' = o).
  - destruct inTransaction; cbn [andb]; [|by apply grows_ret]. destruct (vfsSessionReusable _); [|by apply grows_ret].
    eapply grows_bind; [apply grows_exec|]. intros [rows|err] s1 _; by apply grows_ret.
  - intros o' s1 Ho. eapply grows_bind; [apply grows_ask|]. intros logTail s2 _. eapply grows_bind with (Q := fun _ _ => True); [destruct (vfsSessionReusable _); [by apply grows_ret|apply grows_drop]|].
    intros [] s3 _. apply grows_ret. simpl. intros He. rewrite <- (Ho He). split; [done|]. intros _. by exists logTail.
Qed.
Lemma grows_waitHydrated name budget : grows (waitHydrated env name budget) (fun r s => snd r = None -> exists hy rest, s = XHydration name (Ok hy) :: rest /\ hy_failure hy = "" /\ hy_complete hy = true).
Proof.
  eapply grows_bind; [apply grows_ask|]. intros polls s1 _. revert s1. induction polls as [|polls IH]; intros s1; (eapply grows_bind; [apply grows_ask|]); intros [hy|err] s2 ->; try (by apply grows_ret);
    (destruct (eqs_spec (hy_failure hy) ""); cbn [negb]; [|by apply grows_ret]); (destruct (hy_complete hy) eqn:Hc; [apply grows_ret; intros _; by exists hy, s1|]).
  - eapply grows_bind; [apply grows_waitEnded|]. intros err s3 _. by apply grows_ret.
  - eapply grows_bind; [apply grows_ask|]. intros [] s3 ->. eapply grows_post; [apply (IH (XSleep :: XHydration name (Ok hy) :: s1))|].
    intros r s4 H Hr. destruct (H Hr) as (hy' & rest & H1 & H2). exists hy', rest. split; [|done]. rewrite <- H1, <- !app_assoc. done.
Qed.
Lemma grows_session name : grows (session env name) (fun _ _ => True).
Proof.
  assert (grows (startSession env name) (fun _ _ => True)) as Hs.
  { eapply grows_bind; [apply grows_ask|]. intros [err|] s1 _; [by apply grows_ret|]. intros w. by exists []. }
  assert (grows (usable <~ xask (xe_usable env) (XUsable name); if (usable : bool) then xret None else (drop_session name ;~ startSession env name)) (fun _ _ => True)) as Hu.
  { eapply grows_bind; [apply grows_ask|]. intros [|] s1 _; [by apply grows_ret|]. eapply grows_bind; [apply grows_drop|]. intros [] s2 _. exact Hs. }
  intros w. unfold session. destruct (xw_sessions w !! name); [apply Hu|apply Hs].
Qed.
Lemma heldBy_tail name o tail seg : heldBy name o seg -> heldBy name (o <| so_logTail := tail |>) seg.
Proof. intros [H1 H2 H3 H4]. by split. Qed.
(** The outcome comes from one held transaction on a hydrated session. *)
Definition readsOf (o : vfsSnapshotOutcome) (h : vfsHist) : Prop :=
  exists post seg hy pre, h = post ++ seg ++ XHold :: XHydration vfsSnapshotSession (Ok hy) :: pre /\ hy_failure hy = "" /\ hy_complete hy = true /\ heldBy vfsSnapshotSession o seg.
Lemma readsOf_app o h1 h2 h3 : readsOf o h2 -> readsOf o (h1 ++ h2 ++ h3).
Proof. intros (post & seg & hy & pre & -> & H). exists (h1 ++ post), seg, hy, (pre ++ h3). split; [|done]. repeat (rewrite <- app_assoc; cbn [app]). done. Qed.
Lemma grows_runSnapshot : grows (runSnapshot env) (fun o s => so_err o = None -> readsOf o s).
Proof.
  eapply grows_bind; [apply grows_session|]. intros [err|] s1 _; [by apply grows_ret|]. eapply grows_bind; [apply grows_waitHydrated|]. intros [hydration [err|]] s2 Hs2; cbn [fst snd].
  { eapply grows_post; [apply grows_leaveSession|]. intros o s H He. by destruct (H He). }
  destruct (Hs2 eq_refl) as (hy & rest & -> & Hf & Hc). eapply grows_bind; [apply grows_ask|]. intros [] s3 ->.
  eapply grows_bind; [by apply grows_holdTransaction|]. intros [held open] s4 Hs4. cbn [fst snd] in Hs4 |- *. eapply grows_bind; [apply grows_ask|]. intros [] s5 ->.
  eapply grows_post; [apply grows_leaveSession|]. intros o s6 H6 He. destruct (H6 He) as [Hh Ht]. destruct (Hs4 Hh) as (Hopen & _ & Hheld). destruct (Ht Hopen) as [tail ->].
  exists (s6 ++ [XRelease]), s4, hy, (rest ++ s1). split_and!; [|done|done|by apply heldBy_tail]. repeat (rewrite <- app_assoc; cbn [app]). done.
Qed.

Lemma In_numbered {A} (l : list A) k p : In p l -> exists i, In (i, p) (combine (seq k (length l)) l).
Proof. revert k. induction l as [|x l IH]; intros k; [done|]. intros [->|Hp]; [exists k; by left|]. destruct (IH (S k) Hp) as [i Hi]. exists i. by right. Qed.
Lemma drifted_spec o p : In p (so_repeats o) -> drifted o = [] -> pr_raw p = pr_raw (so_first o).
Proof.
  intros Hp Hd. apply map_eq_nil in Hd. destruct (In_numbered (so_repeats o) 1 p Hp) as [i Hi]. destruct (eqs_spec (pr_raw p) (pr_raw (so_first o))) as [|Hne]; [done|]. exfalso.
  eapply (in_nil (a := (i, p))). rewrite <- Hd. apply filter_In. split; [done|]. apply eqs_false in Hne. simpl. by rewrite Hne.
Qed.
Lemma drifted_some o d l : drifted o = d :: l -> exists p, In p (so_repeats o) /\ pr_raw p <> pr_raw (so_first o).
Proof.
  intros Hd. assert (In d (drifted o)) as Hin by (rewrite Hd; by left). apply in_map_iff in Hin as ([i p] & _ & Hin). apply filter_In in Hin as [Hin Hne].
  exists p. split; [by apply in_combine_r in Hin|]. apply negb_true_iff, eqs_false in Hne. exact Hne.
Qed.

(** ** The cycles that reach a verdict *)

Lemma grows_and {A} (m : X A) (Q R : A -> vfsHist -> Prop) : grows m Q -> grows m R -> grows m (fun a s => Q a s /\ R a s).
Proof. intros H1 H2 w. destruct (H1 w) as (s & Hs & HQ), (H2 w) as (s' & Hs' & HR). assert (s' = s) as -> by (apply (app_inv_tail (xw_hist w)); congruence). by exists s. Qed.
(** A program that commits nothing, and one that does not see hydrated reads on. *)
Definition quiet {A} (m : X A) : Prop := grows m (fun _ s => committedYet s = false).
Definition blind {A} (m : X A) : Prop := grows m (fun _ s => activeSeen s = false).
Lemma committedYet_app a b : committedYet (a ++ b) = committedYet a || committedYet b.
Proof. apply existsb_app. Qed.
Lemma activeSeen_app a b : activeSeen (a ++ b) = activeSeen a || activeSeen b.
Proof. apply existsb_app. Qed.
Lemma quiet_bind {A B} (m : X A) (k : A -> X B) : quiet m -> (forall a, quiet (k a)) -> quiet (xbind m k).
Proof. intros Hm Hk. eapply grows_bind; [exact Hm|]. intros a s1 H1. eapply grows_post; [apply Hk|]. intros b s2 H2. simpl. by rewrite committedYet_app, H1, H2. Qed.
Lemma blind_bind {A B} (m : X A) (k : A -> X B) : blind m -> (forall a, blind (k a)) -> blind (xbind m k).
Proof. intros Hm Hk. eapply grows_bind; [exact Hm|]. intros a s1 H1. eapply grows_post; [apply Hk|]. intros b s2 H2. simpl. by rewrite activeSeen_app, H1, H2. Qed.
Lemma quiet_ret {A} (a : A) : quiet (xret a).
Proof. by apply grows_ret. Qed.
Lemma blind_ret {A} (a : A) : blind (xret a).
Proof. by apply grows_ret. Qed.
Lemma quiet_ask {A} (answer : vfsHist -> A) c : (forall a, committedYet [c a] = false) -> quiet (xask answer c).
Proof. intros H. eapply grows_post; [apply grows_ask|]. intros a s ->. apply H. Qed.
Lemma blind_ask {A} (answer : vfsHist -> A) c : (forall a, activeSeen [c a] = false) -> blind (xask answer c).
Proof. intros H. eapply grows_post; [apply grows_ask|]. intros a s ->. apply H. Qed.
Lemma grows_exec_all name statement : grows (exec env name statement) (fun _ s => exists r, s = [XExec name statement r]).
Proof.
  apply grows_bind with (Q := fun r s => s = [XExec name statement r]).
  - intros w. by exists [XExec name statement (xe_exec env (xw_hist w) statement)].
  - intros r s1 ->. apply grows_ret. by exists r.
Qed.
Lemma quiet_exec name statement : (statement =s "COMMIT") = false -> quiet (exec env name statement).
Proof. intros H. eapply grows_post; [apply grows_exec_all|]. intros ? s [[rows|err] ->]; [|done]. simpl. by rewrite H. Qed.
Lemma blind_exec name statement : blind (exec env name statement).
Proof. eapply grows_post; [apply grows_exec_all|]. by intros ? s [r ->]. Qed.
Lemma quiet_txid name : quiet (txid env name).
Proof. eapply grows_post; [apply grows_txid|]. by intros ? s ->. Qed.
Lemma blind_txid name : blind (txid env name).
Proof. eapply grows_post; [apply grows_txid|]. by intros ? s ->. Qed.
Lemma quiet_drop name : quiet (drop_session name).
Proof. intros w. unfold drop_session. destruct (_ !! _); [by exists [XClose name]|by exists []]. Qed.
Lemma blind_drop name : blind (drop_session name).
Proof. intros w. unfold drop_session. destruct (_ !! _); [by exists [XClose name]|by exists []]. Qed.
Ltac quietly :=
  repeat first
    [ apply quiet_ret | apply blind_ret | apply quiet_txid | apply blind_txid | apply blind_exec | apply quiet_exec; reflexivity | apply quiet_drop | apply blind_drop
    | apply quiet_ask; (done || by intros [|]) | apply blind_ask; (done || by intros [|])
    | apply quiet_bind; [|intros ?] | apply blind_bind; [|intros ?] | case_match ].
Lemma quiet_probe name : quiet (probe env name).
Proof. unfold probe. quietly. Qed.
Lemma blind_probe name : blind (probe env name).
Proof. unfold probe. quietly. Qed.
Lemma quiet_sleep : quiet (sleepContext env).
Proof. unfold sleepContext. quietly. Qed.
Lemma blind_sleep : blind (sleepContext env).
Proof. unfold sleepContext. quietly. Qed.
Lemma quiet_hydrationActive name : quiet (hydrationActive env name).
Proof. unfold hydrationActive. quietly. Qed.
Lemma quiet_waitEnded err : quiet (waitEnded env err).
Proof. unfold waitEnded. quietly. Qed.
Lemma quiet_waitHydrated name budget : quiet (waitHydrated env name budget).
Proof. apply quiet_bind; [by apply quiet_ask|]. intros polls. induction polls as [|polls IH]; cbn [waitHydratedPolls]; quietly; apply quiet_waitEnded || exact IH. Qed.
Lemma quiet_waitTXID name boundary : quiet (waitTXID env name boundary).
Proof. apply quiet_bind; [by apply quiet_ask|]. intros polls. induction polls as [|polls IH]; cbn [waitTXIDPolls]; quietly; apply quiet_waitEnded || exact IH. Qed.
Lemma quiet_writeProbe : quiet (writeProbe env).
Proof. apply quiet_bind; [by apply quiet_ask|]. intros polls. induction polls as [|polls IH]; cbn [writeProbePolls]; quietly; apply quiet_waitEnded || exact IH. Qed.
Lemma quiet_session name : quiet (session env name).
Proof.
  assert (quiet (startSession env name)) as Hs by (unfold startSession; quietly; intros w; by exists []).
  assert (quiet (usable <~ xask (xe_usable env) (XUsable name); if (usable : bool) then xret None else (drop_session name ;~ startSession env name))) as Hu by (quietly; exact Hs).
  intros w. unfold session. destruct (xw_sessions w !! name); [apply Hu|apply Hs].
Qed.
Lemma quiet_readRepeats name n o : quiet (readRepeats env name n o).
Proof. revert o. induction n as [|n IH]; intros o; cbn [readRepeats]; [apply quiet_ret|]. apply quiet_bind; [apply quiet_sleep|]. intros [err|]; quietly; apply IH. Qed.
Lemma blind_leaveSession name o inTransaction : blind (leaveSession env name o inTransaction).
Proof. unfold leaveSession. quietly. Qed.

Lemma finishedReads_quiet h : committedYet h = false -> finishedReads h = false.
Proof.
  induction h as [|c h IH]; [done|]. change (c :: h) with ([c] ++ h). rewrite committedYet_app, orb_false_iff. intros [_ Hh]. specialize (IH Hh).
  destruct c as [| | |? [hy|]| | | | | | | | | | | |]; simpl; try done. by rewrite Hh, IH, andb_false_r.
Qed.
Lemma finishedReads_blind a h : activeSeen a = false -> finishedReads (a ++ h) = finishedReads h.
Proof.
  induction a as [|c a IH]; [done|]. change (c :: a) with ([c] ++ a) at 1. rewrite activeSeen_app, orb_false_iff. intros [Hc Ha]. specialize (IH Ha).
  destruct c as [| | |? [hy|]| | | | | | | | | | | |]; simpl; try done. simpl in Hc. rewrite orb_false_r in Hc. by rewrite Hc, IH.
Qed.
Lemma finishedReads_after a h : committedYet h = false -> finishedReads (a ++ h) = finishedReads a.
Proof.
  intros Hh. induction a as [|c a IH]; [by apply finishedReads_quiet|].
  destruct c as [| | |? [hy|]| | | | | | | | | | | |]; simpl; try done. by rewrite committedYet_app, Hh, orb_false_r, IH.
Qed.
Lemma finishedReads_app a h : finishedReads h = true -> finishedReads (a ++ h) = true.
Proof. intros Hh. induction a as [|c a IH]; [done|]. destruct c as [| | |? [hy|]| | | | | | | | | | | |]; simpl; try done. by rewrite IH, orb_true_r. Qed.

Lemma settled_seen name : grows (settledHydrationActive env name) (fun r s => r <> None -> activeSeen s = false).
Proof.
  eapply grows_bind; [apply blind_sleep|]. intros [err|] s1 H1; [by apply grows_ret|]. eapply grows_bind; [apply grows_ask|].
  intros [hy|err] s2 ->; apply grows_ret; intros Hr; rewrite !activeSeen_app, H1; [|done]. simpl. by destruct (hy_failure hy =s "").
Qed.
(** The reads of an outcome with an error do not count. *)
Lemma finishTransaction_unfinished name o : grows (finishTransaction env name o) (fun r s => so_err (fst r) <> None -> finishedReads s = false).
Proof.
  eapply grows_bind; [apply (quiet_readRepeats name)|]. intros o' s1 H1. destruct (so_err o') as [err|] eqn:He; [apply grows_ret; intros _; by apply finishedReads_quiet|].
  eapply grows_bind; [apply (grows_and _ _ _ (grows_exec name "COMMIT") (blind_exec name "COMMIT"))|]. intros [rows|err] s2 [Hs2 Hb2].
  2: { apply grows_ret. intros _. simpl. rewrite finishedReads_blind by done. by apply finishedReads_quiet. }
  eapply grows_bind; [apply blind_probe|]. intros [p|err] s3 Hb3.
  2: { apply grows_ret. intros _. cbn [app]. rewrite <- !app_assoc, (finishedReads_blind s3 _ Hb3), (finishedReads_blind s2 _ Hb2). by apply finishedReads_quiet. }
  eapply grows_bind; [apply (settled_seen name)|]. intros err s4 Hs4. apply grows_ret. simpl. intros Hn. specialize (Hs4 Hn).
  rewrite <- !app_assoc, (finishedReads_blind s4 _ Hs4), (finishedReads_blind s3 _ Hb3), (finishedReads_blind s2 _ Hb2). by apply finishedReads_quiet.
Qed.
Lemma holdTransaction_unfinished name o : grows (holdTransaction env name o) (fun r s => so_err (fst r) <> None -> finishedReads s = false).
Proof.
  eapply grows_bind; [by apply (quiet_exec name "BEGIN")|]. intros [begun|err] s1 H1; [|apply grows_ret; intros _; by apply finishedReads_quiet].
  eapply grows_bind; [apply quiet_probe|]. intros [p|err] s2 H2; [|apply grows_ret; intros _; apply finishedReads_quiet; simpl; by rewrite ?committedYet_app, ?H2, ?H1].
  eapply grows_bind; [apply quiet_writeProbe|]. intros [e|err] s3 H3; [|apply grows_ret; intros _; apply finishedReads_quiet; simpl; by rewrite ?committedYet_app, ?H3, ?H2, ?H1].
  eapply grows_bind; [by apply (quiet_ask (xe_sync env) XSync)|]. intros [t|err] s4 H4; [|apply grows_ret; intros _; apply finishedReads_quiet; simpl; by rewrite ?committedYet_app, ?H4, ?H3, ?H2, ?H1].
  eapply grows_bind; [apply quiet_waitTXID|]. intros [r [err|]] s5 H5; [apply grows_ret; intros _; apply finishedReads_quiet; simpl; by rewrite ?committedYet_app, ?H5, ?H4, ?H3, ?H2, ?H1|].
  cbn [snd]. eapply grows_bind; [apply quiet_hydrationActive|]. intros [err|] s6 H6; [apply grows_ret; intros _; apply finishedReads_quiet; simpl; by rewrite ?committedYet_app, ?H6, ?H5, ?H4, ?H3, ?H2, ?H1|].
  eapply grows_post; [apply finishTransaction_unfinished|]. intros held s7 H7 He. simpl.
  rewrite <- !app_assoc, finishedReads_after by (by rewrite ?committedYet_app, ?H6, ?H5, ?H4, ?H3, ?H2, ?H1). by apply H7.
Qed.
(** Leaving a session makes an error only where there was one or the transaction was open. *)
Lemma leaveSession_error name o inTransaction : grows (leaveSession env name o inTransaction) (fun o' _ => so_err o' <> None -> so_err o <> None \/ inTransaction = true).
Proof.
  eapply grows_bind with (Q := fun o' _ => so_err o' <> None -> so_err o <> None \/ inTransaction = true).
  - destruct inTransaction; cbn [andb]; [|apply grows_ret; by left]. destruct (vfsSessionReusable _); [|apply grows_ret; by left].
    eapply grows_bind; [apply grows_exec_all|]. intros r s1 _. apply grows_ret. by right.
  - intros o' s1 Ho. eapply grows_bind; [apply grows_ask|]. intros logTail s2 _. eapply grows_bind with (Q := fun _ _ => True); [destruct (vfsSessionReusable _); [by apply grows_ret|apply grows_drop]|].
    intros [] s3 _. by apply grows_ret.
Qed.
Lemma runSnapshot_unfinished : grows (runSnapshot env) (fun o s => so_err o <> None -> finishedReads s = false).
Proof.
  eapply grows_bind; [apply quiet_session|]. intros [err|] s1 H1; [apply grows_ret; intros _; by apply finishedReads_quiet|].
  eapply grows_bind; [apply quiet_waitHydrated|]. intros [hydration [err|]] s2 H2; cbn [fst snd].
  { eapply grows_post; [apply blind_leaveSession|]. intros o s Hs _. rewrite <- !app_assoc, (finishedReads_blind s _ Hs). apply finishedReads_quiet. by rewrite committedYet_app, H1, H2. }
  eapply grows_bind; [by apply (quiet_ask (fun _ => tt) (fun _ => XHold))|]. intros [] s3 H3.
  eapply grows_bind; [apply grows_and; [by apply grows_holdTransaction|apply holdTransaction_unfinished]|]. intros [held open] s4 [H4 H4']. cbn [fst snd] in H4, H4' |- *.
  eapply grows_bind; [by apply (blind_ask (fun _ => tt) (fun _ => XRelease))|]. intros [] s5 H5.
  eapply grows_post; [apply grows_and; [apply blind_leaveSession|apply leaveSession_error]|]. intros o s6 [H6 H6'] He.
  rewrite <- !app_assoc, (finishedReads_blind s6 _ H6), (finishedReads_blind s5 _ H5), finishedReads_after by (by rewrite ?committedYet_app, ?H3, ?H2, ?H1). apply H4'.
  destruct (H6' He) as [|Hopen]; [done|]. intros Hn. destruct (H4 Hn) as [Hf _]. congruence.
Qed.
Lemma readsOf_finished o h : readsOf o h -> finishedReads h = true.
Proof.
  intros (post & seg & hy & pre & -> & _ & _ & [(begun & committed & first & wait1 & wait2 & repeats & after & hy1 & hy2 & -> & _ & _ & _ & _ & _ & _ & Hf) _ _ _]).
  apply finishedReads_app. cbn [app finishedReads]. rewrite Hf. cbn [app]. apply orb_true_iff. left. simpl. rewrite !committedYet_app. simpl. apply orb_true_iff. left. by rewrite orb_true_r.
Qed.

(** The update of the primary is seen after the commit, and it changed what was read first. *)
Definition updateSeen (o : vfsSnapshotOutcome) : Prop :=
  so_expected o <> "" /\ so_expected o <> pr_raw (so_first o) /\ pr_raw (so_after o) = so_expected o.
Definition inconclusive (result : verificationResult) : Prop := vr_Status result = "aborted" /\ vr_Inconclusive result <> None.
Definition differs (o : vfsSnapshotOutcome) (p : vfsProbe) : Prop := In p (so_repeats o) /\ pr_raw p <> pr_raw (so_first o).
Lemma drifted_iff o : (exists p, differs o p) <-> drifted o <> [].
Proof.
  split; [intros (p & Hin & Hne) Hd; by apply Hne, drifted_spec|]. destruct (drifted o) as [|d l] eqn:Hd; [done|]. intros _. by apply (drifted_some o d l).
Qed.
Lemma confirmed_iff o : so_committed o = true -> (confirmed o = true <-> updateSeen o).
Proof. intros Hc. unfold confirmed, updateSeen. rewrite Hc, !andb_true_iff, !negb_true_iff, !eqs_false, eqs_true. tauto. Qed.
(** The three verdicts of an outcome without an error. *)
Lemma result_verdict o a b : so_err o = None -> so_committed o = true -> let result := vfsSnapshotResult o a b in
  ((exists p, differs o p) -> vr_Status result = "failed") /\
  (~ (exists p, differs o p) -> updateSeen o -> vr_Status result = "passed") /\
  (~ (exists p, differs o p) -> ~ updateSeen o -> inconclusive result).
Proof.
  intros He Hc. unfold vfsSnapshotResult. rewrite He. rewrite <- (confirmed_iff o Hc). pose proof (drifted_iff o) as Hd.
  destruct (drifted o) as [|d l].
  - assert (~ (exists p, differs o p)) as Hno by (intros Hp; by apply Hd). split_and!; [done|intros _ ->; done|]. intros _ Hu. by destruct (confirmed o).
  - assert (exists p, differs o p) as Hyes by (by apply Hd). done.
Qed.

(** C13: A cycle of the snapshot check has a verdict exactly when it finished its reads, that is when hydrated reads were seen to be on after
    a transaction of the cycle was committed.  Then they are the reads of one transaction held by a hydrated session: begun, probed, an update of the primary,
    its sync, a reader that reached the synced position without giving up hydrated reads, sixteen probes, the
    commit and another probe; and the check fails when one of the sixteen differs from the first, passes when none does and the last probe
    shows the update, and is inconclusive when none does and it does not.  Every other cycle is inconclusive, and says why. *)
Theorem vfs_snapshot_verdict w :
  let result := fst (snapshotCycle env w) in
  vr_Passed result = (vr_Status result =s "passed") /\
  exists calls, xw_hist (snd (snapshotCycle env w)) = calls ++ xw_hist w /\
    if finishedReads calls
    then exists o, readsOf o calls /\
      ((exists p, differs o p) -> vr_Status result = "failed") /\
      (~ (exists p, differs o p) -> updateSeen o -> vr_Status result = "passed") /\
      (~ (exists p, differs o p) -> ~ updateSeen o -> inconclusive result)
    else inconclusive result.
Proof.
  assert (grows (snapshotCycle env) (fun result s => exists o a b, result = vfsSnapshotResult o a b /\ (so_err o = None -> readsOf o s) /\ (so_err o <> None -> finishedReads s = false))) as H.
  { eapply grows_bind; [apply (quiet_ask (xe_clock env) (fun _ => XClock)); done|]. intros a s1 H1. eapply grows_bind; [apply (grows_and _ _ _ grows_runSnapshot runSnapshot_unfinished)|]. intros o s2 [Ho Hn].
    eapply grows_bind; [apply (blind_ask (xe_clock env) (fun _ => XClock)); done|]. intros b s3 H3. apply grows_ret. exists o, a, b. split_and!; [done|intros He; cbn [app]; rewrite <- app_assoc; apply readsOf_app, (Ho He)|].
    intros He. cbn [app]. rewrite <- app_assoc, (finishedReads_blind s3 _ H3), finishedReads_after by done. by apply Hn. }
  destruct (H w) as (s & Hh & o & a & b & Hr & Ho & Hn). cbv zeta. split; [rewrite Hr; unfold vfsSnapshotResult; by repeat case_match|].
  exists s. split; [done|]. rewrite Hr. destruct (so_err o) as [err|] eqn:He.
  - rewrite Hn by done. unfold vfsSnapshotResult. by rewrite He.
  - specialize (Ho eq_refl). rewrite (readsOf_finished o s Ho). exists o. split; [done|]. apply result_verdict; [done|].
    destruct Ho as (? & ? & ? & ? & _ & _ & _ & [_ _ _ Hc]). exact Hc.
Qed.
End Evidence.

(** * The log of a session *)

(** The session has read this much of its log. *)
Record seenLog (read : string) (s : vfsLog) : Prop := {
  sl_offset : vl_offset s = String.length read;
  sl_rest : vl_rest s = List.last (Split newline read) "";
  sl_state : vl_state s = fold_left scanLine (removelast (Split newline read)) (mkHydration false "")
}.
Lemma Split_cat sep a b : Split sep (a +:+ b) = removelast (Split sep a) ++ Split sep (List.last (Split sep a) "" +:+ b).
Proof.
  induction a as [|c a IH]; [done|]. change (String c a +:+ b) with (String c (a +:+ b)). cbn [Split]. pose proof (Split_nonempty sep a) as Hne.
  destruct (Ascii.eqb c sep) eqn:Hc.
  - rewrite IH. destruct (Split sep a) as [|x l]; [done|]. done.
  - rewrite IH. destruct (Split sep a) as [|x [|y l]]; [done| |].
    + simpl. change (String c x +:+ b) with (String c (x +:+ b)). cbn [Split]. by rewrite Hc.
    + done.
Qed.
Lemma drop_read a b : str_drop (String.length a) (a +:+ b) = b.
Proof. induction a as [|c a IH]; [by destruct b|done]. Qed.
Lemma length_cat a b : String.length (a +:+ b) = String.length a + String.length b.
Proof. induction a as [|c a IH]; [done|]. simpl. by rewrite <- IH. Qed.
Lemma hydration_seen read chunk s : seenLog read s -> seenLog (read +:+ chunk) (snd (hydration (read +:+ chunk) s)) /\
  fst (hydration (read +:+ chunk) s) = vl_state (snd (hydration (read +:+ chunk) s)).
Proof.
  intros [H1 H2 H3]. unfold hydration. rewrite H1, length_cat. destruct (Nat.leb_spec (String.length read + String.length chunk) (String.length read)) as [Hle|Hlt].
  - destruct chunk; [|simpl in Hle; lia]. by rewrite append_nil_r.
  - rewrite drop_read, H2. cbn [fst snd vl_state vl_offset vl_rest]. split; [|done]. split; cbn [vl_state vl_offset vl_rest]; [by rewrite length_cat|..]; rewrite (Split_cat newline read chunk);
      pose proof (Split_nonempty newline (List.last (Split newline read) "" +:+ chunk)) as Hne.
    + destruct (Split newline (List.last (Split newline read) "" +:+ chunk)) as [|x l] using rev_ind; [done|]. by rewrite app_assoc, !List.last_last.
    + rewrite H3, <- fold_left_app. f_equal. destruct (Split newline (List.last (Split newline read) "" +:+ chunk)) as [|x l] using rev_ind; [done|]. by rewrite app_assoc, !List.removelast_last.
Qed.
(** However the log grows between the looks at it, what the session knows of its hydration is what one scan of the complete lines finds. *)
Theorem hydration_is_one_scan chunks : let '(log, s) := fold_left (fun '(log, s) chunk => (log +:+ chunk, snd (hydration (log +:+ chunk) s))) chunks ("", mkVFSLog (mkHydration false "") 0 "") in
  vl_state s = fold_left scanLine (removelast (Split newline log)) (mkHydration false "").
Proof.
  assert (forall log s, seenLog log s -> let '(log', s') := fold_left (fun '(log, s) chunk => (log +:+ chunk, snd (hydration (log +:+ chunk) s))) chunks (log, s) in seenLog log' s') as H.
  { induction chunks as [|chunk chunks IH]; intros log s Hs; [done|]. rewrite fold_left_cons. apply IH. by apply hydration_seen. }
  specialize (H "" (mkVFSLog (mkHydration false "") 0 "") ltac:(by split)). destruct (fold_left _ _ _) as [log s]. by destruct H.
Qed.

(** * What a verdict of the read check rests on *)

(** The statements were run one after the other and these are their rows. *)
Fixpoint answeredBy (name : string) (asked answered : list vfsReadQuery) (seg : vfsHist) : Prop :=
  match asked, answered with
  | [], [] => seg = []
  | a :: asked, b :: answered => exists rows s, seg = s ++ [XExec name (qu_statement a) (Ok rows)] /\ b = a <| qu_vfs := Join rows (String newline "") |> /\ answeredBy name asked answered s
  | _, _ => False
  end.
Record comparedBy (name : string) (o : vfsReadOutcome) (seg : vfsHist) : Prop := {
  cb_calls : exists aggregate tables queries wait hy1 hy2,
    seg = XHydration name (Ok hy2) :: XSleep :: XCanceled false :: queries ++ XPrimary (Ok (aggregate, tables)) :: XHydration name (Ok hy1) :: XTXID name (Ok (ro_txid o)) :: wait /\
    answeredBy name (primaryReadQueries aggregate tables) (ro_queries o) queries /\ forallb (waitCall name) wait = true /\ hy_failure hy1 = "" /\ hy_failure hy2 = "";
  cb_reached : (ro_boundary o <= ro_txid o)%Z
}.

Section Comparison.
Variable env : vfsEnv.

Lemma grows_readQueries name queries : grows (readQueries env name queries) (fun r s => match r with Ok answered => answeredBy name queries answered s | Err _ => True end).
Proof.
  induction queries as [|query queries IH]; [by apply grows_ret|]. eapply grows_bind; [apply grows_exec|]. intros [rows|err] s1 Hs1; [|by apply grows_ret].
  eapply grows_bind; [apply IH|]. intros [rest|err] s2 Hs2; apply grows_ret; [|done]. exists rows, s2. by rewrite Hs1.
Qed.
Lemma grows_readSession name o : ro_err o = None -> grows (readSession env name o) (fun o' s => ro_err o' = None -> ro_boundary o' = ro_boundary o /\
  exists seg hy pre, s = seg ++ XHydration name (Ok hy) :: pre /\ hy_failure hy = "" /\ hy_complete hy = true /\ comparedBy name o' seg).
Proof.
  intros Ho. eapply grows_bind; [apply grows_waitHydrated|]. intros [hydration [err|]] s1 Hs1; cbn [fst snd]; [by apply grows_ret|]. destruct (Hs1 eq_refl) as (hy & pre & -> & Hf & Hc).
  eapply grows_bind; [apply grows_waitTXID|]. intros [reached [err|]] s2 Hs2; cbn [fst snd]; [by apply grows_ret|]. destruct (Hs2 eq_refl) as (Hreach & wait & -> & Hw). cbn [fst] in Hreach |- *.
  eapply grows_bind; [apply grows_hydrationActive|]. intros [err|] s3 Hs3; [by apply grows_ret|]. destruct (Hs3 eq_refl) as (hy1 & -> & Hf1).
  eapply grows_bind; [apply grows_ask|]. intros [[aggregate tables]|err] s4 ->; [|by apply grows_ret]. eapply grows_bind; [apply grows_readQueries|]. intros [queries|err] s5 Hs5; [|by apply grows_ret].
  eapply grows_bind; [apply grows_settled|]. intros err s6 Hs6. apply grows_ret. simpl. intros ->. destruct (Hs6 eq_refl) as (hy2 & -> & Hf2). split; [done|].
  eexists (XHydration name (Ok hy2) :: XSleep :: XCanceled false :: s5 ++ XPrimary (Ok (aggregate, tables)) :: XHydration name (Ok hy1) :: XTXID name (Ok reached) :: wait), hy, pre.
  split_and!; [repeat (rewrite <- app_assoc; cbn [app]); done|done|done|]. split; [|exact Hreach]. by exists aggregate, tables, s5, wait, hy1, hy2.
Qed.
Definition comparesOf (o : vfsReadOutcome) (h : vfsHist) : Prop :=
  exists post seg hy pre, h = post ++ seg ++ XHydration vfsReadSession (Ok hy) :: pre /\ hy_failure hy = "" /\ hy_complete hy = true /\ comparedBy vfsReadSession o seg.
Lemma comparesOf_app o h1 h2 h3 : comparesOf o h2 -> comparesOf o (h1 ++ h2 ++ h3).
Proof. intros (post & seg & hy & pre & -> & H). exists (h1 ++ post), seg, hy, (pre ++ h3). split; [|done]. repeat (rewrite <- app_assoc; cbn [app]). done. Qed.
Lemma grows_runRead boundary : grows (runRead env boundary) (fun o s => ro_err o = None -> ro_boundary o = boundary /\ comparesOf o s).
Proof.
  unfold runRead. destruct (boundary =? 0)%Z; [by apply grows_ret|]. eapply grows_bind; [apply grows_session|]. intros [err|] s1 _; [by apply grows_ret|].
  eapply grows_bind; [by apply grows_readSession|]. intros o s2 Ho. eapply grows_bind; [apply grows_ask|]. intros logTail s3 ->.
  eapply grows_bind with (Q := fun _ _ => True); [destruct (vfsSessionReusable _); [by apply grows_ret|apply grows_drop]|]. intros [] s4 _. apply grows_ret. simpl. intros He.
  destruct (Ho He) as (Hb & seg & hy & pre & -> & Hf & Hc & [H1 H2]). split; [done|]. exists (s4 ++ [XLogTail]), seg, hy, (pre ++ s1).
  split_and!; [repeat (rewrite <- app_assoc; cbn [app]); done|done|done|]. by split.
Qed.

(** The read check passes or fails only on the answers of a hydrated session that had reached the boundary, to every query of the quiesced
    primary: it passes when all of them equal the primary's, and fails when one differs. *)
Theorem vfs_read_verdict boundary w :
  let result := fst (ReadCheck env boundary w) in
  vr_Passed result = (vr_Status result =s "passed") /\
  (vr_Status result = "aborted" /\ vr_Inconclusive result <> None \/
   exists o, ro_boundary o = boundary /\ comparesOf o (xw_hist (snd (ReadCheck env boundary w))) /\
     (vr_Status result = "passed" /\ (forall query, In query (ro_queries o) -> qu_primary query = qu_vfs query) \/
      vr_Status result = "failed" /\ exists query, In query (ro_queries o) /\ qu_primary query <> qu_vfs query)).
Proof.
  assert (grows (ReadCheck env boundary) (fun result s => exists o a b, result = vfsReadResult o a b /\ (ro_err o = None -> ro_boundary o = boundary /\ comparesOf o s))) as H.
  { eapply grows_bind; [apply grows_ask|]. intros a s1 _. eapply grows_bind; [apply grows_runRead|]. intros o s2 Ho. eapply grows_bind; [apply grows_ask|]. intros b s3 _. apply grows_ret.
    exists o, a, b. split; [done|]. intros He. destruct (Ho He) as [Hb Hs]. split; [done|]. rewrite <- app_assoc. by apply comparesOf_app. }
  destruct (H w) as (s & Hh & o & a & b & Hr & Ho). cbv zeta. rewrite Hr, Hh. unfold vfsReadResult. destruct (ro_err o) as [err|] eqn:He; [split; [done|by left]|].
  destruct (Ho eq_refl) as [Hb Hs]. pose proof (comparesOf_app o [] s (xw_hist w) Hs) as Hreads. simpl in Hreads. destruct (ro_queries o) as [|q0 l0] eqn:Hq; [split; [done|by left]|].
  destruct (mismatches o) as [|m l] eqn:Hm; (split; [done|right]); exists o; (split; [done|]); (split; [done|]); rewrite Hq.
  - left. split; [done|]. intros query Hin. destruct (eqs_spec (qu_primary query) (qu_vfs query)) as [|Hne]; [done|]. exfalso. apply (in_nil (a := query)). rewrite <- Hm.
    apply filter_In. rewrite Hq. split; [done|]. apply eqs_false in Hne. by rewrite Hne.
  - right. split; [done|]. exists m. assert (In m (mismatches o)) as Hin by (rewrite Hm; by left). apply filter_In in Hin as [Hin Hne]. rewrite Hq in Hin. split; [done|]. by apply negb_true_iff, eqs_false in Hne.
Qed.
End Comparison.

(** * Examples *)

(** A primary whose aggregate goes from [a] to [b], and a reader that shows [inside] in the transaction and [b] after it. *)
Definition updatedYet (h : vfsHist) : bool := existsb (fun c => match c with XUpdate (Ok _) => true | _ => false end) h.
Definition demoVFS (inside : vfsHist -> string) (sync : result string Z) : vfsEnv :=
  mkVFSEnv (fun _ => true) (fun _ => None) (fun _ => Ok (mkHydration true ""))
    (fun h s => if s =s cacheProbeQuery then Ok [if committedYet h then "2048|1|2|2100" else inside h] else Ok []) (fun h => Ok (if updatedYet h then 9%Z else 5%Z)) (fun _ => 0) (fun _ => false)
    (fun _ => Ok "2048|1|2|2100") (fun _ => sync) (fun _ => Err "gone") (fun _ => "") (fun _ => 0%Z).
Abbreviation snapshotStatus env := (vr_Status (fst (snapshotCycle env (mkVFSWorld ∅ [])))).
Example snapshot_statuses :
  snapshotStatus (demoVFS (fun _ => "2048|1|1|2048") (Ok 9%Z)) = "passed" /\
  snapshotStatus (demoVFS (fun h => if updatedYet h then "2048|1|2|2100" else "2048|1|1|2048") (Ok 9%Z)) = "failed" /\
  snapshotStatus (demoVFS (fun _ => "2048|1|1|2048") (Err "sync")) = "aborted" /\
  snapshotStatus (demoVFS (fun _ => "2048|1|2|2100") (Ok 9%Z)) = "aborted".
Proof. split_and!; vm_compute; reflexivity. Qed.
Lemma vfs_sessions_left_clean_witness :
  xw_sessions (vfsRun (demoVFS (fun _ => "2048|1|1|2048") (Err "sync")) [ActSnapshot; ActRead 7] (mkVFSWorld ∅ [])) !! vfsSnapshotSession = Some freshSession /\ clean freshSession.
Proof.
  assert (xw_sessions (vfsRun (demoVFS (fun _ => "2048|1|1|2048") (Err "sync")) [ActSnapshot; ActRead 7] (mkVFSWorld ∅ [])) !! vfsSnapshotSession = Some freshSession) as H by (vm_compute; reflexivity).
  split; [exact H|]. exact (vfs_sessions_left_clean (demoVFS (fun _ => "2048|1|1|2048") (Err "sync")) [ActSnapshot; ActRead 7] vfsSnapshotSession freshSession H).
Defined.
